(* ===== verification/_CoqProject ===== *)
-Q . S2P
Prelude.v
Bitmap.v
Str.v
Sort.v
Ring.v
Tcp.v
TcpInv.v
TcpConn.v
TcpSys.v
TcpOpen.v
TcpErr.v
Timer.v
Wire.v
Netd.v
NetdInv.v
NetdWire.v
Port.v
Dhcp.v
DhcpInv.v
Fmt.v
CList.v
Pmm.v
Heap.v
Slab.v
Handle.v
KState.v
Sched.v
Task.v
Event.v
Msg.v
MemObj.v
KInv.v
Wheel.v
Ipc.v
Sync.v
Region.v
Asid.v
Mmu.v
MmuInv.v
MmuRange.v
MemRef.v
UserMap.v
UserInv.v
UserOps.v
