(* ===== verification/Prelude.v ===== *)
(** * zuzu: a verification of the kernel's core and of its user-level runtime

    zuzu is a microkernel for 32-bit ARM with its services.  This library models the parts whose
    correctness everything else rests on: memory from physical frames up to user mappings, the
    object system with scheduling and messages, the data structures and formatting shared by all
    programs, the synchronisation and shared memory of user programs, and the network service from
    Ethernet to TCP and DHCP.  The definitions are executable and follow the C functions one by one, with the names
    of the source where Rocq allows it; file names below are relative to src/.

    ** How code is modelled

    A value of a w-bit type is a [Z]; [w8], [w16], [w32], [w64] and [s32] write out the wrap-around.
    Stateful code is a computation [M S A] from a state to a result: [Ok], [Panic] (a NULL or stale
    pointer, a failed assertion, a division by 0) or [Diverge] (a loop whose fuel has run out).
    [wp m Q s] says that [m] run from [s] ends, without a panic, in a state and with a result that
    satisfy [Q]; so a theorem about [wp] is about total correctness.  Loops that are not structural
    take fuel; the theorems say how much is enough, and the callers pass it: 8 links of a call
    chain, 4 nested events, one round for every slot of the sleep wheel, one round of [TcpXmit] for
    every byte of a send buffer, the length of the string or array for the library's loops.
    Memory is a function from addresses to bytes or words where code computes addresses (heap,
    slab, translation tables, strings, rings), and a store of records where it follows pointers to
    objects.  Concurrent code is a schedule of atomic steps.

    ** Parts, files and what is shown

    Basic data structures.  [Bitmap] is include/bitmap.h.  [CList] is include/list.h: the pointer
    operations refine operations on sequences, which the kernel's queues use from then on
    ([list_program_refines]).  [Str], [Sort] and [Fmt] are klib/string.c, klib/mem.c,
    klib/snprintf.c, include/convert.c and include/stdlib.c: overlapping moves are right
    ([memmove_moves]), [qsort] sorts and returns ([qsort_sorts]), [vsnprintf] stays in its buffer
    for every format ([vsnprintf_bounded]) and printed numbers read back ([snprintf_atoi]).

    Physical memory and the kernel heap.  [Pmm] is kernel/mm/pmm: the bitmap and the free list
    always describe the same free frames ([PmmInit_correct], [PmmAllocFrame_correct]).  [Heap] and
    [Slab] are kernel/mm/alloc.c over the class [FrameSource], which [Pmm] implements: whatever
    the clients do, their blocks stay apart and keep their contents ([heap_clients_apart],
    [slab_clients_apart]).

    Virtual memory.  [Asid], [Mmu], [MmuInv] and [MmuRange] are arch/arm/mmu: stale entries of the
    TLB never serve another space ([tlb_isolation]) and the range operations change exactly the
    pages they are asked to, in the tables the hardware walks ([ArchMmuMap_range],
    [ArchMmuUnmap_range]).  [Region] is the sorted array of regions of kernel/mm/vmm/vmm_region.c
    with klib/bsearch.c.  [MemRef], [UserMap], [UserInv] and [UserOps] put them together with the
    memory objects of [MemObj] and the calls of vmm_map.c, vmm_user.c and svc_managememory.c:
    after any sequence of calls every page a user can reach lies in one of its regions with that
    region's protection and is never writable and executable ([user_pages_follow_regions]), a frame
    of anonymous memory has one owner ([anonymous_frames_exclusive]) and every call returns
    ([vm_calls_return]).

    Objects, scheduling and messages.  [Handle] is kernel/space/handle.c.  [KState] is the state of
    the object system, shared by [Sched] (kernel/sched/sched.c), [Task] (kernel/task/task.c),
    [Event] (kernel/ipc/event.c, observer.c, kernel/irq/irq_relay.c), [Msg] (kernel/ipc/port.c,
    msg.c) and [MemObj] (kernel/mm/mem_object.c).  [KInv] has the invariant under which the code
    follows no stale pointer, and the theorems of priority inheritance and of withdrawing a call
    ([TaskRecomputePriority_chain], [TaskCancelCall_withdraws]).  [Wheel] shows that sleepers wake
    when they should ([SchedWakeSleepers_exact], [SchedTimerExpired_in_time]), [Ipc] what a signal
    delivers ([EventSignal_delivers]).

    User-level runtime.  [Sync] is include/sync: mutual exclusion and the absence of lost wake-ups
    of zones under every schedule ([zone_exclusive], [zone_wakes]), and semaphores
    ([semaphore_counts]).  [Ring] is include/zuzu/shm_ring.c and include/net/packetring.c: first
    in, first out for every interleaving of producer and consumer ([shm_ring_fifo],
    [packet_ring_fifo]), within bounds whatever the peer writes ([shm_ring_in_bounds]).

    TCP.  [Tcp] is user/services/netd/transport/tcp.c, tcp_in.c, tcp_out.c and tcp_pcb.c for one
    connection.  [TcpInv] has the invariant of a connection and what the sending functions and the
    client's calls do to it, [TcpConn] the handlers of arriving segments and timers.  [TcpSys]
    joins two connections by a network that may lose, repeat, reorder and reset: neither fails,
    each client is given a prefix of what the other sent, and a side whose FIN is acknowledged has
    been received in full ([tcp_stream]).  [TcpOpen] adds the handshake ([tcp_session]).

    The network service below TCP.  [Wire] has the packed headers of user/services/netd, the
    Internet checksum and the TCP options.  [Netd] is common/txframe.c, link/eth.c, link/arp.c,
    net/ip.c, net/icmp.c, transport/udp.c and the functions of tcp_out.c and tcp_in.c that write
    and read the bytes of a segment, over the class [Upper] of the code above.  [NetdInv] has its
    invariant and, against the promises [UpperOk] of the code above, that no packet is read or
    written out of bounds.  [NetdWire] shows that segments and datagrams arrive as they were sent
    ([tcp_wire], [udp_wire]), that one changed byte is noticed ([tcp_corruption_dropped]) and that
    queued packets leave when their address is known ([ArpLearn_flushes]).  [Port] is
    transport/port.c, [Dhcp] app/dhcp.c with the loop of main.c, and [DhcpInv] discharges
    [UpperOk] for them: the service never fails from its start on ([netd_never_fails]), options
    read back ([DhcpFindOption_reads]) and an acknowledged address is bound ([dhcp_ack_binds]).
    [Tcp] takes the result of sending a segment as given; [tcp_wire] is what a success means.
    [Timer] is common/timer.c and netrand.c: timers fire when they are due, in order, across the
    wrap of the clock ([timers_on_time]).

    Failures.  Some theorems show that the code does not do what it means to: a semaphore that
    loses a wake-up ([semaphore_loses_wakeup]), an allocation size that wraps
    ([KMalloc_size_wraps]), a write to a page that is read-only for the user
    ([VmmCheckUserFault_write_unchecked]), a failed mapping that unmaps what was there
    ([VmmMapMemObj_clobbers]), a counter of children that wraps ([bind_event_third_layer]), in
    [TcpErr] a connection that stalls, one that loses data at its close and one that crashes, and
    in the network service a header length that is too short ([IpRx_short_header]), a frame length
    that is not checked ([rx_length_unchecked]), a DHCP client that stops asking
    ([dhcp_restart_stalls]), keeps a lease too long ([dhcp_long_lease_kept]), goes on using a
    refused address ([dhcp_nak_keeps_address]) and binds one it has not probed
    ([dhcp_binds_unprobed]).

    ** Assumptions

    The processor: single core in the kernel, so that kernel code is not interleaved; TLB and page
    tables behave as [Asid] and [Mmu] say.  Atomic operations and barriers of user code order
    their accesses, so a schedule of steps is faithful.  TCP: fewer than 2^31 - 2^17 bytes are
    sent in each direction while segments still arrive (an old segment cannot then be taken for a
    new one), local sends succeed ([TcpErr] shows what happens when one does not), and a segment
    that carries data was sent by the peer.  The network service: the driver keeps the length of a
    received frame within its slot, and timers are armed for less than 2^30 ms.
    The digits of a [double], the results of [malloc] and of sending a frame, and the hardware
    counter are parameters.

    ** Not modelled

    Boot and board code, exception entry, context switch, interrupt controller and timer hardware:
    assembly and device registers.  Dispatch of system calls and the creation of whole spaces and
    tasks: they assemble modelled operations, but block through the context switch.  Parsers of
    images and of the device tree, FatFs and ported programs: third-party code or inputs of the
    build.  Of the network service the sessions and sockets of its clients, which share memory with
    them, and the lookup of a connection: what clients do is a sequence of given events, and so is
    what a callback does to the timers.  Drivers, terminal, shell and test programs: device
    registers and interactive input and output. *)
From Stdlib Require Export ZArith Lia.
From stdpp Require Export prelude numbers gmap list.

#[global] Open Scope Z_scope.

(** * Machine integers

    The kernel is built for 32-bit ARM: [size_t], [uintptr_t], [PhysAddr] and
    [VirtAddr] are 32-bit unsigned integers.  A value of a w-bit unsigned C type
    is a [Z] in [0, 2^w); the wrap-around of an operation is written out. *)

Definition w8 (z : Z) : Z := z mod 2 ^ 8.
Definition w16 (z : Z) : Z := z mod 2 ^ 16.
Definition w32 (z : Z) : Z := z mod 2 ^ 32.
Definition w64 (z : Z) : Z := z mod 2 ^ 64.

(** Conversion of a 32-bit pattern to a signed 32-bit value. *)
Definition s32 (z : Z) : Z :=
  let u := w32 z in if u <? 2 ^ 31 then u else u - 2 ^ 32.

(** C's conversion of a comparison or flag test to an [int]. *)
Definition b2z (b : bool) : Z := if b then 1 else 0.

(** C truth of an integer. *)
Definition truthy (z : Z) : bool := negb (z =? 0).

(** [1U << i] *)
Definition bit (i : Z) : Z := Z.shiftl 1 i.

(** [align_down], [align_up] of include/string.h. *)
Definition align_down (addr align : Z) : Z := Z.land addr (Z.lnot (align - 1)).
Definition align_up (addr align : Z) : Z :=
  Z.land (w32 (addr + align - 1)) (Z.lnot (align - 1)).

(** Wrap-arounds stay folded under [simpl]. *)
#[global] Arguments w8 : simpl never.
#[global] Arguments w16 : simpl never.
#[global] Arguments w32 : simpl never.
#[global] Arguments w64 : simpl never.
#[global] Arguments s32 : simpl never.
#[global] Arguments truthy : simpl never.
#[global] Arguments bit : simpl never.
#[global] Arguments align_down : simpl never.
#[global] Arguments align_up : simpl never.

(** The page geometry (kernel/mm/pmm/pmm.h). *)
Definition PAGE_SHIFT : Z := 12.
Definition PAGE_SIZE : Z := 4096.

(** * Error codes (include/zuzu/err.h) *)
Definition ZUZU_OK : Z := 0.
Definition ERR_NOPERM : Z := -1.
Definition ERR_NOENT : Z := -2.
Definition ERR_BUSY : Z := -3.
Definition ERR_NOMEM : Z := -4.
Definition ERR_BADTYPE : Z := -5.
Definition ERR_BADARG : Z := -6.
Definition ERR_NOSYS : Z := -7.
Definition ERR_BADPTR : Z := -8.
Definition ERR_DEAD : Z := -9.
Definition ERR_TIMEOUT : Z := -10.
Definition ERR_OVERFLOW : Z := -11.
Definition ERR_BADHANDLE : Z := -12.
Definition ERR_BUFFULL : Z := -100.
Definition ERR_BUFEMPTY : Z := -101.

(** * Outcomes and the state monad

    A C function that reads and writes kernel state is a function from the state
    to an outcome.  [Panic] is a failed [assert], a call of [panic()] or a NULL
    dereference (which faults in the kernel and panics).  [Diverge] is only
    produced by a loop or recursion that ran out of the fuel given to it. *)

Inductive res (A : Type) : Type :=
| Ok (a : A)
| Panic
| Diverge.
Arguments Ok {_} _.
Arguments Panic {_}.
Arguments Diverge {_}.

Definition M (S A : Type) : Type := S → res (A * S).

Definition ret {S A} (a : A) : M S A := λ s, Ok (a, s).
Definition bind {S A B} (m : M S A) (k : A → M S B) : M S B := λ s,
  match m s with
  | Ok (a, s') => k a s'
  | Panic => Panic
  | Diverge => Diverge
  end.

Declare Scope zuzu_scope.
Delimit Scope zuzu_scope with zuzu.
#[global] Open Scope zuzu_scope.
Notation "'let!' x := m 'in' k" := (bind m (λ x, k))
  (at level 10, x pattern, m at level 100, k at level 200,
   format "'[v' 'let!'  x  :=  m  'in' '/' k ']'") : zuzu_scope.
Notation "m ;; k" := (bind m (λ _, k))
  (at level 100, k at level 200, right associativity) : zuzu_scope.

Section monad_ops.
Context {S : Type}.
Definition get : M S S := λ s, Ok (s, s).
Definition gets {A} (f : S → A) : M S A := λ s, Ok (f s, s).
Definition put (s' : S) : M S unit := λ _, Ok (tt, s').
Definition modify (f : S → S) : M S unit := λ s, Ok (tt, f s).
Definition panic {A} : M S A := λ _, Panic.
Definition diverge {A} : M S A := λ _, Diverge.
Definition assert (b : bool) : M S unit := if b then ret tt else panic.
Definition when (b : bool) (m : M S unit) : M S unit := if b then m else ret tt.

(** [for (i = lo; i < lo + n; i++)] whose body may leave the enclosing function
    early with a result. *)
Fixpoint for_ {R} (n : nat) (i : Z) (body : Z → M S (option R)) : M S (option R) :=
  match n with
  | O => ret None
  | Datatypes.S n' =>
      let! r := body i in
      match r with
      | Some x => ret (Some x)
      | None => for_ n' (i + 1) body
      end
  end.

(** The same for a body that never leaves early. *)
Fixpoint for_each (n : nat) (i : Z) (body : Z → M S unit) : M S unit :=
  match n with
  | O => ret tt
  | Datatypes.S n' => body i ;; for_each n' (i + 1) body
  end.
End monad_ops.

(** Weakest precondition: [wp m Q s] says that [m] run from [s] ends without a
    panic and within its fuel, in a result and state that satisfy [Q]. *)
Definition wp {S A} (m : M S A) (Q : A → S → Prop) (s : S) : Prop :=
  match m s with
  | Ok (a, s') => Q a s'
  | _ => False
  end.

Section wp_rules.
Context {S : Type}.
Implicit Types (s : S).

Lemma wp_ret {A} (a : A) Q s : Q a s → wp (ret a) Q s.
Proof. done. Qed.
Lemma wp_bind {A B} (m : M S A) (k : A → M S B) Q s :
  wp m (λ a s', wp (k a) Q s') s → wp (bind m k) Q s.
Proof. unfold wp, bind. by destruct (m s) as [[]| |]. Qed.
Lemma wp_seq2 {A} (m1 m2 : M S unit) (k : M S A) P Q s :
  wp (m1 ;; m2) P s → (∀ u s', P u s' → wp k Q s') → wp (m1 ;; m2 ;; k) Q s.
Proof.
  unfold wp, bind. destruct (m1 s) as [[[] s1]| |]; try done. destruct (m2 s1) as [[[] s2]| |]; try done.
  intros HP HQ. exact (HQ tt s2 HP).
Qed.
Lemma wp_gets {A} (f : S → A) Q s : Q (f s) s → wp (gets f) Q s.
Proof. done. Qed.
Lemma wp_get Q s : Q s s → wp get Q s.
Proof. done. Qed.
Lemma wp_put s' Q s : Q tt s' → wp (put s') Q s.
Proof. done. Qed.
Lemma wp_modify f Q s : Q tt (f s) → wp (modify f) Q s.
Proof. done. Qed.
Lemma wp_assert (b : bool) Q s : b = true → Q tt s → wp (assert b) Q s.
Proof. by intros ->. Qed.
Lemma wp_when (b : bool) m Q s :
  (b = true → wp m Q s) → (b = false → Q tt s) → wp (when b m) Q s.
Proof. destruct b; [auto|]. intros _ H. by apply H. Qed.
Lemma wp_mono {A} (m : M S A) (Q Q' : A → S → Prop) s :
  wp m Q s → (∀ a s', Q a s' → Q' a s') → wp m Q' s.
Proof. unfold wp. destruct (m s) as [[]| |]; eauto. Qed.
Lemma wp_if {A} (b : bool) (m1 m2 : M S A) Q s :
  (b = true → wp m1 Q s) → (b = false → wp m2 Q s) →
  wp (if b then m1 else m2) Q s.
Proof. destruct b; auto. Qed.
Lemma wp_Ok {A} (m : M S A) Q s :
  wp m Q s → ∃ a s', m s = Ok (a, s') ∧ Q a s'.
Proof. unfold wp. destruct (m s) as [[]| |]; naive_solver. Qed.
Lemma wp_of {A} (m : M S A) Q s a s' : m s = Ok (a, s') → Q a s' → wp m Q s.
Proof. unfold wp. by intros ->. Qed.

(** Loop rule: an invariant indexed by the loop counter. *)
Lemma wp_for_each (I : Z → S → Prop) n i body (Q : unit → S → Prop) s :
  I i s →
  (∀ j s', i ≤ j < i + Z.of_nat n → I j s' → wp (body j) (λ _, I (j + 1)) s') →
  (∀ s', I (i + Z.of_nat n) s' → Q tt s') →
  wp (for_each n i body) Q s.
Proof.
  revert i s. induction n as [|n IH]; intros i s Hi Hb HQ; simpl.
  - apply wp_ret, HQ. by replace (i + Z.of_nat 0) with i by lia.
  - apply wp_bind. eapply wp_mono; [apply Hb; [lia|done]|].
    intros [] s' Hs'. apply IH; [done| |].
    + intros j s'' Hj. apply Hb. lia.
    + intros s'' Hs''. apply HQ. by replace (i + Z.of_nat (Datatypes.S n)) with (i + 1 + Z.of_nat n) by lia.
Qed.
End wp_rules.

(** [wp_steps] runs the structural rules over straight-line code. *)
Ltac wp_step :=
  match goal with
  | |- wp (bind _ _) _ _ => apply wp_bind
  | |- wp (ret _) _ _ => apply wp_ret
  | |- wp (gets _) _ _ => apply wp_gets
  | |- wp get _ _ => apply wp_get
  | |- wp (put _) _ _ => apply wp_put
  | |- wp (modify _) _ _ => apply wp_modify
  end; cbv beta.
Ltac wp_steps := repeat wp_step.

(** Equations to run a computation on one branch. *)
Lemma run_gets {S A B} (f : S → A) (k : A → M S B) s : bind (gets f) k s = k (f s) s.
Proof. done. Qed.
Lemma run_assert {S B} b (k : unit → M S B) s : b = true → bind (assert b) k s = k tt s.
Proof. by intros ->. Qed.

(** * Lemmas on machine integers *)

Lemma w32_range z : 0 ≤ w32 z < 2 ^ 32.
Proof. apply Z.mod_pos_bound. lia. Qed.
Lemma w32_small z : 0 ≤ z < 2 ^ 32 → w32 z = z.
Proof. apply Z.mod_small. Qed.
Lemma w16_small z : 0 ≤ z < 2 ^ 16 → w16 z = z.
Proof. apply Z.mod_small. Qed.
Lemma w8_small z : 0 ≤ z < 2 ^ 8 → w8 z = z.
Proof. apply Z.mod_small. Qed.
Lemma w32_w32 z : w32 (w32 z) = w32 z.
Proof. apply Z.mod_mod. lia. Qed.

Lemma bit_pow i : 0 ≤ i → bit i = 2 ^ i.
Proof. intros. unfold bit. rewrite Z.shiftl_mul_pow2 by done. lia. Qed.
Lemma bit_pos i : 0 ≤ i → 0 < bit i.
Proof. intros. rewrite bit_pow by done. lia. Qed.
Lemma bit_spec i j : 0 ≤ i → Z.testbit (bit i) j = bool_decide (i = j).
Proof.
  intros. rewrite bit_pow by done. rewrite Z.pow2_bits_eqb by done.
  case_bool_decide; subst; [apply Z.eqb_refl|by apply Z.eqb_neq].
Qed.

(** Testing a mask of one bit is testing that bit. *)
Lemma land_bit_truthy z i : 0 ≤ i → truthy (Z.land z (bit i)) = Z.testbit z i.
Proof.
  intros Hi. unfold truthy. destruct (Z.testbit z i) eqn:E.
  - apply negb_true_iff, Z.eqb_neq. intros Hz.
    assert (Hb : Z.testbit (Z.land z (bit i)) i = true).
    { rewrite Z.land_spec, E, bit_spec by done. by rewrite bool_decide_eq_true_2. }
    by rewrite Hz, Z.bits_0 in Hb.
  - apply negb_false_iff, Z.eqb_eq, Z.bits_inj'. intros n Hn.
    rewrite Z.land_spec, bit_spec, Z.bits_0 by done.
    case_bool_decide; subst; [by rewrite E|by rewrite andb_false_r].
Qed.

Lemma align_down_spec a k : 0 ≤ k → align_down a (2 ^ k) = 2 ^ k * (a / 2 ^ k).
Proof.
  intros Hk. unfold align_down.
  assert (2 ^ k - 1 = Z.ones k) as -> by (rewrite Z.ones_equiv; lia).
  rewrite <- Z.ldiff_land, Z.ldiff_ones_r by done.
  rewrite Z.shiftr_div_pow2, Z.shiftl_mul_pow2 by done. lia.
Qed.

Lemma align_up_spec a k :
  0 ≤ k → 0 ≤ a → a + 2 ^ k - 1 < 2 ^ 32 →
  align_up a (2 ^ k) = 2 ^ k * ((a + 2 ^ k - 1) / 2 ^ k).
Proof.
  intros Hk Ha Hb. unfold align_up. rewrite w32_small by lia.
  by apply align_down_spec.
Qed.

(** Bits of a word below 2^w. *)
Lemma testbit_high w z i : 0 ≤ w → 0 ≤ z < 2 ^ w → w ≤ i → Z.testbit z i = false.
Proof.
  intros Hw Hz Hi. destruct (decide (z = 0)) as [->|Hne]; [apply Z.bits_0|].
  apply Z.bits_above_log2; [lia|].
  apply Z.lt_le_trans with w; [|done]. apply Z.log2_lt_pow2; lia.
Qed.
(** Fields packed next to each other. *)
Lemma lor_pack k hi lo : 0 ≤ k → 0 ≤ lo < 2 ^ k → Z.lor (hi * 2 ^ k) lo = hi * 2 ^ k + lo.
Proof.
  intros Hk Hlo. assert (Hl : Z.land (hi * 2 ^ k) lo = 0).
  { apply Z.bits_inj'. intros n Hn. rewrite Z.land_spec, Z.bits_0. destruct (decide (n < k)).
    - by rewrite Z.mul_pow2_bits_low by lia.
    - rewrite (testbit_high k lo n) by lia. apply andb_false_r. }
  by rewrite Z.add_nocarry_lxor, Z.lxor_lor by done.
Qed.
Lemma lor_range w a b :
  0 ≤ w → 0 ≤ a < 2 ^ w → 0 ≤ b < 2 ^ w → 0 ≤ Z.lor a b < 2 ^ w.
Proof.
  intros Hw Ha Hb. split; [apply Z.lor_nonneg; lia|].
  destruct (decide (Z.lor a b = 0)) as [->|]; [lia|].
  assert (0 ≤ Z.lor a b) by (apply Z.lor_nonneg; lia).
  apply Z.log2_lt_pow2; [lia|]. rewrite Z.log2_lor by lia.
  destruct (decide (a = 0)) as [->|]; destruct (decide (b = 0)) as [->|];
    try (rewrite Z.lor_0_l in *); try (rewrite Z.lor_0_r in *); try lia.
  - change (Z.log2 0) with 0. apply Z.max_lub_lt; [|apply Z.log2_lt_pow2; lia].
    destruct (decide (w = 0)) as [->|]; lia.
  - change (Z.log2 0) with 0. apply Z.max_lub_lt; [apply Z.log2_lt_pow2; lia|].
    destruct (decide (w = 0)) as [->|]; lia.
  - apply Z.max_lub_lt; apply Z.log2_lt_pow2; lia.
Qed.
Lemma land_range w a b : 0 ≤ a < 2 ^ w → 0 ≤ Z.land a b < 2 ^ w.
Proof.
  intros Ha. split; [apply Z.land_nonneg; lia|].
  apply Z.le_lt_trans with a; [|lia].
  assert (a = Z.land a b + Z.ldiff a b) as Hs.
  { rewrite Z.add_nocarry_lxor.
    - apply Z.bits_inj'. intros n _. rewrite Z.lxor_spec, Z.land_spec, Z.ldiff_spec.
      by destruct (Z.testbit a n), (Z.testbit b n).
    - apply Z.bits_inj'. intros n _. rewrite Z.land_spec, Z.land_spec, Z.ldiff_spec, Z.bits_0.
      by destruct (Z.testbit a n), (Z.testbit b n). }
  assert (0 ≤ Z.ldiff a b) by (apply Z.ldiff_nonneg; lia). lia.
Qed.

Lemma bit_range w i : 0 ≤ i < w → 0 ≤ bit i < 2 ^ w.
Proof. intros. rewrite bit_pow by lia. split; [lia|]. apply Z.pow_lt_mono_r; lia. Qed.

(** * Arrays

    A C array is a list read and written by index.  The models keep every index
    in range; [aget]/[aset] out of range are never reached under the invariants. *)

Definition aget {A} `{Inhabited A} (l : list A) (i : Z) : A := l !!! Z.to_nat i.
Definition aset {A} (l : list A) (i : Z) (x : A) : list A := <[Z.to_nat i := x]> l.

Section arrays.
Context {A : Type} `{Inhabited A}.
Implicit Types (l : list A) (x : A).

Lemma length_aset l i x : length (aset l i x) = length l.
Proof. apply length_insert. Qed.
Lemma aget_aset_eq l i x : 0 ≤ i < Z.of_nat (length l) → aget (aset l i x) i = x.
Proof.
  intros. unfold aget, aset. apply list_lookup_total_insert_eq. lia.
Qed.
Lemma aget_aset_ne l i j x : 0 ≤ i → 0 ≤ j → i ≠ j → aget (aset l i x) j = aget l j.
Proof. intros. unfold aget, aset. apply list_lookup_total_insert_ne. lia. Qed.
Lemma aget_lookup l i x : l !! Z.to_nat i = Some x → aget l i = x.
Proof. apply list_lookup_total_correct. Qed.
Lemma lookup_aget l i :
  0 ≤ i < Z.of_nat (length l) → l !! Z.to_nat i = Some (aget l i).
Proof. intros. apply list_lookup_lookup_total_lt. lia. Qed.
Lemma Forall_aget (P : A → Prop) l i :
  Forall P l → 0 ≤ i < Z.of_nat (length l) → P (aget l i).
Proof. intros Hl Hi. eapply Forall_lookup_1; [done|by apply lookup_aget]. Qed.
Lemma Forall_aset (P : A → Prop) l i x : Forall P l → P x → Forall P (aset l i x).
Proof. intros. by apply Forall_insert. Qed.
End arrays.

(** Boolean comparisons to propositions, in every hypothesis and in the goal. *)
Ltac b2p :=
  repeat match goal with
  | H : andb _ _ = true |- _ => apply andb_true_iff in H; destruct H
  | H : orb _ _ = false |- _ => apply orb_false_iff in H; destruct H
  | H : negb _ = true |- _ => apply negb_true_iff in H
  | H : negb _ = false |- _ => apply negb_false_iff in H
  | H : (_ <? _) = true |- _ => apply Z.ltb_lt in H
  | H : (_ <? _) = false |- _ => apply Z.ltb_ge in H
  | H : (_ <=? _) = true |- _ => apply Z.leb_le in H
  | H : (_ <=? _) = false |- _ => apply Z.leb_gt in H
  | H : (_ =? _) = true |- _ => apply Z.eqb_eq in H
  | H : (_ =? _) = false |- _ => apply Z.eqb_neq in H
  end.

(** Case analysis on the boolean test at the head of the goal. *)
Ltac case_if E :=
  match goal with
  | |- context [if ?b then _ else _] => destruct b eqn:E; b2p
  end.

Lemma s32_range v : - 2 ^ 31 ≤ v < 2 ^ 31 → s32 v = v.
Proof. intros Hv. unfold s32, w32. case_if E; Z.div_mod_to_equations; lia. Qed.

(** * Filtering *)

Lemma list_filter_iff' {A} (P Q : A → Prop) `{∀ x, Decision (P x), ∀ x, Decision (Q x)} (l : list A) :
  (∀ x, x ∈ l → P x ↔ Q x) → filter P l = filter Q l.
Proof.
  induction l as [|x l IH]; intros Hl; [done|]. rewrite !filter_cons, IH by set_solver.
  specialize (Hl x ltac:(set_solver)). repeat case_decide; tauto.
Qed.

Lemma filter_all {A} (P : A → Prop) `{∀ x, Decision (P x)} (l : list A) :
  (∀ x, x ∈ l → P x) → filter P l = l.
Proof.
  induction l as [|x l IH]; intros Hl; [done|].
  rewrite filter_cons_True, IH; set_solver.
Qed.

(** * Byte arrays used as bit sets

    The idiom [map[i / 8] & (1U << (i % 8))], with its set and clear forms, over an
    array of [uint8_t]. *)
Definition bb_get (bm : list Z) (i : Z) : bool :=
  truthy (Z.land (aget bm (i / 8)) (bit (i mod 8))).
Definition bb_set (bm : list Z) (i : Z) : list Z :=
  aset bm (i / 8) (w8 (Z.lor (aget bm (i / 8)) (bit (i mod 8)))).
Definition bb_clr (bm : list Z) (i : Z) : list Z :=
  aset bm (i / 8) (w8 (Z.land (aget bm (i / 8)) (Z.lnot (bit (i mod 8))))).

Section byte_bitmap.
Implicit Types (bm : list Z) (i j : Z).

Lemma mod8 i : 0 ≤ i mod 8 < 8.
Proof. apply Z.mod_pos_bound. lia. Qed.
Lemma bb_get_testbit bm i : bb_get bm i = Z.testbit (aget bm (i / 8)) (i mod 8).
Proof. apply land_bit_truthy, mod8. Qed.
Lemma byte_index bm i : 0 ≤ i < 8 * Z.of_nat (length bm) → 0 ≤ i / 8 < Z.of_nat (length bm).
Proof. intros. split; [apply Z.div_pos; lia|]. apply Z.div_lt_upper_bound; lia. Qed.
Lemma w8_testbit z k : 0 ≤ k < 8 → Z.testbit (w8 z) k = Z.testbit z k.
Proof. intros. unfold w8. by rewrite Z.mod_pow2_bits_low by lia. Qed.
Lemma split_index8 i j : i / 8 = j / 8 → i mod 8 = j mod 8 → i = j.
Proof. pose proof (Z.div_mod i 8). pose proof (Z.div_mod j 8). lia. Qed.

Lemma bb_get_set bm i j :
  0 ≤ i < 8 * Z.of_nat (length bm) → 0 ≤ j →
  bb_get (bb_set bm i) j = bool_decide (i = j) || bb_get bm j.
Proof.
  intros Hi Hj. rewrite !bb_get_testbit. unfold bb_set. pose proof (mod8 i). pose proof (mod8 j).
  destruct (decide (i / 8 = j / 8)) as [E|E].
  - rewrite <- E, aget_aset_eq by (by apply byte_index).
    rewrite w8_testbit, Z.lor_spec, bit_spec by lia. rewrite orb_comm. f_equal.
    apply bool_decide_ext. split; [by apply split_index8|by intros ->].
  - rewrite aget_aset_ne; [|by apply Z.div_pos; lia..|done].
    rewrite bool_decide_eq_false_2; [done|by intros ->].
Qed.
Lemma bb_get_clr bm i j :
  0 ≤ i < 8 * Z.of_nat (length bm) → 0 ≤ j →
  bb_get (bb_clr bm i) j = negb (bool_decide (i = j)) && bb_get bm j.
Proof.
  intros Hi Hj. rewrite !bb_get_testbit. unfold bb_clr. pose proof (mod8 i). pose proof (mod8 j).
  destruct (decide (i / 8 = j / 8)) as [E|E].
  - rewrite <- E, aget_aset_eq by (by apply byte_index).
    rewrite w8_testbit, Z.land_spec, Z.lnot_spec, bit_spec by lia. rewrite andb_comm. f_equal. f_equal.
    apply bool_decide_ext. split; [by apply split_index8|by intros ->].
  - rewrite aget_aset_ne; [|by apply Z.div_pos; lia..|done].
    rewrite bool_decide_eq_false_2; [done|by intros ->].
Qed.
Lemma length_bb_set bm i : length (bb_set bm i) = length bm.
Proof. apply length_aset. Qed.
Lemma length_bb_clr bm i : length (bb_clr bm i) = length bm.
Proof. apply length_aset. Qed.
End byte_bitmap.
