(* ===== verification/Bitmap.v ===== *)
(** include/bitmap.h: fixed-size bitmaps stored in 32-bit words.

    A bitmap is the [list Z] of its words.  [bm_test] is the abstract view of the
    bitmap as a set of bit indices, against which every operation is specified. *)
From S2P Require Import Prelude.

#[local] Open Scope Z_scope.

Definition BITMAP_WORDS (nbits : Z) : Z := (nbits + 31) / 32.

Definition BitmapZero (words : list Z) (nbits : Z) : list Z :=
  foldl (λ ws w, aset ws w 0) words (seqZ 0 (BITMAP_WORDS nbits)).

Definition BitmapSet (words : list Z) (i : Z) : list Z :=
  aset words (i / 32) (Z.lor (aget words (i / 32)) (bit (i mod 32))).

Definition BitmapClr (words : list Z) (i : Z) : list Z :=
  aset words (i / 32) (Z.land (aget words (i / 32)) (w32 (Z.lnot (bit (i mod 32))))).

Definition BitmapTest (words : list Z) (i : Z) : Z :=
  if truthy (Z.land (Z.shiftr (aget words (i / 32)) (i mod 32)) 1) then 1 else 0.

(** [__builtin_ctz]: number of trailing zero bits; undefined at 0. *)
Fixpoint pos_ctz (p : positive) : Z :=
  match p with
  | xO p' => 1 + pos_ctz p'
  | _ => 0
  end.
Definition builtin_ctz (z : Z) : Z :=
  match z with Zpos p => pos_ctz p | _ => 0 end.

(** The loop over whole words of [BitmapFindFirstZero]. *)
Fixpoint ffz_words (words : list Z) (n : nat) (w : Z) : option Z :=
  match n with
  | O => None
  | S n' =>
      if negb (aget words w =? 0xFFFFFFFF)
      then Some (s32 (w * 32 + builtin_ctz (w32 (Z.lnot (aget words w)))))
      else ffz_words words n' (w + 1)
  end.

Definition BitmapFindFirstZero (words : list Z) (nbits : Z) : Z :=
  let full := nbits / 32 in
  match ffz_words words (Z.to_nat full) 0 with
  | Some r => r
  | None =>
      let rem := nbits mod 32 in
      if truthy rem then
        let free := Z.land (w32 (Z.lnot (aget words full))) (bit rem - 1) in
        if truthy free then s32 (full * 32 + builtin_ctz free) else -1
      else -1
  end.

(** The scan of [BitmapFindClearRun] with its running [count]. *)
Fixpoint find_clear_run (words : list Z) (run : Z) (n : nat) (i count : Z) : Z :=
  match n with
  | O => -1
  | S n' =>
      if truthy (BitmapTest words i) then find_clear_run words run n' (i + 1) 0
      else if count + 1 =? run then s32 (i + 1 - run)
      else find_clear_run words run n' (i + 1) (count + 1)
  end.

Definition BitmapFindClearRun (words : list Z) (nbits run : Z) : Z :=
  if (run =? 0) || (nbits <? run) then -1
  else find_clear_run words run (Z.to_nat nbits) 0 0.

Definition BitmapSetRange (words : list Z) (start count : Z) : list Z :=
  foldl (λ ws i, BitmapSet ws (start + i)) words (seqZ 0 count).

Definition BitmapClrRange (words : list Z) (start count : Z) : list Z :=
  foldl (λ ws i, BitmapClr ws (start + i)) words (seqZ 0 count).

(** * Specification *)

(** Bit [i] of the bitmap. *)
Definition bm_test (words : list Z) (i : Z) : bool :=
  Z.testbit (aget words (i / 32)) (i mod 32).

Definition bm_wf (words : list Z) (nbits : Z) : Prop :=
  Forall (λ w, 0 ≤ w < 2 ^ 32) words ∧ 0 ≤ nbits ≤ 32 * Z.of_nat (length words) ∧
  nbits < 2 ^ 31.

Section bits.
Implicit Types (words : list Z).

Lemma mod32 i : 0 ≤ i mod 32 < 32.
Proof. apply Z.mod_pos_bound. lia. Qed.

Lemma word_index i words : 0 ≤ i < 32 * Z.of_nat (length words) →
  0 ≤ i / 32 < Z.of_nat (length words).
Proof. intros. split; [apply Z.div_pos; lia|]. apply Z.div_lt_upper_bound; lia. Qed.

Lemma BitmapTest_spec words i : BitmapTest words i = b2z (bm_test words i).
Proof.
  unfold BitmapTest, bm_test, b2z.
  change 1 with (bit 0) at 1. rewrite land_bit_truthy by lia.
  rewrite Z.shiftr_spec by lia. by rewrite Z.add_0_l.
Qed.

Lemma split_index i j : i / 32 = j / 32 → i mod 32 = j mod 32 → i = j.
Proof. pose proof (Z.div_mod i 32). pose proof (Z.div_mod j 32). lia. Qed.

Lemma bm_test_Set words i j :
  0 ≤ i < 32 * Z.of_nat (length words) → 0 ≤ j →
  bm_test (BitmapSet words i) j = bool_decide (i = j) || bm_test words j.
Proof.
  intros Hi Hj. unfold bm_test, BitmapSet. pose proof (mod32 i). pose proof (mod32 j).
  destruct (decide (i / 32 = j / 32)) as [E|E].
  - rewrite <- E, aget_aset_eq by (by apply word_index).
    rewrite Z.lor_spec, bit_spec by lia. rewrite orb_comm. f_equal.
    apply bool_decide_ext. split; [by apply split_index|by intros ->].
  - rewrite aget_aset_ne; [|by apply Z.div_pos; lia..|done].
    rewrite bool_decide_eq_false_2; [done|by intros ->].
Qed.

Lemma lnot32_spec z k : 0 ≤ k < 32 → Z.testbit (w32 (Z.lnot z)) k = negb (Z.testbit z k).
Proof.
  intros. unfold w32. rewrite Z.mod_pow2_bits_low by lia. by rewrite Z.lnot_spec by lia.
Qed.

Lemma bm_test_Clr words i j :
  0 ≤ i < 32 * Z.of_nat (length words) → 0 ≤ j →
  bm_test (BitmapClr words i) j = negb (bool_decide (i = j)) && bm_test words j.
Proof.
  intros Hi Hj. unfold bm_test, BitmapClr. pose proof (mod32 i). pose proof (mod32 j).
  destruct (decide (i / 32 = j / 32)) as [E|E].
  - rewrite <- E, aget_aset_eq by (by apply word_index).
    rewrite Z.land_spec, lnot32_spec, bit_spec by lia. rewrite andb_comm. f_equal. f_equal.
    apply bool_decide_ext. split; [by apply split_index|by intros ->].
  - rewrite aget_aset_ne; [|by apply Z.div_pos; lia..|done].
    rewrite bool_decide_eq_false_2; [done|by intros ->].
Qed.

Lemma bm_wf_Set words nbits i : bm_wf words nbits → 0 ≤ i < nbits → bm_wf (BitmapSet words i) nbits.
Proof.
  intros (Hw & Hn & Hs) Hi. unfold BitmapSet, bm_wf. rewrite length_aset. split; [|done].
  apply Forall_aset; [done|]. apply lor_range; [lia| |apply bit_range, mod32].
  apply (Forall_aget (λ w, 0 ≤ w < 2 ^ 32)); [done|apply word_index; lia].
Qed.

Lemma bm_wf_Clr words nbits i : bm_wf words nbits → 0 ≤ i < nbits → bm_wf (BitmapClr words i) nbits.
Proof.
  intros (Hw & Hn & Hs) Hi. unfold BitmapClr, bm_wf. rewrite length_aset. split; [|done].
  apply Forall_aset; [done|]. apply land_range.
  apply (Forall_aget (λ w, 0 ≤ w < 2 ^ 32)); [done|apply word_index; lia].
Qed.
End bits.

(** * Searching *)

Lemma pos_ctz_spec p :
  0 ≤ pos_ctz p ∧ Z.testbit (Zpos p) (pos_ctz p) = true ∧
  ∀ j, 0 ≤ j < pos_ctz p → Z.testbit (Zpos p) j = false.
Proof.
  induction p as [p IH|p IH|]; simpl pos_ctz; [split_and!; [lia|done|lia]| |split_and!; [lia|done|lia]].
  destruct IH as (H0 & H1 & H2). change (Zpos p~0) with (2 * Zpos p).
  split; [lia|]. split.
  - replace (1 + pos_ctz p) with (Z.succ (pos_ctz p)) by lia. by rewrite Z.double_bits_succ.
  - intros j Hj. destruct (decide (j = 0)) as [->|]; [by rewrite Z.testbit_even_0|].
    replace j with (Z.succ (j - 1)) by lia. rewrite Z.double_bits_succ. apply H2. lia.
Qed.

Lemma builtin_ctz_spec z :
  0 < z → 0 ≤ builtin_ctz z ∧ Z.testbit z (builtin_ctz z) = true ∧
  ∀ j, 0 ≤ j < builtin_ctz z → Z.testbit z j = false.
Proof. destruct z as [|p|p]; try lia. intros _. apply pos_ctz_spec. Qed.

Lemma builtin_ctz_lt z w : 0 ≤ w → 0 < z < 2 ^ w → builtin_ctz z < w.
Proof.
  intros Hw Hz. destruct (builtin_ctz_spec z) as (H0 & H1 & _); [lia|].
  destruct (decide (w ≤ builtin_ctz z)); [|lia].
  rewrite (testbit_high w) in H1 by lia. done.
Qed.

Lemma s32_small z : 0 ≤ z < 2 ^ 31 → s32 z = z.
Proof. intros. unfold s32. rewrite w32_small by lia. case_if E; [done|lia]. Qed.

Section search.
Implicit Types (words : list Z).

Lemma bm_test_at words w j : 0 ≤ j < 32 → bm_test words (32 * w + j) = Z.testbit (aget words w) j.
Proof.
  intros. unfold bm_test.
  replace ((32 * w + j) / 32) with w by (rewrite Z.mul_comm, Z.div_add_l by lia; rewrite (Z.div_small j) by lia; lia).
  by replace ((32 * w + j) mod 32) with j by (rewrite Z.mul_comm, Z.add_comm, Z.mod_add by lia; rewrite Z.mod_small; lia).
Qed.

Lemma split32 k w : 32 * w ≤ k < 32 * (w + 1) → k = 32 * w + (k - 32 * w) ∧ 0 ≤ k - 32 * w < 32.
Proof. lia. Qed.

Lemma lnot32_zero z : 0 ≤ z < 2 ^ 32 → w32 (Z.lnot z) = 2 ^ 32 - 1 - z.
Proof.
  intros. unfold w32, Z.lnot. replace (Z.pred (- z)) with ((2 ^ 32 - 1 - z) + (-1) * 2 ^ 32) by lia.
  rewrite Z.mod_add by lia. apply Z.mod_small. lia.
Qed.

(** The whole-word loop finds the lowest clear bit of its words, if any. *)
Lemma ffz_words_spec words n w :
  Forall (λ x, 0 ≤ x < 2 ^ 32) words → 0 ≤ w → w + Z.of_nat n ≤ Z.of_nat (length words) →
  32 * (w + Z.of_nat n) < 2 ^ 31 →
  match ffz_words words n w with
  | None => ∀ k, 32 * w ≤ k < 32 * (w + Z.of_nat n) → bm_test words k = true
  | Some r => 32 * w ≤ r < 32 * (w + Z.of_nat n) ∧ bm_test words r = false ∧
              ∀ k, 32 * w ≤ k < r → bm_test words k = true
  end.
Proof.
  intros Hf. revert w. induction n as [|n IH]; intros w Hw Hl Hb; simpl; [lia|].
  assert (Hx : 0 ≤ aget words w < 2 ^ 32)
    by (apply (Forall_aget (λ x, 0 ≤ x < 2 ^ 32)); [done|lia]).
  case_if E.
  - assert (Hz : 0 < w32 (Z.lnot (aget words w)) < 2 ^ 32) by (rewrite lnot32_zero by done; lia).
    pose proof (builtin_ctz_lt _ 32 ltac:(lia) Hz) as Hc.
    destruct (builtin_ctz_spec _ (proj1 Hz)) as (H0 & H1 & H2).
    rewrite (Z.mul_comm w 32), s32_small by lia. split_and!; [lia..| |].
    + rewrite bm_test_at by lia. rewrite lnot32_spec in H1 by lia. by apply negb_true_iff in H1.
    + intros k Hk. destruct (split32 k w) as [-> Hj]; [lia|]. rewrite bm_test_at by lia.
      specialize (H2 (k - 32 * w)). rewrite lnot32_spec in H2 by lia.
      apply negb_false_iff, H2. lia.
  - assert (Hw32 : ∀ k, 32 * w ≤ k < 32 * (w + 1) → bm_test words k = true).
    { intros k Hk. destruct (split32 k w) as [-> Hj]; [lia|]. rewrite bm_test_at, E by lia.
      change 0xFFFFFFFF with (Z.ones 32). apply Z.ones_spec_low. lia. }
    specialize (IH (w + 1)). destruct (ffz_words words n (w + 1)) as [r|].
    + destruct IH as (Hr & Ht & Hm); [lia..|]. split_and!; [lia..|done|].
      intros k Hk. destruct (decide (k < 32 * (w + 1))); [apply Hw32; lia|apply Hm; lia].
    + intros k Hk. destruct (decide (k < 32 * (w + 1))); [apply Hw32; lia|apply IH; lia].
Qed.
End search.

(** The result of a search for the lowest clear bit below [nbits]. *)
Definition first_zero (words : list Z) (nbits r : Z) : Prop :=
  (r = -1 ∧ ∀ i, 0 ≤ i < nbits → bm_test words i = true) ∨
  (0 ≤ r < nbits ∧ bm_test words r = false ∧ ∀ i, 0 ≤ i < r → bm_test words i = true).

Lemma low_mask_spec z rem k :
  0 ≤ k < 32 → 0 ≤ rem < 32 →
  Z.testbit (Z.land (w32 (Z.lnot z)) (bit rem - 1)) k = negb (Z.testbit z k) && (k <? rem).
Proof.
  intros Hk Hr. rewrite Z.land_spec, lnot32_spec by lia. f_equal.
  rewrite bit_pow by lia. replace (2 ^ rem - 1) with (Z.ones rem) by (rewrite Z.ones_equiv; lia).
  by rewrite Z.testbit_ones_nonneg by lia.
Qed.

Lemma BitmapFindFirstZero_first words nbits :
  bm_wf words nbits → first_zero words nbits (BitmapFindFirstZero words nbits).
Proof.
  intros (Hf & Hn & Hb). unfold BitmapFindFirstZero, first_zero.
  pose proof (Z.div_mod nbits 32 ltac:(lia)) as Hd. pose proof (mod32 nbits) as Hm.
  assert (Hfull : 0 ≤ nbits / 32) by (apply Z.div_pos; lia).
  pose proof (ffz_words_spec words (Z.to_nat (nbits / 32)) 0 Hf ltac:(lia) ltac:(lia) ltac:(lia)) as Hw.
  rewrite Z2Nat.id in Hw by lia.
  destruct (ffz_words _ _ _) as [r|].
  { right. destruct Hw as (? & ? & Hl). split_and!; [lia..|done|]. intros; apply Hl; lia. }
  unfold truthy. case_if E; [case_if E'|].
  - set (free := Z.land _ _) in *. set (full := nbits / 32) in *.
    assert (Hx : 0 ≤ free < 2 ^ 32) by (apply land_range, w32_range).
    assert (Hfr : ∀ k, 0 ≤ k < 32 → Z.testbit free k = negb (Z.testbit (aget words full) k) && (k <? nbits mod 32))
      by (intros; apply low_mask_spec; lia).
    clearbody free.
    destruct (builtin_ctz_spec free ltac:(lia)) as (H0 & H1 & H2).
    pose proof (builtin_ctz_lt free 32 ltac:(lia) ltac:(lia)) as Hc.
    rewrite Hfr in H1 by lia. b2p.
    rewrite (Z.mul_comm full 32), s32_small by lia. right.
    split_and!; [lia..| |].
    + by rewrite bm_test_at by lia.
    + intros i Hi. destruct (decide (i < 32 * full)); [apply Hw; lia|].
      destruct (split32 i full) as [-> Hj]; [lia|]. rewrite bm_test_at by lia.
      specialize (H2 (i - 32 * full) ltac:(lia)). rewrite Hfr in H2 by lia. apply andb_false_iff in H2. destruct H2; b2p; [done|lia].
  - left. split; [done|]. intros i Hi. destruct (decide (i < 32 * (nbits / 32))); [apply Hw; lia|].
    destruct (split32 i (nbits / 32)) as [-> Hj]; [lia|]. rewrite bm_test_at by lia.
    pose proof (low_mask_spec (aget words (nbits / 32)) (nbits mod 32) (i - 32 * (nbits / 32)) ltac:(lia) ltac:(lia)) as Hl.
    rewrite E', Z.bits_0 in Hl. symmetry in Hl. apply andb_false_iff in Hl. destruct Hl; b2p; [done|lia].
  - left. split; [done|]. intros. apply Hw. lia.
Qed.

(** The result of a search for the lowest run of [run] clear bits below [nbits]. *)
Definition clear_run (words : list Z) (i run : Z) : Prop :=
  ∀ k, i ≤ k < i + run → bm_test words k = false.
Definition first_clear_run (words : list Z) (nbits run r : Z) : Prop :=
  (r = -1 ∧ ∀ i, 0 ≤ i → i + run ≤ nbits → ¬ clear_run words i run) ∨
  (0 ≤ r ∧ r + run ≤ nbits ∧ clear_run words r run ∧
   ∀ i, 0 ≤ i < r → ¬ clear_run words i run).

(** Loop invariant of the scan: the last [count] bits are clear and no run starts
    before them. *)
Lemma find_clear_run_spec words nbits run n i count :
  0 < run → nbits < 2 ^ 31 → i + Z.of_nat n = nbits → 0 ≤ count ≤ i → count < run →
  (∀ k, i - count ≤ k < i → bm_test words k = false) →
  (∀ j, 0 ≤ j < i - count → ¬ clear_run words j run) →
  first_clear_run words nbits run (find_clear_run words run n i count).
Proof.
  intros Hr Hs. revert i count. induction n as [|n IH]; intros i count Hn Hc Hlt Hz Hno; simpl.
  - left. split; [done|]. intros j Hj Hjr. apply Hno. lia.
  - rewrite BitmapTest_spec. destruct (bm_test words i) eqn:E; simpl.
    + apply IH; [lia..|]. intros j Hj Hrun.
      destruct (decide (j < i - count)) as [|]; [by apply (Hno j); [lia|]|].
      specialize (Hrun i ltac:(lia)). congruence.
    + case_if E'.
      * assert (run = count + 1) as -> by lia. rewrite s32_small by lia.
        right. split_and!; [lia..| |].
        -- intros k Hk. destruct (decide (k = i)) as [->|]; [done|apply Hz; lia].
        -- intros j Hj. apply Hno. lia.
      * apply IH; [lia..| |].
        -- intros k Hk. destruct (decide (k = i)) as [->|]; [done|apply Hz; lia].
        -- intros j Hj. apply Hno. lia.
Qed.

Lemma BitmapFindClearRun_first words nbits run :
  bm_wf words nbits → 0 < run → first_clear_run words nbits run (BitmapFindClearRun words nbits run).
Proof.
  intros (_ & Hn & Hb) Hr. unfold BitmapFindClearRun.
  destruct (nbits <? run) eqn:E; b2p.
  - rewrite orb_true_r. left. split; [done|]. intros; lia.
  - rewrite orb_false_r. case_if E'; [lia|]. apply find_clear_run_spec; lia.
Qed.

(** * Ranges *)
Lemma BitmapSetRange_step words start count :
  0 ≤ count → BitmapSetRange words start (count + 1) = BitmapSet (BitmapSetRange words start count) (start + count).
Proof.
  intros. unfold BitmapSetRange. rewrite seqZ_app by lia. rewrite foldl_app. simpl. by rewrite Z.add_0_l.
Qed.
Lemma BitmapClrRange_step words start count :
  0 ≤ count → BitmapClrRange words start (count + 1) = BitmapClr (BitmapClrRange words start count) (start + count).
Proof.
  intros. unfold BitmapClrRange. rewrite seqZ_app by lia. rewrite foldl_app. simpl. by rewrite Z.add_0_l.
Qed.

Lemma BitmapSetRange_spec words nbits start count :
  bm_wf words nbits → 0 ≤ start → 0 ≤ count → start + count ≤ nbits →
  bm_wf (BitmapSetRange words start count) nbits ∧
  ∀ j, 0 ≤ j → bm_test (BitmapSetRange words start count) j =
               bool_decide (start ≤ j < start + count) || bm_test words j.
Proof.
  intros Hwf Hs Hc. revert count Hc. apply (natlike_ind (λ count, start + count ≤ nbits → _)).
  - intros _. split; [done|]. intros j Hj. rewrite bool_decide_eq_false_2 by lia. done.
  - intros c Hc IH Hle. rewrite <- Z.add_1_r in *. rewrite BitmapSetRange_step by done.
    destruct IH as [Hw Ht]; [lia|]. split; [apply bm_wf_Set; [done|lia]|].
    intros j Hj. destruct Hw as (? & ? & ?). rewrite bm_test_Set by lia. rewrite Ht by done.
    repeat case_bool_decide; simpl; try done; lia.
Qed.

Lemma BitmapClrRange_spec words nbits start count :
  bm_wf words nbits → 0 ≤ start → 0 ≤ count → start + count ≤ nbits →
  bm_wf (BitmapClrRange words start count) nbits ∧
  ∀ j, 0 ≤ j → bm_test (BitmapClrRange words start count) j =
               negb (bool_decide (start ≤ j < start + count)) && bm_test words j.
Proof.
  intros Hwf Hs Hc. revert count Hc. apply (natlike_ind (λ count, start + count ≤ nbits → _)).
  - intros _. split; [done|]. intros j Hj. rewrite bool_decide_eq_false_2 by lia. done.
  - intros c Hc IH Hle. rewrite <- Z.add_1_r in *. rewrite BitmapClrRange_step by done.
    destruct IH as [Hw Ht]; [lia|]. split; [apply bm_wf_Clr; [done|lia]|].
    intros j Hj. destruct Hw as (? & ? & ?). rewrite bm_test_Clr by lia. rewrite Ht by done.
    repeat case_bool_decide; simpl; try done; lia.
Qed.

Lemma length_zeroes words l : length (foldl (λ ws w, aset ws w 0) words l) = length words.
Proof. revert words. induction l as [|w l IH]; intros; simpl; [done|]. by rewrite IH, length_aset. Qed.

Lemma BitmapZero_spec words nbits :
  Forall (λ w, 0 ≤ w < 2 ^ 32) words → 0 ≤ nbits ≤ 32 * Z.of_nat (length words) → nbits < 2 ^ 31 →
  bm_wf (BitmapZero words nbits) nbits ∧ ∀ i, 0 ≤ i < nbits → bm_test (BitmapZero words nbits) i = false.
Proof.
  intros Hf Hn Hb. unfold BitmapZero, BITMAP_WORDS.
  assert (Hz : ∀ c, 0 ≤ c → 
    Forall (λ w, 0 ≤ w < 2 ^ 32) (foldl (λ ws w, aset ws w 0) words (seqZ 0 c)) ∧
    ∀ w, 0 ≤ w < c → w < Z.of_nat (length words) → aget (foldl (λ ws w, aset ws w 0) words (seqZ 0 c)) w = 0).
  { apply natlike_ind; [split; [done|lia]|]. intros c Hc [IHf IH]. rewrite <- Z.add_1_r.
    rewrite seqZ_app, foldl_app by lia. simpl. split; [by apply Forall_aset|].
    intros w Hw Hl. destruct (decide (c = w)) as [->|].
    - apply aget_aset_eq. rewrite length_zeroes. lia.
    - rewrite aget_aset_ne by lia. apply IH; lia. }
  destruct (Hz ((nbits + 31) / 32)) as [Hf' Hz']; [apply Z.div_pos; lia|].
  unfold bm_wf. rewrite length_zeroes. split; [done|]. intros i Hi. unfold bm_test.
  rewrite Hz'; [apply Z.bits_0| |apply word_index; lia].
  split; [apply Z.div_pos; lia|]. apply Z.div_lt_upper_bound; [lia|].
  pose proof (Z.div_mod (nbits + 31) 32 ltac:(lia)). pose proof (mod32 (nbits + 31)). lia.
Qed.

(** * Allocating from a bitmap *)

(** Taking the bit found by [BitmapFindFirstZero] claims the lowest clear bit and
    no other; the result -1 means that every bit is set. *)
Theorem BitmapFindFirstZero_claim words nbits :
  bm_wf words nbits →
  let r := BitmapFindFirstZero words nbits in
  (r = -1 ∧ ∀ i, 0 ≤ i < nbits → BitmapTest words i = 1) ∨
  (0 ≤ r < nbits ∧ BitmapTest words r = 0 ∧ (∀ i, 0 ≤ i < r → BitmapTest words i = 1) ∧
   bm_wf (BitmapSet words r) nbits ∧
   ∀ j, 0 ≤ j < nbits → BitmapTest (BitmapSet words r) j = if decide (j = r) then 1 else BitmapTest words j).
Proof.
  intros Hwf r. destruct (BitmapFindFirstZero_first words nbits Hwf) as [[Hr Hall]|(Hr & Hz & Hl)]; fold r in Hr.
  - left. split; [done|]. intros i Hi. rewrite BitmapTest_spec by lia. by rewrite Hall.
  - right. fold r in Hz, Hl. destruct Hwf as (Hf & Hn & Hb).
    split_and!; [lia..| | | |].
    + rewrite BitmapTest_spec by lia. by rewrite Hz.
    + intros i Hi. rewrite BitmapTest_spec by lia. by rewrite Hl.
    + by apply bm_wf_Set; [|lia].
    + intros j Hj. rewrite !BitmapTest_spec by lia. rewrite bm_test_Set by lia.
      case_decide; case_bool_decide; (done || congruence).
Qed.

Lemma BitmapFindFirstZero_claim_witness :
  BitmapFindFirstZero [7; 0] 40 = 3 ∧ bm_wf (BitmapSet [7; 0] 3) 40.
Proof.
  assert (Hwf : bm_wf [7; 0] 40) by (split_and!; [repeat constructor; lia|simpl; lia..]).
  destruct (BitmapFindFirstZero_claim [7; 0] 40 Hwf) as [[Hr _]|(_ & _ & _ & Hw & _)].
  - exfalso. vm_compute in Hr. discriminate Hr.
  - split; [reflexivity|exact Hw].
Defined.

(** Marking the run found by [BitmapFindClearRun] claims the lowest run of [run]
    clear bits and no other bit; the result -1 means that there is no such run. *)
Theorem BitmapFindClearRun_claim words nbits run :
  bm_wf words nbits → 0 < run →
  let r := BitmapFindClearRun words nbits run in
  first_clear_run words nbits run r ∧
  (r ≠ -1 → bm_wf (BitmapSetRange words r run) nbits ∧
   (∀ j, 0 ≤ j → bm_test (BitmapSetRange words r run) j = bool_decide (r ≤ j < r + run) || bm_test words j) ∧
   ∀ j, 0 ≤ j → bm_test (BitmapClrRange (BitmapSetRange words r run) r run) j = bm_test words j).
Proof.
  intros Hwf Hrun r. pose proof (BitmapFindClearRun_first words nbits run Hwf Hrun) as Hf. fold r in Hf.
  split; [done|]. intros Hr. destruct Hf as [[? _]|(H0 & Hle & Hclr & _)]; [done|].
  destruct (BitmapSetRange_spec words nbits r run) as [Hw Ht]; [done|lia..|].
  destruct (BitmapClrRange_spec (BitmapSetRange words r run) nbits r run) as [_ Hc]; [done|lia..|].
  split_and!; [done..|]. intros j Hj. rewrite Hc, Ht by done.
  case_bool_decide; [|done]. simpl. symmetry. by apply Hclr.
Qed.

Lemma BitmapFindClearRun_claim_witness :
  BitmapFindClearRun [11; 0] 40 3 = 4 ∧ first_clear_run [11; 0] 40 3 4.
Proof.
  assert (Hwf : bm_wf [11; 0] 40) by (split_and!; [repeat constructor; lia|simpl; lia..]).
  split; [reflexivity|]. exact (proj1 (BitmapFindClearRun_claim [11; 0] 40 3 Hwf ltac:(lia))).
Defined.
