(* ===== verification/Str.v ===== *)
(** Strings and memory blocks: klib/string.c up to the formatting core, klib/mem.c, the number
    conversions of include/convert.c and include/stdlib.c and the byte order helpers of
    include/convert.h.

    Memory is a function from addresses to bytes; [char] is unsigned on this target.  Loops that
    run to the terminator of a string take fuel and end in [None] without it; every theorem
    gives a bound that is enough. *)
From S2P Require Import Prelude.

#[local] Open Scope Z_scope.

Definition mem := Z → Z.
Definition poke (m : mem) (a v : Z) : mem := λ x, if x =? a then v else m x.

(** * klib/string.c *)

Fixpoint strlen_from (fuel : nat) (m : mem) (s len : Z) : option Z :=
  if m s =? 0 then Some len else
  match fuel with O => None | S f => strlen_from f m (s + 1) (len + 1) end.
Definition strlen (fuel : nat) (m : mem) (s : Z) : option Z := strlen_from fuel m s 0.

Fixpoint strnlen_from (n : nat) (m : mem) (s len : Z) : Z :=
  match n with
  | O => len
  | S n' => if m (s + len) =? 0 then len else strnlen_from n' m s (len + 1)
  end.
Definition strnlen (m : mem) (s maxlen : Z) : Z := strnlen_from (Z.to_nat maxlen) m s 0.

Fixpoint strcmp (fuel : nat) (m : mem) (s1 s2 : Z) : option Z :=
  if negb (m s1 =? 0) && negb (m s2 =? 0) then
    match fuel with
    | O => None
    | S f =>
        let diff := m s1 - m s2 in
        if negb (diff =? 0) then Some diff else strcmp f m (s1 + 1) (s2 + 1)
    end
  else Some (m s1 - m s2).

(** The loop of [strncmp] with [n] characters to go. *)
Fixpoint strncmp_from (n : nat) (m : mem) (s1 s2 : Z) : Z :=
  match n with
  | O => 0
  | S n' =>
      if negb (m s1 =? 0) && negb (m s2 =? 0) then
        let diff := m s1 - m s2 in
        if negb (diff =? 0) then diff else strncmp_from n' m (s1 + 1) (s2 + 1)
      else m s1 - m s2
  end.
Definition strncmp (m : mem) (s1 s2 n : Z) : Z := strncmp_from (Z.to_nat n) m s1 s2.

Fixpoint strcpy (fuel : nat) (m : mem) (dest src : Z) : option mem :=
  let c := m src in
  let m' := poke m dest c in
  if c =? 0 then Some m' else
  match fuel with O => None | S f => strcpy f m' (dest + 1) (src + 1) end.

(** The two loops of [strncpy] with [n] bytes to go. *)
Fixpoint strncpy_pad (n : nat) (m : mem) (dest : Z) : mem :=
  match n with O => m | S n' => strncpy_pad n' (poke m dest 0) (dest + 1) end.
Fixpoint strncpy_from (n : nat) (m : mem) (dest src : Z) : mem :=
  match n with
  | O => m
  | S n' => if m src =? 0 then strncpy_pad n m dest else strncpy_from n' (poke m dest (m src)) (dest + 1) (src + 1)
  end.
Definition strncpy (m : mem) (dest src n : Z) : mem := strncpy_from (Z.to_nat n) m dest src.

(** [0] is NULL. *)
Fixpoint strchr (fuel : nat) (m : mem) (s c : Z) : option Z :=
  if m s =? 0 then Some 0 else
  if m s =? w8 c then Some s else
  match fuel with O => None | S f => strchr f m (s + 1) c end.

Fixpoint strrchr_from (fuel : nat) (m : mem) (s c last : Z) : option Z :=
  let last := if m s =? w8 c then s else last in
  if m s =? 0 then Some last else
  match fuel with O => None | S f => strrchr_from f m (s + 1) c last end.
Definition strrchr (fuel : nat) (m : mem) (s c : Z) : option Z := strrchr_from fuel m s c 0.

(** * klib/mem.c *)

Fixpoint copy_up (n : nat) (m : mem) (d s : Z) : mem :=
  match n with O => m | S n' => copy_up n' (poke m d (m s)) (d + 1) (s + 1) end.
Fixpoint copy_down (n : nat) (m : mem) (d s : Z) : mem :=
  match n with O => m | S n' => copy_down n' (poke m d (m s)) (d - 1) (s - 1) end.
Definition memmove (m : mem) (dest src n : Z) : mem :=
  if (n =? 0) || (dest =? src) then m else
  if dest <? src then copy_up (Z.to_nat n) m dest src
  else copy_down (Z.to_nat n) m (dest + (n - 1)) (src + (n - 1)).

Fixpoint memcmp_from (n : nat) (m : mem) (s1 s2 : Z) : Z :=
  match n with
  | O => 0
  | S n' =>
      if negb (m s1 =? m s2) then (if m s1 <? m s2 then -1 else 1)
      else memcmp_from n' m (s1 + 1) (s2 + 1)
  end.
Definition memcmp (m : mem) (str1 str2 count : Z) : Z := memcmp_from (Z.to_nat count) m str1 str2.

Fixpoint memchr_from (n : nat) (m : mem) (p c : Z) : Z :=
  match n with
  | O => 0
  | S n' => if m p =? w8 c then p else memchr_from n' m (p + 1) c
  end.
Definition memchr (m : mem) (s c n : Z) : Z := memchr_from (Z.to_nat n) m s c.

(** * include/convert.h *)

Definition htons (x : Z) : Z := w16 (Z.lor (Z.shiftr x 8) (Z.shiftl x 8)).
Definition htonl (x : Z) : Z :=
  Z.lor (Z.lor (Z.lor (Z.shiftr x 24) (Z.land (Z.shiftr x 8) 0xFF00)) (Z.land (w32 (Z.shiftl x 8)) 0xFF0000)) (w32 (Z.shiftl x 24)).
Definition be32 (m : mem) (p : Z) : Z :=
  Z.lor (Z.lor (Z.lor (w32 (Z.shiftl (m p) 24)) (w32 (Z.shiftl (m (p + 1)) 16))) (w32 (Z.shiftl (m (p + 2)) 8))) (m (p + 3)).

(** * include/convert.c *)

(** Characters by code. *)
Definition chr_0 : Z := 48.
Definition chr_9 : Z := 57.
Definition chr_a : Z := 97.
Definition chr_A : Z := 65.
Definition chr_minus : Z := 45.
Definition chr_plus : Z := 43.
Definition chr_space : Z := 32.

Definition is_digit (c : Z) : bool := (chr_0 <=? c) && (c <=? chr_9).
Definition is_hex (c : Z) : bool :=
  is_digit c || ((chr_a <=? c) && (c <=? 102)) || ((chr_A <=? c) && (c <=? 70)).

(** [while (c == ' ' || c == '\t' || c == '\n') str++] *)
Fixpoint skip_blanks (fuel : nat) (m : mem) (s : Z) : option Z :=
  if (m s =? chr_space) || (m s =? 9) || (m s =? 10) then
    match fuel with O => None | S f => skip_blanks f m (s + 1) end
  else Some s.
(** The sign: whether the number is negative, and the address after it. *)
Definition take_sign (m : mem) (s : Z) : bool * Z :=
  if m s =? chr_minus then (true, s + 1) else if m s =? chr_plus then (false, s + 1) else (false, s).

(** The loops over digits; the value wraps as [int] does on this target. *)
Fixpoint dec_digits (fuel : nat) (m : mem) (s value : Z) : option Z :=
  if is_digit (m s) then
    match fuel with O => None | S f => dec_digits f m (s + 1) (s32 (value * 10 + (m s - chr_0))) end
  else Some value.
Definition hex_value (c : Z) : Z :=
  if is_digit c then c - chr_0 else if (chr_a <=? c) && (c <=? 102) then c - chr_a + 10 else c - chr_A + 10.
Fixpoint hex_digits (fuel : nat) (m : mem) (s value : Z) : option Z :=
  if is_hex (m s) then
    match fuel with O => None | S f => hex_digits f m (s + 1) (s32 (value * 16 + hex_value (m s))) end
  else Some value.

Definition atoi (fuel : nat) (m : mem) (str : Z) : option Z :=
  str ← skip_blanks fuel m str;
  let '(is_negative, str) := take_sign m str in
  value ← dec_digits fuel m str 0;
  Some (if is_negative : bool then s32 (- value) else value).
Definition atoh (fuel : nat) (m : mem) (str : Z) : option Z :=
  str ← skip_blanks fuel m str;
  let '(is_negative, str) := take_sign m str in
  value ← hex_digits fuel m str 0;
  Some (if is_negative : bool then s32 (- value) else value).

(** A digit as a character. *)
Definition digit_char (digit : Z) : Z := if digit <? 10 then w8 (chr_0 + digit) else w8 (chr_a + (digit - 10)).
(** [while (value) ...]: the digits of [value], least significant first, appended to the local
    buffer [bfr]. *)
Fixpoint digits_of (fuel : nat) (value base : Z) (bfr : list Z) : option (list Z) :=
  if value =? 0 then Some bfr else
  match fuel with O => None | S f => digits_of f (value / base) base (bfr ++ [digit_char (value mod base)]) end.
(** The buffer is written backwards. *)
Fixpoint write_all (m : mem) (s : Z) (l : list Z) : mem :=
  match l with [] => m | c :: l' => write_all (poke m s c) (s + 1) l' end.
Definition write_str (m : mem) (s : Z) (l : list Z) : mem :=
  poke (write_all m s l) (s + Z.of_nat (length l)) 0.

Definition utoa (fuel : nat) (m : mem) (value str base : Z) : option mem :=
  if value =? 0 then Some (write_str m str [chr_0]) else
  bfr ← digits_of fuel value base [];
  Some (write_str m str (reverse bfr)).
(** [value % base] and [value / base] are computed in [unsigned]. *)
Definition itoa (fuel : nat) (m : mem) (value str base : Z) : option mem :=
  if value =? 0 then Some (write_str m str [chr_0]) else
  let '(m, str, value) := if value <? 0 then (poke m str chr_minus, str + 1, s32 (- value)) else (m, str, value) in
  bfr ← digits_of fuel (w32 value) base [];
  Some (write_str m str (reverse bfr)).

(** * include/stdlib.c *)

Definition abs (j : Z) : Z := if j <? 0 then s32 (- j) else j.

Definition is_ws (c : Z) : bool := (c =? chr_space) || (c =? 9) || (c =? 10) || (c =? 13) || (c =? 12) || (c =? 11).
Fixpoint skip_ws (fuel : nat) (m : mem) (s : Z) : option Z :=
  if is_ws (m s) then match fuel with O => None | S f => skip_ws f m (s + 1) end else Some s.

(** The base, with [0] read off the prefix. *)
Definition pick_base (m : mem) (s base : Z) : Z :=
  if base =? 0 then
    if m s =? chr_0 then (if (m (s + 1) =? 120) || (m (s + 1) =? 88) then 16 else 8) else 10
  else base.
Definition skip_0x (m : mem) (s base : Z) : Z :=
  if (base =? 16) && (m s =? chr_0) && ((m (s + 1) =? 120) || (m (s + 1) =? 88)) then s + 2 else s.
Definition digit_value (c : Z) : option Z :=
  if is_digit c then Some (c - chr_0)
  else if (chr_a <=? c) && (c <=? 122) then Some (c - chr_a + 10)
  else if (chr_A <=? c) && (c <=? 90) then Some (c - chr_A + 10)
  else None.
(** The digits from [s] on: the value, modulo the width of [long], and where they end. *)
Fixpoint acc_digits (fuel : nat) (m : mem) (s base acc : Z) : option (Z * Z) :=
  if m s =? 0 then Some (acc, s) else
  match digit_value (m s) with
  | None => Some (acc, s)
  | Some digit =>
      if base <=? digit then Some (acc, s) else
      match fuel with O => None | S f => acc_digits f m (s + 1) base (w32 (acc * base + digit)) end
  end.
Definition strtol (fuel : nat) (m : mem) (nptr base : Z) : option (Z * Z) :=
  s ← skip_ws fuel m nptr;
  let '(neg, s) := if (m s =? chr_plus) || (m s =? chr_minus) then (m s =? chr_minus, s + 1) else (false, s) in
  let base := pick_base m s base in
  let s := skip_0x m s base in
  r ← acc_digits fuel m s base 0;
  let '(acc, e) := r in
  Some (if neg : bool then s32 (- s32 acc) else s32 acc, if e =? s then nptr else e).
Definition strtoul (fuel : nat) (m : mem) (nptr base : Z) : option (Z * Z) :=
  s ← skip_ws fuel m nptr;
  let s := if (m s =? chr_plus) || (m s =? chr_minus) then s + 1 else s in
  let base := pick_base m s base in
  let s := skip_0x m s base in
  r ← acc_digits fuel m s base 0;
  let '(acc, e) := r in
  Some (acc, if e =? s then nptr else e).

Definition srand (seed : Z) : Z := if seed =? 0 then 1 else seed.
Definition rand (rand_state : Z) : Z * Z :=
  let rand_state := w32 (rand_state * 1103515245 + 12345) in
  (Z.land (Z.shiftr rand_state 1) 0x7FFFFFFF, rand_state).

(** * C strings *)

(** The bytes [l], none of them 0, stand at [a], followed by 0. *)
Fixpoint cstr (m : mem) (a : Z) (l : list Z) : Prop :=
  match l with
  | [] => m a = 0
  | c :: l' => m a = c ∧ 0 < c < 256 ∧ cstr m (a + 1) l'
  end.
Lemma cstr_frame m m' a l :
  (∀ x, a ≤ x ≤ a + Z.of_nat (length l) → m' x = m x) → cstr m a l → cstr m' a l.
Proof.
  revert a. induction l as [|c l IH]; intros a Hf; simpl in *; [rewrite Hf by lia; done|].
  intros (H1 & H2 & H3). split_and!; [rewrite Hf by lia; done|lia|lia|]. apply IH; [|done]. intros x Hx. apply Hf. lia.
Qed.

Lemma poke_eq m a v : poke m a v a = v.
Proof. unfold poke. by rewrite Z.eqb_refl. Qed.
Lemma poke_ne m a v x : x ≠ a → poke m a v x = m x.
Proof. intros Hx. unfold poke. by rewrite (proj2 (Z.eqb_neq _ _)). Qed.
Ltac peek := repeat first [rewrite poke_eq | rewrite poke_ne by lia].

(** Extensional equality of memories. *)
Lemma strlen_from_ok fuel m a l n : cstr m a l → (length l ≤ fuel)%nat → strlen_from fuel m a n = Some (n + Z.of_nat (length l)).
Proof.
  revert a l n. induction fuel as [|f IH]; intros a [|c l] n Hc Hl; simpl in *; try lia.
  - rewrite Hc. simpl. f_equal. lia.
  - rewrite Hc. simpl. f_equal. lia.
  - destruct Hc as (-> & H1 & H2). rewrite (proj2 (Z.eqb_neq c 0)) by lia. rewrite (IH _ l) by (done || lia). f_equal. lia.
Qed.

(** * Blocks of memory *)

Lemma copy_up_at n m d s x : d < s →
  copy_up n m d s x = if decide (d ≤ x < d + Z.of_nat n) then m (s + (x - d)) else m x.
Proof.
  revert m d s. induction n as [|n IH]; intros m d s Hd; simpl; [by rewrite decide_False by lia|]. rewrite IH by lia.
  destruct (decide (x = d)) as [->|Hne].
  - rewrite decide_False, decide_True by lia. rewrite poke_eq. f_equal. lia.
  - repeat case_decide; try lia; peek; f_equal; lia.
Qed.
Lemma copy_down_at n m d s x : s < d →
  copy_down n m d s x = if decide (d - Z.of_nat n < x ≤ d) then m (s + (x - d)) else m x.
Proof.
  revert m d s. induction n as [|n IH]; intros m d s Hd; simpl; [by rewrite decide_False by lia|]. rewrite IH by lia.
  destruct (decide (x = d)) as [->|Hne].
  - rewrite decide_False, decide_True by lia. rewrite poke_eq. f_equal. lia.
  - repeat case_decide; try lia; peek; f_equal; lia.
Qed.

(** C32: [memmove] moves the block as it was before the call, however the two blocks overlap: it is
    the copy that reads everything before it writes anything. *)
Theorem memmove_moves m dest src n x :
  0 ≤ n → memmove m dest src n x = if decide (dest ≤ x < dest + n) then m (src + (x - dest)) else m x.
Proof.
  intros Hn. unfold memmove. destruct (Z.eqb_spec n 0) as [->|Hn0]; simpl; [by rewrite decide_False by lia|].
  destruct (Z.eqb_spec dest src) as [->|Hne]; [case_decide; [f_equal; lia|done]|].
  destruct (Z.ltb_spec dest src).
  - rewrite copy_up_at, Z2Nat.id by lia. done.
  - rewrite copy_down_at, Z2Nat.id by lia. repeat case_decide; try lia; try done; f_equal; lia.
Qed.
Lemma memmove_moves_witness : memmove (λ x, x * x) 3 2 4 6 = 25.
Proof. rewrite (memmove_moves (λ x, x * x) 3 2 4 6) by lia. reflexivity. Defined.

(** * Comparing *)

(** The order of strings of bytes. *)
Fixpoint str_cmp (l1 l2 : list Z) : comparison :=
  match l1, l2 with
  | [], [] => Eq
  | [], _ => Lt
  | _, [] => Gt
  | a :: l1, b :: l2 => match a ?= b with Eq => str_cmp l1 l2 | c => c end
  end.
Lemma diff_cmp a b : (a - b ?= 0) = (a ?= b).
Proof. destruct (Z.compare_spec a b), (Z.compare_spec (a - b) 0); try done; lia. Qed.

Lemma str_cmp_eq l1 l2 : str_cmp l1 l2 = Eq ↔ l1 = l2.
Proof.
  revert l2. induction l1 as [|a l1 IH]; intros [|b l2]; simpl; try done. destruct (Z.compare_spec a b) as [->|?|?]; [rewrite IH; naive_solver|..].
  - split; [done|]. intros [= -> _]. lia.
  - split; [done|]. intros [= -> _]. lia.
Qed.
Lemma strcmp_run fuel m a b l1 l2 :
  cstr m a l1 → cstr m b l2 → (length l1 `min` length l2 ≤ fuel)%nat → ∃ d, strcmp fuel m a b = Some d ∧ (d ?= 0) = str_cmp l1 l2.
Proof.
  revert fuel a b l2. induction l1 as [|c1 l1 IH]; intros fuel a b [|c2 l2] H1 H2 Hf; simpl in *.
  - exists (m a - m b). rewrite H1, H2. by destruct fuel; simpl; rewrite H1, H2.
  - destruct H2 as (E2 & Hc & _). exists (m a - c2). split; [destruct fuel; simpl; by rewrite H1, E2|]. rewrite diff_cmp, H1. apply Z.compare_lt_iff; lia.
  - destruct H1 as (E & Hc & _). exists (m a - m b). rewrite diff_cmp, E, H2. split; [destruct fuel; simpl; rewrite E, H2; by destruct (negb (c1 =? 0))|]. apply Z.compare_gt_iff; lia.
  - destruct H1 as (E1 & Hc1 & H1), H2 as (E2 & Hc2 & H2), fuel as [|f]; [lia|]. simpl. rewrite E1, E2.
    rewrite (proj2 (Z.eqb_neq c1 0)), (proj2 (Z.eqb_neq c2 0)) by lia. simpl. destruct (Z.eqb_spec (c1 - c2) 0) as [Hz|Hz]; simpl.
    + assert (c1 = c2) as -> by lia. rewrite Z.compare_refl. apply IH; [done|done|lia].
    + exists (c1 - c2). split; [done|]. rewrite diff_cmp. destruct (Z.compare_spec c1 c2); [lia|done|done].
Qed.
Lemma strncmp_run n m a b l1 l2 :
  cstr m a l1 → cstr m b l2 → (strncmp_from n m a b ?= 0) = str_cmp (take n l1) (take n l2).
Proof.
  revert a b l1 l2. induction n as [|n IH]; intros a b [|c1 l1] [|c2 l2] H1 H2; simpl in *; try done.
  - by rewrite H1, H2.
  - destruct H2 as (-> & Hc & _). rewrite H1. cbn [negb Z.eqb andb]. rewrite diff_cmp. apply Z.compare_lt_iff; lia.
  - destruct H1 as (-> & Hc & _). rewrite H2. cbn [negb Z.eqb]. rewrite andb_false_r, diff_cmp. apply Z.compare_gt_iff; lia.
  - destruct H1 as (E1 & Hc1 & H1), H2 as (E2 & Hc2 & H2). rewrite E1, E2.
    rewrite (proj2 (Z.eqb_neq c1 0)), (proj2 (Z.eqb_neq c2 0)) by lia. simpl. destruct (Z.eqb_spec (c1 - c2) 0) as [Hz|Hz]; simpl.
    + assert (c1 = c2) as -> by lia. rewrite Z.compare_refl. by apply IH.
    + rewrite diff_cmp. destruct (Z.compare_spec c1 c2); [lia|done|done].
Qed.

(** [strcmp] and [strncmp] return for all terminated strings, and the sign of their result is
    the lexicographic order, of the strings or of their first [n] bytes: zero exactly for
    equal ones. *)
Theorem strcmp_orders fuel m a b l1 l2 n :
  cstr m a l1 → cstr m b l2 → (length l1 `min` length l2 ≤ fuel)%nat → 0 ≤ n →
  (∃ d, strcmp fuel m a b = Some d ∧ (d ?= 0) = str_cmp l1 l2 ∧ (d = 0 ↔ l1 = l2)) ∧
  (strncmp m a b n ?= 0) = str_cmp (take (Z.to_nat n) l1) (take (Z.to_nat n) l2).
Proof.
  intros H1 H2 Hf Hn. split; [|by apply strncmp_run]. destruct (strcmp_run _ _ _ _ _ _ H1 H2 Hf) as (d & Hd & Hs).
  exists d. split_and!; [done..|]. rewrite <- str_cmp_eq, <- Hs. by rewrite Z.compare_eq_iff.
Qed.

(** * Copying *)

(** The bytes [l] stand at [a]. *)
Fixpoint bytes_at (m : mem) (a : Z) (l : list Z) : Prop :=
  match l with [] => True | c :: l' => m a = c ∧ bytes_at m (a + 1) l' end.
Lemma bytes_frame m m' a l : (∀ x, a ≤ x < a + Z.of_nat (length l) → m' x = m x) → bytes_at m a l → bytes_at m' a l.
Proof.
  revert a. induction l as [|c l IH]; intros a Hf; simpl in *; [done|]. intros [H1 H2]. split; [rewrite Hf by lia; done|].
  apply IH; [|done]. intros x Hx. apply Hf. lia.
Qed.
Lemma bytes_lookup m a l i c : bytes_at m a l → l !! i = Some c → m (a + Z.of_nat i) = c.
Proof.
  revert a i. induction l as [|c' l IH]; intros a [|i] Hb Hi; simpl in *; try done.
  - injection Hi as ->. destruct Hb as [<- _]. f_equal. lia.
  - destruct Hb as [_ Hb]. rewrite <- (IH (a + 1) i Hb Hi). f_equal. lia.
Qed.
Lemma write_all_spec l : ∀ m s, bytes_at (write_all m s l) s l ∧ ∀ x, ¬ s ≤ x < s + Z.of_nat (length l) → write_all m s l x = m x.
Proof.
  induction l as [|c l IH]; intros m s; simpl; [done|]. destruct (IH (poke m s c) (s + 1)) as [H1 H2]. split_and!; [|done|].
  - rewrite H2 by lia. apply poke_eq.
  - intros x Hx. rewrite H2 by lia. apply poke_ne. lia.
Qed.
Lemma cstr_bytes m a l : cstr m a l ↔ bytes_at m a l ∧ Forall (λ c, 0 < c < 256) l ∧ m (a + Z.of_nat (length l)) = 0.
Proof.
  revert a. induction l as [|c l IH]; intros a; simpl.
  - rewrite Z.add_0_r. naive_solver.
  - rewrite IH, Forall_cons. replace (a + 1 + Z.of_nat (length l)) with (a + Z.of_nat (S (length l))) by lia. tauto.
Qed.
Lemma write_str_cstr m s l : Forall (λ c, 0 < c < 256) l →
  cstr (write_str m s l) s l ∧ ∀ x, ¬ s ≤ x ≤ s + Z.of_nat (length l) → write_str m s l x = m x.
Proof.
  intros Hl. destruct (write_all_spec l m s) as [H1 H2]. unfold write_str. split.
  - apply cstr_bytes. split_and!; [|done|apply poke_eq]. eapply bytes_frame; [|exact H1]. intros x Hx. apply poke_ne. lia.
  - intros x Hx. rewrite poke_ne, H2 by lia. done.
Qed.
Lemma strncpy_pad_at n m d x : strncpy_pad n m d x = if decide (d ≤ x < d + Z.of_nat n) then 0 else m x.
Proof.
  revert m d. induction n as [|n IH]; intros m d; simpl; [by rewrite decide_False by lia|]. rewrite IH. destruct (decide (x = d)) as [->|Hne].
  - rewrite decide_False, decide_True, poke_eq by lia. done.
  - repeat case_decide; try lia; peek; done.
Qed.

(** [strncpy] writes exactly [n] bytes: the string, cut at [n], then zeros; nothing else of memory
    changes, so the result is terminated exactly if the string is shorter than [n]. *)
Theorem strncpy_writes m dest src n l x :
  cstr m src l → 0 ≤ n → dest + n ≤ src ∨ src + Z.of_nat (length l) < dest →
  strncpy m dest src n x =
    if decide (dest ≤ x < dest + n) then default 0 (l !! Z.to_nat (x - dest)) else m x.
Proof.
  intros Hc Hn Hd. unfold strncpy. destruct (Z_of_nat_complete n Hn) as [k ->]. rewrite Nat2Z.id. clear Hn.
  revert m dest src l Hc Hd. induction k as [|k IH]; intros m dest src l Hc Hd; simpl; [by rewrite decide_False by lia|].
  destruct l as [|c l]; simpl in Hc.
  - rewrite Hc, Z.eqb_refl. change (strncpy_pad (S k) m dest x = if decide (dest ≤ x < dest + Z.of_nat (S k)) then 0 else m x). by rewrite strncpy_pad_at.
  - destruct Hc as (E & Hc & Hl). rewrite E, (proj2 (Z.eqb_neq c 0)) by lia.
    rewrite (IH (poke m dest c) (dest + 1) (src + 1) l); [|simpl in Hd; eapply cstr_frame; [|exact Hl]; intros y Hy; apply poke_ne; lia|simpl in Hd; lia].
    destruct (decide (x = dest)) as [->|Hne].
    + rewrite decide_False, decide_True, poke_eq, Z.sub_diag by lia. done.
    + repeat case_decide; try lia; [|by apply poke_ne]. replace (Z.to_nat (x - dest)) with (S (Z.to_nat (x - (dest + 1)))) by lia. done.
Qed.
Lemma strcpy_writes fuel m dest src l :
  cstr m src l → (length l ≤ fuel)%nat → dest + Z.of_nat (length l) < src ∨ src + Z.of_nat (length l) < dest →
  ∃ m', strcpy fuel m dest src = Some m' ∧ cstr m' dest l ∧ ∀ x, ¬ dest ≤ x ≤ dest + Z.of_nat (length l) → m' x = m x.
Proof.
  revert fuel m dest src. induction l as [|c l IH]; intros fuel m dest src Hc Hf Hd; simpl in *.
  - exists (poke m dest 0). split_and!; [destruct fuel; simpl; by rewrite Hc|apply poke_eq|]. intros x Hx. apply poke_ne. lia.
  - destruct Hc as (E & Hc & Hl), fuel as [|f]; [lia|]. simpl. rewrite E, (proj2 (Z.eqb_neq c 0)) by lia.
    destruct (IH f (poke m dest c) (dest + 1) (src + 1)) as (m' & H1 & H2 & H3); [eapply cstr_frame; [|exact Hl]; intros y Hy; apply poke_ne; lia|lia|lia|].
    exists m'. split_and!; [done| |lia|lia|done|].
    + rewrite H3 by lia. apply poke_eq.
    + intros x Hx. rewrite H3 by lia. apply poke_ne. lia.
Qed.

(** * Digits *)

Definition be_val (base acc : Z) (ds : list Z) : Z := foldl (λ a d, a * base + d) acc ds.
Lemma be_val_snoc base acc ds d : be_val base acc (ds ++ [d]) = be_val base acc ds * base + d.
Proof. unfold be_val. by rewrite foldl_app. Qed.
Lemma digit_char_range d : 0 ≤ d < 36 → 0 < digit_char d < 256.
Proof. intros Hd. unfold digit_char, w8, chr_0, chr_a. case_if E; rewrite Z.mod_small; lia. Qed.
Lemma digit_value_char d : 0 ≤ d < 36 → digit_value (digit_char d) = Some d.
Proof.
  intros Hd. unfold digit_char. case_if E; unfold w8, chr_0, chr_a; rewrite Z.mod_small by lia; unfold digit_value, is_digit, chr_0, chr_9, chr_a.
  - rewrite (proj2 (Z.leb_le 48 _)), (proj2 (Z.leb_le _ 57)) by lia. simpl. f_equal. lia.
  - rewrite (proj2 (Z.leb_gt _ 57)), andb_false_r by lia. rewrite (proj2 (Z.leb_le 97 _)), (proj2 (Z.leb_le _ 122)) by lia. simpl. f_equal. lia.
Qed.

(** The digits of [v], most significant first. *)
Definition text (ds : list Z) : list Z := digit_char <$> ds.
Lemma digits_of_spec base (Hb : 2 ≤ base) fuel : ∀ v bfr,
  0 ≤ v < base ^ Z.of_nat fuel →
  ∃ ds, digits_of fuel v base bfr = Some (bfr ++ text ds) ∧ be_val base 0 (reverse ds) = v ∧ Forall (λ d, 0 ≤ d < base) ds ∧
    (length ds ≤ fuel)%nat ∧ (v ≠ 0 → ds ≠ []).
Proof.
  induction fuel as [|f IH]; intros v bfr Hv; simpl.
  - exists []. simpl in Hv. assert (v = 0) as -> by lia. simpl. rewrite app_nil_r. split_and!; try done.
  - destruct (Z.eqb_spec v 0) as [->|Hv0]; [exists []; simpl; rewrite app_nil_r; split_and!; try done; lia|].
    assert (0 ≤ v / base < base ^ Z.of_nat f) as Hq.
    { rewrite Nat2Z.inj_succ, Z.pow_succ_r in Hv by lia. split; [apply Z.div_pos; lia|]. apply Z.div_lt_upper_bound; lia. }
    destruct (IH (v / base) (bfr ++ [digit_char (v mod base)]) Hq) as (ds & E & Hval & Hd & Hlen & _). exists (v mod base :: ds).
    split_and!; [rewrite E; unfold text; by rewrite fmap_cons, <- app_assoc| | |simpl; lia|done].
    + rewrite reverse_cons, be_val_snoc, Hval. pose proof (Z.div_mod v base). lia.
    + constructor; [|done]. apply Z.mod_pos_bound. lia.
Qed.

Lemma be_val_le base acc ds : 1 ≤ base → 0 ≤ acc → Forall (λ d, 0 ≤ d < base) ds → acc ≤ be_val base acc ds.
Proof.
  intros Hb Ha Hd. revert acc Ha. induction Hd as [|d ds Hd Hds IH]; intros acc Ha; simpl; [done|].
  pose proof (IH (acc * base + d) ltac:(nia)). nia.
Qed.
Lemma acc_digits_ok base (Hb : 2 ≤ base ≤ 36) m ds : ∀ fuel s acc,
  cstr m s (text ds) → Forall (λ d, 0 ≤ d < base) ds → (length ds ≤ fuel)%nat → 0 ≤ acc → 0 ≤ be_val base acc ds < 2 ^ 32 →
  acc_digits fuel m s base acc = Some (be_val base acc ds, s + Z.of_nat (length ds)).
Proof.
  induction ds as [|d ds IH]; intros fuel s acc Hc Hd Hf Ha Hv; simpl in *.
  - destruct fuel; simpl; rewrite Hc, Z.eqb_refl, Z.add_0_r; done.
  - apply Forall_cons in Hd as [Hd Hds]. destruct Hc as (E & Hc & Hl), fuel as [|f]; [lia|]. simpl. rewrite E, (proj2 (Z.eqb_neq _ 0)) by lia.
    rewrite digit_value_char, (proj2 (Z.leb_gt base d)) by lia.
    pose proof (be_val_le base (acc * base + d) ds ltac:(lia) ltac:(nia) Hds) as Hle.
    rewrite w32_small by nia. rewrite (IH f); [f_equal; f_equal; lia|done|done|lia|nia|done].
Qed.

(** * Numbers as text and back *)

(** [ds], a number in [base] without superfluous digits, as [utoa] and [itoa] write it. *)
Definition number (base v : Z) (ds : list Z) : Prop :=
  ds ≠ [] ∧ (length ds ≤ 32)%nat ∧ Forall (λ d, 0 ≤ d < base) ds ∧ be_val base 0 ds = v.

Lemma digits_number base v : 2 ≤ base → 0 < v < 2 ^ 32 → ∃ bfr ds, digits_of 32 v base [] = Some bfr ∧ reverse bfr = text ds ∧ number base v ds.
Proof.
  intros Hb Hv. assert (2 ^ 32 ≤ base ^ Z.of_nat 32) as Hp by (apply (Z.pow_le_mono_l 2 base 32); lia).
  destruct (digits_of_spec base Hb 32 v [] ltac:(lia)) as (ds & E & Hval & Hd & Hlen & Hne). exists (text ds), (reverse ds). split; [done|]. split; [unfold text; by rewrite fmap_reverse|].
  unfold number. rewrite length_reverse, Forall_reverse. split_and!; [|done..]. intros E0. apply Hne; [lia|]. rewrite <- (reverse_involutive ds), E0. done.
Qed.
Lemma text_range base ds : base ≤ 36 → Forall (λ d, 0 ≤ d < base) ds → Forall (λ c, 0 < c < 256) (text ds).
Proof. intros Hb Hd. unfold text. apply Forall_fmap. eapply Forall_impl; [exact Hd|]. intros d Hd'. apply digit_char_range. simpl in Hd'. lia. Qed.

(** The first character of a number is no blank, sign or prefix. *)
Lemma digit_char_cases d : 0 ≤ d < 36 → 48 ≤ digit_char d ≤ 57 ∨ 97 ≤ digit_char d ≤ 122 ∧ (d < 16 → digit_char d ≤ 102).
Proof. intros Hd. unfold digit_char, w8, chr_0, chr_a. case_if E; rewrite Z.mod_small by lia; lia. Qed.
Lemma number_head base v ds m s : 2 ≤ base ≤ 36 → number base v ds → cstr m s (text ds) →
  is_ws (m s) = false ∧ (m s =? chr_plus) || (m s =? chr_minus) = false ∧ skip_0x m s base = s.
Proof.
  intros Hb (Hne & _ & Hd & _) Hc. destruct ds as [|d ds]; [done|]. apply Forall_cons in Hd as [Hd Hds]. destruct Hc as (E & _ & Hl).
  pose proof (digit_char_cases d ltac:(lia)) as Hcs. unfold is_ws, skip_0x, chr_plus, chr_minus, chr_space, chr_0. rewrite E.
  split_and!; [repeat (rewrite (proj2 (Z.eqb_neq _ _)) by lia); done..|].
  destruct (Z.eqb_spec base 16) as [->|]; [|done]. simpl. assert (m (s + 1) ≠ 120 ∧ m (s + 1) ≠ 88) as [N1 N2].
  { destruct ds as [|d' ds]; simpl in Hl; [lia|]. apply Forall_cons in Hds as [Hd' _]. destruct Hl as (-> & _). pose proof (digit_char_cases d' ltac:(lia)). lia. }
  rewrite (proj2 (Z.eqb_neq _ 120)), (proj2 (Z.eqb_neq _ 88)) by done. by rewrite andb_false_r.
Qed.

(** Reading a number back, after an optional sign. *)
Lemma strtoul_number base v ds m s : 2 ≤ base ≤ 36 → 0 ≤ v < 2 ^ 32 → number base v ds → cstr m s (text ds) →
  strtoul 33 m s base = Some (v, s + Z.of_nat (length ds)).
Proof.
  intros Hb Hv Hn Hc. destruct (number_head base v ds m s Hb Hn Hc) as (H1 & H2 & H3). destruct Hn as (Hne & Hlen & Hd & Hval).
  unfold strtoul. assert (skip_ws 33 m s = Some s) as -> by (simpl; by rewrite H1). cbv beta iota delta [mbind option_bind]. rewrite H2. unfold pick_base. rewrite (proj2 (Z.eqb_neq base 0)) by lia.
  cbv beta iota zeta. rewrite H3, (acc_digits_ok base Hb m ds) by (done || lia). simpl. rewrite Hval. destruct ds as [|d ds]; [done|]. rewrite (proj2 (Z.eqb_neq _ s)) by (simpl; lia). done.
Qed.
Lemma strtol_number base v ds m s (neg : bool) : 2 ≤ base ≤ 36 → 0 ≤ v < 2 ^ 32 → number base v ds →
  (if neg then m s = chr_minus ∧ cstr m (s + 1) (text ds) else cstr m s (text ds)) →
  strtol 33 m s base = Some (if neg then s32 (- s32 v) else s32 v, s + (if neg then 1 else 0) + Z.of_nat (length ds)).
Proof.
  intros Hb Hv Hn Hc. unfold strtol, pick_base. rewrite (proj2 (Z.eqb_neq base 0)) by lia. destruct neg.
  - destruct Hc as [Hm Hc]. destruct (number_head base v ds m (s + 1) Hb Hn Hc) as (_ & _ & H3). destruct Hn as (Hne & Hlen & Hd & Hval).
    assert (skip_ws 33 m s = Some s) as -> by (simpl; by rewrite Hm). cbv beta iota delta [mbind option_bind]. rewrite Hm. cbn [orb Z.eqb chr_minus chr_plus Pos.eqb].
    rewrite H3, (acc_digits_ok base Hb m ds) by (done || lia). simpl. rewrite Hval. destruct ds as [|d ds]; [done|]. rewrite (proj2 (Z.eqb_neq _ (s + 1))) by (simpl; lia). done.
  - destruct (number_head base v ds m s Hb Hn Hc) as (H1 & H2 & H3). destruct Hn as (Hne & Hlen & Hd & Hval).
    assert (skip_ws 33 m s = Some s) as -> by (simpl; by rewrite H1). cbv beta iota delta [mbind option_bind]. rewrite H2. rewrite H3, (acc_digits_ok base Hb m ds) by (done || lia). simpl.
    rewrite Hval. destruct ds as [|d ds]; [done|]. rewrite (proj2 (Z.eqb_neq _ s)) by (simpl; lia). rewrite Z.add_0_r. done.
Qed.

Lemma number_0 base : 2 ≤ base → number base 0 [0].
Proof. intros Hb. split_and!; [done|simpl; lia|repeat constructor; lia|done]. Qed.

Lemma utoa_writes m v str base : 2 ≤ base ≤ 36 → 0 ≤ v < 2 ^ 32 →
  ∃ m' ds, utoa 32 m v str base = Some m' ∧ number base v ds ∧ cstr m' str (text ds) ∧
    ∀ x, ¬ str ≤ x ≤ str + Z.of_nat (length ds) → m' x = m x.
Proof.
  intros Hb Hv. unfold utoa. destruct (Z.eqb_spec v 0) as [->|Hv0].
  - exists (write_str m str [chr_0]), [0]. destruct (write_str_cstr m str [chr_0]) as [H1 H2]; [repeat constructor; unfold chr_0; lia|]. split; [done|]. split; [apply number_0; lia|]. done.
  - destruct (digits_number base v ltac:(lia) ltac:(lia)) as (bfr & ds & E & Er & Hn). rewrite E. simpl. rewrite Er.
    destruct (write_str_cstr m str (text ds)) as [H1 H2]; [eapply text_range; [|apply Hn]; lia|]. eexists _, ds. split_and!; [done|done|done|].
    intros x Hx. apply H2. unfold text. by rewrite length_fmap.
Qed.

(** A number written by [utoa] in any base from 2 to 36 reads back with [strtoul], which stops at its
    end; [utoa] writes at most 33 bytes. *)
Theorem utoa_strtoul m v str base :
  2 ≤ base ≤ 36 → 0 ≤ v < 2 ^ 32 →
  ∃ m' n, utoa 32 m v str base = Some m' ∧ 1 ≤ n ≤ 32 ∧ strtoul 33 m' str base = Some (v, str + n) ∧
    ∀ x, ¬ str ≤ x ≤ str + n → m' x = m x.
Proof.
  intros Hb Hv. destruct (utoa_writes m v str base Hb Hv) as (m' & ds & E & Hn & Hc & Hf). exists m', (Z.of_nat (length ds)).
  split_and!; [done| | |by apply strtoul_number|done]; destruct Hn as (Hne & Hlen & _); destruct ds; simpl in *; (done || lia).
Qed.

Lemma s32_neg_neg v : - 2 ^ 31 ≤ v < 2 ^ 31 → s32 (- s32 (- v)) = v.
Proof.
  intros Hv. destruct (decide (v = - 2 ^ 31)) as [->|Hne]; [by vm_compute|]. rewrite (s32_range (- v)), Z.opp_involutive by lia. by apply s32_range.
Qed.
Lemma s32_add_mul a b d : s32 (s32 a * b + d) = s32 (a * b + d).
Proof.
  unfold s32 at 1 3. assert (w32 (s32 a * b + d) = w32 (a * b + d)) as ->; [|done].
  unfold w32. rewrite <- Zplus_mod_idemp_l, <- Zmult_mod_idemp_l, <- (Zplus_mod_idemp_l (a * b)), <- (Zmult_mod_idemp_l a). f_equal. f_equal. f_equal. f_equal.
  unfold s32, w32. case_if E; Z.div_mod_to_equations; lia.
Qed.
Lemma dec_digits_run m ds : ∀ fuel s acc,
  bytes_at m s (text ds) → is_digit (m (s + Z.of_nat (length ds))) = false → Forall (λ d, 0 ≤ d < 10) ds → (length ds ≤ fuel)%nat →
  dec_digits fuel m s (s32 acc) = Some (s32 (be_val 10 acc ds)).
Proof.
  induction ds as [|d ds IH]; intros fuel s acc Hc He Hd Hf; cbn [text fmap list_fmap length bytes_at] in *.
  - rewrite Z.add_0_r in He. destruct fuel; cbn [dec_digits]; by rewrite He.
  - apply Forall_cons in Hd as [Hd Hds]. destruct Hc as (E & Hl), fuel as [|f]; [lia|].
    assert (digit_char d = 48 + d) as Ed by (unfold digit_char, w8, chr_0; rewrite (proj2 (Z.ltb_lt d 10)), Z.mod_small by lia; done).
    cbn [dec_digits]. rewrite E, Ed. unfold is_digit at 1, chr_0, chr_9. rewrite (proj2 (Z.leb_le 48 _)), (proj2 (Z.leb_le _ 57)) by lia. cbn [andb].
    rewrite s32_add_mul. replace (acc * 10 + (48 + d - 48)) with (acc * 10 + d) by lia. apply IH; [done| |done|lia].
    rewrite <- He. f_equal. f_equal. lia.
Qed.
Lemma dec_digits_ok m ds fuel s acc :
  cstr m s (text ds) → Forall (λ d, 0 ≤ d < 10) ds → (length ds ≤ fuel)%nat → dec_digits fuel m s (s32 acc) = Some (s32 (be_val 10 acc ds)).
Proof.
  intros (Hb & _ & He)%cstr_bytes Hd Hf. apply dec_digits_run; [done| |done|done]. unfold text in He. rewrite length_fmap in He. by rewrite He.
Qed.

(** The text [itoa] writes. *)
Definition signed_text (m : mem) (s v : Z) (ds : list Z) : Prop :=
  if v <? 0 then m s = chr_minus ∧ cstr m (s + 1) (text ds) else cstr m s (text ds).
Lemma itoa_writes m v str base : 2 ≤ base ≤ 36 → - 2 ^ 31 ≤ v < 2 ^ 31 →
  ∃ m' ds, itoa 32 m v str base = Some m' ∧ number base (Z.abs v) ds ∧ signed_text m' str v ds ∧
    ∀ x, ¬ str ≤ x ≤ str + (if v <? 0 then 1 else 0) + Z.of_nat (length ds) → m' x = m x.
Proof.
  intros Hb Hv. unfold itoa, signed_text. destruct (Z.eqb_spec v 0) as [->|Hv0].
  { exists (write_str m str [chr_0]), [0]. destruct (write_str_cstr m str [chr_0]) as [H1 H2]; [repeat constructor; unfold chr_0; lia|].
    split; [done|]. split; [apply number_0; lia|]. split; [done|]. intros x Hx. apply H2. simpl in *. lia. }
  set (v1 := if v <? 0 then s32 (- v) else v). assert (w32 v1 = Z.abs v) as Ew.
  { unfold v1. destruct (Z.ltb_spec v 0); [|rewrite w32_small; lia]. unfold s32, w32. case_if E; Z.div_mod_to_equations; lia. }
  destruct (digits_number base (Z.abs v) ltac:(lia) ltac:(lia)) as (bfr & ds & E & Er & Hn).
  assert (Forall (λ c, 0 < c < 256) (text ds)) as Ht by (eapply text_range; [|apply Hn]; lia).
  assert (length (text ds) = length ds) as Hlt by (unfold text; by rewrite length_fmap).
  unfold v1 in Ew. destruct (Z.ltb_spec v 0); cbv beta iota zeta in Ew |- *; rewrite Ew, E; cbv beta iota delta [mbind option_bind]; rewrite Er.
  - destruct (write_str_cstr (poke m str chr_minus) (str + 1) (text ds) Ht) as [H1 H2]. eexists _, ds. split; [done|]. split; [done|]. split_and!; [|done|].
    + rewrite H2 by lia. apply poke_eq.
    + intros x Hx. rewrite H2 by lia. apply poke_ne. lia.
  - destruct (write_str_cstr m str (text ds) Ht) as [H1 H2]. eexists _, ds. split; [done|]. split; [done|]. split; [done|]. intros x Hx. apply H2. lia.
Qed.

Lemma atoi_number m s v ds : - 2 ^ 31 ≤ v < 2 ^ 31 → number 10 (Z.abs v) ds → signed_text m s v ds → atoi 33 m s = Some v.
Proof.
  intros Hv Hn Hs. unfold signed_text in Hs. pose proof Hn as (_ & Hlen & Hd & Hval). unfold atoi, take_sign.
  assert (∀ a, cstr m a (text ds) → dec_digits 33 m a 0 = Some (s32 (Z.abs v))) as Hdd.
  { intros a Ha. change 0 with (s32 0). rewrite (dec_digits_ok m ds) by (done || lia). by rewrite Hval. }
  destruct (Z.ltb_spec v 0).
  - destruct Hs as [Hm Hc]. assert (skip_blanks 33 m s = Some s) as -> by (simpl; by rewrite Hm). cbv beta iota delta [mbind option_bind]. rewrite Hm, Z.eqb_refl.
    rewrite Hdd by done. f_equal. rewrite Z.abs_neq by lia. by apply s32_neg_neg.
  - destruct (number_head 10 (Z.abs v) ds m s ltac:(lia) Hn Hs) as (H1 & H2 & _).
    assert (skip_blanks 33 m s = Some s) as ->.
    { simpl. unfold is_ws in H1. destruct (m s =? chr_space), (m s =? 9), (m s =? 10); done. }
    apply orb_false_iff in H2 as [N1 N2]. cbv beta iota delta [mbind option_bind]. rewrite N1, N2. rewrite Hdd by done. f_equal. rewrite Z.abs_eq by lia. by apply s32_range.
Qed.

(** Every [int], the smallest included, written by [itoa] in any base from 2 to 36 reads back with
    [strtol], and in base 10 with [atoi]; [itoa] writes at most 34 bytes. *)
Theorem itoa_strtol m v str base :
  2 ≤ base ≤ 36 → - 2 ^ 31 ≤ v < 2 ^ 31 →
  ∃ m' n, itoa 32 m v str base = Some m' ∧ 1 ≤ n ≤ 33 ∧ strtol 33 m' str base = Some (v, str + n) ∧
    (base = 10 → atoi 33 m' str = Some v) ∧ ∀ x, ¬ str ≤ x ≤ str + n → m' x = m x.
Proof.
  intros Hb Hv. destruct (itoa_writes m v str base Hb Hv) as (m' & ds & E & Hn & Hs & Hf).
  exists m', ((if v <? 0 then 1 else 0) + Z.of_nat (length ds)). pose proof Hn as (Hne & Hlen & _). split; [done|]. split; [|split; [|split]].
  - destruct ds; [done|]. simpl in *. destruct (v <? 0); lia.
  - unfold signed_text in Hs. rewrite (strtol_number base (Z.abs v) ds m' str (v <? 0)) by (done || lia). f_equal. f_equal; [|lia].
    destruct (Z.ltb_spec v 0); [|rewrite Z.abs_eq by lia; by apply s32_range]. rewrite Z.abs_neq by lia. by apply s32_neg_neg.
  - intros ->. by eapply atoi_number.
  - intros x Hx. apply Hf. lia.
Qed.

Lemma utoa_strtoul_witness :
  ∃ m' n, utoa 32 (λ _, 7) 4000000000 100 36 = Some m' ∧ 1 ≤ n ≤ 32 ∧ strtoul 33 m' 100 36 = Some (4000000000, 100 + n) ∧
    ∀ x, ¬ 100 ≤ x ≤ 100 + n → m' x = 7.
Proof. apply (utoa_strtoul (λ _, 7) 4000000000 100 36); lia. Defined.
Lemma itoa_strtol_witness :
  ∃ m' n, itoa 32 (λ _, 7) (- 2147483648) 100 10 = Some m' ∧ 1 ≤ n ≤ 33 ∧ strtol 33 m' 100 10 = Some (- 2147483648, 100 + n) ∧
    (10 = 10 → atoi 33 m' 100 = Some (- 2147483648)) ∧ ∀ x, ¬ 100 ≤ x ≤ 100 + n → m' x = 7.
Proof. apply (itoa_strtol (λ _, 7) (- 2147483648) 100 10); lia. Defined.

(** Strings for examples. *)
Definition hello : mem := write_str (write_str (λ _, 7) 100 [104; 101; 108]) 200 [104; 101; 112; 33].
Lemma strcmp_orders_witness :
  (∃ d, strcmp 3 hello 100 200 = Some d ∧ (d ?= 0) = Lt ∧ (d = 0 ↔ [104; 101; 108] = [104; 101; 112; 33])) ∧
  (strncmp hello 100 200 2 ?= 0) = Eq.
Proof. apply (strcmp_orders 3 hello 100 200 [104; 101; 108] [104; 101; 112; 33] 2); [by vm_compute..|simpl; lia|lia]. Defined.
Lemma strncpy_writes_witness : strncpy hello 300 100 6 304 = 0 ∧ strncpy hello 300 100 6 302 = 108.
Proof.
  split; [rewrite (strncpy_writes hello 300 100 6 [104; 101; 108] 304)|rewrite (strncpy_writes hello 300 100 6 [104; 101; 108] 302)];
    try lia; try (left; simpl; lia); try (right; simpl; lia); by vm_compute.
Defined.
