(* ===== verification/Sort.v ===== *)
(** [qsort] of include/stdlib.c on arrays of [size]-byte elements in memory: quicksort with the
    middle element as pivot, which is moved to the end and compared in place. *)
From stdpp Require Import sorting.
From S2P Require Import Prelude Str.

#[local] Open Scope Z_scope.

Fixpoint swap_bytes (size_ : nat) (m : mem) (a b : Z) : mem :=
  match size_ with
  | O => m
  | S n => let t := m a in swap_bytes n (poke (poke m a (m b)) b t) (a + 1) (b + 1)
  end.

Section qsort.
(** The comparison function reads two elements of memory. *)
Context (size_ : nat) (compar : mem → Z → Z → Z).
#[local] Notation sz := (Z.of_nat size_).

(** The loop from [p] to [hi], [n] elements to go; returns the memory and [store]. *)
Fixpoint partition (n : nat) (m : mem) (p store hi : Z) : mem * Z :=
  match n with
  | O => (m, store)
  | S n' =>
      if compar m p hi <? 0 then partition n' (swap_bytes size_ m p store) (p + sz) (store + sz) hi
      else partition n' m (p + sz) store hi
  end.

Fixpoint qsort_inner (fuel : nat) (m : mem) (base nmemb : Z) : option mem :=
  if nmemb <? 2 then Some m else
  match fuel with
  | O => None
  | S f =>
      let hi := base + (nmemb - 1) * sz in
      let pivot := base + (nmemb / 2) * sz in
      let m := swap_bytes size_ m pivot hi in
      let '(m, store) := partition (Z.to_nat (nmemb - 1)) m base base hi in
      let m := swap_bytes size_ m store hi in
      let left := (store - base) / sz in
      m ← qsort_inner f m base left;
      qsort_inner f m (store + sz) (nmemb - left - 1)
  end.
Definition qsort (fuel : nat) (m : mem) (base nmemb : Z) : option mem :=
  if (base =? 0) || (nmemb =? 0) || (sz =? 0) then Some m else qsort_inner fuel m base nmemb.

(** * Arrays *)

(** The elements [l], each of [size_] bytes, stand at [p]. *)
Fixpoint arr (m : mem) (p : Z) (l : list (list Z)) : Prop :=
  match l with
  | [] => True
  | e :: l' => length e = size_ ∧ bytes_at m p e ∧ arr m (p + sz) l'
  end.
Lemma arr_app m p l l' : arr m p (l ++ l') ↔ arr m p l ∧ arr m (p + Z.of_nat (length l) * sz) l'.
Proof.
  revert p. induction l as [|e l IH]; intros p; cbn [arr app length]; [replace (p + Z.of_nat 0 * sz) with p by lia; tauto|].
  rewrite IH. replace (p + sz + Z.of_nat (length l) * sz) with (p + Z.of_nat (S (length l)) * sz) by lia. tauto.
Qed.
Lemma arr_frame m m' p l : (∀ x, p ≤ x < p + Z.of_nat (length l) * sz → m' x = m x) → arr m p l → arr m' p l.
Proof.
  revert p. induction l as [|e l IH]; intros p Hf; cbn [arr length] in *; [done|]. intros (H1 & H2 & H3). split_and!; [done| |].
  - eapply bytes_frame; [|exact H2]. intros x Hx. apply Hf. nia.
  - apply IH; [|done]. intros x Hx. apply Hf. nia.
Qed.

(** * Swapping *)

Lemma swap_bytes_at n m a b x : a + Z.of_nat n ≤ b ∨ b + Z.of_nat n ≤ a →
  swap_bytes n m a b x =
    if decide (a ≤ x < a + Z.of_nat n) then m (b + (x - a)) else if decide (b ≤ x < b + Z.of_nat n) then m (a + (x - b)) else m x.
Proof.
  revert m a b. induction n as [|n IH]; intros m a b Hd; simpl; [by rewrite !decide_False by lia|]. rewrite IH by lia.
  destruct (decide (x = a)) as [->|Ha]; [|destruct (decide (x = b)) as [->|Hb]].
  - rewrite decide_False, decide_False, decide_True by lia. peek. f_equal. lia.
  - rewrite decide_False, decide_False, decide_False, decide_True by lia. peek. f_equal. lia.
  - repeat case_decide; try lia; peek; f_equal; lia.
Qed.
Lemma swap_bytes_self n m a x : swap_bytes n m a a x = m x.
Proof.
  revert m a. induction n as [|n IH]; intros m a; simpl; [done|]. rewrite IH. destruct (decide (x = a)) as [->|]; [by rewrite poke_eq|]. by rewrite !poke_ne.
Qed.
Lemma swap_bytes_sym n m a b x : a + Z.of_nat n ≤ b ∨ b + Z.of_nat n ≤ a → swap_bytes n m a b x = swap_bytes n m b a x.
Proof. intros Hd. rewrite !swap_bytes_at by lia. repeat case_decide; try done; lia. Qed.
Lemma bytes_moved m m' a b e : (∀ i, 0 ≤ i < Z.of_nat (length e) → m' (a + i) = m (b + i)) → bytes_at m b e → bytes_at m' a e.
Proof.
  revert a b. induction e as [|c e IH]; intros a b Hf; simpl in *; [done|]. intros [H1 H2]. split.
  - rewrite <- H1, <- (Z.add_0_r a), <- (Z.add_0_r b). apply Hf. lia.
  - apply (IH (a + 1) (b + 1)); [|done]. intros i Hi. replace (a + 1 + i) with (a + (i + 1)) by lia. replace (b + 1 + i) with (b + (i + 1)) by lia. apply Hf. lia.
Qed.
Lemma swap_arr m p A x B y C :
  arr m p (A ++ x :: B ++ y :: C) →
  let a := p + Z.of_nat (length A) * sz in
  let b := p + Z.of_nat (length A + 1 + length B) * sz in
  arr (swap_bytes size_ m a b) p (A ++ y :: B ++ x :: C) ∧
  ∀ z, ¬ p ≤ z < p + Z.of_nat (length (A ++ x :: B ++ y :: C)) * sz → swap_bytes size_ m a b z = m z.
Proof.
  intros Ha a b. rewrite !length_app. cbn [length]. rewrite length_app. cbn [length]. rewrite arr_app in Ha |- *. cbn [arr] in *. rewrite arr_app in Ha |- *.
  cbn [arr] in *. fold a in Ha |- *. destruct Ha as (HA & Hx1 & Hx2 & HB & Hy1 & Hy2 & HC).
  replace (a + sz + Z.of_nat (length B) * sz) with b in * by (unfold a, b; lia).
  assert (a + sz ≤ b) as Hab by (unfold a, b; nia).
  split; [|intros z Hz; rewrite swap_bytes_at by lia; rewrite !decide_False by (unfold a, b in *; nia); done].
  split_and!; try done.
  - eapply arr_frame; [|exact HA]. intros z Hz. rewrite swap_bytes_at by lia. rewrite !decide_False by (unfold a, b in *; nia). done.
  - eapply bytes_moved; [|exact Hy2]. intros i Hi. rewrite swap_bytes_at by lia. rewrite decide_True by lia. f_equal. lia.
  - eapply arr_frame; [|exact HB]. intros z Hz. rewrite swap_bytes_at by lia. rewrite !decide_False by (unfold a, b in *; nia). done.
  - eapply bytes_moved; [|exact Hx2]. intros i Hi. rewrite swap_bytes_at by lia. rewrite decide_False, decide_True by lia. f_equal. lia.
  - eapply arr_frame; [|exact HC]. intros z Hz. rewrite swap_bytes_at by lia. rewrite !decide_False by (unfold a, b in *; nia). done.
Qed.

(** * Partitioning *)

Context (cmp : list Z → list Z → Z).
Hypothesis compar_reads : ∀ m p q x y,
  bytes_at m p x → bytes_at m q y → length x = size_ → length y = size_ → compar m p q = cmp x y.
Hypothesis size_pos : (0 < size_)%nat.
#[local] Notation lt x y := (cmp x y < 0).

Lemma arr_at m p A x C : arr m p (A ++ x :: C) → length x = size_ ∧ bytes_at m (p + Z.of_nat (length A) * sz) x.
Proof. rewrite arr_app. intros (_ & H1 & H2 & _). done. Qed.
(** Memory outside of [n] elements at [p] is as it was. *)
Definition outside (m m' : mem) (p : Z) (n : nat) : Prop := ∀ z, ¬ p ≤ z < p + Z.of_nat n * sz → m' z = m z.

Lemma partition_ok base piv C : ∀ A B m,
  arr m base (A ++ B ++ C ++ [piv]) → Forall (λ x, lt x piv) A → Forall (λ x, ¬ lt x piv) B →
  let p := base + Z.of_nat (length A + length B) * sz in
  let store := base + Z.of_nat (length A) * sz in
  let hi := base + Z.of_nat (length A + length B + length C) * sz in
  ∃ m' A' B', partition (length C) m p store hi = (m', base + Z.of_nat (length A') * sz) ∧ arr m' base (A' ++ B' ++ [piv]) ∧
    Forall (λ x, lt x piv) A' ∧ Forall (λ x, ¬ lt x piv) B' ∧ A' ++ B' ≡ₚ A ++ B ++ C ∧
    outside m m' base (length (A ++ B ++ C ++ [piv])).
Proof.
  induction C as [|c C IH]; intros A B m Ha HA HB p store hi.
  - exists m, A, B. split_and!; [done|done|done|done|by rewrite app_nil_r|]. by intros z _.
  - cbn [length partition]. rewrite app_assoc in Ha.
    destruct (arr_at m base (A ++ B) c (C ++ [piv]) Ha) as [Hc1 Hc2]. rewrite length_app in Hc2. fold p in Hc2.
    assert (length piv = size_ ∧ bytes_at m hi piv) as [Hp1 Hp2].
    { replace ((A ++ B) ++ (c :: C) ++ [piv]) with (((A ++ B) ++ c :: C) ++ [piv]) in Ha by (by rewrite <- app_assoc).
      destruct (arr_at _ _ _ _ _ Ha) as [? Hb]. split; [done|]. rewrite !length_app in Hb. exact Hb. }
    rewrite (compar_reads m p hi c piv) by done. destruct (Z.ltb_spec (cmp c piv) 0) as [Hlt|Hge].
    + assert (∃ m1 B1, m1 = swap_bytes size_ m p store ∧ arr m1 base ((A ++ [c]) ++ B1 ++ C ++ [piv]) ∧ B1 ≡ₚ B ∧ outside m m1 base (length (A ++ B ++ (c :: C) ++ [piv])))
        as (m1 & B1 & -> & Ha1 & HB1 & Hf1).
      { destruct B as [|b B].
        - exists (swap_bytes size_ m p store), []. assert (p = store) as -> by (unfold p, store; simpl; f_equal; f_equal; lia). split_and!; [done| |done|].
          + eapply arr_frame; [intros z _; apply swap_bytes_self|]. rewrite app_nil_r in Ha. by rewrite <- app_assoc.
          + intros z _. apply swap_bytes_self.
        - exists (swap_bytes size_ m p store), (B ++ [b]). rewrite <- app_assoc in Ha. cbn [app] in Ha. destruct (swap_arr m base A b B c (C ++ [piv])) as [S1 S2]; [done|].
          fold store in S1, S2. replace (base + Z.of_nat (length A + 1 + length B) * sz) with p in S1, S2 by (unfold p; simpl; f_equal; f_equal; lia).
          assert (store + sz ≤ p) as Hsp by (unfold store, p; simpl; nia). split_and!; [done| |by rewrite Permutation_app_comm|].
          + eapply arr_frame; [intros z _; apply swap_bytes_sym; lia|]. rewrite <- !app_assoc. exact S1.
          + intros z Hz. rewrite swap_bytes_sym by lia. apply S2. exact Hz. }
      destruct (IH (A ++ [c]) B1 (swap_bytes size_ m p store)) as (m' & A' & B' & E & Ha' & HA' & HB' & Hp' & Hf').
      * done.
      * apply Forall_app. split; [done|by repeat constructor].
      * by rewrite HB1.
      * apply Permutation_length in HB1 as Hlen. rewrite length_app in E. cbn [length] in E. exists m', A', B'. split_and!; try done.
        -- rewrite <- E. unfold p, store, hi. rewrite Hlen. cbn [length]. f_equal; nia.
        -- rewrite Hp', HB1. solve_Permutation.
        -- intros z Hz. rewrite Hf', Hf1; [done|done|]. rewrite !length_app in *. cbn [length] in *. rewrite Hlen. intros Hin. apply Hz. lia.
    + destruct (IH A (B ++ [c]) m) as (m' & A' & B' & E & Ha' & HA' & HB' & Hp' & Hf'); [|done|apply Forall_app; split; [done|by repeat constructor; lia]|].
      * by rewrite <- !app_assoc in Ha |- *.
      * exists m', A', B'. rewrite length_app in E. cbn [length] in E. split_and!; try done.
        -- rewrite <- E. unfold p, store, hi. cbn [length]. f_equal; nia.
        -- rewrite Hp'. by rewrite <- !app_assoc.
        -- rewrite <- !app_assoc in Hf'. exact Hf'.
Qed.

(** The element after [A] trades places with the last one. *)
Lemma swap_to_last m base A x R :
  arr m base (A ++ x :: R) →
  let m' := swap_bytes size_ m (base + Z.of_nat (length A) * sz) (base + (Z.of_nat (length (A ++ x :: R)) - 1) * sz) in
  ∃ l, arr m' base (l ++ [x]) ∧ l ++ [x] ≡ₚ A ++ x :: R ∧ outside m m' base (length (A ++ x :: R)).
Proof.
  intros Ha m'. destruct R as [|y R _] using rev_ind.
  - exists A. assert (∀ z, m' z = m z) as Hm.
    { intros z. unfold m'. replace (Z.of_nat (length (A ++ [x])) - 1) with (Z.of_nat (length A)) by (rewrite length_app; simpl; lia). apply swap_bytes_self. }
    split_and!; [eapply arr_frame; [|exact Ha]; intros; apply Hm|done|]. intros z _. apply Hm.
  - exists (A ++ y :: R). destruct (swap_arr m base A x R y []) as [S1 S2]; [done|].
    assert (base + Z.of_nat (length A + 1 + length R) * sz = base + (Z.of_nat (length (A ++ x :: R ++ [y])) - 1) * sz) as E.
    { rewrite !length_app. cbn [length]. rewrite length_app. cbn [length]. nia. }
    rewrite E in S1, S2. fold m' in S1, S2. split_and!; [by rewrite <- app_assoc|rewrite <- app_assoc; cbn [app]; solve_Permutation|done].
Qed.
Lemma swap_from_last m base A B x :
  arr m base (A ++ B ++ [x]) →
  let m' := swap_bytes size_ m (base + Z.of_nat (length A) * sz) (base + (Z.of_nat (length (A ++ B ++ [x])) - 1) * sz) in
  ∃ B', arr m' base (A ++ x :: B') ∧ B' ≡ₚ B ∧ outside m m' base (length (A ++ B ++ [x])).
Proof.
  intros Ha m'. destruct B as [|b B].
  - exists []. assert (∀ z, m' z = m z) as Hm.
    { intros z. unfold m'. replace (Z.of_nat (length (A ++ [] ++ [x])) - 1) with (Z.of_nat (length A)) by (rewrite length_app; simpl; lia). apply swap_bytes_self. }
    split_and!; [eapply arr_frame; [|exact Ha]; intros; apply Hm|done|]. intros z _. apply Hm.
  - exists (B ++ [b]). destruct (swap_arr m base A b B x []) as [S1 S2]; [done|].
    assert (base + Z.of_nat (length A + 1 + length B) * sz = base + (Z.of_nat (length (A ++ (b :: B) ++ [x])) - 1) * sz) as E.
    { rewrite !length_app. cbn [length]. nia. }
    rewrite E in S1, S2. split_and!; [exact S1|by rewrite Permutation_app_comm|exact S2].
Qed.

Hypothesis cmp_asym : ∀ x y, lt x y → ¬ lt y x.
Hypothesis cmp_trans : ∀ x y z, ¬ lt y x → ¬ lt z y → ¬ lt z x.
(** [x] may stand before [y]. *)
Definition before (x y : list Z) : Prop := ¬ lt y x.

Lemma sorted_join A x B :
  StronglySorted before A → StronglySorted before B → Forall (λ a, lt a x) A → Forall (λ b, ¬ lt b x) B → StronglySorted before (A ++ x :: B).
Proof.
  intros HsA HsB HA HB. rewrite Forall_forall in HA, HB. apply StronglySorted_app_2; [|done|constructor; [done|by apply Forall_forall]].
  intros a b Ha [->|Hb]%elem_of_cons; [by apply cmp_asym, HA|]. apply (cmp_trans a x b); [by apply cmp_asym, HA|by apply HB].
Qed.
Lemma qsort_inner_ok fuel : ∀ m base l, arr m base l → (length l ≤ fuel)%nat →
  ∃ m' l', qsort_inner fuel m base (Z.of_nat (length l)) = Some m' ∧ arr m' base l' ∧ l' ≡ₚ l ∧ StronglySorted before l' ∧ outside m m' base (length l).
Proof.
  induction fuel as [|f IH]; intros m base l Ha Hl.
  - destruct l; [|simpl in Hl; lia]. exists m, []. split_and!; try done. constructor.
  - cbn [qsort_inner]. destruct (Z.ltb_spec (Z.of_nat (length l)) 2) as [Hs|Hs].
    { exists m, l. split_and!; try done. destruct l as [|x [|y l]]; [constructor|repeat constructor|simpl in Hs; lia]. }
    set (n := Z.of_nat (length l)) in *.
    assert (∃ L1 x L2, l = L1 ++ x :: L2 ∧ Z.of_nat (length L1) = n / 2) as (L1 & x & L2 & -> & HL1).
    { assert (Z.to_nat (n / 2) < length l)%nat as Hi by (unfold n; Z.div_mod_to_equations; lia).
      destruct (lookup_lt_is_Some_2 _ _ Hi) as [x Hx]. exists (take (Z.to_nat (n / 2)) l), x, (drop (S (Z.to_nat (n / 2))) l).
      split; [by rewrite take_drop_middle|]. rewrite length_take. rewrite Nat.min_l by lia. rewrite Z2Nat.id; [done|]. apply Z.div_pos; lia. }
    rewrite <- HL1. destruct (swap_to_last m base L1 x L2 Ha) as (l1 & Ha1 & Hp1 & Hf1). fold n in Ha1, Hf1. set (m1 := swap_bytes _ _ _ _) in *. clearbody m1.
    assert (length l1 = Z.to_nat (n - 1)) as Hlen1 by (apply Permutation_length in Hp1; rewrite length_app in Hp1; cbn [length] in Hp1; unfold n; lia).
    destruct (partition_ok base x l1 [] [] m1) as (m2 & A & B & E & Ha2 & HA & HB & Hp2 & Hf2); [done|constructor|constructor|].
    rewrite <- Hlen1. replace (base + (n - 1) * sz) with (base + Z.of_nat (length l1) * sz) by (rewrite Hlen1; nia).
    change (length [] + length [])%nat with 0%nat in E. cbn [length Nat.add] in E. replace (base + Z.of_nat 0 * sz) with base in E by lia. rewrite E.
    cbv beta iota. assert (length (A ++ B ++ [x]) = length (L1 ++ x :: L2)) as Hlen2.
    { apply Permutation_length in Hp1, Hp2. rewrite !length_app in *. cbn [length app] in *. lia. }
    replace (base + Z.of_nat (length l1) * sz) with (base + (Z.of_nat (length (A ++ B ++ [x])) - 1) * sz) by (rewrite Hlen2, Hlen1; fold n; nia).
    destruct (swap_from_last m2 base A B x Ha2) as (B2 & Ha3 & HpB & Hf3). set (m3 := swap_bytes size_ m2 _ _) in *. clearbody m3.
    replace ((base + Z.of_nat (length A) * sz - base) / sz) with (Z.of_nat (length A)) by (rewrite Z.add_simpl_l, Z.div_mul; lia).
    assert (length A + S (length B2) = length (L1 ++ x :: L2))%nat as Hlen3 by (rewrite <- Hlen2, (Permutation_length HpB), !length_app; cbn [length]; lia).
    pose proof Ha3 as (HaA & HxL & HxB & HaB)%arr_app. destruct (IH m3 base A HaA ltac:(lia)) as (m4 & A' & E4 & Ha4 & HpA & HsA & Hf4). rewrite E4. cbv beta iota delta [mbind option_bind].
    set (right := base + Z.of_nat (length A) * sz + sz) in *.
    assert (arr m4 right B2) as HaB4 by (eapply arr_frame; [|exact HaB]; intros z Hz; apply Hf4; unfold right in Hz; nia).
    destruct (IH m4 right B2 HaB4 ltac:(lia)) as (m5 & B' & E5 & Ha5 & HpB' & HsB & Hf5).
    replace (n - Z.of_nat (length A) - 1) with (Z.of_nat (length B2)) by (unfold n; lia). rewrite E5.
    exists m5, (A' ++ x :: B'). split_and!; [done|..].
    + apply arr_app. rewrite (Permutation_length HpA). fold right. split; [|split; [done|split; [|done]]].
      * eapply arr_frame; [|exact Ha4]. intros z Hz. rewrite (Permutation_length HpA) in Hz. apply Hf5. unfold right. nia.
      * eapply bytes_frame; [|exact HxB]. intros z Hz. rewrite Hf5, Hf4; [done|rewrite HxL in Hz; nia|rewrite HxL in Hz; unfold right; nia].
    + rewrite HpA, HpB', HpB, <- Hp1. change ([] ++ [] ++ l1) with l1 in Hp2. rewrite <- Hp2. solve_Permutation.
    + apply sorted_join; [done|done|..]; [by rewrite HpA|by rewrite HpB', HpB].
    + intros z Hz. rewrite Hf5, Hf4, Hf3, Hf2, Hf1; [done|..]; try exact Hz; try (unfold right); try (rewrite Hlen2; exact Hz); try nia.
      change ([] ++ [] ++ l1 ++ [x]) with (l1 ++ [x]). by rewrite (Permutation_length Hp1).
Qed.

(** C22: [qsort] returns with fuel for as many elements, whatever their size: the array is a permutation
    of what it was, sorted by the comparison function, and nothing else of memory changes. *)
Theorem qsort_sorts m base l fuel :
  arr m base l → base ≠ 0 → (length l ≤ fuel)%nat →
  ∃ m' l', qsort fuel m base (Z.of_nat (length l)) = Some m' ∧ arr m' base l' ∧ l' ≡ₚ l ∧ StronglySorted before l' ∧ outside m m' base (length l).
Proof.
  intros Ha Hb Hl. unfold qsort. rewrite (proj2 (Z.eqb_neq base 0)), (proj2 (Z.eqb_neq sz 0)) by lia. cbn [orb]. rewrite orb_false_r.
  destruct (Z.eqb_spec (Z.of_nat (length l)) 0) as [E|_]; [|by apply qsort_inner_ok]. destruct l; [|simpl in E; lia]. exists m, []. split_and!; try done. constructor.
Qed.
End qsort.

(** Three two-byte numbers. *)
Module SortDemo.
Definition key (e : list Z) : Z := match e with [a; b] => a * 256 + b | _ => 0 end.
Definition cmp (x y : list Z) : Z := key x - key y.
Definition compar (m : mem) (p q : Z) : Z := (m p * 256 + m (p + 1)) - (m q * 256 + m (q + 1)).
Definition numbers : mem := write_all (λ _, 9) 50 [3; 1; 2; 9; 2; 7].

Lemma compar_reads m p q x y :
  bytes_at m p x → bytes_at m q y → length x = 2%nat → length y = 2%nat → compar m p q = cmp x y.
Proof. destruct x as [|a [|b []]], y as [|c [|d []]]; try done. intros (E1 & E2 & _) (E3 & E4 & _) _ _. unfold compar, cmp. simpl. by rewrite E1, E2, E3, E4. Qed.

Lemma qsort_sorts_witness :
  ∃ m' l', qsort 2 compar 3 numbers 50 3 = Some m' ∧ arr 2 m' 50 l' ∧ l' ≡ₚ [[3; 1]; [2; 9]; [2; 7]] ∧ StronglySorted (before cmp) l' ∧
    outside 2 numbers m' 50 3.
Proof.
  apply (qsort_sorts 2 compar cmp compar_reads ltac:(lia) ltac:(unfold cmp; intros; lia) ltac:(unfold cmp; intros; lia) numbers 50 [[3; 1]; [2; 9]; [2; 7]] 3);
    [by vm_compute|done|simpl; lia].
Defined.
End SortDemo.
