(* ===== verification/Ring.v ===== *)
(** Rings in shared memory: the byte ring of include/zuzu/shm_ring.c and the packet ring of
    include/net/packetring.c.

    First the functions as a single caller sees them; then one producer and one consumer that run
    at the same time, where each load or publication of an index and each byte or frame copied is
    a step of its own.  The barriers order these accesses, so a step sees the effect of all the
    steps before it.  The data area of a byte ring is addressed from 0. *)
From S2P Require Import Prelude Str.

#[local] Open Scope Z_scope.

(** * include/zuzu/shm_ring.c *)

Record ShmRingHdr := ShmRing { r_size : Z; r_head : Z; r_tail : Z }.

Definition ShmRingInit (size : Z) : ShmRingHdr := ShmRing size 0 0.
Definition ShmRingLoadHead (r : ShmRingHdr) : Z := r_head r.
Definition ShmRingLoadTail (r : ShmRingHdr) : Z := r_tail r.
Definition ShmRingPublishHead (r : ShmRingHdr) (head : Z) : ShmRingHdr := ShmRing (r_size r) head (r_tail r).
Definition ShmRingPublishTail (r : ShmRingHdr) (tail : Z) : ShmRingHdr := ShmRing (r_size r) (r_head r) tail.

Definition ShmRingAvail (r : ShmRingHdr) : Z :=
  let avail := w32 (ShmRingLoadHead r - r_tail r) in
  if r_size r <? avail then r_size r else avail.
Definition ShmRingFree (r : ShmRingHdr) : Z :=
  let avail := w32 (r_head r - ShmRingLoadTail r) in
  if r_size r <? avail then 0 else r_size r - avail.

(** [memcpy] out of memory: the [n] bytes at [a]. *)
Definition load_bytes (m : mem) (a n : Z) : list Z := (λ i, m (a + Z.of_nat i)) <$> seq 0 (Z.to_nat n).

(** [src] is the list of the [n] bytes the caller passes. *)
Definition ShmRingWriteAt (data : mem) (size pos : Z) (src : list Z) : mem :=
  let n := Z.of_nat (length src) in
  let off := Z.land pos (size - 1) in
  let first := if n <? size - off then n else size - off in
  write_all (write_all data off (take (Z.to_nat first) src)) 0 (drop (Z.to_nat first) src).
Definition ShmRingReadAt (data : mem) (size pos n : Z) : list Z :=
  let off := Z.land pos (size - 1) in
  let first := if n <? size - off then n else size - off in
  load_bytes data off first ++ load_bytes data 0 (n - first).

Definition ShmRingPush (r : ShmRingHdr) (data : mem) (src : list Z) : ShmRingHdr * mem * Z :=
  let cap := ShmRingFree r in
  let len := if cap <? Z.of_nat (length src) then cap else Z.of_nat (length src) in
  (ShmRingPublishHead r (w32 (r_head r + len)), ShmRingWriteAt data (r_size r) (r_head r) (take (Z.to_nat len) src), len).
(** The bytes read and the ring after it. *)
Definition ShmRingPop (r : ShmRingHdr) (data : mem) (len : Z) : ShmRingHdr * list Z :=
  let cap := ShmRingAvail r in
  let len := if cap <? len then cap else len in
  (ShmRingPublishTail r (w32 (r_tail r + len)), ShmRingReadAt data (r_size r) (r_tail r) len).

(** * include/net/packetring.c *)

Definition NIC_FRAME_SIZE : Z := 1536.
Definition NIC_RING_DEPTH : Z := 16.

(** A frame slot: the length field and the bytes of [data]. *)
Record NicFrame := Frame { f_len : Z; f_data : list Z }.
Record NicRing := PacketRing { slots : Z → NicFrame; p_head : Z; p_tail : Z }.
Definition next_slot (i : Z) : Z := w32 (i + 1) mod NIC_RING_DEPTH.
(** [memcpy] of [src] over the start of a slot's bytes. *)
Definition fill (f : NicFrame) (src : list Z) : NicFrame := Frame (Z.of_nat (length src)) (src ++ drop (length src) (f_data f)).
Definition put_frame (r : NicRing) (i : Z) (f : NicFrame) : NicRing := PacketRing (λ j, if j =? i then f else slots r j) (p_head r) (p_tail r).

(** [src] is NULL or the [len] bytes at it; the ring pointer is not NULL. *)
Definition PacketRingPush (r : NicRing) (src : option (list Z)) : NicRing * Z :=
  match src with
  | None => (r, ERR_OVERFLOW)
  | Some src =>
      if NIC_FRAME_SIZE <? Z.of_nat (length src) then (r, ERR_OVERFLOW) else
      if negb (next_slot (p_head r) =? p_tail r) then
        let r := put_frame r (p_head r) (fill (slots r (p_head r)) src) in
        (PacketRing (slots r) (next_slot (p_head r)) (p_tail r), 0)
      else (r, ERR_BUFFULL)
  end.

(** The ring, the frame at [dst] and the result. *)
Definition PacketRingPop (r : NicRing) (dst : option NicFrame) : NicRing * option NicFrame * Z :=
  match dst with
  | None => (r, dst, ERR_BADARG)
  | Some d =>
      if negb (p_head r =? p_tail r) then
        let f := slots r (p_tail r) in
        let len := w16 (f_len f) in
        let r := PacketRing (slots r) (p_head r) (next_slot (p_tail r)) in
        if NIC_FRAME_SIZE <? len then (r, dst, ERR_OVERFLOW)
        else (r, Some (fill d (take (Z.to_nat len) (f_data f))), 0)
      else (r, dst, ERR_BUFEMPTY)
  end.

(** A reserved or peeked slot by its index. *)
Definition PacketRingReserve (r : NicRing) : option Z :=
  if next_slot (p_head r) =? p_tail r then None else Some (p_head r).
Definition PacketRingCommit (r : NicRing) : NicRing := PacketRing (slots r) (next_slot (p_head r)) (p_tail r).
Definition PacketRingPeek (r : NicRing) : option Z := if p_head r =? p_tail r then None else Some (p_tail r).
Definition PacketRingConsume (r : NicRing) : NicRing := PacketRing (slots r) (p_head r) (next_slot (p_tail r)).

(** * Positions in a ring

    The producer has filled the positions below [P], the consumer has emptied those below [Q];
    position [i] is in slot [i mod N]. *)

Section positions.
Context {A : Type} (N : Z) (N_pos : 0 < N).

(** Slots keep what was put into the positions from [Q] to [P]. *)
Definition keeps (store : Z → A) (P Q : Z) (sent : list A) : Prop :=
  ∀ i x, Q ≤ Z.of_nat i < P → sent !! i = Some x → store (Z.of_nat i mod N) = x.

Lemma slot_free P Q i j : Q ≤ i < P → P ≤ j < Q + N → i mod N ≠ j mod N.
Proof.
  intros Hi Hj E. assert (0 < j - i < N) by lia. assert ((j - i) mod N = 0) as Hz by (by rewrite Zminus_mod, E, Z.sub_diag, Z.mod_0_l by lia).
  rewrite Z.mod_small in Hz; lia.
Qed.
(** A position that is not filled yet can be written. *)
Lemma keeps_write store store' P Q sent j : P ≤ j < Q + N → (∀ k, k ≠ j mod N → store' k = store k) → keeps store P Q sent → keeps store' P Q sent.
Proof. intros Hj Hs Hk i x Hi Hx. rewrite Hs; [by apply Hk|]. by apply (slot_free P Q). Qed.
Lemma keeps_consume store P Q Q' sent : Q ≤ Q' → keeps store P Q sent → keeps store P Q' sent.
Proof. intros HQ Hk i x Hi. apply Hk. lia. Qed.
(** What was written before the publication. *)
Lemma keeps_publish store P Q sent new : Z.of_nat (length sent) = P → keeps store P Q sent →
  (∀ i x, new !! i = Some x → store ((P + Z.of_nat i) mod N) = x) → keeps store (P + Z.of_nat (length new)) Q (sent ++ new).
Proof.
  intros HP Hk Hn i x Hi Hx. apply lookup_app_Some in Hx as [Hx|[Hlen Hx]].
  - apply Hk; [|done]. apply lookup_lt_Some in Hx. lia.
  - rewrite <- (Hn _ _ Hx). f_equal. f_equal. lia.
Qed.
End positions.

(** * Offsets of the byte ring *)

(** The bytes of the data area in the order the two copies go through them. *)
Definition ring_offsets (size pos n : Z) : list Z :=
  let off := Z.land pos (size - 1) in
  let first := if n <? size - off then n else size - off in
  ((λ i, off + Z.of_nat i) <$> seq 0 (Z.to_nat first)) ++ (Z.of_nat <$> seq 0 (Z.to_nat (n - first))).
Fixpoint write_plan (data : mem) (plan : list (Z * Z)) : mem :=
  match plan with [] => data | (o, b) :: plan' => write_plan (poke data o b) plan' end.

(** A size the header allows. *)
Definition ring_size (size : Z) : Prop := ∃ k, 0 ≤ k ≤ 31 ∧ size = 2 ^ k.
Lemma ring_size_pos size : ring_size size → 0 < size ≤ 2 ^ 31.
Proof. intros (k & Hk & ->). split; [apply Z.pow_pos_nonneg; lia|apply Z.pow_le_mono_r; lia]. Qed.
Lemma ring_mask size pos : ring_size size → Z.land pos (size - 1) = pos mod size.
Proof. intros (k & Hk & ->). replace (2 ^ k - 1) with (Z.ones k) by (rewrite Z.ones_equiv; lia). apply Z.land_ones. lia. Qed.
Lemma ring_mod_w32 size x : ring_size size → w32 x mod size = x mod size.
Proof.
  intros (k & Hk & ->). unfold w32. replace (2 ^ 32) with (2 ^ k * 2 ^ (32 - k)) by (rewrite <- Z.pow_add_r by lia; f_equal; lia).
  rewrite Z.rem_mul_r by (apply Z.pow_nonzero || apply Z.pow_pos_nonneg; lia). rewrite Z.mul_comm, Z.mod_add by (apply Z.pow_nonzero; lia).
  apply Z.mod_mod. apply Z.pow_nonzero; lia.
Qed.

Lemma length_offsets size pos n : ring_size size → 0 ≤ n → length (ring_offsets size pos n) = Z.to_nat n.
Proof.
  intros Hs Hn. unfold ring_offsets. rewrite ring_mask by done. pose proof (ring_size_pos size Hs). pose proof (Z.mod_pos_bound pos size ltac:(lia)).
  rewrite length_app, !length_fmap, !length_seq. case_if E; lia.
Qed.
Lemma offsets_lookup size pos n i o : ring_size size → n ≤ size → ring_offsets size pos n !! i = Some o → o = (pos + Z.of_nat i) mod size.
Proof.
  intros Hs Hn. unfold ring_offsets. rewrite ring_mask by done. pose proof (ring_size_pos size Hs). pose proof (Z.mod_pos_bound pos size ltac:(lia)).
  set (first := if n <? size - pos mod size then _ else _). assert (first ≤ size - pos mod size) by (unfold first; case_if E; lia).
  rewrite lookup_app_Some, !list_lookup_fmap_Some. intros [(j & -> & Hj)|[Hlen (j & -> & Hj)]]; apply lookup_seq in Hj as [-> Hj].
  - rewrite Nat.add_0_l. rewrite <- Zplus_mod_idemp_l, (Z.mod_small (pos mod size + _)) by lia. done.
  - rewrite length_fmap, length_seq in *. rewrite <- Zplus_mod_idemp_l. assert (first = size - pos mod size) as Ef by (unfold first in *; case_if E; lia).
    rewrite <- (Z.mod_add (pos mod size + _) (-1) size) by lia. rewrite (Z.mod_small (pos mod size + _ + _)) by lia. lia.
Qed.

Lemma write_plan_app data p1 p2 : write_plan data (p1 ++ p2) = write_plan (write_plan data p1) p2.
Proof. revert data. induction p1 as [|[o b] p1 IH]; intros data; simpl; [done|apply IH]. Qed.
Lemma write_all_plan l : ∀ data a, write_all data a l = write_plan data (zip ((λ i, a + Z.of_nat i) <$> seq 0 (length l)) l).
Proof.
  induction l as [|b l IH]; intros data a; [done|]. cbn [length seq]. rewrite fmap_cons, Z.add_0_r. cbn [zip zip_with write_plan write_all]. rewrite IH. f_equal. f_equal.
  rewrite <- fmap_S_seq, <- list_fmap_compose. apply list_fmap_ext. intros i x _. simpl. lia.
Qed.
(** [ShmRingWriteAt] and [ShmRingReadAt] go through these offsets. *)
Lemma writeat_plan data size pos src : ring_size size →
  ShmRingWriteAt data size pos src = write_plan data (zip (ring_offsets size pos (Z.of_nat (length src))) src).
Proof.
  intros Hs. unfold ShmRingWriteAt, ring_offsets. rewrite ring_mask by done. pose proof (ring_size_pos size Hs). pose proof (Z.mod_pos_bound pos size ltac:(lia)).
  set (first := if _ <? size - pos mod size then _ else _). assert (0 ≤ first ≤ Z.of_nat (length src)) by (unfold first; case_if E; lia).
  rewrite !write_all_plan, <- write_plan_app. f_equal. rewrite length_take, length_drop.
  rewrite <- (take_drop (Z.to_nat first) src) at 6. rewrite zip_with_app by (rewrite length_fmap, length_seq, length_take; lia).
  f_equal; [f_equal; f_equal; f_equal; lia|]. f_equal. rewrite (list_fmap_ext _ Z.of_nat) by (intros; simpl; lia). f_equal. f_equal. lia.
Qed.
Lemma readat_plan data size pos n : ShmRingReadAt data size pos n = data <$> ring_offsets size pos n.
Proof.
  unfold ShmRingReadAt, ring_offsets, load_bytes. rewrite fmap_app, <- !list_fmap_compose. f_equal.
Qed.

(** What a write leaves behind: the bytes at their offsets, and the rest as it was. *)
Lemma write_plan_out plan o : ∀ data, o ∉ plan.*1 → write_plan data plan o = data o.
Proof.
  induction plan as [|[o' b] plan IH]; intros data Ho; [done|]. rewrite fmap_cons in Ho. apply not_elem_of_cons in Ho as [Hne Ho]. simpl. rewrite IH by done. by apply poke_ne.
Qed.
Lemma write_plan_in plan i o b : ∀ data, NoDup plan.*1 → plan !! i = Some (o, b) → write_plan data plan o = b.
Proof.
  revert i. induction plan as [|[o' b'] plan IH]; intros i data Hnd Hi; [done|]. rewrite fmap_cons in Hnd. apply NoDup_cons in Hnd as [Hni Hnd]. destruct i as [|i]; simpl in *.
  - injection Hi as -> ->. rewrite write_plan_out by done. apply poke_eq.
  - by eapply IH.
Qed.
Lemma offsets_nodup size pos n : ring_size size → 0 ≤ n ≤ size → NoDup (ring_offsets size pos n).
Proof.
  intros Hs [H0 Hn]. apply NoDup_alt. intros i j o Hi Hj. pose proof (ring_size_pos size Hs). pose proof (offsets_lookup _ _ _ _ _ Hs Hn Hi) as Ei. pose proof (offsets_lookup _ _ _ _ _ Hs Hn Hj) as Ej.
  apply lookup_lt_Some in Hi, Hj. rewrite length_offsets in Hi, Hj by (done || lia). rewrite Ei in Ej.
  destruct (decide (i = j)) as [|Hne]; [done|]. exfalso. destruct (decide (i < j)%nat).
  - apply (slot_free size ltac:(lia) (pos + Z.of_nat j) (pos + Z.of_nat i) (pos + Z.of_nat i) (pos + Z.of_nat j)); [lia|lia|done].
  - apply (slot_free size ltac:(lia) (pos + Z.of_nat i) (pos + Z.of_nat j) (pos + Z.of_nat j) (pos + Z.of_nat i)); [lia|lia|done].
Qed.
Lemma writeat_in data size pos src i x : ring_size size → Z.of_nat (length src) ≤ size → src !! i = Some x →
  ShmRingWriteAt data size pos src ((pos + Z.of_nat i) mod size) = x.
Proof.
  intros Hs Hn Hi. rewrite writeat_plan by done. pose proof (lookup_lt_Some _ _ _ Hi) as Hlt. pose proof (length_offsets size pos (Z.of_nat (length src)) Hs ltac:(lia)) as Hl.
  destruct (lookup_lt_is_Some_2 (ring_offsets size pos (Z.of_nat (length src))) i ltac:(lia)) as [o Ho]. rewrite <- (offsets_lookup _ _ _ _ _ Hs Hn Ho).
  eapply (write_plan_in _ i); [rewrite fst_zip by lia; apply offsets_nodup; (done || lia)|]. apply lookup_zip_with_Some. by exists o, x.
Qed.
Lemma writeat_out data size pos src o : ring_size size → Z.of_nat (length src) ≤ size → (∀ i, (i < length src)%nat → o ≠ (pos + Z.of_nat i) mod size) →
  ShmRingWriteAt data size pos src o = data o.
Proof.
  intros Hs Hn Ho. rewrite writeat_plan by done. pose proof (length_offsets size pos (Z.of_nat (length src)) Hs ltac:(lia)) as Hl.
  apply write_plan_out. rewrite fst_zip by lia. intros Hin. apply list_elem_of_lookup in Hin as [i Hi]. pose proof (lookup_lt_Some _ _ _ Hi).
  apply (Ho i); [lia|]. by rewrite <- (offsets_lookup _ _ _ _ _ Hs Hn Hi).
Qed.

(** * A producer and a consumer of a byte ring *)

(** What a side is doing: nothing, or copying, with the bytes still to write (offset and byte) or the
    offsets still to read. *)
Inductive producer := PIdle | PWriting (todo : list (Z * Z)) (bytes : list Z).
Inductive consumer := CIdle | CReading (todo : list Z) (acc : list Z).
(** The header, the data, both sides, and all bytes published and taken so far. *)
Record shm := Shm { hdr : ShmRingHdr; data : mem; prod : producer; cons : consumer; sent : list Z; got : list Z }.

Inductive ring_act := Push (src : list Z) | PStep | Pop (len : Z) | CStep.
Definition ring_step (a : ring_act) (s : shm) : option shm :=
  match a with
  | Push src =>
      match prod s with
      | PIdle =>
          let cap := ShmRingFree (hdr s) in
          let len := if cap <? Z.of_nat (length src) then cap else Z.of_nat (length src) in
          let bytes := take (Z.to_nat len) src in
          Some (Shm (hdr s) (data s) (PWriting (zip (ring_offsets (r_size (hdr s)) (r_head (hdr s)) len) bytes) bytes) (cons s) (sent s) (got s))
      | _ => None
      end
  | PStep =>
      match prod s with
      | PIdle => None
      | PWriting ((o, b) :: todo) bytes => Some (Shm (hdr s) (poke (data s) o b) (PWriting todo bytes) (cons s) (sent s) (got s))
      | PWriting [] bytes =>
          Some (Shm (ShmRingPublishHead (hdr s) (w32 (r_head (hdr s) + Z.of_nat (length bytes)))) (data s) PIdle (cons s) (sent s ++ bytes) (got s))
      end
  | Pop len =>
      match cons s with
      | CIdle =>
          let cap := ShmRingAvail (hdr s) in
          let n := if cap <? len then cap else len in
          Some (Shm (hdr s) (data s) (prod s) (CReading (ring_offsets (r_size (hdr s)) (r_tail (hdr s)) n) []) (sent s) (got s))
      | _ => None
      end
  | CStep =>
      match cons s with
      | CIdle => None
      | CReading (o :: todo) acc => Some (Shm (hdr s) (data s) (prod s) (CReading todo (acc ++ [data s o])) (sent s) (got s))
      | CReading [] acc =>
          Some (Shm (ShmRingPublishTail (hdr s) (w32 (r_tail (hdr s) + Z.of_nat (length acc)))) (data s) (prod s) CIdle (sent s) (got s ++ acc))
      end
  end.
Fixpoint ring_run (l : list ring_act) (s : shm) : option shm :=
  match l with [] => Some s | a :: l' => s ← ring_step a s; ring_run l' s end.
Definition shm_init (size : Z) (m : mem) : shm := Shm (ShmRingInit size) m PIdle CIdle [] [].

(** Calls of the consumer are for a nonnegative number of bytes ([uint32_t]). *)
Definition proper (a : ring_act) : Prop := match a with Pop len => 0 ≤ len | _ => True end.

Notation zlen l := (Z.of_nat (length l)).
Definition prod_ok (size : Z) (s : shm) : Prop :=
  match prod s with
  | PIdle => True
  | PWriting todo bytes =>
      zlen (sent s) + zlen bytes ≤ zlen (got s) + size ∧
      ∃ done, bytes = done ++ todo.*2 ∧
        (∀ i x, done !! i = Some x → data s ((zlen (sent s) + Z.of_nat i) mod size) = x) ∧
        (∀ i o, todo.*1 !! i = Some o → o = (zlen (sent s) + zlen done + Z.of_nat i) mod size)
  end.
Definition cons_ok (size : Z) (s : shm) : Prop :=
  match cons s with
  | CIdle => True
  | CReading todo acc =>
      zlen (got s) + zlen acc + zlen todo ≤ zlen (sent s) ∧ got s ++ acc `prefix_of` sent s ∧
      (∀ i o, todo !! i = Some o → o = (zlen (got s) + zlen acc + Z.of_nat i) mod size)
  end.
Record rinv (size : Z) (s : shm) : Prop := {
  ri_size : r_size (hdr s) = size;
  ri_head : r_head (hdr s) = w32 (zlen (sent s));
  ri_tail : r_tail (hdr s) = w32 (zlen (got s));
  ri_room : zlen (got s) ≤ zlen (sent s) ≤ zlen (got s) + size;
  ri_fifo : got s `prefix_of` sent s;
  ri_keeps : keeps size (data s) (zlen (sent s)) (zlen (got s)) (sent s);
  ri_prod : prod_ok size s;
  ri_cons : cons_ok size s }.

Section byte_ring.
Context (size : Z) (Hsize : ring_size size).

Lemma w32_diff a b : 0 ≤ a - b < 2 ^ 32 → w32 (w32 a - w32 b) = a - b.
Proof. intros Hd. unfold w32. rewrite <- Zminus_mod, Z.mod_small; lia. Qed.
Lemma free_ok s : rinv size s → ShmRingFree (hdr s) = zlen (got s) + size - zlen (sent s).
Proof.
  intros [E1 E2 E3 E4 _ _ _ _]. pose proof (ring_size_pos size Hsize). unfold ShmRingFree, ShmRingLoadTail. rewrite E1, E2, E3, w32_diff by lia.
  rewrite (proj2 (Z.ltb_ge _ _)) by lia. lia.
Qed.
Lemma avail_ok s : rinv size s → ShmRingAvail (hdr s) = zlen (sent s) - zlen (got s).
Proof.
  intros [E1 E2 E3 E4 _ _ _ _]. pose proof (ring_size_pos size Hsize). unfold ShmRingAvail, ShmRingLoadHead. rewrite E1, E2, E3, w32_diff by lia.
  rewrite (proj2 (Z.ltb_ge _ _)) by lia. done.
Qed.
Lemma head_slot n i : (w32 n + i) mod size = (n + i) mod size.
Proof. rewrite <- Zplus_mod_idemp_l, ring_mod_w32, Zplus_mod_idemp_l by done. done. Qed.

Lemma rinv_push s s' src : rinv size s → ring_step (Push src) s = Some s' → rinv size s'.
Proof.
  intros Hr. simpl. destruct (prod s) eqn:Ep; [|done]. intros [= <-]. rewrite (free_ok s Hr). destruct Hr as [E1 E2 E3 E4 E5 E6 _ E8].
  set (len := if _ <? zlen src then _ else _). assert (0 ≤ len ≤ zlen src ∧ len ≤ zlen (got s) + size - zlen (sent s)) as Hlen by (unfold len; case_if E; lia).
  assert (length (ring_offsets size (r_head (hdr s)) len) = Z.to_nat len) as Ho by (apply length_offsets; (done || lia)).
  assert (length (take (Z.to_nat len) src) = Z.to_nat len) as Ht by (rewrite length_take; lia). rewrite E1.
  split; try done. split; [simpl; lia|]. exists []. rewrite fst_zip, snd_zip by lia. split_and!; [done|done|]. intros i o Hi. cbn [length].
  rewrite (offsets_lookup size (r_head (hdr s)) len i o Hsize ltac:(lia) Hi), E2, head_slot. f_equal. simpl. lia.
Qed.
Lemma rinv_pop s s' len : 0 ≤ len → rinv size s → ring_step (Pop len) s = Some s' → rinv size s'.
Proof.
  intros Hl Hr. simpl. destruct (cons s) eqn:Ep; [|done]. intros [= <-]. rewrite (avail_ok s Hr). destruct Hr as [E1 E2 E3 E4 E5 E6 E7 _].
  set (n := if _ <? len then _ else _). assert (0 ≤ n ≤ zlen (sent s) - zlen (got s)) as Hn by (unfold n; case_if E; lia). rewrite E1.
  split; try done. split_and!; [rewrite length_offsets by (done || lia); simpl; lia|by rewrite app_nil_r|]. intros i o Hi. cbn [length].
  rewrite (offsets_lookup size (r_tail (hdr s)) n i o Hsize ltac:(lia) Hi), E3, head_slot. f_equal. simpl. lia.
Qed.

(** A byte written by the producer is in nobody's way. *)
Lemma rinv_write s o b todo bytes : rinv size s → prod s = PWriting ((o, b) :: todo) bytes →
  rinv size (Shm (hdr s) (poke (data s) o b) (PWriting todo bytes) (cons s) (sent s) (got s)).
Proof.
  intros [E1 E2 E3 E4 E5 E6 E7 E8] Ep. unfold prod_ok in E7. rewrite Ep in E7. destruct E7 as (Hroom & dn & -> & Hdone & Htodo). rewrite fmap_cons, length_app in Hroom. cbn [length] in Hroom.
  pose proof (ring_size_pos size Hsize) as Hpos. assert (o = (zlen (sent s) + zlen dn) mod size) as Eo by (rewrite (Htodo 0%nat o) by done; f_equal; lia).
  set (s' := Shm _ _ _ _ _ _). assert (∀ k, k ≠ o → data s' k = data s k) as Hd by (intros k Hk; by apply poke_ne).
  split; try done.
  - change (keeps size (data s') (zlen (sent s)) (zlen (got s)) (sent s)). apply (keeps_write size ltac:(lia) (data s) (data s') _ _ _ (zlen (sent s) + zlen dn)); [lia| |done]. intros k Hk. apply Hd. by rewrite Eo.
  - split; [rewrite fmap_cons, length_app; simpl; lia|]. exists (dn ++ [b]). split_and!; [by rewrite <- app_assoc| |].
    + intros i x Hi. apply lookup_app_Some in Hi as [Hi|[Hlen Hi]].
      * rewrite Hd; [by apply Hdone|]. rewrite Eo. apply lookup_lt_Some in Hi. apply (slot_free size ltac:(lia) (zlen (sent s) + zlen dn) (zlen (sent s))); simpl; lia.
      * apply list_lookup_singleton_Some in Hi as [Hi <-]. replace ((zlen (sent s') + Z.of_nat i) mod size) with o by (rewrite Eo; f_equal; simpl; lia). apply poke_eq.
    + intros i o' Hi. rewrite (Htodo (S i) o') by done. f_equal. rewrite length_app. simpl. lia.
Qed.
Lemma rinv_publish_head s bytes : rinv size s → prod s = PWriting [] bytes →
  rinv size (Shm (ShmRingPublishHead (hdr s) (w32 (r_head (hdr s) + zlen bytes))) (data s) PIdle (cons s) (sent s ++ bytes) (got s)).
Proof.
  intros [E1 E2 E3 E4 E5 E6 E7 E8] Ep. unfold prod_ok in E7. rewrite Ep in E7. destruct E7 as (Hroom & dn & -> & Hdone & _). rewrite app_nil_r in *.
  split; try done; simpl.
  - rewrite E2. unfold w32. rewrite Zplus_mod_idemp_l, length_app. f_equal. lia.
  - rewrite length_app. lia.
  - by apply prefix_app_r.
  - rewrite length_app, Nat2Z.inj_add. by apply keeps_publish.
  - unfold cons_ok in *. simpl. destruct (cons s) as [|todo acc]; [done|]. destruct E8 as (H1 & H2 & H3). split_and!; [rewrite length_app; lia|by apply prefix_app_r|done].
Qed.
Lemma rinv_read s o todo acc : rinv size s → cons s = CReading (o :: todo) acc →
  rinv size (Shm (hdr s) (data s) (prod s) (CReading todo (acc ++ [data s o])) (sent s) (got s)).
Proof.
  intros [E1 E2 E3 E4 E5 E6 E7 E8] Ep. unfold cons_ok in E8. rewrite Ep in E8. destruct E8 as (H1 & H2 & H3). cbn [length] in H1. split; try done.
  unfold cons_ok. cbn [cons got sent data]. rewrite length_app. cbn [length]. split_and!; [lia| |].
  - assert (o = Z.of_nat (length (got s ++ acc)) mod size) as -> by (rewrite (H3 0%nat o) by done; f_equal; rewrite length_app; lia).
    destruct H2 as [rest Hrest]. destruct rest as [|x rest]; [rewrite app_nil_r in Hrest; apply (f_equal length) in Hrest; rewrite length_app in Hrest; lia|].
    rewrite (E6 (length (got s ++ acc)) x); [|rewrite length_app; lia|rewrite Hrest; by apply list_lookup_middle].
    exists rest. by rewrite Hrest, <- !app_assoc.
  - intros i o' Hi. rewrite (H3 (S i) o') by done. f_equal. lia.
Qed.
Lemma rinv_publish_tail s acc : rinv size s → cons s = CReading [] acc →
  rinv size (Shm (ShmRingPublishTail (hdr s) (w32 (r_tail (hdr s) + zlen acc))) (data s) (prod s) CIdle (sent s) (got s ++ acc)).
Proof.
  intros [E1 E2 E3 E4 E5 E6 E7 E8] Ep. unfold cons_ok in E8. rewrite Ep in E8. destruct E8 as (H1 & H2 & _). cbn [length] in H1. split; try done; simpl.
  - rewrite E3. unfold w32. rewrite Zplus_mod_idemp_l, length_app. f_equal. lia.
  - rewrite length_app. lia.
  - eapply keeps_consume; [|done]. rewrite length_app. lia.
  - unfold prod_ok in *. simpl. destruct (prod s) as [|todo bytes]; [done|]. destruct E7 as [Hr E7]. split; [rewrite length_app; lia|done].
Qed.

Lemma rinv_step a s s' : proper a → rinv size s → ring_step a s = Some s' → rinv size s'.
Proof.
  intros Ha Hr. destruct a as [src| |len|]; [by apply rinv_push| |by apply rinv_pop|]; simpl.
  - destruct (prod s) as [|[|[o b] todo] bytes] eqn:Ep; [done|..]; intros [= <-]; [by apply rinv_publish_head|by apply rinv_write].
  - destruct (cons s) as [|[|o todo] acc] eqn:Ep; [done|..]; intros [= <-]; [by apply rinv_publish_tail|by apply rinv_read].
Qed.
Lemma rinv_run l : ∀ s s', Forall proper l → rinv size s → ring_run l s = Some s' → rinv size s'.
Proof.
  induction l as [|a l IH]; intros s s' Hl Hr; simpl; [by intros [= <-]|]. apply Forall_cons in Hl as [Ha Hl]. destruct (ring_step a s) as [s1|] eqn:E; [|done]. simpl. apply IH; [done|]. by eapply rinv_step.
Qed.
Lemma rinv_init m : rinv size (shm_init size m).
Proof. pose proof (ring_size_pos size Hsize). split; try done. simpl. lia. Qed.
End byte_ring.

(** C13: however the steps of a producer and a consumer of a byte ring interleave, and however often the 32-bit indices wrap,
    the consumer gets the bytes that were pushed, in their order, each once; what it has not got yet is at most the ring's size and
    is in the ring. *)
Theorem shm_ring_fifo size m l s :
  ring_size size → Forall proper l → ring_run l (shm_init size m) = Some s →
  ∃ queued, sent s = got s ++ queued ∧ zlen queued ≤ size ∧ ShmRingReadAt (data s) size (r_tail (hdr s)) (zlen queued) = queued ∧
    ShmRingAvail (hdr s) = zlen queued ∧ ShmRingFree (hdr s) = size - zlen queued.
Proof.
  intros Hs Hp Hl. pose proof (rinv_run size Hs l _ s Hp (rinv_init size Hs m) Hl) as Hr. destruct (ri_fifo _ _ Hr) as [queued Eq]. exists queued.
  pose proof (free_ok size Hs s Hr) as Hf. pose proof (avail_ok size Hs s Hr) as Ha. pose proof (ri_room _ _ Hr) as Hroom. rewrite Eq, length_app in *.
  split_and!; [done|lia| |lia|lia]. rewrite readat_plan. apply list_eq. intros i. rewrite list_lookup_fmap.
  destruct (ring_offsets _ _ _ !! i) as [o|] eqn:Eo; simpl.
  - pose proof (lookup_lt_Some _ _ _ Eo) as Hi. rewrite length_offsets in Hi by (done || lia). destruct (lookup_lt_is_Some_2 queued i ltac:(lia)) as [x Ex]. rewrite Ex. f_equal.
    rewrite (offsets_lookup size (r_tail (hdr s)) (zlen queued) i o Hs ltac:(lia) Eo), (ri_tail _ _ Hr), head_slot by done.
    replace (zlen (got s) + Z.of_nat i) with (Z.of_nat (length (got s) + i)) by lia. apply (ri_keeps _ _ Hr); [rewrite Eq, length_app; lia|].
    rewrite Eq, lookup_app_r by lia. rewrite <- Ex. f_equal. lia.
  - apply lookup_ge_None in Eo. rewrite length_offsets in Eo by (done || lia). symmetry. apply lookup_ge_None. lia.
Qed.

(** ** One side alone *)

Lemma free_range r : 0 ≤ r_size r → 0 ≤ ShmRingFree r ≤ r_size r.
Proof.
  intros Hs. unfold ShmRingFree. assert (0 ≤ w32 (r_head r - ShmRingLoadTail r)) by (apply Z.mod_pos_bound; lia). cbv zeta. case_if E; lia.
Qed.
Lemma avail_range r : 0 ≤ r_size r → 0 ≤ ShmRingAvail r ≤ r_size r.
Proof.
  intros Hs. unfold ShmRingAvail. assert (0 ≤ w32 (ShmRingLoadHead r - r_tail r)) by (apply Z.mod_pos_bound; lia). cbv zeta. case_if E; lia.
Qed.

Lemma write_steps s bytes : ∀ todo, prod s = PWriting todo bytes →
  ring_run (replicate (S (length todo)) PStep) s =
    Some (Shm (ShmRingPublishHead (hdr s) (w32 (r_head (hdr s) + zlen bytes))) (write_plan (data s) todo) PIdle (cons s) (sent s ++ bytes) (got s)).
Proof.
  intros todo. revert s. induction todo as [|[o b] todo IH]; intros s Ep; [simpl; by rewrite Ep|]. cbn [length]. rewrite replicate_S.
  cbn [ring_run ring_step]. rewrite Ep. cbv beta iota delta [mbind option_bind]. by rewrite IH.
Qed.
(** A push whose steps are not interleaved with others is [ShmRingPush]: the same header, the same data, and as many
    bytes published as it returns. *)
Theorem shm_push_alone s src :
  ring_size (r_size (hdr s)) → 0 ≤ r_head (hdr s) → prod s = PIdle →
  let '(hdr', data', n) := ShmRingPush (hdr s) (data s) src in
  ring_run (Push src :: replicate (S (Z.to_nat n)) PStep) s = Some (Shm hdr' data' PIdle (cons s) (sent s ++ take (Z.to_nat n) src) (got s)).
Proof.
  intros Hs Hh Ep. unfold ShmRingPush. set (len := if _ <? zlen src then _ else _).
  assert (0 ≤ len ≤ zlen src) as Hlen.
  { pose proof (ring_size_pos _ Hs). pose proof (free_range (hdr s) ltac:(lia)). unfold len. case_if E; lia. }
  assert (zlen (take (Z.to_nat len) src) = len) as El by (rewrite length_take; lia).
  cbn [ring_run ring_step]. rewrite Ep. fold len. cbv beta iota delta [mbind option_bind]. set (todo := zip _ _). set (s1 := Shm _ _ _ _ _ _).
  assert (length todo = Z.to_nat len) as Et by (unfold todo; rewrite length_zip_with, length_offsets by (done || lia); rewrite length_take; lia).
  rewrite <- Et at 1. rewrite (write_steps s1 (take (Z.to_nat len) src)) by done. rewrite (writeat_plan _ _ _ _ Hs), El. done.
Qed.

(** Whatever the other side writes into the indices, a push writes only into the data area and takes at most its size, and a
    pop depends only on the data area and returns at most its size. *)
Theorem shm_ring_in_bounds r m src len :
  ring_size (r_size r) → 0 ≤ len →
  (let '(r', m', n) := ShmRingPush r m src in
   0 ≤ n ≤ r_size r ∧ n ≤ zlen src ∧ r_size r' = r_size r ∧ r_tail r' = r_tail r ∧ ∀ x, ¬ 0 ≤ x < r_size r → m' x = m x) ∧
  (let '(r', bytes) := ShmRingPop r m len in
   zlen bytes ≤ r_size r ∧ zlen bytes ≤ len ∧ r_size r' = r_size r ∧ r_head r' = r_head r ∧
   ∀ m2, (∀ x, 0 ≤ x < r_size r → m2 x = m x) → ShmRingPop r m2 len = (r', bytes)).
Proof.
  intros Hs Hlen. pose proof (ring_size_pos _ Hs) as Hpos. split.
  - unfold ShmRingPush. set (n := if _ <? zlen src then _ else _).
    assert (0 ≤ n ≤ r_size r ∧ n ≤ zlen src) as [Hn Hn'] by (pose proof (free_range r ltac:(lia)); unfold n; case_if E; lia).
    split_and!; [lia|lia|done|done|done|]. intros x Hx. rewrite writeat_plan by done. assert (zlen (take (Z.to_nat n) src) = n) as El by (rewrite length_take; lia). rewrite El.
    assert (∀ plan m, Forall (λ ob, 0 ≤ ob.1 < r_size r) plan → write_plan m plan x = m x) as Hplan.
    { intros plan. induction plan as [|[o b] plan IH]; intros m0 Hf; [done|]. apply Forall_cons in Hf as [Ho Hf]. simpl. rewrite IH by done. apply poke_ne. simpl in Ho. lia. }
    apply Hplan. apply Forall_lookup. intros i [o b] Hi. apply lookup_zip_with_Some in Hi as (o' & b' & [= -> ->] & Ho & _).
    rewrite (offsets_lookup _ _ _ _ _ Hs (proj2 Hn) Ho). apply Z.mod_pos_bound. lia.
  - unfold ShmRingPop. set (n := if _ <? len then _ else _).
    assert (0 ≤ n ≤ r_size r ∧ n ≤ len) as [Hn Hn'] by (pose proof (avail_range r ltac:(lia)); unfold n; case_if E; lia).
    rewrite readat_plan, length_fmap, length_offsets by (done || lia). split_and!; [lia|lia|done|done|]. intros m2 Hm. rewrite readat_plan. f_equal. apply list_fmap_ext.
    intros i o Ho. apply Hm. rewrite (offsets_lookup _ _ _ _ _ Hs (proj2 Hn) Ho). apply Z.mod_pos_bound. lia.
Qed.

(** * A producer and a consumer of a packet ring *)

(** [PacketRingPush] and [PacketRingPop] are the operations on slots, composed. *)
Lemma push_reserve_commit r src : zlen src ≤ NIC_FRAME_SIZE →
  PacketRingPush r (Some src) =
    match PacketRingReserve r with
    | Some i => (PacketRingCommit (put_frame r i (fill (slots r i) src)), 0)
    | None => (r, ERR_BUFFULL)
    end.
Proof.
  intros Hl. unfold PacketRingPush, PacketRingReserve. rewrite (proj2 (Z.ltb_ge _ _)) by done. by destruct (next_slot (p_head r) =? p_tail r).
Qed.
Lemma pop_peek_consume r d :
  PacketRingPop r (Some d) =
    match PacketRingPeek r with
    | Some i =>
        let len := w16 (f_len (slots r i)) in
        if NIC_FRAME_SIZE <? len then (PacketRingConsume r, Some d, ERR_OVERFLOW)
        else (PacketRingConsume r, Some (fill d (take (Z.to_nat len) (f_data (slots r i)))), 0)
    | None => (r, Some d, ERR_BUFEMPTY)
    end.
Proof. unfold PacketRingPop, PacketRingPeek. by destruct (p_head r =? p_tail r). Qed.

(** The slot a side works on.  A producer may write its slot any number of times, in parts; a consumer looks
    at its slot before it lets it go. *)
Record pkt := Pkt { ring : NicRing; filling : option Z; reading : option Z; committed : list NicFrame; consumed : list NicFrame }.
Inductive pkt_act := Reserve | Write (f : NicFrame) | Commit | Peek | Consume.
Definition pkt_step (a : pkt_act) (s : pkt) : option pkt :=
  match a with
  | Reserve => match filling s with
               | None => Some (Pkt (ring s) (PacketRingReserve (ring s)) (reading s) (committed s) (consumed s))
               | Some _ => None
               end
  | Write f => i ← filling s; Some (Pkt (put_frame (ring s) i f) (filling s) (reading s) (committed s) (consumed s))
  | Commit => i ← filling s; Some (Pkt (PacketRingCommit (ring s)) None (reading s) (committed s ++ [slots (ring s) i]) (consumed s))
  | Peek => match reading s with
            | None => Some (Pkt (ring s) (filling s) (PacketRingPeek (ring s)) (committed s) (consumed s))
            | Some _ => None
            end
  | Consume => i ← reading s; Some (Pkt (PacketRingConsume (ring s)) (filling s) None (committed s) (consumed s ++ [slots (ring s) i]))
  end.
Fixpoint pkt_run (l : list pkt_act) (s : pkt) : option pkt :=
  match l with [] => Some s | a :: l' => s ← pkt_step a s; pkt_run l' s end.
Definition pkt_init (m : Z → NicFrame) : pkt := Pkt (PacketRing m 0 0) None None [] [].

Record pinv (s : pkt) : Prop := {
  pi_head : p_head (ring s) = zlen (committed s) mod 16;
  pi_tail : p_tail (ring s) = zlen (consumed s) mod 16;
  pi_room : zlen (consumed s) ≤ zlen (committed s) ≤ zlen (consumed s) + 15;
  pi_fifo : consumed s `prefix_of` committed s;
  pi_keeps : keeps 16 (slots (ring s)) (zlen (committed s)) (zlen (consumed s)) (committed s);
  pi_filling : ∀ i, filling s = Some i → i = zlen (committed s) mod 16 ∧ zlen (committed s) < zlen (consumed s) + 15;
  pi_reading : ∀ i, reading s = Some i → i = zlen (consumed s) mod 16 ∧ zlen (consumed s) < zlen (committed s) }.

Lemma next_slot_mod n : 0 ≤ n → next_slot (n mod 16) = (n + 1) mod 16.
Proof.
  intros Hn. unfold next_slot, NIC_RING_DEPTH. pose proof (Z.mod_pos_bound n 16). rewrite w32_small by lia. apply Zplus_mod_idemp_l.
Qed.
Lemma mod16_eq a b : 0 ≤ a - b < 16 → a mod 16 = b mod 16 → a = b.
Proof. intros Hd E. Z.div_mod_to_equations. lia. Qed.

Lemma pinv_step a s s' : pinv s → pkt_step a s = Some s' → pinv s'.
Proof.
  intros [H1 H2 H3 H4 H5 H6 H7]. destruct a as [|f| | |]; simpl.
  - destruct (filling s) eqn:Ef; [done|]. intros [= <-]. split; try done. simpl. unfold PacketRingReserve. rewrite H1, H2, next_slot_mod by lia.
    intros i. destruct (Z.eqb_spec ((zlen (committed s) + 1) mod 16) (zlen (consumed s) mod 16)) as [|Hne]; [done|]. intros [= <-]. split; [done|].
    destruct (decide (zlen (committed s) = zlen (consumed s) + 15)) as [E|]; [|lia]. exfalso. apply Hne. rewrite E.
    replace (zlen (consumed s) + 15 + 1) with (zlen (consumed s) + 1 * 16) by lia. apply Z.mod_add. lia.
  - destruct (filling s) as [i|] eqn:Ef; [|done]. intros [= <-]. destruct (H6 i eq_refl) as [Ei Hi]. split; try done. simpl.
    eapply (keeps_write 16 ltac:(lia) _ _ _ _ _ (zlen (committed s))); [|intros k Hk|done]; [lia|]. rewrite <- Ei in Hk. simpl. by rewrite (proj2 (Z.eqb_neq k i)).
  - destruct (filling s) as [i|] eqn:Ef; [|done]. intros [= <-]. destruct (H6 i eq_refl) as [Ei Hi]. split; simpl; try done; rewrite ?length_app; simpl.
    + rewrite H1, next_slot_mod by lia. f_equal. lia.
    + lia.
    + by apply prefix_app_r.
    + rewrite Nat2Z.inj_add. apply (keeps_publish 16 _ _ _ _ [slots (ring s) i]); [done|done|]. intros j x Hj. apply list_lookup_singleton_Some in Hj as [-> <-].
      rewrite Ei. f_equal. f_equal. lia.
    + intros j Hj. destruct (H7 j Hj). split; [done|lia].
  - destruct (reading s) eqn:Er; [done|]. intros [= <-]. split; try done. simpl. unfold PacketRingPeek. rewrite H1, H2. intros i.
    destruct (Z.eqb_spec (zlen (committed s) mod 16) (zlen (consumed s) mod 16)) as [|Hne]; [done|]. intros [= <-]. split; [done|].
    destruct (decide (zlen (consumed s) = zlen (committed s))) as [E|]; [|lia]. by rewrite E in Hne.
  - destruct (reading s) as [i|] eqn:Er; [|done]. intros [= <-]. destruct (H7 i eq_refl) as [Ei Hi]. split; simpl; try done; rewrite ?length_app; simpl.
    + rewrite H2, next_slot_mod by lia. f_equal. lia.
    + lia.
    + destruct H4 as [[|x rest] Hr]; [rewrite app_nil_r in Hr; rewrite Hr in Hi; lia|]. exists rest. rewrite <- app_assoc. simpl. rewrite Hr. f_equal. f_equal.
      rewrite Ei. symmetry. apply H5; [lia|]. rewrite Hr. by apply list_lookup_middle.
    + eapply keeps_consume; [|done]. lia.
    + intros j Hj. destruct (H6 j Hj). split; [done|lia].
Qed.
Lemma pinv_run l : ∀ s s', pinv s → pkt_run l s = Some s' → pinv s'.
Proof.
  induction l as [|a l IH]; intros s s' Hr; simpl; [by intros [= <-]|]. destruct (pkt_step a s) as [s1|] eqn:E; [|done]. simpl. apply IH. by eapply pinv_step.
Qed.
Lemma pinv_init m : pinv (pkt_init m).
Proof. split; try done; simpl; lia. Qed.

(** C14: however a producer and a consumer of a packet ring interleave, frames come out as they were committed, in order, each once,
    at most 15 are queued, the slot being filled is never the one being read, and while a slot is being read
    it holds the frame that is next in order. *)
Theorem packet_ring_fifo m l s :
  pkt_run l (pkt_init m) = Some s →
  ∃ queued, committed s = consumed s ++ queued ∧ (length queued ≤ 15)%nat ∧
    (∀ i j, filling s = Some i → reading s = Some j → i ≠ j) ∧
    (∀ j, reading s = Some j → ∃ rest, queued = slots (ring s) j :: rest).
Proof.
  intros Hl. destruct (pinv_run l _ s (pinv_init m) Hl) as [H1 H2 H3 H4 H5 H6 H7]. destruct H4 as [queued Eq]. exists queued. rewrite Eq, length_app in H3.
  split_and!; [done|lia| |].
  - intros i j Hi Hj. destruct (H6 i Hi) as [-> H8], (H7 j Hj) as [-> H9]. intros E. apply mod16_eq in E; lia.
  - intros j Hj. destruct (H7 j Hj) as [-> H9]. destruct queued as [|x rest]; [rewrite app_nil_r in Eq; rewrite Eq in H9; lia|]. exists rest. f_equal.
    symmetry. apply H5; [lia|]. rewrite Eq. by apply list_lookup_middle.
Qed.

Module RingDemo.
(** Six bytes through a ring of four, with the two sides interleaved. *)
Definition mixed : list ring_act :=
  [Push [1; 2; 3]; PStep; PStep; PStep; PStep; Pop 2; Push [4; 5; 6]; CStep; PStep; CStep; PStep; CStep; Pop 5; CStep; CStep; CStep].
Lemma four : ring_size 4.
Proof. exists 2. split; [lia|done]. Qed.
Lemma shm_ring_fifo_witness :
  match ring_run mixed (shm_init 4 (λ _, 0)) with
  | Some s => got s = [1; 2; 3; 4] ∧ ∃ queued, sent s = got s ++ queued ∧ zlen queued ≤ 4 ∧
                ShmRingReadAt (data s) 4 (r_tail (hdr s)) (zlen queued) = queued ∧ ShmRingAvail (hdr s) = zlen queued ∧ ShmRingFree (hdr s) = 4 - zlen queued
  | None => False
  end.
Proof.
  destruct (ring_run mixed (shm_init 4 (λ _, 0))) as [s|] eqn:E; [|by vm_compute in E]. split.
  - assert (got <$> ring_run mixed (shm_init 4 (λ _, 0)) = Some [1; 2; 3; 4]) as Hg by (by vm_compute). rewrite E in Hg. by injection Hg.
  - apply (shm_ring_fifo 4 (λ _, 0) mixed s); [exact four|repeat constructor; simpl; lia|done].
Defined.

(** Indices about to wrap. *)
Definition wrapping : shm := Shm (ShmRing 4 4294967295 4294967294) (λ _, 0) PIdle CIdle [] [].
Lemma shm_push_alone_witness :
  let '(hdr', data', n) := ShmRingPush (hdr wrapping) (data wrapping) [7; 8; 9; 10] in
  n = 3 ∧ r_head hdr' = 2 ∧
  ring_run (Push [7; 8; 9; 10] :: replicate (S (Z.to_nat n)) PStep) wrapping = Some (Shm hdr' data' PIdle CIdle ([] ++ take (Z.to_nat n) [7; 8; 9; 10]) []).
Proof. split; [by vm_compute|]. split; [by vm_compute|]. apply (shm_push_alone wrapping [7; 8; 9; 10]); [exact four|simpl; lia|done]. Defined.

(** A header with indices that no correct peer writes. *)
Definition hostile : ShmRingHdr := ShmRing 4 77 4000000000.
Lemma shm_ring_in_bounds_witness :
  (let '(r', m', n) := ShmRingPush hostile (λ _, 0) [7; 8] in
   0 ≤ n ≤ 4 ∧ n ≤ 2 ∧ r_size r' = 4 ∧ r_tail r' = 4000000000 ∧ ∀ x, ¬ 0 ≤ x < 4 → m' x = 0) ∧
  (let '(r', bytes) := ShmRingPop hostile (λ _, 0) 100 in
   zlen bytes ≤ 4 ∧ zlen bytes ≤ 100 ∧ r_size r' = 4 ∧ r_head r' = 77 ∧
   ∀ m2, (∀ x, 0 ≤ x < 4 → m2 x = 0) → ShmRingPop hostile m2 100 = (r', bytes)).
Proof. apply (shm_ring_in_bounds hostile (λ _, 0) [7; 8] 100); [exact four|lia]. Defined.

Definition frame (x : Z) : NicFrame := Frame 1 [x].
Definition frames : list pkt_act := [Reserve; Write (frame 0); Write (frame 1); Commit; Peek; Reserve; Write (frame 2)].
Lemma packet_ring_fifo_witness :
  match pkt_run frames (pkt_init (λ _, Frame 0 [])) with
  | Some s => ∃ queued, committed s = consumed s ++ queued ∧ (length queued ≤ 15)%nat ∧ (∀ i j, filling s = Some i → reading s = Some j → i ≠ j) ∧
                ∀ j, reading s = Some j → ∃ rest, queued = slots (ring s) j :: rest
  | None => False
  end.
Proof.
  destruct (pkt_run frames (pkt_init (λ _, Frame 0 []))) as [s|] eqn:E; [|by vm_compute in E]. apply (packet_ring_fifo (λ _, Frame 0 []) frames s E).
Defined.
End RingDemo.
