(* ===== verification/Tcp.v ===== *)
(** The TCP connection of user/services/netd/transport: tcp.h, tcp.c, tcp_in.c, tcp_out.c and the
    buffers of tcp_pcb.c.

    The state is one connection and what the functions it runs use: the clock, the bytes of buffer
    memory in use, the segments handed to IP and the callbacks made, and, for the theorems, the
    bytes [TcpRecv] has given to and [TcpSend] has taken from the client.  Results of code below or
    beside TCP are given in advance and used up one by one: [tx_results] (reserving a frame and
    sending it), [mallocs] and [app_calls], the calls of TCP functions that a callback makes.  A
    NULL buffer that is read or written is a panic.  The loop of [TcpXmit] takes fuel.

    The C structure is flat; here its fields are grouped by the part of TCP they belong to.  Timers
    are given by their deadline while they are armed.  Sequence numbers are 32-bit. *)
From S2P Require Import Prelude Str Ring.

#[local] Open Scope Z_scope.

(** * tcp.h *)

Definition SeqLt (a b : Z) : bool := s32 (a - b) <? 0.
Definition SeqLeq (a b : Z) : bool := s32 (a - b) <=? 0.
Definition SeqMax (a b : Z) : Z := if SeqLt a b then b else a.

Definition TCP_FIN : Z := 0x01.
Definition TCP_SYN : Z := 0x02.
Definition TCP_RST : Z := 0x04.
Definition TCP_ACK : Z := 0x10.
Definition has (flags f : Z) : bool := truthy (Z.land flags f).

Definition TCP_MSS : Z := 1460.
Definition TCP_RTO_MAX : Z := 60000.
Definition TCP_OOO_MAX : Z := 8.
Definition TCP_SND_BUF : Z := 1024 * 32.
Definition TCP_RCV_BUF : Z := 1024 * 32.
Definition TCP_BUF_BUDGET : Z := 2 * 1024 * 1024.
Definition TCP_TIME_WAIT_MS : Z := 2 * 30000.
Definition TCP_SYN_RETRIES : Z := 6.
Definition TCP_FIN_WAIT2_MS : Z := 60000.
Definition TCP_DATA_RETRIES : Z := 12.
Definition ERR_NOTCONN : Z := -103.
Definition ERR_CONNRESET : Z := -108.
Definition ERR_CONNREFUSED : Z := -109.

Inductive TcpState :=
  | TCP_CLOSED | TCP_SYN_SENT | TCP_ESTABLISHED | TCP_FIN_WAIT_1 | TCP_FIN_WAIT_2 | TCP_TIME_WAIT
  | TCP_CLOSE_WAIT | TCP_LAST_ACK | TCP_CLOSING | TCP_LISTENING | TCP_SYN_RCVD.
#[global] Instance TcpState_eq_dec : EqDecision TcpState.
Proof. solve_decision. Defined.
Definition is_state (a b : TcpState) : bool := bool_decide (a = b).

(** A segment, received or sent; [seg_mss] is the value of the MSS option if there is one. *)
Record TcpSegment := Segment { seg_seq : Z; seg_ack : Z; seg_flags : Z; payload : list Z; seg_window : Z; seg_mss : option Z }.
Definition payload_len (s : TcpSegment) : Z := Z.of_nat (length (payload s)).

(** Callbacks made, and the calls a client may make. *)
Inductive event := EvEstablished | EvData | EvWritable | EvClose | EvClosed (err : Z).
Inductive api := Send (bytes : list Z) | Recv (sz : nat) | Close.

Record rcvq := Rcv { rcv_nxt : Z; rcv_rsq : Z; rcv_adv : Z; ranges : list (Z * Z); rcv_buf : option mem; rcv_size : Z; fin_seq : Z; fin_seen : bool; fin_rcvd : bool }.
Definition set_rcv_nxt v x := Rcv v (rcv_rsq x) (rcv_adv x) (ranges x) (rcv_buf x) (rcv_size x) (fin_seq x) (fin_seen x) (fin_rcvd x).
Definition set_rcv_rsq v x := Rcv (rcv_nxt x) v (rcv_adv x) (ranges x) (rcv_buf x) (rcv_size x) (fin_seq x) (fin_seen x) (fin_rcvd x).
Definition set_rcv_adv v x := Rcv (rcv_nxt x) (rcv_rsq x) v (ranges x) (rcv_buf x) (rcv_size x) (fin_seq x) (fin_seen x) (fin_rcvd x).
Definition set_ranges v x := Rcv (rcv_nxt x) (rcv_rsq x) (rcv_adv x) v (rcv_buf x) (rcv_size x) (fin_seq x) (fin_seen x) (fin_rcvd x).
Definition set_rcv_buf v x := Rcv (rcv_nxt x) (rcv_rsq x) (rcv_adv x) (ranges x) v (rcv_size x) (fin_seq x) (fin_seen x) (fin_rcvd x).
Definition set_rcv_size v x := Rcv (rcv_nxt x) (rcv_rsq x) (rcv_adv x) (ranges x) (rcv_buf x) v (fin_seq x) (fin_seen x) (fin_rcvd x).
Definition set_fin_seq v x := Rcv (rcv_nxt x) (rcv_rsq x) (rcv_adv x) (ranges x) (rcv_buf x) (rcv_size x) v (fin_seen x) (fin_rcvd x).
Definition set_fin_seen v x := Rcv (rcv_nxt x) (rcv_rsq x) (rcv_adv x) (ranges x) (rcv_buf x) (rcv_size x) (fin_seq x) v (fin_rcvd x).
Definition set_fin_rcvd v x := Rcv (rcv_nxt x) (rcv_rsq x) (rcv_adv x) (ranges x) (rcv_buf x) (rcv_size x) (fin_seq x) (fin_seen x) v.

Record sndq := Snd { snd_nxt : Z; snd_una : Z; snd_max : Z; snd_wnd : Z; max_snd_wnd : Z; snd_mss : Z; snd_buf : option mem; snd_size : Z; buffered_bytes : Z; snd_blocked : bool; fin_pending : bool; fin_sent : bool }.
Definition set_snd_nxt v x := Snd v (snd_una x) (snd_max x) (snd_wnd x) (max_snd_wnd x) (snd_mss x) (snd_buf x) (snd_size x) (buffered_bytes x) (snd_blocked x) (fin_pending x) (fin_sent x).
Definition set_snd_una v x := Snd (snd_nxt x) v (snd_max x) (snd_wnd x) (max_snd_wnd x) (snd_mss x) (snd_buf x) (snd_size x) (buffered_bytes x) (snd_blocked x) (fin_pending x) (fin_sent x).
Definition set_snd_max v x := Snd (snd_nxt x) (snd_una x) v (snd_wnd x) (max_snd_wnd x) (snd_mss x) (snd_buf x) (snd_size x) (buffered_bytes x) (snd_blocked x) (fin_pending x) (fin_sent x).
Definition set_snd_wnd v x := Snd (snd_nxt x) (snd_una x) (snd_max x) v (max_snd_wnd x) (snd_mss x) (snd_buf x) (snd_size x) (buffered_bytes x) (snd_blocked x) (fin_pending x) (fin_sent x).
Definition set_max_snd_wnd v x := Snd (snd_nxt x) (snd_una x) (snd_max x) (snd_wnd x) v (snd_mss x) (snd_buf x) (snd_size x) (buffered_bytes x) (snd_blocked x) (fin_pending x) (fin_sent x).
Definition set_snd_mss v x := Snd (snd_nxt x) (snd_una x) (snd_max x) (snd_wnd x) (max_snd_wnd x) v (snd_buf x) (snd_size x) (buffered_bytes x) (snd_blocked x) (fin_pending x) (fin_sent x).
Definition set_snd_buf v x := Snd (snd_nxt x) (snd_una x) (snd_max x) (snd_wnd x) (max_snd_wnd x) (snd_mss x) v (snd_size x) (buffered_bytes x) (snd_blocked x) (fin_pending x) (fin_sent x).
Definition set_snd_size v x := Snd (snd_nxt x) (snd_una x) (snd_max x) (snd_wnd x) (max_snd_wnd x) (snd_mss x) (snd_buf x) v (buffered_bytes x) (snd_blocked x) (fin_pending x) (fin_sent x).
Definition set_buffered_bytes v x := Snd (snd_nxt x) (snd_una x) (snd_max x) (snd_wnd x) (max_snd_wnd x) (snd_mss x) (snd_buf x) (snd_size x) v (snd_blocked x) (fin_pending x) (fin_sent x).
Definition set_snd_blocked v x := Snd (snd_nxt x) (snd_una x) (snd_max x) (snd_wnd x) (max_snd_wnd x) (snd_mss x) (snd_buf x) (snd_size x) (buffered_bytes x) v (fin_pending x) (fin_sent x).
Definition set_fin_pending v x := Snd (snd_nxt x) (snd_una x) (snd_max x) (snd_wnd x) (max_snd_wnd x) (snd_mss x) (snd_buf x) (snd_size x) (buffered_bytes x) (snd_blocked x) v (fin_sent x).
Definition set_fin_sent v x := Snd (snd_nxt x) (snd_una x) (snd_max x) (snd_wnd x) (max_snd_wnd x) (snd_mss x) (snd_buf x) (snd_size x) (buffered_bytes x) (snd_blocked x) (fin_pending x) v.

Record cctl := Cc { cwnd : Z; ssthresh : Z; dupacks : Z; recover : Z; in_recovery : bool }.
Definition set_cwnd v x := Cc v (ssthresh x) (dupacks x) (recover x) (in_recovery x).
Definition set_ssthresh v x := Cc (cwnd x) v (dupacks x) (recover x) (in_recovery x).
Definition set_dupacks v x := Cc (cwnd x) (ssthresh x) v (recover x) (in_recovery x).
Definition set_recover v x := Cc (cwnd x) (ssthresh x) (dupacks x) v (in_recovery x).
Definition set_in_recovery v x := Cc (cwnd x) (ssthresh x) (dupacks x) (recover x) v.

Record rttst := Rtt { rto_ms : Z; srtt : Z; rttvar : Z; rtt_valid : bool; rtt_start : Z; rtt_seq : Z; rtt_timing : bool; retries : Z; persist_ms : Z }.
Definition set_rto_ms v x := Rtt v (srtt x) (rttvar x) (rtt_valid x) (rtt_start x) (rtt_seq x) (rtt_timing x) (retries x) (persist_ms x).
Definition set_srtt v x := Rtt (rto_ms x) v (rttvar x) (rtt_valid x) (rtt_start x) (rtt_seq x) (rtt_timing x) (retries x) (persist_ms x).
Definition set_rttvar v x := Rtt (rto_ms x) (srtt x) v (rtt_valid x) (rtt_start x) (rtt_seq x) (rtt_timing x) (retries x) (persist_ms x).
Definition set_rtt_valid v x := Rtt (rto_ms x) (srtt x) (rttvar x) v (rtt_start x) (rtt_seq x) (rtt_timing x) (retries x) (persist_ms x).
Definition set_rtt_start v x := Rtt (rto_ms x) (srtt x) (rttvar x) (rtt_valid x) v (rtt_seq x) (rtt_timing x) (retries x) (persist_ms x).
Definition set_rtt_seq v x := Rtt (rto_ms x) (srtt x) (rttvar x) (rtt_valid x) (rtt_start x) v (rtt_timing x) (retries x) (persist_ms x).
Definition set_rtt_timing v x := Rtt (rto_ms x) (srtt x) (rttvar x) (rtt_valid x) (rtt_start x) (rtt_seq x) v (retries x) (persist_ms x).
Definition set_retries v x := Rtt (rto_ms x) (srtt x) (rttvar x) (rtt_valid x) (rtt_start x) (rtt_seq x) (rtt_timing x) v (persist_ms x).
Definition set_persist_ms v x := Rtt (rto_ms x) (srtt x) (rttvar x) (rtt_valid x) (rtt_start x) (rtt_seq x) (rtt_timing x) (retries x) v.

Record tmrs := Tm { rto_timer : option Z; tw_timer : option Z; persist_timer : option Z; fin_wait2_timer : option Z }.
Definition set_rto_timer v x := Tm v (tw_timer x) (persist_timer x) (fin_wait2_timer x).
Definition set_tw_timer v x := Tm (rto_timer x) v (persist_timer x) (fin_wait2_timer x).
Definition set_persist_timer v x := Tm (rto_timer x) (tw_timer x) v (fin_wait2_timer x).
Definition set_fin_wait2_timer v x := Tm (rto_timer x) (tw_timer x) (persist_timer x) v.

Record pcb := Pcb { state : TcpState; active : bool; parent : Z; p_snd : sndq; p_rcv : rcvq; p_cc : cctl; p_rtt : rttst; p_tm : tmrs }.
Definition set_state v x := Pcb v (active x) (parent x) (p_snd x) (p_rcv x) (p_cc x) (p_rtt x) (p_tm x).
Definition set_active v x := Pcb (state x) v (parent x) (p_snd x) (p_rcv x) (p_cc x) (p_rtt x) (p_tm x).
Definition set_parent v x := Pcb (state x) (active x) v (p_snd x) (p_rcv x) (p_cc x) (p_rtt x) (p_tm x).
Definition set_p_snd v x := Pcb (state x) (active x) (parent x) v (p_rcv x) (p_cc x) (p_rtt x) (p_tm x).
Definition set_p_rcv v x := Pcb (state x) (active x) (parent x) (p_snd x) v (p_cc x) (p_rtt x) (p_tm x).
Definition set_p_cc v x := Pcb (state x) (active x) (parent x) (p_snd x) (p_rcv x) v (p_rtt x) (p_tm x).
Definition set_p_rtt v x := Pcb (state x) (active x) (parent x) (p_snd x) (p_rcv x) (p_cc x) v (p_tm x).
Definition set_p_tm v x := Pcb (state x) (active x) (parent x) (p_snd x) (p_rcv x) (p_cc x) (p_rtt x) v.

Record net := Net { n_pcb : pcb; now : Z; buf_used : Z; wire : list TcpSegment; log : list event; given : list Z; taken : list Z; tx_results : list (Z * Z); mallocs : list (option mem); app_calls : list (list api) }.
Definition set_n_pcb v x := Net v (now x) (buf_used x) (wire x) (log x) (given x) (taken x) (tx_results x) (mallocs x) (app_calls x).
Definition set_now v x := Net (n_pcb x) v (buf_used x) (wire x) (log x) (given x) (taken x) (tx_results x) (mallocs x) (app_calls x).
Definition set_buf_used v x := Net (n_pcb x) (now x) v (wire x) (log x) (given x) (taken x) (tx_results x) (mallocs x) (app_calls x).
Definition set_wire v x := Net (n_pcb x) (now x) (buf_used x) v (log x) (given x) (taken x) (tx_results x) (mallocs x) (app_calls x).
Definition set_log v x := Net (n_pcb x) (now x) (buf_used x) (wire x) v (given x) (taken x) (tx_results x) (mallocs x) (app_calls x).
Definition set_given v x := Net (n_pcb x) (now x) (buf_used x) (wire x) (log x) v (taken x) (tx_results x) (mallocs x) (app_calls x).
Definition set_taken v x := Net (n_pcb x) (now x) (buf_used x) (wire x) (log x) (given x) v (tx_results x) (mallocs x) (app_calls x).
Definition set_tx_results v x := Net (n_pcb x) (now x) (buf_used x) (wire x) (log x) (given x) (taken x) v (mallocs x) (app_calls x).
Definition set_mallocs v x := Net (n_pcb x) (now x) (buf_used x) (wire x) (log x) (given x) (taken x) (tx_results x) v (app_calls x).
Definition set_app_calls v x := Net (n_pcb x) (now x) (buf_used x) (wire x) (log x) (given x) (taken x) (tx_results x) (mallocs x) v.
Definition TM := M net.
Definition get_rcv {A} (f : rcvq → A) : TM A := gets (λ n, f (p_rcv (n_pcb n))).
Definition get_snd {A} (f : sndq → A) : TM A := gets (λ n, f (p_snd (n_pcb n))).
Definition get_cc {A} (f : cctl → A) : TM A := gets (λ n, f (p_cc (n_pcb n))).
Definition get_rtt {A} (f : rttst → A) : TM A := gets (λ n, f (p_rtt (n_pcb n))).
Definition get_tm {A} (f : tmrs → A) : TM A := gets (λ n, f (p_tm (n_pcb n))).
Definition get_state : TM TcpState := gets (λ n, state (n_pcb n)).
Definition upd (f : pcb → pcb) : TM unit := modify (λ n, set_n_pcb (f (n_pcb n)) n).
Definition upd_rcv (f : rcvq → rcvq) : TM unit := upd (λ p, set_p_rcv (f (p_rcv p)) p).
Definition upd_snd (f : sndq → sndq) : TM unit := upd (λ p, set_p_snd (f (p_snd p)) p).
Definition upd_cc (f : cctl → cctl) : TM unit := upd (λ p, set_p_cc (f (p_cc p)) p).
Definition upd_rtt (f : rttst → rttst) : TM unit := upd (λ p, set_p_rtt (f (p_rtt p)) p).
Definition upd_tm (f : tmrs → tmrs) : TM unit := upd (λ p, set_p_tm (f (p_tm p)) p).
Definition goto_state (s : TcpState) : TM unit := upd (set_state s).
Definition NetNowMs : TM Z := gets now.

(** Results of other code, used up in order; when none is left, sending and allocating succeed
    and a callback calls nothing. *)
Definition next_tx : TM (Z * Z) := λ n,
  match tx_results n with [] => Ok ((ZUZU_OK, ZUZU_OK), n) | r :: rs => Ok (r, set_tx_results rs n) end.
Definition next_malloc : TM (option mem) := λ n,
  match mallocs n with [] => Ok (Some (λ _, 0), n) | b :: bs => Ok (b, set_mallocs bs n) end.
Definition next_calls : TM (list api) := λ n,
  match app_calls n with [] => Ok ([], n) | c :: cs => Ok (c, set_app_calls cs n) end.

Definition the_buf (b : option mem) : TM mem := match b with Some m => ret m | None => panic end.

(** * Rings of bytes *)

(** The [len] bytes at sequence number [seq] of a ring, and writing bytes there. *)
Definition copy_out (buf : mem) (size seq len : Z) : list Z :=
  let off := Z.land seq (size - 1) in
  let first := Z.min len (size - off) in
  load_bytes buf off first ++ (if first <? len then load_bytes buf 0 (len - first) else []).
Definition copy_in (buf : mem) (size seq : Z) (bytes : list Z) : mem :=
  let n := Z.of_nat (length bytes) in
  let off := Z.land seq (size - 1) in
  let first := Z.min n (size - off) in
  let buf := write_all buf off (take (Z.to_nat first) bytes) in
  if first <? n then write_all buf 0 (drop (Z.to_nat first) bytes) else buf.

(** * Timers and buffers of a connection *)

Definition RtoStart : TM unit :=
  let! armed := get_tm rto_timer in
  match armed with
  | Some _ => ret tt
  | None => let! t := NetNowMs in let! r := get_rtt rto_ms in upd_tm (set_rto_timer (Some (w32 (t + r))))
  end.
Definition RtoStop : TM unit := upd_tm (set_rto_timer None).

(** [TcpBufAlloc]: whether there is a buffer now; new memory has arbitrary contents. *)
Definition TcpBufAlloc (buf : option mem) (size : Z) (store : option mem → TM unit) : TM bool :=
  match buf with
  | Some _ => ret true
  | None =>
      let! used := gets buf_used in
      if TCP_BUF_BUDGET <? w32 (used + size) then ret false else
      let! p := next_malloc in
      match p with
      | None => ret false
      | Some _ => store p ;; modify (λ n, set_buf_used (w32 (buf_used n + size)) n) ;; ret true
      end
  end.
Definition TcpRcvBufAlloc : TM bool :=
  let! b := get_rcv rcv_buf in let! sz := get_rcv rcv_size in TcpBufAlloc b sz (λ x, upd_rcv (set_rcv_buf x)).
Definition TcpSndBufAlloc : TM bool :=
  let! b := get_snd snd_buf in let! sz := get_snd snd_size in TcpBufAlloc b sz (λ x, upd_snd (set_snd_buf x)).
Definition TcpBufFree (buf : option mem) (size : Z) (store : option mem → TM unit) : TM unit :=
  match buf with
  | None => ret tt
  | Some _ => store None ;; modify (λ n, set_buf_used (w32 (buf_used n - size)) n)
  end.
Definition TcpBufsFree : TM unit :=
  (let! b := get_snd snd_buf in let! sz := get_snd snd_size in TcpBufFree b sz (λ x, upd_snd (set_snd_buf x))) ;;
  (let! b := get_rcv rcv_buf in let! sz := get_rcv rcv_size in TcpBufFree b sz (λ x, upd_rcv (set_rcv_buf x))).

(** The connection's part of [TcpPcbFree] and [TcpPcbRelease]. *)
Definition TcpPcbFree : TM unit :=
  upd_tm (λ _, Tm None None None None) ;; TcpBufsFree ;; upd (set_active false).
Definition TcpPcbRelease (err : Z) : TM unit :=
  goto_state TCP_CLOSED ;; modify (λ n, set_log (log n ++ [EvClosed err]) n) ;; TcpPcbFree.

(** * tcp_out.c *)

Definition TcpCopyOut (seq len : Z) : TM (list Z) :=
  let! b := get_snd snd_buf in let! buf := the_buf b in let! size := get_snd snd_size in ret (copy_out buf size seq len).

(** Bytes of the headers in front of the payload, and options: a SYN carries the MSS. *)
Definition TX_HEADROOM : Z := 14 + 20.
Definition opt_len (flags : Z) : Z := if has flags TCP_SYN then 4 else 0.

(** The window to announce; it moves [rcv_adv]. *)
Definition TcpWindow : TM Z :=
  let! rsq := get_rcv rcv_rsq in
  let! size := get_rcv rcv_size in
  let! adv := get_rcv rcv_adv in
  let! nxt := get_rcv rcv_nxt in
  let! mss := get_snd snd_mss in
  let edge := w32 (rsq + size) in
  let edge := if SeqLt adv edge && (w32 (edge - adv) <? Z.min (size / 2) mss) then adv else edge in
  let win := if SeqLt nxt edge then w16 (edge - nxt) else 0 in
  upd_rcv (set_rcv_adv (w32 (nxt + win))) ;; ret win.

Definition TcpOutput (flags data_len : Z) : TM Z :=
  let! (rc, rc2) := next_tx in
  if negb (rc =? ZUZU_OK) then ret rc else
  if NIC_FRAME_SIZE <? TX_HEADROOM + 20 + opt_len flags + data_len then ret ERR_OVERFLOW else
  let! seq := get_snd snd_nxt in
  let! nxt := get_rcv rcv_nxt in
  let! win := TcpWindow in
  let! bytes := (if truthy data_len then TcpCopyOut seq data_len else ret []) in
  if negb (rc2 =? ZUZU_OK) then ret rc2 else
  modify (λ n, set_wire (wire n ++ [Segment seq (if has flags TCP_ACK then nxt else 0) flags bytes win
                                      (if has flags TCP_SYN then Some TCP_MSS else None)]) n) ;;
  upd_snd (λ s, set_snd_nxt (w32 (snd_nxt s + data_len + b2z (has flags TCP_SYN) + b2z (has flags TCP_FIN))) s) ;;
  let! nx := get_snd snd_nxt in
  let! mx := get_snd snd_max in
  when (SeqLt mx nx) (upd_snd (set_snd_max nx)) ;;
  ret ZUZU_OK.

(** What the loop of [TcpXmit] would send next: [None] ends it. *)
Definition xmit_next (s : sndq) (cw : Z) : option Z :=
  let data_end := w32 (snd_una s + buffered_bytes s) in
  if SeqLeq data_end (snd_nxt s) then None else
  let unsent := w32 (data_end - snd_nxt s) in
  let window_edge := w32 (snd_una s + Z.min (snd_wnd s) cw) in
  if SeqLeq window_edge (snd_nxt s) then None else
  let sendable := w32 (window_edge - snd_nxt s) in
  let seglen := Z.min (Z.min unsent sendable) (snd_mss s) in
  let retrans := SeqLt (snd_nxt s) (snd_max s) in
  let full := snd_mss s <=? seglen in
  let drains := seglen =? unsent in
  let idle := snd_max s =? snd_una s in
  let fin := fin_pending s && drains in
  let half := max_snd_wnd s / 2 <=? seglen in
  if negb retrans && negb (full || half || fin || (drains && idle)) then None else
  if seglen =? 0 then None else Some seglen.

(** [inl] an error that ends [TcpXmit], [inr] whether a segment was sent. *)
Fixpoint xmit_loop (fuel : nat) (sent : bool) : TM (Z + bool) :=
  let! s := get_snd id in
  let! cw := get_cc cwnd in
  match xmit_next s cw with
  | None => ret (inr sent)
  | Some seglen =>
      match fuel with
      | O => diverge
      | S fuel' =>
          let last := fin_pending s && (w32 (snd_nxt s + seglen) =? w32 (snd_una s + buffered_bytes s)) in
          when last (upd_snd (set_fin_sent true)) ;;
          let! rc := TcpOutput (if last then Z.lor TCP_ACK TCP_FIN else TCP_ACK) seglen in
          if negb (rc =? ZUZU_OK) then ret (inl rc) else
          let! timing := get_rtt rtt_timing in
          (let! t := NetNowMs in
           when (negb timing) (upd_rtt (λ r, set_rtt_seq (w32 (snd_nxt s + seglen)) (set_rtt_start t (set_rtt_timing true r))))) ;;
          xmit_loop fuel' true
      end
  end.

(** Enough for a send buffer: every round sends a byte at least. *)
Definition XMIT_FUEL : nat := Z.to_nat TCP_SND_BUF.

Definition TcpPersist (blocked : bool) : TM unit :=
  if blocked then
    let! armed := get_tm persist_timer in
    match armed with
    | Some _ => ret tt
    | None =>
        let! p := get_rtt persist_ms in
        let! r := get_rtt rto_ms in
        when (p =? 0) (upd_rtt (set_persist_ms r)) ;;
        let! t := NetNowMs in
        let! p := get_rtt persist_ms in
        upd_tm (set_persist_timer (Some (w32 (t + p))))
    end
  else upd_tm (set_persist_timer None) ;; upd_rtt (set_persist_ms 0).

Definition TcpXmit : TM Z :=
  let! r := xmit_loop XMIT_FUEL false in
  match r with
  | inl rc => ret rc
  | inr sent =>
      let! s := get_snd id in
      let data_end := w32 (snd_una s + buffered_bytes s) in
      let fin_acked := fin_sent s && SeqLeq (snd_max s) (snd_una s) in
      let! sent := (if fin_pending s && negb fin_acked && (snd_nxt s =? data_end) then
                      let! rc := TcpOutput (Z.lor TCP_FIN TCP_ACK) 0 in
                      if rc =? ZUZU_OK then upd_snd (set_fin_sent true) ;; ret true else ret sent
                    else ret sent) in
      when sent RtoStart ;;
      let! s := get_snd id in
      TcpPersist (SeqLt (snd_nxt s) data_end && SeqLeq (w32 (snd_una s + snd_wnd s)) (snd_nxt s) && (snd_max s =? snd_una s)) ;;
      ret ZUZU_OK
  end.

Definition TcpPersistCb : TM unit :=
  upd_tm (set_persist_timer None) ;;
  let! s := get_snd id in
  let data_end := w32 (snd_una s + buffered_bytes s) in
  if negb (SeqLt (snd_nxt s) data_end && SeqLeq (w32 (snd_una s + snd_wnd s)) (snd_nxt s)) then
    TcpXmit ;; ret tt
  else
    upd_snd (λ s, set_snd_nxt (w32 (snd_una s - 1)) s) ;;
    TcpOutput TCP_ACK 0 ;;
    upd_snd (set_snd_nxt (snd_nxt s)) ;;
    upd_rtt (λ r, set_persist_ms (let p := w32 (persist_ms r * 2) in if TCP_RTO_MAX <? p then TCP_RTO_MAX else p) r) ;;
    let! t := NetNowMs in
    let! p := get_rtt persist_ms in
    upd_tm (set_persist_timer (Some (w32 (t + p)))).

Definition TcpRetransmitHead : TM unit :=
  let! s := get_snd id in
  let data_end := w32 (snd_una s + buffered_bytes s) in
  let len := if SeqLt (snd_una s) data_end then Z.min (snd_mss s) (w32 (data_end - snd_una s)) else 0 in
  let flags := if fin_sent s && (w32 (snd_una s + len) =? data_end) then Z.lor TCP_ACK TCP_FIN else TCP_ACK in
  upd_snd (set_snd_nxt (snd_una s)) ;;
  TcpOutput flags len ;;
  upd_snd (set_snd_nxt (snd_nxt s)) ;;
  upd_rtt (set_rtt_timing false).

(** The callback of the retransmission timer, which is no longer armed when it runs. *)
Definition TcpRtoCb : TM unit :=
  upd_tm (set_rto_timer None) ;;
  let! s := get_snd id in
  if snd_max s =? snd_una s then ret tt else
  let! st := get_state in
  let opening := is_state st TCP_SYN_SENT || is_state st TCP_SYN_RCVD in
  upd_rtt (λ r, set_retries (retries r + 1) r) ;;
  let! n := get_rtt retries in
  if (if opening then TCP_SYN_RETRIES else TCP_DATA_RETRIES) <? n then TcpPcbRelease ERR_TIMEOUT else
  upd_rtt (λ r, set_rtt_timing false (set_rto_ms (let o := w32 (rto_ms r * 2) in if TCP_RTO_MAX <? o then TCP_RTO_MAX else o) r)) ;;
  upd_snd (λ s, set_snd_nxt (snd_una s) s) ;;
  if opening then
    TcpOutput (if is_state st TCP_SYN_SENT then TCP_SYN else Z.lor TCP_SYN TCP_ACK) 0 ;; RtoStart
  else
    let! s := get_snd id in
    let flight := w32 (snd_max s - snd_una s) in
    upd_cc (λ _, Cc (snd_mss s) (Z.max (flight / 2) (2 * snd_mss s)) 0 (snd_max s) false) ;;
    TcpXmit ;; ret tt.

Definition TcpSend (bytes : list Z) : TM Z :=
  let! st := get_state in
  if negb (is_state st TCP_ESTABLISHED) && negb (is_state st TCP_CLOSE_WAIT) then ret ERR_NOTCONN else
  let! ok := TcpSndBufAlloc in
  if negb ok then ret ERR_NOMEM else
  let! s := get_snd id in
  let free := w32 (snd_size s - buffered_bytes s) in
  if free =? 0 then upd_snd (set_snd_blocked true) ;; ret 0 else
  let len := Z.of_nat (length bytes) in
  let n := Z.min len free in
  when (n <? len) (upd_snd (set_snd_blocked true)) ;;
  let! buf := the_buf (snd_buf s) in
  upd_snd (set_snd_buf (Some (copy_in buf (snd_size s) (w32 (snd_una s + buffered_bytes s)) (take (Z.to_nat n) bytes)))) ;;
  upd_snd (λ s, set_buffered_bytes (w32 (buffered_bytes s + n)) s) ;;
  modify (λ n', set_taken (taken n' ++ take (Z.to_nat n) bytes) n') ;;
  TcpXmit ;;
  ret n.

(** * The client's side of tcp_in.c and tcp.c *)

(** The bytes read, or an error. *)
Definition TcpRecv (sz : Z) : TM (Z + list Z) :=
  let! st := get_state in
  if negb (is_state st TCP_ESTABLISHED) && negb (is_state st TCP_CLOSE_WAIT) && negb (is_state st TCP_FIN_WAIT_1) && negb (is_state st TCP_FIN_WAIT_2)
  then ret (inl ERR_NOTCONN) else
  let! r := get_rcv id in
  let avail := w32 (rcv_nxt r - rcv_rsq r) in
  let avail := if fin_rcvd r && truthy avail then avail - 1 else avail in
  let n := Z.min sz avail in
  if n =? 0 then ret (inr []) else
  let! buf := the_buf (rcv_buf r) in
  let bytes := copy_out buf (rcv_size r) (rcv_rsq r) n in
  upd_rcv (λ r, set_rcv_rsq (w32 (rcv_rsq r + n)) r) ;;
  modify (λ n', set_given (given n' ++ bytes) n') ;;
  let! r := get_rcv id in
  let! mss := get_snd snd_mss in
  (if Z.min (rcv_size r / 2) mss <=? w32 (rcv_rsq r + rcv_size r - rcv_adv r) then TcpOutput TCP_ACK 0 ;; ret tt else ret tt) ;;
  ret (inr bytes).

(** [TcpClose] of a connection (not of a listener). *)
Definition TcpClose : TM Z :=
  let! st := get_state in
  match st with
  | TCP_SYN_SENT => TcpPcbRelease ZUZU_OK ;; ret ZUZU_OK
  | TCP_ESTABLISHED | TCP_SYN_RCVD | TCP_CLOSE_WAIT =>
      goto_state (if is_state st TCP_CLOSE_WAIT then TCP_LAST_ACK else TCP_FIN_WAIT_1) ;;
      upd_snd (set_fin_pending true) ;;
      TcpXmit ;;
      ret ZUZU_OK
  | _ => ret ERR_NOTCONN
  end.

(** The slot after [TcpPcbAlloc]. *)
Definition TcpPcbAlloc : pcb :=
  Pcb TCP_CLOSED true 0 (Snd 0 0 0 0 0 0 None TCP_SND_BUF 0 false false false) (Rcv 0 0 0 [] None TCP_RCV_BUF 0 false false)
    (Cc 0 0 0 0 false) (Rtt 0 0 0 false 0 0 false 0 0) (Tm None None None None).
(** [TcpConnect] for a slot that is free: whether an address is bound, the port [PortAlloc] gave (0
    for none) and the random initial sequence number.  There is no callback before it returns. *)
Definition TcpConnect (bound : bool) (port isn : Z) : TM Z :=
  if negb bound then ret ERR_NOTCONN else
  upd (λ _, TcpPcbAlloc) ;;
  if port =? 0 then goto_state TCP_CLOSED ;; TcpPcbFree ;; ret ERR_NOMEM else
  upd_snd (λ s, set_snd_mss TCP_MSS (set_snd_max isn (set_snd_una isn (set_snd_nxt isn s)))) ;;
  upd_rcv (λ r, set_rcv_rsq 0 (set_rcv_nxt 0 r)) ;;
  upd_rtt (set_rto_ms 1000) ;;
  goto_state TCP_SYN_SENT ;;
  let! rc := TcpOutput TCP_SYN 0 in
  RtoStart ;;
  if negb (rc =? ZUZU_OK) then goto_state TCP_CLOSED ;; TcpPcbFree ;; ret rc else
  RtoStart ;;
  ret ZUZU_OK.

(** A callback: the client is told, and makes the calls it wants to make. *)
Definition api_call (a : api) : TM unit :=
  match a with
  | Send bytes => TcpSend bytes ;; ret tt
  | Recv sz => TcpRecv (Z.of_nat sz) ;; ret tt
  | Close => TcpClose ;; ret tt
  end.
Fixpoint api_calls (l : list api) : TM unit :=
  match l with [] => ret tt | a :: l' => api_call a ;; api_calls l' end.
Definition TCP_NOTIFY (e : event) : TM unit :=
  modify (λ n, set_log (log n ++ [e]) n) ;; let! l := next_calls in api_calls l.

(** * tcp_in.c: reassembly *)


(** The ranges left and [rcv_nxt]. *)
Fixpoint FwdMerge (l : list (Z * Z)) (nxt : Z) : list (Z * Z) * Z :=
  match l with
  | [] => ([], nxt)
  | (s, e) :: l' => if SeqLeq s nxt then FwdMerge l' (SeqMax nxt e) else (l, nxt)
  end.

(** Insertion in front of the first range that does not start before [s]. *)
Fixpoint range_pos (l : list (Z * Z)) (s : Z) : nat :=
  match l with [] => O | (s', _) :: l' => if SeqLt s' s then S (range_pos l' s) else O end.
Definition range_insert (l : list (Z * Z)) (s e : Z) : list (Z * Z) :=
  let i := range_pos l s in take i l ++ (s, e) :: drop i l.
(** The pass that fuses a range with the ones after it that it touches. *)
Fixpoint fuse (cur : Z * Z) (l : list (Z * Z)) : list (Z * Z) :=
  match l with
  | [] => [cur]
  | (s, e) :: l' => if SeqLeq s cur.2 then fuse (cur.1, SeqMax cur.2 e) l' else cur :: fuse (s, e) l'
  end.
Definition fuse_all (l : list (Z * Z)) : list (Z * Z) := match l with [] => [] | r :: l' => fuse r l' end.

Definition StoreOoo (s : TcpSegment) : TM unit :=
  let! r := get_rcv id in
  let seg_end := w32 (seg_seq s + payload_len s) in
  if SeqLeq seg_end (rcv_nxt r) then ret tt else
  let seg_start := if SeqLt (seg_seq s) (rcv_nxt r) then rcv_nxt r else seg_seq s in
  if SeqLt (rcv_adv r) seg_end then ret tt else
  if TCP_OOO_MAX <=? Z.of_nat (length (ranges r)) then ret tt else
  let clip := w16 (seg_start - seg_seq s) in
  let seg_len := w16 (payload_len s - clip) in
  let! buf := the_buf (rcv_buf r) in
  upd_rcv (set_rcv_buf (Some (copy_in buf (rcv_size r) seg_start (take (Z.to_nat seg_len) (drop (Z.to_nat clip) (payload s)))))) ;;
  upd_rcv (set_ranges (fuse_all (range_insert (ranges r) seg_start seg_end))).

Definition DeliverData (bytes : list Z) : TM unit :=
  let! r := get_rcv id in
  let room := if SeqLt (rcv_nxt r) (rcv_adv r) then w32 (rcv_adv r - rcv_nxt r) else 0 in
  let n := Z.min (Z.of_nat (length bytes)) room in
  let! buf := the_buf (rcv_buf r) in
  upd_rcv (set_rcv_buf (Some (copy_in buf (rcv_size r) (rcv_nxt r) (take (Z.to_nat n) bytes)))) ;;
  upd_rcv (set_rcv_nxt (w32 (rcv_nxt r + n))).

(** * tcp_in.c: states *)

Definition TcpEnterFinWait2 : TM unit :=
  goto_state TCP_FIN_WAIT_2 ;;
  let! t := NetNowMs in upd_tm (set_fin_wait2_timer (Some (w32 (t + TCP_FIN_WAIT2_MS)))).
Definition TcpEnterTimeWait : TM unit :=
  RtoStop ;;
  upd_tm (set_fin_wait2_timer None) ;;
  TcpBufsFree ;;
  goto_state TCP_TIME_WAIT ;;
  let! t := NetNowMs in upd_tm (set_tw_timer (Some (w32 (t + TCP_TIME_WAIT_MS)))).
(** Callbacks of the timers, which are no longer armed when they run. *)
Definition TimeWaitCb : TM unit := upd_tm (set_tw_timer None) ;; TcpPcbRelease ZUZU_OK.
Definition FinWait2Cb : TM unit := upd_tm (set_fin_wait2_timer None) ;; TcpPcbRelease ERR_TIMEOUT.

Definition ConsumeFin : TM bool :=
  let! r := get_rcv id in
  if negb (fin_seen r) || fin_rcvd r then ret false else
  if negb (rcv_nxt r =? fin_seq r) then ret false else
  upd_rcv (λ r, set_rcv_nxt (w32 (rcv_nxt r + 1)) (set_fin_rcvd true r)) ;;
  TcpOutput TCP_ACK 0 ;;
  let! st := get_state in
  match st with
  | TCP_ESTABLISHED => goto_state TCP_CLOSE_WAIT ;; TCP_NOTIFY EvClose
  | TCP_FIN_WAIT_1 => goto_state TCP_CLOSING
  | TCP_FIN_WAIT_2 => TcpEnterTimeWait
  | _ => ret tt
  end ;;
  ret true.

Definition TcpConsumeMss (s : TcpSegment) : TM unit :=
  match seg_mss s with
  | None => ret tt
  | Some m => upd_snd (set_snd_mss (let m := if m <? 536 then 536 else m in if TCP_MSS <? m then TCP_MSS else m))
  end.
Definition TcpCcInit : TM unit :=
  let! s := get_snd id in
  upd_cc (λ c, set_recover (snd_nxt s) (set_ssthresh (2 ^ 32 - 1) (set_cwnd (10 * snd_mss s) c))).
Definition TcpHandshakeDone : TM bool :=
  let! ok := TcpRcvBufAlloc in
  if negb ok then ret false else
  RtoStop ;; upd_rtt (λ r, set_rto_ms 1000 (set_retries 0 r)) ;; goto_state TCP_ESTABLISHED ;; ret true.
Definition TcpAbort : TM unit := TcpOutput (Z.lor TCP_RST TCP_ACK) 0 ;; TcpPcbRelease ERR_NOMEM.

(** The receive side starts at the peer's sequence number. *)
Definition rcv_start (seq : Z) : TM unit :=
  upd_rcv (λ r, let nxt := w32 (seq + 1) in set_rcv_adv (w32 (nxt + rcv_size r)) (set_rcv_rsq nxt (set_rcv_nxt nxt r))).

Definition OnSynSent (s : TcpSegment) : TM unit :=
  let! nxt := get_snd snd_nxt in
  if has (seg_flags s) TCP_SYN && has (seg_flags s) TCP_ACK && (seg_ack s =? nxt) then
    rcv_start (seg_seq s) ;;
    upd_snd (set_snd_una (seg_ack s)) ;;
    let! ok := TcpHandshakeDone in
    if negb ok then TcpAbort else
    TcpConsumeMss s ;; TcpCcInit ;; TcpOutput TCP_ACK 0 ;; TCP_NOTIFY EvEstablished
  else if has (seg_flags s) TCP_SYN && negb (has (seg_flags s) TCP_ACK) then
    rcv_start (seg_seq s) ;;
    upd_snd (λ s, set_snd_nxt (snd_una s) s) ;;
    TcpConsumeMss s ;; TcpCcInit ;; TcpOutput (Z.lor TCP_SYN TCP_ACK) 0 ;;
    goto_state TCP_SYN_RCVD
  else ret tt.

(** [OnListening] from the slot it takes for the new connection; [listener] is the listener's. *)
Definition OnListening (listener isn : Z) (s : TcpSegment) : TM unit :=
  upd (λ _, set_parent (listener + 1) TcpPcbAlloc) ;;
  rcv_start (seg_seq s) ;;
  upd_snd (λ q, set_snd_max isn (set_snd_una isn (set_snd_nxt isn (set_snd_wnd (seg_window s) q)))) ;;
  upd_rtt (set_rto_ms 1000) ;;
  goto_state TCP_SYN_RCVD ;;
  upd_snd (set_snd_mss 536) ;;
  TcpConsumeMss s ;; TcpCcInit ;;
  TcpOutput (Z.lor TCP_SYN TCP_ACK) 0 ;;
  RtoStart.

Definition TcpRttUpdate (R : Z) : TM unit :=
  let! r := get_rtt id in
  (if negb (rtt_valid r) then upd_rtt (λ r, set_rtt_valid true (set_rttvar (R / 2) (set_srtt R r)))
   else
     let diff := if R <? srtt r then srtt r - R else R - srtt r in
     upd_rtt (λ r, set_srtt (w32 (7 * srtt r + R) / 8) (set_rttvar (w32 (3 * rttvar r + diff) / 4) r))) ;;
  upd_rtt (λ r,
    let rto := w32 (srtt r + 4 * rttvar r) in
    let rto := if rto <? 1000 then 1000 else rto in
    set_rto_ms (if TCP_RTO_MAX <? rto then TCP_RTO_MAX else rto) r).

Definition TcpOnDupAck : TM unit :=
  upd_cc (λ c, set_dupacks (w32 (dupacks c + 1)) c) ;;
  let! c := get_cc id in
  let! s := get_snd id in
  if in_recovery c then upd_cc (set_cwnd (w32 (cwnd c + snd_mss s)))
  else if (dupacks c =? 3) && SeqLeq (recover c) (snd_una s) then
    let flight := w32 (snd_max s - snd_una s) in
    upd_cc (λ c, set_in_recovery true (set_recover (snd_max s) (set_ssthresh (Z.max (flight / 2) (2 * snd_mss s)) c))) ;;
    TcpRetransmitHead ;;
    upd_cc (λ c, set_cwnd (w32 (ssthresh c + 3 * snd_mss s)) c)
  else ret tt.

(** The congestion window after [acked] new bytes. *)
Definition TcpGrowWindow (acked : Z) : TM unit :=
  let! c := get_cc id in
  let! s := get_snd id in
  if in_recovery c then
    if SeqLeq (recover c) (snd_una s) then
      upd_cc (λ c, set_dupacks 0 (set_in_recovery false (set_cwnd (Z.min (ssthresh c) (w32 (w32 (snd_max s - snd_una s) + snd_mss s))) c)))
    else
      TcpRetransmitHead ;;
      upd_cc (λ c, set_cwnd (if acked <? cwnd c then cwnd c - acked else snd_mss s) c) ;;
      when (snd_mss s <=? acked) (upd_cc (λ c, set_cwnd (w32 (cwnd c + snd_mss s)) c))
  else
    upd_cc (set_dupacks 0) ;;
    (if cwnd c <? ssthresh c then upd_cc (λ c, set_cwnd (w32 (cwnd c + Z.min acked (snd_mss s))) c)
     else if cwnd c =? 0 then panic
     else upd_cc (λ c, set_cwnd (w32 (cwnd c + Z.max 1 (w32 (snd_mss s * snd_mss s) / cwnd c))) c)) ;;
    upd_cc (λ c, set_cwnd (if snd_size s <? cwnd c then snd_size s else cwnd c) c).

Definition TcpProcessAck (g : TcpSegment) : TM bool :=
  let! s := get_snd id in
  if has (seg_flags g) TCP_ACK && (seg_ack g =? snd_una s) && (payload_len g =? 0) && negb (has (seg_flags g) (Z.lor TCP_SYN TCP_FIN)) &&
     negb (snd_max s =? snd_una s)
  then TcpOnDupAck ;; ret false else
  if negb (has (seg_flags g) TCP_ACK) || negb (SeqLt (snd_una s) (seg_ack g)) || negb (SeqLeq (seg_ack g) (snd_max s)) then ret false else
  let acked := Z.min (w32 (seg_ack g - snd_una s)) (buffered_bytes s) in
  let! r := get_rtt id in
  let! t := NetNowMs in
  (if rtt_timing r && SeqLeq (rtt_seq r) (seg_ack g) then TcpRttUpdate (w32 (t - rtt_start r)) ;; upd_rtt (set_rtt_timing false) else ret tt) ;;
  upd_snd (set_snd_una (seg_ack g)) ;;
  upd_snd (λ s, if SeqLt (snd_nxt s) (snd_una s) then set_snd_nxt (snd_una s) s else s) ;;
  upd_rtt (set_retries 0) ;;
  upd_snd (λ s, set_buffered_bytes (buffered_bytes s - acked) s) ;;
  TcpGrowWindow acked ;;
  RtoStop ;;
  let! s := get_snd id in
  (if negb (snd_max s =? snd_una s) then RtoStart else ret tt) ;;
  (if snd_blocked s && (snd_size s / 4 <=? w32 (snd_size s - buffered_bytes s)) then
     upd_snd (set_snd_blocked false) ;; TCP_NOTIFY EvWritable
   else ret tt) ;;
  ret true.

Definition TcpFinAcked (s : sndq) : bool := fin_sent s && SeqLeq (snd_max s) (snd_una s).

Definition TcpRecvText (g : TcpSegment) : TM unit :=
  let! r := get_rcv id in
  (if has (seg_flags g) TCP_FIN && negb (fin_seen r)
   then upd_rcv (λ r, set_fin_seen true (set_fin_seq (w32 (seg_seq g + payload_len g)) r)) else ret tt) ;;
  let! acked :=
    (if negb (payload_len g =? 0) then
       let! r := get_rcv id in
       if seg_seq g =? rcv_nxt r then
         DeliverData (payload g) ;;
         upd_rcv (λ r, let '(l, nxt) := FwdMerge (ranges r) (rcv_nxt r) in set_rcv_nxt nxt (set_ranges l r)) ;;
         let! r := get_rcv id in
         let! acked := (if negb (fin_seen r && (rcv_nxt r =? fin_seq r)) then TcpOutput TCP_ACK 0 ;; ret true else ret false) in
         TCP_NOTIFY EvData ;;
         ret acked
       else if SeqLt (rcv_nxt r) (seg_seq g) then StoreOoo g ;; TcpOutput TCP_ACK 0 ;; ret true
       else TcpOutput TCP_ACK 0 ;; ret true
     else ret false) in
  let! consumed := ConsumeFin in
  if has (seg_flags g) TCP_FIN && negb consumed && negb acked then TcpOutput TCP_ACK 0 ;; ret tt else ret tt.

Definition OnEstablished (g : TcpSegment) : TM unit :=
  TcpProcessAck g ;;
  let! mx := get_snd snd_max in
  if has (seg_flags g) TCP_ACK && SeqLt mx (seg_ack g) then TcpOutput TCP_ACK 0 ;; ret tt else TcpRecvText g.
Definition OnFinWait1 (g : TcpSegment) : TM unit :=
  TcpProcessAck g ;;
  let! s := get_snd id in
  when (TcpFinAcked s) TcpEnterFinWait2 ;;
  TcpRecvText g.
Definition OnFinWait2 (g : TcpSegment) : TM unit := TcpProcessAck g ;; TcpRecvText g.
Definition OnClosing (g : TcpSegment) : TM unit :=
  let! ok := TcpProcessAck g in
  let! s := get_snd id in
  if ok && TcpFinAcked s then TcpEnterTimeWait
  else if has (seg_flags g) TCP_FIN then TcpOutput TCP_ACK 0 ;; ret tt else ret tt.
Definition OnLastAck (g : TcpSegment) : TM unit :=
  let! ok := TcpProcessAck g in
  let! s := get_snd id in
  if ok && TcpFinAcked s then TcpPcbRelease ZUZU_OK else ret tt.
Definition OnCloseWait (g : TcpSegment) : TM unit :=
  TcpProcessAck g ;;
  if has (seg_flags g) TCP_FIN then TcpOutput TCP_ACK 0 ;; ret tt else ret tt.
(** [pcb->cb] of an accepted connection is taken from its listener. *)
Definition OnSynRcvd (g : TcpSegment) : TM unit :=
  let! s := get_snd id in
  let! r := get_rcv id in
  if has (seg_flags g) TCP_ACK && (seg_ack g =? snd_nxt s) then
    upd_snd (set_snd_una (seg_ack g)) ;;
    let! ok := TcpHandshakeDone in
    if negb ok then TcpAbort else TCP_NOTIFY EvEstablished
  else if has (seg_flags g) TCP_SYN && negb (has (seg_flags g) TCP_ACK) && (w32 (seg_seq g + 1) =? rcv_nxt r) then
    upd_snd (λ s, set_snd_nxt (snd_una s) s) ;; TcpOutput (Z.lor TCP_SYN TCP_ACK) 0 ;; ret tt
  else ret tt.

(** [TcpDispatch] after it has found the connection. *)
Definition TcpDispatch (g : TcpSegment) : TM unit :=
  let! st := get_state in
  if has (seg_flags g) TCP_RST then
    let! s := get_snd id in
    let! r := get_rcv id in
    let accept := if is_state st TCP_SYN_SENT then has (seg_flags g) TCP_ACK && (seg_ack g =? snd_nxt s) else seg_seq g =? rcv_nxt r in
    if accept then TcpPcbRelease (if is_state st TCP_SYN_SENT then ERR_CONNREFUSED else ERR_CONNRESET) else ret tt
  else
    upd_snd (λ s, set_max_snd_wnd (Z.max (seg_window g) (max_snd_wnd s)) (set_snd_wnd (seg_window g) s)) ;;
    match st with
    | TCP_SYN_SENT => OnSynSent g
    | TCP_ESTABLISHED => OnEstablished g
    | TCP_FIN_WAIT_1 => OnFinWait1 g
    | TCP_FIN_WAIT_2 => OnFinWait2 g
    | TCP_LAST_ACK => OnLastAck g
    | TCP_CLOSING => OnClosing g
    | TCP_SYN_RCVD => OnSynRcvd g
    | TCP_CLOSE_WAIT => OnCloseWait g
    | TCP_TIME_WAIT => if has (seg_flags g) TCP_FIN then TcpOutput TCP_ACK 0 ;; TcpEnterTimeWait else ret tt
    | TCP_CLOSED | TCP_LISTENING => ret tt
    end ;;
    let! a := gets (λ n, active (n_pcb n)) in
    let! st := get_state in
    if a then
      match st with
      | TCP_ESTABLISHED | TCP_CLOSE_WAIT | TCP_FIN_WAIT_1 | TCP_LAST_ACK => TcpXmit ;; ret tt
      | _ => ret tt
      end
    else ret tt.
