(* ===== verification/TcpInv.v ===== *)
(** The invariant of a TCP connection and that the functions of tcp_out.c and the client's calls keep it.

    Positions count the bytes of a stream from 0; position [x] of a stream that starts at sequence
    number [base] has the sequence number [base + x] modulo 2^32.  [snd_ok] describes the send side
    for the bytes taken from the client, [rcv_ok] the receive side for the stream [peer] that the
    other side sends, [cc_ok] the congestion window.  [conn] puts them together for a connection
    after the handshake, with the segments it has sent; [ok] adds what holds between functions. *)
From S2P Require Import Prelude Str Ring Tcp.

#[local] Open Scope Z_scope.

(** * Sequence numbers *)

Lemma seq_diff base x y : - 2 ^ 31 ≤ x - y < 2 ^ 31 → s32 (w32 (base + x) - w32 (base + y)) = x - y.
Proof.
  intros Hd. unfold s32. assert (w32 (w32 (base + x) - w32 (base + y)) = w32 (x - y)) as ->.
  { unfold w32. rewrite <- Zminus_mod. f_equal. lia. }
  unfold w32. case_if E; Z.div_mod_to_equations; lia.
Qed.
Lemma SeqLt_pos base x y : - 2 ^ 31 ≤ x - y < 2 ^ 31 → SeqLt (w32 (base + x)) (w32 (base + y)) = (x <? y).
Proof. intros Hd. unfold SeqLt. rewrite seq_diff by done. destruct (Z.ltb_spec (x - y) 0), (Z.ltb_spec x y); (done || lia). Qed.
Lemma SeqLeq_pos base x y : - 2 ^ 31 ≤ x - y < 2 ^ 31 → SeqLeq (w32 (base + x)) (w32 (base + y)) = (x <=? y).
Proof. intros Hd. unfold SeqLeq. rewrite seq_diff by done. destruct (Z.leb_spec (x - y) 0), (Z.leb_spec x y); (done || lia). Qed.
Lemma SeqMax_pos base x y : - 2 ^ 31 ≤ x - y < 2 ^ 31 → SeqMax (w32 (base + x)) (w32 (base + y)) = w32 (base + Z.max x y).
Proof. intros Hd. unfold SeqMax. rewrite SeqLt_pos by done. case_if E; f_equal; lia. Qed.
Lemma seq_sub base x y : 0 ≤ x - y < 2 ^ 32 → w32 (w32 (base + x) - w32 (base + y)) = x - y.
Proof. intros Hd. unfold w32. rewrite <- Zminus_mod. replace (base + x - (base + y)) with (x - y) by lia. apply Z.mod_small. lia. Qed.
Lemma seq_add base x k : w32 (w32 (base + x) + k) = w32 (base + (x + k)).
Proof. unfold w32. rewrite Zplus_mod_idemp_l. f_equal. lia. Qed.
Lemma seq_eq base x y : - 2 ^ 32 < x - y < 2 ^ 32 → (w32 (base + x) =? w32 (base + y)) = (x =? y).
Proof.
  intros Hd. destruct (Z.eqb_spec x y) as [->|Hne]; [apply Z.eqb_refl|]. apply Z.eqb_neq. intros E. apply Hne. unfold w32 in E. Z.div_mod_to_equations. lia.
Qed.
(** Every 32-bit number is a position near a given one. *)
Lemma seq_near base x q : 0 ≤ q < 2 ^ 32 → ∃ y, q = w32 (base + y) ∧ - 2 ^ 31 ≤ y - x < 2 ^ 31.
Proof.
  intros Hq. exists (x + s32 (q - w32 (base + x))). unfold s32, w32. split; [|case_if E; Z.div_mod_to_equations; lia].
  case_if E; Z.div_mod_to_equations; lia.
Qed.

(** [tcp_steps] runs straight-line code over the connection's state. *)
Ltac tcp_step :=
  lazymatch goal with
  | |- wp (get_rcv _) _ _ => apply wp_gets
  | |- wp (get_snd _) _ _ => apply wp_gets
  | |- wp (get_cc _) _ _ => apply wp_gets
  | |- wp (get_rtt _) _ _ => apply wp_gets
  | |- wp (get_tm _) _ _ => apply wp_gets
  | |- wp get_state _ _ => apply wp_gets
  | |- wp NetNowMs _ _ => apply wp_gets
  | |- wp (upd_rcv _) _ _ => apply wp_modify
  | |- wp (upd_snd _) _ _ => apply wp_modify
  | |- wp (upd_cc _) _ _ => apply wp_modify
  | |- wp (upd_rtt _) _ _ => apply wp_modify
  | |- wp (upd_tm _) _ _ => apply wp_modify
  | |- wp (goto_state _) _ _ => apply wp_modify
  | |- wp _ _ _ => wp_step
  end.
Ltac tcp_steps := repeat tcp_step; cbv beta; unfold id.

(** * Rings *)

Definition BUF : Z := 32768.
Lemma buf_ring : ring_size BUF.
Proof. exists 15. split; [lia|done]. Qed.
Lemma copy_in_eq buf seq bytes : copy_in buf BUF seq bytes = ShmRingWriteAt buf BUF seq bytes.
Proof.
  unfold copy_in, ShmRingWriteAt. rewrite ring_mask by apply buf_ring. pose proof (Z.mod_pos_bound seq BUF ltac:(done)). set (n := Z.of_nat (length bytes)).
  replace (if n <? BUF - seq mod BUF then n else BUF - seq mod BUF) with (Z.min n (BUF - seq mod BUF)) by (case_if E; lia).
  destruct (Z.ltb_spec (Z.min n (BUF - seq mod BUF)) n); [done|]. rewrite drop_ge by lia. done.
Qed.
Lemma copy_out_eq buf seq len : 0 ≤ len → copy_out buf BUF seq len = ShmRingReadAt buf BUF seq len.
Proof.
  intros Hlen. unfold copy_out, ShmRingReadAt. rewrite ring_mask by apply buf_ring. pose proof (Z.mod_pos_bound seq BUF ltac:(done)).
  replace (if len <? BUF - seq mod BUF then len else BUF - seq mod BUF) with (Z.min len (BUF - seq mod BUF)) by (case_if E; lia).
  destruct (Z.ltb_spec (Z.min len (BUF - seq mod BUF)) len); [done|]. f_equal. replace (len - _) with 0 by lia. done.
Qed.

(** [n] bytes of a stream from position [p]. *)
Definition slice (S : list Z) (p n : Z) : list Z := take (Z.to_nat n) (drop (Z.to_nat p) S).
Notation zlen l := (Z.of_nat (length l)).
Lemma slice_lookup S p n i x : 0 ≤ p → slice S p n !! i = Some x ↔ Z.of_nat i < n ∧ S !! (Z.to_nat p + i)%nat = Some x.
Proof.
  intros Hp. unfold slice. rewrite lookup_take_Some, lookup_drop. split; intros [H1 H2]; split; (done || lia).
Qed.
Lemma length_slice S p n : 0 ≤ p → 0 ≤ n → p + n ≤ zlen S → zlen (slice S p n) = n.
Proof. intros. unfold slice. rewrite length_take, length_drop. lia. Qed.
Lemma slice_take S p n : 0 ≤ p → 0 ≤ n → take (Z.to_nat p) S ++ slice S p n = take (Z.to_nat (p + n)) S.
Proof. intros. unfold slice. rewrite Z2Nat.inj_add by done. by rewrite take_take_drop. Qed.
Lemma slice_slice S p n k : 0 ≤ p → 0 ≤ k ≤ n → take (Z.to_nat k) (slice S p n) = slice S p k.
Proof. intros. unfold slice. rewrite take_take. f_equal. lia. Qed.

(** Byte [i] of the stream is in its place. *)
Definition placed (base : Z) (S : list Z) (m : mem) (i : Z) : Prop :=
  ∀ x, 0 ≤ i → S !! Z.to_nat i = Some x → m ((base + i) mod BUF) = x.

Lemma w32_mod_buf x : w32 x mod BUF = x mod BUF.
Proof. apply ring_mod_w32, buf_ring. Qed.
Lemma seq_mod base x k : (w32 (base + x) + k) mod BUF = (base + (x + k)) mod BUF.
Proof. rewrite <- Zplus_mod_idemp_l, w32_mod_buf, Zplus_mod_idemp_l. f_equal. lia. Qed.

(** Writing a piece of the stream puts it in place and leaves what is within one ring's length of it. *)
Lemma placed_copy base S m lo p n i : 0 ≤ lo → lo ≤ p → 0 ≤ n → p + n ≤ lo + BUF → p + n ≤ zlen S →
  lo ≤ i < lo + BUF → (placed base S m i ∨ p ≤ i < p + n) →
  placed base S (copy_in m BUF (w32 (base + p)) (slice S p n)) i.
Proof.
  intros Hlo Hp Hn Hroom HS Hi Hor x Hi0 Hx. rewrite copy_in_eq. assert (zlen (slice S p n) = n) as Hl by (apply length_slice; lia).
  destruct (decide (p ≤ i < p + n)) as [Hin|Hout].
  - rewrite <- (writeat_in m BUF (w32 (base + p)) (slice S p n) (Z.to_nat (i - p)) x buf_ring); [|lia|].
    + f_equal. rewrite seq_mod. f_equal. lia.
    + apply slice_lookup; [lia|]. split; [lia|]. rewrite <- Hx. f_equal. lia.
  - destruct Hor as [Hm|]; [|done]. rewrite writeat_out; [by apply Hm|apply buf_ring|lia|]. intros j Hj E. rewrite seq_mod in E.
    assert (i = p + Z.of_nat j); [|lia]. unfold BUF in *. Z.div_mod_to_equations. lia.
Qed.
(** Reading a piece that is in place. *)
Lemma copy_placed base S m p n : 0 ≤ p → 0 ≤ n ≤ BUF → p + n ≤ zlen S → (∀ i, p ≤ i < p + n → placed base S m i) →
  copy_out m BUF (w32 (base + p)) n = slice S p n.
Proof.
  intros Hp Hn HS Hm. rewrite copy_out_eq, readat_plan by lia. apply list_eq. intros i. rewrite list_lookup_fmap.
  destruct (ring_offsets BUF (w32 (base + p)) n !! i) as [o|] eqn:Eo; simpl.
  - pose proof (lookup_lt_Some _ _ _ Eo) as Hi. rewrite length_offsets in Hi by (apply buf_ring || lia).
    rewrite (offsets_lookup BUF _ n i o buf_ring (proj2 Hn) Eo), seq_mod. destruct (lookup_lt_is_Some_2 S (Z.to_nat p + i)%nat ltac:(lia)) as [x Hx].
    rewrite (Hm (p + Z.of_nat i)) with (x := x); [|lia|lia|rewrite <- Hx; f_equal; lia]. symmetry. apply slice_lookup; [done|]. split; [lia|done].
  - apply lookup_ge_None in Eo. rewrite length_offsets in Eo by (apply buf_ring || lia). symmetry. apply lookup_ge_None.
    assert (zlen (slice S p n) = n) by (apply length_slice; lia). lia.
Qed.

(** * The invariant *)

(** Positions: of [snd_una], [snd_nxt], [snd_max] and [recover] in the stream sent, of [rcv_nxt]
    (the FIN not counted), [rcv_rsq] and [rcv_adv] and of the ranges in the stream received. *)
Record pos := Pos { una_at : Z; nxt_at : Z; max_at : Z; rec_at : Z; got_at : Z; read_at : Z; adv_at : Z; held : list (Z * Z) }.

(** A stream is shorter than this when a segment arrives: sequence numbers are then unambiguous. *)
Definition STREAM_MAX : Z := 2 ^ 31 - 2 ^ 17.

(** Ranges held for later: in order, not empty, apart from each other and from what is received, up to [top]. *)
Fixpoint apart (lo top : Z) (l : list (Z * Z)) : Prop :=
  match l with [] => True | x :: l' => lo < x.1 < x.2 ∧ x.2 ≤ top ∧ apart x.2 top l' end.
(** The positions that ranges hold. *)
Definition covers (l : list (Z * Z)) (i : Z) : Prop := Exists (λ x, x.1 ≤ i < x.2) l.
Lemma apart_top lo top top' l : top ≤ top' → apart lo top l → apart lo top' l.
Proof. intros Ht. revert lo. induction l as [|x l IH]; intros lo; simpl; [done|]. intros (? & ? & ?). split; [done|]. split; [lia|by apply IH]. Qed.
Lemma apart_full lo top l : top ≤ lo → apart lo top l → l = [].
Proof. intros Ht. destruct l as [|x l]; [done|]. simpl. lia. Qed.
Lemma apart_covers lo top l i : apart lo top l → covers l i → lo < i < top.
Proof.
  revert lo. induction l as [|x l IH]; intros lo; simpl; [by intros _ ?%Exists_nil|]. intros (? & ? & Ha) [Hi|Hi]%Exists_cons; [lia|].
  specialize (IH _ Ha Hi). lia.
Qed.

Section invariant.
(** Sequence numbers of the first byte sent and the first byte received; the stream of the peer,
    whether the peer has closed it, and the position up to which the peer has received ours. *)
Context (base pbase : Z) (peer : list Z) (closed : bool) (lim : Z).

Record snd_ok (T : list Z) (s : sndq) (k : pos) : Prop := {
  so_nxt : snd_nxt s = w32 (base + nxt_at k);
  so_una : snd_una s = w32 (base + una_at k);
  so_max : snd_max s = w32 (base + max_at k);
  so_ord : 0 ≤ una_at k ≤ max_at k ∧ una_at k - 1 ≤ nxt_at k ≤ max_at k;
  so_top : max_at k ≤ zlen T + b2z (fin_pending s);
  so_lim : una_at k ≤ lim;
  so_size : snd_size s = BUF;
  so_mss : 0 < snd_mss s ≤ TCP_MSS;
  so_wnd : 0 ≤ snd_wnd s < 2 ^ 16 ∧ 0 ≤ max_snd_wnd s;
  so_buf : buffered_bytes s = zlen T - Z.min (una_at k) (zlen T);
  so_room : buffered_bytes s ≤ BUF;
  so_data : 0 < buffered_bytes s → ∃ m, snd_buf s = Some m ∧ ∀ i, una_at k ≤ i < zlen T → placed base T m i;
}.
(** Between the functions: [snd_nxt] is not before [snd_una], and the FIN is marked as sent when it has been. *)
Definition settled (T : list Z) (s : sndq) (k : pos) : Prop :=
  una_at k ≤ nxt_at k ∧ (fin_sent s = true → fin_pending s = true ∧ max_at k = zlen T + 1) ∧ (max_at k = zlen T + 1 → fin_sent s = true).

Record cc_ok (c : cctl) (k : pos) : Prop := {
  co_recover : recover c = w32 (base + rec_at k);
  co_pos : -1 ≤ rec_at k ≤ max_at k;
  co_thresh : 0 < ssthresh c < 2 ^ 32;
  co_cwnd : 0 ≤ cwnd c < 2 ^ 32;
  co_open : in_recovery c = false → 0 < cwnd c ≤ 2 ^ 17;
}.

(** [live]: the connection has its receive buffer. *)
Record rcv_ok (live : bool) (r : rcvq) (gv : list Z) (k : pos) : Prop := {
  ro_nxt : rcv_nxt r = w32 (pbase + (got_at k + b2z (fin_rcvd r)));
  ro_rsq : rcv_rsq r = w32 (pbase + read_at k);
  ro_adv : rcv_adv r = w32 (pbase + adv_at k);
  ro_ord : 0 ≤ read_at k ≤ got_at k ∧ got_at k ≤ Z.min (zlen peer) (read_at k + BUF);
  ro_win : got_at k ≤ adv_at k ≤ read_at k + BUF + b2z (fin_rcvd r);
  ro_size : rcv_size r = BUF;
  ro_given : gv = take (Z.to_nat (read_at k)) peer;
  ro_ranges : ranges r = (λ x, (w32 (pbase + x.1), w32 (pbase + x.2))) <$> held k;
  ro_count : zlen (held k) ≤ TCP_OOO_MAX;
  ro_apart : apart (got_at k) (Z.min (zlen peer) (adv_at k)) (held k);
  ro_data : live = true → ∃ m, rcv_buf r = Some m ∧
    ∀ i, read_at k ≤ i < got_at k ∨ covers (held k) i → placed pbase peer m i;
  ro_seen : fin_seen r = true → closed = true ∧ fin_seq r = w32 (pbase + zlen peer);
  ro_fin : fin_rcvd r = true → fin_seen r = true ∧ got_at k = zlen peer;
}.
End invariant.

(** A segment of the stream [T] that starts at [base]; [got] is the position up to which its sender
    has received the stream of the other direction. *)
Record genuine (base pbase : Z) (T : list Z) (closed : bool) (got : Z) (g : TcpSegment) (p : Z) : Prop := {
  gn_seq : seg_seq g = w32 (base + p);
  gn_pos : -1 ≤ p ≤ zlen T + 1;
  gn_load : payload g = slice T p (payload_len g);
  gn_end : payload_len g = 0 ∨ 0 ≤ p ∧ p + payload_len g ≤ zlen T;
  gn_fin : has (seg_flags g) TCP_FIN = true → closed = true ∧ p + payload_len g = zlen T;
  gn_len : payload_len g ≤ TCP_MSS;
  gn_win : 0 ≤ seg_window g < 2 ^ 16;
  gn_ack : has (seg_flags g) TCP_ACK = true → ∃ q, seg_ack g = w32 (pbase + q) ∧ 0 ≤ q ≤ got;
  gn_rst : has (seg_flags g) TCP_RST = false;
}.
Definition wire_ok (base pbase : Z) (T : list Z) (closed : bool) (got : Z) (w : list TcpSegment) : Prop :=
  Forall (λ g, ∃ p, genuine base pbase T closed got g p) w.

(** Streams only grow, until they are closed. *)
Lemma slice_app T T2 p n : 0 ≤ n → n = 0 ∨ 0 ≤ p ∧ p + n ≤ zlen T → slice (T ++ T2) p n = slice T p n.
Proof.
  intros Hn [->|[Hp He]]; [done|]. unfold slice. rewrite drop_app_le by lia. rewrite take_app_le; [done|]. rewrite length_drop. lia.
Qed.
Lemma placed_app base T T2 m i : i < zlen T → placed base T m i → placed base (T ++ T2) m i.
Proof. intros Hi Hp x Hi0 Hx. apply Hp; [done|]. rewrite lookup_app_l in Hx by lia. done. Qed.
Lemma genuine_mono base pbase T closed got T2 closed' got' g p : genuine base pbase T closed got g p →
  (closed = true → closed' = true ∧ T2 = []) → got ≤ got' → genuine base pbase (T ++ T2) closed' got' g p.
Proof.
  intros [] Hc Hg. split; try done; rewrite ?length_app, ?Nat2Z.inj_add.
  - lia.
  - rewrite slice_app; [done|unfold payload_len; lia|done].
  - destruct gn_end0; [by left|right; lia].
  - intros Hf. destruct (gn_fin0 Hf) as [Hcl He]. destruct (Hc Hcl) as [-> ->]. split; [done|]. simpl. lia.
  - intros Ha. destruct (gn_ack0 Ha) as (q & ? & ?). exists q. split; [done|lia].
Qed.
Lemma wire_mono base pbase T closed got T2 closed' got' w : wire_ok base pbase T closed got w →
  (closed = true → closed' = true ∧ T2 = []) → got ≤ got' → wire_ok base pbase (T ++ T2) closed' got' w.
Proof. intros Hw Hc Hg. eapply Forall_impl; [exact Hw|]. intros g [p Hp]. exists p. by eapply genuine_mono. Qed.
Lemma rcv_mono pbase peer closed live r gv k P2 closed' : rcv_ok pbase peer closed live r gv k →
  (closed = true → closed' = true ∧ P2 = []) → rcv_ok pbase (peer ++ P2) closed' live r gv k.
Proof.
  intros [] Hc. split; try done.
  - rewrite length_app. lia.
  - rewrite take_app_le; [done|lia].
  - eapply apart_top; [|exact ro_apart0]. rewrite length_app. lia.
  - intros Hl. destruct (ro_data0 Hl) as (m & Em & Hm). exists m. split; [done|]. intros i Hi. apply placed_app; [|by apply Hm].
    destruct Hi as [Hi|Hi]; [lia|]. apply (apart_covers _ _ _ _ ro_apart0) in Hi. lia.
  - intros Hs. destruct (ro_seen0 Hs) as [Hcl ->]. destruct (Hc Hcl) as [-> ->]. by rewrite app_nil_r.
  - intros Hf. destruct (ro_fin0 Hf) as [Hs ->]. split; [done|]. destruct (ro_seen0 Hs) as [Hcl _]. destruct (Hc Hcl) as [_ ->]. by rewrite app_nil_r.
Qed.

(** States after the handshake, and those in which the client has closed. *)
Definition synced (st : TcpState) : bool :=
  match st with
  | TCP_ESTABLISHED | TCP_FIN_WAIT_1 | TCP_FIN_WAIT_2 | TCP_TIME_WAIT | TCP_CLOSE_WAIT | TCP_LAST_ACK | TCP_CLOSING => true
  | _ => false
  end.
Definition closing (st : TcpState) : bool :=
  match st with TCP_FIN_WAIT_1 | TCP_FIN_WAIT_2 | TCP_TIME_WAIT | TCP_LAST_ACK | TCP_CLOSING => true | _ => false end.
Definition all_acked (st : TcpState) : bool := match st with TCP_FIN_WAIT_2 | TCP_TIME_WAIT => true | _ => false end.
Record st_ok (st : TcpState) (T : list Z) (s : sndq) (k : pos) : Prop := {
  st_synced : synced st = true;
  st_closing : fin_pending s = closing st;
  st_acked : all_acked st = true → una_at k = zlen T + 1;
}.

(** The position up to which the peer's stream, with its end, has been received. *)
Definition got (r : rcvq) (k : pos) : Z := got_at k + b2z (fin_rcvd r).

Section connection.
Context (base pbase : Z) (peer : list Z) (closed : bool) (lim : Z).

(** A connection that has not been released. *)
Record conn (n : net) (k : pos) : Prop := {
  c_tx : tx_results n = [];
  c_active : active (n_pcb n) = true;
  c_st : st_ok (state (n_pcb n)) (taken n) (p_snd (n_pcb n)) k;
  c_snd : snd_ok base lim (taken n) (p_snd (n_pcb n)) k;
  c_cc : cc_ok base (p_cc (n_pcb n)) k;
  c_rcv : rcv_ok pbase peer closed (negb (is_state (state (n_pcb n)) TCP_TIME_WAIT)) (p_rcv (n_pcb n)) (given n) k;
  c_wire : wire_ok base pbase (taken n) (fin_pending (p_snd (n_pcb n))) (got (p_rcv (n_pcb n)) k) (wire n);
}.

(** ** TcpWindow *)

Definition set_adv_at v k := Pos (una_at k) (nxt_at k) (max_at k) (rec_at k) (got_at k) (read_at k) v (held k).
Lemma TcpWindow_ok live n gv k : rcv_ok pbase peer closed live (p_rcv (n_pcb n)) gv k →
  ∃ v win, 0 ≤ win < 2 ^ 16 ∧
    TcpWindow n = Ok (win, set_n_pcb (set_p_rcv (set_rcv_adv (w32 (pbase + v)) (p_rcv (n_pcb n))) (n_pcb n)) n) ∧
    rcv_ok pbase peer closed live (set_rcv_adv (w32 (pbase + v)) (p_rcv (n_pcb n))) gv (set_adv_at v k).
Proof.
  intros H. destruct H. destruct (p_rcv (n_pcb n)) as [nxt rsq adv rng buf size fs seen rcvd] eqn:Er. simpl in *. subst nxt rsq adv size.
  set (f := b2z rcvd) in *. assert (0 ≤ f ≤ 1) by (unfold f; destruct rcvd; simpl; lia).
  set (e := if (adv_at k <? read_at k + BUF) && (read_at k + BUF - adv_at k <? Z.min (BUF / 2) (snd_mss (p_snd (n_pcb n)))) then adv_at k else read_at k + BUF).
  assert (f = 0 → adv_at k ≤ e) by (unfold e; case_if E; lia). assert (read_at k ≤ e ≤ read_at k + BUF + f) by (unfold e, BUF; case_if E; lia).
  exists (Z.max e (got_at k + f)), (Z.max e (got_at k + f) - (got_at k + f)). unfold BUF in *. split; [lia|]. split.
  - unfold TcpWindow, get_rcv, get_snd, gets, bind. rewrite Er. simpl. rewrite seq_add. rewrite SeqLt_pos by lia.
    assert ((if (adv_at k <? read_at k + 32768) && (w32 (w32 (pbase + (read_at k + 32768)) - w32 (pbase + adv_at k)) <? Z.min (32768 / 2) (snd_mss (p_snd (n_pcb n))))
             then w32 (pbase + adv_at k) else w32 (pbase + (read_at k + 32768))) = w32 (pbase + e)) as ->.
    { unfold e. destruct (Z.ltb_spec (adv_at k) (read_at k + 32768)); [|done]. rewrite seq_sub by lia. simpl. by case_if E. }
    rewrite SeqLt_pos by lia. unfold upd_rcv, upd, modify, ret. rewrite Er.
    assert ((if got_at k + f <? e then w16 (w32 (pbase + e) - w32 (pbase + (got_at k + f))) else 0) = Z.max e (got_at k + f) - (got_at k + f)) as ->.
    { destruct (Z.ltb_spec (got_at k + f) e); [|lia]. unfold w16, w32. Z.div_mod_to_equations. lia. }
    rewrite seq_add. do 5 f_equal. unfold set_rcv_adv. simpl. do 3 f_equal. lia.
  - split; simpl; try done; [fold f; unfold BUF; lia|].
    destruct rcvd; simpl in *; [|eapply apart_top; [|exact ro_apart0]; lia]. destruct (ro_fin0 eq_refl) as [_ E].
    rewrite (apart_full (got_at k) (Z.min (zlen peer) (adv_at k)) (held k)); [done|lia|done].
Qed.

(** ** TcpOutput *)

Definition sent_net (nx mx adv : Z) (g : TcpSegment) (n : net) : net :=
  let p := n_pcb n in
  set_wire (wire n ++ [g])
    (set_n_pcb (set_p_snd (set_snd_max mx (set_snd_nxt nx (p_snd p))) (set_p_rcv (set_rcv_adv adv (p_rcv p)) p)) n).
Definition sent_at (len v : Z) (k : pos) : pos :=
  Pos (una_at k) (nxt_at k + len) (Z.max (max_at k) (nxt_at k + len)) (rec_at k) (got_at k) (read_at k) v (held k).
Definition FLAGS (fin : bool) : Z := if fin then 17 else 16.

(** The bytes that are read from the send buffer. *)
Lemma TcpCopyOut_ok n k len : snd_ok base lim (taken n) (p_snd (n_pcb n)) k → 0 < len → una_at k ≤ nxt_at k → nxt_at k + len ≤ zlen (taken n) →
  TcpCopyOut (w32 (base + nxt_at k)) len n = Ok (slice (taken n) (nxt_at k) len, n).
Proof.
  intros [] Hlen Hu Hend. destruct so_data0 as (m & Em & Hm); [lia|]. unfold TcpCopyOut, get_snd, gets, bind, the_buf, ret. rewrite Em, so_size0. simpl.
  do 2 f_equal. apply copy_placed; [lia|lia|done|]. intros i Hi. apply Hm. lia.
Qed.

Lemma TcpOutput_ok n k fin len : conn n k → 0 ≤ len ≤ TCP_MSS →
  (0 < len → una_at k ≤ nxt_at k ∧ nxt_at k + len ≤ zlen (taken n)) →
  (fin = true → fin_pending (p_snd (n_pcb n)) = true ∧ nxt_at k + len = zlen (taken n)) →
  ∃ v g, let x := len + b2z fin in
    TcpOutput (FLAGS fin) len n =
      Ok (ZUZU_OK, sent_net (w32 (base + (nxt_at k + x))) (w32 (base + Z.max (max_at k) (nxt_at k + x))) (w32 (pbase + v)) g n) ∧
    conn (sent_net (w32 (base + (nxt_at k + x))) (w32 (base + Z.max (max_at k) (nxt_at k + x))) (w32 (pbase + v)) g n) (sent_at x v k).
Proof.
  intros [Htx Hact Hst Hsnd Hcc Hrcv Hwire] Hlen Hdata Hfin.
  destruct (TcpWindow_ok _ _ _ _ Hrcv) as (v & win & Hwin & Ewin & Hrcv').
  set (g := Segment (w32 (base + nxt_at k)) (rcv_nxt (p_rcv (n_pcb n))) (FLAGS fin) (slice (taken n) (nxt_at k) len) win None).
  exists v, g. intros x. assert (0 ≤ b2z fin ≤ 1) by (destruct fin; simpl; lia). pose proof (so_ord _ _ _ _ _ Hsnd). pose proof (so_top _ _ _ _ _ Hsnd).
  pose proof (so_room _ _ _ _ _ Hsnd) as Hroom. rewrite (so_buf _ _ _ _ _ Hsnd) in Hroom. unfold BUF in Hroom.
  assert (0 ≤ b2z (fin_pending (p_snd (n_pcb n))) ≤ 1) by (destruct (fin_pending _); simpl; lia).
  assert (payload_len g = len) as Hpl.
  { unfold payload_len, g. simpl. destruct (decide (len = 0)) as [->|]; [unfold slice; simpl; done|]. apply length_slice; lia. }
  split.
  - unfold TcpOutput, next_tx, bind at 1. rewrite Htx. simpl. replace (has (FLAGS fin) TCP_SYN) with false by (by destruct fin).
    replace (has (FLAGS fin) TCP_ACK) with true by (by destruct fin). replace (has (FLAGS fin) TCP_FIN) with fin by (by destruct fin).
    unfold opt_len. replace (has (FLAGS fin) TCP_SYN) with false by (by destruct fin).
    unfold TX_HEADROOM, NIC_FRAME_SIZE, TCP_MSS in *. replace (1536 <? _) with false by (symmetry; apply Z.ltb_ge; lia).
    unfold get_snd, get_rcv, gets. unfold bind at 1 2 3. rewrite Ewin, (so_nxt _ _ _ _ _ Hsnd). unfold bind at 1.
    match goal with |- context [?t (set_n_pcb (set_p_rcv (set_rcv_adv ?a ?r) ?p) n)] =>
      assert (t (set_n_pcb (set_p_rcv (set_rcv_adv a r) p) n) = Ok (slice (taken n) (nxt_at k) len, set_n_pcb (set_p_rcv (set_rcv_adv a r) p) n)) as -> end.
    { destruct (decide (len = 0)) as [->|]; [done|]. unfold truthy. replace (len =? 0) with false by (symmetry; apply Z.eqb_neq; done).
      apply (TcpCopyOut_ok (set_n_pcb _ n)); simpl; [done|lia..]. }
    simpl. unfold bind, modify, upd_snd, upd, when, ret. simpl. unfold modify. rewrite (so_nxt _ _ _ _ _ Hsnd), (so_max _ _ _ _ _ Hsnd).
    replace (w32 (w32 (base + nxt_at k) + len + 0 + b2z fin)) with (w32 (base + (nxt_at k + x))) by (rewrite <- seq_add; f_equal; unfold x; lia).
    rewrite SeqLt_pos by lia. unfold sent_net. simpl. destruct (Z.ltb_spec (max_at k) (nxt_at k + x)).
    + rewrite Z.max_r by lia. done.
    + rewrite Z.max_l by lia. rewrite <- (so_max _ _ _ _ _ Hsnd). by destruct (p_snd (n_pcb n)).
  - split; simpl; try done.
    + by destruct Hst; split.
    + destruct Hsnd; split; simpl; try done; [unfold x; lia|]. destruct fin; unfold x; simpl.
      * destruct (Hfin eq_refl) as [-> He]. simpl. lia.
      * destruct (decide (len = 0)); lia.
    + destruct Hcc; split; simpl; (done || lia).
    + by destruct Hrcv'; split.
    + apply Forall_app. split; [done|]. apply Forall_singleton. exists (nxt_at k). destruct Hrcv, Hst. unfold got. simpl.
      split; simpl; rewrite ?Hpl; try done; [lia| | |lia| |by destruct fin].
      * destruct (decide (len = 0)); [by left|right]. lia.
      * intros Hf. destruct fin; [|done]. by apply Hfin.
      * intros _. eexists. split; [done|]. unfold b2z. destruct (fin_rcvd _); lia.
Qed.
Lemma wp_output n k fin len (P : Z → net → Prop) : conn n k → 0 ≤ len ≤ TCP_MSS →
  (0 < len → una_at k ≤ nxt_at k ∧ nxt_at k + len ≤ zlen (taken n)) →
  (fin = true → fin_pending (p_snd (n_pcb n)) = true ∧ nxt_at k + len = zlen (taken n)) →
  (∀ v g nx mx adv, nx = w32 (base + (nxt_at k + (len + b2z fin))) →
     conn (sent_net nx mx adv g n) (sent_at (len + b2z fin) v k) → P ZUZU_OK (sent_net nx mx adv g n)) →
  wp (TcpOutput (FLAGS fin) len) P n.
Proof. intros Hc Hl Hd Hf HP. destruct (TcpOutput_ok n k fin len Hc Hl Hd Hf) as (v & g & E & Hc'). eapply wp_of; [exact E|]. by eapply HP. Qed.

(** What the functions that send and the client's calls leave alone. *)
Definition moves (st st' : TcpState) : Prop :=
  st' = st ∨ (st = TCP_ESTABLISHED ∧ st' = TCP_FIN_WAIT_1) ∨ (st = TCP_CLOSE_WAIT ∧ st' = TCP_LAST_ACK).
Record ext (n : net) (k : pos) (n' : net) (k' : pos) : Prop := {
  e_una : una_at k' = una_at k;
  e_max : max_at k ≤ max_at k';
  e_rec : rec_at k' = rec_at k;
  e_got : got_at k' = got_at k;
  e_held : held k' = held k;
  e_rcv : ∃ q a, p_rcv (n_pcb n') = set_rcv_adv a (set_rcv_rsq q (p_rcv (n_pcb n)));
  e_cc : p_cc (n_pcb n') = p_cc (n_pcb n);
  e_mss : snd_mss (p_snd (n_pcb n')) = snd_mss (p_snd (n_pcb n));
  e_state : moves (state (n_pcb n)) (state (n_pcb n'));
  e_taken : taken n `prefix_of` taken n';
  e_frozen : fin_pending (p_snd (n_pcb n)) = true → fin_pending (p_snd (n_pcb n')) = true ∧ taken n' = taken n;
}.
#[local] Hint Resolve Z.le_refl : core.
Lemma set_rcv_same r : r = set_rcv_adv (rcv_adv r) (set_rcv_rsq (rcv_rsq r) r).
Proof. by destruct r. Qed.
Lemma ext_refl n k : ext n k n k.
Proof. split; try done; [do 2 eexists; apply set_rcv_same|by left]. Qed.
Lemma ext_trans n k n1 k1 n2 k2 : ext n k n1 k1 → ext n1 k1 n2 k2 → ext n k n2 k2.
Proof.
  intros [] []. split; try congruence; [lia| | |by etrans|].
  - destruct e_rcv0 as (q & a & E), e_rcv1 as (q' & a' & ->). rewrite E. by exists q', a'.
  - unfold moves in *. clear -e_state0 e_state1. intuition congruence.
  - intros Hp. destruct (e_frozen0 Hp) as [Hp' E]. destruct (e_frozen1 Hp') as [Hp2 E2]. split; congruence.
Qed.

(** A state that is as the invariant says, between functions. *)
Definition ok (n : net) (k : pos) : Prop := conn n k ∧ settled (taken n) (p_snd (n_pcb n)) k.
(** [m] keeps the invariant and leaves alone what [ext] says. *)
Definition keeps {A} (m : TM A) : Prop := ∀ n k, ok n k → wp m (λ _ n', ∃ k', ok n' k' ∧ ext n k n' k') n.

(** ** TcpXmit *)

Lemma una_buffered n k : snd_ok base lim (taken n) (p_snd (n_pcb n)) k →
  w32 (snd_una (p_snd (n_pcb n)) + buffered_bytes (p_snd (n_pcb n))) = w32 (base + Z.max (una_at k) (zlen (taken n))).
Proof. intros []. rewrite so_una0, so_buf0, seq_add. f_equal. lia. Qed.

Lemma xmit_next_ok n k cw len : snd_ok base lim (taken n) (p_snd (n_pcb n)) k → una_at k ≤ nxt_at k → 0 ≤ cw →
  xmit_next (p_snd (n_pcb n)) cw = Some len → 0 < len ≤ TCP_MSS ∧ nxt_at k + len ≤ zlen (taken n).
Proof.
  intros Hs Hu Hcw. pose proof (una_buffered n k Hs) as E. destruct Hs. unfold BUF in *. assert (b2z (fin_pending (p_snd (n_pcb n))) ≤ 1) by (destruct (fin_pending _); simpl; lia).
  unfold xmit_next. rewrite E, so_nxt0, so_una0, seq_add, !SeqLeq_pos by lia.
  case_if E1; [done|]. case_if E2; [done|]. rewrite !seq_sub by lia. set (l := Z.min _ _). case_if E3; [done|]. case_if E4; [done|]. intros [= <-].
  unfold l in *. lia.
Qed.

(** Updates that the invariant does not look at. *)
Lemma conn_fin_sent n k b : conn n k → conn (set_n_pcb (set_p_snd (set_fin_sent b (p_snd (n_pcb n))) (n_pcb n)) n) k.
Proof. intros []. split; simpl; try done; [by destruct c_st0; split|by destruct c_snd0; split]. Qed.
Lemma ext_fin_sent n k b : ext n k (set_n_pcb (set_p_snd (set_fin_sent b (p_snd (n_pcb n))) (n_pcb n)) n) k.
Proof. by destruct (ext_refl n k); split. Qed.
Lemma ok_rtt n k r : ok n k → ok (set_n_pcb (set_p_rtt r (n_pcb n)) n) k.
Proof. intros [[] Hs]. by split; [split|]. Qed.
Lemma ext_rtt n k n' k' r : ext n k n' k' → ext n k (set_n_pcb (set_p_rtt r (n_pcb n')) n') k'.
Proof. by intros []; split. Qed.
Lemma ok_tm n k r : ok n k → ok (set_n_pcb (set_p_tm r (n_pcb n)) n) k.
Proof. intros [[] Hs]. by split; [split|]. Qed.
Lemma ext_tm n k n' k' r : ext n k n' k' → ext n k (set_n_pcb (set_p_tm r (n_pcb n')) n') k'.
Proof. by intros []; split. Qed.
Lemma ext_sent n k len v nx mx adv g : 0 ≤ len → ext n k (sent_net nx mx adv g n) (sent_at len v k).
Proof. intros Hl. split; simpl; try done; [lia|by exists (rcv_rsq (p_rcv (n_pcb n))), adv; destruct (p_rcv _)|by left]. Qed.

(** A round of the loop marks the FIN as sent and sends. *)
Lemma xmit_round {B} n k len fin (kont : Z → TM B) P : ok n k → 0 < len ≤ TCP_MSS → nxt_at k + len ≤ zlen (taken n) →
  (fin = true → fin_pending (p_snd (n_pcb n)) = true ∧ nxt_at k + len = zlen (taken n)) →
  (∀ n' k', ok n' k' → ext n k n' k' → taken n' = taken n → nxt_at k + len ≤ nxt_at k' → wp (kont ZUZU_OK) P n') →
  wp (when fin (upd_snd (set_fin_sent true)) ;; let! rc := TcpOutput (FLAGS fin) len in kont rc) P n.
Proof.
  intros [Hc (Hu & Hf & Hg)] Hl Hend Hfin HP. assert (0 ≤ b2z fin) by (destruct fin; simpl; lia).
  pose proof (so_top _ _ _ _ _ (c_snd _ _ Hc)) as Htop.
  apply wp_bind, wp_when; intros ->; tcp_steps.
  - destruct (Hfin eq_refl) as [Hp He]. rewrite Hp in Htop. simpl in *. apply (wp_output _ k true); try done; [by apply conn_fin_sent|lia|].
    intros v g nx mx adv _ Hc2. apply (HP _ (sent_at (len + b2z true) v k)); [|eapply ext_trans; [apply ext_fin_sent|apply ext_sent; simpl; lia]|done|simpl; lia].
    split; [done|]. split; simpl; [lia|]. split; [|done]. intros _. split; [done|]. pose proof (so_top _ _ _ _ _ (c_snd _ _ Hc2)) as Ht2. simpl in Ht2. rewrite Hp in Ht2. simpl in Ht2. lia.
  - apply (wp_output _ k false); try done; [lia|]. intros v g nx mx adv _ Hc2. apply (HP _ (sent_at (len + b2z false) v k)); [|apply ext_sent; simpl; lia|done|simpl; lia].
    split; [done|]. split; simpl in *; [lia|]. split; [|intros E; apply Hg; lia]. intros E. destruct (Hf E) as [? ->]. split; [done|lia].
Qed.

Lemma xmit_loop_ok fuel sent n k : ok n k → zlen (taken n) - nxt_at k ≤ Z.of_nat fuel →
  wp (xmit_loop fuel sent) (λ r n', ∃ sent' k', r = inr sent' ∧ ok n' k' ∧ ext n k n' k') n.
Proof.
  revert sent n k. induction fuel as [|fuel IH]; intros sent n k [Hc (Hu & Hf & Hg)] Hfuel; simpl; tcp_steps;
    (destruct (xmit_next _ _) as [len|] eqn:En; [|tcp_steps; exists sent, k; split; [done|]; split; [done|apply ext_refl]]);
    pose proof (conj Hc (conj Hu (conj Hf Hg)) : ok n k) as Hok; apply (xmit_next_ok n k) in En as [Hl Hend]; try apply Hc; try done.
  { lia. }
  set (last := fin_pending _ && _).
  change (if last then Z.lor TCP_ACK TCP_FIN else TCP_ACK) with (FLAGS last). apply (xmit_round n k); try done.
  { intros [Hp He]%andb_prop. destruct Hc as [_ _ _ Hs _ _ _]. rewrite (una_buffered n k Hs), (so_nxt _ _ _ _ _ Hs), seq_add in He. destruct Hs.
    rewrite seq_eq in He by (unfold BUF, TCP_MSS in *; lia). apply Z.eqb_eq in He. split; [done|lia]. }
  intros n2 k2 Hok2 He2 HT Hn. simpl. tcp_steps.
  assert (∀ n3, taken n3 = taken n → ok n3 k2 → ext n k n3 k2 → wp (xmit_loop fuel true) (λ r n', ∃ sent' k', r = inr sent' ∧ ok n' k' ∧ ext n k n' k') n3) as Hlp.
  { intros n3 HT3 Hok3 He3. eapply wp_mono; [apply (IH true n3 k2 Hok3); rewrite HT3; lia|].
    intros r n' (sent' & k' & -> & Hok' & He'). exists sent', k'. split; [done|]. split; [done|by eapply ext_trans]. }
  apply wp_when; intros _; tcp_steps; apply Hlp; auto using ok_rtt, ext_rtt.
Qed.

Lemma keeps_of {B} (m : TM B) n k n' k' : ext n k n' k' → wp m (λ _ n2, ∃ k2, ok n2 k2 ∧ ext n' k' n2 k2) n' → wp m (λ _ n2, ∃ k2, ok n2 k2 ∧ ext n k n2 k2) n'.
Proof. intros He Hm. eapply wp_mono; [exact Hm|]. intros _ n2 (k2 & Hok2 & He2). exists k2. split; [done|by eapply ext_trans]. Qed.
Lemma keeps_bind {B C} (m : TM B) (f : B → TM C) : keeps m → (∀ b, keeps (f b)) → keeps (bind m f).
Proof.
  intros Hm Hf n k Hok. apply wp_bind. eapply wp_mono; [by apply Hm|]. intros b n1 (k1 & Hok1 & He1). by eapply keeps_of, Hf.
Qed.
Lemma keeps_ret {B} (b : B) : keeps (ret b).
Proof. intros n k Hok. apply wp_ret. exists k. split; [done|apply ext_refl]. Qed.
Lemma keeps_gets {B} (f : net → B) : keeps (gets f).
Proof. intros n k Hok. apply wp_gets. exists k. split; [done|apply ext_refl]. Qed.
Lemma keeps_if {B} (b : bool) (m1 m2 : TM B) : keeps m1 → keeps m2 → keeps (if b then m1 else m2).
Proof. by destruct b. Qed.
Lemma keeps_rtt f : keeps (upd_rtt f).
Proof. intros n k Hok. tcp_steps. exists k. split; [by apply ok_rtt|apply ext_rtt, ext_refl]. Qed.
Lemma keeps_tm f : keeps (upd_tm f).
Proof. intros n k Hok. tcp_steps. exists k. split; [by apply ok_tm|apply ext_tm, ext_refl]. Qed.
Lemma RtoStart_keeps : keeps RtoStart.
Proof.
  unfold RtoStart. apply keeps_bind; [apply keeps_gets|]. intros [|]; [apply keeps_ret|].
  repeat (apply keeps_bind; [apply keeps_gets|intros ?]). apply keeps_tm.
Qed.
Lemma TcpPersist_keeps b : keeps (TcpPersist b).
Proof.
  unfold TcpPersist. apply keeps_if; [|apply keeps_bind; [apply keeps_tm|intros _; apply keeps_rtt]].
  apply keeps_bind; [apply keeps_gets|]. intros [|]; [apply keeps_ret|].
  repeat (apply keeps_bind; [(apply keeps_gets || (apply keeps_if; [apply keeps_rtt|apply keeps_ret]))|intros ?]). apply keeps_tm.
Qed.

(** The FIN alone, after the data. *)
Lemma xmit_fin n k c : ok n k → fin_pending (p_snd (n_pcb n)) = true → nxt_at k = zlen (taken n) →
  wp (let! rc := TcpOutput (FLAGS true) 0 in if rc =? ZUZU_OK then upd_snd (set_fin_sent true) ;; ret true else ret c)
    (λ _ n', ∃ k', ok n' k' ∧ ext n k n' k') n.
Proof.
  intros [Hc (Hu & Hf & Hg)] Hp Hn. apply wp_bind, (wp_output n k true); [done|done|lia|intros _; split; [done|lia]|].
  intros v g nx mx adv _ Hc2. simpl. tcp_steps. exists (sent_at (0 + b2z true) v k). split; [split; [by apply (conn_fin_sent (sent_net _ _ _ _ _))|]|].
  - pose proof (so_top _ _ _ _ _ (c_snd _ _ Hc2)) as Ht2. simpl in Ht2. rewrite Hp in Ht2. split; simpl in *; [lia|]. split; [|done]. intros _. split; [done|lia].
  - eapply ext_trans; [by apply (ext_sent _ _ (0 + b2z true) v)|apply ext_fin_sent].
Qed.

Lemma TcpXmit_keeps : keeps TcpXmit.
Proof.
  intros n k Hok. unfold TcpXmit. apply wp_bind. eapply wp_mono; [apply (xmit_loop_ok _ false n k Hok)|].
  { destruct Hok as [Hc (Hu & _)]. destruct (c_snd _ _ Hc). change (Z.of_nat XMIT_FUEL) with 32768. unfold BUF in *. lia. }
  intros r n1 (sent & k1 & -> & Hok1 & He1). eapply keeps_of; [exact He1|]. apply wp_bind. tcp_steps.
  assert (∀ c, keeps (when c RtoStart ;; let! s := get_snd id in TcpPersist (SeqLt (snd_nxt s) (w32 (snd_una (p_snd (n_pcb n1)) + buffered_bytes (p_snd (n_pcb n1)))) && SeqLeq (w32 (snd_una s + snd_wnd s)) (snd_nxt s) && (snd_max s =? snd_una s)) ;; ret ZUZU_OK)) as Hrest.
  { intros c. apply keeps_bind; [apply keeps_if; [apply RtoStart_keeps|apply keeps_ret]|]. intros _. apply keeps_bind; [apply keeps_gets|]. intros s.
    apply keeps_bind; [apply TcpPersist_keeps|]. intros _. apply keeps_ret. }
  apply wp_if; intros E.
  - apply andb_prop in E as [[Hp Hnf]%andb_prop He]. destruct Hok1 as [Hc1 (Hu1 & Hf1 & Hg1)]. pose proof (c_snd _ _ Hc1) as Hs.
    rewrite (una_buffered n1 k1 Hs), (so_nxt _ _ _ _ _ Hs), seq_eq in He by (destruct Hs; unfold BUF in *; destruct (fin_pending _); simpl in *; lia).
    apply Z.eqb_eq in He.
    assert (nxt_at k1 = zlen (taken n1)) as Hn.
    { destruct (decide (una_at k1 ≤ zlen (taken n1))); [lia|]. destruct Hs. rewrite Hp in so_top0. simpl in *. rewrite Hg1, so_max0, so_una0, SeqLeq_pos in Hnf by lia.
      apply negb_true_iff, Z.leb_gt in Hnf. lia. }
    eapply wp_mono; [by apply (xmit_fin n1 k1)|]. intros c n2 (k2 & Hok2 & He2). eapply keeps_of; [exact He2|by apply Hrest].
  - apply wp_ret. by apply Hrest.
Qed.

(** ** Acknowledgements, probes and the head of the queue *)

Lemma ack_keeps : keeps (TcpOutput TCP_ACK 0).
Proof.
  intros n k [Hc (Hu & Hf & Hg)]. apply (wp_output n k false); [done|done|lia|done|]. intros v g nx mx adv _ Hc2. exists (sent_at (0 + b2z false) v k). split; [|by apply ext_sent].
  pose proof (so_ord _ _ _ _ _ (c_snd _ _ Hc)). split; [done|]. split; simpl; [lia|]. rewrite Z.max_l by lia. done.
Qed.

(** Sending with [snd_nxt] moved for the time of it. *)
Definition set_nxt_at v k := Pos (una_at k) v (max_at k) (rec_at k) (got_at k) (read_at k) (adv_at k) (held k).
Definition with_nxt v n := set_n_pcb (set_p_snd (set_snd_nxt v (p_snd (n_pcb n))) (n_pcb n)) n.
Lemma conn_nxt n k v : conn n k → una_at k - 1 ≤ v ≤ max_at k → conn (with_nxt (w32 (base + v)) n) (set_nxt_at v k).
Proof. intros [] Hv. split; simpl; try done; [by destruct c_st0; split|by destruct c_snd0; split; simpl; try done; lia|by destruct c_cc0; split|by destruct c_rcv0; split]. Qed.

Lemma output_at {B} n k v fin len f (kont : TM B) P : ok n k → una_at k - 1 ≤ v ≤ max_at k → 0 ≤ len ≤ TCP_MSS →
  (0 < len → una_at k ≤ v ∧ v + len ≤ zlen (taken n)) →
  (fin = true → fin_sent (p_snd (n_pcb n)) = true ∧ v + len = zlen (taken n)) →
  f (p_snd (n_pcb n)) = set_snd_nxt (w32 (base + v)) (p_snd (n_pcb n)) →
  (∀ n' k', ok n' k' → ext n k n' k' → wp kont P n') →
  wp (upd_snd f ;; TcpOutput (FLAGS fin) len ;; upd_snd (set_snd_nxt (snd_nxt (p_snd (n_pcb n)))) ;; kont) P n.
Proof.
  intros [Hc (Hu & Hf & Hg)] Hv Hl Hd Hfin E HP. pose proof (so_ord _ _ _ _ _ (c_snd _ _ Hc)) as Ho. assert (0 ≤ b2z fin) by (destruct fin; simpl; lia).
  tcp_steps. rewrite E. change (set_n_pcb _ n) with (with_nxt (w32 (base + v)) n).
  apply (wp_output _ (set_nxt_at v k)); [by apply conn_nxt|done|done|intros ->; destruct (Hfin eq_refl) as [Hs ?]; destruct (Hf Hs); done|].
  intros a g nx mx adv _ Hc2. tcp_steps. apply (HP _ (set_nxt_at (nxt_at k) (sent_at (len + b2z fin) a (set_nxt_at v k)))).
  - rewrite (so_nxt _ _ _ _ _ (c_snd _ _ Hc)). split; [apply (conn_nxt _ _ (nxt_at k)) in Hc2; [exact Hc2|simpl; lia]|].
    split; simpl; [lia|]. destruct fin; simpl in *.
    + destruct (Hfin eq_refl) as [Hs ?]. rewrite Z.max_l; [done|]. destruct (Hf Hs). lia.
    + split; [intros Hs; destruct (Hf Hs)|intros ?; apply Hg]; [split; [done|]|]; destruct (decide (len = 0)); lia.
  - split; simpl; try done; [lia|by exists (rcv_rsq (p_rcv (n_pcb n))), adv; destruct (p_rcv _)|by left].
Qed.

Lemma TcpRetransmitHead_keeps n k : ok n k → una_at k < max_at k → wp TcpRetransmitHead (λ _ n', ∃ k', ok n' k' ∧ ext n k n' k') n.
Proof.
  intros Hok Hlt. destruct Hok as [Hc (Hu & Hf & Hg)] eqn:E0. clear E0. destruct (c_snd _ _ Hc) as [].
  assert (b2z (fin_pending (p_snd (n_pcb n))) ≤ 1) by (destruct (fin_pending _); simpl; lia). unfold BUF in *.
  unfold TcpRetransmitHead. apply wp_bind. tcp_step. unfold id. rewrite (una_buffered n k) by apply Hc. rewrite so_una0, SeqLt_pos, seq_sub, seq_add by lia.
  rewrite Z.max_r by lia. set (len := if una_at k <? zlen (taken n) then _ else _).
  assert (0 ≤ len ≤ TCP_MSS ∧ una_at k + len ≤ zlen (taken n)) as [Hl Hend] by (unfold len, TCP_MSS in *; case_if E; lia).
  rewrite seq_eq by (unfold TCP_MSS in *; lia). set (fin := fin_sent _ && _). change (if fin then Z.lor TCP_ACK TCP_FIN else TCP_ACK) with (FLAGS fin).
  apply (output_at n k (una_at k)); [done|lia|done|lia| |done|].
  - intros [Hs He%Z.eqb_eq]%andb_prop. done.
  - intros n' k' Hok' He'. tcp_steps. exists k'. split; [by apply ok_rtt|by apply ext_rtt].
Qed.

Lemma TcpPersistCb_keeps : keeps TcpPersistCb.
Proof.
  unfold TcpPersistCb. apply keeps_bind; [apply keeps_tm|]. intros _ n k Hok. apply wp_bind. tcp_step. unfold id. apply wp_if; intros E.
  { apply (keeps_bind _ _ TcpXmit_keeps); [intros _; apply keeps_ret|done]. }
  pose proof (proj1 Hok) as Hc. destruct (c_snd _ _ Hc) as []. apply (output_at n k (una_at k - 1) false 0); [done|lia|done|lia|done| |].
  - rewrite so_una0. f_equal. unfold w32. rewrite Zminus_mod_idemp_l. f_equal. lia.
  - intros n' k' Hok' He'. eapply keeps_of; [exact He'|].
    apply keeps_bind; [apply keeps_rtt| |done]. intros _. repeat (apply keeps_bind; [apply keeps_gets|intros ?]). apply keeps_tm.
Qed.

(** ** The client's calls *)

Lemma wp_malloc n (P : option mem → net → Prop) : (∀ p l, P p (set_mallocs l n)) → wp next_malloc P n.
Proof. intros HP. unfold wp, next_malloc. destruct (mallocs n) eqn:E; [|apply HP]. replace n with (set_mallocs (mallocs n) n) by (by destruct n). apply HP. Qed.
Lemma wp_calls n (P : list api → net → Prop) : (∀ c l, P c (set_app_calls l n)) → wp next_calls P n.
Proof. intros HP. unfold wp, next_calls. destruct (app_calls n) eqn:E; [|apply HP]. replace n with (set_app_calls (app_calls n) n) by (by destruct n). apply HP. Qed.

(** A buffer for the bytes to send: there is one afterwards, or nothing has changed. *)
Lemma TcpSndBufAlloc_ok n k : ok n k →
  wp TcpSndBufAlloc (λ b n', ok n' k ∧ ext n k n' k ∧ state (n_pcb n') = state (n_pcb n) ∧ (b = true → snd_buf (p_snd (n_pcb n')) ≠ None)) n.
Proof.
  intros Hok. unfold TcpSndBufAlloc, TcpBufAlloc. tcp_steps. destruct (snd_buf (p_snd (n_pcb n))) as [m|] eqn:Em; tcp_steps.
  { split; [done|]. split; [apply ext_refl|]. split; [done|]. by rewrite Em. }
  apply wp_if; intros _; tcp_steps; [by split; [|split; [apply ext_refl|]]|].
  apply wp_malloc. intros p l. destruct Hok as [[] Hs]. assert (snd_ok base lim (taken n) (set_snd_buf p (p_snd (n_pcb n))) k) as Hsnd.
  { destruct c_snd0. split; simpl; try done. intros Hb. destruct (so_data0 Hb) as (? & ? & _). congruence. }
  destruct p as [m|]; tcp_steps.
  - split; [by split; [split; simpl; try done; destruct c_st0; by split|]|]. split; [|done]. by destruct (ext_refl n k); split.
  - split; [by split; [split|]|]. split; [|done]. by destruct (ext_refl n k); split.
Qed.

(** The bytes join the stream. *)
Definition with_taken (bytes : list Z) (m : mem) (n : net) : net :=
  let s := p_snd (n_pcb n) in let b := zlen bytes in
  set_taken (taken n ++ bytes) (set_n_pcb (set_p_snd (set_buffered_bytes (w32 (buffered_bytes s + b)) (set_snd_buf (Some m) s)) (n_pcb n)) n).
Lemma conn_taken n k bytes m : ok n k → fin_pending (p_snd (n_pcb n)) = false → all_acked (state (n_pcb n)) = false →
  snd_buf (p_snd (n_pcb n)) = Some m → buffered_bytes (p_snd (n_pcb n)) + zlen bytes ≤ BUF →
  let n' := with_taken bytes (copy_in m BUF (w32 (snd_una (p_snd (n_pcb n)) + buffered_bytes (p_snd (n_pcb n)))) bytes) n in ok n' k ∧ ext n k n' k.
Proof.
  intros [[] (Hu & Hf & Hg)] Hp Hst Em Hroom n'. split; [split|].
  - split; simpl; try done.
    + destruct c_st0. split; simpl; try done. by rewrite Hst.
    + rewrite (una_buffered n k c_snd0). destruct c_snd0. rewrite Hp in so_top0. simpl in so_top0. rewrite Z.max_r by lia.
      assert (w32 (buffered_bytes (p_snd (n_pcb n)) + zlen bytes) = zlen (taken n ++ bytes) - una_at k) as Hb.
      { unfold w32. rewrite length_app, Nat2Z.inj_add. rewrite Z.mod_small; unfold BUF in *; lia. }
      split; simpl; try done; rewrite ?Hb, ?length_app, ?Nat2Z.inj_add in *; try (rewrite ?Hp; simpl; lia).
      intros _. eexists. split; [done|]. intros i Hi. replace bytes with (slice (taken n ++ bytes) (zlen (taken n)) (zlen bytes)) at 2
        by (unfold slice; rewrite !Nat2Z.id, drop_app_length; apply firstn_all).
      apply (placed_copy _ _ _ (una_at k)); rewrite ?length_app; try lia.
      destruct (decide (i < zlen (taken n))) as [Hi'|]; [left|right; lia]. destruct so_data0 as (m' & Em' & Hm); [lia|]. rewrite Em in Em'. injection Em' as <-.
      apply placed_app; [done|]. apply Hm. lia.
    + apply (wire_mono _ _ _ (fin_pending (p_snd (n_pcb n))) (got (p_rcv (n_pcb n)) k)); [done| |done]. by rewrite Hp.
  - destruct c_snd0. rewrite Hp in so_top0. simpl in so_top0. split; simpl; [done|]. rewrite length_app. split; [intros E; destruct (Hf E); congruence|lia].
  - destruct (ext_refl n k). split; simpl; try done; [by apply prefix_app_r|]. rewrite Hp. done.
Qed.

Lemma ok_blocked n k b : ok n k → let n' := set_n_pcb (set_p_snd (set_snd_blocked b (p_snd (n_pcb n))) (n_pcb n)) n in ok n' k ∧ ext n k n' k.
Proof.
  intros [[] Hs]. split; [split; [split; simpl; try done; [by destruct c_st0; split|by destruct c_snd0; split]|done]|].
  by destruct (ext_refl n k); split.
Qed.
Lemma keeps_blocked b : keeps (upd_snd (set_snd_blocked b)).
Proof. intros n k Hok. tcp_steps. exists k. by apply ok_blocked. Qed.
Lemma wp_keeps {B C} (m : TM B) (f : B → TM C) n k n0 k0 : keeps m → ok n k → ext n0 k0 n k →
  (∀ b n' k', ok n' k' → ext n0 k0 n' k' → wp (f b) (λ _ n2, ∃ k2, ok n2 k2 ∧ ext n0 k0 n2 k2) n') →
  wp (bind m f) (λ _ n2, ∃ k2, ok n2 k2 ∧ ext n0 k0 n2 k2) n.
Proof.
  intros Hm Hok He Hf. apply wp_bind. eapply wp_mono; [by apply Hm|]. intros b n' (k' & Hok' & He'). apply (Hf b n' k'); [done|by eapply ext_trans].
Qed.
Lemma is_state_true a b : is_state a b = true → a = b.
Proof. unfold is_state. apply bool_decide_eq_true_1. Qed.

Lemma TcpSend_keeps bytes : keeps (TcpSend bytes).
Proof.
  intros n k Hok. unfold TcpSend. tcp_steps. apply wp_if; intros Hst; [by apply keeps_ret|].
  assert (state (n_pcb n) = TCP_ESTABLISHED ∨ state (n_pcb n) = TCP_CLOSE_WAIT) as Hst'.
  { apply andb_false_iff in Hst as [H|H]; apply negb_false_iff, is_state_true in H; auto. }
  apply wp_bind. eapply wp_mono; [by apply (TcpSndBufAlloc_ok n k)|]. intros b n1 (Hok1 & He1 & Hst1 & Hb). apply wp_if; intros E; [tcp_steps; by exists k|].
  apply negb_false_iff in E. specialize (Hb E). tcp_steps. apply wp_if; intros E2.
  { eapply wp_keeps; [apply keeps_blocked|done|done|]. intros _ n2 k2 Hok2 He2. tcp_steps. by exists k2. }
  destruct (snd_buf (p_snd (n_pcb n1))) as [m|] eqn:Em; [|done].
  pose proof (c_snd _ _ (proj1 Hok1)) as []. rewrite so_size0 in *. unfold BUF in *. set (free := w32 _) in *. assert (free = 32768 - buffered_bytes (p_snd (n_pcb n1))) as Hfree.
  { unfold free, w32. apply Z.mod_small. lia. }
  set (l := take (Z.to_nat (Z.min (zlen bytes) free)) bytes). assert (zlen l = Z.min (zlen bytes) free) as Hl by (unfold l; rewrite length_take; lia).
  rewrite <- Hl. clearbody l.
  apply wp_bind. match goal with |- wp (when ?c _) ?K n1 => assert (∀ b n2, ok n2 k → ext n k n2 k → state (n_pcb n2) = state (n_pcb n1) →
    p_snd (n_pcb n2) = set_snd_blocked b (p_snd (n_pcb n1)) → K tt n2) as Hgo end.
  { intros b' n2 Hok2 He2 Hst2 Hs2. tcp_steps. simpl. tcp_steps. destruct (conn_taken n2 k l m) as [Hok3 He3]; try done.
    - rewrite (st_closing _ _ _ _ (c_st _ _ (proj1 Hok2))), Hst2, Hst1. destruct Hst' as [-> | ->]; done.
    - rewrite Hst2, Hst1. destruct Hst' as [-> | ->]; done.
    - by rewrite Hs2.
    - rewrite Hs2. unfold BUF. simpl. lia.
    - unfold with_taken in *. rewrite Hs2 in *. simpl in *. eapply wp_mono; [by apply (TcpXmit_keeps _ k)|].
      intros _ n4 (k4 & Hok4 & He4). tcp_steps. exists k4. split; [done|]. eapply ext_trans, He4. by eapply ext_trans. }
  apply wp_when; intros _; [apply wp_modify|].
  - destruct (ok_blocked n1 k true Hok1) as [Hok2 He2]. exact (Hgo true _ Hok2 (ext_trans _ _ _ _ _ _ He1 He2) eq_refl eq_refl).
  - apply (Hgo (snd_blocked (p_snd (n_pcb n1)))); try done. by destruct (p_snd _).
Qed.

Lemma TcpClose_keeps : keeps TcpClose.
Proof.
  intros n k Hok. unfold TcpClose. tcp_steps. destruct Hok as [Hc (Hu & Hf & Hg)] eqn:E0. clear E0. pose proof (c_st _ _ Hc) as [Hsy Hcl Hack].
  assert (∀ st', (state (n_pcb n) = TCP_ESTABLISHED ∧ st' = TCP_FIN_WAIT_1) ∨ (state (n_pcb n) = TCP_CLOSE_WAIT ∧ st' = TCP_LAST_ACK) →
    wp (goto_state st' ;; upd_snd (set_fin_pending true) ;; TcpXmit ;; ret ZUZU_OK) (λ _ n', ∃ k', ok n' k' ∧ ext n k n' k') n) as Hgo.
  { intros st' Hst. tcp_steps. assert (fin_pending (p_snd (n_pcb n)) = false) as Hp by (destruct Hst as [[Hst _]|[Hst _]]; rewrite Hcl, Hst; done).
    destruct Hc. pose proof (so_top _ _ _ _ _ c_snd0) as Htop. rewrite Hp in Htop. simpl in Htop.
    eapply wp_mono; [apply (TcpXmit_keeps _ k)|].
    - split; [split; simpl; try done|split; [done|split; simpl; [|lia]]].
      + split; simpl; by destruct Hst as [[_ ->]|[_ ->]].
      + destruct c_snd0. split; simpl; try done. lia.
      + by destruct Hst as [[Hst ->]|[Hst ->]]; rewrite Hst in c_rcv0.
      + rewrite <- (app_nil_r (taken n)). by apply (wire_mono _ _ _ (fin_pending (p_snd (n_pcb n))) (got (p_rcv (n_pcb n)) k)).
      + intros E. destruct (Hf E). congruence.
    - intros _ n4 (k4 & Hok4 & He4). tcp_steps. exists k4. split; [done|]. eapply ext_trans, He4. destruct (ext_refl n k). split; simpl; try done. by right. }
  destruct (state (n_pcb n)) eqn:Hst; try done; try (by apply keeps_ret); apply Hgo; auto.
Qed.

(** The client has read [l] more bytes. *)
Definition with_given (l : Z) (bytes : list Z) (n : net) : net :=
  let r := p_rcv (n_pcb n) in
  set_given (given n ++ bytes) (set_n_pcb (set_p_rcv (set_rcv_rsq (w32 (rcv_rsq r + l)) r) (n_pcb n)) n).
Definition read_more l k := Pos (una_at k) (nxt_at k) (max_at k) (rec_at k) (got_at k) (read_at k + l) (adv_at k) (held k).
Lemma ok_given n k l : ok n k → 0 ≤ l ≤ got_at k - read_at k →
  let n' := with_given l (slice peer (read_at k) l) n in ok n' (read_more l k) ∧ ext n k n' (read_more l k).
Proof.
  intros [[] Hs] Hl n'. split; [split; [split; simpl; try done|done]|].
  - by destruct c_st0; split.
  - by destruct c_snd0; split.
  - by destruct c_cc0; split.
  - destruct c_rcv0. split; simpl; try done; [by rewrite ro_rsq0, seq_add|lia|lia| |].
    + rewrite ro_given0. apply slice_take; lia.
    + intros Hlive. destruct (ro_data0 Hlive) as (m & Em & Hm). exists m. split; [done|]. intros i Hi. apply Hm. destruct Hi as [Hi|Hi]; [left; lia|by right].
  - destruct (ext_refl n k). split; simpl; try done. by exists (w32 (rcv_rsq (p_rcv (n_pcb n)) + l)), (rcv_adv (p_rcv (n_pcb n))); destruct (p_rcv _).
Qed.
(** What [TcpRecv] can give: the end of the stream, when it has been received, is not a byte. *)
Lemma recv_avail live r gv k : rcv_ok pbase peer closed live r gv k →
  let avail := w32 (rcv_nxt r - rcv_rsq r) in (if fin_rcvd r && truthy avail then avail - 1 else avail) = got_at k - read_at k.
Proof.
  intros [] avail. unfold BUF in *. assert (avail = got_at k - read_at k + b2z (fin_rcvd r)) as ->.
  { unfold avail. rewrite ro_nxt0, ro_rsq0, seq_sub; [lia|]. destruct (fin_rcvd r); simpl; lia. }
  unfold truthy. destruct (fin_rcvd r); simpl; [|lia]. replace (_ =? 0) with false by lia. simpl. lia.
Qed.

Lemma TcpRecv_keeps sz : 0 ≤ sz → keeps (TcpRecv sz).
Proof.
  intros Hsz n k Hok. unfold TcpRecv. tcp_steps. apply wp_if; intros Hst; [by apply keeps_ret|]. tcp_steps.
  destruct Hok as [Hc Hs] eqn:E0. clear E0. pose proof (c_rcv _ _ Hc) as Hr. rewrite (recv_avail _ _ _ _ Hr). set (l := Z.min _ _).
  apply wp_if; intros E; [tcp_steps; exists k; split; [done|apply ext_refl]|].
  assert (negb (is_state (state (n_pcb n)) TCP_TIME_WAIT) = true) as Hlive by (by destruct (state (n_pcb n))).
  destruct Hr. destruct (ro_data0 Hlive) as (m & Em & Hm). rewrite Em, ro_size0, ro_rsq0.
  apply wp_bind, wp_ret. rewrite (copy_placed _ peer) by (unfold BUF in *; try intros; try apply Hm; lia).
  assert (0 ≤ l ≤ got_at k - read_at k) as Hl by lia. destruct (ok_given n k l (conj Hc Hs) Hl) as [Hok' He']. apply wp_bind, wp_modify, wp_bind, wp_modify.
  change (set_given _ _) with (with_given l (slice peer (read_at k) l) n).
  eapply keeps_of; [exact He'|]. apply keeps_bind; [apply keeps_gets| |done]. intros r. apply keeps_bind; [apply keeps_gets|]. intros mss.
  apply keeps_bind; [|intros _; apply keeps_ret]. apply keeps_if; [|apply keeps_ret]. apply keeps_bind; [apply ack_keeps|intros _; apply keeps_ret].
Qed.

Lemma TCP_NOTIFY_keeps e : keeps (TCP_NOTIFY e).
Proof.
  unfold TCP_NOTIFY. apply keeps_bind.
  { intros n k [[] Hs]. apply wp_modify. exists k. split; [by split; [split|]|]. by destruct (ext_refl n k); split. }
  intros _. apply keeps_bind.
  { intros n k [[] Hs]. apply wp_calls. intros c l. exists k. split; [by split; [split|]|]. by destruct (ext_refl n k); split. }
  intros l. induction l as [|a l IH]; simpl; [apply keeps_ret|]. apply keeps_bind; [|by intros _].
  destruct a; simpl; (apply keeps_bind; [|intros _; apply keeps_ret]); [apply TcpSend_keeps|apply TcpRecv_keeps; lia|apply TcpClose_keeps].
Qed.
End connection.
