(* ===== verification/TcpConn.v ===== *)
(** The segments that arrive and the timers: tcp_in.c and the callbacks keep the invariant of a TCP
    connection.

    First the ranges of early data, then congestion control and acknowledgements, data, the FIN
    and the states.  [runs] says that a function ends in a connection that satisfies the invariant
    or has been released, and that streams only grew. *)
From S2P Require Import Prelude Str Ring Tcp TcpInv.

#[local] Open Scope Z_scope.

#[local] Opaque TcpXmit.

(** * Reassembly *)

Section ranges.
Context (pbase : Z).
Notation seqs := (fmap (M := list) (λ x : Z * Z, (w32 (pbase + x.1), w32 (pbase + x.2)))).
(** [FwdMerge] moves [rcv_nxt] over bytes that ranges hold, and keeps the other ranges. *)
Lemma FwdMerge_ok lo top l nxt : top < 2 ^ 31 → apart lo top l → 0 ≤ lo → 0 ≤ nxt ≤ top →
  ∃ l' nxt', FwdMerge (seqs l) (w32 (pbase + nxt)) = (seqs l', w32 (pbase + nxt')) ∧ nxt ≤ nxt' ≤ top ∧ apart nxt' top l' ∧ (length l' ≤ length l)%nat ∧
    (∀ i, nxt ≤ i < nxt' → covers l i) ∧ (∀ i, covers l' i → covers l i).
Proof.
  intros Htop. revert lo nxt. induction l as [|[s e] l IH]; intros lo nxt Hw Hlo Hn; rewrite ?fmap_cons; cbn [FwdMerge fst snd].
  { exists [], nxt. split; [done|]. split; [lia|]. repeat split; try done. lia. }
  destruct Hw as (Hx & Ht & Hw). simpl in Hx, Ht, Hw. rewrite SeqLeq_pos by lia. destruct (Z.leb_spec s nxt).
  - rewrite SeqMax_pos by lia. destruct (IH e (Z.max nxt e)) as (l' & nxt' & -> & Hn' & Hw' & Hlen & Hc & Hs); [done|lia|lia|]. exists l', nxt'. split; [done|].
    split; [lia|]. split; [done|]. split; [simpl; lia|]. split; [|intros i Hi; right; by apply Hs].
    intros i Hi. destruct (decide (i < e)); [left; simpl; lia|right; apply Hc; lia].
  - exists ((s, e) :: l), nxt. split; [done|]. split; [lia|]. split; [simpl; split; [lia|done]|]. split; [done|]. split; [lia|done].
Qed.

(** Ranges in the order of their starts, which may touch. *)
Fixpoint starts (lo top : Z) (l : list (Z * Z)) : Prop :=
  match l with [] => True | x :: l' => lo ≤ x.1 < x.2 ∧ x.2 ≤ top ∧ starts x.1 top l' end.
Lemma starts_low lo lo' top l : lo' ≤ lo → starts lo top l → starts lo' top l.
Proof. intros Hlo. destruct l; simpl; [done|]. intros (? & ? & ?). split; [lia|done]. Qed.
Lemma apart_starts lo lo' top l : lo' ≤ lo → apart lo top l → starts lo' top l.
Proof. revert lo lo'. induction l as [|x l IH]; intros lo lo' Hlo; simpl; [done|]. intros (? & ? & ?). split; [lia|]. split; [done|]. by apply (IH x.2); [lia|]. Qed.

(** Fusing ranges that touch neither loses nor adds a position. *)
Lemma fuse_ok lo top s e l : top < 2 ^ 31 → 0 ≤ s → lo < s < e → e ≤ top → starts s top l →
  ∃ l', fuse (w32 (pbase + s), w32 (pbase + e)) (seqs l) = seqs l' ∧ apart lo top l' ∧ (length l' ≤ S (length l))%nat ∧ (∀ i, covers l' i ↔ covers ((s, e) :: l) i).
Proof.
  intros Htop. revert lo s e. induction l as [|[s2 e2] l IH]; intros lo s e Hs Hlo He Hw; rewrite ?fmap_cons; cbn [fuse fst snd].
  { exists [(s, e)]. repeat split; try done; simpl; lia. }
  destruct Hw as (Hx & Ht & Hw). simpl in Hx, Ht, Hw. rewrite SeqLeq_pos by lia. destruct (Z.leb_spec s2 e).
  - rewrite SeqMax_pos by lia. destruct (IH lo s (Z.max e e2)) as (l' & -> & Hw' & Hlen & Hc); [lia|lia|lia|by eapply starts_low; [|exact Hw]; lia|].
    exists l'. split; [done|]. split; [done|]. split; [simpl; lia|].
    intros i. rewrite Hc. unfold covers. rewrite !Exists_cons. simpl. split; [intros [Hi|Hi]; [|tauto]|intros [Hi|[Hi|Hi]]; try tauto; left; lia].
    destruct (decide (i < e)); [left; lia|right; left; lia].
  - destruct (IH e s2 e2) as (l' & -> & Hw' & Hlen & Hc); [lia|lia|lia|done|]. exists ((s, e) :: l'). split; [done|]. split; [simpl; done|]. split; [simpl; lia|].
    intros i. unfold covers in *. rewrite Exists_cons, Hc, !Exists_cons. done.
Qed.

(** Insertion keeps the order of the starts. *)
Lemma range_insert_ok lo top s e l : top < 2 ^ 31 → 0 ≤ lo ≤ s → s < e ≤ top → starts lo top l →
  ∃ l', range_insert (seqs l) (w32 (pbase + s)) (w32 (pbase + e)) = seqs l' ∧ starts lo top l' ∧ length l' = S (length l) ∧ (∀ i, covers l' i ↔ covers ((s, e) :: l) i).
Proof.
  intros Htop. unfold range_insert. revert lo. induction l as [|[s2 e2] l IH]; intros lo Hlo He Hw; rewrite ?fmap_cons; cbn [range_pos fst snd].
  { exists [(s, e)]. repeat split; try done; simpl; lia. }
  destruct Hw as (Hx & Ht & Hw). simpl in Hx, Ht, Hw. rewrite SeqLt_pos by lia. destruct (Z.ltb_spec s2 s).
  - destruct (IH s2) as (l' & E & Hw' & Hlen & Hc); [lia|lia|done|]. exists ((s2, e2) :: l'). simpl. rewrite E. split; [done|]. split; [done|]. split; [lia|].
    intros i. unfold covers in *. rewrite Exists_cons, Hc, !Exists_cons. tauto.
  - exists ((s, e) :: (s2, e2) :: l). split; [done|]. simpl. split; [|done]. repeat split; try done; lia.
Qed.
Lemma fuse_insert_ok lo top s e l : top < 2 ^ 31 → 0 ≤ lo < s → s < e ≤ top → apart lo top l →
  ∃ l', fuse_all (range_insert (seqs l) (w32 (pbase + s)) (w32 (pbase + e))) = seqs l' ∧ apart lo top l' ∧ (length l' ≤ S (length l))%nat ∧
    (∀ i, covers l' i ↔ covers ((s, e) :: l) i).
Proof.
  intros Htop Hlo He Hw. destruct (range_insert_ok (lo + 1) top s e l) as (l2 & -> & Hst & Hlen & Hc); [done|lia|lia| |].
  { destruct l as [|x l]; [done|]. simpl in Hw |- *. destruct Hw as (? & ? & ?). split; [lia|]. split; [done|]. by eapply apart_starts; [|done]; lia. }
  destruct l2 as [|[s0 e0] l3]; [done|]. rewrite fmap_cons. cbn [fuse_all fst snd]. destruct Hst as (? & ? & Hst). simpl in *.
  destruct (fuse_ok lo top s0 e0 l3) as (l' & -> & Hw' & Hlen' & Hc'); [done|lia|lia|lia|done|]. exists l'. split; [done|]. split; [done|]. split; [lia|].
  intros i. by rewrite Hc', Hc.
Qed.
End ranges.

Section handlers.
Context (base pbase : Z) (peer : list Z) (closed : bool) (lim : Z).
Notation okc := (ok base pbase peer closed lim).
Notation keepsc := (keeps base pbase peer closed lim).

(** ** Relations between a state and a later one *)

(** As [ext], but bytes may have been acknowledged and the congestion state changed. *)
Record acks (n : net) (k : pos) (n' : net) (k' : pos) : Prop := {
  a_una : una_at k ≤ una_at k';
  a_got : got_at k' = got_at k;
  a_held : held k' = held k;
  a_rcv : ∃ q a, p_rcv (n_pcb n') = set_rcv_adv a (set_rcv_rsq q (p_rcv (n_pcb n)));
  a_state : moves (state (n_pcb n)) (state (n_pcb n'));
  a_taken : taken n `prefix_of` taken n';
  a_frozen : fin_pending (p_snd (n_pcb n)) = true → fin_pending (p_snd (n_pcb n')) = true ∧ taken n' = taken n;
}.
Lemma acks_ext n k n' k' : ext n k n' k' → acks n k n' k'.
Proof. intros []. split; try done. lia. Qed.
Lemma acks_trans n k n1 k1 n2 k2 : acks n k n1 k1 → acks n1 k1 n2 k2 → acks n k n2 k2.
Proof.
  intros [] []. split; try congruence; [lia| | |by etrans|].
  - destruct a_rcv0 as (q & a & E), a_rcv1 as (q' & a' & ->). rewrite E. by exists q', a'.
  - unfold moves in *. clear -a_state0 a_state1. intuition congruence.
  - intros Hp. destruct (a_frozen0 Hp) as [Hp' E]. destruct (a_frozen1 Hp') as [Hp2 E2]. split; congruence.
Qed.

(** What the other side may rely on. *)
Record grow (n : net) (k : pos) (n' : net) (k' : pos) : Prop := {
  g_got : got (p_rcv (n_pcb n)) k ≤ got (p_rcv (n_pcb n')) k';
  g_taken : taken n `prefix_of` taken n';
  g_frozen : fin_pending (p_snd (n_pcb n)) = true → fin_pending (p_snd (n_pcb n')) = true ∧ taken n' = taken n;
}.
Lemma grow_refl n k : grow n k n k.
Proof. split; done. Qed.
Lemma grow_acks n k n' k' : acks n k n' k' → grow n k n' k'.
Proof. intros []. split; try done. destruct a_rcv0 as (q & a & ->). unfold got. simpl. lia. Qed.
Lemma grow_ext n k n' k' : ext n k n' k' → grow n k n' k'.
Proof. intros H. by apply grow_acks, acks_ext. Qed.
Lemma grow_trans n k n1 k1 n2 k2 : grow n k n1 k1 → grow n1 k1 n2 k2 → grow n k n2 k2.
Proof.
  intros [] []. split; [lia|by etrans|]. intros Hp. destruct (g_frozen0 Hp) as [Hp' E]. destruct (g_frozen1 Hp') as [Hp2 E2]. split; congruence.
Qed.

(** A connection that has been released. *)
Record over (n : net) (k : pos) : Prop := {
  v_tx : tx_results n = [];
  v_active : active (n_pcb n) = false;
  v_rcv : rcv_ok pbase peer closed false (p_rcv (n_pcb n)) (given n) k;
  v_wire : wire_ok base pbase (taken n) (fin_pending (p_snd (n_pcb n))) (got (p_rcv (n_pcb n)) k) (wire n);
}.
Definition inv (n : net) (k : pos) : Prop := okc n k ∨ over n k.
(** A function that keeps the invariant, and may release the connection. *)
Definition runs {B} (m : TM B) (n : net) (k : pos) : Prop := wp m (λ _ n', ∃ k', inv n' k' ∧ grow n k n' k') n.

Lemma runs_keeps {B} (m : TM B) n k : okc n k → keepsc m → runs m n k.
Proof. intros Hok Hm. eapply wp_mono; [by apply Hm|]. intros _ n' (k' & Hok' & He'). exists k'. split; [by left|by apply grow_ext]. Qed.
Lemma runs_from {B} (m : TM B) n0 k0 n k : grow n0 k0 n k → runs m n k → wp m (λ _ n', ∃ k', inv n' k' ∧ grow n0 k0 n' k') n.
Proof. intros Hg Hm. eapply wp_mono; [exact Hm|]. intros _ n' (k' & Hi & Hg'). exists k'. split; [done|by eapply grow_trans]. Qed.
(** First something that keeps the invariant, then the rest. *)
Lemma runs_then {B C} (m : TM B) (f : B → TM C) n k : okc n k → keepsc m → (∀ b n' k', okc n' k' → ext n k n' k' → runs (f b) n' k') → runs (bind m f) n k.
Proof.
  intros Hok Hm Hf. apply wp_bind. eapply wp_mono; [by apply Hm|]. intros b n' (k' & Hok' & He'). eapply runs_from; [by apply grow_ext|by apply Hf].
Qed.

Lemma rcv_dead live r gv k b : rcv_ok pbase peer closed live r gv k → rcv_ok pbase peer closed false (set_rcv_buf b r) gv k.
Proof. intros []. by split. Qed.
Lemma release_runs err n k : okc n k → runs (TcpPcbRelease err) n k.
Proof.
  intros [[Htx Hact Hst Hsnd Hcc Hrcv Hwire] _]. unfold runs, TcpPcbRelease, TcpPcbFree, TcpBufsFree, TcpBufFree. tcp_steps. simpl.
  destruct (snd_buf _) as [|]; tcp_steps; simpl; destruct (rcv_buf _) as [|] eqn:Er; tcp_steps; exists k; (split; [right; split; simpl; try done|by split]);
    try (by eapply rcv_dead); by destruct Hrcv; split.
Qed.

(** ** Congestion control and acknowledgements *)

Definition set_rec_at v k := Pos (una_at k) (nxt_at k) (max_at k) v (got_at k) (read_at k) (adv_at k) (held k).
Definition with_cc c n := set_n_pcb (set_p_cc c (n_pcb n)) n.
Lemma ok_cc n k c v : okc n k → cc_ok base c (set_rec_at v k) → okc (with_cc c n) (set_rec_at v k) ∧ acks n k (with_cc c n) (set_rec_at v k).
Proof.
  intros [[Htx Hact Hst Hsnd Hcc Hrcv Hwire] Hs] Hc. split; [split; [split; simpl; try done|done]|].
  - by destruct Hst; split.
  - by destruct Hsnd; split.
  - by destruct Hrcv; split.
  - split; simpl; try done; [do 2 eexists; apply set_rcv_same|by left].
Qed.
Lemma set_rec_same k : set_rec_at (rec_at k) k = k.
Proof. by destruct k. Qed.
Lemma ok_cc_same n k c : okc n k → cc_ok base c k → okc (with_cc c n) k ∧ acks n k (with_cc c n) k.
Proof. intros Hok Hc. destruct (ok_cc n k c (rec_at k)) as [H1 H2]; [done|by rewrite set_rec_same|]. by rewrite set_rec_same in H1, H2. Qed.

(** Bounds on the send window that the congestion arithmetic needs. *)
Lemma snd_bounds n k : okc n k → 0 < snd_mss (p_snd (n_pcb n)) ≤ 1460 ∧ snd_size (p_snd (n_pcb n)) = 32768 ∧
  w32 (snd_max (p_snd (n_pcb n)) - snd_una (p_snd (n_pcb n))) = max_at k - una_at k ∧ 0 ≤ max_at k - una_at k ≤ 32769.
Proof.
  intros [[_ _ _ [] _ _ _] _]. assert (b2z (fin_pending (p_snd (n_pcb n))) ≤ 1) by (destruct (fin_pending _); simpl; lia). unfold BUF, TCP_MSS in *.
  rewrite so_max, so_una, seq_sub by lia. split; [done|]. split; [done|]. split; [done|lia].
Qed.

Lemma TcpOnDupAck_ok n k : okc n k → una_at k < max_at k → wp TcpOnDupAck (λ _ n', ∃ k', okc n' k' ∧ acks n k n' k') n.
Proof.
  intros Hok Hlt. unfold TcpOnDupAck. tcp_steps. simpl. destruct (snd_bounds n k Hok) as (Hmss & Hsz & Hfl & Hflb). pose proof (c_cc _ _ _ _ _ _ _ (proj1 Hok)) as Hcc.
  set (c1 := set_dupacks _ _). assert (cc_ok base c1 k) as Hc1 by (by destruct Hcc; split). apply wp_if; intros E1; [|apply wp_if; intros E2].
  - tcp_steps. simpl. exists k. apply (ok_cc_same n k (set_cwnd _ c1)); [done|]. destruct Hc1. split; simpl; try done; [apply Z.mod_pos_bound; lia|]. unfold c1 in *. simpl. by rewrite E1.
  - tcp_steps. simpl. set (c2 := set_in_recovery _ _).
    destruct (ok_cc n k c2 (max_at k) Hok) as [Hok2 Ha2].
    { destruct (c_snd _ _ _ _ _ _ _ (proj1 Hok)), Hcc. unfold c2. split; simpl; try done; [lia|]. rewrite Hfl. Z.div_mod_to_equations. lia. }
    eapply wp_mono; [by apply (TcpRetransmitHead_keeps base pbase peer closed lim (with_cc c2 n) (set_rec_at (max_at k) k))|].
    intros _ n3 (k3 & Hok3 & He3). tcp_steps. exists k3. destruct (ok_cc_same n3 k3 (set_cwnd (w32 (ssthresh (p_cc (n_pcb n3)) + 3 * snd_mss (p_snd (n_pcb n)))) (p_cc (n_pcb n3))) Hok3) as [Hok4 Ha4].
    { destruct (c_cc _ _ _ _ _ _ _ (proj1 Hok3)). split; simpl; try done; [apply Z.mod_pos_bound; lia|]. by rewrite (e_cc _ _ _ _ He3). }
    split; [done|]. eapply acks_trans, Ha4. eapply acks_trans; [done|by apply acks_ext].
  - tcp_steps. exists k. by apply ok_cc_same.
Qed.

Lemma TcpGrowWindow_ok n k acked : okc n k → 0 ≤ acked ≤ BUF → zlen (taken n) ≤ STREAM_MAX →
  wp (TcpGrowWindow acked) (λ _ n', ∃ k', okc n' k' ∧ acks n k n' k') n.
Proof.
  intros Hok Hack Hmax. unfold TcpGrowWindow. tcp_steps. destruct (snd_bounds n k Hok) as (Hmss & Hsz & Hfl & Hflb). pose proof (c_cc _ _ _ _ _ _ _ (proj1 Hok)) as Hcc.
  pose proof (c_snd _ _ _ _ _ _ _ (proj1 Hok)) as Hsnd. set (c := p_cc (n_pcb n)) in *. unfold BUF, STREAM_MAX in *.
  assert (b2z (fin_pending (p_snd (n_pcb n))) ≤ 1) by (destruct (fin_pending _); simpl; lia).
  apply wp_if; intros E1.
  - rewrite (co_recover _ _ _ Hcc), (so_una _ _ _ _ _ Hsnd), SeqLeq_pos by (destruct Hcc, Hsnd; lia). apply wp_if; intros E2.
    + tcp_steps. exists k. apply ok_cc_same; [done|]. rewrite <- (so_una _ _ _ _ _ Hsnd), Hfl. fold c. destruct Hcc. split; simpl; try done; unfold w32; rewrite Z.mod_small; lia.
    + apply Z.leb_gt in E2. apply wp_bind. eapply wp_mono; [apply (TcpRetransmitHead_keeps base pbase peer closed lim n k); [done|destruct Hcc; lia]|].
      intros _ n3 (k3 & Hok3 & He3). pose proof (e_cc _ _ _ _ He3) as Ec. pose proof (c_cc _ _ _ _ _ _ _ (proj1 Hok3)) as Hc3. fold c in Ec.
      assert (∀ w, 0 ≤ w < 2 ^ 32 → cc_ok base (set_cwnd w (p_cc (n_pcb n3))) k3) as Hcw by (intros w Hw; destruct Hc3; split; simpl; try done; by rewrite Ec, E1).
      apply acks_ext in He3. tcp_steps. set (w := if acked <? _ then _ else _). assert (0 ≤ w < 2 ^ 32) as Hw.
      { unfold w. destruct Hc3. case_if E3; lia. }
      destruct (ok_cc_same n3 k3 _ Hok3 (Hcw w Hw)) as [Hok4 Ha4]. pose proof (acks_trans _ _ _ _ _ _ He3 Ha4) as Ha5. apply wp_when; intros _; tcp_steps; exists k3; [|done].
      destruct (ok_cc_same _ k3 (set_cwnd (w32 (w + snd_mss (p_snd (n_pcb n)))) (set_cwnd w (p_cc (n_pcb n3)))) Hok4) as [Hok6 Ha6].
      { destruct (Hcw w Hw). split; simpl in *; try done; [apply Z.mod_pos_bound; lia|]. by rewrite Ec, E1. }
      split; [done|by eapply acks_trans].
  - tcp_steps. simpl. fold c. set (c1 := set_dupacks 0 c). destruct (co_open _ _ _ Hcc E1) as [Hc0 Hc1].
    assert (∀ w, 0 < w < 2 ^ 31 → wp (upd_cc (λ c, set_cwnd (if snd_size (p_snd (n_pcb n)) <? cwnd c then snd_size (p_snd (n_pcb n)) else cwnd c) c)) (λ _ n', ∃ k', okc n' k' ∧ acks n k n' k') (with_cc (set_cwnd w c1) n)) as Hgo.
    { intros w Hw. tcp_steps. exists k. rewrite Hsz. simpl. apply (ok_cc_same n k (set_cwnd _ (set_cwnd w c1)) Hok). destruct Hcc. split; simpl; try done; case_if E3; lia. }
    apply wp_if; intros E2; [|apply wp_if; intros E3; [lia|]]; tcp_steps; simpl; fold c.
    + apply (Hgo (w32 _)). destruct Hcc. unfold w32. rewrite Z.mod_small; lia.
    + apply (Hgo (w32 _)). assert (0 ≤ w32 (snd_mss (p_snd (n_pcb n)) * snd_mss (p_snd (n_pcb n))) / cwnd c ≤ 1460 * 1460).
      { unfold w32. rewrite Z.mod_small by nia. split; [apply Z.div_pos; nia|]. apply Z.div_le_upper_bound; nia. }
      unfold w32 in *. rewrite (Z.mod_small (cwnd c + _)); lia.
Qed.

(** Only the round trip estimate changes. *)
Lemma rtt_only n (m : TM unit) : m = ret tt ∨ (∃ R, m = (TcpRttUpdate R ;; upd_rtt (set_rtt_timing false))) →
  wp m (λ _ n', ∃ r, n' = set_n_pcb (set_p_rtt r (n_pcb n)) n) n.
Proof.
  intros [->|[R ->]].
  - apply wp_ret. exists (p_rtt (n_pcb n)). by destruct n as [[] ? ? ? ? ? ? ? ? ?].
  - unfold TcpRttUpdate. apply wp_bind. tcp_steps. apply wp_if; intros _; tcp_steps; simpl; by eexists.
Qed.

(** [una_at] moves forward. *)
Definition ack_at q k := Pos q (Z.max (nxt_at k) q) (max_at k) (rec_at k) (got_at k) (read_at k) (adv_at k) (held k).
Definition with_ack q b n :=
  let s := p_snd (n_pcb n) in
  let s := set_snd_una q s in
  let s := if SeqLt (snd_nxt s) (snd_una s) then set_snd_nxt (snd_una s) s else s in
  set_n_pcb (set_p_snd (set_buffered_bytes (buffered_bytes s - b) s) (n_pcb n)) n.
Lemma ok_ack n k q : okc n k → una_at k < q ≤ max_at k → q ≤ lim →
  let n' := with_ack (w32 (base + q)) (Z.min (q - una_at k) (buffered_bytes (p_snd (n_pcb n)))) n in okc n' (ack_at q k) ∧ acks n k n' (ack_at q k).
Proof.
  intros [[Htx Hact Hst Hsnd Hcc Hrcv Hwire] (Hu & Hf & Hg)] Hq Hql n'. unfold n', with_ack.
  assert (b2z (fin_pending (p_snd (n_pcb n))) ≤ 1) by (destruct (fin_pending _); simpl; lia).
  set (s := set_snd_una _ _). set (s' := if SeqLt _ _ then _ else _).
  assert (s' = set_snd_nxt (w32 (base + Z.max (nxt_at k) q)) s) as ->.
  { unfold s', s. simpl. destruct Hsnd. unfold BUF in *. rewrite so_nxt, SeqLt_pos by lia. destruct (Z.ltb_spec (nxt_at k) q); [by rewrite Z.max_r by lia|].
    rewrite Z.max_l by lia. rewrite <- so_nxt. by destruct (p_snd _). }
  split; [split; [split; simpl; try done|split; simpl; [lia|done]]|].
  - destruct Hst. split; simpl; try done. intros Ha. destruct Hsnd. rewrite (st_acked Ha) in *. lia.
  - destruct Hsnd. split; simpl; try done; [lia|lia|lia|].
    intros Hb. destruct so_data as (m & Em & Hm); [lia|]. exists m. split; [done|]. intros i Hi. apply Hm. lia.
  - by destruct Hcc; split.
  - by destruct Hrcv; split.
  - split; simpl; try done; [lia|do 2 eexists; apply set_rcv_same|by left].
Qed.

Lemma max_una n k : okc n k → (snd_max (p_snd (n_pcb n)) =? snd_una (p_snd (n_pcb n))) = (max_at k =? una_at k).
Proof.
  intros Hok. destruct (snd_bounds n k Hok) as (_ & _ & _ & Hb). destruct (c_snd _ _ _ _ _ _ _ (proj1 Hok)). rewrite so_max, so_una. apply seq_eq. lia.
Qed.
Lemma acks_keeps {B} (m : TM B) n0 k0 n k : acks n0 k0 n k → okc n k → keepsc m → wp m (λ _ n', ∃ k', okc n' k' ∧ acks n0 k0 n' k') n.
Proof. intros Ha Hok Hm. eapply wp_mono; [by apply Hm|]. intros _ n' (k' & Hok' & He'). exists k'. split; [done|]. by eapply acks_trans, acks_ext. Qed.

(** After the acknowledged bytes are gone: the window, the timer, and the client that waited for room. *)
Lemma after_ack n0 k0 n k acked : acks n0 k0 n k → okc n k → 0 ≤ acked ≤ BUF → zlen (taken n) ≤ STREAM_MAX →
  wp (TcpGrowWindow acked ;; RtoStop ;;
      let! s := get_snd id in
      (if negb (snd_max s =? snd_una s) then RtoStart else ret tt) ;;
      (if snd_blocked s && (snd_size s / 4 <=? w32 (snd_size s - buffered_bytes s)) then upd_snd (set_snd_blocked false) ;; TCP_NOTIFY EvWritable else ret tt) ;;
      ret true) (λ _ n', ∃ k', okc n' k' ∧ acks n0 k0 n' k') n.
Proof.
  intros Ha Hok Hb Hmax. apply wp_bind. eapply wp_mono; [by apply (TcpGrowWindow_ok n k)|]. intros _ n1 (k1 & Hok1 & Ha1).
  eapply acks_keeps; [by eapply acks_trans|done|]. apply keeps_bind; [apply keeps_tm|intros _]. apply keeps_bind; [apply keeps_gets|intros s2].
  apply keeps_bind; [apply keeps_if; [apply RtoStart_keeps|apply keeps_ret]|intros _]. apply keeps_bind; [|intros _; apply keeps_ret].
  apply keeps_if; [|apply keeps_ret]. apply keeps_bind; [apply keeps_blocked|intros _; apply TCP_NOTIFY_keeps].
Qed.

Lemma TcpProcessAck_ok n k g q : okc n k → (has (seg_flags g) TCP_ACK = true → seg_ack g = w32 (base + q) ∧ 0 ≤ q ≤ lim) →
  lim ≤ zlen (taken n) + 1 → zlen (taken n) ≤ STREAM_MAX → wp (TcpProcessAck g) (λ _ n', ∃ k', okc n' k' ∧ acks n k n' k') n.
Proof.
  intros Hok Hg Hlim Hmax. unfold TcpProcessAck. tcp_steps. destruct (snd_bounds n k Hok) as (_ & _ & _ & Hb). pose proof (c_snd _ _ _ _ _ _ _ (proj1 Hok)) as Hsnd.
  apply wp_if; intros E1.
  { apply wp_bind. eapply wp_mono; [apply (TcpOnDupAck_ok n k Hok)|intros u n' H'; by apply wp_ret].
    apply andb_prop in E1 as [_ E1]. rewrite (max_una n k Hok) in E1. apply negb_true_iff, Z.eqb_neq in E1. destruct Hsnd. lia. }
  apply wp_if; intros E2; [tcp_steps; exists k; split; [done|apply acks_ext, ext_refl]|]. apply orb_false_iff in E2 as [[Ea E2]%orb_false_iff E3].
  apply negb_false_iff in Ea, E2, E3. destruct (Hg Ea) as [Eq Hq]. unfold STREAM_MAX in *.
  rewrite Eq, (so_una _ _ _ _ _ Hsnd), (so_max _ _ _ _ _ Hsnd) in *. rewrite SeqLt_pos in E2 by (destruct Hsnd; lia). rewrite SeqLeq_pos in E3 by (destruct Hsnd; lia).
  rewrite seq_sub by lia. apply wp_bind, wp_gets, wp_bind, wp_gets, wp_bind. eapply wp_mono.
  { apply rtt_only. unfold id. case_if E4; [right; by eexists|by left]. }
  intros _ n1 [r ->]. apply wp_bind, wp_modify, wp_bind, wp_modify, wp_bind, wp_modify, wp_bind, wp_modify.
  set (acked := Z.min (q - una_at k) (buffered_bytes (p_snd (n_pcb n)))). destruct (ok_ack n k q Hok) as [Hok' Ha']; [lia|lia|]. fold acked in Hok', Ha'.
  set (n1 := with_ack (w32 (base + q)) acked n) in *. set (n2 := set_n_pcb (set_p_rtt (set_retries 0 r) (n_pcb n1)) n1).
  match goal with |- wp ?m ?P _ => change (wp m P n2) end. apply (after_ack n k n2 (ack_at q k)).
  - eapply acks_trans; [exact Ha'|apply acks_ext, ext_rtt, ext_refl].
  - by apply ok_rtt.
  - destruct Hsnd. unfold acked. lia.
  - exact Hmax.
Qed.

(** ** Data that arrives *)

Definition recv_at R l k := Pos (una_at k) (nxt_at k) (max_at k) (rec_at k) R (read_at k) (adv_at k) l.
Definition with_rcv r n := set_n_pcb (set_p_rcv r (n_pcb n)) n.
Lemma ok_rcv n k r R l : okc n k → rcv_ok pbase peer closed (negb (is_state (state (n_pcb n)) TCP_TIME_WAIT)) r (given n) (recv_at R l k) →
  got (p_rcv (n_pcb n)) k ≤ got r (recv_at R l k) → okc (with_rcv r n) (recv_at R l k) ∧ grow n k (with_rcv r n) (recv_at R l k).
Proof.
  intros [[Htx Hact Hst Hsnd Hcc Hrcv Hwire] Hs] Hr Hg. split; [split; [split; simpl; try done|done]|by split].
  - by destruct Hst; split.
  - by destruct Hsnd; split.
  - by destruct Hcc; split.
  - rewrite <- (app_nil_r (taken n)). by eapply wire_mono.
Qed.

(** The receive state after [DeliverData] and [FwdMerge]. *)
Definition delivered (r : rcvq) (m : mem) (bytes : list Z) : rcvq :=
  let room := if SeqLt (rcv_nxt r) (rcv_adv r) then w32 (rcv_adv r - rcv_nxt r) else 0 in
  let n := Z.min (Z.of_nat (length bytes)) room in
  let nxt := w32 (rcv_nxt r + n) in
  let '(l, nxt') := FwdMerge (ranges r) nxt in
  set_rcv_nxt nxt' (set_ranges l (set_rcv_nxt nxt (set_rcv_buf (Some (copy_in m (rcv_size r) (rcv_nxt r) (take (Z.to_nat n) bytes))) r))).
Lemma delivered_ok r gv k m len : rcv_ok pbase peer closed true r gv k → fin_rcvd r = false → zlen peer ≤ STREAM_MAX →
  rcv_buf r = Some m → 0 ≤ len → got_at k + len ≤ zlen peer →
  ∃ R l, rcv_ok pbase peer closed true (delivered r m (slice peer (got_at k) len)) gv (recv_at R l k) ∧ got_at k ≤ R.
Proof.
  intros Hr Hf Hmax Em Hlen Hend. destruct Hr. rewrite Hf in *. simpl in *. unfold STREAM_MAX in *. rewrite Z.add_0_r in *.
  unfold delivered. rewrite ro_nxt, ro_adv, ro_size, ro_ranges. rewrite length_slice by lia. rewrite SeqLt_pos by (unfold BUF in *; lia).
  assert ((if got_at k <? adv_at k then w32 (w32 (pbase + adv_at k) - w32 (pbase + got_at k)) else 0) = adv_at k - got_at k) as ->.
  { destruct (Z.ltb_spec (got_at k) (adv_at k)); [apply seq_sub; unfold BUF in *; lia|lia]. }
  set (n := Z.min len (adv_at k - got_at k)). rewrite seq_add, slice_slice by lia.
  destruct (FwdMerge_ok pbase (got_at k) (Z.min (zlen peer) (adv_at k)) (held k) (got_at k + n)) as (l & R & -> & HR & Hl & Hcnt & Hc & Hs); [lia|done|lia|lia|].
  exists R, l. split; [|lia]. destruct (ro_data eq_refl) as (m' & Em' & Hm). rewrite Em in Em'. injection Em' as <-.
  split; simpl; rewrite ?Hf; simpl; try done; try lia; [by rewrite Z.add_0_r|].
  intros _. eexists. split; [done|]. intros i Hi.
  assert (got_at k + n ≤ i ∧ covers (held k) i ∨ got_at k ≤ i < got_at k + n ∨ read_at k ≤ i < got_at k) as Hi'.
  { destruct Hi as [Hi|Hi].
    - destruct (decide (i < got_at k)); [right; right; lia|]. destruct (decide (i < got_at k + n)); [right; left; lia|left]. split; [lia|apply Hc; lia].
    - pose proof (apart_covers _ _ _ _ Hl Hi). left. split; [lia|by apply Hs]. }
  apply (placed_copy _ _ _ (read_at k)); try lia.
  - destruct Hi' as [[? Hi']|Hi']; [|lia]. pose proof (apart_covers _ _ _ _ ro_apart Hi'). lia.
  - destruct Hi' as [[? Hi']|[Hi'|Hi']]; [left; apply Hm; by right|by right|left; apply Hm; by left].
Qed.

(** Early data is put in its place and its range is remembered. *)
Lemma early_ok r gv k m p len : rcv_ok pbase peer closed true r gv k → fin_rcvd r = false → zlen peer ≤ STREAM_MAX → rcv_buf r = Some m →
  got_at k < p → 0 < len → p + len ≤ Z.min (zlen peer) (adv_at k) → (length (held k) < 8)%nat →
  ∃ l, rcv_ok pbase peer closed true
    (set_ranges (fuse_all (range_insert (ranges r) (w32 (pbase + p)) (w32 (pbase + (p + len)))))
      (set_rcv_buf (Some (copy_in m (rcv_size r) (w32 (pbase + p)) (slice peer p len))) r)) gv (recv_at (got_at k) l k).
Proof.
  intros Hr Hf Hmax Em Hp Hlen Hend Hcnt. destruct Hr. rewrite Hf in *. simpl in *. unfold STREAM_MAX in *.
  destruct (fuse_insert_ok pbase (got_at k) (Z.min (zlen peer) (adv_at k)) p (p + len) (held k)) as (l & El & Hl & Hlen' & Hc); [lia|lia|lia|done|].
  exists l. rewrite ro_ranges, El, ro_size. split; simpl; rewrite ?Hf; simpl; try done; [unfold TCP_OOO_MAX; lia|].
  intros _. destruct (ro_data eq_refl) as (m' & Em' & Hm). rewrite Em in Em'. injection Em' as <-. eexists. split; [done|]. intros i Hi.
  rewrite Hc in Hi. unfold covers in Hi. rewrite Exists_cons in Hi. simpl in Hi. fold (covers (held k) i) in Hi.
  apply (placed_copy _ _ _ (read_at k)); try lia.
  - destruct Hi as [Hi|[Hi|Hi]]; [lia|lia|]. pose proof (apart_covers _ _ _ _ ro_apart Hi). lia.
  - destruct Hi as [Hi|[Hi|Hi]]; [left; apply Hm; by left|by right|left; apply Hm; by right].
Qed.

(** What a segment with data is, for the receiver. *)
Lemma genuine_data live r gv k g p : rcv_ok pbase peer closed live r gv k → genuine pbase base peer closed lim g p → zlen peer ≤ STREAM_MAX → payload_len g ≠ 0 →
  0 ≤ p ∧ 0 < payload_len g ∧ p + payload_len g ≤ zlen peer ∧
  (seg_seq g =? rcv_nxt r) = (p =? got r k) ∧ SeqLt (rcv_nxt r) (seg_seq g) = (got r k <? p) ∧ (got r k ≤ p → fin_rcvd r = false ∧ got r k = got_at k).
Proof.
  intros [] [] Hmax Hne. unfold STREAM_MAX in *. destruct gn_end as [|[Hp He]]; [done|]. assert (0 < payload_len g) by (unfold payload_len in *; lia). assert (0 ≤ b2z (fin_rcvd r) ≤ 1) by (destruct (fin_rcvd r); simpl; lia).
  split; [done|]. split; [done|]. split; [done|]. unfold got. rewrite ro_nxt, gn_seq, seq_eq, SeqLt_pos by lia. split; [done|]. split; [done|]. intros Hle.
  destruct (fin_rcvd r); simpl in *; [|split; [done|lia]]. destruct (ro_fin eq_refl). lia.
Qed.

Lemma StoreOoo_ok n k g p : okc n k → is_state (state (n_pcb n)) TCP_TIME_WAIT = false → genuine pbase base peer closed lim g p → zlen peer ≤ STREAM_MAX →
  payload_len g ≠ 0 → SeqLt (rcv_nxt (p_rcv (n_pcb n))) (seg_seq g) = true → wp (StoreOoo g) (λ _ n', ∃ k', okc n' k' ∧ grow n k n' k') n.
Proof.
  intros Hok Hlive Hgn Hmax Hne Hlt. pose proof (c_rcv _ _ _ _ _ _ _ (proj1 Hok)) as Hr. rewrite Hlive in Hr. simpl in Hr.
  destruct (genuine_data _ _ _ _ _ _ Hr Hgn Hmax Hne) as (Hp & Hl & He & _ & E & Hf). rewrite E in Hlt. apply Z.ltb_lt in Hlt. destruct Hf as [Hf Eg]; [lia|].
  assert (∃ k', okc n k' ∧ grow n k n k') as Hsame by (exists k; split; [done|apply grow_refl]).
  unfold StoreOoo. tcp_steps. apply wp_if; intros _; [by tcp_steps|]. 
  assert (SeqLt (seg_seq g) (rcv_nxt (p_rcv (n_pcb n))) = false) as ->.
  { destruct Hr, Hgn. unfold STREAM_MAX in *. rewrite gn_seq, ro_nxt, SeqLt_pos by (rewrite Hf; simpl; lia). rewrite Hf. simpl. lia. }
  apply wp_if; intros Eadv; [by tcp_steps|]. apply wp_if; intros Ecnt; [by tcp_steps|].
  assert (p + payload_len g ≤ Z.min (zlen peer) (adv_at k)) as Hend.
  { destruct Hr, Hgn. unfold STREAM_MAX, BUF in *. rewrite gn_seq, ro_adv, seq_add, SeqLt_pos in Eadv by (rewrite Hf in *; simpl in *; lia). lia. }
  destruct (ro_data _ _ _ _ _ _ _ Hr eq_refl) as (m & Em & _). rewrite Em. replace (w16 (seg_seq g - seg_seq g)) with 0 by (rewrite Z.sub_diag; done).
  replace (w16 (payload_len g - 0)) with (payload_len g) by (destruct Hgn; unfold w16, TCP_MSS in *; rewrite Z.mod_small; lia).
  tcp_steps. simpl. destruct (early_ok _ _ _ m p (payload_len g) Hr Hf Hmax Em) as (l & Hr'); [lia|lia|done| |].
  { destruct Hr. rewrite ro_ranges, length_fmap in Ecnt. unfold TCP_OOO_MAX in *. lia. }
  exists (recv_at (got_at k) l k). destruct (ok_rcv n k _ (got_at k) l Hok ltac:(rewrite Hlive; exact Hr')) as [Hok' Hg'].
  { unfold got. simpl. rewrite Hf. done. }
  tcp_steps. assert (take (Z.to_nat (payload_len g)) (drop (Z.to_nat 0) (payload g)) = slice peer p (payload_len g)) as ->.
  { rewrite <- (gn_load _ _ _ _ _ _ _ Hgn). rewrite drop_0. apply take_ge. unfold payload_len. lia. }
  rewrite (gn_seq _ _ _ _ _ _ _ Hgn), seq_add. done.
Qed.

(** ** States *)

(** What the parts of a handler establish. *)
Notation grows m n k := (wp m (λ _ n', ∃ k', okc n' k' ∧ grow n k n' k') n).
Lemma grows_keeps {B} (m : TM B) n0 k0 n k : grow n0 k0 n k → okc n k → keepsc m → wp m (λ _ n', ∃ k', okc n' k' ∧ grow n0 k0 n' k') n.
Proof. intros Hg Hok Hm. eapply wp_mono; [by apply Hm|]. intros _ n' (k' & Hok' & He'). exists k'. split; [done|]. by eapply grow_trans, grow_ext. Qed.

Definition with_state st n := set_n_pcb (set_state st (n_pcb n)) n.
Lemma ok_state n k st : okc n k → synced st = true → closing st = closing (state (n_pcb n)) → (all_acked st = true → una_at k = zlen (taken n) + 1) →
  is_state (state (n_pcb n)) TCP_TIME_WAIT = false → is_state st TCP_TIME_WAIT = false → okc (with_state st n) k ∧ grow n k (with_state st n) k.
Proof.
  intros [[Htx Hact Hst Hsnd Hcc Hrcv Hwire] Hs] Hsy Hcl Ha Htw Htw'. split; [|by split]. split; [|done]. rewrite Htw in Hrcv. split; simpl; try done; [|by rewrite Htw'].
  destruct Hst. split; [done|congruence|done].
Qed.

Lemma TcpEnterTimeWait_ok n k : okc n k → closing (state (n_pcb n)) = true → una_at k = zlen (taken n) + 1 → grows TcpEnterTimeWait n k.
Proof.
  intros [[Htx Hact Hst Hsnd Hcc Hrcv Hwire] Hs] Hcl Hu. unfold TcpEnterTimeWait, RtoStop, TcpBufsFree, TcpBufFree.
  assert (∀ b, snd_ok base lim (taken n) (set_snd_buf b (p_snd (n_pcb n))) k) as Hsnd'.
  { intros b. destruct Hsnd. split; simpl; try done. lia. }
  assert (∀ s, fin_pending s = fin_pending (p_snd (n_pcb n)) → st_ok TCP_TIME_WAIT (taken n) s k) as Hst'.
  { intros s E. destruct Hst. split; simpl; try done. congruence. }
  tcp_steps. simpl. destruct (snd_buf _) as [|] eqn:Es; tcp_steps; simpl; destruct (rcv_buf _) as [|] eqn:Er; tcp_steps; exists k;
    (split; [split; [split; simpl; try done|done]|by split]); try (by apply Hst'); try (by eapply rcv_dead); by destruct Hrcv; split.
Qed.

Lemma fin_consumed live r gv k : rcv_ok pbase peer closed live r gv k → fin_seen r = true → fin_rcvd r = false → (rcv_nxt r =? fin_seq r) = true → zlen peer ≤ STREAM_MAX →
  rcv_ok pbase peer closed live (set_rcv_nxt (w32 (rcv_nxt r + 1)) (set_fin_rcvd true r)) gv k.
Proof.
  intros [] Hs Hf E Hmax. rewrite Hf in *. simpl in *. unfold STREAM_MAX in *. destruct (ro_seen Hs) as [Hcl Efs]. rewrite ro_nxt, Efs, seq_eq in E by lia. apply Z.eqb_eq in E.
  split; simpl; try done; [by rewrite ro_nxt, seq_add, Z.add_0_r|lia|]. intros _. split; [done|lia].
Qed.

Lemma ConsumeFin_ok n k : okc n k → zlen peer ≤ STREAM_MAX → grows ConsumeFin n k.
Proof.
  intros Hok Hmax. unfold ConsumeFin. tcp_steps. assert (∃ k', okc n k' ∧ grow n k n k') as Hsame by (exists k; split; [done|apply grow_refl]).
  apply wp_if; intros E1; [by tcp_steps|]. apply orb_false_iff in E1 as [Es%negb_false_iff Ef]. apply wp_if; intros E2; [by tcp_steps|]. apply negb_false_iff in E2.
  pose proof (fin_consumed _ _ _ _ (c_rcv _ _ _ _ _ _ _ (proj1 Hok)) Es Ef E2 Hmax) as Hr. apply wp_bind, wp_modify.
  set (r1 := set_rcv_nxt _ _) in Hr. match goal with |- wp ?m ?P _ => change (wp m P (with_rcv r1 n)) end.
  destruct (ok_rcv n k r1 (got_at k) (held k) Hok) as [Hok1 Hg1]; [by destruct Hr; split|unfold got; simpl; destruct (fin_rcvd _); simpl; lia|].
  set (n1 := with_rcv r1 n) in *. set (k1 := recv_at (got_at k) (held k) k) in *. clearbody n1 k1.
  apply wp_bind. eapply wp_mono; [by apply (ack_keeps base pbase peer closed lim n1 k1)|]. intros _ n2 (k2 & Hok2 & He2). pose proof (grow_trans _ _ _ _ _ _ Hg1 (grow_ext _ _ _ _ He2)) as Hg2.
  tcp_steps. assert (∃ k', okc n2 k' ∧ grow n k n2 k') as Hsame2 by by exists k2.
  destruct (state (n_pcb n2)) eqn:Est; tcp_steps; try done.
  - destruct (ok_state n2 k2 TCP_CLOSE_WAIT) as [Hok3 Hg3]; rewrite ?Est; try done.
    eapply wp_mono; [eapply (grows_keeps _ n k (with_state TCP_CLOSE_WAIT n2)); [by eapply grow_trans|done|apply TCP_NOTIFY_keeps]|]. intros u n4 H4. by tcp_steps.
  - destruct (ok_state n2 k2 TCP_CLOSING) as [Hok3 Hg3]; rewrite ?Est; try done. exists k2. split; [done|by eapply grow_trans].
  - eapply wp_mono; [apply (TcpEnterTimeWait_ok n2 k2); [done|by rewrite Est|]|].
    + apply (st_acked _ _ _ _ (c_st _ _ _ _ _ _ _ (proj1 Hok2))). by rewrite Est.
    + intros _ n4 (k4 & Hok4 & Hg4). tcp_steps. exists k4. split; [done|by eapply grow_trans].
Qed.

Lemma recv_seen n k g p : okc n k → genuine pbase base peer closed lim g p →
  wp (if has (seg_flags g) TCP_FIN && negb (fin_seen (p_rcv (n_pcb n)))
      then upd_rcv (λ r, set_fin_seen true (set_fin_seq (w32 (seg_seq g + payload_len g)) r)) else ret tt)
    (λ _ n', okc n' k ∧ grow n k n' k ∧ state (n_pcb n') = state (n_pcb n)) n.
Proof.
  intros Hok Hg. apply wp_if; intros E; tcp_steps; [|by split; [|split; [apply grow_refl|]]]. apply andb_prop in E as [Ef _].
  destruct (gn_fin _ _ _ _ _ _ _ Hg Ef) as [Hcl He]. pose proof (c_rcv _ _ _ _ _ _ _ (proj1 Hok)) as Hr.
  set (r1 := set_fin_seen _ _). destruct (ok_rcv n k r1 (got_at k) (held k) Hok) as [Hok1 Hg1].
  - destruct Hr. split; try done; unfold r1; simpl; [|by intros H; destruct (ro_fin H)]. intros _. split; [done|]. by rewrite (gn_seq _ _ _ _ _ _ _ Hg), seq_add, He.
  - done.
  - replace (recv_at (got_at k) (held k) k) with k in * by (by destruct k). done.
Qed.

Lemma recv_data n k g p : okc n k → is_state (state (n_pcb n)) TCP_TIME_WAIT = false → genuine pbase base peer closed lim g p → zlen peer ≤ STREAM_MAX → payload_len g ≠ 0 →
  grows (let! r := get_rcv id in
         if seg_seq g =? rcv_nxt r then
           DeliverData (payload g) ;;
           upd_rcv (λ r, let '(l, nxt) := FwdMerge (ranges r) (rcv_nxt r) in set_rcv_nxt nxt (set_ranges l r)) ;;
           let! r := get_rcv id in
           let! acked := (if negb (fin_seen r && (rcv_nxt r =? fin_seq r)) then TcpOutput TCP_ACK 0 ;; ret true else ret false) in
           TCP_NOTIFY EvData ;;
           ret acked
         else if SeqLt (rcv_nxt r) (seg_seq g) then StoreOoo g ;; TcpOutput TCP_ACK 0 ;; ret true
         else TcpOutput TCP_ACK 0 ;; ret true) n k.
Proof.
  intros Hok Hlive Hg Hmax Hne. tcp_steps. pose proof (c_rcv _ _ _ _ _ _ _ (proj1 Hok)) as Hr. rewrite Hlive in Hr. simpl in Hr.
  destruct (genuine_data _ _ _ _ _ _ Hr Hg Hmax Hne) as (Hp & Hl & He & E1 & E2 & Hf). apply wp_if; intros E; [|apply wp_if; intros E3].
  - rewrite E1 in E. apply Z.eqb_eq in E. destruct Hf as [Hf Eg]; [lia|]. destruct (ro_data _ _ _ _ _ _ _ Hr eq_refl) as (m & Em & _).
    destruct (delivered_ok _ _ _ m (payload_len g) Hr Hf Hmax Em) as (R & l & Hr' & HR); [lia|lia|]. rewrite <- Eg, <- E, <- (gn_load _ _ _ _ _ _ _ Hg) in Hr'.
    unfold DeliverData. apply wp_bind, wp_bind, wp_gets. unfold id. rewrite Em. apply wp_bind, wp_ret, wp_bind, wp_modify, wp_modify, wp_bind, wp_modify.
    set (r1 := delivered _ _ _) in Hr'. match goal with |- wp ?m ?P _ => assert (wp m P (with_rcv r1 n)) as Hgo end.
    { destruct (ok_rcv n k r1 R l Hok) as [Hok1 Hg1]; [by rewrite Hlive| |].
      - rewrite Eg. unfold got, b2z. simpl. case_match; lia.
      - eapply grows_keeps; [exact Hg1|exact Hok1|]. apply keeps_bind; [apply keeps_gets|intros r2].
        apply keeps_bind; [apply keeps_if; [apply keeps_bind; [apply ack_keeps|intros _; apply keeps_ret]|apply keeps_ret]|intros b].
        apply keeps_bind; [apply TCP_NOTIFY_keeps|intros _; apply keeps_ret]. }
    unfold r1, delivered in Hgo. simpl. unfold payload_len in *. destruct (FwdMerge _ _) as [l1 nx1]. exact Hgo.
  - apply wp_bind. eapply wp_mono; [by eapply (StoreOoo_ok n k g p)|]. intros _ n1 (k1 & Hok1 & Hg1).
    eapply grows_keeps; [exact Hg1|done|]. apply keeps_bind; [apply ack_keeps|intros _; apply keeps_ret].
  - eapply grows_keeps; [apply grow_refl|done|]. apply keeps_bind; [apply ack_keeps|intros _; apply keeps_ret].
Qed.

Lemma TcpRecvText_ok n k g p : okc n k → is_state (state (n_pcb n)) TCP_TIME_WAIT = false → genuine pbase base peer closed lim g p → zlen peer ≤ STREAM_MAX →
  grows (TcpRecvText g) n k.
Proof.
  intros Hok Hlive Hg Hmax. unfold TcpRecvText. apply wp_bind, wp_gets, wp_bind. eapply wp_mono; [by apply (recv_seen n k g p)|].
  intros _ n1 (Hok1 & Hg1 & Hst1). rewrite <- Hst1 in Hlive. apply wp_bind.
  match goal with |- wp ?m _ _ => assert (grows m n1 k) as Hm2 end.
  { apply wp_if; intros E; [|tcp_steps; exists k; split; [done|apply grow_refl]]. apply negb_true_iff, Z.eqb_neq in E. by apply (recv_data n1 k g p). }
  eapply wp_mono; [exact Hm2|]. intros acked n2 (k2 & Hok2 & Hg2). apply wp_bind. eapply wp_mono; [by apply (ConsumeFin_ok n2 k2)|]. intros c n3 (k3 & Hok3 & Hg3).
  eapply grows_keeps; [|exact Hok3|].
  - eapply grow_trans, Hg3. by eapply grow_trans.
  - apply keeps_if; [|apply keeps_ret]. apply keeps_bind; [apply ack_keeps|intros _; apply keeps_ret].
Qed.

(** ** The handlers of the states *)

Lemma grows_runs {B} (m : TM B) n0 k0 n k : grow n0 k0 n k → grows m n k → wp m (λ _ n', ∃ k', inv n' k' ∧ grow n0 k0 n' k') n.
Proof. intros Hg Hm. eapply wp_mono; [exact Hm|]. intros _ n' (k' & Hok' & Hg'). exists k'. split; [by left|by eapply grow_trans]. Qed.
Lemma maybe_ack (b : bool) : keepsc (if b then TcpOutput TCP_ACK 0 ;; ret tt else ret tt).
Proof. apply keeps_if; [|apply keeps_ret]. apply keeps_bind; [apply ack_keeps|intros _; apply keeps_ret]. Qed.
Lemma runs_same {B} (m : TM B) n0 k0 n k : grow n0 k0 n k → okc n k → keepsc m → wp m (λ _ n', ∃ k', inv n' k' ∧ grow n0 k0 n' k') n.
Proof. intros Hg Hok Hm. eapply runs_from; [exact Hg|by apply runs_keeps]. Qed.

Lemma fin_acked n k : okc n k → TcpFinAcked (p_snd (n_pcb n)) = true → closing (state (n_pcb n)) = true ∧ una_at k = zlen (taken n) + 1.
Proof.
  intros Hok [Hfs E]%andb_prop. destruct (snd_bounds n k Hok) as (_ & _ & _ & Hb). destruct Hok as [[_ _ [] [] _ _ _] (_ & Hf & _)]. destruct (Hf Hfs) as [Hp Hm].
  rewrite so_max, so_una, SeqLeq_pos in E by lia. split; [congruence|lia].
Qed.

(** A segment that may be delivered: part of the peer's stream, with an acknowledgement of ours. *)
Definition arrives (n : net) (g : TcpSegment) : Prop :=
  (∃ p, genuine pbase base peer closed lim g p) ∧ lim ≤ zlen (taken n) + 1 ∧ zlen (taken n) ≤ STREAM_MAX ∧ zlen peer ≤ STREAM_MAX.

Lemma process_ack n k g : okc n k → arrives n g → wp (TcpProcessAck g) (λ _ n', ∃ k', okc n' k' ∧ acks n k n' k') n.
Proof.
  intros Hok ((p & Hg) & Hlim & HT & HS). destruct (has (seg_flags g) TCP_ACK) eqn:Ea.
  - destruct (gn_ack _ _ _ _ _ _ _ Hg Ea) as (q & Eq & Hq). by apply (TcpProcessAck_ok n k g q).
  - apply (TcpProcessAck_ok n k g 0); try done. by rewrite Ea.
Qed.

Lemma moves_live st st' : moves st st' → is_state st TCP_TIME_WAIT = false → is_state st' TCP_TIME_WAIT = false.
Proof. intros [->|[[-> ->]|[-> ->]]]; done. Qed.
(** Text after an acknowledgement that has been dealt with. *)
Lemma text_after n0 k0 n k g : okc n k → grow n0 k0 n k → is_state (state (n_pcb n)) TCP_TIME_WAIT = false → arrives n0 g →
  wp (TcpRecvText g) (λ _ n', ∃ k', inv n' k' ∧ grow n0 k0 n' k') n.
Proof. intros Hok Hg Hl ((p & Hgn) & _ & _ & HS). eapply grows_runs; [exact Hg|]. by apply (TcpRecvText_ok n k g p). Qed.

Lemma OnEstablished_runs n k g : okc n k → arrives n g → is_state (state (n_pcb n)) TCP_TIME_WAIT = false → runs (OnEstablished g) n k.
Proof.
  intros Hok Hg Hl. unfold runs, OnEstablished. apply wp_bind. eapply wp_mono; [by apply (process_ack n k)|]. intros _ n1 (k1 & Hok1 & Ha1).
  pose proof (moves_live _ _ (a_state _ _ _ _ Ha1) Hl) as Hl1. apply grow_acks in Ha1. tcp_steps. apply wp_if; intros E; [|by eapply text_after].
  apply (runs_same _ n k n1 k1 Ha1 Hok1 (maybe_ack true)).
Qed.
Lemma OnFinWait1_runs n k g : okc n k → arrives n g → state (n_pcb n) = TCP_FIN_WAIT_1 → runs (OnFinWait1 g) n k.
Proof.
  intros Hok Hg Hst. unfold runs, OnFinWait1. apply wp_bind. eapply wp_mono; [by apply (process_ack n k)|]. intros _ n1 (k1 & Hok1 & Ha1).
  assert (state (n_pcb n1) = TCP_FIN_WAIT_1) as Hst1 by (destruct (a_state _ _ _ _ Ha1) as [->|[[H _]|[H _]]]; congruence).
  apply grow_acks in Ha1. apply wp_bind, wp_gets, wp_bind. apply wp_when; intros E; [|by eapply text_after; rewrite ?Hst1].
  destruct (fin_acked n1 k1 Hok1 E) as [_ Hu]. unfold TcpEnterFinWait2. tcp_steps.
  destruct (ok_state n1 k1 TCP_FIN_WAIT_2) as [Hok2 Hg2]; rewrite ?Hst1; try done. apply (text_after n k _ k1); [|by eapply grow_trans|done|done]. by apply (ok_tm _ _ _ _ _ (with_state _ n1)).
Qed.
Lemma OnFinWait2_runs n k g : okc n k → arrives n g → is_state (state (n_pcb n)) TCP_TIME_WAIT = false → runs (OnFinWait2 g) n k.
Proof.
  intros Hok Hg Hl. unfold runs, OnFinWait2. apply wp_bind. eapply wp_mono; [by apply (process_ack n k)|]. intros _ n1 (k1 & Hok1 & Ha1).
  pose proof (moves_live _ _ (a_state _ _ _ _ Ha1) Hl) as Hl1. apply grow_acks in Ha1. by eapply text_after.
Qed.
Lemma OnClosing_runs n k g : okc n k → arrives n g → runs (OnClosing g) n k.
Proof.
  intros Hok Hg. unfold runs, OnClosing. apply wp_bind. eapply wp_mono; [by apply (process_ack n k)|]. intros b n1 (k1 & Hok1 & Ha1).
  apply grow_acks in Ha1. tcp_steps. apply wp_if; intros E; [|apply (runs_same _ n k n1 k1 Ha1 Hok1), maybe_ack].
  apply andb_prop in E as [_ E]. destruct (fin_acked n1 k1 Hok1 E) as [Hcl Hu]. eapply grows_runs; [exact Ha1|by apply TcpEnterTimeWait_ok].
Qed.
Lemma OnLastAck_runs n k g : okc n k → arrives n g → runs (OnLastAck g) n k.
Proof.
  intros Hok Hg. unfold runs, OnLastAck. apply wp_bind. eapply wp_mono; [by apply (process_ack n k)|]. intros b n1 (k1 & Hok1 & Ha1).
  apply grow_acks in Ha1. tcp_steps. apply wp_if; intros E; [eapply runs_from; [exact Ha1|by apply release_runs]|]. apply (runs_same _ n k n1 k1 Ha1 Hok1), keeps_ret.
Qed.
Lemma OnCloseWait_runs n k g : okc n k → arrives n g → runs (OnCloseWait g) n k.
Proof.
  intros Hok Hg. unfold runs, OnCloseWait. apply wp_bind. eapply wp_mono; [by apply (process_ack n k)|]. intros b n1 (k1 & Hok1 & Ha1).
  apply (runs_same _ n k n1 k1 (grow_acks _ _ _ _ Ha1) Hok1), maybe_ack.
Qed.
Lemma OnTimeWait_runs n k g : okc n k → state (n_pcb n) = TCP_TIME_WAIT → runs (if has (seg_flags g) TCP_FIN then TcpOutput TCP_ACK 0 ;; TcpEnterTimeWait else ret tt) n k.
Proof.
  intros Hok Hst. apply wp_if; intros _; [|by apply runs_keeps, keeps_ret]. apply runs_then; [done|apply ack_keeps|]. intros b n1 k1 Hok1 He1.
  assert (state (n_pcb n1) = TCP_TIME_WAIT) as Hst1 by (destruct (e_state _ _ _ _ He1) as [->|[[H _]|[H _]]]; congruence).
  eapply grows_runs; [apply grow_refl|]. apply TcpEnterTimeWait_ok; [done|by rewrite Hst1|]. apply (st_acked _ _ _ _ (c_st _ _ _ _ _ _ _ (proj1 Hok1))). by rewrite Hst1.
Qed.

(** ** Segments, timers and calls *)

Lemma ok_wnd n k w x : okc n k → 0 ≤ w < 2 ^ 16 → 0 ≤ x →
  let n' := set_n_pcb (set_p_snd (set_max_snd_wnd x (set_snd_wnd w (p_snd (n_pcb n)))) (n_pcb n)) n in okc n' k ∧ grow n k n' k.
Proof.
  intros [[Htx Hact Hst Hsnd Hcc Hrcv Hwire] Hs] Hw Hx. split; [split; [split; simpl; try done|done]|by split]; [by destruct Hst; split|by destruct Hsnd; split].
Qed.

Lemma dispatch_tail n k : inv n k →
  runs (let! a := gets (λ n, active (n_pcb n)) in
        let! st := get_state in
        if a then match st with TCP_ESTABLISHED | TCP_CLOSE_WAIT | TCP_FIN_WAIT_1 | TCP_LAST_ACK => TcpXmit ;; ret tt | _ => ret tt end else ret tt) n k.
Proof.
  intros [Hok|Ho]; unfold runs; tcp_steps.
  - apply wp_if; intros _; [|by apply runs_keeps, keeps_ret]. assert (keepsc (TcpXmit ;; ret tt)) as Hx by (apply keeps_bind; [apply TcpXmit_keeps|intros _; apply keeps_ret]).
    destruct (state (n_pcb n)); apply (runs_keeps _ n k Hok); lazymatch goal with |- context [TcpXmit] => exact Hx | _ => apply keeps_ret end.
  - rewrite (v_active _ _ Ho). tcp_steps. exists k. split; [by right|apply grow_refl].
Qed.

(** A reset ends the connection or is ignored; any other segment is handled and what may be sent is sent. *)
Lemma TcpDispatch_runs n k g : okc n k → has (seg_flags g) TCP_RST = true ∨ arrives n g → runs (TcpDispatch g) n k.
Proof.
  intros Hok Hg. unfold runs, TcpDispatch. tcp_steps. apply wp_if; intros E.
  { tcp_steps. apply wp_if; intros _; [by apply release_runs|by apply runs_keeps, keeps_ret]. }
  destruct Hg as [Hg|Hg]; [congruence|]. destruct (c_st _ _ _ _ _ _ _ (proj1 Hok)) as [Hsy _ _]. tcp_steps.
  destruct Hg as ((p & Hgn) & Hrest). destruct (ok_wnd n k (seg_window g) (Z.max (seg_window g) (max_snd_wnd (p_snd (n_pcb n)))) Hok) as [Hok1 Hg1]; [apply Hgn|pose proof (gn_win _ _ _ _ _ _ _ Hgn); lia|].
  set (n1 := set_n_pcb _ n) in *. assert (arrives n1 g) as Ha by (split; [by exists p|done]). change (state (n_pcb n)) with (state (n_pcb n1)) in *.
  assert (∀ m : TM unit, runs m n1 k → wp m (λ _ n2, wp (let! a := gets (λ n, active (n_pcb n)) in let! st := get_state in
    if a then match st with TCP_ESTABLISHED | TCP_CLOSE_WAIT | TCP_FIN_WAIT_1 | TCP_LAST_ACK => TcpXmit ;; ret tt | _ => ret tt end else ret tt)
    (λ _ n', ∃ k', inv n' k' ∧ grow n k n' k') n2) n1) as Hgo.
  { intros m Hm. eapply wp_mono; [exact Hm|]. intros _ n2 (k2 & Hi2 & Hg2). eapply runs_from; [by eapply grow_trans|by apply dispatch_tail]. }
  apply Hgo. clear Hgo. destruct (state (n_pcb n1)) eqn:Hst; try done;
    [apply OnEstablished_runs|apply OnFinWait1_runs|apply OnFinWait2_runs|apply OnTimeWait_runs|apply OnCloseWait_runs|apply OnLastAck_runs|apply OnClosing_runs]; try done; by rewrite Hst.
Qed.

Lemma TcpRtoCb_runs n0 k0 : okc n0 k0 → runs TcpRtoCb n0 k0.
Proof.
  intros Hok0. unfold TcpRtoCb. apply runs_then; [done|apply keeps_tm|]. intros _ n k Hok _. unfold runs. tcp_steps.
  apply wp_if; intros _; [by apply runs_keeps, keeps_ret|]. tcp_steps. simpl. pose proof (ok_rtt base pbase peer closed lim n k (set_retries (retries (p_rtt (n_pcb n)) + 1) (p_rtt (n_pcb n))) Hok) as Hok1.
  set (n1 := set_n_pcb _ n) in *. assert (grow n k n1 k) as Hg1 by by split. set (op := _ || _).
  assert (op = false) as -> by (unfold op; destruct (c_st _ _ _ _ _ _ _ (proj1 Hok)) as [Hsy _ _]; by destruct (state (n_pcb n))).
  apply wp_if; intros _; [eapply runs_from; [exact Hg1|by apply release_runs]|]. tcp_steps.
  destruct (snd_bounds n k Hok) as (Hmss & Hsz & Hfl & Hflb). pose proof (so_una _ _ _ _ _ (c_snd _ _ _ _ _ _ _ (proj1 Hok))) as Eu. pose proof (so_ord _ _ _ _ _ (c_snd _ _ _ _ _ _ _ (proj1 Hok))) as Ho.
  simpl. rewrite Hfl. match goal with |- wp _ _ ?x => set (n4 := x) end.
  assert (okc n4 (set_rec_at (max_at k) (set_nxt_at (una_at k) k))) as Hok4.
  { destruct Hok as [Hc (Hu & Hf & Hg)]. pose proof (conn_nxt _ _ _ _ _ n k (una_at k) Hc ltac:(lia)) as Hc'. rewrite <- Eu in Hc'.
    destruct (ok_cc (with_nxt (snd_una (p_snd (n_pcb n))) n) (set_nxt_at (una_at k) k) (Cc (snd_mss (p_snd (n_pcb n))) (Z.max ((max_at k - una_at k) / 2) (2 * snd_mss (p_snd (n_pcb n)))) 0 (snd_max (p_snd (n_pcb n))) false) (max_at k)) as [[Hc4 Hs4] _].
    - split; [done|]. split; simpl; [lia|done].
    - split; simpl; try lia; [|Z.div_mod_to_equations; lia]. apply (so_max _ _ _ _ _ (c_snd _ _ _ _ _ _ _ Hc)).
    - split; [|exact Hs4]. destruct Hc4. by split. }
  eapply wp_mono; [apply (runs_same TcpXmit n k n4 (set_rec_at (max_at k) (set_nxt_at (una_at k) k))); [by split|done|apply TcpXmit_keeps]|].
  intros u n5 H5. by apply wp_ret.
Qed.
Lemma TimeWaitCb_runs n k : okc n k → runs TimeWaitCb n k.
Proof. intros Hok. unfold TimeWaitCb. apply runs_then; [done|apply keeps_tm|]. intros _ n' k' Hok' _. by apply release_runs. Qed.
Lemma FinWait2Cb_runs n k : okc n k → runs FinWait2Cb n k.
Proof. intros Hok. unfold FinWait2Cb. apply runs_then; [done|apply keeps_tm|]. intros _ n' k' Hok' _. by apply release_runs. Qed.
Lemma api_call_runs a n k : okc n k → runs (api_call a) n k.
Proof.
  intros Hok. apply runs_keeps; [done|]. destruct a; simpl; (apply keeps_bind; [|intros _; apply keeps_ret]); [apply TcpSend_keeps|apply TcpRecv_keeps; lia|apply TcpClose_keeps].
Qed.
End handlers.
