(* ===== verification/TcpSys.v ===== *)
(** Two TCP connections joined by a network.

    Each side runs the functions of netd's transport on its own state.  The network keeps every
    segment that a side has ever sent and may deliver any of them at any time, any number of times
    or never; it may also deliver resets that nobody has sent.  The clients call [TcpSend],
    [TcpRecv] and [TcpClose], from their own code or from the callbacks, and the timers fire.  A
    schedule is a list of such moves; a move that is not possible does nothing. *)
From S2P Require Import Prelude Str Ring Tcp TcpInv TcpConn.

#[local] Open Scope Z_scope.

Inductive move :=
  | Call (a : api)
  | Deliver (i : nat)
  | Reset (g : TcpSegment)
  | RtoTimer | PersistTimer | TimeWaitTimer | FinWait2Timer
  | Tick (t : Z).

(** The function a move runs on a side, when the other side has sent the segments [sent]. *)
Definition move_fn (mv : move) (n : net) (sent : list TcpSegment) : TM unit :=
  let armed (f : tmrs → option Z) := bool_decide (is_Some (f (p_tm (n_pcb n)))) in
  match mv with
  | Call a => api_call a
  | Deliver i => match sent !! i with Some g => TcpDispatch g | None => ret tt end
  | Reset g => when (has (seg_flags g) TCP_RST) (TcpDispatch g)
  | RtoTimer => when (armed rto_timer) TcpRtoCb
  | PersistTimer => when (armed persist_timer) TcpPersistCb
  | TimeWaitTimer => when (armed tw_timer) TimeWaitCb
  | FinWait2Timer => when (armed fin_wait2_timer) FinWait2Cb
  | Tick t => modify (set_now (w32 t))
  end.
(** A released connection is gone from the table; a stream that has grown to [STREAM_MAX] bytes
    gets no more segments, so that no old segment is taken for a new one. *)
Definition short (n : net) : bool := Z.of_nat (length (taken n)) <=? STREAM_MAX.
Definition host_step (mv : move) (n other : net) : res net :=
  if negb (active (n_pcb n)) then Ok n else
  if match mv with Deliver _ => negb (short n && short other) | _ => false end then Ok n else
  match move_fn mv n (wire other) n with Ok (_, n') => Ok n' | Panic => Panic | Diverge => Diverge end.

Definition world : Type := net * net.
Definition world_step (w : world) (x : bool * move) : res world :=
  let '(l, r) := w in
  if x.1 then match host_step x.2 l r with Ok l' => Ok (l', r) | Panic => Panic | Diverge => Diverge end
  else match host_step x.2 r l with Ok r' => Ok (l, r') | Panic => Panic | Diverge => Diverge end.
Fixpoint world_run (w : world) (xs : list (bool * move)) : res world :=
  match xs with
  | [] => Ok w
  | x :: xs' => match world_step w x with Ok w' => world_run w' xs' | Panic => Panic | Diverge => Diverge end
  end.

(** A connection as the handshake leaves it: nothing sent or received yet. *)
Record opened (base pbase : Z) (n : net) : Prop := {
  op_tx : tx_results n = [];
  op_pcb : active (n_pcb n) = true ∧ state (n_pcb n) = TCP_ESTABLISHED;
  op_snd : snd_nxt (p_snd (n_pcb n)) = w32 base ∧ snd_una (p_snd (n_pcb n)) = w32 base ∧ snd_max (p_snd (n_pcb n)) = w32 base;
  op_mss : 0 < snd_mss (p_snd (n_pcb n)) ≤ TCP_MSS;
  op_wnd : 0 ≤ snd_wnd (p_snd (n_pcb n)) < 2 ^ 16 ∧ 0 ≤ max_snd_wnd (p_snd (n_pcb n));
  op_buf : snd_size (p_snd (n_pcb n)) = BUF ∧ buffered_bytes (p_snd (n_pcb n)) = 0;
  op_fin : fin_pending (p_snd (n_pcb n)) = false ∧ fin_sent (p_snd (n_pcb n)) = false;
  op_cc : (∃ v, -1 ≤ v ≤ 0 ∧ recover (p_cc (n_pcb n)) = w32 (base + v)) ∧ in_recovery (p_cc (n_pcb n)) = false ∧ 0 < ssthresh (p_cc (n_pcb n)) < 2 ^ 32 ∧ 0 < cwnd (p_cc (n_pcb n)) ≤ 2 ^ 17;
  op_rcv : rcv_nxt (p_rcv (n_pcb n)) = w32 pbase ∧ rcv_rsq (p_rcv (n_pcb n)) = w32 pbase ∧ rcv_adv (p_rcv (n_pcb n)) = w32 (pbase + BUF);
  op_ring : rcv_size (p_rcv (n_pcb n)) = BUF ∧ is_Some (rcv_buf (p_rcv (n_pcb n))) ∧ ranges (p_rcv (n_pcb n)) = [];
  op_seen : fin_seen (p_rcv (n_pcb n)) = false ∧ fin_rcvd (p_rcv (n_pcb n)) = false;
  op_streams : given n = [] ∧ taken n = [];
  op_wire : wire_ok base pbase [] false 0 (wire n);
}.
Definition start_at (v : Z) : pos := Pos 0 0 0 v 0 0 BUF [].
Lemma opened_ok base pbase n : opened base pbase n → ∃ v, ok base pbase [] false 0 n (start_at v).
Proof.
  intros [Htx [Hact Hst] (E1 & E2 & E3) Hmss Hwnd [Hsz Hb] [Hp Hs] ([v [Hv Er]] & Hrec & Hth & Hcw) (F1 & F2 & F3) (G1 & [m G2] & G3) [Hf1 Hf2] [Hg Ht] Hw].
  exists v. split; [split; rewrite ?Ht, ?Hst, ?Hf2; try done|split; simpl; [done|]; rewrite Ht, Hs; done].
  - split; simpl; rewrite ?Z.add_0_r, ?Hp, ?Hb; try done; lia.
  - split; simpl; rewrite ?Z.add_0_r; try done; lia.
  - split; simpl; rewrite ?Hf1, ?Hf2, ?G3; simpl; rewrite ?Z.add_0_r; try done.
    intros _. exists m. split; [done|]. intros i [Hi|Hi]; [lia|by apply Exists_nil in Hi].
  - unfold got. by rewrite Hp, Hf2.
Qed.

(** ** The invariant of the two sides *)

Lemma inv_mono base pbase peer closed lim n k P2 closed' lim' : inv base pbase peer closed lim n k →
  (closed = true → closed' = true ∧ P2 = []) → lim ≤ lim' → inv base pbase (peer ++ P2) closed' lim' n k.
Proof.
  intros [[[Htx Hact Hst Hsnd Hcc Hrcv Hwire] Hs]|[Htx Hact Hrcv Hwire]] Hc Hl.
  - left. split; [split; try done|done]; [by destruct Hsnd; split; try done; lia|by eapply rcv_mono].
  - right. split; try done. by eapply rcv_mono.
Qed.
Lemma inv_rcv base pbase peer closed lim n k : inv base pbase peer closed lim n k → ∃ live, rcv_ok pbase peer closed live (p_rcv (n_pcb n)) (given n) k.
Proof. intros [[[] _]|[]]; eauto. Qed.
Lemma inv_wire base pbase peer closed lim n k : inv base pbase peer closed lim n k →
  wire_ok base pbase (taken n) (fin_pending (p_snd (n_pcb n))) (got (p_rcv (n_pcb n)) k) (wire n).
Proof. intros [[[] _]|[]]; done. Qed.
Lemma got_top pbase peer closed live r gv k : rcv_ok pbase peer closed live r gv k → got r k ≤ zlen peer + 1.
Proof. intros []. unfold got. destruct (fin_rcvd r); simpl; lia. Qed.

(** Each side is as the invariant says, with the other side's stream as its peer's. *)
Definition joined (lb rb : Z) (l r : net) (kl kr : pos) : Prop :=
  inv lb rb (taken r) (fin_pending (p_snd (n_pcb r))) (got (p_rcv (n_pcb r)) kr) l kl ∧
  inv rb lb (taken l) (fin_pending (p_snd (n_pcb l))) (got (p_rcv (n_pcb l)) kl) r kr.

Lemma host_step_ok lb rb l r kl kr mv : joined lb rb l r kl kr → ∃ l' kl', host_step mv l r = Ok l' ∧ joined lb rb l' r kl' kr.
Proof.
  intros [Hl Hr]. unfold host_step. destruct Hl as [Hok|Ho]; [|rewrite (v_active _ _ _ _ _ _ Ho); exists l, kl; split; [done|by split; [right|]]].
  rewrite (c_active _ _ _ _ _ _ _ (proj1 Hok)). simpl. case_if E; [exists l, kl; split; [done|by split; [left|]]|].
  assert (runs lb rb (taken r) (fin_pending (p_snd (n_pcb r))) (got (p_rcv (n_pcb r)) kr) (move_fn mv l (wire r)) l kl) as Hrun.
  { destruct mv; simpl; try (unfold runs; apply wp_when; intros ?; [|exists kl; split; [by left|apply grow_refl]]).
    - by apply api_call_runs.
    - destruct (wire r !! i) as [g|] eqn:Eg; [|by apply runs_keeps, keeps_ret]. apply TcpDispatch_runs; [done|right].
      apply negb_false_iff, andb_prop in E as [E1%Z.leb_le E2%Z.leb_le]. split; [|split; [|done]].
      + pose proof (inv_wire _ _ _ _ _ _ _ Hr) as Hw. apply (Forall_lookup_1 _ _ _ _ Hw Eg).
      + destruct (inv_rcv _ _ _ _ _ _ _ Hr) as [live Hrcv]. by eapply got_top.
    - apply TcpDispatch_runs; [done|by left].
    - by apply TcpRtoCb_runs.
    - by apply runs_keeps, TcpPersistCb_keeps.
    - by apply TimeWaitCb_runs.
    - by apply FinWait2Cb_runs.
    - apply wp_modify. exists kl. split; [left|by split]. destruct Hok as [[] Hs]. by split; [split|]. }
  apply wp_Ok in Hrun as (u & l' & -> & kl' & Hi & Hg). exists l', kl'. split; [done|]. split; [done|].
  destruct (g_taken _ _ _ _ Hg) as [T2 ET]. rewrite ET. eapply inv_mono; [exact Hr| |apply Hg].
  intros Hp. destruct (g_frozen _ _ _ _ Hg Hp) as [Hp' E']. split; [done|]. rewrite ET in E'. rewrite <- (app_nil_r (taken l)) in E' at 2. by apply app_inv_head in E'.
Qed.

Lemma world_run_ok lb rb l r kl kr xs : joined lb rb l r kl kr → ∃ l' r' kl' kr', world_run (l, r) xs = Ok (l', r') ∧ joined lb rb l' r' kl' kr'.
Proof.
  revert l r kl kr. induction xs as [|[b mv] xs IH]; intros l r kl kr Hj; simpl; [by exists l, r, kl, kr|]. destruct b; simpl.
  - destruct (host_step_ok _ _ _ _ _ _ mv Hj) as (l' & kl' & -> & Hj'). by eapply IH.
  - destruct Hj as [Hl Hr]. destruct (host_step_ok rb lb r l kr kl mv (conj Hr Hl)) as (r' & kr' & -> & [Hr' Hl']). by eapply IH.
Qed.
Lemma opened_joined lb rb l r : opened lb rb l → opened rb lb r → ∃ kl kr, joined lb rb l r kl kr.
Proof.
  intros Hl Hr. destruct (op_streams _ _ _ Hl) as [_ El], (op_streams _ _ _ Hr) as [_ Er]. destruct (op_fin _ _ _ Hl) as [Pl _], (op_fin _ _ _ Hr) as [Pr _].
  destruct (op_seen _ _ _ Hl) as [_ Sl], (op_seen _ _ _ Hr) as [_ Sr]. 
  destruct (opened_ok _ _ _ Hl) as [vl Hokl], (opened_ok _ _ _ Hr) as [vr Hokr]. exists (start_at vl), (start_at vr).
  unfold joined, got. rewrite El, Er, Pl, Pr, Sl, Sr. by split; left.
Qed.

(** ** What the clients see *)

(** What has been received and not yet read. *)
Definition unread (n : net) : list Z :=
  let r := p_rcv (n_pcb n) in
  let avail := w32 (rcv_nxt r - rcv_rsq r) in
  match rcv_buf r with
  | Some m => copy_out m (rcv_size r) (rcv_rsq r) (if fin_rcvd r && truthy avail then avail - 1 else avail)
  | None => []
  end.
Lemma given_prefix lb rb l r kl kr : joined lb rb l r kl kr → given l `prefix_of` taken r.
Proof.
  intros [Hl _]. destruct (inv_rcv _ _ _ _ _ _ _ Hl) as [live []]. rewrite ro_given. exists (drop (Z.to_nat (read_at kl)) (taken r)). by rewrite take_drop.
Qed.
Lemma unread_rest pbase peer closed r gv k : rcv_ok pbase peer closed true r gv k → ∀ n, p_rcv (n_pcb n) = r → given n = gv →
  gv ++ unread n = take (Z.to_nat (got_at k)) peer.
Proof.
  intros Hr n En Eg. unfold unread. rewrite En, (recv_avail _ _ _ _ _ _ _ Hr). destruct Hr. destruct (ro_data eq_refl) as (m & -> & Hm).
  rewrite ro_size, ro_rsq, ro_given. rewrite (copy_placed _ peer) by (try intros; try apply Hm; lia). rewrite slice_take by lia. f_equal. f_equal. lia.
Qed.

(** C5: Two connections that the handshake has opened, joined by a network that loses, repeats and
    reorders segments and forges resets, never fail, and at any time each client has been given a
    prefix of the bytes taken from the other.  When a side has seen its FIN acknowledged, the other
    has received all of its stream, and what its client has not read is in the buffer. *)
Theorem tcp_stream lb rb l r xs : opened lb rb l → opened rb lb r →
  ∃ l' r', world_run (l, r) xs = Ok (l', r') ∧
    given l' `prefix_of` taken r' ∧ given r' `prefix_of` taken l' ∧
    (active (n_pcb l') = true → all_acked (state (n_pcb l')) = true →
       fin_rcvd (p_rcv (n_pcb r')) = true ∧
       (active (n_pcb r') = true → state (n_pcb r') ≠ TCP_TIME_WAIT → given r' ++ unread r' = taken l')).
Proof.
  intros Hl Hr. destruct (opened_joined _ _ _ _ Hl Hr) as (kl0 & kr0 & Hj0). destruct (world_run_ok _ _ _ _ _ _ xs Hj0) as (l' & r' & kl & kr & E & Hj).
  exists l', r'. split; [done|]. split; [by eapply given_prefix|]. destruct Hj as [Hl' Hr']. split; [by eapply given_prefix|].
  intros Ha Hst. destruct Hl' as [[Hc Hs]|Ho]; [|rewrite (v_active _ _ _ _ _ _ Ho) in Ha; done].
  pose proof (st_acked _ _ _ _ (c_st _ _ _ _ _ _ _ Hc) Hst) as Hu. pose proof (so_lim _ _ _ _ _ (c_snd _ _ _ _ _ _ _ Hc)) as Hlim.
  destruct (inv_rcv _ _ _ _ _ _ _ Hr') as [live Hrcv]. pose proof Hrcv as []. unfold got in Hlim.
  assert (fin_rcvd (p_rcv (n_pcb r')) = true) as Hf by (destruct (fin_rcvd _); [done|simpl in *; lia]). split; [done|]. intros Har Hsr.
  destruct Hr' as [[Hcr _]|Ho]; [|rewrite (v_active _ _ _ _ _ _ Ho) in Har; done]. pose proof (c_rcv _ _ _ _ _ _ _ Hcr) as Hrr. destruct (ro_fin Hf) as [_ Eg].
  assert (is_state (state (n_pcb r')) TCP_TIME_WAIT = false) as Htw by (unfold is_state; by apply bool_decide_eq_false_2). rewrite Htw in Hrr.
  rewrite (unread_rest _ _ _ _ _ _ Hrr r') by done. rewrite Eg, Nat2Z.id. apply firstn_all.
Qed.

(** A run: a client sends three bytes near the wrap of the sequence numbers and closes, the other
    reads them after the segment has arrived twice, and closes. *)
Module TcpDemo.
Definition host (base pbase : Z) : net :=
  Net (Pcb TCP_ESTABLISHED true 0
         (Snd (w32 base) (w32 base) (w32 base) 32768 32768 1460 None BUF 0 false false false)
         (Rcv (w32 pbase) (w32 pbase) (w32 (pbase + BUF)) [] (Some (λ _, 0)) BUF 0 false false)
         (Cc 14600 (2 ^ 32 - 1) 0 (w32 base) false)
         (Rtt 1000 0 0 false 0 0 false 0 0)
         (Tm None None None None))
    0 0 [] [] [] [] [] [] [].
Lemma host_opened base pbase : opened base pbase (host base pbase).
Proof. split; simpl; try done; [|constructor]. split; [|done]. exists 0. by rewrite Z.add_0_r. Qed.

Definition A : Z := 2 ^ 32 - 2.
Definition B : Z := 7.
(** Left: send, close.  Right: the FIN with the data twice, read, close.  Left: the acknowledgement and the FIN. *)
Definition schedule : list (bool * move) :=
  [(true, Call (Send [1; 2; 3])); (true, Call Close); (false, Deliver 1); (false, Deliver 0); (false, Deliver 1); (false, Deliver 0);
   (false, Call (Recv 2)); (true, Deliver 0); (true, Deliver 1); (true, Deliver 2); (true, Deliver 3)].
Definition end_check (w : res world) : bool :=
  match w with
  | Ok (l, r) => bool_decide (taken l = [1; 2; 3]) && bool_decide (given r = [1; 2]) && bool_decide (unread r = [3]) && is_state (state (n_pcb l)) TCP_FIN_WAIT_2
  | _ => false
  end.
Lemma demo_ends : end_check (world_run (host A B, host B A) schedule) = true.
Proof. vm_compute. reflexivity. Qed.
Lemma tcp_stream_witness : ∃ l' r', world_run (host A B, host B A) schedule = Ok (l', r') ∧ given l' `prefix_of` taken r' ∧ given r' `prefix_of` taken l' ∧
    (active (n_pcb l') = true → all_acked (state (n_pcb l')) = true →
       fin_rcvd (p_rcv (n_pcb r')) = true ∧
       (active (n_pcb r') = true → state (n_pcb r') ≠ TCP_TIME_WAIT → given r' ++ unread r' = taken l')).
Proof. apply (tcp_stream A B (host A B) (host B A) schedule); apply host_opened. Defined.
End TcpDemo.
