(* ===== verification/TcpOpen.v ===== *)
(** The handshake: a client that connects and a listener that accepts end up with connections that
    agree on the sequence numbers, and from there the streams are delivered. *)
From S2P Require Import Prelude Str Ring Tcp TcpInv TcpConn TcpSys.

#[local] Open Scope Z_scope.

(** With nothing to send, [TcpXmit] only sees to the persist timer. *)
Lemma seq_same a : SeqLeq a a = true ∧ SeqLt a a = false.
Proof. unfold SeqLeq, SeqLt. by rewrite Z.sub_diag. Qed.
Lemma xmit_loop_idle fuel sent n : snd_nxt (p_snd (n_pcb n)) = w32 (snd_una (p_snd (n_pcb n)) + buffered_bytes (p_snd (n_pcb n))) →
  xmit_loop fuel sent n = Ok (inr sent, n).
Proof.
  intros En. assert (∀ cw, xmit_next (p_snd (n_pcb n)) cw = None) as Ex by (intros cw; unfold xmit_next; by rewrite En, (proj1 (seq_same _))).
  destruct fuel; simpl; unfold get_snd, get_cc, gets, bind, id; by rewrite Ex.
Qed.
Lemma xmit_idle n (P : Z → net → Prop) : snd_nxt (p_snd (n_pcb n)) = w32 (snd_una (p_snd (n_pcb n)) + buffered_bytes (p_snd (n_pcb n))) → fin_pending (p_snd (n_pcb n)) = false →
  P ZUZU_OK (set_n_pcb (set_p_rtt (set_persist_ms 0 (p_rtt (n_pcb n))) (set_p_tm (set_persist_timer None (p_tm (n_pcb n))) (n_pcb n))) n) → wp TcpXmit P n.
Proof.
  intros En Ef HP. unfold TcpXmit. apply wp_bind. eapply wp_of; [by apply xmit_loop_idle|]. cbn beta iota. tcp_steps. rewrite Ef. cbn [andb]. tcp_steps. unfold when. tcp_steps.
  rewrite En, (proj2 (seq_same _)). cbn [andb]. unfold TcpPersist. tcp_steps. exact HP.
Qed.
#[local] Opaque TcpXmit.

(** What a segment without data leaves behind when it can be sent. *)
Definition bare_net (flags : Z) (n : net) : net :=
  let s := p_snd (n_pcb n) in
  let r := p_rcv (n_pcb n) in
  let edge := w32 (rcv_rsq r + rcv_size r) in
  let edge := if SeqLt (rcv_adv r) edge && (w32 (edge - rcv_adv r) <? Z.min (rcv_size r / 2) (snd_mss s)) then rcv_adv r else edge in
  let win := if SeqLt (rcv_nxt r) edge then w16 (edge - rcv_nxt r) else 0 in
  let nxt := w32 (snd_nxt s + 0 + b2z (has flags TCP_SYN) + b2z (has flags TCP_FIN)) in
  set_wire (wire n ++ [Segment (snd_nxt s) (if has flags TCP_ACK then rcv_nxt r else 0) flags [] win (if has flags TCP_SYN then Some TCP_MSS else None)])
    (set_n_pcb (set_p_snd (set_snd_max (if SeqLt (snd_max s) nxt then nxt else snd_max s) (set_snd_nxt nxt s))
                 (set_p_rcv (set_rcv_adv (w32 (rcv_nxt r + win)) r) (n_pcb n))) n).
Lemma output_bare flags n : tx_results n = [] → TcpOutput flags 0 n = Ok (ZUZU_OK, bare_net flags n).
Proof.
  intros Htx. unfold TcpOutput, next_tx, bind at 1. rewrite Htx. unfold opt_len, bare_net. destruct n as [[st a pr [] [] c rt tm] ? ? ? ? ? ? ? ? ?]. simpl in *.
  unfold TcpWindow, bind, modify, upd_snd, upd_rcv, upd, when, get_snd, get_rcv, gets, ret, modify.
  destruct (has flags TCP_SYN); simpl; match goal with |- context [SeqLt snd_max ?x] => destruct (SeqLt snd_max x) end; done.
Qed.

(** A side before the handshake: nothing sent, no failure ahead, room for the receive buffer. *)
Record idle (n : net) : Prop := {
  id_tx : tx_results n = [] ∧ mallocs n = [] ∧ app_calls n = [];
  id_wire : wire n = [] ∧ given n = [] ∧ taken n = [];
  id_room : 0 ≤ buf_used n ≤ TCP_BUF_BUDGET - TCP_RCV_BUF;
}.

(** The sides after each step.  [x] and [y] are the initial sequence numbers. *)
Definition SYN_of (x : Z) : TcpSegment := Segment x 0 TCP_SYN [] 32768 (Some TCP_MSS).
Definition SYNACK_of (x y : Z) : TcpSegment := Segment y (w32 (x + 1)) (Z.lor TCP_SYN TCP_ACK) [] 32768 (Some TCP_MSS).
Definition ACK_of (x y : Z) : TcpSegment := Segment (w32 (x + 1)) (w32 (y + 1)) TCP_ACK [] 32768 None.
Definition on_wire (p : pcb) (w : list TcpSegment) (n : net) : net := Net p (now n) (buf_used n) w (log n) [] [] [] [] [].
Definition no_rtt : rttst := Rtt 1000 0 0 false 0 0 false 0 0.
Definition rto_only (n : net) : tmrs := Tm (Some (w32 (now n + 1000))) None None None.
Definition connecting (x : Z) (n : net) : net :=
  on_wire (Pcb TCP_SYN_SENT true 0 (Snd (w32 (x + 1)) x (w32 (x + 1)) 0 0 TCP_MSS None BUF 0 false false false)
    (Rcv 0 0 32768 [] None BUF 0 false false) (Cc 0 0 0 0 false) no_rtt (rto_only n)) [SYN_of x] n.
Definition accepting (parent x y : Z) (n : net) : net :=
  on_wire (Pcb TCP_SYN_RCVD true parent (Snd (w32 (y + 1)) y (w32 (y + 1)) 32768 0 TCP_MSS None BUF 0 false false false)
    (Rcv (w32 (x + 1)) (w32 (x + 1)) (w32 (x + 1 + BUF)) [] None BUF 0 false false) (Cc (10 * TCP_MSS) (2 ^ 32 - 1) 0 y false) no_rtt (rto_only n)) [SYNACK_of x y] n.

Lemma seq_next x : 0 ≤ x < 2 ^ 32 → SeqLt x (w32 (x + 1)) = true ∧ w32 (w32 (x + 1) + BUF) = w32 (x + 1 + BUF).
Proof.
  intros Hx. split; [|unfold w32; rewrite Zplus_mod_idemp_l; done]. replace x with (w32 (x + 0)) at 1 by (rewrite Z.add_0_r; apply Z.mod_small; lia). by rewrite SeqLt_pos by lia.
Qed.
(** The window that a fresh receive side announces. *)
Lemma fresh_window a mss : let nxt := w32 a in let edge := w32 (a + BUF) in
  (if SeqLt edge edge && (w32 (edge - edge) <? Z.min (BUF / 2) mss) then edge else edge) = edge ∧
  (if SeqLt nxt edge then w16 (edge - nxt) else 0) = 32768.
Proof.
  intros nxt edge. split; [by case_if E|]. unfold nxt, edge. replace (w32 a) with (w32 (a + 0)) by (by rewrite Z.add_0_r). unfold BUF. rewrite SeqLt_pos by lia. simpl.
  unfold w16, w32. Z.div_mod_to_equations. lia.
Qed.

(** A segment without data from a side that has received nothing yet. *)
Definition fresh_net (flags : Z) (n : net) : net :=
  let s := p_snd (n_pcb n) in
  let nxt := w32 (snd_nxt s + (b2z (has flags TCP_SYN) + b2z (has flags TCP_FIN))) in
  set_wire (wire n ++ [Segment (snd_nxt s) (if has flags TCP_ACK then rcv_nxt (p_rcv (n_pcb n)) else 0) flags [] 32768 (if has flags TCP_SYN then Some TCP_MSS else None)])
    (set_n_pcb (set_p_snd (set_snd_max (if SeqLt (snd_max s) nxt then nxt else snd_max s) (set_snd_nxt nxt s)) (n_pcb n)) n).
Lemma output_fresh flags a n : tx_results n = [] → rcv_nxt (p_rcv (n_pcb n)) = w32 a → rcv_rsq (p_rcv (n_pcb n)) = w32 a →
  rcv_adv (p_rcv (n_pcb n)) = w32 (a + BUF) → rcv_size (p_rcv (n_pcb n)) = BUF → TcpOutput flags 0 n = Ok (ZUZU_OK, fresh_net flags n).
Proof.
  intros Htx En Er Ea Es. rewrite output_bare by done. unfold bare_net, fresh_net. assert (w32 (w32 a + BUF) = w32 (a + BUF)) as Ew by (unfold w32; by rewrite Zplus_mod_idemp_l). rewrite En, Er, Ea, Es, Ew.
  destruct (fresh_window a (snd_mss (p_snd (n_pcb n)))) as [-> ->]. rewrite <- !Z.add_assoc, Z.add_0_l. 
  replace (set_rcv_adv (w32 (w32 a + 32768)) (p_rcv (n_pcb n))) with (p_rcv (n_pcb n)).
  - by destruct n as [[] ? ? ? ? ? ? ? ? ?].
  - change 32768 with BUF. rewrite Ew, <- Ea. by destruct (p_rcv _).
Qed.

(** The state as one record. *)
Ltac tcp_norm :=
  match goal with |- wp ?m ?P ?st =>
    let st' := eval lazy -[w32 w16 SeqLt SeqLeq Z.add Z.sub Z.ltb Z.min Z.max Z.div Z.mul Z.lor Z.pow BUF TCP_MSS b2z has app] in st in change (wp m P st')
  end; cbn [n_pcb p_snd p_rcv p_cc p_rtt p_tm state active snd_nxt snd_una snd_max snd_mss snd_size snd_wnd buffered_bytes rto_timer rcv_nxt rcv_rsq rcv_size rcv_buf rto_ms now buf_used].
Lemma connect_eq x port n : idle n → 0 ≤ x < 2 ^ 32 → port ≠ 0 → wp (TcpConnect true port x) (λ _ n', n' = connecting x n) n.
Proof.
  intros [(Et & Em & Ea) (Ew & Eg & Ek) _] Hx Hp%Z.eqb_neq. destruct n as [p t b w lg g k tx ml ac]. simpl in *. subst.
  unfold TcpConnect. cbn [negb]. apply wp_bind, wp_modify. rewrite Hp. tcp_steps. eapply wp_of; [by apply output_bare|]. unfold RtoStart. tcp_steps. cbn [negb Z.eqb ZUZU_OK]. tcp_steps.
  unfold bare_net. simpl. rewrite !Z.add_0_r, (proj1 (seq_next x Hx)). reflexivity.
Qed.
Lemma listen_eq parent x y n : idle n → 0 ≤ x < 2 ^ 32 → 0 ≤ y < 2 ^ 32 → wp (OnListening parent y (SYN_of x)) (λ _ n', n' = accepting (parent + 1) x y n) n.
Proof.
  intros [(Et & Em & Ea) (Ew & Eg & Ek) _] Hx Hy. destruct n as [p t b w lg g k tx ml ac]. simpl in *. subst.
  unfold OnListening, rcv_start, TcpConsumeMss, TcpCcInit. apply wp_bind, wp_modify. tcp_steps. tcp_norm. cbn [seg_mss SYN_of]. tcp_steps. tcp_norm. tcp_steps. tcp_norm.
  eapply wp_of; [apply (output_fresh _ (x + 1)); try done; apply (seq_next x Hx)|]. tcp_norm. unfold RtoStart. tcp_steps. tcp_norm. tcp_steps.
  change (1024 * 32) with BUF. rewrite (proj2 (seq_next x Hx)). change (y + (b2z _ + b2z _)) with (y + 1). rewrite (proj1 (seq_next y Hy)). reflexivity.
Qed.

(** The client's side of the SYN-ACK, and the listener's side of the ACK. *)
Definition opened_client (x y : Z) (n : net) : net :=
  set_buf_used (w32 (buf_used n + BUF)) (set_log (log n ++ [EvEstablished])
    (on_wire (Pcb TCP_ESTABLISHED true 0 (Snd (w32 (x + 1)) (w32 (x + 1)) (w32 (x + 1)) 32768 32768 TCP_MSS None BUF 0 false false false)
      (Rcv (w32 (y + 1)) (w32 (y + 1)) (w32 (y + 1 + BUF)) [] (Some (λ _, 0)) BUF 0 false false) (Cc (10 * TCP_MSS) (2 ^ 32 - 1) 0 (w32 (x + 1)) false)
      no_rtt (Tm None None None None)) [SYN_of x; ACK_of x y] n)).
Definition opened_server (parent x y : Z) (n : net) : net :=
  set_buf_used (w32 (buf_used n + BUF)) (set_log (log n ++ [EvEstablished])
    (on_wire (Pcb TCP_ESTABLISHED true parent (Snd (w32 (y + 1)) (w32 (y + 1)) (w32 (y + 1)) 32768 32768 TCP_MSS None BUF 0 false false false)
      (Rcv (w32 (x + 1)) (w32 (x + 1)) (w32 (x + 1 + BUF)) [] (Some (λ _, 0)) BUF 0 false false) (Cc (10 * TCP_MSS) (2 ^ 32 - 1) 0 y false)
      no_rtt (Tm None None None None)) [SYNACK_of x y] n)).
Lemma budget b : 0 ≤ b ≤ TCP_BUF_BUDGET - TCP_RCV_BUF → (TCP_BUF_BUDGET <? w32 (b + BUF)) = false.
Proof. intros Hb. unfold TCP_BUF_BUDGET, TCP_RCV_BUF, BUF, w32 in *. rewrite Z.mod_small by lia. lia. Qed.

(** [TcpHandshakeDone] when there is memory: the connection has its receive buffer. *)
Lemma handshake_done n (P : bool → net → Prop) : mallocs n = [] → 0 ≤ buf_used n ≤ TCP_BUF_BUDGET - TCP_RCV_BUF → rcv_buf (p_rcv (n_pcb n)) = None → rcv_size (p_rcv (n_pcb n)) = BUF →
  P true (set_buf_used (w32 (buf_used n + BUF)) (set_n_pcb (set_state TCP_ESTABLISHED (set_p_rtt (set_rto_ms 1000 (set_retries 0 (p_rtt (n_pcb n))))
    (set_p_tm (set_rto_timer None (p_tm (n_pcb n))) (set_p_rcv (set_rcv_buf (Some (λ _, 0)) (p_rcv (n_pcb n))) (n_pcb n))))) n)) → wp TcpHandshakeDone P n.
Proof.
  intros Em Hb Er Es HP. unfold TcpHandshakeDone, TcpRcvBufAlloc, TcpBufAlloc, RtoStop. tcp_steps. rewrite Er, Es. tcp_steps. rewrite (budget _ Hb). apply wp_bind.
  eapply wp_of; [unfold next_malloc; by rewrite Em|]. cbn beta iota. tcp_steps. cbn [negb]. tcp_steps. exact HP.
Qed.

(** The client is told, and calls nothing; there is nothing to send. *)
Lemma established_tail n (P : unit → net → Prop) : app_calls n = [] → active (n_pcb n) = true → state (n_pcb n) = TCP_ESTABLISHED →
  snd_nxt (p_snd (n_pcb n)) = w32 (snd_una (p_snd (n_pcb n)) + buffered_bytes (p_snd (n_pcb n))) → fin_pending (p_snd (n_pcb n)) = false →
  P tt (set_log (log n ++ [EvEstablished]) (set_n_pcb (set_p_rtt (set_persist_ms 0 (p_rtt (n_pcb n))) (set_p_tm (set_persist_timer None (p_tm (n_pcb n))) (n_pcb n))) n)) →
  wp (TCP_NOTIFY EvEstablished) (λ _ s', wp (let! a := gets (λ n, active (n_pcb n)) in let! st := get_state in
    if a then match st with TCP_ESTABLISHED | TCP_CLOSE_WAIT | TCP_FIN_WAIT_1 | TCP_LAST_ACK => TcpXmit ;; ret tt | _ => ret tt end else ret tt) P s') n.
Proof.
  intros Ec Ha Es En Ef HP. unfold TCP_NOTIFY. tcp_steps. eapply wp_of; [unfold next_calls; simpl; by rewrite Ec|]. cbn [api_calls]. tcp_steps. cbn [set_log n_pcb].
  rewrite Ha, Es. apply wp_bind, xmit_idle; [done|done|]. tcp_steps. exact HP.
Qed.

Lemma synack_eq x y n : idle n → 0 ≤ x < 2 ^ 32 → 0 ≤ y < 2 ^ 32 → wp (TcpDispatch (SYNACK_of x y)) (λ _ n', n' = opened_client x y n) (connecting x n).
Proof.
  intros [(Et & Em & Ea) (Ew & Eg & Ek) Hb] Hx Hy. destruct n as [p t b w lg g k tx ml ac]. simpl in *. subst. unfold TcpDispatch, connecting, on_wire, rto_only, no_rtt. cbn [now buf_used log].
  tcp_steps. tcp_norm. apply wp_if; intros E; [done|]. clear E. tcp_steps. tcp_norm. unfold OnSynSent. tcp_steps. tcp_norm. cbn [seg_ack SYNACK_of]. rewrite Z.eqb_refl.
  change (has _ _ && has _ _ && true) with true. unfold rcv_start. tcp_steps. tcp_norm. apply handshake_done; [done|done|done|done|]. cbn [negb]. tcp_norm.
  unfold TcpConsumeMss, TcpCcInit. cbn [seg_mss SYNACK_of]. tcp_steps. tcp_norm. eapply wp_of; [apply (output_fresh _ (y + 1)); try done; apply (seq_next y Hy)|]. tcp_norm.
  assert (∀ z, w32 (w32 z + 0) = w32 z) as E0 by (intros z; rewrite Z.add_0_r; apply Z.mod_small, w32_range). change (b2z _ + b2z _) with 0. rewrite !E0, (proj2 (seq_same _)), (proj2 (seq_next y Hy)).
  apply established_tail; [done|done|done|symmetry; apply E0|done|reflexivity].
Qed.
Lemma ack_eq parent x y n : idle n → 0 ≤ x < 2 ^ 32 → 0 ≤ y < 2 ^ 32 → wp (TcpDispatch (ACK_of x y)) (λ _ n', n' = opened_server parent x y n) (accepting parent x y n).
Proof.
  intros [(Et & Em & Ea) (Ew & Eg & Ek) Hb] Hx Hy. destruct n as [p t b w lg g k tx ml ac]. simpl in *. subst. unfold TcpDispatch, accepting, on_wire, rto_only, no_rtt. cbn [now buf_used log].
  tcp_steps. tcp_norm. apply wp_if; intros E; [done|]. clear E. tcp_steps. tcp_norm. unfold OnSynRcvd. tcp_steps. tcp_norm. cbn [seg_ack ACK_of]. rewrite Z.eqb_refl.
  change (has _ _ && true) with true. cbn iota. tcp_steps. tcp_norm. apply handshake_done; [done|done|done|done|]. cbn [negb]. tcp_norm.
  apply established_tail; [done|done|done| |done|reflexivity]. cbn [n_pcb p_snd snd_nxt snd_una buffered_bytes]. rewrite Z.add_0_r. symmetry. apply Z.mod_small, w32_range.
Qed.

(** ** Opening and using a connection *)

Lemma client_opened x y n : idle n → 0 ≤ x < 2 ^ 32 → opened (x + 1) (y + 1) (opened_client x y n).
Proof.
  intros Hn Hx. split; try done; simpl.
  - split; [|done]. exists 0. by rewrite Z.add_0_r.
  - repeat constructor.
    + exists (-1). split; simpl; try done; [|by left]. replace (x + 1 + -1) with x by lia. symmetry. by apply Z.mod_small.
    + exists 0. split; simpl; try done; [by rewrite Z.add_0_r|by left|]. intros _. exists 0. by rewrite Z.add_0_r.
Qed.
Lemma server_opened parent x y n : idle n → 0 ≤ y < 2 ^ 32 → opened (y + 1) (x + 1) (opened_server parent x y n).
Proof.
  intros Hn Hy. assert (w32 (y + 1 + -1) = y) as Ey by (replace (y + 1 + -1) with y by lia; by apply Z.mod_small). split; try done; simpl.
  - split; [|done]. exists (-1). by rewrite Ey.
  - repeat constructor. exists (-1). split; simpl; try done; [by left|]. intros _. exists 0. by rewrite Z.add_0_r.
Qed.

(** A client connects to a listener and the three segments of the handshake arrive. *)
Definition open_pair (port isn_l isn_r listener : Z) (l r : net) : res world :=
  match TcpConnect true port isn_l l with
  | Ok (_, l1) =>
      match wire l1 with
      | syn :: _ =>
          match OnListening listener isn_r syn r with
          | Ok (_, r1) =>
              match wire r1 with
              | synack :: _ =>
                  match TcpDispatch synack l1 with
                  | Ok (_, l2) =>
                      match wire l2 !! 1%nat with
                      | Some ack => match TcpDispatch ack r1 with Ok (_, r2) => Ok (l2, r2) | _ => Panic end
                      | None => Panic
                      end
                  | _ => Panic
                  end
              | [] => Panic
              end
          | _ => Panic
          end
      | [] => Panic
      end
  | _ => Panic
  end.
Lemma open_pair_ok port x y listener l r : idle l → idle r → 0 ≤ x < 2 ^ 32 → 0 ≤ y < 2 ^ 32 → port ≠ 0 →
  open_pair port x y listener l r = Ok (opened_client x y l, opened_server (listener + 1) x y r).
Proof.
  intros Hl Hr Hx Hy Hp. unfold open_pair. destruct (wp_Ok _ _ _ (connect_eq x port l Hl Hx Hp)) as (u1 & l1 & -> & ->). cbn [connecting on_wire wire].
  destruct (wp_Ok _ _ _ (listen_eq listener x y r Hr Hx Hy)) as (u2 & r1 & -> & ->). cbn [accepting on_wire wire].
  destruct (wp_Ok _ _ _ (synack_eq x y l Hl Hx Hy)) as (u3 & l2 & -> & ->). cbn [opened_client set_buf_used set_log on_wire wire lookup list_lookup].
  destruct (wp_Ok _ _ _ (ack_eq (listener + 1) x y r Hr Hx Hy)) as (u4 & r2 & -> & ->). done.
Qed.

(** C7: A client connects, the listener accepts, and the three segments of the handshake arrive:
    both sides are then connected with matching sequence numbers, and under any schedule of calls,
    timers and deliveries the connection never fails and each client is given a prefix of what the
    other has sent. *)
Theorem tcp_session port x y listener l r xs : idle l → idle r → 0 ≤ x < 2 ^ 32 → 0 ≤ y < 2 ^ 32 → port ≠ 0 →
  ∃ w l' r', open_pair port x y listener l r = Ok w ∧ world_run w xs = Ok (l', r') ∧ given l' `prefix_of` taken r' ∧ given r' `prefix_of` taken l'.
Proof.
  intros Hl Hr Hx Hy Hp. exists (opened_client x y l, opened_server (listener + 1) x y r).
  destruct (opened_joined (x + 1) (y + 1) _ _ (client_opened x y l Hl Hx) (server_opened (listener + 1) x y r Hr Hy)) as (kl0 & kr0 & Hj0).
  destruct (world_run_ok _ _ _ _ _ _ xs Hj0) as (l' & r' & kl & kr & E & Hj). exists l', r'. split; [by apply open_pair_ok|]. split; [done|].
  split; [by eapply given_prefix|]. destruct Hj as [Hl' Hr']. by eapply given_prefix.
Qed.

Module OpenDemo.
Definition empty : net := Net (TcpPcbAlloc) 0 0 [] [] [] [] [] [] [].
Lemma empty_idle : idle empty.
Proof. by split. Qed.
Lemma tcp_session_witness : ∃ w l' r', open_pair 49152 (2 ^ 32 - 1) 77 3 empty empty = Ok w ∧ world_run w [(true, Call (Send [1; 2])); (false, Deliver 2); (false, Call (Recv 9))] = Ok (l', r') ∧
  given l' `prefix_of` taken r' ∧ given r' `prefix_of` taken l'.
Proof. apply (tcp_session 49152 (2 ^ 32 - 1) 77 3 empty empty _ empty_idle empty_idle); lia. Defined.
End OpenDemo.
