(* ===== verification/TcpErr.v ===== *)
(** Failures of netd's TCP: a stall after a retransmission timeout, a close that loses data, and a
    write through a receive buffer that was never allocated. *)
From S2P Require Import Prelude Str Ring Tcp TcpInv TcpConn TcpSys.

#[local] Open Scope Z_scope.

Lemma seq_self a k : 0 ≤ a < 2 ^ 32 → 0 ≤ k < 2 ^ 31 → SeqLeq (w32 (a + k)) a = (k =? 0) ∧ SeqLt a (w32 (a + k)) = negb (k =? 0).
Proof.
  intros Ha Hk. pose proof (SeqLeq_pos a k 0) as E1. pose proof (SeqLt_pos a 0 k) as E2. rewrite Z.add_0_r in E1, E2.
  assert (w32 a = a) as Ew by (apply Z.mod_small; lia). rewrite Ew in *. rewrite E1, E2 by lia. split; destruct (Z.eqb_spec k 0); lia.
Qed.
(** With a closed window nothing is sent. *)
Lemma xmit_closed fuel sent n : snd_nxt (p_snd (n_pcb n)) = snd_una (p_snd (n_pcb n)) → snd_wnd (p_snd (n_pcb n)) = 0 → 0 ≤ cwnd (p_cc (n_pcb n)) →
  0 ≤ snd_una (p_snd (n_pcb n)) < 2 ^ 32 → 0 ≤ buffered_bytes (p_snd (n_pcb n)) ≤ BUF → xmit_loop fuel sent n = Ok (inr sent, n).
Proof.
  intros En Ew Hcw Hu Hb. assert (xmit_next (p_snd (n_pcb n)) (cwnd (p_cc (n_pcb n))) = None) as Ex.
  { unfold xmit_next, BUF in *. rewrite En, Ew, Z.min_l by lia. destruct (seq_self (snd_una (p_snd (n_pcb n))) 0) as [-> _]; [lia|lia|]. simpl. by case_if E. }
  destruct fuel; simpl; unfold get_snd, get_cc, gets, bind, id; rewrite Ex; done.
Qed.

(** C39: When the retransmission timer of a connection with unacknowledged data fires while the
    peer's last window was 0, [TcpRtoCb] sends nothing and leaves neither the retransmission nor the
    persist timer armed: nothing of this side will ever be sent again unless the peer speaks. *)
Theorem rto_closed_window_stalls n : active (n_pcb n) = true → state (n_pcb n) = TCP_ESTABLISHED →
  snd_wnd (p_snd (n_pcb n)) = 0 → 0 ≤ snd_mss (p_snd (n_pcb n)) → 0 ≤ snd_una (p_snd (n_pcb n)) < 2 ^ 32 → snd_max (p_snd (n_pcb n)) ≠ snd_una (p_snd (n_pcb n)) →
  0 < buffered_bytes (p_snd (n_pcb n)) ≤ BUF → fin_pending (p_snd (n_pcb n)) = false → retries (p_rtt (n_pcb n)) < TCP_DATA_RETRIES →
  ∃ n', TcpRtoCb n = Ok (tt, n') ∧ wire n' = wire n ∧ rto_timer (p_tm (n_pcb n')) = None ∧ persist_timer (p_tm (n_pcb n')) = None ∧
    active (n_pcb n') = true ∧ snd_max (p_snd (n_pcb n')) ≠ snd_una (p_snd (n_pcb n')).
Proof.
  intros Hact Hst Hw Hmss Hu Hmax Hb Hp Hr. apply Z.eqb_neq in Hmax as Hm.
  cut (wp TcpRtoCb (λ _ n', wire n' = wire n ∧ rto_timer (p_tm (n_pcb n')) = None ∧ persist_timer (p_tm (n_pcb n')) = None ∧
    active (n_pcb n') = true ∧ snd_max (p_snd (n_pcb n')) ≠ snd_una (p_snd (n_pcb n'))) n).
  { intros (u & n' & E & Hn')%wp_Ok. destruct u. by exists n'. }
  unfold TcpRtoCb. tcp_steps. simpl. rewrite Hm. tcp_steps. simpl. rewrite Hst. simpl. apply wp_if; intros E; [unfold TCP_DATA_RETRIES in *; lia|].
  tcp_steps. simpl. unfold TcpXmit. apply wp_bind. eapply wp_of; [by apply xmit_closed; simpl; try done; lia|].
  simpl. tcp_steps. simpl. rewrite Hp. simpl. tcp_steps. unfold when. tcp_steps. simpl. rewrite Hm, andb_false_r. unfold TcpPersist. tcp_steps. done.
Qed.

Module StallDemo.
(** Three bytes in flight, and a late segment that announced a closed window. *)
Definition stalled : net :=
  let n := TcpDemo.host 100 7 in
  set_n_pcb (set_p_snd (Snd 103 100 103 0 32768 1460 (Some (λ _, 5)) BUF 3 false false false) (n_pcb n)) n.
Lemma rto_closed_window_stalls_witness : ∃ n', TcpRtoCb stalled = Ok (tt, n') ∧ wire n' = wire stalled ∧ rto_timer (p_tm (n_pcb n')) = None ∧
  persist_timer (p_tm (n_pcb n')) = None ∧ active (n_pcb n') = true ∧ snd_max (p_snd (n_pcb n')) ≠ snd_una (p_snd (n_pcb n')).
Proof. apply (rto_closed_window_stalls stalled); vm_compute; try done; split; done. Defined.
End StallDemo.

(** Runs of one side against segments that come from outside. *)
Inductive input := Do (a : api) | Seg (g : TcpSegment) | Fails (rc : Z).
Definition one_input (i : input) : TM unit :=
  match i with
  | Do a => api_call a
  | Seg g => TcpDispatch g
  | Fails rc => modify (λ n, set_tx_results (tx_results n ++ [(rc, ZUZU_OK)]) n)
  end.
Fixpoint inputs (l : list input) : TM unit := match l with [] => ret tt | i :: l' => one_input i ;; inputs l' end.

Module CloseDemo.
(** The second byte waits for the first to be acknowledged; the close sends it with the FIN, but no
    frame can be had. *)
Definition ack (seq a : Z) : TcpSegment := Segment seq a TCP_ACK [] 32768 None.
Definition script : list input := [Do (Send [10]); Do (Send [11]); Fails (-4); Do Close; Seg (ack 7 101)].
End CloseDemo.

Module SynDemo.
(** Both sides open at the same time: a SYN without ACK arrives in SYN_SENT. *)
Definition connecting : net :=
  Net (Pcb TCP_SYN_SENT true 0
         (Snd 100 99 100 0 0 1460 None BUF 0 false false false)
         (Rcv 0 0 0 [] None BUF 0 false false)
         (Cc 0 0 0 0 false) (Rtt 1000 0 0 false 0 0 false 0 0) (Tm (Some 1000) None None None))
    0 0 [] [] [] [] [] [] [].
Definition syn : TcpSegment := Segment 6 0 TCP_SYN [] 32768 (Some 1460).
Definition text : TcpSegment := Segment 7 100 TCP_ACK [1; 2; 3] 32768 None.
(** In a simultaneous open the client may close in SYN_RCVD; the connection goes to FIN_WAIT_1
    without a receive buffer, and the peer's first data is written through the NULL pointer. *)
Theorem close_in_syn_rcvd_crashes : inputs [Seg syn; Do Close; Seg text] connecting = Panic.
Proof. vm_compute. reflexivity. Qed.
End SynDemo.
