(* ===== verification/Timer.v ===== *)
(** Timers and random numbers of the network service, user/services/netd/common/timer.c and netrand.c.

    The armed timers are a list in the order of their deadlines, which are times of a 32-bit clock in milliseconds that wraps.
    [timers] is the intrusive list as the sequence of its nodes, and [timer] the structures they are part of.  A callback is a
    function pointer and its argument; what it does to the timers is given in advance.  The theorem compares the list with a
    map from timers to times that do not wrap. *)
From Stdlib Require Import Znumtheory Zpow_facts.
From stdpp Require Import functions sorting.
From S2P Require Import Prelude.

#[local] Open Scope Z_scope.

Definition TIMER_NO_DEADLINE : Z := 2 ^ 32 - 1.

Record Timer := MkTimer { deadline_ms : Z; t_cb : Z; t_arg : Z; armed : bool }.
(** A callback's calls: [Arm t delay cb arg] arms [t] for [NetNowMs() + delay]. *)
Inductive tcall := Arm (t delay cb arg : Z) | Cancel (t : Z).
Record tst := MkTst { timers : list Z; timer : Z → Timer; now_ms : Z; script : list (list tcall); called : list (Z * Z) }.

Definition set_timers (x : list Z) (s : tst) : tst := MkTst x (timer s) (now_ms s) (script s) (called s).
Definition set_timer (t : Z) (x : Timer) (s : tst) : tst := MkTst (timers s) (<[t := x]> (timer s)) (now_ms s) (script s) (called s).
Definition set_now_ms (x : Z) (s : tst) : tst := MkTst (timers s) (timer s) x (script s) (called s).
Definition set_script (x : list (list tcall)) (s : tst) : tst := MkTst (timers s) (timer s) (now_ms s) x (called s).
Definition set_called (x : list (Z * Z)) (s : tst) : tst := MkTst (timers s) (timer s) (now_ms s) (script s) x.
Definition disarmed (x : Timer) : Timer := MkTimer (deadline_ms x) (t_cb x) (t_arg x) false.

Definition TimerInit : M tst unit := modify (set_timers []).
(** [ListRemove] and the flag. *)
Definition unlink (t : Z) : M tst unit :=
  modify (λ s, set_timers (filter (λ u, u ≠ t) (timers s)) s) ;;
  modify (λ s, set_timer t (disarmed (timer s t)) s).
Definition TimerCancel (t : Z) : M tst unit :=
  let! x := gets (λ s, timer s t) in
  if negb (armed x) then ret tt else unlink t.
(** The walk to the first timer that is later, and [ListAddTail] there. *)
Fixpoint place (tm : Z → Timer) (deadline t : Z) (l : list Z) : list Z :=
  match l with
  | [] => [t]
  | other :: l' => if 0 <? s32 (deadline_ms (tm other) - deadline) then t :: l else other :: place tm deadline t l'
  end.
Definition TimerArm (t deadline cb arg : Z) : M tst unit :=
  TimerCancel t ;;
  modify (λ s, set_timer t (MkTimer deadline cb arg (armed (timer s t))) s) ;;
  modify (λ s, set_timers (place (timer s) deadline t (timers s)) s) ;;
  modify (λ s, set_timer t (MkTimer deadline cb arg true) s).
Definition TimerNextDeadline : M tst Z :=
  let! l := gets timers in
  match l with [] => ret TIMER_NO_DEADLINE | t :: _ => gets (λ s, deadline_ms (timer s t)) end.

Definition run_tcall (c : tcall) : M tst unit :=
  match c with
  | Arm t delay cb arg => let! now := gets now_ms in TimerArm t (w32 (now + delay)) cb arg
  | Cancel t => TimerCancel t
  end.
Definition run_tcalls (l : list tcall) : M tst unit := foldr (λ c k, run_tcall c ;; k) (ret tt) l.
(** [t->cb(t->arg)] *)
Definition callback (cb arg : Z) : M tst unit :=
  modify (λ s, set_called (called s ++ [(cb, arg)]) s) ;;
  let! l := gets script in
  match l with [] => ret tt | c :: rest => modify (set_script rest) ;; run_tcalls c end.
Fixpoint run_expired (fuel : nat) (now : Z) : M tst unit :=
  let! l := gets timers in
  match l with
  | [] => ret tt
  | t :: _ =>
      let! x := gets (λ s, timer s t) in
      if s32 (now - deadline_ms x) <? 0 then ret tt else
      match fuel with
      | O => diverge
      | S fuel' => unlink t ;; callback (t_cb x) (t_arg x) ;; run_expired fuel' now
      end
  end.
Definition TimerRunExpired (fuel : nat) : M tst unit := let! now := gets now_ms in run_expired fuel now.

(** The service: calls at one time, then time passes and the loop runs what has expired. *)
Definition round (cs : list tcall) (ms : Z) : M tst unit :=
  run_tcalls cs ;;
  modify (λ s, set_now_ms (w32 (now_ms s + ms)) s) ;;
  let! n := gets (λ s, length (timers s)) in
  TimerRunExpired n.
Definition rounds (l : list (list tcall * Z)) : M tst unit := foldr (λ x k, round x.1 x.2 ;; k) (ret tt) l.

(** * netrand.c *)

(** The generator's state; [cycles] is the counter that [ArchMeasure] reads. *)
Definition rng_nonzero (x : Z) : Z := if x =? 0 then 0xA5A5A5A5 else x.
Definition NetRandInit (now cycles : Z) (mac : list Z) : Z :=
  rng_nonzero (Z.lxor (Z.lxor now cycles)
    (Z.lor (Z.lor (Z.lor (w32 (Z.shiftl (aget mac 2) 24)) (Z.shiftl (aget mac 3) 16)) (Z.shiftl (aget mac 4) 8)) (aget mac 5))).
Definition NetRandU32 (cycles rng_state : Z) : Z :=
  let x := rng_nonzero (Z.lxor rng_state cycles) in
  let x := Z.lxor x (w32 (Z.shiftl x 13)) in
  let x := Z.lxor x (Z.shiftr x 17) in
  Z.lxor x (w32 (Z.shiftl x 5)).

(** * The reference: times that do not wrap *)

Record atimer := MkAtimer { at_deadline : Z; at_cb : Z; at_arg : Z }.
Abbreviation atimers := (gmap Z atimer).
Definition dl (m : atimers) (t : Z) : Z := from_option at_deadline 0 (m !! t).

Definition a_call (N : Z) (c : tcall) (m : atimers) : atimers :=
  match c with Arm t delay cb arg => <[t := MkAtimer (N + delay) cb arg]> m | Cancel t => delete t m end.
Definition a_calls (N : Z) (l : list tcall) (m : atimers) : atimers := foldl (λ m c, a_call N c m) m l.
(** At time [N] the due timers are called, an earliest one first, until none is due. *)
Inductive fires (N : Z) : atimers → list (list tcall) → list (Z * Z) → atimers → list (list tcall) → Prop :=
| fires_done m sc : (∀ t a, m !! t = Some a → N < at_deadline a) → fires N m sc [] m sc
| fires_one m sc t a out m' sc' :
    m !! t = Some a → at_deadline a ≤ N → (∀ u b, m !! u = Some b → at_deadline a ≤ at_deadline b) →
    fires N (a_calls N (default [] (head sc)) (delete t m)) (tail sc) out m' sc' →
    fires N m sc ((at_cb a, at_arg a) :: out) m' sc'.
Inductive history : Z → atimers → list (list tcall) → list (list tcall * Z) → list (Z * Z) → Z → atimers → Prop :=
| history_nil N m sc : history N m sc [] [] N m
| history_round N m sc cs ms l out1 m1 sc1 out2 N' m' :
    fires (N + ms) (a_calls N cs m) sc out1 m1 sc1 → history (N + ms) m1 sc1 l out2 N' m' →
    history N m sc ((cs, ms) :: l) (out1 ++ out2) N' m'.

(** Delays and pauses below half of the range of comparisons; a callback arms timers for later. *)
Definition call_ok (c : tcall) : Prop := match c with Arm _ delay _ _ => 0 < delay < 2 ^ 30 | Cancel _ => True end.
Definition round_ok (x : list tcall * Z) : Prop := Forall call_ok x.1 ∧ 0 ≤ x.2 < 2 ^ 30.

Record rep (s : tst) (m : atimers) (N : Z) : Prop := {
  rep_now : now_ms s = w32 N;
  rep_nodup : NoDup (timers s);
  rep_dom : ∀ t, t ∈ timers s ↔ is_Some (m !! t);
  rep_val : ∀ t a, m !! t = Some a → timer s t = MkTimer (w32 (at_deadline a)) (at_cb a) (at_arg a) true;
  rep_idle : ∀ t, m !! t = None → armed (timer s t) = false;
  rep_near : ∀ t a, m !! t = Some a → N - 2 ^ 30 < at_deadline a < N + 2 ^ 30;
  rep_sorted : StronglySorted (λ t u, dl m t ≤ dl m u) (timers s);
  rep_script : Forall (Forall call_ok) (script s) }.

Lemma s32_diff x y : - 2 ^ 31 ≤ x - y < 2 ^ 31 → s32 (w32 x - w32 y) = x - y.
Proof.
  intros H. rewrite <- (s32_range (x - y) H). unfold s32. replace (w32 (w32 x - w32 y)) with (w32 (x - y)); [done|].
  unfold w32. apply Zminus_mod.
Qed.
Lemma StronglySorted_weaken {A} (R R' : A → A → Prop) l : (∀ x y, x ∈ l → y ∈ l → R x y → R' x y) → StronglySorted R l → StronglySorted R' l.
Proof.
  induction l as [|x l IH]; intros HR; [constructor|]. intros Hs. apply StronglySorted_inv in Hs as [Hs Hf]. constructor.
  - apply IH; [|done]. intros y z Hy Hz. apply HR; by right.
  - rewrite Forall_forall in *. intros y Hy. apply HR; [by left|by right|by apply Hf].
Qed.
Lemma StronglySorted_filter {A} (R : A → A → Prop) (P : A → Prop) `{∀ x, Decision (P x)} l : StronglySorted R l → StronglySorted R (filter P l).
Proof.
  induction 1 as [|x l Hs IH Hf]; [constructor|]. rewrite filter_cons. case_decide; [|done]. constructor; [done|].
  rewrite Forall_forall in *. intros y [_ Hy]%list_elem_of_filter. by apply Hf.
Qed.

Lemma unlink_rep t s m N : rep s m N → wp (unlink t) (λ _ s', rep s' (delete t m) N ∧ script s' = script s ∧ called s' = called s) s.
Proof.
  intros [H1 H2 H3 H4 H5 H6 H7 H8]. unfold unlink. wp_steps. split_and!; [|done|done]. split; simpl.
  - done.
  - by apply NoDup_filter.
  - intros u. rewrite list_elem_of_filter, H3, lookup_delete_is_Some. naive_solver.
  - intros u a [Hne Hu]%lookup_delete_Some. rewrite fn_lookup_insert_ne by done. by apply H4.
  - intros u. destruct (decide (t = u)) as [<-|Hne]; [by rewrite fn_lookup_insert|]. rewrite lookup_delete_ne, fn_lookup_insert_ne by done. apply H5.
  - intros u a [_ Hu]%lookup_delete_Some. by eapply H6.
  - eapply StronglySorted_weaken; [|by apply StronglySorted_filter]. intros x y [Hx _]%list_elem_of_filter [Hy _]%list_elem_of_filter.
    unfold dl. by rewrite !lookup_delete_ne by congruence.
  - done.
Qed.
Lemma TimerCancel_rep t s m N : rep s m N → wp (TimerCancel t) (λ _ s', rep s' (delete t m) N ∧ script s' = script s ∧ called s' = called s) s.
Proof.
  intros H. unfold TimerCancel. wp_steps. case_if E.
  - wp_steps. split_and!; [|done|done]. rewrite delete_id; [done|]. destruct (m !! t) as [a|] eqn:Em; [|done]. by rewrite (rep_val _ _ _ H _ _ Em) in E.
  - by apply unlink_rep.
Qed.

(** The walk stops between the timers that are due no later and those that are later. *)
Lemma place_spec tm m D t l :
  (∀ u, u ∈ l → deadline_ms (tm u) = w32 (dl m u) ∧ - 2 ^ 31 ≤ dl m u - D < 2 ^ 31) → StronglySorted (λ u v, dl m u ≤ dl m v) l →
  ∃ l1 l2, l = l1 ++ l2 ∧ place tm (w32 D) t l = l1 ++ t :: l2 ∧ Forall (λ u, dl m u ≤ D) l1 ∧ Forall (λ u, D < dl m u) l2.
Proof.
  induction l as [|u l IH]; intros Hl Hs; [by exists [], []|]. apply StronglySorted_inv in Hs as [Hs Hf]. cbn [place].
  destruct (Hl u ltac:(by left)) as [-> Hu]. rewrite s32_diff by done. case_if E; b2p.
  - exists [], (u :: l). split_and!; [done|done|constructor|]. constructor; [lia|]. eapply Forall_impl; [exact Hf|]. simpl. lia.
  - destruct IH as (l1 & l2 & -> & -> & H1 & H2); [intros v Hv; apply Hl; by right|done|]. exists (u :: l1), l2. split_and!; [done|done| |done]. constructor; [lia|done].
Qed.
Lemma StronglySorted_place {A} (R : A → A → Prop) l1 l2 t :
  StronglySorted R (l1 ++ l2) → Forall (λ u, R u t) l1 → Forall (R t) l2 → StronglySorted R (l1 ++ t :: l2).
Proof.
  induction l1 as [|u l1 IH]; simpl; intros Hs H1 H2; [by constructor|]. apply StronglySorted_inv in Hs as [Hs Hf]. inversion_clear H1. constructor; [by apply IH|].
  apply Forall_app in Hf as [Hf1 Hf2]. apply Forall_app. split; [done|]. by constructor.
Qed.
Lemma TimerArm_rep t D cb arg s m N :
  rep s m N → N - 2 ^ 30 < D < N + 2 ^ 30 →
  wp (TimerArm t (w32 D) cb arg) (λ _ s', rep s' (<[t := MkAtimer D cb arg]> m) N ∧ script s' = script s ∧ called s' = called s) s.
Proof.
  intros H HD. unfold TimerArm. apply wp_bind. eapply wp_mono; [by apply (TimerCancel_rep t)|]. cbv beta.
  intros _ s1 [[H1 H2 H3 H4 H5 H6 H7 H8] [Es Ec]]. wp_steps. split_and!; [|done|done]. rewrite <- insert_delete_eq. set (m1 := delete t m) in *.
  assert (Ht : m1 !! t = None) by apply lookup_delete_eq. assert (Hn : t ∉ timers s1) by (rewrite H3, Ht; by intros [? ?]).
  assert (Hdl : ∀ u, u ∈ timers s1 → dl (<[t := MkAtimer D cb arg]> m1) u = dl m1 u) by (intros u Hu; unfold dl; rewrite lookup_insert_ne; [done|congruence]).
  destruct (place_spec (<[t := MkTimer (w32 D) cb arg (armed (timer s1 t))]> (timer s1)) m1 D t (timers s1)) as (l1 & l2 & El & Ep & F1 & F2); [|done|].
  { intros u Hu. rewrite fn_lookup_insert_ne by congruence. destruct (proj1 (H3 u) Hu) as [a Ha]. rewrite (H4 _ _ Ha). unfold dl. rewrite Ha. simpl. pose proof (H6 _ _ Ha). lia. }
  assert (Edl : dl (<[t := MkAtimer D cb arg]> m1) t = D) by (unfold dl; by rewrite lookup_insert_eq).
  split; simpl; rewrite ?Ep.
  - done.
  - rewrite El in H2, Hn. apply NoDup_app in H2 as (N1 & N2 & N3). apply NoDup_app. split_and!; [done| |constructor; [set_solver|done]]. set_solver.
  - intros u. rewrite lookup_insert_is_Some', <- H3, El. set_solver.
  - intros u a [(<- & <-)|(Hne & Hu)]%lookup_insert_Some; [by rewrite fn_lookup_insert|]. rewrite !fn_lookup_insert_ne by done. by apply H4.
  - intros u [Hu Hne]%lookup_insert_None. rewrite !fn_lookup_insert_ne by done. by apply H5.
  - intros u a [(<- & <-)|(Hne & Hu)]%lookup_insert_Some; [done|]. by eapply H6.
  - rewrite El in H7, Hdl. apply StronglySorted_place.
    + eapply StronglySorted_weaken; [|exact H7]. intros x y Hx Hy. by rewrite !Hdl.
    + rewrite Forall_forall in *. intros u Hu. rewrite Edl, Hdl by set_solver. by apply F1.
    + rewrite Forall_forall in *. intros u Hu. rewrite Edl, Hdl by set_solver. apply Z.lt_le_incl. by apply F2.
  - done.
Qed.
Lemma run_tcall_rep c s m N : rep s m N → call_ok c → wp (run_tcall c) (λ _ s', rep s' (a_call N c m) N ∧ script s' = script s ∧ called s' = called s) s.
Proof.
  intros H Hc. destruct c as [t delay cb arg|t]; simpl; [|by apply TimerCancel_rep]. wp_steps. rewrite (rep_now _ _ _ H).
  replace (w32 (w32 N + delay)) with (w32 (N + delay)) by (unfold w32; by rewrite Zplus_mod_idemp_l). apply TimerArm_rep; [done|]. simpl in Hc. lia.
Qed.
Lemma run_tcalls_rep l N : ∀ s m, rep s m N → Forall call_ok l → wp (run_tcalls l) (λ _ s', rep s' (a_calls N l m) N ∧ script s' = script s ∧ called s' = called s) s.
Proof.
  induction l as [|c l IH]; intros s m H Hl; [by apply wp_ret|]. apply Forall_cons in Hl as [Hc Hl]. simpl. apply wp_bind.
  eapply wp_mono; [by apply run_tcall_rep|]. cbv beta. intros _ s1 (H1 & Es & Ec). rewrite <- Es, <- Ec. by apply IH.
Qed.
Lemma callback_rep cb arg s m N :
  rep s m N →
  wp (callback cb arg) (λ _ s', rep s' (a_calls N (default [] (head (script s))) m) N ∧ script s' = tail (script s) ∧ called s' = called s ++ [(cb, arg)]) s.
Proof.
  intros H. unfold callback. wp_steps. simpl. pose proof (rep_script _ _ _ H) as Hs. destruct (script s) as [|c rest] eqn:E.
  - wp_steps. split_and!; [|done|done]. destruct H. by split.
  - apply Forall_cons in Hs as [Hc Hr]. wp_steps. eapply wp_mono; [apply (run_tcalls_rep c N _ m); [|done]; destruct H; by split|]. cbv beta. intros _ s' (H1 & E1 & E2). by rewrite E1, E2.
Qed.

(** How many timers are due. *)
Definition due (N : Z) (m : atimers) : nat := size (filter (λ x : Z * atimer, at_deadline x.2 ≤ N) m).
Lemma due_delete N m t : (due N (delete t m) ≤ due N m)%nat.
Proof. unfold due. rewrite map_filter_delete. apply map_subseteq_size, delete_subseteq. Qed.
Lemma due_delete_due N m t a : m !! t = Some a → at_deadline a ≤ N → (due N (delete t m) < due N m)%nat.
Proof.
  intros Ht Ha. unfold due. rewrite map_filter_delete. assert (Hf : filter (λ x : Z * atimer, at_deadline x.2 ≤ N) m !! t = Some a) by by apply map_lookup_filter_Some.
  rewrite map_size_delete_Some by by exists a. assert (size (filter (λ x : Z * atimer, at_deadline x.2 ≤ N) m) ≠ 0%nat); [|lia].
  intros E%map_size_empty_inv. by rewrite E in Hf.
Qed.
Lemma due_calls N l : ∀ m, Forall call_ok l → (due N (a_calls N l m) ≤ due N m)%nat.
Proof.
  induction l as [|c l IH]; intros m Hl; [done|]. apply Forall_cons in Hl as [Hc Hl]. simpl. etrans; [by apply IH|]. destruct c as [t delay cb arg|t]; simpl in *; [|apply due_delete].
  unfold due. rewrite map_filter_insert_False by (simpl; lia). apply due_delete.
Qed.
Lemma due_length s m N K : rep s m N → (due K m ≤ length (timers s))%nat.
Proof.
  intros H. etrans; [apply map_subseteq_size, map_filter_subseteq|]. rewrite <- size_dom. 
  rewrite <- (size_list_to_set (C:=gset Z) (timers s)) by apply H. apply subseteq_size. intros t Ht%elem_of_dom. apply elem_of_list_to_set. by apply (rep_dom _ _ _ H).
Qed.
Lemma rep_head s m N t l : rep s m N → timers s = t :: l → ∃ a, m !! t = Some a ∧ ∀ u b, m !! u = Some b → at_deadline a ≤ at_deadline b.
Proof.
  intros H E. destruct (proj1 (rep_dom _ _ _ H t)) as [a Ha]; [rewrite E; by left|]. exists a. split; [done|]. intros u b Hb.
  assert (Hu : u ∈ timers s) by (apply (rep_dom _ _ _ H); by exists b). rewrite E in Hu. apply elem_of_cons in Hu as [->|Hu]; [by simplify_eq|].
  pose proof (rep_sorted _ _ _ H) as Hs. rewrite E in Hs. apply StronglySorted_inv in Hs as [_ Hf]. rewrite Forall_forall in Hf. specialize (Hf _ Hu). unfold dl in Hf. by rewrite Ha, Hb in Hf.
Qed.
(** The state after running what is due at [N]. *)
Definition ran (N : Z) (m : atimers) (s s' : tst) : Prop :=
  ∃ out m', fires N m (script s) out m' (script s') ∧ called s' = called s ++ out ∧ rep s' m' N ∧ (∀ t a, m' !! t = Some a → N < at_deadline a).
Lemma ran_done N m s : rep s m N → (∀ t a, m !! t = Some a → N < at_deadline a) → ran N m s s.
Proof. intros H Hm. exists [], m. split_and!; [by constructor|by rewrite app_nil_r|done|done]. Qed.
Lemma no_timers s m N : rep s m N → timers s = [] → ∀ t a, m !! t = Some a → N < at_deadline a.
Proof. intros H El t a Ha. exfalso. assert (Ht : t ∈ timers s) by (apply (rep_dom _ _ _ H); by exists a). rewrite El in Ht. by apply elem_of_nil in Ht. Qed.
Lemma run_expired_fires fuel N : ∀ s m, rep s m N → (due N m ≤ fuel)%nat → wp (run_expired fuel (w32 N)) (λ _ s', ran N m s s') s.
Proof.
  induction fuel as [|fuel IH]; intros s m H Hd; cbn [run_expired]; wp_steps;
    (destruct (timers s) as [|t l] eqn:El; [wp_steps; apply ran_done; [done|by eapply no_timers]|]);
    destruct (rep_head _ _ _ _ _ H El) as (a & Ha & Hmin); wp_steps; rewrite (rep_val _ _ _ H _ _ Ha); simpl deadline_ms;
    pose proof (rep_near _ _ _ H _ _ Ha) as Hnear; rewrite s32_diff by lia; case_if E; b2p;
    try (wp_steps; apply ran_done; [done|]; intros u b Hb; specialize (Hmin u b Hb); lia);
    pose proof (due_delete_due N m t a Ha ltac:(lia)) as Hless; [lia|].
  simpl t_cb. simpl t_arg. apply wp_bind. eapply wp_mono; [by apply unlink_rep|]. cbv beta. intros _ s1 (H1 & Es1 & Ec1).
  apply wp_bind. eapply wp_mono; [by apply callback_rep|]. cbv beta. intros _ s2 (H2 & Es2 & Ec2). rewrite Es1 in H2, Es2. rewrite Ec1 in Ec2.
  assert (Hc : Forall call_ok (default [] (head (script s)))) by (pose proof (rep_script _ _ _ H) as Hs; destruct (script s); [constructor|by apply Forall_cons in Hs as [? _]]).
  pose proof (due_calls N _ (delete t m) Hc) as Hcalls. eapply wp_mono; [apply IH; [exact H2|lia]|].
  cbv beta. intros _ s3 (out & m' & Hf & Eo & H3 & Hn). exists ((at_cb a, at_arg a) :: out), m'. split_and!; [|by rewrite Eo, Ec2, <- app_assoc|done|done].
  rewrite Es2 in Hf. eapply fires_one; [exact Ha|lia|done|exact Hf].
Qed.
(** Time passes; no timer is overdue at its start. *)
Lemma advance_rep s m N ms :
  rep s m N → (∀ t a, m !! t = Some a → N < at_deadline a) → 0 ≤ ms < 2 ^ 30 → rep (set_now_ms (w32 (now_ms s + ms)) s) m (N + ms).
Proof.
  intros [H1 H2 H3 H4 H5 H6 H7 H8] Hn Hms. split; simpl; try done.
  - rewrite H1. unfold w32. by rewrite Zplus_mod_idemp_l.
  - intros t a Ha. specialize (H6 t a Ha). specialize (Hn t a Ha). lia.
Qed.
Lemma a_calls_later N l : ∀ m, Forall call_ok l → (∀ t a, m !! t = Some a → N < at_deadline a) → ∀ t a, a_calls N l m !! t = Some a → N < at_deadline a.
Proof.
  induction l as [|c l IH]; intros m Hl Hm; [done|]. apply Forall_cons in Hl as [Hc Hl]. apply IH; [done|]. intros t a. destruct c as [u delay cb arg|u]; simpl in *.
  - intros [(<- & <-)|(_ & Ha)]%lookup_insert_Some; [simpl; lia|by eapply Hm].
  - intros [_ Ha]%lookup_delete_Some. by eapply Hm.
Qed.
Lemma round_rep cs ms s m N :
  rep s m N → (∀ t a, m !! t = Some a → N < at_deadline a) → round_ok (cs, ms) → wp (round cs ms) (λ _ s', ran (N + ms) (a_calls N cs m) s s') s.
Proof.
  intros H Hm [Hcs Hms]. simpl in Hcs, Hms. unfold round. apply wp_bind. eapply wp_mono; [by apply run_tcalls_rep|]. cbv beta. intros _ s1 (H1 & Es & Ec).
  pose proof (advance_rep _ _ _ ms H1 (a_calls_later _ _ _ Hcs Hm) Hms) as H2. wp_steps. unfold TimerRunExpired. wp_steps. rewrite (rep_now _ _ _ H2).
  eapply wp_mono; [apply run_expired_fires; [exact H2|by eapply due_length]|]. cbv beta. intros _ s'. unfold ran. simpl. by rewrite Es, Ec.
Qed.
Lemma rounds_history l : ∀ s m N,
  rep s m N → (∀ t a, m !! t = Some a → N < at_deadline a) → Forall round_ok l →
  wp (rounds l) (λ _ s', ∃ out N' m', history N m (script s) l out N' m' ∧ called s' = called s ++ out ∧ rep s' m' N' ∧ (∀ t a, m' !! t = Some a → N' < at_deadline a)) s.
Proof.
  induction l as [|[cs ms] l IH]; intros s m N H Hm Hl; simpl.
  - wp_steps. exists [], N, m. split_and!; [constructor|by rewrite app_nil_r|done|done].
  - apply Forall_cons in Hl as [Hx Hl]. apply wp_bind. eapply wp_mono; [by apply round_rep|]. cbv beta. intros _ s1 (out1 & m1 & Hf & Ec & H1 & Hm1).
    eapply wp_mono; [by apply IH|]. cbv beta. intros _ s2 (out2 & N' & m' & Hh & Ec2 & H2 & Hm2). exists (out1 ++ out2), N', m'.
    split_and!; [by econstructor|by rewrite Ec2, Ec, app_assoc|done|done].
Qed.

(** [TimerNextDeadline] is the earliest deadline. *)
Lemma TimerNextDeadline_earliest s m N : rep s m N →
  wp TimerNextDeadline (λ d s', s' = s ∧ if decide (m = ∅) then d = TIMER_NO_DEADLINE else ∃ t a, m !! t = Some a ∧ d = w32 (at_deadline a) ∧ ∀ u b, m !! u = Some b → at_deadline a ≤ at_deadline b) s.
Proof.
  intros H. unfold TimerNextDeadline. wp_steps. destruct (timers s) as [|t l] eqn:El.
  - wp_steps. split; [done|]. case_decide as Hm; [done|]. apply map_choose in Hm as (t & a & Ha). exfalso. assert (Ht : t ∈ timers s) by (apply (rep_dom _ _ _ H); by exists a).
    rewrite El in Ht. by apply elem_of_nil in Ht.
  - destruct (rep_head _ _ _ _ _ H El) as (a & Ha & Hmin). wp_steps. split; [done|]. case_decide as Hm; [by rewrite Hm in Ha|]. exists t, a. by rewrite (rep_val _ _ _ H _ _ Ha).
Qed.

(** C25: whatever arms and cancels timers, in rounds and in callbacks, and however often the 32-bit clock wraps, the callbacks run are
    those of a reference with times that do not wrap, which calls the due timers an earliest one first; after a round no
    armed timer is due, and [TimerNextDeadline] is the earliest deadline that is left. *)
Theorem timers_on_time s N l :
  (∀ t, armed (timer s t) = false) → now_ms s = w32 N → Forall (Forall call_ok) (script s) → Forall round_ok l →
  wp (TimerInit ;; rounds l ;; TimerNextDeadline)
    (λ d s', ∃ out N' m', history N ∅ (script s) l out N' m' ∧ called s' = called s ++ out ∧ (∀ t a, m' !! t = Some a → N' < at_deadline a) ∧
       if decide (m' = ∅) then d = TIMER_NO_DEADLINE else ∃ t a, m' !! t = Some a ∧ d = w32 (at_deadline a) ∧ ∀ u b, m' !! u = Some b → at_deadline a ≤ at_deadline b) s.
Proof.
  intros Ha Hn Hs Hl. unfold TimerInit. wp_steps. eapply wp_mono.
  { apply (rounds_history l _ ∅ N); [|by intros ??; rewrite lookup_empty|done]. split; simpl; try done; [constructor|..|constructor].
    intros t. rewrite lookup_empty. split; [by intros []%elem_of_nil|by intros [??]]. }
  cbv beta. intros _ s1 (out & N' & m' & Hh & Ec & H1 & Hm). eapply wp_mono; [apply (TimerNextDeadline_earliest _ _ _ H1)|]. cbv beta.
  intros d s2 [-> Hd]. by exists out, N', m'.
Qed.

(** * Random numbers *)

Lemma rng_nonzero_ok x : 0 ≤ x < 2 ^ 32 → 0 < rng_nonzero x < 2 ^ 32.
Proof. intros H. unfold rng_nonzero. case_if E; b2p; lia. Qed.
Lemma lxor_range a b : 0 ≤ a < 2 ^ 32 → 0 ≤ b < 2 ^ 32 → 0 ≤ Z.lxor a b < 2 ^ 32.
Proof.
  intros Ha Hb. assert (H0 : 0 ≤ Z.lxor a b) by (apply Z.lxor_nonneg; lia). split; [done|]. destruct (Z.eq_dec (Z.lxor a b) 0) as [->|Hne]; [lia|].
  apply Z.log2_lt_pow2; [lia|]. eapply Z.le_lt_trans; [apply Z.log2_lxor; lia|]. apply Z.max_lub_lt.
  - destruct (Z.eq_dec a 0) as [->|]; [done|]. apply Z.log2_lt_pow2; lia.
  - destruct (Z.eq_dec b 0) as [->|]; [done|]. apply Z.log2_lt_pow2; lia.
Qed.
(** A step of the generator does not lead to 0. *)
Lemma step_left k x : 0 < k → 0 < x < 2 ^ 32 → 0 < Z.lxor x (w32 (Z.shiftl x k)) < 2 ^ 32.
Proof.
  intros Hk Hx. pose proof (lxor_range x (w32 (Z.shiftl x k)) ltac:(lia) (w32_range _)) as Hr. enough (Z.lxor x (w32 (Z.shiftl x k)) ≠ 0) by lia.
  intros E%Z.lxor_eq. unfold w32 in E. rewrite Z.shiftl_mul_pow2 in E by lia.
  assert (Hd : (2 ^ 32 | (2 ^ k - 1) * x)). { exists (x * 2 ^ k / 2 ^ 32). pose proof (Z.div_mod (x * 2 ^ k) (2 ^ 32)). lia. }
  apply Z.gauss in Hd.
  - apply Z.divide_pos_le in Hd; lia.
  - apply Zgcd_1_rel_prime. apply rel_prime_sym, (rel_prime_Zpower_r 32); [lia|].
    replace k with (Z.succ (k - 1)) by lia. rewrite Z.pow_succ_r by lia. apply Zgcd_1_rel_prime.
    replace (2 * 2 ^ (k - 1) - 1) with (-1 + 2 ^ (k - 1) * 2) by lia. rewrite Z.gcd_comm, Z.gcd_add_mult_diag_r. done.
Qed.
Lemma step_right k x : 0 < k → 0 < x < 2 ^ 32 → 0 < Z.lxor x (Z.shiftr x k) < 2 ^ 32.
Proof.
  intros Hk Hx. rewrite Z.shiftr_div_pow2 by lia. assert (1 < 2 ^ k) by (apply Z.pow_gt_1; lia). pose proof (Z.div_lt x (2 ^ k) ltac:(lia) ltac:(lia)) as Hlt.
  pose proof (Z.div_pos x (2 ^ k) ltac:(lia) ltac:(lia)). pose proof (lxor_range x (x / 2 ^ k) ltac:(lia) ltac:(lia)). enough (Z.lxor x (x / 2 ^ k) ≠ 0) by lia. intros E%Z.lxor_eq. lia.
Qed.
(** The state of the generator never is 0, where xorshift would stay, whatever the cycle counter reads. *)
Theorem NetRandU32_nonzero cycles x : 0 ≤ cycles < 2 ^ 32 → 0 ≤ x < 2 ^ 32 → 0 < NetRandU32 cycles x < 2 ^ 32.
Proof. intros Hc Hx. unfold NetRandU32. apply step_left, step_right, step_left, rng_nonzero_ok, lxor_range; lia. Qed.

Module TimerDemo.
(** The clock is 100 ms before it wraps.  Timer 1 is armed for 50 ms and timer 2 for 200 ms; the first callback arms timer 1 again
    and the second cancels it. *)
Definition before_wrap : tst := MkTst [] (λ _, MkTimer 0 0 0 false) (w32 (2 ^ 32 - 100)) [[Arm 1 1000 7 1]; [Cancel 1; Arm 3 30 9 3]] [].
Definition some_rounds : list (list tcall * Z) := [([Arm 2 200 8 2; Arm 1 50 7 1], 60); ([], 5); ([], 300)].
Lemma timers_on_time_witness :
  wp (TimerInit ;; rounds some_rounds ;; TimerNextDeadline)
    (λ d s', ∃ out N' m', history (2 ^ 32 - 100) ∅ (script before_wrap) some_rounds out N' m' ∧ called s' = called before_wrap ++ out ∧ (∀ t a, m' !! t = Some a → N' < at_deadline a) ∧
       if decide (m' = ∅) then d = TIMER_NO_DEADLINE else ∃ t a, m' !! t = Some a ∧ d = w32 (at_deadline a) ∧ ∀ u b, m' !! u = Some b → at_deadline a ≤ at_deadline b) before_wrap.
Proof. apply (timers_on_time before_wrap (2 ^ 32 - 100) some_rounds); [done|done| |]; repeat constructor; simpl; lia. Defined.
(** The deadline of timer 2, 100, lies after the wrap and so comes after that of timer 1, 2^32 - 50. *)
Example wrap_in_order :
  match (TimerInit ;; rounds some_rounds ;; TimerNextDeadline) before_wrap with
  | Ok (d, s') => d = 295 ∧ called s' = [(7, 1); (8, 2)] ∧ timers s' = [3]
  | _ => False
  end.
Proof. by vm_compute. Qed.
End TimerDemo.
