(* ===== verification/Wire.v ===== *)
(** Packet formats of user/services/netd: the Internet checksum (net/ip.c), the packed headers of
    link/eth.h, link/arp.h, net/ip.h, net/icmp.h, transport/udp.h and transport/tcp.h, and the TCP
    options (transport/tcp_opts.c).

    A packed structure is a record of its fields, each with the value the little-endian processor
    loads from memory; [X_bytes] is its layout and [X_of] reads it back from bytes.  The theorems
    about checksums reduce the folded 32-bit sum to arithmetic modulo 65535. *)
From S2P Require Import Prelude Str Ring Tcp.

#[local] Open Scope Z_scope.

(** * Memory layout *)

Definition le16 (v : Z) : list Z := [v mod 256; v / 256 mod 256].
Definition le32 (v : Z) : list Z := [v mod 256; v / 256 mod 256; v / 65536 mod 256; v / 16777216 mod 256].
Fixpoint of_le (bs : list Z) : Z := match bs with [] => 0 | b :: bs' => b + 256 * of_le bs' end.
Definition sub (bs : list Z) (off n : nat) : list Z := take n (drop off bs).
Definition is_byte (b : Z) : Prop := 0 ≤ b < 256.

(** * link/eth.h, link/arp.h *)

Definition ETH_TYPE_ARP : Z := 0x0806.
Definition ETH_TYPE_IP : Z := 0x0800.
Record EthHdr := MkEthHdr { dst_mac : list Z; src_mac : list Z; ethertype : Z }.
Definition EthHdr_bytes (h : EthHdr) : list Z := dst_mac h ++ src_mac h ++ le16 (ethertype h).
Definition EthHdr_of (b : list Z) : EthHdr := MkEthHdr (sub b 0 6) (sub b 6 6) (of_le (sub b 12 2)).

Definition ARP_OPER_REQST : Z := 1.
Record ArpPacket := MkArpPacket { htype : Z; ptype : Z; hlen : Z; plen : Z; oper : Z; sha : list Z; spa : list Z; tha : list Z; tpa : list Z }.
Definition ArpPacket_bytes (p : ArpPacket) : list Z :=
  le16 (htype p) ++ le16 (ptype p) ++ [hlen p; plen p] ++ le16 (oper p) ++ sha p ++ spa p ++ tha p ++ tpa p.
Definition ArpPacket_of (b : list Z) : ArpPacket :=
  MkArpPacket (of_le (sub b 0 2)) (of_le (sub b 2 2)) (of_le (sub b 4 1)) (of_le (sub b 5 1)) (of_le (sub b 6 2))
    (sub b 8 6) (sub b 14 4) (sub b 18 6) (sub b 24 4).

(** * net/ip.h, net/icmp.h *)

Definition IP_PROTO_ICMP : Z := 1.
Definition IP_PROTO_TCP : Z := 6.
Definition IP_PROTO_UDP : Z := 17.
Definition IP_FLAG_DF : Z := bit 14.
Definition IP_FLAG_MF : Z := bit 13.
Definition BROADCAST_IP : Z := 0xFFFFFFFF.

Record IpHeader := MkIpHeader { version_ihl : Z; dscp_ecn : Z; total_length : Z; identification : Z; flags_fragment_offset : Z;
                                ttl : Z; protocol : Z; header_checksum : Z; src_ip : Z; dst_ip : Z }.
Definition IpHeader_bytes (h : IpHeader) : list Z :=
  [version_ihl h; dscp_ecn h] ++ le16 (total_length h) ++ le16 (identification h) ++ le16 (flags_fragment_offset h) ++
  [ttl h; protocol h] ++ le16 (header_checksum h) ++ le32 (src_ip h) ++ le32 (dst_ip h).
Definition IpHeader_of (b : list Z) : IpHeader :=
  MkIpHeader (of_le (sub b 0 1)) (of_le (sub b 1 1)) (of_le (sub b 2 2)) (of_le (sub b 4 2)) (of_le (sub b 6 2))
    (of_le (sub b 8 1)) (of_le (sub b 9 1)) (of_le (sub b 10 2)) (of_le (sub b 12 4)) (of_le (sub b 16 4)).

Definition ICMP_ECHO_REPLY : Z := 0.
Definition ICMP_ECHO_REQUEST : Z := 8.
Record IcmpHdr := MkIcmpHdr { type_ : Z; code : Z; icmp_checksum : Z; identifier : Z; sequence : Z }.
Definition IcmpHdr_bytes (h : IcmpHdr) : list Z := [type_ h; code h] ++ le16 (icmp_checksum h) ++ le16 (identifier h) ++ le16 (sequence h).
Definition IcmpHdr_of (b : list Z) : IcmpHdr :=
  MkIcmpHdr (of_le (sub b 0 1)) (of_le (sub b 1 1)) (of_le (sub b 2 2)) (of_le (sub b 4 2)) (of_le (sub b 6 2)).

(** * transport/udp.h, transport/tcp.h *)

Record UdpHeader := MkUdpHeader { u_src_port : Z; u_dst_port : Z; u_length : Z; u_checksum : Z }.
Definition UdpHeader_bytes (h : UdpHeader) : list Z := le16 (u_src_port h) ++ le16 (u_dst_port h) ++ le16 (u_length h) ++ le16 (u_checksum h).
Definition UdpHeader_of (b : list Z) : UdpHeader :=
  MkUdpHeader (of_le (sub b 0 2)) (of_le (sub b 2 2)) (of_le (sub b 4 2)) (of_le (sub b 6 2)).

Record TcpHdr := MkTcpHdr { th_src_port : Z; th_dst_port : Z; th_seq : Z; th_ack : Z; th_data_offset : Z; th_flags : Z;
                            th_window : Z; th_checksum : Z; th_urgent_ptr : Z }.
Definition TcpHdr_bytes (h : TcpHdr) : list Z :=
  le16 (th_src_port h) ++ le16 (th_dst_port h) ++ le32 (th_seq h) ++ le32 (th_ack h) ++ [th_data_offset h; th_flags h] ++
  le16 (th_window h) ++ le16 (th_checksum h) ++ le16 (th_urgent_ptr h).
Definition TcpHdr_of (b : list Z) : TcpHdr :=
  MkTcpHdr (of_le (sub b 0 2)) (of_le (sub b 2 2)) (of_le (sub b 4 4)) (of_le (sub b 8 4)) (of_le (sub b 12 1)) (of_le (sub b 13 1))
    (of_le (sub b 14 2)) (of_le (sub b 16 2)) (of_le (sub b 18 2)).
Definition set_th_checksum (c : Z) (h : TcpHdr) : TcpHdr :=
  MkTcpHdr (th_src_port h) (th_dst_port h) (th_seq h) (th_ack h) (th_data_offset h) (th_flags h) (th_window h) c (th_urgent_ptr h).

(** * Checksums: net/ip.c, transport/tcp_out.c, transport/udp.c *)

(** [InetCsumPartial] of the bytes of a region. *)
Fixpoint InetCsumPartial (data : list Z) (accum : Z) : Z :=
  match data with
  | a :: b :: data' => InetCsumPartial data' (w32 (accum + Z.lor (Z.shiftl a 8) b))
  | [a] => w32 (accum + Z.shiftl a 8)
  | [] => accum
  end.

(** The loop of [InetCsumFold]; two rounds are enough for a 32-bit sum. *)
Fixpoint csum_fold (fuel : nat) (accum : Z) : option Z :=
  if Z.shiftr accum 16 =? 0 then Some (w16 (Z.lnot accum)) else
  match fuel with
  | O => None
  | S fuel' => csum_fold fuel' (w32 (Z.land accum 0xFFFF + Z.shiftr accum 16))
  end.
Definition InetCsumFold (accum : Z) : option Z := csum_fold 2 accum.

Definition InetChecksum (data : list Z) : option Z := InetCsumFold (InetCsumPartial data 0).

(** [TcpChecksum] and [UdpChecksum] differ in the protocol only. *)
Definition PseudoChecksum (proto : Z) (src dst : Z) (seg : list Z) : option Z :=
  let seg_len := w16 (Z.of_nat (length seg)) in
  let pseudo := le32 src ++ le32 dst ++ [0; proto; w8 (Z.shiftr seg_len 8); w8 (Z.land seg_len 0xFF)] in
  InetCsumFold (InetCsumPartial seg (InetCsumPartial pseudo 0)).
Definition TcpChecksum (src dst : Z) (seg : list Z) : option Z := PseudoChecksum IP_PROTO_TCP src dst seg.
Definition UdpChecksum (src dst : Z) (seg : list Z) : option Z := PseudoChecksum IP_PROTO_UDP src dst seg.

(** * transport/tcp_opts.c *)

Definition TCP_MAX_OPTS : Z := 40.
Definition TCP_OPT_KIND_EOL : Z := 0.
Definition TCP_OPT_KIND_NOP : Z := 1.
Definition TCP_OPT_KIND_MSS : Z := 2.
Definition TCP_OPT_MSS_BIT : Z := 1.

Fixpoint pad_nops (fuel : nat) (cap : Z) (dst : list Z) : list Z :=
  match fuel with
  | O => dst
  | S fuel' => if negb (Z.of_nat (length dst) mod 4 =? 0) && (Z.of_nat (length dst) <? cap) then pad_nops fuel' cap (dst ++ [TCP_OPT_KIND_NOP]) else dst
  end.
(** The bytes written to [dst]. *)
Definition TcpBuildOptions (cap opts_present mss : Z) : list Z :=
  let dst := if truthy (Z.land opts_present TCP_OPT_MSS_BIT) && (4 <=? cap)
             then [TCP_OPT_KIND_MSS; 4; w8 (Z.shiftr mss 8); w8 (Z.land mss 0xFF)] else [] in
  pad_nops 3 cap dst.

(** Whether all options were well-formed, and the MSS value found; [Panic] when a byte outside the
    options is read.  Every round moves on by one byte at least. *)
Definition opt_byte (opts : list Z) (i : Z) : res Z := match opts !! Z.to_nat i with Some b => Ok b | None => Panic end.
Fixpoint parse_options (fuel : nat) (opts : list Z) (len i : Z) (mss : option Z) : res (bool * option Z) :=
  if negb (i <? len) then Ok (true, mss) else
  match fuel with
  | O => Diverge
  | S fuel' =>
      match opt_byte opts i with
      | Ok kind =>
          if kind =? TCP_OPT_KIND_EOL then Ok (true, mss) else
          if kind =? TCP_OPT_KIND_NOP then parse_options fuel' opts len (i + 1) mss else
          if i + 1 <? len then
            match opt_byte opts (i + 1) with
            | Ok length =>
                if (length <? 2) || (len <? i + length) then Ok (false, mss) else
                if (kind =? TCP_OPT_KIND_MSS) && (length =? 4) then
                  match opt_byte opts (i + 2), opt_byte opts (i + 3) with
                  | Ok hi, Ok lo => parse_options fuel' opts len (i + length) (Some (Z.lor (Z.shiftl hi 8) lo))
                  | _, _ => Panic
                  end
                else parse_options fuel' opts len (i + length) mss
            | _ => Panic
            end
          else Ok (false, mss)
      | _ => Panic
      end
  end.
Definition TcpParseOptions (opts : list Z) (len : Z) : res (bool * option Z) := parse_options (Z.to_nat len) opts len 0 None.

(** * Layout lemmas *)

Definition u16 (v : Z) : Prop := 0 ≤ v < 65536.
Definition u32 (v : Z) : Prop := 0 ≤ v < 4294967296.

Lemma le16_bytes v : Forall is_byte (le16 v).
Proof. repeat constructor; unfold is_byte; apply Z.mod_pos_bound; lia. Qed.
Lemma le32_bytes v : Forall is_byte (le32 v).
Proof. repeat constructor; unfold is_byte; apply Z.mod_pos_bound; lia. Qed.
Lemma of_le16 v : u16 v → of_le (le16 v) = v.
Proof. unfold u16. simpl. intros. Z.div_mod_to_equations. lia. Qed.
Lemma of_le32 v : u32 v → of_le (le32 v) = v.
Proof.
  unfold u32. cbn [of_le le32]. intros. change 16777216 with (256 * 65536). change 65536 with (256 * 256).
  rewrite <- !Z.div_div by lia. Z.div_mod_to_equations. lia.
Qed.
Lemma of_le_range bs : Forall is_byte bs → 0 ≤ of_le bs < 256 ^ Z.of_nat (length bs).
Proof.
  induction 1 as [|b bs Hb _ IH]; [simpl; lia|]. cbn [of_le length]. rewrite Nat2Z.inj_succ, Z.pow_succ_r by lia. unfold is_byte in Hb. lia.
Qed.
Lemma of_le_u16 a b : is_byte a → is_byte b → u16 (of_le [a; b]).
Proof. unfold is_byte, u16. simpl. lia. Qed.

Lemma htons_val x : u16 x → htons x = x mod 256 * 256 + x / 256.
Proof.
  unfold u16. intros Hx. unfold htons, w16. rewrite Z.lor_comm, Z.shiftl_mul_pow2, Z.shiftr_div_pow2 by lia.
  rewrite lor_pack by (Z.div_mod_to_equations; lia). change (2 ^ 8) with 256. change (2 ^ 16) with 65536. Z.div_mod_to_equations. lia.
Qed.
Lemma htons_u16 x : u16 (htons x).
Proof. unfold u16, htons, w16. apply Z.mod_pos_bound. lia. Qed.
Lemma htons_htons x : u16 x → htons (htons x) = x.
Proof. intros Hx. rewrite (htons_val (htons x)) by apply htons_u16. rewrite htons_val by done. unfold u16 in Hx. Z.div_mod_to_equations. lia. Qed.
Lemma le16_htons x : u16 x → le16 (htons x) = [x / 256; x mod 256].
Proof. intros Hx. rewrite htons_val by done. unfold le16, u16 in *. f_equal; [|f_equal]; Z.div_mod_to_equations; lia. Qed.

Lemma land_mask a k : 0 ≤ a → 0 ≤ k → Z.land a (255 * 2 ^ k) = a / 2 ^ k mod 256 * 2 ^ k.
Proof.
  intros Ha Hk. rewrite <- (Z.shiftl_mul_pow2 255), <- (Z.shiftl_mul_pow2 (_ mod _)), <- Z.shiftr_div_pow2 by lia.
  change 256 with (2 ^ 8). rewrite <- Z.land_ones by lia. change (Z.ones 8) with 255.
  apply Z.bits_inj'. intros i Hi. rewrite Z.land_spec, !Z.shiftl_spec by lia. destruct (Z.lt_ge_cases i k).
  - rewrite !(Z.testbit_neg_r _ (i - k)) by lia. apply andb_false_r.
  - rewrite Z.land_spec, Z.shiftr_spec by lia. do 2 f_equal. lia.
Qed.
Lemma htonl_val x : u32 x → htonl x = x mod 256 * 16777216 + x / 256 mod 256 * 65536 + x / 65536 mod 256 * 256 + x / 16777216 mod 256.
Proof.
  unfold u32. intros Hx. unfold htonl, w32. rewrite !Z.shiftl_mul_pow2, !Z.shiftr_div_pow2 by lia.
  change 0xFF00 with (255 * 2 ^ 8). change 0xFF0000 with (255 * 2 ^ 16).
  rewrite !land_mask by (try apply Z.div_pos; try apply Z.mod_pos_bound; lia).
  set (c := x * 2 ^ 24 mod 2 ^ 32). set (b := x * 2 ^ 8 mod 2 ^ 32 / 2 ^ 16 mod 256). set (a := x / 2 ^ 8 / 2 ^ 8 mod 256).
  assert (Hc : c = x mod 256 * 2 ^ 24) by (unfold c; change (2 ^ 32) with (256 * 2 ^ 24); rewrite Z.mul_mod_distr_r by lia; done).
  assert (Hb : b = x / 256 mod 256).
  { unfold b. change (2 ^ 32) with (2 ^ 24 * 2 ^ 8). rewrite Z.mul_mod_distr_r by lia. change (2 ^ 16) with (2 ^ 8 * 2 ^ 8). rewrite <- Z.div_div, Z.div_mul by lia.
    change (2 ^ 24) with (256 * 65536). change (2 ^ 8) with 256. rewrite Z.rem_mul_r by lia. rewrite (Z.mul_comm 256), Z.div_add by lia.
    rewrite (Z.div_small (x mod 256)) by (apply Z.mod_pos_bound; lia). rewrite Z.add_0_l. change 65536 with (256 * 256).
    rewrite Z.rem_mul_r by lia. rewrite (Z.mul_comm 256 (_ mod _)), Z.mod_add by lia. apply Z.mod_mod. lia. }
  assert (Ha : a = x / 65536 mod 256) by (unfold a; rewrite Z.div_div by lia; done).
  pose proof (Z.mod_pos_bound (x / 256) 256). pose proof (Z.mod_pos_bound (x / 65536) 256). assert (0 ≤ x / 2 ^ 24 < 256) by (Z.div_mod_to_equations; lia).
  rewrite (Z.lor_comm _ c), Hc, Hb, Ha. rewrite (Z.lor_comm _ (x / 256 mod 256 * 2 ^ 16)). rewrite (Z.lor_comm (x / 2 ^ 24)).
  rewrite (lor_pack 8) by lia. rewrite (lor_pack 16), (lor_pack 24) by lia. rewrite (Z.mod_small (x / 16777216)) by (change (2 ^ 24) with 16777216 in *; lia).
  change (2 ^ 24) with 16777216. lia.
Qed.
Lemma htonl_u32 x : u32 x → u32 (htonl x).
Proof. intros Hx. rewrite htonl_val by done. unfold u32. repeat match goal with |- context [?a mod 256] => pose proof (Z.mod_pos_bound a 256 eq_refl); generalize dependent (a mod 256); intros end. lia. Qed.
Lemma le32_split a b c d : is_byte a → is_byte b → is_byte c → is_byte d → le32 (a + 256 * b + 65536 * c + 16777216 * d) = [a; b; c; d].
Proof.
  unfold is_byte, le32. intros. repeat f_equal.
  - replace (a + 256 * b + 65536 * c + 16777216 * d) with (a + (b + 256 * c + 65536 * d) * 256) by lia. rewrite Z.mod_add by lia. apply Z.mod_small. lia.
  - replace (a + 256 * b + 65536 * c + 16777216 * d) with (a + (b + 256 * c + 65536 * d) * 256) by lia. rewrite Z.div_add, (Z.div_small a) by lia.
    replace (0 + (b + 256 * c + 65536 * d)) with (b + (c + 256 * d) * 256) by lia. rewrite Z.mod_add by lia. apply Z.mod_small. lia.
  - replace (a + 256 * b + 65536 * c + 16777216 * d) with ((a + 256 * b) + (c + 256 * d) * 65536) by lia. rewrite Z.div_add, (Z.div_small (a + 256 * b)) by lia.
    replace (0 + (c + 256 * d)) with (c + d * 256) by lia. rewrite Z.mod_add by lia. apply Z.mod_small. lia.
  - replace (a + 256 * b + 65536 * c + 16777216 * d) with ((a + 256 * b + 65536 * c) + d * 16777216) by lia. rewrite Z.div_add, (Z.div_small (_ + _)) by lia. apply Z.mod_small. lia.
Qed.
Lemma htonl_htonl x : u32 x → htonl (htonl x) = x.
Proof.
  intros Hx. pose proof (htonl_u32 x Hx) as Hy.
  assert (E : le32 (htonl x) = [x / 16777216 mod 256; x / 65536 mod 256; x / 256 mod 256; x mod 256]).
  { rewrite htonl_val by done. rewrite <- le32_split by (apply Z.mod_pos_bound; lia). f_equal. lia. }
  rewrite htonl_val by done. unfold le32 in E. injection E as -> -> -> ->. pose proof (of_le32 x Hx) as H. cbn [of_le le32] in H. lia.
Qed.

(** Reading back a structure. *)
Lemma of_le1 b : of_le [b] = b.
Proof. cbn [of_le]. lia. Qed.
Lemma sub_app_l (a b : list Z) n : length a = n → sub (a ++ b) 0 n = a.
Proof. intros <-. unfold sub. by rewrite drop_0, take_app_length. Qed.
Lemma sub_app_r (a b : list Z) off n : (length a ≤ off)%nat → sub (a ++ b) off n = sub b (off - length a) n.
Proof. intros Ha. unfold sub. rewrite drop_app_ge by done. done. Qed.

Ltac read_back :=
  cbn [sub take drop le16 le32 app]; f_equal; first [by apply of_le1 | by apply of_le16 | by apply of_le32].

Lemma EthHdr_of_bytes h rest : length (dst_mac h) = 6%nat → length (src_mac h) = 6%nat → u16 (ethertype h) → EthHdr_of (EthHdr_bytes h ++ rest) = h.
Proof.
  destruct h as [d s t]. simpl. intros Hd Hs Ht. unfold EthHdr_of, EthHdr_bytes. cbn [dst_mac src_mac ethertype]. rewrite <- !(assoc_L (++)).
  rewrite (sub_app_l d), (sub_app_r d), (sub_app_r d) by lia. rewrite Hd. cbn [Nat.sub]. rewrite (sub_app_l s), (sub_app_r s) by lia. rewrite Hs. cbn [Nat.sub].
  rewrite (sub_app_l (le16 t)) by done. f_equal. by apply of_le16.
Qed.
Lemma IpHeader_of_bytes h rest :
  u16 (total_length h) → u16 (identification h) → u16 (flags_fragment_offset h) → u16 (header_checksum h) → u32 (src_ip h) → u32 (dst_ip h) →
  IpHeader_of (IpHeader_bytes h ++ rest) = h.
Proof. destruct h. cbn. intros. unfold IpHeader_of, IpHeader_bytes. read_back. Qed.
Lemma UdpHeader_of_bytes h rest :
  u16 (u_src_port h) → u16 (u_dst_port h) → u16 (u_length h) → u16 (u_checksum h) → UdpHeader_of (UdpHeader_bytes h ++ rest) = h.
Proof. destruct h. cbn. intros. unfold UdpHeader_of, UdpHeader_bytes. read_back. Qed.
Lemma TcpHdr_of_bytes h rest :
  u16 (th_src_port h) → u16 (th_dst_port h) → u32 (th_seq h) → u32 (th_ack h) → u16 (th_window h) → u16 (th_checksum h) → u16 (th_urgent_ptr h) →
  TcpHdr_of (TcpHdr_bytes h ++ rest) = h.
Proof. destruct h. cbn. intros. unfold TcpHdr_of, TcpHdr_bytes. read_back. Qed.

(** * Checksum lemmas *)

(** The sum of the big-endian 16-bit words of a region, an odd last byte padded with 0. *)
Fixpoint words (data : list Z) : Z :=
  match data with
  | a :: b :: data' => a * 256 + b + words data'
  | [a] => a * 256
  | [] => 0
  end.

(** Induction over a region two bytes at a time. *)
Lemma pairs_ind (P : list Z → Prop) : P [] → (∀ a, P [a]) → (∀ a b l, P l → P (a :: b :: l)) → ∀ l, P l.
Proof.
  intros H0 H1 H2 l. enough (P l ∧ ∀ a, P (a :: l)) as [? _]; [done|]. induction l as [|a l [IH1 IH2]]; [done|]. split; [done|]. intros b. by apply H2.
Qed.
Lemma words_range data : Forall is_byte data → 0 ≤ words data ≤ 65535 * ((Z.of_nat (length data) + 1) / 2).
Proof.
  induction data as [|a|a b l IH] using pairs_ind; [done| |]; intros Hb.
  - apply Forall_cons in Hb as [Ha _]. unfold is_byte in Ha. change ((Z.of_nat (length [a]) + 1) / 2) with 1. cbn [words]. lia.
  - rewrite !Forall_cons in Hb. destruct Hb as (Ha & Hb & Hl). specialize (IH Hl). unfold is_byte in Ha, Hb. cbn [words length].
    replace (Z.of_nat (S (S (length l))) + 1) with (Z.of_nat (length l) + 1 + 1 * 2) by lia. rewrite Z.div_add by lia. lia.
Qed.
Lemma words_app a b : Nat.Even (length a) → words (a ++ b) = words a + words b.
Proof.
  induction a as [|x|x y l IH] using pairs_ind; intros He; [done| |].
  - destruct He as [k Hk]. simpl in Hk. lia.
  - cbn [words app]. rewrite IH; [lia|]. destruct He as [k Hk]. simpl in Hk. exists (k - 1)%nat. lia.
Qed.
Lemma InetCsumPartial_words data : ∀ accum,
  Forall is_byte data → 0 ≤ accum → accum + words data < 2 ^ 32 → InetCsumPartial data accum = accum + words data.
Proof.
  induction data as [|a|a b l IH] using pairs_ind; intros accum Hb H0 Hs; cbn [InetCsumPartial words] in *; [lia| |].
  - apply Forall_cons in Hb as [Ha _]. unfold is_byte in Ha. rewrite Z.shiftl_mul_pow2 by lia. change (2 ^ 8) with 256. apply w32_small. lia.
  - rewrite !Forall_cons in Hb. destruct Hb as (Ha & Hb & Hl). pose proof (words_range l Hl). unfold is_byte in Ha, Hb.
    rewrite Z.shiftl_mul_pow2 by lia. rewrite (lor_pack 8) by lia. change (2 ^ 8) with 256. rewrite w32_small by lia. rewrite IH by (done || lia). lia.
Qed.

(** The value a 32-bit sum folds to, before it is complemented. *)
Definition folded (a : Z) : Z := if a =? 0 then 0 else (a - 1) mod 65535 + 1.
Lemma folded_small a : 0 ≤ a < 65536 → folded a = a.
Proof. intros Ha. unfold folded. destruct (Z.eqb_spec a 0); [lia|]. rewrite Z.mod_small by lia. lia. Qed.
Lemma folded_step a : 65536 ≤ a → folded (a mod 65536 + a / 65536) = folded a.
Proof.
  intros Ha. unfold folded. assert (1 ≤ a / 65536) by (apply Z.div_le_lower_bound; lia). pose proof (Z.mod_pos_bound a 65536).
  rewrite !(proj2 (Z.eqb_neq _ 0)) by lia. f_equal. rewrite (Z.div_mod a 65536) at 3 by lia.
  replace (65536 * (a / 65536) + a mod 65536 - 1) with (a mod 65536 + a / 65536 - 1 + a / 65536 * 65535) by lia. by rewrite Z.mod_add by lia.
Qed.
Lemma folded_range a : 0 ≤ folded a < 65536.
Proof. unfold folded. destruct (a =? 0); [lia|]. pose proof (Z.mod_pos_bound (a - 1) 65535). lia. Qed.
Lemma csum_fold_step fuel a : 0 ≤ a < 2 ^ 32 → 65536 ≤ a → csum_fold (S fuel) a = csum_fold fuel (a mod 65536 + a / 65536).
Proof.
  intros Ha H. cbn [csum_fold]. rewrite Z.shiftr_div_pow2 by lia. change (2 ^ 16) with 65536. change 0xFFFF with (Z.ones 16). rewrite Z.land_ones by lia.
  change (2 ^ 16) with 65536. assert (1 ≤ a / 65536 < 65536) by (split; [apply Z.div_le_lower_bound|apply Z.div_lt_upper_bound]; lia).
  rewrite (proj2 (Z.eqb_neq _ 0)) by lia. pose proof (Z.mod_pos_bound a 65536). by rewrite w32_small by lia.
Qed.
Lemma csum_fold_done fuel a : 0 ≤ a < 65536 → csum_fold fuel a = Some (65535 - a).
Proof.
  intros Ha. assert (E : Z.shiftr a 16 = 0) by (rewrite Z.shiftr_div_pow2 by lia; by apply Z.div_small).
  destruct fuel; cbn [csum_fold]; rewrite E; cbn [Z.eqb]; unfold w16, Z.lnot; f_equal.
  - rewrite <- (Z.mod_add _ 1) by lia. rewrite Z.mod_small by lia. lia.
  - rewrite <- (Z.mod_add _ 1) by lia. rewrite Z.mod_small by lia. lia.
Qed.
Lemma InetCsumFold_folded a : 0 ≤ a < 2 ^ 32 → InetCsumFold a = Some (65535 - folded a).
Proof.
  intros Ha. unfold InetCsumFold. destruct (Z.lt_ge_cases a 65536) as [|H1]; [rewrite csum_fold_done, folded_small by lia; done|].
  rewrite csum_fold_step, <- folded_step by lia. set (b := a mod 65536 + a / 65536).
  assert (Hb : 0 < b < 2 * 65536 - 1). { unfold b. pose proof (Z.mod_pos_bound a 65536). assert (1 ≤ a / 65536 < 65536) by (split; [apply Z.div_le_lower_bound|apply Z.div_lt_upper_bound]; lia). lia. }
  clearbody b. destruct (Z.lt_ge_cases b 65536) as [|H2]; [rewrite csum_fold_done, folded_small by lia; done|].
  rewrite csum_fold_step, <- folded_step by lia. assert (b / 65536 = 1) as -> by (Z.div_mod_to_equations; lia). pose proof (Z.mod_pos_bound b 65536).
  assert (b mod 65536 < 65535) by (Z.div_mod_to_equations; lia). rewrite csum_fold_done, folded_small by lia. done.
Qed.
(** A sum with its complement added folds to all ones. *)
Lemma folded_complement a : 0 ≤ a → folded (a + (65535 - folded a)) = 65535.
Proof.
  intros Ha. unfold folded at 2. destruct (Z.eqb_spec a 0) as [->|Hn]; [done|]. unfold folded. pose proof (Z.mod_pos_bound (a - 1) 65535).
  rewrite (proj2 (Z.eqb_neq _ 0)) by lia. pose proof (Z.div_mod (a - 1) 65535).
  replace (a + (65535 - ((a - 1) mod 65535 + 1)) - 1) with (65534 + (a - 1) / 65535 * 65535) by lia. by rewrite Z.mod_add by lia.
Qed.
Lemma folded_all_ones a : 0 ≤ a → folded a = 65535 ↔ a ≠ 0 ∧ a mod 65535 = 0.
Proof.
  intros Ha. unfold folded. destruct (Z.eqb_spec a 0) as [->|Hn]; [split; [lia|tauto]|]. pose proof (Z.mod_pos_bound (a - 1) 65535).
  split.
  - intros H1. split; [done|]. replace a with (a - 1 + 1) by lia. rewrite <- Zplus_mod_idemp_l. by replace ((a - 1) mod 65535) with 65534 by lia.
  - intros [_ H1]. replace (a - 1) with (a + (-1)) by lia. rewrite <- Zplus_mod_idemp_l, H1. done.
Qed.

Definition pseudo (proto src dst seg_len : Z) : list Z := le32 src ++ le32 dst ++ [0; proto; w8 (Z.shiftr seg_len 8); w8 (Z.land seg_len 0xFF)].
Lemma w8_byte z : is_byte (w8 z).
Proof. unfold is_byte, w8. apply Z.mod_pos_bound. lia. Qed.
Lemma pseudo_bytes proto src dst n : is_byte proto → Forall is_byte (pseudo proto src dst n).
Proof. intros Hp. apply Forall_app. split; [apply le32_bytes|]. apply Forall_app. split; [apply le32_bytes|].
  rewrite !Forall_cons, Forall_nil. split_and!; [unfold is_byte; lia|done|apply w8_byte|apply w8_byte|done].
Qed.
Lemma sum_fits data : Forall is_byte data → Z.of_nat (length data) ≤ 65535 → 0 ≤ words data ≤ 2147450880.
Proof. intros Hb Hl. pose proof (words_range data Hb). assert ((Z.of_nat (length data) + 1) / 2 ≤ 32768) by (apply Z.div_le_upper_bound; lia). lia. Qed.
Lemma InetChecksum_val data : Forall is_byte data → Z.of_nat (length data) ≤ 65535 → InetChecksum data = Some (65535 - folded (words data)).
Proof.
  intros Hb Hl. pose proof (sum_fits data Hb Hl). unfold InetChecksum. rewrite InetCsumPartial_words by (done || lia). by rewrite InetCsumFold_folded by lia.
Qed.
Lemma PseudoChecksum_val proto src dst seg :
  is_byte proto → Forall is_byte seg → Z.of_nat (length seg) ≤ 65535 →
  PseudoChecksum proto src dst seg = Some (65535 - folded (words (pseudo proto src dst (Z.of_nat (length seg))) + words seg)) ∧
  0 ≤ words (pseudo proto src dst (Z.of_nat (length seg))) ≤ 393210.
Proof.
  intros Hp Hb Hl. unfold PseudoChecksum. rewrite w16_small by lia. fold (pseudo proto src dst (Z.of_nat (length seg))).
  pose proof (pseudo_bytes proto src dst (Z.of_nat (length seg)) Hp) as Hq. pose proof (words_range _ Hq) as Hr. pose proof (sum_fits seg Hb Hl).
  change ((Z.of_nat (length (pseudo proto src dst (Z.of_nat (length seg)))) + 1) / 2) with 6 in Hr. split; [|lia].
  rewrite (InetCsumPartial_words (pseudo _ _ _ _)) by (done || lia). rewrite InetCsumPartial_words by (done || lia). by rewrite InetCsumFold_folded by lia.
Qed.

(** Writing the checksum [c] of a region, computed with a zero in its place, makes it check. *)
Definition stored_checksum (c : Z) : list Z := le16 (htons c).
Lemma words_stored a c b : Nat.Even (length a) → u16 c → words (a ++ stored_checksum c ++ b) = words (a ++ [0; 0] ++ b) + c.
Proof.
  intros Ha Hc. unfold stored_checksum. rewrite le16_htons by done. rewrite (words_app a (_ ++ b)), (words_app a ([0; 0] ++ b)) by done. cbn [words app]. unfold u16 in Hc. Z.div_mod_to_equations. lia.
Qed.
Lemma stored_bytes a c b : Forall is_byte (a ++ [0; 0] ++ b) → Forall is_byte (a ++ stored_checksum c ++ b).
Proof. rewrite !Forall_app. intros (Ha & _ & Hb). split_and!; [done|apply le16_bytes|done]. Qed.
Lemma InetChecksum_stored a b c :
  Nat.Even (length a) → Forall is_byte (a ++ [0; 0] ++ b) → Z.of_nat (length (a ++ [0; 0] ++ b)) ≤ 65535 →
  InetChecksum (a ++ [0; 0] ++ b) = Some c → u16 c ∧ InetChecksum (a ++ stored_checksum c ++ b) = Some 0.
Proof.
  intros He Hb Hl. rewrite InetChecksum_val by done. intros <-%(inj Some). pose proof (folded_range (words (a ++ [0; 0] ++ b))). pose proof (sum_fits _ Hb Hl).
  assert (Hc : u16 (65535 - folded (words (a ++ [0; 0] ++ b)))) by (unfold u16; lia). split; [done|].
  rewrite InetChecksum_val; [|by apply stored_bytes|rewrite !length_app in *; simpl in *; lia].
  rewrite words_stored by done. by rewrite folded_complement by lia.
Qed.
Lemma PseudoChecksum_stored proto src dst a b c c' :
  is_byte proto → Nat.Even (length a) → Forall is_byte (a ++ [0; 0] ++ b) → Z.of_nat (length (a ++ [0; 0] ++ b)) ≤ 65535 →
  PseudoChecksum proto src dst (a ++ [0; 0] ++ b) = Some c → c' = c ∨ (c = 0 ∧ c' = 65535) →
  u16 c ∧ PseudoChecksum proto src dst (a ++ stored_checksum c' ++ b) = Some 0.
Proof.
  intros Hp He Hb Hl. destruct (PseudoChecksum_val proto src dst _ Hp Hb Hl) as [E Hq]. rewrite E. intros <-%(inj Some) Hc'.
  set (p := words (pseudo proto src dst (Z.of_nat (length (a ++ [0; 0] ++ b))))) in *.
  pose proof (folded_range (p + words (a ++ [0; 0] ++ b))). pose proof (sum_fits _ Hb Hl).
  assert (Hu : u16 c') by (unfold u16; lia). split; [unfold u16; lia|].
  assert (Hn : length (a ++ stored_checksum c' ++ b) = length (a ++ [0; 0] ++ b)) by (rewrite !length_app; done).
  destruct (PseudoChecksum_val proto src dst (a ++ stored_checksum c' ++ b)) as [-> _]; [done|by apply stored_bytes|by rewrite Hn|].
  rewrite Hn. fold p. rewrite words_stored by done. rewrite Z.add_assoc. do 2 f_equal. destruct Hc' as [->|[Hz0 ->]]; [rewrite folded_complement by lia; done|].
  assert (folded (p + words (a ++ [0; 0] ++ b)) = 65535) as [Hz Hm]%folded_all_ones by lia; [|lia].
  rewrite (proj2 (folded_all_ones (p + words (a ++ [0; 0] ++ b) + 65535) ltac:(lia))); [done|]. split; [lia|]. rewrite <- Zplus_mod_idemp_l, Hm. done.
Qed.

(** A changed byte changes the sum, and by less than 65535. *)
Lemma words_insert l : ∀ i x y, l !! i = Some y → words (<[i := x]> l) = words l + (x - y) * (if Nat.even i then 256 else 1).
Proof.
  induction l as [|a|a b l IH] using pairs_ind; intros i x y Hi; [done| |].
  - destruct i; [|done]. injection Hi as ->. simpl. lia.
  - destruct i as [|[|i]]; cbn [lookup list_lookup] in Hi; cbn [insert list_insert words Nat.even].
    + injection Hi as ->. lia.
    + injection Hi as ->. lia.
    + etrans; [exact (f_equal (Z.add (a * 256 + b)) (IH i x y Hi))|lia].
Qed.
Lemma PseudoChecksum_detects proto src dst seg i x y :
  is_byte proto → Forall is_byte seg → Z.of_nat (length seg) ≤ 65535 → is_byte x → seg !! i = Some y → x ≠ y →
  PseudoChecksum proto src dst seg = Some 0 → ∃ c, PseudoChecksum proto src dst (<[i := x]> seg) = Some c ∧ c ≠ 0.
Proof.
  intros Hp Hb Hl Hx Hi Hne. destruct (PseudoChecksum_val proto src dst seg Hp Hb Hl) as [-> Hq]. intros H0%(inj Some).
  assert (Hb' : Forall is_byte (<[i := x]> seg)) by by apply Forall_insert.
  destruct (PseudoChecksum_val proto src dst (<[i := x]> seg) Hp Hb') as [-> _]; [by rewrite length_insert|]. eexists. split; [done|].
  rewrite length_insert, (words_insert _ _ _ y) by done. set (p := words (pseudo proto src dst (Z.of_nat (length seg)))) in *.
  pose proof (sum_fits _ Hb Hl). pose proof (sum_fits _ Hb' ltac:(by rewrite length_insert)) as Hs. rewrite (words_insert _ _ _ y) in Hs by done.
  pose proof (Forall_lookup_1 _ _ _ _ Hb Hi) as Hy. unfold is_byte in Hx, Hy.
  set (d := (x - y) * (if Nat.even i then 256 else 1)) in *. assert (Hd : d ≠ 0 ∧ -65535 < d < 65535) by (unfold d; destruct (Nat.even i); lia). clearbody d.
  intros H1. assert (folded (p + words seg) = 65535) as [Ha Hm]%folded_all_ones by lia; [|lia].
  assert (folded (p + (words seg + d)) = 65535) as [Ha' Hm']%folded_all_ones by lia; [|lia].
  rewrite Z.add_assoc, <- Zplus_mod_idemp_l, Hm, Z.add_0_l in Hm'. apply Z.mod_divide in Hm' as [k Hk]; [|lia]. nia.
Qed.

(** * Option lemmas *)

(** Parsing stays inside the options and ends, whatever bytes they hold. *)
Lemma parse_options_in_bounds fuel : ∀ opts i mss,
  0 ≤ i → Z.of_nat (length opts) - i ≤ Z.of_nat fuel → ∃ r, parse_options fuel opts (Z.of_nat (length opts)) i mss = Ok r.
Proof.
  assert (Hread : ∀ opts i, 0 ≤ i < Z.of_nat (length opts) → ∃ b, opt_byte opts i = Ok b).
  { intros opts i Hi. unfold opt_byte. destruct (lookup_lt_is_Some_2 opts (Z.to_nat i)) as [b Eb]; [lia|]. rewrite Eb. by exists b. }
  induction fuel as [|fuel IH]; intros opts i mss Hi Hf; cbn [parse_options]; case_if E; try (by eexists); b2p; [lia|].
  destruct (Hread opts i ltac:(lia)) as (kind & ->). case_if E1; [by eexists|]. case_if E2; [apply IH; (done || lia)|].
  case_if E3; [|by eexists]. b2p. destruct (Hread opts (i + 1) ltac:(lia)) as (len & ->). case_if E4; [by eexists|]. b2p.
  case_if E5; [|apply IH; (done || lia)]. b2p. destruct (Hread opts (i + 2) ltac:(lia)) as (hi & ->), (Hread opts (i + 3) ltac:(lia)) as (lo & ->).
  apply IH; (done || lia).
Qed.
Lemma TcpParseOptions_in_bounds opts : ∃ r, TcpParseOptions opts (Z.of_nat (length opts)) = Ok r.
Proof. unfold TcpParseOptions. apply parse_options_in_bounds; [lia|]. rewrite Nat2Z.id. lia. Qed.

(** * Checksums are always computed *)

Lemma InetCsumPartial_range data : ∀ accum, 0 ≤ accum < 2 ^ 32 → 0 ≤ InetCsumPartial data accum < 2 ^ 32.
Proof. induction data as [|a|a b l IH] using pairs_ind; intros accum Ha; cbn [InetCsumPartial]; [done|apply w32_range|apply IH, w32_range]. Qed.
Lemma InetCsumFold_some a : 0 ≤ a < 2 ^ 32 → ∃ c, InetCsumFold a = Some c ∧ u16 c.
Proof. intros Ha. rewrite InetCsumFold_folded by done. eexists. split; [done|]. pose proof (folded_range a). unfold u16. lia. Qed.
Lemma InetChecksum_some data : ∃ c, InetChecksum data = Some c ∧ u16 c.
Proof. apply InetCsumFold_some, InetCsumPartial_range. lia. Qed.
Lemma PseudoChecksum_some proto src dst seg : ∃ c, PseudoChecksum proto src dst seg = Some c ∧ u16 c.
Proof. apply InetCsumFold_some, InetCsumPartial_range, InetCsumPartial_range. lia. Qed.
