(* ===== verification/Netd.v ===== *)
(** The network service below TCP, user/services/netd: frames being built (common/txframe.c),
    Ethernet and ARP (link), IP and ICMP (net), UDP and the TCP segments on the wire (transport).

    The state is what these files keep in static variables, with the transmit ring shared with the
    driver, the clock, the results of [malloc] and [Signal] given in advance, and the number of
    allocated blocks.  Memory a packet is read from is the list of bytes from the pointer to the end
    of its slot, and a read or write outside a slot is a panic.  Function pointers are numbers; the
    code above, which they lead to, is the interface [Upper], and [app] is its state. *)
From S2P Require Import Prelude Str Ring Tcp Wire.

#[local] Open Scope Z_scope.

Definition ERR_SYSDOWN : Z := -102.
Definition ERR_DUPLICATE : Z := -104.
Definition ERR_MALFORMED : Z := -105.
Definition NIC_MTU : Z := 1500.

(** * common/globals.h *)

Record Netif := MkNetif { ip : Z; netmask : Z; gateway : Z; dns : Z; mac : list Z }.
Definition BROADCAST_MAC : list Z := replicate 6 0xFF.

Record RateLimiter := MkRateLimiter { tokens : Z; last_ms : Z }.
Definition RateAllow (now : Z) (rl : RateLimiter) (rate burst : Z) : bool * RateLimiter :=
  let rl :=
    if last_ms rl =? 0 then MkRateLimiter burst (if truthy now then now else 1) else
    let refill := w32 (w64 (w32 (now - last_ms rl) * rate) / 1000) in
    if truthy refill then
      let t := w32 (tokens rl + refill) in
      MkRateLimiter (if burst <? t then burst else t) now
    else rl in
  if tokens rl =? 0 then (false, rl) else (true, MkRateLimiter (tokens rl - 1) (last_ms rl)).

(** * The tables *)

Definition ARP_MAX_ENTRIES : Z := 64.
Definition ARP_MAX_QUEUE : Z := 3.
Definition ARP_MAX_PROBES : Z := 2.
Definition ARP_PROBE_MS : Z := 500.
Definition ARP_REACHABLE_MS : Z := 60000.
Definition ACD_PROBE_NUM : Z := 3.
Definition ACD_PROBE_MS : Z := 1000.

Inductive ArpState := ARP_FREE | ARP_INCOMPLETE | ARP_REACHABLE.
#[global] Instance ArpState_eq_dec : EqDecision ArpState.
Proof. solve_decision. Defined.
(** A queued packet; its [len] is the length of [data]. *)
Record ArpPending := MkPending { pd_data : list Z; pd_ethertype : Z }.
(** [queue] holds the first [qlen] elements of the array. *)
Record ArpEntry := MkArpEntry { e_ip : Z; e_mac : list Z; e_state : ArpState; probes : Z; last_tx_ms : Z; expire_ms : Z; queue : list ArpPending }.
Definition arp_zero : ArpEntry := MkArpEntry 0 (replicate 6 0) ARP_FREE 0 0 0 [].

(** In-flight conflict detection; a callback is a number, [None] is NULL. *)
Record Acd := MkAcd { acd_active : bool; acd_ip : Z; acd_probes : Z; acd_next_ms : Z; acd_on_result : option Z }.

Definition UDP_MAX_TABLE : Z := 64.
Definition UDP_MAX_PAYLOAD : Z := NIC_MTU - 20 - 8.
Record UdpTableEntry := MkUdpEntry { ut_port : Z; ut_handler : option Z }.

Record nst (A : Type) := Nst { tx_ring : NicRing; netif : Netif; id_counter : Z; arp_table : list ArpEntry; acd : Acd; udp_table : list UdpTableEntry;
  echo_reply_rl : RateLimiter; arp_reply_rl : RateLimiter; clock : Z; malloc_results : list bool; live : Z; signal_results : list Z; app : A }.
Arguments Nst {A}.
Arguments tx_ring {A}.
Arguments netif {A}.
Arguments id_counter {A}.
Arguments arp_table {A}.
Arguments acd {A}.
Arguments udp_table {A}.
Arguments echo_reply_rl {A}.
Arguments arp_reply_rl {A}.
Arguments clock {A}.
Arguments malloc_results {A}.
Arguments live {A}.
Arguments signal_results {A}.
Arguments app {A}.

Section setters.
Context {A : Type}.
Implicit Type x : nst A.
Definition set_tx_ring v x := Nst v (netif x) (id_counter x) (arp_table x) (acd x) (udp_table x) (echo_reply_rl x) (arp_reply_rl x) (clock x) (malloc_results x) (live x) (signal_results x) (app x).
Definition set_netif v x := Nst (tx_ring x) v (id_counter x) (arp_table x) (acd x) (udp_table x) (echo_reply_rl x) (arp_reply_rl x) (clock x) (malloc_results x) (live x) (signal_results x) (app x).
Definition set_id_counter v x := Nst (tx_ring x) (netif x) v (arp_table x) (acd x) (udp_table x) (echo_reply_rl x) (arp_reply_rl x) (clock x) (malloc_results x) (live x) (signal_results x) (app x).
Definition set_arp_table v x := Nst (tx_ring x) (netif x) (id_counter x) v (acd x) (udp_table x) (echo_reply_rl x) (arp_reply_rl x) (clock x) (malloc_results x) (live x) (signal_results x) (app x).
Definition set_acd v x := Nst (tx_ring x) (netif x) (id_counter x) (arp_table x) v (udp_table x) (echo_reply_rl x) (arp_reply_rl x) (clock x) (malloc_results x) (live x) (signal_results x) (app x).
Definition set_udp_table v x := Nst (tx_ring x) (netif x) (id_counter x) (arp_table x) (acd x) v (echo_reply_rl x) (arp_reply_rl x) (clock x) (malloc_results x) (live x) (signal_results x) (app x).
Definition set_echo_reply_rl v x := Nst (tx_ring x) (netif x) (id_counter x) (arp_table x) (acd x) (udp_table x) v (arp_reply_rl x) (clock x) (malloc_results x) (live x) (signal_results x) (app x).
Definition set_arp_reply_rl v x := Nst (tx_ring x) (netif x) (id_counter x) (arp_table x) (acd x) (udp_table x) (echo_reply_rl x) v (clock x) (malloc_results x) (live x) (signal_results x) (app x).
Definition set_clock v x := Nst (tx_ring x) (netif x) (id_counter x) (arp_table x) (acd x) (udp_table x) (echo_reply_rl x) (arp_reply_rl x) v (malloc_results x) (live x) (signal_results x) (app x).
Definition set_malloc_results v x := Nst (tx_ring x) (netif x) (id_counter x) (arp_table x) (acd x) (udp_table x) (echo_reply_rl x) (arp_reply_rl x) (clock x) v (live x) (signal_results x) (app x).
Definition set_live v x := Nst (tx_ring x) (netif x) (id_counter x) (arp_table x) (acd x) (udp_table x) (echo_reply_rl x) (arp_reply_rl x) (clock x) (malloc_results x) v (signal_results x) (app x).
Definition set_signal_results v x := Nst (tx_ring x) (netif x) (id_counter x) (arp_table x) (acd x) (udp_table x) (echo_reply_rl x) (arp_reply_rl x) (clock x) (malloc_results x) (live x) v (app x).
Definition set_app (v : A) x := Nst (tx_ring x) (netif x) (id_counter x) (arp_table x) (acd x) (udp_table x) (echo_reply_rl x) (arp_reply_rl x) (clock x) (malloc_results x) (live x) (signal_results x) v.
End setters.
Definition NM (A : Type) := M (nst A).

(** What the code above offers: the handlers in [udp_table], the callback of the conflict detection
    and [TcpDispatch], with the ports of the segment. *)
Class Upper (A : Type) := {
  on_udp : Z → Z → Z → Z → list Z → NM A unit;
  on_acd : Z → bool → NM A unit;
  on_tcp : Z → Z → Z → Z → TcpSegment → NM A unit }.

Section lower.
Context {A : Type}.
#[local] Abbreviation NA := (NM A).

(** * Memory, allocation, the doorbell *)

Definition NetNowMs : NA Z := gets clock.
(** The first [n] bytes at a pointer. *)
Definition load (data : list Z) (n : Z) : NA (list Z) := if n <=? Z.of_nat (length data) then ret (take (Z.to_nat n) data) else panic.
Definition finish {X} (o : option X) : NA X := match o with Some x => ret x | None => diverge end.
Definition outcome {X} (r : res X) : NA X := λ s, match r with Ok x => Ok (x, s) | Panic => Panic | Diverge => Diverge end.

Definition malloc : NA bool := λ s,
  match malloc_results s with
  | [] => Ok (true, set_live (live s + 1) s)
  | true :: rs => Ok (true, set_live (live s + 1) (set_malloc_results rs s))
  | false :: rs => Ok (false, set_malloc_results rs s)
  end.
Definition free : NA unit := modify (λ s, set_live (live s - 1) s).
(** The event shared with the driver. *)
Definition Signal : NA Z := λ s,
  match signal_results s with [] => Ok (ZUZU_OK, s) | r :: rs => Ok (r, set_signal_results rs s) end.

(** * common/txframe.c *)

(** A frame being built, in the reserved slot. *)
Record TxFrame := MkTxFrame { slot : Z; front : Z; fend : Z }.

Definition TxFrameInit (headroom : Z) : NA (Z + TxFrame) :=
  let! r := gets tx_ring in
  match PacketRingReserve r with
  | None => ret (inl ERR_BUFFULL)
  | Some slot => ret (inr (MkTxFrame slot headroom headroom))
  end.
(** The offset of the region to fill. *)
Definition TxFrameAppend (f : TxFrame) (n : Z) : option (Z * TxFrame) :=
  if NIC_FRAME_SIZE <? fend f + n then None else Some (fend f, MkTxFrame (slot f) (front f) (w16 (fend f + n))).
Definition TxFramePrepend (f : TxFrame) (n : Z) : option TxFrame :=
  if front f <? n then None else Some (MkTxFrame (slot f) (front f - n) (fend f)).
Definition TxFrameLen (f : TxFrame) : Z := w16 (fend f - front f).

(** Writing bytes to a slot, reading the bytes built so far, setting the length. *)
Definition overwrite (l : list Z) (off : nat) (bs : list Z) : list Z := take off l ++ bs ++ drop (off + length bs) l.
Definition slot_frame (i : Z) : NA NicFrame := gets (λ s, slots (tx_ring s) i).
Definition put_slot (i : Z) (f : NicFrame) : NA unit := modify (λ s, set_tx_ring (put_frame (tx_ring s) i f) s).
Definition slot_write (i off : Z) (bs : list Z) : NA unit :=
  if (0 <=? off) && (off + Z.of_nat (length bs) <=? NIC_FRAME_SIZE) then
    let! f := slot_frame i in put_slot i (Frame (f_len f) (overwrite (f_data f) (Z.to_nat off) bs))
  else panic.
Definition slot_len (i len : Z) : NA unit := let! f := slot_frame i in put_slot i (Frame len (f_data f)).
Definition TxFrameData (f : TxFrame) : NA (list Z) :=
  let! s := slot_frame (slot f) in load (drop (Z.to_nat (front f)) (f_data s)) (TxFrameLen f).
Definition commit : NA unit := modify (λ s, set_tx_ring (PacketRingCommit (tx_ring s)) s).

(** * link/eth.c: sending *)

Definition EthTx (dst : list Z) (ethertype : Z) (payload : list Z) : NA Z :=
  let total_len := 14 + Z.of_nat (length payload) in
  if NIC_FRAME_SIZE <? total_len then ret ERR_OVERFLOW else
  let! r := gets tx_ring in
  match PacketRingReserve r with
  | None => ret ERR_BUFFULL
  | Some slot =>
      let! n := gets netif in
      slot_write slot 0 (EthHdr_bytes (MkEthHdr dst (mac n) (htons ethertype))) ;;
      slot_write slot 14 payload ;;
      slot_len slot total_len ;;
      commit ;;
      Signal
  end.
Definition EthSendFrame (f : TxFrame) (dst : list Z) (ethertype : Z) : NA Z :=
  match TxFramePrepend f 14 with
  | None => ret ERR_OVERFLOW
  | Some f =>
      let! n := gets netif in
      slot_write (slot f) (front f) (EthHdr_bytes (MkEthHdr dst (mac n) (htons ethertype))) ;;
      slot_len (slot f) (TxFrameLen f) ;;
      commit ;;
      Signal
  end.

(** * link/arp.c: the table *)

Definition entry (i : nat) : NA ArpEntry := gets (λ s, default arp_zero (arp_table s !! i)).
Definition set_entry (i : nat) (e : ArpEntry) : NA unit := modify (λ s, set_arp_table (<[i := e]> (arp_table s)) s).

Definition ArpFind (t : list ArpEntry) (ip : Z) : option nat := fst <$> list_find (λ e, e_state e ≠ ARP_FREE ∧ e_ip e = ip) t.
Definition ArpFreeEntry (i : nat) : NA unit :=
  let! e := entry i in
  for_each (length (queue e)) 0 (λ _, free) ;; set_entry i arp_zero.
(** The REACHABLE entry closest to expiry. *)
Fixpoint arp_victim (t : list ArpEntry) (i : nat) (victim : option (nat * ArpEntry)) : option (nat * ArpEntry) :=
  match t with
  | [] => victim
  | e :: t' =>
      let better := match victim with None => true | Some (_, v) => s32 (expire_ms e - expire_ms v) <? 0 end in
      arp_victim t' (S i) (if bool_decide (e_state e = ARP_REACHABLE) && better then Some (i, e) else victim)
  end.
Definition ArpFindOrCreate (ip : Z) : NA (option nat) :=
  let! t := gets arp_table in
  match ArpFind t ip with
  | Some i => ret (Some i)
  | None =>
      match list_find (λ e, e_state e = ARP_FREE) t with
      | Some (i, _) => set_entry i (MkArpEntry ip (e_mac arp_zero) ARP_INCOMPLETE 0 0 0 []) ;; ret (Some i)
      | None =>
          match arp_victim t 0 None with
          | None => ret None
          | Some (i, _) => ArpFreeEntry i ;; set_entry i (MkArpEntry ip (e_mac arp_zero) ARP_INCOMPLETE 0 0 0 []) ;; ret (Some i)
          end
      end
  end.

Definition flush_queue (dst : list Z) (q : list ArpPending) : NA unit :=
  foldr (λ p k, EthTx dst (pd_ethertype p) (pd_data p) ;; free ;; k) (ret tt) q.
Definition ArpLearn (ip : Z) (mac_addr : list Z) : NA unit :=
  let! o := ArpFindOrCreate ip in
  match o with
  | None => ret tt
  | Some i =>
      let! e := entry i in
      let! now := NetNowMs in
      let e' := MkArpEntry (e_ip e) mac_addr ARP_REACHABLE (probes e) (last_tx_ms e) (w32 (now + ARP_REACHABLE_MS)) (queue e) in
      set_entry i e' ;;
      when (negb (bool_decide (e_state e = ARP_REACHABLE)) && negb (bool_decide (queue e = [])))
        (flush_queue mac_addr (queue e) ;;
         set_entry i (MkArpEntry (e_ip e) mac_addr ARP_REACHABLE (probes e) (last_tx_ms e) (w32 (now + ARP_REACHABLE_MS)) []))
  end.

(** [ArpRequest] and [ArpAcdProbe]. *)
Definition ArpRequest (target : Z) : NA Z :=
  let! n := gets netif in
  EthTx BROADCAST_MAC ETH_TYPE_ARP
    (ArpPacket_bytes (MkArpPacket (htons 1) (htons ETH_TYPE_IP) 6 4 (htons 1) (mac n) (le32 (ip n)) (replicate 6 0) (le32 target))) ;;
  ret ZUZU_OK.
Definition ArpAcdProbe (target : Z) : NA unit :=
  let! n := gets netif in
  EthTx BROADCAST_MAC ETH_TYPE_ARP
    (ArpPacket_bytes (MkArpPacket (htons 1) (htons ETH_TYPE_IP) 6 4 (htons ARP_OPER_REQST) (mac n) (replicate 4 0) (replicate 6 0) (le32 target))) ;;
  ret tt.

Definition with_queue (q : list ArpPending) (e : ArpEntry) : ArpEntry := MkArpEntry (e_ip e) (e_mac e) (e_state e) (probes e) (last_tx_ms e) (expire_ms e) q.
Definition with_probes (p t : Z) (e : ArpEntry) : ArpEntry := MkArpEntry (e_ip e) (e_mac e) (e_state e) p t (expire_ms e) (queue e).

Definition ArpSendFrame (target ethertype : Z) (f : TxFrame) : NA unit :=
  if target =? BROADCAST_IP then EthSendFrame f BROADCAST_MAC ethertype ;; ret tt else
  let! o := ArpFindOrCreate target in
  match o with
  | None => ret tt
  | Some i =>
      let! e := entry i in
      if bool_decide (e_state e = ARP_REACHABLE) then EthSendFrame f (e_mac e) ethertype ;; ret tt else
      when (Z.of_nat (length (queue e)) <? ARP_MAX_QUEUE)
        (let! ok := malloc in
         when ok (let! data := TxFrameData f in set_entry i (with_queue (queue e ++ [MkPending data ethertype]) e))) ;;
      let! e := entry i in
      when (probes e =? 0)
        (ArpRequest target ;; let! now := NetNowMs in set_entry i (with_probes 1 now e))
  end.

Definition ArpAcdStart (target : Z) (on_result : option Z) : NA unit :=
  let! now := NetNowMs in modify (set_acd (MkAcd true target 0 now on_result)).

(** * net/ip.c: sending *)

Definition IpSend (f : TxFrame) (src dst proto : Z) : NA Z :=
  if negb (dst =? BROADCAST_IP) && (src =? 0) then ret ERR_SYSDOWN else
  let payload_len := TxFrameLen f in
  if NIC_MTU <? 20 + payload_len then ret ERR_OVERFLOW else
  match TxFramePrepend f 20 with
  | None => ret ERR_OVERFLOW
  | Some f =>
      let! id := gets id_counter in
      modify (set_id_counter (s32 (id + 1))) ;;
      let hdr sum := MkIpHeader 0x45 0 (htons (w16 (20 + payload_len))) (htons (w16 id)) (htons IP_FLAG_DF) 64 proto sum src dst in
      slot_write (slot f) (front f) (IpHeader_bytes (hdr 0)) ;;
      let! sf := slot_frame (slot f) in
      let! bytes := load (drop (Z.to_nat (front f)) (f_data sf)) 20 in
      let! sum := finish (InetChecksum bytes) in
      slot_write (slot f) (front f) (IpHeader_bytes (hdr (htons sum))) ;;
      let! n := gets netif in
      let next_hop := if negb (dst =? BROADCAST_IP) && truthy (Z.land (Z.lxor dst (ip n)) (netmask n)) then gateway n else dst in
      ArpSendFrame next_hop ETH_TYPE_IP f ;;
      ret ZUZU_OK
  end.

Definition IpTx (payload : list Z) (src dst proto : Z) : NA Z :=
  let payload_len := Z.of_nat (length payload) in
  if NIC_MTU <? 20 + payload_len then ret ERR_OVERFLOW else
  let! r := TxFrameInit (14 + 20) in
  match r with
  | inl rc => ret rc
  | inr f =>
      match TxFrameAppend f payload_len with
      | None => ret ERR_OVERFLOW
      | Some (off, f) => slot_write (slot f) off payload ;; IpSend f src dst proto
      end
  end.

(** * transport/udp.c: sending and the table *)

Definition UdpSend (dst src_port dst_port : Z) (payload : list Z) : NA Z :=
  let payload_len := Z.of_nat (length payload) in
  if UDP_MAX_PAYLOAD <? payload_len then ret ERR_OVERFLOW else
  let! r := TxFrameInit (14 + 20 + 8) in
  match r with
  | inl rc => ret rc
  | inr f =>
      let! o := (if truthy payload_len then
                   match TxFrameAppend f payload_len with
                   | None => ret None
                   | Some (off, f) => slot_write (slot f) off payload ;; ret (Some f)
                   end
                 else ret (Some f)) in
      match o ≫= λ f, TxFramePrepend f 8 with
      | None => ret ERR_OVERFLOW
      | Some f =>
          let hdr sum := MkUdpHeader (htons src_port) (htons dst_port) (htons (w16 (8 + payload_len))) sum in
          slot_write (slot f) (front f) (UdpHeader_bytes (hdr 0)) ;;
          let! n := gets netif in
          let! bytes := TxFrameData f in
          let! sum := finish (UdpChecksum (ip n) dst bytes) in
          let cs := htons sum in
          slot_write (slot f) (front f) (UdpHeader_bytes (hdr (if truthy cs then cs else 0xFFFF))) ;;
          IpSend f (ip n) dst IP_PROTO_UDP
      end
  end.

Definition bound_to (port : Z) (e : UdpTableEntry) : Prop := ut_port e = port ∧ ut_handler e ≠ None.
#[global] Instance bound_to_dec port e : Decision (bound_to port e).
Proof. unfold bound_to. apply _. Defined.
Definition ArpInit : NA unit :=
  modify (set_arp_table (replicate (Z.to_nat ARP_MAX_ENTRIES) arp_zero)) ;;
  modify (set_acd (MkAcd false 0 0 0 None)).
Definition UdpInit : NA unit := modify (set_udp_table (replicate (Z.to_nat UDP_MAX_TABLE) (MkUdpEntry 0 None))).
Definition UdpBind (port : Z) (handler : option Z) : NA Z :=
  if (port =? 0) || bool_decide (handler = None) then ret ERR_NOPERM else
  let! t := gets udp_table in
  match list_find (bound_to port) t with
  | Some _ => ret ERR_DUPLICATE
  | None =>
      match list_find (λ e, ut_handler e = None) t with
      | None => ret ERR_NOMEM
      | Some (i, _) => modify (set_udp_table (<[i := MkUdpEntry port handler]> t)) ;; ret ZUZU_OK
      end
  end.
Definition UdpUnbind (port : Z) : NA unit :=
  modify (λ s, set_udp_table ((λ e, if bool_decide (bound_to port e) then MkUdpEntry 0 None else e) <$> udp_table s) s).

(** * transport/tcp_out.c: segments on the wire *)

(** The frame [TcpOutput] builds and sends: [g] holds the sequence and acknowledgement numbers, the
    flags, the window and the bytes copied out of the send buffer. *)
Definition TcpFrame (local_ip local_port remote_ip remote_port : Z) (g : TcpSegment) : NA Z :=
  let opts := if has (seg_flags g) TCP_SYN then TcpBuildOptions TCP_MAX_OPTS TCP_OPT_MSS_BIT TCP_MSS else [] in
  let optlen := Z.of_nat (length opts) in
  let data_len := payload_len g in
  let! r := TxFrameInit (14 + 20) in
  match r with
  | inl rc => ret rc
  | inr f =>
      match TxFrameAppend f (20 + optlen) with
      | None => ret ERR_OVERFLOW
      | Some (th, f) =>
          match TxFrameAppend f data_len with
          | None => ret ERR_OVERFLOW
          | Some (pl, f) =>
              let hdr := MkTcpHdr (htons local_port) (htons remote_port) (htonl (seg_seq g)) (htonl (seg_ack g))
                           (w8 (Z.shiftl ((20 + optlen) / 4) 4)) (seg_flags g) (htons (seg_window g)) 0 0 in
              slot_write (slot f) th (TcpHdr_bytes hdr) ;;
              slot_write (slot f) (th + 20) opts ;;
              slot_write (slot f) pl (payload g) ;;
              let! sf := slot_frame (slot f) in
              let! bytes := load (drop (Z.to_nat th) (f_data sf)) (w16 (20 + optlen + data_len)) in
              let! sum := finish (TcpChecksum local_ip remote_ip bytes) in
              slot_write (slot f) th (TcpHdr_bytes (set_th_checksum (htons sum) hdr)) ;;
              IpSend f local_ip remote_ip IP_PROTO_TCP
          end
      end
  end.

(** [TcpSendRst]: the answer to the segment [g] from [src] and [src_port]. *)
Definition TcpSendRst (src dst src_port dst_port : Z) (g : TcpSegment) : NA unit :=
  let hdr :=
    if has (seg_flags g) TCP_ACK
    then MkTcpHdr (htons dst_port) (htons src_port) (htonl (seg_ack g)) 0 (Z.shiftl 5 4) TCP_RST 0 0 0
    else let seg_len := w32 (payload_len g + b2z (has (seg_flags g) TCP_SYN) + b2z (has (seg_flags g) TCP_FIN)) in
         MkTcpHdr (htons dst_port) (htons src_port) 0 (htonl (w32 (seg_seq g + seg_len))) (Z.shiftl 5 4) (Z.lor TCP_RST TCP_ACK) 0 0 0 in
  let! sum := finish (TcpChecksum dst src (TcpHdr_bytes hdr)) in
  IpTx (TcpHdr_bytes (set_th_checksum (htons sum) hdr)) dst src IP_PROTO_TCP ;;
  ret tt.
End lower.

Section upper.
Context {A : Type} `{Upper A}.
#[local] Abbreviation NA := (NM A).

(** * link/arp.c: conflict detection, the tick, receiving *)

Definition ArpAcdFinish (conflict : bool) : NA unit :=
  let! a := gets acd in
  when (acd_active a)
    (modify (set_acd (MkAcd false (acd_ip a) (acd_probes a) (acd_next_ms a) (acd_on_result a))) ;;
     match acd_on_result a with Some cb => on_acd cb conflict | None => ret tt end).

Definition ArpTickEntry (now : Z) (i : nat) : NA unit :=
  let! e := entry i in
  match e_state e with
  | ARP_INCOMPLETE =>
      when (ARP_PROBE_MS <=? s32 (now - last_tx_ms e))
        (if probes e <? ARP_MAX_PROBES then ArpRequest (e_ip e) ;; set_entry i (with_probes (w8 (probes e + 1)) now e) else ArpFreeEntry i)
  | ARP_REACHABLE => when (0 <=? s32 (now - expire_ms e)) (ArpFreeEntry i)
  | ARP_FREE => ret tt
  end.
Definition ArpTick : NA unit :=
  let! now := NetNowMs in
  let! a := gets acd in
  when (acd_active a && (0 <=? s32 (now - acd_next_ms a)))
    (if acd_probes a <? ACD_PROBE_NUM then
       ArpAcdProbe (acd_ip a) ;;
       modify (set_acd (MkAcd true (acd_ip a) (w8 (acd_probes a + 1)) (w32 (now + ACD_PROBE_MS)) (acd_on_result a)))
     else ArpAcdFinish false) ;;
  for_each (Z.to_nat ARP_MAX_ENTRIES) 0 (λ i, ArpTickEntry now (Z.to_nat i)).

Definition ArpRx (data : list Z) (len : Z) : NA Z :=
  let! n := gets netif in
  if len <? 28 then ret ERR_MALFORMED else
  let! bytes := load data 28 in
  let pkt := ArpPacket_of bytes in
  if negb (htons (htype pkt) =? 1) || negb (htons (ptype pkt) =? ETH_TYPE_IP) || negb (hlen pkt =? 6) || negb (plen pkt =? 4) then ret ERR_MALFORMED else
  let spa_ := of_le (spa pkt) in
  let! a := gets acd in
  when (acd_active a && negb (bool_decide (sha pkt = mac n)))
    (when ((spa_ =? acd_ip a) || ((spa_ =? 0) && (of_le (tpa pkt) =? acd_ip a))) (ArpAcdFinish true)) ;;
  ArpLearn spa_ (sha pkt) ;;
  when (htons (oper pkt) =? ARP_OPER_REQST)
    (when (bool_decide (tpa pkt = le32 (ip n)))
       (let! now := NetNowMs in
        let! rl := gets arp_reply_rl in
        let '(ok, rl) := RateAllow now rl 16 16 in
        modify (set_arp_reply_rl rl) ;;
        when ok
          (let! n' := gets netif in
           EthTx (sha pkt) ETH_TYPE_ARP
             (ArpPacket_bytes (MkArpPacket (htons 1) (htons ETH_TYPE_IP) 6 4 (htons 2) (mac n') (le32 (ip n)) (sha pkt) (spa pkt))) ;; ret tt))) ;;
  ret ZUZU_OK.

(** * net/icmp.c *)

Definition IcmpRx (payload : list Z) (payload_len src : Z) : NA unit :=
  if payload_len <? 8 then ret tt else
  let! hb := load payload 8 in
  let hdr := IcmpHdr_of hb in
  if negb (type_ hdr =? ICMP_ECHO_REQUEST) then ret tt else
  let! bytes := load payload payload_len in
  let! sum := finish (InetChecksum bytes) in
  if truthy sum then ret tt else
  let! now := NetNowMs in
  let! rl := gets echo_reply_rl in
  let '(ok, rl) := RateAllow now rl 16 32 in
  modify (set_echo_reply_rl rl) ;;
  if negb ok then ret tt else
  let! p := malloc in
  if negb p then ret tt else
  let reply sum := IcmpHdr_bytes (MkIcmpHdr ICMP_ECHO_REPLY (code hdr) sum (identifier hdr) (sequence hdr)) ++ drop 8 bytes in
  let! sum := finish (InetChecksum (reply 0)) in
  let! n := gets netif in
  IpTx (reply (htons sum)) (ip n) src IP_PROTO_ICMP ;;
  free.

(** * transport/udp.c, transport/tcp_in.c: receiving *)

Definition UdpRecv (data : list Z) (len src dst : Z) : NA unit :=
  if len <? 8 then ret tt else
  let! hb := load data 8 in
  let hdr := UdpHeader_of hb in
  let ulen := htons (u_length hdr) in
  if (ulen <? 8) || (len <? ulen) then ret tt else
  let! bytes := load data ulen in
  let! sum := (if truthy (u_checksum hdr) then finish (UdpChecksum src dst bytes) else ret 0) in
  if truthy sum then ret tt else
  let dport := htons (u_dst_port hdr) in
  let! t := gets udp_table in
  match list_find (bound_to dport) t with
  | Some (_, MkUdpEntry _ (Some h)) => on_udp h src (htons (u_src_port hdr)) dport (drop 8 bytes)
  | _ => ret tt
  end.

Definition TcpRx (src dst : Z) (data : list Z) (len : Z) : NA unit :=
  if len <? 20 then ret tt else
  let! bytes := load data len in
  let! sum := finish (TcpChecksum src dst bytes) in
  if truthy sum then ret tt else
  let th := TcpHdr_of bytes in
  let hdr_len := Z.shiftr (th_data_offset th) 4 * 4 in
  if (hdr_len <? 20) || (len <? hdr_len) then ret tt else
  let! opts := load (drop 20 bytes) (hdr_len - 20) in
  let! (_, mss) := outcome (TcpParseOptions opts (hdr_len - 20)) in
  on_tcp src dst (htons (th_src_port th)) (htons (th_dst_port th))
    (Segment (htonl (th_seq th)) (htonl (th_ack th)) (th_flags th) (drop (Z.to_nat hdr_len) bytes) (htons (th_window th)) mss).

(** * net/ip.c, link/eth.c: receiving *)

Definition IpRx (data : list Z) (len : Z) (from : list Z) : NA unit :=
  if len <? 20 then ret tt else
  let! hb := load data 20 in
  let hdr := IpHeader_of hb in
  if negb (Z.land (version_ihl hdr) 0xF0 =? 0x40) then ret tt else
  let hdr_len := w8 (Z.land (version_ihl hdr) 0x0F * 4) in
  let total := htons (total_length hdr) in
  if (len <? hdr_len) || (total <? hdr_len) || (len <? total) then ret tt else
  let! bytes := load data hdr_len in
  let! cs := finish (InetChecksum bytes) in
  let! n := gets netif in
  if truthy cs || (negb (dst_ip hdr =? ip n) && negb (dst_ip hdr =? BROADCAST_IP)) then ret tt else
  ArpLearn (src_ip hdr) from ;;
  let frag := htons (flags_fragment_offset hdr) in
  if truthy (Z.land frag IP_FLAG_MF) || truthy (Z.land frag 0x1FFF) then ret tt else
  let payload := drop (Z.to_nat hdr_len) data in
  let payload_len := total - hdr_len in
  if protocol hdr =? IP_PROTO_ICMP then IcmpRx payload payload_len (src_ip hdr)
  else if protocol hdr =? IP_PROTO_UDP then UdpRecv payload payload_len (src_ip hdr) (dst_ip hdr)
  else if protocol hdr =? IP_PROTO_TCP then TcpRx (src_ip hdr) (dst_ip hdr) payload payload_len
  else ret tt.

Definition EthRx (data : list Z) (len : Z) : NA Z :=
  if len <? 14 then ret ERR_MALFORMED else
  let! hb := load data 14 in
  let hdr := EthHdr_of hb in
  let et := htons (ethertype hdr) in
  if et =? ETH_TYPE_ARP then ArpRx (drop 14 data) (len - 14) ;; ret ZUZU_OK
  else if et =? ETH_TYPE_IP then
    if len <? 14 + 20 then ret ERR_MALFORMED else IpRx (drop 14 data) (len - 14) (src_mac hdr) ;; ret ZUZU_OK
  else ret ERR_MALFORMED.

(** What the loop of [main] does with a frame of the receive ring. *)
Definition rx_frame (f : NicFrame) : NA Z := EthRx (f_data f) (w16 (f_len f)).
End upper.
