(* ===== verification/NetdInv.v ===== *)
(** The lower half of the network service keeps its invariant: slots of the transmit ring keep their
    size and are only written inside, the ARP table has one entry per address and bounded queues, the
    UDP table one handler per port, and every allocated block is a queued packet.  Receiving is proved
    against [UpperOk], what the code above promises. *)
From S2P Require Import Prelude Str Ring Tcp Wire Netd.

#[local] Open Scope Z_scope.

(** * The invariant *)

Definition ring_ok (r : NicRing) : Prop := 0 ≤ p_head r < 16 ∧ ∀ i, length (f_data (slots r i)) = 1536%nat.

Record entry_ok (e : ArpEntry) : Prop := {
  eo_mac : length (e_mac e) = 6%nat;
  eo_len : (length (queue e) ≤ 3)%nat;
  eo_pending : e_state e ≠ ARP_INCOMPLETE → queue e = [];
  eo_size : Forall (λ p, Z.of_nat (length (pd_data p)) ≤ NIC_MTU) (queue e) }.
Definition one_per_ip (t : list ArpEntry) : Prop :=
  ∀ i j a b, t !! i = Some a → t !! j = Some b → e_state a ≠ ARP_FREE → e_state b ≠ ARP_FREE → e_ip a = e_ip b → i = j.
Definition queued (t : list ArpEntry) : Z := foldr (λ e n, Z.of_nat (length (queue e)) + n) 0 t.
Record arp_ok (t : list ArpEntry) : Prop := {
  ao_len : length t = 64%nat;
  ao_entries : Forall entry_ok t;
  ao_unique : one_per_ip t }.
Record udp_ok (t : list UdpTableEntry) : Prop := {
  uo_len : length t = 64%nat;
  uo_unique : ∀ p i j a b, t !! i = Some a → t !! j = Some b → bound_to p a → bound_to p b → i = j }.
Definition rl_ok (burst : Z) (rl : RateLimiter) : Prop := 0 ≤ tokens rl ≤ burst.

(** [k] blocks are allocated besides the queued packets. *)
Record wf {A} (k : Z) (s : nst A) : Prop := {
  wf_ring : ring_ok (tx_ring s);
  wf_mac : length (mac (netif s)) = 6%nat;
  wf_arp : arp_ok (arp_table s);
  wf_live : live s = queued (arp_table s) + k;
  wf_udp : udp_ok (udp_table s);
  wf_echo : rl_ok 32 (echo_reply_rl s);
  wf_reply : rl_ok 16 (arp_reply_rl s) }.

(** Sending leaves to the code above what is its. *)
Definition below {A} (s s' : nst A) : Prop :=
  netif s' = netif s ∧ acd s' = acd s ∧ udp_table s' = udp_table s ∧ app s' = app s ∧ clock s' = clock s.
Definition safe {A X} (m : NM A X) : Prop := ∀ k s, wf k s → wp m (λ _ s', wf k s' ∧ below s s') s.

Lemma below_refl {A} (s : nst A) : below s s.
Proof. done. Qed.
Lemma below_trans {A} (s1 s2 s3 : nst A) : below s1 s2 → below s2 s3 → below s1 s3.
Proof. unfold below. intuition congruence. Qed.

Section safe.
Context {A : Type}.
Implicit Type s : nst A.

(** * Rules *)

Lemma safe_ret {X} (x : X) : safe (ret x : NM A X).
Proof. intros k s Hs. apply wp_ret. split; [done|apply below_refl]. Qed.
Lemma safe_bind {X Y} (m : NM A X) (f : X → NM A Y) : safe m → (∀ x, safe (f x)) → safe (bind m f).
Proof.
  intros Hm Hf k s Hs. apply wp_bind. eapply wp_mono; [by apply Hm|]. cbv beta. intros x s1 [H1 B1].
  eapply wp_mono; [by apply Hf|]. cbv beta. intros y s2 [H2 B2]. split; [done|by eapply below_trans].
Qed.
Lemma safe_gets {X} (f : nst A → X) : safe (gets f).
Proof. intros k s Hs. apply wp_gets. split; [done|apply below_refl]. Qed.
Lemma safe_when b (m : NM A unit) : safe m → safe (when b m).
Proof. intros Hm. destruct b; [done|apply safe_ret]. Qed.
Lemma safe_if {X} (b : bool) (m1 m2 : NM A X) : safe m1 → safe m2 → safe (if b then m1 else m2).
Proof. by destruct b. Qed.

Lemma Signal_safe : safe (Signal : NM A Z).
Proof. intros k s Hs. unfold wp, Signal. destruct (signal_results s); [by split|]. split; [by destruct Hs|done]. Qed.
Lemma malloc_wp k s (Q : bool → nst A → Prop) :
  wf k s → (∀ b s', wf (k + b2z b) s' → below s s' → arp_table s' = arp_table s → tx_ring s' = tx_ring s → Q b s') → wp malloc Q s.
Proof.
  intros Hs HQ. unfold wp, malloc. destruct Hs. destruct (malloc_results s) as [|[] rs]; apply HQ; try done; split; try done; simpl; lia.
Qed.
Lemma free_wp k s (Q : unit → nst A → Prop) : wf k s → (∀ s', s' = set_live (live s - 1) s → wf (k - 1) s' → Q tt s') → wp free Q s.
Proof. intros Hs HQ. apply wp_modify. apply HQ; [done|]. destruct Hs. split; try done. simpl. lia. Qed.

(** * The transmit ring *)

(** Only the ring and the doorbell change. *)
Definition tx_only s s' : Prop := ∃ r sg, s' = set_tx_ring r (set_signal_results sg s) ∧ (ring_ok (tx_ring s) → ring_ok r).
Lemma tx_refl s : tx_only s s.
Proof. exists (tx_ring s), (signal_results s). by destruct s. Qed.
Lemma tx_trans s1 s2 s3 : tx_only s1 s2 → tx_only s2 s3 → tx_only s1 s3.
Proof. intros (r & sg & -> & H1) (r' & sg' & -> & H2). exists r', sg'. split; [done|]. intros. apply H2. by apply H1. Qed.
Lemma tx_wf k s s' : tx_only s s' → wf k s → wf k s'.
Proof. intros (r & sg & -> & Hr) []. split; try done. simpl. by apply Hr. Qed.
Lemma tx_below s s' : tx_only s s' → below s s'.
Proof. by intros (r & sg & -> & _). Qed.
Lemma tx_arp s s' : tx_only s s' → arp_table s' = arp_table s.
Proof. by intros (r & sg & -> & _). Qed.
Lemma tx_live s s' : tx_only s s' → live s' = live s.
Proof. by intros (r & sg & -> & _). Qed.

Lemma length_overwrite l off bs : (off + length bs ≤ length l)%nat → length (overwrite l off bs) = length l.
Proof. intros Hl. unfold overwrite. rewrite !length_app, length_take, length_drop. lia. Qed.
Lemma ring_put r i f : ring_ok r → length (f_data f) = 1536%nat → ring_ok (put_frame r i f).
Proof. intros [Hh Hr] Hf. split; [done|]. intros j. simpl. by destruct (j =? i). Qed.
Lemma ring_commit r : ring_ok r → ring_ok (PacketRingCommit r).
Proof. intros [Hh Hr]. split; [|done]. simpl. unfold next_slot, NIC_RING_DEPTH. apply Z.mod_pos_bound. lia. Qed.

(** A slot is written in place: the head does not move. *)
Definition same_head s s' : Prop := p_head (tx_ring s') = p_head (tx_ring s).
Lemma slot_write_wp i off bs s :
  ring_ok (tx_ring s) → 0 ≤ off → off + Z.of_nat (length bs) ≤ 1536 → wp (slot_write i off bs) (λ _ s', tx_only s s' ∧ same_head s s') s.
Proof.
  intros Hr Ho Hl. unfold slot_write. rewrite (proj2 (Z.leb_le 0 off)), (proj2 (Z.leb_le (off + _) _)) by done. simpl. unfold slot_frame, put_slot. wp_steps.
  split; [|done]. eexists _, (signal_results s). split; [by destruct s|]. intros _. apply ring_put; [done|]. simpl. destruct Hr as [_ Hr]. by rewrite length_overwrite; rewrite Hr; [|lia].
Qed.
Lemma slot_len_wp i len s : ring_ok (tx_ring s) → wp (slot_len i len) (λ _ s', tx_only s s' ∧ same_head s s') s.
Proof. intros Hr. unfold slot_len, slot_frame, put_slot. wp_steps. split; [|done]. eexists _, (signal_results s). split; [by destruct s|]. intros _. apply ring_put; [done|]. apply Hr. Qed.
Lemma commit_wp s : wp (commit : NM A unit) (λ _ s', tx_only s s') s.
Proof. unfold commit. wp_steps. eexists _, (signal_results s). split; [by destruct s|]. apply ring_commit. Qed.
Lemma Signal_wp s : wp (Signal : NM A Z) (λ _ s', tx_only s s') s.
Proof. unfold wp, Signal. destruct (signal_results s) as [|r rs] eqn:E; [apply tx_refl|]. exists (tx_ring s), rs. by destruct s. Qed.

Lemma tx_ring_ok s s' : tx_only s s' → ring_ok (tx_ring s) → ring_ok (tx_ring s').
Proof. intros (r & sg & -> & Hr). done. Qed.
Lemma tx_netif s s' : tx_only s s' → netif s' = netif s.
Proof. by intros (r & sg & -> & _). Qed.
(** One more step of a sequence that only touches the ring. *)
Ltac tx_step rule :=
  wp_steps; eapply wp_mono; [apply rule; first [lia | by eauto using tx_ring_ok]|]; cbv beta;
  let s' := fresh "s" in let T := fresh "T" in
  intros ? s' T; lazymatch type of T with _ ∧ _ => destruct T as [T _] | _ => idtac end.
Ltac tx_end := cbv beta; intros; repeat first [eassumption | eapply tx_trans; [eassumption|]].
Lemma EthHdr_length d m t : length d = 6%nat → length m = 6%nat → length (EthHdr_bytes (MkEthHdr d m t)) = 14%nat.
Proof. intros Hd Hm. unfold EthHdr_bytes. simpl. rewrite !length_app. simpl. lia. Qed.

Lemma EthTx_wp s dst ethertype payload :
  ring_ok (tx_ring s) → length (mac (netif s)) = 6%nat → length dst = 6%nat → wp (EthTx dst ethertype payload) (λ _ s', tx_only s s') s.
Proof.
  intros Hr Hm Hd. unfold EthTx. apply wp_if; intros E; [apply wp_ret, tx_refl|]. b2p. unfold NIC_FRAME_SIZE in E. wp_steps.
  destruct (PacketRingReserve _) as [i|]; [|apply wp_ret, tx_refl]. wp_steps.
  pose proof (EthHdr_length dst (mac (netif s)) (htons ethertype) Hd Hm) as Hh.
  tx_step slot_write_wp. tx_step slot_write_wp. tx_step slot_len_wp. tx_step commit_wp.
  eapply wp_mono; [apply Signal_wp|]. tx_end.
Qed.
Lemma EthSendFrame_wp k s f dst ethertype :
  wf k s → length dst = 6%nat → front f ≤ 1536 → wp (EthSendFrame f dst ethertype) (λ _ s', tx_only s s') s.
Proof.
  intros Hs Hd Hf. unfold EthSendFrame, TxFramePrepend. case_if E; [apply wp_ret, tx_refl|]. wp_steps. pose proof (wf_ring _ _ Hs) as Hr.
  pose proof (EthHdr_length dst (mac (netif s)) (htons ethertype) Hd (wf_mac _ _ Hs)) as Hh. cbn [slot front fend].
  tx_step slot_write_wp. tx_step slot_len_wp. tx_step commit_wp. eapply wp_mono; [apply Signal_wp|]. tx_end.
Qed.

(** * The ARP table *)

Lemma queued_insert t i e e' : t !! i = Some e → queued (<[i := e']> t) = queued t - Z.of_nat (length (queue e)) + Z.of_nat (length (queue e')).
Proof.
  revert i. induction t as [|x t IH]; intros [|i]; [done|done| |]; cbn.
  - intros [= ->]. lia.
  - intros Hi. etrans; [exact (f_equal (Z.add (Z.of_nat (length (queue x)))) (IH i Hi))|]. unfold queued. lia.
Qed.
Lemma arp_zero_ok : entry_ok arp_zero.
Proof. split; [done|simpl; lia|done|constructor]. Qed.
Lemma one_per_ip_insert t i e : one_per_ip t → (e_state e ≠ ARP_FREE → ∀ j a, t !! j = Some a → e_state a ≠ ARP_FREE → e_ip a = e_ip e → j = i) → one_per_ip (<[i := e]> t).
Proof.
  intros Hu Hn j1 j2 a b Ha Hb Fa Fb E. rewrite list_lookup_insert_Some in Ha, Hb.
  destruct Ha as [(<- & <- & _)|[N1 Ha]], Hb as [(<- & <- & _)|[N2 Hb]]; [done| | |].
  - symmetry. by apply (Hn Fa _ _ Hb Fb).
  - by apply (Hn Fb _ _ Ha Fa).
  - by eapply Hu.
Qed.
Lemma arp_insert t i e : arp_ok t → entry_ok e → (e_state e ≠ ARP_FREE → ∀ j a, t !! j = Some a → e_state a ≠ ARP_FREE → e_ip a = e_ip e → j = i) → arp_ok (<[i := e]> t).
Proof. intros [Hl He Hu] Ho Hn. split; [by rewrite length_insert|by apply Forall_insert|by apply one_per_ip_insert]. Qed.

(** Replacing entry [i] by [e']: the queue's packets change hands. *)
Definition arp_set s i e' := set_arp_table (<[i := e']> (arp_table s)) s.
Lemma set_entry_wf k s i e e' :
  wf k s → arp_table s !! i = Some e → entry_ok e' →
  (e_state e' ≠ ARP_FREE → e_state e ≠ ARP_FREE ∧ e_ip e' = e_ip e ∨ (∀ j a, arp_table s !! j = Some a → e_state a ≠ ARP_FREE → e_ip a ≠ e_ip e')) →
  wf (k + Z.of_nat (length (queue e)) - Z.of_nat (length (queue e'))) (arp_set s i e').
Proof.
  intros [Hr Hm Ha Hl Hu H1 H2] Hi He Hn. split; try done; simpl.
  - apply arp_insert; [done|done|]. intros Hf j a Hj Fa E. destruct (Hn Hf) as [[Fe Ee]|Hn'].
    + eapply (ao_unique _ Ha); [done|done|done|done|congruence].
    + exfalso. by apply (Hn' j a).
  - rewrite (queued_insert _ _ e) by done. lia.
Qed.
Lemma entry_lookup k s i : wf k s → (i < 64)%nat → ∃ e, arp_table s !! i = Some e ∧ entry_ok e.
Proof.
  intros Hs Hi. destruct (lookup_lt_is_Some_2 (arp_table s) i) as [e He]; [by rewrite (ao_len _ (wf_arp _ _ Hs))|]. exists e. split; [done|].
  exact (Forall_lookup_1 _ _ _ _ (ao_entries _ (wf_arp _ _ Hs)) He).
Qed.

Lemma frees_run n : ∀ i s, for_each n i (λ _, free) s = Ok (tt, set_live (live s - Z.of_nat n) s).
Proof.
  induction n as [|n IH]; intros i s; cbn [for_each]; [unfold ret; do 2 f_equal; destruct s; unfold set_live; simpl; f_equal; lia|].
  unfold bind at 1. unfold free, modify. cbv beta iota. rewrite IH. do 2 f_equal. unfold set_live. simpl. f_equal. lia.
Qed.
Lemma ArpFreeEntry_run s i e : arp_table s !! i = Some e → ArpFreeEntry i s = Ok (tt, arp_set (set_live (live s - Z.of_nat (length (queue e))) s) i arp_zero).
Proof. intros Hi. unfold ArpFreeEntry, entry. rewrite run_gets, Hi. cbn [default from_option id]. unfold bind. by rewrite frees_run. Qed.
Lemma ArpFreeEntry_wf k s i e : wf k s → arp_table s !! i = Some e → wf k (arp_set (set_live (live s - Z.of_nat (length (queue e))) s) i arp_zero).
Proof.
  intros Hs Hi. assert (Hs' : wf (k - Z.of_nat (length (queue e))) (set_live (live s - Z.of_nat (length (queue e))) s)) by (destruct Hs; split; try done; simpl; lia).
  pose proof (set_entry_wf _ _ i e arp_zero Hs' Hi arp_zero_ok) as H. cbn [queue length arp_zero] in H.
  replace k with (k - Z.of_nat (length (queue e)) + Z.of_nat (length (queue e)) - Z.of_nat 0) by lia. apply H. done.
Qed.

Lemma arp_victim_spec t : ∀ i v j e, arp_victim t i v = Some (j, e) → v = Some (j, e) ∨ (∃ n, j = (i + n)%nat ∧ t !! n = Some e ∧ e_state e = ARP_REACHABLE).
Proof.
  induction t as [|x t IH]; intros i v j e; cbn [arp_victim]; [by left|]. intros [Hv|(n & -> & Hn & Hr)]%IH.
  - destruct (bool_decide_reflect (e_state x = ARP_REACHABLE)) as [Hx|]; cbn [andb] in Hv; [|by left].
    destruct (match v with Some _ => _ | None => _ end); [|by left]. injection Hv as <- <-. right. exists 0%nat. split_and!; [lia|done|done].
  - right. exists (S n). split_and!; [lia|done|done].
Qed.

(** Entry [i] is the one of [ip]. *)
Definition found s ip i : Prop := (i < 64)%nat ∧ ∃ e, arp_table s !! i = Some e ∧ e_ip e = ip ∧ e_state e ≠ ARP_FREE.
Definition still s s' : Prop := below s s' ∧ tx_ring s' = tx_ring s.
Lemma not_found t ip : ArpFind t ip = None → ∀ j a, t !! j = Some a → e_state a ≠ ARP_FREE → e_ip a ≠ ip.
Proof.
  unfold ArpFind. intros H%fmap_None j a Hj Hf E. pose proof (proj1 (list_find_None _ _) H) as Hn.
  exact (Forall_lookup_1 _ _ _ _ Hn Hj (conj Hf E)).
Qed.
Definition fresh_entry ip := MkArpEntry ip (e_mac arp_zero) ARP_INCOMPLETE 0 0 0 [].
Lemma fresh_entry_ok ip : entry_ok (fresh_entry ip).
Proof. split; [done|simpl; lia|done|constructor]. Qed.
Lemma fresh_entry_wf k s i e ip : wf k s → arp_table s !! i = Some e → queue e = [] → (∀ j a, arp_table s !! j = Some a → e_state a ≠ ARP_FREE → e_ip a ≠ ip) → wf k (arp_set s i (fresh_entry ip)).
Proof.
  intros Hs Hi Hq Hn. pose proof (set_entry_wf k s i e (fresh_entry ip) Hs Hi (fresh_entry_ok ip)) as H. rewrite Hq in H. simpl in H.
  replace k with (k + 0 - 0) by lia. apply H. intros _. by right.
Qed.
Lemma ArpFindOrCreate_wp k s ip :
  wf k s → wp (ArpFindOrCreate ip) (λ o s', wf k s' ∧ still s s' ∧ match o with Some i => found s' ip i | None => True end) s.
Proof.
  intros Hs. unfold ArpFindOrCreate. wp_steps. pose proof (ao_len _ (wf_arp _ _ Hs)) as Hlen.
  assert (Hlt : ∀ i e, arp_table s !! i = Some e → (i < 64)%nat) by (intros i e Hi; apply lookup_lt_Some in Hi; by rewrite Hlen in Hi).
  destruct (ArpFind (arp_table s) ip) as [i|] eqn:Ef.
  { apply wp_ret. split_and!; [done|done|]. unfold ArpFind in Ef. apply fmap_Some in Ef as ([i' e] & Ef & ->). apply list_find_Some in Ef as (Hi & [Hf He] & _).
    simpl. split; [by eapply Hlt|by exists e]. }
  pose proof (not_found _ _ Ef) as Hn.
  assert (Hnew : ∀ s' i e, wf k s' → still s s' → arp_table s' !! i = Some e → queue e = [] → (∀ j a, arp_table s' !! j = Some a → e_state a ≠ ARP_FREE → e_ip a ≠ ip) → (i < 64)%nat →
            wf k (arp_set s' i (fresh_entry ip)) ∧ still s (arp_set s' i (fresh_entry ip)) ∧ found (arp_set s' i (fresh_entry ip)) ip i).
  { intros s' i e Hs' Hst Hi Hq Hn' Hl. split_and!; [by eapply fresh_entry_wf|done|]. split; [done|]. exists (fresh_entry ip). split; [|done]. simpl. apply list_lookup_insert_eq. by eapply lookup_lt_Some. }
  destruct (list_find _ (arp_table s)) as [[i e]|] eqn:Efree.
  - apply list_find_Some in Efree as (Hi & He & _). unfold set_entry. wp_steps. eapply (Hnew s i e); [done|done|done| |done|by eapply Hlt].
    apply (eo_pending e); [|by rewrite He]. exact (Forall_lookup_1 _ _ _ _ (ao_entries _ (wf_arp _ _ Hs)) Hi).
  - destruct (arp_victim (arp_table s) 0 None) as [[i e]|] eqn:Ev; [|by apply wp_ret]. apply arp_victim_spec in Ev as [|(n & -> & Hi & Hr)]; [done|]. cbn [Nat.add].
    apply wp_bind. eapply wp_of; [by apply ArpFreeEntry_run|]. unfold set_entry. wp_steps. set (s' := arp_set _ _ arp_zero).
    assert (Hi' : arp_table s' !! n = Some arp_zero) by (simpl; apply list_lookup_insert_eq; by eapply lookup_lt_Some).
    apply (Hnew s' n arp_zero); [by eapply ArpFreeEntry_wf|done|done|done| |by eapply Hlt].
    intros j a Hj Hf. simpl in Hj. apply list_lookup_insert_Some in Hj as [(_ & <- & _)|[_ Hj]]; [done|by eapply Hn].
Qed.

Lemma wf_set_live k n s : wf k s → wf (k - n) (set_live (live s - n) s).
Proof. intros []. split; try done. simpl. lia. Qed.
Lemma EthTx_safe dst ethertype payload : length dst = 6%nat → safe (EthTx dst ethertype payload : NM A Z).
Proof.
  intros Hd k s Hs. eapply wp_mono; [apply EthTx_wp; [apply Hs|apply Hs|done]|]. cbv beta. intros _ s' T. split; [by eapply tx_wf|by apply tx_below].
Qed.
Lemma flush_queue_wp dst q : length dst = 6%nat → ∀ s,
  ring_ok (tx_ring s) → length (mac (netif s)) = 6%nat → wp (flush_queue dst q) (λ _ s', ∃ s1, tx_only s s1 ∧ s' = set_live (live s - Z.of_nat (length q)) s1) s.
Proof.
  intros Hd. induction q as [|p q IH]; intros s Hr Hm; cbn [flush_queue foldr].
  - apply wp_ret. exists s. split; [apply tx_refl|]. destruct s. unfold set_live. simpl. f_equal. lia.
  - apply wp_bind. eapply wp_mono; [by apply EthTx_wp|]. cbv beta. intros _ s1 T1. unfold free. wp_steps.
    eapply wp_mono; [apply IH; simpl; [by eapply tx_ring_ok|by rewrite (tx_netif _ _ T1)]|]. cbv beta. intros _ s' (s2 & (r & sg & -> & Hr2) & ->).
    destruct T1 as (r1 & sg1 & -> & Hr1). exists (set_tx_ring r (set_signal_results sg s)). split.
    + eexists _, _. split; [done|]. intros _. apply Hr2. by apply Hr1.
    + unfold set_live. simpl. f_equal. lia.
Qed.
Lemma ArpLearn_safe ip m : length m = 6%nat → safe (ArpLearn ip m : NM A unit).
Proof.
  intros Hm k s Hs. unfold ArpLearn. apply wp_bind. eapply wp_mono; [by apply ArpFindOrCreate_wp|]. cbv beta. intros o s0 (Hs0 & [B0 _] & Ho).
  destruct o as [i|]; [|by apply wp_ret]. destruct Ho as (Hi & e & He & Eip & Hf). unfold entry, NetNowMs, set_entry. wp_steps. rewrite He. cbn [default from_option id].
  assert (Hok : entry_ok e) by exact (Forall_lookup_1 _ _ _ _ (ao_entries _ (wf_arp _ _ Hs0)) He).
  set (fin := MkArpEntry (e_ip e) m ARP_REACHABLE (probes e) (last_tx_ms e) (w32 (clock s0 + ARP_REACHABLE_MS)) []).
  assert (Hfin : entry_ok fin) by (split; [done|simpl; lia|done|constructor]).
  apply wp_when; intros Hw.
  - apply wp_bind. eapply wp_mono; [apply flush_queue_wp; [done|apply Hs0|apply Hs0]|]. cbv beta. intros _ s' (s1 & (r & sg & -> & Hr) & ->).
    wp_steps. set (base := set_tx_ring r (set_signal_results sg s0)).
    assert (Hbase : wf k base) by (apply (tx_wf k s0); [|done]; eexists _, _; done).
    pose proof (wf_set_live _ (Z.of_nat (length (queue e))) _ (set_entry_wf k base i e fin Hbase He Hfin ltac:(intros _; left; done))) as H.
    replace (_ + _ - _ - _) with k in H by (simpl; lia). split.
    + match goal with |- wf k ?x => replace x with (set_live (live (arp_set base i fin) - Z.of_nat (length (queue e))) (arp_set base i fin)); [done|] end.
      unfold arp_set, set_live, set_arp_table. simpl. f_equal. by rewrite list_insert_insert_eq.
    + done.
  - split; [|done].
    assert (Hq : queue e = []).
    { apply andb_false_iff in Hw as [Hw|Hw]; apply negb_false_iff, bool_decide_eq_true in Hw; [|done]. apply (eo_pending _ Hok). by rewrite Hw. }
    rewrite Hq. fold fin. pose proof (set_entry_wf k s0 i e fin Hs0 He Hfin ltac:(intros _; left; done)) as H.
    by replace (_ + _ - _) with k in H by (rewrite Hq; simpl; lia).
Qed.

(** * Sending *)

Lemma ArpPacket_length h p hl pl op sh sp th tp :
  length sh = 6%nat → length sp = 4%nat → length th = 6%nat → length tp = 4%nat → length (ArpPacket_bytes (MkArpPacket h p hl pl op sh sp th tp)) = 28%nat.
Proof. intros H1 H2 H3 H4. unfold ArpPacket_bytes. simpl. rewrite !length_app, H1, H2, H3, H4. done. Qed.
Lemma ArpRequest_safe target : safe (ArpRequest target : NM A Z).
Proof. unfold ArpRequest. apply safe_bind; [apply safe_gets|]. intros n. apply safe_bind; [by apply EthTx_safe|]. intros _. apply safe_ret. Qed.
Lemma ArpAcdProbe_safe target : safe (ArpAcdProbe target : NM A unit).
Proof. unfold ArpAcdProbe. apply safe_bind; [apply safe_gets|]. intros n. apply safe_bind; [by apply EthTx_safe|]. intros _. apply safe_ret. Qed.

Definition frame_ok (f : TxFrame) : Prop := 0 ≤ front f ≤ fend f ∧ fend f ≤ 1536.
Lemma TxFrameLen_ok f : frame_ok f → TxFrameLen f = fend f - front f.
Proof. intros [H1 H2]. unfold TxFrameLen. apply w16_small. lia. Qed.
Lemma TxFrameData_run f s : ring_ok (tx_ring s) → frame_ok f →
  TxFrameData f s = Ok (take (Z.to_nat (fend f - front f)) (drop (Z.to_nat (front f)) (f_data (slots (tx_ring s) (slot f)))), s).
Proof.
  intros [_ Hr] Hf. unfold TxFrameData, slot_frame. rewrite run_gets, TxFrameLen_ok by done. destruct Hf. unfold load.
  by rewrite (proj2 (Z.leb_le _ _)) by (rewrite length_drop, Hr; lia).
Qed.

Lemma entry_step k s i e e' :
  wf k s → arp_table s !! i = Some e → entry_ok e' → e_state e' = e_state e → e_ip e' = e_ip e → length (queue e') = length (queue e) → wf k (arp_set s i e').
Proof.
  intros Hs Hi He Hst Hip Hq. pose proof (set_entry_wf k s i e e' Hs Hi He) as H. rewrite Hq in H. replace k with (k + Z.of_nat (length (queue e)) - Z.of_nat (length (queue e))) by lia.
  apply H. intros Hf. left. split; [congruence|done].
Qed.
Lemma with_probes_ok p t e : entry_ok e → entry_ok (with_probes p t e).
Proof. by intros []. Qed.
Lemma found_entry k s i ip : wf k s → found s ip i → ∃ e, entry i s = Ok (e, s) ∧ arp_table s !! i = Some e ∧ entry_ok e ∧ e_ip e = ip ∧ e_state e ≠ ARP_FREE.
Proof.
  intros Hs (Hi & e & He & Eip & Hf). exists e. unfold entry, gets. rewrite He. split_and!; try done. exact (Forall_lookup_1 _ _ _ _ (ao_entries _ (wf_arp _ _ Hs)) He).
Qed.

(** Queueing a copy of the packet. *)
Lemma enqueue_wp k s i target f ethertype e :
  wf k s → frame_ok f → fend f - front f ≤ NIC_MTU → found s target i → arp_table s !! i = Some e → e_state e ≠ ARP_REACHABLE →
  wp (when (Z.of_nat (length (queue e)) <? ARP_MAX_QUEUE)
        (let! ok := malloc in
         when ok (let! data := TxFrameData f in set_entry i (with_queue (queue e ++ [MkPending data ethertype]) e))))
    (λ _ s', wf k s' ∧ below s s' ∧ found s' target i) s.
Proof.
  intros Hs Hf Hmtu Hfnd He Hnr. apply wp_when; intros Hq; [|done]. b2p. unfold ARP_MAX_QUEUE in Hq. apply wp_bind. apply (malloc_wp k); [done|]. intros ok s1 Hs1 B1 Ea Er.
  assert (Hf1 : found s1 target i) by (destruct Hfnd as (Hi & e0 & He0 & ? & ?); split; [done|]; exists e0; by rewrite Ea).
  destruct (found_entry _ _ _ _ Hs1 Hf1) as (e1 & _ & He1 & Hok & Hip & Hfree). rewrite Ea, He in He1. injection He1 as <-.
  apply wp_when; intros ->; [|by replace (k + b2z false) with k in Hs1 by (simpl; lia)]. apply wp_bind. eapply wp_of; [apply TxFrameData_run; [apply Hs1|done]|]. unfold set_entry. wp_steps.
  set (data := take _ _). assert (Hd : Z.of_nat (length data) ≤ NIC_MTU) by (unfold data; rewrite length_take; destruct Hf; lia).
  assert (Hst : e_state e = ARP_INCOMPLETE) by (by destruct (e_state e)). rewrite <- Ea in He.
  pose proof (set_entry_wf _ s1 i e (with_queue (queue e ++ [MkPending data ethertype]) e) Hs1 He) as H. split_and!; [|done|].
  - simpl in H. rewrite length_app in H. simpl in H. replace (k + 1 + _ - _) with k in H by lia. apply H; [|by left].
    destruct Hok as [H1 H2 H3 H4]. split; simpl; [done|rewrite length_app; simpl; lia|done|]. apply Forall_app. split; [done|]. by constructor.
  - split; [by destruct Hf1|]. eexists. split; [apply list_lookup_insert_eq; by eapply lookup_lt_Some|]. done.
Qed.
Lemma ArpSendFrame_safe target ethertype f : frame_ok f → fend f - front f ≤ NIC_MTU → safe (ArpSendFrame target ethertype f : NM A unit).
Proof.
  intros Hf Hmtu k s Hs. unfold ArpSendFrame.
  assert (Hsend : ∀ s m, wf k s → length m = 6%nat → wp (EthSendFrame f m ethertype ;; ret tt) (λ _ s', wf k s' ∧ below s s') s).
  { intros s1 m Hs1 Hm. apply wp_bind. eapply wp_mono; [apply (EthSendFrame_wp k); [done|done|destruct Hf; lia]|]. cbv beta. intros _ s' T. apply wp_ret. split; [by eapply tx_wf|by apply tx_below]. }
  apply wp_if; intros _; [by apply Hsend|]. apply wp_bind. eapply wp_mono; [by apply ArpFindOrCreate_wp|]. cbv beta. intros o s0 (Hs0 & [B0 _] & Ho).
  destruct o as [i|]; [|by apply wp_ret]. destruct (found_entry _ _ _ _ Hs0 Ho) as (e & Re & He & Hok & Hip & Hfree). apply wp_bind. eapply wp_of; [done|].
  apply wp_if; intros Hst. { eapply wp_mono; [apply Hsend; [done|apply Hok]|]. cbv beta. intros _ s' [H1 H2]. split; [done|by eapply below_trans]. }
  apply bool_decide_eq_false in Hst. apply wp_bind. eapply wp_mono; [by eapply enqueue_wp|]. cbv beta. intros _ s1 (Hs1 & B1 & Ho1).
  destruct (found_entry _ _ _ _ Hs1 Ho1) as (e1 & Re1 & He1 & Hok1 & Hip1 & Hfree1). apply wp_bind. eapply wp_of; [done|].
  assert (B01 : below s s1) by by eapply below_trans. apply wp_when; intros _; [|done]. apply wp_bind. unfold ArpRequest. wp_steps.
  eapply wp_mono; [apply EthTx_wp; [apply Hs1|apply Hs1|done]|]. cbv beta. intros _ s2 T. unfold NetNowMs, set_entry. wp_steps. split.
  - apply (entry_step k s2 i e1); [by eapply tx_wf|by rewrite (tx_arp _ _ T)|by apply with_probes_ok|done|done|done].
  - pose proof (tx_below _ _ T). by eapply below_trans.
Qed.

Lemma load_run data n s : n ≤ Z.of_nat (length data) → load data n s = Ok (take (Z.to_nat n) data, s).
Proof. intros Hn. unfold load. by rewrite (proj2 (Z.leb_le _ _)). Qed.
Lemma finish_some {X} (o : option X) x s : o = Some x → finish o s = Ok (x, s).
Proof. by intros ->. Qed.
(** Loading from the slot of a frame being built. *)
Lemma load_slot_run s i off n : ring_ok (tx_ring s) → 0 ≤ off → 0 ≤ n → off + n ≤ 1536 →
  load (drop (Z.to_nat off) (f_data (slots (tx_ring s) i))) n s = Ok (take (Z.to_nat n) (drop (Z.to_nat off) (f_data (slots (tx_ring s) i))), s).
Proof. intros [_ Hr] Ho Hn Hl. apply load_run. rewrite length_drop, Hr. lia. Qed.
Lemma tx_safe k s s' : tx_only s s' → wf k s → wf k s' ∧ below s s'.
Proof. intros T Hs. split; [by eapply tx_wf|by apply tx_below]. Qed.
Lemma safe_from k s0 s {X} (m : NM A X) : safe m → wf k s → below s0 s → wp m (λ _ s', wf k s' ∧ below s0 s') s.
Proof. intros Hm Hs HB. eapply wp_mono; [by apply Hm|]. cbv beta. intros _ s' [H1 H2]. split; [done|by eapply below_trans]. Qed.

Lemma IpSend_safe f src dst proto : frame_ok f → safe (IpSend f src dst proto : NM A Z).
Proof.
  intros Hf k s Hs. unfold IpSend. apply wp_if; intros _; [by apply wp_ret|]. rewrite TxFrameLen_ok by done. apply wp_if; intros Hmtu; [by apply wp_ret|]. b2p.
  unfold TxFramePrepend. case_if E; [by apply wp_ret|]. cbn [slot front fend]. destruct Hf as [Hf1 Hf2].
  assert (Hs1 : wf k (set_id_counter (s32 (id_counter s + 1)) s)) by by destruct Hs.
  wp_steps. eapply wp_mono; [apply slot_write_wp; [apply Hs|lia|change (zlen (IpHeader_bytes _)) with 20; lia]|]. cbv beta. intros _ s2 [T2 _].
  destruct (tx_safe k _ _ T2 Hs1) as [Hs2 B2]. unfold slot_frame. wp_steps. eapply wp_of; [apply load_slot_run; [apply Hs2|lia..]|].
  destruct (InetChecksum_some (take (Z.to_nat 20) (drop (Z.to_nat (front f - 20)) (f_data (slots (tx_ring s2) (slot f)))))) as (c & Ec & _). wp_steps. eapply wp_of; [by apply finish_some|].
  wp_steps. eapply wp_mono; [apply slot_write_wp; [apply Hs2|lia|change (zlen (IpHeader_bytes _)) with 20; lia]|]. cbv beta. intros _ s3 [T3 _].
  destruct (tx_safe k _ _ T3 Hs2) as [Hs3 B3]. wp_steps. eapply wp_mono; [apply (safe_from k s s3); [apply ArpSendFrame_safe|done|]|].
  - unfold frame_ok. simpl. lia.
  - simpl. lia.
  - eapply below_trans; [|done]. exact (below_trans s _ s2 (below_refl _) B2).
  - cbv beta. intros _ s4 H4. by apply wp_ret.
Qed.

Lemma TxFrameInit_cases s head (Q : Z + TxFrame → nst A → Prop) :
  (∀ rc, Q (inl rc) s) → (∀ i, Q (inr (MkTxFrame i head head)) s) → wp (TxFrameInit head) Q s.
Proof. intros H1 H2. unfold TxFrameInit. wp_steps. destruct (PacketRingReserve _); apply wp_ret; auto. Qed.

Lemma IpTx_safe payload src dst proto : safe (IpTx payload src dst proto : NM A Z).
Proof.
  intros k s Hs. unfold IpTx. apply wp_if; intros E; [by apply wp_ret|]. b2p. unfold NIC_MTU in E. apply wp_bind. apply TxFrameInit_cases; [intros; by apply wp_ret|]. intros i.
  unfold TxFrameAppend. cbn [fend slot front]. case_if E2; [by apply wp_ret|]. wp_steps. unfold NIC_FRAME_SIZE in E2.
  eapply wp_mono; [apply slot_write_wp; [apply Hs|lia|lia]|]. cbv beta. intros _ s1 [T _]. destruct (tx_safe k _ _ T Hs). apply (safe_from k); [|done|done].
  apply IpSend_safe. unfold frame_ok. simpl. rewrite w16_small by lia. lia.
Qed.

Lemma UdpSend_safe dst sport dport payload : safe (UdpSend dst sport dport payload : NM A Z).
Proof.
  intros k s Hs. unfold UdpSend. apply wp_if; intros E; [by apply wp_ret|]. b2p. unfold UDP_MAX_PAYLOAD, NIC_MTU in E. apply wp_bind. apply TxFrameInit_cases; [intros; by apply wp_ret|].
  intros i. wp_steps. set (n := Z.of_nat (length payload)) in *. change (14 + 20 + 8) with 42.
  apply (wp_mono _ (λ o s', tx_only s s' ∧ o = Some (MkTxFrame i 42 (42 + n)))).
  { apply wp_if; intros En.
    - unfold TxFrameAppend. cbn [fend slot front]. unfold NIC_FRAME_SIZE. rewrite (proj2 (Z.ltb_ge 1536 (42 + n))) by lia. wp_steps.
      eapply wp_mono; [apply slot_write_wp; [apply Hs|lia|fold n; lia]|]. cbv beta. intros _ s1 [T _]. wp_steps. split; [done|]. by rewrite w16_small by lia.
    - apply wp_ret. split; [apply tx_refl|]. unfold truthy in En. b2p. by rewrite En. }
  cbv beta. intros o s1 [T1 ->]. change (mbind _ (Some (MkTxFrame i 42 (42 + n)))) with (Some (MkTxFrame i (42 - 8) (42 + n))). cbn [slot front fend].
  pose proof (tx_ring_ok _ _ T1 (wf_ring _ _ Hs)) as Hr1. wp_steps.
  eapply wp_mono; [apply slot_write_wp; [done|lia|change (zlen (UdpHeader_bytes _)) with 8; lia]|]. cbv beta. intros _ s2 [T2 _]. pose proof (tx_ring_ok _ _ T2 Hr1) as Hr2. wp_steps.
  assert (Hok : frame_ok (MkTxFrame i (42 - 8) (42 + n))) by (unfold frame_ok; simpl; lia). eapply wp_of; [by apply TxFrameData_run|].
  match goal with |- context [UdpChecksum ?a ?b ?c] => destruct (PseudoChecksum_some IP_PROTO_UDP a b c) as (sum & Es & _) end. wp_steps. eapply wp_of; [by apply finish_some|]. wp_steps.
  eapply wp_mono; [apply slot_write_wp; [done|lia|change (zlen (UdpHeader_bytes _)) with 8; lia]|]. cbv beta. intros _ s3 [T3 _].
  destruct (tx_safe k s s3) as [Hs3 B3]; [tx_end|done|]. apply (safe_from k); [by apply IpSend_safe|done|done].
Qed.

Definition syn_opts (flags : Z) : list Z := if has flags TCP_SYN then TcpBuildOptions TCP_MAX_OPTS TCP_OPT_MSS_BIT TCP_MSS else [].
Lemma syn_opts_length flags : length (syn_opts flags) = 4%nat ∨ length (syn_opts flags) = 0%nat.
Proof. unfold syn_opts. destruct (has flags TCP_SYN); [left|right]; done. Qed.
Lemma TcpFrame_safe lip lp rip rp g : safe (TcpFrame lip lp rip rp g : NM A Z).
Proof.
  intros k s Hs. unfold TcpFrame. fold (syn_opts (seg_flags g)). set (opts := syn_opts (seg_flags g)). pose proof (syn_opts_length (seg_flags g)) as Ho. fold opts in Ho.
  apply wp_bind. apply TxFrameInit_cases; [intros; by apply wp_ret|]. intros i. unfold TxFrameAppend. cbn [fend slot front]. unfold NIC_FRAME_SIZE. change (14 + 20) with 34.
  rewrite (proj2 (Z.ltb_ge 1536 (34 + (20 + Z.of_nat (length opts))))) by lia. rewrite !(w16_small (34 + (20 + zlen opts))) by lia. cbn [fend slot front].
  case_if E; [by apply wp_ret|]. unfold payload_len in *. cbn [fend slot front]. rewrite (w16_small (34 + _ + _)) by lia. rewrite (w16_small (20 + _ + _)) by lia.
  wp_steps. pose proof (wf_ring _ _ Hs) as Hr.
  assert (Hth : ∀ s1 h, tx_only s s1 → wp (slot_write i 34 (TcpHdr_bytes h)) (λ _ s2, tx_only s s2) s1).
  { intros s1 h T. eapply wp_mono; [apply slot_write_wp; [by eapply tx_ring_ok|lia|change (zlen (TcpHdr_bytes h)) with 20; lia]|]. cbv beta. intros _ s2 [T2 _]. by eapply tx_trans. }
  eapply wp_mono; [apply Hth, tx_refl|]. cbv beta. intros _ s1 T1. tx_step slot_write_wp. tx_step slot_write_wp. unfold slot_frame. wp_steps.
  assert (Ts : tx_only s s2) by tx_end. eapply wp_of; [apply load_slot_run; [by eapply tx_ring_ok|lia..]|].
  match goal with |- context [TcpChecksum ?a ?b ?c] => destruct (PseudoChecksum_some IP_PROTO_TCP a b c) as (sum & Es & _) end. wp_steps. eapply wp_of; [by apply finish_some|]. wp_steps.
  eapply wp_mono; [by apply Hth|]. cbv beta. intros _ s3 T3. destruct (tx_safe k s s3 T3 Hs) as [Hs3 B3]. apply (safe_from k); [|done|done].
  apply IpSend_safe. unfold frame_ok. simpl. lia.
Qed.
Lemma TcpSendRst_safe src dst sport dport g : safe (TcpSendRst src dst sport dport g : NM A unit).
Proof.
  unfold TcpSendRst. match goal with |- context [TcpChecksum ?a ?b ?c] => destruct (PseudoChecksum_some IP_PROTO_TCP a b c) as (sum & Es & _) end.
  unfold TcpChecksum. rewrite Es. apply (safe_bind (ret sum)); [apply safe_ret|]. intros c. apply safe_bind; [apply IpTx_safe|]. intros _. apply safe_ret.
Qed.

(** * Tables of the code above *)

Lemma UdpBind_wp k s port h : wf k s → wp (UdpBind port h) (λ _ s', wf k s' ∧ ∃ t, s' = set_udp_table t s) s.
Proof.
  intros Hs. assert (Hsame : ∃ t, s = set_udp_table t s) by (exists (udp_table s); by destruct s).
  unfold UdpBind. apply wp_if; intros Hp; [apply wp_ret; split; [done|exact Hsame]|]. wp_steps. destruct (list_find (bound_to port) _) as [|] eqn:Ed; [apply wp_ret; split; [done|exact Hsame]|].
  pose proof (proj1 (list_find_None _ _) Ed) as Hn. clear Ed.
  destruct (list_find _ (udp_table s)) as [[i e]|] eqn:Ef; [|apply wp_ret; split; [done|exact Hsame]]. wp_steps. split; [|by eexists].
  destruct Hs as [H1 H2 H3 H4 [Hl Hu] H5 H6]. split; try done. simpl. split; [by rewrite length_insert|].
  apply list_find_Some in Ef as (Hi & He & _).
  intros p j1 j2 a b Ha Hb Ba Bb. rewrite list_lookup_insert_Some in Ha, Hb.
  destruct Ha as [(<- & <- & _)|[N1 Ha]], Hb as [(<- & <- & _)|[N2 Hb]]; [done| | |by eapply Hu].
  - destruct Ba as [Ep _]. simpl in Ep. subst p. exfalso. exact (Forall_lookup_1 _ _ _ _ Hn Hb Bb).
  - destruct Bb as [Ep _]. simpl in Ep. subst p. exfalso. exact (Forall_lookup_1 _ _ _ _ Hn Ha Ba).
Qed.
Lemma UdpUnbind_wp k s port : wf k s → wp (UdpUnbind port) (λ _ s', wf k s' ∧ ∃ t, s' = set_udp_table t s) s.
Proof.
  intros [H1 H2 H3 H4 [Hl Hu] H5 H6]. unfold UdpUnbind. wp_steps. split; [|by eexists]. split; try done. simpl. split; [by rewrite length_fmap|].
  assert (Hold : ∀ p i a, ((λ e, if bool_decide (bound_to port e) then MkUdpEntry 0 None else e) <$> udp_table s) !! i = Some a → bound_to p a → udp_table s !! i = Some a).
  { intros p i a Ha Ba. apply list_lookup_fmap_Some in Ha as (e & Ea & He). case_bool_decide; [|congruence]. subst a. by destruct Ba. }
  intros p i j a b Ha Hb Ba Bb. by eapply (Hu p); eauto.
Qed.
Lemma ArpAcdStart_wp k s target h : wf k s → wp (ArpAcdStart target h) (λ _ s', wf k s' ∧ s' = set_acd (MkAcd true target 0 (clock s) h) s) s.
Proof. intros []. unfold ArpAcdStart, NetNowMs. wp_steps. by split. Qed.
End safe.

(** * The code above *)

(** What the code above maintains ([up_inv]), and that its entry points keep the whole invariant.  The callback of the
    conflict detection runs after the detection was switched off. *)
Class UpperOk (A : Type) `{Upper A} := {
  up_inv : Netif → Acd → list UdpTableEntry → A → Prop;
  up_probe n a t x p ms : up_inv n a t x → acd_active a = true → up_inv n (MkAcd true (acd_ip a) p ms (acd_on_result a)) t x;
  up_quiet n a t x : up_inv n a t x → acd_on_result a = None → up_inv n (MkAcd false (acd_ip a) (acd_probes a) (acd_next_ms a) None) t x;
  up_udp h src sp dp data (s : nst A) :
    Forall is_byte data → wf 0 s → up_inv (netif s) (acd s) (udp_table s) (app s) →
    wp (on_udp h src sp dp data) (λ _ s', wf 0 s' ∧ up_inv (netif s') (acd s') (udp_table s') (app s')) s;
  up_tcp src dst sp dp g (s : nst A) :
    wf 0 s → up_inv (netif s) (acd s) (udp_table s) (app s) →
    wp (on_tcp src dst sp dp g) (λ _ s', wf 0 s' ∧ up_inv (netif s') (acd s') (udp_table s') (app s')) s;
  up_acd cb conflict a (s : nst A) :
    wf 0 s → up_inv (netif s) a (udp_table s) (app s) → acd_active a = true → acd_on_result a = Some cb →
    acd s = MkAcd false (acd_ip a) (acd_probes a) (acd_next_ms a) (acd_on_result a) →
    wp (on_acd cb conflict) (λ _ s', wf 0 s' ∧ up_inv (netif s') (acd s') (udp_table s') (app s')) s }.

Section receive.
Context {A : Type} `{UP : Upper A} `{UPO : !UpperOk A}.
Implicit Type s : nst A.

Definition inv s : Prop := wf 0 s ∧ up_inv (netif s) (acd s) (udp_table s) (app s).
Definition fine {X} (m : NM A X) : Prop := ∀ s, inv s → wp m (λ _ s', inv s') s.

Lemma inv_below s s' : inv s → wf 0 s' → below s s' → inv s'.
Proof. intros [_ Hu] Hs (En & Ea & Et & Ex & _). split; [done|]. by rewrite En, Ea, Et, Ex. Qed.
Lemma safe_fine {X} (m : NM A X) : safe m → fine m.
Proof. intros Hm s Hs. eapply wp_mono; [apply Hm, Hs|]. cbv beta. intros _ s' [H1 H2]. by eapply inv_below. Qed.
Lemma fine_ret {X} (x : X) : fine (ret x).
Proof. apply safe_fine, safe_ret. Qed.
Lemma fine_bind {X Y} (m : NM A X) (f : X → NM A Y) : fine m → (∀ x, fine (f x)) → fine (bind m f).
Proof. intros Hm Hf s Hs. apply wp_bind. eapply wp_mono; [by apply Hm|]. cbv beta. intros x s1 H1. by apply Hf. Qed.
Lemma fine_gets {X} (f : nst A → X) : fine (gets f).
Proof. apply safe_fine, safe_gets. Qed.
Lemma fine_when b (m : NM A unit) : fine m → fine (when b m).
Proof. intros Hm. destruct b; [done|apply fine_ret]. Qed.

Lemma ArpAcdFinish_fine conflict : fine (ArpAcdFinish conflict).
Proof.
  intros s [Hs Hu]. unfold ArpAcdFinish. wp_steps. apply wp_when; intros Ha; [|done]. wp_steps.
  assert (Hs' : wf 0 (set_acd (MkAcd false (acd_ip (acd s)) (acd_probes (acd s)) (acd_next_ms (acd s)) (acd_on_result (acd s))) s)) by by destruct Hs.
  destruct (acd_on_result (acd s)) as [cb|] eqn:Ecb.
  - eapply up_acd; [done|exact Hu|done|done|]. simpl. by rewrite Ecb.
  - apply wp_ret. split; [done|]. simpl. by apply up_quiet.
Qed.

Lemma ArpTickEntry_safe now i : (i < 64)%nat → safe (ArpTickEntry now i : NM A unit).
Proof.
  intros Hi k s Hs. unfold ArpTickEntry, entry. wp_steps. destruct (entry_lookup k s i Hs Hi) as (e & He & Hok). rewrite He. cbn [default from_option id].
  assert (Hfree : wp (ArpFreeEntry i) (λ _ s', wf k s' ∧ below s s') s) by (eapply wp_of; [by apply ArpFreeEntry_run|]; split; [by apply ArpFreeEntry_wf|done]).
  destruct (e_state e) eqn:Est; [by apply wp_ret| |by apply wp_when].
  apply wp_when; intros _; [|done]. apply wp_if; intros _; [|done]. apply wp_bind. unfold ArpRequest. wp_steps.
  eapply wp_mono; [apply EthTx_wp; [apply Hs|apply Hs|done]|]. cbv beta. intros _ s1 T. unfold set_entry. wp_steps. split.
  - apply (entry_step k s1 i e); [by eapply tx_wf|by rewrite (tx_arp _ _ T)|by apply with_probes_ok|done|done|done].
  - exact (tx_below _ _ T).
Qed.
Lemma ArpTick_fine : fine ArpTick.
Proof.
  intros s Hs. unfold ArpTick, NetNowMs. wp_steps. apply (wp_mono _ (λ _, inv)).
  - apply wp_when; intros Ha; [|done]. b2p. apply wp_if; intros _; [|by apply ArpAcdFinish_fine]. apply wp_bind.
    eapply wp_mono; [apply ArpAcdProbe_safe, Hs|]. cbv beta. intros _ s1 [H1 B1]. wp_steps.
    destruct (inv_below _ _ Hs H1 B1) as [_ Hu]. split; [by destruct H1|]. simpl. destruct B1 as (_ & Ea & _). rewrite <- Ea in *. by apply up_probe.
  - cbv beta. intros _ s1 H1. apply (wp_for_each (λ _, inv)); [done| |done]. intros j s' Hj Hs'.
    apply safe_fine; [|done]. apply ArpTickEntry_safe. unfold ARP_MAX_ENTRIES in Hj. lia.
Qed.

Lemma RateAllow_ok now rl rate burst ok rl' : 0 ≤ burst → rl_ok burst rl → RateAllow now rl rate burst = (ok, rl') → rl_ok burst rl'.
Proof.
  intros Hb Hr. unfold RateAllow. set (r1 := if last_ms rl =? 0 then _ else _).
  assert (H1 : rl_ok burst r1).
  { unfold r1. case_if E; [split; simpl; lia|]. case_if E1; [|done]. unfold rl_ok. simpl. pose proof (w32_range (tokens rl + w32 (w64 (w32 (now - last_ms rl) * rate) / 1000))). case_if E2; lia. }
  clearbody r1. unfold rl_ok in *. case_if E; intros [= _ <-]; simpl; lia.
Qed.

(** A rate limiter consulted: its state stays in bounds. *)
Lemma fine_load {X} data n (f : list Z → NM A X) : n ≤ Z.of_nat (length data) → fine (f (take (Z.to_nat n) data)) → fine (bind (load data n) f).
Proof. intros Hn Hf s Hs. apply wp_bind. eapply wp_of; [by apply load_run|]. by apply Hf. Qed.
Lemma fine_finish {X Y} (o : option Y) y (f : Y → NM A X) : o = Some y → fine (f y) → fine (bind (finish o) f).
Proof. intros -> Hf s Hs. by apply Hf. Qed.
Lemma length_sub (b : list Z) off n : (off + n ≤ length b)%nat → length (sub b off n) = n.
Proof. intros Hl. unfold sub. rewrite length_take, length_drop. lia. Qed.
Lemma fine_if {X} (b : bool) (m1 m2 : NM A X) : (b = true → fine m1) → (b = false → fine m2) → fine (if b then m1 else m2).
Proof. destruct b; auto. Qed.

Lemma ArpRx_fine data len : len ≤ Z.of_nat (length data) → fine (ArpRx data len).
Proof.
  intros Hl. unfold ArpRx. apply fine_bind; [apply fine_gets|]. intros n. apply fine_if; intros E; [apply fine_ret|]. b2p. apply fine_load; [lia|].
  set (b := take _ _). assert (Hb : length b = 28%nat) by (unfold b; rewrite length_take; lia). clearbody b. apply fine_if; intros _; [apply fine_ret|].
  apply fine_bind; [apply fine_gets|]. intros a. apply fine_bind; [apply fine_when, fine_when, ArpAcdFinish_fine|]. intros _.
  assert (Hsha : length (sha (ArpPacket_of b)) = 6%nat) by (apply length_sub; lia).
  apply fine_bind; [by apply safe_fine, ArpLearn_safe|]. intros _. apply fine_bind; [|intros _; apply fine_ret]. apply fine_when, fine_when.
  intros s Hs. unfold NetNowMs. wp_steps. destruct (RateAllow _ _ _ _) as [ok rl] eqn:Er. wp_steps.
  assert (Hs' : inv (set_arp_reply_rl rl s)).
  { destruct Hs as [[]]. split; [|done]. split; try done. simpl. eapply RateAllow_ok; [|done|done]. lia. }
  revert Hs'. generalize (set_arp_reply_rl rl s). clear Er Hs s. intros s Hs. apply fine_when; [|done]. apply fine_bind; [apply fine_gets|]. intros n'.
  apply fine_bind; [by apply safe_fine, EthTx_safe|]. intros _. apply fine_ret.
Qed.

Lemma IcmpRx_fine payload len src : len ≤ Z.of_nat (length payload) → fine (IcmpRx payload len src).
Proof.
  intros Hl. unfold IcmpRx. apply fine_if; intros E; [apply fine_ret|]. b2p. apply fine_load; [lia|]. apply fine_if; intros _; [apply fine_ret|]. apply fine_load; [lia|].
  set (bytes := take (Z.to_nat len) payload). destruct (InetChecksum_some bytes) as (c & Ec & _). eapply fine_finish; [done|]. apply fine_if; intros _; [apply fine_ret|].
  intros s Hs. unfold NetNowMs. wp_steps. destruct (RateAllow _ _ _ _) as [ok rl] eqn:Er. wp_steps.
  assert (Hs' : inv (set_echo_reply_rl rl s)).
  { destruct Hs as [[]]. split; [|done]. split; try done. simpl. eapply RateAllow_ok; [|done|done]. lia. }
  revert Hs'. generalize (set_echo_reply_rl rl s). clear Er. intros s1 Hs1. apply wp_if; intros _; [by apply wp_ret|]. apply wp_bind. apply (malloc_wp 0); [apply Hs1|].
  intros b s2 H2 B2 _ _. destruct b; cbn [negb]; [|apply wp_ret; by eapply inv_below]. wp_steps.
  match goal with |- context [finish (InetChecksum ?x)] => destruct (InetChecksum_some x) as (c' & Ec' & _) end. eapply wp_of; [by apply finish_some|]. wp_steps.
  eapply wp_mono; [by apply IpTx_safe|]. cbv beta. intros _ s3 [H3 B3]. eapply free_wp; [done|]. intros s4 -> H4.
  apply (inv_below s1); [done|exact H4|]. exact (below_trans _ _ _ B2 B3).
Qed.

Lemma UdpRecv_fine data len src dst : Forall is_byte data → len ≤ Z.of_nat (length data) → fine (UdpRecv data len src dst).
Proof.
  intros Hby Hl. unfold UdpRecv. apply fine_if; intros E; [apply fine_ret|]. b2p. apply fine_load; [lia|]. set (hdr := UdpHeader_of _). clearbody hdr.
  apply fine_if; intros E1; [apply fine_ret|]. b2p. apply fine_load; [lia|]. set (bytes := take _ data). destruct (PseudoChecksum_some IP_PROTO_UDP src dst bytes) as (c & Ec & _).
  apply fine_bind. { apply fine_if; intros _; [|apply fine_ret]. unfold UdpChecksum. rewrite Ec. apply fine_ret. }
  intros sum. apply fine_if; intros _; [apply fine_ret|]. apply fine_bind; [apply fine_gets|]. intros t.
  destruct (list_find _ t) as [[i [p [h|]]]|]; [|apply fine_ret|apply fine_ret]. intros s [H1 H2]. apply up_udp; [|done|done]. by apply Forall_drop, Forall_take.
Qed.
Lemma TcpRx_fine src dst data len : len ≤ Z.of_nat (length data) → fine (TcpRx src dst data len).
Proof.
  intros Hl. unfold TcpRx. apply fine_if; intros E; [apply fine_ret|]. b2p. apply fine_load; [lia|]. set (bytes := take _ data).
  assert (Hb : Z.of_nat (length bytes) = len) by (unfold bytes; rewrite length_take; lia). clearbody bytes.
  destruct (PseudoChecksum_some IP_PROTO_TCP src dst bytes) as (c & Ec & _). eapply fine_finish; [done|]. apply fine_if; intros _; [apply fine_ret|].
  set (hl := Z.shiftr _ 4 * 4). apply fine_if; intros E1; [apply fine_ret|]. b2p. apply fine_load; [rewrite length_drop; lia|]. set (opts := take _ _).
  assert (Ho : Z.of_nat (length opts) = hl - 20) by (unfold opts; rewrite length_take, length_drop; lia). rewrite <- Ho.
  destruct (TcpParseOptions_in_bounds opts) as ([ok mss] & Ep). rewrite Ep. intros s [H1 H2]. wp_steps. eapply wp_of; [done|]. by apply up_tcp.
Qed.

Lemma IpRx_fine data len from : Forall is_byte data → len ≤ Z.of_nat (length data) → length from = 6%nat → fine (IpRx data len from).
Proof.
  intros Hby Hl Hm. unfold IpRx. apply fine_if; intros E; [apply fine_ret|]. b2p. apply fine_load; [lia|]. set (hdr := IpHeader_of _).
  apply fine_if; intros _; [apply fine_ret|]. set (hl := w8 _). assert (0 ≤ hl) by (unfold hl, w8; apply Z.mod_pos_bound; lia). clearbody hl.
  pose proof (htons_u16 (total_length hdr)) as Ht. set (total := htons (total_length hdr)) in *. unfold u16 in Ht. clearbody total.
  apply fine_if; intros E1; [apply fine_ret|]. b2p. apply fine_load; [lia|]. destruct (InetChecksum_some (take (Z.to_nat hl) data)) as (c & Ec & _).
  eapply fine_finish; [done|]. apply fine_bind; [apply fine_gets|]. intros n. apply fine_if; intros _; [apply fine_ret|].
  apply fine_bind; [by apply safe_fine, ArpLearn_safe|]. intros _. apply fine_if; intros _; [apply fine_ret|].
  assert (Hp : total - hl ≤ Z.of_nat (length (drop (Z.to_nat hl) data))) by (rewrite length_drop; lia).
  apply fine_if; intros _; [by apply IcmpRx_fine|]. apply fine_if; intros _; [apply UdpRecv_fine; [by apply Forall_drop|done]|]. apply fine_if; intros _; [by apply TcpRx_fine|apply fine_ret].
Qed.
Lemma EthRx_fine data len : Forall is_byte data → len ≤ Z.of_nat (length data) → fine (EthRx data len).
Proof.
  intros Hby Hl. unfold EthRx. apply fine_if; intros E; [apply fine_ret|]. b2p. apply fine_load; [lia|].
  assert (Hd : len - 14 ≤ Z.of_nat (length (drop 14 data))) by (rewrite length_drop; lia).
  apply fine_if; intros _; [apply fine_bind; [by apply ArpRx_fine|intros; apply fine_ret]|]. apply fine_if; intros _; [|apply fine_ret]. apply fine_if; intros _; [apply fine_ret|].
  apply fine_bind; [|intros; apply fine_ret]. apply IpRx_fine; [by apply Forall_drop|done|]. apply length_sub. rewrite length_take. lia.
Qed.
End receive.
