(* ===== verification/NetdWire.v ===== *)
(** What the network service puts on the wire is what it reads back: a TCP segment or a UDP datagram sent by one
    machine reaches the code above of the other as it was, whatever padding the link adds, and a TCP segment with a
    byte changed on the way is dropped.  The byte contents of the slot being built are tracked from the first header
    written to the frame committed to the ring. *)
From S2P Require Import Prelude Str Ring Tcp Wire Netd NetdInv.

#[local] Open Scope Z_scope.

(** * Overwriting *)

Lemma overwrite_read D n X : (n ≤ length D)%nat → take (length X) (drop n (overwrite D n X)) = X.
Proof. intros Hn. unfold overwrite. rewrite drop_app_length' by (rewrite length_take; lia). apply take_app_length. Qed.
Lemma overwrite_split P M S X n : length P = n → length M = length X → overwrite (P ++ M ++ S) n X = P ++ X ++ S.
Proof.
  intros <- HM. unfold overwrite. rewrite take_app_length. do 2 f_equal. rewrite drop_app_ge by lia. rewrite drop_app_ge by lia.
  replace (_ - _ - _)%nat with 0%nat by lia. done.
Qed.
(** The part of a slot that [a] bytes and then [b] bytes at [n] cover. *)
Lemma cover (D : list Z) n a b : (n + a + b ≤ length D)%nat → ∃ P M1 M2 S, D = P ++ M1 ++ M2 ++ S ∧ length P = n ∧ length M1 = a ∧ length M2 = b.
Proof.
  intros H. exists (take n D), (take a (drop n D)), (take b (drop a (drop n D))), (drop b (drop a (drop n D))).
  rewrite !take_drop. rewrite !length_take, !length_drop. split_and!; [done|lia|lia|lia].
Qed.
Lemma overwrite_append D n X Y m : (n + length X + length Y ≤ length D)%nat → m = (n + length X)%nat → overwrite (overwrite D n X) m Y = overwrite D n (X ++ Y).
Proof.
  intros H ->. destruct (cover D n _ _ H) as (P & M1 & M2 & S & -> & HP & H1 & H2). rewrite (overwrite_split P M1) by done.
  rewrite (assoc_L (++) P X), (overwrite_split (P ++ X) M2) by (rewrite ?length_app; lia). rewrite (assoc_L (++) M1), (overwrite_split P (M1 ++ M2)) by (rewrite ?length_app; lia).
  by rewrite <- !(assoc_L (++)).
Qed.
Lemma overwrite_prepend D n X Y m : (n + length X ≤ length D)%nat → n = (m + length Y)%nat → overwrite (overwrite D n X) m Y = overwrite D m (Y ++ X).
Proof.
  intros H ->. destruct (cover D m (length Y) (length X)) as (P & M1 & M2 & S & -> & HP & H1 & H2); [lia|]. rewrite (assoc_L (++) P M1).
  rewrite (overwrite_split (P ++ M1) M2) by (rewrite ?length_app; lia). rewrite <- !(assoc_L (++) P M1), (overwrite_split P M1) by done.
  rewrite (assoc_L (++) M1 M2), (overwrite_split P (M1 ++ M2)) by (rewrite ?length_app; lia). by rewrite <- !(assoc_L (++)).
Qed.
Lemma overwrite_again D n X X' Y : (n + length X + length Y ≤ length D)%nat → length X' = length X → overwrite (overwrite D n (X ++ Y)) n X' = overwrite D n (X' ++ Y).
Proof.
  intros H HX. destruct (cover D n _ _ H) as (P & M1 & M2 & S & -> & HP & H1 & H2). rewrite (assoc_L (++) M1 M2), !(overwrite_split P (M1 ++ M2)) by (rewrite ?length_app; lia).
  rewrite <- (assoc_L (++) X Y), (overwrite_split P X) by done. by rewrite <- !(assoc_L (++)).
Qed.

(** * Building a frame *)

Section build.
Context {A : Type}.
Implicit Type s : nst A.

(** The slot at the head, reserved in [s0], now holds [D]; nothing is committed. *)
Record building s0 (D : list Z) s : Prop := {
  b_head : p_head (tx_ring s) = p_head (tx_ring s0);
  b_data : f_data (slots (tx_ring s) (p_head (tx_ring s0))) = D;
  b_netif : netif s = netif s0;
  b_arp : arp_table s = arp_table s0 }.
(** The frame [fr] was committed. *)
Definition committed_frame s (i : Z) : list Z := take (Z.to_nat (f_len (slots (tx_ring s) i))) (f_data (slots (tx_ring s) i)).
Definition sent s0 s fr : Prop := p_head (tx_ring s) = next_slot (p_head (tx_ring s0)) ∧ committed_frame s (p_head (tx_ring s0)) = fr.

Lemma building_write s0 D s off bs (Q : unit → nst A → Prop) :
  building s0 D s → 0 ≤ off → off + Z.of_nat (length bs) ≤ 1536 →
  (∀ s', building s0 (overwrite D (Z.to_nat off) bs) s' → Q tt s') → wp (slot_write (p_head (tx_ring s0)) off bs) Q s.
Proof.
  intros [H1 H2 H3 H4] Ho Hl HQ. unfold slot_write. rewrite (proj2 (Z.leb_le 0 off)), (proj2 (Z.leb_le (off + _) _)) by done. simpl. unfold slot_frame, put_slot. wp_steps.
  apply HQ. split; simpl; try done. by rewrite Z.eqb_refl, <- H2.
Qed.
Lemma building_load s0 D s off n (Q : list Z → nst A → Prop) :
  building s0 D s → 0 ≤ off → 0 ≤ n → off + n ≤ Z.of_nat (length D) → Q (take (Z.to_nat n) (drop (Z.to_nat off) D)) s →
  wp (let! sf := slot_frame (p_head (tx_ring s0)) in load (drop (Z.to_nat off) (f_data sf)) n) Q s.
Proof.
  intros [H1 H2 H3 H4] Ho Hn Hl HQ. unfold slot_frame. wp_steps. rewrite H2. eapply wp_of; [apply load_run; rewrite length_drop; lia|done].
Qed.

(** [EthSendFrame] of a packet that is in the slot behind room for the Ethernet header. *)
Definition eth_frame (m : list Z) s ethertype (p : list Z) : list Z := EthHdr_bytes (MkEthHdr m (mac (netif s)) (htons ethertype)) ++ p.
Lemma EthSendFrame_sends s0 D s p m ethertype fe :
  building s0 (overwrite D 14 p) s → length D = 1536%nat → 14 + Z.of_nat (length p) ≤ 1536 → fe = 14 + Z.of_nat (length p) → length m = 6%nat → length (mac (netif s0)) = 6%nat →
  wp (EthSendFrame (MkTxFrame (p_head (tx_ring s0)) 14 fe) m ethertype) (λ _ s', sent s0 s' (eth_frame m s0 ethertype p)) s.
Proof.
  intros Hb HD Hl -> Hm Hn. unfold EthSendFrame, TxFramePrepend. cbn [slot front fend]. change (14 <? 14) with false. cbv iota. cbn [slot front fend]. change (14 - 14) with 0. wp_steps.
  rewrite (b_netif _ _ _ Hb). pose proof (EthHdr_length m (mac (netif s0)) (htons ethertype) Hm Hn) as Hh.
  eapply building_write; [exact Hb|lia|rewrite Hh; lia|]. intros s1 H1. rewrite overwrite_prepend in H1 by (rewrite ?Hh; lia).
  unfold slot_len, slot_frame, put_slot, commit. wp_steps. unfold TxFrameLen. cbn [fend front]. rewrite w16_small by lia.
  assert (Hc : committed_frame (set_tx_ring (PacketRingCommit (put_frame (tx_ring s1) (p_head (tx_ring s0)) (Frame (14 + zlen p - 0) (f_data (slots (tx_ring s1) (p_head (tx_ring s0))))))) s1) (p_head (tx_ring s0)) = eth_frame m s0 ethertype p).
  { unfold committed_frame. simpl. rewrite Z.eqb_refl. cbn [f_len f_data]. rewrite (b_data _ _ _ H1). fold (eth_frame m s0 ethertype p).
    assert (E : Z.to_nat (14 + zlen p - 0) = length (eth_frame m s0 ethertype p)) by (unfold eth_frame; rewrite length_app, Hh; lia).
    rewrite E. pose proof (overwrite_read D 0 (eth_frame m s0 ethertype p) ltac:(lia)) as R. by rewrite drop_0 in R. }
  unfold wp, Signal. simpl. destruct (signal_results s1); (split; [simpl; by rewrite (b_head _ _ _ H1)|exact Hc]).
Qed.

(** The next hop towards [dst] and that its address is known. *)
Definition next_hop (n : Netif) (dst : Z) : Z := if negb (dst =? BROADCAST_IP) && truthy (Z.land (Z.lxor dst (ip n)) (netmask n)) then gateway n else dst.
Definition reachable s (hop : Z) (m : list Z) : Prop :=
  (hop = BROADCAST_IP ∧ m = BROADCAST_MAC) ∨
  (hop ≠ BROADCAST_IP ∧ ∃ i e, ArpFind (arp_table s) hop = Some i ∧ arp_table s !! i = Some e ∧ e_state e = ARP_REACHABLE ∧ e_mac e = m).
Lemma ArpSendFrame_sends s0 D s p m hop ethertype fe :
  building s0 (overwrite D 14 p) s → length D = 1536%nat → 14 + Z.of_nat (length p) ≤ 1536 → fe = 14 + Z.of_nat (length p) → length m = 6%nat → length (mac (netif s0)) = 6%nat →
  reachable s0 hop m →
  wp (ArpSendFrame hop ethertype (MkTxFrame (p_head (tx_ring s0)) 14 fe)) (λ _ s', sent s0 s' (eth_frame m s0 ethertype p)) s.
Proof.
  intros Hb HD Hl Hfe Hm Hn Hr. unfold ArpSendFrame. destruct Hr as [[-> ->]|(Hne & i & e & Hf & He & Hst & Em)].
  - rewrite Z.eqb_refl. apply wp_bind. eapply wp_mono; [by eapply EthSendFrame_sends|]. done.
  - rewrite (proj2 (Z.eqb_neq _ _) Hne). unfold ArpFindOrCreate. wp_steps. rewrite (b_arp _ _ _ Hb), Hf. wp_steps. unfold entry. wp_steps. rewrite (b_arp _ _ _ Hb), He. cbn [default from_option id].
    rewrite bool_decide_eq_true_2 by done. rewrite Em. wp_steps. eapply wp_mono; [by eapply EthSendFrame_sends|]. done.
Qed.

(** [p] is a datagram that carries [seg]; its header checks. *)
Definition ip_hdr src dst proto len id c : IpHeader := MkIpHeader 0x45 0 (htons (20 + len)) (htons id) (htons IP_FLAG_DF) 64 proto (htons c) src dst.
Definition ip_packet src dst proto (seg p : list Z) : Prop :=
  ∃ id c, u16 id ∧ u16 c ∧ p = IpHeader_bytes (ip_hdr src dst proto (Z.of_nat (length seg)) id c) ++ seg ∧
    InetChecksum (IpHeader_bytes (ip_hdr src dst proto (Z.of_nat (length seg)) id c)) = Some 0.
Lemma ip_hdr_checks src dst proto len id c :
  is_byte proto → InetChecksum (IpHeader_bytes (MkIpHeader 0x45 0 (htons (20 + len)) (htons id) (htons IP_FLAG_DF) 64 proto 0 src dst)) = Some c →
  u16 c ∧ InetChecksum (IpHeader_bytes (ip_hdr src dst proto len id c)) = Some 0.
Proof.
  intros Hp. set (a := [0x45; 0] ++ le16 (htons (20 + len)) ++ le16 (htons id) ++ le16 (htons IP_FLAG_DF) ++ [64; proto]). set (b := le32 src ++ le32 dst).
  change (IpHeader_bytes (MkIpHeader 0x45 0 (htons (20 + len)) (htons id) (htons IP_FLAG_DF) 64 proto 0 src dst)) with (a ++ [0; 0] ++ b).
  change (IpHeader_bytes (ip_hdr src dst proto len id c)) with (a ++ stored_checksum c ++ b). apply InetChecksum_stored; [by exists 5%nat| |done].
  unfold a, b. rewrite !Forall_app, !Forall_cons, !Forall_nil. unfold is_byte in *. split_and!; try lia; first [apply le16_bytes|apply le32_bytes|done].
Qed.

Lemma IpSend_sends s0 D s seg src dst proto m fe :
  building s0 (overwrite D 34 seg) s → length D = 1536%nat → 20 + Z.of_nat (length seg) ≤ NIC_MTU → fe = 34 + Z.of_nat (length seg) → is_byte proto →
  length m = 6%nat → length (mac (netif s0)) = 6%nat → dst = BROADCAST_IP ∨ src ≠ 0 → reachable s0 (next_hop (netif s0) dst) m →
  wp (IpSend (MkTxFrame (p_head (tx_ring s0)) 34 fe) src dst proto) (λ rc s', rc = ZUZU_OK ∧ ∃ p, ip_packet src dst proto seg p ∧ sent s0 s' (eth_frame m s0 ETH_TYPE_IP p)) s.
Proof.
  intros Hb HD Hl -> Hp Hm Hn Hsrc Hr. unfold NIC_MTU in Hl. unfold IpSend.
  assert (E0 : negb (dst =? BROADCAST_IP) && (src =? 0) = false) by (destruct Hsrc as [->|H]; [done|rewrite (proj2 (Z.eqb_neq _ _) H); apply andb_false_r]). rewrite E0.
  unfold TxFrameLen. cbn [fend front slot]. replace (34 + zlen seg - 34) with (zlen seg) by lia. rewrite w16_small by lia. unfold NIC_MTU. rewrite (proj2 (Z.ltb_ge 1500 _)) by lia.
  unfold TxFramePrepend. cbn [fend front slot]. change (34 <? 20) with false. cbv iota. cbn [fend front slot]. change (34 - 20) with 14. rewrite w16_small by lia. wp_steps.
  set (id := w16 (id_counter s)). assert (Hid : u16 id) by (unfold id, u16, w16; apply Z.mod_pos_bound; lia). clearbody id.
  set (h0 := IpHeader_bytes _). assert (Hb' : building s0 (overwrite D 34 seg) (set_id_counter (s32 (id_counter s + 1)) s)) by by destruct Hb.
  eapply building_write; [exact Hb'|lia|change (zlen h0) with 20; lia|]. intros s1 H1. rewrite overwrite_prepend in H1 by (change (length h0) with 20%nat; lia).
  unfold slot_frame. wp_steps. rewrite (b_data _ _ _ H1). eapply wp_of.
  { apply load_run. rewrite length_drop, length_overwrite; [lia|]. rewrite length_app. change (length h0) with 20%nat. lia. }
  assert (Eh : take (Z.to_nat 20) (drop (Z.to_nat 14) (overwrite D (Z.to_nat 14) (h0 ++ seg))) = h0).
  { pose proof (overwrite_read D 14 (h0 ++ seg) ltac:(lia)) as R. apply (f_equal (take 20)) in R. rewrite take_take, take_app_length' in R by done.
    rewrite length_app in R. change (length h0) with 20%nat in R. by rewrite Nat.min_l in R by lia. }
  rewrite Eh. destruct (InetChecksum_some h0) as (c & Ec & Hc). wp_steps. eapply wp_of; [by apply finish_some|]. wp_steps.
  destruct (ip_hdr_checks src dst proto (zlen seg) id c Hp Ec) as [_ Hck]. fold (ip_hdr src dst proto (zlen seg) id c).
  eapply building_write; [exact H1|lia|change (zlen (IpHeader_bytes _)) with 20; lia|]. intros s2 H2.
  rewrite overwrite_again in H2 by (first [done|change (length h0) with 20%nat; lia]). wp_steps. rewrite (b_netif _ _ _ H2). fold (next_hop (netif s0) dst).
  eapply wp_mono; [eapply ArpSendFrame_sends; [exact H2|done| | |exact Hm|done|done]|].
  - rewrite length_app. change (length (IpHeader_bytes _)) with 20%nat. lia.
  - rewrite length_app. change (length (IpHeader_bytes _)) with 20%nat. lia.
  - cbv beta. intros _ s3 H3. apply wp_ret. split; [done|]. eexists. split; [|exact H3]. exists id, c. done.
Qed.

(** A reserved slot at the start of a send. *)
Lemma TxFrameInit_reserves s head (Q : Z + TxFrame → nst A → Prop) :
  is_Some (PacketRingReserve (tx_ring s)) → Q (inr (MkTxFrame (p_head (tx_ring s)) head head)) s → wp (TxFrameInit head) Q s.
Proof. intros [i Hi] HQ. unfold TxFrameInit. wp_steps. unfold PacketRingReserve in *. destruct (_ =? _); [done|]. by apply wp_ret. Qed.
Lemma building_start s : building s (f_data (slots (tx_ring s) (p_head (tx_ring s)))) s.
Proof. done. Qed.

(** * A TCP segment *)

Definition tcp_hdr lp rp (g : TcpSegment) c : TcpHdr :=
  MkTcpHdr (htons lp) (htons rp) (htonl (seg_seq g)) (htonl (seg_ack g)) (w8 (Z.shiftl ((20 + Z.of_nat (length (syn_opts (seg_flags g)))) / 4) 4)) (seg_flags g)
    (htons (seg_window g)) c 0.
Definition tcp_bytes lp rp g c : list Z := TcpHdr_bytes (tcp_hdr lp rp g c) ++ syn_opts (seg_flags g) ++ payload g.
(** What a segment handed to the wire looks like: the fields fit, and a SYN carries the MSS. *)
Record segment_ok (g : TcpSegment) : Prop := {
  sg_seq : u32 (seg_seq g);
  sg_ack : u32 (seg_ack g);
  sg_flags : is_byte (seg_flags g);
  sg_window : u16 (seg_window g);
  sg_payload : Forall is_byte (payload g);
  sg_mss : seg_mss g = if has (seg_flags g) TCP_SYN then Some TCP_MSS else None;
  sg_size : 20 + Z.of_nat (length (syn_opts (seg_flags g))) + payload_len g ≤ NIC_MTU - 20 }.
Lemma syn_opts_bytes flags : Forall is_byte (syn_opts flags).
Proof. unfold syn_opts. destruct (has flags TCP_SYN); [|constructor]. repeat (apply Forall_cons; split); try constructor; unfold is_byte; vm_compute; intuition congruence. Qed.
Lemma tcp_bytes_length lp rp g c : length (tcp_bytes lp rp g c) = (20 + (length (syn_opts (seg_flags g)) + length (payload g)))%nat.
Proof. unfold tcp_bytes. rewrite !length_app. done. Qed.
Lemma tcp_bytes_check lip rip lp rp g c : segment_ok g → TcpChecksum lip rip (tcp_bytes lp rp g 0) = Some c → u16 c ∧ TcpChecksum lip rip (tcp_bytes lp rp g (htons c)) = Some 0.
Proof.
  intros Hg. pose proof (sg_size g Hg) as Hsz. unfold NIC_MTU, payload_len in Hsz.
  set (a := le16 (htons lp) ++ le16 (htons rp) ++ le32 (htonl (seg_seq g)) ++ le32 (htonl (seg_ack g)) ++
    [w8 (Z.shiftl ((20 + Z.of_nat (length (syn_opts (seg_flags g)))) / 4) 4); seg_flags g] ++ le16 (htons (seg_window g))).
  set (b := [0; 0] ++ syn_opts (seg_flags g) ++ payload g).
  change (tcp_bytes lp rp g 0) with (a ++ [0; 0] ++ b). change (tcp_bytes lp rp g (htons c)) with (a ++ stored_checksum c ++ b). intros Hc.
  eapply PseudoChecksum_stored; [unfold is_byte, IP_PROTO_TCP; lia|by exists 8%nat| | |exact Hc|by left].
  - unfold a, b. rewrite !Forall_app, !Forall_cons, !Forall_nil. destruct Hg. split_and!; try done; first [apply le16_bytes|apply le32_bytes|apply w8_byte|apply syn_opts_bytes|unfold is_byte; lia|idtac].
  - change (a ++ [0; 0] ++ b) with (tcp_bytes lp rp g 0). rewrite tcp_bytes_length. lia.
Qed.

(** * A UDP datagram *)

Definition udp_hdr sp dp len c : UdpHeader := MkUdpHeader (htons sp) (htons dp) (htons (8 + len)) c.
Definition udp_bytes sp dp (data : list Z) c : list Z := UdpHeader_bytes (udp_hdr sp dp (Z.of_nat (length data)) c) ++ data.
Lemma udp_bytes_check src dst sp dp data c :
  Forall is_byte data → Z.of_nat (length data) ≤ UDP_MAX_PAYLOAD → UdpChecksum src dst (udp_bytes sp dp data 0) = Some c →
  let cs := htons c in let c' := if truthy cs then cs else 0xFFFF in
  u16 c' ∧ c' ≠ 0 ∧ UdpChecksum src dst (udp_bytes sp dp data c') = Some 0.
Proof.
  intros Hb Hl. unfold UDP_MAX_PAYLOAD, NIC_MTU in Hl. set (a := le16 (htons sp) ++ le16 (htons dp) ++ le16 (htons (8 + Z.of_nat (length data)))).
  change (udp_bytes sp dp data 0) with (a ++ [0; 0] ++ data). intros Hc cs c'.
  assert (Hby : Forall is_byte (a ++ [0; 0] ++ data)).
  { unfold a. rewrite !Forall_app, !Forall_cons, !Forall_nil. split_and!; try done; first [apply le16_bytes|unfold is_byte; lia]. }
  assert (Hlen : Z.of_nat (length (a ++ [0; 0] ++ data)) ≤ 65535) by (rewrite !length_app; unfold a; simpl; lia).
  assert (Hstored : ∀ v, v = c ∨ (c = 0 ∧ v = 65535) → u16 c ∧ UdpChecksum src dst (a ++ stored_checksum v ++ data) = Some 0).
  { intros v Hv. eapply PseudoChecksum_stored; [unfold is_byte, IP_PROTO_UDP; lia|by exists 3%nat|done|done|exact Hc|done]. }
  destruct (Hstored c (or_introl eq_refl)) as [Hu _].
  assert (Hcs : cs = 0 ↔ c = 0). { unfold cs. split; [|by intros ->]. intros E. rewrite <- (htons_htons c) by done. by rewrite E. }
  unfold c'. destruct (truthy cs) eqn:E; unfold truthy in E; b2p.
  - split_and!; [apply htons_u16|done|]. change (udp_bytes sp dp data cs) with (a ++ stored_checksum c ++ data). apply Hstored. by left.
  - split_and!; [unfold u16; lia|done|]. change (udp_bytes sp dp data 0xFFFF) with (a ++ stored_checksum 65535 ++ data). apply Hstored. right. split; [by apply Hcs|done].
Qed.
Lemma UdpSend_sends s dst sp dp data m :
  wf 0 s → is_Some (PacketRingReserve (tx_ring s)) → Forall is_byte data → Z.of_nat (length data) ≤ UDP_MAX_PAYLOAD → dst = BROADCAST_IP ∨ ip (netif s) ≠ 0 →
  reachable s (next_hop (netif s) dst) m → length m = 6%nat →
  wp (UdpSend dst sp dp data)
    (λ rc s', rc = ZUZU_OK ∧ ∃ c p, u16 c ∧ c ≠ 0 ∧ UdpChecksum (ip (netif s)) dst (udp_bytes sp dp data c) = Some 0 ∧
       ip_packet (ip (netif s)) dst IP_PROTO_UDP (udp_bytes sp dp data c) p ∧ sent s s' (eth_frame m s ETH_TYPE_IP p)) s.
Proof.
  intros Hs Hroom Hb Hl Hsrc Hr Hm. unfold UdpSend. rewrite (proj2 (Z.ltb_ge UDP_MAX_PAYLOAD _)) by done. pose proof Hl as Hl'. unfold UDP_MAX_PAYLOAD, NIC_MTU in Hl'.
  apply wp_bind. apply TxFrameInit_reserves; [done|]. change (14 + 20 + 8) with 42. set (D := f_data (slots (tx_ring s) (p_head (tx_ring s)))). assert (HD : length D = 1536%nat) by apply (wf_ring _ _ Hs).
  apply wp_bind. apply (wp_mono _ (λ o s', building s (overwrite D 42 data) s' ∧ o = Some (MkTxFrame (p_head (tx_ring s)) 42 (42 + zlen data)))).
  { apply wp_if; intros En.
    - unfold TxFrameAppend. cbn [fend slot front]. unfold NIC_FRAME_SIZE. rewrite (proj2 (Z.ltb_ge 1536 (42 + zlen data))) by lia. wp_steps. cbn [slot].
      eapply (building_write s D); [apply building_start|lia|lia|]. intros s1 H1. wp_steps. split; [done|]. by rewrite w16_small by lia.
    - unfold truthy in En. b2p. assert (data = []) as -> by (apply nil_length_inv; lia). apply wp_ret. split; [|done]. split; try done. unfold overwrite. simpl. by rewrite (take_drop 42 D). }
  cbv beta. intros o s1 [H1 ->]. change (mbind _ (Some (MkTxFrame (p_head (tx_ring s)) 42 (42 + zlen data)))) with (Some (MkTxFrame (p_head (tx_ring s)) 34 (42 + zlen data))). cbn [slot front fend].
  rewrite w16_small by lia. fold (udp_hdr sp dp (zlen data) 0). wp_steps. set (h := UdpHeader_bytes (udp_hdr sp dp (zlen data) 0)).
  eapply building_write; [exact H1|lia|change (zlen h) with 8; lia|]. intros s2 H2. rewrite overwrite_prepend in H2 by (change (length h) with 8%nat; lia). wp_steps. rewrite (b_netif _ _ _ H2).
  change (h ++ data) with (udp_bytes sp dp data 0) in H2. set (ub := udp_bytes sp dp data 0) in *. assert (Hub : length ub = (8 + length data)%nat) by done.
  unfold TxFrameData, slot_frame. cbn [slot front fend]. wp_steps. rewrite (b_data _ _ _ H2). unfold TxFrameLen. cbn [fend front]. rewrite w16_small by lia.
  eapply wp_of. { apply load_run. rewrite length_drop, length_overwrite by lia. lia. }
  replace (Z.to_nat (42 + zlen data - 34)) with (length ub) by lia. rewrite overwrite_read by lia.
  destruct (PseudoChecksum_some IP_PROTO_UDP (ip (netif s)) dst ub) as (c & Ec & Hc). wp_steps. eapply wp_of; [by apply finish_some|]. wp_steps.
  destruct (udp_bytes_check (ip (netif s)) dst sp dp data c Hb Hl Ec) as (Hu & Hnz & Hck). set (c' := if truthy (htons c) then htons c else 0xFFFF) in *. fold (udp_hdr sp dp (zlen data) c').
  eapply building_write; [exact H2|lia|change (zlen (UdpHeader_bytes _)) with 8; lia|]. intros s4 H4. unfold ub, udp_bytes in H4.
  rewrite overwrite_again in H4 by (first [done|change (length (UdpHeader_bytes _)) with 8%nat; lia]). fold (udp_bytes sp dp data c') in H4.
  assert (Hl2 : length (udp_bytes sp dp data c') = length ub) by done.
  eapply wp_mono; [eapply IpSend_sends; [exact H4|done|rewrite Hl2; unfold NIC_MTU; lia|rewrite Hl2; lia|unfold is_byte, IP_PROTO_UDP; lia|exact Hm|apply Hs|done|done]|].
  cbv beta. intros rc s5 (-> & p & Hp & Hsent). split; [done|]. by exists c', p.
Qed.

Lemma TcpFrame_sends s lip lp rip rp g m :
  wf 0 s → is_Some (PacketRingReserve (tx_ring s)) → segment_ok g → rip = BROADCAST_IP ∨ lip ≠ 0 → reachable s (next_hop (netif s) rip) m → length m = 6%nat →
  wp (TcpFrame lip lp rip rp g)
    (λ rc s', rc = ZUZU_OK ∧ ∃ c p, TcpChecksum lip rip (tcp_bytes lp rp g (htons c)) = Some 0 ∧
       ip_packet lip rip IP_PROTO_TCP (tcp_bytes lp rp g (htons c)) p ∧ sent s s' (eth_frame m s ETH_TYPE_IP p)) s.
Proof.
  intros Hs Hroom Hg Hsrc Hr Hm. unfold TcpFrame. fold (syn_opts (seg_flags g)). set (opts := syn_opts (seg_flags g)).
  pose proof (sg_size g Hg) as Hsz. fold opts in Hsz. unfold NIC_MTU, payload_len in Hsz. pose proof (syn_opts_length (seg_flags g)) as Ho. fold opts in Ho.
  apply wp_bind. apply TxFrameInit_reserves; [done|]. unfold TxFrameAppend. cbn [fend slot front]. unfold NIC_FRAME_SIZE, payload_len. change (14 + 20) with 34.
  rewrite (proj2 (Z.ltb_ge 1536 (34 + (20 + Z.of_nat (length opts))))) by lia. rewrite !(w16_small (34 + (20 + zlen opts))) by lia. cbn [fend slot front].
  rewrite (proj2 (Z.ltb_ge 1536 (34 + _ + zlen (payload g)))) by lia. cbn [fend slot front]. rewrite (w16_small (34 + _ + _)), (w16_small (20 + _ + _)) by lia. wp_steps.
  set (D := f_data (slots (tx_ring s) (p_head (tx_ring s)))). assert (HD : length D = 1536%nat) by apply (wf_ring _ _ Hs).
  change (MkTcpHdr _ _ _ _ _ _ _ _ _) with (tcp_hdr lp rp g 0). set (h := TcpHdr_bytes (tcp_hdr lp rp g 0)).
  eapply (building_write s D); [apply building_start|lia|change (zlen h) with 20; lia|]. intros s1 H1. wp_steps.
  eapply building_write; [exact H1|lia|lia|]. intros s2 H2. rewrite overwrite_append in H2 by (change (length h) with 20%nat; lia). wp_steps.
  eapply building_write; [exact H2|lia|lia|]. intros s3 H3. rewrite overwrite_append in H3 by (rewrite !length_app; change (length h) with 20%nat; lia).
  rewrite <- (assoc_L (++)) in H3. change (h ++ opts ++ payload g) with (tcp_bytes lp rp g 0) in H3. set (sb := tcp_bytes lp rp g 0) in *. assert (Hsb : length sb = (20 + (length opts + length (payload g)))%nat) by apply tcp_bytes_length.
  unfold slot_frame. wp_steps. rewrite (b_data _ _ _ H3). eapply wp_of. { apply load_run. rewrite length_drop, length_overwrite by lia. lia. }
  replace (Z.to_nat (20 + zlen opts + zlen (payload g))) with (length sb) by lia. rewrite overwrite_read by lia.
  destruct (PseudoChecksum_some IP_PROTO_TCP lip rip sb) as (c & Ec & Hc). wp_steps. eapply wp_of; [by apply finish_some|]. wp_steps.
  destruct (tcp_bytes_check lip rip lp rp g c Hg Ec) as [_ Hck]. change (set_th_checksum (htons c) (tcp_hdr lp rp g 0)) with (tcp_hdr lp rp g (htons c)).
  eapply building_write; [exact H3|lia|change (zlen (TcpHdr_bytes _)) with 20; lia|]. intros s4 H4. unfold sb, tcp_bytes in H4.
  rewrite overwrite_again in H4 by (first [done|rewrite length_app; change (length (TcpHdr_bytes _)) with 20%nat; fold opts; lia]). fold (tcp_bytes lp rp g (htons c)) in H4.
  assert (Hl : length (tcp_bytes lp rp g (htons c)) = length sb) by (rewrite Hsb; apply tcp_bytes_length).
  eapply wp_mono; [eapply IpSend_sends; [exact H4|done|rewrite Hl; unfold NIC_MTU; lia|rewrite Hl; lia|unfold is_byte, IP_PROTO_TCP; lia|exact Hm|apply Hs|done|done]|].
  cbv beta. intros rc s5 (-> & p & Hp & Hsent). split; [done|]. by exists c, p.
Qed.
End build.

(** * Receiving *)

Section receive.
Context {A : Type} `{UP : Upper A}.
Implicit Type r : nst A.

Lemma run_load {X} data n (k : list Z → NM A X) r : n ≤ Z.of_nat (length data) → bind (load data n) k r = k (take (Z.to_nat n) data) r.
Proof. intros Hn. unfold bind. by rewrite load_run. Qed.
Lemma run_finish {X Y} (o : option Y) y (k : Y → NM A X) r : o = Some y → bind (finish o) k r = k y r.
Proof. by intros ->. Qed.

Lemma TcpRx_bytes lip rip lp rp g c pad r :
  segment_ok g → u16 lp → u16 rp → TcpChecksum lip rip (tcp_bytes lp rp g (htons c)) = Some 0 →
  TcpRx lip rip (tcp_bytes lp rp g (htons c) ++ pad) (Z.of_nat (length (tcp_bytes lp rp g (htons c)))) r = on_tcp lip rip lp rp g r.
Proof.
  intros Hg Hlp Hrp Hck. unfold TcpRx. set (sb := tcp_bytes lp rp g (htons c)) in *. assert (Hsb : length sb = (20 + (length (syn_opts (seg_flags g)) + length (payload g)))%nat) by apply tcp_bytes_length.
  rewrite (proj2 (Z.ltb_ge _ 20)) by lia. rewrite run_load by (rewrite length_app; lia). rewrite Nat2Z.id, take_app_length. erewrite run_finish by exact Hck. change (truthy 0) with false. cbv iota.
  assert (Eth : TcpHdr_of sb = tcp_hdr lp rp g (htons c)).
  { apply TcpHdr_of_bytes; simpl; try apply htons_u16; [apply htonl_u32, Hg|apply htonl_u32, Hg|unfold u16; lia]. }
  rewrite Eth. assert (Ho : Z.shiftr (th_data_offset (tcp_hdr lp rp g (htons c))) 4 * 4 = 20 + Z.of_nat (length (syn_opts (seg_flags g)))).
  { simpl. destruct (syn_opts_length (seg_flags g)) as [-> | ->]; done. }
  rewrite Ho. set (opts := syn_opts (seg_flags g)) in *. rewrite (proj2 (Z.ltb_ge (20 + zlen opts) 20)), (proj2 (Z.ltb_ge (zlen sb) _)) by lia. cbn [orb].
  assert (Ed : drop 20 sb = opts ++ payload g) by done. rewrite run_load by (rewrite Ed, length_app; lia). rewrite Ed.
  replace (Z.to_nat (20 + zlen opts - 20)) with (length opts) by lia. rewrite take_app_length. replace (20 + zlen opts - 20) with (zlen opts) by lia.
  assert (Ep : TcpParseOptions opts (zlen opts) = Ok (true, seg_mss g)) by (rewrite (sg_mss g Hg); unfold opts, syn_opts; by destruct (has (seg_flags g) TCP_SYN)).
  rewrite Ep. unfold bind, outcome. simpl th_src_port. simpl th_dst_port. rewrite !htons_htons by done.
  assert (Edp : drop (Z.to_nat (20 + zlen opts)) sb = payload g).
  { replace (Z.to_nat (20 + zlen opts)) with (20 + length opts)%nat by lia. rewrite <- drop_drop, Ed. apply drop_app_length. }
  rewrite Edp. simpl. rewrite !htonl_htonl by apply Hg. rewrite htons_htons by apply Hg. by destruct g.
Qed.

Lemma IpRx_packet src dst proto seg p pad from r :
  ip_packet src dst proto seg p → 20 + Z.of_nat (length seg) ≤ 65535 → u32 src → u32 dst → dst = ip (netif r) ∨ dst = BROADCAST_IP →
  IpRx (p ++ pad) (Z.of_nat (length (p ++ pad))) from r =
    (ArpLearn src from ;;
     if proto =? IP_PROTO_ICMP then IcmpRx (seg ++ pad) (Z.of_nat (length seg)) src
     else if proto =? IP_PROTO_UDP then UdpRecv (seg ++ pad) (Z.of_nat (length seg)) src dst
     else if proto =? IP_PROTO_TCP then TcpRx src dst (seg ++ pad) (Z.of_nat (length seg)) else ret tt) r.
Proof.
  intros (id & c & Hid & Hc & -> & Hck) Hl Hs Hd Hip. unfold IpRx. set (hdr := ip_hdr src dst proto (zlen seg) id c) in *. set (hb := IpHeader_bytes hdr) in *.
  rewrite !length_app. change (length hb) with 20%nat. rewrite (proj2 (Z.ltb_ge _ 20)) by lia. rewrite <- (assoc_L (++)), run_load by (rewrite length_app; change (length hb) with 20%nat; lia).
  assert (Et : take (Z.to_nat 20) (hb ++ seg ++ pad) = hb) by by apply take_app_length'. rewrite Et.
  assert (Eh : IpHeader_of hb = hdr). { rewrite <- (app_nil_r hb). apply IpHeader_of_bytes; simpl; try apply htons_u16; done. }
  rewrite Eh. cbn [version_ihl hdr ip_hdr]. change (negb (Z.land 0x45 0xF0 =? 0x40)) with false. cbv iota. change (w8 (Z.land 0x45 0x0F * 4)) with 20.
  cbn [total_length hdr ip_hdr]. rewrite htons_htons by (unfold u16; lia). rewrite (proj2 (Z.ltb_ge _ 20)), (proj2 (Z.ltb_ge (20 + zlen seg) 20)), (proj2 (Z.ltb_ge _ (20 + zlen seg))) by lia. cbn [orb].
  rewrite run_load by (rewrite length_app; change (length hb) with 20%nat; lia). rewrite Et. erewrite run_finish by exact Hck. rewrite run_gets. change (truthy 0) with false. cbn [orb dst_ip src_ip hdr ip_hdr].
  assert (Ei : negb (dst =? ip (netif r)) && negb (dst =? BROADCAST_IP) = false) by (destruct Hip as [<-| ->]; rewrite ?Z.eqb_refl; [done|apply andb_false_r]). rewrite Ei.
  unfold bind. destruct (ArpLearn src from r) as [[[] r']| |]; [|done|done]. cbn [flags_fragment_offset hdr ip_hdr protocol].
  assert (Ef : truthy (Z.land (htons (htons IP_FLAG_DF)) IP_FLAG_MF) || truthy (Z.land (htons (htons IP_FLAG_DF)) 0x1FFF) = false) by done. rewrite Ef.
  assert (Edp : drop (Z.to_nat 20) (hb ++ seg ++ pad) = seg ++ pad) by by apply drop_app_length'. rewrite Edp. replace (20 + zlen seg - 20) with (zlen seg) by lia. done.
Qed.

Lemma EthRx_ip (m n p : list Z) r :
  length m = 6%nat → length n = 6%nat → 20 ≤ Z.of_nat (length p) →
  EthRx (EthHdr_bytes (MkEthHdr m n (htons ETH_TYPE_IP)) ++ p) (14 + Z.of_nat (length p)) r = (IpRx p (Z.of_nat (length p)) n ;; ret ZUZU_OK) r.
Proof.
  intros Hm Hn Hp. pose proof (EthHdr_length m n (htons ETH_TYPE_IP) Hm Hn) as Hh. unfold EthRx. rewrite (proj2 (Z.ltb_ge _ 14)) by lia.
  rewrite run_load by (rewrite length_app; lia). rewrite take_app_length' by (rewrite Hh; done). rewrite <- (app_nil_r (EthHdr_bytes _)), EthHdr_of_bytes by (try done; apply htons_u16).
  cbn [ethertype src_mac]. rewrite htons_htons by (unfold u16, ETH_TYPE_IP; lia). change (ETH_TYPE_IP =? ETH_TYPE_ARP) with false. cbv iota. rewrite Z.eqb_refl. rewrite (proj2 (Z.ltb_ge _ (14 + 20))) by lia.
  rewrite app_nil_r, drop_app_length' by (rewrite Hh; done). by replace (14 + zlen p - 14) with (zlen p) by lia.
Qed.

(** A frame with a datagram in it, padded by the link. *)
Lemma EthRx_packet (m n : list Z) src dst proto seg p pad r :
  length m = 6%nat → length n = 6%nat → ip_packet src dst proto seg p → 20 + Z.of_nat (length seg) ≤ 65535 → u32 src → u32 dst → dst = ip (netif r) ∨ dst = BROADCAST_IP →
  let fr := (EthHdr_bytes (MkEthHdr m n (htons ETH_TYPE_IP)) ++ p) ++ pad in
  EthRx fr (Z.of_nat (length fr)) r =
    ((ArpLearn src n ;;
      if proto =? IP_PROTO_ICMP then IcmpRx (seg ++ pad) (Z.of_nat (length seg)) src
      else if proto =? IP_PROTO_UDP then UdpRecv (seg ++ pad) (Z.of_nat (length seg)) src dst
      else if proto =? IP_PROTO_TCP then TcpRx src dst (seg ++ pad) (Z.of_nat (length seg)) else ret tt) ;; ret ZUZU_OK) r.
Proof.
  intros Hm Hn Hp Hl Hs Hd Hip fr. unfold fr. rewrite <- (assoc_L (++)), length_app, EthHdr_length, Nat2Z.inj_add by done. change (Z.of_nat 14) with 14.
  assert (Hlp : (20 ≤ length p)%nat) by (destruct Hp as (id & c & _ & _ & -> & _); rewrite length_app; change (length (IpHeader_bytes _)) with 20%nat; lia).
  rewrite EthRx_ip by (rewrite ?length_app; first [done|lia]). unfold bind at 1 2. by rewrite (IpRx_packet src dst proto seg p pad _ r).
Qed.
Lemma UdpRecv_bytes src dst sp dp data c pad i h r :
  Z.of_nat (length data) ≤ UDP_MAX_PAYLOAD → u16 sp → u16 dp → u16 c → c ≠ 0 → UdpChecksum src dst (udp_bytes sp dp data c) = Some 0 →
  list_find (bound_to dp) (udp_table r) = Some (i, MkUdpEntry dp (Some h)) →
  UdpRecv (udp_bytes sp dp data c ++ pad) (Z.of_nat (length (udp_bytes sp dp data c))) src dst r = on_udp h src sp dp data r.
Proof.
  intros Hl Hsp Hdp Hc Hnz Hck Hfind. unfold UDP_MAX_PAYLOAD, NIC_MTU in Hl. unfold UdpRecv. set (ub := udp_bytes sp dp data c) in *. assert (Hub : length ub = (8 + length data)%nat) by done.
  rewrite (proj2 (Z.ltb_ge _ 8)) by lia. rewrite run_load by (rewrite length_app; lia).
  assert (Eh : UdpHeader_of (take (Z.to_nat 8) (ub ++ pad)) = udp_hdr sp dp (zlen data) c).
  { change (take (Z.to_nat 8) (ub ++ pad)) with (UdpHeader_bytes (udp_hdr sp dp (zlen data) c) ++ []). apply UdpHeader_of_bytes; simpl; try apply htons_u16; done. }
  rewrite Eh. cbn [udp_hdr u_length u_checksum u_dst_port u_src_port]. rewrite htons_htons by (unfold u16; lia).
  rewrite (proj2 (Z.ltb_ge (8 + zlen data) 8)), (proj2 (Z.ltb_ge (zlen ub) (8 + zlen data))) by lia. cbn [orb]. rewrite run_load by (rewrite length_app; lia).
  replace (Z.to_nat (8 + zlen data)) with (length ub) by lia. rewrite take_app_length. unfold truthy at 1. rewrite (proj2 (Z.eqb_neq c 0)) by done. cbn [negb]. erewrite run_finish by exact Hck.
  change (truthy 0) with false. cbv iota. rewrite !htons_htons by done. rewrite run_gets, Hfind. by change (drop 8 ub) with data.
Qed.
End receive.

(** * Packets that waited for a hardware address *)

Section waiting.
Context {A : Type}.
Implicit Type s : nst A.

(** One more frame: the slots before it keep theirs. *)
Definition one_sent s s' fr : Prop :=
  sent s s' fr ∧ (∀ j, j ≠ p_head (tx_ring s) → slots (tx_ring s') j = slots (tx_ring s) j) ∧ p_tail (tx_ring s') = p_tail (tx_ring s) ∧ netif s' = netif s ∧
  arp_table s' = arp_table s ∧ live s' = live s ∧ ring_ok (tx_ring s').
Lemma EthTx_sends s m ethertype p :
  ring_ok (tx_ring s) → length (mac (netif s)) = 6%nat → length m = 6%nat → 14 + Z.of_nat (length p) ≤ 1536 → is_Some (PacketRingReserve (tx_ring s)) →
  wp (EthTx m ethertype p) (λ _ s', one_sent s s' (eth_frame m s ethertype p)) s.
Proof.
  intros Hr Hn Hm Hl [i Hi]. unfold EthTx. rewrite (proj2 (Z.ltb_ge NIC_FRAME_SIZE _)) by done. wp_steps. rewrite Hi. pose proof Hi as Hi'. unfold PacketRingReserve in Hi'. destruct (_ =? _); [done|]. injection Hi' as <-.
  set (h := p_head (tx_ring s)) in *. wp_steps. pose proof (EthHdr_length m (mac (netif s)) (htons ethertype) Hm Hn) as Hh. set (eh := EthHdr_bytes _) in *.
  unfold slot_write. rewrite Hh. change (0 <=? 0) with true. change (0 + Z.of_nat 14 <=? NIC_FRAME_SIZE) with true. cbn [andb]. unfold slot_frame, put_slot. wp_steps.
  rewrite (proj2 (Z.leb_le (14 + zlen p) NIC_FRAME_SIZE)) by done. change (0 <=? 14) with true. cbn [andb]. wp_steps. simpl. rewrite Z.eqb_refl. cbn [f_data f_len].
  unfold slot_len, slot_frame, put_slot, commit. wp_steps. simpl. rewrite Z.eqb_refl. cbn [f_data]. destruct Hr as [Hhd Hr].
  set (fr := Frame (14 + zlen p) (overwrite (overwrite (f_data (slots (tx_ring s) h)) 0 eh) 14 p)).
  assert (Hfr : take (Z.to_nat (f_len fr)) (f_data fr) = eth_frame m s ethertype p).
  { unfold fr. cbn [f_len f_data]. change (Z.to_nat 0) with 0%nat. rewrite overwrite_append by (rewrite ?Hr, ?Hh; lia). fold (eth_frame m s ethertype p) in eh.
    pose proof (overwrite_read (f_data (slots (tx_ring s) h)) 0 (eh ++ p) ltac:(lia)) as R. rewrite drop_0, length_app, Hh in R. replace (Z.to_nat (14 + zlen p)) with (14 + length p)%nat by lia. exact R. }
  assert (Hlen : length (f_data fr) = 1536%nat) by (unfold fr; cbn [f_data]; rewrite !length_overwrite; rewrite ?length_overwrite; rewrite ?Hr; lia).
  match goal with |- wp Signal _ (set_tx_ring ?r _) => set (r' := r) end.
  assert (Hone : ∀ s', tx_ring s' = r' → netif s' = netif s → arp_table s' = arp_table s → live s' = live s → one_sent s s' (eth_frame m s ethertype p)).
  { intros s' Er En Ea El.
    assert (Hok : ring_ok r').
    { split; [apply Z.mod_pos_bound; lia|]. intros j. unfold r'. simpl. destruct (j =? h); [exact Hlen|apply Hr]. }
    unfold one_sent. rewrite Er. split; [|split; [|by split_and!]].
    - unfold sent, committed_frame. rewrite Er. unfold r'. simpl. rewrite Z.eqb_refl. split; [done|exact Hfr].
    - intros j Hj. unfold r'. simpl. fold h in Hj. by rewrite (proj2 (Z.eqb_neq j h) Hj). }
  unfold wp, Signal. simpl. destruct (signal_results s); by apply Hone.
Qed.

(** Room for [n] more frames. *)
Definition room (r : NicRing) : Z := (p_tail r - p_head r - 1) mod 16.
Lemma room_reserve r : 0 ≤ p_head r < 16 → 0 ≤ p_tail r < 16 → 0 < room r → is_Some (PacketRingReserve r).
Proof.
  intros Hh Ht Hr. unfold PacketRingReserve, next_slot, NIC_RING_DEPTH. rewrite w32_small by lia. destruct (Z.eqb_spec ((p_head r + 1) mod 16) (p_tail r)) as [E|]; [|by eexists].
  exfalso. unfold room in Hr. rewrite <- E in Hr. Z.div_mod_to_equations. lia.
Qed.
Lemma next_slot_room r r' : 0 ≤ p_head r < 16 → 0 ≤ p_tail r < 16 → 0 < room r → p_head r' = next_slot (p_head r) → p_tail r' = p_tail r → room r' = room r - 1.
Proof.
  intros Hh Ht Hr E1 E2. unfold room in *. rewrite E1, E2. unfold next_slot, NIC_RING_DEPTH in *. rewrite w32_small by lia. Z.div_mod_to_equations. lia.
Qed.
(** The frames of a flushed queue are in the ring, in order. *)
Definition frames_at s (h : Z) (l : list (list Z)) : Prop := ∀ j fr, l !! j = Some fr → committed_frame s ((h + Z.of_nat j) mod 16) = fr.
Lemma flush_queue_sends m q : length m = 6%nat → ∀ s,
  ring_ok (tx_ring s) → 0 ≤ p_tail (tx_ring s) < 16 → length (mac (netif s)) = 6%nat → Forall (λ p, Z.of_nat (length (pd_data p)) ≤ NIC_MTU) q → Z.of_nat (length q) ≤ room (tx_ring s) →
  wp (flush_queue m q)
    (λ _ s', frames_at s' (p_head (tx_ring s)) ((λ p, eth_frame m s (pd_ethertype p) (pd_data p)) <$> q) ∧
       p_head (tx_ring s') = (p_head (tx_ring s) + Z.of_nat (length q)) mod 16 ∧
       (∀ j, 0 ≤ j < 16 - Z.of_nat (length q) → slots (tx_ring s') ((p_head (tx_ring s) - 1 - j) mod 16) = slots (tx_ring s) ((p_head (tx_ring s) - 1 - j) mod 16)) ∧
       live s' = live s - Z.of_nat (length q) ∧ arp_table s' = arp_table s) s.
Proof.
  intros Hm. induction q as [|p q IH]; intros s Hr Ht Hn Hq Hroom; cbn [flush_queue foldr].
  - apply wp_ret. split_and!; [by intros j fr|rewrite Z.add_0_r, Z.mod_small; [done|apply Hr]|done|simpl; lia|done].
  - apply Forall_cons in Hq as [Hp Hq]. unfold NIC_MTU in Hp. cbn [length] in Hroom. apply wp_bind. pose proof (proj1 Hr) as Hh.
    eapply wp_mono; [apply EthTx_sends; try done; [lia|apply room_reserve; (done || lia)]|].
    cbv beta. intros _ s1 ((Hh1 & Hfr) & Hother & Et & En & Ea & El & Hr1). unfold free. wp_steps.
    pose proof (next_slot_room (tx_ring s) (tx_ring s1) Hh Ht ltac:(lia) Hh1 Et) as Hroom1.
    assert (Hh1' : p_head (tx_ring s1) = (p_head (tx_ring s) + 1) mod 16) by (rewrite Hh1; unfold next_slot, NIC_RING_DEPTH; by rewrite w32_small by lia).
    eapply wp_mono; [apply IH; simpl; [done|by rewrite Et|by rewrite En|done|lia]|]. cbv beta. simpl. intros _ s2 (Hf2 & Hh2 & Ho2 & El2 & Ea2).
    set (h := p_head (tx_ring s)) in *. rewrite Hh1' in *.
    assert (Hback : ∀ j, 0 ≤ j → ((h + 1) mod 16 - 1 - j) mod 16 = (h - j) mod 16) by (intros j Hj; Z.div_mod_to_equations; lia).
    split_and!; [| | |lia|congruence].
    + intros [|j] fr Hj.
      * apply (inj Some) in Hj. subst fr. rewrite <- Hfr. unfold committed_frame. replace ((h + Z.of_nat 0) mod 16) with h by (rewrite Z.add_0_r, Z.mod_small; lia).
        pose proof (Ho2 0 ltac:(unfold room in Hroom; pose proof (Z.mod_pos_bound (p_tail (tx_ring s) - p_head (tx_ring s) - 1) 16); lia)) as E.
        rewrite Hback, Z.sub_0_r, Z.mod_small in E by lia. by rewrite E.
      * rewrite <- (Hf2 j fr). { f_equal. Z.div_mod_to_equations. lia. }
        etrans; [|exact Hj]. apply (f_equal (λ l : list (list Z), l !! j)). apply list_fmap_ext. intros _ x _. unfold eth_frame. simpl. by rewrite En.
    + rewrite Hh2. cbn [length]. Z.div_mod_to_equations. lia.
    + intros j Hj. cbn [length] in Hj. replace ((h - 1 - j) mod 16) with ((h - (j + 1)) mod 16) by (f_equal; lia). rewrite <- Hback, Ho2 by lia. apply Hother. rewrite Hback by lia. Z.div_mod_to_equations. lia.
Qed.

Lemma ArpFind_unique (t : list ArpEntry) i e : one_per_ip t → t !! i = Some e → e_state e ≠ ARP_FREE → ArpFind t (e_ip e) = Some i.
Proof.
  intros Hu Hi Hf. unfold ArpFind. assert (E : list_find (λ e0, e_state e0 ≠ ARP_FREE ∧ e_ip e0 = e_ip e) t = Some (i, e)); [|by rewrite E].
  apply list_find_Some. split_and!; [done|done|done|]. intros j y Hj Hlt [Hy Ey]. assert (j = i) by by eapply Hu. lia.
Qed.
Lemma ArpFind_at (t : list ArpEntry) ip i : ArpFind t ip = Some i → ∃ e, t !! i = Some e ∧ e_ip e = ip ∧ e_state e ≠ ARP_FREE.
Proof. unfold ArpFind. intros ([i' e] & Hf & ->)%fmap_Some. apply list_find_Some in Hf as (Hi & [H1 H2] & _). by exists e. Qed.
End waiting.

(** * The wire *)

(** C9: a segment that [TcpOutput] hands to a connection's frame is committed to the transmit ring, and the machine it is
    addressed to passes to [TcpDispatch] exactly this segment, its ports and its addresses, whatever padding follows the
    frame, after learning the sender's hardware address. *)
Theorem tcp_wire {A B} `{Upper B} (s : nst A) lip lp rip rp g m :
  wf 0 s → is_Some (PacketRingReserve (tx_ring s)) → segment_ok g → u32 lip → u32 rip → u16 lp → u16 rp → lip ≠ 0 →
  reachable s (next_hop (netif s) rip) m → length m = 6%nat →
  wp (TcpFrame lip lp rip rp g)
    (λ rc s', rc = ZUZU_OK ∧ p_head (tx_ring s') = next_slot (p_head (tx_ring s)) ∧
       ∀ (r : nst B) pad, ip (netif r) = rip →
         let fr := committed_frame s' (p_head (tx_ring s)) ++ pad in
         EthRx fr (Z.of_nat (length fr)) r = ((ArpLearn lip (mac (netif s)) ;; on_tcp lip rip lp rp g) ;; ret ZUZU_OK) r) s.
Proof.
  intros Hs Hroom Hg Hlip Hrip Hlp Hrp Hnz Hr Hm. eapply wp_mono; [by apply (TcpFrame_sends s lip lp rip rp g m); try done; right|].
  cbv beta. intros rc s' (-> & c & p & Hck & Hp & Hhead & Hfr). split_and!; [done|done|]. intros r pad Hip fr. unfold fr. rewrite Hfr.
  pose proof (tcp_bytes_length lp rp g (htons c)) as Hlen. pose proof (sg_size g Hg) as Hsz. unfold NIC_MTU, payload_len in Hsz.
  rewrite (EthRx_packet m (mac (netif s)) lip rip IP_PROTO_TCP (tcp_bytes lp rp g (htons c)) p pad r); [|done|apply Hs|done|lia|done|done|by left]. unfold bind.
  destruct (ArpLearn lip (mac (netif s)) r) as [[[] r']| |]; [|done|done]. change (IP_PROTO_TCP =? IP_PROTO_ICMP) with false. change (IP_PROTO_TCP =? IP_PROTO_UDP) with false. change (IP_PROTO_TCP =? IP_PROTO_TCP) with true. cbv iota. by rewrite TcpRx_bytes.
Qed.

(** C26: a datagram that [UdpSend] takes is committed to the transmit ring, and the machine it is addressed to calls the
    handler bound to its port with the same bytes, ports and source address. *)
Theorem udp_wire {A B} `{Upper B} (s : nst A) dst sp dp data m :
  wf 0 s → is_Some (PacketRingReserve (tx_ring s)) → Forall is_byte data → Z.of_nat (length data) ≤ UDP_MAX_PAYLOAD →
  u32 (ip (netif s)) → u32 dst → u16 sp → u16 dp → dst = BROADCAST_IP ∨ ip (netif s) ≠ 0 → reachable s (next_hop (netif s) dst) m → length m = 6%nat →
  wp (UdpSend dst sp dp data)
    (λ rc s', rc = ZUZU_OK ∧ p_head (tx_ring s') = next_slot (p_head (tx_ring s)) ∧
       ∀ (r : nst B) pad i h, wf 0 r → dst = ip (netif r) ∨ dst = BROADCAST_IP → list_find (bound_to dp) (udp_table r) = Some (i, MkUdpEntry dp (Some h)) →
         let fr := committed_frame s' (p_head (tx_ring s)) ++ pad in
         EthRx fr (Z.of_nat (length fr)) r = ((ArpLearn (ip (netif s)) (mac (netif s)) ;; on_udp h (ip (netif s)) sp dp data) ;; ret ZUZU_OK) r) s.
Proof.
  intros Hs Hroom Hb Hl Hsrc Hdst Hsp Hdp Hnz Hr Hm. eapply wp_mono; [by apply (UdpSend_sends s dst sp dp data m)|].
  cbv beta. intros rc s' (-> & c & p & Hc & Hc0 & Hck & Hp & Hhead & Hfr). split_and!; [done|done|]. intros r pad i h Hwf Hip Hfind fr. unfold fr. rewrite Hfr.
  assert (Hlen : length (udp_bytes sp dp data c) = (8 + length data)%nat) by done. pose proof Hl as Hl'. unfold UDP_MAX_PAYLOAD, NIC_MTU in Hl'.
  rewrite (EthRx_packet m (mac (netif s)) (ip (netif s)) dst IP_PROTO_UDP (udp_bytes sp dp data c) p pad r); [|done|apply Hs|done|lia|done|done|done]. unfold bind.
  pose proof (ArpLearn_safe (ip (netif s)) (mac (netif s)) (wf_mac _ _ Hs) 0 r Hwf) as HL. unfold wp in HL.
  destruct (ArpLearn (ip (netif s)) (mac (netif s)) r) as [[[] r']| |]; [|done|done]. destruct HL as [_ (_ & _ & Et & _)].
  change (IP_PROTO_UDP =? IP_PROTO_ICMP) with false. cbv iota. change (IP_PROTO_UDP =? IP_PROTO_UDP) with true. cbv iota. rewrite (UdpRecv_bytes _ dst sp dp data c pad i h r'); try done. by rewrite Et.
Qed.


(** C29: a TCP segment that checks is dropped, with the state as it was, when any one of its bytes is changed on the way. *)
Theorem tcp_corruption_dropped {A} `{Upper A} (r : nst A) src dst seg i x y pad :
  Forall is_byte seg → Z.of_nat (length seg) ≤ 65535 → TcpChecksum src dst seg = Some 0 → seg !! i = Some y → is_byte x → x ≠ y →
  TcpRx src dst (<[i := x]> seg ++ pad) (Z.of_nat (length seg)) r = Ok (tt, r).
Proof.
  intros Hb Hl Hck Hi Hx Hne. destruct (PseudoChecksum_detects IP_PROTO_TCP src dst seg i x y) as (c & Ec & Hc); try done.
  unfold TcpRx. case_if E; [done|]. rewrite run_load by (rewrite length_app, length_insert; lia). rewrite Nat2Z.id, <- (length_insert seg i x), take_app_length.
  erewrite run_finish by exact Ec. unfold truthy. by rewrite (proj2 (Z.eqb_neq c 0) Hc).
Qed.

Module WireDemo.
(** Two machines, 10.0.0.1 and 10.0.0.2 (addresses as loaded from memory), that know each other's hardware address; the code
    above keeps the segments and datagrams it is given. *)
Definition logging := (list TcpSegment * list (list Z))%type.
#[export] Instance upper : Upper logging := {
  on_udp h src sp dp data := modify (λ s, set_app (fst (app s), snd (app s) ++ [data]) s);
  on_acd cb c := ret tt;
  on_tcp src dst sp dp g := modify (λ s, set_app (fst (app s) ++ [g], snd (app s)) s) }.
Definition ip1 : Z := 0x0100000A.
Definition ip2 : Z := 0x0200000A.
Definition mac1 : list Z := [2; 0; 0; 0; 0; 1].
Definition mac2 : list Z := [2; 0; 0; 0; 0; 2].
Definition ring0 : NicRing := PacketRing (λ _, Frame 0 (replicate 1536 0)) 0 0.
Definition machine (my_ip : Z) (my_mac : list Z) (e : ArpEntry) : nst logging :=
  Nst ring0 (MkNetif my_ip 0x00FFFFFF 0 0 my_mac) 0 (e :: replicate 63 arp_zero) (MkAcd false 0 0 0 None)
    (MkUdpEntry 7 (Some 1) :: replicate 63 (MkUdpEntry 0 None)) (MkRateLimiter 0 0) (MkRateLimiter 0 0) 5 [] (Z.of_nat (length (queue e))) [] ([], []).
Definition neighbour2 : ArpEntry := MkArpEntry ip2 mac2 ARP_REACHABLE 0 0 100 [].
Definition waiting2 : ArpEntry := MkArpEntry ip2 (replicate 6 0) ARP_INCOMPLETE 1 0 0 [MkPending [1; 2; 3] ETH_TYPE_IP; MkPending [4] ETH_TYPE_IP].
Definition machine1 := machine ip1 mac1 neighbour2.
Definition machine2 := machine ip2 mac2 arp_zero.

Lemma machine_wf my_ip my_mac e : length my_mac = 6%nat → entry_ok e → wf 0 (machine my_ip my_mac e).
Proof.
  intros Hm He. split; try done.
  - split; [done|constructor; [done|]; apply Forall_replicate, arp_zero_ok|]. intros i j a b Ha Hb Fa Fb _.
    assert (Hz : ∀ i a, (e :: replicate 63 arp_zero) !! i = Some a → e_state a ≠ ARP_FREE → i = 0%nat).
    { intros [|n] x Hx Fx; [done|]. change (replicate 63 arp_zero !! n = Some x) in Hx. apply lookup_replicate in Hx as [-> _]. by destruct Fx. }
    by rewrite (Hz i a), (Hz j b).
  - change (Z.of_nat (length (queue e)) = Z.of_nat (length (queue e)) + 0 + 0). lia.
  - split; [done|]. intros p i j a b Ha Hb [_ Fa] [_ Fb].
    assert (Hz : ∀ i a, (MkUdpEntry 7 (Some 1) :: replicate 63 (MkUdpEntry 0 None)) !! i = Some a → ut_handler a ≠ None → i = 0%nat).
    { intros [|n] x Hx Fx; [done|]. change (replicate 63 (MkUdpEntry 0 None) !! n = Some x) in Hx. apply lookup_replicate in Hx as [-> _]. by destruct Fx. }
    by rewrite (Hz i a), (Hz j b).
Qed.
Lemma neighbour_ok : entry_ok neighbour2.
Proof. split; [done|simpl; lia|done|constructor]. Qed.
Lemma waiting_ok : entry_ok waiting2.
Proof. split; [done|simpl; lia|done|]. repeat constructor; unfold NIC_MTU; simpl; lia. Qed.
Lemma machine1_wf : wf 0 machine1.
Proof. by apply machine_wf, neighbour_ok. Qed.
Lemma hop2 : reachable machine1 (next_hop (netif machine1) ip2) mac2.
Proof. right. split; [done|]. by exists 0%nat, neighbour2. Qed.

(** A SYN and a data segment. *)
Definition seg : TcpSegment := Segment 1000 2000 (Z.lor TCP_ACK TCP_FIN) [104; 105] 4096 None.
Lemma seg_fine : segment_ok seg.
Proof. split; try done; try (unfold u32, u16, is_byte; simpl; lia). repeat constructor; lia. Qed.

Lemma tcp_wire_witness :
  wp (TcpFrame ip1 40000 ip2 80 seg)
    (λ rc s', rc = ZUZU_OK ∧ p_head (tx_ring s') = next_slot (p_head (tx_ring machine1)) ∧
       ∀ (r : nst logging) pad, ip (netif r) = ip2 →
         let fr := committed_frame s' (p_head (tx_ring machine1)) ++ pad in
         EthRx fr (Z.of_nat (length fr)) r = ((ArpLearn ip1 (mac (netif machine1)) ;; on_tcp ip1 ip2 40000 80 seg) ;; ret ZUZU_OK) r) machine1.
Proof. apply (tcp_wire machine1 ip1 40000 ip2 80 seg mac2); [apply machine1_wf|by eexists|apply seg_fine|unfold u32, ip1; lia|unfold u32, ip2; lia|unfold u16; lia|unfold u16; lia|done|apply hop2|done]. Defined.
Lemma udp_wire_witness :
  wp (UdpSend ip2 9 7 [1; 2; 3])
    (λ rc s', rc = ZUZU_OK ∧ p_head (tx_ring s') = next_slot (p_head (tx_ring machine1)) ∧
       ∀ (r : nst logging) pad i h, wf 0 r → ip2 = ip (netif r) ∨ ip2 = BROADCAST_IP → list_find (bound_to 7) (udp_table r) = Some (i, MkUdpEntry 7 (Some h)) →
         let fr := committed_frame s' (p_head (tx_ring machine1)) ++ pad in
         EthRx fr (Z.of_nat (length fr)) r = ((ArpLearn ip1 mac1 ;; on_udp h ip1 9 7 [1; 2; 3]) ;; ret ZUZU_OK) r) machine1.
Proof.
  apply (udp_wire machine1 ip2 9 7 [1; 2; 3] mac2); [apply machine1_wf|by eexists|repeat constructor; lia|unfold UDP_MAX_PAYLOAD, NIC_MTU; simpl; lia|unfold u32; simpl; unfold ip1; lia|unfold u32, ip2; lia|unfold u16; lia|unfold u16; lia|by right|apply hop2|done].
Defined.
(** A segment as it is on the wire, and the same with its flags changed. *)
Definition wire_seg : list Z := tcp_bytes 40000 80 seg (htons (default 0 (TcpChecksum ip1 ip2 (tcp_bytes 40000 80 seg 0)))).
Lemma tcp_corruption_dropped_witness : TcpRx ip1 ip2 (<[13%nat := 20]> wire_seg ++ []) (Z.of_nat (length wire_seg)) machine2 = Ok (tt, machine2).
Proof. apply (tcp_corruption_dropped machine2 ip1 ip2 wire_seg 13 20 17 []); [|done|by vm_compute|done|done|done]. vm_compute. repeat constructor; discriminate. Defined.

(** A datagram to 10.0.0.7 whose header length field says 16 bytes: its destination address is read as UDP ports as well. *)
Definition machine7 := machine 0x0700000A mac2 arp_zero.
Definition short_header : list Z :=
  mac2 ++ mac1 ++ [8; 0] ++ [0x44; 0; 0; 25; 0; 0; 0; 0; 64; 17; 0x71; 0xD4; 10; 0; 0; 1; 10; 0; 0; 7] ++ [0; 9; 0; 0; 0xAA].

(** A frame of the receive ring whose length field exceeds the slot. *)
Definition long_header : list Z := IpHeader_bytes (MkIpHeader 0x45 0 (htons 1986) 0 0 64 IP_PROTO_TCP 0 ip1 ip2).
Definition long_packet : list Z :=
  IpHeader_bytes (MkIpHeader 0x45 0 (htons 1986) 0 0 64 IP_PROTO_TCP (htons (default 0 (InetChecksum long_header))) ip1 ip2).
Definition long_frame : NicFrame := Frame 2000 (EthHdr_bytes (MkEthHdr mac2 mac1 (htons ETH_TYPE_IP)) ++ long_packet ++ replicate 1502 0).
(** The loop of [main] hands the length field of a received slot on unchecked, so a length above the size of a slot makes
    the checksum read past the slot. *)
Theorem rx_length_unchecked : Z.of_nat (length (f_data long_frame)) = NIC_FRAME_SIZE ∧ rx_frame long_frame machine2 = Panic.
Proof. by vm_compute. Qed.
End WireDemo.
