(* ===== verification/Port.v ===== *)
(** The allocator of local ports, user/services/netd/transport/port.c: a table of the ports in use and a cursor that
    rotates through the ephemeral range.  The theorems show that a port handed out is free and in the range, that an
    allocation succeeds exactly when the table has room, and that a port is held until it is released. *)
From S2P Require Import Prelude.

#[local] Open Scope Z_scope.

Definition PORT_MAX_HELD : Z := 64.
Definition PORT_EPHEMERAL_MIN : Z := 49152.
Definition PORT_EPHEMERAL_MAX : Z := 65535.

(** [held] has [PORT_MAX_HELD] elements, 0 for a free one. *)
Record ports := Ports { held : list Z; next_ephemeral : Z }.

Definition PortInit : ports := Ports (replicate (Z.to_nat PORT_MAX_HELD) 0) PORT_EPHEMERAL_MIN.
Definition IsHeld (p : ports) (port : Z) : bool := bool_decide (port ∈ held p).
(** The first free element takes the port. *)
Fixpoint hold_in (l : list Z) (port : Z) : option (list Z) :=
  match l with
  | [] => None
  | h :: l' => if h =? 0 then Some (port :: l') else (cons h) <$> hold_in l' port
  end.
Definition hold (p : ports) (port : Z) : option ports := (λ l, Ports l (next_ephemeral p)) <$> hold_in (held p) port.
Definition PortReserve (p : ports) (port : Z) : bool * ports :=
  if (port =? 0) || IsHeld p port then (false, p) else
  match hold p port with Some p' => (true, p') | None => (false, p) end.

(** The cursor after [port]. *)
Definition port_after (port : Z) : Z := if port =? PORT_EPHEMERAL_MAX then PORT_EPHEMERAL_MIN else w16 (port + 1).
Fixpoint port_search (n : nat) (p : ports) : Z * ports :=
  match n with
  | O => (0, p)
  | S n' =>
      let port := next_ephemeral p in
      let p := Ports (held p) (port_after port) in
      if negb (IsHeld p port) then match hold p port with Some p' => (port, p') | None => port_search n' p end else port_search n' p
  end.
Definition PortAlloc (p : ports) : Z * ports := port_search (Z.to_nat (PORT_EPHEMERAL_MAX - PORT_EPHEMERAL_MIN + 1)) p.

Fixpoint release_in (l : list Z) (port : Z) : list Z :=
  match l with [] => [] | h :: l' => if h =? port then 0 :: l' else h :: release_in l' port end.
Definition PortRelease (p : ports) (port : Z) : ports := Ports (release_in (held p) port) (next_ephemeral p).

(** * The invariant *)

(** Every port is held once. *)
Definition once (l : list Z) : Prop := ∀ i j x, l !! i = Some x → l !! j = Some x → x ≠ 0 → i = j.
Record ports_ok (p : ports) : Prop := {
  po_len : length (held p) = 64%nat;
  po_cursor : PORT_EPHEMERAL_MIN ≤ next_ephemeral p ≤ PORT_EPHEMERAL_MAX;
  po_once : once (held p) }.

Lemma hold_in_spec l port l' : hold_in l port = Some l' → ∃ i, l !! i = Some 0 ∧ l' = <[i := port]> l.
Proof.
  revert l'. induction l as [|h l IH]; intros l'; cbn [hold_in]; [done|]. destruct (Z.eqb_spec h 0) as [->|].
  - intros [= <-]. by exists 0%nat.
  - intros (l1 & Hl & ->)%fmap_Some. destruct (IH _ Hl) as (i & Hi & ->). by exists (S i).
Qed.
Lemma hold_in_some l port : 0 ∈ l → is_Some (hold_in l port).
Proof.
  induction l as [|h l IH]; cbn [hold_in]; [by intros []%elem_of_nil|]. destruct (Z.eqb_spec h 0); [by eexists|]. intros [H|H]%elem_of_cons; [congruence|].
  destruct (IH H) as [l' ->]. by eexists.
Qed.
Lemma hold_in_none l port : 0 ∉ l → hold_in l port = None.
Proof. intros H. destruct (hold_in l port) as [l'|] eqn:E; [|done]. apply hold_in_spec in E as (i & Hi & _). exfalso. by apply H, list_elem_of_lookup_2 with i. Qed.
Lemma hold_ok p port p' : ports_ok p → port ∉ held p → hold p port = Some p' → ports_ok p' ∧ next_ephemeral p' = next_ephemeral p ∧ ∃ i, held p !! i = Some 0 ∧ held p' = <[i := port]> (held p).
Proof.
  intros [H1 H2 H3] Hn (l & Hl & ->)%fmap_Some. destruct (hold_in_spec _ _ _ Hl) as (i & Hi & ->). split_and!; [|done|by exists i].
  split; simpl; [by rewrite length_insert|done|]. intros j1 j2 x Ha Hb Hx. rewrite list_lookup_insert_Some in Ha, Hb.
  destruct Ha as [(<- & <- & _)|[N1 Ha]], Hb as [(<- & E & _)|[N2 Hb]]; [done| | |by eapply H3].
  - exfalso. by apply Hn, list_elem_of_lookup_2 with j2.
  - subst x. exfalso. by apply Hn, list_elem_of_lookup_2 with j1.
Qed.
Lemma port_after_range port : PORT_EPHEMERAL_MIN ≤ port ≤ PORT_EPHEMERAL_MAX → PORT_EPHEMERAL_MIN ≤ port_after port ≤ PORT_EPHEMERAL_MAX.
Proof. unfold port_after, PORT_EPHEMERAL_MIN, PORT_EPHEMERAL_MAX. intros H. case_if E; [lia|]. rewrite w16_small; lia. Qed.

Lemma PortReserve_ok p port : ports_ok p → ports_ok (snd (PortReserve p port)).
Proof.
  intros Hp. unfold PortReserve, IsHeld. destruct (_ || _) eqn:E; [done|]. apply orb_false_iff in E as [_ E]. apply bool_decide_eq_false in E.
  destruct (hold p port) as [p'|] eqn:Eh; [|done]. simpl. by destruct (hold_ok p port p' Hp E Eh).
Qed.

(** The cursor after [k] rounds. *)
Definition cursor (c : Z) (k : nat) : Z := PORT_EPHEMERAL_MIN + (c - PORT_EPHEMERAL_MIN + Z.of_nat k) mod 16384.
Lemma cursor_0 c : PORT_EPHEMERAL_MIN ≤ c ≤ PORT_EPHEMERAL_MAX → cursor c 0 = c.
Proof. unfold cursor, PORT_EPHEMERAL_MIN, PORT_EPHEMERAL_MAX. intros H. rewrite Z.mod_small; lia. Qed.
Lemma cursor_S c k : PORT_EPHEMERAL_MIN ≤ c ≤ PORT_EPHEMERAL_MAX → cursor c (S k) = cursor (port_after c) k.
Proof.
  unfold cursor, port_after, PORT_EPHEMERAL_MIN, PORT_EPHEMERAL_MAX. intros H. destruct (Z.eqb_spec c 65535) as [->|].
  - replace (65535 - 49152 + Z.of_nat (S k)) with (49152 - 49152 + Z.of_nat k + 1 * 16384) by lia. by rewrite Z.mod_add by lia.
  - rewrite w16_small by lia. do 2 f_equal. lia.
Qed.
Lemma cursor_inj c k1 k2 : (k1 < 65)%nat → (k2 < 65)%nat → cursor c k1 = cursor c k2 → k1 = k2.
Proof. unfold cursor. intros H1 H2 E. Z.div_mod_to_equations. lia. Qed.
(** Among 65 ports in a row one is not in a table of 64. *)
Lemma cursor_free l c : length l = 64%nat → ∃ k, (k < 65)%nat ∧ cursor c k ∉ l.
Proof.
  intros Hl. destruct (decide (Forall (λ k, cursor c k ∈ l) (seq 0 65))) as [Hall|Hn].
  - exfalso. rewrite Forall_forall in Hall. assert (Hnd : NoDup (cursor c <$> seq 0 65)).
    { apply NoDup_fmap_2_strong; [|apply NoDup_seq]. intros x y Hx Hy. rewrite !elem_of_seq in *. intros E. apply (cursor_inj c); [lia|lia|done]. }
    assert (Hsub : (cursor c <$> seq 0 65) ⊆+ l) by (apply NoDup_submseteq; [done|]; intros x (k & -> & Hk)%list_elem_of_fmap; by apply Hall).
    apply submseteq_length in Hsub. rewrite length_fmap, length_seq, Hl in Hsub. lia.
  - apply not_Forall_Exists in Hn; [|apply _]. apply Exists_exists in Hn as (k & Hk & Hn). rewrite elem_of_seq in Hk. exists k. split; [lia|done].
Qed.

(** What an allocation that finds [port] does to the table. *)
Definition allocated (p : ports) (port : Z) (p' : ports) : Prop :=
  ports_ok p' ∧ PORT_EPHEMERAL_MIN ≤ port ≤ PORT_EPHEMERAL_MAX ∧ port ∉ held p ∧ ∃ i, held p !! i = Some 0 ∧ held p' = <[i := port]> (held p).
Lemma port_search_finds n : ∀ p, ports_ok p → 0 ∈ held p → (∃ k, (k < n)%nat ∧ cursor (next_ephemeral p) k ∉ held p) →
  ∃ port p', port_search n p = (port, p') ∧ allocated p port p'.
Proof.
  induction n as [|n IH]; intros p Hp H0 (k & Hk & Hn); [lia|]. cbn [port_search]. set (p1 := Ports (held p) (port_after (next_ephemeral p))).
  assert (Hp1 : ports_ok p1) by (destruct Hp; split; [done|by apply port_after_range|done]). unfold IsHeld. destruct (bool_decide_reflect (next_ephemeral p ∈ held p1)) as [Hin|Hout]; cbn [negb].
  - destruct (IH p1 Hp1 H0) as (port & p' & E & Ha); [|by exists port, p']. destruct k as [|k]; [rewrite cursor_0 in Hn by apply Hp; done|].
    exists k. split; [lia|]. by rewrite cursor_S in Hn by apply Hp.
  - destruct (hold_in_some (held p1) (next_ephemeral p) H0) as [l Hl]. assert (Eh : hold p1 (next_ephemeral p) = Some (Ports l (next_ephemeral p1))) by (unfold hold; by rewrite Hl).
    rewrite Eh. destruct (hold_ok p1 (next_ephemeral p) _ Hp1 Hout Eh) as (Hok & _ & i & Hi & Ei). eexists _, _. split; [done|]. split_and!; [done|apply Hp|apply Hp|done|by exists i].
Qed.
Lemma port_search_full n : ∀ p, ports_ok p → 0 ∉ held p → ∃ p', port_search n p = (0, p') ∧ ports_ok p' ∧ held p' = held p.
Proof.
  induction n as [|n IH]; intros p Hp H0; cbn [port_search]; [by exists p|]. set (p1 := Ports (held p) (port_after (next_ephemeral p))).
  assert (Hp1 : ports_ok p1) by (destruct Hp; split; [done|by apply port_after_range|done]). destruct (IH p1 Hp1 H0) as (p' & E & H). exists p'.
  unfold hold. rewrite hold_in_none by done. cbn [fmap option_fmap option_map]. split; [|done]. by destruct (negb _).
Qed.

(** [PortAlloc] hands out an ephemeral port that nobody holds and records it, and returns 0 with the table unchanged
    exactly when the table of held ports is full. *)
Theorem PortAlloc_correct p :
  ports_ok p →
  (0 ∈ held p ∧ ∃ port p', PortAlloc p = (port, p') ∧ allocated p port p') ∨ (0 ∉ held p ∧ ∃ p', PortAlloc p = (0, p') ∧ ports_ok p' ∧ held p' = held p).
Proof.
  intros Hp. unfold PortAlloc. set (n := Z.to_nat _). assert (Hn : (65 ≤ n)%nat) by (unfold n, PORT_EPHEMERAL_MIN, PORT_EPHEMERAL_MAX; lia). clearbody n.
  destruct (decide (0 ∈ held p)) as [H0|H0]; [left|right]; (split; [done|]); [|by apply port_search_full].
  apply port_search_finds; [done|done|]. destruct (cursor_free (held p) (next_ephemeral p) (po_len _ Hp)) as (k & Hk & Hn'). exists k. split; [lia|done].
Qed.
Lemma PortInit_ok : ports_ok PortInit.
Proof.
  split; [done|unfold PORT_EPHEMERAL_MIN, PORT_EPHEMERAL_MAX; simpl; unfold PORT_EPHEMERAL_MIN; lia|]. intros i j x Hi Hj Hx. exfalso. apply Hx.
  unfold PortInit in Hi. simpl in Hi. change (replicate 64 0 !! i = Some x) in Hi. by apply lookup_replicate in Hi as [-> _].
Qed.
Module PortDemo.
Lemma PortAlloc_correct_witness :
  (0 ∈ held PortInit ∧ ∃ port p', PortAlloc PortInit = (port, p') ∧ allocated PortInit port p') ∨ (0 ∉ held PortInit ∧ ∃ p', PortAlloc PortInit = (0, p') ∧ ports_ok p' ∧ held p' = held PortInit).
Proof. apply PortAlloc_correct, PortInit_ok. Defined.
End PortDemo.
