(* ===== verification/Dhcp.v ===== *)
(** The DHCP client of user/services/netd, app/dhcp.c, and what [main.c] runs: the handlers bound to UDP ports, the clients
    above and the steps of the service loop.

    [netd] is the state above the lower half: the client's own variables, the ports in use, how often the network was reported
    up, and the calls that TCP and the sockets make when a packet reaches them, given in advance.  An option value is the list
    of its bytes; the stashed ACK is the list of its [ack_len] bytes. *)
From S2P Require Import Prelude Str Ring Tcp Wire Netd Port.

#[local] Open Scope Z_scope.

(** * app/dhcp.h *)

Definition DHCP_MSG_SIZE : Z := 240.
Definition DHCP_CLIENT_PORT : Z := 68.
Definition DHCP_SERVER_PORT : Z := 67.
Definition DHCP_MAGIC_COOKIE : Z := 0x63825363.
Definition DHCP_HTYPE_ETH : Z := 1.
Definition DHCP_OP_REQUEST : Z := 1.
Definition DHCP_OP_REPLY : Z := 2.
Definition DHCP_DISCOVER : Z := 1.
Definition DHCP_OFFER : Z := 2.
Definition DHCP_REQUEST : Z := 3.
Definition DHCP_DECLINE : Z := 4.
Definition DHCP_ACK : Z := 5.
Definition DHCP_NAK : Z := 6.
Definition DHCP_OPT_SUBNET : Z := 1.
Definition DHCP_OPT_ROUTER : Z := 3.
Definition DHCP_OPT_DNS : Z := 6.
Definition DHCP_OPT_REQ_IP : Z := 50.
Definition DHCP_OPT_LEASE : Z := 51.
Definition DHCP_OPT_MSGTYPE : Z := 53.
Definition DHCP_OPT_SERVER_ID : Z := 54.
Definition DHCP_OPT_PARAM_LIST : Z := 55.
Definition DHCP_OPT_END : Z := 255.
Definition DHCP_OPT_PAD : Z := 0.
Definition DHCP_FLAG_BROADCAST : Z := 0x8000.
Definition DHCP_TIMEOUT_MS : Z := 500.
Definition DHCP_MAX_RETRIES : Z := 5.
Definition DHCP_RENEW_RETRY_MS : Z := 10000.
Definition DHCP_DEFAULT_LEASE : Z := 3600.
Definition DHCP_LEASE_INFINITE : Z := 0xFFFFFFFF.
Definition DHCP_ACK_BUFSZ : Z := 576.

Inductive DhcpState := DHCP_INIT | DHCP_SELECTING | DHCP_REQUESTING | DHCP_PROBING | DHCP_BOUND | DHCP_RENEWING | DHCP_REBINDING.
#[global] Instance DhcpState_eq_dec : EqDecision DhcpState.
Proof. solve_decision. Defined.

(** The fixed part of a message; the fields the client leaves 0 are not listed. *)
Record DhcpMsg := MkDhcpMsg { m_op : Z; m_xid : Z; m_secs : Z; m_flags : Z; m_ciaddr : Z; m_yiaddr : Z; m_chaddr : list Z; m_cookie : Z }.
Definition DhcpMsg_bytes (m : DhcpMsg) : list Z :=
  [m_op m; DHCP_HTYPE_ETH; 6; 0] ++ le32 (m_xid m) ++ le16 (m_secs m) ++ le16 (m_flags m) ++ le32 (m_ciaddr m) ++ le32 (m_yiaddr m) ++ replicate 8 0 ++
  (m_chaddr m ++ replicate 10 0) ++ replicate 192 0 ++ le32 (m_cookie m).
Definition DhcpMsg_of (b : list Z) : DhcpMsg :=
  MkDhcpMsg (of_le (sub b 0 1)) (of_le (sub b 4 4)) (of_le (sub b 8 2)) (of_le (sub b 10 2)) (of_le (sub b 12 4)) (of_le (sub b 16 4)) (sub b 28 6) (of_le (sub b 236 4)).

(** * The state *)

Record dhcp := Dhcp { d_state : DhcpState; xid : Z; sent_ms : Z; d_retries : Z; offered_ip : Z; server_id : Z; start_ms : Z; bound_ms : Z;
  lease_secs : Z; t1_secs : Z; t2_secs : Z; on_bound : bool; notified : bool; ack : list Z }.
Definition set_d_state v x := Dhcp v (xid x) (sent_ms x) (d_retries x) (offered_ip x) (server_id x) (start_ms x) (bound_ms x) (lease_secs x) (t1_secs x) (t2_secs x) (on_bound x) (notified x) (ack x).
Definition set_sent_ms v x := Dhcp (d_state x) (xid x) v (d_retries x) (offered_ip x) (server_id x) (start_ms x) (bound_ms x) (lease_secs x) (t1_secs x) (t2_secs x) (on_bound x) (notified x) (ack x).
Definition set_d_retries v x := Dhcp (d_state x) (xid x) (sent_ms x) v (offered_ip x) (server_id x) (start_ms x) (bound_ms x) (lease_secs x) (t1_secs x) (t2_secs x) (on_bound x) (notified x) (ack x).
Definition set_offered_ip v x := Dhcp (d_state x) (xid x) (sent_ms x) (d_retries x) v (server_id x) (start_ms x) (bound_ms x) (lease_secs x) (t1_secs x) (t2_secs x) (on_bound x) (notified x) (ack x).
Definition set_server_id v x := Dhcp (d_state x) (xid x) (sent_ms x) (d_retries x) (offered_ip x) v (start_ms x) (bound_ms x) (lease_secs x) (t1_secs x) (t2_secs x) (on_bound x) (notified x) (ack x).
Definition set_lease v t x := Dhcp DHCP_BOUND (xid x) (sent_ms x) 0 (offered_ip x) (server_id x) (start_ms x) t v (v / 2) (v - v / 8) (on_bound x) (notified x) (ack x).
Definition set_notified v x := Dhcp (d_state x) (xid x) (sent_ms x) (d_retries x) (offered_ip x) (server_id x) (start_ms x) (bound_ms x) (lease_secs x) (t1_secs x) (t2_secs x) (on_bound x) v (ack x).
Definition set_ack v x := Dhcp (d_state x) (xid x) (sent_ms x) (d_retries x) (offered_ip x) (server_id x) (start_ms x) (bound_ms x) (lease_secs x) (t1_secs x) (t2_secs x) (on_bound x) (notified x) v.

(** Calls that TCP and the sockets make of the lower half. *)
Inductive call :=
  | CallUdpSend (dst src_port dst_port : Z) (data : list Z)
  | CallUdpBind (port : Z) (handler : option Z)
  | CallUdpUnbind (port : Z)
  | CallTcpOutput (local_ip local_port remote_ip remote_port : Z) (g : TcpSegment)
  | CallTcpSendRst (src dst src_port dst_port : Z) (g : TcpSegment).
Record netd := Netd { n_dhcp : dhcp; n_ports : ports; ups : Z; reactions : list (list call) }.
Definition set_n_dhcp v x := Netd v (n_ports x) (ups x) (reactions x).
Definition set_n_ports v x := Netd (n_dhcp x) v (ups x) (reactions x).
Definition set_ups v x := Netd (n_dhcp x) (n_ports x) v (reactions x).
Definition set_reactions v x := Netd (n_dhcp x) (n_ports x) (ups x) v.
Definition DM := NM netd.
Definition get_dhcp {X} (f : dhcp → X) : DM X := gets (λ s, f (n_dhcp (app s))).
Definition upd_dhcp (f : dhcp → dhcp) : DM unit := modify (λ s, set_app (set_n_dhcp (f (n_dhcp (app s))) (app s)) s).
Definition upd_netif (f : Netif → Netif) : DM unit := modify (λ s, set_netif (f (netif s)) s).

Definition run_call (c : call) : DM unit :=
  match c with
  | CallUdpSend dst sp dp data => UdpSend dst sp dp data ;; ret tt
  | CallUdpBind port h => UdpBind port h ;; ret tt
  | CallUdpUnbind port => UdpUnbind port
  | CallTcpOutput lip lp rip rp g => TcpFrame lip lp rip rp g ;; ret tt
  | CallTcpSendRst src dst sp dp g => TcpSendRst src dst sp dp g
  end.
Definition run_calls (l : list call) : DM unit := foldr (λ c k, run_call c ;; k) (ret tt) l.
Definition react : DM unit :=
  let! rs := gets (λ s, reactions (app s)) in
  match rs with
  | [] => ret tt
  | l :: rs' => modify (λ s, set_app (set_reactions rs' (app s)) s) ;; run_calls l
  end.

(** * app/dhcp.c: messages *)

Definition DhcpOptU8 (code val : Z) : list Z := [code; 1; val].
Definition DhcpOptU32 (code val : Z) : list Z := [code; 4] ++ le32 val.
Definition DhcpOptRaw (code : Z) (v : list Z) : list Z := [code; Z.of_nat (length v)] ++ v.
Definition dhcp_params : list Z := [DHCP_OPT_SUBNET; DHCP_OPT_ROUTER; DHCP_OPT_DNS].

Definition DhcpBuild (ciaddr flags : Z) : DM (list Z) :=
  let! x := get_dhcp xid in
  let! n := gets netif in
  let! now := NetNowMs in
  let! start := get_dhcp start_ms in
  let elapsed := w32 (now - start) / 1000 in
  let elapsed := if 0xFFFF <? elapsed then 0xFFFF else elapsed in
  ret (DhcpMsg_bytes (MkDhcpMsg DHCP_OP_REQUEST x (htons (w16 elapsed)) flags ciaddr 0 (mac n) (htonl DHCP_MAGIC_COOKIE))).
(** Sending a message with its options; the buffer has room for 64 bytes of them. *)
Definition dhcp_send (dst ciaddr flags : Z) (opts : list Z) : DM Z :=
  let! hdr := DhcpBuild ciaddr flags in
  let buf := hdr ++ opts ++ [DHCP_OPT_END] in
  if Z.of_nat (length buf) <=? DHCP_MSG_SIZE + 64 then UdpSend dst DHCP_CLIENT_PORT DHCP_SERVER_PORT buf else panic.

Definition DhcpSendDiscover : DM Z :=
  let! rc := dhcp_send BROADCAST_IP 0 (htons DHCP_FLAG_BROADCAST)
               (DhcpOptU8 DHCP_OPT_MSGTYPE DHCP_DISCOVER ++ DhcpOptRaw DHCP_OPT_PARAM_LIST dhcp_params) in
  when (rc =? ZUZU_OK) (let! now := NetNowMs in upd_dhcp (λ d, set_sent_ms now (set_d_state DHCP_SELECTING d))) ;;
  ret rc.
Definition DhcpSendRequest : DM Z :=
  let! ip_ := get_dhcp offered_ip in
  let! sid := get_dhcp server_id in
  let! rc := dhcp_send BROADCAST_IP 0 (htons DHCP_FLAG_BROADCAST)
               (DhcpOptU8 DHCP_OPT_MSGTYPE DHCP_REQUEST ++ DhcpOptU32 DHCP_OPT_REQ_IP ip_ ++ DhcpOptU32 DHCP_OPT_SERVER_ID sid ++
                DhcpOptRaw DHCP_OPT_PARAM_LIST dhcp_params) in
  when (rc =? ZUZU_OK) (let! now := NetNowMs in upd_dhcp (λ d, set_sent_ms now (set_d_state DHCP_REQUESTING d))) ;;
  ret rc.
Definition DhcpSendRenew (dst : Z) : DM Z :=
  let! n := gets netif in
  let! rc := dhcp_send dst (ip n) 0 (DhcpOptU8 DHCP_OPT_MSGTYPE DHCP_REQUEST ++ DhcpOptRaw DHCP_OPT_PARAM_LIST dhcp_params) in
  when (rc =? ZUZU_OK) (let! now := NetNowMs in upd_dhcp (set_sent_ms now)) ;;
  ret rc.
Definition DhcpSendDecline : DM Z :=
  let! ip_ := get_dhcp offered_ip in
  let! sid := get_dhcp server_id in
  dhcp_send BROADCAST_IP 0 (htons DHCP_FLAG_BROADCAST)
    (DhcpOptU8 DHCP_OPT_MSGTYPE DHCP_DECLINE ++ DhcpOptU32 DHCP_OPT_REQ_IP ip_ ++ DhcpOptU32 DHCP_OPT_SERVER_ID sid).

(** The value of the first option [code]; [Panic] when a byte outside the message is read.  Every round moves on by one
    byte at least. *)
Definition msg_byte (data : list Z) (i : Z) : res Z := match data !! Z.to_nat i with Some b => Ok b | None => Panic end.
Fixpoint find_option (fuel : nat) (data : list Z) (cur code : Z) : res (option (list Z)) :=
  let len := Z.of_nat (length data) in
  if negb (cur <? len) then Ok None else
  match fuel with
  | O => Diverge
  | S fuel' =>
      match msg_byte data cur with
      | Ok c =>
          if c =? DHCP_OPT_END then Ok None else
          if c =? DHCP_OPT_PAD then find_option fuel' data (cur + 1) code else
          if len <=? cur + 1 then Ok None else
          match msg_byte data (cur + 1) with
          | Ok optlen =>
              if len <? cur + 2 + optlen then Ok None else
              if c =? code then Ok (Some (take (Z.to_nat optlen) (drop (Z.to_nat (cur + 2)) data)))
              else find_option fuel' data (cur + 2 + optlen) code
          | _ => Panic
          end
      | _ => Panic
      end
  end.
Definition DhcpFindOption (data : list Z) (code : Z) : res (option (list Z)) := find_option (length data) data DHCP_MSG_SIZE code.
Definition the_option (data : list Z) (code : Z) : DM (option (list Z)) := outcome (DhcpFindOption data code).
(** [memcpy] of a 32-bit value. *)
Definition word32 (v : list Z) : Z := of_le (take 4 v).

(** * The state machine *)

Definition DhcpRestart : DM unit :=
  let! now := NetNowMs in
  upd_dhcp (λ d, Dhcp DHCP_INIT now (sent_ms d) 0 (offered_ip d) (server_id d) now (bound_ms d) (lease_secs d) (t1_secs d) (t2_secs d) (on_bound d) (notified d) (ack d)) ;;
  DhcpSendDiscover ;;
  ret tt.

Definition set_ip v n := MkNetif v (netmask n) (gateway n) (dns n) (mac n).
Definition set_netmask v n := MkNetif (ip n) v (gateway n) (dns n) (mac n).
Definition set_gateway v n := MkNetif (ip n) (netmask n) v (dns n) (mac n).
Definition set_dns v n := MkNetif (ip n) (netmask n) (gateway n) v (mac n).

Definition DhcpEnterBound (data : list Z) : DM unit :=
  let! hdr := load data DHCP_MSG_SIZE in
  upd_netif (set_ip (m_yiaddr (DhcpMsg_of hdr))) ;;
  let! p := the_option data DHCP_OPT_SUBNET in
  match p with Some v => when (Z.of_nat (length v) =? 4) (upd_netif (set_netmask (word32 v))) | None => ret tt end ;;
  let! p := the_option data DHCP_OPT_ROUTER in
  match p with Some v => when (4 <=? Z.of_nat (length v)) (upd_netif (set_gateway (word32 v))) | None => ret tt end ;;
  let! p := the_option data DHCP_OPT_DNS in
  match p with Some v => when (4 <=? Z.of_nat (length v)) (upd_netif (set_dns (word32 v))) | None => ret tt end ;;
  let! p := the_option data DHCP_OPT_LEASE in
  let lease := match p with Some v => if Z.of_nat (length v) =? 4 then htonl (word32 v) else DHCP_DEFAULT_LEASE | None => DHCP_DEFAULT_LEASE end in
  let! now := NetNowMs in
  upd_dhcp (set_lease lease now) ;;
  let! d := get_dhcp id in
  when (negb (notified d))
    (upd_dhcp (set_notified true) ;;
     when (on_bound d) (modify (λ s, set_app (set_ups (ups (app s) + 1) (app s)) s))).

Definition DhcpAcdDone (conflict : bool) : DM unit :=
  if conflict then DhcpSendDecline ;; DhcpRestart else
  let! a := get_dhcp ack in DhcpEnterBound a.

(** The callback of the conflict detection and the handlers that [main] and DHCP bind. *)
Definition CB_DHCP_ACD : Z := 1.
Definition H_DHCP : Z := 1.
Definition H_ECHO : Z := 2.

Definition DhcpBeginAcd (data : list Z) : DM unit :=
  upd_dhcp (λ d, set_d_state DHCP_PROBING (set_ack (take (Z.to_nat DHCP_ACK_BUFSZ) data) d)) ;;
  let! ip_ := get_dhcp offered_ip in
  ArpAcdStart ip_ (Some CB_DHCP_ACD).

Definition is_d (a b : DhcpState) : bool := bool_decide (a = b).
Definition DhcpRecv (data : list Z) : DM unit :=
  if Z.of_nat (length data) <? DHCP_MSG_SIZE then ret tt else
  let! hdr := load data DHCP_MSG_SIZE in
  let m := DhcpMsg_of hdr in
  if negb (m_op m =? DHCP_OP_REPLY) then ret tt else
  if negb (htonl (m_cookie m) =? DHCP_MAGIC_COOKIE) then ret tt else
  let! d := get_dhcp id in
  if negb (m_xid m =? xid d) then ret tt else
  let! p := the_option data DHCP_OPT_MSGTYPE in
  match p with
  | Some [msgtype] =>
      let renewing := is_d (d_state d) DHCP_RENEWING || is_d (d_state d) DHCP_REBINDING in
      if is_d (d_state d) DHCP_SELECTING && (msgtype =? DHCP_OFFER) then
        upd_dhcp (set_offered_ip (m_yiaddr m)) ;;
        let! p := the_option data DHCP_OPT_SERVER_ID in
        match p with
        | Some v => if Z.of_nat (length v) =? 4 then upd_dhcp (set_server_id (word32 v)) ;; DhcpSendRequest ;; ret tt else ret tt
        | None => ret tt
        end
      else if (is_d (d_state d) DHCP_REQUESTING || renewing) && (msgtype =? DHCP_ACK) then
        let! p := the_option data DHCP_OPT_SERVER_ID in
        match p with Some v => when (Z.of_nat (length v) =? 4) (upd_dhcp (set_server_id (word32 v))) | None => ret tt end ;;
        if renewing then DhcpEnterBound data else DhcpBeginAcd data
      else if (is_d (d_state d) DHCP_REQUESTING || renewing) && (msgtype =? DHCP_NAK) then DhcpRestart
      else ret tt
  | _ => ret tt
  end.

Definition DhcpInit (cb : bool) : DM unit :=
  upd_dhcp (λ _, Dhcp DHCP_INIT 0 0 0 0 0 0 0 0 0 0 cb false []) ;;
  upd_netif (λ n, MkNetif 0 0 0 0 (mac n)) ;;
  modify (λ s, set_app (set_n_ports (snd (PortReserve (n_ports (app s)) DHCP_CLIENT_PORT)) (app s)) s) ;;
  UdpBind DHCP_CLIENT_PORT (Some H_DHCP) ;;
  DhcpRestart.

Definition DhcpIsBound (d : dhcp) : bool := is_d (d_state d) DHCP_BOUND || is_d (d_state d) DHCP_RENEWING || is_d (d_state d) DHCP_REBINDING.

Definition DhcpTick : DM unit :=
  let! now := NetNowMs in
  let! d := get_dhcp id in
  match d_state d with
  | DHCP_INIT | DHCP_PROBING => ret tt
  | DHCP_SELECTING | DHCP_REQUESTING =>
      if s32 (now - sent_ms d) <? DHCP_TIMEOUT_MS then ret tt else
      if DHCP_MAX_RETRIES <=? d_retries d then DhcpRestart else
      upd_dhcp (set_d_retries (w8 (d_retries d + 1))) ;;
      (if is_d (d_state d) DHCP_SELECTING then DhcpSendDiscover else DhcpSendRequest) ;; ret tt
  | DHCP_BOUND =>
      if lease_secs d =? DHCP_LEASE_INFINITE then ret tt else
      let held_secs := w32 (now - bound_ms d) / 1000 in
      if t2_secs d <=? held_secs then upd_dhcp (set_d_state DHCP_REBINDING) ;; DhcpSendRenew BROADCAST_IP ;; ret tt
      else if t1_secs d <=? held_secs then upd_dhcp (set_d_state DHCP_RENEWING) ;; DhcpSendRenew (server_id d) ;; ret tt
      else ret tt
  | DHCP_RENEWING | DHCP_REBINDING =>
      let held_secs := w32 (now - bound_ms d) / 1000 in
      if lease_secs d <=? held_secs then upd_netif (λ n, MkNetif 0 0 0 0 (mac n)) ;; DhcpRestart else
      when (is_d (d_state d) DHCP_RENEWING && (t2_secs d <=? held_secs)) (upd_dhcp (set_d_state DHCP_REBINDING)) ;;
      let! st := get_dhcp d_state in
      when (DHCP_RENEW_RETRY_MS <=? s32 (now - sent_ms d))
        (DhcpSendRenew (if is_d st DHCP_RENEWING then server_id d else BROADCAST_IP) ;; ret tt)
  end.

(** * main.c *)

Definition UdpEchoHandler (src sp dp : Z) (data : list Z) : DM unit := UdpSend src dp sp data ;; ret tt.
#[global] Instance netd_upper : Upper netd := {
  on_udp h src sp dp data := if h =? H_DHCP then DhcpRecv data else if h =? H_ECHO then UdpEchoHandler src sp dp data else react;
  on_acd cb conflict := if cb =? CB_DHCP_ACD then DhcpAcdDone conflict else ret tt;
  on_tcp src dst sp dp g := react }.

(** The set-up before the loop, and what can happen around it: a frame of the receive ring is handled, the pollers run,
    a client calls, time passes, the driver takes frames from the transmit ring. *)
Definition netd_main : DM unit :=
  ArpInit ;;
  UdpInit ;;
  modify (λ s, set_app (set_n_ports PortInit (app s)) s) ;;
  DhcpInit true ;;
  UdpBind 7 (Some H_ECHO) ;;
  ret tt.
Inductive step := Receive (f : NicFrame) | Poll | Client (c : call) | Clock (ms : Z) | Driver (tail : Z).
Definition netd_step (x : step) : DM unit :=
  match x with
  | Receive f => rx_frame f ;; ret tt
  | Poll => ArpTick ;; DhcpTick
  | Client c => run_call c
  | Clock ms => modify (set_clock (w32 ms))
  | Driver tail => modify (λ s, set_tx_ring (PacketRing (slots (tx_ring s)) (p_head (tx_ring s)) tail) s)
  end.
Definition netd_run (l : list step) : DM unit := foldr (λ x k, netd_step x ;; k) (ret tt) l.
