(* ===== verification/DhcpInv.v ===== *)
(** The network service as a whole never fails, whatever frames arrive: the DHCP client meets the interface [UpperOk] that the
    lower half is proved against, and its own invariant ties the conflict detection to the state PROBING.  Options are read
    back as they were written, probing without a conflict ends with the address bound, and four errors of the client. *)
From S2P Require Import Prelude Str Ring Tcp Wire Netd NetdInv Port Dhcp.

#[local] Open Scope Z_scope.

(** * Options *)

(** Searching stays inside the message and ends. *)
Lemma find_option_in_bounds fuel : ∀ data cur code, Forall is_byte data → 0 ≤ cur → Z.of_nat (length data) - cur ≤ Z.of_nat fuel →
  ∃ r, find_option fuel data cur code = Ok r ∧ ∀ v, r = Some v → Forall is_byte v.
Proof.
  assert (Hread : ∀ data i, Forall is_byte data → 0 ≤ i < Z.of_nat (length data) → ∃ b, msg_byte data i = Ok b ∧ is_byte b).
  { intros data i Hb Hi. unfold msg_byte. destruct (lookup_lt_is_Some_2 data (Z.to_nat i)) as [b Eb]; [lia|]. rewrite Eb. exists b. split; [done|]. exact (Forall_lookup_1 _ _ _ _ Hb Eb). }
  induction fuel as [|fuel IH]; intros data cur code Hb Hc Hf; cbn [find_option]; case_if E; try (by exists None); b2p; [lia|].
  destruct (Hread data cur Hb ltac:(lia)) as (c & -> & _). case_if E1; [by exists None|]. case_if E2; [apply IH; (done || lia)|]. case_if E3; [by exists None|]. b2p.
  destruct (Hread data (cur + 1) Hb ltac:(lia)) as (l & -> & Hl). unfold is_byte in Hl. case_if E4; [by exists None|]. b2p. case_if E5; [|apply IH; (done || lia)].
  eexists. split; [done|]. intros v [= <-]. by apply Forall_take, Forall_drop.
Qed.
Lemma the_option_run data code s : Forall is_byte data → ∃ r, the_option data code s = Ok (r, s) ∧ ∀ v, r = Some v → Forall is_byte v.
Proof.
  intros Hb. unfold the_option, DhcpFindOption. destruct (find_option_in_bounds (length data) data DHCP_MSG_SIZE code Hb) as (r & E & Hr); [unfold DHCP_MSG_SIZE; lia|unfold DHCP_MSG_SIZE; lia|].
  exists r. unfold outcome. by rewrite E.
Qed.

(** * The invariant of the client *)

Definition lease_ok (d : dhcp) : Prop := t1_secs d ≤ t2_secs d ≤ lease_secs d.
(** Probing means that the conflict detection runs, for the offered address. *)
Record d_inv (a : Acd) (x : netd) : Prop := {
  di_ports : ports_ok (n_ports x);
  di_probing : acd_active a = true ↔ d_state (n_dhcp x) = DHCP_PROBING;
  di_acd : acd_active a = true → acd_on_result a = Some CB_DHCP_ACD ∧ acd_ip a = offered_ip (n_dhcp x);
  di_ack : d_state (n_dhcp x) = DHCP_PROBING → Forall is_byte (ack (n_dhcp x)) ∧ DHCP_MSG_SIZE ≤ Z.of_nat (length (ack (n_dhcp x))) ≤ DHCP_ACK_BUFSZ;
  di_lease : DhcpIsBound (n_dhcp x) = true → lease_ok (n_dhcp x) }.
Definition dinv (s : nst netd) : Prop := wf 0 s ∧ d_inv (acd s) (app s).
(** Between two states of the client: the detection is off. *)
Definition idle (s : nst netd) : Prop := wf 0 s ∧ acd_active (acd s) = false ∧ ports_ok (n_ports (app s)).

Lemma dinv_idle s : dinv s → d_state (n_dhcp (app s)) ≠ DHCP_PROBING → idle s.
Proof. intros [Hs [H1 H2 _ _ _]] Hd. split_and!; [done| |done]. destruct (acd_active (acd s)); [|done]. by destruct Hd; apply H2. Qed.
(** The detection off and a state that is neither PROBING nor bound. *)
Lemma idle_dinv s : idle s → d_state (n_dhcp (app s)) ≠ DHCP_PROBING → (DhcpIsBound (n_dhcp (app s)) = true → lease_ok (n_dhcp (app s))) → dinv s.
Proof. intros (Hs & Ha & Hp) Hd Hl. split; [done|]. split; try done; rewrite Ha; [split; [done|]; intros; contradiction|done]. Qed.

Lemma safe_dinv {X} (m : DM X) s : safe m → dinv s → wp m (λ _ s', dinv s' ∧ below s s') s.
Proof. intros Hm [Hs Hd]. eapply wp_mono; [by apply Hm|]. cbv beta. intros _ s' [H1 HB]. split; [|done]. destruct HB as (_ & Ea & _ & Ex & _). split; [done|]. by rewrite Ea, Ex. Qed.
Lemma safe_idle {X} (m : DM X) s : safe m → idle s → wp m (λ _ s', idle s' ∧ app s' = app s) s.
Proof. intros Hm (Hs & Ha & Hp). eapply wp_mono; [by apply Hm|]. cbv beta. intros _ s' [H1 (_ & Ea & _ & Ex & _)]. unfold idle. by rewrite Ea, Ex. Qed.

(** * Sending *)

Lemma DhcpMsg_length m : length (m_chaddr m) = 6%nat → length (DhcpMsg_bytes m) = 240%nat.
Proof. intros Hc. unfold DhcpMsg_bytes. rewrite !length_app, !length_replicate, Hc. done. Qed.
Lemma dhcp_send_safe dst ci fl opts : (length opts ≤ 63)%nat → safe (dhcp_send dst ci fl opts).
Proof.
  intros Ho k s Hs. unfold dhcp_send, DhcpBuild, get_dhcp, NetNowMs. wp_steps.
  match goal with |- context [DhcpMsg_bytes ?m] => pose proof (DhcpMsg_length m (wf_mac _ _ Hs)) as Hl end.
  rewrite (proj2 (Z.leb_le _ _)) by (rewrite !length_app, Hl; unfold DHCP_MSG_SIZE; simpl; lia). by apply UdpSend_safe.
Qed.
Lemma dhcp_send_below dst ci fl opts s : (length opts ≤ 63)%nat → wf 0 s → wp (dhcp_send dst ci fl opts) (λ _ s', wf 0 s' ∧ below s s') s.
Proof. intros Ho. by apply dhcp_send_safe. Qed.
(** A message that moves the client to [st] when it was sent. *)
Definition moved st (x x' : netd) : Prop := x' = x ∨ ∃ t, x' = set_n_dhcp (set_sent_ms t (set_d_state st (n_dhcp x))) x.
Lemma sends_idle dst ci fl opts st s :
  (length opts ≤ 63)%nat → idle s →
  wp (let! rc := dhcp_send dst ci fl opts in
      when (rc =? ZUZU_OK) (let! now := NetNowMs in upd_dhcp (λ d, set_sent_ms now (set_d_state st d))) ;; ret rc)
    (λ _ s', idle s' ∧ moved st (app s) (app s')) s.
Proof.
  intros Ho Hs. apply wp_bind. eapply wp_mono; [apply safe_idle; [by apply dhcp_send_safe|done]|]. cbv beta. intros rc s1 [H1 Ex]. apply wp_bind.
  apply wp_when; intros _; [|apply wp_ret; split; [done|by left]]. unfold NetNowMs, upd_dhcp. wp_steps. destruct H1 as (Hw & Ha & Hp).
  split; [split_and!; [by destruct Hw|done|done]|]. right. simpl. rewrite Ex. by eexists.
Qed.
Lemma DhcpSendDiscover_idle s : idle s → wp DhcpSendDiscover (λ _ s', idle s' ∧ moved DHCP_SELECTING (app s) (app s')) s.
Proof. intros Hs. unfold DhcpSendDiscover. apply sends_idle; [simpl; lia|done]. Qed.
Lemma DhcpSendRequest_idle s : idle s → wp DhcpSendRequest (λ _ s', idle s' ∧ moved DHCP_REQUESTING (app s) (app s')) s.
Proof. intros Hs. unfold DhcpSendRequest, get_dhcp. wp_step. wp_step. wp_step. wp_step. apply sends_idle; [simpl; lia|done]. Qed.
Lemma DhcpRestart_dinv s : idle s → wp DhcpRestart (λ _ s', dinv s') s.
Proof.
  intros (Hs & Ha & Hp). unfold DhcpRestart, NetNowMs, upd_dhcp. wp_steps. match goal with |- wp _ _ ?x => assert (Hi : idle x) by (split_and!; [by destruct Hs|done|done]) end.
  eapply wp_mono; [by apply DhcpSendDiscover_idle|]. cbv beta. intros _ s' [H1 H2]. apply wp_ret. apply idle_dinv; [done| |].
  - destruct H2 as [-> |[t ->]]; done.
  - destruct H2 as [-> |[t ->]]; done.
Qed.

(** * Binding *)

Lemma idle_netif f s : mac (f (netif s)) = mac (netif s) → idle s → idle (set_netif (f (netif s)) s).
Proof. intros Hf (Hs & Ha & Hp). split_and!; [|done|done]. destruct Hs. split; try done. simpl. by rewrite Hf. Qed.
(** One optional setting of the interface from a message. *)
Lemma idle_setting data code (cond : list Z → bool) f s (Q : unit → nst netd → Prop) :
  Forall is_byte data → (∀ v n, mac (f v n) = mac n ∧ ip (f v n) = ip n) → idle s →
  (∀ s', idle s' → app s' = app s → clock s' = clock s → ip (netif s') = ip (netif s) → Q tt s') →
  wp (let! p := the_option data code in match p with Some v => when (cond v) (upd_netif (f v)) | None => ret tt end) Q s.
Proof.
  intros Hb Hf Hs HQ. apply wp_bind. destruct (the_option_run data code s Hb) as (r & E & _). eapply wp_of; [done|]. destruct r as [v|]; [|apply wp_ret; by apply HQ].
  apply wp_when; intros _; [|by apply HQ]. unfold upd_netif. wp_steps. apply HQ; [|done|done|apply Hf]. apply (idle_netif (f v)); [apply Hf|done].
Qed.
Lemma word32_u32 v : Forall is_byte v → length v = 4%nat → u32 (word32 v).
Proof.
  intros Hb Hl. unfold word32. rewrite take_ge by lia. pose proof (of_le_range v Hb) as H. rewrite Hl in H. change (256 ^ Z.of_nat 4) with 4294967296 in H. exact H.
Qed.
Lemma htonl_nonneg x : u32 x → 0 ≤ htonl x.
Proof. intros Hx. by destruct (htonl_u32 x Hx). Qed.
Lemma bind_assoc_wp {S X Y Z'} (m : M S X) (f : X → M S Y) (g : Y → M S Z') Q s : wp (bind (bind m f) g) Q s → wp (bind m (λ x, bind (f x) g)) Q s.
Proof. unfold wp, bind. by destruct (m s) as [[]| |]. Qed.
Definition yiaddr_of (data : list Z) : Z := m_yiaddr (DhcpMsg_of (take (Z.to_nat DHCP_MSG_SIZE) data)).
Lemma DhcpEnterBound_dinv data s :
  Forall is_byte data → DHCP_MSG_SIZE ≤ Z.of_nat (length data) → idle s →
  wp (DhcpEnterBound data) (λ _ s', dinv s' ∧ d_state (n_dhcp (app s')) = DHCP_BOUND ∧ ip (netif s') = yiaddr_of data) s.
Proof.
  intros Hb Hl Hs. unfold DhcpEnterBound. apply wp_bind. eapply wp_of; [by apply load_run|]. fold (yiaddr_of data). unfold upd_netif at 1. wp_step. wp_step.
  assert (H0 : idle (set_netif (set_ip (yiaddr_of data) (netif s)) s)) by by apply (idle_netif (set_ip (yiaddr_of data))). revert H0.
  assert (Hip : ip (netif (set_netif (set_ip (yiaddr_of data) (netif s)) s)) = yiaddr_of data) by done. revert Hip. generalize (set_netif (set_ip (yiaddr_of data) (netif s)) s). clear s Hs. intros s Hip Hs.
  apply bind_assoc_wp. apply wp_bind. apply (idle_setting data _ (λ v, zlen v =? 4) (λ v, set_netmask (word32 v))); [done|done|done|]. intros s1 H1 E1 C1 I1.
  apply bind_assoc_wp. apply wp_bind. apply (idle_setting data _ (λ v, 4 <=? zlen v) (λ v, set_gateway (word32 v))); [done|done|done|]. intros s2 H2 E2 C2 I2.
  apply bind_assoc_wp. apply wp_bind. apply (idle_setting data _ (λ v, 4 <=? zlen v) (λ v, set_dns (word32 v))); [done|done|done|]. intros s3 H3 E3 C3 I3.
  apply wp_bind. destruct (the_option_run data DHCP_OPT_LEASE s3 Hb) as (r & E & Hr). eapply wp_of; [done|]. set (lease := match r with Some _ => _ | None => _ end).
  assert (Hlease : 0 ≤ lease).
  { unfold lease. destruct r as [v|]; [|unfold DHCP_DEFAULT_LEASE; lia]. case_if El; [|unfold DHCP_DEFAULT_LEASE; lia]. b2p. apply htonl_nonneg, word32_u32; [by apply Hr|lia]. }
  unfold NetNowMs, upd_dhcp, get_dhcp. wp_steps.
  assert (Hfin : ∀ s' : nst netd, wf 0 s' → acd s' = acd s3 → n_ports (app s') = n_ports (app s3) → netif s' = netif s3 → d_state (n_dhcp (app s')) = DHCP_BOUND → lease_ok (n_dhcp (app s')) →
            dinv s' ∧ d_state (n_dhcp (app s')) = DHCP_BOUND ∧ ip (netif s') = yiaddr_of data).
  { intros s' Hw Ea Ep En Ed Hlo. split_and!; [|done|by rewrite En, I3, I2, I1]. apply idle_dinv; [|by rewrite Ed|done]. destruct H3 as (_ & Ha & Hp). split_and!; [done|by rewrite Ea|by rewrite Ep]. }
  assert (Hlo : lease / 2 ≤ lease - lease / 8 ≤ lease) by (Z.div_mod_to_equations; lia). destruct H3 as (Hw & _ & _).
  apply wp_when; intros _; [|apply Hfin; try done; by destruct Hw]. wp_steps. apply wp_when; intros _; [|apply Hfin; try done; by destruct Hw]. wp_steps. apply Hfin; try done. by destruct Hw.
Qed.
Lemma DhcpBeginAcd_dinv data s :
  Forall is_byte data → DHCP_MSG_SIZE ≤ Z.of_nat (length data) → idle s → wp (DhcpBeginAcd data) (λ _ s', dinv s') s.
Proof.
  intros Hb Hl (Hs & Ha & Hp). unfold DhcpBeginAcd, upd_dhcp, get_dhcp. wp_steps. eapply wp_mono; [apply (ArpAcdStart_wp 0); by destruct Hs|]. cbv beta. intros _ s' [Hw ->].
  split; [done|]. unfold DHCP_MSG_SIZE in Hl. split; simpl; try done. intros _. split; [by apply Forall_take|]. rewrite length_take. unfold DHCP_MSG_SIZE, DHCP_ACK_BUFSZ. lia.
Qed.
Lemma DhcpSendRenew_dinv dst s : dinv s → wp (DhcpSendRenew dst) (λ _ s', dinv s') s.
Proof.
  intros Hs. unfold DhcpSendRenew. wp_step. wp_step. apply wp_bind. eapply wp_mono; [apply safe_dinv; [apply dhcp_send_safe; simpl; lia|done]|]. cbv beta. intros rc s1 [H1 _].
  apply wp_bind. apply wp_when; intros _; [|by apply wp_ret]. unfold NetNowMs, upd_dhcp. wp_steps. destruct H1 as [Hw []]. split; [by destruct Hw|]. by split.
Qed.
Lemma DhcpAcdDone_dinv conflict a s :
  wf 0 s → d_inv a (app s) → acd_active a = true → acd s = MkAcd false (acd_ip a) (acd_probes a) (acd_next_ms a) (acd_on_result a) → wp (DhcpAcdDone conflict) (λ _ s', dinv s') s.
Proof.
  intros Hs [H1 H2 H3 H4 H5] Ha Ea. assert (Hi : idle s) by (split_and!; [done|by rewrite Ea|done]). unfold DhcpAcdDone. destruct conflict.
  - unfold DhcpSendDecline, get_dhcp. wp_steps. eapply wp_mono; [apply safe_idle; [apply dhcp_send_safe; simpl; lia|done]|]. cbv beta. intros _ s1 [Hi1 _]. by apply DhcpRestart_dinv.
  - unfold get_dhcp. wp_steps. destruct (H4 (proj1 H2 Ha)) as [Hb Hl]. eapply wp_mono; [apply DhcpEnterBound_dinv; [done|apply Hl|done]|]. cbv beta. by intros _ s' [H _].
Qed.

(** * Receiving and polling *)

(** The client's variables change, the state stays. *)
Lemma dinv_upd s f :
  dinv s → (∀ d, d_state (f d) = d_state d) → (∀ d, lease_ok d → lease_ok (f d)) → d_state (n_dhcp (app s)) ≠ DHCP_PROBING →
  dinv (set_app (set_n_dhcp (f (n_dhcp (app s))) (app s)) s).
Proof.
  intros Hs Hf Hl Hd. pose proof (dinv_idle s Hs Hd) as (Hw & Ha & Hp). apply idle_dinv; [split_and!; [by destruct Hw|done|done]|simpl; by rewrite Hf|].
  simpl. unfold DhcpIsBound, is_d. rewrite Hf. intros Hb. apply Hl. by apply Hs.
Qed.
Lemma is_d_true a b : is_d a b = true → a = b.
Proof. apply bool_decide_eq_true_1. Qed.
Lemma moved_dinv st s s' : idle s' → moved st (app s) (app s') → dinv s → d_state (n_dhcp (app s)) ≠ DHCP_PROBING → st = DHCP_SELECTING ∨ st = DHCP_REQUESTING → dinv s'.
Proof.
  intros Hi Hm Hs Hd Hst. apply idle_dinv; [done| |].
  - destruct Hm as [-> |[t ->]]; [done|]. by destruct Hst as [-> | ->].
  - destruct Hm as [-> |[t ->]]; [apply Hs|]. by destruct Hst as [-> | ->].
Qed.

Lemma DhcpRecv_dinv data s : Forall is_byte data → dinv s → wp (DhcpRecv data) (λ _ s', dinv s') s.
Proof.
  intros Hb Hs. unfold DhcpRecv. apply wp_if; intros E; [by apply wp_ret|]. b2p. apply wp_bind. eapply wp_of; [by apply load_run|]. set (m := DhcpMsg_of _).
  apply wp_if; intros _; [by apply wp_ret|]. apply wp_if; intros _; [by apply wp_ret|]. unfold get_dhcp. wp_steps. apply wp_if; intros _; [by apply wp_ret|].
  apply wp_bind. destruct (the_option_run data DHCP_OPT_MSGTYPE s Hb) as (r & Er & _). eapply wp_of; [done|]. destruct r as [[|ty [|]]|]; try (lazymatch goal with |- wp (ret _) _ _ => by apply wp_ret end).
  change (id (n_dhcp (app s))) with (n_dhcp (app s)). apply wp_if; intros E1; [|apply wp_if; intros E2; [|apply wp_if; intros E3; [|by apply wp_ret]]]; b2p.
  - apply is_d_true in H. unfold upd_dhcp. wp_steps.
    assert (H1 : dinv (set_app (set_n_dhcp (set_offered_ip (m_yiaddr m) (n_dhcp (app s))) (app s)) s)) by (apply dinv_upd; [done|done|done|by rewrite H]).
    revert H1. set (s1 := set_app _ s). assert (Hst : d_state (n_dhcp (app s1)) = DHCP_SELECTING) by done. clearbody s1. intros H1.
    destruct (the_option_run data DHCP_OPT_SERVER_ID s1 Hb) as (r & Er' & _). eapply wp_of; [done|]. destruct r as [v|]; [|by apply wp_ret]. apply wp_if; intros _; [|by apply wp_ret]. wp_steps.
    match goal with |- wp _ _ ?x => assert (H2 : dinv x) by (apply dinv_upd; [done|done|done|by rewrite Hst]); assert (Hst2 : d_state (n_dhcp (app x)) ≠ DHCP_PROBING) by (simpl; by rewrite Hst) end.
    eapply wp_mono; [apply DhcpSendRequest_idle; by apply dinv_idle|]. cbv beta. intros _ s3 [Hi Hm]. apply wp_ret. eapply moved_dinv; [done|exact Hm|done|done|by right].
  - assert (Hnp : d_state (n_dhcp (app s)) ≠ DHCP_PROBING) by (intros Hp; by rewrite Hp in H). wp_steps. destruct (the_option_run data DHCP_OPT_SERVER_ID s Hb) as (r & Er' & _). eapply wp_of; [done|].
    wp_steps. apply (wp_mono _ (λ _ s', idle s')).
    + pose proof (dinv_idle s Hs Hnp) as Hi. destruct r as [v|]; [|by apply wp_ret]. apply wp_when; intros _; [|done]. unfold upd_dhcp. wp_steps. destruct Hi as (Hw & Ha & Hp). split_and!; [by destruct Hw|done|done].
    + cbv beta. intros _ s1 H1. apply wp_if; intros _; [|by apply DhcpBeginAcd_dinv]. eapply wp_mono; [by apply DhcpEnterBound_dinv|]. cbv beta. by intros _ s' [? _].
  - apply DhcpRestart_dinv, dinv_idle; [done|]. intros Hp. by rewrite Hp in H.
Qed.

(** A lease that has not run out: the request is repeated. *)
Lemma DhcpTick_renewing s now d st0 :
  dinv s → d_state (n_dhcp (app s)) = DHCP_RENEWING ∨ d_state (n_dhcp (app s)) = DHCP_REBINDING →
  wp (if lease_secs d <=? w32 (now - bound_ms d) / 1000 then upd_netif (λ n, MkNetif 0 0 0 0 (mac n)) ;; DhcpRestart else
      when (is_d st0 DHCP_RENEWING && (t2_secs d <=? w32 (now - bound_ms d) / 1000)) (upd_dhcp (set_d_state DHCP_REBINDING)) ;;
      let! st := get_dhcp d_state in
      when (DHCP_RENEW_RETRY_MS <=? s32 (now - sent_ms d)) (DhcpSendRenew (if is_d st DHCP_RENEWING then server_id d else BROADCAST_IP) ;; ret tt)) (λ _ s', dinv s') s.
Proof.
  intros Hs Hst. assert (Hd : d_state (n_dhcp (app s)) ≠ DHCP_PROBING) by by destruct Hst as [-> | ->]. pose proof (dinv_idle s Hs Hd) as Hi.
  apply wp_if; intros _. { unfold upd_netif. wp_steps. by apply DhcpRestart_dinv, (idle_netif (λ n, MkNetif 0 0 0 0 (mac n))). }
  apply wp_bind. apply (wp_mono _ (λ _ s', dinv s')).
  - apply wp_when; intros _; [|done]. unfold upd_dhcp. wp_steps. destruct Hi as (Hw & Ha & Hp). apply idle_dinv; [split_and!; [by destruct Hw|done|done]|done|].
    intros _. assert (Hb : DhcpIsBound (n_dhcp (app s)) = true) by (unfold DhcpIsBound; by destruct Hst as [-> | ->]). by apply Hs.
  - cbv beta. intros _ s1 H1. unfold get_dhcp. wp_steps. apply wp_when; intros _; [|done]. apply wp_bind. eapply wp_mono; [by apply DhcpSendRenew_dinv|]. cbv beta. intros. by apply wp_ret.
Qed.
Lemma DhcpTick_dinv s : dinv s → wp DhcpTick (λ _ s', dinv s') s.
Proof.
  intros Hs. unfold DhcpTick, NetNowMs, get_dhcp. wp_steps. change (id (n_dhcp (app s))) with (n_dhcp (app s)).
  assert (Hretry : ∀ st (m : DM Z), d_state (n_dhcp (app s)) ≠ DHCP_PROBING → st = DHCP_SELECTING ∨ st = DHCP_REQUESTING →
            (∀ s1, idle s1 → wp m (λ _ s', idle s' ∧ moved st (app s1) (app s')) s1) → wp (upd_dhcp (set_d_retries (w8 (d_retries (n_dhcp (app s)) + 1))) ;; m ;; ret tt) (λ _ s', dinv s') s).
  { intros st m Hd Hst Hm. unfold upd_dhcp. wp_steps. match goal with |- wp _ _ ?x => assert (H1 : dinv x) by (apply (dinv_upd s); done) end.
    eapply wp_mono; [apply Hm, dinv_idle; done|]. cbv beta. intros _ s2 [Hi Hmv]. apply wp_ret. by eapply moved_dinv. }
  assert (Hgo : ∀ st dst, d_state (n_dhcp (app s)) ≠ DHCP_PROBING → DhcpIsBound (n_dhcp (app s)) = true → st = DHCP_RENEWING ∨ st = DHCP_REBINDING →
            wp (upd_dhcp (set_d_state st) ;; DhcpSendRenew dst ;; ret tt) (λ _ s', dinv s') s).
  { intros st dst Hd Hb Hst. unfold upd_dhcp. wp_steps. eapply wp_mono; [apply DhcpSendRenew_dinv|cbv beta; intros; by apply wp_ret].
    pose proof (dinv_idle s Hs Hd) as (Hw & Ha & Hp). apply idle_dinv; [split_and!; [by destruct Hw|done|done]|by destruct Hst as [-> | ->]|intros _; by apply Hs]. }
  destruct (d_state (n_dhcp (app s))) eqn:Est; try (lazymatch goal with |- wp (ret _) _ _ => by apply wp_ret end).
  - apply wp_if; intros _; [by apply wp_ret|]. apply wp_if; intros _; [apply DhcpRestart_dinv, dinv_idle; [done|by rewrite Est]|]. apply (Hretry DHCP_SELECTING); [done|by left|]. apply DhcpSendDiscover_idle.
  - apply wp_if; intros _; [by apply wp_ret|]. apply wp_if; intros _; [apply DhcpRestart_dinv, dinv_idle; [done|by rewrite Est]|]. apply (Hretry DHCP_REQUESTING); [done|by right|]. apply DhcpSendRequest_idle.
  - apply wp_if; intros _; [by apply wp_ret|]. assert (Hb : DhcpIsBound (n_dhcp (app s)) = true) by (unfold DhcpIsBound; by rewrite Est).
    apply wp_if; intros _; [apply Hgo; [done|done|by right]|]. apply wp_if; intros _; [apply Hgo; [done|done|by left]|by apply wp_ret].
  - apply (DhcpTick_renewing s (clock s) (n_dhcp (app s)) DHCP_RENEWING); [done|by left].
  - apply (DhcpTick_renewing s (clock s) (n_dhcp (app s)) DHCP_REBINDING); [done|by right].
Qed.

(** * The service *)

Lemma run_call_dinv c s : dinv s → wp (run_call c) (λ _ s', dinv s') s.
Proof.
  intros Hs. assert (Hsafe : ∀ X (m : DM X), safe m → wp (m ;; ret tt) (λ _ s', dinv s') s).
  { intros X m Hm. apply wp_bind. eapply wp_mono; [by apply safe_dinv|]. cbv beta. intros _ s' [H _]. by apply wp_ret. }
  destruct c; cbn [run_call].
  - apply Hsafe, UdpSend_safe.
  - apply wp_bind. eapply wp_mono; [apply UdpBind_wp, Hs|]. cbv beta. intros _ s' [Hw (t & ->)]. apply wp_ret. split; [done|apply Hs].
  - eapply wp_mono; [apply UdpUnbind_wp, Hs|]. cbv beta. intros _ s' [Hw (t & ->)]. split; [done|apply Hs].
  - apply Hsafe, TcpFrame_safe.
  - eapply wp_mono; [apply safe_dinv; [apply TcpSendRst_safe|done]|]. cbv beta. by intros _ s' [? _].
Qed.
Lemma run_calls_dinv l : ∀ s, dinv s → wp (run_calls l) (λ _ s', dinv s') s.
Proof.
  induction l as [|c l IH]; intros s Hs; cbn [run_calls foldr]; [by apply wp_ret|]. apply wp_bind. eapply wp_mono; [by apply run_call_dinv|]. cbv beta. intros _ s' H. by apply IH.
Qed.
Lemma react_dinv s : dinv s → wp react (λ _ s', dinv s') s.
Proof.
  intros Hs. unfold react. wp_steps. destruct (reactions (app s)) as [|l rs]; [by apply wp_ret|]. wp_steps. apply run_calls_dinv. destruct Hs as [Hw []]. split; [by destruct Hw|by split].
Qed.

#[global] Program Instance netd_upper_ok : UpperOk netd := {| up_inv n a t x := d_inv a x |}.
Next Obligation. intros _ a _ x p ms [H1 H2 H3 H4 H5] Ha. split; simpl; try done; [by rewrite <- H2, Ha|by auto]. Qed.
Next Obligation.
  intros _ a _ x [H1 H2 H3 H4 H5] Hn. assert (Ha : acd_active a = false). { destruct (acd_active a); [|done]. destruct (H3 eq_refl) as [E _]. by rewrite Hn in E. }
  split; simpl; try done. by rewrite <- H2, Ha.
Qed.
Next Obligation.
  intros h src sp dp data s Hb Hw Hd. cbn [on_udp netd_upper]. case_if E; [by apply DhcpRecv_dinv|]. case_if E1; [|by apply react_dinv].
  unfold UdpEchoHandler. apply wp_bind. eapply wp_mono; [apply safe_dinv; [apply UdpSend_safe|done]|]. cbv beta. intros _ s' [H _]. by apply wp_ret.
Qed.
Next Obligation. intros src dst sp dp g s Hw Hd. by apply react_dinv. Qed.
Next Obligation.
  intros cb conflict a s Hw Hd Ha Hcb Ea. cbn [on_acd netd_upper]. destruct (di_acd _ _ Hd Ha) as [E _]. rewrite Hcb in E. injection E as ->. rewrite Z.eqb_refl. apply (DhcpAcdDone_dinv conflict a s Hw Hd Ha). by rewrite Ea, Hcb.
Qed.

(** A frame as the driver hands it over: the length field is that of the bytes received. *)
Definition frame_in (f : NicFrame) : Prop := 0 ≤ f_len f ≤ NIC_FRAME_SIZE ∧ Z.of_nat (length (f_data f)) = NIC_FRAME_SIZE ∧ Forall is_byte (f_data f).
Definition step_ok (x : step) : Prop := match x with Receive f => frame_in f | _ => True end.
Lemma netd_step_dinv x s : step_ok x → dinv s → wp (netd_step x) (λ _ s', dinv s') s.
Proof.
  intros Hx Hs. destruct x as [f| |c|ms|tail]; cbn [netd_step].
  - destruct Hx as (H1 & H2 & H3). apply wp_bind. unfold rx_frame. rewrite w16_small by (unfold NIC_FRAME_SIZE in H1; lia).
    eapply wp_mono; [apply EthRx_fine; [done|lia|exact Hs]|]. cbv beta. intros _ s' H. by apply wp_ret.
  - apply wp_bind. eapply wp_mono; [apply ArpTick_fine; exact Hs|]. cbv beta. intros _ s' H. by apply DhcpTick_dinv.
  - by apply run_call_dinv.
  - wp_steps. destruct Hs as [Hw Hd]. split; [by destruct Hw|done].
  - wp_steps. destruct Hs as [Hw Hd]. split; [|done]. destruct Hw as [[] ]. by split.
Qed.
(** The state [main] starts from: zeroed variables and a ring set up by the driver. *)
Record booted (s : nst netd) : Prop := {
  bo_ring : ring_ok (tx_ring s);
  bo_mac : length (mac (netif s)) = 6%nat;
  bo_live : live s = 0;
  bo_echo : rl_ok 32 (echo_reply_rl s);
  bo_arp : rl_ok 16 (arp_reply_rl s) }.
Lemma arp_empty_ok : arp_ok (replicate (Z.to_nat ARP_MAX_ENTRIES) arp_zero).
Proof.
  split; [done|apply Forall_replicate, arp_zero_ok|]. intros i j a b Ha _ Fa _ _. exfalso. by apply lookup_replicate in Ha as [-> _].
Qed.
Lemma udp_empty_ok : udp_ok (replicate (Z.to_nat UDP_MAX_TABLE) (MkUdpEntry 0 None)).
Proof. split; [done|]. intros p i j a b Ha _ [_ Ba] _. exfalso. by apply lookup_replicate in Ha as [-> _]. Qed.
Lemma netd_main_dinv s : booted s → wp netd_main (λ _ s', dinv s') s.
Proof.
  intros [H1 H2 H3 H4 H5]. unfold netd_main, ArpInit, UdpInit, DhcpInit, upd_dhcp, upd_netif. wp_steps.
  match goal with |- wp (UdpBind _ _) _ ?x => assert (Hi : idle x) end.
  { split_and!; [|done|apply PortReserve_ok, PortInit_ok]. split; simpl; try done; [apply arp_empty_ok|apply udp_empty_ok]. }
  eapply wp_mono; [apply UdpBind_wp, Hi|]. cbv beta. intros _ s1 [Hw (t & ->)].
  eapply wp_mono; [apply DhcpRestart_dinv; split_and!; [done|apply Hi|apply Hi]|]. cbv beta. intros _ s2 Hs2. wp_steps.
  eapply wp_mono; [apply UdpBind_wp, Hs2|]. cbv beta. intros _ s3 [Hw3 (t3 & ->)]. wp_steps. split; [done|apply Hs2].
Qed.

(** C8: whatever frames that fit a slot arrive, however the pollers, clients, clock and driver interleave, from its start the network service
    never reads or writes outside a packet, never fails to return, keeps one ARP entry per address and one handler per port,
    leaks no memory, and probes for conflicts exactly while DHCP waits for the verdict. *)
Theorem netd_never_fails s l : booted s → Forall step_ok l → wp (netd_main ;; netd_run l) (λ _ s', wf 0 s' ∧ d_inv (acd s') (app s')) s.
Proof.
  intros Hb Hl. apply wp_bind. eapply wp_mono; [by apply netd_main_dinv|]. cbv beta. intros _ s1 H1. revert s1 H1.
  induction Hl as [|x l Hx _ IH]; intros s1 H1; cbn [netd_run foldr]; [by apply wp_ret|]. apply wp_bind. eapply wp_mono; [by apply netd_step_dinv|]. cbv beta. intros _ s2 H2. by apply IH.
Qed.

(** * Options are read back *)

(** Options as a server writes them, with padding between. *)
Inductive item := Pad | Opt (code : Z) (v : list Z).
Definition item_bytes (x : item) : list Z := match x with Pad => [DHCP_OPT_PAD] | Opt c v => DhcpOptRaw c v end.
Definition item_ok (x : item) : Prop := match x with Pad => True | Opt c v => c ≠ DHCP_OPT_PAD ∧ c ≠ DHCP_OPT_END ∧ Z.of_nat (length v) < 256 end.
Fixpoint first_option (l : list item) (code : Z) : option (list Z) :=
  match l with
  | [] => None
  | Opt c v :: l' => if c =? code then Some v else first_option l' code
  | Pad :: l' => first_option l' code
  end.
Lemma msg_byte_app pre b rest : msg_byte (pre ++ b :: rest) (Z.of_nat (length pre)) = Ok b.
Proof. unfold msg_byte. rewrite Nat2Z.id. by rewrite list_lookup_middle. Qed.
Lemma find_option_items l : ∀ fuel pre junk code, Forall item_ok l → (length (concat (item_bytes <$> l)) < fuel)%nat →
  find_option fuel (pre ++ concat (item_bytes <$> l) ++ DHCP_OPT_END :: junk) (Z.of_nat (length pre)) code = Ok (first_option l code).
Proof.
  induction l as [|x l IH]; intros fuel pre junk code Hl Hf; cbn [fmap list_fmap concat] in *.
  - destruct fuel as [|fuel]; [simpl in Hf; lia|]. cbn [find_option Datatypes.app]. rewrite (proj2 (Z.ltb_lt _ _)) by (rewrite length_app; simpl; lia). cbn [negb]. by rewrite msg_byte_app.
  - apply Forall_cons in Hl as [Hx Hl]. rewrite length_app in Hf. destruct x as [|c v]; cbn [item_bytes] in *.
    + destruct fuel as [|fuel]; [simpl in Hf; lia|]. cbn [find_option Datatypes.app]. rewrite (proj2 (Z.ltb_lt _ _)) by (rewrite !length_app; simpl; lia). cbn [negb]. rewrite msg_byte_app.
      change (DHCP_OPT_PAD =? DHCP_OPT_END) with false. change (DHCP_OPT_PAD =? DHCP_OPT_PAD) with true. cbv iota. specialize (IH fuel (pre ++ [DHCP_OPT_PAD]) junk code Hl ltac:(simpl in Hf; lia)).
      rewrite <- (assoc_L (++)), length_app in IH. simpl in IH. by replace (Z.of_nat (length pre + 1)) with (zlen pre + 1) in IH by lia.
    + destruct Hx as (Hc1 & Hc2 & Hv). unfold DhcpOptRaw in *. destruct fuel as [|fuel]; [simpl in Hf; lia|]. cbn [find_option Datatypes.app].
      set (rest := concat (item_bytes <$> l) ++ DHCP_OPT_END :: junk) in *. rewrite <- (assoc_L (++) v). fold rest.
      set (data := pre ++ c :: Z.of_nat (length v) :: v ++ rest). assert (Hlen : zlen data = zlen pre + 2 + zlen v + zlen rest) by (unfold data; rewrite length_app; simpl; rewrite length_app; lia).
      rewrite (proj2 (Z.ltb_lt _ _)) by lia. cbn [negb]. unfold data at 1. rewrite msg_byte_app, (proj2 (Z.eqb_neq c _) Hc2), (proj2 (Z.eqb_neq c _) Hc1).
      assert (Hr : 0 < zlen rest) by (unfold rest; rewrite length_app; simpl; lia). rewrite (proj2 (Z.leb_gt _ _)) by lia.
      assert (Eb : msg_byte data (zlen pre + 1) = Ok (zlen v)).
      { unfold data. pose proof (msg_byte_app (pre ++ [c]) (zlen v) (v ++ rest)) as E. rewrite <- (assoc_L (++)), length_app in E. simpl in E. by replace (Z.of_nat (length pre + 1)) with (zlen pre + 1) in E by lia. }
      rewrite Eb. rewrite (proj2 (Z.ltb_ge _ _)) by lia. cbn [first_option]. destruct (c =? code).
      * do 2 f_equal. rewrite Nat2Z.id. replace (Z.to_nat (zlen pre + 2)) with (length pre + 2)%nat by lia. rewrite <- drop_drop. unfold data. rewrite drop_app_length. simpl. by rewrite drop_0, take_app_length.
      * specialize (IH fuel (pre ++ c :: zlen v :: v) junk code Hl). fold rest in IH. rewrite <- (assoc_L (++)) in IH. simpl in IH. rewrite length_app in IH. simpl in IH.
        replace (Z.of_nat (length pre + S (S (length v)))) with (zlen pre + 2 + zlen v) in IH by lia. apply IH. simpl in Hf. lia.
Qed.
(** In a message whose options are written one after the other, with any padding between them, [DhcpFindOption] finds
    the value of the first option with the code it is asked for, and nothing when there is none. *)
Theorem DhcpFindOption_reads hdr l junk code :
  Z.of_nat (length hdr) = DHCP_MSG_SIZE → Forall item_ok l →
  DhcpFindOption (hdr ++ concat (item_bytes <$> l) ++ DHCP_OPT_END :: junk) code = Ok (first_option l code).
Proof. intros Hh Hl. unfold DhcpFindOption. rewrite <- Hh. apply find_option_items; [done|]. rewrite !length_app. simpl. lia. Qed.

(** * An acknowledged address is bound *)

(** A second passes, then the pollers run. *)
Definition poll_later : DM unit := modify (λ s, set_clock (w32 (clock s + 1000)) s) ;; ArpTick ;; DhcpTick.

Lemma arp_entries_quiet now n s : wf 0 s → (n ≤ 64)%nat → wp (for_each n 0 (λ i, ArpTickEntry now (Z.to_nat i)) : DM unit) (λ _ s', wf 0 s' ∧ below s s') s.
Proof.
  intros Hs Hn. apply (wp_for_each (λ _ s', wf 0 s' ∧ below s s')); [done| |done]. intros j s1 Hj [H1 B1]. eapply wp_mono; [apply ArpTickEntry_safe; [lia|done]|].
  cbv beta. intros _ s2 [H2 B2]. split; [done|by eapply below_trans].
Qed.
(** The detection runs, [k] probes are out and the next step is due when a second has passed. *)
Definition probing (k : Z) (s : nst netd) : Prop :=
  wf 0 s ∧ d_inv (acd s) (app s) ∧ acd_active (acd s) = true ∧ acd_probes (acd s) = k ∧ 0 ≤ s32 (w32 (clock s + 1000) - acd_next_ms (acd s)).
Definition same_lease (s s' : nst netd) : Prop := ack (n_dhcp (app s')) = ack (n_dhcp (app s)).
Lemma poll_probes k s : 0 ≤ k < 3 → probing k s → wp poll_later (λ _ s', probing (k + 1) s' ∧ same_lease s s') s.
Proof.
  intros Hk (Hw & Hd & Ha & Ep & Hdue). unfold poll_later. wp_steps. set (s1 := set_clock _ s). assert (Hw1 : wf 0 s1) by by destruct Hw.
  unfold ArpTick, NetNowMs. wp_steps. change (acd s1) with (acd s). change (clock s1) with (w32 (clock s + 1000)). rewrite Ha, (proj2 (Z.leb_le 0 _) Hdue). cbn [andb when].
  unfold ACD_PROBE_NUM. rewrite (proj2 (Z.ltb_lt _ 3)) by lia. wp_steps. eapply wp_mono; [apply ArpAcdProbe_safe; exact Hw1|]. cbv beta. intros _ s2 [Hw2 B2]. wp_steps.
  set (a' := MkAcd true _ _ _ _). assert (Hw3 : wf 0 (set_acd a' s2)) by by destruct Hw2. eapply wp_mono; [by apply (arp_entries_quiet _ 64)|]. cbv beta. intros _ s3 [Hw4 B3].
  destruct B2 as (_ & _ & _ & Ex2 & Ec2), B3 as (_ & Ea3 & _ & Ex3 & Ec3). simpl in Ex3, Ea3, Ec3. rewrite Ex2 in Ex3. rewrite Ec2 in Ec3. simpl in Ex3, Ec3.
  unfold DhcpTick, NetNowMs, get_dhcp. wp_steps. change (id (n_dhcp (app s3))) with (n_dhcp (app s3)). assert (Hst : d_state (n_dhcp (app s3)) = DHCP_PROBING) by (rewrite Ex3; by apply Hd). rewrite Hst. apply wp_ret.
  split; [|unfold same_lease; by rewrite Ex3]. split_and!; [done| |by rewrite Ea3|rewrite Ea3; simpl; rewrite w8_small; lia|].
  - rewrite Ea3, Ex3. destruct Hd as [D1 D2 D3 D4 D5]. split; try done; simpl; [by rewrite <- D2, Ha|by auto].
  - rewrite Ea3, Ec3. simpl. unfold ACD_PROBE_MS. rewrite Z.sub_diag. done.
Qed.
Lemma poll_binds s : probing 3 s → wp poll_later (λ _ s', DhcpIsBound (n_dhcp (app s')) = true ∧ ip (netif s') = yiaddr_of (ack (n_dhcp (app s)))) s.
Proof.
  intros (Hw & Hd & Ha & Ep & Hdue). unfold poll_later. wp_steps. set (s1 := set_clock _ s). assert (Hw1 : wf 0 s1) by by destruct Hw.
  unfold ArpTick, NetNowMs. wp_steps. change (acd s1) with (acd s). change (clock s1) with (w32 (clock s + 1000)). rewrite Ha, (proj2 (Z.leb_le 0 _) Hdue), Ep. cbn [andb when].
  change (3 <? ACD_PROBE_NUM) with false. cbv iota. unfold ArpAcdFinish. wp_steps. change (acd s1) with (acd s). rewrite Ha. cbn [when]. wp_steps.
  destruct (di_acd _ _ Hd Ha) as [Ecb _]. rewrite Ecb. cbn [on_acd netd_upper]. change (CB_DHCP_ACD =? CB_DHCP_ACD) with true. cbv iota. unfold DhcpAcdDone, get_dhcp. wp_steps.
  destruct (di_ack _ _ Hd (proj1 (di_probing _ _ Hd) Ha)) as [Hb Hl]. eapply wp_mono; [apply DhcpEnterBound_dinv; [exact Hb|apply Hl|split_and!; [by destruct Hw1|done|apply Hd]]|].
  cbv beta. intros _ s2 (Hd2 & Hst & Hip). eapply wp_mono; [apply (arp_entries_quiet _ 64); [apply Hd2|lia]|]. cbv beta. intros _ s3 [Hw3 (En & _ & _ & Ex & _)].
  unfold DhcpTick, NetNowMs, get_dhcp. wp_steps. change (id (n_dhcp (app s3))) with (n_dhcp (app s3)). rewrite Ex, Hst.
  assert (Hq : DhcpIsBound (n_dhcp (app s3)) = true ∧ ip (netif s3) = yiaddr_of (ack (n_dhcp (app s)))) by (unfold DhcpIsBound; rewrite Ex, Hst, En; done).
  assert (Hren : ∀ st dst, st = DHCP_RENEWING ∨ st = DHCP_REBINDING →
            wp (upd_dhcp (set_d_state st) ;; DhcpSendRenew dst ;; ret tt) (λ _ s', DhcpIsBound (n_dhcp (app s')) = true ∧ ip (netif s') = yiaddr_of (ack (n_dhcp (app s)))) s3).
  { intros st dst Hs. unfold upd_dhcp, DhcpSendRenew. wp_steps. eapply wp_mono; [apply dhcp_send_below; [simpl; lia|by destruct Hw3]|]. cbv beta. intros rc s4 [_ (En4 & _ & _ & Ex4 & _)].
    simpl in En4. wp_steps. apply (wp_mono _ (λ _ s', DhcpIsBound (n_dhcp (app s')) = true ∧ netif s' = netif s4)).
    - apply wp_when; intros _; [unfold NetNowMs, upd_dhcp; wp_steps|]; (split; [|done]); unfold DhcpIsBound; simpl; rewrite Ex4; simpl; by destruct Hs as [-> | ->].
    - cbv beta. intros _ s5 [H5 E5]. wp_steps. split; [done|]. rewrite E5, En4. apply Hq. }
  apply wp_if; intros _; [by apply wp_ret|]. apply wp_if; intros _; [apply Hren; by right|]. apply wp_if; intros _; [apply Hren; by left|by apply wp_ret].
Qed.

(** An ACK the client accepts. *)
Definition ack_for (d : dhcp) (data : list Z) : Prop :=
  Forall is_byte data ∧ DHCP_MSG_SIZE ≤ Z.of_nat (length data) ≤ DHCP_ACK_BUFSZ ∧
  let m := DhcpMsg_of (take (Z.to_nat DHCP_MSG_SIZE) data) in
  m_op m = DHCP_OP_REPLY ∧ htonl (m_cookie m) = DHCP_MAGIC_COOKIE ∧ m_xid m = xid d ∧ DhcpFindOption data DHCP_OPT_MSGTYPE = Ok (Some [DHCP_ACK]).
Lemma DhcpRecv_ack data s :
  dinv s → d_state (n_dhcp (app s)) = DHCP_REQUESTING → ack_for (n_dhcp (app s)) data → u32 (clock s) →
  wp (DhcpRecv data) (λ _ s', probing 0 s' ∧ ack (n_dhcp (app s')) = data) s.
Proof.
  intros Hs Hst (Hb & Hl & Hop & Hck & Hxid & Hty) Hclk. pose proof (DhcpRecv_dinv data s Hb Hs) as Hinv.
  enough (Hgo : wp (DhcpRecv data) (λ _ s', acd s' = MkAcd true (acd_ip (acd s')) 0 (clock s) (Some CB_DHCP_ACD) ∧ clock s' = clock s ∧ ack (n_dhcp (app s')) = data) s).
  { unfold wp in *. destruct (DhcpRecv data s) as [[[] s']| |]; [|done|done]. destruct Hgo as (Ea & Ec & Ek). destruct Hinv as [Hw Hd]. split; [|done]. split_and!; [done|done|by rewrite Ea|by rewrite Ea|].
    rewrite Ea, Ec. simpl. unfold s32, w32, u32 in *. case_if E; Z.div_mod_to_equations; lia. }
  unfold DhcpRecv. rewrite (proj2 (Z.ltb_ge _ _)) by lia. apply wp_bind. eapply wp_of; [apply load_run; lia|]. rewrite Hop, Hck. change (negb (DHCP_OP_REPLY =? DHCP_OP_REPLY)) with false.
  change (negb (DHCP_MAGIC_COOKIE =? DHCP_MAGIC_COOKIE)) with false. cbv iota. unfold get_dhcp. wp_steps. change (id (n_dhcp (app s))) with (n_dhcp (app s)). rewrite Hxid, Z.eqb_refl. cbn [negb]. wp_steps.
  unfold the_option. rewrite Hty. eapply wp_of; [done|]. rewrite Hst. cbn [is_d]. change (is_d DHCP_REQUESTING DHCP_SELECTING && (DHCP_ACK =? DHCP_OFFER)) with false.
  change ((is_d DHCP_REQUESTING DHCP_REQUESTING || (is_d DHCP_REQUESTING DHCP_RENEWING || is_d DHCP_REQUESTING DHCP_REBINDING)) && (DHCP_ACK =? DHCP_ACK)) with true.
  change (is_d DHCP_REQUESTING DHCP_RENEWING || is_d DHCP_REQUESTING DHCP_REBINDING) with false. cbv iota. wp_steps.
  destruct (the_option_run data DHCP_OPT_SERVER_ID s Hb) as (r & Er & _). eapply wp_of; [exact Er|]. wp_steps.
  apply (wp_mono _ (λ _ s', clock s' = clock s)); [destruct r as [v|]; [apply wp_when; intros _; [unfold upd_dhcp; wp_steps|]|apply wp_ret]; done|]. cbv beta. intros _ s1 Ec.
  unfold DhcpBeginAcd, upd_dhcp, get_dhcp, ArpAcdStart, NetNowMs. wp_steps. simpl. rewrite Ec. split_and!; [done|done|]. apply take_ge. unfold DHCP_ACK_BUFSZ in *. lia.
Qed.

(** C27: an acknowledged address that nobody defends is bound: after the ACK, four polls a second apart with no frame in between
    lead to a bound lease of the acknowledged address. *)
Theorem dhcp_ack_binds data s :
  dinv s → d_state (n_dhcp (app s)) = DHCP_REQUESTING → ack_for (n_dhcp (app s)) data → u32 (clock s) →
  wp (DhcpRecv data ;; poll_later ;; poll_later ;; poll_later ;; poll_later) (λ _ s', DhcpIsBound (n_dhcp (app s')) = true ∧ ip (netif s') = yiaddr_of data) s.
Proof.
  intros Hs Hst Hack Hclk. apply wp_bind. eapply wp_mono; [by apply DhcpRecv_ack|]. cbv beta. intros _ s0 [H0 E0].
  apply wp_bind. eapply wp_mono; [by apply (poll_probes 0)|]. cbv beta. intros _ s1 [H1 E1]. apply wp_bind. eapply wp_mono; [by apply (poll_probes 1)|]. cbv beta. intros _ s2 [H2 E2].
  apply wp_bind. eapply wp_mono; [by apply (poll_probes 2)|]. cbv beta. intros _ s3 [H3 E3]. unfold same_lease in *. rewrite <- E0, <- E1, <- E2, <- E3. by apply poll_binds.
Qed.

(** * Errors of the client *)

(** The client in INIT: nothing that arrives or passes changes that. *)
Definition init_inv (a : Acd) (x : netd) : Prop := d_inv a x ∧ d_state (n_dhcp x) = DHCP_INIT.
Definition stuck (s : nst netd) : Prop := wf 0 s ∧ init_inv (acd s) (app s).
Lemma stuck_safe {X} (m : DM X) s : safe m → stuck s → wp m (λ _ s', stuck s') s.
Proof. intros Hm [Hs Hd]. eapply wp_mono; [by apply Hm|]. cbv beta. intros _ s' [H1 (_ & Ea & _ & Ex & _)]. split; [done|]. by rewrite Ea, Ex. Qed.
Lemma DhcpRecv_stuck data s : Forall is_byte data → stuck s → wp (DhcpRecv data) (λ _ s', stuck s') s.
Proof.
  intros Hb Hs. pose proof Hs as [_ [_ Hst]]. unfold DhcpRecv. apply wp_if; intros E; [by apply wp_ret|]. b2p. apply wp_bind. eapply wp_of; [by apply load_run|].
  apply wp_if; intros _; [by apply wp_ret|]. apply wp_if; intros _; [by apply wp_ret|]. unfold get_dhcp. wp_steps. apply wp_if; intros _; [by apply wp_ret|].
  apply wp_bind. destruct (the_option_run data DHCP_OPT_MSGTYPE s Hb) as (r & Er & _). eapply wp_of; [done|].
  destruct r as [[|ty [|]]|]; try (lazymatch goal with |- wp (ret _) _ _ => by apply wp_ret end). change (id (n_dhcp (app s))) with (n_dhcp (app s)). rewrite Hst. by apply wp_ret.
Qed.
Lemma run_call_stuck c s : stuck s → wp (run_call c) (λ _ s', stuck s') s.
Proof.
  intros Hs. assert (Hsafe : ∀ X (m : DM X), safe m → wp (m ;; ret tt) (λ _ s', stuck s') s).
  { intros X m Hm. apply wp_bind. eapply wp_mono; [by apply stuck_safe|]. cbv beta. intros _ s' H. by apply wp_ret. }
  destruct c; cbn [run_call].
  - apply Hsafe, UdpSend_safe.
  - apply wp_bind. eapply wp_mono; [apply UdpBind_wp, Hs|]. cbv beta. intros _ s' [Hw (t & ->)]. apply wp_ret. split; [done|apply Hs].
  - eapply wp_mono; [apply UdpUnbind_wp, Hs|]. cbv beta. intros _ s' [Hw (t & ->)]. split; [done|apply Hs].
  - apply Hsafe, TcpFrame_safe.
  - apply stuck_safe; [apply TcpSendRst_safe|done].
Qed.
Lemma run_calls_stuck l : ∀ s, stuck s → wp (run_calls l) (λ _ s', stuck s') s.
Proof.
  induction l as [|c l IH]; intros s Hs; cbn [run_calls foldr]; [by apply wp_ret|]. apply wp_bind. eapply wp_mono; [by apply run_call_stuck|]. cbv beta. intros _ s' H. by apply IH.
Qed.
Lemma react_stuck s : stuck s → wp react (λ _ s', stuck s') s.
Proof.
  intros Hs. unfold react. wp_steps. destruct (reactions (app s)) as [|l rs]; [by apply wp_ret|]. wp_steps. apply run_calls_stuck. destruct Hs as [Hw [[] Hst]]. split; [by destruct Hw|by split].
Qed.
Program Definition stuck_upper : UpperOk netd := {| up_inv n a t x := init_inv a x |}.
Next Obligation. intros _ a _ x p ms [[H1 H2 H3 H4 H5] Hst] Ha. rewrite H2, Hst in Ha. done. Qed.
Next Obligation.
  intros _ a _ x [[H1 H2 H3 H4 H5] Hst] Hn. split; [|done]. split; simpl; try done. by rewrite Hst.
Qed.
Next Obligation.
  intros h src sp dp data s Hb Hw Hd. cbn [on_udp netd_upper]. case_if E; [by apply DhcpRecv_stuck|]. case_if E1; [|by apply react_stuck].
  unfold UdpEchoHandler. apply wp_bind. eapply wp_mono; [apply stuck_safe; [apply UdpSend_safe|done]|]. cbv beta. intros _ s' H. by apply wp_ret.
Qed.
Next Obligation. intros src dst sp dp g s Hw Hd. by apply react_stuck. Qed.
Next Obligation. intros cb conflict a s Hw [[_ H2 _ _ _] Hst] Ha. rewrite H2, Hst in Ha. done. Qed.
Lemma netd_step_stuck x s : step_ok x → stuck s → wp (netd_step x) (λ _ s', stuck s') s.
Proof.
  intros Hx Hs. destruct x as [f| |c|ms|tail]; cbn [netd_step].
  - destruct Hx as (H1 & H2 & H3). apply wp_bind. unfold rx_frame. rewrite w16_small by (unfold NIC_FRAME_SIZE in H1; lia).
    eapply wp_mono; [apply (EthRx_fine (UPO := stuck_upper)); [done|lia|exact Hs]|]. cbv beta. intros _ s' H. by apply wp_ret.
  - apply wp_bind. eapply wp_mono; [apply (ArpTick_fine (UPO := stuck_upper)); exact Hs|]. cbv beta. intros _ s' H. pose proof H as [_ [_ Hst]].
    unfold DhcpTick, NetNowMs, get_dhcp. wp_steps. change (id (n_dhcp (app s'))) with (n_dhcp (app s')). rewrite Hst. by apply wp_ret.
  - by apply run_call_stuck.
  - wp_steps. destruct Hs as [Hw Hd]. split; [by destruct Hw|done].
  - wp_steps. destruct Hs as [Hw Hd]. split; [|done]. destruct Hw as [[] ]. by split.
Qed.
Lemma netd_run_stuck l : Forall step_ok l → ∀ s, stuck s → wp (netd_run l) (λ _ s', stuck s') s.
Proof.
  induction 1 as [|x l Hx _ IH]; intros s1 H1; cbn [netd_run foldr]; [by apply wp_ret|]. apply wp_bind. eapply wp_mono; [by apply netd_step_stuck|]. cbv beta. intros _ s2 H2. by apply IH.
Qed.
Lemma DhcpRestart_full s : idle s → PacketRingReserve (tx_ring s) = None → wp DhcpRestart (λ _ s', stuck s') s.
Proof.
  intros (Hs & Ha & Hp) Hfull. unfold DhcpRestart, NetNowMs, upd_dhcp, DhcpSendDiscover, dhcp_send, DhcpBuild, get_dhcp. wp_steps. unfold NetNowMs. wp_steps.
  match goal with |- context [DhcpMsg_bytes ?m] => pose proof (DhcpMsg_length m (wf_mac _ _ Hs)) as Hl end.
  rewrite (proj2 (Z.leb_le _ _)) by (rewrite !length_app, Hl; unfold DHCP_MSG_SIZE; simpl; lia). unfold UdpSend.
  rewrite (proj2 (Z.ltb_ge _ _)) by (rewrite !length_app, Hl; unfold UDP_MAX_PAYLOAD, NIC_MTU; simpl; lia). unfold TxFrameInit. wp_steps. simpl tx_ring. rewrite Hfull. wp_steps.
  change (ERR_BUFFULL =? ZUZU_OK) with false. cbn [when]. wp_steps. split; [by destruct Hs|]. split; [|done]. split; simpl; try done; rewrite Ha; done.
Qed.

(** C37: a client that restarts while the transmit ring is full stays in INIT: its poll does nothing there, so whatever frames,
    polls, calls and time follow, it never asks for an address again. *)
Theorem dhcp_restart_stalls s l :
  idle s → PacketRingReserve (tx_ring s) = None → Forall step_ok l → wp (DhcpRestart ;; netd_run l) (λ _ s', d_state (n_dhcp (app s')) = DHCP_INIT) s.
Proof.
  intros Hs Hfull Hl. apply wp_bind. eapply wp_mono; [by apply DhcpRestart_full|]. cbv beta. intros _ s1 H1.
  eapply wp_mono; [by apply netd_run_stuck|]. cbv beta. by intros _ s2 [_ [_ H]].
Qed.

(** A lease of 8589936 seconds or more is never renewed: the clock in milliseconds wraps before half of it is over. *)
Theorem dhcp_long_lease_kept s :
  d_state (n_dhcp (app s)) = DHCP_BOUND → t1_secs (n_dhcp (app s)) = lease_secs (n_dhcp (app s)) / 2 → t1_secs (n_dhcp (app s)) ≤ t2_secs (n_dhcp (app s)) →
  8589936 ≤ lease_secs (n_dhcp (app s)) → DhcpTick s = Ok (tt, s).
Proof.
  intros Hst Ht1 Ht2 Hl. unfold DhcpTick, NetNowMs, get_dhcp. rewrite !run_gets. change (id (n_dhcp (app s))) with (n_dhcp (app s)). rewrite Hst. case_if E; [done|].
  pose proof (w32_range (clock s - bound_ms (n_dhcp (app s)))) as Hr. set (h := w32 _ / 1000). assert (Hh : h ≤ 4294967) by (unfold h; Z.div_mod_to_equations; lia). clearbody h.
  assert (4294968 ≤ t1_secs (n_dhcp (app s))) by (rewrite Ht1; Z.div_mod_to_equations; lia). rewrite !(proj2 (Z.leb_gt _ h)) by lia. done.
Qed.

Module DhcpDemo.
(** A service whose client is in state [d], with an empty ring. *)
Definition mac0 : list Z := [2; 0; 0; 0; 0; 9].
Definition client (st : DhcpState) : dhcp := Dhcp st 77 0 0 0x0500000A 0x0100000A 0 0 0 0 0 true false [].
Definition service (r : NicRing) (my_ip : Z) (d : dhcp) : nst netd :=
  Nst r (MkNetif my_ip 0 0 0 mac0) 0 (replicate (Z.to_nat ARP_MAX_ENTRIES) arp_zero) (MkAcd false 0 0 0 None) (replicate (Z.to_nat UDP_MAX_TABLE) (MkUdpEntry 0 None))
    (MkRateLimiter 0 0) (MkRateLimiter 0 0) 5000 [] 0 [] (Netd d PortInit 0 []).
Definition ring_at (head tail : Z) : NicRing := PacketRing (λ _, Frame 0 (replicate 1536 0)) head tail.
Lemma ring_at_ok h t : 0 ≤ h < 16 → ring_ok (ring_at h t).
Proof. intros Hh. split; [done|]. intros i. apply length_replicate. Qed.
Lemma service_idle r my_ip d : ring_ok r → idle (service r my_ip d).
Proof. intros Hr. split_and!; [|done|apply PortInit_ok]. split; try done; [apply arp_empty_ok|apply udp_empty_ok]. Qed.

Definition zero_frame : NicFrame := Frame 60 (replicate 1536 0).
Lemma zero_frame_in : frame_in zero_frame.
Proof. split_and!; [simpl; lia|simpl; unfold NIC_FRAME_SIZE; lia|done|]. apply Forall_replicate. unfold is_byte. lia. Qed.
Lemma netd_never_fails_witness :
  wp (netd_main ;; netd_run [Clock 1500; Poll; Receive zero_frame]) (λ _ s', wf 0 s' ∧ d_inv (acd s') (app s')) (service (ring_at 0 0) 0 (client DHCP_INIT)).
Proof. apply (netd_never_fails _ [Clock 1500; Poll; Receive zero_frame]); [split; try done; by apply ring_at_ok|]. repeat (apply Forall_cons; split; [exact I || apply zero_frame_in|]). constructor. Defined.

(** An ACK of 10.0.0.6 for the transaction, though 10.0.0.5 was offered. *)
Definition ack_msg : list Z := DhcpMsg_bytes (MkDhcpMsg DHCP_OP_REPLY 77 0 0 0 0x0600000A mac0 (htonl DHCP_MAGIC_COOKIE)) ++ DhcpOptU8 DHCP_OPT_MSGTYPE DHCP_ACK ++ [DHCP_OPT_END].
Lemma ack_msg_ok : ack_for (client DHCP_REQUESTING) ack_msg.
Proof. split_and!; try by vm_compute. vm_compute. repeat constructor; discriminate. Qed.
Definition requesting := service (ring_at 0 0) 0 (client DHCP_REQUESTING).
Lemma requesting_dinv : dinv requesting.
Proof. apply idle_dinv; [by apply service_idle, ring_at_ok|done|done]. Qed.
Lemma dhcp_ack_binds_witness :
  wp (DhcpRecv ack_msg ;; poll_later ;; poll_later ;; poll_later ;; poll_later) (λ _ s', DhcpIsBound (n_dhcp (app s')) = true ∧ ip (netif s') = yiaddr_of ack_msg) requesting.
Proof. apply dhcp_ack_binds; [apply requesting_dinv|done|apply ack_msg_ok|unfold u32; simpl; lia]. Defined.
(** The address probed is the offered one, the address bound the acknowledged one: here they differ, and the address in use
    was never probed. *)
Theorem dhcp_binds_unprobed :
  match (DhcpRecv ack_msg ;; poll_later ;; poll_later ;; poll_later ;; poll_later) requesting with
  | Ok (_, s') => acd_ip (acd s') = 0x0500000A ∧ acd_probes (acd s') = 3 ∧ DhcpIsBound (n_dhcp (app s')) = true ∧ ip (netif s') = 0x0600000A
  | _ => False
  end.
Proof. by vm_compute. Qed.

Definition some_items : list item := [Opt 53 [5]; Pad; Opt 51 [0; 0; 14; 16]; Opt 1 [255; 255; 255; 0]].
Lemma DhcpFindOption_reads_witness :
  DhcpFindOption (replicate 240 0 ++ concat (item_bytes <$> some_items) ++ DHCP_OPT_END :: [1; 2]) 51 = Ok (Some [0; 0; 14; 16]).
Proof. apply (DhcpFindOption_reads (replicate 240 0) some_items [1; 2] 51); [done|]. repeat constructor; unfold DHCP_OPT_PAD, DHCP_OPT_END; simpl; lia. Defined.

Lemma dhcp_restart_stalls_witness :
  wp (DhcpRestart ;; netd_run [Driver 15; Clock 100000; Poll; Receive zero_frame]) (λ _ s', d_state (n_dhcp (app s')) = DHCP_INIT) (service (ring_at 15 0) 0 (client DHCP_REBINDING)).
Proof. apply dhcp_restart_stalls; [by apply service_idle, ring_at_ok|done|]. repeat (apply Forall_cons; split; [exact I || apply zero_frame_in|]). constructor. Defined.

(** A NAK in RENEWING: the client starts over but goes on using the refused address. *)
Definition nak_msg : list Z := DhcpMsg_bytes (MkDhcpMsg DHCP_OP_REPLY 77 0 0 0 0 mac0 (htonl DHCP_MAGIC_COOKIE)) ++ DhcpOptU8 DHCP_OPT_MSGTYPE DHCP_NAK ++ [DHCP_OPT_END].
Theorem dhcp_nak_keeps_address :
  match DhcpRecv nak_msg (service (ring_at 0 0) 0x0500000A (client DHCP_RENEWING)) with
  | Ok (_, s') => d_state (n_dhcp (app s')) = DHCP_SELECTING ∧ DhcpIsBound (n_dhcp (app s')) = false ∧ ip (netif s') = 0x0500000A
  | _ => False
  end.
Proof. by vm_compute. Qed.
End DhcpDemo.
