(* ===== verification/Fmt.v ===== *)
(** Formatted output: the formatting core of klib/string.c ([vstrfmt] and its helpers) and
    klib/snprintf.c.

    [vstrfmt] sends its characters to a sink.  The sink's state is a parameter with the memory it
    leaves behind, so the format, the strings and the arguments are read from the memory as the
    output changes it.  A [va_list] is an address: the arguments are words in memory, with 64-bit
    ones at a multiple of 8, as the calling convention of the target lays them out.  The digits
    of a [double] (%f, %e, %g) are a parameter; the rest of the conversion is modelled.  Loops
    over strings take fuel and end in [None] without it. *)
From S2P Require Import Prelude Str.

#[local] Open Scope Z_scope.

Definition s8 (z : Z) : Z := let u := w8 z in if u <? 2 ^ 7 then u else u - 2 ^ 8.
Definition s16 (z : Z) : Z := let u := w16 z in if u <? 2 ^ 15 then u else u - 2 ^ 16.
Definition s64 (z : Z) : Z := let u := w64 z in if u <? 2 ^ 63 then u else u - 2 ^ 64.

(** * Numbers and arguments *)

Definition digs_lo : list Z := [48; 49; 50; 51; 52; 53; 54; 55; 56; 57; 97; 98; 99; 100; 101; 102].
Definition digs_hi : list Z := [48; 49; 50; 51; 52; 53; 54; 55; 56; 57; 65; 66; 67; 68; 69; 70].

(** The loops of [utoa_ull]: [tmp] with the last digit first, for the bases that shift and for 10. *)
Fixpoint shift_digits (n : nat) (digs : list Z) (v mask shift : Z) (tmp : list Z) : option (list Z) :=
  if v =? 0 then Some tmp else
  match n with
  | O => None
  | S n' => shift_digits n' digs (Z.shiftr v shift) mask shift (tmp ++ [nth (Z.to_nat (Z.land v mask)) digs 0])
  end.
Fixpoint ten_digits (n : nat) (v : Z) (tmp : list Z) : option (list Z) :=
  if v =? 0 then Some tmp else
  match n with O => None | S n' => ten_digits n' (v / 10) (tmp ++ [w8 (48 + v mod 10)]) end.

(** The text [utoa_ull] leaves in the buffer; its length is the result.  [tmp] has room for 65
    characters: [None] if a loop would run further. *)
Definition utoa_ull (v base : Z) (uppercase : bool) : option (list Z) :=
  let digs := if uppercase then digs_hi else digs_lo in
  let base := if base <? 2 then 10 else base in
  let tmp := if v =? 0 then [48] else [] in
  let room := (65 - length tmp)%nat in
  let digits :=
    if base =? 16 then shift_digits room digs v 0xF 4 tmp
    else if base =? 8 then shift_digits room digs v 0x7 3 tmp
    else if base =? 2 then shift_digits room digs v 0x1 1 tmp
    else if base =? 10 then ten_digits room v tmp
    else Some [63] in
  @reverse Z <$> digits.

Inductive length_t := LEN_NONE | LEN_HH | LEN_H | LEN_L | LEN_LL | LEN_Z.

(** [va_arg] of a word and of a 64-bit value: the value and the list after it. *)
Definition word_at (m : mem) (a : Z) : Z :=
  w32 (m a + Z.shiftl (m (a + 1)) 8 + Z.shiftl (m (a + 2)) 16 + Z.shiftl (m (a + 3)) 24).
Definition va_word (m : mem) (ap : Z) : Z * Z := (word_at m ap, ap + 4).
Definition va_int (m : mem) (ap : Z) : Z * Z := (s32 (word_at m ap), ap + 4).
Definition va_dword (m : mem) (ap : Z) : Z * Z :=
  let ap := align_up ap 8 in (word_at m ap + Z.shiftl (word_at m (ap + 4)) 32, ap + 8).

Definition get_unsigned_arg (m : mem) (ap : Z) (len : length_t) : Z * Z :=
  match len with
  | LEN_HH => let '(v, ap) := va_word m ap in (w8 v, ap)
  | LEN_H => let '(v, ap) := va_word m ap in (w16 v, ap)
  | LEN_LL => va_dword m ap
  | _ => va_word m ap
  end.
Definition get_signed_arg (m : mem) (ap : Z) (len : length_t) : Z * Z :=
  match len with
  | LEN_HH => let '(v, ap) := va_int m ap in (s8 v, ap)
  | LEN_H => let '(v, ap) := va_int m ap in (s16 v, ap)
  | LEN_LL => let '(v, ap) := va_dword m ap in (s64 v, ap)
  | _ => va_int m ap
  end.

(** * Conversion specifications *)

Record flags := Flags { left : bool; zero : bool; plus : bool; space : bool; alt : bool }.
Definition no_flags : flags := Flags false false false false false.
Definition set_left (f : flags) : flags := Flags true (zero f) (plus f) (space f) (alt f).
Definition set_zero (b : bool) (f : flags) : flags := Flags (left f) b (plus f) (space f) (alt f).
Definition set_plus (f : flags) : flags := Flags (left f) (zero f) true (space f) (alt f).
Definition set_space (f : flags) : flags := Flags (left f) (zero f) (plus f) true (alt f).
Definition set_alt (f : flags) : flags := Flags (left f) (zero f) (plus f) (space f) true.

(** The flag a character stands for: - 0 + space #. *)
Definition flag_of (ch : Z) : option (flags → flags) :=
  if ch =? 45 then Some set_left else if ch =? 48 then Some (set_zero true)
  else if ch =? 43 then Some set_plus else if ch =? 32 then Some set_space
  else if ch =? 35 then Some set_alt else None.
Fixpoint parse_flags (fuel : nat) (m : mem) (fmt : Z) (fl : flags) : option (flags * Z) :=
  match flag_of (m fmt) with
  | Some set => match fuel with O => None | S f => parse_flags f m (fmt + 1) (set fl) end
  | None => Some (fl, fmt)
  end.
Fixpoint parse_int (fuel : nat) (m : mem) (p v : Z) : option (Z * Z) :=
  if is_digit (m p) then
    match fuel with O => None | S f => parse_int f m (p + 1) (s32 (v * 10 + (m p - 48))) end
  else Some (v, p).

(** Width: its value, the flags (a negative * argument means left), the format and the arguments. *)
Definition parse_width (fuel : nat) (m : mem) (fmt ap : Z) (fl : flags) : option (Z * flags * Z * Z) :=
  if m fmt =? 42 then
    let '(width, ap) := va_int m ap in
    Some (if width <? 0 then (s32 (- width), set_left fl, fmt + 1, ap) else (width, fl, fmt + 1, ap))
  else if is_digit (m fmt) then
    '(width, fmt) ← parse_int fuel m fmt 0; Some (width, fl, fmt, ap)
  else Some (0, fl, fmt, ap).

Definition parse_prec (fuel : nat) (m : mem) (fmt ap : Z) : option (Z * Z * Z) :=
  if m fmt =? 46 then
    let fmt := fmt + 1 in
    if m fmt =? 42 then
      let '(prec, ap) := va_int m ap in Some (if prec <? 0 then -1 else prec, fmt + 1, ap)
    else if is_digit (m fmt) then
      '(prec, fmt) ← parse_int fuel m fmt 0; Some (prec, fmt, ap)
    else Some (0, fmt, ap)
  else Some (-1, fmt, ap).

Definition parse_length (m : mem) (fmt : Z) : length_t * Z :=
  if m fmt =? 104 then
    if m (fmt + 1) =? 104 then (LEN_HH, fmt + 2) else (LEN_H, fmt + 1)
  else if m fmt =? 108 then
    if m (fmt + 1) =? 108 then (LEN_LL, fmt + 2) else (LEN_L, fmt + 1)
  else if m fmt =? 122 then (LEN_Z, fmt + 1)
  else (LEN_NONE, fmt).

(** What the text after a percent sign asks for; [sp_spec = 0] if the format ends in it. *)
Record spec := Spec { sp_flags : flags; sp_width : Z; sp_prec : Z; sp_len : length_t; sp_spec : Z }.
Definition parse_spec (fuel : nat) (m : mem) (fmt ap : Z) : option (spec * Z * Z) :=
  '(fl, fmt) ← parse_flags fuel m fmt no_flags;
  '(width, fl, fmt, ap) ← parse_width fuel m fmt ap fl;
  '(prec, fmt, ap) ← parse_prec fuel m fmt ap;
  let '(len, fmt) := parse_length m fmt in
  let ch := m fmt in
  let fl := if 0 <=? prec then set_zero false fl else fl in
  Some (Spec fl width prec len ch, if ch =? 0 then fmt else fmt + 1, ap).

(** * Output *)

Section sink.
Context {C : Type} (mem_of : C → mem) (outc : C → Z → C).
(** The sign character (0 for none) and the digits of a [double] given by its 64 bits. *)
Context (double_text : Z → spec → Z * list Z).
Context (F : nat).

Fixpoint repeat_n (n : nat) (c : C) (ch : Z) : C :=
  match n with O => c | S n' => repeat_n n' (outc c ch) ch end.
Definition emit_repeat (c : C) (ch count : Z) : C := repeat_n (Z.to_nat count) c ch.

(** [emit_strn] of a string in memory, which is read as the output goes, and of a local one. *)
Fixpoint emit_mem (n : nat) (c : C) (s : Z) : C :=
  match n with O => c | S n' => emit_mem n' (outc c (mem_of c s)) (s + 1) end.
Definition emit_strn (c : C) (s : list Z) : C := foldl outc c s.

Definition width_pad (width total : Z) : Z := if total <? width then width - total else 0.

Definition conv_c (c : C) (sp : spec) (ap : Z) : C * Z :=
  let '(v, ap) := va_int (mem_of c) ap in
  let pad := if 1 <? sp_width sp then sp_width sp - 1 else 0 in
  let c := if left (sp_flags sp) then c else emit_repeat c chr_space pad in
  let c := outc c (w8 v) in
  (if left (sp_flags sp) then emit_repeat c chr_space pad else c, ap).

Definition null_text : list Z := [40; 110; 117; 108; 108; 41].
Definition conv_s (c : C) (sp : spec) (ap : Z) : option (C * Z) :=
  let '(s, ap) := va_word (mem_of c) ap in
  len ← (if s =? 0 then Some 6 else strlen F (mem_of c) s);
  let slen := s32 len in
  let slen := if (0 <=? sp_prec sp) && (sp_prec sp <? slen) then sp_prec sp else slen in
  let pad := width_pad (sp_width sp) slen in
  let c := if left (sp_flags sp) then c else emit_repeat c chr_space pad in
  let c := if s =? 0 then emit_strn c (take (Z.to_nat slen) null_text) else emit_mem (Z.to_nat slen) c s in
  Some (if left (sp_flags sp) then emit_repeat c chr_space pad else c, ap).

(** The end of every number: padding, sign or prefix, zeros, digits. *)
Definition emit_number (c : C) (sp : spec) (pre : list Z) (zpad : Z) (num : list Z) : C :=
  let lft := left (sp_flags sp) in
  let total := s32 (Z.of_nat (length pre) + zpad + Z.of_nat (length num)) in
  let pad0 := zero (sp_flags sp) && negb lft in
  let wpad := width_pad (sp_width sp) total in
  let c := if negb lft && negb pad0 then emit_repeat c chr_space wpad else c in
  let c := emit_strn c pre in
  let c := if negb lft && pad0 then emit_repeat c chr_0 wpad else c in
  let c := emit_repeat c chr_0 zpad in
  let c := emit_strn c num in
  if lft then emit_repeat c chr_space wpad else c.
Definition zero_pad (prec : Z) (num : list Z) : Z :=
  let nlen := Z.of_nat (length num) in if nlen <? prec then prec - nlen else 0.

Definition sign_of (sp : spec) (neg : bool) : list Z :=
  if neg then [chr_minus] else if plus (sp_flags sp) then [chr_plus] else if space (sp_flags sp) then [chr_space] else [].
Definition conv_d (c : C) (sp : spec) (ap : Z) : option (C * Z) :=
  let '(v, ap) := get_signed_arg (mem_of c) ap (sp_len sp) in
  let uv := if v <? 0 then w64 (Z.lxor (w64 v) (2 ^ 64 - 1) + 1) else v in
  num ← utoa_ull uv 10 false;
  Some (emit_number c sp (sign_of sp (v <? 0)) (zero_pad (sp_prec sp) num) num, ap).

(** x X o b u *)
Definition base_of (ch : Z) : Z :=
  if (ch =? 120) || (ch =? 88) then 16 else if ch =? 111 then 8 else if ch =? 98 then 2 else 10.
(** The prefix and the digits after the # flag was looked at. *)
Definition alt_form (sp : spec) (v : Z) (num : list Z) : list Z * list Z :=
  let ch := sp_spec sp in
  if alt (sp_flags sp) then
    if ((ch =? 120) || (ch =? 88)) && negb (v =? 0) then ([48; 120], num)
    else if (ch =? 98) && negb (v =? 0) then ([48; 98], num)
    else if ch =? 111 then
      (if negb (v =? 0) && (sp_prec sp <=? Z.of_nat (length num)) then [48] else [],
       if (v =? 0) && (sp_prec sp =? 0) then [48] else num)
    else ([], num)
  else ([], num).
Definition conv_u (c : C) (sp : spec) (ap : Z) : option (C * Z) :=
  let '(v, ap) := get_unsigned_arg (mem_of c) ap (sp_len sp) in
  num ← (if (sp_prec sp =? 0) && (v =? 0) then Some [] else utoa_ull v (base_of (sp_spec sp)) (sp_spec sp =? 88));
  let '(prefix, num) := alt_form sp v num in
  Some (emit_number c sp prefix (zero_pad (sp_prec sp) num) num, ap).

Definition conv_p (c : C) (sp : spec) (ap : Z) : option (C * Z) :=
  let '(pv, ap) := va_word (mem_of c) ap in
  let eff_prec := if sp_prec sp <? 0 then 8 else sp_prec sp in
  num ← (if (eff_prec =? 0) && (pv =? 0) then Some [] else utoa_ull pv 16 (sp_spec sp =? 80));
  Some (emit_number c sp [48; 120] (zero_pad eff_prec num) num, ap).

Definition conv_f (c : C) (sp : spec) (ap : Z) : C * Z :=
  let '(val, ap) := va_dword (mem_of c) ap in
  let '(signch, numbuf) := double_text val sp in
  (emit_number c sp (if signch =? 0 then [] else [signch]) 0 numbuf, ap).

Definition one_of (ch : Z) (l : list Z) : bool := existsb (Z.eqb ch) l.
Definition convert (c : C) (sp : spec) (ap : Z) : option (C * Z) :=
  let ch := sp_spec sp in
  if ch =? 37 then Some (outc c 37, ap)
  else if ch =? 99 then Some (conv_c c sp ap)
  else if ch =? 115 then conv_s c sp ap
  else if one_of ch [100; 105] then conv_d c sp ap
  else if one_of ch [117; 120; 88; 111; 98] then conv_u c sp ap
  else if one_of ch [112; 80] then conv_p c sp ap
  else if one_of ch [102; 70; 101; 69; 103; 71] then Some (conv_f c sp ap)
  else Some (outc c ch, ap).

Fixpoint fmt_loop (fuel : nat) (c : C) (fmt ap : Z) : option C :=
  let ch := mem_of c fmt in
  if ch =? 0 then Some c else
  match fuel with
  | O => None
  | S f =>
      if negb (ch =? 37) then fmt_loop f (outc c ch) (fmt + 1) ap
      else
        '(sp, fmt, ap) ← parse_spec F (mem_of c) (fmt + 1) ap;
        if sp_spec sp =? 0 then Some c else
        '(c, ap) ← convert c sp ap;
        fmt_loop f c fmt ap
  end.
Definition vstrfmt (c : C) (fmt ap : Z) : option C :=
  if fmt =? 0 then Some c else fmt_loop F c fmt ap.
End sink.

(** * klib/snprintf.c *)

(** The sink's state: the memory and the position; the buffer ([0] for none) and the number of
    characters that fit do not change. *)
Record snprintf_ctx := SnCtx { sn_mem : mem; sn_pos : Z }.
Definition snprintf_outc (buf max : Z) (s : snprintf_ctx) (c : Z) : snprintf_ctx :=
  SnCtx (if (sn_pos s <? max) && negb (buf =? 0) then poke (sn_mem s) (buf + sn_pos s) c else sn_mem s)
        (w32 (sn_pos s + 1)).

Section snprintf.
Context (double_text : Z → spec → Z * list Z) (F : nat).

(** The memory after the call and the result. *)
Definition vsnprintf (m : mem) (buf size fmt args : Z) : option (mem * Z) :=
  let dest := if negb (buf =? 0) && negb (size =? 0) then buf else 0 in
  let max := if 0 <? size then size - 1 else 0 in
  s ← vstrfmt sn_mem (snprintf_outc dest max) double_text F (SnCtx m 0) fmt args;
  let m := if negb (buf =? 0) && negb (size =? 0)
           then poke (sn_mem s) (buf + (if sn_pos s <? size - 1 then sn_pos s else size - 1)) 0
           else sn_mem s in
  Some (m, s32 (sn_pos s)).
End snprintf.

(** * Digits *)

(** Both loops of [utoa_ull], for a base and the characters of its digits. *)
Fixpoint digit_loop (b : Z) (dig : Z → Z) (n : nat) (v : Z) (tmp : list Z) : option (list Z) :=
  if v =? 0 then Some tmp else
  match n with O => None | S n' => digit_loop b dig n' (v / b) (tmp ++ [dig (v mod b)]) end.
Lemma shift_digits_loop k digs n : 0 ≤ k → ∀ v tmp,
  shift_digits n digs v (Z.ones k) k tmp = digit_loop (2 ^ k) (λ d, nth (Z.to_nat d) digs 0) n v tmp.
Proof.
  intros Hk. induction n as [|n IH]; intros v tmp; simpl; [done|]. case_if E; [done|].
  by rewrite IH, Z.shiftr_div_pow2, Z.land_ones by lia.
Qed.
Lemma ten_digits_loop n : ∀ v tmp, ten_digits n v tmp = digit_loop 10 digit_char n v tmp.
Proof.
  induction n as [|n IH]; intros v tmp; simpl; [done|]. case_if E; [done|]. rewrite IH. unfold digit_char.
  by rewrite (proj2 (Z.ltb_lt _ 10)) by (apply Z.mod_pos_bound; lia).
Qed.
Lemma digit_loop_spec b dig (Hb : 2 ≤ b) j : ∀ n v tmp, (j ≤ n)%nat → 0 ≤ v < b ^ Z.of_nat j →
  ∃ ds, digit_loop b dig n v tmp = Some (tmp ++ (dig <$> ds)) ∧ be_val b 0 (reverse ds) = v ∧ Forall (λ d, 0 ≤ d < b) ds ∧
    (length ds ≤ j)%nat ∧ (v ≠ 0 → ds ≠ []).
Proof.
  induction j as [|j IH]; intros n v tmp Hn Hv; simpl in Hv.
  - assert (v = 0) as -> by (simpl in Hv; lia). exists []. rewrite app_nil_r. split_and!; [by destruct n|done..].
  - destruct n as [|n]; [lia|]. cbn [digit_loop]. destruct (Z.eqb_spec v 0) as [->|Hv0]; [exists []; rewrite app_nil_r; split_and!; simpl; (done || lia)|].
    assert (0 ≤ v / b < b ^ Z.of_nat j) as Hq.
    { rewrite Nat2Z.inj_succ, Z.pow_succ_r in Hv by lia.
      split; [apply Z.div_pos; lia|]. apply Z.div_lt_upper_bound; lia. }
    destruct (IH n (v / b) (tmp ++ [dig (v mod b)]) ltac:(lia) Hq) as (ds & E & Hval & Hd & Hlen & _). exists (v mod b :: ds).
    split_and!; [by rewrite E, fmap_cons, <- app_assoc| | |simpl; lia|done].
    + rewrite reverse_cons, be_val_snoc, Hval. pose proof (Z.div_mod v b). lia.
    + constructor; [|done]. apply Z.mod_pos_bound. lia.
Qed.

(** The characters of [utoa_ull]. *)
Definition ull_char (uppercase : bool) (d : Z) : Z := nth (Z.to_nat d) (if uppercase then digs_hi else digs_lo) 0.
Definition ull_base (base : Z) : Prop := base = 2 ∨ base = 8 ∨ base = 10 ∨ base = 16.

Lemma ull_char_ten d uppercase : 0 ≤ d < 10 → ull_char uppercase d = digit_char d.
Proof.
  intros Hd. assert (d = 0 ∨ d = 1 ∨ d = 2 ∨ d = 3 ∨ d = 4 ∨ d = 5 ∨ d = 6 ∨ d = 7 ∨ d = 8 ∨ d = 9) as Hc by lia.
  destruct uppercase; repeat destruct Hc as [->|Hc]; try (by vm_compute); subst; by vm_compute.
Qed.
Lemma utoa_ull_loop v base uppercase : ull_base base →
  utoa_ull v base uppercase =
    @reverse Z <$> digit_loop base (if base =? 10 then digit_char else ull_char uppercase) (65 - length (if v =? 0 then [48] else []))
      v (if v =? 0 then [48] else []).
Proof.
  intros [->|[->|[->| ->]]]; refine (f_equal (fmap _) _);
    [exact (shift_digits_loop 1 _ _ ltac:(lia) _ _)|exact (shift_digits_loop 3 _ _ ltac:(lia) _ _)|apply ten_digits_loop|
     exact (shift_digits_loop 4 _ _ ltac:(lia) _ _)].
Qed.

(** Every value below [base ^ j] has a text of at most [j] characters, which stand for it. *)
Lemma utoa_ull_digits j v base uppercase : ull_base base → (1 ≤ j ≤ 64)%nat → 0 ≤ v < base ^ Z.of_nat j →
  ∃ ds, utoa_ull v base uppercase = Some (ull_char uppercase <$> ds) ∧ ds ≠ [] ∧ (length ds ≤ j)%nat ∧
    Forall (λ d, 0 ≤ d < base) ds ∧ be_val base 0 ds = v.
Proof.
  intros Hb Hj Hv. rewrite utoa_ull_loop by done. assert (2 ≤ base) as Hb2 by (unfold ull_base in Hb; lia).
  destruct (Z.eqb_spec v 0) as [->|Hv0].
  { exists [0]. split_and!; [|done|simpl; lia|repeat constructor; lia|simpl; lia]. simpl. by destruct uppercase. }
  destruct (digit_loop_spec base (if base =? 10 then digit_char else ull_char uppercase) Hb2 j 65 v [] ltac:(lia) ltac:(lia)) as (ds & E & Hval & Hd & Hlen & Hne).
  change (65 - length [])%nat with 65%nat. rewrite E. exists (reverse ds). rewrite length_reverse, Forall_reverse. split_and!; try done.
  - simpl. f_equal. rewrite fmap_reverse. f_equal. destruct (Z.eqb_spec base 10) as [->|]; [|done]. apply list_fmap_ext.
    intros i d Hi. symmetry. apply ull_char_ten. by eapply (proj1 (Forall_lookup _ _) Hd).
  - intros E0. apply Hne; [done|]. by rewrite <- (reverse_involutive ds), E0.
Qed.
Lemma utoa_ull_ok v base uppercase : ull_base base → 0 ≤ v < 2 ^ 64 →
  ∃ ds, utoa_ull v base uppercase = Some (ull_char uppercase <$> ds) ∧ ds ≠ [] ∧ (length ds ≤ 64)%nat ∧
    Forall (λ d, 0 ≤ d < base) ds ∧ be_val base 0 ds = v.
Proof.
  intros Hb Hv. apply utoa_ull_digits; [done|lia|]. assert (2 ^ 64 ≤ base ^ Z.of_nat 64); [|lia].
  apply (Z.pow_le_mono_l 2 base 64). unfold ull_base in Hb. lia.
Qed.

(** * The output of [vstrfmt] *)

Lemma word_range m a : 0 ≤ word_at m a < 2 ^ 32.
Proof. unfold word_at, w32. apply Z.mod_pos_bound. lia. Qed.
Lemma dword_range m ap : 0 ≤ (va_dword m ap).1 < 2 ^ 64.
Proof.
  unfold va_dword. cbn [fst]. rewrite Z.shiftl_mul_pow2 by lia.
  pose proof (word_range m (align_up ap 8)). pose proof (word_range m (align_up ap 8 + 4)). lia.
Qed.
Lemma unsigned_arg_range m ap len : 0 ≤ (get_unsigned_arg m ap len).1 < 2 ^ 64.
Proof.
  pose proof (word_range m ap). destruct len; try apply dword_range; unfold get_unsigned_arg, va_word; cbn [fst]; unfold w8, w16; try lia;
    Z.div_mod_to_equations; lia.
Qed.
Lemma signed_arg_range m ap len : - 2 ^ 63 ≤ (get_signed_arg m ap len).1 < 2 ^ 63.
Proof.
  destruct len; unfold get_signed_arg, va_int, va_dword; cbn [fst]; unfold s8, s16, s32, s64, w8, w16, w32, w64; case_if E; Z.div_mod_to_equations; lia.
Qed.
Lemma magnitude v : - 2 ^ 63 ≤ v < 2 ^ 63 → (if v <? 0 then w64 (Z.lxor (w64 v) (2 ^ 64 - 1) + 1) else v) = Z.abs v.
Proof.
  intros Hv. destruct (Z.ltb_spec v 0); [|lia]. rewrite Z.abs_neq by lia. change (2 ^ 64 - 1) with (Z.ones 64).
  assert (0 ≤ w64 v < 2 ^ 64) as Hw by (apply Z.mod_pos_bound; lia).
  assert (Z.lxor (w64 v) (Z.ones 64) = Z.ones 64 - w64 v) as ->.
  { rewrite Z.sub_nocarry_ldiff.
    - apply Z.bits_inj'. intros i Hi. rewrite Z.lxor_spec, Z.ldiff_spec, Z.testbit_ones_nonneg by lia.
      destruct (Z.ltb_spec i 64); [by destruct (Z.testbit _ i)|]. rewrite (testbit_high 64 (w64 v)) by lia. done.
    - apply Z.bits_inj'. intros i Hi. rewrite Z.ldiff_spec, Z.testbit_ones_nonneg, Z.bits_0 by lia.
      destruct (Z.ltb_spec i 64); [by rewrite andb_false_r|]. by rewrite (testbit_high 64 (w64 v)) by lia. }
  change (Z.ones 64) with (2 ^ 64 - 1). unfold w64 in *. Z.div_mod_to_equations. lia.
Qed.

(** Strings end within [n] bytes of [p]. *)
Lemma strlen_from_total n m : ∀ p k len, (k ≤ n)%nat → m (p + Z.of_nat k) = 0 → is_Some (strlen_from n m p len).
Proof.
  induction n as [|n IH]; intros p k len Hk Hz; simpl; destruct (Z.eqb_spec (m p) 0) as [|Hne]; try by eexists.
  - destruct k; [|lia]. by rewrite Z.add_0_r in Hz.
  - destruct k as [|k]; [by rewrite Z.add_0_r in Hz|]. apply (IH (p + 1) k); [lia|]. rewrite <- Hz. f_equal. lia.
Qed.

Section run.
Context {C : Type} (mem_of : C → mem) (outc : C → Z → C) (double_text : Z → spec → Z * list Z) (F : nat).
(** The output keeps [I] and does not touch the addresses that are [stable], where [m0] says what stands. *)
Context (I : C → Prop) (I_outc : ∀ c ch, I c → I (outc c ch)).
Context (m0 : mem) (stable : Z → Prop) (I_stable : ∀ c x, I c → stable x → mem_of c x = m0 x).
Context (strings_end : ∀ p, ∃ n, (n ≤ F)%nat ∧ stable (p + Z.of_nat n) ∧ m0 (p + Z.of_nat n) = 0).

(** [c'] is [c] after some characters. *)
Definition emitted (c c' : C) : Prop := ∃ out, c' = foldl outc c out.

Lemma emitted_refl c : emitted c c.
Proof. by exists []. Qed.
Lemma emitted_outc c c' ch : emitted c c' → emitted c (outc c' ch).
Proof. intros [out ->]. exists (out ++ [ch]). by rewrite foldl_app. Qed.
Lemma emitted_strn c c' s : emitted c c' → emitted c (emit_strn outc c' s).
Proof. intros [out ->]. exists (out ++ s). by rewrite foldl_app. Qed.
Lemma emitted_repeat c c' ch count : emitted c c' → emitted c (emit_repeat outc c' ch count).
Proof.
  unfold emit_repeat. revert c'. induction (Z.to_nat count) as [|n IH]; intros c' H; simpl; [done|]. by apply IH, emitted_outc.
Qed.
Lemma emitted_mem c n : ∀ c' s, emitted c c' → emitted c (emit_mem mem_of outc n c' s).
Proof. induction n as [|n IH]; intros c' s H; simpl; [done|]. by apply IH, emitted_outc. Qed.
Lemma emitted_if c (b : bool) c1 c2 : emitted c c1 → emitted c c2 → emitted c (if b then c1 else c2).
Proof. by destruct b. Qed.
Lemma emitted_trans c1 c2 c3 : emitted c1 c2 → emitted c2 c3 → emitted c1 c3.
Proof. intros [o1 ->] [o2 ->]. exists (o1 ++ o2). by rewrite foldl_app. Qed.
Lemma emitted_I c c' : emitted c c' → I c → I c'.
Proof. intros [out ->]. revert c. induction out as [|ch out IH]; intros c Hc; simpl; [done|]. by apply IH, I_outc. Qed.
#[local] Hint Resolve emitted_refl emitted_outc emitted_strn emitted_repeat emitted_mem emitted_if : emits.

Lemma emitted_number c sp pre zpad num : emitted c (emit_number outc c sp pre zpad num).
Proof. unfold emit_number. auto 10 with emits. Qed.
#[local] Hint Resolve emitted_number : emits.

Lemma utoa_ull_total v base uppercase : ull_base base → 0 ≤ v < 2 ^ 64 → is_Some (utoa_ull v base uppercase).
Proof. intros Hb Hv. destruct (utoa_ull_ok v base uppercase Hb Hv) as (ds & -> & _). by eexists. Qed.

Lemma base_of_ok ch : ull_base (base_of ch).
Proof. unfold ull_base, base_of. destruct (_ || _), (ch =? 111), (ch =? 98); lia. Qed.

(** Every conversion returns, having only sent characters to the sink. *)
Lemma convert_emits c sp ap : I c → ∃ c' ap', convert mem_of outc double_text F c sp ap = Some (c', ap') ∧ emitted c c'.
Proof.
  intros Hc. unfold convert. case_if E1; [eauto with emits|]. case_if E2; [unfold conv_c; simpl; eexists _, _; split; [done|by auto 10 with emits]|].
  case_if E3.
  { unfold conv_s, va_word. cbv beta iota. set (s := word_at _ ap). destruct (strings_end s) as (n & Hn & Hst & Hz). rewrite <- (I_stable c _ Hc Hst) in Hz.
    destruct (strlen_from_total F _ s n 0 Hn Hz) as [len El]. assert (is_Some (if s =? 0 then Some 6 else strlen F (mem_of c) s)) as [len' ->] by (case_if E; by eexists).
    cbv beta iota delta [mbind option_bind]. eexists _, _. split; [done|]. auto 10 with emits. }
  case_if E4.
  { unfold conv_d. pose proof (signed_arg_range (mem_of c) ap (sp_len sp)) as Hr. destruct (get_signed_arg _ _ _) as [v ap']. cbn [fst] in Hr.
    rewrite magnitude by done. destruct (utoa_ull_total (Z.abs v) 10 false) as [num ->]; [unfold ull_base; lia..|]. simpl. eauto with emits. }
  case_if E5.
  { unfold conv_u. pose proof (unsigned_arg_range (mem_of c) ap (sp_len sp)) as Hr. destruct (get_unsigned_arg _ _ _) as [v ap']. cbn [fst] in Hr.
    destruct (utoa_ull_total v (base_of (sp_spec sp)) (sp_spec sp =? 88)) as [num E]; [apply base_of_ok|done|].
    rewrite E. case_if E6; simpl; destruct (alt_form _ _ _) as [pre num']; eauto with emits. }
  case_if E6.
  { unfold conv_p, va_word. pose proof (word_range (mem_of c) ap) as Hr. cbv beta iota zeta. set (v := word_at _ ap) in *.
    destruct (utoa_ull_total v 16 (sp_spec sp =? 80)) as [num E]; [unfold ull_base; lia..|]. rewrite E. destruct (_ && _); simpl; eauto with emits. }
  case_if E7; [|eauto with emits]. unfold conv_f. simpl. destruct (double_text _ _) as [sg num]. eauto with emits.
Qed.

(** The rest of the format, [l], and its terminator are stable. *)
Definition fmt_at (fmt : Z) (l : list Z) : Prop := cstr m0 fmt l ∧ ∀ x, fmt ≤ x ≤ fmt + Z.of_nat (length l) → stable x.

Lemma fmt_char c fmt l : I c → fmt_at fmt l →
  match l with [] => mem_of c fmt = 0 | ch :: l' => mem_of c fmt = ch ∧ 0 < ch ∧ fmt_at (fmt + 1) l' end.
Proof.
  intros Hc [Hs Hst]. rewrite (I_stable c fmt Hc) by (apply Hst; lia). destruct l as [|ch l]; simpl in *; [done|].
  destruct Hs as (H1 & H2 & H3). split_and!; [done|lia|split; [done|]]. intros x Hx. apply Hst. lia.
Qed.
(** [fmt'] is further on in the same format. *)
Definition later (n : nat) (fmt' : Z) : Prop := ∃ l', fmt_at fmt' l' ∧ (length l' ≤ n)%nat.
Lemma later_mono n n' fmt : (n ≤ n')%nat → later n fmt → later n' fmt.
Proof. intros Hn (l & Hl & Hle). exists l. split; [done|lia]. Qed.
Lemma later_read c n fmt : I c → later n fmt → mem_of c fmt = 0 ∨ ∃ n', n = S n' ∧ later n' (fmt + 1).
Proof.
  intros Hc ([|ch l] & Hl & Hle); pose proof (fmt_char c fmt _ Hc Hl) as Hch; [by left|]. right. destruct Hch as (_ & _ & Hl').
  destruct n as [|n]; [simpl in Hle; lia|]. exists n. split; [done|]. exists l. split; [done|]. simpl in Hle. lia.
Qed.
Lemma later_step c n fmt : I c → later n fmt → mem_of c fmt ≠ 0 → later n (fmt + 1) ∧ (0 < n)%nat.
Proof. intros Hc Hl Hne. destruct (later_read c n fmt Hc Hl) as [|(n' & -> & Hl')]; [done|]. split; [eapply later_mono; [|done]; lia|lia]. Qed.

Lemma parse_flags_later c f : ∀ n fmt fl, I c → later n fmt → (n ≤ f)%nat →
  ∃ fl' fmt', parse_flags f (mem_of c) fmt fl = Some (fl', fmt') ∧ later n fmt'.
Proof.
  induction f as [|f IH]; intros n fmt fl Hc Hl Hn; simpl; (destruct (flag_of _) as [set|] eqn:E; [|by eauto]);
    (destruct (later_read c n fmt Hc Hl) as [E0|(n' & -> & Hl')]; [by rewrite E0 in E|]); [lia|].
  destruct (IH n' (fmt + 1) (set fl) Hc Hl' ltac:(lia)) as (fl' & fmt' & -> & Hl''). eexists _, _. split; [done|]. eapply later_mono; [|done]. lia.
Qed.
Lemma parse_int_later c f : ∀ n fmt v, I c → later n fmt → (n ≤ f)%nat →
  ∃ v' fmt', parse_int f (mem_of c) fmt v = Some (v', fmt') ∧ later n fmt'.
Proof.
  induction f as [|f IH]; intros n fmt v Hc Hl Hn; simpl; (destruct (is_digit _) eqn:E; [|by eauto]);
    (destruct (later_read c n fmt Hc Hl) as [E0|(n' & -> & Hl')]; [by rewrite E0 in E|]); [lia|].
  destruct (IH n' (fmt + 1) (s32 (v * 10 + (mem_of c fmt - 48))) Hc Hl' ltac:(lia)) as (v' & fmt' & -> & Hl''). eexists _, _. split; [done|].
  eapply later_mono; [|done]. lia.
Qed.

Lemma is_digit_ne0 ch : is_digit ch = true → ch ≠ 0.
Proof. by intros H ->. Qed.
Lemma parse_width_later c n fmt ap fl : I c → later n fmt → (n ≤ F)%nat →
  ∃ w fl' fmt' ap', parse_width F (mem_of c) fmt ap fl = Some (w, fl', fmt', ap') ∧ later n fmt'.
Proof.
  intros Hc Hl Hn. unfold parse_width. destruct (Z.eqb_spec (mem_of c fmt) 42) as [E|_].
  - destruct (later_step c n fmt Hc Hl ltac:(lia)) as [Hl' _]. simpl. case_if E'; eauto 10.
  - destruct (is_digit _); [|eauto 10]. destruct (parse_int_later c F n fmt 0 Hc Hl Hn) as (v & fmt' & -> & Hl'). simpl. eauto 10.
Qed.
Lemma parse_prec_later c n fmt ap : I c → later n fmt → (n ≤ F)%nat →
  ∃ p fmt' ap', parse_prec F (mem_of c) fmt ap = Some (p, fmt', ap') ∧ later n fmt'.
Proof.
  intros Hc Hl Hn. unfold parse_prec. destruct (Z.eqb_spec (mem_of c fmt) 46) as [E|_]; [|eauto 10].
  destruct (later_step c n fmt Hc Hl ltac:(lia)) as [Hl' _]. destruct (Z.eqb_spec (mem_of c (fmt + 1)) 42) as [E'|_].
  - destruct (later_step c n _ Hc Hl' ltac:(lia)) as [Hl'' _]. simpl. eauto 10.
  - destruct (is_digit _); [|eauto 10]. destruct (parse_int_later c F n _ 0 Hc Hl' Hn) as (v & fmt' & -> & Hl''). simpl. eauto 10.
Qed.
Lemma parse_length_later c n fmt : I c → later n fmt → later n (parse_length (mem_of c) fmt).2.
Proof.
  intros Hc Hl. unfold parse_length.
  assert (∀ k d, k ≠ 0 → mem_of c fmt = k → mem_of c (fmt + 1) = d → d ≠ 0 → later n (fmt + 2)) as H2.
  { intros k d Hk E E' Hd. destruct (later_step c n fmt Hc Hl ltac:(lia)) as [Hl' _]. destruct (later_step c n _ Hc Hl' ltac:(lia)) as [Hl'' _].
    by replace (fmt + 2) with (fmt + 1 + 1) by lia. }
  assert (mem_of c fmt ≠ 0 → later n (fmt + 1)) as H1 by (intros Hne; by apply (later_step c n fmt Hc Hl)).
  repeat (let E := fresh "E" in case_if E); simpl; first [done | apply H1; lia | eapply H2; [|done|done|]; lia].
Qed.

Lemma parse_spec_later c n fmt ap : I c → later n fmt → (n ≤ F)%nat →
  ∃ sp fmt' ap', parse_spec F (mem_of c) fmt ap = Some (sp, fmt', ap') ∧ later n fmt'.
Proof.
  intros Hc Hl Hn. unfold parse_spec.
  destruct (parse_flags_later c F n fmt no_flags Hc Hl Hn) as (fl & f1 & -> & H1). cbv beta iota delta [mbind option_bind].
  destruct (parse_width_later c n f1 ap fl Hc H1 Hn) as (w & fl' & f2 & a2 & -> & H2). cbv beta iota.
  destruct (parse_prec_later c n f2 a2 Hc H2 Hn) as (p & f3 & a3 & -> & H3). cbv beta iota.
  pose proof (parse_length_later c n f3 Hc H3) as H4. destruct (parse_length _ f3) as [len f4]. cbn [snd] in H4.
  eexists _, _, _. split; [done|]. destruct (Z.eqb_spec (mem_of c f4) 0); [done|]. by apply (later_step c n f4 Hc H4).
Qed.

Lemma fmt_loop_emits f : ∀ c n fmt ap, I c → later n fmt → (n ≤ f)%nat → (n ≤ F)%nat →
  ∃ c', fmt_loop mem_of outc double_text F f c fmt ap = Some c' ∧ emitted c c'.
Proof.
  induction f as [|f IH]; intros c n fmt ap Hc Hl Hn HF; cbn [fmt_loop];
    (destruct (Z.eqb_spec (mem_of c fmt) 0) as [E|E]; [eauto with emits|]);
    (destruct (later_read c n fmt Hc Hl) as [|(n' & -> & Hl')]; [done|]); [lia|].
  case_if E37.
  - destruct (IH (outc c (mem_of c fmt)) n' (fmt + 1) ap (I_outc _ _ Hc) Hl' ltac:(lia) ltac:(lia)) as (c' & -> & He).
    exists c'. split; [done|]. eapply emitted_trans; [|done]. auto with emits.
  - destruct (parse_spec_later c n' (fmt + 1) ap Hc Hl' ltac:(lia)) as (sp & f1 & a1 & -> & H1). cbv beta iota delta [mbind option_bind].
    case_if E0; [eauto with emits|]. destruct (convert_emits c sp a1 Hc) as (c1 & a2 & -> & He). cbv beta iota.
    destruct (IH c1 n' f1 a2 (emitted_I _ _ He Hc) H1 ltac:(lia) ltac:(lia)) as (c' & -> & He'). exists c'. split; [done|]. by eapply emitted_trans.
Qed.

(** [vstrfmt] returns, and all it does is to send characters to the sink. *)
Lemma vstrfmt_emits c fmt ap l : I c → fmt_at fmt l → (length l ≤ F)%nat →
  ∃ out, vstrfmt mem_of outc double_text F c fmt ap = Some (foldl outc c out).
Proof.
  intros Hc Hl Hn. unfold vstrfmt. case_if E; [by exists []|].
  destruct (fmt_loop_emits F c (length l) fmt ap Hc ltac:(by exists l) Hn Hn) as (c' & -> & out & ->). by exists out.
Qed.
End run.

(** * Sinks that agree

    A sink that does what another does, and more, gets the same characters. *)

Section agree.
Context {C C' : Type} (mem_of : C → mem) (outc : C → Z → C) (mem_of' : C' → mem) (outc' : C' → Z → C').
Context (double_text : Z → spec → Z * list Z) (F : nat) (h : C' → C).
Context (h_mem : ∀ c, mem_of (h c) = mem_of' c) (h_outc : ∀ c ch, h (outc' c ch) = outc (h c) ch).

Lemma h_repeat c ch count : h (emit_repeat outc' c ch count) = emit_repeat outc (h c) ch count.
Proof. unfold emit_repeat. revert c. induction (Z.to_nat count) as [|n IH]; intros c; simpl; [done|]. by rewrite IH, h_outc. Qed.
Lemma h_strn c s : h (emit_strn outc' c s) = emit_strn outc (h c) s.
Proof. unfold emit_strn. revert c. induction s as [|ch s IH]; intros c; simpl; [done|]. by rewrite IH, h_outc. Qed.
Lemma h_emit_mem n : ∀ c s, h (emit_mem mem_of' outc' n c s) = emit_mem mem_of outc n (h c) s.
Proof. induction n as [|n IH]; intros c s; simpl; [done|]. by rewrite IH, h_outc, h_mem. Qed.
Lemma h_if (b : bool) c1 c2 : h (if b then c1 else c2) = if b then h c1 else h c2.
Proof. by destruct b. Qed.
Lemma h_number c sp pre zpad num : h (emit_number outc' c sp pre zpad num) = emit_number outc (h c) sp pre zpad num.
Proof. unfold emit_number. by repeat rewrite ?h_if, ?h_strn, ?h_repeat. Qed.

Lemma h_conv_c c sp ap : conv_c mem_of outc (h c) sp ap = prod_map h id (conv_c mem_of' outc' c sp ap).
Proof. unfold conv_c, prod_map, va_int. rewrite h_mem. cbv beta iota delta [fst snd id]. by repeat rewrite ?h_if, ?h_outc, ?h_repeat. Qed.
Lemma h_conv_s c sp ap : conv_s mem_of outc F (h c) sp ap = prod_map h id <$> conv_s mem_of' outc' F c sp ap.
Proof.
  unfold conv_s, va_word. rewrite h_mem. cbv beta iota. destruct (if _ : bool then Some 6 else strlen _ _ _); [|done].
  cbv beta iota delta [mbind option_bind fmap option_fmap option_map prod_map fst snd id].
  by repeat rewrite ?h_if, ?h_strn, ?h_emit_mem, ?h_repeat.
Qed.
Lemma h_conv_d c sp ap : conv_d mem_of outc (h c) sp ap = prod_map h id <$> conv_d mem_of' outc' c sp ap.
Proof.
  unfold conv_d. rewrite h_mem. destruct (get_signed_arg _ _ _) as [v ap']. destruct (utoa_ull _ _ _); [|done].
  cbv beta iota delta [mbind option_bind fmap option_fmap option_map prod_map fst snd id]. by rewrite h_number.
Qed.
Lemma h_conv_u c sp ap : conv_u mem_of outc (h c) sp ap = prod_map h id <$> conv_u mem_of' outc' c sp ap.
Proof.
  unfold conv_u. rewrite h_mem. destruct (get_unsigned_arg _ _ _) as [v ap']. destruct (if _ : bool then Some [] else utoa_ull _ _ _); [|done].
  cbv beta iota delta [mbind option_bind]. destruct (alt_form _ _ _).
  cbv beta iota delta [fmap option_fmap option_map prod_map fst snd id]. by rewrite h_number.
Qed.
Lemma h_conv_p c sp ap : conv_p mem_of outc (h c) sp ap = prod_map h id <$> conv_p mem_of' outc' c sp ap.
Proof.
  unfold conv_p, va_word. rewrite h_mem. cbv beta iota zeta. destruct (if _ : bool then Some [] else utoa_ull _ _ _); [|done].
  cbv beta iota delta [mbind option_bind fmap option_fmap option_map prod_map fst snd id]. by rewrite h_number.
Qed.
Lemma h_conv_f c sp ap : conv_f mem_of outc double_text (h c) sp ap = prod_map h id (conv_f mem_of' outc' double_text c sp ap).
Proof.
  unfold conv_f. rewrite h_mem. destruct (va_dword _ _) as [v ap']. destruct (double_text _ _). unfold prod_map. cbv beta iota delta [fst snd id]. by rewrite h_number.
Qed.
Lemma h_convert c sp ap :
  convert mem_of outc double_text F (h c) sp ap = prod_map h id <$> convert mem_of' outc' double_text F c sp ap.
Proof.
  unfold convert. rewrite h_conv_c, h_conv_s, h_conv_d, h_conv_u, h_conv_p, h_conv_f, <- !h_outc.
  destruct (sp_spec sp =? 37), (sp_spec sp =? 99), (sp_spec sp =? 115), (one_of (sp_spec sp) [100; 105]), (one_of (sp_spec sp) [117; 120; 88; 111; 98]), (one_of (sp_spec sp) [112; 80]), (one_of (sp_spec sp) [102; 70; 101; 69; 103; 71]); done.
Qed.
Lemma h_loop f : ∀ c fmt ap, fmt_loop mem_of outc double_text F f (h c) fmt ap = h <$> fmt_loop mem_of' outc' double_text F f c fmt ap.
Proof.
  induction f as [|f IH]; intros c fmt ap; cbn [fmt_loop]; rewrite h_mem; (case_if E; [done|]); [done|].
  case_if E'; [by rewrite <- h_outc, IH|]. destruct (parse_spec _ _ _ _) as [[[sp f1] a1]|]; [|done]. cbv beta iota delta [mbind option_bind].
  case_if E0; [done|]. rewrite h_convert. destruct (convert _ _ _ _ c _ _) as [[c1 a2]|]; [|done]. apply IH.
Qed.
Lemma h_vstrfmt c fmt ap : vstrfmt mem_of outc double_text F (h c) fmt ap = h <$> vstrfmt mem_of' outc' double_text F c fmt ap.
Proof. unfold vstrfmt. case_if E; [done|]. apply h_loop. Qed.
End agree.

(** * [vsnprintf] *)

Section bounded.
Context (double_text : Z → spec → Z * list Z) (F : nat).

(** The sink after the characters [out]: it has written the ones that fit. *)
Lemma snprintf_fold buf max out : ∀ s, 0 ≤ sn_pos s →
  0 ≤ sn_pos (foldl (snprintf_outc buf max) s out) ∧
  (∀ x, (buf ≠ 0 → ¬ buf ≤ x < buf + max) → sn_mem (foldl (snprintf_outc buf max) s out) x = sn_mem s x) ∧
  (sn_pos s + Z.of_nat (length out) < 2 ^ 32 →
   sn_pos (foldl (snprintf_outc buf max) s out) = sn_pos s + Z.of_nat (length out) ∧
   (∀ x, x < buf + sn_pos s → sn_mem (foldl (snprintf_outc buf max) s out) x = sn_mem s x) ∧
   (buf ≠ 0 → bytes_at (sn_mem (foldl (snprintf_outc buf max) s out)) (buf + sn_pos s) (take (Z.to_nat (max - sn_pos s)) out))).
Proof.
  induction out as [|ch out IH]; intros s Hs; cbn [foldl length].
  { split_and!; [done|done|]. intros _. rewrite take_nil. split_and!; [lia|done|done]. }
  set (s1 := snprintf_outc buf max s ch). assert (0 ≤ sn_pos s1) as Hs1 by (apply Z.mod_pos_bound; lia).
  destruct (IH s1 Hs1) as (H1 & H2 & H3). split_and!; [done| |].
  - intros x Hx. rewrite H2 by done. unfold s1, snprintf_outc. simpl. case_if E; [|done]. apply poke_ne. specialize (Hx ltac:(done)). lia.
  - intros Hlt. assert (sn_pos s1 = sn_pos s + 1) as Ep by (unfold s1; simpl; apply w32_small; lia). rewrite Ep in H3.
    destruct H3 as (H3 & H4 & H5); [lia|]. split_and!; [lia| |].
    + intros x Hx. rewrite H4 by lia. unfold s1, snprintf_outc. simpl. case_if E; [|done]. apply poke_ne. lia.
    + intros Hb. destruct (Z.to_nat (max - sn_pos s)) as [|k] eqn:Ek; [by rewrite take_0|]. cbn [take bytes_at]. split.
      * rewrite H4 by lia. unfold s1, snprintf_outc. simpl. rewrite (proj2 (Z.ltb_lt _ max)), (proj2 (Z.eqb_neq buf 0)) by lia. apply poke_eq.
      * specialize (H5 Hb). replace (Z.to_nat (max - (sn_pos s + 1))) with k in H5 by lia. by replace (buf + sn_pos s + 1) with (buf + (sn_pos s + 1)) by lia.
Qed.

(** What the caller of [vsnprintf] vouches for: the format is a string, and neither it nor the end of
    any string the arguments may point to is in the buffer. *)
Definition printable (m : mem) (buf size fmt : Z) (l : list Z) : Prop :=
  cstr m fmt l ∧ (length l ≤ F)%nat ∧ (∀ x, fmt ≤ x ≤ fmt + Z.of_nat (length l) → ¬ buf ≤ x < buf + size) ∧
  ∀ p, ∃ n, (n ≤ F)%nat ∧ ¬ buf ≤ p + Z.of_nat n < buf + size ∧ m (p + Z.of_nat n) = 0.

(** The buffer after [out] was printed into it. *)
Definition printed (m m' : mem) (buf size r : Z) (out : list Z) : Prop :=
  (∀ x, ¬ (buf ≠ 0 ∧ buf ≤ x < buf + size) → m' x = m x) ∧
  (Z.of_nat (length out) < 2 ^ 31 →
   r = Z.of_nat (length out) ∧
   (buf ≠ 0 → 0 < size → bytes_at m' buf (take (Z.to_nat (size - 1)) out) ∧ m' (buf + Z.min r (size - 1)) = 0)).

Lemma vsnprintf_fold m buf size fmt args out : 0 ≤ size →
  vstrfmt sn_mem (snprintf_outc (if negb (buf =? 0) && negb (size =? 0) then buf else 0) (if 0 <? size then size - 1 else 0)) double_text F
    (SnCtx m 0) fmt args
  = Some (foldl (snprintf_outc (if negb (buf =? 0) && negb (size =? 0) then buf else 0) (if 0 <? size then size - 1 else 0)) (SnCtx m 0) out) →
  ∃ m' r, vsnprintf double_text F m buf size fmt args = Some (m', r) ∧ printed m m' buf size r out.
Proof.
  intros Hsz E. unfold vsnprintf. rewrite E. cbv beta iota delta [mbind option_bind]. set (dest := if negb (buf =? 0) && negb (size =? 0) then buf else 0). set (max := if 0 <? size then size - 1 else 0).
  destruct (snprintf_fold dest max out (SnCtx m 0) ltac:(done)) as (H1 & H2 & H3). set (s := foldl _ _ out) in *. cbn [sn_pos sn_mem] in *.
  eexists _, _. split; [done|]. destruct (negb (buf =? 0) && negb (size =? 0)) eqn:Eb.
  - apply andb_true_iff in Eb as [Hb Hs]. b2p. assert (max = size - 1) as Em by (unfold max; destruct (Z.ltb_spec 0 size); lia). rewrite Em in *.
    unfold dest in *. split.
    + intros x Hx. assert (¬ buf ≤ x < buf + size) by tauto. rewrite poke_ne by (case_if E'; lia). apply H2. lia.
    + intros Hl. destruct H3 as (Hp & _ & H5); [lia|]. rewrite Hp, Z.add_0_l, s32_range by lia. split; [done|]. intros _ _.
      replace (if Z.of_nat (length out) <? size - 1 then _ else _) with (Z.min (Z.of_nat (length out)) (size - 1)) by (case_if E'; lia).
      split; [|apply poke_eq]. rewrite Z.sub_0_r, Z.add_0_r in H5. eapply bytes_frame; [|exact (H5 Hb)].
      intros x Hx. apply poke_ne. rewrite length_take in Hx. lia.
  - assert (¬ (buf ≠ 0 ∧ size ≠ 0)) as Hn by (intros [? ?]; by rewrite !(proj2 (Z.eqb_neq _ 0)) in Eb). split.
    + intros x Hx. apply H2. done.
    + intros Hl. destruct H3 as (Hp & _ & _); [lia|]. rewrite Hp, Z.add_0_l, s32_range by lia. split; [done|]. intros. exfalso. apply Hn. lia.
Qed.

(** A sink that does what that of [vsnprintf] does and records the characters it is sent. *)
Definition recorder (buf max : Z) (c : snprintf_ctx * list Z) (ch : Z) : snprintf_ctx * list Z :=
  (snprintf_outc buf max c.1 ch, c.2 ++ [ch]).
Definition transcript (m : mem) (buf size fmt args : Z) : option (list Z) :=
  snd <$> vstrfmt (λ c, sn_mem c.1) (recorder (if negb (buf =? 0) && negb (size =? 0) then buf else 0) (if 0 <? size then size - 1 else 0)) double_text F
    (SnCtx m 0, []) fmt args.
Lemma recorder_fold buf max out : ∀ c, foldl (recorder buf max) c out = (foldl (snprintf_outc buf max) c.1 out, c.2 ++ out).
Proof. induction out as [|ch out IH]; intros [s o]; simpl; [by rewrite app_nil_r|]. rewrite IH. unfold recorder. simpl. by rewrite <- app_assoc. Qed.

(** C19: [vsnprintf] returns for every format and every argument list, writes nothing outside the buffer
    (nothing at all without one), and with [out] the characters of the whole text its result is their
    number and the buffer holds as many of them as fit and a terminator. *)
Theorem vsnprintf_bounded m buf size fmt args l :
  0 ≤ size → printable m buf size fmt l →
  ∃ m' r out, vsnprintf double_text F m buf size fmt args = Some (m', r) ∧ transcript m buf size fmt args = Some out ∧
    printed m m' buf size r out.
Proof.
  intros Hsz (Hl & Hlen & Hfmt & Hstr). unfold transcript. set (dest := if negb (buf =? 0) && negb (size =? 0) then buf else 0). set (max := if 0 <? size then size - 1 else 0).
  set (I := λ c : snprintf_ctx * list Z, 0 ≤ sn_pos c.1 ∧ ∀ x, ¬ buf ≤ x < buf + size → sn_mem c.1 x = m x).
  assert (∀ c ch, I c → I (recorder dest max c ch)) as HI.
  { intros c ch [Hp Hm]. split; [apply Z.mod_pos_bound; lia|]. intros x Hx. rewrite <- (Hm x Hx).
    destruct (snprintf_fold dest max [ch] c.1 Hp) as (_ & Hf & _). apply Hf. unfold dest, max. destruct (negb _ && negb _), (Z.ltb_spec 0 size); intros; lia. }
  destruct (vstrfmt_emits (λ c, sn_mem c.1) (recorder dest max) double_text F I HI m (λ x, ¬ buf ≤ x < buf + size))
    with (c := (SnCtx m 0, @nil Z)) (fmt := fmt) (ap := args) (l := l) as [out E]; [by intros c x [_ Hm]; apply Hm|done|by split|by split|done|].
  pose proof (h_vstrfmt sn_mem (snprintf_outc dest max) (λ c, sn_mem c.1) (recorder dest max) double_text F fst (λ _, eq_refl) (λ _ _, eq_refl) (SnCtx m 0, []) fmt args) as Eh.
  rewrite E, recorder_fold in Eh |- *. destruct (vsnprintf_fold m buf size fmt args out Hsz Eh) as (m' & r & Er & Hp). by exists m', r, out.
Qed.
End bounded.

(** * Reading a printed number back *)

(** What [emit_number] sends to the sink. *)
Definition number_text (sp : spec) (pre : list Z) (zpad : Z) (num : list Z) : list Z :=
  let lft := left (sp_flags sp) in
  let pad0 := zero (sp_flags sp) && negb lft in
  let wpad := Z.to_nat (width_pad (sp_width sp) (s32 (Z.of_nat (length pre) + zpad + Z.of_nat (length num)))) in
  (if negb lft && negb pad0 then replicate wpad chr_space else []) ++ pre ++ (if negb lft && pad0 then replicate wpad chr_0 else []) ++
  replicate (Z.to_nat zpad) chr_0 ++ num ++ (if lft then replicate wpad chr_space else []).

Lemma emit_repeat_fold {C} (outc : C → Z → C) c ch count : emit_repeat outc c ch count = foldl outc c (replicate (Z.to_nat count) ch).
Proof. unfold emit_repeat. revert c. induction (Z.to_nat count) as [|n IH]; intros c; simpl; [done|apply IH]. Qed.
Lemma emit_number_fold {C} (outc : C → Z → C) c sp pre zpad num :
  emit_number outc c sp pre zpad num = foldl outc c (number_text sp pre zpad num).
Proof.
  unfold emit_number, number_text, emit_strn. rewrite !emit_repeat_fold, !foldl_app.
  destruct (left (sp_flags sp)), (zero (sp_flags sp)); simpl; by rewrite ?emit_repeat_fold.
Qed.

Lemma bytes_app m a l1 l2 : bytes_at m a (l1 ++ l2) ↔ bytes_at m a l1 ∧ bytes_at m (a + Z.of_nat (length l1)) l2.
Proof.
  revert a. induction l1 as [|c l1 IH]; intros a; simpl; [rewrite Z.add_0_r; tauto|]. rewrite IH.
  replace (a + 1 + Z.of_nat (length l1)) with (a + Z.of_nat (S (length l1))) by lia. tauto.
Qed.
Lemma skip_blanks_run m n : ∀ fuel s, bytes_at m s (replicate n chr_space) → (n ≤ fuel)%nat →
  skip_blanks fuel m s = skip_blanks (fuel - n) m (s + Z.of_nat n).
Proof.
  induction n as [|n IH]; intros fuel s Hb Hn; [by rewrite Nat.sub_0_r, Z.add_0_r|]. destruct Hb as [E Hb], fuel as [|f]; [lia|].
  cbn [skip_blanks]. rewrite E. cbn [orb Z.eqb Pos.eqb chr_space]. rewrite IH by (done || lia). f_equal. lia.
Qed.
Lemma be_val_zeros n ds : be_val 10 0 (replicate n 0 ++ ds) = be_val 10 0 ds.
Proof. unfold be_val. rewrite foldl_app. f_equal. induction n; simpl; [done|assumption]. Qed.

(** [atoi] of blanks, an optional minus, digits and blanks. *)
Lemma atoi_padded m s a v ds b fuel : - 2 ^ 31 ≤ v < 2 ^ 31 → ds ≠ [] → Forall (λ d, 0 ≤ d < 10) ds → be_val 10 0 ds = Z.abs v →
  (a + length ds ≤ fuel)%nat →
  cstr m s (replicate a chr_space ++ (if v <? 0 then [chr_minus] else []) ++ text ds ++ replicate b chr_space) → atoi fuel m s = Some v.
Proof.
  intros Hv Hne Hd Hval Hf (Hb & _ & He)%cstr_bytes. rewrite !bytes_app, !length_replicate in Hb. destruct Hb as (Ha & Hs & Ht & Hz).
  rewrite !length_app, !length_replicate in He. set (q := s + Z.of_nat a) in *. set (sg := if v <? 0 then [chr_minus] else []) in *.
  set (t := q + Z.of_nat (length sg)) in *. assert (length (text ds) = length ds) as El by (unfold text; apply length_fmap). rewrite El in *.
  assert (is_digit (m (t + Z.of_nat (length ds))) = false) as Hend.
  { destruct b as [|b]; simpl in Hz; [|by destruct Hz as [-> _]]. replace (t + _) with (s + Z.of_nat (a + (length sg + (length ds + 0)))) by lia. by rewrite He. }
  assert (dec_digits fuel m t 0 = Some (s32 (Z.abs v))) as Hdd by (rewrite <- Hval; apply (dec_digits_run m ds fuel t 0); (done || lia)).
  assert (48 ≤ m t ≤ 57) as Hm.
  { destruct ds as [|d ds]; [done|]. apply Forall_cons in Hd as [Hd _]. destruct Ht as [-> _]. pose proof (digit_char_cases d). unfold digit_char, w8, chr_0, chr_a in *.
    rewrite (proj2 (Z.ltb_lt d 10)) in * by lia. rewrite Z.mod_small; lia. }
  assert (m q = (if v <? 0 then chr_minus else m t)) as Eq by (unfold t, sg in *; destruct (v <? 0); [by destruct Hs|f_equal; simpl; lia]).
  unfold atoi. rewrite (skip_blanks_run m a fuel s Ha) by lia. fold q.
  assert (skip_blanks (fuel - a) m q = Some q) as ->.
  { destruct (fuel - a)%nat; cbn [skip_blanks]; rewrite Eq; destruct (v <? 0); try done; unfold chr_space; by rewrite !(proj2 (Z.eqb_neq _ _)) by lia. }
  cbv beta iota delta [mbind option_bind]. unfold take_sign. rewrite Eq. destruct (Z.ltb_spec v 0).
  - rewrite Z.eqb_refl. replace (q + 1) with t by (unfold t, sg; simpl; lia). rewrite Hdd. f_equal. rewrite Z.abs_neq by lia. by apply s32_neg_neg.
  - unfold chr_minus, chr_plus. rewrite !(proj2 (Z.eqb_neq _ _)) by lia. replace q with t by (unfold t, sg; simpl; lia). rewrite Hdd. f_equal. rewrite Z.abs_eq by lia. by apply s32_range.
Qed.

(** The format %*.*d. *)
Definition star_d : list Z := [37; 42; 46; 42; 100].
Definition star_spec (w p : Z) : spec :=
  Spec (Flags (w <? 0) false false false false) (Z.abs w) (if p <? 0 then -1 else p) LEN_NONE 100.

Section star.
Context {C : Type} (mem_of : C → mem) (outc : C → Z → C) (double_text : Z → spec → Z * list Z) (F : nat).

Lemma s32_word x : - 2 ^ 31 ≤ x < 2 ^ 31 → s32 (w32 x) = x.
Proof. intros Hx. unfold s32, w32. rewrite Z.mod_mod by lia. case_if E; Z.div_mod_to_equations; lia. Qed.

Lemma star_parse m fmt args w p : cstr m fmt star_d → (5 ≤ F)%nat → - 2 ^ 31 < w < 2 ^ 31 → - 2 ^ 31 ≤ p < 2 ^ 31 →
  word_at m args = w32 w → word_at m (args + 4) = w32 p →
  parse_spec F m (fmt + 1) args = Some (star_spec w p, fmt + 5, args + 8).
Proof.
  intros (H0 & _ & H1 & _ & H2 & _ & H3 & _ & H4 & _ & H5) HF Hw Hp Ew Ep. destruct F as [|f]; [lia|]. unfold parse_spec, star_spec.
  cbn [parse_flags]. rewrite H1. change (flag_of 42) with (@None (flags → flags)). cbv beta iota delta [mbind option_bind].
  unfold parse_width. rewrite H1. cbv beta iota delta [Z.eqb Pos.eqb va_int]. rewrite Ew, s32_word by lia. replace (s32 (- w)) with (- w) by (rewrite s32_range; lia).
  unfold parse_prec. replace (if w <? 0 then (- w, set_left no_flags, fmt + 1 + 1, args + 4) else (w, no_flags, fmt + 1 + 1, args + 4))
    with (Z.abs w, Flags (w <? 0) false false false false, fmt + 1 + 1, args + 4) by (destruct (Z.ltb_spec w 0); repeat f_equal; simpl; f_equal; lia).
  cbv beta iota. rewrite H2, H3. cbv beta iota delta [Z.eqb Pos.eqb va_int]. rewrite Ep, s32_word by lia. cbv beta iota. unfold parse_length.
  rewrite H4. cbv beta iota delta [Z.eqb Pos.eqb]. rewrite H4. cbv beta iota. f_equal. f_equal; [|lia]. f_equal; [|lia]. f_equal.
  by destruct (0 <=? _).
Qed.
Lemma star_vstrfmt c fmt args w p v : cstr (mem_of c) fmt star_d → (5 ≤ F)%nat → fmt ≠ 0 → - 2 ^ 31 < w < 2 ^ 31 → - 2 ^ 31 ≤ p < 2 ^ 31 → - 2 ^ 31 ≤ v < 2 ^ 31 →
  word_at (mem_of c) args = w32 w → word_at (mem_of c) (args + 4) = w32 p → word_at (mem_of c) (args + 8) = w32 v →
  ∃ ds, let sp := star_spec w p in
    ds ≠ [] ∧ (length ds ≤ 10)%nat ∧ Forall (λ d, 0 ≤ d < 10) ds ∧ be_val 10 0 ds = Z.abs v ∧
    let out := number_text sp (if v <? 0 then [chr_minus] else []) (zero_pad (sp_prec sp) (text ds)) (text ds) in
    (mem_of (foldl outc c out) (fmt + 5) = 0 → vstrfmt mem_of outc double_text F c fmt args = Some (foldl outc c out)).
Proof.
  intros Hc HF Hfmt Hw Hp Hv Ew Ep Ev. destruct (utoa_ull_digits 10 (Z.abs v) 10 false) as (ds & E & Hne & Hlen & Hd & Hval); [unfold ull_base; lia|lia|change (10 ^ Z.of_nat 10) with 10000000000; lia|].
  exists ds. cbv zeta. split_and!; [done..|]. assert (ull_char false <$> ds = text ds) as Et.
  { apply list_fmap_ext. intros i d Hi. apply ull_char_ten. by eapply (proj1 (Forall_lookup _ _) Hd). }
  rewrite Et in E. rewrite <- emit_number_fold. intros Hz. unfold vstrfmt. rewrite (proj2 (Z.eqb_neq fmt 0)) by done.
  pose proof (star_parse _ fmt args w p Hc HF Hw Hp Ew Ep) as Esp. destruct F as [|[|f]]; [lia|lia|].
  cbn [fmt_loop]. pose proof Hc as (E37 & _). rewrite E37. cbv beta iota delta [Z.eqb Pos.eqb negb]. rewrite Esp. cbv beta iota delta [mbind option_bind].
  unfold convert. change (sp_spec (star_spec w p)) with 100. cbv beta iota delta [Z.eqb Pos.eqb one_of existsb orb].
  unfold conv_d. change (sp_len (star_spec w p)) with LEN_NONE. unfold get_signed_arg, va_int. cbv beta iota. rewrite Ev, s32_word, magnitude by lia. rewrite E. cbv beta iota delta [mbind option_bind].
  cbn [fmt_loop]. change (sign_of (star_spec w p) (v <? 0)) with (if v <? 0 then [chr_minus] else []). by rewrite Hz.
Qed.
End star.

(** The shape of the text. *)
Lemma star_text w p v ds : - 2 ^ 30 < w < 2 ^ 30 → - 2 ^ 30 < p < 2 ^ 30 → ds ≠ [] → (length ds ≤ 10)%nat →
  let sg := if v <? 0 then [chr_minus] else [] in
  let out := number_text (star_spec w p) sg (zero_pad (sp_prec (star_spec w p)) (text ds)) (text ds) in
  ∃ a z b, out = replicate a chr_space ++ sg ++ text (replicate z 0 ++ ds) ++ replicate b chr_space ∧
    1 ≤ Z.of_nat (length out) ≤ Z.max (Z.abs w) (1 + Z.max p 10).
Proof.
  intros Hw Hp Hne Hlen sg out. assert (length sg ≤ 1)%nat as Hsg by (unfold sg; destruct (v <? 0); simpl; lia).
  assert (length (text ds) = length ds) as El by (unfold text; apply length_fmap). assert (1 ≤ length ds)%nat by (destruct ds; [done|simpl; lia]).
  set (zp := zero_pad (sp_prec (star_spec w p)) (text ds)) in *.
  assert (0 ≤ zp ∧ zp + Z.of_nat (length ds) ≤ Z.max p 10) as Hz.
  { unfold zp, zero_pad. cbn [sp_prec star_spec]. rewrite El. destruct (Z.ltb_spec p 0); case_if E; lia. }
  set (wp := width_pad (Z.abs w) (s32 (Z.of_nat (length sg) + zp + Z.of_nat (length ds)))).
  assert (0 ≤ wp ∧ wp ≤ Z.max 0 (Z.abs w - (Z.of_nat (length sg) + zp + Z.of_nat (length ds)))) as Hwp.
  { unfold wp, width_pad. rewrite s32_range by lia. case_if E; lia. }
  assert (out = (if w <? 0 then [] else replicate (Z.to_nat wp) chr_space) ++ sg ++ text (replicate (Z.to_nat zp) 0 ++ ds) ++
                (if w <? 0 then replicate (Z.to_nat wp) chr_space else [])) as Eo.
  { unfold out, number_text. cbn [sp_flags star_spec left zero sp_width]. rewrite El. fold wp. unfold text. rewrite fmap_app, fmap_replicate, <- app_assoc.
    by destruct (w <? 0). }
  exists (if w <? 0 then O else Z.to_nat wp), (Z.to_nat zp), (if w <? 0 then Z.to_nat wp else O). split.
  - rewrite Eo. by destruct (w <? 0).
  - rewrite Eo. unfold text. rewrite !length_app, length_fmap, length_app, length_replicate. destruct (w <? 0); rewrite length_replicate; simpl; lia.
Qed.

(** C33: an [int] printed with %*.*d, whatever the width (left or right) and the precision, is read back by
    [atoi] from every buffer the text fits into. *)
Theorem snprintf_atoi double_text F m buf size fmt args w p v :
  (5 ≤ F)%nat → buf ≠ 0 → fmt ≠ 0 → 0 ≤ size → cstr m fmt star_d → (fmt + 5 < buf ∨ buf + size ≤ fmt) →
  word_at m args = w32 w → word_at m (args + 4) = w32 p → word_at m (args + 8) = w32 v →
  - 2 ^ 30 < w < 2 ^ 30 → - 2 ^ 30 < p < 2 ^ 30 → - 2 ^ 31 ≤ v < 2 ^ 31 →
  ∃ m' r, vsnprintf double_text F m buf size fmt args = Some (m', r) ∧ 1 ≤ r ≤ Z.max (Z.abs w) (1 + Z.max p 10) ∧
    (r < size → atoi (Z.to_nat r) m' buf = Some v).
Proof.
  intros HF Hb Hfmt Hsz Hc Hd Ew Ep Ev Hw Hp Hv.
  destruct (star_vstrfmt sn_mem (snprintf_outc (if negb (buf =? 0) && negb (size =? 0) then buf else 0) (if 0 <? size then size - 1 else 0)) double_text F
    (SnCtx m 0) fmt args w p v) as (ds & Hne & Hlen & Hds & Hval & Hrun); [done || lia..|].
  destruct (star_text w p v ds Hw Hp Hne Hlen) as (a & z & b & Eo & Hout). set (out := number_text _ _ _ _) in *.
  destruct (vsnprintf_fold double_text F m buf size fmt args out Hsz) as (m' & r & Er & Hpr).
  { apply Hrun. destruct (snprintf_fold (if negb (buf =? 0) && negb (size =? 0) then buf else 0) (if 0 <? size then size - 1 else 0) out (SnCtx m 0)) as (_ & H2 & _); [done|].
    rewrite H2; [|intros Hb'; destruct (negb _ && negb _), (Z.ltb_spec 0 size); lia]. destruct Hc as (_ & _ & _ & _ & _ & _ & _ & _ & _ & _ & H5). simpl in *. rewrite <- H5. f_equal. lia. }
  exists m', r. destruct Hpr as [_ Hpr]. destruct Hpr as (-> & Hbuf); [lia|]. split_and!; [done|lia|lia|]. intros Hfit. destruct Hbuf as [Hbytes Hend]; [done|lia|].
  rewrite take_ge in Hbytes by lia. rewrite Z.min_l in Hend by lia.
  assert (cstr m' buf out) as Hcs.
  { apply cstr_bytes. split_and!; [done| |done]. rewrite Eo. rewrite !Forall_app. split_and!;
      [apply Forall_replicate; done|destruct (v <? 0); repeat constructor|eapply (text_range 10); [lia|]|apply Forall_replicate; done].
    apply Forall_app. split; [apply Forall_replicate; lia|done]. }
  rewrite Eo in Hcs. eapply atoi_padded; [done| | | | |exact Hcs].
  - by destruct z, ds.
  - apply Forall_app. split; [apply Forall_replicate; lia|done].
  - by rewrite be_val_zeros.
  - rewrite Eo. unfold text. rewrite !length_app, !length_fmap, !length_app, !length_replicate. lia.
Qed.

(** A memory with the format at 100 and the words -8, 3 and -42 at 200. *)
Module FmtDemo.
Definition args : list Z := [248; 255; 255; 255; 3; 0; 0; 0; 214; 255; 255; 255].
Definition memory : mem := write_all (write_str (λ _, 0) 100 star_d) 200 args.
Definition no_double (bits : Z) (sp : spec) : Z * list Z := (0, []).

Lemma memory_zero x : ¬ 100 ≤ x < 105 → ¬ 200 ≤ x < 212 → memory x = 0.
Proof.
  intros H1 H2. unfold memory. destruct (write_all_spec args (write_str (λ _, 0) 100 star_d) 200) as [_ ->]; [|simpl; lia].
  unfold write_str, poke. case_if E; [done|]. destruct (write_all_spec star_d (λ _, 0) 100) as [_ ->]; [done|simpl; lia].
Qed.
Lemma memory_printable : printable 20 memory 300 10 100 star_d.
Proof.
  split_and!; [by vm_compute|simpl; lia|simpl; lia|]. intros p.
  destruct (decide (100 ≤ p < 105)); [exists (Z.to_nat (105 - p)); split_and!; [lia|lia|apply memory_zero; lia]|].
  destruct (decide (200 ≤ p < 212)); [exists (Z.to_nat (212 - p)); split_and!; [lia|lia|apply memory_zero; lia]|].
  destruct (decide (300 ≤ p < 310)); [exists (Z.to_nat (310 - p)); split_and!; [lia|lia|apply memory_zero; lia]|].
  exists O. split_and!; [lia|lia|apply memory_zero; lia].
Qed.

Lemma vsnprintf_bounded_witness :
  ∃ m' r out, vsnprintf no_double 20 memory 300 10 100 200 = Some (m', r) ∧ transcript no_double 20 memory 300 10 100 200 = Some out ∧
    printed memory m' 300 10 r out.
Proof. apply (vsnprintf_bounded no_double 20 memory 300 10 100 200 star_d); [lia|exact memory_printable]. Defined.
Lemma snprintf_atoi_witness :
  ∃ m' r, vsnprintf no_double 20 memory 300 10 100 200 = Some (m', r) ∧ 1 ≤ r ≤ Z.max (Z.abs (-8)) (1 + Z.max 3 10) ∧
    (r < 10 → atoi (Z.to_nat r) m' 300 = Some (-42)).
Proof. apply (snprintf_atoi no_double 20 memory 300 10 100 200 (-8) 3 (-42)); first [lia | by vm_compute]. Defined.
Lemma output_text : transcript no_double 20 memory 300 10 100 200 = Some [45; 48; 52; 50; 32; 32; 32; 32].
Proof. by vm_compute. Qed.
End FmtDemo.
