(* ===== verification/CList.v ===== *)
(** include/list.h: the kernel's intrusive circular doubly linked list.

    Every queue of the kernel (run queues, sleep wheel, wait queues, a port's
    senders, receivers and servers, a space's tasks) is a [ListHead] of
    [ListNode]s embedded in objects.  This file holds
    - the C operations over a memory of nodes, with a NULL dereference as a panic;
    - the abstract store they implement: for every sentinel the list of the nodes
      on it, and the set of nodes that are on no list, with one operation per C
      operation;
    - the representation relation [Rep] between the two and the proof that every C
      operation, and hence every sequence of them, refines its abstract operation.

    Locations are elements of an arbitrary countable type [A]; [option A] is a C
    pointer, [None] being NULL.  A sentinel is a location like any other, as in C. *)
From S2P Require Import Prelude.

#[local] Open Scope Z_scope.

Record ListNode (A : Type) := mkListNode { prev : option A; next : option A }.
Arguments mkListNode {_} _ _.
Arguments prev {_} _.
Arguments next {_} _.

#[local] Ltac lmem_solve :=
  repeat (case_decide; simplify_eq/=; try done).

Section clist.
Context {A : Type} `{EqDecision A}.

Definition lmem : Type := A → ListNode A.
Implicit Types (m : lmem) (a b n x y hd pos : A) (xs ys : list A).

Definition lupd m a (nd : ListNode A) : lmem := λ x, if decide (x = a) then nd else m x.

(** [p->next], [p->prev] as rvalue and lvalue, for a pointer [p]. *)
Definition load_next (p : option A) : M lmem (option A) :=
  match p with Some a => gets (λ m, next (m a)) | None => panic end.
Definition load_prev (p : option A) : M lmem (option A) :=
  match p with Some a => gets (λ m, prev (m a)) | None => panic end.
Definition store_next (p v : option A) : M lmem unit :=
  match p with Some a => modify (λ m, lupd m a (mkListNode (prev (m a)) v)) | None => panic end.
Definition store_prev (p v : option A) : M lmem unit :=
  match p with Some a => modify (λ m, lupd m a (mkListNode v (next (m a)))) | None => panic end.

Definition ListAddHead (node head : A) : M lmem unit :=
  let! first := load_next (Some head) in
  store_next (Some node) first ;;
  store_prev (Some node) (Some head) ;;
  store_prev first (Some node) ;;
  store_next (Some head) (Some node).

Definition ListAddTail (node head : A) : M lmem unit :=
  let! tail := load_prev (Some head) in
  store_next tail (Some node) ;;
  store_prev (Some node) tail ;;
  store_next (Some node) (Some head) ;;
  store_prev (Some head) (Some node).

Definition ListRemove (node : A) : M lmem unit :=
  let! p := load_prev (Some node) in
  let! q := load_next (Some node) in
  store_next p q ;;
  store_prev q p ;;
  store_prev (Some node) None ;;
  store_next (Some node) None.

Definition ListInit (head : A) : M lmem unit :=
  store_next (Some head) (Some head) ;;
  store_prev (Some head) (Some head).

Definition ListIsEmpty (head : A) : M lmem bool :=
  let! nx := load_next (Some head) in
  ret (bool_decide (nx = Some head)).

Definition ListPopFront (head : A) : M lmem (option A) :=
  let! e := ListIsEmpty head in
  if e then ret None else
    let! first := load_next (Some head) in
    match first with
    | Some f => ListRemove f ;; ret (Some f)
    | None => panic
    end.

(** * Chains of nodes *)

(** [path m a xs b]: from [a] the [next] links lead through [xs] to [b], and the
    [prev] links lead back. *)
Definition linked m a b : Prop := next (m a) = Some b ∧ prev (m b) = Some a.
Fixpoint path m a xs b : Prop :=
  match xs with
  | [] => linked m a b
  | x :: xs' => linked m a x ∧ path m x xs' b
  end.

(** A well-formed list: the sentinel [hd] and the nodes [xs] in order. *)
Definition dll m hd xs : Prop := NoDup (hd :: xs) ∧ path m hd xs hd.

Lemma path_app m a xs x ys b : path m a (xs ++ x :: ys) b ↔ path m a xs x ∧ path m x ys b.
Proof. revert a. induction xs as [|y xs IH]; intros a; simpl; [done|]. rewrite IH. tauto. Qed.

Lemma path_frame m m' a xs b :
  (∀ x, x ∈ a :: xs → next (m' x) = next (m x)) →
  (∀ y, y ∈ xs ++ [b] → prev (m' y) = prev (m y)) →
  path m a xs b → path m' a xs b.
Proof.
  revert a. induction xs as [|x xs IH]; intros a Hn Hp; simpl.
  - unfold linked. rewrite Hn, Hp; [done|set_solver..].
  - intros [[H1 H2] H3]. split; [|apply IH; [set_solver..|done]].
    split; [rewrite Hn; [done|set_solver]|rewrite Hp; [done|set_solver]].
Qed.

(** The effect of linking [n] between [a] and [b]. *)
Definition inserted m a n b m' : Prop :=
  linked m' a n ∧ linked m' n b ∧
  (∀ x, x ≠ a → x ≠ n → next (m' x) = next (m x)) ∧
  (∀ x, x ≠ b → x ≠ n → prev (m' x) = prev (m x)).

(** The effect of unlinking [n] from between [a] and [b]. *)
Definition removed m a n b m' : Prop :=
  linked m' a b ∧ m' n = mkListNode None None ∧
  (∀ x, x ≠ a → x ≠ n → next (m' x) = next (m x)) ∧
  (∀ x, x ≠ b → x ≠ n → prev (m' x) = prev (m x)).

Lemma wp_ListAddHead node head b m Q :
  linked m head b → node ≠ head → node ≠ b →
  (∀ m', inserted m head node b m' → Q tt m') →
  wp (ListAddHead node head) Q m.
Proof.
  intros [Hn Hp] Hne Hne' HQ. unfold ListAddHead, load_next, load_prev, store_next, store_prev. wp_steps. rewrite Hn. wp_steps. apply HQ.
  split_and!; [split|split|intros x ? ?..]; unfold lupd; lmem_solve; congruence.
Qed.

Lemma wp_ListAddTail node head a m Q :
  linked m a head → node ≠ head → node ≠ a →
  (∀ m', inserted m a node head m' → Q tt m') →
  wp (ListAddTail node head) Q m.
Proof.
  intros [Hn Hp] Hne Hne' HQ. unfold ListAddTail, load_next, load_prev, store_next, store_prev. wp_steps. rewrite Hp. wp_steps. apply HQ.
  split_and!; [split|split|intros x ? ?..]; unfold lupd; lmem_solve; congruence.
Qed.

Lemma wp_ListRemove node a b m Q :
  linked m a node → linked m node b → node ≠ a → node ≠ b →
  (∀ m', removed m a node b m' → Q tt m') →
  wp (ListRemove node) Q m.
Proof.
  intros [Hn Hp] [Hn' Hp'] Hne Hne' HQ. unfold ListRemove, load_next, load_prev, store_next, store_prev. wp_steps. rewrite Hp, Hn'. wp_steps. apply HQ.
  split_and!; [split| |intros x ? ?..]; unfold lupd; lmem_solve; congruence.
Qed.

Lemma dll_linked m hd xs ys :
  dll m hd (xs ++ ys) → linked m (default hd (last xs)) (default hd (head ys)).
Proof.
  intros [_ Hp]. destruct xs as [|a xs _] using rev_ind; [by destruct ys as [|b ys]; [|destruct Hp]|].
  rewrite last_snoc. simpl. rewrite <- app_assoc in Hp. simpl in Hp.
  apply path_app in Hp as [_ Hp]. by destruct ys; [|destruct Hp].
Qed.

Lemma dll_insert m m' hd n xs ys :
  dll m hd (xs ++ ys) → n ∉ hd :: xs ++ ys →
  inserted m (default hd (last xs)) n (default hd (head ys)) m' →
  dll m' hd (xs ++ n :: ys).
Proof.
  intros [Hnd Hp] Hn (Ha & Hb & Hnx & Hpv). split.
  { rewrite app_comm_cons, <- Permutation_middle. by constructor. }
  assert (Hrest : ∀ a, a = default hd (last xs) → path m a ys hd →
            a ∉ ys → default hd (head ys) ∉ tail (ys ++ [hd]) → path m' n ys hd).
  { intros a -> Hpa Hay Hby. destruct ys as [|b ys]; [done|]. simpl in *.
    destruct Hpa as [_ Hpa]. split; [done|].
    eapply path_frame; [| |exact Hpa].
    - intros x Hx. apply Hnx; set_solver.
    - intros x Hx. apply Hpv; set_solver. }
  assert (Hby : default hd (head ys) ∉ tail (ys ++ [hd])).
  { destruct ys as [|b ys]; simpl; [set_solver|].
    rewrite NoDup_cons, NoDup_app, NoDup_cons in Hnd. set_solver. }
  apply path_app. destruct xs as [|a xs _] using rev_ind.
  - simpl in *. split; [done|]. eapply Hrest; try done. apply NoDup_cons in Hnd. tauto.
  - rewrite last_snoc in *. simpl in *. rewrite <- app_assoc in *. simpl in *.
    apply path_app in Hp as [Hp1 Hp2].
    assert (a ∉ hd :: xs ∧ a ∉ ys ∧ default hd (head ys) ∉ xs ++ [a]) as (Hax & Hay & Hbx).
    { rewrite NoDup_cons, NoDup_app, NoDup_cons in Hnd.
      destruct ys; simpl; set_solver. }
    split; [|eapply Hrest; done].
    apply path_app. split; [|done]. eapply path_frame; [| |exact Hp1].
    + intros x Hx. apply Hnx; set_solver.
    + intros x Hx. apply Hpv; set_solver.
Qed.

Lemma dll_frame m m' hd xs :
  (∀ x, x ∈ hd :: xs → m' x = m x) → dll m hd xs → dll m' hd xs.
Proof.
  intros Hm [Hnd Hp]. split; [done|]. eapply path_frame; [| |done].
  - intros x Hx. by rewrite Hm.
  - intros x Hx. rewrite Hm; [done|set_solver].
Qed.

Lemma dll_remove m m' hd n xs ys :
  dll m hd (xs ++ n :: ys) →
  removed m (default hd (last xs)) n (default hd (head ys)) m' →
  dll m' hd (xs ++ ys).
Proof.
  intros [Hnd Hp] (Hab & Hn & Hnx & Hpv).
  assert (Hnd' : NoDup (hd :: xs ++ ys) ∧ n ∉ hd :: xs ++ ys).
  { rewrite app_comm_cons, <- Permutation_middle in Hnd. apply NoDup_cons in Hnd. tauto. }
  destruct Hnd' as [Hnd' Hn']. split; [done|].
  apply path_app in Hp as [Hp1 Hp2].
  assert (Hby : default hd (head ys) ∉ tail (ys ++ [hd])).
  { destruct ys as [|b ys]; simpl; [set_solver|].
    rewrite NoDup_cons, NoDup_app, NoDup_cons in Hnd'. set_solver. }
  assert (Hrest : ∀ a, a = default hd (last xs) → a ∉ ys → path m' a ys hd).
  { intros a -> Hay. destruct ys as [|b ys]; [done|]. simpl in *. destruct Hp2 as [_ Hp2].
    split; [done|]. eapply path_frame; [| |exact Hp2].
    - intros x Hx. apply Hnx; set_solver.
    - intros x Hx. apply Hpv; set_solver. }
  destruct xs as [|a xs _] using rev_ind.
  - simpl in *. apply Hrest; [done|]. apply NoDup_cons in Hnd'. tauto.
  - rewrite last_snoc in *. simpl in *. rewrite <- app_assoc in *. simpl in *.
    assert (a ∉ hd :: xs ∧ a ∉ ys ∧ default hd (head ys) ∉ xs ++ [a]) as (Hax & Hay & Hbx).
    { rewrite NoDup_cons, NoDup_app, NoDup_cons in Hnd'. destruct ys; simpl; set_solver. }
    apply path_app in Hp1 as [Hp1 _]. apply path_app. split; [|by apply Hrest].
    eapply path_frame; [| |exact Hp1].
    + intros x Hx. apply Hnx; set_solver.
    + intros x Hx. apply Hpv; set_solver.
Qed.
End clist.
Arguments lmem : clear implicits.

(** * The abstract store of lists *)

(** [lists]: the nodes on each sentinel, in order; [unlinked]: initialised nodes
    that are on no list. *)
Record lstore (A : Type) `{Countable A} := mkLstore {
  lists : gmap A (list A);
  unlinked : gset A
}.
Arguments mkLstore {_ _ _} _ _.
Arguments lists {_ _ _} _.
Arguments unlinked {_ _ _} _.

Section lstore.
Context {A : Type} `{Countable A}.
Implicit Types (m : lmem A) (st : lstore A) (n pos hd x : A) (xs ys : list A).

Fixpoint insert_after pos n xs : list A :=
  match xs with
  | [] => []
  | x :: xs' => if decide (x = pos) then x :: n :: xs' else x :: insert_after pos n xs'
  end.
Fixpoint insert_before pos n xs : list A :=
  match xs with
  | [] => []
  | x :: xs' => if decide (x = pos) then n :: x :: xs' else x :: insert_before pos n xs'
  end.

(** Insertion next to a position that is the sentinel or one of the nodes. *)
Definition ins_after pos n hd xs : list A :=
  if decide (hd = pos) then n :: xs else insert_after pos n xs.
Definition ins_before pos n hd xs : list A :=
  if decide (hd = pos) then xs ++ [n] else insert_before pos n xs.

Definition on_list st x : Prop :=
  map_Exists (λ hd xs, x ∈ hd :: xs) (lists st).
Definition is_node st x : Prop := map_Exists (λ _ xs, x ∈ xs) (lists st).
#[global] Instance on_list_dec st x : Decision (on_list st x).
Proof. unfold on_list. apply map_Exists_dec. intros hd xs. apply _. Defined.
#[global] Instance is_node_dec st x : Decision (is_node st x).
Proof. unfold is_node. apply map_Exists_dec. intros hd xs. apply _. Defined.

(** The abstract operations; [None] when the caller breaks the operation's contract. *)
Definition a_init hd st : option (lstore A) :=
  if decide (hd ∈ unlinked st)
  then Some (mkLstore (<[hd := []]> (lists st)) (unlinked st ∖ {[hd]})) else None.
Definition a_add_head n pos st : option (lstore A) :=
  if decide (n ∈ unlinked st ∧ on_list st pos)
  then Some (mkLstore (map_imap (λ hd xs, Some (ins_after pos n hd xs)) (lists st)) (unlinked st ∖ {[n]}))
  else None.
Definition a_add_tail n pos st : option (lstore A) :=
  if decide (n ∈ unlinked st ∧ on_list st pos)
  then Some (mkLstore (map_imap (λ hd xs, Some (ins_before pos n hd xs)) (lists st)) (unlinked st ∖ {[n]}))
  else None.
Definition drop_node n xs : list A := filter (λ x, x ≠ n) xs.
Definition a_remove n st : option (lstore A) :=
  if decide (is_node st n)
  then Some (mkLstore (drop_node n <$> lists st) ({[n]} ∪ unlinked st)) else None.
Definition a_is_empty hd st : option bool :=
  xs ← lists st !! hd; Some (bool_decide (xs = [])).
Definition a_pop_front hd st : option (option A * lstore A) :=
  xs ← lists st !! hd;
  match xs with
  | [] => Some (None, st)
  | x :: _ => st' ← a_remove x st; Some (Some x, st')
  end.

(** * Representation *)
Record Rep m st : Prop := {
  rep_dll : ∀ hd xs, lists st !! hd = Some xs → dll m hd xs;
  rep_disj : ∀ hd1 xs1 hd2 xs2 x,
    lists st !! hd1 = Some xs1 → lists st !! hd2 = Some xs2 →
    x ∈ hd1 :: xs1 → x ∈ hd2 :: xs2 → hd1 = hd2;
  rep_null : ∀ x, x ∈ unlinked st → m x = mkListNode None None;
  rep_free : ∀ x, x ∈ unlinked st → ¬ on_list st x
}.

Lemma on_list_spec st x : on_list st x ↔ ∃ hd xs, lists st !! hd = Some xs ∧ x ∈ hd :: xs.
Proof. unfold on_list, map_Exists. naive_solver. Qed.
Lemma is_node_spec st x : is_node st x ↔ ∃ hd xs, lists st !! hd = Some xs ∧ x ∈ xs.
Proof. unfold is_node, map_Exists. naive_solver. Qed.

Lemma insert_after_split pos n xs :
  pos ∈ xs → ∃ l1 l2, xs = l1 ++ pos :: l2 ∧ insert_after pos n xs = l1 ++ pos :: n :: l2.
Proof.
  induction xs as [|x xs IH]; [by intros ?%not_elem_of_nil|]. simpl. intros Hx.
  case_decide; subst; [by exists [], xs|].
  destruct IH as (l1 & l2 & -> & ->); [set_solver|]. by exists (x :: l1), l2.
Qed.
Lemma insert_before_split pos n xs :
  pos ∈ xs → ∃ l1 l2, xs = l1 ++ pos :: l2 ∧ insert_before pos n xs = l1 ++ n :: pos :: l2.
Proof.
  induction xs as [|x xs IH]; [by intros ?%not_elem_of_nil|]. simpl. intros Hx.
  case_decide; subst; [by exists [], xs|].
  destruct IH as (l1 & l2 & -> & ->); [set_solver|]. by exists (x :: l1), l2.
Qed.
Lemma insert_after_notin pos n xs : pos ∉ xs → insert_after pos n xs = xs.
Proof.
  induction xs as [|x xs IH]; [done|]. simpl. intros Hx. case_decide; [set_solver|].
  f_equal. apply IH. set_solver.
Qed.
Lemma insert_before_notin pos n xs : pos ∉ xs → insert_before pos n xs = xs.
Proof.
  induction xs as [|x xs IH]; [done|]. simpl. intros Hx. case_decide; [set_solver|].
  f_equal. apply IH. set_solver.
Qed.
Lemma ins_after_split pos n hd xs :
  pos ∈ hd :: xs → ∃ l1 l2, xs = l1 ++ l2 ∧ ins_after pos n hd xs = l1 ++ n :: l2 ∧
                            pos = default hd (last l1).
Proof.
  intros Hp. unfold ins_after. case_decide; subst; [by exists [], xs|].
  destruct (insert_after_split pos n xs) as (l1 & l2 & -> & ->); [set_solver|].
  exists (l1 ++ [pos]), l2. rewrite last_snoc, <- !app_assoc. done.
Qed.
Lemma ins_before_split pos n hd xs :
  pos ∈ hd :: xs → ∃ l1 l2, xs = l1 ++ l2 ∧ ins_before pos n hd xs = l1 ++ n :: l2 ∧
                            pos = default hd (head l2).
Proof.
  intros Hp. unfold ins_before. case_decide; subst; [by exists xs, []; rewrite app_nil_r|].
  destruct (insert_before_split pos n xs) as (l1 & l2 & -> & ->); [set_solver|].
  by exists l1, (pos :: l2).
Qed.

Lemma default_last_in hd xs ys : default hd (last xs) ∈ hd :: xs ++ ys.
Proof.
  destruct xs as [|a xs _] using rev_ind; simpl; [left|]. rewrite last_snoc. simpl. set_solver.
Qed.
Lemma default_head_in hd xs ys : default hd (head ys) ∈ hd :: xs ++ ys.
Proof. destruct ys; simpl; set_solver. Qed.

Lemma rep_insert m m' st n hd l1 l2 (f : A → list A → list A) :
  Rep m st → n ∈ unlinked st → lists st !! hd = Some (l1 ++ l2) →
  inserted m (default hd (last l1)) n (default hd (head l2)) m' →
  f hd (l1 ++ l2) = l1 ++ n :: l2 →
  (∀ hd' xs', lists st !! hd' = Some xs' → hd' ≠ hd → f hd' xs' = xs') →
  Rep m' (mkLstore (map_imap (λ hd xs, Some (f hd xs)) (lists st)) (unlinked st ∖ {[n]})).
Proof.
  intros [Hd Hdj Hnull Hfree] Hn Hl Hins Hf Hf'.
  assert (Hnon : ∀ hd' xs', lists st !! hd' = Some xs' → n ∉ hd' :: xs').
  { intros hd' xs' Hl' Hin. apply (Hfree n Hn), on_list_spec. eauto. }
  assert (Hlk : ∀ hd' xs', map_imap (λ hd xs, Some (f hd xs)) (lists st) !! hd' = Some xs' →
     (hd' = hd ∧ xs' = l1 ++ n :: l2) ∨ (hd' ≠ hd ∧ lists st !! hd' = Some xs')).
  { intros hd' xs'. rewrite map_lookup_imap.
    destruct (lists st !! hd') as [ys|] eqn:E; simpl; [|done]. intros [= <-].
    destruct (decide (hd' = hd)) as [->|]; [left; simplify_eq; done|right].
    split; [done|]. by rewrite (Hf' hd'). }
  pose proof (default_last_in hd l1 l2) as Ha. pose proof (default_head_in hd l1 l2) as Hb.
  assert (Hsame : ∀ x, x ≠ n → x ∉ hd :: l1 ++ l2 → m' x = m x).
  { intros x Hx Hx'. destruct Hins as (_ & _ & Hnx & Hpv).
    specialize (Hnx x). specialize (Hpv x).
    destruct (m' x) as [p q], (m x) as [p' q']; simpl in *.
    rewrite Hnx, Hpv by (intros ->; done). done. }
  split; simpl.
  - intros hd' xs' Hlk'. destruct (Hlk _ _ Hlk') as [[-> ->]|[Hne Hl']].
    + eapply dll_insert; [by apply Hd|by apply Hnon|done].
    + eapply dll_frame; [|by apply Hd]. intros x Hx. apply Hsame.
      * intros ->. by apply (Hnon _ _ Hl').
      * intros Hx'. by apply Hne, (Hdj hd' xs' hd (l1 ++ l2) x).
  - intros hd1 xs1 hd2 xs2 x H1 H2 Hx1 Hx2.
    destruct (Hlk _ _ H1) as [[-> ->]|[Hne1 Hl1]], (Hlk _ _ H2) as [[-> ->]|[Hne2 Hl2]]; [done|..].
    + destruct (decide (x = n)) as [->|]; [by destruct (Hnon _ _ Hl2)|].
      eapply Hdj; [done|done| |done]. set_solver.
    + destruct (decide (x = n)) as [->|]; [by destruct (Hnon _ _ Hl1)|].
      eapply Hdj; [done|done|done|]. set_solver.
    + by eapply Hdj.
  - intros x Hx. rewrite Hsame; [apply Hnull; set_solver|set_solver|].
    intros Hx'. apply (Hfree x); [set_solver|]. apply on_list_spec. eauto.
  - intros x Hx. rewrite on_list_spec. intros (hd' & xs' & Hlk' & Hin). simpl in Hlk'.
    apply (Hfree x); [set_solver|]. apply on_list_spec.
    destruct (Hlk _ _ Hlk') as [[-> ->]|[Hne Hl']]; [|eauto].
    exists hd, (l1 ++ l2). split; [done|]. set_solver.
Qed.

Lemma rep_remove m m' st n hd l1 l2 :
  Rep m st → lists st !! hd = Some (l1 ++ n :: l2) →
  removed m (default hd (last l1)) n (default hd (head l2)) m' →
  Rep m' (mkLstore (drop_node n <$> lists st) ({[n]} ∪ unlinked st)).
Proof.
  intros [Hd Hdj Hnull Hfree] Hl Hrem.
  assert (Hother : ∀ hd' xs', lists st !! hd' = Some xs' → hd' ≠ hd → n ∉ hd' :: xs').
  { intros hd' xs' Hl' Hne Hin. apply Hne, (Hdj _ _ _ _ n Hl' Hl Hin). set_solver. }
  assert (Hdrop : ∀ xs, n ∉ xs → drop_node n xs = xs).
  { intros xs Hx. unfold drop_node. induction xs as [|y xs IH]; [done|].
    rewrite filter_cons_True by set_solver. f_equal. apply IH. set_solver. }
  assert (Hnn : n ∉ hd :: l1 ++ l2).
  { destruct (Hd _ _ Hl) as [Hnd _].
    rewrite app_comm_cons, <- Permutation_middle in Hnd. by apply NoDup_cons in Hnd as [? _]. }
  assert (Hdl : drop_node n (l1 ++ n :: l2) = l1 ++ l2).
  { unfold drop_node. rewrite filter_app, filter_cons_False by naive_solver.
    fold (drop_node n l1) (drop_node n l2). rewrite !Hdrop; [done|set_solver..]. }
  assert (Hlk : ∀ hd' xs', (drop_node n <$> lists st) !! hd' = Some xs' →
     (hd' = hd ∧ xs' = l1 ++ l2) ∨ (hd' ≠ hd ∧ lists st !! hd' = Some xs')).
  { intros hd' xs'. rewrite lookup_fmap.
    destruct (lists st !! hd') as [ys|] eqn:E; simpl; [|done]. intros [= <-].
    destruct (decide (hd' = hd)) as [->|]; [left; simplify_eq; done|right].
    split; [done|]. rewrite Hdrop; [done|]. specialize (Hother _ _ E). set_solver. }
  pose proof (default_last_in hd l1 l2) as Ha. pose proof (default_head_in hd l1 l2) as Hb.
  assert (Hsame : ∀ x, x ≠ n → x ∉ hd :: l1 ++ l2 → m' x = m x).
  { intros x Hx Hx'. destruct Hrem as (_ & _ & Hnx & Hpv).
    specialize (Hnx x). specialize (Hpv x).
    destruct (m' x) as [p q], (m x) as [p' q']; simpl in *.
    rewrite Hnx, Hpv by (intros ->; done). done. }
  split; simpl.
  - intros hd' xs' Hlk'. destruct (Hlk _ _ Hlk') as [[-> ->]|[Hne Hl']].
    + eapply dll_remove; [by apply Hd|done].
    + eapply dll_frame; [|by apply Hd]. intros x Hx. apply Hsame.
      * intros ->. by apply (Hother _ _ Hl').
      * intros Hx'. apply Hne, (Hdj hd' xs' hd (l1 ++ n :: l2) x); [done..|]. set_solver.
  - intros hd1 xs1 hd2 xs2 x H1 H2 Hx1 Hx2.
    destruct (Hlk _ _ H1) as [[-> ->]|[Hne1 Hl1]], (Hlk _ _ H2) as [[-> ->]|[Hne2 Hl2]]; [done|..].
    + eapply Hdj; [done|done| |done]. set_solver.
    + eapply Hdj; [done|done|done|]. set_solver.
    + by eapply Hdj.
  - intros x Hx. destruct (decide (x = n)) as [->|]; [by destruct Hrem as (_ & ? & _)|].
    rewrite Hsame; [apply Hnull; set_solver|done|].
    intros Hx'. apply (Hfree x); [set_solver|]. apply on_list_spec.
    exists hd, (l1 ++ n :: l2). split; [done|set_solver].
  - intros x Hx. rewrite on_list_spec. intros (hd' & xs' & Hlk' & Hin). simpl in Hlk'.
    destruct (decide (x = n)) as [->|].
    + destruct (Hlk _ _ Hlk') as [[-> ->]|[Hne Hl']]; [done|]. by apply (Hother _ _ Hl').
    + apply (Hfree x); [set_solver|]. apply on_list_spec.
      destruct (Hlk _ _ Hlk') as [[-> ->]|[Hne Hl']]; [|eauto].
      exists hd, (l1 ++ n :: l2). split; [done|set_solver].
Qed.

(** * Each operation refines its abstract operation *)

Lemma ListInit_refines m st st' hd :
  Rep m st → a_init hd st = Some st' → wp (ListInit hd) (λ _ m', Rep m' st') m.
Proof.
  intros [Hd Hdj Hnull Hfree] Ha. unfold a_init in Ha. case_decide as Hu; simplify_eq/=.
  unfold ListInit, store_next, store_prev. wp_steps.
  assert (Hnon : ∀ hd' xs', lists st !! hd' = Some xs' → hd ∉ hd' :: xs').
  { intros hd' xs' Hl' Hin. apply (Hfree hd Hu), on_list_spec. eauto. }
  match goal with |- Rep ?m1 _ => set (m' := m1) end.
  assert (Hsame : ∀ x, x ≠ hd → m' x = m x).
  { intros x Hx. unfold m', lupd. lmem_solve. }
  assert (Hhd : m' hd = mkListNode (Some hd) (Some hd)).
  { unfold m', lupd. lmem_solve. }
  split; simpl.
  - intros hd' xs'. rewrite lookup_insert. case_decide as E; subst.
    + intros [= <-]. split; [apply NoDup_singleton|]. simpl. unfold linked. by rewrite Hhd.
    + intros Hl. eapply dll_frame; [|by apply Hd]. intros x Hx. apply Hsame.
      intros ->. by apply (Hnon _ _ Hl).
  - intros hd1 xs1 hd2 xs2 x. rewrite !lookup_insert.
    repeat case_decide; intros; simplify_eq; [done| | |by eapply Hdj].
    + assert (x = hd1) as -> by set_solver. by destruct (Hnon hd2 xs2).
    + assert (x = hd2) as -> by set_solver. by destruct (Hnon hd1 xs1).
  - intros x Hx. rewrite Hsame by set_solver. apply Hnull. set_solver.
  - intros x Hx. rewrite on_list_spec. intros (hd' & xs' & Hl & Hin). simpl in Hl.
    rewrite lookup_insert in Hl. case_decide; simplify_eq; [set_solver|].
    apply (Hfree x); [set_solver|]. apply on_list_spec. eauto.
Qed.

Lemma other_list m st hd xs hd' xs' pos :
  Rep m st → lists st !! hd = Some xs → pos ∈ hd :: xs →
  lists st !! hd' = Some xs' → hd' ≠ hd → pos ∉ hd' :: xs'.
Proof. intros HR Hl Hp Hl' Hne Hp'. by apply Hne, (rep_disj _ _ HR hd' xs' hd xs pos). Qed.

Lemma unlinked_neq m st n hd xs x :
  Rep m st → n ∈ unlinked st → lists st !! hd = Some xs → x ∈ hd :: xs → n ≠ x.
Proof. intros HR Hn Hl Hx ->. apply (rep_free _ _ HR x Hn), on_list_spec. eauto. Qed.

Lemma ListAddHead_refines m st st' n pos :
  Rep m st → a_add_head n pos st = Some st' → wp (ListAddHead n pos) (λ _ m', Rep m' st') m.
Proof.
  intros HR Ha. unfold a_add_head in Ha. case_decide as Hc; simplify_eq/=.
  destruct Hc as [Hn (hd & xs & Hl & Hp)%on_list_spec].
  destruct (ins_after_split pos n hd xs Hp) as (l1 & l2 & -> & Hi & Heq).
  pose proof (dll_linked m hd l1 l2 (rep_dll _ _ HR _ _ Hl)) as Hlk. rewrite <- Heq in Hlk.
  eapply wp_ListAddHead; [done|by eapply unlinked_neq| |].
  - eapply unlinked_neq; [done..|]. apply default_head_in.
  - intros m' Hins. rewrite Heq in Hins at 1. eapply rep_insert; [done..|].
    intros hd' xs' Hl' Hne. pose proof (other_list _ _ _ _ _ _ _ HR Hl Hp Hl' Hne) as Hnot.
    unfold ins_after. rewrite decide_False by set_solver. apply insert_after_notin. set_solver.
Qed.

Lemma ListAddTail_refines m st st' n pos :
  Rep m st → a_add_tail n pos st = Some st' → wp (ListAddTail n pos) (λ _ m', Rep m' st') m.
Proof.
  intros HR Ha. unfold a_add_tail in Ha. case_decide as Hc; simplify_eq/=.
  destruct Hc as [Hn (hd & xs & Hl & Hp)%on_list_spec].
  destruct (ins_before_split pos n hd xs Hp) as (l1 & l2 & -> & Hi & Heq).
  pose proof (dll_linked m hd l1 l2 (rep_dll _ _ HR _ _ Hl)) as Hlk. rewrite <- Heq in Hlk.
  eapply wp_ListAddTail; [done|by eapply unlinked_neq| |].
  - eapply unlinked_neq; [done..|]. apply default_last_in.
  - intros m' Hins. rewrite Heq in Hins at 1. eapply rep_insert; [done..|].
    intros hd' xs' Hl' Hne. pose proof (other_list _ _ _ _ _ _ _ HR Hl Hp Hl' Hne) as Hnot.
    unfold ins_before. rewrite decide_False by set_solver. apply insert_before_notin. set_solver.
Qed.

Lemma ListRemove_refines m st st' n :
  Rep m st → a_remove n st = Some st' → wp (ListRemove n) (λ _ m', Rep m' st') m.
Proof.
  intros HR Ha. unfold a_remove in Ha. case_decide as Hc; simplify_eq/=.
  apply is_node_spec in Hc as (hd & xs & Hl & Hin).
  apply list_elem_of_split in Hin as (l1 & l2 & ->).
  pose proof (rep_dll _ _ HR _ _ Hl) as Hd.
  assert (Hnn : n ∉ hd :: l1 ++ l2).
  { destruct Hd as [Hnd _].
    rewrite app_comm_cons, <- Permutation_middle in Hnd. by apply NoDup_cons in Hnd as [? _]. }
  pose proof (dll_linked m hd l1 (n :: l2) Hd) as H1.
  pose proof (dll_linked m hd (l1 ++ [n]) l2) as H2. rewrite <- app_assoc, last_snoc in H2.
  eapply wp_ListRemove; [exact H1|by apply H2| | |].
  - intros E. apply Hnn. rewrite E. apply default_last_in.
  - intros E. apply Hnn. rewrite E. apply default_head_in.
  - intros m' Hrem. by eapply rep_remove.
Qed.

Lemma ListIsEmpty_refines m st hd b :
  Rep m st → a_is_empty hd st = Some b → wp (ListIsEmpty hd) (λ b' m', b' = b ∧ Rep m' st) m.
Proof.
  intros HR Ha. unfold a_is_empty in Ha. destruct (lists st !! hd) as [xs|] eqn:Hl; simplify_eq/=.
  unfold ListIsEmpty, load_next. wp_steps. split; [|done].
  destruct (rep_dll _ _ HR _ _ Hl) as [Hnd Hp].
  apply bool_decide_ext. destruct xs as [|x xs]; simpl in Hp.
  - destruct Hp as [-> _]. done.
  - destruct Hp as [[-> _] _]. split; [|done]. intros [= ->]. by apply NoDup_cons in Hnd as [[]%not_elem_of_cons _].
Qed.

Lemma ListPopFront_refines m st st' hd o :
  Rep m st → a_pop_front hd st = Some (o, st') →
  wp (ListPopFront hd) (λ o' m', o' = o ∧ Rep m' st') m.
Proof.
  intros HR Ha. unfold a_pop_front in Ha. destruct (lists st !! hd) as [xs|] eqn:Hl; simplify_eq/=.
  unfold ListPopFront. wp_step.
  eapply wp_mono. { apply (ListIsEmpty_refines m st hd (bool_decide (xs = []))); [done|].
                    unfold a_is_empty. by rewrite Hl. }
  intros b m1 [-> HR1]. destruct xs as [|x xs]; simpl in *; simplify_eq.
  - by wp_steps.
  - destruct (a_remove x st) as [st1|] eqn:Hr; simplify_eq/=. unfold load_next. wp_steps.
    destruct (rep_dll _ _ HR1 _ _ Hl) as [_ [[Hnx _] _]]. rewrite Hnx. wp_steps.
    eapply wp_mono; [by eapply ListRemove_refines|]. intros [] m2 HR2. by wp_steps.
Qed.

(** * Programs over lists *)
Inductive list_op : Type :=
| OpInit (hd : A) | OpAddHead (n pos : A) | OpAddTail (n pos : A)
| OpRemove (n : A) | OpIsEmpty (hd : A) | OpPopFront (hd : A).
Inductive list_out : Type := OutUnit | OutBool (b : bool) | OutNode (o : option A).

Definition run_c (op : list_op) : M (lmem A) list_out :=
  match op with
  | OpInit hd => ListInit hd ;; ret OutUnit
  | OpAddHead n pos => ListAddHead n pos ;; ret OutUnit
  | OpAddTail n pos => ListAddTail n pos ;; ret OutUnit
  | OpRemove n => ListRemove n ;; ret OutUnit
  | OpIsEmpty hd => let! b := ListIsEmpty hd in ret (OutBool b)
  | OpPopFront hd => let! o := ListPopFront hd in ret (OutNode o)
  end.
Definition run_a (op : list_op) (st : lstore A) : option (list_out * lstore A) :=
  match op with
  | OpInit hd => pair OutUnit <$> a_init hd st
  | OpAddHead n pos => pair OutUnit <$> a_add_head n pos st
  | OpAddTail n pos => pair OutUnit <$> a_add_tail n pos st
  | OpRemove n => pair OutUnit <$> a_remove n st
  | OpIsEmpty hd => (λ b, (OutBool b, st)) <$> a_is_empty hd st
  | OpPopFront hd => prod_map OutNode id <$> a_pop_front hd st
  end.
Fixpoint run_cs (ops : list list_op) : M (lmem A) (list list_out) :=
  match ops with
  | [] => ret []
  | op :: ops' => let! o := run_c op in let! os := run_cs ops' in ret (o :: os)
  end.
Fixpoint run_as (ops : list list_op) (st : lstore A) : option (list list_out * lstore A) :=
  match ops with
  | [] => Some ([], st)
  | op :: ops' => '(o, st1) ← run_a op st; '(os, st2) ← run_as ops' st1; Some (o :: os, st2)
  end.

Lemma run_c_refines m st op o st' :
  Rep m st → run_a op st = Some (o, st') → wp (run_c op) (λ o' m', o' = o ∧ Rep m' st') m.
Proof.
  intros HR. destruct op as [hd|n pos|n pos|n|hd|hd]; simpl; intros Ha;
    apply fmap_Some in Ha as (r & Ha & Heq); simplify_eq; apply wp_bind.
  - eapply wp_mono; [by eapply ListInit_refines|]. by intros [] m' ?; apply wp_ret.
  - eapply wp_mono; [by eapply ListAddHead_refines|]. by intros [] m' ?; apply wp_ret.
  - eapply wp_mono; [by eapply ListAddTail_refines|]. by intros [] m' ?; apply wp_ret.
  - eapply wp_mono; [by eapply ListRemove_refines|]. by intros [] m' ?; apply wp_ret.
  - eapply wp_mono; [by eapply ListIsEmpty_refines|]. by intros b m' [-> ?]; apply wp_ret.
  - destruct r as [o' st1]. simplify_eq/=.
    eapply wp_mono; [by eapply ListPopFront_refines|]. by intros b m' [-> ?]; apply wp_ret.
Qed.

(** C34: every program of list operations that respects the operations' contracts,
    run on node memory that represents an abstract store, runs without a NULL
    dereference, returns the abstract results and ends in memory that represents
    the abstract final store: every list keeps its order, a removed node is NULLed,
    and lists that share the memory do not disturb each other. *)
Theorem list_program_refines ops m st os st' :
  Rep m st → run_as ops st = Some (os, st') →
  ∃ m', run_cs ops m = Ok (os, m') ∧ Rep m' st'.
Proof.
  intros HR Ha. enough (wp (run_cs ops) (λ os' m', os' = os ∧ Rep m' st') m) as Hw.
  { apply wp_Ok in Hw as (os' & m' & Hr & -> & ?). eauto. }
  revert m st os HR Ha. induction ops as [|op ops IH]; intros m st os HR Ha; simpl in *; simplify_eq.
  { by apply wp_ret. }
  destruct (run_a op st) as [[o st1]|] eqn:E1; simplify_eq/=.
  destruct (run_as ops st1) as [[os1 st2]|] eqn:E2; simplify_eq/=.
  apply wp_bind. eapply wp_mono; [by eapply run_c_refines|]. intros o' m1 [-> HR1].
  apply wp_bind. eapply wp_mono; [by eapply IH|]. intros os' m2 [-> HR2]. by apply wp_ret.
Qed.

(** Zeroed memory represents the store in which every node is unlinked. *)
Lemma Rep_zeroed (U : gset A) : Rep (λ _, mkListNode None None) (mkLstore ∅ U).
Proof.
  split; simpl; try (intros; by rewrite ?lookup_empty in *).
  intros x _ (hd & xs & Hl & _)%on_list_spec. simpl in Hl. by rewrite lookup_empty in Hl.
Qed.
End lstore.

(** Witness: two queues with sentinels 1 and 2 over nodes 3 to 5. *)
Definition demo_ops : list (list_op (A := Z)) :=
  [OpInit 1; OpInit 2; OpAddTail 3 1; OpAddTail 4 1; OpAddHead 5 1; OpRemove 4;
   OpAddTail 4 2; OpPopFront 1; OpIsEmpty 2; OpPopFront 2; OpIsEmpty 2].

Lemma list_program_refines_witness :
  ∃ m', run_cs demo_ops (λ _, mkListNode None None) =
        Ok ([OutUnit; OutUnit; OutUnit; OutUnit; OutUnit; OutUnit; OutUnit;
             OutNode (Some 5); OutBool false; OutNode (Some 4); OutBool true], m') ∧
        Rep m' (mkLstore {[1 := [3]; 2 := []]} {[4; 5]}).
Proof.
  eapply (list_program_refines demo_ops _ (mkLstore ∅ {[1; 2; 3; 4; 5]})).
  - apply Rep_zeroed.
  - vm_compute. reflexivity.
Defined.
