(* ===== verification/Pmm.v ===== *)
(** kernel/mm/pmm/pmm.c, pmm.h, pmm_internal.h and pmm_pressure.c: the physical
    memory manager.

    Frames are tracked twice: by a bitmap (one bit per frame, set when allocated)
    and by a doubly linked free list threaded through the free frames themselves.
    [pworld] holds the PMM state, the link words that free frames store, the boot
    RAM layout, the published free-memory figure and the low-memory subscribers.

    What the PMM calls in the event subsystem when memory runs low (EventSignal,
    EventUnref) and in the heap (KFree) is an interface, the class [PmmEnv]; its
    laws are the class [PmmEnvOk], against which the PMM's theorems are proved. *)
From S2P Require Import Prelude.

#[local] Open Scope Z_scope.

Definition PA_NULL : Z := 0.
Definition LOW_WATER_PCT : Z := 20.
Definition HIGH_WATER_PCT : Z := 30.
Definition EVENT_MEMMGMT_BIT : Z := 1.

Definition PfnToPa (pfn : Z) : Z := w32 (Z.shiftl pfn PAGE_SHIFT).
Definition PaToPfn (pa : Z) : Z := Z.shiftr pa PAGE_SHIFT.
#[global] Arguments PfnToPa : simpl never.
#[global] Arguments PaToPfn : simpl never.

(** [PmmState] of pmm_internal.h; [bitmap] is the contents of the array that the pointer [bitmap_va] designates. *)
Record PmmState := mkPmm {
  pfn_base : Z;
  pfn_end : Z;
  total_frames : Z;
  free_frames : Z;
  bitmap : list Z;
  bitmap_va : Z;
  bitmap_bytes : Z;
  freelist_head : Z;
  freelist_ready : bool;
  in_pressure : bool
}.
Definition set_pfn_base (v : Z) (r : PmmState) : PmmState :=
  mkPmm v (pfn_end r) (total_frames r) (free_frames r) (bitmap r) (bitmap_va r) (bitmap_bytes r) (freelist_head r) (freelist_ready r) (in_pressure r).
Definition set_pfn_end (v : Z) (r : PmmState) : PmmState :=
  mkPmm (pfn_base r) v (total_frames r) (free_frames r) (bitmap r) (bitmap_va r) (bitmap_bytes r) (freelist_head r) (freelist_ready r) (in_pressure r).
Definition set_total_frames (v : Z) (r : PmmState) : PmmState :=
  mkPmm (pfn_base r) (pfn_end r) v (free_frames r) (bitmap r) (bitmap_va r) (bitmap_bytes r) (freelist_head r) (freelist_ready r) (in_pressure r).
Definition set_free_frames (v : Z) (r : PmmState) : PmmState :=
  mkPmm (pfn_base r) (pfn_end r) (total_frames r) v (bitmap r) (bitmap_va r) (bitmap_bytes r) (freelist_head r) (freelist_ready r) (in_pressure r).
Definition set_bitmap (v : list Z) (r : PmmState) : PmmState :=
  mkPmm (pfn_base r) (pfn_end r) (total_frames r) (free_frames r) v (bitmap_va r) (bitmap_bytes r) (freelist_head r) (freelist_ready r) (in_pressure r).
Definition set_bitmap_va (v : Z) (r : PmmState) : PmmState :=
  mkPmm (pfn_base r) (pfn_end r) (total_frames r) (free_frames r) (bitmap r) v (bitmap_bytes r) (freelist_head r) (freelist_ready r) (in_pressure r).
Definition set_bitmap_bytes (v : Z) (r : PmmState) : PmmState :=
  mkPmm (pfn_base r) (pfn_end r) (total_frames r) (free_frames r) (bitmap r) (bitmap_va r) v (freelist_head r) (freelist_ready r) (in_pressure r).
Definition set_freelist_head (v : Z) (r : PmmState) : PmmState :=
  mkPmm (pfn_base r) (pfn_end r) (total_frames r) (free_frames r) (bitmap r) (bitmap_va r) (bitmap_bytes r) v (freelist_ready r) (in_pressure r).
Definition set_freelist_ready (v : bool) (r : PmmState) : PmmState :=
  mkPmm (pfn_base r) (pfn_end r) (total_frames r) (free_frames r) (bitmap r) (bitmap_va r) (bitmap_bytes r) (freelist_head r) v (in_pressure r).
Definition set_in_pressure (v : bool) (r : PmmState) : PmmState :=
  mkPmm (pfn_base r) (pfn_end r) (total_frames r) (free_frames r) (bitmap r) (bitmap_va r) (bitmap_bytes r) (freelist_head r) (freelist_ready r) v.

(** [FreeNode]: the link words a free frame stores; 0 ends the list. *)
Record FreeNode := mkFreeNode {
  fn_next : Z;
  fn_prev : Z
}.

(** The fields of [RamLayout] (kernel/layout.h) that the memory managers use. *)
Record RamLayout := mkLayout {
  ram_start : Z;
  ram_end : Z;
  dtb_start_pa : Z;
  kernel_start_pa : Z;
  kernel_end_pa : Z;
  stack_base_pa : Z;
  bitmap_start_pa : Z;
  bitmap_end_pa : Z;
  layout_bitmap_va : Z;
  heap_start_pa : Z;
  heap_end_pa : Z;
  heap_start_va : Z;
  heap_end_va : Z
}.
Definition set_ram_start (v : Z) (r : RamLayout) : RamLayout :=
  mkLayout v (ram_end r) (dtb_start_pa r) (kernel_start_pa r) (kernel_end_pa r) (stack_base_pa r) (bitmap_start_pa r) (bitmap_end_pa r) (layout_bitmap_va r) (heap_start_pa r) (heap_end_pa r) (heap_start_va r) (heap_end_va r).
Definition set_ram_end (v : Z) (r : RamLayout) : RamLayout :=
  mkLayout (ram_start r) v (dtb_start_pa r) (kernel_start_pa r) (kernel_end_pa r) (stack_base_pa r) (bitmap_start_pa r) (bitmap_end_pa r) (layout_bitmap_va r) (heap_start_pa r) (heap_end_pa r) (heap_start_va r) (heap_end_va r).
Definition set_dtb_start_pa (v : Z) (r : RamLayout) : RamLayout :=
  mkLayout (ram_start r) (ram_end r) v (kernel_start_pa r) (kernel_end_pa r) (stack_base_pa r) (bitmap_start_pa r) (bitmap_end_pa r) (layout_bitmap_va r) (heap_start_pa r) (heap_end_pa r) (heap_start_va r) (heap_end_va r).
Definition set_kernel_start_pa (v : Z) (r : RamLayout) : RamLayout :=
  mkLayout (ram_start r) (ram_end r) (dtb_start_pa r) v (kernel_end_pa r) (stack_base_pa r) (bitmap_start_pa r) (bitmap_end_pa r) (layout_bitmap_va r) (heap_start_pa r) (heap_end_pa r) (heap_start_va r) (heap_end_va r).
Definition set_kernel_end_pa (v : Z) (r : RamLayout) : RamLayout :=
  mkLayout (ram_start r) (ram_end r) (dtb_start_pa r) (kernel_start_pa r) v (stack_base_pa r) (bitmap_start_pa r) (bitmap_end_pa r) (layout_bitmap_va r) (heap_start_pa r) (heap_end_pa r) (heap_start_va r) (heap_end_va r).
Definition set_stack_base_pa (v : Z) (r : RamLayout) : RamLayout :=
  mkLayout (ram_start r) (ram_end r) (dtb_start_pa r) (kernel_start_pa r) (kernel_end_pa r) v (bitmap_start_pa r) (bitmap_end_pa r) (layout_bitmap_va r) (heap_start_pa r) (heap_end_pa r) (heap_start_va r) (heap_end_va r).
Definition set_bitmap_start_pa (v : Z) (r : RamLayout) : RamLayout :=
  mkLayout (ram_start r) (ram_end r) (dtb_start_pa r) (kernel_start_pa r) (kernel_end_pa r) (stack_base_pa r) v (bitmap_end_pa r) (layout_bitmap_va r) (heap_start_pa r) (heap_end_pa r) (heap_start_va r) (heap_end_va r).
Definition set_bitmap_end_pa (v : Z) (r : RamLayout) : RamLayout :=
  mkLayout (ram_start r) (ram_end r) (dtb_start_pa r) (kernel_start_pa r) (kernel_end_pa r) (stack_base_pa r) (bitmap_start_pa r) v (layout_bitmap_va r) (heap_start_pa r) (heap_end_pa r) (heap_start_va r) (heap_end_va r).
Definition set_layout_bitmap_va (v : Z) (r : RamLayout) : RamLayout :=
  mkLayout (ram_start r) (ram_end r) (dtb_start_pa r) (kernel_start_pa r) (kernel_end_pa r) (stack_base_pa r) (bitmap_start_pa r) (bitmap_end_pa r) v (heap_start_pa r) (heap_end_pa r) (heap_start_va r) (heap_end_va r).
Definition set_heap_start_pa (v : Z) (r : RamLayout) : RamLayout :=
  mkLayout (ram_start r) (ram_end r) (dtb_start_pa r) (kernel_start_pa r) (kernel_end_pa r) (stack_base_pa r) (bitmap_start_pa r) (bitmap_end_pa r) (layout_bitmap_va r) v (heap_end_pa r) (heap_start_va r) (heap_end_va r).
Definition set_heap_end_pa (v : Z) (r : RamLayout) : RamLayout :=
  mkLayout (ram_start r) (ram_end r) (dtb_start_pa r) (kernel_start_pa r) (kernel_end_pa r) (stack_base_pa r) (bitmap_start_pa r) (bitmap_end_pa r) (layout_bitmap_va r) (heap_start_pa r) v (heap_start_va r) (heap_end_va r).
Definition set_heap_start_va (v : Z) (r : RamLayout) : RamLayout :=
  mkLayout (ram_start r) (ram_end r) (dtb_start_pa r) (kernel_start_pa r) (kernel_end_pa r) (stack_base_pa r) (bitmap_start_pa r) (bitmap_end_pa r) (layout_bitmap_va r) (heap_start_pa r) (heap_end_pa r) v (heap_end_va r).
Definition set_heap_end_va (v : Z) (r : RamLayout) : RamLayout :=
  mkLayout (ram_start r) (ram_end r) (dtb_start_pa r) (kernel_start_pa r) (kernel_end_pa r) (stack_base_pa r) (bitmap_start_pa r) (bitmap_end_pa r) (layout_bitmap_va r) (heap_start_pa r) (heap_end_pa r) (heap_start_va r) v.

(** [PmmSubscriber]: its address and the event it signals. *)
Record PmmSubscriber := mkSub {
  sub_addr : Z;
  sub_ev : Z
}.

(** The state the PMM works on; [ext] is the state of its environment. *)
Record pworld (E : Type) := mkPworld {
  pmm : PmmState;
  nodes : Z → FreeNode;
  layout : RamLayout;
  g_sp : option Z;
  subs : list PmmSubscriber;
  ext : E
}.
Arguments mkPworld {_} _ _ _ _ _ _.
Arguments pmm {_} _.
Arguments nodes {_} _.
Arguments layout {_} _.
Arguments g_sp {_} _.
Arguments subs {_} _.
Arguments ext {_} _.
Definition set_pmm {E} (v : PmmState) (r : pworld E) : pworld E :=
  mkPworld v (nodes r) (layout r) (g_sp r) (subs r) (ext r).
Definition set_nodes {E} (v : Z → FreeNode) (r : pworld E) : pworld E :=
  mkPworld (pmm r) v (layout r) (g_sp r) (subs r) (ext r).
Definition set_layout {E} (v : RamLayout) (r : pworld E) : pworld E :=
  mkPworld (pmm r) (nodes r) v (g_sp r) (subs r) (ext r).
Definition set_g_sp {E} (v : option Z) (r : pworld E) : pworld E :=
  mkPworld (pmm r) (nodes r) (layout r) v (subs r) (ext r).
Definition set_subs {E} (v : list PmmSubscriber) (r : pworld E) : pworld E :=
  mkPworld (pmm r) (nodes r) (layout r) (g_sp r) v (ext r).
Definition set_ext {E} (v : E) (r : pworld E) : pworld E :=
  mkPworld (pmm r) (nodes r) (layout r) (g_sp r) (subs r) v.

(** What boot code leaves behind for [PmmInit]: linker symbols, the direct-map offset
    and the regions the device tree reports. *)
Record BootEnv := mkBoot {
  boot_start : Z;
  boot_end : Z;
  stack_region_base : Z;
  stack_region_end : Z;
  KERNEL_VA_OFFSET : Z;
  FdtTotalSize : Z;
  FdtReservedMem : list (Z * Z);
  FdtInitrd : option (Z * Z)
}.

(** What the PMM needs of the event subsystem and the heap. *)
Class PmmEnv (E : Type) : Type := {
  ev_alive : E → Z → bool;
  EventSignal : Z → Z → bool → M (pworld E) unit;
  EventUnref : Z → M (pworld E) unit;
  KFree : Z → M (pworld E) unit
}.

Section pmm.
Context {E : Type} `{PmmEnv E}.
Abbreviation PM := (M (pworld E)).

Definition upd_pmm (f : PmmState → PmmState) : PM unit := modify (λ w, set_pmm (f (pmm w)) w).
Definition getp {A} (f : PmmState → A) : PM A := gets (λ w, f (pmm w)).

Definition Node (pa : Z) : PM FreeNode := gets (λ w, nodes w pa).
Definition fupd (ns : Z → FreeNode) (pa : Z) (n : FreeNode) : Z → FreeNode :=
  λ x, if decide (x = pa) then n else ns x.
Definition set_fn_next (pa v : Z) : PM unit :=
  modify (λ w, set_nodes (fupd (nodes w) pa (mkFreeNode v (fn_prev (nodes w pa)))) w).
Definition set_fn_prev (pa v : Z) : PM unit :=
  modify (λ w, set_nodes (fupd (nodes w) pa (mkFreeNode (fn_next (nodes w pa)) v)) w).

Definition PushNode (pa : Z) : PM unit :=
  let! head := getp freelist_head in
  set_fn_next pa head ;;
  set_fn_prev pa 0 ;;
  when (truthy head) (set_fn_prev head pa) ;;
  upd_pmm (set_freelist_head pa).

Definition PopNode : PM Z :=
  let! pa := getp freelist_head in
  if pa =? 0 then ret 0 else
  let! n := Node pa in
  upd_pmm (set_freelist_head (fn_next n)) ;;
  when (truthy (fn_next n)) (set_fn_prev (fn_next n) 0) ;;
  ret pa.

Definition UnlinkNode (pa : Z) : PM unit :=
  let! n := Node pa in
  let prev := fn_prev n in
  let next := fn_next n in
  (if truthy prev then set_fn_next prev next else upd_pmm (set_freelist_head next)) ;;
  when (truthy next) (set_fn_prev next prev).

Definition PmmIsRecorded (p : PmmState) (pa : Z) : bool :=
  if pa =? 0 then true
  else if negb (pa mod PAGE_SIZE =? 0) then false
  else let pfn := PaToPfn pa in (pfn_base p <=? pfn) && (pfn <? pfn_end p).

Definition PmmRebuildFreelist : PM unit :=
  upd_pmm (set_freelist_head 0) ;;
  let! total := getp total_frames in
  for_each (Z.to_nat total) 0 (λ i,
    let! p := getp id in
    when (negb (bb_get (bitmap p) i)) (PushNode (PfnToPa (w32 (pfn_base p + i))))) ;;
  upd_pmm (set_freelist_ready true).

(** The walk of [PmmSignalSubscribers] over the subscriber list; the next node is
    read before a subscriber is removed. *)
Fixpoint signal_walk (l : list PmmSubscriber) : PM unit :=
  match l with
  | [] => ret tt
  | sub :: l' =>
      let! alive := gets (λ w, ev_alive (ext w) (sub_ev sub)) in
      (if negb alive then
         modify (λ w, set_subs (filter (λ s, sub_addr s ≠ sub_addr sub) (subs w)) w) ;;
         EventUnref (sub_ev sub) ;;
         KFree (sub_addr sub)
       else EventSignal (sub_ev sub) EVENT_MEMMGMT_BIT false) ;;
      signal_walk l'
  end.

Definition PmmSignalSubscribers : PM unit :=
  let! p := getp id in
  let free_pct := w32 (free_frames p * 100) / total_frames p in
  if negb (in_pressure p) && (free_pct <? LOW_WATER_PCT) then
    upd_pmm (set_in_pressure true) ;;
    let! l := gets subs in
    signal_walk l
  else when (in_pressure p && (HIGH_WATER_PCT <? free_pct)) (upd_pmm (set_in_pressure false)).

(** [SyspageUpdateMem] of kernel/syspage.c. *)
Definition SyspageUpdateMem : PM unit :=
  modify (λ w, match g_sp w with
               | None => w
               | Some _ => set_g_sp (Some (w32 (free_frames (pmm w) * PAGE_SIZE / 1024))) w
               end).

(** The validation of the list head and of its successor at the start of
    [PmmTakeFreeFrame]; false when the function returns 0 from there. *)
Definition validate_freelist : PM bool :=
  let! head := getp freelist_head in
  if head =? 0 then ret false else
  let! go_on :=
    let! recorded := gets (λ w, PmmIsRecorded (pmm w) (freelist_head (pmm w))) in
    if negb recorded then
      PmmRebuildFreelist ;;
      let! head := getp freelist_head in ret (negb (head =? 0))
    else ret true in
  if negb go_on then ret false else
  let! recorded := gets (λ w, PmmIsRecorded (pmm w) (fn_next (nodes w (freelist_head (pmm w))))) in
  if negb recorded then
    PmmRebuildFreelist ;;
    let! head := getp freelist_head in
    if head =? 0 then ret false else
    let! recorded := gets (λ w, PmmIsRecorded (pmm w) (fn_next (nodes w (freelist_head (pmm w))))) in
    if negb recorded then upd_pmm (set_freelist_head 0) ;; ret false else ret true
  else ret true.

Definition PmmTakeFreeFrame : PM Z :=
  let! go_on := validate_freelist in
  if negb go_on then ret 0 else
  let! pa := PopNode in
  let! p := getp id in
  let index := w32 (PaToPfn pa - pfn_base p) in
  assert (index / 8 <? bitmap_bytes p) ;;
  assert (negb (bb_get (bitmap p) index)) ;;
  upd_pmm (set_bitmap (bb_set (bitmap p) index)) ;;
  upd_pmm (set_free_frames (w32 (free_frames p - 1))) ;;
  let! p' := getp id in
  assert (free_frames p' <=? total_frames p') ;;
  PmmSignalSubscribers ;;
  ret pa.

Definition PmmGetStats (p : PmmState) : Z * Z := (total_frames p, free_frames p).

(** The sanity assertions shared by the range and run operations. *)
Definition assert_geometry (p : PmmState) : PM unit :=
  assert (truthy (bitmap_va p)) ;;
  assert (total_frames p =? w32 (pfn_end p - pfn_base p)) ;;
  assert (total_frames p <=? bitmap_bytes p * 8).

(** One frame of the marking loop; returns whether the free list must be rebuilt. *)
Definition mark_frame (pfn : Z) (needs_rebuild : bool) : PM bool :=
  let! p := getp id in
  let index := w32 (pfn - pfn_base p) in
  assert (index / 8 <? bitmap_bytes p) ;;
  if negb (bb_get (bitmap p) index) then
    upd_pmm (set_bitmap (bb_set (bitmap p) index)) ;;
    when (0 <? free_frames p) (upd_pmm (set_free_frames (free_frames p - 1))) ;;
    let! p' := getp id in
    assert (free_frames p' <=? total_frames p') ;;
    if freelist_ready p' then
      let! n := Node (PfnToPa pfn) in
      if PmmIsRecorded p' (fn_prev n) && PmmIsRecorded p' (fn_next n)
      then UnlinkNode (PfnToPa pfn) ;; ret needs_rebuild
      else ret true
    else ret needs_rebuild
  else ret needs_rebuild.

Fixpoint mark_frames (n : nat) (pfn : Z) (needs_rebuild : bool) : PM bool :=
  match n with
  | O => ret needs_rebuild
  | S n' => let! nr := mark_frame pfn needs_rebuild in mark_frames n' (pfn + 1) nr
  end.

Definition PmmMarkRange (start end_ : Z) : PM Z :=
  if end_ <=? start then ret ERR_BADARG else
  let astart := align_down start PAGE_SIZE in
  let aend := align_up end_ PAGE_SIZE in
  let start_pfn := PaToPfn astart in
  let end_pfn := PaToPfn aend in
  let! p := getp id in
  if (start_pfn <? pfn_base p) || (pfn_end p <? end_pfn) then ret ERR_BADARG else
  assert (truthy (bitmap_va p)) ;;
  assert (pfn_base p <? pfn_end p) ;;
  assert_geometry p ;;
  let! needs_rebuild := mark_frames (Z.to_nat (end_pfn - start_pfn)) start_pfn false in
  when needs_rebuild PmmRebuildFreelist ;;
  ret ZUZU_OK.

(** One frame of the unmarking loop. *)
Definition unmark_frame (pfn : Z) : PM unit :=
  let! p := getp id in
  let index := w32 (pfn - pfn_base p) in
  assert (index / 8 <? bitmap_bytes p) ;;
  when (bb_get (bitmap p) index)
    (upd_pmm (set_bitmap (bb_clr (bitmap p) index)) ;;
     when (free_frames p <? total_frames p) (upd_pmm (set_free_frames (free_frames p + 1))) ;;
     let! p' := getp id in
     assert (free_frames p' <=? total_frames p') ;;
     when (freelist_ready p') (PushNode (PfnToPa pfn))).

Definition PmmUnmarkRange (start end_ : Z) : PM Z :=
  if end_ <=? start then ret ERR_BADARG else
  let astart := align_down start PAGE_SIZE in
  let aend := align_up end_ PAGE_SIZE in
  let start_pfn := PaToPfn astart in
  let end_pfn := PaToPfn aend in
  let! p := getp id in
  if (start_pfn <? pfn_base p) || (pfn_end p <? end_pfn) then ret ERR_BADARG else
  assert (truthy (bitmap_va p)) ;;
  assert (pfn_base p <? pfn_end p) ;;
  assert_geometry p ;;
  for_each (Z.to_nat (end_pfn - start_pfn)) start_pfn unmark_frame ;;
  ret ZUZU_OK.

Definition PmmAllocFrame : PM Z :=
  let! pa := PmmTakeFreeFrame in
  when (negb (pa =? 0)) SyspageUpdateMem ;;
  ret pa.

(** What the contiguous allocators do once a run was found at [start_index]. *)
Definition contig_take (start_index n_frames : Z) : PM Z :=
  let! p := getp id in
  let start_pa := PfnToPa (w32 (pfn_base p + start_index)) in
  let end_pa := PfnToPa (w32 (pfn_base p + start_index + n_frames)) in
  let! e := PmmMarkRange start_pa end_pa in
  if negb (e =? ZUZU_OK) then ret PA_NULL else
  SyspageUpdateMem ;;
  PmmSignalSubscribers ;;
  ret start_pa.

(** The first-fit scan of [PmmAllocFramesContig]. *)
Fixpoint contig_scan (p : PmmState) (n_frames : Z) (n : nat) (index consecutive start_index : Z) : option Z :=
  match n with
  | O => None
  | S n' =>
      if bitmap_bytes p <=? index / 8 then None
      else if negb (bb_get (bitmap p) index) then
        let start_index' := if consecutive =? 0 then index else start_index in
        if consecutive + 1 =? n_frames then Some start_index'
        else contig_scan p n_frames n' (index + 1) (consecutive + 1) start_index'
      else contig_scan p n_frames n' (index + 1) 0 start_index
  end.

Definition PmmAllocFramesContig (n_frames : Z) : PM Z :=
  let! p := getp id in
  if (n_frames =? 0) || (free_frames p <? n_frames) then ret PA_NULL else
  assert_geometry p ;;
  assert (free_frames p <=? total_frames p) ;;
  assert (n_frames <=? total_frames p) ;;
  match contig_scan p n_frames (Z.to_nat (total_frames p)) 0 0 0 with
  | None => ret PA_NULL
  | Some start_index =>
      let start_pa := PfnToPa (w32 (pfn_base p + start_index)) in
      let end_pa := PfnToPa (w32 (pfn_base p + start_index + n_frames)) in
      let! e := PmmMarkRange start_pa end_pa in
      if negb (e =? ZUZU_OK) then ret PA_NULL else
      let! p' := getp id in
      let pfn := w32 (pfn_base p' + start_index) in
      let addr := PfnToPa pfn in
      assert (addr mod PAGE_SIZE =? 0) ;;
      assert ((pfn_base p' <=? pfn) && (w32 (pfn + n_frames) <=? pfn_end p')) ;;
      SyspageUpdateMem ;;
      PmmSignalSubscribers ;;
      ret addr
  end.

Definition PmmFreeFrame (addr : Z) : PM unit :=
  assert (addr mod PAGE_SIZE =? 0) ;;
  let pfn := PaToPfn addr in
  let! p := getp id in
  assert ((pfn_base p <=? pfn) && (pfn <? pfn_end p)) ;;
  let index := w32 (pfn - pfn_base p) in
  assert (index / 8 <? bitmap_bytes p) ;;
  assert (truthy (bitmap_va p)) ;;
  assert (free_frames p <=? total_frames p) ;;
  if bb_get (bitmap p) index then
    upd_pmm (set_bitmap (bb_clr (bitmap p) index)) ;;
    upd_pmm (set_free_frames (w32 (free_frames p + 1))) ;;
    let! p' := getp id in
    assert (free_frames p' <=? total_frames p') ;;
    PushNode addr ;;
    SyspageUpdateMem
  else panic.

(** The scan of [PmmAllocFramesContigAligned]: a run only starts at an aligned frame. *)
Fixpoint aligned_scan (p : PmmState) (n_frames align_frames : Z) (n : nat) (index consecutive start_index : Z) : option Z :=
  match n with
  | O => None
  | S n' =>
      if (consecutive =? 0) && negb (Z.land (w32 (pfn_base p + index)) (align_frames - 1) =? 0)
      then aligned_scan p n_frames align_frames n' (index + 1) consecutive start_index
      else if bitmap_bytes p <=? index / 8 then None
      else if negb (bb_get (bitmap p) index) then
        let start_index' := if consecutive =? 0 then index else start_index in
        if consecutive + 1 =? n_frames then Some start_index'
        else aligned_scan p n_frames align_frames n' (index + 1) (consecutive + 1) start_index'
      else aligned_scan p n_frames align_frames n' (index + 1) 0 start_index
  end.

Definition PmmAllocFramesContigAligned (n_frames align_frames : Z) : PM Z :=
  if n_frames =? 0 then ret PA_NULL else
  let align_frames := if align_frames =? 0 then 1 else align_frames in
  if negb (Z.land align_frames (align_frames - 1) =? 0) then ret PA_NULL else
  let! p := getp id in
  if free_frames p <? n_frames then ret PA_NULL else
  assert_geometry p ;;
  match aligned_scan p n_frames align_frames (Z.to_nat (total_frames p)) 0 0 0 with
  | None => ret PA_NULL
  | Some start_index => contig_take start_index n_frames
  end.

(** The loop of [PmmAllocFramesScattered]; the addresses written to [out_addrs] are
    returned in order. *)
Fixpoint scatter (n : nat) : PM (list Z) :=
  match n with
  | O => ret []
  | S n' =>
      let! pa := PmmTakeFreeFrame in
      if pa =? 0 then ret [] else
      let! rest := scatter n' in ret (pa :: rest)
  end.

Definition PmmAllocFramesScattered (n_frames out_addrs : Z) : PM (list Z) :=
  let! p := getp id in
  if (n_frames =? 0) || negb (truthy out_addrs) || (free_frames p <? n_frames) then ret [] else
  assert_geometry p ;;
  assert (free_frames p <=? total_frames p) ;;
  assert (n_frames <=? total_frames p) ;;
  let! l := scatter (Z.to_nat n_frames) in
  SyspageUpdateMem ;;
  ret l.

(** The loop over the reservation table of the device tree. *)
Fixpoint reserve_fdt (l : list (Z * Z)) : PM unit :=
  match l with
  | [] => ret tt
  | (addr, size) :: l' => PmmMarkRange (w32 addr) (w32 (addr + size)) ;; reserve_fdt l'
  end.

Definition PmmReserveBootRegions (b : BootEnv) : PM unit :=
  PmmMarkRange (boot_start b) (boot_end b) ;;
  let! l := gets layout in
  PmmMarkRange (dtb_start_pa l) (w32 (dtb_start_pa l + FdtTotalSize b)) ;;
  PmmMarkRange (kernel_start_pa l) (kernel_end_pa l) ;;
  PmmMarkRange (bitmap_start_pa l) (bitmap_end_pa l) ;;
  PmmMarkRange (stack_region_base b) (stack_region_end b) ;;
  reserve_fdt (FdtReservedMem b) ;;
  match FdtInitrd b with
  | Some (s, e) => PmmMarkRange (w32 s) (w32 e) ;; ret tt
  | None => ret tt
  end.

Definition PmmInit (b : BootEnv) : PM unit :=
  let! l := gets layout in
  upd_pmm (set_pfn_base (PaToPfn (ram_start l))) ;;
  upd_pmm (set_pfn_end (PaToPfn (ram_end l))) ;;
  upd_pmm (λ p, set_total_frames (w32 (pfn_end p - pfn_base p)) p) ;;
  upd_pmm (λ p, set_free_frames (total_frames p) p) ;;
  let! p := getp id in
  let bitmap_start := align_up (kernel_end_pa l) PAGE_SIZE in
  let bytes := w32 (total_frames p + 7) / 8 in
  let bitmap_size := align_up bytes PAGE_SIZE in
  let bitmap_end := w32 (bitmap_start + bitmap_size) in
  assert (bitmap_end <=? stack_base_pa l) ;;
  assert (bitmap_end <=? ram_end l) ;;
  modify (λ w, set_layout (set_bitmap_start_pa bitmap_start (layout w)) w) ;;
  modify (λ w, set_layout (set_bitmap_end_pa bitmap_end (layout w)) w) ;;
  modify (λ w, set_layout (set_layout_bitmap_va (w32 (bitmap_start + KERNEL_VA_OFFSET b)) (layout w)) w) ;;
  upd_pmm (set_bitmap_va (w32 (bitmap_start + KERNEL_VA_OFFSET b))) ;;
  upd_pmm (set_bitmap_bytes bytes) ;;
  upd_pmm (set_bitmap (replicate (Z.to_nat bitmap_size) 0)) ;;
  PmmReserveBootRegions b ;;
  PmmRebuildFreelist ;;
  modify (set_subs []).

(** * The free list *)

Implicit Types (ns : Z → FreeNode) (p : PmmState) (w : pworld E) (x pa : Z) (xs : list Z).

(** [seg ns pv h xs n]: the nodes [xs] from [h] on, [pv] before them and [n] after. *)
Fixpoint seg ns (pv h : Z) xs (n : Z) : Prop :=
  match xs with
  | [] => h = n
  | x :: xs' => h = x ∧ fn_prev (ns x) = pv ∧ seg ns x (fn_next (ns x)) xs' n
  end.
Definition flist ns (h : Z) xs : Prop := seg ns 0 h xs 0 ∧ NoDup xs ∧ 0 ∉ xs.

Lemma seg_frame ns ns' pv h xs n :
  (∀ x, x ∈ xs → ns' x = ns x) → seg ns pv h xs n → seg ns' pv h xs n.
Proof.
  revert pv h. induction xs as [|x xs IH]; intros pv h Hs; simpl; [done|].
  intros (-> & Hp & Hr). rewrite (Hs x) by set_solver. split_and!; [done..|].
  apply IH; [set_solver|done].
Qed.

Lemma seg_app ns pv h xs ys n :
  seg ns pv h (xs ++ ys) n ↔ ∃ k, seg ns pv h xs k ∧ seg ns (default pv (last xs)) k ys n.
Proof.
  revert pv h. induction xs as [|x xs IH]; intros pv h.
  - simpl. naive_solver.
  - replace (default pv (last (x :: xs))) with (default x (last xs)) by (by destruct xs as [|?? _] using rev_ind; [|rewrite app_comm_cons, !last_snoc]).
    simpl. rewrite IH. naive_solver.
Qed.

Lemma fupd_eq ns x n : fupd ns x n x = n.
Proof. unfold fupd. by rewrite decide_True. Qed.
Lemma fupd_ne ns x y n : x ≠ y → fupd ns x n y = ns y.
Proof. intros. unfold fupd. by rewrite decide_False. Qed.

(** The nodes after pushing [pa] in front of the head [h], and after unlinking it. *)
Definition fn_set_next ns x v := fupd ns x (mkFreeNode v (fn_prev (ns x))).
Definition fn_set_prev ns x v := fupd ns x (mkFreeNode (fn_next (ns x)) v).
Definition push_ns ns (h pa : Z) : Z → FreeNode :=
  let ns2 := fn_set_prev (fn_set_next ns pa h) pa 0 in
  if truthy h then fn_set_prev ns2 h pa else ns2.
Definition unlink_ns ns (pa : Z) : Z → FreeNode :=
  let prev := fn_prev (ns pa) in
  let next := fn_next (ns pa) in
  let ns1 := if truthy prev then fn_set_next ns prev next else ns in
  if truthy next then fn_set_prev ns1 next prev else ns1.
Definition unlink_head ns (h pa : Z) : Z :=
  if truthy (fn_prev (ns pa)) then h else fn_next (ns pa).

Lemma PushNode_eq pa w :
  PushNode pa w = Ok (tt, set_pmm (set_freelist_head pa (pmm w))
                     (set_nodes (push_ns (nodes w) (freelist_head (pmm w)) pa) w)).
Proof.
  destruct w as [[] ns l g ss ex].
  unfold PushNode, push_ns, set_fn_next, set_fn_prev, upd_pmm, getp, gets, modify, when, bind. simpl.
  by destruct (truthy _).
Qed.

Lemma UnlinkNode_eq pa w :
  UnlinkNode pa w = Ok (tt, set_pmm (set_freelist_head (unlink_head (nodes w) (freelist_head (pmm w)) pa) (pmm w))
                       (set_nodes (unlink_ns (nodes w) pa) w)).
Proof.
  destruct w as [[] ns l g ss ex].
  unfold UnlinkNode, unlink_ns, unlink_head, Node, set_fn_next, set_fn_prev, upd_pmm, gets, modify, when, bind.
  simpl. by destruct (truthy (fn_prev _)); simpl; destruct (truthy (fn_next _)).
Qed.

Lemma truthy_true z : truthy z = true ↔ z ≠ 0.
Proof. unfold truthy. rewrite negb_true_iff, Z.eqb_neq. done. Qed.
Lemma truthy_false z : truthy z = false ↔ z = 0.
Proof. unfold truthy. rewrite negb_false_iff, Z.eqb_eq. done. Qed.

Lemma flist_head_nz ns h xs : flist ns h xs → (h = 0 ↔ xs = []).
Proof.
  intros (Hs & _ & H0). destruct xs as [|x xs]; simpl in Hs; [naive_solver|].
  destruct Hs as [-> _]. split; [|done]. intros ->. set_solver.
Qed.

Lemma flist_push ns h xs pa :
  flist ns h xs → pa ≠ 0 → pa ∉ xs → flist (push_ns ns h pa) pa (pa :: xs).
Proof.
  intros (Hs & Hnd & H0) Hpa Hin. split; [|split; [by constructor|set_solver]].
  unfold push_ns, fn_set_next, fn_set_prev. rewrite fupd_eq. simpl.
  destruct xs as [|x xs]; simpl in Hs; subst.
  - rewrite (proj2 (truthy_false 0)) by done. simpl. by rewrite !fupd_eq.
  - destruct Hs as (-> & Hp & Hr). assert (pa ≠ x) by set_solver. assert (x ≠ 0) by set_solver.
    rewrite (proj2 (truthy_true x)) by done. simpl.
    rewrite (fupd_ne _ x pa), !fupd_eq by done. simpl.
    rewrite !fupd_ne by done. split_and!; [done..|].
    apply NoDup_cons in Hnd as [Hx Hnd]. eapply seg_frame; [|exact Hr].
    intros y Hy. rewrite !fupd_ne; [done|set_solver..].
Qed.

(** Both neighbours of a node in the middle of a list. *)
Lemma flist_neighbours ns h xs1 x xs2 :
  flist ns h (xs1 ++ x :: xs2) →
  fn_prev (ns x) = default 0 (last xs1) ∧ fn_next (ns x) = default 0 (head xs2).
Proof.
  intros (Hs & _ & _). apply seg_app in Hs as (k & _ & Hs). simpl in Hs.
  destruct Hs as (_ & Hp & Hr). split; [done|]. destruct xs2; simpl in Hr; [done|by destruct Hr].
Qed.

Lemma flist_unlink ns h xs1 x xs2 :
  flist ns h (xs1 ++ x :: xs2) →
  flist (unlink_ns ns x) (unlink_head ns h x) (xs1 ++ xs2).
Proof.
  intros Hf. destruct (flist_neighbours _ _ _ _ _ Hf) as [Hpv Hnx].
  destruct Hf as (Hs & Hnd & H0).
  rewrite <- Permutation_middle in Hnd. apply NoDup_cons in Hnd as [Hx Hnd].
  split; [|split; [done|set_solver]].
  apply seg_app in Hs as (k & Hs1 & Hk & Hpx & Hs2). simpl in Hpx. subst k.
  unfold unlink_ns, unlink_head, fn_set_next, fn_set_prev. rewrite Hpv.
  set (nx := fn_next (ns x)) in *.
  assert (Hs2' : ∀ ns', (∀ y, y ∈ xs2 → y ≠ nx → ns' y = ns y) →
     (nx ≠ 0 → ns' nx = mkFreeNode (fn_next (ns nx)) (default 0 (last xs1))) →
     seg ns' (default 0 (last xs1)) nx xs2 0).
  { intros ns' Hsame Hh. destruct xs2 as [|b xs2]; simpl in *; [done|]. destruct Hs2 as (Hb & Hb1 & Hb2).
    rewrite Hnx in *. rewrite Hh by set_solver. simpl. split_and!; [done..|].
    eapply seg_frame; [|exact Hb2]. intros y Hy. apply Hsame; [set_solver|]. intros ->.
    apply NoDup_app in Hnd as (_ & _ & Hnd). by apply NoDup_cons in Hnd as [? _]. }
  destruct xs1 as [|a xs1 _] using rev_ind; simpl in *.
  - apply Hs2'.
    + intros y Hy Hne. destruct (truthy nx); [by rewrite fupd_ne|done].
    + intros Hn. rewrite (proj2 (truthy_true _) Hn). by rewrite fupd_eq.
  - rewrite last_snoc in *. simpl in *.
    assert (Ha0 : a ≠ 0) by set_solver. rewrite (proj2 (truthy_true a)) by done.
    apply seg_app in Hs1 as (k & Hs1 & Hk & Hpa & Hkx). simpl in Hk, Hkx. subst k.
    assert (Hax : a ∉ xs1 ∧ a ∉ xs2).
    { rewrite <- app_assoc in Hnd. simpl in Hnd. rewrite <- Permutation_middle in Hnd.
      apply NoDup_cons in Hnd as [Hnd _]. set_solver. }
    assert (Hanx : nx ≠ 0 → nx ∈ xs2) by (rewrite Hnx; destruct xs2; simpl; [done|set_solver]).
    set (ns' := if truthy nx then _ else _).
    assert (Hna : ns' a = mkFreeNode nx (fn_prev (ns a))).
    { unfold ns'. destruct (truthy nx) eqn:Et; [|by rewrite fupd_eq].
      apply truthy_true in Et. rewrite fupd_ne; [by rewrite fupd_eq|]. intros ->. by apply Hax, Hanx. }
    assert (Hoth : ∀ y, y ≠ a → (y ≠ nx ∨ nx = 0) → ns' y = ns y).
    { intros y Hya Hyn. unfold ns'. destruct (truthy nx) eqn:Et; [|by rewrite fupd_ne].
      apply truthy_true in Et. rewrite !fupd_ne; [done|naive_solver..]. }
    rewrite <- app_assoc. apply seg_app. exists a. split; [|simpl; split_and!; [done| |]].
    + eapply seg_frame; [|exact Hs1]. intros y Hy. apply Hoth; [set_solver|].
      destruct (decide (nx = 0)); [by right|left]. intros ->.
      rewrite <- app_assoc in Hnd. apply NoDup_app in Hnd as (_ & Hnd & _).
      apply (Hnd nx Hy). set_solver.
    + rewrite Hna. done.
    + rewrite Hna. simpl. apply Hs2'.
      * intros y Hy Hne. apply Hoth; [set_solver|by left].
      * intros Hn. unfold ns'. rewrite (proj2 (truthy_true _) Hn), fupd_eq, fupd_ne; [done|].
        intros ->. by apply Hax, Hanx.
Qed.

(** * Invariant *)

(** The fixed geometry: the managed frames [pfn_base, pfn_end) lie below 4 GiB and
    the bitmap covers them. *)
Definition geom p : Prop :=
  0 ≤ pfn_base p < pfn_end p ∧ pfn_end p < 2 ^ 20 ∧
  total_frames p = pfn_end p - pfn_base p ∧ bitmap_va p ≠ 0 ∧
  total_frames p ≤ bitmap_bytes p * 8 ∧ 0 ≤ bitmap_bytes p ≤ Z.of_nat (length (bitmap p)).

(** Frame [i] (counted from [pfn_base]) is allocated. *)
Definition alloc p (i : Z) : bool := bb_get (bitmap p) i.
Definition frees p : list Z := filter (λ i, alloc p i = false) (seqZ 0 (total_frames p)).
Definition faddr p (i : Z) : Z := PAGE_SIZE * (pfn_base p + i).

(** The counter agrees with the bitmap, and physical frame 0, whose address is the
    list terminator, is never free. *)
Definition bits_ok p : Prop :=
  geom p ∧ free_frames p = Z.of_nat (length (frees p)) ∧ (pfn_base p = 0 → alloc p 0 = true).

(** The free list holds exactly the free frames. *)
Definition fl_ok ns p : Prop :=
  ∃ xs, flist ns (freelist_head p) xs ∧ xs ≡ₚ faddr p <$> frees p.

Definition pmm_inv w : Prop :=
  bits_ok (pmm w) ∧ (freelist_ready (pmm w) = true → fl_ok (nodes w) (pmm w)).

(** ** Addresses and frame numbers *)
Lemma faddr_PfnToPa p i : geom p → 0 ≤ i ≤ total_frames p → PfnToPa (w32 (pfn_base p + i)) = faddr p i.
Proof.
  intros (? & ? & ? & _) Hi. unfold PfnToPa, faddr, PAGE_SIZE, PAGE_SHIFT.
  rewrite (w32_small (pfn_base p + i)) by lia. rewrite Z.shiftl_mul_pow2 by lia.
  rewrite w32_small by lia. lia.
Qed.
Lemma PaToPfn_page n : PaToPfn (PAGE_SIZE * n) = n.
Proof.
  unfold PaToPfn, PAGE_SIZE, PAGE_SHIFT. rewrite Z.shiftr_div_pow2 by lia.
  change (2 ^ 12) with 4096. by rewrite Z.mul_comm, Z.div_mul by lia.
Qed.
Lemma PaToPfn_div pa : PaToPfn pa = pa / PAGE_SIZE.
Proof. unfold PaToPfn, PAGE_SHIFT. by rewrite Z.shiftr_div_pow2 by lia. Qed.
Lemma faddr_index p i : geom p → 0 ≤ i < total_frames p → w32 (PaToPfn (faddr p i) - pfn_base p) = i.
Proof. intros (? & ? & ? & _) Hi. unfold faddr. rewrite PaToPfn_page, w32_small by lia. lia. Qed.
Lemma faddr_inj p i j : faddr p i = faddr p j → i = j.
Proof. unfold faddr, PAGE_SIZE. lia. Qed.
Lemma faddr_mod p i : faddr p i mod PAGE_SIZE = 0.
Proof. unfold faddr. rewrite Z.mul_comm. by apply Z.mod_mul. Qed.
Lemma pfn_index p pfn :
  geom p → pfn_base p ≤ pfn < pfn_end p → w32 (pfn - pfn_base p) = pfn - pfn_base p.
Proof. intros (? & ? & ? & _) ?. apply w32_small. lia. Qed.

Lemma elem_of_frees p i : i ∈ frees p ↔ 0 ≤ i < total_frames p ∧ alloc p i = false.
Proof. unfold frees. rewrite list_elem_of_filter, elem_of_seqZ. naive_solver lia. Qed.
Lemma NoDup_frees p : NoDup (frees p).
Proof. apply NoDup_filter, NoDup_seqZ. Qed.
Lemma frees_le p : geom p → Z.of_nat (length (frees p)) ≤ total_frames p.
Proof.
  intros (? & ? & ? & _). unfold frees.
  pose proof (length_filter (λ i, alloc p i = false) (seqZ 0 (total_frames p))) as Hl.
  rewrite length_seqZ in Hl. lia.
Qed.
Lemma byte_in_bitmap p i : geom p → 0 ≤ i < total_frames p → 0 ≤ i < 8 * Z.of_nat (length (bitmap p)).
Proof. intros (? & ? & ? & ? & ? & ?) ?. lia. Qed.
Lemma byte_idx_lt p i : geom p → 0 ≤ i < total_frames p → (i / 8 <? bitmap_bytes p) = true.
Proof. intros (? & ? & ? & ? & ? & ?) ?. apply Z.ltb_lt, Z.div_lt_upper_bound; lia. Qed.
Lemma free_nonzero p i : bits_ok p → i ∈ frees p → faddr p i ≠ 0.
Proof.
  intros ((Hb & _) & _ & H0) (Hi & Ha)%elem_of_frees. unfold faddr, PAGE_SIZE. intros Heq.
  assert (pfn_base p = 0 ∧ i = 0) as [Hb0 ->] by lia. rewrite H0 in Ha; done.
Qed.
Lemma faddr_elem p i : faddr p i ∈ faddr p <$> frees p ↔ i ∈ frees p.
Proof.
  rewrite list_elem_of_fmap. split; [|eauto]. intros (j & ->%faddr_inj & ?). done.
Qed.
Lemma recorded_faddr p i : geom p → 0 ≤ i < total_frames p → PmmIsRecorded p (faddr p i) = true.
Proof.
  intros (? & ? & ? & _) Hi. unfold PmmIsRecorded. rewrite faddr_mod.
  destruct (faddr p i =? 0); [done|]. simpl. unfold faddr. rewrite PaToPfn_page.
  apply andb_true_iff. split; [apply Z.leb_le; lia|apply Z.ltb_lt; lia].
Qed.
Lemma recorded_0 p : PmmIsRecorded p 0 = true.
Proof. done. Qed.

(** ** Changing one bit *)
Definition with_bit p (i : Z) (b : bool) : PmmState :=
  set_bitmap (if b then bb_set (bitmap p) i else bb_clr (bitmap p) i) p.

Lemma alloc_with_bit p i b j :
  geom p → 0 ≤ i < total_frames p → 0 ≤ j →
  alloc (with_bit p i b) j = if decide (i = j) then b else alloc p j.
Proof.
  intros Hg Hi Hj. pose proof (byte_in_bitmap p i Hg Hi). unfold alloc, with_bit.
  destruct b; simpl; rewrite ?bb_get_set, ?bb_get_clr by done;
    case_bool_decide; case_decide; done.
Qed.
Lemma frees_set p i :
  geom p → i ∈ frees p → frees p ≡ₚ i :: frees (with_bit p i true).
Proof.
  intros Hg Hi. pose proof (proj1 (elem_of_frees p i) Hi) as [Hr _].
  apply NoDup_Permutation; [apply NoDup_frees|constructor; [|apply NoDup_frees]|].
  - rewrite elem_of_frees, alloc_with_bit by (done || lia). rewrite decide_True by done. naive_solver.
  - intros j. rewrite elem_of_cons, !elem_of_frees. change (total_frames (with_bit _ _ _)) with (total_frames p).
    destruct (decide (i = j)) as [->|Hne]; [apply elem_of_frees in Hi; naive_solver|].
    split; [intros [Hj Ha]; right|intros [->|[Hj Ha]]; [done|]];
      (split; [done|]); rewrite alloc_with_bit in * by (done || lia); by rewrite decide_False in *.
Qed.
Lemma frees_clr p i :
  geom p → 0 ≤ i < total_frames p → alloc p i = true →
  frees (with_bit p i false) ≡ₚ i :: frees p.
Proof.
  intros Hg Hi Ha. apply NoDup_Permutation; [apply NoDup_frees|constructor; [|apply NoDup_frees]|].
  - rewrite elem_of_frees, Ha. by intros [_ ?].
  - intros j. rewrite elem_of_cons, !elem_of_frees. change (total_frames (with_bit _ _ _)) with (total_frames p).
    destruct (decide (i = j)) as [->|Hne].
    + rewrite alloc_with_bit by (done || lia). rewrite decide_True by done. naive_solver.
    + split; [intros [Hj Hf]; right|intros [->|[Hj Hf]]; [done|]];
        (split; [done|]); rewrite alloc_with_bit in * by (done || lia); by rewrite decide_False in *.
Qed.

(** * Rebuilding the free list *)

(** [w] with another free list. *)
Definition with_list (h : Z) ns w : pworld E :=
  set_pmm (set_freelist_head h (pmm w)) (set_nodes ns w).

Lemma with_list_twice h ns h' ns' w : with_list h ns (with_list h' ns' w) = with_list h ns w.
Proof. done. Qed.

Lemma frees_upto_S p i :
  0 ≤ i → filter (λ j, alloc p j = false) (seqZ 0 (i + 1)) =
          filter (λ j, alloc p j = false) (seqZ 0 i) ++ (if alloc p i then [] else [i]).
Proof.
  intros Hi. rewrite seqZ_app by lia. rewrite filter_app. f_equal. simpl.
  rewrite Z.add_0_l. change (seqZ i 1) with [i].
  destruct (alloc p i) eqn:Ea; [by rewrite filter_cons_False by (by rewrite Ea)|by rewrite filter_cons_True].
Qed.

Lemma wp_PushNode pa Q w :
  Q tt (with_list pa (push_ns (nodes w) (freelist_head (pmm w)) pa) w) → wp (PushNode pa) Q w.
Proof. intros HQ. eapply wp_of; [apply PushNode_eq|done]. Qed.
Lemma wp_UnlinkNode pa Q w :
  Q tt (with_list (unlink_head (nodes w) (freelist_head (pmm w)) pa) (unlink_ns (nodes w) pa) w) →
  wp (UnlinkNode pa) Q w.
Proof. intros HQ. eapply wp_of; [apply UnlinkNode_eq|done]. Qed.

(** From any free list at all, a rebuild yields the list of exactly the free frames. *)
Lemma wp_PmmRebuildFreelist w Q :
  bits_ok (pmm w) →
  (∀ h ns, let p' := set_freelist_ready true (set_freelist_head h (pmm w)) in
           fl_ok ns p' → Q tt (set_pmm p' (set_nodes ns w))) →
  wp PmmRebuildFreelist Q w.
Proof.
  intros Hok HQ. pose proof Hok as (Hg & _). pose proof Hg as (Hb1 & Hb2 & Ht & _).
  unfold PmmRebuildFreelist, upd_pmm, getp. wp_steps. simpl.
  apply (wp_for_each (λ i w', ∃ h ns xs, w' = with_list h ns w ∧ flist ns h xs ∧
     xs ≡ₚ faddr (pmm w) <$> filter (λ j, alloc (pmm w) j = false) (seqZ 0 i))).
  - exists 0, (nodes w), []. split_and!; [by destruct w| |done].
    split_and!; [done|constructor|set_solver].
  - intros i w' Hi (h & ns & xs & -> & Hfl & Hp). wp_steps. simpl.
    rewrite frees_upto_S by lia. apply wp_when; intros Hbit; b2p; fold (alloc (pmm w) i) in Hbit; rewrite Hbit.
    + apply wp_PushNode. simpl. rewrite with_list_twice.
      rewrite faddr_PfnToPa by (done || lia).
      eexists _, _, (faddr (pmm w) i :: xs). split; [done|].
      assert (Hfree : i ∈ frees (pmm w)) by (apply elem_of_frees; split; [lia|done]).
      split.
      * apply flist_push; [done|by apply free_nonzero|]. rewrite Hp, list_elem_of_fmap.
        intros (k & ->%faddr_inj & Hk). rewrite list_elem_of_filter, elem_of_seqZ in Hk. lia.
      * rewrite fmap_app, Hp. simpl. by rewrite Permutation_app_comm.
    + eexists _, _, xs. split_and!; [done..|]. by rewrite app_nil_r.
  - intros w' (h & ns & xs & -> & Hfl & Hp). wp_steps. apply HQ. simpl.
    exists xs. split; [done|]. rewrite Z.add_0_l, Z2Nat.id in Hp by lia. done.
Qed.

(** * The environment's contract *)

(** What no environment call may do: change the geometry or the free list's
    readiness, or allocate frames. *)
Definition same_geom p p' : Prop :=
  pfn_base p' = pfn_base p ∧ pfn_end p' = pfn_end p ∧ total_frames p' = total_frames p ∧
  freelist_ready p' = freelist_ready p.
End pmm.

(** The laws of [PmmEnv].  [env_frames] are the frames that hold the environment's
    own objects: an event that dies gives its slab page back to the PMM, so a call
    may free frames of this set and no others. *)
Class PmmEnvOk (E : Type) `{PmmEnv E} : Type := {
  env_inv : pworld E → Prop;
  env_frames : E → Z → Prop;
  env_frames_alloc w i : env_inv w → env_frames (ext w) i → alloc (pmm w) i = true;
  env_inv_mono w w' :
    env_inv w → ext w' = ext w → layout w' = layout w → subs w' ⊆ subs w → same_geom (pmm w) (pmm w') →
    (∀ i, 0 ≤ i → env_frames (ext w) i → alloc (pmm w) i = true → alloc (pmm w') i = true) → env_inv w';
  env_step : relation (pworld E);
  env_step_refl w : env_step w w;
  env_step_trans w1 w2 w3 : env_step w1 w2 → env_step w2 w3 → env_step w1 w3;
  env_step_subs w l : l ⊆ subs w → env_step w (set_subs l w);
  env_step_pressure w b : env_step w (set_pmm (set_in_pressure b (pmm w)) w);
  env_step_stable w w' : env_step w w' →
    same_geom (pmm w) (pmm w') ∧ layout w' = layout w ∧
    (∀ i, alloc (pmm w') i = true → alloc (pmm w) i = true) ∧
    (∀ i, env_frames (ext w') i → env_frames (ext w) i) ∧
    (∀ i, alloc (pmm w) i = true → ¬ env_frames (ext w) i → alloc (pmm w') i = true);
  EventSignal_ok ev bits b w :
    pmm_inv w → env_inv w → ev_alive (ext w) ev = true →
    wp (EventSignal ev bits b) (λ _ w', pmm_inv w' ∧ env_inv w' ∧ env_step w w') w;
  EventUnref_ok ev w :
    pmm_inv w → env_inv w →
    wp (EventUnref ev) (λ _ w', pmm_inv w' ∧ env_inv w' ∧ env_step w w') w;
  KFree_ok a w :
    pmm_inv w → env_inv w →
    wp (KFree a) (λ _ w', pmm_inv w' ∧ env_inv w' ∧ env_step w w') w
}.

(** Projections of updated PMM states, and nothing else. *)
Ltac psimpl :=
  cbn [pmm nodes layout g_sp subs ext set_pmm set_nodes set_g_sp set_subs set_ext with_list pfn_base pfn_end total_frames free_frames bitmap bitmap_va bitmap_bytes freelist_head freelist_ready in_pressure set_free_frames set_bitmap set_freelist_head set_freelist_ready set_in_pressure with_bit id].

Section pmm_ok.
Context {E : Type} `{PmmEnvOk E}.
Implicit Types (p : PmmState) (w : pworld E).

Lemma pmm_inv_pressure w b : pmm_inv w → pmm_inv (set_pmm (set_in_pressure b (pmm w)) w).
Proof. done. Qed.
Lemma env_inv_pressure w b : env_inv w → env_inv (set_pmm (set_in_pressure b (pmm w)) w).
Proof. intros He. by eapply env_inv_mono. Qed.

(** What a call that may notify the environment guarantees about the world. *)
Definition settled w w' : Prop := pmm_inv w' ∧ env_inv w' ∧ env_step w w'.

Lemma settled_trans w1 w2 w3 : env_step w1 w2 → settled w2 w3 → settled w1 w3.
Proof. intros Hs (? & ? & ?). split_and!; [done..|]. by eapply env_step_trans. Qed.

Lemma wp_signal_walk l w :
  pmm_inv w → env_inv w → wp (signal_walk l) (λ _, settled w) w.
Proof.
  revert w. induction l as [|sub l IH]; intros w Hi He; simpl.
  { apply wp_ret. split_and!; [done..|apply env_step_refl]. }
  wp_steps. destruct (ev_alive (ext w) (sub_ev sub)) eqn:Ea; simpl.
  - eapply wp_mono; [by apply EventSignal_ok|]. intros [] w1 (Hi1 & He1 & Hs1).
    eapply wp_mono; [by apply IH|]. intros [] w2. by apply settled_trans.
  - wp_steps. set (w0 := set_subs _ w).
    assert (Hsub : subs w0 ⊆ subs w) by (intros s [_ Hs]%list_elem_of_filter; done).
    assert (He0 : env_inv w0) by (by eapply env_inv_mono).
    eapply wp_mono; [by apply EventUnref_ok|]. intros [] w1 (Hi1 & He1 & Hs1).
    eapply wp_mono; [by apply KFree_ok|]. intros [] w2 (Hi2 & He2 & Hs2).
    eapply wp_mono; [by apply IH|]. intros [] w3 Hw3. eapply settled_trans; [|exact Hw3].
    eapply env_step_trans; [by apply (env_step_subs w)|].
    by eapply env_step_trans.
Qed.

Lemma wp_PmmSignalSubscribers w :
  pmm_inv w → env_inv w → wp PmmSignalSubscribers (λ _, settled w) w.
Proof.
  intros Hi He. unfold PmmSignalSubscribers, getp, upd_pmm. wp_steps.
  apply wp_if; intros _.
  - wp_steps. eapply wp_mono; [apply wp_signal_walk; [done|by apply env_inv_pressure]|].
    intros [] w' Hw'. eapply settled_trans; [|exact Hw']. apply env_step_pressure.
  - apply wp_when; intros _; [wp_steps|].
    + split_and!; [done|by apply env_inv_pressure|apply env_step_pressure].
    + split_and!; [done..|apply env_step_refl].
Qed.

(** * Taking one frame *)

(** [w1] is [w] with the free frame [i] taken: only the bitmap, the counter and the
    free list changed. *)
Definition took w (i : Z) (w1 : pworld E) : Prop :=
  ∃ h ns, w1 = set_pmm (set_freelist_head h (set_free_frames (free_frames (pmm w) - 1) (with_bit (pmm w) i true)))
                       (set_nodes ns w).

Lemma took_alloc w i w1 j :
  bits_ok (pmm w) → i ∈ frees (pmm w) → took w i w1 → 0 ≤ j →
  alloc (pmm w1) j = bool_decide (i = j) || alloc (pmm w) j.
Proof.
  intros (Hg & _) [Hi _]%elem_of_frees (h & ns & ->) Hj.
  change (alloc (with_bit (pmm w) i true) j = bool_decide (i = j) || alloc (pmm w) j).
  rewrite alloc_with_bit by done. case_decide; case_bool_decide; done.
Qed.

Lemma bits_ok_take p i h :
  bits_ok p → i ∈ frees p →
  bits_ok (set_freelist_head h (set_free_frames (free_frames p - 1) (with_bit p i true))).
Proof.
  intros (Hg & Hf & Hz) Hi. pose proof (proj1 (elem_of_frees p i) Hi) as [Hr Ha].
  pose proof (frees_set p i Hg Hi) as Hp. apply Permutation_length in Hp. simpl in Hp.
  split_and!.
  - destruct Hg as (? & ? & ? & ? & ? & ?). unfold geom. simpl. rewrite length_bb_set. done.
  - simpl. change (frees _) with (frees (with_bit p i true)) at 1. lia.
  - simpl. intros Hb. specialize (Hz Hb).
    change (alloc (with_bit p i true) 0 = true). rewrite alloc_with_bit by (done || lia).
    by case_decide.
Qed.

Lemma PopNode_eq w :
  freelist_head (pmm w) ≠ 0 → fn_prev (nodes w (freelist_head (pmm w))) = 0 →
  PopNode w = Ok (freelist_head (pmm w),
    with_list (unlink_head (nodes w) (freelist_head (pmm w)) (freelist_head (pmm w)))
              (unlink_ns (nodes w) (freelist_head (pmm w))) w).
Proof.
  intros Hh Hp. unfold PopNode, with_list, unlink_head, unlink_ns, Node, getp, upd_pmm, set_fn_prev, gets, modify, when, bind.
  rewrite (proj2 (Z.eqb_neq _ _) Hh), Hp. simpl. by destruct (truthy (fn_next _)); destruct w as [[] ? ? ? ? ?].
Qed.

(** With the invariant the validation never rebuilds and succeeds exactly when the
    list is not empty. *)
Lemma validate_freelist_eq w :
  pmm_inv w → freelist_ready (pmm w) = true →
  validate_freelist w = Ok (negb (freelist_head (pmm w) =? 0), w).
Proof.
  intros [Hok Hfl] Hr. destruct (Hfl Hr) as (xs & Hf & Hp). clear Hfl.
  pose proof Hok as (Hg & _).
  assert (Hrec : ∀ x, x ∈ xs → PmmIsRecorded (pmm w) x = true).
  { intros x Hx. rewrite Hp, list_elem_of_fmap in Hx. destruct Hx as (i & -> & Hi%elem_of_frees).
    apply recorded_faddr; tauto. }
  unfold validate_freelist, getp, gets, bind, ret. simpl.
  destruct (freelist_head (pmm w) =? 0) eqn:Eh; [done|]. b2p.
  destruct xs as [|x xs]; [by destruct Eh; apply (flist_head_nz _ _ _ Hf)|].
  pose proof Hf as ((Hh & _) & _). rewrite Hh.
  rewrite (Hrec x) by set_solver. simpl.
  destruct (flist_neighbours _ _ [] x xs Hf) as [_ Hn]. rewrite Hh, Hn.
  assert (Hd : PmmIsRecorded (pmm w) (default 0 (head xs)) = true).
  { destruct xs as [|y xs]; [done|]. apply Hrec. set_solver. }
  by rewrite Hd.
Qed.

Lemma free_frames_frees w :
  pmm_inv w → freelist_ready (pmm w) = true →
  (freelist_head (pmm w) = 0 ↔ free_frames (pmm w) = 0).
Proof.
  intros [(Hg & Hf & _) Hfl] Hr. destruct (Hfl Hr) as (xs & Hl & Hp).
  rewrite (flist_head_nz _ _ _ Hl), Hf. apply Permutation_length in Hp. rewrite length_fmap in Hp.
  rewrite <- Hp. destruct xs; simpl; naive_solver lia.
Qed.

Lemma wp_PmmTakeFreeFrame w :
  pmm_inv w → env_inv w → freelist_ready (pmm w) = true →
  wp PmmTakeFreeFrame (λ pa w',
    (pa = 0 ∧ w' = w ∧ free_frames (pmm w) = 0) ∨
    (∃ i w1, i ∈ frees (pmm w) ∧ pa = faddr (pmm w) i ∧ pa ≠ 0 ∧ took w i w1 ∧ settled w1 w')) w.
Proof.
  intros Hi He Hr. pose proof Hi as [Hok Hfl]. destruct (Hfl Hr) as (xs & Hf & Hp).
  pose proof Hok as (Hg & Hfree & Hz). pose proof Hg as (Hb1 & Hb2 & Ht & _).
  unfold PmmTakeFreeFrame. wp_step.
  eapply wp_of; [by apply validate_freelist_eq|]. rewrite negb_involutive.
  apply wp_if; intros Hh; b2p.
  { wp_steps. left. split_and!; [done..|]. by apply free_frames_frees. }
  destruct xs as [|x xs]; [by destruct Hh; apply (flist_head_nz _ _ _ Hf)|].
  pose proof Hf as ((Hhx & Hpx & _) & Hnd & Hnz).
  assert (Hx : x ∈ faddr (pmm w) <$> frees (pmm w)) by (rewrite <- Hp; set_solver).
  apply list_elem_of_fmap in Hx as (i & -> & Hi').
  pose proof (proj1 (elem_of_frees _ _) Hi') as [Hir Hia].
  wp_step. eapply wp_of; [apply PopNode_eq; [done|by rewrite Hhx]|].
  unfold getp, upd_pmm. wp_steps. psimpl. rewrite Hhx.
  rewrite faddr_index by done.
  apply wp_assert; [by apply byte_idx_lt|]. wp_steps. psimpl.
  apply wp_assert; [by apply negb_true_iff|]. wp_steps. psimpl.
  pose proof (frees_le _ Hg) as Hle.
  assert (Hpos : 0 < free_frames (pmm w)).
  { rewrite Hfree. destruct (frees (pmm w)); [set_solver|simpl; lia]. }
  rewrite w32_small by lia.
  apply wp_assert; [apply Z.leb_le; lia|]. wp_step.
  match goal with |- wp _ _ ?s => set (w1 := s) end.
  assert (Htk : took w i w1) by (eexists _, _; done).
  assert (Hi1 : pmm_inv w1).
  { split; [by apply bits_ok_take|]. intros _.
    exists xs. split; [rewrite Hhx in Hf; exact (flist_unlink _ _ [] _ xs Hf)|].
    pose proof (frees_set _ _ Hg Hi') as Hpf. rewrite Hpf in Hp. simpl in Hp.
    apply Permutation_cons_inv in Hp. exact Hp. }
  assert (He1 : env_inv w1).
  { eapply (env_inv_mono w); [done..|]. intros j Hj _ Ha.
    rewrite (took_alloc w i) by done. by rewrite Ha, orb_true_r. }
  eapply wp_mono; [by apply wp_PmmSignalSubscribers|]. intros [] w' Hs. wp_steps.
  right. exists i, w1. split_and!; [done..| |done|done]. by apply free_nonzero.
Qed.

(** * Marking and freeing *)

(** [w'] differs from [w] in the bitmap, the counter and the free list only. *)
Definition reshaped w w' : Prop :=
  ∃ bm f h ns, w' = set_pmm (set_freelist_head h (set_free_frames f (set_bitmap bm (pmm w)))) (set_nodes ns w).

Lemma reshaped_refl w : reshaped w w.
Proof. exists (bitmap (pmm w)), (free_frames (pmm w)), (freelist_head (pmm w)), (nodes w). by destruct w as [[] ? ? ? ? ?]. Qed.
Lemma reshaped_trans w1 w2 w3 : reshaped w1 w2 → reshaped w2 w3 → reshaped w1 w3.
Proof. intros (bm & f & h & ns & ->) (bm' & f' & h' & ns' & ->). by exists bm', f', h', ns'. Qed.
Lemma took_reshaped w i w1 : took w i w1 → reshaped w w1.
Proof. intros (h & ns & ->). by eexists _, _, h, ns. Qed.

Lemma env_inv_reshaped w w' :
  env_inv w → reshaped w w' →
  (∀ i, 0 ≤ i → env_frames (ext w) i → alloc (pmm w) i = true → alloc (pmm w') i = true) → env_inv w'.
Proof. intros He (bm & f & h & ns & ->) Hf. by apply (env_inv_mono w). Qed.

Lemma bits_ok_give p i h :
  bits_ok p → 0 ≤ i < total_frames p → alloc p i = true → faddr p i ≠ 0 →
  bits_ok (set_freelist_head h (set_free_frames (free_frames p + 1) (with_bit p i false))).
Proof.
  intros (Hg & Hf & Hz) Hi Ha Hnz.
  pose proof (frees_clr p i Hg Hi Ha) as Hp. apply Permutation_length in Hp. simpl in Hp.
  split_and!.
  - destruct Hg as (? & ? & ? & ? & ? & ?). unfold geom. simpl. rewrite length_bb_clr. done.
  - simpl. change (frees _) with (frees (with_bit p i false)) at 1. lia.
  - simpl. intros Hb. specialize (Hz Hb).
    change (alloc (with_bit p i false) 0 = true). rewrite alloc_with_bit by (done || lia).
    case_decide; [|done]. subst. unfold faddr in Hnz. lia.
Qed.

Lemma free_lt_total p i :
  bits_ok p → 0 ≤ i < total_frames p → alloc p i = true → free_frames p < total_frames p.
Proof.
  intros (Hg & Hf & _) Hi Ha. pose proof Hg as (Hb1 & Hb2 & Ht & _).
  pose proof (frees_clr p i Hg Hi Ha) as Hp. apply Permutation_length in Hp. simpl in Hp.
  assert (Hg' : geom (with_bit p i false)).
  { destruct Hg as (? & ? & ? & ? & ? & ?). unfold geom. simpl. by rewrite length_bb_clr. }
  pose proof (frees_le _ Hg') as Hle. simpl in Hle. lia.
Qed.

(** Pushing a frame whose bit was cleared restores the invariant. *)
Lemma pmm_inv_give w i :
  pmm_inv w → 0 ≤ i < total_frames (pmm w) → alloc (pmm w) i = true → faddr (pmm w) i ≠ 0 →
  pmm_inv (set_pmm (set_freelist_head (faddr (pmm w) i) (set_free_frames (free_frames (pmm w) + 1) (with_bit (pmm w) i false)))
          (set_nodes (push_ns (nodes w) (freelist_head (pmm w)) (faddr (pmm w) i)) w)).
Proof.
  intros [Hok Hfl] Hi Ha Hnz. split; [by apply bits_ok_give|]. intros Hr.
  destruct (Hfl Hr) as (xs & Hf & Hp). pose proof Hok as (Hg & _).
  exists (faddr (pmm w) i :: xs). split.
  - apply flist_push; [done..|]. rewrite Hp, list_elem_of_fmap.
    intros (k & ->%faddr_inj & Hk%elem_of_frees). naive_solver congruence.
  - rewrite Hp. change (frees _) with (frees (with_bit (pmm w) i false)) at 2.
    by rewrite frees_clr.
Qed.

Lemma alloc_reshape p bm f h j :
  alloc (set_freelist_head h (set_free_frames f (set_bitmap bm p))) j = bb_get bm j.
Proof. done. Qed.

(** [wf'] results from [w] by giving back frame [i]. *)
Definition given w i w' : Prop :=
  pmm_inv w' ∧ reshaped w (set_g_sp (g_sp w) w') ∧
  ∀ j, 0 ≤ j → alloc (pmm w') j = negb (bool_decide (i = j)) && alloc (pmm w) j.

Lemma alloc_give p i j : geom p → 0 ≤ i < total_frames p → 0 ≤ j →
  alloc (with_bit p i false) j = negb (bool_decide (i = j)) && alloc p j.
Proof. intros. rewrite alloc_with_bit by done. case_decide; case_bool_decide; done. Qed.

Lemma SyspageUpdateMem_eq w :
  ∃ g, SyspageUpdateMem w = Ok (tt, set_g_sp g w).
Proof.
  unfold SyspageUpdateMem, modify. destruct (g_sp w) eqn:Eg; [by eexists|].
  exists None. destruct w; simpl in *; by subst.
Qed.

Lemma wp_PmmFreeFrame w i :
  pmm_inv w → 0 ≤ i < total_frames (pmm w) → alloc (pmm w) i = true → faddr (pmm w) i ≠ 0 →
  wp (PmmFreeFrame (faddr (pmm w) i)) (λ _, given w i) w.
Proof.
  intros Hi Hr Ha Hnz. pose proof Hi as [Hok _]. pose proof Hok as (Hg & Hf & Hz).
  pose proof Hg as (Hb1 & Hb2 & Ht & Hva & _). pose proof (free_lt_total _ _ Hok Hr Ha).
  pose proof (frees_le _ Hg).
  unfold PmmFreeFrame, getp, upd_pmm. wp_steps.
  apply wp_assert; [by rewrite faddr_mod|]. wp_steps. psimpl.
  assert (Hpfn : PaToPfn (faddr (pmm w) i) = pfn_base (pmm w) + i) by (unfold faddr; by rewrite PaToPfn_page).
  apply wp_assert; [rewrite Hpfn; apply andb_true_iff; split; [apply Z.leb_le|apply Z.ltb_lt]; lia|].
  rewrite faddr_index by done. wp_steps.
  apply wp_assert; [by apply byte_idx_lt|]. wp_steps.
  apply wp_assert; [by apply truthy_true|]. wp_steps.
  apply wp_assert; [apply Z.leb_le; lia|]. wp_steps.
  unfold alloc in Ha. rewrite Ha. wp_steps. psimpl. rewrite w32_small by lia.
  apply wp_assert; [apply Z.leb_le; lia|]. wp_steps.
  apply wp_PushNode. psimpl.
  match goal with |- wp _ _ ?s => destruct (SyspageUpdateMem_eq s) as [g Hs] end.
  eapply wp_of; [exact Hs|]. split_and!.
  - exact (pmm_inv_give w i Hi Hr Ha Hnz).
  - eexists _, _, _, _. done.
  - intros j Hj. by apply (alloc_give (pmm w)).
Qed.

(** Freeing a frame that is not allocated panics. *)
Lemma PmmFreeFrame_double w i :
  pmm_inv w → 0 ≤ i < total_frames (pmm w) → alloc (pmm w) i = false →
  PmmFreeFrame (faddr (pmm w) i) w = Panic.
Proof.
  intros [(Hg & Hf & _) _] Hr Ha. pose proof Hg as (Hb1 & Hb2 & Ht & Hva & _).
  pose proof (frees_le _ Hg).
  assert (Hpfn : PaToPfn (faddr (pmm w) i) = pfn_base (pmm w) + i) by (unfold faddr; by rewrite PaToPfn_page).
  unfold PmmFreeFrame, getp. rewrite run_assert by (by rewrite faddr_mod). rewrite run_gets. psimpl.
  rewrite faddr_index, Hpfn by done. unfold alloc in Ha. rewrite Ha.
  rewrite !run_assert; [done|..].
  - apply Z.leb_le; lia.
  - by apply truthy_true.
  - by apply byte_idx_lt.
  - apply andb_true_iff; split; [apply Z.leb_le|apply Z.ltb_lt]; lia.
Qed.

(** Unlinking a frame whose bit was set restores the invariant. *)
Lemma pmm_inv_unlink w i :
  pmm_inv w → freelist_ready (pmm w) = true → i ∈ frees (pmm w) →
  pmm_inv (set_pmm (set_freelist_head (unlink_head (nodes w) (freelist_head (pmm w)) (faddr (pmm w) i))
                     (set_free_frames (free_frames (pmm w) - 1) (with_bit (pmm w) i true)))
          (set_nodes (unlink_ns (nodes w) (faddr (pmm w) i)) w)).
Proof.
  intros [Hok Hfl] Hr Hi. split; [by apply bits_ok_take|]. intros _.
  destruct (Hfl Hr) as (xs & Hf & Hp). pose proof Hok as (Hg & _).
  assert (Hx : faddr (pmm w) i ∈ xs) by (rewrite Hp; by apply list_elem_of_fmap_2).
  apply list_elem_of_split in Hx as (xs1 & xs2 & ->).
  exists (xs1 ++ xs2). split; [by apply flist_unlink|].
  rewrite (frees_set _ _ Hg Hi) in Hp. simpl in Hp.
  rewrite <- Permutation_middle in Hp. by apply Permutation_cons_inv in Hp.
Qed.

(** The link words of a free frame designate frames of the allocator. *)
Lemma free_node_recorded w i :
  pmm_inv w → freelist_ready (pmm w) = true → i ∈ frees (pmm w) →
  PmmIsRecorded (pmm w) (fn_prev (nodes w (faddr (pmm w) i))) &&
  PmmIsRecorded (pmm w) (fn_next (nodes w (faddr (pmm w) i))) = true.
Proof.
  intros [Hok Hfl] Hr Hi. destruct (Hfl Hr) as (xs & Hf & Hp). pose proof Hok as (Hg & _).
  assert (Hx : faddr (pmm w) i ∈ xs) by (rewrite Hp; by apply list_elem_of_fmap_2).
  assert (Hrec : ∀ o, (∀ x, o = Some x → x ∈ xs) → PmmIsRecorded (pmm w) (default 0 o) = true).
  { intros [x|] Ho; [|done]. specialize (Ho x eq_refl). rewrite Hp, list_elem_of_fmap in Ho.
    destruct Ho as (j & -> & Hj%elem_of_frees). apply recorded_faddr; tauto. }
  apply list_elem_of_split in Hx as (xs1 & xs2 & ->).
  destruct (flist_neighbours _ _ xs1 _ xs2 Hf) as [-> ->].
  apply andb_true_iff. split; apply Hrec; intros x Hx.
  - apply elem_of_app. left. by apply last_Some_elem_of.
  - apply elem_of_app. right. right. by apply head_Some_elem_of.
Qed.

(** [w'] is [w] with the frames of [s, e) marked, [b] telling their new state. *)
Definition marked (b : bool) w (s e : Z) w' : Prop :=
  pmm_inv w' ∧ reshaped w w' ∧
  ∀ j, 0 ≤ j → alloc (pmm w') j = if bool_decide (s ≤ j < e) then b else alloc (pmm w) j.

Lemma marked_nil b w s : pmm_inv w → marked b w s s w.
Proof. intros Hi. split_and!; [done|apply reshaped_refl|]. intros j _. case_bool_decide; [lia|done]. Qed.
Lemma marked_snoc b w s e w1 w2 :
  s ≤ e → marked b w s e w1 → marked b w1 e (e + 1) w2 → marked b w s (e + 1) w2.
Proof.
  intros Hse (Hi1 & Hr1 & Ha1) (Hi2 & Hr2 & Ha2). split_and!; [done|by eapply reshaped_trans|].
  intros j Hj. rewrite Ha2, Ha1 by done. repeat case_bool_decide; try done; lia.
Qed.

Lemma reshaped_pfn w w' : reshaped w w' →
  pfn_base (pmm w') = pfn_base (pmm w) ∧ pfn_end (pmm w') = pfn_end (pmm w) ∧
  total_frames (pmm w') = total_frames (pmm w) ∧ freelist_ready (pmm w') = freelist_ready (pmm w) ∧
  bitmap_va (pmm w') = bitmap_va (pmm w) ∧ bitmap_bytes (pmm w') = bitmap_bytes (pmm w) ∧
  in_pressure (pmm w') = in_pressure (pmm w).
Proof. by intros (? & ? & ? & ? & ->). Qed.

Lemma pmm_inv_mark_unready w i :
  pmm_inv w → freelist_ready (pmm w) = false → i ∈ frees (pmm w) →
  pmm_inv (set_pmm (set_free_frames (free_frames (pmm w) - 1) (with_bit (pmm w) i true)) w).
Proof.
  intros [Hok _] Hr Hi. split; [|intros Hr'; simpl in Hr'; congruence].
  exact (bits_ok_take _ i (freelist_head (pmm w)) Hok Hi).
Qed.

Lemma alloc_take p i j : geom p → 0 ≤ i < total_frames p → 0 ≤ j →
  alloc (with_bit p i true) j = if bool_decide (i ≤ j < i + 1) then true else alloc p j.
Proof. intros. rewrite alloc_with_bit by done. case_decide; case_bool_decide; (done || lia). Qed.

Lemma wp_mark_frame w i nr :
  pmm_inv w → 0 ≤ i < total_frames (pmm w) →
  wp (mark_frame (pfn_base (pmm w) + i) nr) (λ nr' w', nr' = nr ∧ marked true w i (i + 1) w') w.
Proof.
  intros Hi Hr. pose proof Hi as [Hok _]. pose proof Hok as (Hg & Hf & Hz).
  pose proof Hg as (Hb1 & Hb2 & Ht & Hva & _).
  assert (Hpa : PfnToPa (pfn_base (pmm w) + i) = faddr (pmm w) i).
  { rewrite <- faddr_PfnToPa by (done || lia). by rewrite w32_small by lia. }
  unfold mark_frame, getp, upd_pmm. wp_steps. psimpl.
  rewrite (pfn_index (pmm w)) by (done || lia). replace (pfn_base (pmm w) + i - pfn_base (pmm w)) with i by lia.
  apply wp_assert; [by apply byte_idx_lt|]. apply wp_if; intros Hb; b2p.
  2: { wp_steps. split; [done|]. split_and!; [done|apply reshaped_refl|]. intros j Hj.
       case_bool_decide; [|done]. assert (j = i) as -> by lia. done. }
  assert (Hif : i ∈ frees (pmm w)) by (by apply elem_of_frees).
  pose proof (frees_le _ Hg) as Hle.
  assert (Hpos : 0 < free_frames (pmm w)) by (rewrite Hf; destruct (frees (pmm w)); [set_solver|simpl; lia]).
  rewrite Hpa. wp_steps. psimpl. apply wp_when; [intros _|intros ?%Z.ltb_ge; lia].
  wp_steps. psimpl. apply wp_assert; [apply Z.leb_le; lia|].
  apply wp_if; intros Hrd.
  - unfold Node. wp_steps. psimpl.
    pose proof (free_node_recorded w i Hi Hrd Hif) as Hrec. unfold PmmIsRecorded in *. psimpl. rewrite Hrec.
    wp_steps. apply wp_UnlinkNode. psimpl. wp_steps. split; [done|]. split_and!.
    + exact (pmm_inv_unlink w i Hi Hrd Hif).
    + by eexists _, _, _, _.
    + intros j Hj. by apply (alloc_take (pmm w)).
  - wp_steps. split; [done|]. split_and!.
    + exact (pmm_inv_mark_unready w i Hi Hrd Hif).
    + exists (bb_set (bitmap (pmm w)) i), (free_frames (pmm w) - 1), (freelist_head (pmm w)), (nodes w). by destruct w as [[] ? ? ? ? ?].
    + intros j Hj. by apply (alloc_take (pmm w)).
Qed.

Lemma wp_mark_frames w n i nr :
  pmm_inv w → 0 ≤ i → i + Z.of_nat n ≤ total_frames (pmm w) →
  wp (mark_frames n (pfn_base (pmm w) + i) nr) (λ nr' w', nr' = nr ∧ marked true w i (i + Z.of_nat n) w') w.
Proof.
  revert w i. induction n as [|n IH]; intros w i Hi Hl Hu; simpl.
  { wp_steps. split; [done|]. rewrite Z.add_0_r. by apply marked_nil. }
  wp_step. eapply wp_mono; [apply wp_mark_frame; [done|lia]|]. intros nr' w1 [-> Hm1].
  pose proof Hm1 as (Hi1 & Hr1 & Ha1). destruct (reshaped_pfn _ _ Hr1) as (Hb & _ & Ht & _).
  replace (pfn_base (pmm w) + i + 1) with (pfn_base (pmm w1) + (i + 1)) by lia.
  eapply wp_mono; [apply IH; [done|lia..]|]. intros nr' w2 [-> (Hi2 & Hr2 & Ha2)]. split; [done|].
  split_and!; [done|by eapply reshaped_trans|].
  intros j Hj. rewrite Ha2, Ha1 by done. repeat case_bool_decide; try done; lia.
Qed.

Lemma pmm_inv_unmark_unready w i :
  pmm_inv w → freelist_ready (pmm w) = false → 0 ≤ i < total_frames (pmm w) → alloc (pmm w) i = true →
  faddr (pmm w) i ≠ 0 →
  pmm_inv (set_pmm (set_free_frames (free_frames (pmm w) + 1) (with_bit (pmm w) i false)) w).
Proof.
  intros [Hok _] Hr Hi Ha Hnz. split; [|intros Hr'; simpl in Hr'; congruence].
  exact (bits_ok_give _ i (freelist_head (pmm w)) Hok Hi Ha Hnz).
Qed.

Lemma alloc_untake p i j : geom p → 0 ≤ i < total_frames p → 0 ≤ j →
  alloc (with_bit p i false) j = if bool_decide (i ≤ j < i + 1) then false else alloc p j.
Proof. intros. rewrite alloc_with_bit by done. case_decide; case_bool_decide; (done || lia). Qed.

Lemma wp_unmark_frame w i :
  pmm_inv w → 0 ≤ i < total_frames (pmm w) → 0 < pfn_base (pmm w) + i →
  wp (unmark_frame (pfn_base (pmm w) + i)) (λ _, marked false w i (i + 1)) w.
Proof.
  intros Hi Hr Hnz. pose proof Hi as [Hok _]. pose proof Hok as (Hg & Hf & Hz).
  pose proof Hg as (Hb1 & Hb2 & Ht & Hva & _).
  assert (Hfa : faddr (pmm w) i ≠ 0) by (unfold faddr, PAGE_SIZE; lia).
  assert (Hpa : PfnToPa (pfn_base (pmm w) + i) = faddr (pmm w) i).
  { rewrite <- faddr_PfnToPa by (done || lia). by rewrite w32_small by lia. }
  unfold unmark_frame, getp, upd_pmm. wp_steps. psimpl.
  rewrite (pfn_index (pmm w)) by (done || lia). replace (pfn_base (pmm w) + i - pfn_base (pmm w)) with i by lia.
  apply wp_assert; [by apply byte_idx_lt|]. apply wp_when; intros Hb; b2p.
  2: { split_and!; [done|apply reshaped_refl|]. intros j Hj.
       case_bool_decide; [|done]. assert (j = i) as -> by lia. done. }
  pose proof (free_lt_total _ _ Hok Hr Hb) as Hlt.
  rewrite Hpa. wp_steps. psimpl. apply wp_when; [intros _|intros ?%Z.ltb_ge; lia].
  wp_steps. psimpl. apply wp_assert; [apply Z.leb_le; lia|].
  apply wp_when; intros Hrd.
  - apply wp_PushNode. psimpl. split_and!.
    + exact (pmm_inv_give w i Hi Hr Hb Hfa).
    + by eexists _, _, _, _.
    + intros j Hj. by apply (alloc_untake (pmm w)).
  - split_and!.
    + exact (pmm_inv_unmark_unready w i Hi Hrd Hr Hb Hfa).
    + exists (bb_clr (bitmap (pmm w)) i), (free_frames (pmm w) + 1), (freelist_head (pmm w)), (nodes w).
      by destruct w as [[] ? ? ? ? ?].
    + intros j Hj. by apply (alloc_untake (pmm w)).
Qed.

(** ** Ranges *)

(** The frame indices a byte range covers, and when the range lies in the PMM. *)
Definition range_first p (start : Z) : Z := start / PAGE_SIZE - pfn_base p.
Definition range_last p (end_ : Z) : Z := (end_ + (PAGE_SIZE - 1)) / PAGE_SIZE - pfn_base p.
Definition range_ok p (start end_ : Z) : bool :=
  (start <? end_) && (0 <=? range_first p start) && (range_last p end_ <=? total_frames p).

Lemma range_pfns start end_ :
  0 ≤ start < end_ → end_ ≤ 2 ^ 32 - PAGE_SIZE →
  PaToPfn (align_down start PAGE_SIZE) = start / PAGE_SIZE ∧
  PaToPfn (align_up end_ PAGE_SIZE) = (end_ + (PAGE_SIZE - 1)) / PAGE_SIZE.
Proof.
  intros Hs He. change PAGE_SIZE with (2 ^ 12) in *. rewrite !PaToPfn_div.
  rewrite align_down_spec, align_up_spec by lia. change PAGE_SIZE with (2 ^ 12). split.
  - rewrite Z.mul_comm, Z.div_mul; lia.
  - rewrite Z.mul_comm, Z.div_mul by lia. f_equal. lia.
Qed.

Lemma wp_assert_geometry Q w : bits_ok (pmm w) → Q tt w → wp (assert_geometry (pmm w)) Q w.
Proof.
  intros (Hg & _) HQ. pose proof Hg as (Hb1 & Hb2 & Ht & Hva & Hby & _).
  unfold assert_geometry. wp_steps.
  apply wp_assert; [by apply truthy_true|]. wp_steps.
  apply wp_assert; [rewrite w32_small by lia; by apply Z.eqb_eq|].
  apply wp_assert; [by apply Z.leb_le|done].
Qed.

Lemma wp_PmmMarkRange w start end_ :
  pmm_inv w → 0 ≤ start → end_ ≤ 2 ^ 32 - PAGE_SIZE →
  wp (PmmMarkRange start end_) (λ e w',
    if range_ok (pmm w) start end_
    then e = ZUZU_OK ∧ marked true w (range_first (pmm w) start) (range_last (pmm w) end_) w'
    else e = ERR_BADARG ∧ w' = w) w.
Proof.
  intros Hi Hs He. pose proof Hi as [Hok _]. pose proof Hok as (Hg & _).
  pose proof Hg as (Hb1 & Hb2 & Ht & Hva & Hby & _). unfold range_ok, PmmMarkRange, getp.
  apply wp_if; intros Hle; b2p. { rewrite (proj2 (Z.ltb_ge _ _)) by lia. by wp_steps. }
  rewrite (proj2 (Z.ltb_lt start end_)) by lia.
  destruct (range_pfns start end_) as [-> ->]; [lia..|]. wp_steps. psimpl.
  unfold range_first, range_last. set (a := start / PAGE_SIZE). set (b := (end_ + (PAGE_SIZE - 1)) / PAGE_SIZE).
  assert (Hab : a < b).
  { unfold a, b. apply Z.div_lt_upper_bound; [done|].
    pose proof (Z.mul_div_le end_ PAGE_SIZE eq_refl).
    pose proof (Z.mul_succ_div_gt (end_ + (PAGE_SIZE - 1)) PAGE_SIZE eq_refl). unfold PAGE_SIZE in *. lia. }
  clearbody a b.
  apply wp_if; intros Hc.
  { wp_steps. apply orb_true_iff in Hc. destruct (0 <=? a - _) eqn:?, (b - _ <=? _) eqn:?; simpl; try done.
    b2p. destruct Hc; b2p; lia. }
  b2p. rewrite (proj2 (Z.leb_le _ _)), (proj2 (Z.leb_le _ _)) by lia. simpl. wp_steps.
  apply wp_assert; [by apply truthy_true|].
  wp_steps. apply wp_assert; [apply Z.ltb_lt; lia|]. wp_steps. apply wp_assert_geometry; [done|]. wp_step.
  replace a with (pfn_base (pmm w) + (a - pfn_base (pmm w))) at 2 by lia.
  eapply wp_mono; [apply wp_mark_frames; [done|lia..]|]. intros nr w' [-> Hm]. wp_steps.
  unfold when. wp_steps. split; [done|].
  by replace (b - pfn_base (pmm w)) with (a - pfn_base (pmm w) + Z.of_nat (Z.to_nat (b - a))) by lia.
Qed.

Lemma range_first_last p start end_ :
  0 ≤ start < end_ → range_first p start < range_last p end_.
Proof.
  intros Hs. unfold range_first, range_last.
  enough (start / PAGE_SIZE < (end_ + (PAGE_SIZE - 1)) / PAGE_SIZE) by lia.
  apply Z.div_lt_upper_bound; [done|].
  pose proof (Z.mul_succ_div_gt (end_ + (PAGE_SIZE - 1)) PAGE_SIZE eq_refl). unfold PAGE_SIZE in *. lia.
Qed.

Lemma wp_PmmUnmarkRange w start end_ :
  pmm_inv w → 0 ≤ start → end_ ≤ 2 ^ 32 - PAGE_SIZE → PAGE_SIZE ≤ start →
  wp (PmmUnmarkRange start end_) (λ e w',
    if range_ok (pmm w) start end_
    then e = ZUZU_OK ∧ marked false w (range_first (pmm w) start) (range_last (pmm w) end_) w'
    else e = ERR_BADARG ∧ w' = w) w.
Proof.
  intros Hi Hs He Hps. pose proof Hi as [Hok _]. pose proof Hok as (Hg & _).
  pose proof Hg as (Hb1 & Hb2 & Ht & Hva & Hby & _). unfold range_ok, PmmUnmarkRange, getp.
  apply wp_if; intros Hle; b2p. { rewrite (proj2 (Z.ltb_ge _ _)) by lia. by wp_steps. }
  rewrite (proj2 (Z.ltb_lt start end_)) by lia.
  pose proof (range_first_last (pmm w) start end_ ltac:(lia)) as Hab.
  destruct (range_pfns start end_) as [-> ->]; [lia..|]. wp_steps. psimpl.
  assert (Hp : 0 < start / PAGE_SIZE) by (apply Z.div_str_pos; unfold PAGE_SIZE in *; lia).
  unfold range_first, range_last in *. set (a := start / PAGE_SIZE) in *. set (b := (end_ + (PAGE_SIZE - 1)) / PAGE_SIZE) in *.
  clearbody a b.
  apply wp_if; intros Hc.
  { wp_steps. apply orb_true_iff in Hc. destruct (0 <=? a - _) eqn:?, (b - _ <=? _) eqn:?; simpl; try done.
    b2p. destruct Hc; b2p; lia. }
  b2p. rewrite (proj2 (Z.leb_le _ _)), (proj2 (Z.leb_le _ _)) by lia. simpl. wp_steps.
  apply wp_assert; [by apply truthy_true|]. wp_steps.
  apply wp_assert; [apply Z.ltb_lt; lia|]. wp_steps. apply wp_assert_geometry; [done|]. wp_step.
  apply (wp_for_each (λ i, marked false w (a - pfn_base (pmm w)) (i - pfn_base (pmm w)))).
  - by apply marked_nil.
  - intros i w' Hi' Hm. pose proof Hm as (Hi1 & Hr1 & _). destruct (reshaped_pfn _ _ Hr1) as (Hb & _ & Htt & _).
    replace i with (pfn_base (pmm w') + (i - pfn_base (pmm w))) at 1 by lia.
    eapply wp_mono; [apply wp_unmark_frame; [done|lia..]|]. intros [] w2 Hm2.
    replace (i + 1 - pfn_base (pmm w)) with (i - pfn_base (pmm w) + 1) by lia.
    eapply marked_snoc; [|done..]. lia.
  - intros w' Hm. wp_steps. split; [done|].
    by replace (a + Z.of_nat (Z.to_nat (b - a))) with b in Hm by lia.
Qed.

(** A range that ends in the last page of the address space is rounded to frame 0:
    [PmmMarkRange] marks nothing and reports success. *)
Theorem PmmMarkRange_wrap w start end_ :
  pmm_inv w → 0 ≤ start < end_ → 2 ^ 32 - PAGE_SIZE < end_ < 2 ^ 32 →
  pfn_base (pmm w) ≤ start / PAGE_SIZE →
  PmmMarkRange start end_ w = Ok (ZUZU_OK, w).
Proof.
  intros [Hok _] Hs He Hb. pose proof Hok as (Hg & _). pose proof Hg as (Hb1 & Hb2 & Ht & Hva & Hby & _).
  unfold PmmMarkRange, getp. rewrite (proj2 (Z.leb_gt _ _)) by lia. rewrite run_gets. psimpl.
  assert (Hu : align_up end_ PAGE_SIZE = 0).
  { unfold align_up. change PAGE_SIZE with (2 ^ 12) in *.
    assert (Hw : w32 (end_ + 2 ^ 12 - 1) = end_ + 2 ^ 12 - 1 - 2 ^ 32).
    { unfold w32. rewrite <- (Z.mod_add _ (-1)) by lia. apply Z.mod_small. lia. }
    rewrite Hw. fold (align_down (end_ + 2 ^ 12 - 1 - 2 ^ 32) (2 ^ 12)). rewrite align_down_spec by lia.
    rewrite Z.div_small by lia. lia. }
  assert (Hd : PaToPfn (align_down start PAGE_SIZE) = start / PAGE_SIZE).
  { change PAGE_SIZE with (2 ^ 12). rewrite align_down_spec by lia. rewrite PaToPfn_div.
    change PAGE_SIZE with (2 ^ 12). rewrite Z.mul_comm, Z.div_mul; lia. }
  rewrite Hu, Hd. change (PaToPfn 0) with 0.
  rewrite (proj2 (Z.ltb_ge (start / PAGE_SIZE) _)), (proj2 (Z.ltb_ge (pfn_end (pmm w)) _)) by lia.
  simpl. rewrite !run_assert; [|apply Z.ltb_lt; lia|by apply truthy_true].
  rewrite Z2Nat.nonpos by lia. unfold assert_geometry, bind, assert. simpl.
  rewrite (proj2 (truthy_true _) Hva), w32_small, (proj2 (Z.eqb_eq _ _) Ht), (proj2 (Z.leb_le _ _) Hby) by lia.
  done.
Qed.

(** * Runs of frames *)

(** Frames [s, s+n) exist and are free. *)
Definition run_free p (s n : Z) : Prop :=
  0 ≤ s ∧ s + n ≤ total_frames p ∧ ∀ k, s ≤ k < s + n → alloc p k = false.
Definition aligned_at p (align_frames s : Z) : Prop :=
  Z.land (pfn_base p + s) (align_frames - 1) = 0.
(** What a scan returns: the lowest acceptable run, if any. *)
Definition first_run p (ok : Z → Prop) (n : Z) (r : option Z) : Prop :=
  match r with
  | Some s => run_free p s n ∧ ok s ∧ ∀ s', ok s' → run_free p s' n → s ≤ s'
  | None => ∀ s', ok s' → ¬ run_free p s' n
  end.

Lemma aligned_scan_first p n a k index consec start :
  geom p → 0 < n → 0 ≤ consec < n → consec ≤ index →
  index + Z.of_nat k = total_frames p →
  (∀ j, index - consec ≤ j < index → alloc p j = false) →
  (0 < consec → start = index - consec ∧ aligned_at p a start) →
  (∀ s, aligned_at p a s → run_free p s n → index - consec ≤ s) →
  first_run p (aligned_at p a) n (aligned_scan p n a k index consec start).
Proof.
  intros Hg Hn. pose proof Hg as (Hb1 & Hb2 & Ht & Hva & Hby & _).
  revert index consec start. induction k as [|k IH]; intros index consec start Hc Hci Hk Hfr Hst Hlow; simpl.
  { intros s Hs Hr. pose proof (Hlow s Hs Hr). destruct Hr as (? & ? & _). lia. }
  rewrite w32_small by lia.
  destruct ((consec =? 0) && negb (Z.land (pfn_base p + index) (a - 1) =? 0)) eqn:Ea; b2p.
  { subst consec. apply IH; [lia..|]. intros s Hs Hr. specialize (Hlow s Hs Hr).
    destruct (decide (s = index)) as [->|]; [done|lia]. }
  rewrite (proj2 (Z.leb_gt _ _)) by (apply Z.ltb_lt, byte_idx_lt; [done|lia]).
  fold (alloc p index). destruct (alloc p index) eqn:Eal; simpl.
  { apply IH; [lia..|]. intros s Hs Hr. specialize (Hlow s Hs Hr).
    destruct (decide (s ≤ index)); [|lia]. destruct Hr as (_ & _ & Hr). rewrite Hr in Eal by lia. done. }
  set (start' := if consec =? 0 then index else start).
  assert (Hst' : start' = index - consec ∧ aligned_at p a start').
  { subst start'. destruct (Z.eqb_spec consec 0) as [->|]; [|apply Hst; lia].
    split; [lia|]. simpl in Ea. by b2p. }
  clearbody start'. destruct Hst' as [Hst1 Hst2]. destruct (Z.eqb_spec (consec + 1) n) as [Hcn|Hcn].
  - split_and!; [|done|intros s' Hs' Hr; specialize (Hlow s' Hs' Hr); lia]. split_and!; [lia..|].
    intros j Hj. destruct (decide (j = index)) as [->|]; [done|apply Hfr; lia].
  - apply IH; [lia..| |split;[lia|done]|intros s Hs Hr; specialize (Hlow s Hs Hr); lia].
    intros j Hj. destruct (decide (j = index)) as [->|]; [done|apply Hfr; lia].
Qed.

Lemma contig_scan_aligned p n k index consec start :
  contig_scan p n k index consec start = aligned_scan p n 1 k index consec start.
Proof.
  revert index consec start. induction k as [|k IH]; intros index consec start; simpl; [done|].
  change (1 - 1) with 0. rewrite Z.land_0_r, andb_false_r. by rewrite !IH.
Qed.
Lemma aligned_at_1 p s : aligned_at p 1 s.
Proof. apply Z.land_0_r. Qed.

Lemma aligned_scan_ok p n a :
  geom p → 0 < n →
  first_run p (aligned_at p a) n (aligned_scan p n a (Z.to_nat (total_frames p)) 0 0 0).
Proof.
  intros Hg Hn. pose proof Hg as (Hb1 & Hb2 & Ht & _).
  apply aligned_scan_first; try done; try lia. intros s _ (? & _). lia.
Qed.

Lemma run_free_count p s n : bits_ok p → 0 < n → run_free p s n → n ≤ free_frames p.
Proof.
  intros (Hg & -> & _) Hn (Hs & He & Hf).
  enough (length (seqZ s n) ≤ length (frees p))%nat by (rewrite length_seqZ in *; lia).
  apply submseteq_length, NoDup_submseteq; [apply NoDup_seqZ|].
  intros x Hx%elem_of_seqZ. apply elem_of_frees. split; [lia|]. apply Hf. lia.
Qed.

Lemma run_free_nonzero p s n : bits_ok p → 0 < n → run_free p s n → faddr p s ≠ 0.
Proof.
  intros Hok Hn (Hs & He & Hf). apply free_nonzero; [done|]. apply elem_of_frees.
  split; [lia|apply Hf; lia].
Qed.

(** The effect shared by the two contiguous allocators: the lowest acceptable run is
    marked, or nothing happens and there is none. *)
Definition contig_post (ok : Z → Prop) (n : Z) w (pa : Z) w' : Prop :=
  (pa = 0 ∧ w' = w ∧ ∀ s, ok s → ¬ run_free (pmm w) s n) ∨
  (∃ s w1, first_run (pmm w) ok n (Some s) ∧ pa = faddr (pmm w) s ∧ pa ≠ 0 ∧
           marked true w s (s + n) w1 ∧ ∃ g, settled (set_g_sp g w1) w').

Lemma run_range p s n :
  geom p → 0 < n → 0 ≤ s → s + n ≤ total_frames p →
  PfnToPa (w32 (pfn_base p + s)) = faddr p s ∧
  PfnToPa (w32 (pfn_base p + s + n)) = faddr p (s + n) ∧
  faddr p (s + n) ≤ 2 ^ 32 - PAGE_SIZE ∧
  range_ok p (faddr p s) (faddr p (s + n)) = true ∧
  range_first p (faddr p s) = s ∧ range_last p (faddr p (s + n)) = s + n.
Proof.
  intros Hg Hn Hs Hsn. pose proof Hg as (Hb1 & Hb2 & Ht & _).
  rewrite <- Z.add_assoc, !faddr_PfnToPa by (done || lia).
  assert (Hf : range_first p (faddr p s) = s).
  { unfold range_first, faddr. rewrite Z.mul_comm, Z.div_mul by done. lia. }
  assert (Hl : range_last p (faddr p (s + n)) = s + n).
  { unfold range_last, faddr. rewrite Z.mul_comm, Z.div_add_l by done. rewrite Z.div_small by done. lia. }
  split_and!; [done..| | |done|done].
  - unfold faddr, PAGE_SIZE. lia.
  - unfold range_ok. rewrite Hf, Hl. rewrite !andb_true_iff, Z.ltb_lt, !Z.leb_le.
    unfold faddr, PAGE_SIZE. lia.
Qed.

Lemma wp_mark_run w s n :
  pmm_inv w → 0 < n → 0 ≤ s → s + n ≤ total_frames (pmm w) →
  wp (PmmMarkRange (faddr (pmm w) s) (faddr (pmm w) (s + n)))
     (λ e w1, e = ZUZU_OK ∧ marked true w s (s + n) w1) w.
Proof.
  intros Hi Hn Hs Hsn. pose proof Hi as [Hok _]. pose proof Hok as (Hg & _). pose proof Hg as (Hb1 & Hb2 & Ht & _).
  destruct (run_range (pmm w) s n) as (_ & _ & Hle & Hrok & Hf & Hl); [done..|].
  eapply wp_mono; [apply wp_PmmMarkRange; [done| |done]|].
  - unfold faddr, PAGE_SIZE. lia.
  - cbv beta. rewrite Hrok, Hf, Hl. done.
Qed.

Lemma env_inv_g_sp w g : env_inv w → env_inv (set_g_sp g w).
Proof. intros. by eapply (env_inv_mono w). Qed.
Lemma env_inv_marked w s e w1 : env_inv w → marked true w s e w1 → env_inv w1.
Proof.
  intros He (Hi & Hr & Ha). eapply env_inv_reshaped; [done..|]. intros i Hi' _ Hal. rewrite Ha by done.
  by case_bool_decide.
Qed.

Lemma wp_publish w Q :
  pmm_inv w → env_inv w → (∀ g w', settled (set_g_sp g w) w' → Q tt w') →
  wp SyspageUpdateMem (λ _, wp PmmSignalSubscribers Q) w.
Proof.
  intros Hi He HQ. destruct (SyspageUpdateMem_eq w) as [g Hs].
  eapply wp_of; [exact Hs|].
  eapply wp_mono; [apply wp_PmmSignalSubscribers; [done|by apply env_inv_g_sp]|].
  intros [] w' Hw'. by eapply HQ.
Qed.

Lemma wp_contig_take w ok s n :
  pmm_inv w → env_inv w → 0 < n → first_run (pmm w) ok n (Some s) →
  wp (contig_take s n) (contig_post ok n w) w.
Proof.
  intros Hi He Hn Hfr. pose proof Hi as [Hok _]. pose proof Hok as (Hg & _).
  pose proof Hfr as (Hrun & _). pose proof Hrun as (Hs & Hsn & _).
  destruct (run_range (pmm w) s n) as (Hpa & Hpe & _); [done..|].
  unfold contig_take, getp. wp_steps. psimpl. rewrite Hpa, Hpe.
  eapply wp_mono; [by apply wp_mark_run|]. intros e w1 [-> Hm]. simpl. wp_step.
  pose proof Hm as (Hi1 & _).
  eapply wp_mono; [apply (wp_publish w1 (λ _ w', contig_post ok n w (faddr (pmm w) s) w')); [done|by eapply env_inv_marked|]|].
  - intros g w' Hse. right. exists s, w1. split_and!; [done..|by eapply run_free_nonzero|done|by exists g].
  - intros [] w2 Hw2. wp_step. eapply wp_mono; [exact Hw2|]. intros [] w3 Hw3. by wp_step.
Qed.

Lemma wp_PmmAllocFramesContigAligned w n a :
  pmm_inv w → env_inv w → 0 < n → (∃ k, 0 ≤ k ∧ a = 2 ^ k) →
  wp (PmmAllocFramesContigAligned n a) (contig_post (aligned_at (pmm w) a) n w) w.
Proof.
  intros Hi He Hn (k & Hk & Ha). pose proof Hi as [Hok _]. pose proof Hok as (Hg & _).
  unfold PmmAllocFramesContigAligned, getp. rewrite (proj2 (Z.eqb_neq n 0)) by lia.
  assert (Hpos : 0 < a) by (subst a; apply Z.pow_pos_nonneg; lia).
  rewrite (proj2 (Z.eqb_neq a 0)) by lia.
  assert (Hp2 : Z.land a (a - 1) = 0).
  { subst a. rewrite Z.sub_1_r, <- Z.ones_equiv, Z.land_ones by done. by apply Z.mod_same, Z.pow_nonzero. }
  rewrite Hp2. change (negb (0 =? 0)) with false. cbv iota. wp_steps. psimpl.
  apply wp_if; intros Hfr; b2p.
  { wp_steps. left. split_and!; [done..|]. intros s _ Hr.
    pose proof (run_free_count _ _ _ Hok Hn Hr). lia. }
  wp_step. apply wp_assert_geometry; [done|].
  pose proof (aligned_scan_ok (pmm w) n a Hg Hn) as Hscan.
  destruct (aligned_scan _ _ _ _ _ _ _) as [s|].
  - by apply wp_contig_take.
  - wp_steps. left. done.
Qed.

Lemma wp_PmmAllocFramesContig w n :
  pmm_inv w → env_inv w → 0 < n →
  wp (PmmAllocFramesContig n) (contig_post (λ _, True) n w) w.
Proof.
  intros Hi He Hn. pose proof Hi as [Hok _]. pose proof Hok as (Hg & Hf & _).
  pose proof Hg as (Hb1 & Hb2 & Ht & _). pose proof (frees_le _ Hg) as Hle.
  unfold PmmAllocFramesContig, getp. wp_steps. psimpl. rewrite (proj2 (Z.eqb_neq n 0)) by lia. simpl.
  apply wp_if; intros Hfr; b2p.
  { wp_steps. left. split_and!; [done..|]. intros s _ Hr.
    pose proof (run_free_count _ _ _ Hok Hn Hr). lia. }
  wp_step. apply wp_assert_geometry; [done|]. wp_step.
  apply wp_assert; [apply Z.leb_le; lia|]. wp_step. apply wp_assert; [apply Z.leb_le; lia|].
  rewrite contig_scan_aligned. pose proof (aligned_scan_ok (pmm w) n 1 Hg Hn) as Hscan.
  destruct (aligned_scan _ _ _ _ _ _ _) as [s|].
  2: { wp_steps. left. split_and!; [done..|]. intros s _. apply Hscan, aligned_at_1. }
  assert (Hfirst : first_run (pmm w) (λ _, True) n (Some s)).
  { destruct Hscan as (? & _ & Hl). split_and!; [done..|]. intros s' _. apply Hl, aligned_at_1. }
  clear Hscan. pose proof Hfirst as (Hrun & _). pose proof Hrun as (Hs & Hsn & _).
  destruct (run_range (pmm w) s n) as (Hpa & Hpe & _); [done..|]. rewrite Hpa, Hpe. wp_step.
  eapply wp_mono; [by apply wp_mark_run|]. intros e w1 [-> Hm]. simpl. wp_steps. psimpl.
  pose proof Hm as (Hi1 & Hr1 & _). destruct (reshaped_pfn _ _ Hr1) as (Hb & Hpe' & _).
  rewrite Hb, Hpe', Hpa.
  apply wp_assert; [by rewrite faddr_mod|]. wp_step.
  apply wp_assert; [rewrite !w32_small by (rewrite ?w32_small; lia); rewrite andb_true_iff, !Z.leb_le; lia|]. wp_step.
  eapply wp_mono; [apply (wp_publish w1 (λ _ w', contig_post (λ _, True) n w (faddr (pmm w) s) w')); [done|by eapply env_inv_marked|]|].
  - intros g w' Hse. right. exists s, w1. split_and!; [done..|by eapply run_free_nonzero|done|by exists g].
  - intros [] w2 Hw2. wp_step. eapply wp_mono; [exact Hw2|]. intros [] w3 Hw3. by wp_step.
Qed.

(** The world after allocating the frames [is] one after the other. *)
Lemma took_settled_frees w i w1 w' :
  pmm_inv w → i ∈ frees (pmm w) → took w i w1 → settled w1 w' →
  same_geom (pmm w) (pmm w') ∧
  (∀ j, j ∈ frees (pmm w) → j ≠ i → j ∈ frees (pmm w')) ∧
  free_frames (pmm w) - 1 ≤ free_frames (pmm w') .
Proof.
  intros [Hok _] Hi Htk ([Hok' _] & _ & Hst). pose proof Hok as (Hg & Hf & _).
  pose proof (took_reshaped _ _ _ Htk) as Hr. destruct (reshaped_pfn _ _ Hr) as (Hb & Hpe & Ht & Hrd & _).
  destruct (env_step_stable _ _ Hst) as ((Hb' & Hpe' & Ht' & Hrd') & _ & Hdown & _).
  assert (Hsub : ∀ j, j ∈ frees (pmm w) → j ≠ i → j ∈ frees (pmm w')).
  { intros j Hj Hne. pose proof Hj as [Hjr Hja]%elem_of_frees. apply elem_of_frees. split; [lia|].
    apply not_true_iff_false. intros Ha%Hdown. rewrite (took_alloc w i w1 j Hok Hi Htk) in Ha by lia.
    rewrite Hja, orb_false_r, bool_decide_eq_true in Ha. congruence. }
  split_and!; [unfold same_geom; split_and!; congruence|done|].
  destruct Hok' as (Hg' & Hf' & _). rewrite Hf, Hf'.
  assert (Hle : (length (frees (with_bit (pmm w) i true)) ≤ length (frees (pmm w')))%nat).
  { apply submseteq_length, NoDup_submseteq; [apply NoDup_frees|]. intros j Hj%elem_of_frees.
    change (total_frames (with_bit _ _ _)) with (total_frames (pmm w)) in Hj. destruct Hj as [Hjr Hja].
    rewrite alloc_with_bit in Hja; [|done|apply elem_of_frees in Hi; apply Hi|lia]. case_decide; [done|].
    apply Hsub; [|done]. by apply elem_of_frees. }
  pose proof (frees_set _ _ Hg Hi) as Hp. apply Permutation_length in Hp. simpl in Hp. lia.
Qed.

(** * Ownership

    Frame [i] is owned by a client of the PMM: allocated, and not one the environment
    may give back on its own. *)
Definition owned w (i : Z) : Prop :=
  0 ≤ i < total_frames (pmm w) ∧ alloc (pmm w) i = true ∧ ¬ env_frames (ext w) i.

Lemma owned_step w w' i : env_step w w' → owned w i → owned w' i.
Proof.
  intros Hs (Hr & Ha & He). destruct (env_step_stable _ _ Hs) as ((_ & _ & Ht & _) & _ & _ & Hef & Hst).
  split_and!; [lia|lia|by apply Hst|]. by intros ?%Hef.
Qed.
Lemma owned_reshaped w w' i :
  reshaped w w' → alloc (pmm w') i = true → 0 ≤ i < total_frames (pmm w) → ¬ env_frames (ext w) i → owned w' i.
Proof. by intros (? & ? & ? & ? & ->) Ha Hr He. Qed.

Lemma frees_not_env w i : env_inv w → i ∈ frees (pmm w) → ¬ env_frames (ext w) i.
Proof. intros He [_ Ha]%elem_of_frees Hi. rewrite (env_frames_alloc w i He Hi) in Ha. done. Qed.

Lemma took_owned w i w1 w' :
  pmm_inv w → env_inv w → i ∈ frees (pmm w) → took w i w1 → settled w1 w' →
  owned w' i ∧ ∀ j, owned w j → owned w' j.
Proof.
  intros Hi He Hif Htk (_ & _ & Hs). pose proof (took_reshaped _ _ _ Htk) as Hr.
  pose proof Hi as [Hok _]. pose proof Hif as [Hir _]%elem_of_frees.
  split; [|intros j (Hjr & Hja & Hje)]; eapply owned_step; [exact Hs| |exact Hs|].
  - eapply owned_reshaped; [done| |lia|by eapply frees_not_env].
    rewrite (took_alloc w i) by (done || lia). by rewrite bool_decide_true.
  - eapply owned_reshaped; [done| |lia|done].
    rewrite (took_alloc w i) by (done || lia). by rewrite Hja, orb_true_r.
Qed.

Definition scattered w (l : list Z) w' : Prop :=
  pmm_inv w' ∧ env_inv w' ∧ same_geom (pmm w) (pmm w') ∧ NoDup l ∧
  (∀ x, x ∈ l → ∃ i, x = faddr (pmm w) i ∧ ¬ owned w i ∧ owned w' i) ∧
  ∀ j, owned w j → owned w' j.

Lemma faddr_same_geom p p' i : same_geom p p' → faddr p' i = faddr p i.
Proof. intros (Hb & _). unfold faddr. by rewrite Hb. Qed.

Lemma wp_scatter n w :
  pmm_inv w → env_inv w → freelist_ready (pmm w) = true → Z.of_nat n ≤ free_frames (pmm w) →
  wp (scatter n) (λ l w', length l = n ∧ scattered w l w') w.
Proof.
  revert w. induction n as [|n IH]; intros w Hi He Hrd Hn; simpl.
  { wp_steps. split; [done|]. split_and!; [done..|constructor|set_solver|done]. }
  wp_step. eapply wp_mono; [by apply wp_PmmTakeFreeFrame|].
  intros pa w2 [(-> & -> & Hz)|(i & w1 & Hif & -> & Hnz & Htk & Hse)]; [lia|].
  rewrite (proj2 (Z.eqb_neq _ _) Hnz). wp_step.
  destruct (took_settled_frees _ _ _ _ Hi Hif Htk Hse) as (Hsg & Hsub & Hcnt).
  destruct (took_owned _ _ _ _ Hi He Hif Htk Hse) as [Hown Hkeep].
  pose proof Hse as (Hi2 & He2 & _). pose proof Hsg as (_ & _ & _ & Hrd2).
  eapply wp_mono; [apply IH; [done..|congruence|lia]|].
  intros l w3 (Hlen & Hi3 & He3 & Hsg3 & Hnd & Hall & Hkeep3). wp_step.
  split; [by simpl; rewrite Hlen|]. split_and!; [done..| | | |].
  - destruct Hsg as (?&?&?&?), Hsg3 as (?&?&?&?). unfold same_geom. split_and!; congruence.
  - constructor; [|done]. intros (k & Hk & Hno & _)%Hall.
    rewrite (faddr_same_geom _ _ _ Hsg) in Hk. apply faddr_inj in Hk. by subst k.
  - intros x [->|Hx]%elem_of_cons.
    + exists i. split_and!; [done| |by apply Hkeep3]. intros (_ & Ha & _).
      apply elem_of_frees in Hif. destruct Hif. congruence.
    + destruct (Hall _ Hx) as (k & -> & Hno & Hyes). exists k. rewrite (faddr_same_geom _ _ _ Hsg).
      split_and!; [done|by intros ?%Hkeep|done].
  - intros j Hj. by apply Hkeep3, Hkeep.
Qed.

(** * Initialisation *)

(** The regions reserved at boot, in the order of the calls. *)
Definition boot_regions (b : BootEnv) (l : RamLayout) : list (Z * Z) :=
  [(boot_start b, boot_end b); (dtb_start_pa l, w32 (dtb_start_pa l + FdtTotalSize b));
   (kernel_start_pa l, kernel_end_pa l); (bitmap_start_pa l, bitmap_end_pa l);
   (stack_region_base b, stack_region_end b)] ++
  ((λ r, (w32 r.1, w32 (r.1 + r.2))) <$> FdtReservedMem b) ++
  match FdtInitrd b with Some r => [(w32 r.1, w32 r.2)] | None => [] end.

Definition region_ok (r : Z * Z) : Prop := 0 ≤ r.1 ∧ r.2 ≤ 2 ^ 32 - PAGE_SIZE.
Definition covers p (j : Z) (r : Z * Z) : bool :=
  range_ok p r.1 r.2 && (range_first p r.1 <=? j) && (j <? range_last p r.2).

(** [w'] is [w] with the frames of the acceptable regions [rs] allocated. *)
Definition reserved w (rs : list (Z * Z)) w' : Prop :=
  pmm_inv w' ∧ reshaped w w' ∧
  ∀ j, 0 ≤ j → alloc (pmm w') j = existsb (covers (pmm w) j) rs || alloc (pmm w) j.

Lemma reserved_nil w : pmm_inv w → reserved w [] w.
Proof. intros. split_and!; [done|apply reshaped_refl|done]. Qed.

Lemma covers_reshaped w w' j r : reshaped w w' → covers (pmm w') j r = covers (pmm w) j r.
Proof.
  intros Hr. destruct (reshaped_pfn _ _ Hr) as (Hb & _ & Ht & _).
  unfold covers, range_ok, range_first, range_last. by rewrite Hb, Ht.
Qed.

Lemma existsb_covers_reshaped w w' j rs :
  reshaped w w' → existsb (covers (pmm w') j) rs = existsb (covers (pmm w) j) rs.
Proof.
  intros Hr. induction rs as [|r rs IH]; simpl; [done|]. by rewrite IH, (covers_reshaped w w').
Qed.

Lemma reserved_app w rs1 w1 rs2 w2 :
  reserved w rs1 w1 → reserved w1 rs2 w2 → reserved w (rs1 ++ rs2) w2.
Proof.
  intros (Hi1 & Hr1 & Ha1) (Hi2 & Hr2 & Ha2). split_and!; [done|by eapply reshaped_trans|].
  intros j Hj. rewrite Ha2, Ha1, existsb_app by done.
  rewrite (existsb_covers_reshaped w w1) by done. by rewrite orb_assoc, (orb_comm (existsb _ rs2)).
Qed.

Lemma wp_reserve w r (Q : Z → pworld E → Prop) :
  pmm_inv w → region_ok r → (∀ e w', reserved w [r] w' → Q e w') → wp (PmmMarkRange r.1 r.2) Q w.
Proof.
  intros Hi [Hs He] HQ. eapply wp_mono; [by apply wp_PmmMarkRange|]. cbv beta.
  intros e w' Hw. apply HQ. unfold reserved, existsb, covers. destruct (range_ok _ _ _); simpl.
  - destruct Hw as (_ & Hi' & Hr & Ha). split_and!; [done..|]. intros j Hj. rewrite Ha, orb_false_r by done.
    destruct (Z.leb_spec (range_first (pmm w) r.1) j), (Z.ltb_spec j (range_last (pmm w) r.2)); simpl;
      case_bool_decide; (done || lia).
  - destruct Hw as [_ ->]. split_and!; [done|apply reshaped_refl|done].
Qed.

Lemma wp_reserve_fdt l w :
  pmm_inv w → Forall region_ok ((λ r, (w32 r.1, w32 (r.1 + r.2))) <$> l) →
  wp (reserve_fdt l) (λ _, reserved w ((λ r, (w32 r.1, w32 (r.1 + r.2))) <$> l)) w.
Proof.
  revert w. induction l as [|[a s] l IH]; intros w Hi Hok; simpl; [wp_steps; by apply reserved_nil|].
  inversion_clear Hok as [|?? Hr Hl]. wp_step. apply (wp_reserve w (w32 a, w32 (a + s))); [done..|].
  intros e w1 Hw1. pose proof Hw1 as (Hi1 & _). eapply wp_mono; [by apply IH|].
  intros [] w2 Hw2. by apply (reserved_app w [_] w1).
Qed.

Lemma wp_PmmReserveBootRegions b w :
  pmm_inv w → Forall region_ok (boot_regions b (layout w)) →
  wp (PmmReserveBootRegions b) (λ _, reserved w (boot_regions b (layout w))) w.
Proof.
  intros Hi Hok. unfold boot_regions in *. rewrite !Forall_app, !Forall_cons in Hok.
  destruct Hok as [(H1 & H2 & H3 & H4 & H5 & _) [H6 H7]].
  unfold PmmReserveBootRegions. wp_step. apply (wp_reserve w (boot_start b, boot_end b)); [done..|].
  intros _ w1 Hw1. pose proof Hw1 as (Hi1 & Hr1 & _). wp_steps.
  assert (layout w1 = layout w) as -> by (by destruct Hr1 as (? & ? & ? & ? & ->)). clear Hr1.
  set (l := layout w) in *. clearbody l.
  apply (wp_reserve w1 (dtb_start_pa l, _)); [done..|]. intros _ w2 Hw2.
  pose proof (reserved_app _ _ _ _ _ Hw1 Hw2) as Hw. pose proof Hw as (Hi2 & _). clear dependent w1. wp_step.
  apply (wp_reserve w2 (kernel_start_pa l, _)); [done..|]. intros _ w3 Hw3.
  pose proof (reserved_app _ _ _ _ _ Hw Hw3) as Hw'. pose proof Hw' as (Hi3 & _). clear dependent w2. wp_step.
  apply (wp_reserve w3 (bitmap_start_pa l, _)); [done..|]. intros _ w4 Hw4.
  pose proof (reserved_app _ _ _ _ _ Hw' Hw4) as Hw. pose proof Hw as (Hi4 & _). clear dependent w3. wp_step.
  apply (wp_reserve w4 (stack_region_base b, _)); [done..|]. intros _ w5 Hw5.
  pose proof (reserved_app _ _ _ _ _ Hw Hw5) as Hw'. pose proof Hw' as (Hi5 & _). clear dependent w4. wp_step.
  eapply wp_mono; [by apply wp_reserve_fdt|]. intros [] w6 Hw6.
  pose proof (reserved_app _ _ _ _ _ Hw' Hw6) as Hw. pose proof Hw as (Hi6 & _). clear dependent w5.
  destruct (FdtInitrd b) as [[s e]|].
  - wp_step. inversion_clear H7. apply (wp_reserve w6 (w32 s, w32 e)); [done..|]. intros _ w7 Hw7. wp_step.
    pose proof (reserved_app _ _ _ _ _ Hw Hw7) as Hf. by rewrite <- app_assoc in Hf.
  - wp_step. by rewrite app_nil_r.
Qed.

(** The layout after [PmmInit] placed the bitmap behind the kernel image. *)
Definition boot_frames (l : RamLayout) : Z := ram_end l / PAGE_SIZE - ram_start l / PAGE_SIZE.
Definition boot_bytes (l : RamLayout) : Z := (boot_frames l + 7) / 8.
Definition boot_layout (b : BootEnv) (l : RamLayout) : RamLayout :=
  let s := align_up (kernel_end_pa l) PAGE_SIZE in
  set_layout_bitmap_va (w32 (s + KERNEL_VA_OFFSET b))
    (set_bitmap_end_pa (w32 (s + align_up (boot_bytes l) PAGE_SIZE)) (set_bitmap_start_pa s l)).

(** RAM is not empty and does not contain physical page 0, the bitmap fits between the
    kernel image and the stack, and no reserved region ends in the last page. *)
Definition boot_ok (b : BootEnv) (l : RamLayout) : Prop :=
  PAGE_SIZE ≤ ram_start l ∧ ram_start l / PAGE_SIZE < ram_end l / PAGE_SIZE ∧ ram_end l < 2 ^ 32 ∧
  bitmap_end_pa (boot_layout b l) ≤ stack_base_pa l ∧ bitmap_end_pa (boot_layout b l) ≤ ram_end l ∧
  layout_bitmap_va (boot_layout b l) ≠ 0 ∧ Forall region_ok (boot_regions b (boot_layout b l)).

(** The PMM before the reservations: everything free, the list not built. *)
Definition boot_pmm (b : BootEnv) (l : RamLayout) p : PmmState :=
  mkPmm (ram_start l / PAGE_SIZE) (ram_end l / PAGE_SIZE) (boot_frames l) (boot_frames l)
    (replicate (Z.to_nat (align_up (boot_bytes l) PAGE_SIZE)) 0) (layout_bitmap_va (boot_layout b l))
    (boot_bytes l) (freelist_head p) (freelist_ready p) (in_pressure p).

Lemma boot_size_bounds l :
  0 ≤ ram_start l → ram_start l / PAGE_SIZE < ram_end l / PAGE_SIZE → ram_end l < 2 ^ 32 →
  0 < boot_frames l < 2 ^ 20 ∧ boot_frames l ≤ boot_bytes l * 8 ∧
  0 ≤ boot_bytes l ≤ align_up (boot_bytes l) PAGE_SIZE.
Proof.
  intros Hs Hlt He. pose proof (Z.div_pos (ram_start l) PAGE_SIZE Hs eq_refl).
  assert (ram_end l / PAGE_SIZE < 2 ^ 20) by (apply Z.div_lt_upper_bound; unfold PAGE_SIZE; lia).
  assert (Hf : 0 < boot_frames l < 2 ^ 20) by (unfold boot_frames; lia).
  assert (Hb : boot_frames l ≤ boot_bytes l * 8 ≤ boot_frames l + 7).
  { unfold boot_bytes. pose proof (Z.div_mod (boot_frames l + 7) 8 ltac:(lia)).
    pose proof (Z.mod_pos_bound (boot_frames l + 7) 8 ltac:(lia)). lia. }
  split_and!; [lia..|]. change PAGE_SIZE with (2 ^ 12). rewrite align_up_spec by lia.
  pose proof (Z.mul_succ_div_gt (boot_bytes l + 2 ^ 12 - 1) (2 ^ 12)). lia.
Qed.

Lemma alloc_boot_pmm b l p j :
  0 ≤ ram_start l → ram_start l / PAGE_SIZE < ram_end l / PAGE_SIZE → ram_end l < 2 ^ 32 →
  0 ≤ j < boot_frames l → alloc (boot_pmm b l p) j = false.
Proof.
  intros H1 H2 H3 Hj. destruct (boot_size_bounds l) as (Hf & Hb & Hs'); [done..|].
  unfold alloc, boot_pmm, bb_get. cbn [bitmap]. unfold aget.
  rewrite list_lookup_total_alt, lookup_replicate_2; [simpl; by rewrite Z.land_0_l|].
  assert (j / 8 < boot_bytes l) by (apply Z.div_lt_upper_bound; lia). lia.
Qed.

Lemma boot_pmm_inv b l w :
  0 < ram_start l / PAGE_SIZE → ram_start l / PAGE_SIZE < ram_end l / PAGE_SIZE → ram_end l < 2 ^ 32 →
  0 ≤ ram_start l → layout_bitmap_va (boot_layout b l) ≠ 0 → freelist_ready (pmm w) = false →
  pmm w = boot_pmm b l (pmm w) → pmm_inv w.
Proof.
  intros Hs Hlt He H0s Hva Hrd Hp. destruct (boot_size_bounds l) as (Hf & Hb & Hs'); [done..|].
  split; [|congruence]. rewrite Hp. split_and!; [split_and!|..]; simpl; try done; try lia.
  - apply Z.div_lt_upper_bound; unfold PAGE_SIZE; lia.
  - rewrite length_replicate. lia.
  - unfold frees. simpl. rewrite filter_all; [rewrite length_seqZ; lia|].
    intros j Hj%elem_of_seqZ. apply alloc_boot_pmm; (done || lia).
Qed.

Lemma wp_PmmInit b w :
  freelist_ready (pmm w) = false → boot_ok b (layout w) →
  wp (PmmInit b) (λ _ w', pmm_inv w' ∧ freelist_ready (pmm w') = true ∧ subs w' = [] ∧
    layout w' = boot_layout b (layout w) ∧
    total_frames (pmm w') = boot_frames (layout w) ∧ pfn_base (pmm w') = ram_start (layout w) / PAGE_SIZE ∧
    ∀ j, 0 ≤ j < total_frames (pmm w') →
      alloc (pmm w') j = existsb (covers (pmm w') j) (boot_regions b (layout w'))) w.
Proof.
  intros Hrd (Hs & Hlt & He & Hst & Hre & Hva & Hreg). unfold PAGE_SIZE in Hs at 1.
  assert (0 < ram_start (layout w) / PAGE_SIZE) by (apply Z.div_str_pos; unfold PAGE_SIZE; lia).
  destruct (boot_size_bounds (layout w)) as (Hf & Hb & Hs'); [lia|done..|].
  unfold PmmInit, getp, upd_pmm. wp_steps. cbn [pmm set_pmm set_pfn_base set_pfn_end set_total_frames set_free_frames pfn_base pfn_end total_frames id].
  rewrite !PaToPfn_div. fold (boot_frames (layout w)). rewrite (w32_small (boot_frames _)) by lia.
  rewrite (w32_small (_ + 7)) by lia. fold (boot_bytes (layout w)).
  apply wp_assert; [by apply Z.leb_le|]. wp_step. apply wp_assert; [by apply Z.leb_le|]. wp_steps.
  match goal with |- wp _ _ ?s => set (w1 := s) end.
  assert (Hl1 : layout w1 = boot_layout b (layout w)) by done.
  assert (Hp1 : pmm w1 = boot_pmm b (layout w) (pmm w1)) by done.
  assert (Hrd1 : freelist_ready (pmm w1) = false) by done. clearbody w1.
  assert (Hi1 : pmm_inv w1) by (eapply (boot_pmm_inv b (layout w)); (done || lia)).
  eapply wp_mono; [apply wp_PmmReserveBootRegions; [done|by rewrite Hl1]|].
  intros [] w2 ([Hok2 _] & Hr2 & Ha2). wp_step. apply wp_PmmRebuildFreelist; [done|].
  intros h ns p' Hfl. wp_step. unfold p' in *.
  destruct (reshaped_pfn _ _ Hr2) as (Hb2 & Hpe2 & Ht2 & _).
  assert (Hl2 : layout w2 = layout w1) by (by destruct Hr2 as (? & ? & ? & ? & ->)).
  split_and!; [split; [exact Hok2|done]|done|done|simpl; congruence| | |].
  - simpl. by rewrite Ht2, Hp1.
  - simpl. by rewrite Hb2, Hp1.
  - simpl. intros j Hj. rewrite Hl2. change (alloc (pmm w2) j = existsb (covers (pmm w2) j) (boot_regions b (layout w1))).
    assert (Hz : alloc (pmm w1) j = false).
    { rewrite Hp1. simpl in Hj. rewrite Ht2, Hp1 in Hj. simpl in Hj. apply alloc_boot_pmm; (done || lia). }
    rewrite Ha2, Hz, orb_false_r by lia.
    symmetry. by apply existsb_covers_reshaped.
Qed.

(** * The contract of the allocator *)

Lemma wp_SyspageUpdateMem w (Q : unit → pworld E → Prop) : (∀ g, Q tt (set_g_sp g w)) → wp SyspageUpdateMem Q w.
Proof. intros HQ. destruct (SyspageUpdateMem_eq w) as [g Hs]. eapply wp_of; [exact Hs|done]. Qed.

Lemma owned_marked w s e w1 g w' :
  pmm_inv w → env_inv w → marked true w s e w1 → settled (set_g_sp g w1) w' →
  (∀ j, owned w j → owned w' j) ∧
  (∀ j, 0 ≤ j < total_frames (pmm w) → s ≤ j < e → ¬ env_frames (ext w) j → owned w' j).
Proof.
  intros Hi He (_ & Hr & Ha) (_ & _ & Hs). split.
  - intros j (Hjr & Hja & Hje). eapply owned_step; [exact Hs|].
    apply (owned_reshaped w w1 j); [done| |done|done]. rewrite Ha by lia. by case_bool_decide.
  - intros j Hjr Hj Hje. eapply owned_step; [exact Hs|].
    apply (owned_reshaped w w1 j); [done| |done|done]. rewrite Ha by lia. by rewrite bool_decide_true.
Qed.

(** C31: [PmmAllocFrame] never panics on a well-formed allocator.  It returns 0 exactly
    when no frame is free; otherwise it returns the page address of a frame nobody
    owned, which the caller owns afterwards, and every frame owned before stays owned
    whatever the low-memory notification does. *)
Theorem PmmAllocFrame_correct w :
  pmm_inv w → env_inv w → freelist_ready (pmm w) = true →
  wp PmmAllocFrame (λ pa w', pmm_inv w' ∧ env_inv w' ∧
    (pa = 0 ↔ free_frames (pmm w) = 0) ∧
    (pa ≠ 0 → ∃ i, pa = faddr (pmm w) i ∧ alloc (pmm w) i = false ∧ owned w' i) ∧
    ∀ j, owned w j → owned w' j) w.
Proof.
  intros Hi He Hrd. unfold PmmAllocFrame. wp_step.
  eapply wp_mono; [by apply wp_PmmTakeFreeFrame|].
  intros pa w2 [(-> & -> & Hz)|(i & w1 & Hif & -> & Hnz & Htk & Hse)]; simpl.
  - wp_steps. split_and!; [done..|naive_solver|done].
  - wp_steps. rewrite (proj2 (Z.eqb_neq _ _) Hnz). simpl. apply wp_SyspageUpdateMem. intros g. wp_step.
    destruct (took_owned _ _ _ _ Hi He Hif Htk Hse) as [Hown Hkeep]. pose proof Hse as (Hi2 & He2 & _).
    pose proof Hif as [_ Ha]%elem_of_frees.
    split_and!; [done|by apply env_inv_g_sp|split; [done|]|by exists i|done].
    intros Hz. destruct Hi as [(_ & Hf & _) _]. rewrite Hz in Hf.
    destruct (frees (pmm w)); [set_solver|simpl in Hf; lia].
Qed.

(** [PmmFreeFrame] of an allocated frame succeeds, keeps the allocator well formed
    and makes exactly that frame free again; freeing a frame that is already free
    panics. *)
Theorem PmmFreeFrame_correct w i :
  pmm_inv w → 0 ≤ i < total_frames (pmm w) → faddr (pmm w) i ≠ 0 →
  if alloc (pmm w) i
  then wp (PmmFreeFrame (faddr (pmm w) i)) (λ _ w', pmm_inv w' ∧
         free_frames (pmm w') = free_frames (pmm w) + 1 ∧
         ∀ j, 0 ≤ j → alloc (pmm w') j = negb (bool_decide (i = j)) && alloc (pmm w) j) w
  else PmmFreeFrame (faddr (pmm w) i) w = Panic.
Proof.
  intros Hi Hr Hnz. destruct (alloc (pmm w) i) eqn:Ha; [|by apply PmmFreeFrame_double].
  eapply wp_mono; [by apply wp_PmmFreeFrame|]. intros [] w' (Hi' & Hre & Hal).
  split_and!; [done| |done]. destruct Hi as [(Hg & Hf & _) _], Hi' as [(Hg' & Hf' & _) _].
  rewrite Hf, Hf'. pose proof (frees_clr _ _ Hg Hr Ha) as Hp. apply Permutation_length in Hp.
  assert (Hl : frees (pmm w') = frees (with_bit (pmm w) i false)).
  { destruct (reshaped_pfn _ _ Hre) as (_ & _ & Ht & _). unfold frees. simpl in Ht |- *. rewrite Ht.
    apply list_filter_iff'. intros j Hj%elem_of_seqZ. rewrite Hal, alloc_give by (done || lia). done. }
  rewrite Hl. simpl in Hp. lia.
Qed.

(** The contract shared by the contiguous allocators: PA_NULL exactly when there is no
    acceptable run, else the lowest one, owned by the caller. *)
Definition contig_contract (ok : Z → Prop) (n : Z) w (pa : Z) w' : Prop :=
  pmm_inv w' ∧ env_inv w' ∧ (∀ j, owned w j → owned w' j) ∧
  ((pa = PA_NULL ∧ ∀ s, ok s → ¬ run_free (pmm w) s n) ∨
   (∃ s, pa = faddr (pmm w) s ∧ pa ≠ PA_NULL ∧ first_run (pmm w) ok n (Some s) ∧
         ∀ k, s ≤ k < s + n → owned w' k)).

Lemma contig_post_contract ok n w pa w' :
  pmm_inv w → env_inv w → contig_post ok n w pa w' → contig_contract ok n w pa w'.
Proof.
  intros Hi He [(-> & -> & Hno)|(s & w1 & Hf & Hpa & Hnz & Hm & g & Hse)].
  - split_and!; [done..|]. by left.
  - destruct (owned_marked _ _ _ _ _ _ Hi He Hm Hse) as [Hkeep Hnew]. destruct Hse as (Hi' & He' & _).
    split_and!; [done..|]. right. exists s. split_and!; [done..|].
    intros k Hk. destruct Hf as ((Hs & Hsn & Hfr) & _). apply Hnew; [lia..|].
    intros Hef%(env_frames_alloc w k He). rewrite Hfr in Hef by done. done.
Qed.

(** [PmmAllocFramesContig] is first fit: it returns the lowest run of [n] free
    frames, all owned by the caller afterwards, and PA_NULL only if there is none. *)
Theorem PmmAllocFramesContig_first_fit w n :
  pmm_inv w → env_inv w → 0 < n →
  wp (PmmAllocFramesContig n) (contig_contract (λ _, True) n w) w.
Proof.
  intros Hi He Hn. eapply wp_mono; [by apply wp_PmmAllocFramesContig|].
  intros pa w'. by apply contig_post_contract.
Qed.

(** [PmmAllocFramesContigAligned] returns the lowest run of [n] free frames whose
    first frame number is a multiple of the power of two [a], and PA_NULL only if
    there is none. *)
Theorem PmmAllocFramesContigAligned_first_fit w n k :
  pmm_inv w → env_inv w → 0 < n → 0 ≤ k →
  wp (PmmAllocFramesContigAligned n (2 ^ k))
     (contig_contract (λ s, (pfn_base (pmm w) + s) mod 2 ^ k = 0) n w) w.
Proof.
  intros Hi He Hn Hk. eapply wp_mono; [apply wp_PmmAllocFramesContigAligned; [done..|by exists k]|].
  intros pa w' Hp. apply contig_post_contract; [done..|].
  assert (Hal : ∀ s, aligned_at (pmm w) (2 ^ k) s ↔ (pfn_base (pmm w) + s) mod 2 ^ k = 0).
  { intros s. unfold aligned_at. by rewrite Z.sub_1_r, <- Z.ones_equiv, Z.land_ones. }
  destruct Hp as [(-> & -> & Hno)|(s & w1 & (Hf & Ho & Hl) & Hrest)].
  - left. split_and!; [done..|]. intros s Hs. apply Hno. by apply Hal.
  - right. exists s, w1. split; [|done]. split_and!; [done|by apply Hal|].
    intros s' Hs'. apply Hl. by apply Hal.
Qed.

(** [PmmAllocFramesScattered] delivers all [n] frames or none: when enough frames
    are free it writes [n] distinct frame addresses that nobody owned and that the
    caller owns afterwards. *)
Theorem PmmAllocFramesScattered_all_or_none w n out_addrs :
  pmm_inv w → env_inv w → freelist_ready (pmm w) = true → 0 ≤ n → out_addrs ≠ 0 →
  wp (PmmAllocFramesScattered n out_addrs) (λ l w',
    scattered w l w' ∧ l = (if n <=? free_frames (pmm w) then l else []) ∧
    (n ≤ free_frames (pmm w) → Z.of_nat (length l) = n)) w.
Proof.
  intros Hi He Hrd Hn Ho. pose proof Hi as [(Hg & Hf & _) _]. pose proof (frees_le _ Hg).
  unfold PmmAllocFramesScattered, getp. wp_steps. psimpl. rewrite (proj2 (truthy_true _) Ho). simpl.
  rewrite orb_false_r. apply wp_if; intros Hc.
  - wp_steps. split_and!; [split_and!; [done..|constructor|set_solver|done]|by destruct (n <=? _)|].
    intros Hle. apply orb_true_iff in Hc. simpl. destruct Hc; b2p; lia.
  - b2p. rewrite (proj2 (Z.leb_le n (free_frames (pmm w)))) by lia. wp_step. apply wp_assert_geometry; [by destruct Hi|]. wp_step.
    apply wp_assert; [apply Z.leb_le; lia|]. wp_step. apply wp_assert; [apply Z.leb_le; lia|]. wp_step.
    eapply wp_mono; [apply wp_scatter; [done..|lia]|]. intros l w1 (Hlen & Hi1 & He1 & Hsc). wp_step.
    apply wp_SyspageUpdateMem. intros g. wp_step. split_and!; [|done|lia].
    split_and!; [done|by apply env_inv_g_sp|apply Hsc..].
Qed.

(** [PmmRebuildFreelist] repairs the free list from the bitmap whatever the link
    words in memory were: the allocator is well formed afterwards, with the list
    ready and the bitmap untouched. *)
Theorem PmmRebuildFreelist_repairs w :
  bits_ok (pmm w) →
  wp PmmRebuildFreelist (λ _ w', pmm_inv w' ∧ freelist_ready (pmm w') = true ∧
    bitmap (pmm w') = bitmap (pmm w) ∧ free_frames (pmm w') = free_frames (pmm w)) w.
Proof.
  intros Hok. apply wp_PmmRebuildFreelist; [done|]. intros h ns p' Hfl.
  split_and!; [|done..]. by split.
Qed.

(** A range marked allocated and then unmarked: [PmmMarkRange] and [PmmUnmarkRange]
    accept exactly the ranges inside the managed RAM, and unmarking a range that was
    entirely free before it was marked restores the state of every frame. *)
Theorem PmmMarkUnmark_roundtrip w start end_ :
  pmm_inv w → PAGE_SIZE ≤ start → end_ ≤ 2 ^ 32 - PAGE_SIZE →
  (∀ j, range_first (pmm w) start ≤ j < range_last (pmm w) end_ → alloc (pmm w) j = false) →
  wp (PmmMarkRange start end_ ;; PmmUnmarkRange start end_) (λ e w',
    e = (if range_ok (pmm w) start end_ then ZUZU_OK else ERR_BADARG) ∧ pmm_inv w' ∧
    ∀ j, 0 ≤ j → alloc (pmm w') j = alloc (pmm w) j) w.
Proof.
  intros Hi Hs He Hfree. unfold PAGE_SIZE in Hs at 1. wp_step.
  eapply wp_mono; [apply wp_PmmMarkRange; [done|lia|done]|]. intros e w1 Hm. cbv beta in Hm.
  assert (Hi1 : pmm_inv w1) by (destruct (range_ok _ _ _); [apply Hm|by destruct Hm as [_ ->]]).
  eapply wp_mono; [apply wp_PmmUnmarkRange; [done|lia|done|done]|]. intros e' w2 Hu. cbv beta in Hu.
  destruct (range_ok (pmm w) start end_) eqn:Ek.
  - destruct Hm as (-> & _ & Hr1 & Ha1). destruct (reshaped_pfn _ _ Hr1) as (Hb & _ & Ht & _).
    assert (Hk1 : range_ok (pmm w1) start end_ = true) by (unfold range_ok, range_first, range_last in *; by rewrite Hb, Ht).
    rewrite Hk1 in Hu. destruct Hu as (-> & Hi2 & _ & Ha2). split_and!; [done..|]. intros j Hj.
    rewrite Ha2, Ha1 by done. unfold range_first, range_last. rewrite Hb.
    repeat case_bool_decide; try done. symmetry. by apply Hfree.
  - destruct Hm as [_ ->]. rewrite Ek in Hu. by destruct Hu as [-> ->].
Qed.

(** [PmmInit] sets up a well-formed allocator with the free list ready in which
    exactly the frames of the boot regions that lie in RAM are allocated. *)
Theorem PmmInit_correct b w :
  freelist_ready (pmm w) = false → boot_ok b (layout w) →
  wp (PmmInit b) (λ _ w', pmm_inv w' ∧ freelist_ready (pmm w') = true ∧
    layout w' = boot_layout b (layout w) ∧ total_frames (pmm w') = boot_frames (layout w) ∧
    ∀ j, 0 ≤ j < total_frames (pmm w') →
      alloc (pmm w') j = existsb (covers (pmm w') j) (boot_regions b (layout w'))) w.
Proof.
  intros Hrd Hb. eapply wp_mono; [by apply wp_PmmInit|]. intros [] w' (? & ? & _ & ? & ? & _ & ?). done.
Qed.
End pmm_ok.

(** * A concrete allocator

    Four frames from physical page 16 on, frames 1 and 2 allocated, and an environment
    without subscribers whose events and heap do nothing. *)
Module Quiet.

#[local] Instance quiet_env : PmmEnv unit := {|
  ev_alive _ _ := true;
  EventSignal _ _ _ := ret tt;
  EventUnref _ := ret tt;
  KFree _ := ret tt
|}.

Definition quiet_step (w w' : pworld unit) : Prop :=
  same_geom (pmm w) (pmm w') ∧ layout w' = layout w ∧ bitmap (pmm w') = bitmap (pmm w).

#[local] Instance quiet_env_ok : PmmEnvOk unit.
Proof.
  refine {| env_inv _ := True; env_frames _ _ := False; env_step := quiet_step |};
    try done; unfold quiet_step, same_geom.
  - intros w1 w2 w3 ((?&?&?&?)&?&?) ((?&?&?&?)&?&?). split_and!; congruence.
  - intros w w' ((?&?&?&?)&?&Hb). unfold alloc. rewrite Hb. done.
Defined.

Definition demo_pmm (bm : list Z) (free head : Z) : PmmState := mkPmm 16 20 4 free bm 1 1 head true false.
Definition demo_nodes : Z → FreeNode :=
  fupd (fupd (λ _, mkFreeNode 0 0) 77824 (mkFreeNode 65536 0)) 65536 (mkFreeNode 0 77824).
Definition demo_layout : RamLayout :=
  mkLayout 65536 81920 0 65536 69632 77824 0 0 0 0 0 0 0.
Definition demo : pworld unit :=
  mkPworld (demo_pmm [6] 2 77824) demo_nodes demo_layout (Some 0) [] tt.

Lemma demo_inv : pmm_inv demo.
Proof.
  split; [split_and!; vm_compute; (done || congruence)|]. intros _.
  exists [77824; 65536]. split; [|by apply Permutation_swap].
  split; [by vm_compute|]. split; [|by rewrite !not_elem_of_cons; split_and!; [..|apply not_elem_of_nil]].
  repeat constructor; rewrite ?not_elem_of_cons; try split; try done; apply not_elem_of_nil.
Qed.

Lemma PmmAllocFrame_correct_witness :
  wp PmmAllocFrame (λ pa w', pmm_inv w' ∧ env_inv w' ∧
    (pa = 0 ↔ free_frames (pmm demo) = 0) ∧
    (pa ≠ 0 → ∃ i, pa = faddr (pmm demo) i ∧ alloc (pmm demo) i = false ∧ owned w' i) ∧
    ∀ j, owned demo j → owned w' j) demo.
Proof. apply (PmmAllocFrame_correct demo); [apply demo_inv|done|done]. Defined.

Lemma PmmFreeFrame_correct_witness :
  wp (PmmFreeFrame 69632) (λ _ w', pmm_inv w' ∧ free_frames (pmm w') = 3 ∧
    ∀ j, 0 ≤ j → alloc (pmm w') j = negb (bool_decide (1 = j)) && alloc (pmm demo) j) demo ∧
  PmmFreeFrame 65536 demo = Panic.
Proof.
  split.
  - apply (PmmFreeFrame_correct demo 1); [apply demo_inv|vm_compute; split; congruence|done].
  - apply (PmmFreeFrame_correct demo 0); [apply demo_inv|vm_compute; split; congruence|done].
Defined.

Lemma PmmAllocFramesContig_first_fit_witness :
  wp (PmmAllocFramesContig 1) (contig_contract (λ _, True) 1 demo) demo.
Proof. apply (PmmAllocFramesContig_first_fit demo 1); [apply demo_inv|done|lia]. Defined.

Lemma PmmAllocFramesContigAligned_first_fit_witness :
  wp (PmmAllocFramesContigAligned 1 (2 ^ 1))
     (contig_contract (λ s, (pfn_base (pmm demo) + s) mod 2 ^ 1 = 0) 1 demo) demo.
Proof. apply (PmmAllocFramesContigAligned_first_fit demo 1 1); [apply demo_inv|done|lia|lia]. Defined.

Lemma PmmAllocFramesScattered_all_or_none_witness :
  wp (PmmAllocFramesScattered 2 4096) (λ l w',
    scattered demo l w' ∧ l = (if 2 <=? free_frames (pmm demo) then l else []) ∧
    (2 ≤ free_frames (pmm demo) → Z.of_nat (length l) = 2)) demo.
Proof. apply (PmmAllocFramesScattered_all_or_none demo 2 4096); [apply demo_inv|done|done|lia|lia]. Defined.

(** The same frames with the link words overwritten. *)
Definition corrupt : pworld unit := set_nodes (λ _, mkFreeNode 3 7) demo.

Lemma PmmRebuildFreelist_repairs_witness :
  wp PmmRebuildFreelist (λ _ w', pmm_inv w' ∧ freelist_ready (pmm w') = true ∧
    bitmap (pmm w') = [6] ∧ free_frames (pmm w') = 2) corrupt.
Proof. apply (PmmRebuildFreelist_repairs corrupt). exact (proj1 demo_inv). Defined.

Lemma PmmMarkUnmark_roundtrip_witness :
  wp (PmmMarkRange 77824 81920 ;; PmmUnmarkRange 77824 81920) (λ e w',
    e = ZUZU_OK ∧ pmm_inv w' ∧ ∀ j, 0 ≤ j → alloc (pmm w') j = alloc (pmm demo) j) demo.
Proof.
  apply (PmmMarkUnmark_roundtrip demo 77824 81920); [apply demo_inv|done|done|].
  intros j Hj. assert (j = 3) as -> by (change (3 ≤ j < 4) in Hj; lia). done.
Defined.

(** Boot: RAM of 16 pages from 64 KiB on, with the boot code, the kernel image, the
    stack, the device tree, one reservation and an initial ram disk. *)
Definition boot_env : BootEnv :=
  mkBoot 65536 69632 118784 126976 2147483648 100 [(98304, 4096)] (Some (102400, 110592)).
Definition boot_world : pworld unit :=
  mkPworld (mkPmm 0 0 0 0 [] 0 0 0 false false) (λ _, mkFreeNode 0 0)
    (mkLayout 65536 131072 90112 69632 77830 118784 0 0 0 0 0 0 0) None [] tt.

Lemma PmmInit_correct_witness :
  wp (PmmInit boot_env) (λ _ w', pmm_inv w' ∧ freelist_ready (pmm w') = true ∧
    layout w' = boot_layout boot_env (layout boot_world) ∧ total_frames (pmm w') = 16 ∧
    ∀ j, 0 ≤ j < total_frames (pmm w') →
      alloc (pmm w') j = existsb (covers (pmm w') j) (boot_regions boot_env (layout w'))) boot_world.
Proof.
  apply (PmmInit_correct boot_env boot_world); [done|].
  do 6 (split; [vm_compute; congruence|]).
  unfold boot_regions. simpl. repeat (apply Forall_cons; split; [split; vm_compute; congruence|]). apply Forall_nil_2.
Defined.
Lemma PmmMarkRange_wrap_witness : PmmMarkRange 0x20000 0xFFFFFFFF demo = Ok (ZUZU_OK, demo).
Proof.
  apply (PmmMarkRange_wrap demo 0x20000 0xFFFFFFFF demo_inv); [lia|change PAGE_SIZE with 4096; lia|].
  change (16 ≤ 0x20000 / 4096). by vm_compute.
Defined.
End Quiet.
