(* ===== verification/Heap.v ===== *)
(** The kernel heap (kernel/mm/alloc.c): a doubly linked list of blocks over the frames of
    the physical memory manager, searched first-fit, split on allocation and merged with
    free neighbours on release.

    The headers of the blocks lie in the memory the blocks manage, so the model keeps a
    memory of words and every field access is a read or write of it.  The source of frames
    is an interface, [FrameSource], that [Pmm] implements. *)
From stdpp Require Import sorting.
From S2P Require Import Prelude Pmm.

#[local] Open Scope Z_scope.

(** * Constants (kernel/mm/alloc.h) *)

Definition HEAP_INITIAL_SIZE : Z := 64 * 4096.
Definition HEAP_GROW_MIN_PAGES : Z := 16.
Definition ALIGNMENT : Z := 16.
Definition MIN_PAYLOAD : Z := ALIGNMENT.
Definition KBLOCK_ALLOCATED : Z := 0xA110C8ED.
Definition KBLOCK_FREE : Z := 0xF9EEB10C.
(** [ALIGN_UP_CONST(sizeof(KHeapBlock), ALIGNMENT)]: four words. *)
Definition HDR : Z := 16.

(** * Where frames come from *)

(** [PmmAllocFramesContig], [PmmAllocFrame] and [PmmFreeFrame], and what their clients rely
    on: [owned w pa] says that the frame at [pa] belongs to a client. *)
Class FrameSource (W : Type) := {
  PmmAllocFramesContig_ : Z → M W Z;
  PmmAllocFrame_ : M W Z;
  PmmFreeFrame_ : Z → M W unit
}.
(** The frames of a run. *)
Definition in_run (pa n q : Z) : Prop := pa ≤ q < pa + n * PAGE_SIZE ∧ q mod PAGE_SIZE = 0.
Class FrameLaws (W : Type) `{FrameSource W} := {
  frames_ok : W → Prop;
  frame_owned : W → Z → Prop;
  frame_limit : W → Z;
  frame_contig w n : frames_ok w → 0 < n →
    wp (PmmAllocFramesContig_ n) (λ pa w', frames_ok w' ∧ frame_limit w' = frame_limit w ∧ (∀ q, frame_owned w q → frame_owned w' q) ∧
      (pa ≠ 0 → 0 < pa ∧ pa mod PAGE_SIZE = 0 ∧ pa + n * PAGE_SIZE ≤ frame_limit w ∧
         ∀ q, in_run pa n q → ¬ frame_owned w q ∧ frame_owned w' q)) w;
  frame_take w : frames_ok w →
    wp PmmAllocFrame_ (λ pa w', frames_ok w' ∧ frame_limit w' = frame_limit w ∧ (∀ q, frame_owned w q → frame_owned w' q) ∧
      (pa ≠ 0 → 0 < pa ∧ pa mod PAGE_SIZE = 0 ∧ pa + PAGE_SIZE ≤ frame_limit w ∧ ¬ frame_owned w pa ∧ frame_owned w' pa)) w;
  frame_put w pa : frames_ok w → frame_owned w pa →
    wp (PmmFreeFrame_ pa) (λ _ w', frames_ok w' ∧ frame_limit w' = frame_limit w ∧
      (∀ q, frame_owned w q → q ≠ pa → frame_owned w' q) ∧ ¬ frame_owned w' pa) w
}.

(** * State *)

Record hst (W : Type) := mkHst {
  h_w : W;
  h_mem : Z → Z;
  heap_head : Z;
  heap_tail : Z;
  heap_start_pa : Z;
  heap_end_pa : Z;
  heap_start_va : Z;
  heap_end_va : Z
}.
Arguments mkHst {_}.
Arguments h_w {_}.
Arguments h_mem {_}.
Arguments heap_head {_}.
Arguments heap_tail {_}.
Arguments heap_start_pa {_}.
Arguments heap_end_pa {_}.
Arguments heap_start_va {_}.
Arguments heap_end_va {_}.

Section heap.
Context {W : Type} `{FrameSource W}.
(** The offset of the direct map of physical memory, a constant of the board. *)
Context (KERNEL_VA_OFFSET : Z).

Definition set_h_w (x : W) (h : hst W) : hst W :=
  mkHst x (h_mem h) (heap_head h) (heap_tail h) (heap_start_pa h) (heap_end_pa h) (heap_start_va h) (heap_end_va h).
Definition set_h_mem (x : Z → Z) (h : hst W) : hst W :=
  mkHst (h_w h) x (heap_head h) (heap_tail h) (heap_start_pa h) (heap_end_pa h) (heap_start_va h) (heap_end_va h).
Definition set_heap_head (x : Z) (h : hst W) : hst W :=
  mkHst (h_w h) (h_mem h) x (heap_tail h) (heap_start_pa h) (heap_end_pa h) (heap_start_va h) (heap_end_va h).
Definition set_heap_tail (x : Z) (h : hst W) : hst W :=
  mkHst (h_w h) (h_mem h) (heap_head h) x (heap_start_pa h) (heap_end_pa h) (heap_start_va h) (heap_end_va h).
Definition set_heap_start (pa va : Z) (h : hst W) : hst W :=
  mkHst (h_w h) (h_mem h) (heap_head h) (heap_tail h) pa (heap_end_pa h) va (heap_end_va h).
Definition set_heap_end (pa va : Z) (h : hst W) : hst W :=
  mkHst (h_w h) (h_mem h) (heap_head h) (heap_tail h) (heap_start_pa h) pa (heap_start_va h) va.
Abbreviation HM := (M (hst W)).

Definition on_w {A} (m : M W A) : HM A := λ h,
  match m (h_w h) with Ok (a, w) => Ok (a, set_h_w w h) | Panic => Panic | Diverge => Diverge end.
Definition PA_TO_VA (pa : Z) : Z := w32 (pa + KERNEL_VA_OFFSET).
Definition VA_TO_PA (va : Z) : Z := w32 (va - KERNEL_VA_OFFSET).

(** Words of memory, and the fields of a [KHeapBlock] at [b]. *)
Definition store (f : Z → Z) (a v : Z) : Z → Z := λ x, if x =? a then v else f x.
Definition ld (a : Z) : HM Z := gets (λ h, h_mem h a).
Definition st (a v : Z) : HM unit := modify (λ h, set_h_mem (store (h_mem h) a v) h).
Definition b_size (b : Z) : Z := b.
Definition b_next (b : Z) : Z := b + 4.
Definition b_prev (b : Z) : Z := b + 8.
Definition b_state (b : Z) : Z := b + 12.

(** * The heap *)

Definition HeapAppendBlk (block : Z) : HM unit :=
  st (b_next block) 0 ;;
  let! tail := gets heap_tail in
  st (b_prev block) tail ;;
  let! head := gets heap_head in
  if head =? 0 then
    modify (set_heap_head block) ;; modify (set_heap_tail block)
  else
    let! tail := gets heap_tail in
    st (b_next tail) block ;;
    modify (set_heap_tail block).

Definition HeapGrow (min_payload : Z) : HM bool :=
  let wanted := align_up (w32 (min_payload + HDR + MIN_PAYLOAD)) PAGE_SIZE in
  let pages := wanted / PAGE_SIZE in
  let pages := if pages <? HEAP_GROW_MIN_PAGES then HEAP_GROW_MIN_PAGES else pages in
  let! heap_pa := on_w (PmmAllocFramesContig_ pages) in
  if heap_pa =? 0 then ret false else
  let heap_va := PA_TO_VA heap_pa in
  let block := heap_va in
  st (b_size block) (align_down (w32 (pages * PAGE_SIZE - HDR)) ALIGNMENT) ;;
  st (b_state block) KBLOCK_FREE ;;
  st (b_next block) 0 ;;
  st (b_prev block) 0 ;;
  HeapAppendBlk block ;;
  let seg_end_pa := w32 (heap_pa + pages * PAGE_SIZE) in
  let seg_end_va := w32 (heap_va + pages * PAGE_SIZE) in
  let! start := gets heap_start_pa in
  when ((start =? 0) || (heap_pa <? start)) (modify (set_heap_start heap_pa heap_va)) ;;
  let! end_ := gets heap_end_pa in
  when (end_ <? seg_end_pa) (modify (set_heap_end seg_end_pa seg_end_va)) ;;
  ret true.

Definition HeapMerge (block : Z) : HM unit :=
  let! next := ld (b_next block) in
  if next =? 0 then ret tt else
  let! s := ld (b_state next) in
  if negb (s =? KBLOCK_FREE) then ret tt else
  let! size_ := ld (b_size block) in
  if negb (w32 (block + HDR + size_) =? next) then ret tt else
  let! nsize := ld (b_size next) in
  st (b_size block) (w32 (size_ + w32 (HDR + nsize))) ;;
  let! nnext := ld (b_next next) in
  st (b_next block) nnext ;;
  if negb (nnext =? 0) then st (b_prev nnext) block else modify (set_heap_tail block).

(** The block [current_block] is taken for [req] bytes, and split if enough is left. *)
Definition take_block (current_block req : Z) : HM Z :=
  let! size_ := ld (b_size current_block) in
  let leftover := w32 (size_ - req) in
  when (HDR + MIN_PAYLOAD + (ALIGNMENT - 1) <=? leftover)
    (let new_block := w32 (current_block + HDR + req) in
     st (b_size new_block) (align_down (w32 (leftover - HDR)) ALIGNMENT) ;;
     st (b_state new_block) KBLOCK_FREE ;;
     let! next := ld (b_next current_block) in
     st (b_next new_block) next ;;
     st (b_prev new_block) current_block ;;
     let! next := ld (b_next current_block) in
     (if negb (next =? 0) then st (b_prev next) new_block else modify (set_heap_tail new_block)) ;;
     st (b_next current_block) new_block ;;
     st (b_size current_block) req) ;;
  st (b_state current_block) KBLOCK_ALLOCATED ;;
  ret (w32 (current_block + HDR)).

(** The inner loop of [KMalloc]: the first free block from [current_block] on that holds
    [req] bytes; the fuel bounds the length of the list. *)
Fixpoint find_block (n : nat) (current_block req : Z) : HM (option Z) :=
  if current_block =? 0 then ret None else
  match n with
  | O => diverge
  | S n' =>
      let! s := ld (b_state current_block) in
      let! size_ := ld (b_size current_block) in
      if negb (s =? KBLOCK_FREE) || (size_ <? req) then
        let! next := ld (b_next current_block) in find_block n' next req
      else ret (Some current_block)
  end.

(** Blocks have different addresses, all multiples of [HDR] between the bounds of the heap,
    so there are at most this many. *)
Definition heap_bound (h : hst W) : nat := Z.to_nat ((heap_end_va h - heap_start_va h) / HDR).

Fixpoint malloc_pass (pass : nat) (req : Z) : HM Z :=
  match pass with
  | O => ret 0
  | S pass' =>
      let! head := gets heap_head in
      let! fuel := gets heap_bound in
      let! found := find_block fuel head req in
      match found with
      | Some b => take_block b req
      | None =>
          let! ok := HeapGrow req in
          if negb ok then ret 0 else malloc_pass pass' req
      end
  end.
Definition KMalloc (size_ : Z) : HM Z :=
  if size_ =? 0 then ret 0 else malloc_pass 2 (align_up size_ ALIGNMENT).

(** [memset(p, 0, size)], by words. *)
Definition zero_words (a n : Z) (f : Z → Z) : Z → Z := λ x, if (a <=? x) && (x <? a + n) then 0 else f x.
Definition KZAlloc (size_ : Z) : HM Z :=
  let! p := KMalloc size_ in
  when (negb (p =? 0)) (modify (λ h, set_h_mem (zero_words p size_ (h_mem h)) h)) ;;
  ret p.
Definition KCalloc (nmemb size_ : Z) : HM Z :=
  if negb (nmemb =? 0) && ((2 ^ 32 - 1) / nmemb <? size_) then ret 0 else KZAlloc (w32 (nmemb * size_)).

Definition KFree (ptr : Z) : HM unit :=
  if ptr =? 0 then ret tt else
  if negb (ptr mod ALIGNMENT =? 0) then ret tt else
  let! start := gets heap_start_va in
  let! end_ := gets heap_end_va in
  if (ptr <? w32 (start + HDR)) || (end_ <=? ptr) then ret tt else
  let header := w32 (ptr - HDR) in
  let! s := ld (b_state header) in
  if s =? KBLOCK_FREE then ret tt else
  if negb (s =? KBLOCK_ALLOCATED) then ret tt else
  st (b_state header) KBLOCK_FREE ;;
  HeapMerge header ;;
  let! prev := ld (b_prev header) in
  if negb (prev =? 0) then
    let! ps := ld (b_state prev) in
    when (ps =? KBLOCK_FREE) (HeapMerge prev)
  else ret tt.

Definition KHeapInit : HM unit :=
  modify (set_heap_head 0) ;;
  modify (set_heap_tail 0) ;;
  modify (set_heap_start 0 0) ;;
  modify (set_heap_end 0 0) ;;
  let! ok := HeapGrow (HEAP_INITIAL_SIZE - HDR) in
  if negb ok then panic else ret tt.

(** * Blocks as a list *)

(** A block: its header and [t_size] bytes of payload. *)
Record tile := mkTile { t_at : Z; t_size : Z; t_free : bool }.
Definition t_end (t : tile) : Z := t_at t + HDR + t_size t.
Definition state_of (free : bool) : Z := if free then KBLOCK_FREE else KBLOCK_ALLOCATED.

Lemma store_eq f a v : store f a v a = v.
Proof. unfold store. by rewrite Z.eqb_refl. Qed.
Lemma store_ne f a v x : x ≠ a → store f a v x = f x.
Proof. intros Hx. unfold store. by rewrite (proj2 (Z.eqb_neq _ _) Hx). Qed.

Definition node (m : Z → Z) (t : tile) (prev next : Z) : Prop :=
  m (b_size (t_at t)) = t_size t ∧ m (b_next (t_at t)) = next ∧ m (b_prev (t_at t)) = prev ∧ m (b_state (t_at t)) = state_of (t_free t).
Definition first (ts : list tile) (next : Z) : Z := match ts with [] => next | t :: _ => t_at t end.
Definition final (prev : Z) (ts : list tile) : Z := match last ts with None => prev | Some t => t_at t end.
(** The headers of [ts] are linked, from [prev] before them to [next] after them. *)
Fixpoint linked (m : Z → Z) (prev : Z) (ts : list tile) (next : Z) : Prop :=
  match ts with [] => True | t :: ts' => node m t prev (first ts' next) ∧ linked m (t_at t) ts' next end.

Lemma first_app l l' n : first (l ++ l') n = first l (first l' n).
Proof. by destruct l. Qed.
Lemma final_cons p t l : final p (t :: l) = final (t_at t) l.
Proof. unfold final. rewrite last_cons. by destruct (last l). Qed.
Lemma final_app p l l' : final p (l ++ l') = final (final p l) l'.
Proof. revert p. induction l as [|t l IH]; intros p; [done|]. simpl. by rewrite !final_cons, IH. Qed.
Lemma linked_app m p l l' n : linked m p (l ++ l') n ↔ linked m p l (first l' n) ∧ linked m (final p l) l' n.
Proof.
  revert p. induction l as [|t l IH]; intros p; simpl; [tauto|]. rewrite IH, first_app, final_cons. tauto.
Qed.
Lemma linked_frame m m' p l n :
  (∀ t x, t ∈ l → t_at t ≤ x < t_at t + HDR → m' x = m x) → linked m p l n → linked m' p l n.
Proof.
  revert p. induction l as [|t l IH]; intros p Hf; [done|]. intros [Hn Hl]. split; [|apply IH; [|done]; intros u x Hu; apply Hf; by right].
  assert (∀ x, t_at t ≤ x < t_at t + HDR → m' x = m x) as Hx by (intros x; apply Hf; by left).
  unfold node, b_size, b_next, b_prev, b_state in *. unfold HDR in Hx. by rewrite !Hx by lia.
Qed.

Lemma wp_ld a Q h : Q (h_mem h a) h → wp (ld a) Q h.
Proof. done. Qed.
Lemma wp_st a v Q h : Q tt (set_h_mem (store (h_mem h) a v) h) → wp (st a v) Q h.
Proof. done. Qed.
Lemma wp_on_w {A} (m : M W A) Q h : wp m (λ a w, Q a (set_h_w w h)) (h_w h) → wp (on_w m) Q h.
Proof. unfold wp, on_w. by destruct (m (h_w h)) as [[]| |]. Qed.
End heap.

Lemma align16 x : x mod 16 = 0 → align_down x ALIGNMENT = x.
Proof.
  intros Hx. unfold ALIGNMENT. change 16 with (2 ^ 4) in *. rewrite align_down_spec by lia. change (2 ^ 4) with 16 in *. Z.div_mod_to_equations. lia.
Qed.

(** Reads of a memory after writes at known addresses. *)
Ltac mem :=
  unfold node, b_size, b_next, b_prev, b_state in *;
  repeat first [rewrite store_eq | rewrite store_ne by (unfold HDR in *; lia)].

(** [heap_step] runs one access. *)
Ltac heap_step := first [wp_step | apply wp_ld; cbv beta | apply wp_st; cbv beta].

Section heap_laws.
Context {W : Type} `{FrameLaws W} (KERNEL_VA_OFFSET : Z).
#[local] Notation OFF := KERNEL_VA_OFFSET.
#[local] Notation hst := (hst W).

(** * Invariant *)

(** The physical frame of a virtual address of the direct map. *)
Definition frame_of (x : Z) : Z := x - x mod PAGE_SIZE - OFF.
Definition apart (t u : tile) : Prop := t_end t ≤ t_at u ∨ t_end u ≤ t_at t.
Record tile_ok (h : hst) (t : tile) : Prop := {
  to_at : t_at t mod ALIGNMENT = 0;
  to_size : t_size t mod ALIGNMENT = 0;
  to_min : MIN_PAYLOAD ≤ t_size t;
  to_lo : heap_start_va h ≤ t_at t;
  to_hi : t_end t ≤ heap_end_va h;
  to_owned x : t_at t ≤ x < t_end t → frame_owned (h_w h) (frame_of x)
}.
Record heap_ok (ts : list tile) (h : hst) : Prop := {
  ho_w : frames_ok (h_w h);
  ho_map : frame_limit (h_w h) + OFF < 2 ^ 32 ∧ 0 ≤ OFF ∧ OFF mod PAGE_SIZE = 0;
  ho_linked : linked (h_mem h) 0 ts 0;
  ho_head : heap_head h = first ts 0;
  ho_tail : heap_tail h = final 0 ts;
  ho_tile : Forall (tile_ok h) ts;
  ho_apart : StronglySorted apart ts;
  ho_start : heap_start_pa h = 0 ∧ heap_start_va h = 0 ∧ ts = [] ∨ 0 < heap_start_pa h ∧ heap_start_va h = heap_start_pa h + OFF;
  ho_end : heap_end_pa h = 0 ∧ heap_end_va h = 0 ∨ 0 < heap_end_pa h ∧ heap_end_va h = heap_end_pa h + OFF;
  ho_end_max : heap_end_va h < 2 ^ 32
}.

Lemma apart_sym t u : apart t u → apart u t.
Proof. unfold apart. tauto. Qed.
Lemma apart_at l1 t l2 u : StronglySorted apart (l1 ++ t :: l2) → u ∈ l1 ++ l2 → apart t u.
Proof.
  intros (H12 & _ & Hl)%StronglySorted_app [Hu|Hu]%elem_of_app; [apply apart_sym, H12; [done|by left]|].
  apply StronglySorted_cons in Hl as [Hf _]. by apply (proj1 (Forall_forall _ _) Hf).
Qed.
Lemma apart_or ts u v : StronglySorted apart ts → u ∈ ts → v ∈ ts → u = v ∨ apart u v.
Proof.
  intros Hs. induction Hs as [|t l Hs IH Ht]; [by intros ?%elem_of_nil|]. rewrite Forall_forall in Ht.
  intros [->|Hu]%elem_of_cons [->|Hv]%elem_of_cons; [by left|right; by apply Ht|right; by apply apart_sym, Ht|auto].
Qed.
(** Other blocks lie outside of a range. *)
Definition around (lo hi : Z) (l : list tile) : Prop := ∀ u, u ∈ l → hi ≤ t_at u ∨ t_end u ≤ lo.

Lemma apart_replace l1 old l2 new lo hi :
  StronglySorted apart (l1 ++ old ++ l2) → around lo hi (l1 ++ l2) → StronglySorted apart new →
  (∀ u, u ∈ new → lo ≤ t_at u ∧ t_end u ≤ hi) → StronglySorted apart (l1 ++ new ++ l2).
Proof.
  intros Hs Ha Hn Hin. pose proof Hs as (H12 & H1 & H2)%StronglySorted_app. apply StronglySorted_app in H2 as (_ & _ & H3).
  assert (∀ u x, u ∈ new → x ∈ l1 ++ l2 → apart u x) as Hnew.
  { intros u x Hu Hx. specialize (Ha x Hx). specialize (Hin u Hu). unfold apart in *. lia. }
  apply StronglySorted_app_2; [|done|].
  - intros x y Hx [Hy|Hy]%elem_of_app; [apply apart_sym, Hnew; [done|]; apply elem_of_app; by left|].
    apply H12; [done|]. apply elem_of_app. by right.
  - apply StronglySorted_app_2; [|done|done]. intros x y Hx Hy. apply Hnew; [done|]. apply elem_of_app. by right.
Qed.

(** The block [t] of the list, in its surroundings. *)
Section at_block.
Context (l1 : list tile) (t : tile) (l2 : list tile) (h : hst) (Hok : heap_ok (l1 ++ t :: l2) h).

Lemma block_ok : tile_ok h t.
Proof. apply (proj1 (Forall_forall _ _) (ho_tile _ _ Hok)). apply elem_of_app. right. by left. Qed.
Lemma block_range : 0 < t_at t ∧ t_end t < 2 ^ 32.
Proof.
  pose proof block_ok as [_ _ _ Hlo Hhi _]. pose proof (ho_end_max _ _ Hok). pose proof (ho_map _ _ Hok).
  destruct (ho_start _ _ Hok) as [(_ & _ & Hnil)|[? ?]]; [by destruct l1|]. lia.
Qed.
Lemma block_node : node (h_mem h) t (final 0 l1) (first l2 0).
Proof. pose proof (ho_linked _ _ Hok) as Hl. apply linked_app in Hl as [_ [Hn _]]. done. Qed.
Lemma block_others u : u ∈ l1 ++ l2 → tile_ok h u ∧ apart t u.
Proof.
  intros Hu. split; [|apply (apart_at l1 t l2); [apply Hok|done]].
  apply (proj1 (Forall_forall _ _) (ho_tile _ _ Hok)). rewrite elem_of_app in *. destruct Hu; [by left|right; by right].
Qed.
Lemma block_around : around (t_at t) (t_end t) (l1 ++ l2).
Proof. intros u Hu. destruct (block_others u Hu) as [_ Ha]. unfold apart in Ha. lia. Qed.
(** Headers of other blocks lie outside [t]. *)
Lemma block_outside u x : u ∈ l1 ++ l2 → t_at u ≤ x < t_at u + HDR → x < t_at t ∨ t_end t ≤ x.
Proof.
  intros Hu Hx. destruct (block_others u Hu) as [Hok' Ha]. pose proof (to_min _ _ Hok'). unfold apart, t_end, MIN_PAYLOAD, ALIGNMENT, HDR in *. lia.
Qed.
Lemma block_linked : linked (h_mem h) 0 l1 (t_at t) ∧ linked (h_mem h) (t_at t) l2 0.
Proof. pose proof (ho_linked _ _ Hok) as Hl. apply linked_app in Hl as [H1 [_ H2]]. done. Qed.
End at_block.

Definition same_payloads (ts : list tile) (m m' : Z → Z) : Prop :=
  ∀ u x, u ∈ ts → t_free u = false → t_at u + HDR ≤ x < t_end u → m' x = m x.

(** The blocks [new] at [lo]: the headers before them stay, and after them only
    the link back changes. *)
Lemma relink m m' l1 lo l2 new p :
  linked m 0 l1 lo → linked m p l2 0 → new ≠ [] → first new 0 = lo →
  StronglySorted apart l2 → Forall (λ u, MIN_PAYLOAD ≤ t_size u) l2 →
  (∀ u x, u ∈ l1 → t_at u ≤ x < t_at u + HDR → m' x = m x) →
  (∀ u x, u ∈ l2 → t_at u ≤ x < t_at u + HDR → x ≠ b_prev (first l2 0) → m' x = m x) →
  (l2 ≠ [] → m' (b_prev (first l2 0)) = final 0 new) →
  linked m' (final 0 l1) new (first l2 0) →
  linked m' 0 (l1 ++ new ++ l2) 0.
Proof.
  intros H1 H2 Hne Hfirst Hs Hmin Hf1 Hf2 Hprev Hnew. rewrite linked_app, linked_app, first_app.
  assert (final (final 0 l1) new = final 0 new) as -> by (unfold final; destruct (last new) eqn:E; [done|by apply last_None in E]).
  replace (first new (first l2 0)) with lo by (by destruct new). split; [by eapply linked_frame|]. split; [done|].
  destruct l2 as [|v l2]; [done|]. destruct H2 as [(Hv1 & Hv2 & Hv3 & Hv4) Hl2]. simpl in Hf2, Hprev, Hmin.
  apply StronglySorted_cons in Hs as [Hav _]. apply Forall_cons in Hmin as [Hmv Hmin]. rewrite Forall_forall in Hav, Hmin.
  assert (∀ x, t_at v ≤ x < t_at v + HDR → x ≠ b_prev (t_at v) → m' x = m x) as Hv by (intros x; apply Hf2; by left).
  split.
  - unfold node. rewrite Hprev by done. split_and!; [rewrite Hv|rewrite Hv|done|rewrite Hv];
      try (unfold b_size, b_next, b_prev, b_state, HDR in *; lia); done.
  - eapply linked_frame; [|done]. intros u x Hu Hx. apply (Hf2 u); [by right|done|].
    specialize (Hav u Hu). specialize (Hmin u Hu). simpl in Hmin. unfold apart, t_end, b_prev, MIN_PAYLOAD, ALIGNMENT, HDR in *. lia.
Qed.

(** What a block becomes when it is taken for [req] bytes. *)
Definition taken (t : tile) (req : Z) : list tile :=
  if 48 <=? t_size t - req
  then [mkTile (t_at t) req false; mkTile (t_at t + HDR + req) (t_size t - req - HDR) true]
  else [mkTile (t_at t) (t_size t) false].

Lemma taken_inside t req u : 0 ≤ req ≤ t_size t → u ∈ taken t req → t_at t ≤ t_at u ∧ t_end u ≤ t_end t.
Proof.
  unfold taken, t_end, HDR. intros Hr. case_if E; intros Hu; repeat (apply elem_of_cons in Hu as [->|Hu]; [simpl; lia|]); by apply elem_of_nil in Hu.
Qed.

Lemma taken_ok h t req :
  tile_ok h t → 16 ≤ req ≤ t_size t → req mod 16 = 0 → Forall (tile_ok h) (taken t req) ∧ StronglySorted apart (taken t req).
Proof.
  intros [Ha Hz Hm Hlo Hhi Hown] Hr Hrm. unfold taken, t_end, HDR, MIN_PAYLOAD, ALIGNMENT in *. case_if E.
  - split; [|repeat constructor; unfold t_end, HDR; simpl; lia].
    repeat apply Forall_cons_2; [| |apply Forall_nil_2]; (split; unfold t_end, HDR, MIN_PAYLOAD, ALIGNMENT; simpl; try lia; try (Z.div_mod_to_equations; lia)).
    + intros x Hx. apply Hown. lia.
    + intros x Hx. apply Hown. lia.
  - split; [|repeat constructor]. apply Forall_cons_2; [|apply Forall_nil_2]. by split.
Qed.

(** Replacing the blocks [old], which fill the range from [lo] to [hi], by [new]. *)
Section edit.
Context (l1 old l2 new : list tile) (lo hi : Z) (h : hst) (m' : Z → Z).
Context (Hok : heap_ok (l1 ++ old ++ l2) h) (Hold : old ≠ []) (Hlo : first old 0 = lo) (Hout : around lo hi (l1 ++ l2)).
Context (Hne : new ≠ []) (Hf : first new 0 = lo) (Hn : Forall (tile_ok h) new) (Hs : StronglySorted apart new).
Context (Hin : ∀ u, u ∈ new → lo ≤ t_at u ∧ t_end u ≤ hi).

Lemma heap_ok_replace :
  linked m' 0 (l1 ++ new ++ l2) 0 →
  heap_ok (l1 ++ new ++ l2) (set_heap_tail (final 0 (l1 ++ new ++ l2)) (set_h_mem m' h)).
Proof.
  pose proof Hok as [Hw Hmap Hl Hh Ht Hto Hap Hst He Hem]. intros Hl'. split; simpl; try done.
  - rewrite Hh, !first_app. destruct l1; [|done]. simpl. destruct new, old; simpl in *; congruence.
  - rewrite !Forall_app in Hto. destruct Hto as (Ht1 & _ & Ht2).
    assert (∀ l, Forall (tile_ok h) l → Forall (tile_ok (set_heap_tail (final 0 (l1 ++ new ++ l2)) (set_h_mem m' h))) l) as Hc.
    { intros l Hl0. eapply Forall_impl; [exact Hl0|]. intros u []. by split. }
    rewrite !Forall_app. auto.
  - by eapply apart_replace.
  - destruct Hst as [(_ & _ & Hnil)|Hst]; [|by right]. apply app_nil in Hnil as [_ Hnil]. by apply app_nil in Hnil as [Hnil _].
Qed.

Lemma others_in u : u ∈ l1 ++ l2 → u ∈ l1 ++ old ++ l2.
Proof. rewrite !elem_of_app. tauto. Qed.
Lemma others_min u : u ∈ l1 ++ l2 → MIN_PAYLOAD ≤ t_size u.
Proof. intros Hu%others_in. apply (to_min h). by apply (proj1 (Forall_forall _ _) (ho_tile _ _ Hok)). Qed.

(** Memory changes in the range and in the link back to it only. *)
Lemma heap_ok_edit :
  (∀ x, x < lo ∨ hi ≤ x → m' x = h_mem h x ∨ l2 ≠ [] ∧ x = b_prev (first l2 0)) →
  (l2 ≠ [] → m' (b_prev (first l2 0)) = final 0 new) → linked m' (final 0 l1) new (first l2 0) →
  heap_ok (l1 ++ new ++ l2) (set_heap_tail (final 0 (l1 ++ new ++ l2)) (set_h_mem m' h)) ∧
  same_payloads (l1 ++ l2) (h_mem h) m'.
Proof.
  intros Hm Hprev Hnew. pose proof (ho_linked _ _ Hok) as L. rewrite !linked_app, first_app in L. destruct L as (L1 & _ & L2).
  replace (first old (first l2 0)) with lo in L1 by (by destruct old).
  pose proof (ho_apart _ _ Hok) as (H12 & _ & (_ & _ & H2)%StronglySorted_app)%StronglySorted_app.
  assert (∀ u v, u ∈ l1 ++ l2 → v ∈ l2 → u = v ∨ apart u v) as Hor.
  { intros u v Hu Hv. apply (apart_or _ u v (ho_apart _ _ Hok)); apply others_in; [done|]. apply elem_of_app. by right. }
  pose proof others_min as Hmin.
  assert (l2 ≠ [] → ∃ v, v ∈ l2 ∧ first l2 0 = t_at v) as Hv by (destruct l2 as [|v l2']; [done|]; intros _; exists v; by repeat constructor).
  assert (∀ u x, u ∈ l1 ++ l2 → t_at u ≤ x < t_end u → (x = b_prev (first l2 0) → l2 ≠ [] → False) → m' x = h_mem h x) as Hsame.
  { intros u x Hu Hx Hnp. specialize (Hout u Hu). destruct (Hm x) as [?|[? ->]]; [lia|done|by destruct Hnp]. }
  unfold MIN_PAYLOAD, ALIGNMENT, t_end, b_prev, HDR in *.
  split.
  - apply heap_ok_replace. eapply relink; [exact L1|exact L2|done|done|done|..|done|done].
    + apply Forall_forall. intros u Hu. apply Hmin. apply elem_of_app. by right.
    + intros u x Hu Hx. pose proof (Hmin u ltac:(apply elem_of_app; by left)). apply (Hsame u); [apply elem_of_app; by left|unfold HDR in *; lia|].
      intros -> Hl2. destruct (Hv Hl2) as (v & Hvin & Hvf). rewrite Hvf in Hx. pose proof (Hmin v ltac:(apply elem_of_app; by right)).
      specialize (H12 u v Hu ltac:(apply elem_of_app; by right)). unfold apart, t_end, HDR in *. lia.
    + intros u x Hu Hx Hne'. pose proof (Hmin u ltac:(apply elem_of_app; by right)). apply (Hsame u); [apply elem_of_app; by right|unfold HDR in *; lia|done].
  - intros u x Hu _ Hx. apply (Hsame u); [done|unfold t_end, HDR in *; lia|]. intros -> Hl2. destruct (Hv Hl2) as (v & Hvin & Hvf).
    rewrite Hvf in Hx. pose proof (Hmin v ltac:(apply elem_of_app; by right)).
    destruct (Hor u v Hu Hvin) as [->|Huv]; unfold apart, t_end, HDR in *; lia.
Qed.
End edit.

Lemma set_tail_id (h : hst) m : set_heap_tail (heap_tail h) (set_h_mem m h) = set_h_mem m h.
Proof. by destruct h. Qed.
Lemma set_mem_mem (h : hst) m m' : set_h_mem m' (set_h_mem m h) = set_h_mem m' h.
Proof. done. Qed.
Lemma set_mem_tail (h : hst) m x : set_h_mem m (set_heap_tail x h) = set_heap_tail x (set_h_mem m h).
Proof. done. Qed.
Lemma final_ne p p' l : l ≠ [] → final p l = final p' l.
Proof. intros Hl. unfold final. destruct (last l) eqn:E; [done|]. by apply last_None in E. Qed.

Lemma first_zero l1 t l2 h : heap_ok (l1 ++ t :: l2) h → first l2 0 = 0 ↔ l2 = [].
Proof.
  intros Hok. destruct l2 as [|v l2]; [done|]. split; [|done]. simpl. intros Hz.
  change (l1 ++ t :: v :: l2) with (l1 ++ [t] ++ v :: l2) in Hok. rewrite app_assoc in Hok. destruct (block_range _ v l2 h Hok). lia.
Qed.

(** The link back from the block after [t] lies outside [t]. *)
Lemma next_back l1 t l2 h :
  heap_ok (l1 ++ t :: l2) h → l2 ≠ [] → h_mem h (b_prev (first l2 0)) = t_at t ∧ (b_prev (first l2 0) < t_at t ∨ t_end t ≤ b_prev (first l2 0)).
Proof.
  intros Hok Hl2. destruct (block_linked l1 t l2 h Hok) as [_ L2]. destruct l2 as [|v l2]; [done|]. simpl. destruct L2 as [(_ & _ & Hp & _) _].
  split; [done|]. apply (block_outside l1 t (v :: l2) h Hok v); [apply elem_of_app; right; by left|]. unfold b_prev, HDR. lia.
Qed.

Lemma wp_take_block l1 t l2 h req Q :
  heap_ok (l1 ++ t :: l2) h → t_free t = true → 16 ≤ req ≤ t_size t → req mod 16 = 0 →
  (∀ h', heap_ok (l1 ++ taken t req ++ l2) h' → same_payloads (l1 ++ l2) (h_mem h) (h_mem h') → h_w h' = h_w h → Q (t_at t + HDR) h') →
  wp (take_block (t_at t) req) Q h.
Proof.
  intros Hok Hfree Hr Hrm HQ. destruct (block_node l1 t l2 h Hok) as (N1 & N2 & N3 & N4). destruct (block_range l1 t l2 h Hok) as [Hpos Hmax].
  pose proof (block_ok l1 t l2 h Hok) as Hto. pose proof (to_size _ _ Hto) as Hzm.
  destruct (taken_ok h t req Hto Hr Hrm) as [Htk Hsk]. pose proof (λ u, taken_inside t req u ltac:(lia)) as Hti.
  assert (first (taken t req) 0 = t_at t ∧ taken t req ≠ []) as [Hft Htne] by (unfold taken; by case_if E).
  pose proof (λ m', heap_ok_edit l1 [t] l2 (taken t req) (t_at t) (t_end t) h m' Hok ltac:(done) eq_refl (block_around l1 t l2 h Hok) Htne Hft Htk Hsk Hti) as Hedit.
  unfold t_end, ALIGNMENT in *. unfold take_block. wp_step. apply wp_ld.
  rewrite N1, (w32_small (t_size t - req)), (w32_small (t_at t + HDR)) by (unfold HDR in *; lia).
  change (HDR + MIN_PAYLOAD + (ALIGNMENT - 1)) with 47.
  assert ((47 <=? t_size t - req) = (48 <=? t_size t - req)) as -> by (apply eq_bool_prop_intro; rewrite !Is_true_true, !Z.leb_le; Z.div_mod_to_equations; lia).
  unfold taken in *. wp_step. apply wp_when; intros E; rewrite E in *; b2p.
  - rewrite (w32_small (t_at t + HDR + req)), (w32_small (t_size t - req - HDR)), align16 by (unfold HDR in *; (lia || Z.div_mod_to_equations; lia)).
    set (nb := t_at t + HDR + req) in *. repeat heap_step. simpl. assert (nb + HDR ≤ t_at t + HDR + t_size t) as Hnb by (unfold nb, HDR; lia).
    assert (t_at t + HDR + 16 ≤ nb) as Hnb' by (unfold nb; lia). mem. rewrite N2, !set_mem_mem.
    set (m1 := store (store (store (store (h_mem h) nb (t_size t - req - HDR)) (nb + 12) KBLOCK_FREE) (nb + 4) (first l2 0)) (nb + 8) (t_at t)).
    set (m2 := λ m, store (store (store m (t_at t + 4) nb) (t_at t) req) (t_at t + 12) KBLOCK_ALLOCATED).
    destruct (first l2 0 =? 0) eqn:Ef; b2p; cbn [negb].
    + apply (first_zero l1 t l2 h Hok) in Ef. repeat heap_step. simpl. rewrite !set_mem_tail, !set_mem_mem. fold (m2 m1). subst l2.
      destruct (Hedit (m2 m1)) as [Hok' Hsame].
      * intros x Hx. left. unfold m2, m1. mem. done.
      * done.
      * unfold m2, m1. simpl. unfold node. simpl. split_and!; mem; done.
      * rewrite !final_app in Hok'. by apply HQ.
    + repeat heap_step. simpl. rewrite !set_mem_mem. fold (m2 (store m1 (first l2 0 + 8) nb)).
      assert (l2 ≠ []) as Hl2 by (by intros ->). destruct (next_back l1 t l2 h Hok Hl2) as [Hb Hx]. unfold b_prev, t_end in *.
      destruct (Hedit (m2 (store m1 (first l2 0 + 8) nb))) as [Hok' Hsame].
      * intros x Hx'. unfold m2, m1. destruct (decide (x = first l2 0 + 8)) as [->|Hne]; [by right|left]. mem. done.
      * intros _. unfold m2, m1. mem. done.
      * unfold m2, m1. simpl. unfold node. simpl. split_and!; mem; done.
      * rewrite <- set_tail_id. rewrite !final_app in Hok'. rewrite (ho_tail _ _ Hok), final_app, final_cons, (final_ne _ nb) by done. by apply HQ.
  - do 3 heap_step. rewrite <- set_tail_id. rewrite (ho_tail _ _ Hok), final_app, final_cons.
    destruct (Hedit (store (h_mem h) (b_state (t_at t)) KBLOCK_ALLOCATED)) as [Hok' Hsame].
    + intros x Hx. left. mem. done.
    + intros Hl2. destruct (next_back l1 t l2 h Hok Hl2) as [Hb Hx]. rewrite store_ne; [done|]. unfold b_state, t_end, HDR in *. lia.
    + simpl. unfold node. simpl. split_and!; mem; done.
    + rewrite !final_app in Hok'. by apply HQ.
Qed.

(** [HeapMerge] joins a block with a free one right after it. *)
Definition joined (t n : tile) : tile := mkTile (t_at t) (t_size t + HDR + t_size n) (t_free t).

Lemma joined_ok h t n : tile_ok h t → tile_ok h n → t_end t = t_at n → tile_ok h (joined t n).
Proof.
  intros [A1 A2 A3 A4 A5 A6] [B1 B2 B3 B4 B5 B6] He. unfold joined, t_end, HDR, MIN_PAYLOAD, ALIGNMENT in *. split; unfold t_end, HDR, MIN_PAYLOAD, ALIGNMENT; simpl; try lia.
  - Z.div_mod_to_equations. lia.
  - intros x Hx. destruct (decide (x < t_at n)); [apply A6|apply B6]; lia.
Qed.
Lemma joined_around l1 t n l3 h :
  heap_ok (l1 ++ t :: n :: l3) h → t_end t = t_at n → around (t_at t) (t_end n) (l1 ++ l3).
Proof.
  intros Hok He u Hu. assert (heap_ok ((l1 ++ [t]) ++ n :: l3) h) as Hokn by (by rewrite <- app_assoc).
  destruct (block_others l1 t (n :: l3) h Hok u) as [Hu' Ha]; [apply elem_of_app in Hu; rewrite elem_of_app, elem_of_cons; tauto|].
  destruct (block_others _ n l3 h Hokn u) as [_ Hb]; [apply elem_of_app in Hu; rewrite !elem_of_app; tauto|].
  pose proof (to_min _ _ Hu'). unfold apart, t_end, MIN_PAYLOAD, ALIGNMENT, HDR in *. lia.
Qed.

Lemma wp_HeapMerge l1 t l2 h Q :
  heap_ok (l1 ++ t :: l2) h →
  ((∀ n l3, l2 = n :: l3 → t_free n = true → t_end t ≠ t_at n) → Q tt h) →
  (∀ n l3 h', l2 = n :: l3 → t_free n = true → t_end t = t_at n → heap_ok (l1 ++ joined t n :: l3) h' →
     same_payloads (l1 ++ l3) (h_mem h) (h_mem h') → (∀ x, t_at t + HDR ≤ x < t_end t → h_mem h' x = h_mem h x) → h_w h' = h_w h → Q tt h') →
  wp (HeapMerge (t_at t)) Q h.
Proof.
  intros Hok Hno Hyes. destruct (block_node l1 t l2 h Hok) as (N1 & N2 & N3 & N4). destruct (block_range l1 t l2 h Hok) as [Hpos Hmax].
  pose proof (block_ok l1 t l2 h Hok) as Hto. pose proof (to_min _ _ Hto) as Htm. unfold MIN_PAYLOAD, ALIGNMENT in Htm.
  unfold HeapMerge. repeat heap_step. rewrite N2. destruct l2 as [|n l3].
  { simpl. wp_step. apply Hno. intros n l3 [=]. }
  assert (heap_ok ((l1 ++ [t]) ++ n :: l3) h) as Hokn by (by rewrite <- app_assoc).
  destruct (block_range _ n l3 h Hokn) as [Hnpos Hnmax]. destruct (block_node _ n l3 h Hokn) as (M1 & M2 & M3 & M4).
  pose proof (block_ok _ n l3 h Hokn) as Hno'. pose proof (to_min _ _ Hno') as Hnm. unfold MIN_PAYLOAD, ALIGNMENT in Hnm.
  simpl. rewrite (proj2 (Z.eqb_neq (t_at n) 0)) by lia. repeat heap_step. rewrite M4. destruct (t_free n) eqn:En; simpl.
  2: { wp_step. apply Hno. intros n' l3' [= <- <-]. congruence. }
  repeat heap_step. rewrite N1. fold (t_end t). rewrite w32_small by (unfold t_end, HDR in *; lia).
  case_if Ee; b2p; [wp_step; apply Hno; by intros n' l3' [= <- <-]|].
  repeat heap_step. rewrite M1, !(w32_small (HDR + t_size n)), (w32_small (t_size t + (HDR + t_size n))), Z.add_assoc by (unfold t_end, HDR in *; lia). cbn [h_mem set_h_mem].
  rewrite !(store_ne _ _ _ (b_next (t_at n))) by (unfold b_next, b_size, t_end, HDR in *; lia). rewrite M2, set_mem_mem.
  set (m1 := store (store (h_mem h) (b_size (t_at t)) (t_size t + HDR + t_size n)) (b_next (t_at t)) (first l3 0)).
  pose proof (λ m', heap_ok_edit l1 [t; n] l3 [joined t n] (t_at t) (t_end n) h m' Hok ltac:(done) eq_refl (joined_around _ _ _ _ _ Hok Ee) ltac:(done) eq_refl) as Hedit.
  assert (∀ m', (∀ x, x < t_at t ∨ t_end n ≤ x → m' x = h_mem h x ∨ l3 ≠ [] ∧ x = b_prev (first l3 0)) →
    (l3 ≠ [] → m' (b_prev (first l3 0)) = t_at t) → node m' (joined t n) (final 0 l1) (first l3 0) →
    (∀ x, t_at t + HDR ≤ x < t_end t → m' x = h_mem h x) → Q tt (set_heap_tail (final (t_at t) l3) (set_h_mem m' h))) as Hdone.
  { intros m' H1 H2 H3 H4. destruct (Hedit m') as [Hok' Hsame]; try done.
    - apply Forall_cons_2; [by apply joined_ok|apply Forall_nil_2].
    - repeat constructor.
    - intros u [->|?%elem_of_nil]%elem_of_cons; [|done]. unfold joined, t_end in *. simpl. lia.
    - rewrite !final_app in Hok'. by apply (Hyes n l3). }
  destruct (first l3 0 =? 0) eqn:Ef; b2p; cbn [negb]; heap_step.
  - apply (first_zero _ n l3 h Hokn) in Ef. subst l3. apply Hdone; unfold m1, t_end in *.
    + intros x Hx. left. mem. done.
    + done.
    + unfold node. simpl. split_and!; mem; done.
    + intros x Hx. mem. done.
  - assert (l3 ≠ []) as Hl3 by (by intros ->). destruct (next_back _ n l3 h Hokn Hl3) as [Hb Hx].
    rewrite set_mem_mem, <- set_tail_id, (ho_tail _ _ Hok), final_app, !final_cons, (final_ne _ (t_at t)) by done.
    assert (first l3 0 + HDR ≤ t_at t ∨ t_end n ≤ first l3 0) as Hfar.
    { destruct l3 as [|v l3]; [done|]. simpl. assert (v ∈ l1 ++ v :: l3) as Hv by (apply elem_of_app; right; by left).
      pose proof (joined_around _ _ _ _ _ Hok Ee v Hv). destruct (block_others _ n (v :: l3) h Hokn v) as [Hv' _]; [apply elem_of_app; right; by left|].
      pose proof (to_min _ _ Hv'). unfold t_end, MIN_PAYLOAD, ALIGNMENT, HDR in *. lia. }
    apply Hdone; unfold m1, t_end in *; simpl.
    + intros x Hx'. destruct (decide (x = b_prev (first l3 0))) as [->|Hne]; [by right|left]. mem. done.
    + intros _. mem. done.
    + unfold node. simpl. split_and!; mem; done.
    + intros x Hx'. mem. done.
Qed.

(** * The search *)

Lemma blocks_bound ts h : heap_ok ts h → (length ts ≤ heap_bound h)%nat.
Proof.
  intros Hok. set (n := (heap_end_va h - heap_start_va h) / HDR). set (f := λ t, (t_at t - heap_start_va h) / HDR).
  assert (∀ t, t ∈ ts → tile_ok h t) as Ht by (apply Forall_forall, Hok).
  assert (NoDup (f <$> ts)) as Hnd.
  { pose proof (ho_apart _ _ Hok) as Hs. clear Hok. induction Hs as [|t l Hs IH Ha]; [constructor|]. rewrite Forall_forall in Ha. simpl. constructor.
    - intros (u & Hu & Hin)%list_elem_of_fmap. specialize (Ha u Hin). pose proof (Ht t ltac:(by left)) as [A1 _ A3 _ _ _]. pose proof (Ht u ltac:(by right)) as [B1 _ B3 _ _ _].
      unfold f, apart, t_end, MIN_PAYLOAD, ALIGNMENT, HDR in *. Z.div_mod_to_equations. lia.
    - apply IH. intros u Hu. apply Ht. by right. }
  assert (f <$> ts ⊆+ seqZ 0 n) as Hsub.
  { apply NoDup_submseteq; [done|]. intros k (t & -> & Hin)%list_elem_of_fmap. apply elem_of_seqZ. destruct (Ht t Hin) as [A1 _ A3 A4 A5 _].
    unfold f, n, t_end, MIN_PAYLOAD, ALIGNMENT, HDR in *. Z.div_mod_to_equations. lia. }
  apply submseteq_length in Hsub. rewrite length_fmap, length_seqZ in Hsub. done.
Qed.

Definition fits (req : Z) (t : tile) : Prop := t_free t = true ∧ req ≤ t_size t.

Lemma wp_find_block req n : ∀ l1 l2 h Q,
  heap_ok (l1 ++ l2) h → (length l2 ≤ n)%nat →
  (∀ l3 t l4, l2 = l3 ++ t :: l4 → fits req t → Forall (λ u, ¬ fits req u) l3 → Q (Some (t_at t)) h) →
  (Forall (λ u, ¬ fits req u) l2 → Q None h) →
  wp (find_block n (first l2 0) req) Q h.
Proof.
  induction n as [|n IH]; intros l1 l2 h Q Hok Hn Hyes Hno; (destruct l2 as [|t l2]; [simpl; wp_step; by apply Hno|]); simpl in Hn; [lia|].
  destruct (block_range l1 t l2 h Hok) as [Hpos _]. destruct (block_node l1 t l2 h Hok) as (N1 & N2 & _ & N4).
  cbn [find_block first]. rewrite (proj2 (Z.eqb_neq (t_at t) 0)) by lia. repeat heap_step. rewrite N4, N1.
  assert (negb (state_of (t_free t) =? KBLOCK_FREE) = negb (t_free t)) as -> by (by destruct (t_free t)).
  case_if E.
  - repeat heap_step. rewrite N2. assert (¬ fits req t) as Hnf.
    { unfold fits. intros [Hf ?]. rewrite Hf in E. simpl in E. b2p. lia. }
    apply (IH (l1 ++ [t]) l2); [by rewrite <- app_assoc|lia|..].
    + intros l3 u l4 -> Hf H3. apply (Hyes (t :: l3) u l4); [done|done|by constructor].
    + intros Hf. apply Hno. by constructor.
  - wp_step. apply (Hyes [] t l2); [done| |constructor]. split; [done|lia].
Qed.

(** * Growing *)

Lemma heap_ok_w ts h w :
  heap_ok ts h → frames_ok w → frame_limit w = frame_limit (h_w h) → (∀ q, frame_owned (h_w h) q → frame_owned w q) → heap_ok ts (set_h_w w h).
Proof.
  intros [Hw Hmap Hl Hh Ht Hto Hap Hst He Hem] Hok Hlim Hown. split; simpl; try done; [by rewrite Hlim|].
  eapply Forall_impl; [exact Hto|]. intros u []. split; auto.
Qed.

Lemma linked_snoc m m' ts t :
  linked m 0 ts 0 → StronglySorted apart ts → Forall (λ u, MIN_PAYLOAD ≤ t_size u) ts →
  (∀ u x, u ∈ ts → t_at u ≤ x < t_at u + HDR → x ≠ b_next (final 0 ts) → m' x = m x) →
  (ts ≠ [] → m' (b_next (final 0 ts)) = t_at t) → node m' t (final 0 ts) 0 → linked m' 0 (ts ++ [t]) 0.
Proof.
  intros Hl Hs Hmin Hf Hn Ht. rewrite linked_app. split; [|by simpl]. destruct (decide (ts = [])) as [->|Hne]; [done|].
  destruct (exists_last Hne) as (l & z & ->). rewrite final_app, final_cons in *. simpl in *.
  apply linked_app in Hl as [L1 [(Z1 & Z2 & Z3 & Z4) _]]. apply StronglySorted_app in Hs as (Ha & _ & _).
  rewrite Forall_forall in Hmin. assert (∀ u x, u ∈ l ++ [z] → t_at u ≤ x < t_at u + HDR → x ≠ b_next (t_at z) → m' x = m x) as Hf' by exact Hf. clear Hf.
  specialize (Hn Hne). assert (z ∈ l ++ [z]) as Hz by (apply elem_of_app; right; by left).
  apply linked_app. split; [|split; [|done]].
  - eapply linked_frame; [|exact L1]. intros u x Hu Hx. apply (Hf' u); [apply elem_of_app; by left|done|]. specialize (Ha u z Hu ltac:(by left)).
    pose proof (Hmin u ltac:(apply elem_of_app; by left)). pose proof (Hmin z Hz). simpl in *. unfold apart, t_end, b_next, MIN_PAYLOAD, ALIGNMENT, HDR in *. lia.
  - unfold node. change (final 0 [z]) with (t_at z) in Hn. split_and!; [rewrite (Hf' z)|done|rewrite (Hf' z)|rewrite (Hf' z)];
      try done; unfold b_size, b_next, b_prev, b_state, HDR; lia.
Qed.

Lemma wp_HeapAppendBlk ts (h : hst) t Q :
  heap_head h = first ts 0 → heap_tail h = final 0 ts → (ts ≠ [] → first ts 0 ≠ 0) →
  (∀ h', h' = set_heap_tail (t_at t) (set_heap_head (first (ts ++ [t]) 0)
       (set_h_mem (let m' := store (store (h_mem h) (b_next (t_at t)) 0) (b_prev (t_at t)) (final 0 ts) in
                   match ts with [] => m' | _ => store m' (b_next (final 0 ts)) (t_at t) end) h)) → Q tt h') →
  wp (HeapAppendBlk (t_at t)) Q h.
Proof.
  intros Hh Ht Hnz HQ. unfold HeapAppendBlk. repeat heap_step. simpl. rewrite Hh, Ht. destruct ts as [|u ts].
  - simpl. repeat heap_step. by apply HQ.
  - simpl. rewrite (proj2 (Z.eqb_neq _ _)) by (by apply Hnz). repeat heap_step. apply HQ. simpl. destruct h. simpl in *. by subst.
Qed.

(** A block of fresh frames is apart from every block there is. *)
Lemma fresh_apart ts h pa n t w :
  heap_ok ts h → 0 < n → pa mod PAGE_SIZE = 0 → (∀ q, in_run pa n q → ¬ frame_owned (h_w h) q ∧ frame_owned w q) →
  t_at t = pa + OFF → t_end t = pa + OFF + n * PAGE_SIZE →
  (∀ u, u ∈ ts → apart t u) ∧ ∀ x, t_at t ≤ x < t_end t → frame_owned w (frame_of x).
Proof.
  intros Hok Hn Hm Hrun Ha He. destruct (ho_map _ _ Hok) as (_ & _ & Hom).
  assert (∀ x, t_at t ≤ x < t_end t → in_run pa n (frame_of x)) as Hin.
  { intros x Hx. rewrite Ha, He in Hx. unfold in_run, frame_of, PAGE_SIZE in *. Z.div_mod_to_equations. lia. }
  split; [|intros x Hx; by apply Hrun, Hin].
  intros u Hu. pose proof (proj1 (Forall_forall _ _) (ho_tile _ _ Hok) u Hu) as [_ _ Hmin _ _ Hown].
  destruct (decide (t_end t ≤ t_at u)); [by left|]. destruct (decide (t_end u ≤ t_at t)); [by right|]. exfalso.
  set (x := Z.max (t_at t) (t_at u)). assert (t_at t ≤ x < t_end t ∧ t_at u ≤ x < t_end u) as [Hx Hx'].
  { assert (t_at t < t_end t) by (rewrite Ha, He; unfold PAGE_SIZE; lia). unfold x, t_end, MIN_PAYLOAD, ALIGNMENT, HDR in *. lia. }
  destruct (Hrun (frame_of x) (Hin x Hx)) as [Hno _]. by apply Hno, Hown.
Qed.

Lemma grow_pages req :
  0 < req → req ≤ 2 ^ 32 - 2 ^ 13 →
  let pages := align_up (w32 (req + HDR + MIN_PAYLOAD)) PAGE_SIZE / PAGE_SIZE in
  let n := if pages <? HEAP_GROW_MIN_PAGES then HEAP_GROW_MIN_PAGES else pages in
  0 < n ∧ req + HDR + MIN_PAYLOAD ≤ n * PAGE_SIZE.
Proof.
  intros H1 H2 pages n. unfold n, pages, HDR, MIN_PAYLOAD, ALIGNMENT, HEAP_GROW_MIN_PAGES. rewrite w32_small by lia.
  pose proof (align_up_spec (req + 16 + 16) 12 ltac:(lia) ltac:(lia) ltac:(lia)) as Ha. change (2 ^ 12) with PAGE_SIZE in Ha. rewrite Ha.
  unfold PAGE_SIZE. rewrite (Z.mul_comm 4096), Z.div_mul by lia. case_if E; Z.div_mod_to_equations; lia.
Qed.

Lemma heap_ok_append ts h t w m' spa sva epa eva :
  heap_ok ts h → frames_ok w → frame_limit w = frame_limit (h_w h) → (∀ q, frame_owned (h_w h) q → frame_owned w q) →
  (∀ u, u ∈ ts → apart t u) → (∀ x, t_at t ≤ x < t_end t → frame_owned w (frame_of x)) →
  t_at t mod ALIGNMENT = 0 → t_size t mod ALIGNMENT = 0 → MIN_PAYLOAD ≤ t_size t → linked m' 0 (ts ++ [t]) 0 →
  0 < spa → sva = spa + OFF → sva ≤ t_at t → (ts ≠ [] → sva ≤ heap_start_va h) →
  0 < epa → eva = epa + OFF → t_end t ≤ eva → heap_end_va h ≤ eva → eva < 2 ^ 32 →
  heap_ok (ts ++ [t]) (mkHst w m' (first (ts ++ [t]) 0) (t_at t) spa epa sva eva).
Proof.
  intros [Hw Hmap Hl Hh Ht Hto Hap Hst He Hem] Hw' Hlim Hown Hat Hot A1 A2 A3 Hl' S1 S2 S3 S4 E1 E2 E3 E4 E5. split; simpl; try done.
  - by rewrite Hlim.
  - by rewrite final_app.
  - apply Forall_app. split.
    + apply Forall_forall. intros u Hu. pose proof (proj1 (Forall_forall _ _) Hto u Hu) as []. assert (ts ≠ []) as Hne by (by intros ->; apply elem_of_nil in Hu).
      specialize (S4 Hne). split; simpl; auto; lia.
    + apply Forall_cons_2; [|apply Forall_nil_2]. by split.
  - apply StronglySorted_app_2; [|done|repeat constructor]. intros u v Hu [->|?%elem_of_nil]%elem_of_cons; [|done]. by apply apart_sym, Hat.
  - by right.
  - by right.
Qed.

(** Linking the block [t] at the end. *)
Lemma appended_linked ts h t m' :
  heap_ok ts h → (∀ u, u ∈ ts → apart t u) → MIN_PAYLOAD ≤ t_size t → t_free t = true →
  m' = (let m := store (store (store (store (store (store (h_mem h) (b_size (t_at t)) (t_size t)) (b_state (t_at t)) KBLOCK_FREE)
                   (b_next (t_at t)) 0) (b_prev (t_at t)) 0) (b_next (t_at t)) 0) (b_prev (t_at t)) (final 0 ts) in
        match ts with [] => m | _ => store m (b_next (final 0 ts)) (t_at t) end) →
  linked m' 0 (ts ++ [t]) 0 ∧ same_payloads ts (h_mem h) m'.
Proof.
  intros Hok Hap Hmin Hfree Hm'. assert (Forall (λ u, MIN_PAYLOAD ≤ t_size u) ts) as Hmins.
  { eapply Forall_impl; [apply (ho_tile _ _ Hok)|]. by intros u []. }
  assert (ts ≠ [] → ∃ z, z ∈ ts ∧ final 0 ts = t_at z) as Hz.
  { intros Hne. destruct (exists_last Hne) as (l & z & ->). exists z. rewrite final_app. split; [apply elem_of_app; right; by left|done]. }
  pose proof (proj1 (Forall_forall _ _) Hmins) as Hms. simpl in Hms.
  assert (∀ x, (∃ u, u ∈ ts ∧ t_at u ≤ x < t_end u) → (ts ≠ [] → x ≠ b_next (final 0 ts)) → m' x = h_mem h x) as Hsame.
  { intros x (u & Hu & Hx) Hne. assert (ts ≠ []) as Hts by (by intros ->; apply elem_of_nil in Hu). specialize (Hne Hts). rewrite Hm'.
    specialize (Hap u Hu). destruct (Hz Hts) as (z & Hzin & Hzf). destruct ts as [|v l]; [done|].
    unfold apart, t_end, MIN_PAYLOAD, ALIGNMENT in *. mem. done. }
  split.
  - apply (linked_snoc (h_mem h)); [apply Hok|apply Hok|done|..].
    + intros u x Hu Hx Hne. apply Hsame; [|done]. exists u. split; [done|]. specialize (Hms u Hu). unfold t_end, MIN_PAYLOAD, ALIGNMENT, HDR in *. lia.
    + intros Hne. rewrite Hm'. destruct ts; [done|]. apply store_eq.
    + assert (ts ≠ [] → final 0 ts + HDR ≤ t_at t ∨ t_end t ≤ final 0 ts) as Hfar.
      { intros Hne. destruct (Hz Hne) as (z & Hzin & ->). specialize (Hap z Hzin). specialize (Hms z Hzin). unfold apart, t_end, MIN_PAYLOAD, ALIGNMENT, HDR in *. lia. }
      rewrite Hm'. unfold node. rewrite Hfree. unfold t_end, MIN_PAYLOAD, ALIGNMENT in *.
      destruct ts; [|specialize (Hfar ltac:(done))]; split_and!; mem; done.
  - intros u x Hu _ Hx. apply Hsame; [exists u; split; [done|]; unfold HDR in *; lia|]. intros Hne ->. destruct (Hz Hne) as (z & Hzin & Hzf). rewrite Hzf in Hx.
    specialize (Hms z Hzin). destruct (apart_or ts u z (ho_apart _ _ Hok) Hu Hzin) as [->|Ha]; unfold apart, t_end, b_next, MIN_PAYLOAD, ALIGNMENT, HDR in *; lia.
Qed.

Lemma wp_HeapGrow ts h req Q :
  heap_ok ts h → 0 < req → req ≤ 2 ^ 32 - 2 ^ 13 →
  (∀ h', heap_ok ts h' → h_mem h' = h_mem h → Q false h') →
  (∀ h' t, heap_ok (ts ++ [t]) h' → fits req t → same_payloads ts (h_mem h) (h_mem h') → Q true h') →
  wp (HeapGrow OFF req) Q h.
Proof.
  intros Hok Hr1 Hr2 Hno Hyes. destruct (grow_pages req Hr1 Hr2) as [Hn Hfit]. destruct (ho_map _ _ Hok) as (Hlim & Ho0 & Hom).
  unfold HeapGrow. set (n := if _ <? _ then _ else _) in *. clearbody n. wp_step. apply wp_on_w.
  eapply wp_mono; [apply frame_contig; [apply Hok|done]|]. intros pa w (Hw & Hl & Hown & Hpa).
  case_if E; b2p; [wp_step; by apply Hno; [apply heap_ok_w|]|]. destruct (Hpa E) as (Hp1 & Hp2 & Hp3 & Hrun). clear Hpa.
  assert (PA_TO_VA OFF pa = pa + OFF) as -> by (apply w32_small; unfold PAGE_SIZE in *; lia).
  rewrite (w32_small (n * PAGE_SIZE - HDR)), align16, (w32_small (pa + n * PAGE_SIZE)), (w32_small (pa + OFF + n * PAGE_SIZE))
    by (unfold HDR, PAGE_SIZE in *; (lia || Z.div_mod_to_equations; lia)).
  set (t := mkTile (pa + OFF) (n * PAGE_SIZE - HDR) true). change (pa + OFF) with (t_at t).
  assert (t_end t = pa + OFF + n * PAGE_SIZE) as Het by (unfold t_end; simpl; lia).
  destruct (fresh_apart ts h pa n t w Hok Hn Hp2 Hrun eq_refl Het) as [Hap Hownt].
  repeat heap_step. rewrite !set_mem_mem. simpl.
  apply (wp_HeapAppendBlk ts _ t); [apply Hok|apply Hok| |].
  { intros Hne. destruct ts as [|u ts]; [done|]. simpl. destruct (block_range [] u ts h Hok). lia. }
  intros h1 Eh1. set (m' := h_mem h1). assert (linked m' 0 (ts ++ [t]) 0 ∧ same_payloads ts (h_mem h) m') as [Hlk Hsame].
  { apply (appended_linked ts h t); [done|done|unfold t, MIN_PAYLOAD, ALIGNMENT, HDR, PAGE_SIZE in *; simpl; lia|done|]. unfold m'. by rewrite Eh1. }
  assert (h1 = mkHst w m' (first (ts ++ [t]) 0) (t_at t) (heap_start_pa h) (heap_end_pa h) (heap_start_va h) (heap_end_va h)) as Eh.
  { unfold m'. by rewrite Eh1. }
  assert (∀ spa sva epa eva, 0 < spa → sva = spa + OFF → sva ≤ t_at t → (ts ≠ [] → sva ≤ heap_start_va h) →
    0 < epa → eva = epa + OFF → t_end t ≤ eva → heap_end_va h ≤ eva → eva < 2 ^ 32 →
    Q true (mkHst w m' (first (ts ++ [t]) 0) (t_at t) spa epa sva eva)) as Hdone.
  { intros spa sva epa eva S1 S2 S3 S4 E1 E2 E3 E4 E5. apply (Hyes _ t); [| |done].
    - apply (heap_ok_append _ h); try done; unfold t, MIN_PAYLOAD, ALIGNMENT, HDR, PAGE_SIZE in *; simpl; try lia; Z.div_mod_to_equations; lia.
    - split; [done|]. unfold t, HDR, MIN_PAYLOAD, ALIGNMENT in *. simpl. lia. }
  clearbody m'. rewrite Eh. clear h1 Eh Eh1. pose proof (ho_start _ _ Hok) as Hst. pose proof (ho_end _ _ Hok) as Hen. pose proof (ho_end_max _ _ Hok).
  assert (0 < n * PAGE_SIZE) by (unfold PAGE_SIZE; lia).
  assert (∀ spa sva, 0 < spa → sva = spa + OFF → sva ≤ t_at t → (ts ≠ [] → sva ≤ heap_start_va h) →
    wp (let! end_ := gets heap_end_pa in
        when (end_ <? pa + n * PAGE_SIZE) (modify (set_heap_end (pa + n * PAGE_SIZE) (pa + OFF + n * PAGE_SIZE))) ;; ret true) Q
       (mkHst w m' (first (ts ++ [t]) 0) (t_at t) spa (heap_end_pa h) sva (heap_end_va h))) as Hend.
  { intros spa sva S1 S2 S3 S4. repeat heap_step. simpl. apply wp_when; intros Ee; b2p; repeat heap_step; apply Hdone; try done; try lia. }
  repeat heap_step. simpl. apply wp_when; intros Es; [heap_step|]; apply Hend; simpl; try lia.
  intros Hne. apply orb_true_iff in Es as [Es|Es]; b2p; destruct Hst as [(? & ? & ?)|[? ?]]; done || lia.
Qed.

(** * Allocation and release *)

(** The payloads in use. *)
Definition live (ts : list tile) : list (Z * Z) := (λ t, (t_at t + HDR, t_size t)) <$> filter (λ t, t_free t = false) ts.
Definition total (ts : list tile) : Z := foldr (λ t n, HDR + t_size t + n) 0 ts.

Lemma live_app l l' : live (l ++ l') = live l ++ live l'.
Proof. unfold live. by rewrite filter_app, fmap_app. Qed.
Lemma live_cons t l : live (t :: l) = if t_free t then live l else (t_at t + HDR, t_size t) :: live l.
Proof. unfold live. rewrite filter_cons. by destruct (t_free t). Qed.
Lemma live_in ts p n : (p, n) ∈ live ts ↔ ∃ t, t ∈ ts ∧ t_free t = false ∧ p = t_at t + HDR ∧ n = t_size t.
Proof.
  unfold live. rewrite list_elem_of_fmap. split.
  - intros (t & [= -> ->] & [Hf Hin]%list_elem_of_filter). by exists t.
  - intros (t & Hin & Hf & -> & ->). exists t. split; [done|]. by apply list_elem_of_filter.
Qed.
Lemma total_app l l' : total (l ++ l') = total l + total l'.
Proof. induction l as [|t l IH]; simpl; [done|]. rewrite IH. lia. Qed.

Lemma live_taken l1 t l2 req :
  t_free t = true → ∃ n, (n = req ∨ n = t_size t) ∧ live (l1 ++ taken t req ++ l2) ≡ₚ (t_at t + HDR, n) :: live (l1 ++ t :: l2).
Proof.
  intros Hf. unfold taken. case_if E; [exists req|exists (t_size t)]; (split; [auto|]); rewrite !live_app, !live_cons, Hf; simpl; by rewrite <- Permutation_middle.
Qed.

Lemma same_payloads_trans ts m1 m2 m3 : same_payloads ts m1 m2 → same_payloads ts m2 m3 → same_payloads ts m1 m3.
Proof. intros H1 H2 u x Hu Hf Hx. by rewrite (H2 u x Hu Hf Hx), (H1 u x Hu Hf Hx). Qed.

(** What [KMalloc] of [size_] bytes leaves of the blocks [ts] of [h]. *)
Definition malloc_post (ts : list tile) (h : hst) (size_ p : Z) (h' : hst) : Prop :=
  ∃ ts', heap_ok ts' h' ∧ same_payloads ts (h_mem h) (h_mem h') ∧
    if p =? 0 then live ts' = live ts ∧ (size_ = 0 ∨ Forall (λ t, ¬ fits (align_up size_ ALIGNMENT) t) ts)
    else p mod ALIGNMENT = 0 ∧ ∃ n, size_ ≤ n ∧ live ts' ≡ₚ (p, n) :: live ts.

Lemma wp_take_found ts h l1 t l2 size_ Q :
  heap_ok ts h → ts = l1 ++ t :: l2 → 0 < size_ → size_ ≤ 2 ^ 32 - 2 ^ 14 → fits (align_up size_ ALIGNMENT) t →
  (∀ p h', malloc_post ts h size_ p h' → p ≠ 0 → Q p h') → wp (take_block (t_at t) (align_up size_ ALIGNMENT)) Q h.
Proof.
  intros Hok -> Hs1 Hs2 [Hf Hfit] HQ. pose proof (align_up_spec size_ 4 ltac:(lia) ltac:(lia) ltac:(lia)) as Ha. change (2 ^ 4) with 16 in Ha.
  unfold ALIGNMENT in *. set (req := align_up size_ 16) in *.
  assert (16 ≤ req ∧ size_ ≤ req ∧ req mod 16 = 0) as (R1 & R2 & R3) by (rewrite Ha; Z.div_mod_to_equations; lia).
  destruct (block_range l1 t l2 h Hok) as [Hpos Hmax]. pose proof (to_at _ _ (block_ok l1 t l2 h Hok)) as Hat.
  apply (wp_take_block l1 t l2); try done. intros h' Hok' Hsame _. apply HQ; [|unfold HDR; lia].
  exists (l1 ++ taken t req ++ l2). split; [done|]. split.
  - intros u x Hu Hfu. apply Hsame; [|done]. rewrite elem_of_app, elem_of_cons in Hu. apply elem_of_app. destruct Hu as [?|[->|?]]; [by left|congruence|by right].
  - rewrite (proj2 (Z.eqb_neq (t_at t + HDR) 0)) by (unfold HDR; lia). split; [unfold ALIGNMENT, HDR in *; Z.div_mod_to_equations; lia|].
    destruct (live_taken l1 t l2 req Hf) as (n & Hn & Hl). exists n. split; [destruct Hn; lia|done].
Qed.

Lemma wp_KMalloc ts h size_ :
  heap_ok ts h → 0 ≤ size_ ≤ 2 ^ 32 - 2 ^ 14 → wp (KMalloc OFF size_) (malloc_post ts h size_) h.
Proof.
  intros Hok Hs. unfold KMalloc. case_if E; b2p.
  { wp_step. exists ts. split; [done|]. split; [done|]. simpl. auto. }
  pose proof (align_up_spec size_ 4 ltac:(lia) ltac:(lia) ltac:(lia)) as Ha. change (2 ^ 4) with 16 in Ha. fold ALIGNMENT in Ha.
  set (req := align_up size_ ALIGNMENT) in *. assert (0 < req ≤ 2 ^ 32 - 2 ^ 13) as Hr by (rewrite Ha; unfold ALIGNMENT; Z.div_mod_to_equations; lia).
  cbn [malloc_pass]. repeat heap_step. rewrite (ho_head _ _ Hok).
  apply (wp_find_block req _ [] ts); [done|by apply blocks_bound|..].
  { intros l1 t l2 El Hf _. apply (wp_take_found ts h l1 t l2); try done; lia. }
  intros Hnone. wp_step. apply (wp_HeapGrow ts); [done|lia|lia|..].
  { intros h' Hok' Hmem. cbn [negb]. wp_step. exists ts. split; [done|]. split; [by rewrite Hmem|]. simpl. auto. }
  intros h1 t Hok1 Hfit Hsame. cbn [negb]. repeat heap_step. rewrite (ho_head _ _ Hok1).
  assert (∀ p h', malloc_post (ts ++ [t]) h1 size_ p h' → p ≠ 0 → malloc_post ts h size_ p h') as Hpost.
  { intros p h' (ts' & Hok' & Hs' & Hp) Hne. exists ts'. split; [done|]. split.
    - eapply same_payloads_trans; [done|]. intros u x Hu. apply Hs'. apply elem_of_app. by left.
    - rewrite (proj2 (Z.eqb_neq p 0)) in * by done. destruct Hp as (Hm & n & Hn & Hl). split; [done|]. exists n. split; [done|].
      rewrite Hl, live_app, live_cons, (proj1 Hfit). simpl. by rewrite app_nil_r. }
  apply (wp_find_block req _ [] (ts ++ [t])); [done|by apply blocks_bound|..].
  - intros l1 u l2 El Hf _. apply (wp_take_found (ts ++ [t]) h1 l1 u l2); try done; try lia.
  - intros Hno. apply Forall_app in Hno as [_ Hno]. apply Forall_cons in Hno as [Hno _]. done.
Qed.

(** [h'] with the blocks [ts'] has the allocations and the bytes of [h] with [ts]. *)
Definition same_heap (ts : list tile) (h : hst) (ts' : list tile) (h' : hst) : Prop :=
  heap_ok ts' h' ∧ live ts' = live ts ∧ total ts' = total ts ∧ same_payloads ts (h_mem h) (h_mem h').

Lemma wp_merge_free l1 t l2 h Q :
  heap_ok (l1 ++ t :: l2) h → t_free t = true →
  (∀ t' l2' h', same_heap (l1 ++ t :: l2) h (l1 ++ t' :: l2') h' → t_at t' = t_at t → Q tt h') →
  wp (HeapMerge (t_at t)) Q h.
Proof.
  intros Hok Hf HQ. apply (wp_HeapMerge l1 t l2); [done|..].
  - intros _. by apply (HQ t l2).
  - intros n l3 h' -> Hfn He Hok' Hsame _ _. apply (HQ (joined t n) l3); [|done]. split_and!; [done|..].
    + rewrite !live_app, !live_cons, Hfn. unfold joined. simpl. by rewrite Hf.
    + rewrite !total_app. simpl. lia.
    + intros u x Hu Hfu. apply Hsame; [|done]. apply elem_of_app in Hu as [Hu|[->|[->|Hu]%elem_of_cons]%elem_of_cons]; [|congruence..|];
        apply elem_of_app; auto.
Qed.

(** Marking a block free. *)
Lemma heap_ok_freed l1 t l2 h :
  heap_ok (l1 ++ t :: l2) h →
  let h' := set_h_mem (store (h_mem h) (b_state (t_at t)) KBLOCK_FREE) h in
  heap_ok (l1 ++ mkTile (t_at t) (t_size t) true :: l2) h' ∧ same_payloads (l1 ++ l2) (h_mem h) (h_mem h').
Proof.
  intros Hok h'. destruct (block_node l1 t l2 h Hok) as (N1 & N2 & N3 & _). pose proof (block_ok l1 t l2 h Hok) as Hto.
  pose proof (to_min _ _ Hto) as Hmin. unfold MIN_PAYLOAD, ALIGNMENT in Hmin.
  destruct (heap_ok_edit l1 [t] l2 [mkTile (t_at t) (t_size t) true] (t_at t) (t_end t) h (h_mem h') Hok) as [H1 H2]; try done.
  - apply (block_around l1 t l2 h Hok).
  - apply Forall_cons_2; [|apply Forall_nil_2]. by destruct Hto; split.
  - repeat constructor.
  - intros u [->|?%elem_of_nil]%elem_of_cons; [|done]. unfold t_end. simpl. lia.
  - intros x Hx. left. unfold h', t_end in *. simpl. mem. done.
  - intros Hl2. destruct (next_back l1 t l2 h Hok Hl2) as [Hb Hx]. unfold h', t_end in *. simpl. rewrite store_ne; [done|]. unfold b_state, HDR in *. lia.
  - unfold h'. simpl. unfold node. simpl. split_and!; mem; done.
  - split; [|done]. unfold h' in *. rewrite <- set_tail_id, (ho_tail _ _ Hok), final_app, final_cons. cbn [app] in H1. rewrite final_app, final_cons in H1. exact H1.
Qed.

(** What [KFree] of a payload in use leaves. *)
Definition free_post (ts : list tile) (h : hst) (p n : Z) (h' : hst) : Prop :=
  ∃ ts', heap_ok ts' h' ∧ live ts ≡ₚ (p, n) :: live ts' ∧ total ts' = total ts ∧
    ∀ q m x, (q, m) ∈ live ts' → q ≤ x < q + m → h_mem h' x = h_mem h x.

Lemma same_heap_trans ts1 h1 ts2 h2 ts3 h3 : same_heap ts1 h1 ts2 h2 → same_heap ts2 h2 ts3 h3 → same_heap ts1 h1 ts3 h3.
Proof.
  intros (_ & L1 & T1 & S1) (Hok & L2 & T2 & S2). split_and!; [done|congruence|congruence|].
  intros u x Hu Hf Hx. rewrite <- (S1 u x Hu Hf Hx).
  assert ((t_at u + HDR, t_size u) ∈ live ts2) as (u' & Hu' & Hf' & E1 & E2)%live_in by (rewrite L1; apply live_in; by exists u).
  apply (S2 u' x Hu' Hf'). unfold t_end in *. lia.
Qed.
Lemma free_post_of l1 t l2 h h1 ts' h' :
  t_free t = false → same_payloads (l1 ++ l2) (h_mem h) (h_mem h1) →
  same_heap (l1 ++ mkTile (t_at t) (t_size t) true :: l2) h1 ts' h' →
  free_post (l1 ++ t :: l2) h (t_at t + HDR) (t_size t) h'.
Proof.
  intros Hf Hs (Hok & Hl & Ht & Hs'). exists ts'. rewrite live_app, live_cons in Hl. simpl in Hl. split_and!; [done|..].
  - rewrite Hl, live_app, live_cons, Hf. by rewrite Permutation_middle.
  - rewrite Ht, !total_app. done.
  - intros q m x Hin Hx. rewrite Hl, <- live_app in Hin. apply live_in in Hin as (u & Hu & Hfu & -> & ->).
    assert (t_at u + HDR ≤ x < t_end u) as Hx' by (unfold t_end; lia).
    rewrite <- (Hs u x Hu Hfu Hx'). apply (Hs' u x); [|done|done]. rewrite elem_of_app in *. destruct Hu; [by left|right; by right].
Qed.

Lemma wp_KFree ts h p n : heap_ok ts h → (p, n) ∈ live ts → wp (KFree p) (λ _, free_post ts h p n) h.
Proof.
  intros Hok (t & (l1 & l2 & ->)%list_elem_of_split & Hft & -> & ->)%live_in.
  destruct (block_range l1 t l2 h Hok) as [Hpos Hmax]. destruct (block_node l1 t l2 h Hok) as (N1 & N2 & N3 & N4).
  pose proof (block_ok l1 t l2 h Hok) as [A1 A2 A3 A4 A5 A6]. pose proof (ho_end_max _ _ Hok) as Hem.
  assert (0 ≤ heap_start_va h) as Hs0 by (pose proof (ho_map _ _ Hok); destruct (ho_start _ _ Hok) as [(_ & -> & _)|[? ->]]; lia).
  unfold t_end, MIN_PAYLOAD, ALIGNMENT in *. unfold KFree. rewrite (proj2 (Z.eqb_neq (t_at t + HDR) 0)) by (unfold HDR; lia).
  assert ((t_at t + HDR) mod 16 = 0) as Hm by (unfold HDR; Z.div_mod_to_equations; lia). unfold ALIGNMENT. rewrite Hm. cbn [negb Z.eqb].
  replace (w32 (t_at t + HDR - HDR)) with (t_at t) by (rewrite w32_small; unfold HDR in *; lia).
  do 4 heap_step. rewrite w32_small by (unfold HDR in *; lia).
  rewrite (proj2 (Z.ltb_ge _ _)), (proj2 (Z.leb_gt _ _)) by (unfold HDR in *; lia). cbn [orb].
  do 2 heap_step. rewrite N4, Hft. cbn [state_of]. change (KBLOCK_ALLOCATED =? KBLOCK_FREE) with false. rewrite Z.eqb_refl. cbn [negb]. cbv iota.
  destruct (heap_ok_freed l1 t l2 h Hok) as [Hok1 Hsame1]. set (h1 := set_h_mem _ h) in *. do 3 heap_step.
  change (t_at t) with (t_at (mkTile (t_at t) (t_size t) true)) at 1.
  apply (wp_merge_free l1 (mkTile (t_at t) (t_size t) true) l2); [done|done|]. intros t' l2' h2 Hsame2 Hat.
  pose proof (proj1 Hsame2) as Hok2. destruct (block_node l1 t' l2' h2 Hok2) as (_ & _ & M3 & _). simpl in Hat. rewrite Hat in M3.
  do 2 heap_step. rewrite M3. destruct l1 as [|z l0 _] using rev_ind.
  { change (final 0 []) with 0. cbn [Z.eqb negb]. heap_step. by eapply free_post_of. }
  rewrite final_app, final_cons. rewrite <- app_assoc in Hok2. destruct (block_range l0 z (t' :: l2') h2 Hok2) as [Hz _].
  change (final (t_at z) []) with (t_at z). rewrite (proj2 (Z.eqb_neq (t_at z) 0)) by lia. cbn [negb]. do 2 heap_step. destruct (block_node l0 z _ h2 Hok2) as (_ & _ & _ & Z4). rewrite Z4.
  apply wp_when; intros E.
  - apply (wp_merge_free l0 z (t' :: l2')); [done|by destruct (t_free z)|]. intros z' l3 h3 Hsame3 _. rewrite <- !app_assoc in Hsame2.
    eapply free_post_of; [done..|]. rewrite <- app_assoc. eapply same_heap_trans; [exact Hsame2|exact Hsame3].
  - by eapply free_post_of.
Qed.

Lemma heap_empty h :
  frames_ok (h_w h) → frame_limit (h_w h) + OFF < 2 ^ 32 → 0 ≤ OFF → OFF mod PAGE_SIZE = 0 →
  heap_ok [] (set_heap_end 0 0 (set_heap_start 0 0 (set_heap_tail 0 (set_heap_head 0 h)))).
Proof. intros. split; simpl; try done; [constructor|by left|by left]. Qed.

Lemma KHeapInit_ok h h' :
  frames_ok (h_w h) → frame_limit (h_w h) + OFF < 2 ^ 32 → 0 ≤ OFF → OFF mod PAGE_SIZE = 0 →
  KHeapInit OFF h = Ok (tt, h') → ∃ t, heap_ok [t] h' ∧ t_free t = true ∧ HEAP_INITIAL_SIZE - HDR ≤ t_size t.
Proof.
  intros Hw Hl Ho0 Hm. pose proof (heap_empty h Hw Hl Ho0 Hm) as He. set (h0 := set_heap_end _ _ _) in He.
  unfold KHeapInit. change (bind (HeapGrow OFF (HEAP_INITIAL_SIZE - HDR)) (λ ok, if negb ok then panic else ret tt) h0 = Ok (tt, h') →
    ∃ t, heap_ok [t] h' ∧ t_free t = true ∧ HEAP_INITIAL_SIZE - HDR ≤ t_size t).
  unfold bind. assert (wp (HeapGrow OFF (HEAP_INITIAL_SIZE - HDR)) (λ b h', b = true → ∃ t, heap_ok [t] h' ∧ fits (HEAP_INITIAL_SIZE - HDR) t) h0) as Hg.
  { apply (wp_HeapGrow []); [done|by vm_compute|by vm_compute|done|]. intros h1 t Ho Hf _ _. by exists t. }
  unfold wp in Hg. destruct (HeapGrow OFF _ h0) as [[b h1]| |]; [|done..]. destruct b; [|done]. intros [= <-]. destruct (Hg eq_refl) as (t & Ho & Hf1 & Hf2). by exists t.
Qed.

Lemma live_apart ts h p n q m :
  heap_ok ts h → (p, n) ∈ live ts → (q, m) ∈ live ts → (p, n) ≠ (q, m) → p + n ≤ q ∨ q + m ≤ p.
Proof.
  intros Hok (t & Ht & _ & -> & ->)%live_in (u & Hu & _ & -> & ->)%live_in Hne.
  destruct (apart_or _ _ _ (ho_apart _ _ Hok) Ht Hu) as [->|Ha]; [done|]. unfold apart, t_end, HDR in Ha. unfold HDR. lia.
Qed.
Lemma live_nodup ts h : heap_ok ts h → NoDup (live ts).
Proof.
  intros Hok. pose proof (ho_apart _ _ Hok) as Hs. pose proof (ho_tile _ _ Hok) as Ht. clear Hok.
  induction Hs as [|t l Hs IH Hf]; [constructor|]. apply Forall_cons in Ht as [Ht Hl]. rewrite live_cons. destruct (t_free t); [by apply IH|].
  constructor; [|by apply IH]. intros (u & Hu & _ & E & _)%live_in. pose proof (proj1 (Forall_forall _ _) Hf u Hu) as Ha.
  pose proof (to_min _ _ Ht). pose proof (to_min _ _ (proj1 (Forall_forall _ _) Hl u Hu)). unfold apart, t_end, MIN_PAYLOAD, ALIGNMENT, HDR in *. lia.
Qed.
(** A payload in use is aligned, has room and lies in frames the heap owns. *)
Lemma live_ok ts h p n :
  heap_ok ts h → (p, n) ∈ live ts →
  p mod ALIGNMENT = 0 ∧ MIN_PAYLOAD ≤ n ∧ heap_start_va h < p ∧ p + n ≤ heap_end_va h ∧ ∀ x, p ≤ x < p + n → frame_owned (h_w h) (frame_of x).
Proof.
  intros Hok (t & Ht & _ & -> & ->)%live_in. destruct (proj1 (Forall_forall _ _) (ho_tile _ _ Hok) t Ht) as [A1 A2 A3 A4 A5 A6].
  unfold t_end in *. split_and!; [unfold ALIGNMENT, HDR in *; Z.div_mod_to_equations; lia|done|unfold HDR; lia|lia|]. intros x Hx. apply A6. unfold HDR in *. lia.
Qed.

(** Writes to a payload in use leave the blocks alone. *)
Lemma heap_ok_payload ts h p n m' :
  heap_ok ts h → (p, n) ∈ live ts → (∀ x, ¬ (p ≤ x < p + n) → m' x = h_mem h x) → heap_ok ts (set_h_mem m' h).
Proof.
  intros Hok (t & Ht & _ & -> & ->)%live_in Hm. destruct Hok as [Hw Hmap Hl Hh Htl Hto Hap Hst He Hem].
  split; simpl; try done; [|eapply Forall_impl; [exact Hto|]; intros u []; by split].
  eapply linked_frame; [|exact Hl]. intros u x Hu Hx. apply Hm.
  destruct (apart_or _ _ _ Hap Ht Hu) as [->|Ha]; [lia|].
  pose proof (to_min _ _ (proj1 (Forall_forall _ _) Hto u Hu)). unfold apart, t_end, MIN_PAYLOAD, ALIGNMENT, HDR in *. lia.
Qed.
Lemma same_payloads_live ts h p n m m' :
  heap_ok ts h → (p, n) ∉ live ts → (∀ q k, (q, k) ∈ live ts → p + n ≤ q ∨ q + k ≤ p) →
  (∀ x, ¬ (p ≤ x < p + n) → m' x = m x) → same_payloads ts m m'.
Proof.
  intros Hok Hn Hap Hm u x Hu Hf Hx. apply Hm. assert ((t_at u + HDR, t_size u) ∈ live ts) as Hin by (apply live_in; by exists u).
  specialize (Hap _ _ Hin). unfold t_end in Hx. lia.
Qed.

(** What [KZAlloc] leaves: as [KMalloc], with the bytes asked for zero. *)
Lemma wp_KZAlloc ts h size_ :
  heap_ok ts h → 0 ≤ size_ ≤ 2 ^ 32 - 2 ^ 14 →
  wp (KZAlloc OFF size_) (λ p h', malloc_post ts h size_ p h' ∧ (p ≠ 0 → ∀ x, p ≤ x < p + size_ → h_mem h' x = 0)) h.
Proof.
  intros Hok Hs. unfold KZAlloc. wp_step. eapply wp_mono; [by apply wp_KMalloc|]. intros p h1 Hpost. wp_step. apply wp_when; intros E; b2p.
  - destruct Hpost as (ts' & Hok' & Hsame & Hp). rewrite (proj2 (Z.eqb_neq p 0)) in Hp by done. destruct Hp as (Ha & n & Hn & Hl).
    assert ((p, n) ∈ live ts') as Hin by (rewrite Hl; by left).
    pose proof (live_nodup _ _ Hok') as Hnd. rewrite Hl in Hnd. apply NoDup_cons in Hnd as [Hnew _].
    assert (∀ x, ¬ (p ≤ x < p + n) → zero_words p size_ (h_mem h1) x = h_mem h1 x) as Hz.
    { intros x Hx. unfold zero_words. case_if Ez; [|done]. lia. }
    wp_steps. split.
    + exists ts'. split; [by eapply heap_ok_payload|]. split.
      * eapply same_payloads_trans; [exact Hsame|]. apply (same_payloads_live ts h p n); try done. intros q k Hq.
        eapply (live_apart ts' h1); [done|done|rewrite Hl; by right|congruence].
      * rewrite (proj2 (Z.eqb_neq p 0)) by done. eauto.
    + intros _ x Hx. simpl. unfold zero_words. rewrite (proj2 (Z.leb_le _ _)), (proj2 (Z.ltb_lt _ _)) by lia. done.
  - wp_steps. by split.
Qed.

(** * A client of the heap *)

(** Calls of a client: an allocation, a release of the [i]-th of its allocations, a write to
    the [off]-th byte of the [i]-th. *)
Inductive heap_op := HMalloc (size_ : Z) | HCalloc (nmemb size_ : Z) | HFree (i : nat) | HStore (i : nat) (off v : Z).

(** The client keeps the pointers it got and the sizes it asked for. *)
Definition heap_call (op : heap_op) (out : list (Z * Z)) : M hst (list (Z * Z)) :=
  match op with
  | HMalloc n => let! p := KMalloc OFF n in ret (if p =? 0 then out else (p, n) :: out)
  | HCalloc k n => let! p := KCalloc OFF k n in ret (if p =? 0 then out else (p, k * n) :: out)
  | HFree i => match out !! i with Some (p, _) => KFree p ;; ret (delete i out) | None => ret out end
  | HStore i off v =>
      match out !! i with
      | Some (p, n) => when ((0 <=? off) && (off <? n)) (st (p + off) v) ;; ret out
      | None => ret out
      end
  end.
Fixpoint heap_run (ops : list heap_op) (out : list (Z * Z)) : M hst (list (Z * Z)) :=
  match ops with [] => ret out | op :: ops' => let! out' := heap_call op out in heap_run ops' out' end.
Definition heap_op_ok (op : heap_op) : Prop :=
  match op with
  | HMalloc n => 0 ≤ n ≤ 2 ^ 32 - 2 ^ 14
  | HCalloc k n => 0 ≤ k ∧ 0 ≤ n ∧ ¬ (2 ^ 32 - 2 ^ 14 < k * n < 2 ^ 32)
  | _ => True
  end.

(** The allocations of the client are the blocks in use. *)
Definition holds (out : list (Z * Z)) (h : hst) : Prop :=
  ∃ ts ms, heap_ok ts h ∧ live ts ≡ₚ ms ∧ Forall2 (λ a b, a.1 = b.1 ∧ a.2 ≤ b.2) out ms.

Lemma holds_malloc out h ts ms size_ p h' :
  live ts ≡ₚ ms → Forall2 (λ a b, a.1 = b.1 ∧ a.2 ≤ b.2) out ms → malloc_post ts h size_ p h' →
  holds (if p =? 0 then out else (p, size_) :: out) h'.
Proof.
  intros Hl Hf (ts' & Hok & _ & Hp). destruct (p =? 0).
  - destruct Hp as [Hp _]. exists ts', ms. by rewrite Hp.
  - destruct Hp as (_ & n & Hn & Hp). exists ts', ((p, n) :: ms). rewrite Hp, Hl. split; [done|]. split; [done|]. by constructor.
Qed.

Lemma wp_KCalloc ts h k n :
  heap_ok ts h → heap_op_ok (HCalloc k n) →
  wp (KCalloc OFF k n) (λ p h', k * n < 2 ^ 32 ∧ malloc_post ts h (k * n) p h' ∧ (p ≠ 0 → ∀ x, p ≤ x < p + k * n → h_mem h' x = 0) ∨
    p = 0 ∧ h' = h ∧ 2 ^ 32 ≤ k * n) h.
Proof.
  intros Hok (Hk & Hn & Hov). unfold KCalloc. case_if E; b2p.
  - wp_step. right. split_and!; [done..|]. pose proof (Z.mul_succ_div_gt (2 ^ 32 - 1) k ltac:(lia)). nia.
  - assert (k * n < 2 ^ 32) as Hkn.
    { destruct (decide (k = 0)) as [->|Hk0]; [lia|]. apply andb_false_iff in E as [E|E]; [by apply negb_false_iff, Z.eqb_eq in E|].
      apply Z.ltb_ge in E. pose proof (Z.mul_div_le (2 ^ 32 - 1) k ltac:(lia)). nia. }
    rewrite w32_small by nia. eapply wp_mono; [apply wp_KZAlloc; [done|nia]|]. intros p h' [Hp Hz]. left. auto.
Qed.

Lemma wp_heap_call op out h : holds out h → heap_op_ok op → wp (heap_call op out) holds h.
Proof.
  intros (ts & ms & Hok & Hl & Hf) Ho. destruct op as [n|k n|i|i off v]; simpl.
  - wp_step. eapply wp_mono; [by apply wp_KMalloc|]. intros p h' Hp. wp_step. by eapply holds_malloc.
  - wp_step. eapply wp_mono; [by apply wp_KCalloc|]. intros p h' [(_ & Hp & _)|(-> & -> & _)]; wp_step; [by eapply holds_malloc|]. by exists ts, ms.
  - destruct (out !! i) as [[p n]|] eqn:E; [|wp_step; by exists ts, ms].
    destruct (Forall2_lookup_l _ _ _ _ _ Hf E) as ([q m] & Em & Hq & _). simpl in Hq. subst q.
    wp_step. eapply wp_mono; [apply (wp_KFree ts h p m); [done|rewrite Hl; by eapply list_elem_of_lookup_2]|].
    intros _ h' (ts' & Hok' & Hl' & _). wp_step. exists ts', (delete i ms). split; [done|]. split; [|by apply Forall2_delete].
    apply (Permutation_cons_inv (a := (p, m))). rewrite <- Hl', Hl. by apply delete_Permutation.
  - destruct (out !! i) as [[p n]|] eqn:E; [|wp_step; by exists ts, ms].
    destruct (Forall2_lookup_l _ _ _ _ _ Hf E) as ([q m] & Em & Hq & Hn). simpl in Hq, Hn. subst q.
    wp_step. apply wp_when; intros Eo; b2p; [|wp_step; by exists ts, ms]. repeat heap_step.
    exists ts, ms. split; [|done]. apply (heap_ok_payload ts h p m); [done|rewrite Hl; by eapply list_elem_of_lookup_2|].
    intros x Hx. rewrite store_ne; [done|lia].
Qed.
Lemma wp_heap_run ops out h : holds out h → Forall heap_op_ok ops → wp (heap_run ops out) holds h.
Proof.
  intros Hh Ho. revert out h Hh. induction Ho as [|op ops Hop Ho IH]; intros out h Hh; simpl; [by wp_step|].
  wp_step. eapply wp_mono; [by apply wp_heap_call|]. auto.
Qed.

(** * Properties *)

(** [KMalloc] returns for every size up to 2^32 - 2^14, growing the heap if it must.  A pointer
    it returns is 16-byte aligned, has room for the bytes asked for and overlaps no payload
    in use; NULL is returned only for size 0 or if no free block is large enough; the
    bytes of every payload in use stay as they were. *)
Theorem KMalloc_fresh ts h size_ :
  heap_ok ts h → 0 ≤ size_ ≤ 2 ^ 32 - 2 ^ 14 →
  wp (KMalloc OFF size_) (λ p h', ∃ ts', heap_ok ts' h' ∧
    (∀ q m x, (q, m) ∈ live ts → q ≤ x < q + m → h_mem h' x = h_mem h x) ∧
    (p = 0 → live ts' = live ts ∧ (size_ = 0 ∨ Forall (λ t, ¬ fits (align_up size_ ALIGNMENT) t) ts)) ∧
    (p ≠ 0 → p mod ALIGNMENT = 0 ∧ ∃ n, size_ ≤ n ∧ live ts' ≡ₚ (p, n) :: live ts ∧
       ∀ q m, (q, m) ∈ live ts → p + n ≤ q ∨ q + m ≤ p)) h.
Proof.
  intros Hok Hs. eapply wp_mono; [by apply wp_KMalloc|]. intros p h' (ts' & Hok' & Hsame & Hp). exists ts'. split; [done|]. split.
  - intros q m x (u & Hu & Hf & -> & ->)%live_in Hx. apply (Hsame u); [done..|]. unfold t_end. lia.
  - destruct (p =? 0) eqn:E; b2p; (split; [intros ?; subst; tauto|]); [done|]. intros _. destruct Hp as (Ha & n & Hn & Hl). split; [done|].
    exists n. split_and!; [done..|]. intros q m Hq. pose proof (live_nodup _ _ Hok') as Hnd. rewrite Hl in Hnd. apply NoDup_cons in Hnd as [Hnew _].
    apply (live_apart ts' h'); [done|rewrite Hl; by left|rewrite Hl; by right|congruence].
Qed.

(** [KCalloc] of [k] objects of [n] bytes returns zeroed memory for the product, and NULL with the
    heap untouched if the product does not fit 32 bits: a pointer is never returned for a
    wrapped size. *)
Theorem KCalloc_zeroed ts h k n :
  heap_ok ts h → heap_op_ok (HCalloc k n) →
  wp (KCalloc OFF k n) (λ p h', (2 ^ 32 ≤ k * n → p = 0 ∧ h' = h) ∧
    (p ≠ 0 → k * n < 2 ^ 32 ∧ (∀ x, p ≤ x < p + k * n → h_mem h' x = 0) ∧
       ∃ ts' m, heap_ok ts' h' ∧ k * n ≤ m ∧ live ts' ≡ₚ (p, m) :: live ts)) h.
Proof.
  intros Hok Ho. eapply wp_mono; [by apply wp_KCalloc|]. intros p h' [(Hlt & Hp & Hz)|(-> & -> & Hov)]; [|by split].
  split; [lia|]. intros Hne. split_and!; [done|by apply Hz|]. destruct Hp as (ts' & Hok' & _ & Hp).
  rewrite (proj2 (Z.eqb_neq p 0)) in Hp by done. destruct Hp as (_ & m & Hm & Hl). by exists ts', m.
Qed.



(** A size within 15 bytes of 2^32 is rounded up to 0: [KMalloc] then returns a pointer to a
    block without payload instead of NULL. *)
Theorem KMalloc_size_wraps t l2 h size_ :
  heap_ok (t :: l2) h → t_free t = true → 47 ≤ t_size t → 2 ^ 32 - 15 ≤ size_ < 2 ^ 32 →
  wp (KMalloc OFF size_) (λ p h', p = t_at t + HDR ∧ p ≠ 0 ∧ h_mem h' (b_size (t_at t)) = 0) h.
Proof.
  intros Hok Hf Hsz Hs. destruct (block_range [] t l2 h Hok) as [Hpos Hmax]. destruct (block_node [] t l2 h Hok) as (N1 & _ & _ & _).
  unfold KMalloc. rewrite (proj2 (Z.eqb_neq size_ 0)) by lia.
  assert (align_up size_ ALIGNMENT = 0) as ->.
  { change (align_down (w32 (size_ + 16 - 1)) (2 ^ 4) = 0). assert (w32 (size_ + 16 - 1) = size_ + 15 - 2 ^ 32) as ->.
    { unfold w32. Z.div_mod_to_equations. lia. }
    rewrite align_down_spec by lia. change (2 ^ 4) with 16. Z.div_mod_to_equations. lia. }
  cbn [malloc_pass]. repeat heap_step. rewrite (ho_head _ _ Hok).
  apply (wp_find_block 0 _ [] (t :: l2)); [done|by apply blocks_bound|..].
  - intros [|u l3] v l4 [= <- El] _ Hno.
    + unfold take_block. repeat heap_step. rewrite N1. unfold t_end in Hmax. rewrite (w32_small (t_size t - 0)) by (unfold HDR in *; lia).
      apply wp_when; intros Ew; b2p; [|unfold HDR, MIN_PAYLOAD, ALIGNMENT in Ew; lia]. repeat heap_step. apply wp_if; intros _; repeat heap_step.
      all: rewrite w32_small by (unfold HDR in *; lia); split; [done|]; split; [unfold HDR; lia|]; simpl; mem; done.
    + apply Forall_cons in Hno as [Hno _]. destruct Hno. split; [done|lia].
  - intros Hno. apply Forall_cons in Hno as [Hno _]. destruct Hno. split; [done|lia].
Qed.

End heap_laws.

(** * The physical memory manager is a source of frames *)

#[global] Instance pmm_frames {E} `{PmmEnv E} : FrameSource (pworld E) := {|
  PmmAllocFramesContig_ := PmmAllocFramesContig;
  PmmAllocFrame_ := PmmAllocFrame;
  PmmFreeFrame_ := PmmFreeFrame
|}.

Section pmm_source.
Context {E : Type} `{PmmEnvOk E}.
Implicit Types w : pworld E.

Definition pmm_ready w : Prop := pmm_inv w ∧ env_inv w ∧ freelist_ready (pmm w) = true.
Definition pmm_owned w (pa : Z) : Prop := ∃ i, pa = faddr (pmm w) i ∧ pa ≠ 0 ∧ owned w i.

Lemma pmm_owned_mono w w' : same_geom (pmm w) (pmm w') → (∀ j, owned w j → owned w' j) → ∀ q, pmm_owned w q → pmm_owned w' q.
Proof. intros Hg Hown q (i & -> & Hnz & Hi). exists i. rewrite (faddr_same_geom _ _ i Hg). auto. Qed.
Lemma settled_geom w w1 g w' : reshaped w w1 → settled (set_g_sp g w1) w' → same_geom (pmm w) (pmm w').
Proof.
  intros (Hb & He & Ht & Hr & _)%reshaped_pfn (_ & _ & Hs). destruct (env_step_stable _ _ Hs) as ((G1 & G2 & G3 & G4) & _).
  simpl in *. split_and!; congruence.
Qed.
(** The frames of the run at frame [s]. *)
Lemma run_index p s n q : in_run (faddr p s) n q → ∃ k, q = faddr p k ∧ s ≤ k < s + n.
Proof.
  intros [Hr Hm]. exists (q / PAGE_SIZE - pfn_base p). unfold faddr, PAGE_SIZE in *. split; Z.div_mod_to_equations; lia.
Qed.

Lemma pmm_contig w n :
  pmm_ready w → 0 < n →
  wp (PmmAllocFramesContig n) (λ pa w', pmm_ready w' ∧ faddr (pmm w') (total_frames (pmm w')) = faddr (pmm w) (total_frames (pmm w)) ∧
    (∀ q, pmm_owned w q → pmm_owned w' q) ∧
    (pa ≠ 0 → 0 < pa ∧ pa mod PAGE_SIZE = 0 ∧ pa + n * PAGE_SIZE ≤ faddr (pmm w) (total_frames (pmm w)) ∧
      ∀ q, in_run pa n q → ¬ pmm_owned w q ∧ pmm_owned w' q)) w.
Proof.
  intros (Hi & He & Hr) Hn. eapply wp_mono; [by apply wp_PmmAllocFramesContig|]. intros pa w' Hp.
  destruct (contig_post_contract _ _ _ _ _ Hi He Hp) as (Hi' & He' & Hown & Hc).
  assert (same_geom (pmm w) (pmm w')) as Hg.
  { destruct Hp as [(_ & -> & _)|(s & w1 & _ & _ & _ & (_ & Hre & _) & g & Hse)]; [done|by eapply settled_geom]. }
  pose proof Hg as (G1 & G2 & G3 & G4). split_and!; [split_and!; [done..|congruence]|by rewrite G3, (faddr_same_geom _ _ _ Hg)|by eapply pmm_owned_mono|].
  intros Hnz. destruct Hc as [[? _]|(s & -> & _ & ((Hs & Hsn & Hfree) & _) & Hnew)]; [done|].
  pose proof Hi as [((Hb & _) & _) _].
  assert (0 < faddr (pmm w) s) as Hpos by (unfold faddr, PAGE_SIZE in *; lia).
  split_and!; [done|apply faddr_mod|unfold faddr, PAGE_SIZE; lia|]. intros q Hq. destruct (run_index _ _ _ _ Hq) as (k & -> & Hk). split.
  - intros (i & Ei & _ & (_ & Ha & _)). apply faddr_inj in Ei. subst i. by rewrite Hfree in Ha.
  - exists k. rewrite (faddr_same_geom _ _ _ Hg). split_and!; [done|unfold faddr, PAGE_SIZE in *; lia|by apply Hnew].
Qed.

Lemma pmm_take w :
  pmm_ready w →
  wp PmmAllocFrame (λ pa w', pmm_ready w' ∧ faddr (pmm w') (total_frames (pmm w')) = faddr (pmm w) (total_frames (pmm w)) ∧
    (∀ q, pmm_owned w q → pmm_owned w' q) ∧
    (pa ≠ 0 → 0 < pa ∧ pa mod PAGE_SIZE = 0 ∧ pa + PAGE_SIZE ≤ faddr (pmm w) (total_frames (pmm w)) ∧ ¬ pmm_owned w pa ∧ pmm_owned w' pa)) w.
Proof.
  intros (Hi & He & Hr). unfold PmmAllocFrame. wp_step. eapply wp_mono; [by apply wp_PmmTakeFreeFrame|].
  intros pa w2 [(-> & -> & Hz)|(i & w1 & Hif & -> & Hnz & Htk & Hse)]; wp_step; [wp_steps; by split_and!|].
  rewrite (proj2 (Z.eqb_neq _ _) Hnz). simpl. apply wp_SyspageUpdateMem. intros g. wp_step.
  destruct (took_owned _ _ _ _ Hi He Hif Htk Hse) as [Hnew Hown]. pose proof Hse as (Hi2 & He2 & Hs).
  pose proof Hif as [Hir Ha]%elem_of_frees. destruct (reshaped_pfn _ _ (took_reshaped _ _ _ Htk)) as (Gb & Ge & Gt & Gr & _).
  destruct (env_step_stable _ _ Hs) as ((G1 & G2 & G3 & G4) & _). pose proof Hi as [((Hb & _) & _) _].
  assert (same_geom (pmm w) (pmm w2)) as Hg by (split_and!; congruence).
  split_and!; [split_and!; [done|by apply env_inv_g_sp|simpl; congruence]|simpl; by rewrite (faddr_same_geom _ _ _ Hg), G3, Gt|by apply (pmm_owned_mono w w2)|].
  intros _. split_and!; [unfold faddr, PAGE_SIZE in *; lia|apply faddr_mod|unfold faddr, PAGE_SIZE; lia|..].
  - intros (j & Ej & _ & (_ & Hj & _)). apply faddr_inj in Ej. subst j. congruence.
  - exists i. rewrite (faddr_same_geom _ _ _ Hg). by split_and!.
Qed.

Lemma pmm_put w pa :
  pmm_ready w → pmm_owned w pa →
  wp (PmmFreeFrame pa) (λ _ w', pmm_ready w' ∧ faddr (pmm w') (total_frames (pmm w')) = faddr (pmm w) (total_frames (pmm w)) ∧
    (∀ q, pmm_owned w q → q ≠ pa → pmm_owned w' q) ∧ ¬ pmm_owned w' pa) w.
Proof.
  intros (Hi & He & Hr) (i & -> & Hnz & (Hir & Ha & Hne)). eapply wp_mono; [by apply wp_PmmFreeFrame|].
  intros [] w' (Hi' & Hre & Hal). destruct (reshaped_pfn _ _ Hre) as (Gb & Ge & Gt & Gr & _). simpl in Gb, Ge, Gt, Gr.
  assert (same_geom (pmm w) (pmm w')) as Hg by (split_and!; done).
  destruct Hre as (bm & f & hd & ns & Hw').
  assert (ext w' = ext w ∧ layout w' = layout w ∧ subs w' = subs w) as (X1 & X2 & X3).
  { split_and!; [apply (f_equal ext) in Hw'|apply (f_equal layout) in Hw'|apply (f_equal subs) in Hw']; exact Hw'. }
  split_and!; [split_and!; [done| |congruence]|by rewrite (faddr_same_geom _ _ _ Hg), Gt|..].
  - apply (env_inv_mono w); try done; [by rewrite X3|]. intros j Hj Hf Hja. rewrite Hal, Hja by done. rewrite bool_decide_false; [done|]. congruence.
  - intros q (j & -> & Hqnz & (Hjr & Hja & Hjn)) Hq. exists j. rewrite (faddr_same_geom _ _ _ Hg). split_and!; [done..|]. split_and!; [lia|lia| |by rewrite X1].
    rewrite Hal, Hja by lia. rewrite bool_decide_false; [done|]. congruence.
  - intros (j & Ej & _ & (Hjr & Hja & _)). rewrite (faddr_same_geom _ _ _ Hg) in Ej. apply faddr_inj in Ej. subst j.
    rewrite Hal in Hja by lia. by rewrite bool_decide_true in Hja.
Qed.

#[global] Instance pmm_frame_laws : FrameLaws (pworld E) := {|
  frames_ok := pmm_ready;
  frame_owned := pmm_owned;
  frame_limit w := faddr (pmm w) (total_frames (pmm w));
  frame_contig := pmm_contig;
  frame_take := pmm_take;
  frame_put := pmm_put
|}.
End pmm_source.

(** * A small source of frames, for examples

    Frames from 1 up to [bump_end], handed out in order; the state is the next frame and
    the addresses given back. *)
Module Bump.

Definition bump_end : Z := 256.
Definition bump := (Z * list Z)%type.
Definition bump_contig (n : Z) : M bump Z :=
  let! w := get in
  if w.1 + n <=? bump_end then put (w.1 + n, w.2) ;; ret (w.1 * PAGE_SIZE) else ret 0.

#[local] Instance bump_source : FrameSource bump := {|
  PmmAllocFramesContig_ := bump_contig;
  PmmAllocFrame_ := bump_contig 1;
  PmmFreeFrame_ pa := modify (λ w, (w.1, pa :: w.2))
|}.

Definition bump_ok (w : bump) : Prop := 1 ≤ w.1 ≤ bump_end ∧ ∀ q, q ∈ w.2 → q < w.1 * PAGE_SIZE.
Definition bump_owned (w : bump) (q : Z) : Prop := 0 < q < w.1 * PAGE_SIZE ∧ q ∉ w.2.

Lemma bump_contig_ok w n :
  bump_ok w → 0 < n →
  wp (bump_contig n) (λ pa w', bump_ok w' ∧ bump_end * PAGE_SIZE = bump_end * PAGE_SIZE ∧ (∀ q, bump_owned w q → bump_owned w' q) ∧
    (pa ≠ 0 → 0 < pa ∧ pa mod PAGE_SIZE = 0 ∧ pa + n * PAGE_SIZE ≤ bump_end * PAGE_SIZE ∧
       ∀ q, in_run pa n q → ¬ bump_owned w q ∧ bump_owned w' q)) w.
Proof.
  intros [Hr Hg] Hn. unfold bump_contig, bump_ok, bump_owned, in_run, PAGE_SIZE in *. wp_step. apply wp_get. case_if E; wp_steps; simpl.
  - split_and!; [lia|lia|intros q Hq; specialize (Hg q Hq); lia|done|intros q [? ?]; split; [lia|done]|].
    intros _. split_and!; [lia|Z.div_mod_to_equations; lia|lia|]. intros q [Hq _]. split; [lia|]. split; [lia|]. intros Hin. specialize (Hg q Hin). lia.
  - done.
Qed.

#[local] Instance bump_laws : FrameLaws bump.
Proof.
  refine {| frames_ok := bump_ok; frame_owned := bump_owned; frame_limit _ := bump_end * PAGE_SIZE |}.
  - intros w n. apply bump_contig_ok.
  - intros w Hw. eapply wp_mono; [apply (bump_contig_ok w 1 Hw); lia|]. intros pa w' (Hok & _ & Hown & Hp). split_and!; [done..|].
    intros Hne. destruct (Hp Hne) as (H1 & H2 & H3 & H4). split_and!; [done|done|lia|..]; apply H4; split; try done; unfold PAGE_SIZE; lia.
  - intros [nx fr] pa [Hr Hg] [Hpa Hnew]. cbv [wp PmmFreeFrame_ bump_source modify]. unfold bump_ok, bump_owned. simpl in *. split_and!; [lia|lia| |done| |].
    + intros q [->|Hq]%elem_of_cons; [lia|auto].
    + intros q [Hq Hq'] Hne. rewrite not_elem_of_cons. done.
    + intros [_ Hn]. apply Hn. by left.
Defined.

(** Physical memory is mapped at [0x80000000]. *)
Definition OFF : Z := 0x80000000.
Definition fresh : hst bump := mkHst (1, []) (λ _, 0) 7 7 7 7 7 7.
Definition booted : hst bump :=
  match KHeapInit OFF fresh with Ok (_, h) => h | _ => fresh end.
Definition first_tile : tile := mkTile (OFF + PAGE_SIZE) (65 * PAGE_SIZE - HDR) true.

Lemma booted_ok : heap_ok OFF [first_tile] booted.
Proof.
  destruct (KHeapInit_ok OFF fresh booted) as (t & Hok & Hf & _); [split; [vm_compute; done|by intros ? ?%elem_of_nil]|by vm_compute..|].
  assert (t = first_tile) as <-; [|done]. destruct t as [a n f]. destruct (ho_linked _ _ _ Hok) as [(N1 & _) _]. pose proof (ho_head _ _ _ Hok) as Hh.
  simpl in Hf, Hh. subst f. vm_compute in Hh. subst a. vm_compute in N1. by subst n.
Qed.


Lemma KMalloc_fresh_witness :
  wp (KMalloc OFF 100) (λ p h', ∃ ts', heap_ok OFF ts' h' ∧
    (∀ q m x, (q, m) ∈ live [first_tile] → q ≤ x < q + m → h_mem h' x = h_mem booted x) ∧
    (p = 0 → live ts' = live [first_tile] ∧ (100 = 0 ∨ Forall (λ t, ¬ fits (align_up 100 ALIGNMENT) t) [first_tile])) ∧
    (p ≠ 0 → p mod ALIGNMENT = 0 ∧ ∃ n, 100 ≤ n ∧ live ts' ≡ₚ (p, n) :: live [first_tile] ∧
       ∀ q m, (q, m) ∈ live [first_tile] → p + n ≤ q ∨ q + m ≤ p)) booted.
Proof. apply (KMalloc_fresh OFF [first_tile]); [apply booted_ok|lia]. Defined.

Lemma KCalloc_zeroed_witness :
  wp (KCalloc OFF 0x10000 0x10000) (λ p h', (2 ^ 32 ≤ 0x10000 * 0x10000 → p = 0 ∧ h' = booted) ∧
    (p ≠ 0 → 0x10000 * 0x10000 < 2 ^ 32 ∧ (∀ x, p ≤ x < p + 0x10000 * 0x10000 → h_mem h' x = 0) ∧
       ∃ ts' m, heap_ok OFF ts' h' ∧ 0x10000 * 0x10000 ≤ m ∧ live ts' ≡ₚ (p, m) :: live [first_tile])) booted.
Proof. apply (KCalloc_zeroed OFF [first_tile]); [apply booted_ok|split_and!; [done|done|lia]]. Defined.

(** After one allocation of 100 bytes. *)
Definition one : hst bump := match KMalloc OFF 100 booted with Ok (_, h) => h | _ => booted end.
Definition payload : Z := OFF + PAGE_SIZE + HDR.

Lemma one_ok : ∃ ts n, heap_ok OFF ts one ∧ (payload, n) ∈ live ts.
Proof.
  assert (match KMalloc OFF 100 booted with Ok (p, _) => p | _ => 0 end = payload) as E by (by vm_compute).
  destruct (wp_Ok _ _ _ (wp_KMalloc OFF [first_tile] booted 100 booted_ok ltac:(lia))) as (p & h' & Em & Hw).
  rewrite Em in E. subst p. assert (one = h') as -> by (unfold one; by rewrite Em).
  destruct Hw as (ts & Hok & _ & Hp). change (payload =? 0) with false in Hp. cbv iota in Hp. destruct Hp as (_ & n & _ & Hl).
  exists ts, n. split; [done|]. rewrite Hl. by left.
Qed.


Lemma KMalloc_size_wraps_witness :
  wp (KMalloc OFF 0xFFFFFFFF) (λ p h', p = OFF + PAGE_SIZE + HDR ∧ p ≠ 0 ∧ h_mem h' (b_size (OFF + PAGE_SIZE)) = 0) booted.
Proof. apply (KMalloc_size_wraps OFF first_tile []); [apply booted_ok|done|by vm_compute|lia]. Defined.

End Bump.
