(* ===== verification/Slab.v ===== *)
(** Slab caches (kernel/mm/alloc.c): each cache carves pages into objects of one size and
    keeps its pages in a list of partly used and a list of fully used slabs, with at most
    one unused slab held back.

    The cache, the slab headers at the start of each page and the free objects, which hold
    the link to the next free one, all lie in the memory of words of [Heap]. *)
From stdpp Require Import sorting.
From S2P Require Import Prelude Heap.

#[local] Open Scope Z_scope.

(** * Layout (kernel/mm/alloc.h) *)

(** [KSlab], at the start of its page. *)
Definition s_next (s : Z) : Z := s.
Definition s_prev (s : Z) : Z := s + 4.
Definition s_owner_cache (s : Z) : Z := s + 8.
Definition s_used (s : Z) : Z := s + 12.
Definition s_capacity (s : Z) : Z := s + 16.
Definition s_free_head (s : Z) : Z := s + 20.
Definition sizeof_KSlab : Z := 24.

(** [KSlabCache]. *)
Definition c_obj_size (c : Z) : Z := c.
Definition c_partial (c : Z) : Z := c + 4.
Definition c_full (c : Z) : Z := c + 8.
Definition c_empty_hold (c : Z) : Z := c + 12.

(** [align_up(sizeof(KSlab), 8)] *)
Definition hdr_size : Z := align_up sizeof_KSlab 8.

(** * Operations *)

Section slab.
Context {W : Type} `{FrameSource W} (KERNEL_VA_OFFSET : Z).
#[local] Notation HM := (M (hst W)).

(** [head] is the address of a list head. *)
Definition SlabListPush (head slab : Z) : HM unit :=
  st (s_prev slab) 0 ;;
  let! first := ld head in
  st (s_next slab) first ;;
  let! first := ld head in
  when (negb (first =? 0)) (let! first := ld head in st (s_prev first) slab) ;;
  st head slab.

Definition SlabListRemove (head slab : Z) : HM unit :=
  let! prev := ld (s_prev slab) in
  let! next := ld (s_next slab) in
  (if negb (prev =? 0) then st (s_next prev) next else st head next) ;;
  let! next := ld (s_next slab) in
  when (negb (next =? 0)) (let! prev := ld (s_prev slab) in st (s_prev next) prev) ;;
  st (s_prev slab) 0 ;;
  st (s_next slab) 0.

(** The loop of [SlabGrow] from object [i] on, [n] to go. *)
Fixpoint slab_fill (n : nat) (slab data size_ i : Z) : HM unit :=
  match n with
  | O => ret tt
  | S n' =>
      let slot := w32 (data + i * size_) in
      let! head := ld (s_free_head slab) in
      st slot head ;;
      st (s_free_head slab) slot ;;
      slab_fill n' slab data size_ (i + 1)
  end.

Definition SlabGrow (cache : Z) : HM Z :=
  let! pa := on_w PmmAllocFrame_ in
  if pa =? 0 then ret 0 else
  let slab := PA_TO_VA KERNEL_VA_OFFSET pa in
  let data := w32 (slab + hdr_size) in
  let usable := w32 (PAGE_SIZE - hdr_size) in
  st (s_owner_cache slab) cache ;;
  let! size_ := ld (c_obj_size cache) in
  st (s_capacity slab) (usable / size_) ;;
  st (s_used slab) 0 ;;
  st (s_free_head slab) 0 ;;
  let! capacity := ld (s_capacity slab) in
  let! size_ := ld (c_obj_size cache) in
  slab_fill (Z.to_nat capacity) slab data size_ 0 ;;
  SlabListPush (c_partial cache) slab ;;
  ret slab.

Definition CreateSlabCache (cache obj_size : Z) : HM unit :=
  let obj_size := if obj_size <? 4 then 4 else obj_size in
  st (c_obj_size cache) (align_up obj_size 8) ;;
  st (c_partial cache) 0 ;;
  st (c_full cache) 0 ;;
  st (c_empty_hold cache) 0 ;;
  let! size_ := ld (c_obj_size cache) in
  assert (size_ <=? w32 (PAGE_SIZE - hdr_size)).

(** The slab [SlabAlloc] takes an object from, or 0. *)
Definition alloc_slab (cache : Z) : HM Z :=
  let! slab := ld (c_partial cache) in
  if negb (slab =? 0) then ret slab else
  let! hold := ld (c_empty_hold cache) in
  if negb (hold =? 0) then
    let! slab := ld (c_empty_hold cache) in
    st (c_empty_hold cache) 0 ;;
    SlabListPush (c_partial cache) slab ;;
    ret slab
  else SlabGrow cache.

Definition SlabAlloc (cache : Z) : HM Z :=
  let! slab := alloc_slab cache in
  if slab =? 0 then ret 0 else
  let! obj := ld (s_free_head slab) in
  let! next := ld obj in
  st (s_free_head slab) next ;;
  let! used := ld (s_used slab) in
  st (s_used slab) (w32 (used + 1)) ;;
  let! head := ld (s_free_head slab) in
  when (head =? 0)
    (SlabListRemove (c_partial cache) slab ;; SlabListPush (c_full cache) slab) ;;
  ret obj.

(** The end of [SlabFree] for a slab without objects in use: it leaves the list and is held
    back, or its page is freed. *)
Definition retire (cache slab : Z) : HM unit :=
  SlabListRemove (c_partial cache) slab ;;
  let! hold := ld (c_empty_hold cache) in
  if hold =? 0 then st (c_empty_hold cache) slab
  else on_w (PmmFreeFrame_ (VA_TO_PA KERNEL_VA_OFFSET slab)).

Definition SlabFree (cache ptr : Z) : HM unit :=
  assert (negb (cache =? 0)) ;;
  assert (negb (ptr =? 0)) ;;
  let slab := align_down ptr PAGE_SIZE in
  let! owner := ld (s_owner_cache slab) in
  assert (owner =? cache) ;;
  let! head := ld (s_free_head slab) in
  let was_full := head =? 0 in
  let! head := ld (s_free_head slab) in
  st ptr head ;;
  st (s_free_head slab) ptr ;;
  let! used := ld (s_used slab) in
  st (s_used slab) (w32 (used - 1)) ;;
  when was_full
    (SlabListRemove (c_full cache) slab ;; SlabListPush (c_partial cache) slab) ;;
  let! used := ld (s_used slab) in
  when (used =? 0) (retire cache slab).

Definition KSlabInit (cache obj_size : Z) : HM unit := CreateSlabCache cache obj_size.
Definition KSlabAlloc (cache : Z) : HM Z := SlabAlloc cache.
Definition KSlabFree (cache ptr : Z) : HM unit := when (negb (ptr =? 0)) (SlabFree cache ptr).

End slab.

(** * Slab lists *)

(** The slabs at [l] are linked from [p] to [n]. *)
Fixpoint dll (m : Z → Z) (p : Z) (l : list Z) (n : Z) : Prop :=
  match l with
  | [] => True
  | s :: l' => m (s_prev s) = p ∧ m (s_next s) = hd n l' ∧ dll m s l' n
  end.
Definition back (p : Z) (l : list Z) : Z := default p (last l).

(** Slabs are pages of their own. *)
Definition pages (l : list Z) : Prop := NoDup l ∧ Forall (λ s, 0 < s ∧ s mod PAGE_SIZE = 0) l.
Definition in_page (s x : Z) : Prop := s ≤ x < s + PAGE_SIZE.
(** The words of the links of [l]. *)
Definition link_of (l : list Z) (x : Z) : Prop := ∃ s, s ∈ l ∧ (x = s_next s ∨ x = s_prev s).

Lemma page_apart s t x : s mod PAGE_SIZE = 0 → t mod PAGE_SIZE = 0 → in_page s x → in_page t x → s = t.
Proof. unfold in_page, PAGE_SIZE. intros. Z.div_mod_to_equations. lia. Qed.
Lemma pages_in l s : pages l → s ∈ l → 0 < s ∧ s mod PAGE_SIZE = 0.
Proof. intros [_ Hf] Hs. by apply (proj1 (Forall_forall _ _) Hf). Qed.
Lemma pages_cons s l : pages (s :: l) ↔ (s ∉ l ∧ 0 < s ∧ s mod PAGE_SIZE = 0) ∧ pages l.
Proof. unfold pages. rewrite NoDup_cons, Forall_cons. tauto. Qed.
Lemma pages_perm l l' : l ≡ₚ l' → pages l → pages l'.
Proof. unfold pages. by intros ->. Qed.
Lemma pages_app l l' : pages (l ++ l') → pages l ∧ pages l' ∧ ∀ s, s ∈ l → s ∉ l'.
Proof. unfold pages. rewrite NoDup_app, Forall_app. naive_solver. Qed.
Lemma pages_ne l s t x y : pages l → s ∈ l → t ∈ l → s ≠ t → in_page s x → in_page t y → x ≠ y.
Proof.
  intros Hp Hs Ht Hne Hx Hy <-. apply Hne, (page_apart s t x); [|by eapply pages_in..|done|done].
  by eapply (pages_in l).
Qed.

Lemma links_frame m m' p l n : (∀ x, link_of l x → m' x = m x) → dll m p l n → dll m' p l n.
Proof.
  revert p. induction l as [|s l IH]; intros p Hf; simpl; [done|]. intros (H1 & H2 & H3).
  split_and!; [rewrite Hf; [done|]|rewrite Hf; [done|]|apply IH; [|done]].
  - exists s. split; [by left|by right].
  - exists s. split; [by left|by left].
  - intros x (t & Ht & Hx). apply Hf. exists t. split; [by right|done].
Qed.
Lemma back_cons p s l : back p (s :: l) = back s l.
Proof. unfold back. by destruct l as [|t l]; [|rewrite last_cons; destruct (last (t :: l)) eqn:E; [|by apply last_None in E]]. Qed.
Lemma dll_app m p l l' n : dll m p (l ++ l') n ↔ dll m p l (hd n l') ∧ dll m (back p l) l' n.
Proof.
  revert p. induction l as [|s l IH]; intros p; simpl; [unfold back; simpl; tauto|]. rewrite IH, back_cons.
  assert (hd n (l ++ l') = hd (hd n l') l) as -> by (by destruct l). tauto.
Qed.
Lemma link_app l l' x : link_of (l ++ l') x ↔ link_of l x ∨ link_of l' x.
Proof. unfold link_of. setoid_rewrite elem_of_app. naive_solver. Qed.
Lemma link_cons s l x : link_of (s :: l) x ↔ x = s_next s ∨ x = s_prev s ∨ link_of l x.
Proof. unfold link_of. setoid_rewrite elem_of_cons. naive_solver. Qed.
Lemma link_in_page l x : link_of l x → ∃ s, s ∈ l ∧ in_page s x.
Proof. intros (s & Hs & Hx). exists s. split; [done|]. unfold in_page, s_next, s_prev, PAGE_SIZE in *. lia. Qed.
Lemma hd_zero l : pages l → hd 0 l = 0 → l = [].
Proof. destruct l as [|s l]; [done|]. intros [(_ & ? & _) _]%pages_cons. simpl. lia. Qed.

(** Word addresses are compared by [lia]. *)
Ltac words := unfold in_page, s_next, s_prev, s_owner_cache, s_used, s_capacity, s_free_head, c_obj_size, c_partial, c_full, c_empty_hold, PAGE_SIZE in *; lia.
(** Reads after writes. *)
Ltac reads := repeat first [rewrite store_eq | rewrite store_ne by words].

(** ** Pushing and removing *)

Section lists.
Context {W : Type}.
#[local] Notation hst := (hst W).
Implicit Types h : hst.

(** The list head at [head] lies in none of the pages [l]. *)
Definition head_apart (head : Z) (l : list Z) : Prop := ∀ s, s ∈ l → ¬ in_page s head.
Lemma page_gap l s t : pages l → s ∈ l → t ∈ l → s ≠ t → s + PAGE_SIZE ≤ t ∨ t + PAGE_SIZE ≤ s.
Proof.
  intros Hp Hs Ht Hne. pose proof (pages_in _ _ Hp Hs). pose proof (pages_in _ _ Hp Ht). unfold PAGE_SIZE in *. Z.div_mod_to_equations. lia.
Qed.
Definition push_mem (m : Z → Z) (head s : Z) (l : list Z) : Z → Z :=
  let m1 := store (store m (s_prev s) 0) (s_next s) (hd 0 l) in
  store (match l with [] => m1 | t :: _ => store m1 (s_prev t) s end) head s.

Lemma push_mem_spec m head s l :
  pages (s :: l) → dll m 0 l 0 → head_apart head (s :: l) →
  let m' := push_mem m head s l in
  m' head = s ∧ dll m' 0 (s :: l) 0 ∧ ∀ x, x ≠ head → ¬ link_of (s :: l) x → m' x = m x.
Proof.
  intros Hp Hl Ha m'. assert (¬ in_page s head) as Hs by (apply Ha; by left). unfold m', push_mem.
  destruct l as [|t l]; (split; [apply store_eq|]); (split; [|intros x Hx Hn; rewrite !link_cons in Hn; rewrite !store_ne by tauto; done]).
  - simpl. split_and!; [reads; done..|done].
  - pose proof (page_gap _ s t Hp ltac:(by left) ltac:(right; by left)) as Hst.
    assert (s ≠ t) as Hne by (intros <-; apply pages_cons in Hp as [(Hn & _) _]; apply Hn; by left). specialize (Hst Hne).
    assert (¬ in_page t head) as Ht by (apply Ha; right; by left). destruct Hl as (Hl1 & Hl2 & Hl3).
    simpl. split_and!; [reads; done..|]. eapply links_frame; [|exact Hl3]. intros x (u & Hu & Hx).
    assert (¬ in_page u head) as Hu' by (apply Ha; right; by right).
    assert (s ≠ u ∧ t ≠ u) as [Hsu Htu].
    { pose proof Hp as [(Hsn & _) [(Htn & _) _]%pages_cons]%pages_cons. split; intros <-; [apply Hsn; by right|done]. }
    pose proof (page_gap _ s u Hp ltac:(by left) ltac:(right; by right) Hsu). pose proof (page_gap _ t u Hp ltac:(right; by left) ltac:(right; by right) Htu).
    destruct Hx as [-> | ->]; reads; done.
Qed.

Lemma wp_SlabListPush head s l h Q :
  pages (s :: l) → h_mem h head = hd 0 l → dll (h_mem h) 0 l 0 → head_apart head (s :: l) →
  (∀ m', m' head = s → dll m' 0 (s :: l) 0 → (∀ x, x ≠ head → ¬ link_of (s :: l) x → m' x = h_mem h x) → Q tt (set_h_mem m' h)) →
  wp (SlabListPush head s) Q h.
Proof.
  intros Hp Hh Hl Ha HQ. destruct (push_mem_spec (h_mem h) head s l Hp Hl Ha) as (H1 & H2 & H3). specialize (HQ _ H1 H2 H3).
  assert (¬ in_page s head) as Hs by (apply Ha; by left). unfold SlabListPush. do 8 heap_step. simpl.
  assert (store (h_mem h) (s_prev s) 0 head = hd 0 l) as E1 by (reads; done). rewrite !E1, store_ne, E1 by words.
  unfold push_mem in HQ. wp_step. apply wp_when; intros E; b2p.
  - destruct l as [|t l]; [done|]. repeat heap_step. simpl. rewrite store_ne, E1 by words. exact HQ.
  - apply hd_zero in E; [|by apply pages_cons in Hp as [_ ?]]. subst l. repeat heap_step. exact HQ.
Qed.

(** A write to another page, or to the head, leaves the links of [l]. *)
Lemma dll_store ps m p l n a w v :
  pages ps → l ⊆ ps → a ∈ ps → a ∉ l → in_page a w → dll m p l n → dll (store m w v) p l n.
Proof.
  intros Hp Hl Ha Hn Hw. apply links_frame. intros x (s & Hs & Hx). assert (s ≠ a) as Hne by congruence.
  pose proof (page_gap _ _ _ Hp (Hl _ Hs) Ha Hne). apply store_ne. words.
Qed.
Lemma dll_store_head m p l n head v : head_apart head l → dll m p l n → dll (store m head v) p l n.
Proof.
  intros Ha. apply links_frame. intros x (s & Hs & Hx)%link_in_page. specialize (Ha s Hs). apply store_ne. intros ->. done.
Qed.

Lemma link_disj ps l l' x : pages ps → l ⊆ ps → l' ⊆ ps → (∀ s, s ∈ l → s ∉ l') → link_of l x → ¬ link_of l' x.
Proof.
  intros Hp Hl Hl' Hd (s & Hs & Hx)%link_in_page (t & Ht & Hx')%link_in_page. assert (s ≠ t) as Hne by (intros <-; by apply (Hd s)).
  pose proof (page_gap _ _ _ Hp (Hl _ Hs) (Hl' _ Ht) Hne). words.
Qed.
Lemma head_not_link head l : head_apart head l → ¬ link_of l head.
Proof. intros Ha (s & Hs & Hp)%link_in_page. by apply (Ha s). Qed.

(** The list before the slab now leads to [n]: its last element, or the head. *)
Definition relink_front (m : Z → Z) (head : Z) (l1 : list Z) (n : Z) : Z → Z :=
  match last l1 with Some t => store m (s_next t) n | None => store m head n end.
Lemma relink_front_spec m head l1 n n' :
  pages l1 → m head = hd n l1 → dll m 0 l1 n → head_apart head l1 →
  let m' := relink_front m head l1 n' in
  m' head = hd n' l1 ∧ dll m' 0 l1 n' ∧ ∀ x, x ≠ head → ¬ link_of l1 x → m' x = m x.
Proof.
  intros Hp Hh Hl Ha. unfold relink_front. destruct l1 as [|t l0 _] using rev_ind; simpl.
  - split_and!; [by rewrite store_eq|done|]. intros x Hx _. by rewrite store_ne.
  - rewrite last_snoc. assert (¬ in_page t head) as Ht by (apply Ha, elem_of_app; right; by left).
    assert (t ∉ l0) as Hn by (destruct Hp as [(_ & Hd & _)%NoDup_app _]; intros Hx; apply (Hd t Hx); by left).
    split_and!.
    + rewrite store_ne by words. rewrite Hh. by destruct l0.
    + rewrite dll_app in Hl |- *. destruct Hl as [Hl (H1 & H2 & _)]. split.
      * eapply (dll_store (l0 ++ [t])); [done|intros x Hx; apply elem_of_app; by left|apply elem_of_app; right; by left|done|words|exact Hl].
      * simpl. split_and!; [reads; done..|done].
    + intros x Hx Hnl. apply store_ne. intros ->. apply Hnl. exists t. split; [apply elem_of_app; right; by left|by left].
Qed.

(** The list after the slab now comes from [p]. *)
Definition relink_back (m : Z → Z) (l2 : list Z) (p : Z) : Z → Z :=
  match l2 with [] => m | u :: _ => store m (s_prev u) p end.
Lemma relink_back_spec m l2 p p' n :
  pages l2 → dll m p l2 n →
  let m' := relink_back m l2 p' in dll m' p' l2 n ∧ ∀ x, ¬ link_of l2 x → m' x = m x.
Proof.
  intros Hp Hl. destruct l2 as [|u l]; simpl; [done|]. destruct Hl as (H1 & H2 & H3). split.
  - split_and!; [apply store_eq|reads; done|]. eapply (dll_store (u :: l)); [done|intros x Hx; by right|by left| |words|exact H3].
    by apply pages_cons in Hp as [(? & _) _].
  - intros x Hx. apply store_ne. intros ->. apply Hx. rewrite link_cons. auto.
Qed.

Lemma wp_SlabListRemove head s l1 l2 h Q :
  pages (l1 ++ s :: l2) → h_mem h head = hd 0 (l1 ++ s :: l2) → dll (h_mem h) 0 (l1 ++ s :: l2) 0 → head_apart head (l1 ++ s :: l2) →
  (∀ m', m' head = hd 0 (l1 ++ l2) → dll m' 0 (l1 ++ l2) 0 → (∀ x, x ≠ head → ¬ link_of (l1 ++ s :: l2) x → m' x = h_mem h x) → Q tt (set_h_mem m' h)) →
  wp (SlabListRemove head s) Q h.
Proof.
  intros Hp Hh Hl Ha HQ. pose proof Hp as (P1 & P2 & Pd)%pages_app. pose proof P2 as [(N2 & Hs0 & _) P3]%pages_cons.
  assert (s ∉ l1) as N1 by (intros Hx; apply (Pd s Hx); by left).
  assert (∀ x, x ∈ l1 → x ∉ l2) as N12 by (intros x Hx ?; apply (Pd x Hx); by right).
  assert (l1 ⊆ l1 ++ s :: l2 ∧ l2 ⊆ l1 ++ s :: l2 ∧ [s] ⊆ l1 ++ s :: l2) as (S1 & S2 & S3).
  { split_and!; intros x Hx; apply elem_of_app; [by left|right; by right|apply list_elem_of_singleton in Hx as ->; right; by left]. }
  assert (head_apart head l1 ∧ head_apart head l2 ∧ ¬ in_page s head) as (A1 & A2 & A3).
  { split_and!; [intros x Hx; by apply Ha, S1|intros x Hx; by apply Ha, S2|apply Ha, S3; by left]. }
  rewrite dll_app in Hl. destruct Hl as [Hl1 (Hs1 & Hs2 & Hl2)]. simpl in Hl1.
  set (m := h_mem h) in *. set (m1 := relink_front m head l1 (hd 0 l2)). set (m2 := relink_back m1 l2 (back 0 l1)).
  set (m3 := store (store m2 (s_prev s) 0) (s_next s) 0).
  destruct (relink_front_spec m head l1 s (hd 0 l2) P1) as (F1 & F2 & F3); [rewrite Hh; by destruct l1|done|done|]. fold m1 in F1, F2, F3.
  destruct (relink_back_spec m1 l2 s (back 0 l1) 0 P3) as (B1 & B2).
  { eapply links_frame; [|exact Hl2]. intros x Hx. apply F3; [intros ->; by eapply head_not_link|]. apply (link_disj _ l2 l1 _ Hp S2 S1); [|done]. intros y Hy1 Hy2. by apply (N12 y). }
  fold m2 in B1, B2.
  assert (∀ x, link_of [s] x → ¬ link_of l1 x ∧ ¬ link_of l2 x ∧ x ≠ head) as Hsl.
  { intros x Hx. split_and!.
    - apply (link_disj _ [s] l1 _ Hp S3 S1); [|done]. by intros y ->%list_elem_of_singleton.
    - apply (link_disj _ [s] l2 _ Hp S3 S2); [|done]. by intros y ->%list_elem_of_singleton.
    - rewrite link_cons in Hx. destruct Hx as [->|[->|(? & ?%elem_of_nil & _)]]; [words|words|done]. }
  assert (∀ x, ¬ link_of [s] x → m3 x = m2 x) as F4.
  { intros x Hx. rewrite !link_cons in Hx. unfold m3. rewrite !store_ne by tauto. done. }
  assert (∀ x, x ≠ head → ¬ link_of (l1 ++ s :: l2) x → m3 x = m x) as F5.
  { intros x Hx Hn. rewrite link_app, link_cons in Hn. rewrite F4 by (rewrite !link_cons; intros [->|[->|(? & ?%elem_of_nil & _)]]; tauto).
    rewrite B2, F3 by tauto. done. }
  assert (m3 head = hd 0 (l1 ++ l2)) as F6.
  { rewrite F4, B2, F1; [by destruct l1|by apply head_not_link|]. intros Hx. by destruct (Hsl _ Hx) as (_ & _ & ?). }
  assert (dll m3 0 (l1 ++ l2) 0) as F7.
  { rewrite dll_app. split; eapply links_frame; [|exact F2| |exact B1].
    - intros x Hx. rewrite F4, B2; [done|by apply (link_disj _ l1 l2 _ Hp S1 S2)|]. intros Hx'. by destruct (Hsl _ Hx').
    - intros x Hx. rewrite F4; [done|]. intros Hx'. by destruct (Hsl _ Hx') as (_ & ? & _). }
  specialize (HQ m3 F6 F7 F5). clear F5 F6 F7.
  assert (m1 (s_next s) = hd 0 l2 ∧ m1 (s_prev s) = back 0 l1) as [Hn1 Hn2].
  { destruct (Hsl (s_next s)) as (? & _ & ?); [rewrite link_cons; auto|]. destruct (Hsl (s_prev s)) as (? & _ & ?); [rewrite link_cons; auto|].
    rewrite !F3 by done. done. }
  unfold SlabListRemove. do 4 heap_step. fold m. rewrite Hs1, Hs2. wp_step.
  assert (wp (if negb (back 0 l1 =? 0) then st (s_next (back 0 l1)) (hd 0 l2) else st head (hd 0 l2)) (λ _ h', h' = set_h_mem m1 h) h) as Hw1.
  { unfold m1, relink_front, back. destruct l1 as [|t l0 _] using rev_ind; [by repeat heap_step|]. rewrite last_snoc. simpl.
    assert (0 < t) as Ht by (apply (pages_in _ t P1), elem_of_app; right; by left). rewrite (proj2 (Z.eqb_neq t 0)) by lia. by repeat heap_step. }
  eapply wp_mono; [exact Hw1|]. intros [] ? ->. do 2 heap_step. simpl. rewrite Hn1. wp_step.
  assert (wp (when (negb (hd 0 l2 =? 0)) (let! prev := ld (s_prev s) in st (s_prev (hd 0 l2)) prev)) (λ _ h', h' = set_h_mem m2 h) (set_h_mem m1 h)) as Hw2.
  { apply wp_when; intros E; b2p.
    - repeat heap_step. simpl. rewrite Hn2. unfold m2, relink_back. by destruct l2.
    - apply hd_zero in E; [|done]. unfold m2. by rewrite E. }
  eapply wp_mono; [exact Hw2|]. intros [] ? ->. repeat heap_step. exact HQ.
Qed.
End lists.

(** * Slabs *)

(** A slab at [g_at] whose free objects are [g_free], in the order of their links. *)
Record slab := mkSlab { g_at : Z; g_free : list Z }.

(** The objects a slab holds, and where they are. *)
Definition cap (k : Z) : Z := (PAGE_SIZE - 24) / k.
Definition slots (k a : Z) : list Z := (λ i, a + 24 + i * k) <$> seqZ 0 (cap k).
(** The objects of a slab in use. *)
Definition objs (k : Z) (s : slab) : list Z := filter (λ x, x ∉ g_free s) (slots k (g_at s)).

Fixpoint chain (m : Z → Z) (p : Z) (l : list Z) : Prop :=
  match l with [] => p = 0 | x :: l' => p = x ∧ chain m (m x) l' end.
Record body (m : Z → Z) (c k : Z) (s : slab) : Prop := {
  bd_owner : m (s_owner_cache (g_at s)) = c;
  bd_cap : m (s_capacity (g_at s)) = cap k;
  bd_used : m (s_used (g_at s)) = cap k - Z.of_nat (length (g_free s));
  bd_free : chain m (m (s_free_head (g_at s))) (g_free s);
  bd_nodup : NoDup (g_free s);
  bd_slots : g_free s ⊆ slots k (g_at s)
}.
Definition size_ok (k : Z) : Prop := 8 ≤ k ≤ PAGE_SIZE - 24 ∧ k mod 8 = 0.

Section body.
Context (k : Z) (Hk : size_ok k).

Lemma cap_bounds : 1 ≤ cap k ≤ 509 ∧ cap k * k ≤ PAGE_SIZE - 24.
Proof.
  destruct Hk as [Hr _]. unfold cap, PAGE_SIZE in *. change (4096 - 24) with 4072 in *. pose proof (Z.mul_div_le 4072 k ltac:(lia)).
  pose proof (Z.div_le_lower_bound 4072 k 1 ltac:(lia) ltac:(lia)). pose proof (Z.div_le_upper_bound 4072 k 509 ltac:(lia) ltac:(lia)). lia.
Qed.
Lemma elem_slots a x : x ∈ slots k a ↔ ∃ i, x = a + 24 + i * k ∧ 0 ≤ i < cap k.
Proof. unfold slots. rewrite list_elem_of_fmap. setoid_rewrite elem_of_seqZ. done. Qed.
Lemma slot_in_page a x : x ∈ slots k a → a + 24 ≤ x ∧ x + k ≤ a + PAGE_SIZE.
Proof. rewrite elem_slots. intros (i & -> & Hi). pose proof cap_bounds as [_ Hc]. destruct Hk as [Hr _]. nia. Qed.
Lemma slot_gap a x y : x ∈ slots k a → y ∈ slots k a → x ≠ y → x + k ≤ y ∨ y + k ≤ x.
Proof. rewrite !elem_slots. intros (i & -> & Hi) (j & -> & Hj) Hne. destruct Hk as [Hr _]. assert (i < j ∨ j < i) as [?|?] by nia; nia. Qed.
Lemma slot_aligned a x : a mod PAGE_SIZE = 0 → x ∈ slots k a → x mod 8 = 0.
Proof.
  rewrite elem_slots. intros Ha (i & -> & _). destruct Hk as [_ Hm]. apply Z.mod_divide in Ha, Hm; [|done..]. destruct Ha as [q ->], Hm as [r ->].
  replace (q * PAGE_SIZE + 24 + i * (r * 8)) with ((q * 512 + 3 + i * r) * 8) by (unfold PAGE_SIZE; ring). apply Z.mod_mul. done.
Qed.
Lemma NoDup_slots a : NoDup (slots k a).
Proof.
  apply NoDup_fmap_2_strong; [|apply NoDup_seqZ]. intros i j _ _ E. destruct Hk as [Hr _]. nia.
Qed.
Lemma length_slots a : Z.of_nat (length (slots k a)) = cap k.
Proof. unfold slots. rewrite length_fmap, length_seqZ. pose proof cap_bounds. lia. Qed.

Lemma chain_frame m m' p l : (∀ x, x ∈ l → m' x = m x) → chain m p l → chain m' p l.
Proof.
  revert p. induction l as [|x l IH]; intros p Hf; simpl; [done|]. intros [-> Hc]. split; [done|]. rewrite Hf by (by left). apply IH; [|done].
  intros y Hy. apply Hf. by right.
Qed.
Lemma body_frame m m' c s : (∀ x, g_at s + 8 ≤ x < g_at s + PAGE_SIZE → m' x = m x) → body m c k s → body m' c k s.
Proof.
  intros Hf [H1 H2 H3 H4 H5 H6]. split; try done; try (rewrite Hf by words; done).
  rewrite Hf by words. eapply chain_frame; [|exact H4]. intros x Hx%H6%slot_in_page. apply Hf. destruct Hk. lia.
Qed.
(** The counter and the free list do not disagree. *)
Lemma body_free_length m c s : body m c k s → Z.of_nat (length (g_free s)) ≤ cap k.
Proof.
  intros []. rewrite <- (length_slots (g_at s)). apply inj_le, submseteq_length, NoDup_submseteq; done.
Qed.

(** Taking the first free object, and returning one. *)
Lemma body_pop m c s p fr :
  0 < g_at s → body m c k s → g_free s = p :: fr →
  m (s_free_head (g_at s)) = p ∧ p ∈ slots k (g_at s) ∧
  body (store (store m (s_free_head (g_at s)) (m p)) (s_used (g_at s)) (w32 (m (s_used (g_at s)) + 1))) c k (mkSlab (g_at s) fr).
Proof.
  intros Ha Hb E. pose proof (body_free_length _ _ _ Hb) as Hlen. destruct Hb as [H1 H2 H3 H4 H5 H6]. rewrite E in *. destruct H4 as [-> H4].
  assert (p ∈ slots k (g_at s)) as Hp by (apply H6; by left). apply NoDup_cons in H5 as [N1 N2]. pose proof cap_bounds. simpl in H3, Hlen.
  split; [done|]. split; [done|]. split; simpl; try done; try (reads; done).
  - reads. rewrite H3, w32_small by lia. lia.
  - reads. eapply chain_frame; [|exact H4]. intros x Hx. assert (x ∈ slots k (g_at s)) as Hxs by (apply H6; by right). pose proof (slot_in_page _ _ Hxs). reads. done.
  - intros x Hx. apply H6. by right.
Qed.
Lemma body_push m c s p :
  0 < g_at s → body m c k s → p ∈ objs k s → p ≠ 0 →
  body (store (store (store m p (m (s_free_head (g_at s)))) (s_free_head (g_at s)) p) (s_used (g_at s)) (w32 (m (s_used (g_at s)) - 1)))
    c k (mkSlab (g_at s) (p :: g_free s)).
Proof.
  intros Ha Hb [Hnew Hp]%list_elem_of_filter Hp0. pose proof (slot_in_page _ _ Hp) as Hr. destruct Hb as [H1 H2 H3 H4 H5 H6]. pose proof cap_bounds as [Hc _].
  assert (Z.of_nat (length (p :: g_free s)) ≤ cap k) as Hlen.
  { rewrite <- (length_slots (g_at s)). apply inj_le, submseteq_length, NoDup_submseteq; [by constructor|]. intros x [->|Hx]%elem_of_cons; auto. }
  simpl in Hlen. destruct Hk as [Hk1 _]. split; simpl; try (reads; done).
  - reads. rewrite H3, w32_small by lia. lia.
  - reads. split; [done|]. reads. eapply chain_frame; [|exact H4]. intros x Hx. pose proof (slot_in_page _ _ (H6 _ Hx)). assert (x ≠ p) by congruence.
    reads. done.
  - by constructor.
  - intros x [->|Hx]%elem_of_cons; auto.
Qed.
Lemma objs_nil s : slots k (g_at s) ⊆ g_free s → objs k s = [].
Proof.
  intros Hs. destruct (objs k s) as [|x l] eqn:E; [done|]. assert (x ∈ objs k s) as [Hx Hin]%list_elem_of_filter by (rewrite E; by left).
  by destruct Hx; apply Hs.
Qed.
(** A slab whose objects are all free has none in use. *)
Lemma objs_unused m c s : body m c k s → Z.of_nat (length (g_free s)) = cap k → objs k s = [].
Proof.
  intros [_ _ _ _ Hn Hs] Hl. apply objs_nil. apply NoDup_submseteq in Hs; [|done]. rewrite <- (length_slots (g_at s)) in Hl.
  apply submseteq_length_Permutation in Hs; [|lia]. intros x. by rewrite Hs.
Qed.
Lemma objs_pop s p fr :
  g_free s = p :: fr → NoDup (g_free s) → p ∈ slots k (g_at s) → objs k (mkSlab (g_at s) fr) ≡ₚ p :: objs k s.
Proof.
  intros E Hn Hp. rewrite E in Hn. apply NoDup_cons in Hn as [Hn _]. apply NoDup_Permutation.
  - apply NoDup_filter, NoDup_slots.
  - constructor; [|apply NoDup_filter, NoDup_slots]. unfold objs. rewrite list_elem_of_filter, E. intros [Hx _]. apply Hx. by left.
  - intros x. rewrite elem_of_cons. unfold objs. rewrite !list_elem_of_filter, E, not_elem_of_cons. simpl. destruct (decide (x = p)) as [->|]; tauto.
Qed.
End body.

(** * Caches *)

(** The slabs of a cache: [L true] are partly used, [L false] full, [H] is the slab held
    back, [X] are slabs an operation has in hand. *)
Abbreviation ats l := (g_at <$> l).
Definition all (L : bool → list slab) (H X : list slab) : list slab := L true ++ L false ++ H ++ X.
Definition head_of (c : Z) (b : bool) : Z := if b then c_partial c else c_full c.
Definition with_list (L : bool → list slab) (b : bool) (l : list slab) : bool → list slab := λ b', if Bool.eqb b b' then l else L b'.
(** Slab [s] in place of the one at its address. *)
Definition put_slab (s : slab) (l : list slab) : list slab := (λ u, if g_at u =? g_at s then s else u) <$> l.

Record parts (m : Z → Z) (c k : Z) (L : bool → list slab) (H X : list slab) : Prop := {
  pt_size : size_ok k;
  pt_obj : m (c_obj_size c) = k;
  pt_pages : pages (ats (all L H X));
  pt_cache : ∀ s, s ∈ ats (all L H X) → c + 16 ≤ s ∨ s + PAGE_SIZE ≤ c;
  pt_head b : m (head_of c b) = hd 0 (ats (L b));
  pt_dll b : dll m 0 (ats (L b)) 0;
  pt_hold : m (c_empty_hold c) = hd 0 (ats H);
  pt_body : Forall (body m c k) (all L H X)
}.

Lemma all_push L H X b s : all (with_list L b (s :: L b)) H X ≡ₚ all L H (s :: X).
Proof. unfold all, with_list. destruct b; simpl; solve_Permutation. Qed.
Lemma all_remove L H X b s l1 l2 : L b = l1 ++ s :: l2 → all (with_list L b (l1 ++ l2)) H (s :: X) ≡ₚ all L H X.
Proof. intros E. unfold all, with_list. destruct b; simpl; rewrite E; solve_Permutation. Qed.

Lemma parts_ext m c k L L' H X : (∀ b, L b = L' b) → parts m c k L H X → parts m c k L' H X.
Proof.
  intros E [H1 H2 H3 H4 H5 H6 H7 H8]. assert (all L' H X = all L H X) as Eall by (unfold all; by rewrite !E).
  split; rewrite ?Eall; try done; intros b; rewrite <- E; auto.
Qed.

Section parts.
Context {W : Type}.
#[local] Notation hst := (hst W).
Implicit Types h : hst.

Lemma cache_word m c k L H X x l :
  parts m c k L H X → l ⊆ ats (all L H X) → c ≤ x < c + 16 → ¬ link_of l x ∧ head_apart x l.
Proof.
  intros Hp Hl Hx. assert (head_apart x l) as Ha; [|split; [by apply head_not_link|done]].
  intros s Hs. pose proof (pt_cache _ _ _ _ _ _ Hp s (Hl _ Hs)). words.
Qed.
Lemma pos_page m c k L H X s : parts m c k L H X → s ∈ all L H X → 0 < g_at s ∧ g_at s mod PAGE_SIZE = 0.
Proof. intros Hp Hs. apply (pages_in _ _ (pt_pages _ _ _ _ _ _ Hp)). by apply list_elem_of_fmap_2. Qed.
Lemma list_sub L H X b : ats (L b) ⊆ ats (all L H X).
Proof. unfold all. rewrite !fmap_app. intros x Hx. rewrite !elem_of_app. destruct b; auto. Qed.
Lemma lists_apart m c k L H X : parts m c k L H X → ∀ b s, s ∈ ats (L b) → s ∉ ats (L (negb b)) ∧ s ∉ ats H ∧ s ∉ ats X.
Proof.
  intros Hp b s Hs. pose proof (pt_pages _ _ _ _ _ _ Hp) as [Hn _]. unfold all in Hn. rewrite !fmap_app, !NoDup_app in Hn.
  destruct Hn as (_ & H1 & (_ & H2 & (_ & H3 & _))). setoid_rewrite elem_of_app in H1. setoid_rewrite elem_of_app in H1. setoid_rewrite elem_of_app in H2.
  destruct b; simpl; [specialize (H1 s Hs); tauto|]. specialize (H2 s Hs). split_and!; [|tauto..]. intros Hx. specialize (H1 s Hx). tauto.
Qed.

(** An edit of the links of list [b] leaves the rest of the cache. *)
Lemma parts_links m m' c k L H X b l :
  parts m c k L H X → l ⊆ ats (all L H X) → (∀ x, x ≠ head_of c b → ¬ link_of l x → m' x = m x) →
  m' (c_obj_size c) = k ∧ m' (c_empty_hold c) = hd 0 (ats H) ∧ m' (head_of c (negb b)) = hd 0 (ats (L (negb b))) ∧
  Forall (body m' c k) (all L H X) ∧
  ((∀ s, s ∈ ats (L (negb b)) → s ∉ l) → dll m' 0 (ats (L (negb b))) 0).
Proof.
  intros Hp Hl Hf. assert (∀ x, c ≤ x < c + 16 → x ≠ head_of c b → m' x = m x) as Hc.
  { intros x Hx Hne. apply Hf; [done|]. by eapply cache_word. }
  split_and!.
  - rewrite Hc; [apply Hp|words|destruct b; unfold head_of, negb in *; words].
  - rewrite Hc; [apply Hp|words|destruct b; unfold head_of, negb in *; words].
  - rewrite Hc; [apply Hp|destruct b; unfold head_of, negb in *; words|destruct b; unfold head_of, negb in *; words].
  - apply Forall_forall. intros s Hs. apply (body_frame k (pt_size _ _ _ _ _ _ Hp) m); [|by apply (proj1 (Forall_forall _ _) (pt_body _ _ _ _ _ _ Hp))].
    intros x Hx. assert (g_at s ∈ ats (all L H X)) as Hs' by (by apply list_elem_of_fmap_2). apply Hf.
    + intros ->. pose proof (pt_cache _ _ _ _ _ _ Hp _ Hs'). destruct b; unfold head_of, negb in *; words.
    + intros (t & Ht & Hxt). destruct (decide (g_at s = t)) as [<-|Hne]; [words|].
      pose proof (page_gap _ _ _ (pt_pages _ _ _ _ _ _ Hp) Hs' (Hl _ Ht) Hne). words.
  - intros Hd. eapply links_frame; [|apply Hp]. intros x Hx. apply Hf.
    + intros ->. pose proof (cache_word m c k L H X (head_of c b) (ats (L (negb b))) Hp) as Hcw. destruct Hcw as [? _]; [apply list_sub|destruct b; unfold head_of, negb in *; words|done].
    + eapply link_disj; [apply (pt_pages _ _ _ _ _ _ Hp)|apply (list_sub _ _ _ (negb b))|done|done|done].
Qed.

Lemma with_list_eq L b l : with_list L b l b = l.
Proof. unfold with_list. by rewrite eqb_reflx. Qed.
Lemma with_list_ne L b l : with_list L b l (negb b) = L (negb b).
Proof. by destruct b. Qed.
(** The parts of a cache after the links of list [b] changed. *)
Lemma parts_intro m c k L H X L' X' b :
  size_ok k → m (c_obj_size c) = k → m (c_empty_hold c) = hd 0 (ats H) → Forall (body m c k) (all L H X) →
  pages (ats (all L H X)) → (∀ s, s ∈ ats (all L H X) → c + 16 ≤ s ∨ s + PAGE_SIZE ≤ c) → all L' H X' ≡ₚ all L H X →
  m (head_of c b) = hd 0 (ats (L' b)) → dll m 0 (ats (L' b)) 0 →
  m (head_of c (negb b)) = hd 0 (ats (L' (negb b))) → dll m 0 (ats (L' (negb b))) 0 →
  parts m c k L' H X'.
Proof.
  intros Hk Ho Hh Hb Hp Hc Hperm H1 D1 H2 D2. split; try done.
  - eapply pages_perm; [|exact Hp]. by rewrite Hperm.
  - intros s. rewrite Hperm. apply Hc.
  - intros b'. destruct b, b'; done.
  - intros b'. destruct b, b'; done.
  - by rewrite Hperm.
Qed.

Lemma wp_push c k L H X b s h Q :
  parts (h_mem h) c k L H (s :: X) →
  (∀ m', parts m' c k (with_list L b (s :: L b)) H X → (∀ x, x ≠ head_of c b → ¬ link_of (g_at s :: ats (L b)) x → m' x = h_mem h x) → Q tt (set_h_mem m' h)) →
  wp (SlabListPush (head_of c b) (g_at s)) Q h.
Proof.
  intros Hp HQ. assert (g_at s :: ats (L b) ⊆ ats (all L H (s :: X))) as Hsub.
  { intros x [->|Hx]%elem_of_cons; [|by apply (list_sub _ _ _ b)]. unfold all. rewrite !fmap_app, !elem_of_app. right. right. right. by left. }
  assert (g_at s ∉ ats (L b)) as Hns.
  { intros Hx. destruct (lists_apart _ _ _ _ _ _ Hp b _ Hx) as (_ & _ & Hn). apply Hn. by left. }
  apply (wp_SlabListPush _ _ (ats (L b))); [|apply Hp|apply Hp|eapply cache_word; [done|done|destruct b; unfold head_of, negb in *; words]|].
  - apply pages_cons. pose proof (pt_pages _ _ _ _ _ _ Hp) as Hpg. split; [split; [done|by apply (pages_in _ _ Hpg), Hsub; left]|].
    destruct Hpg as [Hn Hf]. split.
    + unfold all in Hn. rewrite !fmap_app in Hn. apply NoDup_app in Hn as (N1 & _ & (N2 & _)%NoDup_app). by destruct b.
    + apply Forall_forall. intros x Hx. apply (proj1 (Forall_forall _ _) Hf). apply Hsub. by right.
  - intros m' Hm Hd Hf. apply HQ; [|done]. destruct (parts_links _ m' _ _ _ _ _ b _ Hp Hsub Hf) as (E1 & E2 & E3 & E4 & E5).
    eapply (parts_intro m' c k L H (s :: X) _ X b); try done; try apply Hp; [apply all_push|by rewrite with_list_eq..|by rewrite with_list_ne|].
    rewrite with_list_ne. apply E5. intros t Ht [->|Hx]%elem_of_cons.
    + destruct (lists_apart _ _ _ _ _ _ Hp (negb b) _ Ht) as (_ & _ & Hn). apply Hn. by left.
    + destruct (lists_apart _ _ _ _ _ _ Hp b _ Hx) as (Hn & _). done.
Qed.
Lemma wp_remove c k L H X b s l1 l2 h Q :
  parts (h_mem h) c k L H X → L b = l1 ++ s :: l2 →
  (∀ m', parts m' c k (with_list L b (l1 ++ l2)) H (s :: X) → (∀ x, x ≠ head_of c b → ¬ link_of (ats (L b)) x → m' x = h_mem h x) → Q tt (set_h_mem m' h)) →
  wp (SlabListRemove (head_of c b) (g_at s)) Q h.
Proof.
  intros Hp E HQ. pose proof (pt_head _ _ _ _ _ _ Hp b) as Hh. pose proof (pt_dll _ _ _ _ _ _ Hp b) as Hd. pose proof (list_sub L H X b) as Hsub.
  assert (pages (ats (L b))) as Hpg.
  { destruct (pt_pages _ _ _ _ _ _ Hp) as [Hn Hf]. split.
    - unfold all in Hn. rewrite !fmap_app in Hn. apply NoDup_app in Hn as (N1 & _ & (N2 & _)%NoDup_app). by destruct b.
    - apply Forall_forall. intros x Hx. apply (proj1 (Forall_forall _ _) Hf). by apply Hsub. }
  destruct (cache_word _ _ _ _ _ _ (head_of c b) _ Hp Hsub ltac:(destruct b; unfold head_of, negb in *; words)) as [_ Ha].
  rewrite E, fmap_app in Hh, Hd, Hpg, Ha. simpl in *.
  apply (wp_SlabListRemove _ _ (ats l1) (ats l2)); [done..|]. intros m' Hm' Hd' Hf. apply HQ; [|intros x; rewrite E, fmap_app; apply Hf].
  assert (∀ x, x ≠ head_of c b → ¬ link_of (ats (L b)) x → m' x = h_mem h x) as Hf' by (intros x; rewrite E, fmap_app; apply Hf).
  destruct (parts_links _ m' _ _ _ _ _ b _ Hp Hsub Hf') as (E1 & E2 & E3 & E4 & E5).
  eapply (parts_intro m' c k L H X _ (s :: X) b); try done; try apply Hp; [by apply all_remove|by rewrite with_list_eq, fmap_app..|by rewrite with_list_ne|].
  rewrite with_list_ne. apply E5. intros t Ht Hx. destruct (lists_apart _ _ _ _ _ _ Hp b _ Hx) as (Hn & _). done.
Qed.
End parts.

(** ** One slab of a cache changes *)

Lemma ats_put s l : ats (put_slab s l) = ats l.
Proof. unfold put_slab. rewrite <- list_fmap_compose. apply list_fmap_ext. intros i u _. simpl. destruct (Z.eqb_spec (g_at u) (g_at s)); done. Qed.
Lemma put_slab_none s l : g_at s ∉ ats l → put_slab s l = l.
Proof.
  intros Hn. unfold put_slab. rewrite <- (list_fmap_id l) at 2. apply list_fmap_ext. intros i u Hu. simpl.
  destruct (Z.eqb_spec (g_at u) (g_at s)) as [E|]; [|done]. destruct Hn. rewrite <- E. apply list_elem_of_fmap_2. by eapply list_elem_of_lookup_2.
Qed.
Lemma put_slab_at s s' l1 l2 : g_at s' = g_at s → NoDup (ats (l1 ++ s :: l2)) → put_slab s' (l1 ++ s :: l2) = l1 ++ s' :: l2.
Proof.
  intros E Hn. rewrite fmap_app, fmap_cons in Hn. apply NoDup_app in Hn as (_ & H1 & [H2 _]%NoDup_cons). rewrite <- E in *.
  unfold put_slab. rewrite fmap_app, fmap_cons. fold (put_slab s' l1) (put_slab s' l2). rewrite !put_slab_none, E, Z.eqb_refl; [done|done|].
  intros Hx. apply (H1 _ Hx). by left.
Qed.

Lemma parts_put m m' c k L H X s s' :
  parts m c k L H X → s ∈ all L H X → g_at s' = g_at s → (∀ x, ¬ (g_at s + 8 ≤ x < g_at s + PAGE_SIZE) → m' x = m x) → body m' c k s' →
  parts m' c k (λ b, put_slab s' (L b)) (put_slab s' H) (put_slab s' X).
Proof.
  intros Hp Hs E Hf Hb. assert (all (λ b, put_slab s' (L b)) (put_slab s' H) (put_slab s' X) = put_slab s' (all L H X)) as Eall.
  { unfold all, put_slab. by rewrite !fmap_app. }
  assert (g_at s ∈ ats (all L H X)) as Hs' by (by apply list_elem_of_fmap_2).
  pose proof (pt_cache _ _ _ _ _ _ Hp _ Hs') as Hc.
  assert (∀ b, dll m' 0 (ats (L b)) 0) as Hd.
  { intros b. eapply links_frame; [|apply Hp]. intros x (t & Ht & Hx). apply Hf. destruct (decide (g_at s = t)) as [<-|Hne]; [words|].
    pose proof (page_gap _ _ _ (pt_pages _ _ _ _ _ _ Hp) Hs' (list_sub L H X b _ Ht) Hne). words. }
  split; rewrite ?Eall, ?ats_put; try apply Hp; try done.
  - rewrite Hf by words. apply Hp.
  - intros b. rewrite Hf by (destruct b; unfold head_of, negb in *; words). rewrite ats_put. apply Hp.
  - intros b. by rewrite ats_put.
  - rewrite Hf by words. apply Hp.
  - apply Forall_forall. unfold put_slab. intros u (v & -> & Hv)%list_elem_of_fmap. destruct (Z.eqb_spec (g_at v) (g_at s')) as [|Hne]; [done|].
    apply (body_frame k (pt_size _ _ _ _ _ _ Hp) m); [|by apply (proj1 (Forall_forall _ _) (pt_body _ _ _ _ _ _ Hp))]. intros x Hx. apply Hf.
    rewrite E in Hne. pose proof (page_gap _ _ _ (pt_pages _ _ _ _ _ _ Hp) (list_elem_of_fmap_2 g_at _ _ Hv) Hs' Hne). words.
Qed.

(** The slab [s] of list [b] becomes [s']. *)
Lemma parts_put_list m m' c k L H b l1 s s' l2 :
  parts m c k L H [] → L b = l1 ++ s :: l2 → g_at s' = g_at s → (∀ x, ¬ (g_at s + 8 ≤ x < g_at s + PAGE_SIZE) → m' x = m x) → body m' c k s' →
  parts m' c k (with_list L b (l1 ++ s' :: l2)) H [].
Proof.
  intros Hp E Ea Hf Hb. assert (g_at s ∈ ats (L b)) as Hs by (rewrite E, fmap_app, elem_of_app; right; by left).
  destruct (lists_apart _ _ _ _ _ _ Hp b _ Hs) as (N1 & N2 & _). rewrite <- Ea in N1, N2.
  assert (s ∈ all L H []) as Hin by (unfold all; rewrite !elem_of_app; destruct b; rewrite E, elem_of_app; [left|right; left]; right; by left).
  pose proof (parts_put _ _ _ _ _ _ _ s s' Hp Hin Ea Hf Hb) as Hp'. rewrite (put_slab_none s' H) in Hp' by done.
  eapply parts_ext; [|exact Hp']. assert (NoDup (ats (L b))) as Hn.
  { destruct (pt_pages _ _ _ _ _ _ Hp) as [Hn _]. unfold all in Hn. rewrite !fmap_app in Hn. apply NoDup_app in Hn as (M1 & _ & (M2 & _)%NoDup_app). by destruct b. }
  intros b'. destruct (decide (b' = b)) as [->|Hne].
  - rewrite with_list_eq, E. apply put_slab_at; [done|]. by rewrite <- E.
  - assert (b' = negb b) as -> by (by destruct b, b'). rewrite with_list_ne. by apply put_slab_none.
Qed.
(** A new slab comes in. *)
Lemma parts_add m m' c k L H X s :
  parts m c k L H X → g_at s ∉ ats (all L H X) → 0 < g_at s ∧ g_at s mod PAGE_SIZE = 0 → c + 16 ≤ g_at s ∨ g_at s + PAGE_SIZE ≤ c →
  (∀ x, ¬ in_page (g_at s) x → m' x = m x) → body m' c k s → parts m' c k L H (s :: X).
Proof.
  intros Hp Hn Ha Hc Hf Hb. assert (all L H (s :: X) ≡ₚ s :: all L H X) as Hperm by (unfold all; solve_Permutation).
  assert (pages (g_at s :: ats (all L H X))) as Hpg by (apply pages_cons; split; [tauto|apply Hp]).
  assert (∀ t x, t ∈ ats (all L H X) → in_page t x → m' x = m x) as Hft.
  { intros t x Ht Hx. apply Hf. assert (g_at s ≠ t) as Hne by congruence.
    pose proof (page_gap _ _ _ Hpg ltac:(by left) (list_elem_of_further _ _ _ Ht) Hne). words. }
  split; try apply Hp; try rewrite Hperm; try done.
  - rewrite Hf by words. apply Hp.
  - eapply pages_perm; [|exact Hpg]. by rewrite Hperm.
  - intros t. rewrite Hperm. intros [->|Ht]%elem_of_cons; [done|by apply Hp].
  - intros b. rewrite Hf by (destruct b; unfold head_of, negb in *; words). apply Hp.
  - intros b. eapply links_frame; [|apply Hp]. intros x (t & Ht & Hx)%link_in_page. by apply (Hft t); [apply (list_sub _ _ _ b)|].
  - rewrite Hf by words. apply Hp.
  - constructor; [done|]. apply Forall_forall. intros t Ht. apply (body_frame k (pt_size _ _ _ _ _ _ Hp) m).
    + intros x Hx. apply (Hft (g_at t)); [by apply list_elem_of_fmap_2|words].
    + by apply (proj1 (Forall_forall _ _) (pt_body _ _ _ _ _ _ Hp)).
Qed.

(** The word of the slab held back changes. *)
Lemma parts_hold m c k L H X H' X' :
  parts m c k L H X → all L H' X' ≡ₚ all L H X → parts (store m (c_empty_hold c) (hd 0 (ats H'))) c k L H' X'.
Proof.
  intros Hp Hperm. pose proof (pt_cache _ _ _ _ _ _ Hp) as Hc.
  assert (∀ t x, t ∈ ats (all L H X) → in_page t x → x ≠ c_empty_hold c) as Hne.
  { intros t x Ht Hx ->. specialize (Hc t Ht). words. }
  split; try apply Hp; rewrite ?store_eq; try done.
  - rewrite store_ne by words. apply Hp.
  - eapply pages_perm; [|apply (pt_pages _ _ _ _ _ _ Hp)]. by rewrite Hperm.
  - intros s. rewrite Hperm. apply Hc.
  - intros b. rewrite store_ne by (destruct b; unfold head_of, negb in *; words). apply Hp.
  - intros b. eapply links_frame; [|apply Hp]. intros x (t & Ht & Hx)%link_in_page. apply store_ne. by apply (Hne t); [apply (list_sub _ _ _ b)|].
  - rewrite Hperm. apply Forall_forall. intros s Hs. apply (body_frame k (pt_size _ _ _ _ _ _ Hp) m).
    + intros x Hx. apply store_ne, (Hne (g_at s)); [by apply list_elem_of_fmap_2|words].
    + by apply (proj1 (Forall_forall _ _) (pt_body _ _ _ _ _ _ Hp)).
Qed.

Lemma head_slab m c k L H X b s l : parts m c k L H X → L b = s :: l → m (head_of c b) = g_at s ∧ 0 < g_at s ∧ s ∈ all L H X.
Proof.
  intros Hp E. rewrite (pt_head _ _ _ _ _ _ Hp), E. split; [done|]. assert (s ∈ all L H X) as Hs.
  { unfold all. rewrite !elem_of_app. destruct b; rewrite E; [left|right; left]; by left. }
  split; [|done]. by apply (pos_page _ _ _ _ _ _ _ Hp).
Qed.

Lemma ats_inj m c k L H X s u : parts m c k L H X → s ∈ all L H X → u ∈ all L H X → g_at s = g_at u → s = u.
Proof.
  intros Hp Hs Hu E. destruct (pt_pages _ _ _ _ _ _ Hp) as [Hn _]. apply list_elem_of_lookup in Hs as [i Hi], Hu as [j Hj].
  assert (i = j) as <-; [|congruence]. eapply (NoDup_lookup _ _ _ (g_at s)); [exact Hn|..]; rewrite list_lookup_fmap, ?Hi, ?Hj; simpl; [done|by rewrite E].
Qed.
(** A slab in hand goes away. *)
Lemma parts_drop m c k L H X s : parts m c k L H (s :: X) → parts m c k L H X.
Proof.
  intros Hp. assert (all L H (s :: X) ≡ₚ s :: all L H X) as Hperm by (unfold all; solve_Permutation). destruct Hp as [H1 H2 H3 H4 H5 H6 H7 H8].
  split; try done.
  - apply (pages_perm _ (g_at s :: ats (all L H X))) in H3; [|by rewrite Hperm]. by apply pages_cons in H3 as [_ ?].
  - intros t Ht. apply H4. rewrite Hperm. by right.
  - rewrite Hperm in H8. by apply Forall_cons in H8 as [_ ?].
Qed.

(** * Filling a fresh slab *)

Lemma set_mem_id {W} (h : hst W) : set_h_mem (h_mem h) h = h.
Proof. by destruct h. Qed.

Section fill.
Context {W : Type} (k a : Z) (Hk : size_ok k) (Ha : 0 < a ∧ a + PAGE_SIZE < 2 ^ 32).
#[local] Notation slot i := (a + 24 + i * k).

Lemma wp_slab_fill n : ∀ i fr (h : hst W) Q,
  0 ≤ i → i + Z.of_nat n ≤ cap k → h_mem h (s_free_head a) = hd 0 fr → chain (h_mem h) (hd 0 fr) fr → (∀ x, x ∈ fr → a + 24 ≤ x < slot i) →
  (∀ m', let fr' := reverse ((λ j, slot j) <$> seqZ i (Z.of_nat n)) ++ fr in
     chain m' (m' (s_free_head a)) fr' → (∀ x, ¬ (s_free_head a ≤ x < a + PAGE_SIZE) → m' x = h_mem h x) → Q tt (set_h_mem m' h)) →
  wp (slab_fill n a (a + 24) k i) Q h.
Proof.
  induction n as [|n IH]; intros i fr h Q Hi Hn Hh Hc Hfr HQ; simpl.
  - wp_step. rewrite <- (set_mem_id h). apply HQ; [|done]. simpl. by rewrite Hh.
  - pose proof (cap_bounds k Hk) as [_ Hcap]. destruct Hk as [Hk1 _].
    assert (slot i + k ≤ a + PAGE_SIZE ∧ a + 24 ≤ slot i) as [Hs1 Hs2] by nia. rewrite w32_small by lia. repeat heap_step. simpl. rewrite Hh.
    set (m1 := store (store (h_mem h) (slot i) (hd 0 fr)) (s_free_head a) (slot i)).
    apply (IH (i + 1) (slot i :: fr)); [lia|lia|simpl; unfold m1; by rewrite store_eq|..].
    + simpl. split; [done|]. unfold m1. reads. eapply chain_frame; [|exact Hc]. intros x Hx. specialize (Hfr x Hx). reads. done.
    + intros x [->|Hx]%elem_of_cons; [nia|]. specialize (Hfr x Hx). nia.
    + intros m' fr' Hc' Hf. rewrite set_mem_mem. apply HQ.
      * rewrite Nat2Z.inj_succ, seqZ_cons, Z.pred_succ, <- Z.add_1_r, fmap_cons, reverse_cons by lia. rewrite <- app_assoc. exact Hc'.
      * intros x Hx. rewrite Hf by done. simpl. unfold m1. reads. done.
Qed.
End fill.

(** * Invariant *)

(** A cache with objects of [k_size] bytes and its slabs. *)
Record cache := mkK { k_size : Z; k_partial : list slab; k_full : list slab; k_hold : list slab }.
Definition lists (P F : list slab) (b : bool) : list slab := if b then P else F.
Definition slabs (K : cache) : list slab := all (lists (k_partial K) (k_full K)) (k_hold K) [].
(** The objects in use. *)
Definition in_use (k : Z) (l : list slab) : list Z := l ≫= objs k.
Definition live (K : cache) : list Z := in_use (k_size K) (k_partial K ++ k_full K).

Section slab_laws.
Context {W : Type} `{FrameLaws W} (KERNEL_VA_OFFSET : Z).
#[local] Notation OFF := KERNEL_VA_OFFSET.
#[local] Notation hst := (hst W).
Implicit Types h : hst.

(** The frames below a page of a slab, and below the cache itself, are owned. *)
Definition page_ok (w : W) (s : slab) : Prop := frame_owned w (g_at s - OFF) ∧ OFF < g_at s ∧ g_at s + PAGE_SIZE ≤ frame_limit w + OFF.
Record env_ok (w : W) (c : Z) : Prop := {
  eo_w : frames_ok w;
  eo_map : frame_limit w + OFF < 2 ^ 32 ∧ 0 ≤ OFF ∧ OFF mod PAGE_SIZE = 0;
  eo_cache : 0 < c ∧ ∀ x, c ≤ x < c + 16 → frame_owned w (frame_of OFF x)
}.
(** Every slab but the first of [P] may be unused: [SlabAlloc] is about to use that one. *)
Definition used_up (k : Z) (s : slab) : Prop := g_free s = [].
Definition busy (k : Z) (s : slab) : Prop := g_free s ≠ [] ∧ Z.of_nat (length (g_free s)) < cap k.
Definition unused (k : Z) (s : slab) : Prop := Z.of_nat (length (g_free s)) = cap k.
Record slab_inv (c : Z) (K : cache) (h : hst) : Prop := {
  si_env : env_ok (h_w h) c;
  si_parts : parts (h_mem h) c (k_size K) (lists (k_partial K) (k_full K)) (k_hold K) [];
  si_owned : Forall (page_ok (h_w h)) (slabs K);
  si_partial : Forall (busy (k_size K)) (k_partial K);
  si_full : Forall (used_up (k_size K)) (k_full K);
  si_hold : Forall (unused (k_size K)) (k_hold K) ∧ (length (k_hold K) ≤ 1)%nat
}.

(** The frames the operation of a client of the PMM leaves alone. *)
Definition w_grows (w w' : W) : Prop := frames_ok w' ∧ frame_limit w' = frame_limit w ∧ ∀ q, frame_owned w q → frame_owned w' q.
Lemma env_ok_grows w w' c : env_ok w c → w_grows w w' → env_ok w' c.
Proof. intros [H1 H2 [H3 H4]] (G1 & G2 & G3). split; [done|by rewrite G2|]. split; [done|]. intros x Hx. auto. Qed.
Lemma page_ok_grows w w' s : page_ok w s → w_grows w w' → page_ok w' s.
Proof. intros [H1 H2] (_ & G2 & G3). split; [auto|by rewrite G2]. Qed.
Lemma w_grows_refl w : frames_ok w → w_grows w w.
Proof. intros Hw. by split_and!. Qed.

Lemma page_ok_ats w l l' : Forall (page_ok w) l → ats l' ⊆ ats l → Forall (page_ok w) l'.
Proof.
  intros Ho Hs. apply Forall_forall. intros u Hu. assert (g_at u ∈ ats l) as (v & E & Hv)%list_elem_of_fmap by (by apply Hs, list_elem_of_fmap_2).
  unfold page_ok. rewrite E. by apply (proj1 (Forall_forall _ _) Ho).
Qed.

(** Words of the cache, headers of the slabs [l], the page of a slab not among [l]. *)
Definition bookkeeping (c : Z) (l : list Z) (a x : Z) : Prop :=
  c ≤ x < c + 16 ∨ (∃ s, s ∈ l ∧ s ≤ x < s + 24) ∨ (a ∉ l ∧ in_page a x).

(** What [alloc_slab] leaves: a slab with a free object at the front of the list. *)
Definition slab_ready (c : Z) (K : cache) (h : hst) (a : Z) (h' : hst) : Prop :=
  ∃ s P Hd, a = g_at s ∧ g_free s ≠ [] ∧ Forall (busy (k_size K)) P ∧
    ats (all (lists (s :: P) (k_full K)) Hd []) ⊆ a :: ats (slabs K) ∧ (a ∈ ats (slabs K) ∨ ¬ frame_owned (h_w h) (a - OFF)) ∧
    env_ok (h_w h') c ∧ parts (h_mem h') c (k_size K) (lists (s :: P) (k_full K)) Hd [] ∧
    Forall (page_ok (h_w h')) (all (lists (s :: P) (k_full K)) Hd []) ∧ Forall (unused (k_size K)) Hd ∧ (length Hd ≤ 1)%nat ∧
    in_use (k_size K) ((s :: P) ++ k_full K) ≡ₚ live K ∧
    w_grows (h_w h) (h_w h') ∧ ∀ x, ¬ bookkeeping c (ats (slabs K)) a x → h_mem h' x = h_mem h x.

Lemma wp_SlabGrow c K h Q :
  slab_inv c K h → k_partial K = [] → k_hold K = [] →
  (∀ h', slab_inv c K h' → h_mem h' = h_mem h → w_grows (h_w h) (h_w h') → Q 0 h') →
  (∀ a h', slab_ready c K h a h' → 0 < a → Q a h') → wp (SlabGrow OFF c) Q h.
Proof.
  intros [He Hp Ho HP HF [HH HH1]] EP EH Hno Hyes. destruct He as [Hw (Hlim & Ho0 & Hom) Hca]. unfold SlabGrow. wp_step. apply wp_on_w.
  eapply wp_mono; [by apply frame_take|]. intros pa w' (Hw' & Hl' & Hown & Hpa). assert (w_grows (h_w h) w') as Hg by done.
  case_if E.
  { wp_step. apply Hno; [|done|done]. split; simpl; try done.
    - by apply (env_ok_grows (h_w h)).
    - eapply Forall_impl; [exact Ho|]. intros s Hs. by eapply page_ok_grows. }
  destruct (Hpa E) as (Hp1 & Hp2 & Hp3 & Hp4 & Hp5). clear Hpa. destruct K as [k P F Hd]. simpl in EP, EH. subst P Hd. simpl in *.
  set (a := pa + OFF). assert (PA_TO_VA OFF pa = a) as -> by (apply w32_small; unfold a, PAGE_SIZE in *; lia).
  assert (0 < a ∧ a + PAGE_SIZE < 2 ^ 32 ∧ a mod PAGE_SIZE = 0) as (Ha1 & Ha2 & Ha3).
  { split_and!; [unfold a; lia|unfold a; lia|unfold a, PAGE_SIZE in *; Z.div_mod_to_equations; lia]. }
  assert (a ∉ ats F) as Hnew.
  { intros (s & Es & Hs)%list_elem_of_fmap. apply Hp4. destruct (proj1 (Forall_forall _ _) Ho s) as [Hs' _]; [unfold slabs, all; simpl; rewrite !app_nil_r; done|].
    replace pa with (g_at s - OFF) by (unfold a in Es; lia). done. }
  assert (c + 16 ≤ a ∨ a + PAGE_SIZE ≤ c) as Hca'.
  { destruct Hca as [_ Hca]. destruct (decide (c + 16 ≤ a)); [by left|]. destruct (decide (a + PAGE_SIZE ≤ c)); [by right|]. destruct Hp4.
    specialize (Hca (Z.max c a) ltac:(lia)). replace pa with (frame_of OFF (Z.max c a)); [done|]. unfold frame_of, a, PAGE_SIZE in *. Z.div_mod_to_equations. lia. }
  change hdr_size with 24. rewrite (w32_small (a + 24)) by (unfold PAGE_SIZE in *; lia). change (w32 (PAGE_SIZE - 24)) with (PAGE_SIZE - 24).
  repeat heap_step. simpl. reads. rewrite (pt_obj _ _ _ _ _ _ Hp). fold (cap k). pose proof (pt_size _ _ _ _ _ _ Hp) as Hk.
  set (m1 := store _ (s_free_head a) 0). rewrite !set_mem_mem.
  assert (∀ x, ¬ in_page a x → m1 x = h_mem h x) as Hm1 by (intros x Hx; unfold m1; reads; done).
  pose proof (cap_bounds k Hk) as [Hcb _].
  apply (wp_slab_fill k a Hk (conj Ha1 Ha2) _ 0 []); [lia|lia|simpl; unfold m1; by rewrite store_eq|done|by intros x ?%elem_of_nil|].
  intros m2 fr Hch Hf2. simpl in Hf2. rewrite set_mem_mem.
  assert (fr ≡ₚ slots k a) as Hperm by (unfold fr, slots; rewrite app_nil_r, reverse_Permutation, Z2Nat.id by lia; done). clearbody fr.
  set (s := mkSlab a fr). assert (body m2 c k s) as Hb.
  { split; simpl; try done.
    - rewrite Hf2 by words. unfold m1. reads. done.
    - rewrite Hf2 by words. unfold m1. reads. done.
    - rewrite Hf2 by words. unfold m1. reads. rewrite Hperm, length_slots by done. lia.
    - rewrite Hperm. by apply NoDup_slots.
    - intros x. by rewrite Hperm. }
  assert (parts m2 c k (lists [] F) [] [s]) as Hp'.
  { apply (parts_add (h_mem h)); try done; [unfold all; simpl; by rewrite !app_nil_r|]. intros x Hx. rewrite Hf2, Hm1; [done|done|]. simpl in Hx. words. }
  wp_step. apply (wp_push c k (lists [] F) [] [] true s); [done|]. intros m3 Hp3' Hf3. wp_step. apply Hyes; [|done].
  assert (all (lists [s] F) [] [] ≡ₚ s :: F) as Hall by (unfold all; simpl; by rewrite !app_nil_r).
  assert (slabs (mkK k [] F []) = F) as Hsl by (unfold slabs, all; simpl; by rewrite !app_nil_r). rewrite Hsl in *.
  exists s, [], []. split_and!; [done| | |..]; try done.
  - simpl. intros E0. rewrite E0 in Hperm. pose proof (length_slots k Hk a) as Hlen. rewrite <- Hperm in Hlen. simpl in Hlen. lia.
  - right. replace (a - OFF) with pa by (unfold a; lia). done.
  - apply (env_ok_grows (h_w h)); [|done]. by split.
  - eapply parts_ext; [|exact Hp3']. by intros [].
  - cbn [k_full]. rewrite Hall. constructor; [split; simpl; [|rewrite Hl'; unfold a; lia]|].
    + by replace (a - OFF) with pa by (unfold a; lia).
    + eapply Forall_impl; [exact Ho|]. intros u Hu. by eapply page_ok_grows.
  - unfold live, in_use. simpl. replace (objs k s) with (@nil Z); [done|]. symmetry. apply objs_nil. intros x. simpl. by rewrite Hperm.
  - simpl. intros x Hx. unfold bookkeeping in Hx. rewrite Hsl in Hx. rewrite Hf3, Hf2, Hm1; [done|..].
    + intros Hin. apply Hx. auto.
    + intros Hin. apply Hx. right. right. split; [done|]. words.
    + simpl. intros ->. apply Hx. left. words.
    + simpl. rewrite !link_cons. intros [->|[->|(? & ?%elem_of_nil & _)]]; [| |done]; apply Hx; right; right; (split; [done|words]).
Qed.

Lemma wp_alloc_slab c K h Q :
  slab_inv c K h → (∀ h', slab_inv c K h' → h_mem h' = h_mem h → w_grows (h_w h) (h_w h') → Q 0 h') →
  (∀ a h', slab_ready c K h a h' → 0 < a → Q a h') → wp (alloc_slab OFF c) Q h.
Proof.
  intros Hi Hno Hyes. pose proof Hi as [He Hp Ho HP HF [HH HH1]]. pose proof (eo_w _ _ He) as Hw.
  unfold alloc_slab. do 2 heap_step. change (c_partial c) with (head_of c true). destruct (k_partial K) as [|s P] eqn:EP.
  2: { destruct (head_slab _ _ _ _ _ _ true s P Hp eq_refl) as (-> & Hpos & Hs). rewrite (proj2 (Z.eqb_neq (g_at s) 0)) by lia. cbn [negb]. wp_step.
    apply Hyes; [|done]. apply Forall_cons in HP as [[Hs1 Hs2] HP]. exists s, P, (k_hold K). unfold slabs in *. rewrite EP in *.
    split_and!; try done; [by right|left; by apply list_elem_of_fmap_2|unfold live; by rewrite EP]. }
  rewrite (pt_head _ _ _ _ _ _ Hp). simpl. do 2 heap_step. rewrite (pt_hold _ _ _ _ _ _ Hp). destruct (k_hold K) as [|s [|]] eqn:EH; [simpl; by apply (wp_SlabGrow c K)| |simpl in HH1; lia].
  apply Forall_cons in HH as [HHs _]. assert (s ∈ slabs K) as Hs by (unfold slabs, all; rewrite EP, EH, !elem_of_app; right; right; left; by left).
  assert (slabs K ≡ₚ s :: k_full K) as Hsl by (unfold slabs, all; rewrite EP, EH; simpl; solve_Permutation).
  assert (0 < g_at s) as Hpos by (eapply pos_page; [exact Hp|unfold all; rewrite !elem_of_app; right; right; left; by left]).
  simpl. rewrite (proj2 (Z.eqb_neq (g_at s) 0)) by lia. cbn [negb]. do 4 heap_step. rewrite (pt_hold _ _ _ _ _ _ Hp). cbn [fmap list_fmap hd].
  pose proof (parts_hold _ _ _ _ _ _ [] [s] Hp (Permutation_refl _)) as Hp1. wp_step.
  apply (wp_push c (k_size K) (lists [] (k_full K)) [] [] true s); [done|]. intros m' Hp' Hf. wp_step. apply Hyes; [|done].
  exists s, [], []. assert (all (lists [s] (k_full K)) [] [] ≡ₚ slabs K) as Hall by (rewrite Hsl; unfold all; simpl; by rewrite !app_nil_r).
  split_and!; try done.
  - unfold unused in HHs. intros E0. rewrite E0 in HHs. pose proof (cap_bounds _ (pt_size _ _ _ _ _ _ Hp)). simpl in HHs. lia.
  - rewrite Hall. by right.
  - left. by apply list_elem_of_fmap_2.
  - eapply parts_ext; [|exact Hp']. by intros [].
  - by rewrite Hall.
  - simpl. lia.
  - unfold live, in_use. rewrite EP. simpl. rewrite (objs_unused _ (pt_size _ _ _ _ _ _ Hp) (h_mem h) c); [done| |done].
    eapply (proj1 (Forall_forall _ _) (pt_body _ _ _ _ _ _ Hp)). unfold all. rewrite !elem_of_app. right. right. left. by left.

  - intros x Hx. simpl. unfold bookkeeping in Hx. rewrite Hf; [apply store_ne; intros ->; apply Hx; left; words|intros ->; apply Hx; left; simpl; words|].
    simpl. rewrite !link_cons. intros Hl. apply Hx. right. left. exists (g_at s). split; [by apply list_elem_of_fmap_2|].
    destruct Hl as [->|[->|(? & ?%elem_of_nil & _)]]; [words|words|done].
Qed.

(** What [SlabAlloc] leaves. *)
Definition alloc_post (c : Z) (K : cache) (h : hst) (p : Z) (h' : hst) : Prop :=
  w_grows (h_w h) (h_w h') ∧
  (p = 0 ∧ slab_inv c K h' ∧ h_mem h' = h_mem h ∨
   ∃ K' a, p ≠ 0 ∧ slab_inv c K' h' ∧ k_size K' = k_size K ∧ live K' ≡ₚ p :: live K ∧
     ats (slabs K') ⊆ a :: ats (slabs K) ∧ a mod PAGE_SIZE = 0 ∧ (a ∈ ats (slabs K) ∨ ¬ frame_owned (h_w h) (a - OFF)) ∧
     ∀ x, ¬ bookkeeping c (ats (slabs K)) a x → h_mem h' x = h_mem h x).

Lemma chain_hd m p l : chain m p l → p = hd 0 l.
Proof. destruct l; simpl; [done|]. by intros [-> _]. Qed.
Lemma link_hdr l x : link_of l x → ∃ s, s ∈ l ∧ s ≤ x < s + 24.
Proof. intros (s & Hs & Hx). exists s. split; [done|words]. Qed.
(** Words that are bookkeeping stay so. *)
Lemma bookkeeping_hdr c l a s x : s ∈ a :: l → s ≤ x < s + 24 → bookkeeping c l a x.
Proof.
  intros Hs Hx. destruct (decide (s ∈ l)) as [Hin|Hn]; [right; left; by exists s|]. apply elem_of_cons in Hs as [->|?]; [|done].
  right. right. split; [done|words].
Qed.

Lemma wp_SlabAlloc c K h : slab_inv c K h → wp (SlabAlloc OFF c) (alloc_post c K h) h.
Proof.
  intros Hi. pose proof (si_full _ _ _ Hi) as HF. unfold SlabAlloc. wp_step. apply (wp_alloc_slab c K); [done| |].
  { intros h' Hi' Hm Hg. simpl. wp_step. split; [done|]. by left. }
  intros a h1 (s & P & Hd & -> & Hne & HP & Hsub & Hfresh & He & Hp & Ho & HHd & HHd1 & Hlive & Hg & Hfr) Hpos.
  rewrite (proj2 (Z.eqb_neq (g_at s) 0)) by lia. destruct (g_free s) as [|p fr] eqn:Ef; [done|].
  set (k := k_size K) in *. pose proof (pt_size _ _ _ _ _ _ Hp) as Hk. assert (s ∈ all (lists (s :: P) (k_full K)) Hd []) as Hs by (unfold all; by left).
  pose proof (proj1 (Forall_forall _ _) (pt_body _ _ _ _ _ _ Hp) s Hs) as Hb.
  destruct (body_pop k Hk _ _ _ _ _ Hpos Hb Ef) as (Eh & Hps & Hb'). pose proof (slot_in_page k Hk _ _ Hps) as Hpr. pose proof Hk as [Hk8 _].
  do 6 heap_step. simpl. do 2 heap_step. simpl. rewrite store_ne by words. rewrite Eh. do 2 heap_step. simpl. rewrite !set_mem_mem.
  set (m2 := store (store _ _ _) _ _) in *. set (s' := mkSlab (g_at s) fr) in *.
  assert (∀ x, ¬ (g_at s ≤ x < g_at s + 24) → m2 x = h_mem h1 x) as Hm2 by (intros x Hx; unfold m2; reads; done).
  assert (parts m2 c k (lists (s' :: P) (k_full K)) Hd []) as Hp2.
  { apply (parts_ext _ _ _ (with_list (lists (s :: P) (k_full K)) true (s' :: P))); [by intros []|]. apply (parts_put_list (h_mem h1) m2 _ _ _ _ true [] s s' P Hp eq_refl eq_refl); [|done]. intros x Hx. unfold m2. reads. done. }
  assert (0 < p) as Hp0 by lia. pose proof (body_free_length k Hk _ _ _ Hb) as Hlen. rewrite Ef in Hlen. simpl in Hlen.
  assert (in_use k (s' :: P ++ k_full K) ≡ₚ p :: live K) as Hlive'.
  { rewrite <- Hlive. unfold in_use. simpl. pose proof (objs_pop k Hk s p fr Ef (bd_nodup _ _ _ _ Hb) Hps) as Hpop. fold s' in Hpop. by rewrite Hpop. }
  assert (∀ x, ¬ bookkeeping c (ats (slabs K)) (g_at s) x → m2 x = h_mem h x) as Hfr2.
  { intros x Hx. rewrite Hm2; [by apply Hfr|]. intros Hin. apply Hx. eapply bookkeeping_hdr; [|exact Hin]. by left. }
  assert (m2 (s_free_head (g_at s)) = hd 0 fr) as Ehd by exact (chain_hd _ _ _ (bd_free _ _ _ _ Hb')).
  do 2 heap_step. cbn [h_mem set_h_mem]. rewrite Ehd. destruct fr as [|q fr].
  - simpl. do 2 wp_step. change (c_partial c) with (head_of c true). change (c_full c) with (head_of c false). change (g_at s) with (g_at s').
    apply (wp_remove c k (lists (s' :: P) (k_full K)) Hd [] true s' [] P); [exact Hp2|done|]. intros m3 Hp3 Hf3.
    apply (wp_push c k (lists P (k_full K)) Hd [] false s'); [eapply parts_ext; [|exact Hp3]; by intros []|]. intros m4 Hp4 Hf4. wp_step. split; [done|]. right.
    assert (ats (slabs (mkK k P (s' :: k_full K) Hd)) ≡ₚ ats (all (lists (s :: P) (k_full K)) Hd [])) as Hats.
    { unfold slabs, all. cbn [lists k_partial k_full k_hold]. rewrite !app_nil_r. cbn [app]. rewrite <- Permutation_middle. done. }
    exists (mkK k P (s' :: k_full K) Hd), (g_at s). split_and!; [lia| |done| |by rewrite Hats|apply (pos_page _ _ _ _ _ _ s Hp Hs)|done|].
    + split; simpl; try done; [eapply parts_ext; [|exact Hp4]; by intros []|eapply page_ok_ats; [exact Ho|by rewrite Hats]|by constructor].
    + unfold live. simpl. rewrite <- Hlive'. unfold in_use. rewrite !bind_app. simpl. rewrite bind_app. solve_Permutation.
    + intros x Hx. simpl. rewrite Hf4, Hf3, Hfr2; [done|done|..].
      * intros ->. apply Hx. left. simpl. words.
      * intros (u & Hu & Hxu)%link_hdr. apply Hx. eapply bookkeeping_hdr; [|exact Hxu]. apply Hsub. exact (list_sub (lists (s :: P) (k_full K)) Hd [] true _ Hu).
      * intros ->. apply Hx. left. simpl. words.
      * intros (u & Hu & Hxu)%link_hdr. apply Hx. eapply bookkeeping_hdr; [|exact Hxu]. apply Hsub. rewrite <- Hats. exact (list_sub (lists P (s' :: k_full K)) Hd [] false _ Hu).
  - simpl. assert (q ∈ slots k (g_at s)) as Hq by (apply (bd_slots _ _ _ _ Hb'); by left). pose proof (slot_in_page k Hk _ _ Hq).
    rewrite (proj2 (Z.eqb_neq q 0)) by lia. cbn [when]. do 2 heap_step. split; [done|]. right. exists (mkK k (s' :: P) (k_full K) Hd), (g_at s).
    split_and!; [lia| |done|done|done|apply (pos_page _ _ _ _ _ _ s Hp Hs)|done|done]. split; simpl; try done; [by eapply page_ok_ats|].
    constructor; [|done]. split; [done|]. simpl. simpl in Hlen. lia.
Qed.

(** What [SlabFree] of the object [p] leaves. *)
Definition free_post (c : Z) (K : cache) (h : hst) (p : Z) (h' : hst) : Prop :=
  ∃ K', slab_inv c K' h' ∧ k_size K' = k_size K ∧ live K ≡ₚ p :: live K' ∧ ats (slabs K') ⊆ ats (slabs K) ∧
    (∀ x, ¬ c ≤ x < c + 16 → (∀ s, s ∈ ats (slabs K) → ¬ s ≤ x < s + 24) → x ≠ p → h_mem h' x = h_mem h x) ∧
    frame_limit (h_w h') = frame_limit (h_w h) ∧
    ∀ q, frame_owned (h_w h) q → (∀ s, s ∈ ats (slabs K) → s ∉ ats (slabs K') → q ≠ s - OFF) → frame_owned (h_w h') q.

Lemma live_slab K p : p ∈ live K → ∃ b l1 s l2, lists (k_partial K) (k_full K) b = l1 ++ s :: l2 ∧ p ∈ objs (k_size K) s.
Proof.
  intros (s & Hp & Hs)%list_elem_of_bind. apply elem_of_app in Hs as [Hs|Hs]; apply list_elem_of_split in Hs as (l1 & l2 & E); [exists true|exists false]; by exists l1, s, l2.
Qed.

Lemma wp_retire c k q1 s q2 F Hd h :
  env_ok (h_w h) c → parts (h_mem h) c k (lists (q1 ++ s :: q2) F) Hd [] →
  Forall (page_ok (h_w h)) (all (lists (q1 ++ s :: q2) F) Hd []) → Forall (busy k) (q1 ++ q2) → Forall (used_up k) F → Forall (unused k) Hd → (length Hd ≤ 1)%nat →
  unused k s →
  wp (retire OFF c (g_at s)) (λ _ h', ∃ Hd', slab_inv c (mkK k (q1 ++ q2) F Hd') h' ∧
    ats (slabs (mkK k (q1 ++ q2) F Hd')) ⊆ ats (all (lists (q1 ++ s :: q2) F) Hd []) ∧
    (∀ x, ¬ c ≤ x < c + 16 → (∀ s', s' ∈ ats (all (lists (q1 ++ s :: q2) F) Hd []) → ¬ s' ≤ x < s' + 24) → h_mem h' x = h_mem h x) ∧
    frame_limit (h_w h') = frame_limit (h_w h) ∧
    ∀ q, frame_owned (h_w h) q → (g_at s ∉ ats (slabs (mkK k (q1 ++ q2) F Hd')) → q ≠ g_at s - OFF) → frame_owned (h_w h') q) h.
Proof.
  intros He Hp Ho HP HF HHd HHd1 Hu. unfold retire. wp_step. change (c_partial c) with (head_of c true).
  apply (wp_remove c k (lists (q1 ++ s :: q2) F) Hd [] true s q1 q2); [done|done|]. intros m1 Hp1 Hf1.
  apply (parts_ext _ _ _ _ (lists (q1 ++ q2) F)) in Hp1; [|by intros []].
  assert (∀ x, ¬ c ≤ x < c + 16 → (∀ s', s' ∈ ats (all (lists (q1 ++ s :: q2) F) Hd []) → ¬ s' ≤ x < s' + 24) → m1 x = h_mem h x) as Hm1.
  { intros x Hc Hh. apply Hf1; [intros ->; apply Hc; simpl; words|]. intros (u & Hu' & Hx)%link_hdr. apply (Hh u); [|done]. by apply (list_sub _ _ _ true). }
  do 2 heap_step. simpl. rewrite (pt_hold _ _ _ _ _ _ Hp1).
  assert (slabs (mkK k (q1 ++ q2) F [s]) ≡ₚ all (lists (q1 ++ s :: q2) F) [] []) as Hall1 by (unfold slabs, all; simpl; solve_Permutation).
  destruct Hd as [|t [|]]; [| |simpl in HHd1; lia].
  - simpl. heap_step. exists [s]. pose proof (parts_hold _ _ _ _ _ _ [s] [] Hp1 (Permutation_refl _)) as Hp2. split_and!; try done.
    + split; simpl; try done; [eapply page_ok_ats; [exact Ho|by rewrite Hall1]|split; [by constructor|lia]].
    + by rewrite Hall1.
    + intros x Hc Hh. simpl. rewrite store_ne; [by apply Hm1|]. intros ->. apply Hc. words.
  - assert (t ∈ all (lists (q1 ++ q2) F) [t] [s] ∧ s ∈ all (lists (q1 ++ q2) F) [t] [s]) as [Ht Hs].
    { unfold all. rewrite !elem_of_app. split; [right; right; left|right; right; right]; by left. }
    destruct (pos_page _ _ _ _ _ _ t Hp1 Ht) as [Ht0 _]. destruct (pos_page _ _ _ _ _ _ s Hp1 Hs) as [Hs0 Hsm].
    simpl. rewrite (proj2 (Z.eqb_neq (g_at t) 0)) by lia.
    assert (page_ok (h_w h) s) as (Hso & Hsp & Hsl).
    { apply (proj1 (Forall_forall _ _) Ho). unfold all. simpl. rewrite !elem_of_app. left. right. by left. }
    destruct He as [Hw (Hlim & Ho0 & Hom) [Hc0 Hca]].
    assert (VA_TO_PA OFF (g_at s) = g_at s - OFF) as -> by (apply w32_small; unfold PAGE_SIZE in *; lia).
    apply wp_on_w. eapply wp_mono; [by apply frame_put|]. intros [] w' (Hw' & Hl' & Hown & _). simpl. exists [t].
    assert (all (lists (q1 ++ q2) F) [t] [s] ≡ₚ s :: slabs (mkK k (q1 ++ q2) F [t])) as Hperm by (unfold slabs, all; simpl; solve_Permutation).
    assert (all (lists (q1 ++ s :: q2) F) [t] [] ≡ₚ s :: slabs (mkK k (q1 ++ q2) F [t])) as Hperm2 by (unfold slabs, all; simpl; solve_Permutation).
    assert (g_at s ∉ ats (slabs (mkK k (q1 ++ q2) F [t]))) as Hns.
    { destruct (pt_pages _ _ _ _ _ _ Hp1) as [Hn _]. rewrite Hperm in Hn. by apply NoDup_cons in Hn as [? _]. }
    rewrite Hperm2 in Ho. apply Forall_cons in Ho as [_ Ho]. split_and!.
    + split; simpl; try done.
      * split; [done|by rewrite Hl'|]. split; [done|]. intros x Hx. apply Hown; [by apply Hca|]. unfold frame_of. intros E.
        pose proof (pt_cache _ _ _ _ _ _ Hp1 (g_at s) (list_elem_of_fmap_2 g_at _ _ Hs)). unfold PAGE_SIZE in *. Z.div_mod_to_equations. lia.
      * by eapply parts_drop.
      * apply Forall_forall. intros u Hu'. destruct (proj1 (Forall_forall _ _) Ho u Hu') as (U1 & U2 & U3). split; [|by rewrite Hl'].
        apply Hown; [done|]. intros E. apply Hns. replace (g_at s) with (g_at u) by lia. by apply list_elem_of_fmap_2.
    + rewrite Hperm2. by right.
    + done.
    + done.
    + intros q Hq Hne. apply Hown; [done|]. by apply Hne.
Qed.

(** The object is back in its slab [s'], which is among the partly used ones [q1 ++ s' :: q2]. *)
Lemma free_finish c K h p h1 q1 s' q2 F :
  slab_inv c K h → h_w h1 = h_w h → parts (h_mem h1) c (k_size K) (lists (q1 ++ s' :: q2) F) (k_hold K) [] →
  g_free s' ≠ [] → Forall (busy (k_size K)) (q1 ++ q2) → Forall (used_up (k_size K)) F →
  ats (all (lists (q1 ++ s' :: q2) F) (k_hold K) []) ⊆ ats (slabs K) → live K ≡ₚ p :: in_use (k_size K) ((q1 ++ s' :: q2) ++ F) →
  (∀ x, ¬ c ≤ x < c + 16 → (∀ s, s ∈ ats (slabs K) → ¬ s ≤ x < s + 24) → x ≠ p → h_mem h1 x = h_mem h x) →
  wp (let! used := ld (s_used (g_at s')) in when (used =? 0) (retire OFF c (g_at s'))) (λ _, free_post c K h p) h1.
Proof.
  intros Hi Ew Hp Hne HP HF Hats Hlive Hm. destruct Hi as [He _ Ho _ _ [HHd HHd1]]. set (k := k_size K) in *.
  assert (s' ∈ all (lists (q1 ++ s' :: q2) F) (k_hold K) []) as Hs by (unfold all; simpl; rewrite !elem_of_app; left; right; by left).
  pose proof (proj1 (Forall_forall _ _) (pt_body _ _ _ _ _ _ Hp) s' Hs) as Hb. pose proof (pt_size _ _ _ _ _ _ Hp) as Hk.
  pose proof (body_free_length k Hk _ _ _ Hb) as Hlen. do 2 heap_step. rewrite (bd_used _ _ _ _ Hb).
  assert (Forall (page_ok (h_w h1)) (all (lists (q1 ++ s' :: q2) F) (k_hold K) [])) as Ho1 by (rewrite Ew; by eapply page_ok_ats).
  apply wp_when; intros E; b2p.
  - assert (unused k s') as Hu by (unfold unused; lia). eapply wp_mono; [apply (wp_retire c k q1 s' q2 F (k_hold K)); try done; by rewrite Ew|].
    intros [] h2 (Hd' & Hi2 & Hat2 & Hm2 & Hl2 & Hown). rewrite Ew in Hl2, Hown. exists (mkK k (q1 ++ q2) F Hd'). split_and!; try done.
    + rewrite Hlive. unfold live, in_use. simpl. rewrite !bind_app, bind_cons, (objs_unused k Hk _ _ _ Hb Hu). done.
    + by etrans.
    + intros x Hc Hh Hx. rewrite Hm2; [by apply Hm|done|]. intros u Hu'. apply Hh. by apply Hats.
    + intros q Hq Hnq. apply Hown; [done|]. intros Hn. apply Hnq; [|done]. apply Hats. by apply list_elem_of_fmap_2.
  - exists (mkK k (q1 ++ s' :: q2) F (k_hold K)). split_and!; try done.
    + split; try done; [by rewrite Ew|]. simpl. rewrite <- Permutation_middle. constructor; [|done]. split; [done|lia].
    + by rewrite Ew.
    + intros q Hq _. by rewrite Ew.
Qed.

Lemma wp_SlabFree c K h p : slab_inv c K h → p ∈ live K → wp (SlabFree OFF c p) (λ _, free_post c K h p) h.
Proof.
  intros Hi (b & l1 & s & l2 & EL & Hpo)%live_slab. pose proof Hi as [He Hp Ho HP HF _]. set (k := k_size K) in *.
  set (L := lists (k_partial K) (k_full K)) in *. pose proof (pt_size _ _ _ _ _ _ Hp) as Hk.
  assert (s ∈ slabs K) as Hs by (unfold slabs, all; rewrite !elem_of_app; fold L; destruct b; rewrite EL, elem_of_app; [left|right; left]; right; by left).
  pose proof (proj1 (Forall_forall _ _) (pt_body _ _ _ _ _ _ Hp) s Hs) as Hb. destruct (pos_page _ _ _ _ _ _ s Hp Hs) as [Hpos Hpm].
  pose proof Hpo as [Hnew Hslot]%list_elem_of_filter. pose proof (slot_in_page k Hk _ _ Hslot) as Hr. destruct (eo_cache _ _ He) as [Hc0 _].
  destruct (proj1 (Forall_forall _ _) Ho s Hs) as (_ & _ & Hlim). destruct (eo_map _ _ He) as (Hmax & _). pose proof Hk as [Hk8 _].
  assert (align_down p PAGE_SIZE = g_at s) as Ea.
  { change PAGE_SIZE with (2 ^ 12). rewrite align_down_spec by lia. change (2 ^ 12) with 4096. unfold PAGE_SIZE in *. Z.div_mod_to_equations. lia. }
  unfold SlabFree. rewrite Ea, (proj2 (Z.eqb_neq c 0)), (proj2 (Z.eqb_neq p 0)) by lia. cbn [negb]. wp_step. apply wp_assert; [done|]. wp_step. apply wp_assert; [done|].
  do 2 heap_step. rewrite (bd_owner _ _ _ _ Hb), Z.eqb_refl. wp_step. apply wp_assert; [done|]. do 4 heap_step.
  pose proof (body_push k Hk _ _ _ _ Hpos Hb Hpo ltac:(lia)) as Hb'. do 6 heap_step. simpl. rewrite (store_ne _ _ _ (s_used _)), (store_ne _ _ _ (s_used _)) by words.
  do 2 heap_step. simpl. rewrite !set_mem_mem. set (m2 := store (store (store _ _ _) _ _) _ _) in *. set (s' := mkSlab (g_at s) (p :: g_free s)) in *.
  assert (parts m2 c k (with_list L b (l1 ++ s' :: l2)) (k_hold K) []) as Hp2.
  { apply (parts_put_list (h_mem h) m2 _ _ _ _ b l1 s s' l2 Hp EL eq_refl); [|done]. intros x Hx. unfold m2. rewrite !store_ne by words. done. }
  assert (∀ x, (∀ u, u ∈ ats (slabs K) → ¬ u ≤ x < u + 24) → x ≠ p → m2 x = h_mem h x) as Hm2.
  { intros x Hh Hx. specialize (Hh (g_at s) (list_elem_of_fmap_2 g_at _ _ Hs)). unfold m2. rewrite !store_ne by (words || done). done. }
  assert (objs k s ≡ₚ p :: objs k s') as Hobj.
  { apply (objs_pop k Hk s' p (g_free s)); [done|apply Hb'|done]. }
  rewrite (chain_hd _ _ _ (bd_free _ _ _ _ Hb)). destruct b; simpl in EL.
  - rewrite EL in HP. pose proof HP as HP'. rewrite <- Permutation_middle in HP'. apply Forall_cons in HP' as [[Hfne _] HP'].
    destruct (g_free s) as [|q fr] eqn:Ef; [done|]. assert (q ∈ slots k (g_at s)) as Hq by (apply (bd_slots _ _ _ _ Hb); rewrite Ef; by left).
    pose proof (slot_in_page k Hk _ _ Hq). simpl. rewrite (proj2 (Z.eqb_neq q 0)) by lia. cbn [when]. wp_step. heap_step.
    change (g_at s) with (g_at s'). apply (free_finish c K h p _ l1 s' l2 (k_full K)); try done.
    + eapply parts_ext; [|exact Hp2]. by intros [].
    + unfold slabs, all. cbn [lists]. rewrite EL, !fmap_app, !fmap_cons. done.
    + unfold live, in_use. fold k. rewrite EL, !bind_app, !bind_cons, Hobj. solve_Permutation.
    + intros x _ Hh Hx. by apply Hm2.
  - rewrite EL in HF. pose proof HF as HF'. rewrite <- Permutation_middle in HF'. apply Forall_cons in HF' as [Hfe HF'].
    rewrite Hfe. simpl. do 2 wp_step. change (c_partial c) with (head_of c true). change (c_full c) with (head_of c false). change (g_at s) with (g_at s').
    apply (wp_remove c k (lists (k_partial K) (l1 ++ s' :: l2)) (k_hold K) [] false s' l1 l2); [eapply parts_ext; [|exact Hp2]; by intros []|done|]. intros m3 Hp3 Hf3.
    apply (wp_push c k (lists (k_partial K) (l1 ++ l2)) (k_hold K) [] true s'); [eapply parts_ext; [|exact Hp3]; by intros []|]. intros m4 Hp4 Hf4.
    assert (ats (all (lists (s' :: k_partial K) (l1 ++ l2)) (k_hold K) []) ≡ₚ ats (slabs K)) as Hats.
    { unfold slabs, all. cbn [lists]. rewrite EL, !fmap_app, !fmap_cons. simpl. solve_Permutation. }
    apply (free_finish c K h p _ [] s' (k_partial K) (l1 ++ l2)); try done.
    + eapply parts_ext; [|exact Hp4]. by intros [].
    + rewrite Hats. done.
    + unfold live, in_use. fold k. rewrite EL. cbn [app]. rewrite !bind_app, !bind_cons, !bind_app, Hobj. solve_Permutation.
    + intros x Hc Hh Hx. simpl. rewrite Hf4, Hf3; [by apply Hm2|..].
      * intros ->. apply Hc. simpl. words.
      * intros (u & Hu & Hxu)%link_hdr. apply (Hh u); [|done]. apply (list_sub L (k_hold K) [] false). unfold L. simpl. rewrite EL, fmap_app. simpl in Hu. by rewrite fmap_app in Hu.
      * intros ->. apply Hc. simpl. words.
      * intros (u & Hu & Hxu)%link_hdr. apply (Hh u); [|done]. rewrite <- Hats. exact (list_sub (lists (s' :: k_partial K) (l1 ++ l2)) _ _ true _ Hu).
Qed.

(** * A new cache *)

(** The size of the objects of a cache asked for [n] bytes. *)
Definition rounded (n : Z) : Z := 8 * ((Z.max n 4 + 7) / 8).

Lemma wp_KSlabInit c n h :
  env_ok (h_w h) c → 0 ≤ n < 2 ^ 32 - 8 →
  if decide (rounded n ≤ PAGE_SIZE - 24)
  then wp (KSlabInit c n) (λ _ h', slab_inv c (mkK (rounded n) [] [] []) h' ∧ h_w h' = h_w h ∧
         ∀ x, ¬ c ≤ x < c + 16 → h_mem h' x = h_mem h x) h
  else KSlabInit c n h = Panic.
Proof.
  intros He Hn. assert (align_up (if n <? 4 then 4 else n) 8 = rounded n) as Er.
  { change 8 with (2 ^ 3). destruct (n <? 4) eqn:E; b2p; (rewrite align_up_spec by lia); change (2 ^ 3) with 8; unfold rounded; Z.div_mod_to_equations; lia. }
  destruct (eo_cache _ _ He) as [Hc _]. unfold KSlabInit, CreateSlabCache. rewrite Er. change (w32 (PAGE_SIZE - hdr_size)) with (PAGE_SIZE - 24).
  case_decide as Hd.
  - repeat heap_step. apply wp_assert; [simpl; reads; by apply Z.leb_le|]. simpl. set (m := store _ (c_empty_hold c) 0). split_and!; [|done|intros x Hx; unfold m; rewrite !store_ne by words; done].
    split; simpl; try done; try (split; [done|lia]). split; simpl; try done.
    + unfold size_ok, rounded in *. split; [Z.div_mod_to_equations; lia|]. rewrite Z.mul_comm. by apply Z.mod_mul.
    + unfold m. reads. done.
    + by split; constructor.
    + by intros s ?%elem_of_nil.
    + intros []; simpl; unfold m; reads; done.
    + by intros [].
    + unfold m. reads. done.
  - unfold bind, st, modify, ld, gets. cbn [h_mem set_h_mem]. rewrite !(store_ne _ _ _ (c_obj_size c)), store_eq by words.
    unfold assert. by rewrite (proj2 (Z.leb_gt _ _)) by lia.
Qed.

(** * A client of a cache *)

(** Calls of a client: an allocation, a release of the [i]-th of its objects, a write to the
    [off]-th byte of the [i]-th. *)
Inductive slab_op := SAlloc | SFree (i : nat) | SStore (i : nat) (off v : Z).
Definition slab_call (c : Z) (op : slab_op) (out : list Z) : M hst (list Z) :=
  match op with
  | SAlloc => let! p := KSlabAlloc OFF c in ret (if p =? 0 then out else p :: out)
  | SFree i => match out !! i with Some p => KSlabFree OFF c p ;; ret (delete i out) | None => ret out end
  | SStore i off v =>
      match out !! i with
      | Some p => let! size_ := ld (c_obj_size c) in when ((0 <=? off) && (off <? size_)) (st (p + off) v) ;; ret out
      | None => ret out
      end
  end.
Fixpoint slab_run (c : Z) (ops : list slab_op) (out : list Z) : M hst (list Z) :=
  match ops with [] => ret out | op :: ops' => let! out' := slab_call c op out in slab_run c ops' out' end.

(** An object in use lies in a page of its slab, after the header and apart from the free
    objects and the cache. *)
Lemma live_object c K h p :
  slab_inv c K h → p ∈ live K → ∃ s, s ∈ slabs K ∧ p ∈ slots (k_size K) (g_at s) ∧ p ∉ g_free s.
Proof.
  intros Hi (b & l1 & s & l2 & E & [Hn Hp]%list_elem_of_filter)%live_slab. exists s. split_and!; [|done|done].
  unfold slabs, all. rewrite !elem_of_app. destruct b; rewrite E, elem_of_app; [left|right; left]; right; by left.
Qed.
Lemma slab_inv_store c K h p x v :
  slab_inv c K h → p ∈ live K → p ≤ x < p + k_size K → slab_inv c K (set_h_mem (store (h_mem h) x v) h).
Proof.
  intros Hi Hp Hx. destruct (live_object c K h p Hi Hp) as (s & Hs & Hps & Hpf). destruct Hi as [He Hpt Ho HP HF HH].
  pose proof (pt_size _ _ _ _ _ _ Hpt) as Hk. pose proof (slot_in_page _ Hk _ _ Hps) as Hr. pose proof (pt_cache _ _ _ _ _ _ Hpt _ (list_elem_of_fmap_2 g_at _ _ Hs)) as Hc.
  split; try done. simpl. set (m := store _ _ _). assert (∀ y, y ≠ x → m y = h_mem h y) as Hm by (intros y Hy; by apply store_ne). clearbody m.
  assert (∀ t y, t ∈ ats (slabs K) → t ≤ y < t + 24 → y ≠ x) as Hhdr.
  { intros t y Ht Hy. destruct (decide (g_at s = t)) as [<-|Hne]; [lia|].
    pose proof (page_gap _ _ _ (pt_pages _ _ _ _ _ _ Hpt) (list_elem_of_fmap_2 g_at _ _ Hs) Ht Hne). words. }
  split; try apply Hpt.
  - rewrite Hm by words. apply Hpt.
  - intros b. rewrite Hm by (destruct b; unfold head_of, negb in *; words). apply Hpt.
  - intros b. eapply links_frame; [|apply Hpt]. intros y (t & Ht & Hy)%link_hdr. apply Hm. eapply Hhdr; [|exact Hy]. by apply (list_sub _ _ _ b).
  - rewrite Hm by words. apply Hpt.
  - apply Forall_forall. intros u Hu. destruct (proj1 (Forall_forall _ _) (pt_body _ _ _ _ _ _ Hpt) u Hu) as [B1 B2 B3 B4 B5 B6].
    pose proof (Hhdr (g_at u)) as Hu'. specialize (λ y, Hu' y (list_elem_of_fmap_2 g_at _ _ Hu)).
    split; try done; rewrite ?(Hm (s_owner_cache _)), ?(Hm (s_capacity _)), ?(Hm (s_used _)), ?(Hm (s_free_head _)) by (apply Hu'; words); try done.
    eapply chain_frame; [|exact B4]. intros y Hy. apply Hm. pose proof (slot_in_page _ Hk _ _ (B6 _ Hy)).
    destruct (decide (g_at s = g_at u)) as [E|Hne].
    + assert (s = u) as <- by (by eapply ats_inj). assert (y ≠ p) as Hyp by congruence. pose proof (slot_gap _ Hk _ _ _ (B6 _ Hy) Hps Hyp). destruct Hk. lia.
    + pose proof (page_gap _ _ _ (pt_pages _ _ _ _ _ _ Hpt) (list_elem_of_fmap_2 g_at _ _ Hs) (list_elem_of_fmap_2 g_at _ _ Hu) Hne). destruct Hk. words.
Qed.

Lemma objects_apart c K h p q : slab_inv c K h → p ∈ live K → q ∈ live K → p ≠ q → p + k_size K ≤ q ∨ q + k_size K ≤ p.
Proof.
  intros Hi Hp Hq Hne. destruct (live_object c K h p Hi Hp) as (s & Hs & Hps & _). destruct (live_object c K h q Hi Hq) as (u & Hu & Hqs & _).
  pose proof (si_parts _ _ _ Hi) as Hpt. pose proof (pt_size _ _ _ _ _ _ Hpt) as Hk. destruct (decide (g_at s = g_at u)) as [E|Hne'].
  - rewrite <- E in Hqs. by eapply slot_gap.
  - pose proof (page_gap _ _ _ (pt_pages _ _ _ _ _ _ Hpt) (list_elem_of_fmap_2 g_at _ _ Hs) (list_elem_of_fmap_2 g_at _ _ Hu) Hne').
    pose proof (slot_in_page _ Hk _ _ Hps). pose proof (slot_in_page _ Hk _ _ Hqs). lia.
Qed.
Lemma live_page c K h p :
  slab_inv c K h → p ∈ live K → 0 < p ∧ p mod 8 = 0 ∧ ∀ x, p ≤ x < p + k_size K → frame_owned (h_w h) (frame_of OFF x).
Proof.
  intros Hi Hp. destruct (live_object c K h p Hi Hp) as (s & Hs & Hps & _). pose proof (si_parts _ _ _ Hi) as Hpt. pose proof (pt_size _ _ _ _ _ _ Hpt) as Hk.
  destruct (pos_page _ _ _ _ _ _ s Hpt Hs) as [Hs0 Hsm]. pose proof (slot_in_page _ Hk _ _ Hps) as Hr. destruct (proj1 (Forall_forall _ _) (si_owned _ _ _ Hi) s Hs) as [Hown _].
  split_and!; [lia|by eapply slot_aligned|]. intros x Hx. replace (frame_of OFF x) with (g_at s - OFF); [done|].
  unfold frame_of, PAGE_SIZE in *. Z.div_mod_to_equations. lia.
Qed.
Lemma objects_nodup c K h : slab_inv c K h → NoDup (live K).
Proof.
  intros Hi. pose proof (si_parts _ _ _ Hi) as Hpt. pose proof (pt_size _ _ _ _ _ _ Hpt) as Hk.
  assert (pages (ats (k_partial K ++ k_full K))) as Hn.
  { pose proof (pt_pages _ _ _ _ _ _ Hpt) as Hn. unfold all in Hn. simpl in Hn. rewrite app_assoc, fmap_app in Hn. by apply pages_app in Hn as [? _]. }
  unfold live, in_use. clear Hi Hpt. induction (k_partial K ++ k_full K) as [|s l IH]; [constructor|].
  pose proof Hn as [(Hs & _) Hl]%pages_cons. rewrite bind_cons. apply NoDup_app. split_and!; [apply NoDup_filter, NoDup_slots; done| |by apply IH].
  intros x [_ Hx]%list_elem_of_filter (u & [_ Hxu]%list_elem_of_filter & Hu)%list_elem_of_bind.
  apply (list_elem_of_fmap_2 g_at) in Hu. assert (g_at s ≠ g_at u) as Hne by (intros E; apply Hs; by rewrite E).
  pose proof (page_gap _ _ _ Hn (list_elem_of_here _ _) (list_elem_of_further _ _ _ Hu) Hne).
  pose proof (slot_in_page _ Hk _ _ Hx). pose proof (slot_in_page _ Hk _ _ Hxu). destruct Hk. lia.
Qed.

Lemma live_not_bookkeeping c K h a q x :
  slab_inv c K h → a mod PAGE_SIZE = 0 → q ∈ live K → q ≤ x < q + k_size K → ¬ bookkeeping c (ats (slabs K)) a x.
Proof.
  intros Hi Ha Hq Hx. destruct (live_object c K h q Hi Hq) as (s & Hs & Hqs & _). pose proof (si_parts _ _ _ Hi) as Hpt.
  pose proof (slot_in_page _ (pt_size _ _ _ _ _ _ Hpt) _ _ Hqs) as Hr. apply (list_elem_of_fmap_2 g_at) in Hs.
  intros [Hc|[(u & Hu & Hxu)|[Hn Hxa]]].
  - pose proof (pt_cache _ _ _ _ _ _ Hpt _ Hs). lia.
  - destruct (decide (g_at s = u)) as [<-|Hne]; [lia|]. pose proof (page_gap _ _ _ (pt_pages _ _ _ _ _ _ Hpt) Hs Hu Hne). words.
  - apply Hn. replace a with (g_at s); [done|]. eapply page_apart; [by eapply pages_in; [apply (pt_pages _ _ _ _ _ _ Hpt)|]|done| |exact Hxa]. words.
Qed.

Lemma some_in_use k m c s : size_ok k → body m c k s → Z.of_nat (length (g_free s)) < cap k → objs k s ≠ [].
Proof.
  intros Hk Hb Hl E. assert (slots k (g_at s) ⊆+ g_free s) as Hs.
  { apply NoDup_submseteq; [by apply NoDup_slots|]. intros x Hx. destruct (decide (x ∈ g_free s)); [done|].
    assert (x ∈ objs k s) as Hin by (by apply list_elem_of_filter). rewrite E in Hin. by apply elem_of_nil in Hin. }
  apply submseteq_length in Hs. pose proof (length_slots k Hk (g_at s)). lia.
Qed.
Lemma filter_none {A} (P : A → Prop) `{∀ x, Decision (P x)} l : (∀ x, x ∈ l → ¬ P x) → filter P l = [].
Proof. induction l as [|x l IH]; intros Hl; [done|]. rewrite filter_cons_False; [|apply Hl; by left]. apply IH. intros y Hy. apply Hl. by right. Qed.
(** At most one slab has no object in use. *)
Lemma one_unused c K h : slab_inv c K h → (length (filter (λ s, objs (k_size K) s = []) (slabs K)) ≤ 1)%nat.
Proof.
  intros [_ Hpt _ HP HF [_ HH]]. pose proof (pt_size _ _ _ _ _ _ Hpt) as Hk. pose proof (proj1 (Forall_forall _ _) (pt_body _ _ _ _ _ _ Hpt)) as Hb.
  pose proof (cap_bounds _ Hk). unfold slabs, all in *. simpl in *. rewrite !filter_app.
  rewrite (filter_none _ (k_partial K)), (filter_none _ (k_full K)).
  - simpl. rewrite app_nil_r. etrans; [apply length_filter|done].
  - intros s Hs. eapply some_in_use; [done|apply Hb, elem_of_app; right; apply elem_of_app; by left|]. rewrite (proj1 (Forall_forall _ _) HF s Hs). simpl. lia.
  - intros s Hs. eapply some_in_use; [done|apply Hb, elem_of_app; by left|]. by apply (proj1 (Forall_forall _ _) HP s Hs).
Qed.

Lemma wp_slab_call c op out K h :
  slab_inv c K h → live K ≡ₚ out → wp (slab_call c op out) (λ out' h', ∃ K', slab_inv c K' h' ∧ k_size K' = k_size K ∧ live K' ≡ₚ out') h.
Proof.
  intros Hi Hl. destruct op as [|i|i off v]; simpl.
  - wp_step. eapply wp_mono; [by apply wp_SlabAlloc|]. intros p h' [_ [(-> & Hi' & _)|(K' & a & Hp & Hi' & Ek & Hl' & _)]]; wp_step; [by exists K|].
    exists K'. rewrite (proj2 (Z.eqb_neq p 0)) by done. split_and!; [done..|]. by rewrite Hl', Hl.
  - destruct (out !! i) as [p|] eqn:E; [|wp_step; by exists K]. assert (p ∈ live K) as Hp by (rewrite Hl; by eapply list_elem_of_lookup_2).
    destruct (live_page c K h p Hi Hp) as (Hp0 & _). unfold KSlabFree. rewrite (proj2 (Z.eqb_neq p 0)) by lia. cbn [negb when]. wp_step.
    eapply wp_mono; [by apply wp_SlabFree|]. intros [] h' (K' & Hi' & Ek & Hl' & _). wp_step. exists K'. split_and!; [done..|].
    apply (Permutation_cons_inv (a := p)). rewrite <- Hl', Hl. by apply delete_Permutation.
  - destruct (out !! i) as [p|] eqn:E; [|wp_step; by exists K]. assert (p ∈ live K) as Hp by (rewrite Hl; by eapply list_elem_of_lookup_2).
    do 2 heap_step. rewrite (pt_obj _ _ _ _ _ _ (si_parts _ _ _ Hi)). wp_step. apply wp_when; intros Eo; b2p; repeat heap_step; [|by exists K].
    exists K. split; [|done]. apply (slab_inv_store c K h p); [done|done|lia].
Qed.
Lemma wp_slab_run c ops : ∀ out K h,
  slab_inv c K h → live K ≡ₚ out → wp (slab_run c ops out) (λ out' h', ∃ K', slab_inv c K' h' ∧ k_size K' = k_size K ∧ live K' ≡ₚ out') h.
Proof.
  induction ops as [|op ops IH]; intros out K h Hi Hl; simpl; [wp_step; by exists K|]. wp_step.
  eapply wp_mono; [by apply wp_slab_call|]. intros out' h' (K' & Hi' & Ek & Hl'). eapply wp_mono; [by apply (IH out' K')|].
  intros out2 h2 (K2 & Hi2 & Ek2 & Hl2). exists K2. split_and!; [done|congruence|done].
Qed.

(** * Properties *)

(** [KSlabAlloc] returns.  An object it hands out is 8-byte aligned and overlaps no object in use;
    the bytes of the objects in use stay as they were; NULL leaves the cache as it was,
    and no frame anyone owns changes hands. *)
Theorem KSlabAlloc_fresh c K h :
  slab_inv c K h →
  wp (KSlabAlloc OFF c) (λ p h', (∀ q, frame_owned (h_w h) q → frame_owned (h_w h') q) ∧
    (∀ q x, q ∈ live K → q ≤ x < q + k_size K → h_mem h' x = h_mem h x) ∧
    (p = 0 → slab_inv c K h') ∧
    (p ≠ 0 → p mod 8 = 0 ∧ (∀ q, q ∈ live K → p + k_size K ≤ q ∨ q + k_size K ≤ p) ∧
       ∃ K', slab_inv c K' h' ∧ k_size K' = k_size K ∧ live K' ≡ₚ p :: live K)) h.
Proof.
  intros Hi. eapply wp_mono; [by apply wp_SlabAlloc|]. intros p h' [(_ & _ & Hg) Hp]. split; [done|].
  destruct Hp as [(-> & Hi' & Hm)|(K' & a & Hp & Hi' & Ek & Hl & _ & Ha & Hfresh & Hm)]; [split_and!; [by intros; rewrite Hm|done|done]|].
  split_and!; [| |intros _; split_and!].
  - intros q x Hq Hx. apply Hm. by eapply live_not_bookkeeping.
  - done.
  - eapply live_page; [exact Hi'|]. rewrite Hl. by left.
  - intros q Hq. rewrite <- Ek. eapply objects_apart; [exact Hi'|rewrite Hl; by left|rewrite Hl; by right|]. intros ->.
    pose proof (objects_nodup _ _ _ Hi') as Hn. rewrite Hl in Hn. by apply NoDup_cons in Hn as [? _].
  - by exists K'.
Qed.

(** [KSlabFree] of an object in use returns, takes exactly that object out of use and leaves the
    bytes of the others; the frames of others stay owned, and afterwards every page of
    the cache but one holds an object in use. *)
Theorem KSlabFree_releases c K h p :
  slab_inv c K h → p ∈ live K →
  wp (KSlabFree OFF c p) (λ _ h', ∃ K', slab_inv c K' h' ∧ k_size K' = k_size K ∧ live K ≡ₚ p :: live K' ∧
    (∀ q x, q ∈ live K' → q ≤ x < q + k_size K → h_mem h' x = h_mem h x) ∧
    (∀ q, frame_owned (h_w h) q → (∀ s, s ∈ slabs K → q ≠ g_at s - OFF) → frame_owned (h_w h') q) ∧
    (length (filter (λ s, objs (k_size K) s = []) (slabs K')) ≤ 1)%nat) h.
Proof.
  intros Hi Hp. destruct (live_page c K h p Hi Hp) as (Hp0 & _). unfold KSlabFree. rewrite (proj2 (Z.eqb_neq p 0)) by lia. cbn [negb when].
  eapply wp_mono; [by apply wp_SlabFree|]. intros [] h' (K' & Hi' & Ek & Hl & Hats & Hm & _ & Hown). exists K'. split_and!; [done..| | |].
  - intros q x Hq Hx. assert (q ∈ live K) as Hq' by (rewrite Hl; by right).
    assert (p ≠ q) as Hne by (intros ->; pose proof (objects_nodup _ _ _ Hi) as Hn; rewrite Hl in Hn; by apply NoDup_cons in Hn as [? _]).
    pose proof (objects_apart _ _ _ _ _ Hi Hp Hq' Hne). pose proof (live_not_bookkeeping c K h 0 q x Hi eq_refl Hq' Hx) as Hnb. unfold bookkeeping in Hnb.
    apply Hm; [tauto| |lia]. intros s Hs Hxs. apply Hnb. right. left. by exists s.
  - intros q Hq Hne. apply Hown; [done|]. intros s (u & -> & Hu)%list_elem_of_fmap _. by apply Hne.
  - rewrite <- Ek. by eapply one_unused.
Qed.

(** C6: whatever a client does with a fresh cache - take objects, return objects it holds, write inside
    them - every call returns, and the objects it holds are aligned, lie in frames owned
    by the cache and do not overlap. *)
Theorem slab_clients_apart c n h h0 ops :
  env_ok (h_w h) c → 0 ≤ n < 2 ^ 32 - 8 → KSlabInit c n h = Ok (tt, h0) →
  wp (slab_run c ops []) (λ out h',
    (∀ i p, out !! i = Some p → p mod 8 = 0 ∧ ∀ x, p ≤ x < p + rounded n → frame_owned (h_w h') (frame_of OFF x)) ∧
    (∀ i j p q, i ≠ j → out !! i = Some p → out !! j = Some q → p + rounded n ≤ q ∨ q + rounded n ≤ p)) h0.
Proof.
  intros He Hn Hinit. pose proof (wp_KSlabInit c n h He Hn) as Hw. case_decide as Hd; [|congruence]. unfold wp at 1 in Hw. rewrite Hinit in Hw.
  destruct Hw as (Hi & _). eapply wp_mono; [by apply (wp_slab_run c ops [] _ _ Hi)|]. intros out h' (K & Hi' & Ek & Hl). simpl in Ek. rewrite <- Ek.
  assert (∀ i p, out !! i = Some p → p ∈ live K) as Hin by (intros i p E; rewrite Hl; by eapply list_elem_of_lookup_2). split.
  - intros i p E. by destruct (live_page c K h' p Hi' (Hin _ _ E)) as (_ & ? & ?).
  - intros i j p q Hij Ei Ej. apply (objects_apart c K h'); [done|by eapply Hin|by eapply Hin|]. intros ->. apply Hij.
    pose proof (objects_nodup _ _ _ Hi') as Hnd. rewrite Hl in Hnd. by eapply NoDup_lookup.
Qed.
End slab_laws.

(** * Examples *)

(** A cache of 20-byte objects in the first frame, over the frames of [Bump]. *)
Module SlabDemo.
#[local] Existing Instance Bump.bump_source.
#[local] Existing Instance Bump.bump_laws.
#[local] Notation OFF := Bump.OFF.

Definition c : Z := OFF + PAGE_SIZE + 64.
Definition before : hst Bump.bump := mkHst (2, []) (λ _, 7) 0 0 0 0 0 0.
Definition K0 : cache := mkK 24 [] [] [].
Definition fresh : hst Bump.bump := match KSlabInit c 20 before with Ok (_, h) => h | _ => before end.

Lemma before_ok : env_ok OFF (h_w before) c.
Proof.
  split; [split; [by vm_compute|by intros ? ?%elem_of_nil]|by vm_compute|]. split; [by vm_compute|]. intros x Hx.
  split; [|apply not_elem_of_nil]. change (h_w before).1 with 2. unfold frame_of, c, Bump.OFF, PAGE_SIZE in *. Z.div_mod_to_equations. lia.
Qed.
Lemma fresh_ok : slab_inv OFF c K0 fresh.
Proof.
  pose proof (wp_KSlabInit OFF c 20 before before_ok ltac:(lia)) as Hw. rewrite decide_True in Hw by (by vm_compute).
  destruct (wp_Ok _ _ _ Hw) as ([] & h' & E & Hi & _). unfold fresh. rewrite E. exact Hi.
Qed.

Lemma slab_clients_apart_witness :
  wp (slab_run OFF c [SAlloc; SAlloc; SStore 0 4 9; SFree 1; SAlloc] []) (λ out h',
    (∀ i p, out !! i = Some p → p mod 8 = 0 ∧ ∀ x, p ≤ x < p + rounded 20 → frame_owned (h_w h') (frame_of OFF x)) ∧
    (∀ i j p q, i ≠ j → out !! i = Some p → out !! j = Some q → p + rounded 20 ≤ q ∨ q + rounded 20 ≤ p)) fresh.
Proof. apply (slab_clients_apart OFF c 20 before fresh); [apply before_ok|lia|reflexivity]. Defined.

Lemma KSlabAlloc_fresh_witness :
  wp (KSlabAlloc OFF c) (λ p h', (∀ q, frame_owned (h_w fresh) q → frame_owned (h_w h') q) ∧
    (∀ q x, q ∈ live K0 → q ≤ x < q + k_size K0 → h_mem h' x = h_mem fresh x) ∧
    (p = 0 → slab_inv OFF c K0 h') ∧
    (p ≠ 0 → p mod 8 = 0 ∧ (∀ q, q ∈ live K0 → p + k_size K0 ≤ q ∨ q + k_size K0 ≤ p) ∧
       ∃ K', slab_inv OFF c K' h' ∧ k_size K' = k_size K0 ∧ live K' ≡ₚ p :: live K0)) fresh.
Proof. apply (KSlabAlloc_fresh OFF c K0 fresh), fresh_ok. Defined.

(** After one allocation: the last object of the page. *)
Definition one : hst Bump.bump := match KSlabAlloc OFF c fresh with Ok (_, h) => h | _ => fresh end.
Definition object : Z := OFF + 2 * PAGE_SIZE + 24 + 168 * 24.
Lemma object_ok : ∃ K, slab_inv OFF c K one ∧ object ∈ live K.
Proof.
  assert (match KSlabAlloc OFF c fresh with Ok (p, _) => p | _ => 0 end = object) as E by (by vm_compute).
  destruct (wp_Ok _ _ _ (wp_SlabAlloc OFF c K0 fresh fresh_ok)) as (p & h' & Em' & _ & Hw).
  assert (KSlabAlloc OFF c fresh = Ok (p, h')) as Em by exact Em'. clear Em'.
  rewrite Em in E. subst p. assert (one = h') as -> by (unfold one; by rewrite Em).
  destruct Hw as [(Hz & _)|(K' & a & _ & Hi & _ & Hl & _)]; [by vm_compute in Hz|]. exists K'. split; [exact Hi|]. rewrite Hl. by left.
Qed.

Lemma KSlabFree_releases_witness :
  ∃ K, wp (KSlabFree OFF c object) (λ _ h', ∃ K', slab_inv OFF c K' h' ∧ k_size K' = k_size K ∧ live K ≡ₚ object :: live K' ∧
    (∀ q x, q ∈ live K' → q ≤ x < q + k_size K → h_mem h' x = h_mem one x) ∧
    (∀ q, frame_owned (h_w one) q → (∀ s, s ∈ slabs K → q ≠ g_at s - OFF) → frame_owned (h_w h') q) ∧
    (length (filter (λ s, objs (k_size K) s = []) (slabs K')) ≤ 1)%nat) one.
Proof. destruct object_ok as (K & Hi & Hl). exists K. exact (KSlabFree_releases OFF c K one object Hi Hl). Defined.
End SlabDemo.
