(* ===== verification/Handle.v ===== *)
(** kernel/space/handle.h and the table part of kernel/space/handle.c: handle tables.

    A handle is a slot index packed with the slot's generation.  A table has 16 blocks
    of 64 entries, allocated when first needed, and a bitmap of the slots in use.

    The functions that allocate are computations over an arbitrary state [S] with the
    heap's [KZAlloc] and [KFree] and the reference counting of objects as parameters,
    which the kernel state later instantiates.  An entry pointer is the index of the
    entry's slot in its table. *)
From S2P Require Import Prelude Bitmap.

#[local] Open Scope Z_scope.

Definition HANDLE_INDEX_BITS : Z := 10.
Definition HANDLE_INDEX_MASK : Z := bit HANDLE_INDEX_BITS - 1.
Definition HANDLE_PACK (index gen : Z) : Z :=
  Z.lor (w32 (Z.shiftl gen HANDLE_INDEX_BITS)) (Z.land index HANDLE_INDEX_MASK).
Definition HANDLE_INDEX (h : Z) : Z := Z.land (w32 h) HANDLE_INDEX_MASK.
Definition HANDLE_GEN (h : Z) : Z := Z.shiftr (w32 h) HANDLE_INDEX_BITS.
Definition HANDLE_GEN_BITS : Z := 31 - HANDLE_INDEX_BITS.
Definition HANDLE_GEN_MASK : Z := bit HANDLE_GEN_BITS - 1.
Definition HANDLE_BLOCK_SLOTS : Z := 64.
Definition HANDLE_MAX_BLOCKS : Z := 16.
Definition HANDLE_MAX_SLOTS : Z := HANDLE_BLOCK_SLOTS * HANDLE_MAX_BLOCKS.

Inductive HandleType :=
  HANDLE_FREE | HANDLE_PORT | HANDLE_MEM | HANDLE_EVENT | HANDLE_TASK | HANDLE_SPACE.
#[global] Instance HandleType_eq_dec : EqDecision HandleType.
Proof. solve_decision. Defined.

(** [HandleTableEntry]; [obj] is the union of object pointers, read according to [type_]. *)
Record HandleTableEntry := mkEntry {
  type_ : HandleType;
  perms : Z;
  mapped_va : Z;
  obj : Z;
  marker : Z;
  generation : Z
}.

Definition set_type_ (v : HandleType) (r : HandleTableEntry) : HandleTableEntry :=
  mkEntry v (perms r) (mapped_va r) (obj r) (marker r) (generation r).
Definition set_perms (v : Z) (r : HandleTableEntry) : HandleTableEntry :=
  mkEntry (type_ r) v (mapped_va r) (obj r) (marker r) (generation r).
Definition set_mapped_va (v : Z) (r : HandleTableEntry) : HandleTableEntry :=
  mkEntry (type_ r) (perms r) v (obj r) (marker r) (generation r).
Definition set_obj (v : Z) (r : HandleTableEntry) : HandleTableEntry :=
  mkEntry (type_ r) (perms r) (mapped_va r) v (marker r) (generation r).
Definition set_marker (v : Z) (r : HandleTableEntry) : HandleTableEntry :=
  mkEntry (type_ r) (perms r) (mapped_va r) (obj r) v (generation r).
Definition set_generation (v : Z) (r : HandleTableEntry) : HandleTableEntry :=
  mkEntry (type_ r) (perms r) (mapped_va r) (obj r) (marker r) v.

(** [HandleTable]; a block is its address and its entries. *)
Record HandleTable := mkTable {
  blocks : list (option (Z * list HandleTableEntry));
  slot_bitmap : list Z
}.

Definition set_blocks (v : list (option (Z * list HandleTableEntry))) (r : HandleTable) : HandleTable :=
  mkTable v (slot_bitmap r).
Definition set_slot_bitmap (v : list Z) (r : HandleTable) : HandleTable :=
  mkTable (blocks r) v.

(** An entry as [memset] and [KZAlloc] leave it. *)
Definition zero_entry : HandleTableEntry := mkEntry HANDLE_FREE 0 0 0 0 0.
#[global] Instance HandleTableEntry_inhabited : Inhabited HandleTableEntry := populate zero_entry.

Definition HandleTableInit : HandleTable :=
  mkTable (replicate (Z.to_nat HANDLE_MAX_BLOCKS) None) (replicate (Z.to_nat (BITMAP_WORDS HANDLE_MAX_SLOTS)) 0).

(** [t->blocks[b]]; NULL as [None]. *)
Definition block_of (t : HandleTable) (b : Z) : option (Z * list HandleTableEntry) := aget (blocks t) b.

Definition HandleTableGet (t : HandleTable) (i : Z) : option HandleTableEntry :=
  if HANDLE_MAX_SLOTS <=? w32 i then None else
  match block_of t (w32 i / HANDLE_BLOCK_SLOTS) with
  | None => None
  | Some (_, es) => Some (aget es (w32 i mod HANDLE_BLOCK_SLOTS))
  end.

(** Writing an entry through its pointer. *)
Definition put_entry (t : HandleTable) (i : Z) (e : HandleTableEntry) : HandleTable :=
  match block_of t (i / HANDLE_BLOCK_SLOTS) with
  | None => t
  | Some (a, es) =>
      set_blocks (aset (blocks t) (i / HANDLE_BLOCK_SLOTS) (Some (a, aset es (i mod HANDLE_BLOCK_SLOTS) e))) t
  end.

Definition HandleTableLookup (t : HandleTable) (h : Z) : option HandleTableEntry :=
  match HandleTableGet t (HANDLE_INDEX h) with
  | None => None
  | Some e =>
      if bool_decide (type_ e = HANDLE_FREE) || negb (generation e =? HANDLE_GEN h) then None else Some e
  end.

(** The slot index of the entry at slot [i], by the walk over the blocks. *)
Definition HandleEntryIndex (t : HandleTable) (i : Z) : Z :=
  match block_of t (i / HANDLE_BLOCK_SLOTS) with
  | None => HANDLE_MAX_SLOTS
  | Some _ => i / HANDLE_BLOCK_SLOTS * HANDLE_BLOCK_SLOTS + i mod HANDLE_BLOCK_SLOTS
  end.

Definition HandleEntryClaim (t : HandleTable) (e : Z) : HandleTable :=
  let i := HandleEntryIndex t e in
  if i <? HANDLE_MAX_SLOTS then set_slot_bitmap (BitmapSet (slot_bitmap t) i) t else t.

Definition HandleEntryFree (t : HandleTable) (e : Z) : HandleTable :=
  let i := HandleEntryIndex t e in
  let t := if i <? HANDLE_MAX_SLOTS then set_slot_bitmap (BitmapClr (slot_bitmap t) i) t else t in
  match HandleTableGet t e with
  | None => t
  | Some old =>
      let next_gen := Z.land (w32 (generation old + 1)) HANDLE_GEN_MASK in
      put_entry t e (set_generation next_gen zero_entry)
  end.

Section handle.
Context {S : Type} (KZAlloc : Z → M S Z) (KFree : Z → M S unit) (ObjRef : HandleType → Z → M S unit).

(** [sizeof(HandleBlock)] on the 32-bit target: 64 entries of six words. *)
Definition HandleBlockSize : Z := 64 * 24.

Definition HandleTableDestroy (t : HandleTable) : M S HandleTable :=
  for_each (Z.to_nat HANDLE_MAX_BLOCKS) 0 (λ b,
    KFree (match block_of t b with Some (a, _) => a | None => 0 end)) ;;
  ret (mkTable (replicate (Z.to_nat HANDLE_MAX_BLOCKS) None)
               (BitmapZero (slot_bitmap t) HANDLE_MAX_SLOTS)).

Definition HandleBlockEnsure (t : HandleTable) (i : Z) : M S (bool * HandleTable) :=
  let b := i / HANDLE_BLOCK_SLOTS in
  match block_of t b with
  | Some _ => ret (true, t)
  | None =>
      let! a := KZAlloc HandleBlockSize in
      if a =? 0 then ret (false, t)
      else ret (true, set_blocks (aset (blocks t) b (Some (a, replicate (Z.to_nat HANDLE_BLOCK_SLOTS) zero_entry))) t)
  end.

Definition HandleTableFindFree (t : HandleTable) : M S (Z * HandleTable) :=
  let slot := BitmapFindFirstZero (slot_bitmap t) HANDLE_MAX_SLOTS in
  if slot <? 0 then ret (-1, t) else
  let! r := HandleBlockEnsure t slot in
  let '(ok, t) := r in
  if negb ok then ret (-1, t) else ret (slot, t).

Definition HandleTableGetOrAlloc (t : HandleTable) (i : Z) : M S (option HandleTableEntry * HandleTable) :=
  if HANDLE_MAX_SLOTS <=? w32 i then ret (None, t) else
  let! r := HandleBlockEnsure t (w32 i) in
  let '(ok, t) := r in
  if negb ok then ret (None, t) else ret (HandleTableGet t i, t).

(** Returns the error code, the handle written to [out] and the table. *)
Definition HandleCopyInto (t : HandleTable) (src : HandleTableEntry) (perms_ marker_ : Z) : M S (Z * Z * HandleTable) :=
  if bool_decide (type_ src = HANDLE_FREE) then ret (ERR_BADTYPE, 0, t) else
  let! r := HandleTableFindFree t in
  let '(free_handle, t) := r in
  if negb (0 <=? free_handle) then ret (ERR_NOMEM, 0, t) else
  match HandleTableGet t free_handle with
  | None => ret (ERR_NOENT, 0, t)
  | Some _ =>
      let t := HandleEntryClaim t free_handle in
      match HandleTableGet t free_handle with
      | None => panic
      | Some dst =>
          let dst := set_obj (obj src) (set_mapped_va 0 (set_marker marker_ (set_type_ (type_ src) (set_perms perms_ dst)))) in
          ObjRef (type_ src) (obj src) ;;
          ret (ZUZU_OK, s32 (HANDLE_PACK free_handle (generation dst)), put_entry t free_handle dst)
      end
  end.

(** [HandleTableHoldsMem]: whether another slot than [except] refers to [mem]. *)
Definition HandleTableHoldsMem (t : HandleTable) (mem except : Z) : bool :=
  existsb (λ i, match HandleTableGet t i with
                | Some e => negb (i =? except) && bool_decide (type_ e = HANDLE_MEM) && (obj e =? mem)
                | None => false
                end) (seqZ 0 HANDLE_MAX_SLOTS).
End handle.

(** * Handle values *)

Lemma handle_mask i : Z.land i HANDLE_INDEX_MASK = i mod 2 ^ 10.
Proof. unfold HANDLE_INDEX_MASK, HANDLE_INDEX_BITS. rewrite bit_pow by lia. rewrite <- Z.land_ones by lia. f_equal. Qed.

Lemma HANDLE_PACK_sum i g : 0 ≤ i < 2 ^ 10 → 0 ≤ g < 2 ^ 21 → HANDLE_PACK i g = g * 2 ^ 10 + i.
Proof.
  intros Hi Hg. unfold HANDLE_PACK. rewrite handle_mask, Z.mod_small by done.
  unfold HANDLE_INDEX_BITS. rewrite Z.shiftl_mul_pow2 by lia. rewrite w32_small by lia.
  apply lor_pack; lia.
Qed.

Lemma HANDLE_PACK_range i g : 0 ≤ i < 2 ^ 10 → 0 ≤ g < 2 ^ 21 → 0 ≤ HANDLE_PACK i g < 2 ^ 31.
Proof. intros. rewrite HANDLE_PACK_sum by done. lia. Qed.

Lemma HANDLE_INDEX_PACK i g : 0 ≤ i < 2 ^ 10 → 0 ≤ g < 2 ^ 21 → HANDLE_INDEX (HANDLE_PACK i g) = i.
Proof.
  intros Hi Hg. unfold HANDLE_INDEX. pose proof (HANDLE_PACK_range i g Hi Hg).
  rewrite w32_small by lia. rewrite handle_mask, HANDLE_PACK_sum by done.
  rewrite Z.add_comm, Z.mod_add by lia. by apply Z.mod_small.
Qed.

Lemma HANDLE_GEN_PACK i g : 0 ≤ i < 2 ^ 10 → 0 ≤ g < 2 ^ 21 → HANDLE_GEN (HANDLE_PACK i g) = g.
Proof.
  intros Hi Hg. unfold HANDLE_GEN. pose proof (HANDLE_PACK_range i g Hi Hg).
  rewrite w32_small by lia. unfold HANDLE_INDEX_BITS. rewrite Z.shiftr_div_pow2 by lia.
  rewrite HANDLE_PACK_sum by done. rewrite Z.div_add_l by lia. rewrite Z.div_small by lia. lia.
Qed.

Lemma HANDLE_INDEX_range h : 0 ≤ HANDLE_INDEX h < HANDLE_MAX_SLOTS.
Proof. unfold HANDLE_INDEX. rewrite handle_mask. apply (Z.mod_pos_bound _ (2 ^ 10)). lia. Qed.

(** * Well-formed tables *)

Implicit Types (t : HandleTable) (e : HandleTableEntry) (i j h : Z).

Definition blocks_ok t : Prop :=
  length (blocks t) = 16%nat ∧
  ∀ b a es, 0 ≤ b < 16 → block_of t b = Some (a, es) → length es = 64%nat.

(** The bitmap marks exactly the live slots, and generations fit their field. *)
Definition ht_wf t : Prop :=
  blocks_ok t ∧ bm_wf (slot_bitmap t) HANDLE_MAX_SLOTS ∧
  (∀ i, 0 ≤ i < HANDLE_MAX_SLOTS →
     bm_test (slot_bitmap t) i = true ↔ ∃ e, HandleTableGet t i = Some e ∧ type_ e ≠ HANDLE_FREE) ∧
  (∀ i e, 0 ≤ i < HANDLE_MAX_SLOTS → HandleTableGet t i = Some e → 0 ≤ generation e < 2 ^ 21).

Lemma slot_block i : 0 ≤ i < HANDLE_MAX_SLOTS →
  0 ≤ i / HANDLE_BLOCK_SLOTS < 16 ∧ 0 ≤ i mod HANDLE_BLOCK_SLOTS < 64 ∧
  i = i / HANDLE_BLOCK_SLOTS * HANDLE_BLOCK_SLOTS + i mod HANDLE_BLOCK_SLOTS.
Proof.
  unfold HANDLE_MAX_SLOTS, HANDLE_BLOCK_SLOTS, HANDLE_MAX_BLOCKS. intros Hi. split_and!.
  - apply Z.div_pos; lia.
  - apply Z.div_lt_upper_bound; lia.
  - apply Z.mod_pos_bound; lia.
  - apply Z.mod_pos_bound; lia.
  - rewrite Z.mul_comm. apply Z.div_mod. lia.
Qed.

Lemma HandleTableGet_slot t i : 0 ≤ i < HANDLE_MAX_SLOTS →
  HandleTableGet t i = match block_of t (i / HANDLE_BLOCK_SLOTS) with
                       | None => None
                       | Some (_, es) => Some (aget es (i mod HANDLE_BLOCK_SLOTS))
                       end.
Proof.
  intros Hi. unfold HandleTableGet. rewrite w32_small by (unfold HANDLE_MAX_SLOTS, HANDLE_BLOCK_SLOTS, HANDLE_MAX_BLOCKS in *; lia).
  by rewrite (proj2 (Z.leb_gt _ _)) by lia.
Qed.

Lemma HandleEntryIndex_slot t i e :
  0 ≤ i < HANDLE_MAX_SLOTS → HandleTableGet t i = Some e → HandleEntryIndex t i = i.
Proof.
  intros Hi. rewrite HandleTableGet_slot by done. unfold HandleEntryIndex.
  destruct (block_of _ _) as [[a es]|]; [|done]. intros _. symmetry. by apply slot_block.
Qed.

Lemma HandleTableGet_put t i j e e0 :
  blocks_ok t → 0 ≤ i < HANDLE_MAX_SLOTS → 0 ≤ j < HANDLE_MAX_SLOTS → HandleTableGet t i = Some e0 →
  HandleTableGet (put_entry t i e) j = if decide (i = j) then Some e else HandleTableGet t j.
Proof.
  intros [Hl Hes] Hi Hj. rewrite !HandleTableGet_slot by done. unfold put_entry.
  destruct (block_of t (i / HANDLE_BLOCK_SLOTS)) as [[a es]|] eqn:Eb; [|done]. intros _.
  destruct (slot_block i Hi) as (Hbi & Hoi & Hie), (slot_block j Hj) as (Hbj & Hoj & Hje).
  pose proof (Hes _ _ _ Hbi Eb) as Hlen. unfold block_of at 1. simpl.
  destruct (decide (i / HANDLE_BLOCK_SLOTS = j / HANDLE_BLOCK_SLOTS)) as [Hb|Hb].
  - rewrite <- Hb, aget_aset_eq by lia. rewrite Eb.
    destruct (decide (i = j)) as [->|Hne]; [by rewrite aget_aset_eq by lia|].
    rewrite aget_aset_ne by lia. done.
  - rewrite aget_aset_ne by lia. destruct (decide (i = j)) as [->|]; done.
Qed.

Lemma blocks_ok_put t i e : blocks_ok t → 0 ≤ i < HANDLE_MAX_SLOTS → blocks_ok (put_entry t i e).
Proof.
  intros [Hl Hes] Hi. unfold put_entry. destruct (block_of t (i / HANDLE_BLOCK_SLOTS)) as [[a es]|] eqn:Eb; [|done].
  destruct (slot_block i Hi) as (Hbi & _). split; simpl; [by rewrite length_aset|].
  intros b a' es' Hb. unfold block_of. simpl.
  destruct (decide (i / HANDLE_BLOCK_SLOTS = b)) as [<-|Hne].
  - rewrite aget_aset_eq by lia. intros [= <- <-]. rewrite length_aset. by eapply Hes.
  - rewrite aget_aset_ne by lia. by apply Hes.
Qed.

(** [t'] is [t] with a block of unused entries added, or [t] itself. *)
Definition extends t t' : Prop :=
  slot_bitmap t' = slot_bitmap t ∧
  (∀ j, 0 ≤ j < HANDLE_MAX_SLOTS →
     HandleTableGet t' j = HandleTableGet t j ∨
     (HandleTableGet t j = None ∧ HandleTableGet t' j = Some zero_entry)).

Lemma extends_refl t : extends t t.
Proof. split; [done|]. by left. Qed.

Lemma extends_wf t t' : ht_wf t → extends t t' → blocks_ok t' → ht_wf t'.
Proof.
  intros (_ & Hbm & Hlive & Hgen) [Hb Hg] Hok. split_and!; [done|by rewrite Hb| |].
  - intros i Hi. rewrite Hb, Hlive by done. destruct (Hg i Hi) as [->|[Hn Hz]]; [done|].
    rewrite Hn, Hz. split; [by intros (? & ? & _)|]. intros (e & [= <-] & He). done.
  - intros i e Hi. destruct (Hg i Hi) as [->|[Hn ->]]; [by apply Hgen|]. intros [= <-]. simpl. lia.
Qed.

Lemma HandleTableFindFree_full t slot :
  ht_wf t → BitmapFindFirstZero (slot_bitmap t) HANDLE_MAX_SLOTS = slot → 0 ≤ slot →
  0 ≤ slot < HANDLE_MAX_SLOTS ∧ bm_test (slot_bitmap t) slot = false.
Proof.
  intros (_ & Hbm & _) Hs H0.
  pose proof (BitmapFindFirstZero_first _ _ Hbm) as Hz. rewrite Hs in Hz. unfold first_zero in Hz.
  destruct Hz as [[? _]|(? & ? & _)]; [lia|done].
Qed.

Section handle_ok.
Context {S : Type} (KZAlloc : Z → M S Z) (ObjRef : HandleType → Z → M S unit).
(** The allocator and the reference counting return. *)
Context (KZAlloc_total : ∀ n s, ∃ a s', KZAlloc n s = Ok (a, s')).
Context (ObjRef_total : ∀ ty o s, ∃ s', ObjRef ty o s = Ok (tt, s')).

Lemma wp_HandleBlockEnsure t i s :
  blocks_ok t → 0 ≤ i < HANDLE_MAX_SLOTS →
  wp (HandleBlockEnsure KZAlloc t i) (λ r _,
    blocks_ok r.2 ∧ extends t r.2 ∧
    (if r.1 then ∃ e, HandleTableGet r.2 i = Some e else r.2 = t)) s.
Proof.
  intros Hok Hi. pose proof Hok as [Hl Hes]. unfold HandleBlockEnsure.
  destruct (slot_block i Hi) as (Hbi & _).
  destruct (block_of t (i / HANDLE_BLOCK_SLOTS)) as [[a es]|] eqn:Eb.
  { wp_step. split_and!; [done|apply extends_refl|]. simpl. rewrite HandleTableGet_slot, Eb by done. by eexists. }
  wp_step. destruct (KZAlloc_total HandleBlockSize s) as (a & s' & Ha). eapply wp_of; [exact Ha|].
  apply wp_if; intros Hz; b2p; wp_step; [split_and!; [done|apply extends_refl|done]|].
  set (es := replicate _ zero_entry).
  assert (Hget : ∀ j, 0 ≤ j < HANDLE_MAX_SLOTS →
    HandleTableGet (set_blocks (aset (blocks t) (i / HANDLE_BLOCK_SLOTS) (Some (a, es))) t) j =
    if decide (i / HANDLE_BLOCK_SLOTS = j / HANDLE_BLOCK_SLOTS) then Some zero_entry else HandleTableGet t j).
  { intros j Hj. rewrite !HandleTableGet_slot by done. destruct (slot_block j Hj) as (Hbj & Hoj & _).
    unfold block_of. simpl. case_decide as Hd.
    - rewrite <- Hd, aget_aset_eq by lia. f_equal. unfold es, aget.
      apply list_lookup_total_correct, lookup_replicate_2. unfold HANDLE_BLOCK_SLOTS in *. lia.
    - by rewrite aget_aset_ne by lia. }
  simpl. split_and!.
  - split; simpl; [by rewrite length_aset|]. intros b a' es' Hb. unfold block_of. simpl.
    destruct (decide (i / HANDLE_BLOCK_SLOTS = b)) as [<-|Hne].
    + rewrite aget_aset_eq by lia. intros [= <- <-]. done.
    + rewrite aget_aset_ne by lia. by apply Hes.
  - split; [done|]. intros j Hj. rewrite Hget by done. case_decide as Hd; [|by left]. right. split; [|done].
    rewrite HandleTableGet_slot by done. by rewrite <- Hd, Eb.
  - exists zero_entry. rewrite Hget by done. by rewrite decide_True.
Qed.

Lemma wp_HandleTableFindFree t s :
  ht_wf t →
  wp (HandleTableFindFree KZAlloc t) (λ r _,
    ht_wf r.2 ∧ extends t r.2 ∧
    (r.1 = -1 ∨ (0 ≤ r.1 < HANDLE_MAX_SLOTS ∧
       ∃ e, HandleTableGet r.2 r.1 = Some e ∧ type_ e = HANDLE_FREE ∧ bm_test (slot_bitmap t) r.1 = false))) s.
Proof.
  intros Hwf. pose proof Hwf as (Hok & _). unfold HandleTableFindFree.
  remember (BitmapFindFirstZero (slot_bitmap t) HANDLE_MAX_SLOTS) as slot eqn:Hs. symmetry in Hs.
  apply wp_if; intros Hc; b2p; [wp_step; split_and!; [done|apply extends_refl|by left]|].
  destruct (HandleTableFindFree_full t slot Hwf Hs Hc) as [Hr Hb]. wp_step.
  eapply wp_mono; [by apply wp_HandleBlockEnsure|]. intros [ok t'] s' (Hok' & Hex & Hcase). simpl in *.
  assert (Hwf' : ht_wf t') by (by eapply extends_wf).
  destruct ok; simpl; wp_step; simpl; [|split_and!; [done..|by left]].
  split_and!; [done..|]. right. split; [done|]. destruct Hcase as [e He]. exists e. split_and!; [done| |done].
  destruct Hwf' as (_ & _ & Hlive & _). destruct Hex as [Hbm _].
  destruct (decide (type_ e = HANDLE_FREE)) as [|Hne]; [done|].
  assert (Ht : bm_test (slot_bitmap t') slot = true) by (apply Hlive; [done|by exists e]). congruence.
Qed.

Lemma HandleEntryClaim_get t i j : HandleTableGet (HandleEntryClaim t i) j = HandleTableGet t j.
Proof. unfold HandleEntryClaim. by destruct (_ <? _). Qed.

(** The table after a free slot was claimed and filled. *)
Lemma ht_wf_fill t i e0 e :
  ht_wf t → 0 ≤ i < HANDLE_MAX_SLOTS → HandleTableGet t i = Some e0 →
  type_ e ≠ HANDLE_FREE → generation e = generation e0 →
  ht_wf (put_entry (HandleEntryClaim t i) i e).
Proof.
  intros (Hok & Hbm & Hlive & Hgen) Hi He0 Hty Hge.
  assert (Hc : HandleEntryClaim t i = set_slot_bitmap (BitmapSet (slot_bitmap t) i) t).
  { unfold HandleEntryClaim. rewrite (HandleEntryIndex_slot t i e0) by done. by rewrite (proj2 (Z.ltb_lt _ _)) by lia. }
  assert (Hok' : blocks_ok (HandleEntryClaim t i)) by (by rewrite Hc).
  assert (Hbits : slot_bitmap (put_entry (HandleEntryClaim t i) i e) = BitmapSet (slot_bitmap t) i).
  { rewrite Hc. unfold put_entry. simpl. by destruct (block_of _ _) as [[]|]. }
  pose proof (proj1 (proj2 Hbm)) as Hlen.
  split_and!; [by apply blocks_ok_put|rewrite Hbits; by apply bm_wf_Set| |].
  - intros j Hj. rewrite Hbits, bm_test_Set by lia.
    rewrite (HandleTableGet_put _ i j e e0), HandleEntryClaim_get by (done || by rewrite HandleEntryClaim_get).
    case_decide as Hd.
    + rewrite bool_decide_true by done. simpl. split; [|done]. intros _. by exists e.
    + rewrite bool_decide_false by done. simpl. by apply Hlive.
  - intros j e' Hj. rewrite (HandleTableGet_put _ i j e e0), HandleEntryClaim_get by (done || by rewrite HandleEntryClaim_get).
    case_decide; [|by apply Hgen]. intros [= <-]. rewrite Hge. exact (Hgen _ _ Hi He0).
Qed.

Lemma lookup_get t h :
  HandleTableLookup t h = match HandleTableGet t (HANDLE_INDEX h) with
    | Some e => if decide (type_ e ≠ HANDLE_FREE ∧ generation e = HANDLE_GEN h) then Some e else None
    | None => None
    end.
Proof.
  unfold HandleTableLookup. destruct (HandleTableGet _ _) as [e|]; [|done].
  case_bool_decide; simpl; [by rewrite decide_False by tauto|].
  destruct (Z.eqb_spec (generation e) (HANDLE_GEN h)); simpl; [by rewrite decide_True|by rewrite decide_False by tauto].
Qed.

Lemma lookup_extends t t' h : ht_wf t → extends t t' → HandleTableLookup t' h = HandleTableLookup t h.
Proof.
  intros _ [_ Hg]. rewrite !lookup_get. destruct (Hg (HANDLE_INDEX h) (HANDLE_INDEX_range h)) as [->|[-> ->]]; [done|].
  by rewrite decide_False by (intros [? _]; done).
Qed.

(** Handle values are equal when they agree on index and generation. *)
Lemma handle_eq h h' :
  -2 ^ 31 ≤ h < 2 ^ 31 → -2 ^ 31 ≤ h' < 2 ^ 31 →
  HANDLE_INDEX h = HANDLE_INDEX h' → HANDLE_GEN h = HANDLE_GEN h' → h = h'.
Proof.
  intros Hh Hh' Hi Hg. unfold HANDLE_INDEX, HANDLE_GEN, HANDLE_INDEX_BITS in *. rewrite !handle_mask in Hi.
  rewrite !Z.shiftr_div_pow2 in Hg by lia.
  assert (Hw : w32 h = w32 h').
  { rewrite (Z.div_mod (w32 h) (2 ^ 10)), (Z.div_mod (w32 h') (2 ^ 10)) by lia. congruence. }
  unfold w32 in Hw. pose proof (Z.div_mod h (2 ^ 32)). pose proof (Z.div_mod h' (2 ^ 32)).
  pose proof (Z.mod_pos_bound h (2 ^ 32)). pose proof (Z.mod_pos_bound h' (2 ^ 32)). lia.
Qed.

Definition is_handle h : Prop := -2 ^ 31 ≤ h < 2 ^ 31.

Lemma wp_HandleCopyInto t src p m s :
  ht_wf t → type_ src ≠ HANDLE_FREE →
  wp (HandleCopyInto KZAlloc ObjRef t src p m) (λ r _,
    let '(err, h, t') := r in ht_wf t' ∧
    if decide (err = ZUZU_OK) then
      0 ≤ h < 2 ^ 31 ∧ HandleTableLookup t h = None ∧
      (∃ e0, HandleTableGet t' (HANDLE_INDEX h) = Some (mkEntry (type_ src) p 0 (obj src) m (HANDLE_GEN h)) ∧
             (HandleTableGet t (HANDLE_INDEX h) = Some e0 ∧ generation e0 = HANDLE_GEN h ∨
              HandleTableGet t (HANDLE_INDEX h) = None ∧ HANDLE_GEN h = 0)) ∧
      ∀ h', is_handle h' → h' ≠ h → HandleTableLookup t' h' = HandleTableLookup t h'
    else err = ERR_NOMEM ∧ ∀ h', HandleTableLookup t' h' = HandleTableLookup t h') s.
Proof.
  intros Hwf Hty. unfold HandleCopyInto. rewrite bool_decide_false by done. wp_step.
  eapply wp_mono; [by apply wp_HandleTableFindFree|]. intros [slot t1] s1 (Hwf1 & Hex & Hcase). simpl in *.
  destruct Hcase as [->|(Hslot & e & He & Hfree & Hbit)].
  { simpl. wp_step. split; [done|]. rewrite decide_False by done. split; [done|]. intros h'. by apply lookup_extends. }
  rewrite (proj2 (Z.leb_le 0 slot)) by lia. simpl. rewrite He, HandleEntryClaim_get, He. wp_step.
  destruct (ObjRef_total (type_ src) (obj src) s1) as [s2 Hs2]. eapply wp_of; [exact Hs2|]. wp_step.
  pose proof Hwf1 as (Hok1 & _ & _ & Hgen1). pose proof (Hgen1 _ _ Hslot He) as Hge.
  set (dst := mkEntry (type_ src) p 0 (obj src) m (generation e)).
  change (set_obj _ _) with dst.
  pose proof (HANDLE_PACK_range slot (generation e) Hslot Hge) as Hr.
  rewrite s32_small by lia. set (h := HANDLE_PACK slot (generation e)).
  assert (Hidx : HANDLE_INDEX h = slot) by (by apply HANDLE_INDEX_PACK).
  assert (Hgh : HANDLE_GEN h = generation e) by (by apply HANDLE_GEN_PACK).
  assert (Hget : ∀ j, 0 ≤ j < HANDLE_MAX_SLOTS → HandleTableGet (put_entry (HandleEntryClaim t1 slot) slot dst) j =
     if decide (slot = j) then Some dst else HandleTableGet t1 j).
  { intros j Hj. rewrite (HandleTableGet_put _ slot j dst e), HandleEntryClaim_get; try done.
    - unfold HandleEntryClaim. by destruct (_ <? _).
    - by rewrite HandleEntryClaim_get. }
  rewrite decide_True by done. split_and!; [by eapply ht_wf_fill|lia|lia| | |].
  - rewrite <- (lookup_extends t t1) by done. rewrite lookup_get, Hidx, He. by rewrite decide_False by tauto.
  - exists e. rewrite Hidx, Hgh. split; [rewrite Hget by done; by rewrite decide_True|].
    destruct Hex as [_ Hx]. destruct (Hx slot Hslot) as [Hx'|[Hx' Hz]]; [left; split; congruence|right].
    split; [done|]. rewrite He in Hz. by injection Hz as ->.
  - intros h' Hh' Hne. rewrite <- (lookup_extends t t1 h') by done. rewrite !lookup_get.
    rewrite Hget by apply HANDLE_INDEX_range. case_decide as Hd; [|done]. rewrite <- Hd, He.
    rewrite (decide_False (P := type_ e ≠ HANDLE_FREE ∧ _)) by tauto. rewrite decide_False; [done|].
    intros [_ Hgg]. apply Hne, handle_eq; [done|unfold is_handle; lia|congruence|].
    rewrite Hgh. exact (eq_sym Hgg).
Qed.

Definition next_gen (g : Z) : Z := (g + 1) mod 2 ^ 21.
Lemma next_gen_spec g : 0 ≤ g < 2 ^ 21 → Z.land (w32 (g + 1)) HANDLE_GEN_MASK = next_gen g.
Proof.
  intros Hg. rewrite w32_small by lia. unfold HANDLE_GEN_MASK, HANDLE_GEN_BITS, HANDLE_INDEX_BITS, next_gen.
  rewrite bit_pow by lia. rewrite <- Z.land_ones by lia. f_equal.
Qed.
Lemma next_gen_ne g : 0 ≤ g < 2 ^ 21 → next_gen g ≠ g.
Proof.
  intros Hg. unfold next_gen. destruct (decide (g + 1 < 2 ^ 21)); [rewrite Z.mod_small by lia; lia|].
  replace (g + 1) with (2 ^ 21) by lia. rewrite Z.mod_same by lia. lia.
Qed.

Lemma HandleEntryFree_spec t i e0 :
  ht_wf t → 0 ≤ i < HANDLE_MAX_SLOTS → HandleTableGet t i = Some e0 →
  ht_wf (HandleEntryFree t i) ∧
  ∀ j, 0 ≤ j < HANDLE_MAX_SLOTS → HandleTableGet (HandleEntryFree t i) j =
    if decide (i = j) then Some (set_generation (next_gen (generation e0)) zero_entry) else HandleTableGet t j.
Proof.
  intros (Hok & Hbm & Hlive & Hgen) Hi He0. pose proof (Hgen _ _ Hi He0) as Hge.
  set (t1 := set_slot_bitmap (BitmapClr (slot_bitmap t) i) t).
  set (e1 := set_generation (next_gen (generation e0)) zero_entry).
  assert (Hf : HandleEntryFree t i = put_entry t1 i e1).
  { unfold HandleEntryFree. rewrite (HandleEntryIndex_slot t i e0) by done. rewrite (proj2 (Z.ltb_lt _ _)) by lia.
    fold t1. change (HandleTableGet t1 i) with (HandleTableGet t i). rewrite He0.
    by rewrite next_gen_spec. }
  assert (Hget : ∀ j, 0 ≤ j < HANDLE_MAX_SLOTS → HandleTableGet (put_entry t1 i e1) j =
     if decide (i = j) then Some e1 else HandleTableGet t j).
  { intros j Hj. by rewrite (HandleTableGet_put t1 i j e1 e0). }
  assert (Hbits : slot_bitmap (put_entry t1 i e1) = BitmapClr (slot_bitmap t) i).
  { unfold put_entry. by destruct (block_of _ _) as [[]|]. }
  pose proof (proj1 (proj2 Hbm)) as Hlen.
  rewrite Hf. split; [|done]. split_and!; [by apply (blocks_ok_put t1)|rewrite Hbits; by apply bm_wf_Clr| |].
  - intros j Hj. rewrite Hbits, bm_test_Clr, Hget by lia. case_decide as Hd.
    + rewrite bool_decide_true by done. simpl. split; [done|]. by intros (? & [= <-] & ?).
    + rewrite bool_decide_false by done. simpl. by apply Hlive.
  - intros j e' Hj. rewrite Hget by done. case_decide; [|by apply Hgen]. intros [= <-]. simpl.
    apply Z.mod_pos_bound. lia.
Qed.

(** A handle made by [HandleCopyInto] resolves, by [HandleTableLookup], to the
    object, permissions and marker it was given; it is a non-negative 32-bit value
    that named nothing before, and every other handle of the table resolves as
    before.  The only failure on a live source entry is ERR_NOMEM, which changes no
    handle. *)
Theorem HandleCopyInto_lookup t src p m s :
  ht_wf t → type_ src ≠ HANDLE_FREE →
  wp (HandleCopyInto KZAlloc ObjRef t src p m) (λ r _,
    let '(err, h, t') := r in ht_wf t' ∧
    if decide (err = ZUZU_OK) then
      0 ≤ h < 2 ^ 31 ∧ HandleTableLookup t h = None ∧
      HandleTableLookup t' h = Some (mkEntry (type_ src) p 0 (obj src) m (HANDLE_GEN h)) ∧
      ∀ h', is_handle h' → h' ≠ h → HandleTableLookup t' h' = HandleTableLookup t h'
    else err = ERR_NOMEM ∧ ∀ h', HandleTableLookup t' h' = HandleTableLookup t h') s.
Proof.
  intros Hwf Hty. eapply wp_mono; [by apply wp_HandleCopyInto|].
  intros [[err h] t'] s' [Hwf' Hc]. split; [done|]. destruct (decide (err = ZUZU_OK)); [|done].
  destruct Hc as (Hr & Hn & (e0 & Hg & _) & Hkeep). split_and!; [lia|lia|done| |done].
  rewrite lookup_get, Hg. by rewrite decide_True.
Qed.

(** After [HandleEntryFree] the handle no longer resolves and no other handle is
    affected; the slot's next use gives a different handle value, so the stale handle
    stays invalid across it. *)
Theorem HandleEntryFree_stale t h e src p m s :
  ht_wf t → is_handle h → HandleTableLookup t h = Some e → type_ src ≠ HANDLE_FREE →
  let t1 := HandleEntryFree t (HANDLE_INDEX h) in
  ht_wf t1 ∧ HandleTableLookup t1 h = None ∧
  (∀ h', is_handle h' → h' ≠ h → HandleTableLookup t1 h' = HandleTableLookup t h') ∧
  wp (HandleCopyInto KZAlloc ObjRef t1 src p m) (λ r _, HandleTableLookup r.2 h = None) s.
Proof.
  intros Hwf Hh Hl Hty t1. rewrite lookup_get in Hl.
  destruct (HandleTableGet t (HANDLE_INDEX h)) as [e0|] eqn:He0; [|done].
  case_decide as Hd; [|done]. injection Hl as ->. destruct Hd as [Htype Hgen].
  pose proof (HANDLE_INDEX_range h) as Hi. pose proof Hwf as (_ & _ & _ & Hgens).
  pose proof (Hgens _ _ Hi He0) as Hge.
  destruct (HandleEntryFree_spec t _ _ Hwf Hi He0) as [Hwf1 Hget1]. fold t1 in Hwf1, Hget1.
  assert (Hnone : HandleTableLookup t1 h = None).
  { rewrite lookup_get, Hget1, decide_True by done. by rewrite decide_False by (intros [? _]; done). }
  split_and!; [done..| |].
  - intros h' Hh' Hne. rewrite !lookup_get, Hget1 by apply HANDLE_INDEX_range. case_decide as Hd; [|done].
    rewrite <- Hd, He0, decide_False by (intros [? _]; done). rewrite decide_False; [done|].
    intros [_ Hg']. apply Hne, handle_eq; [done..| |]; congruence.
  - eapply wp_mono; [by apply wp_HandleCopyInto|]. intros [[err h2] t2] s' [Hwf2 Hc]. simpl.
    destruct (decide (err = ZUZU_OK)); [|destruct Hc as [_ Hc]; by rewrite Hc].
    destruct Hc as (Hr & _ & (e2 & Hg2 & Hold) & Hkeep).
    destruct (decide (h = h2)) as [<-|Hne]; [|by rewrite Hkeep].
    exfalso. destruct Hold as [[Hg1 Hgg]|[Hg1 _]]; rewrite Hget1, decide_True in Hg1 by done; [|done].
    injection Hg1 as <-. simpl in Hgg. rewrite <- Hgen in Hgg. by apply next_gen_ne in Hgg.
Qed.
End handle_ok.

Lemma HandleTableInit_wf : ht_wf HandleTableInit.
Proof.
  assert (Hget : ∀ i, 0 ≤ i < HANDLE_MAX_SLOTS → HandleTableGet HandleTableInit i = None).
  { intros i Hi. rewrite HandleTableGet_slot by done. destruct (slot_block i Hi) as (Hb & _).
    unfold block_of, HandleTableInit, aget. simpl.
    rewrite (list_lookup_total_correct _ _ None); [done|]. apply (lookup_replicate_2 16). lia. }
  split_and!.
  - split; [done|]. intros b a es Hb. unfold block_of, HandleTableInit, aget. simpl.
    rewrite (list_lookup_total_correct _ _ None); [done|]. apply (lookup_replicate_2 16). lia.
  - split_and!; [apply Forall_replicate; lia|done..].
  - intros i Hi. rewrite Hget by done. split; [|by intros (? & ? & _)].
    unfold bm_test, HandleTableInit, aget. simpl.
    rewrite (list_lookup_total_correct _ _ 0); [by rewrite Z.bits_0|]. apply (lookup_replicate_2 32).
    assert (i / 32 < 32) by (apply Z.div_lt_upper_bound; [lia|exact (proj2 Hi)]). lia.
  - intros i e Hi. by rewrite Hget.
Qed.

(** * A concrete table: one handle to a port at address 500 *)
Module HandleDemo.

Definition kz (n : Z) : M Z Z := λ s, Ok (4096 + s, s + n).
Definition oref (ty : HandleType) (o : Z) : M Z unit := ret tt.
Definition src : HandleTableEntry := mkEntry HANDLE_PORT 7 0 500 3 0.
Definition table : HandleTable :=
  match HandleCopyInto kz oref HandleTableInit src 7 3 0 with
  | Ok (_, _, t, _) => t
  | _ => HandleTableInit
  end.

Lemma kz_total n s : ∃ a s', kz n s = Ok (a, s').
Proof. by eexists _, _. Qed.
Lemma oref_total ty o s : ∃ s', oref ty o s = Ok (tt, s').
Proof. by eexists. Qed.

Lemma table_wf : ht_wf table.
Proof.
  pose proof (wp_HandleCopyInto kz oref kz_total oref_total HandleTableInit src 7 3 0 HandleTableInit_wf) as Hw.
  unfold wp in Hw. unfold table. destruct (HandleCopyInto _ _ _ _ _ _ _) as [[[[err h] t] s]| |]; [|apply HandleTableInit_wf..].
  by apply Hw.
Qed.

Lemma HandleCopyInto_lookup_witness :
  wp (HandleCopyInto kz oref HandleTableInit src 7 3) (λ r _,
    let '(err, h, t') := r in ht_wf t' ∧
    if decide (err = ZUZU_OK) then
      0 ≤ h < 2 ^ 31 ∧ HandleTableLookup HandleTableInit h = None ∧
      HandleTableLookup t' h = Some (mkEntry HANDLE_PORT 7 0 500 3 (HANDLE_GEN h)) ∧
      ∀ h', is_handle h' → h' ≠ h → HandleTableLookup t' h' = HandleTableLookup HandleTableInit h'
    else err = ERR_NOMEM ∧ ∀ h', HandleTableLookup t' h' = HandleTableLookup HandleTableInit h') 0.
Proof.
  apply (HandleCopyInto_lookup kz oref kz_total oref_total HandleTableInit src 7 3 0 HandleTableInit_wf). done.
Defined.

Lemma HandleEntryFree_stale_witness :
  HandleTableLookup table 0 = Some (mkEntry HANDLE_PORT 7 0 500 3 0) ∧
  HandleTableLookup (HandleEntryFree table (HANDLE_INDEX 0)) 0 = None ∧
  wp (HandleCopyInto kz oref (HandleEntryFree table (HANDLE_INDEX 0)) src 7 3) (λ r _, HandleTableLookup r.2 0 = None) 0.
Proof.
  assert (Hl : HandleTableLookup table 0 = Some (mkEntry HANDLE_PORT 7 0 500 3 0)) by (vm_compute; reflexivity).
  assert (Hh : is_handle 0) by (split; lia).
  destruct (HandleEntryFree_stale kz oref kz_total oref_total table 0 _ src 7 3 0 table_wf Hh Hl ltac:(done))
    as (_ & Hn & _ & Hw).
  split; [exact Hl|split; [exact Hn|exact Hw]].
Defined.
End HandleDemo.
