(* ===== verification/KState.v ===== *)
(** The state of the kernel's object system, shared by the models of the scheduler, the
    IPC objects, tasks and spaces.

    An object is named by its address; a pointer is an [option Z] with NULL as [None],
    and following a pointer to an object that is not live panics.  The embedded list
    nodes of kernel objects are kept in link stores, one per kind of node: a store has
    the nodes on every queue and, for every node, the queue it is on, so that
    [t->node.next != NULL] is [linked].  Linking a node that is already linked, and
    unlinking one that is not, panics (the first would corrupt the lists, the second
    dereferences NULL); CList.v relates such list operations to list.h.

    The hardware counter is a function from the number of reads so far to the value
    read; allocations take their result from the stream [kmem], 0 being NULL. *)
From S2P Require Import Prelude Bitmap Handle.

#[local] Open Scope Z_scope.

Definition SCHED_PRIORITY_LEVELS : Z := 8.
Definition SCHED_PRIO_DEFAULT : Z := 1.
Definition SLEEP_QUEUE_SIZE : Z := 512.
Definition UINT64_MAX : Z := 2 ^ 64 - 1.
Definition TIMEOUT_POLL : Z := 0.
Definition TIMEOUT_INFINITE : Z := 2 ^ 32 - 1.
Definition EVENT_WAIT_ALL : Z := 2 ^ 31.
Definition MAX_OBSERVERS : Z := 4.
Definition PORT_HELD_SLOTS : Z := 64.
Definition MAX_TASKS : Z := 1024.
Definition MSG_BUF_SIZE : Z := 512.
Definition PERM_WAIT : Z := 1.
Definition PERM_SEND : Z := 2.
Definition PERM_TXFR : Z := 4.
Definition PERM_MAP : Z := 8.
Definition PERM_CNTL : Z := 16.
Definition PERM_WRITE : Z := 32.
Definition PERM_EXEC : Z := 64.
Definition TASK_EXITED : Z := 0.
Definition TASK_FAULTED : Z := 1.

Inductive TaskState :=
  TASK_STATE_READY | TASK_STATE_RUNNING | TASK_STATE_BLOCKED | TASK_STATE_ZOMBIE
| TASK_STATE_FROZEN | TASK_STATE_FAULTED.
#[global] Instance TaskState_eq_dec : EqDecision TaskState.
Proof. solve_decision. Defined.

Inductive IpcState := IPC_NONE | IPC_WAITING.
#[global] Instance IpcState_eq_dec : EqDecision IpcState.
Proof. solve_decision. Defined.

Inductive MemKind := MEMKIND_NONE | MEMKIND_DEVICE | MEMKIND_SHARED.
#[global] Instance MemKind_eq_dec : EqDecision MemKind.
Proof. solve_decision. Defined.

(** The queues a task's [node] can be on, and those its [wait_slot.node] can be on. *)
Inductive nodeq := RunQ (level : Z) | SenderQ (port : Z).
#[global] Instance nodeq_eq_dec : EqDecision nodeq.
Proof. solve_decision. Defined.
Inductive waitq := Joiners (task : Z) | SpaceWaiters (space : Z) | EventWaiters (event : Z) | PortReceivers (port : Z).
#[global] Instance waitq_eq_dec : EqDecision waitq.
Proof. solve_decision. Defined.
(** [task_destroy_queue] and the local [deferred] list of [SchedConsumeDestroyQueue]. *)
Inductive destroyq := DestroyQ | DeferredQ.
#[global] Instance destroyq_eq_dec : EqDecision destroyq.
Proof. solve_decision. Defined.

(** * Link stores *)

Record links (Q : Type) := mkLinks {
  lq : Q → list Z;
  lin : Z → option Q
}.
Arguments mkLinks {_} _ _.
Arguments lq {_} _ _.
Arguments lin {_} _ _.

Section links.
Context {Q : Type} `{EqDecision Q}.
Implicit Types (L : links Q) (q : Q) (t : Z) (xs : list Z).

Definition fset {A B} `{EqDecision A} (f : A → B) (a : A) (b : B) : A → B :=
  λ x, if decide (x = a) then b else f x.

Definition linked L t : bool := bool_decide (is_Some (lin L t)).

(** [ListInit] of a queue head. *)
Definition lk_init q L : links Q := mkLinks (fset (lq L) q []) (lin L).
(** Linking [t] on [q], whose nodes are then [xs]. *)
Definition lk_link t q xs L : option (links Q) :=
  if linked L t then None else Some (mkLinks (fset (lq L) q xs) (fset (lin L) t (Some q))).
Definition lk_add_tail t q L : option (links Q) := lk_link t q (lq L q ++ [t]) L.
Definition lk_add_head t q L : option (links Q) := lk_link t q (t :: lq L q) L.
(** [ListRemove]. *)
Definition lk_remove t L : option (links Q) :=
  match lin L t with
  | None => None
  | Some q => Some (mkLinks (fset (lq L) q (filter (λ x, x ≠ t) (lq L q))) (fset (lin L) t None))
  end.

(** The two parts agree. *)
Definition links_ok L : Prop :=
  (∀ t q, lin L t = Some q ↔ t ∈ lq L q) ∧ ∀ q, NoDup (lq L q).

Lemma fset_eq {A B} `{EqDecision A} (f : A → B) a b : fset f a b a = b.
Proof. unfold fset. by rewrite decide_True. Qed.
Lemma fset_ne {A B} `{EqDecision A} (f : A → B) a b x : x ≠ a → fset f a b x = f x.
Proof. intros. unfold fset. by rewrite decide_False. Qed.

Lemma linked_spec L t : linked L t = true ↔ ∃ q, lin L t = Some q.
Proof. unfold linked. by rewrite bool_decide_eq_true. Qed.
Lemma linked_false L t : linked L t = false ↔ lin L t = None.
Proof. unfold linked. rewrite bool_decide_eq_false, <- eq_None_not_Some. done. Qed.

Lemma links_ok_link L t q xs L' :
  links_ok L → xs ≡ₚ t :: lq L q → lk_link t q xs L = Some L' → links_ok L'.
Proof.
  intros [Hin Hnd] Hp. unfold lk_link. destruct (linked L t) eqn:El; [done|]. intros [= <-].
  apply linked_false in El. split; simpl.
  - intros t' q'. destruct (decide (t' = t)) as [->|Ht].
    + rewrite fset_eq. destruct (decide (q' = q)) as [->|Hq].
      * rewrite fset_eq, Hp. set_solver.
      * rewrite fset_ne by done. rewrite <- Hin. naive_solver congruence.
    + rewrite fset_ne by done. rewrite Hin. destruct (decide (q' = q)) as [->|Hq].
      * rewrite fset_eq, Hp. set_solver.
      * by rewrite fset_ne.
  - intros q'. destruct (decide (q' = q)) as [->|Hq]; [|by rewrite fset_ne].
    rewrite fset_eq, Hp. constructor; [|done]. rewrite <- Hin. congruence.
Qed.

Lemma links_ok_add_tail L t q L' : links_ok L → lk_add_tail t q L = Some L' → links_ok L'.
Proof. intros Hl. apply links_ok_link; [done|]. by rewrite Permutation_app_comm. Qed.
Lemma links_ok_add_head L t q L' : links_ok L → lk_add_head t q L = Some L' → links_ok L'.
Proof. intros Hl. by apply links_ok_link. Qed.

Lemma links_ok_remove L t L' : links_ok L → lk_remove t L = Some L' → links_ok L'.
Proof.
  intros [Hin Hnd]. unfold lk_remove. destruct (lin L t) as [q|] eqn:El; [|done]. intros [= <-]. split; simpl.
  - intros t' q'. destruct (decide (t' = t)) as [->|Ht].
    + rewrite fset_eq. destruct (decide (q' = q)) as [->|Hq].
      * rewrite fset_eq, list_elem_of_filter. naive_solver.
      * rewrite fset_ne by done. rewrite <- Hin. naive_solver congruence.
    + rewrite fset_ne by done. rewrite Hin. destruct (decide (q' = q)) as [->|Hq].
      * rewrite fset_eq, list_elem_of_filter. naive_solver.
      * by rewrite fset_ne.
  - intros q'. destruct (decide (q' = q)) as [->|Hq]; [|by rewrite fset_ne].
    rewrite fset_eq. by apply NoDup_filter.
Qed.
End links.

(** [ReplyObject] *)
Record ReplyObject := mkReply {
  rc_caller_task : option Z;
  rc_caller_tid : Z
}.

Definition set_rc_caller_task (v : option Z) (r : ReplyObject) : ReplyObject :=
  mkReply v (rc_caller_tid r).
Definition set_rc_caller_tid (v : Z) (r : ReplyObject) : ReplyObject :=
  mkReply (rc_caller_task r) v.

(** [HeldCall] *)
Record HeldCall := mkHeld {
  h_caller : option Z;
  h_caller_tid : Z;
  h_gen : Z
}.

Definition set_h_caller (v : option Z) (r : HeldCall) : HeldCall :=
  mkHeld v (h_caller_tid r) (h_gen r).
Definition set_h_caller_tid (v : Z) (r : HeldCall) : HeldCall :=
  mkHeld (h_caller r) v (h_gen r).
Definition set_h_gen (v : Z) (r : HeldCall) : HeldCall :=
  mkHeld (h_caller r) (h_caller_tid r) v.

(** [Observer]; an [ObserverSet] is the list of its MAX_OBSERVERS slots. *)
Record Observer := mkObserver {
  o_ev : option Z;
  o_bit : Z;
  o_from_event : bool
}.

Definition set_o_ev (v : option Z) (r : Observer) : Observer :=
  mkObserver v (o_bit r) (o_from_event r).
Definition set_o_bit (v : Z) (r : Observer) : Observer :=
  mkObserver (o_ev r) v (o_from_event r).
Definition set_o_from_event (v : bool) (r : Observer) : Observer :=
  mkObserver (o_ev r) (o_bit r) v.

(** [TaskObject].  [t_regs] is the trap frame; a [ReplyObject *] is the task whose [reply_cap_storage] it points to; [t_wait_queue] is [wait_slot.queue]. *)
Record TaskObject := mkTask {
  t_regs : list Z;
  t_tid : Z;
  t_exit_status : Z;
  t_wake_deadline : Z;
  t_slice_remaining : Z;
  t_sleep_slot : Z;
  t_state : TaskState;
  t_ipc_state : IpcState;
  t_blocked_port : option Z;
  t_reply_cap_storage : ReplyObject;
  t_pending_grant_handle : Z;
  t_pending_reply_cap : option Z;
  t_reply_cap : option Z;
  t_reply_holder : option Z;
  t_msg_buf_phys_addr : Z;
  t_msg_xfer_len : Z;
  t_port_marker : Z;
  t_wait_queue : option waitq;
  t_priority : Z;
  t_base_prio : Z;
  t_serving_port : option Z;
  t_time_slice_us : Z;
  t_max_prio : Z;
  t_queued_prio : Z;
  t_slice_deadline : Z;
  t_owner : option Z;
  t_fault_reason : Z;
  t_tcb_slot : Z;
  t_observers : list Observer;
  t_ref_count : Z;
  t_released : bool;
  t_suspended : bool;
  t_held_port : option Z;
  t_held_slot : Z;
  t_serving_handle : Z;
  t_wait_mask : Z;
  t_wait_all : bool;
  t_kernel_stack_top : Z
}.

Definition set_t_regs (v : list Z) (r : TaskObject) : TaskObject :=
  mkTask v (t_tid r) (t_exit_status r) (t_wake_deadline r) (t_slice_remaining r) (t_sleep_slot r) (t_state r) (t_ipc_state r) (t_blocked_port r) (t_reply_cap_storage r) (t_pending_grant_handle r) (t_pending_reply_cap r) (t_reply_cap r) (t_reply_holder r) (t_msg_buf_phys_addr r) (t_msg_xfer_len r) (t_port_marker r) (t_wait_queue r) (t_priority r) (t_base_prio r) (t_serving_port r) (t_time_slice_us r) (t_max_prio r) (t_queued_prio r) (t_slice_deadline r) (t_owner r) (t_fault_reason r) (t_tcb_slot r) (t_observers r) (t_ref_count r) (t_released r) (t_suspended r) (t_held_port r) (t_held_slot r) (t_serving_handle r) (t_wait_mask r) (t_wait_all r) (t_kernel_stack_top r).
Definition set_t_tid (v : Z) (r : TaskObject) : TaskObject :=
  mkTask (t_regs r) v (t_exit_status r) (t_wake_deadline r) (t_slice_remaining r) (t_sleep_slot r) (t_state r) (t_ipc_state r) (t_blocked_port r) (t_reply_cap_storage r) (t_pending_grant_handle r) (t_pending_reply_cap r) (t_reply_cap r) (t_reply_holder r) (t_msg_buf_phys_addr r) (t_msg_xfer_len r) (t_port_marker r) (t_wait_queue r) (t_priority r) (t_base_prio r) (t_serving_port r) (t_time_slice_us r) (t_max_prio r) (t_queued_prio r) (t_slice_deadline r) (t_owner r) (t_fault_reason r) (t_tcb_slot r) (t_observers r) (t_ref_count r) (t_released r) (t_suspended r) (t_held_port r) (t_held_slot r) (t_serving_handle r) (t_wait_mask r) (t_wait_all r) (t_kernel_stack_top r).
Definition set_t_exit_status (v : Z) (r : TaskObject) : TaskObject :=
  mkTask (t_regs r) (t_tid r) v (t_wake_deadline r) (t_slice_remaining r) (t_sleep_slot r) (t_state r) (t_ipc_state r) (t_blocked_port r) (t_reply_cap_storage r) (t_pending_grant_handle r) (t_pending_reply_cap r) (t_reply_cap r) (t_reply_holder r) (t_msg_buf_phys_addr r) (t_msg_xfer_len r) (t_port_marker r) (t_wait_queue r) (t_priority r) (t_base_prio r) (t_serving_port r) (t_time_slice_us r) (t_max_prio r) (t_queued_prio r) (t_slice_deadline r) (t_owner r) (t_fault_reason r) (t_tcb_slot r) (t_observers r) (t_ref_count r) (t_released r) (t_suspended r) (t_held_port r) (t_held_slot r) (t_serving_handle r) (t_wait_mask r) (t_wait_all r) (t_kernel_stack_top r).
Definition set_t_wake_deadline (v : Z) (r : TaskObject) : TaskObject :=
  mkTask (t_regs r) (t_tid r) (t_exit_status r) v (t_slice_remaining r) (t_sleep_slot r) (t_state r) (t_ipc_state r) (t_blocked_port r) (t_reply_cap_storage r) (t_pending_grant_handle r) (t_pending_reply_cap r) (t_reply_cap r) (t_reply_holder r) (t_msg_buf_phys_addr r) (t_msg_xfer_len r) (t_port_marker r) (t_wait_queue r) (t_priority r) (t_base_prio r) (t_serving_port r) (t_time_slice_us r) (t_max_prio r) (t_queued_prio r) (t_slice_deadline r) (t_owner r) (t_fault_reason r) (t_tcb_slot r) (t_observers r) (t_ref_count r) (t_released r) (t_suspended r) (t_held_port r) (t_held_slot r) (t_serving_handle r) (t_wait_mask r) (t_wait_all r) (t_kernel_stack_top r).
Definition set_t_slice_remaining (v : Z) (r : TaskObject) : TaskObject :=
  mkTask (t_regs r) (t_tid r) (t_exit_status r) (t_wake_deadline r) v (t_sleep_slot r) (t_state r) (t_ipc_state r) (t_blocked_port r) (t_reply_cap_storage r) (t_pending_grant_handle r) (t_pending_reply_cap r) (t_reply_cap r) (t_reply_holder r) (t_msg_buf_phys_addr r) (t_msg_xfer_len r) (t_port_marker r) (t_wait_queue r) (t_priority r) (t_base_prio r) (t_serving_port r) (t_time_slice_us r) (t_max_prio r) (t_queued_prio r) (t_slice_deadline r) (t_owner r) (t_fault_reason r) (t_tcb_slot r) (t_observers r) (t_ref_count r) (t_released r) (t_suspended r) (t_held_port r) (t_held_slot r) (t_serving_handle r) (t_wait_mask r) (t_wait_all r) (t_kernel_stack_top r).
Definition set_t_sleep_slot (v : Z) (r : TaskObject) : TaskObject :=
  mkTask (t_regs r) (t_tid r) (t_exit_status r) (t_wake_deadline r) (t_slice_remaining r) v (t_state r) (t_ipc_state r) (t_blocked_port r) (t_reply_cap_storage r) (t_pending_grant_handle r) (t_pending_reply_cap r) (t_reply_cap r) (t_reply_holder r) (t_msg_buf_phys_addr r) (t_msg_xfer_len r) (t_port_marker r) (t_wait_queue r) (t_priority r) (t_base_prio r) (t_serving_port r) (t_time_slice_us r) (t_max_prio r) (t_queued_prio r) (t_slice_deadline r) (t_owner r) (t_fault_reason r) (t_tcb_slot r) (t_observers r) (t_ref_count r) (t_released r) (t_suspended r) (t_held_port r) (t_held_slot r) (t_serving_handle r) (t_wait_mask r) (t_wait_all r) (t_kernel_stack_top r).
Definition set_t_state (v : TaskState) (r : TaskObject) : TaskObject :=
  mkTask (t_regs r) (t_tid r) (t_exit_status r) (t_wake_deadline r) (t_slice_remaining r) (t_sleep_slot r) v (t_ipc_state r) (t_blocked_port r) (t_reply_cap_storage r) (t_pending_grant_handle r) (t_pending_reply_cap r) (t_reply_cap r) (t_reply_holder r) (t_msg_buf_phys_addr r) (t_msg_xfer_len r) (t_port_marker r) (t_wait_queue r) (t_priority r) (t_base_prio r) (t_serving_port r) (t_time_slice_us r) (t_max_prio r) (t_queued_prio r) (t_slice_deadline r) (t_owner r) (t_fault_reason r) (t_tcb_slot r) (t_observers r) (t_ref_count r) (t_released r) (t_suspended r) (t_held_port r) (t_held_slot r) (t_serving_handle r) (t_wait_mask r) (t_wait_all r) (t_kernel_stack_top r).
Definition set_t_ipc_state (v : IpcState) (r : TaskObject) : TaskObject :=
  mkTask (t_regs r) (t_tid r) (t_exit_status r) (t_wake_deadline r) (t_slice_remaining r) (t_sleep_slot r) (t_state r) v (t_blocked_port r) (t_reply_cap_storage r) (t_pending_grant_handle r) (t_pending_reply_cap r) (t_reply_cap r) (t_reply_holder r) (t_msg_buf_phys_addr r) (t_msg_xfer_len r) (t_port_marker r) (t_wait_queue r) (t_priority r) (t_base_prio r) (t_serving_port r) (t_time_slice_us r) (t_max_prio r) (t_queued_prio r) (t_slice_deadline r) (t_owner r) (t_fault_reason r) (t_tcb_slot r) (t_observers r) (t_ref_count r) (t_released r) (t_suspended r) (t_held_port r) (t_held_slot r) (t_serving_handle r) (t_wait_mask r) (t_wait_all r) (t_kernel_stack_top r).
Definition set_t_blocked_port (v : option Z) (r : TaskObject) : TaskObject :=
  mkTask (t_regs r) (t_tid r) (t_exit_status r) (t_wake_deadline r) (t_slice_remaining r) (t_sleep_slot r) (t_state r) (t_ipc_state r) v (t_reply_cap_storage r) (t_pending_grant_handle r) (t_pending_reply_cap r) (t_reply_cap r) (t_reply_holder r) (t_msg_buf_phys_addr r) (t_msg_xfer_len r) (t_port_marker r) (t_wait_queue r) (t_priority r) (t_base_prio r) (t_serving_port r) (t_time_slice_us r) (t_max_prio r) (t_queued_prio r) (t_slice_deadline r) (t_owner r) (t_fault_reason r) (t_tcb_slot r) (t_observers r) (t_ref_count r) (t_released r) (t_suspended r) (t_held_port r) (t_held_slot r) (t_serving_handle r) (t_wait_mask r) (t_wait_all r) (t_kernel_stack_top r).
Definition set_t_reply_cap_storage (v : ReplyObject) (r : TaskObject) : TaskObject :=
  mkTask (t_regs r) (t_tid r) (t_exit_status r) (t_wake_deadline r) (t_slice_remaining r) (t_sleep_slot r) (t_state r) (t_ipc_state r) (t_blocked_port r) v (t_pending_grant_handle r) (t_pending_reply_cap r) (t_reply_cap r) (t_reply_holder r) (t_msg_buf_phys_addr r) (t_msg_xfer_len r) (t_port_marker r) (t_wait_queue r) (t_priority r) (t_base_prio r) (t_serving_port r) (t_time_slice_us r) (t_max_prio r) (t_queued_prio r) (t_slice_deadline r) (t_owner r) (t_fault_reason r) (t_tcb_slot r) (t_observers r) (t_ref_count r) (t_released r) (t_suspended r) (t_held_port r) (t_held_slot r) (t_serving_handle r) (t_wait_mask r) (t_wait_all r) (t_kernel_stack_top r).
Definition set_t_pending_grant_handle (v : Z) (r : TaskObject) : TaskObject :=
  mkTask (t_regs r) (t_tid r) (t_exit_status r) (t_wake_deadline r) (t_slice_remaining r) (t_sleep_slot r) (t_state r) (t_ipc_state r) (t_blocked_port r) (t_reply_cap_storage r) v (t_pending_reply_cap r) (t_reply_cap r) (t_reply_holder r) (t_msg_buf_phys_addr r) (t_msg_xfer_len r) (t_port_marker r) (t_wait_queue r) (t_priority r) (t_base_prio r) (t_serving_port r) (t_time_slice_us r) (t_max_prio r) (t_queued_prio r) (t_slice_deadline r) (t_owner r) (t_fault_reason r) (t_tcb_slot r) (t_observers r) (t_ref_count r) (t_released r) (t_suspended r) (t_held_port r) (t_held_slot r) (t_serving_handle r) (t_wait_mask r) (t_wait_all r) (t_kernel_stack_top r).
Definition set_t_pending_reply_cap (v : option Z) (r : TaskObject) : TaskObject :=
  mkTask (t_regs r) (t_tid r) (t_exit_status r) (t_wake_deadline r) (t_slice_remaining r) (t_sleep_slot r) (t_state r) (t_ipc_state r) (t_blocked_port r) (t_reply_cap_storage r) (t_pending_grant_handle r) v (t_reply_cap r) (t_reply_holder r) (t_msg_buf_phys_addr r) (t_msg_xfer_len r) (t_port_marker r) (t_wait_queue r) (t_priority r) (t_base_prio r) (t_serving_port r) (t_time_slice_us r) (t_max_prio r) (t_queued_prio r) (t_slice_deadline r) (t_owner r) (t_fault_reason r) (t_tcb_slot r) (t_observers r) (t_ref_count r) (t_released r) (t_suspended r) (t_held_port r) (t_held_slot r) (t_serving_handle r) (t_wait_mask r) (t_wait_all r) (t_kernel_stack_top r).
Definition set_t_reply_cap (v : option Z) (r : TaskObject) : TaskObject :=
  mkTask (t_regs r) (t_tid r) (t_exit_status r) (t_wake_deadline r) (t_slice_remaining r) (t_sleep_slot r) (t_state r) (t_ipc_state r) (t_blocked_port r) (t_reply_cap_storage r) (t_pending_grant_handle r) (t_pending_reply_cap r) v (t_reply_holder r) (t_msg_buf_phys_addr r) (t_msg_xfer_len r) (t_port_marker r) (t_wait_queue r) (t_priority r) (t_base_prio r) (t_serving_port r) (t_time_slice_us r) (t_max_prio r) (t_queued_prio r) (t_slice_deadline r) (t_owner r) (t_fault_reason r) (t_tcb_slot r) (t_observers r) (t_ref_count r) (t_released r) (t_suspended r) (t_held_port r) (t_held_slot r) (t_serving_handle r) (t_wait_mask r) (t_wait_all r) (t_kernel_stack_top r).
Definition set_t_reply_holder (v : option Z) (r : TaskObject) : TaskObject :=
  mkTask (t_regs r) (t_tid r) (t_exit_status r) (t_wake_deadline r) (t_slice_remaining r) (t_sleep_slot r) (t_state r) (t_ipc_state r) (t_blocked_port r) (t_reply_cap_storage r) (t_pending_grant_handle r) (t_pending_reply_cap r) (t_reply_cap r) v (t_msg_buf_phys_addr r) (t_msg_xfer_len r) (t_port_marker r) (t_wait_queue r) (t_priority r) (t_base_prio r) (t_serving_port r) (t_time_slice_us r) (t_max_prio r) (t_queued_prio r) (t_slice_deadline r) (t_owner r) (t_fault_reason r) (t_tcb_slot r) (t_observers r) (t_ref_count r) (t_released r) (t_suspended r) (t_held_port r) (t_held_slot r) (t_serving_handle r) (t_wait_mask r) (t_wait_all r) (t_kernel_stack_top r).
Definition set_t_msg_buf_phys_addr (v : Z) (r : TaskObject) : TaskObject :=
  mkTask (t_regs r) (t_tid r) (t_exit_status r) (t_wake_deadline r) (t_slice_remaining r) (t_sleep_slot r) (t_state r) (t_ipc_state r) (t_blocked_port r) (t_reply_cap_storage r) (t_pending_grant_handle r) (t_pending_reply_cap r) (t_reply_cap r) (t_reply_holder r) v (t_msg_xfer_len r) (t_port_marker r) (t_wait_queue r) (t_priority r) (t_base_prio r) (t_serving_port r) (t_time_slice_us r) (t_max_prio r) (t_queued_prio r) (t_slice_deadline r) (t_owner r) (t_fault_reason r) (t_tcb_slot r) (t_observers r) (t_ref_count r) (t_released r) (t_suspended r) (t_held_port r) (t_held_slot r) (t_serving_handle r) (t_wait_mask r) (t_wait_all r) (t_kernel_stack_top r).
Definition set_t_msg_xfer_len (v : Z) (r : TaskObject) : TaskObject :=
  mkTask (t_regs r) (t_tid r) (t_exit_status r) (t_wake_deadline r) (t_slice_remaining r) (t_sleep_slot r) (t_state r) (t_ipc_state r) (t_blocked_port r) (t_reply_cap_storage r) (t_pending_grant_handle r) (t_pending_reply_cap r) (t_reply_cap r) (t_reply_holder r) (t_msg_buf_phys_addr r) v (t_port_marker r) (t_wait_queue r) (t_priority r) (t_base_prio r) (t_serving_port r) (t_time_slice_us r) (t_max_prio r) (t_queued_prio r) (t_slice_deadline r) (t_owner r) (t_fault_reason r) (t_tcb_slot r) (t_observers r) (t_ref_count r) (t_released r) (t_suspended r) (t_held_port r) (t_held_slot r) (t_serving_handle r) (t_wait_mask r) (t_wait_all r) (t_kernel_stack_top r).
Definition set_t_port_marker (v : Z) (r : TaskObject) : TaskObject :=
  mkTask (t_regs r) (t_tid r) (t_exit_status r) (t_wake_deadline r) (t_slice_remaining r) (t_sleep_slot r) (t_state r) (t_ipc_state r) (t_blocked_port r) (t_reply_cap_storage r) (t_pending_grant_handle r) (t_pending_reply_cap r) (t_reply_cap r) (t_reply_holder r) (t_msg_buf_phys_addr r) (t_msg_xfer_len r) v (t_wait_queue r) (t_priority r) (t_base_prio r) (t_serving_port r) (t_time_slice_us r) (t_max_prio r) (t_queued_prio r) (t_slice_deadline r) (t_owner r) (t_fault_reason r) (t_tcb_slot r) (t_observers r) (t_ref_count r) (t_released r) (t_suspended r) (t_held_port r) (t_held_slot r) (t_serving_handle r) (t_wait_mask r) (t_wait_all r) (t_kernel_stack_top r).
Definition set_t_wait_queue (v : option waitq) (r : TaskObject) : TaskObject :=
  mkTask (t_regs r) (t_tid r) (t_exit_status r) (t_wake_deadline r) (t_slice_remaining r) (t_sleep_slot r) (t_state r) (t_ipc_state r) (t_blocked_port r) (t_reply_cap_storage r) (t_pending_grant_handle r) (t_pending_reply_cap r) (t_reply_cap r) (t_reply_holder r) (t_msg_buf_phys_addr r) (t_msg_xfer_len r) (t_port_marker r) v (t_priority r) (t_base_prio r) (t_serving_port r) (t_time_slice_us r) (t_max_prio r) (t_queued_prio r) (t_slice_deadline r) (t_owner r) (t_fault_reason r) (t_tcb_slot r) (t_observers r) (t_ref_count r) (t_released r) (t_suspended r) (t_held_port r) (t_held_slot r) (t_serving_handle r) (t_wait_mask r) (t_wait_all r) (t_kernel_stack_top r).
Definition set_t_priority (v : Z) (r : TaskObject) : TaskObject :=
  mkTask (t_regs r) (t_tid r) (t_exit_status r) (t_wake_deadline r) (t_slice_remaining r) (t_sleep_slot r) (t_state r) (t_ipc_state r) (t_blocked_port r) (t_reply_cap_storage r) (t_pending_grant_handle r) (t_pending_reply_cap r) (t_reply_cap r) (t_reply_holder r) (t_msg_buf_phys_addr r) (t_msg_xfer_len r) (t_port_marker r) (t_wait_queue r) v (t_base_prio r) (t_serving_port r) (t_time_slice_us r) (t_max_prio r) (t_queued_prio r) (t_slice_deadline r) (t_owner r) (t_fault_reason r) (t_tcb_slot r) (t_observers r) (t_ref_count r) (t_released r) (t_suspended r) (t_held_port r) (t_held_slot r) (t_serving_handle r) (t_wait_mask r) (t_wait_all r) (t_kernel_stack_top r).
Definition set_t_base_prio (v : Z) (r : TaskObject) : TaskObject :=
  mkTask (t_regs r) (t_tid r) (t_exit_status r) (t_wake_deadline r) (t_slice_remaining r) (t_sleep_slot r) (t_state r) (t_ipc_state r) (t_blocked_port r) (t_reply_cap_storage r) (t_pending_grant_handle r) (t_pending_reply_cap r) (t_reply_cap r) (t_reply_holder r) (t_msg_buf_phys_addr r) (t_msg_xfer_len r) (t_port_marker r) (t_wait_queue r) (t_priority r) v (t_serving_port r) (t_time_slice_us r) (t_max_prio r) (t_queued_prio r) (t_slice_deadline r) (t_owner r) (t_fault_reason r) (t_tcb_slot r) (t_observers r) (t_ref_count r) (t_released r) (t_suspended r) (t_held_port r) (t_held_slot r) (t_serving_handle r) (t_wait_mask r) (t_wait_all r) (t_kernel_stack_top r).
Definition set_t_serving_port (v : option Z) (r : TaskObject) : TaskObject :=
  mkTask (t_regs r) (t_tid r) (t_exit_status r) (t_wake_deadline r) (t_slice_remaining r) (t_sleep_slot r) (t_state r) (t_ipc_state r) (t_blocked_port r) (t_reply_cap_storage r) (t_pending_grant_handle r) (t_pending_reply_cap r) (t_reply_cap r) (t_reply_holder r) (t_msg_buf_phys_addr r) (t_msg_xfer_len r) (t_port_marker r) (t_wait_queue r) (t_priority r) (t_base_prio r) v (t_time_slice_us r) (t_max_prio r) (t_queued_prio r) (t_slice_deadline r) (t_owner r) (t_fault_reason r) (t_tcb_slot r) (t_observers r) (t_ref_count r) (t_released r) (t_suspended r) (t_held_port r) (t_held_slot r) (t_serving_handle r) (t_wait_mask r) (t_wait_all r) (t_kernel_stack_top r).
Definition set_t_time_slice_us (v : Z) (r : TaskObject) : TaskObject :=
  mkTask (t_regs r) (t_tid r) (t_exit_status r) (t_wake_deadline r) (t_slice_remaining r) (t_sleep_slot r) (t_state r) (t_ipc_state r) (t_blocked_port r) (t_reply_cap_storage r) (t_pending_grant_handle r) (t_pending_reply_cap r) (t_reply_cap r) (t_reply_holder r) (t_msg_buf_phys_addr r) (t_msg_xfer_len r) (t_port_marker r) (t_wait_queue r) (t_priority r) (t_base_prio r) (t_serving_port r) v (t_max_prio r) (t_queued_prio r) (t_slice_deadline r) (t_owner r) (t_fault_reason r) (t_tcb_slot r) (t_observers r) (t_ref_count r) (t_released r) (t_suspended r) (t_held_port r) (t_held_slot r) (t_serving_handle r) (t_wait_mask r) (t_wait_all r) (t_kernel_stack_top r).
Definition set_t_max_prio (v : Z) (r : TaskObject) : TaskObject :=
  mkTask (t_regs r) (t_tid r) (t_exit_status r) (t_wake_deadline r) (t_slice_remaining r) (t_sleep_slot r) (t_state r) (t_ipc_state r) (t_blocked_port r) (t_reply_cap_storage r) (t_pending_grant_handle r) (t_pending_reply_cap r) (t_reply_cap r) (t_reply_holder r) (t_msg_buf_phys_addr r) (t_msg_xfer_len r) (t_port_marker r) (t_wait_queue r) (t_priority r) (t_base_prio r) (t_serving_port r) (t_time_slice_us r) v (t_queued_prio r) (t_slice_deadline r) (t_owner r) (t_fault_reason r) (t_tcb_slot r) (t_observers r) (t_ref_count r) (t_released r) (t_suspended r) (t_held_port r) (t_held_slot r) (t_serving_handle r) (t_wait_mask r) (t_wait_all r) (t_kernel_stack_top r).
Definition set_t_queued_prio (v : Z) (r : TaskObject) : TaskObject :=
  mkTask (t_regs r) (t_tid r) (t_exit_status r) (t_wake_deadline r) (t_slice_remaining r) (t_sleep_slot r) (t_state r) (t_ipc_state r) (t_blocked_port r) (t_reply_cap_storage r) (t_pending_grant_handle r) (t_pending_reply_cap r) (t_reply_cap r) (t_reply_holder r) (t_msg_buf_phys_addr r) (t_msg_xfer_len r) (t_port_marker r) (t_wait_queue r) (t_priority r) (t_base_prio r) (t_serving_port r) (t_time_slice_us r) (t_max_prio r) v (t_slice_deadline r) (t_owner r) (t_fault_reason r) (t_tcb_slot r) (t_observers r) (t_ref_count r) (t_released r) (t_suspended r) (t_held_port r) (t_held_slot r) (t_serving_handle r) (t_wait_mask r) (t_wait_all r) (t_kernel_stack_top r).
Definition set_t_slice_deadline (v : Z) (r : TaskObject) : TaskObject :=
  mkTask (t_regs r) (t_tid r) (t_exit_status r) (t_wake_deadline r) (t_slice_remaining r) (t_sleep_slot r) (t_state r) (t_ipc_state r) (t_blocked_port r) (t_reply_cap_storage r) (t_pending_grant_handle r) (t_pending_reply_cap r) (t_reply_cap r) (t_reply_holder r) (t_msg_buf_phys_addr r) (t_msg_xfer_len r) (t_port_marker r) (t_wait_queue r) (t_priority r) (t_base_prio r) (t_serving_port r) (t_time_slice_us r) (t_max_prio r) (t_queued_prio r) v (t_owner r) (t_fault_reason r) (t_tcb_slot r) (t_observers r) (t_ref_count r) (t_released r) (t_suspended r) (t_held_port r) (t_held_slot r) (t_serving_handle r) (t_wait_mask r) (t_wait_all r) (t_kernel_stack_top r).
Definition set_t_owner (v : option Z) (r : TaskObject) : TaskObject :=
  mkTask (t_regs r) (t_tid r) (t_exit_status r) (t_wake_deadline r) (t_slice_remaining r) (t_sleep_slot r) (t_state r) (t_ipc_state r) (t_blocked_port r) (t_reply_cap_storage r) (t_pending_grant_handle r) (t_pending_reply_cap r) (t_reply_cap r) (t_reply_holder r) (t_msg_buf_phys_addr r) (t_msg_xfer_len r) (t_port_marker r) (t_wait_queue r) (t_priority r) (t_base_prio r) (t_serving_port r) (t_time_slice_us r) (t_max_prio r) (t_queued_prio r) (t_slice_deadline r) v (t_fault_reason r) (t_tcb_slot r) (t_observers r) (t_ref_count r) (t_released r) (t_suspended r) (t_held_port r) (t_held_slot r) (t_serving_handle r) (t_wait_mask r) (t_wait_all r) (t_kernel_stack_top r).
Definition set_t_fault_reason (v : Z) (r : TaskObject) : TaskObject :=
  mkTask (t_regs r) (t_tid r) (t_exit_status r) (t_wake_deadline r) (t_slice_remaining r) (t_sleep_slot r) (t_state r) (t_ipc_state r) (t_blocked_port r) (t_reply_cap_storage r) (t_pending_grant_handle r) (t_pending_reply_cap r) (t_reply_cap r) (t_reply_holder r) (t_msg_buf_phys_addr r) (t_msg_xfer_len r) (t_port_marker r) (t_wait_queue r) (t_priority r) (t_base_prio r) (t_serving_port r) (t_time_slice_us r) (t_max_prio r) (t_queued_prio r) (t_slice_deadline r) (t_owner r) v (t_tcb_slot r) (t_observers r) (t_ref_count r) (t_released r) (t_suspended r) (t_held_port r) (t_held_slot r) (t_serving_handle r) (t_wait_mask r) (t_wait_all r) (t_kernel_stack_top r).
Definition set_t_tcb_slot (v : Z) (r : TaskObject) : TaskObject :=
  mkTask (t_regs r) (t_tid r) (t_exit_status r) (t_wake_deadline r) (t_slice_remaining r) (t_sleep_slot r) (t_state r) (t_ipc_state r) (t_blocked_port r) (t_reply_cap_storage r) (t_pending_grant_handle r) (t_pending_reply_cap r) (t_reply_cap r) (t_reply_holder r) (t_msg_buf_phys_addr r) (t_msg_xfer_len r) (t_port_marker r) (t_wait_queue r) (t_priority r) (t_base_prio r) (t_serving_port r) (t_time_slice_us r) (t_max_prio r) (t_queued_prio r) (t_slice_deadline r) (t_owner r) (t_fault_reason r) v (t_observers r) (t_ref_count r) (t_released r) (t_suspended r) (t_held_port r) (t_held_slot r) (t_serving_handle r) (t_wait_mask r) (t_wait_all r) (t_kernel_stack_top r).
Definition set_t_observers (v : list Observer) (r : TaskObject) : TaskObject :=
  mkTask (t_regs r) (t_tid r) (t_exit_status r) (t_wake_deadline r) (t_slice_remaining r) (t_sleep_slot r) (t_state r) (t_ipc_state r) (t_blocked_port r) (t_reply_cap_storage r) (t_pending_grant_handle r) (t_pending_reply_cap r) (t_reply_cap r) (t_reply_holder r) (t_msg_buf_phys_addr r) (t_msg_xfer_len r) (t_port_marker r) (t_wait_queue r) (t_priority r) (t_base_prio r) (t_serving_port r) (t_time_slice_us r) (t_max_prio r) (t_queued_prio r) (t_slice_deadline r) (t_owner r) (t_fault_reason r) (t_tcb_slot r) v (t_ref_count r) (t_released r) (t_suspended r) (t_held_port r) (t_held_slot r) (t_serving_handle r) (t_wait_mask r) (t_wait_all r) (t_kernel_stack_top r).
Definition set_t_ref_count (v : Z) (r : TaskObject) : TaskObject :=
  mkTask (t_regs r) (t_tid r) (t_exit_status r) (t_wake_deadline r) (t_slice_remaining r) (t_sleep_slot r) (t_state r) (t_ipc_state r) (t_blocked_port r) (t_reply_cap_storage r) (t_pending_grant_handle r) (t_pending_reply_cap r) (t_reply_cap r) (t_reply_holder r) (t_msg_buf_phys_addr r) (t_msg_xfer_len r) (t_port_marker r) (t_wait_queue r) (t_priority r) (t_base_prio r) (t_serving_port r) (t_time_slice_us r) (t_max_prio r) (t_queued_prio r) (t_slice_deadline r) (t_owner r) (t_fault_reason r) (t_tcb_slot r) (t_observers r) v (t_released r) (t_suspended r) (t_held_port r) (t_held_slot r) (t_serving_handle r) (t_wait_mask r) (t_wait_all r) (t_kernel_stack_top r).
Definition set_t_released (v : bool) (r : TaskObject) : TaskObject :=
  mkTask (t_regs r) (t_tid r) (t_exit_status r) (t_wake_deadline r) (t_slice_remaining r) (t_sleep_slot r) (t_state r) (t_ipc_state r) (t_blocked_port r) (t_reply_cap_storage r) (t_pending_grant_handle r) (t_pending_reply_cap r) (t_reply_cap r) (t_reply_holder r) (t_msg_buf_phys_addr r) (t_msg_xfer_len r) (t_port_marker r) (t_wait_queue r) (t_priority r) (t_base_prio r) (t_serving_port r) (t_time_slice_us r) (t_max_prio r) (t_queued_prio r) (t_slice_deadline r) (t_owner r) (t_fault_reason r) (t_tcb_slot r) (t_observers r) (t_ref_count r) v (t_suspended r) (t_held_port r) (t_held_slot r) (t_serving_handle r) (t_wait_mask r) (t_wait_all r) (t_kernel_stack_top r).
Definition set_t_suspended (v : bool) (r : TaskObject) : TaskObject :=
  mkTask (t_regs r) (t_tid r) (t_exit_status r) (t_wake_deadline r) (t_slice_remaining r) (t_sleep_slot r) (t_state r) (t_ipc_state r) (t_blocked_port r) (t_reply_cap_storage r) (t_pending_grant_handle r) (t_pending_reply_cap r) (t_reply_cap r) (t_reply_holder r) (t_msg_buf_phys_addr r) (t_msg_xfer_len r) (t_port_marker r) (t_wait_queue r) (t_priority r) (t_base_prio r) (t_serving_port r) (t_time_slice_us r) (t_max_prio r) (t_queued_prio r) (t_slice_deadline r) (t_owner r) (t_fault_reason r) (t_tcb_slot r) (t_observers r) (t_ref_count r) (t_released r) v (t_held_port r) (t_held_slot r) (t_serving_handle r) (t_wait_mask r) (t_wait_all r) (t_kernel_stack_top r).
Definition set_t_held_port (v : option Z) (r : TaskObject) : TaskObject :=
  mkTask (t_regs r) (t_tid r) (t_exit_status r) (t_wake_deadline r) (t_slice_remaining r) (t_sleep_slot r) (t_state r) (t_ipc_state r) (t_blocked_port r) (t_reply_cap_storage r) (t_pending_grant_handle r) (t_pending_reply_cap r) (t_reply_cap r) (t_reply_holder r) (t_msg_buf_phys_addr r) (t_msg_xfer_len r) (t_port_marker r) (t_wait_queue r) (t_priority r) (t_base_prio r) (t_serving_port r) (t_time_slice_us r) (t_max_prio r) (t_queued_prio r) (t_slice_deadline r) (t_owner r) (t_fault_reason r) (t_tcb_slot r) (t_observers r) (t_ref_count r) (t_released r) (t_suspended r) v (t_held_slot r) (t_serving_handle r) (t_wait_mask r) (t_wait_all r) (t_kernel_stack_top r).
Definition set_t_held_slot (v : Z) (r : TaskObject) : TaskObject :=
  mkTask (t_regs r) (t_tid r) (t_exit_status r) (t_wake_deadline r) (t_slice_remaining r) (t_sleep_slot r) (t_state r) (t_ipc_state r) (t_blocked_port r) (t_reply_cap_storage r) (t_pending_grant_handle r) (t_pending_reply_cap r) (t_reply_cap r) (t_reply_holder r) (t_msg_buf_phys_addr r) (t_msg_xfer_len r) (t_port_marker r) (t_wait_queue r) (t_priority r) (t_base_prio r) (t_serving_port r) (t_time_slice_us r) (t_max_prio r) (t_queued_prio r) (t_slice_deadline r) (t_owner r) (t_fault_reason r) (t_tcb_slot r) (t_observers r) (t_ref_count r) (t_released r) (t_suspended r) (t_held_port r) v (t_serving_handle r) (t_wait_mask r) (t_wait_all r) (t_kernel_stack_top r).
Definition set_t_serving_handle (v : Z) (r : TaskObject) : TaskObject :=
  mkTask (t_regs r) (t_tid r) (t_exit_status r) (t_wake_deadline r) (t_slice_remaining r) (t_sleep_slot r) (t_state r) (t_ipc_state r) (t_blocked_port r) (t_reply_cap_storage r) (t_pending_grant_handle r) (t_pending_reply_cap r) (t_reply_cap r) (t_reply_holder r) (t_msg_buf_phys_addr r) (t_msg_xfer_len r) (t_port_marker r) (t_wait_queue r) (t_priority r) (t_base_prio r) (t_serving_port r) (t_time_slice_us r) (t_max_prio r) (t_queued_prio r) (t_slice_deadline r) (t_owner r) (t_fault_reason r) (t_tcb_slot r) (t_observers r) (t_ref_count r) (t_released r) (t_suspended r) (t_held_port r) (t_held_slot r) v (t_wait_mask r) (t_wait_all r) (t_kernel_stack_top r).
Definition set_t_wait_mask (v : Z) (r : TaskObject) : TaskObject :=
  mkTask (t_regs r) (t_tid r) (t_exit_status r) (t_wake_deadline r) (t_slice_remaining r) (t_sleep_slot r) (t_state r) (t_ipc_state r) (t_blocked_port r) (t_reply_cap_storage r) (t_pending_grant_handle r) (t_pending_reply_cap r) (t_reply_cap r) (t_reply_holder r) (t_msg_buf_phys_addr r) (t_msg_xfer_len r) (t_port_marker r) (t_wait_queue r) (t_priority r) (t_base_prio r) (t_serving_port r) (t_time_slice_us r) (t_max_prio r) (t_queued_prio r) (t_slice_deadline r) (t_owner r) (t_fault_reason r) (t_tcb_slot r) (t_observers r) (t_ref_count r) (t_released r) (t_suspended r) (t_held_port r) (t_held_slot r) (t_serving_handle r) v (t_wait_all r) (t_kernel_stack_top r).
Definition set_t_wait_all (v : bool) (r : TaskObject) : TaskObject :=
  mkTask (t_regs r) (t_tid r) (t_exit_status r) (t_wake_deadline r) (t_slice_remaining r) (t_sleep_slot r) (t_state r) (t_ipc_state r) (t_blocked_port r) (t_reply_cap_storage r) (t_pending_grant_handle r) (t_pending_reply_cap r) (t_reply_cap r) (t_reply_holder r) (t_msg_buf_phys_addr r) (t_msg_xfer_len r) (t_port_marker r) (t_wait_queue r) (t_priority r) (t_base_prio r) (t_serving_port r) (t_time_slice_us r) (t_max_prio r) (t_queued_prio r) (t_slice_deadline r) (t_owner r) (t_fault_reason r) (t_tcb_slot r) (t_observers r) (t_ref_count r) (t_released r) (t_suspended r) (t_held_port r) (t_held_slot r) (t_serving_handle r) (t_wait_mask r) v (t_kernel_stack_top r).
Definition set_t_kernel_stack_top (v : Z) (r : TaskObject) : TaskObject :=
  mkTask (t_regs r) (t_tid r) (t_exit_status r) (t_wake_deadline r) (t_slice_remaining r) (t_sleep_slot r) (t_state r) (t_ipc_state r) (t_blocked_port r) (t_reply_cap_storage r) (t_pending_grant_handle r) (t_pending_reply_cap r) (t_reply_cap r) (t_reply_holder r) (t_msg_buf_phys_addr r) (t_msg_xfer_len r) (t_port_marker r) (t_wait_queue r) (t_priority r) (t_base_prio r) (t_serving_port r) (t_time_slice_us r) (t_max_prio r) (t_queued_prio r) (t_slice_deadline r) (t_owner r) (t_fault_reason r) (t_tcb_slot r) (t_observers r) (t_ref_count r) (t_released r) (t_suspended r) (t_held_port r) (t_held_slot r) (t_serving_handle r) (t_wait_mask r) (t_wait_all r) v.

(** [EventObject] *)
Record EventObject := mkEvent {
  e_word : Z;
  e_owner_spid : Z;
  e_ref_count : Z;
  e_alive : bool;
  e_bound_mask : Z;
  e_bound_refs : list Z;
  e_observers : list Observer;
  e_child_count : Z
}.

Definition set_e_word (v : Z) (r : EventObject) : EventObject :=
  mkEvent v (e_owner_spid r) (e_ref_count r) (e_alive r) (e_bound_mask r) (e_bound_refs r) (e_observers r) (e_child_count r).
Definition set_e_owner_spid (v : Z) (r : EventObject) : EventObject :=
  mkEvent (e_word r) v (e_ref_count r) (e_alive r) (e_bound_mask r) (e_bound_refs r) (e_observers r) (e_child_count r).
Definition set_e_ref_count (v : Z) (r : EventObject) : EventObject :=
  mkEvent (e_word r) (e_owner_spid r) v (e_alive r) (e_bound_mask r) (e_bound_refs r) (e_observers r) (e_child_count r).
Definition set_e_alive (v : bool) (r : EventObject) : EventObject :=
  mkEvent (e_word r) (e_owner_spid r) (e_ref_count r) v (e_bound_mask r) (e_bound_refs r) (e_observers r) (e_child_count r).
Definition set_e_bound_mask (v : Z) (r : EventObject) : EventObject :=
  mkEvent (e_word r) (e_owner_spid r) (e_ref_count r) (e_alive r) v (e_bound_refs r) (e_observers r) (e_child_count r).
Definition set_e_bound_refs (v : list Z) (r : EventObject) : EventObject :=
  mkEvent (e_word r) (e_owner_spid r) (e_ref_count r) (e_alive r) (e_bound_mask r) v (e_observers r) (e_child_count r).
Definition set_e_observers (v : list Observer) (r : EventObject) : EventObject :=
  mkEvent (e_word r) (e_owner_spid r) (e_ref_count r) (e_alive r) (e_bound_mask r) (e_bound_refs r) v (e_child_count r).
Definition set_e_child_count (v : Z) (r : EventObject) : EventObject :=
  mkEvent (e_word r) (e_owner_spid r) (e_ref_count r) (e_alive r) (e_bound_mask r) (e_bound_refs r) (e_observers r) v.

(** [PortObject]; its three queues are in the link stores. *)
Record PortObject := mkPort {
  p_owner_spid : Z;
  p_ref_count : Z;
  p_alive : bool;
  p_observers : list Observer;
  p_held : option (list HeldCall)
}.

Definition set_p_owner_spid (v : Z) (r : PortObject) : PortObject :=
  mkPort v (p_ref_count r) (p_alive r) (p_observers r) (p_held r).
Definition set_p_ref_count (v : Z) (r : PortObject) : PortObject :=
  mkPort (p_owner_spid r) v (p_alive r) (p_observers r) (p_held r).
Definition set_p_alive (v : bool) (r : PortObject) : PortObject :=
  mkPort (p_owner_spid r) (p_ref_count r) v (p_observers r) (p_held r).
Definition set_p_observers (v : list Observer) (r : PortObject) : PortObject :=
  mkPort (p_owner_spid r) (p_ref_count r) (p_alive r) v (p_held r).
Definition set_p_held (v : option (list HeldCall)) (r : PortObject) : PortObject :=
  mkPort (p_owner_spid r) (p_ref_count r) (p_alive r) (p_observers r) v.

(** [SpaceObject]; its task list and waiter queue are in the link stores. *)
Record SpaceObject := mkSpace {
  s_spid : Z;
  s_parent_spid : Z;
  s_as : option Z;
  s_handle_table : HandleTable;
  s_main_task : option Z;
  s_max_prio : Z;
  s_frozen : bool;
  s_live_tasks : Z;
  s_last_exit_status : Z;
  s_tcb_page_pa : list Z;
  s_tcb_page_va : Z;
  s_tcb_slot_bitmap : list Z;
  s_torn_down : bool;
  s_observers : list Observer;
  s_ref_count : Z
}.

Definition set_s_spid (v : Z) (r : SpaceObject) : SpaceObject :=
  mkSpace v (s_parent_spid r) (s_as r) (s_handle_table r) (s_main_task r) (s_max_prio r) (s_frozen r) (s_live_tasks r) (s_last_exit_status r) (s_tcb_page_pa r) (s_tcb_page_va r) (s_tcb_slot_bitmap r) (s_torn_down r) (s_observers r) (s_ref_count r).
Definition set_s_parent_spid (v : Z) (r : SpaceObject) : SpaceObject :=
  mkSpace (s_spid r) v (s_as r) (s_handle_table r) (s_main_task r) (s_max_prio r) (s_frozen r) (s_live_tasks r) (s_last_exit_status r) (s_tcb_page_pa r) (s_tcb_page_va r) (s_tcb_slot_bitmap r) (s_torn_down r) (s_observers r) (s_ref_count r).
Definition set_s_as (v : option Z) (r : SpaceObject) : SpaceObject :=
  mkSpace (s_spid r) (s_parent_spid r) v (s_handle_table r) (s_main_task r) (s_max_prio r) (s_frozen r) (s_live_tasks r) (s_last_exit_status r) (s_tcb_page_pa r) (s_tcb_page_va r) (s_tcb_slot_bitmap r) (s_torn_down r) (s_observers r) (s_ref_count r).
Definition set_s_handle_table (v : HandleTable) (r : SpaceObject) : SpaceObject :=
  mkSpace (s_spid r) (s_parent_spid r) (s_as r) v (s_main_task r) (s_max_prio r) (s_frozen r) (s_live_tasks r) (s_last_exit_status r) (s_tcb_page_pa r) (s_tcb_page_va r) (s_tcb_slot_bitmap r) (s_torn_down r) (s_observers r) (s_ref_count r).
Definition set_s_main_task (v : option Z) (r : SpaceObject) : SpaceObject :=
  mkSpace (s_spid r) (s_parent_spid r) (s_as r) (s_handle_table r) v (s_max_prio r) (s_frozen r) (s_live_tasks r) (s_last_exit_status r) (s_tcb_page_pa r) (s_tcb_page_va r) (s_tcb_slot_bitmap r) (s_torn_down r) (s_observers r) (s_ref_count r).
Definition set_s_max_prio (v : Z) (r : SpaceObject) : SpaceObject :=
  mkSpace (s_spid r) (s_parent_spid r) (s_as r) (s_handle_table r) (s_main_task r) v (s_frozen r) (s_live_tasks r) (s_last_exit_status r) (s_tcb_page_pa r) (s_tcb_page_va r) (s_tcb_slot_bitmap r) (s_torn_down r) (s_observers r) (s_ref_count r).
Definition set_s_frozen (v : bool) (r : SpaceObject) : SpaceObject :=
  mkSpace (s_spid r) (s_parent_spid r) (s_as r) (s_handle_table r) (s_main_task r) (s_max_prio r) v (s_live_tasks r) (s_last_exit_status r) (s_tcb_page_pa r) (s_tcb_page_va r) (s_tcb_slot_bitmap r) (s_torn_down r) (s_observers r) (s_ref_count r).
Definition set_s_live_tasks (v : Z) (r : SpaceObject) : SpaceObject :=
  mkSpace (s_spid r) (s_parent_spid r) (s_as r) (s_handle_table r) (s_main_task r) (s_max_prio r) (s_frozen r) v (s_last_exit_status r) (s_tcb_page_pa r) (s_tcb_page_va r) (s_tcb_slot_bitmap r) (s_torn_down r) (s_observers r) (s_ref_count r).
Definition set_s_last_exit_status (v : Z) (r : SpaceObject) : SpaceObject :=
  mkSpace (s_spid r) (s_parent_spid r) (s_as r) (s_handle_table r) (s_main_task r) (s_max_prio r) (s_frozen r) (s_live_tasks r) v (s_tcb_page_pa r) (s_tcb_page_va r) (s_tcb_slot_bitmap r) (s_torn_down r) (s_observers r) (s_ref_count r).
Definition set_s_tcb_page_pa (v : list Z) (r : SpaceObject) : SpaceObject :=
  mkSpace (s_spid r) (s_parent_spid r) (s_as r) (s_handle_table r) (s_main_task r) (s_max_prio r) (s_frozen r) (s_live_tasks r) (s_last_exit_status r) v (s_tcb_page_va r) (s_tcb_slot_bitmap r) (s_torn_down r) (s_observers r) (s_ref_count r).
Definition set_s_tcb_page_va (v : Z) (r : SpaceObject) : SpaceObject :=
  mkSpace (s_spid r) (s_parent_spid r) (s_as r) (s_handle_table r) (s_main_task r) (s_max_prio r) (s_frozen r) (s_live_tasks r) (s_last_exit_status r) (s_tcb_page_pa r) v (s_tcb_slot_bitmap r) (s_torn_down r) (s_observers r) (s_ref_count r).
Definition set_s_tcb_slot_bitmap (v : list Z) (r : SpaceObject) : SpaceObject :=
  mkSpace (s_spid r) (s_parent_spid r) (s_as r) (s_handle_table r) (s_main_task r) (s_max_prio r) (s_frozen r) (s_live_tasks r) (s_last_exit_status r) (s_tcb_page_pa r) (s_tcb_page_va r) v (s_torn_down r) (s_observers r) (s_ref_count r).
Definition set_s_torn_down (v : bool) (r : SpaceObject) : SpaceObject :=
  mkSpace (s_spid r) (s_parent_spid r) (s_as r) (s_handle_table r) (s_main_task r) (s_max_prio r) (s_frozen r) (s_live_tasks r) (s_last_exit_status r) (s_tcb_page_pa r) (s_tcb_page_va r) (s_tcb_slot_bitmap r) v (s_observers r) (s_ref_count r).
Definition set_s_observers (v : list Observer) (r : SpaceObject) : SpaceObject :=
  mkSpace (s_spid r) (s_parent_spid r) (s_as r) (s_handle_table r) (s_main_task r) (s_max_prio r) (s_frozen r) (s_live_tasks r) (s_last_exit_status r) (s_tcb_page_pa r) (s_tcb_page_va r) (s_tcb_slot_bitmap r) (s_torn_down r) v (s_ref_count r).
Definition set_s_ref_count (v : Z) (r : SpaceObject) : SpaceObject :=
  mkSpace (s_spid r) (s_parent_spid r) (s_as r) (s_handle_table r) (s_main_task r) (s_max_prio r) (s_frozen r) (s_live_tasks r) (s_last_exit_status r) (s_tcb_page_pa r) (s_tcb_page_va r) (s_tcb_slot_bitmap r) (s_torn_down r) (s_observers r) v.

(** [IrqOwner] *)
Record IrqOwner := mkIrq {
  iq_owner : option Z;
  iq_pending : bool;
  iq_bound_ev : option Z;
  iq_bit : Z
}.

Definition set_iq_owner (v : option Z) (r : IrqOwner) : IrqOwner :=
  mkIrq v (iq_pending r) (iq_bound_ev r) (iq_bit r).
Definition set_iq_pending (v : bool) (r : IrqOwner) : IrqOwner :=
  mkIrq (iq_owner r) v (iq_bound_ev r) (iq_bit r).
Definition set_iq_bound_ev (v : option Z) (r : IrqOwner) : IrqOwner :=
  mkIrq (iq_owner r) (iq_pending r) v (iq_bit r).
Definition set_iq_bit (v : Z) (r : IrqOwner) : IrqOwner :=
  mkIrq (iq_owner r) (iq_pending r) (iq_bound_ev r) v.

(** [DmaMapping]; the list a device keeps is a list. *)
Record DmaMapping := mkDma {
  dm_id : Z;
  dm_mem : Z;
  dm_offset : Z;
  dm_len : Z;
  dm_dir : Z;
  dm_bus_addr : Z
}.

Definition set_dm_id (v : Z) (r : DmaMapping) : DmaMapping :=
  mkDma v (dm_mem r) (dm_offset r) (dm_len r) (dm_dir r) (dm_bus_addr r).
Definition set_dm_mem (v : Z) (r : DmaMapping) : DmaMapping :=
  mkDma (dm_id r) v (dm_offset r) (dm_len r) (dm_dir r) (dm_bus_addr r).
Definition set_dm_offset (v : Z) (r : DmaMapping) : DmaMapping :=
  mkDma (dm_id r) (dm_mem r) v (dm_len r) (dm_dir r) (dm_bus_addr r).
Definition set_dm_len (v : Z) (r : DmaMapping) : DmaMapping :=
  mkDma (dm_id r) (dm_mem r) (dm_offset r) v (dm_dir r) (dm_bus_addr r).
Definition set_dm_dir (v : Z) (r : DmaMapping) : DmaMapping :=
  mkDma (dm_id r) (dm_mem r) (dm_offset r) (dm_len r) v (dm_bus_addr r).
Definition set_dm_bus_addr (v : Z) (r : DmaMapping) : DmaMapping :=
  mkDma (dm_id r) (dm_mem r) (dm_offset r) (dm_len r) (dm_dir r) v.

(** [MemObject]; both members of its union are kept, the kind selecting the valid one. *)
Record MemObject := mkMem {
  m_kind : MemKind;
  m_ref_count : Z;
  m_exec_synced : bool;
  m_phys_base : Z;
  m_size : Z;
  m_irq : Z;
  m_dma_limit : Z;
  m_bus_offset : Z;
  m_dma_maps : list DmaMapping;
  m_dma_next_id : Z;
  m_dma_map_count : Z;
  m_page_addrs : list Z;
  m_page_count : Z;
  m_flags : Z;
  m_owner_spid : Z
}.

Definition set_m_kind (v : MemKind) (r : MemObject) : MemObject :=
  mkMem v (m_ref_count r) (m_exec_synced r) (m_phys_base r) (m_size r) (m_irq r) (m_dma_limit r) (m_bus_offset r) (m_dma_maps r) (m_dma_next_id r) (m_dma_map_count r) (m_page_addrs r) (m_page_count r) (m_flags r) (m_owner_spid r).
Definition set_m_ref_count (v : Z) (r : MemObject) : MemObject :=
  mkMem (m_kind r) v (m_exec_synced r) (m_phys_base r) (m_size r) (m_irq r) (m_dma_limit r) (m_bus_offset r) (m_dma_maps r) (m_dma_next_id r) (m_dma_map_count r) (m_page_addrs r) (m_page_count r) (m_flags r) (m_owner_spid r).
Definition set_m_exec_synced (v : bool) (r : MemObject) : MemObject :=
  mkMem (m_kind r) (m_ref_count r) v (m_phys_base r) (m_size r) (m_irq r) (m_dma_limit r) (m_bus_offset r) (m_dma_maps r) (m_dma_next_id r) (m_dma_map_count r) (m_page_addrs r) (m_page_count r) (m_flags r) (m_owner_spid r).
Definition set_m_phys_base (v : Z) (r : MemObject) : MemObject :=
  mkMem (m_kind r) (m_ref_count r) (m_exec_synced r) v (m_size r) (m_irq r) (m_dma_limit r) (m_bus_offset r) (m_dma_maps r) (m_dma_next_id r) (m_dma_map_count r) (m_page_addrs r) (m_page_count r) (m_flags r) (m_owner_spid r).
Definition set_m_size (v : Z) (r : MemObject) : MemObject :=
  mkMem (m_kind r) (m_ref_count r) (m_exec_synced r) (m_phys_base r) v (m_irq r) (m_dma_limit r) (m_bus_offset r) (m_dma_maps r) (m_dma_next_id r) (m_dma_map_count r) (m_page_addrs r) (m_page_count r) (m_flags r) (m_owner_spid r).
Definition set_m_irq (v : Z) (r : MemObject) : MemObject :=
  mkMem (m_kind r) (m_ref_count r) (m_exec_synced r) (m_phys_base r) (m_size r) v (m_dma_limit r) (m_bus_offset r) (m_dma_maps r) (m_dma_next_id r) (m_dma_map_count r) (m_page_addrs r) (m_page_count r) (m_flags r) (m_owner_spid r).
Definition set_m_dma_limit (v : Z) (r : MemObject) : MemObject :=
  mkMem (m_kind r) (m_ref_count r) (m_exec_synced r) (m_phys_base r) (m_size r) (m_irq r) v (m_bus_offset r) (m_dma_maps r) (m_dma_next_id r) (m_dma_map_count r) (m_page_addrs r) (m_page_count r) (m_flags r) (m_owner_spid r).
Definition set_m_bus_offset (v : Z) (r : MemObject) : MemObject :=
  mkMem (m_kind r) (m_ref_count r) (m_exec_synced r) (m_phys_base r) (m_size r) (m_irq r) (m_dma_limit r) v (m_dma_maps r) (m_dma_next_id r) (m_dma_map_count r) (m_page_addrs r) (m_page_count r) (m_flags r) (m_owner_spid r).
Definition set_m_dma_maps (v : list DmaMapping) (r : MemObject) : MemObject :=
  mkMem (m_kind r) (m_ref_count r) (m_exec_synced r) (m_phys_base r) (m_size r) (m_irq r) (m_dma_limit r) (m_bus_offset r) v (m_dma_next_id r) (m_dma_map_count r) (m_page_addrs r) (m_page_count r) (m_flags r) (m_owner_spid r).
Definition set_m_dma_next_id (v : Z) (r : MemObject) : MemObject :=
  mkMem (m_kind r) (m_ref_count r) (m_exec_synced r) (m_phys_base r) (m_size r) (m_irq r) (m_dma_limit r) (m_bus_offset r) (m_dma_maps r) v (m_dma_map_count r) (m_page_addrs r) (m_page_count r) (m_flags r) (m_owner_spid r).
Definition set_m_dma_map_count (v : Z) (r : MemObject) : MemObject :=
  mkMem (m_kind r) (m_ref_count r) (m_exec_synced r) (m_phys_base r) (m_size r) (m_irq r) (m_dma_limit r) (m_bus_offset r) (m_dma_maps r) (m_dma_next_id r) v (m_page_addrs r) (m_page_count r) (m_flags r) (m_owner_spid r).
Definition set_m_page_addrs (v : list Z) (r : MemObject) : MemObject :=
  mkMem (m_kind r) (m_ref_count r) (m_exec_synced r) (m_phys_base r) (m_size r) (m_irq r) (m_dma_limit r) (m_bus_offset r) (m_dma_maps r) (m_dma_next_id r) (m_dma_map_count r) v (m_page_count r) (m_flags r) (m_owner_spid r).
Definition set_m_page_count (v : Z) (r : MemObject) : MemObject :=
  mkMem (m_kind r) (m_ref_count r) (m_exec_synced r) (m_phys_base r) (m_size r) (m_irq r) (m_dma_limit r) (m_bus_offset r) (m_dma_maps r) (m_dma_next_id r) (m_dma_map_count r) (m_page_addrs r) v (m_flags r) (m_owner_spid r).
Definition set_m_flags (v : Z) (r : MemObject) : MemObject :=
  mkMem (m_kind r) (m_ref_count r) (m_exec_synced r) (m_phys_base r) (m_size r) (m_irq r) (m_dma_limit r) (m_bus_offset r) (m_dma_maps r) (m_dma_next_id r) (m_dma_map_count r) (m_page_addrs r) (m_page_count r) v (m_owner_spid r).
Definition set_m_owner_spid (v : Z) (r : MemObject) : MemObject :=
  mkMem (m_kind r) (m_ref_count r) (m_exec_synced r) (m_phys_base r) (m_size r) (m_irq r) (m_dma_limit r) (m_bus_offset r) (m_dma_maps r) (m_dma_next_id r) (m_dma_map_count r) (m_page_addrs r) (m_page_count r) (m_flags r) v.

(** The kernel state: live objects by address, the link stores, the globals of sched.c, task.c and irq_relay.c, the timer, physical memory, the results of future allocations, the frames handed back to the PMM and the cache maintenance done, latest first. *)
Record kst := mkKst {
  tasks : gmap Z TaskObject;
  events : gmap Z EventObject;
  ports : gmap Z PortObject;
  spaces : gmap Z SpaceObject;
  mems : gmap Z MemObject;
  l_node : links nodeq;
  l_wait : links waitq;
  l_timeout : links Z;
  l_space : links Z;
  l_serve : links Z;
  l_destroy : links destroyq;
  current_task : option Z;
  fpu_owner : option Z;
  do_resched : bool;
  on_idle_stack : bool;
  slice_armed : bool;
  in_tick : bool;
  wheel_occ : list Z;
  wheel_min : list Z;
  wheel_now_slot : Z;
  slot_shift : Z;
  fpu_access_enabled : bool;
  ready_mask : Z;
  timer_deadline : option Z;
  clk : nat;
  active_as : option Z;
  tls_task : option Z;
  next_tid : Z;
  task_table : list (option Z);
  phys : Z → Z;
  irq_owners : list IrqOwner;
  irq_unmasked : list bool;
  kmem : list Z;
  pmm_frees : list Z;
  cache_ops : list (bool * Z * Z)
}.

Definition set_tasks (v : gmap Z TaskObject) (r : kst) : kst :=
  mkKst v (events r) (ports r) (spaces r) (mems r) (l_node r) (l_wait r) (l_timeout r) (l_space r) (l_serve r) (l_destroy r) (current_task r) (fpu_owner r) (do_resched r) (on_idle_stack r) (slice_armed r) (in_tick r) (wheel_occ r) (wheel_min r) (wheel_now_slot r) (slot_shift r) (fpu_access_enabled r) (ready_mask r) (timer_deadline r) (clk r) (active_as r) (tls_task r) (next_tid r) (task_table r) (phys r) (irq_owners r) (irq_unmasked r) (kmem r) (pmm_frees r) (cache_ops r).
Definition set_events (v : gmap Z EventObject) (r : kst) : kst :=
  mkKst (tasks r) v (ports r) (spaces r) (mems r) (l_node r) (l_wait r) (l_timeout r) (l_space r) (l_serve r) (l_destroy r) (current_task r) (fpu_owner r) (do_resched r) (on_idle_stack r) (slice_armed r) (in_tick r) (wheel_occ r) (wheel_min r) (wheel_now_slot r) (slot_shift r) (fpu_access_enabled r) (ready_mask r) (timer_deadline r) (clk r) (active_as r) (tls_task r) (next_tid r) (task_table r) (phys r) (irq_owners r) (irq_unmasked r) (kmem r) (pmm_frees r) (cache_ops r).
Definition set_ports (v : gmap Z PortObject) (r : kst) : kst :=
  mkKst (tasks r) (events r) v (spaces r) (mems r) (l_node r) (l_wait r) (l_timeout r) (l_space r) (l_serve r) (l_destroy r) (current_task r) (fpu_owner r) (do_resched r) (on_idle_stack r) (slice_armed r) (in_tick r) (wheel_occ r) (wheel_min r) (wheel_now_slot r) (slot_shift r) (fpu_access_enabled r) (ready_mask r) (timer_deadline r) (clk r) (active_as r) (tls_task r) (next_tid r) (task_table r) (phys r) (irq_owners r) (irq_unmasked r) (kmem r) (pmm_frees r) (cache_ops r).
Definition set_spaces (v : gmap Z SpaceObject) (r : kst) : kst :=
  mkKst (tasks r) (events r) (ports r) v (mems r) (l_node r) (l_wait r) (l_timeout r) (l_space r) (l_serve r) (l_destroy r) (current_task r) (fpu_owner r) (do_resched r) (on_idle_stack r) (slice_armed r) (in_tick r) (wheel_occ r) (wheel_min r) (wheel_now_slot r) (slot_shift r) (fpu_access_enabled r) (ready_mask r) (timer_deadline r) (clk r) (active_as r) (tls_task r) (next_tid r) (task_table r) (phys r) (irq_owners r) (irq_unmasked r) (kmem r) (pmm_frees r) (cache_ops r).
Definition set_mems (v : gmap Z MemObject) (r : kst) : kst :=
  mkKst (tasks r) (events r) (ports r) (spaces r) v (l_node r) (l_wait r) (l_timeout r) (l_space r) (l_serve r) (l_destroy r) (current_task r) (fpu_owner r) (do_resched r) (on_idle_stack r) (slice_armed r) (in_tick r) (wheel_occ r) (wheel_min r) (wheel_now_slot r) (slot_shift r) (fpu_access_enabled r) (ready_mask r) (timer_deadline r) (clk r) (active_as r) (tls_task r) (next_tid r) (task_table r) (phys r) (irq_owners r) (irq_unmasked r) (kmem r) (pmm_frees r) (cache_ops r).
Definition set_l_node (v : links nodeq) (r : kst) : kst :=
  mkKst (tasks r) (events r) (ports r) (spaces r) (mems r) v (l_wait r) (l_timeout r) (l_space r) (l_serve r) (l_destroy r) (current_task r) (fpu_owner r) (do_resched r) (on_idle_stack r) (slice_armed r) (in_tick r) (wheel_occ r) (wheel_min r) (wheel_now_slot r) (slot_shift r) (fpu_access_enabled r) (ready_mask r) (timer_deadline r) (clk r) (active_as r) (tls_task r) (next_tid r) (task_table r) (phys r) (irq_owners r) (irq_unmasked r) (kmem r) (pmm_frees r) (cache_ops r).
Definition set_l_wait (v : links waitq) (r : kst) : kst :=
  mkKst (tasks r) (events r) (ports r) (spaces r) (mems r) (l_node r) v (l_timeout r) (l_space r) (l_serve r) (l_destroy r) (current_task r) (fpu_owner r) (do_resched r) (on_idle_stack r) (slice_armed r) (in_tick r) (wheel_occ r) (wheel_min r) (wheel_now_slot r) (slot_shift r) (fpu_access_enabled r) (ready_mask r) (timer_deadline r) (clk r) (active_as r) (tls_task r) (next_tid r) (task_table r) (phys r) (irq_owners r) (irq_unmasked r) (kmem r) (pmm_frees r) (cache_ops r).
Definition set_l_timeout (v : links Z) (r : kst) : kst :=
  mkKst (tasks r) (events r) (ports r) (spaces r) (mems r) (l_node r) (l_wait r) v (l_space r) (l_serve r) (l_destroy r) (current_task r) (fpu_owner r) (do_resched r) (on_idle_stack r) (slice_armed r) (in_tick r) (wheel_occ r) (wheel_min r) (wheel_now_slot r) (slot_shift r) (fpu_access_enabled r) (ready_mask r) (timer_deadline r) (clk r) (active_as r) (tls_task r) (next_tid r) (task_table r) (phys r) (irq_owners r) (irq_unmasked r) (kmem r) (pmm_frees r) (cache_ops r).
Definition set_l_space (v : links Z) (r : kst) : kst :=
  mkKst (tasks r) (events r) (ports r) (spaces r) (mems r) (l_node r) (l_wait r) (l_timeout r) v (l_serve r) (l_destroy r) (current_task r) (fpu_owner r) (do_resched r) (on_idle_stack r) (slice_armed r) (in_tick r) (wheel_occ r) (wheel_min r) (wheel_now_slot r) (slot_shift r) (fpu_access_enabled r) (ready_mask r) (timer_deadline r) (clk r) (active_as r) (tls_task r) (next_tid r) (task_table r) (phys r) (irq_owners r) (irq_unmasked r) (kmem r) (pmm_frees r) (cache_ops r).
Definition set_l_serve (v : links Z) (r : kst) : kst :=
  mkKst (tasks r) (events r) (ports r) (spaces r) (mems r) (l_node r) (l_wait r) (l_timeout r) (l_space r) v (l_destroy r) (current_task r) (fpu_owner r) (do_resched r) (on_idle_stack r) (slice_armed r) (in_tick r) (wheel_occ r) (wheel_min r) (wheel_now_slot r) (slot_shift r) (fpu_access_enabled r) (ready_mask r) (timer_deadline r) (clk r) (active_as r) (tls_task r) (next_tid r) (task_table r) (phys r) (irq_owners r) (irq_unmasked r) (kmem r) (pmm_frees r) (cache_ops r).
Definition set_l_destroy (v : links destroyq) (r : kst) : kst :=
  mkKst (tasks r) (events r) (ports r) (spaces r) (mems r) (l_node r) (l_wait r) (l_timeout r) (l_space r) (l_serve r) v (current_task r) (fpu_owner r) (do_resched r) (on_idle_stack r) (slice_armed r) (in_tick r) (wheel_occ r) (wheel_min r) (wheel_now_slot r) (slot_shift r) (fpu_access_enabled r) (ready_mask r) (timer_deadline r) (clk r) (active_as r) (tls_task r) (next_tid r) (task_table r) (phys r) (irq_owners r) (irq_unmasked r) (kmem r) (pmm_frees r) (cache_ops r).
Definition set_current_task (v : option Z) (r : kst) : kst :=
  mkKst (tasks r) (events r) (ports r) (spaces r) (mems r) (l_node r) (l_wait r) (l_timeout r) (l_space r) (l_serve r) (l_destroy r) v (fpu_owner r) (do_resched r) (on_idle_stack r) (slice_armed r) (in_tick r) (wheel_occ r) (wheel_min r) (wheel_now_slot r) (slot_shift r) (fpu_access_enabled r) (ready_mask r) (timer_deadline r) (clk r) (active_as r) (tls_task r) (next_tid r) (task_table r) (phys r) (irq_owners r) (irq_unmasked r) (kmem r) (pmm_frees r) (cache_ops r).
Definition set_fpu_owner (v : option Z) (r : kst) : kst :=
  mkKst (tasks r) (events r) (ports r) (spaces r) (mems r) (l_node r) (l_wait r) (l_timeout r) (l_space r) (l_serve r) (l_destroy r) (current_task r) v (do_resched r) (on_idle_stack r) (slice_armed r) (in_tick r) (wheel_occ r) (wheel_min r) (wheel_now_slot r) (slot_shift r) (fpu_access_enabled r) (ready_mask r) (timer_deadline r) (clk r) (active_as r) (tls_task r) (next_tid r) (task_table r) (phys r) (irq_owners r) (irq_unmasked r) (kmem r) (pmm_frees r) (cache_ops r).
Definition set_do_resched (v : bool) (r : kst) : kst :=
  mkKst (tasks r) (events r) (ports r) (spaces r) (mems r) (l_node r) (l_wait r) (l_timeout r) (l_space r) (l_serve r) (l_destroy r) (current_task r) (fpu_owner r) v (on_idle_stack r) (slice_armed r) (in_tick r) (wheel_occ r) (wheel_min r) (wheel_now_slot r) (slot_shift r) (fpu_access_enabled r) (ready_mask r) (timer_deadline r) (clk r) (active_as r) (tls_task r) (next_tid r) (task_table r) (phys r) (irq_owners r) (irq_unmasked r) (kmem r) (pmm_frees r) (cache_ops r).
Definition set_on_idle_stack (v : bool) (r : kst) : kst :=
  mkKst (tasks r) (events r) (ports r) (spaces r) (mems r) (l_node r) (l_wait r) (l_timeout r) (l_space r) (l_serve r) (l_destroy r) (current_task r) (fpu_owner r) (do_resched r) v (slice_armed r) (in_tick r) (wheel_occ r) (wheel_min r) (wheel_now_slot r) (slot_shift r) (fpu_access_enabled r) (ready_mask r) (timer_deadline r) (clk r) (active_as r) (tls_task r) (next_tid r) (task_table r) (phys r) (irq_owners r) (irq_unmasked r) (kmem r) (pmm_frees r) (cache_ops r).
Definition set_slice_armed (v : bool) (r : kst) : kst :=
  mkKst (tasks r) (events r) (ports r) (spaces r) (mems r) (l_node r) (l_wait r) (l_timeout r) (l_space r) (l_serve r) (l_destroy r) (current_task r) (fpu_owner r) (do_resched r) (on_idle_stack r) v (in_tick r) (wheel_occ r) (wheel_min r) (wheel_now_slot r) (slot_shift r) (fpu_access_enabled r) (ready_mask r) (timer_deadline r) (clk r) (active_as r) (tls_task r) (next_tid r) (task_table r) (phys r) (irq_owners r) (irq_unmasked r) (kmem r) (pmm_frees r) (cache_ops r).
Definition set_in_tick (v : bool) (r : kst) : kst :=
  mkKst (tasks r) (events r) (ports r) (spaces r) (mems r) (l_node r) (l_wait r) (l_timeout r) (l_space r) (l_serve r) (l_destroy r) (current_task r) (fpu_owner r) (do_resched r) (on_idle_stack r) (slice_armed r) v (wheel_occ r) (wheel_min r) (wheel_now_slot r) (slot_shift r) (fpu_access_enabled r) (ready_mask r) (timer_deadline r) (clk r) (active_as r) (tls_task r) (next_tid r) (task_table r) (phys r) (irq_owners r) (irq_unmasked r) (kmem r) (pmm_frees r) (cache_ops r).
Definition set_wheel_occ (v : list Z) (r : kst) : kst :=
  mkKst (tasks r) (events r) (ports r) (spaces r) (mems r) (l_node r) (l_wait r) (l_timeout r) (l_space r) (l_serve r) (l_destroy r) (current_task r) (fpu_owner r) (do_resched r) (on_idle_stack r) (slice_armed r) (in_tick r) v (wheel_min r) (wheel_now_slot r) (slot_shift r) (fpu_access_enabled r) (ready_mask r) (timer_deadline r) (clk r) (active_as r) (tls_task r) (next_tid r) (task_table r) (phys r) (irq_owners r) (irq_unmasked r) (kmem r) (pmm_frees r) (cache_ops r).
Definition set_wheel_min (v : list Z) (r : kst) : kst :=
  mkKst (tasks r) (events r) (ports r) (spaces r) (mems r) (l_node r) (l_wait r) (l_timeout r) (l_space r) (l_serve r) (l_destroy r) (current_task r) (fpu_owner r) (do_resched r) (on_idle_stack r) (slice_armed r) (in_tick r) (wheel_occ r) v (wheel_now_slot r) (slot_shift r) (fpu_access_enabled r) (ready_mask r) (timer_deadline r) (clk r) (active_as r) (tls_task r) (next_tid r) (task_table r) (phys r) (irq_owners r) (irq_unmasked r) (kmem r) (pmm_frees r) (cache_ops r).
Definition set_wheel_now_slot (v : Z) (r : kst) : kst :=
  mkKst (tasks r) (events r) (ports r) (spaces r) (mems r) (l_node r) (l_wait r) (l_timeout r) (l_space r) (l_serve r) (l_destroy r) (current_task r) (fpu_owner r) (do_resched r) (on_idle_stack r) (slice_armed r) (in_tick r) (wheel_occ r) (wheel_min r) v (slot_shift r) (fpu_access_enabled r) (ready_mask r) (timer_deadline r) (clk r) (active_as r) (tls_task r) (next_tid r) (task_table r) (phys r) (irq_owners r) (irq_unmasked r) (kmem r) (pmm_frees r) (cache_ops r).
Definition set_slot_shift (v : Z) (r : kst) : kst :=
  mkKst (tasks r) (events r) (ports r) (spaces r) (mems r) (l_node r) (l_wait r) (l_timeout r) (l_space r) (l_serve r) (l_destroy r) (current_task r) (fpu_owner r) (do_resched r) (on_idle_stack r) (slice_armed r) (in_tick r) (wheel_occ r) (wheel_min r) (wheel_now_slot r) v (fpu_access_enabled r) (ready_mask r) (timer_deadline r) (clk r) (active_as r) (tls_task r) (next_tid r) (task_table r) (phys r) (irq_owners r) (irq_unmasked r) (kmem r) (pmm_frees r) (cache_ops r).
Definition set_fpu_access_enabled (v : bool) (r : kst) : kst :=
  mkKst (tasks r) (events r) (ports r) (spaces r) (mems r) (l_node r) (l_wait r) (l_timeout r) (l_space r) (l_serve r) (l_destroy r) (current_task r) (fpu_owner r) (do_resched r) (on_idle_stack r) (slice_armed r) (in_tick r) (wheel_occ r) (wheel_min r) (wheel_now_slot r) (slot_shift r) v (ready_mask r) (timer_deadline r) (clk r) (active_as r) (tls_task r) (next_tid r) (task_table r) (phys r) (irq_owners r) (irq_unmasked r) (kmem r) (pmm_frees r) (cache_ops r).
Definition set_ready_mask (v : Z) (r : kst) : kst :=
  mkKst (tasks r) (events r) (ports r) (spaces r) (mems r) (l_node r) (l_wait r) (l_timeout r) (l_space r) (l_serve r) (l_destroy r) (current_task r) (fpu_owner r) (do_resched r) (on_idle_stack r) (slice_armed r) (in_tick r) (wheel_occ r) (wheel_min r) (wheel_now_slot r) (slot_shift r) (fpu_access_enabled r) v (timer_deadline r) (clk r) (active_as r) (tls_task r) (next_tid r) (task_table r) (phys r) (irq_owners r) (irq_unmasked r) (kmem r) (pmm_frees r) (cache_ops r).
Definition set_timer_deadline (v : option Z) (r : kst) : kst :=
  mkKst (tasks r) (events r) (ports r) (spaces r) (mems r) (l_node r) (l_wait r) (l_timeout r) (l_space r) (l_serve r) (l_destroy r) (current_task r) (fpu_owner r) (do_resched r) (on_idle_stack r) (slice_armed r) (in_tick r) (wheel_occ r) (wheel_min r) (wheel_now_slot r) (slot_shift r) (fpu_access_enabled r) (ready_mask r) v (clk r) (active_as r) (tls_task r) (next_tid r) (task_table r) (phys r) (irq_owners r) (irq_unmasked r) (kmem r) (pmm_frees r) (cache_ops r).
Definition set_clk (v : nat) (r : kst) : kst :=
  mkKst (tasks r) (events r) (ports r) (spaces r) (mems r) (l_node r) (l_wait r) (l_timeout r) (l_space r) (l_serve r) (l_destroy r) (current_task r) (fpu_owner r) (do_resched r) (on_idle_stack r) (slice_armed r) (in_tick r) (wheel_occ r) (wheel_min r) (wheel_now_slot r) (slot_shift r) (fpu_access_enabled r) (ready_mask r) (timer_deadline r) v (active_as r) (tls_task r) (next_tid r) (task_table r) (phys r) (irq_owners r) (irq_unmasked r) (kmem r) (pmm_frees r) (cache_ops r).
Definition set_active_as (v : option Z) (r : kst) : kst :=
  mkKst (tasks r) (events r) (ports r) (spaces r) (mems r) (l_node r) (l_wait r) (l_timeout r) (l_space r) (l_serve r) (l_destroy r) (current_task r) (fpu_owner r) (do_resched r) (on_idle_stack r) (slice_armed r) (in_tick r) (wheel_occ r) (wheel_min r) (wheel_now_slot r) (slot_shift r) (fpu_access_enabled r) (ready_mask r) (timer_deadline r) (clk r) v (tls_task r) (next_tid r) (task_table r) (phys r) (irq_owners r) (irq_unmasked r) (kmem r) (pmm_frees r) (cache_ops r).
Definition set_tls_task (v : option Z) (r : kst) : kst :=
  mkKst (tasks r) (events r) (ports r) (spaces r) (mems r) (l_node r) (l_wait r) (l_timeout r) (l_space r) (l_serve r) (l_destroy r) (current_task r) (fpu_owner r) (do_resched r) (on_idle_stack r) (slice_armed r) (in_tick r) (wheel_occ r) (wheel_min r) (wheel_now_slot r) (slot_shift r) (fpu_access_enabled r) (ready_mask r) (timer_deadline r) (clk r) (active_as r) v (next_tid r) (task_table r) (phys r) (irq_owners r) (irq_unmasked r) (kmem r) (pmm_frees r) (cache_ops r).
Definition set_next_tid (v : Z) (r : kst) : kst :=
  mkKst (tasks r) (events r) (ports r) (spaces r) (mems r) (l_node r) (l_wait r) (l_timeout r) (l_space r) (l_serve r) (l_destroy r) (current_task r) (fpu_owner r) (do_resched r) (on_idle_stack r) (slice_armed r) (in_tick r) (wheel_occ r) (wheel_min r) (wheel_now_slot r) (slot_shift r) (fpu_access_enabled r) (ready_mask r) (timer_deadline r) (clk r) (active_as r) (tls_task r) v (task_table r) (phys r) (irq_owners r) (irq_unmasked r) (kmem r) (pmm_frees r) (cache_ops r).
Definition set_task_table (v : list (option Z)) (r : kst) : kst :=
  mkKst (tasks r) (events r) (ports r) (spaces r) (mems r) (l_node r) (l_wait r) (l_timeout r) (l_space r) (l_serve r) (l_destroy r) (current_task r) (fpu_owner r) (do_resched r) (on_idle_stack r) (slice_armed r) (in_tick r) (wheel_occ r) (wheel_min r) (wheel_now_slot r) (slot_shift r) (fpu_access_enabled r) (ready_mask r) (timer_deadline r) (clk r) (active_as r) (tls_task r) (next_tid r) v (phys r) (irq_owners r) (irq_unmasked r) (kmem r) (pmm_frees r) (cache_ops r).
Definition set_phys (v : Z → Z) (r : kst) : kst :=
  mkKst (tasks r) (events r) (ports r) (spaces r) (mems r) (l_node r) (l_wait r) (l_timeout r) (l_space r) (l_serve r) (l_destroy r) (current_task r) (fpu_owner r) (do_resched r) (on_idle_stack r) (slice_armed r) (in_tick r) (wheel_occ r) (wheel_min r) (wheel_now_slot r) (slot_shift r) (fpu_access_enabled r) (ready_mask r) (timer_deadline r) (clk r) (active_as r) (tls_task r) (next_tid r) (task_table r) v (irq_owners r) (irq_unmasked r) (kmem r) (pmm_frees r) (cache_ops r).
Definition set_irq_owners (v : list IrqOwner) (r : kst) : kst :=
  mkKst (tasks r) (events r) (ports r) (spaces r) (mems r) (l_node r) (l_wait r) (l_timeout r) (l_space r) (l_serve r) (l_destroy r) (current_task r) (fpu_owner r) (do_resched r) (on_idle_stack r) (slice_armed r) (in_tick r) (wheel_occ r) (wheel_min r) (wheel_now_slot r) (slot_shift r) (fpu_access_enabled r) (ready_mask r) (timer_deadline r) (clk r) (active_as r) (tls_task r) (next_tid r) (task_table r) (phys r) v (irq_unmasked r) (kmem r) (pmm_frees r) (cache_ops r).
Definition set_irq_unmasked (v : list bool) (r : kst) : kst :=
  mkKst (tasks r) (events r) (ports r) (spaces r) (mems r) (l_node r) (l_wait r) (l_timeout r) (l_space r) (l_serve r) (l_destroy r) (current_task r) (fpu_owner r) (do_resched r) (on_idle_stack r) (slice_armed r) (in_tick r) (wheel_occ r) (wheel_min r) (wheel_now_slot r) (slot_shift r) (fpu_access_enabled r) (ready_mask r) (timer_deadline r) (clk r) (active_as r) (tls_task r) (next_tid r) (task_table r) (phys r) (irq_owners r) v (kmem r) (pmm_frees r) (cache_ops r).
Definition set_kmem (v : list Z) (r : kst) : kst :=
  mkKst (tasks r) (events r) (ports r) (spaces r) (mems r) (l_node r) (l_wait r) (l_timeout r) (l_space r) (l_serve r) (l_destroy r) (current_task r) (fpu_owner r) (do_resched r) (on_idle_stack r) (slice_armed r) (in_tick r) (wheel_occ r) (wheel_min r) (wheel_now_slot r) (slot_shift r) (fpu_access_enabled r) (ready_mask r) (timer_deadline r) (clk r) (active_as r) (tls_task r) (next_tid r) (task_table r) (phys r) (irq_owners r) (irq_unmasked r) v (pmm_frees r) (cache_ops r).
Definition set_pmm_frees (v : list Z) (r : kst) : kst :=
  mkKst (tasks r) (events r) (ports r) (spaces r) (mems r) (l_node r) (l_wait r) (l_timeout r) (l_space r) (l_serve r) (l_destroy r) (current_task r) (fpu_owner r) (do_resched r) (on_idle_stack r) (slice_armed r) (in_tick r) (wheel_occ r) (wheel_min r) (wheel_now_slot r) (slot_shift r) (fpu_access_enabled r) (ready_mask r) (timer_deadline r) (clk r) (active_as r) (tls_task r) (next_tid r) (task_table r) (phys r) (irq_owners r) (irq_unmasked r) (kmem r) v (cache_ops r).
Definition set_cache_ops (v : list (bool * Z * Z)) (r : kst) : kst :=
  mkKst (tasks r) (events r) (ports r) (spaces r) (mems r) (l_node r) (l_wait r) (l_timeout r) (l_space r) (l_serve r) (l_destroy r) (current_task r) (fpu_owner r) (do_resched r) (on_idle_stack r) (slice_armed r) (in_tick r) (wheel_occ r) (wheel_min r) (wheel_now_slot r) (slot_shift r) (fpu_access_enabled r) (ready_mask r) (timer_deadline r) (clk r) (active_as r) (tls_task r) (next_tid r) (task_table r) (phys r) (irq_owners r) (irq_unmasked r) (kmem r) (pmm_frees r) v.


(** * Access to the state *)
Abbreviation KM := (M kst).

(** Following a pointer to an object, and writing one of its fields. *)
Definition deref {A} (f : kst → gmap Z A) (p : option Z) : KM A :=
  match p with
  | None => panic
  | Some a => let! m := gets f in match m !! a with Some x => ret x | None => panic end
  end.
Definition task (t : Z) : KM TaskObject := deref tasks (Some t).
Definition event (e : Z) : KM EventObject := deref events (Some e).
Definition port (p : Z) : KM PortObject := deref ports (Some p).
Definition space (s : Z) : KM SpaceObject := deref spaces (Some s).
Definition mem (m : Z) : KM MemObject := deref mems (Some m).
Definition upd_task (t : Z) (f : TaskObject → TaskObject) : KM unit :=
  let! x := task t in modify (λ s, set_tasks (<[t := f x]> (tasks s)) s).
Definition upd_event (e : Z) (f : EventObject → EventObject) : KM unit :=
  let! x := event e in modify (λ s, set_events (<[e := f x]> (events s)) s).
Definition upd_port (p : Z) (f : PortObject → PortObject) : KM unit :=
  let! x := port p in modify (λ s, set_ports (<[p := f x]> (ports s)) s).
Definition upd_space (sp : Z) (f : SpaceObject → SpaceObject) : KM unit :=
  let! x := space sp in modify (λ s, set_spaces (<[sp := f x]> (spaces s)) s).

Definition upd_mem (m : Z) (f : MemObject → MemObject) : KM unit :=
  let! x := mem m in modify (λ s, set_mems (<[m := f x]> (mems s)) s).

(** A link-store operation; breaking its contract panics. *)
Definition link_op {Q} (get : kst → links Q) (put : links Q → kst → kst) (f : links Q → option (links Q)) : KM unit :=
  let! L := gets get in
  match f L with Some L' => modify (put L') | None => panic end.
Definition node_op := link_op l_node set_l_node.
Definition wait_op := link_op l_wait set_l_wait.
Definition timeout_op := link_op l_timeout set_l_timeout.
Definition space_op := link_op l_space set_l_space.
Definition serve_op := link_op l_serve set_l_serve.
Definition destroy_op := link_op l_destroy set_l_destroy.

(** [ArchSetInFrame(t->trap_frame, i, v)] *)
Definition set_reg (t i v : Z) : KM unit := upd_task t (λ x, set_t_regs (aset (t_regs x) i (w32 v)) x).

(** [KSlabAlloc], [KZAlloc]: the next result of the allocation stream. *)
Definition kmem_alloc : KM Z :=
  let! m := gets kmem in
  match m with
  | [] => ret 0
  | a :: m' => modify (set_kmem m') ;; ret a
  end.

(** The state before the scheduler starts. *)
Definition kst0 : kst :=
  mkKst ∅ ∅ ∅ ∅ ∅
    (mkLinks (λ _, []) (λ _, None)) (mkLinks (λ _, []) (λ _, None)) (mkLinks (λ _, []) (λ _, None))
    (mkLinks (λ _, []) (λ _, None)) (mkLinks (λ _, []) (λ _, None)) (mkLinks (λ _, []) (λ _, None))
    None None false false false false (replicate 16 0) (replicate 512 0) 0 0 true 0
    None 0%nat None None 1 (replicate 1024 None) (λ _, 0) (replicate 256 (mkIrq None false None 0)) (replicate 256 false) [] [] [].

Lemma links_ok_empty {Q} : links_ok (mkLinks (λ _ : Q, []) (λ _, None)).
Proof. split; simpl; [by intros; rewrite elem_of_nil|]. intros. constructor. Qed.

(** A task as [memset] leaves it. *)
Definition task0 : TaskObject :=
  mkTask (replicate 16 0) 0 0 0 0 0 TASK_STATE_READY IPC_NONE None (mkReply None 0) 0 None None None 0 0 0 None 0 0 None
    0 0 0 0 None 0 0 (replicate 4 (mkObserver None 0 false)) 0 false false None 0 0 0 false 0.
