(* ===== verification/Sched.v ===== *)
(** kernel/sched/sched.c: run queues, wait queues, the sleep wheel's data structure, the
    timer and the choice of the next task.

    Waking sleepers, blocking and [Schedule] itself need the task and IPC operations
    and are in Wheel.v.  The running task is [current_task]; the idle task is [None] as
    a result of [SchedPickNext].  [ContextSwitch] ends the running handler: the model
    of [SchedSwitchNext] stops there, with the state the next task resumes in. *)
From S2P Require Import Prelude Bitmap Handle KState.

#[local] Open Scope Z_scope.

(** The hardware counter: the value returned by its n-th read, and its frequency. *)
Class Timer : Type := {
  counter : nat → Z;
  ArchTimerFreq : Z
}.

Section sched.
Context `{Timer}.

Definition ArchTimerNow : KM Z :=
  let! n := gets clk in modify (set_clk (S n)) ;; ret (counter n).
Definition ArchTimerSetDeadline (d : Z) : KM unit := modify (set_timer_deadline (Some d)).
Definition ArchTimerDisable : KM unit := modify (set_timer_deadline None).
Definition ArchDeadlineFromMs (ms : Z) : KM Z :=
  let delta := w64 (ms * ArchTimerFreq) / 1000 in
  let! now := ArchTimerNow in ret (w64 (now + delta)).
Definition ClockUsToCounts (us : Z) : Z := w64 (us * ArchTimerFreq) / 1000000.
Definition MIN_TIMER_SLACK : Z := ArchTimerFreq / 500000.

Definition run_queue (s : kst) (level : Z) : list Z := lq (l_node s) (RunQ level).
Definition bucket (s : kst) (slot : Z) : list Z := lq (l_timeout s) slot.

Definition SchedAnyCpuTakers (t : Z) : KM bool :=
  let! x := task t in
  let priority := if SCHED_PRIORITY_LEVELS <=? t_priority x then SCHED_PRIORITY_LEVELS - 1 else t_priority x in
  let! mask := gets ready_mask in
  ret (truthy (Z.land mask (w32 (Z.lnot (bit priority - 1))))).

Fixpoint wheel_scan (occ : list Z) (start : Z) (n : nat) (i : Z) : Z :=
  match n with
  | O => SLEEP_QUEUE_SIZE
  | S n' =>
      let slot := if SLEEP_QUEUE_SIZE <=? start + i then start + i - SLEEP_QUEUE_SIZE else start + i in
      if truthy (Z.land (aget occ (Z.shiftr slot 5)) (bit (Z.land slot 31))) then i
      else wheel_scan occ start n' (i + 1)
  end.
Definition WheelScanFromNow : KM Z :=
  let! s := get in
  ret (wheel_scan (wheel_occ s) (wheel_now_slot s mod SLEEP_QUEUE_SIZE) (Z.to_nat SLEEP_QUEUE_SIZE) 0).

(** The deadline of the first occupied slot, [k] slots ahead. *)
Definition wheel_deadline (s : kst) (k : Z) : Z :=
  if k <? SLEEP_QUEUE_SIZE then
    let slot := w64 (wheel_now_slot s + k) mod SLEEP_QUEUE_SIZE in
    let slot_end := w64 (Z.shiftl (w64 (wheel_now_slot s + k + 1)) (slot_shift s)) in
    if aget (wheel_min s) slot <? slot_end then aget (wheel_min s) slot else slot_end
  else UINT64_MAX.

Definition SchedArmTimer : KM unit :=
  let! now := ArchTimerNow in
  let! cur := gets current_task in
  let! armed := match cur with None => ret false | Some c => SchedAnyCpuTakers c end in
  modify (set_slice_armed armed) ;;
  let! k := WheelScanFromNow in
  let! s := get in
  let deadline := wheel_deadline s k in
  let! deadline := match cur with
    | Some c => if armed then
                  let! x := task c in
                  ret (if t_slice_deadline x <? deadline then t_slice_deadline x else deadline)
                else ret deadline
    | None => ret deadline
    end in
  if deadline =? UINT64_MAX then ArchTimerDisable else
  let deadline := if deadline <=? w64 (now + MIN_TIMER_SLACK) then w64 (now + MIN_TIMER_SLACK) else deadline in
  ArchTimerSetDeadline deadline.

Definition SchedSetReschedFlag : KM unit := modify (set_do_resched true).

(** The end of [SchedEnqueue]: a task that outranks the running one requests a
    reschedule, and the timer is armed if the running task now has competition. *)
Definition sched_kick (t prio : Z) : KM unit :=
  let! cur := gets current_task in
  match cur with
  | None => ret tt
  | Some c =>
      let! cx := task c in
      when (t_priority cx <? prio) SchedSetReschedFlag ;;
      let! s := get in
      when (negb (in_tick s) && negb (t =? c) && negb (slice_armed s) && (t_priority cx <=? prio))
        SchedArmTimer
  end.

Definition SchedEnqueue (t : Z) (front : bool) : KM unit :=
  let! x := task t in
  let! frozen := match t_owner x with
    | None => ret false
    | Some o => let! sp := space o in ret (s_frozen sp)
    end in
  if frozen then ret tt else
  if t_suspended x then ret tt else
  let! on := gets (λ s, linked (l_node s) t) in
  if on then ret tt else
  let priority := if SCHED_PRIORITY_LEVELS <=? t_priority x then SCHED_PRIO_DEFAULT else t_priority x in
  upd_task t (set_t_queued_prio (w8 priority)) ;;
  node_op ((if front then lk_add_head else lk_add_tail) t (RunQ priority)) ;;
  modify (λ s, set_ready_mask (Z.lor (ready_mask s) (bit priority)) s) ;;
  sched_kick t (t_priority x).
Definition SchedAdd (t : Z) : KM unit := SchedEnqueue t false.
Definition SchedAddFront (t : Z) : KM unit := SchedEnqueue t true.

Definition SchedQueueDestroyTask (t : Z) : KM unit :=
  let! on := gets (λ s, linked (l_destroy s) t) in
  if on then ret tt else destroy_op (lk_add_tail t DestroyQ).

Definition SchedIsWorkPending : KM bool :=
  let! s := get in
  ret (do_resched s ||
       existsb (λ level, negb (bool_decide (run_queue s level = []))) (seqZ 0 SCHED_PRIORITY_LEVELS)).

Definition SchedRemoveRunQueue (t : Z) : KM unit :=
  let! on := gets (λ s, linked (l_node s) t) in
  if negb on then ret tt else
  let! x := task t in
  let priority := t_queued_prio x in
  node_op (lk_remove t) ;;
  let! s := get in
  when (bool_decide (run_queue s priority = []))
    (modify (λ s, set_ready_mask (Z.land (ready_mask s) (w32 (Z.lnot (bit priority)))) s)).

(** The priority levels from the highest down; [None] is the idle task. *)
Fixpoint pick_next (levels : list Z) : KM (option Z) :=
  match levels with
  | [] => ret None
  | level :: levels' =>
      let! s := get in
      if truthy (Z.land (ready_mask s) (bit level)) then
        match run_queue s level with
        | [] => modify (λ s, set_ready_mask (Z.land (ready_mask s) (w32 (Z.lnot (bit level)))) s) ;;
                pick_next levels'
        | t :: _ =>
            node_op (lk_remove t) ;;
            let! s := get in
            when (bool_decide (run_queue s level = []))
              (modify (λ s, set_ready_mask (Z.land (ready_mask s) (w32 (Z.lnot (bit level)))) s)) ;;
            ret (Some t)
        end
      else pick_next levels'
  end.
Definition SchedPickNext : KM (option Z) := pick_next [7; 6; 5; 4; 3; 2; 1; 0].

Definition VmmActivateAddressSpace (as_ : Z) : KM unit := modify (set_active_as (Some as_)).

Definition SchedSwitchNext (next : option Z) : KM unit :=
  let! prev := gets current_task in
  match next with
  | None => modify (set_current_task None) ;; SchedArmTimer
  | Some n =>
      modify (set_current_task (Some n)) ;;
      upd_task n (set_t_state TASK_STATE_RUNNING) ;;
      modify (set_on_idle_stack false) ;;
      let! x := task n in
      let slice := if truthy (t_slice_remaining x) then t_slice_remaining x
                   else ClockUsToCounts (t_time_slice_us x) in
      let! now := ArchTimerNow in
      upd_task n (set_t_slice_deadline (w64 (now + slice))) ;;
      upd_task n (set_t_slice_remaining 0) ;;
      SchedArmTimer ;;
      if bool_decide (next = prev) then ret tt else
      let! fo := gets fpu_owner in
      (if bool_decide (Some n = fo) then modify (set_fpu_access_enabled true)
       else modify (set_fpu_access_enabled false)) ;;
      let! prev_as := match prev with
        | None => ret None
        | Some p => let! px := task p in
            match t_owner px with None => ret None | Some o => let! sp := space o in ret (Some (s_as sp)) end
        end in
      let! x := task n in
      match t_owner x with
      | None => panic
      | Some o =>
          let! sp := space o in
          match s_as sp with
          | Some a => when (negb (bool_decide (prev_as = Some (Some a)))) (VmmActivateAddressSpace a)
          | None => ret tt
          end ;;
          modify (set_tls_task (Some n))
      end
  end.

(** ** The sleep wheel *)

(** The earliest deadline of the tasks [xs]. *)
Fixpoint bucket_min (xs : list Z) (acc : Z) : KM Z :=
  match xs with
  | [] => ret acc
  | t :: xs' => let! x := task t in
      bucket_min xs' (if t_wake_deadline x <? acc then t_wake_deadline x else acc)
  end.
Definition WheelBucketMin (slot : Z) : KM Z :=
  let! xs := gets (λ s, bucket s slot) in bucket_min xs UINT64_MAX.

Definition SchedRemoveSleepQueue (t : Z) : KM unit :=
  let! x := task t in
  if t_sleep_slot x <? 0 then ret tt else
  let! on := gets (λ s, linked (l_timeout s) t) in
  when on (timeout_op (lk_remove t)) ;;
  let slot := t_sleep_slot x in
  let! s := get in
  (if bool_decide (bucket s slot = []) then modify (λ s, set_wheel_occ (BitmapClr (wheel_occ s) slot) s)
   else when (t_wake_deadline x =? aget (wheel_min s) slot)
          (let! m := WheelBucketMin slot in
           modify (λ s, set_wheel_min (aset (wheel_min s) slot m) s))) ;;
  upd_task t (set_t_sleep_slot (-1)).

Definition SchedInsertSleepQueue (t : Z) : KM unit :=
  let! x := task t in
  let! s := get in
  let abs_slot := Z.shiftr (t_wake_deadline x) (slot_shift s) in
  let abs_slot := if abs_slot <? wheel_now_slot s then wheel_now_slot s else abs_slot in
  let abs_slot := if SLEEP_QUEUE_SIZE <=? w64 (abs_slot - wheel_now_slot s)
                  then w64 (wheel_now_slot s + SLEEP_QUEUE_SIZE - 1) else abs_slot in
  let slot := abs_slot mod SLEEP_QUEUE_SIZE in
  when (bool_decide (bucket s slot = []) || (t_wake_deadline x <? aget (wheel_min s) slot))
    (modify (λ s, set_wheel_min (aset (wheel_min s) slot (t_wake_deadline x)) s)) ;;
  timeout_op (lk_add_tail t slot) ;;
  modify (λ s, set_wheel_occ (BitmapSet (wheel_occ s) slot) s) ;;
  upd_task t (set_t_sleep_slot slot) ;;
  SchedArmTimer.

Definition SchedUnblock (t : Z) : KM unit :=
  let! on := gets (λ s, linked (l_wait s) t) in
  when on (wait_op (lk_remove t)) ;;
  SchedRemoveSleepQueue t ;;
  upd_task t (λ x, set_t_state TASK_STATE_READY (set_t_blocked_port None (set_t_ipc_state IPC_NONE (set_t_wake_deadline 0 x)))).

(** ** Wait queues *)

(** The walk from the tail over tasks of lower priority; [rxs] is the rest of the queue
    in reverse, [acc] the tasks passed. *)
Fixpoint wq_insert (prio : Z → KM Z) (t p : Z) (rxs acc : list Z) : KM (list Z) :=
  match rxs with
  | [] => ret (t :: acc)
  | x :: r =>
      let! px := prio x in
      if px <? p then wq_insert prio t p r (x :: acc) else ret (rev rxs ++ t :: acc)
  end.
Definition prio_of (t : Z) : KM Z := let! x := task t in ret (t_priority x).

Definition SchedWaitQueueAdd (q : waitq) (t : Z) : KM unit :=
  let! p := prio_of t in
  let! xs := gets (λ s, lq (l_wait s) q) in
  let! ys := wq_insert prio_of t p (rev xs) [] in
  upd_task t (set_t_wait_queue (Some q)) ;;
  wait_op (lk_link t q ys).

Definition SchedWaitQueueAddTask (q : nodeq) (t : Z) : KM unit :=
  let! p := prio_of t in
  let! xs := gets (λ s, lq (l_node s) q) in
  let! ys := wq_insert prio_of t p (rev xs) [] in
  node_op (lk_link t q ys).

Definition SchedSetEffective (t prio : Z) : KM unit :=
  let! x := task t in
  let! s := get in
  let on_run := bool_decide (t_state x = TASK_STATE_READY) && linked (l_node s) t in
  let on_wait := linked (l_wait s) t in
  let on_senders := bool_decide (t_state x = TASK_STATE_BLOCKED) && linked (l_node s) t &&
                    bool_decide (is_Some (t_blocked_port x)) in
  when on_run (SchedRemoveRunQueue t) ;;
  when on_wait (wait_op (lk_remove t)) ;;
  when on_senders (node_op (lk_remove t)) ;;
  upd_task t (set_t_priority prio) ;;
  when on_run (SchedAdd t) ;;
  (if on_wait then
     let! x := task t in
     match t_wait_queue x with Some q => SchedWaitQueueAdd q t | None => panic end
   else ret tt) ;;
  (if on_senders then
     let! x := task t in
     match t_blocked_port x with Some p => port p ;; SchedWaitQueueAddTask (SenderQ p) t | None => panic end
   else ret tt) ;;
  let! cur := gets current_task in
  if bool_decide (cur = Some t) then
    let! takers := SchedAnyCpuTakers t in
    when takers SchedSetReschedFlag
  else ret tt.

(** The ready tasks from the highest priority down. *)
Definition SchedGetReadyQueue (s : kst) : list Z :=
  flat_map (run_queue s) [7; 6; 5; 4; 3; 2; 1; 0].
Definition SchedGetSleepers (s : kst) : list Z :=
  flat_map (bucket s) (seqZ 0 SLEEP_QUEUE_SIZE).
End sched.

(** * Run queues *)

Section runq.
Context `{Timer}.
Implicit Types (s : kst) (t : Z).

(** The ready mask has exactly the bits of the non-empty levels, every queued task is
    live, and its [queued_prio] is its level. *)
Definition rq_inv s : Prop :=
  links_ok (l_node s) ∧ 0 ≤ ready_mask s < 2 ^ 32 ∧
  (∀ level, 0 ≤ level < 32 →
     Z.testbit (ready_mask s) level = true ↔ run_queue s level ≠ []) ∧
  (∀ t level, t ∈ run_queue s level → 0 ≤ level < SCHED_PRIORITY_LEVELS ∧
     ∃ x, tasks s !! t = Some x ∧ t_queued_prio x = level).

(** [s'] differs from [s] in the timer state only. *)
Definition timer_only s s' : Prop :=
  ∃ b d n, s' = set_slice_armed b (set_timer_deadline d (set_clk (n + clk s)%nat s)).

Lemma timer_only_refl s : timer_only s s.
Proof. exists (slice_armed s), (timer_deadline s), 0%nat. by destruct s. Qed.

Lemma wp_task t s Q : (∃ x, tasks s !! t = Some x ∧ Q x s) → wp (task t) Q s.
Proof. intros (x & Hx & HQ). unfold task, deref. wp_steps. by rewrite Hx. Qed.
Lemma wp_upd_task t f s Q :
  (∃ x, tasks s !! t = Some x ∧ Q tt (set_tasks (<[t := f x]> (tasks s)) s)) → wp (upd_task t f) Q s.
Proof. intros (x & Hx & HQ). unfold upd_task. wp_step. apply wp_task. exists x. split; [done|]. by wp_step. Qed.
Lemma wp_port p s Q : (∃ x, ports s !! p = Some x ∧ Q x s) → wp (port p) Q s.
Proof. intros (x & Hx & HQ). unfold port, deref. wp_steps. by rewrite Hx. Qed.
Lemma wp_upd_port p f s Q :
  (∃ x, ports s !! p = Some x ∧ Q tt (set_ports (<[p := f x]> (ports s)) s)) → wp (upd_port p f) Q s.
Proof. intros (x & Hx & HQ). unfold upd_port. wp_step. apply wp_port. exists x. split; [done|]. by wp_step. Qed.
Lemma wp_event e s Q : (∃ x, events s !! e = Some x ∧ Q x s) → wp (event e) Q s.
Proof. intros (x & Hx & HQ). unfold event, deref. wp_steps. by rewrite Hx. Qed.
Lemma wp_upd_event e f s Q :
  (∃ x, events s !! e = Some x ∧ Q tt (set_events (<[e := f x]> (events s)) s)) → wp (upd_event e f) Q s.
Proof. intros (x & Hx & HQ). unfold upd_event. wp_step. apply wp_event. exists x. split; [done|]. by wp_step. Qed.
Lemma wp_space sp s Q : (∃ x, spaces s !! sp = Some x ∧ Q x s) → wp (space sp) Q s.
Proof. intros (x & Hx & HQ). unfold space, deref. wp_steps. by rewrite Hx. Qed.
Lemma wp_link_op {A} (g : kst → links A) p f Q s :
  (∃ L, f (g s) = Some L ∧ Q tt (p L s)) → wp (link_op g p f) Q s.
Proof. intros (L & HL & HQ). unfold link_op. wp_steps. rewrite HL. by wp_step. Qed.

(** The running task exists. *)
Definition cur_ok s : Prop := ∀ c, current_task s = Some c → is_Some (tasks s !! c).

Lemma wp_SchedAnyCpuTakers t s Q :
  (∃ x, tasks s !! t = Some x ∧ ∀ b, Q b s) → wp (SchedAnyCpuTakers t) Q s.
Proof.
  intros (x & Hx & HQ). unfold SchedAnyCpuTakers. wp_step. apply wp_task. exists x. split; [done|]. by wp_steps.
Qed.

Lemma wp_SchedArmTimer s Q : cur_ok s → (∀ s', timer_only s s' → Q tt s') → wp SchedArmTimer Q s.
Proof.
  intros Hc HQ. unfold SchedArmTimer, ArchTimerNow, ArchTimerDisable, ArchTimerSetDeadline, WheelScanFromNow.
  wp_steps. change (current_task (set_clk _ s)) with (current_task s).
  destruct (current_task s) as [c|] eqn:Ec.
  - destruct (Hc c Ec) as [x Hx]. apply wp_SchedAnyCpuTakers. exists x. split; [done|]. intros b. wp_steps.
    destruct b.
    + wp_step. apply wp_task. exists x. split; [done|]. wp_steps.
      apply wp_if; intros _; wp_steps; apply HQ; by eexists _, _, 1%nat.
    + wp_steps. apply wp_if; intros _; wp_steps; apply HQ; by eexists _, _, 1%nat.
  - wp_steps. apply wp_if; intros _; wp_steps; apply HQ; by eexists _, _, 1%nat.
Qed.

Lemma mask_set_bit m p l : 0 ≤ p → 0 ≤ l → Z.testbit (Z.lor m (bit p)) l = Z.testbit m l || bool_decide (l = p).
Proof.
  intros Hp Hl. rewrite Z.lor_spec, bit_spec by done. f_equal. by case_bool_decide; case_bool_decide; try lia.
Qed.
Lemma mask_clr_bit m p l : 0 ≤ p < 32 → 0 ≤ l < 32 →
  Z.testbit (Z.land m (w32 (Z.lnot (bit p)))) l = Z.testbit m l && negb (bool_decide (l = p)).
Proof.
  intros Hp Hl. rewrite Z.land_spec, lnot32_spec, bit_spec by lia. do 2 f_equal.
  by case_bool_decide; case_bool_decide; try lia.
Qed.

Lemma filter_head t r : NoDup (t :: r) → filter (λ y, y ≠ t) (t :: r) = r.
Proof.
  intros Hn. inversion_clear Hn. rewrite filter_cons_False by tauto. apply filter_all. intros y Hy ->. done.
Qed.

Lemma run_queue_in s t level : links_ok (l_node s) → t ∈ run_queue s level → lin (l_node s) t = Some (RunQ level).
Proof. intros [Hin _] Ht. by apply Hin. Qed.

(** [s] without the queued task [t] of [level], and with the mask bit adjusted. *)
Definition dequeued s t level : kst :=
  let s1 := set_l_node (mkLinks (fset (lq (l_node s)) (RunQ level) (filter (λ y, y ≠ t) (run_queue s level)))
                                (fset (lin (l_node s)) t None)) s in
  if bool_decide (run_queue s1 level = [])
  then set_ready_mask (Z.land (ready_mask s1) (w32 (Z.lnot (bit level)))) s1 else s1.

Lemma dequeued_queue s t level l :
  run_queue (dequeued s t level) l =
    if decide (l = level) then filter (λ y, y ≠ t) (run_queue s level) else run_queue s l.
Proof.
  unfold dequeued. cbv zeta. case_bool_decide; unfold run_queue; simpl; case_decide as Hd; subst.
  - by rewrite fset_eq.
  - rewrite fset_ne; [done|congruence].
  - by rewrite fset_eq.
  - rewrite fset_ne; [done|congruence].
Qed.

Lemma dequeued_mask s t level l :
  0 ≤ level < 32 → 0 ≤ l < 32 →
  Z.testbit (ready_mask (dequeued s t level)) l =
    Z.testbit (ready_mask s) l &&
    negb (bool_decide (l = level) && bool_decide (filter (λ y, y ≠ t) (run_queue s level) = [])).
Proof.
  intros Hlv Hl. unfold dequeued. cbv zeta.
  assert (Hq : run_queue (set_l_node (mkLinks (fset (lq (l_node s)) (RunQ level) (filter (λ y, y ≠ t) (run_queue s level)))
                                (fset (lin (l_node s)) t None)) s) level = filter (λ y, y ≠ t) (run_queue s level)).
  { unfold run_queue. simpl. by rewrite fset_eq. }
  rewrite Hq. case_bool_decide as He; simpl.
  - rewrite mask_clr_bit by done. by rewrite andb_true_r.
  - by rewrite andb_false_r, andb_true_r.
Qed.

Lemma dequeued_inv s t level :
  rq_inv s → t ∈ run_queue s level → rq_inv (dequeued s t level).
Proof.
  intros (Hok & Hm & Hbits & Hq) Ht. destruct (Hq _ _ Ht) as [Hlv _]. unfold SCHED_PRIORITY_LEVELS in Hlv.
  assert (Hrem : lk_remove t (l_node s) = Some (l_node (dequeued s t level))).
  { unfold lk_remove. rewrite (run_queue_in s t level Hok Ht). unfold dequeued. cbv zeta. by case_bool_decide. }
  split_and!.
  - by eapply links_ok_remove.
  - unfold dequeued. cbv zeta. case_bool_decide; simpl; [|lia]. apply Z.land_nonneg. lia.
  - unfold dequeued. cbv zeta. case_bool_decide; simpl; [|lia]. apply land_range; lia.
  - intros l Hl. rewrite dequeued_mask, dequeued_queue by lia. case_decide as Hd.
    + rewrite bool_decide_true by done. rewrite andb_true_iff, negb_true_iff, andb_true_l, bool_decide_eq_false.
      rewrite Hbits by lia. subst l. split; [tauto|]. intros Hne. split; [|done]. intros He. by rewrite He in Ht; apply elem_of_nil in Ht.
    + rewrite bool_decide_false by done. rewrite andb_true_r. by apply Hbits.
  - intros t' l. rewrite dequeued_queue. intros Ht'.
    assert (Htl : t' ∈ run_queue s l).
    { destruct (decide (l = level)) as [->|]; [|done]. by apply list_elem_of_filter in Ht' as [_ ?]. }
    destruct (Hq _ _ Htl) as (Hlv' & x & Hx & Hqp). split; [done|]. exists x. split; [|done].
    unfold dequeued. cbv zeta. by case_bool_decide.
Qed.

(** The highest level of [levels] with a ready task, with that task. *)
Fixpoint highest s (levels : list Z) : option (Z * Z) :=
  match levels with
  | [] => None
  | l :: ls => match run_queue s l with t :: _ => Some (l, t) | [] => highest s ls end
  end.

Lemma wp_pick_next levels s Q :
  rq_inv s → Forall (λ l, 0 ≤ l < 32) levels →
  match highest s levels with
  | None => Q None s
  | Some (l, t) => Q (Some t) (dequeued s t l)
  end → wp (pick_next levels) Q s.
Proof.
  intros Hinv. pose proof Hinv as (Hok & _ & Hbits & Hq).
  induction levels as [|l ls IH]; intros Hl HQ; simpl in *; [by wp_step|].
  inversion_clear Hl as [|?? Hll Hls]. wp_steps. rewrite land_bit_truthy by lia.
  destruct (run_queue s l) as [|t r] eqn:Er.
  - assert (Hb : Z.testbit (ready_mask s) l = false).
    { apply not_true_iff_false. rewrite Hbits by done. by intros []. }
    rewrite Hb. by apply IH.
  - assert (Hb : Z.testbit (ready_mask s) l = true) by (apply Hbits; [done|by rewrite Er]).
    rewrite Hb. wp_step. apply wp_link_op. unfold lk_remove.
    rewrite (run_queue_in s t l) by (done || rewrite Er; set_solver). eexists. split; [done|].
    wp_steps. unfold dequeued in HQ. cbv zeta in HQ. fold (run_queue s l).
    apply wp_when; intros Hc; [rewrite Hc in HQ; by wp_steps|]. rewrite Hc in HQ. by wp_step.
Qed.

(** The level a task of priority [p] is queued at. *)
Definition level_of (p : Z) : Z := if SCHED_PRIORITY_LEVELS <=? p then SCHED_PRIO_DEFAULT else p.

Definition enqueued s t x (front : bool) : kst :=
  let p := level_of (t_priority x) in
  let q := run_queue s p in
  set_ready_mask (Z.lor (ready_mask s) (bit p))
    (set_l_node (mkLinks (fset (lq (l_node s)) (RunQ p) (if front then t :: q else q ++ [t]))
                         (fset (lin (l_node s)) t (Some (RunQ p))))
       (set_tasks (<[t := set_t_queued_prio (w8 p) x]> (tasks s)) s)).

(** Whether [SchedEnqueue] queues the task. *)
Definition schedulable s t x : bool :=
  negb (match t_owner x with
        | Some o => match spaces s !! o with Some sp => s_frozen sp | None => false end
        | None => false
        end) && negb (t_suspended x) && negb (linked (l_node s) t).

Lemma level_of_range p : 0 ≤ p → 0 ≤ level_of p < SCHED_PRIORITY_LEVELS.
Proof. intros Hp. unfold level_of, SCHED_PRIORITY_LEVELS, SCHED_PRIO_DEFAULT. case_if E; lia. Qed.

Lemma enqueued_queue s t x front l :
  run_queue (enqueued s t x front) l =
    if decide (l = level_of (t_priority x))
    then (if front then t :: run_queue s l else run_queue s l ++ [t]) else run_queue s l.
Proof.
  unfold enqueued, run_queue. simpl. case_decide as Hd; [subst; by rewrite fset_eq|rewrite fset_ne; congruence].
Qed.

Lemma enqueued_inv s t x front :
  rq_inv s → tasks s !! t = Some x → 0 ≤ t_priority x → linked (l_node s) t = false →
  rq_inv (enqueued s t x front).
Proof.
  intros (Hok & Hm & Hbits & Hq) Hx Hp Hl. pose proof (level_of_range _ Hp) as Hlv.
  unfold SCHED_PRIORITY_LEVELS in Hlv.
  assert (Hlink : lk_link t (RunQ (level_of (t_priority x)))
     (if front then t :: run_queue s (level_of (t_priority x)) else run_queue s (level_of (t_priority x)) ++ [t])
     (l_node s) = Some (l_node (enqueued s t x front))) by (unfold lk_link; by rewrite Hl).
  apply linked_false in Hl. split_and!.
  - eapply links_ok_link; [exact Hok| |exact Hlink]. destruct front; [done|by rewrite Permutation_app_comm].
  - simpl. apply Z.lor_nonneg. split; [lia|]. rewrite bit_pow by lia. apply Z.pow_nonneg. lia.
  - simpl. apply lor_range; [lia|lia|]. rewrite bit_pow by lia. split; [apply Z.pow_nonneg; lia|apply Z.pow_lt_mono_r; lia].
  - intros l Hlr. rewrite enqueued_queue. simpl. rewrite mask_set_bit by lia. case_decide as Hd.
    + rewrite bool_decide_true, orb_true_r by done. split; [|done]. intros _. destruct front; [done|]. by destruct (run_queue s l).
    + rewrite bool_decide_false, orb_false_r by done. by apply Hbits.
  - intros t' l. rewrite enqueued_queue. simpl. intros Ht'.
    destruct (decide (t' = t)) as [->|Hne].
    + rewrite lookup_insert_eq. destruct (decide (l = level_of (t_priority x))) as [->|Hd].
      * split; [done|]. eexists. split; [done|]. simpl. rewrite w8_small by lia. done.
      * exfalso. apply (run_queue_in s t l Hok) in Ht'. congruence.
    + rewrite lookup_insert_ne by done. apply Hq. case_decide; [|done]. destruct front; set_solver.
Qed.

(** Whether a task of priority [p] outranks the running task. *)
Definition outranks s (p : Z) : bool :=
  match current_task s with
  | Some c => match tasks s !! c with Some cx => t_priority cx <? p | None => false end
  | None => false
  end.

Lemma wp_sched_kick s t p Q :
  cur_ok s → (∀ s', timer_only (set_do_resched (do_resched s || outranks s p) s) s' → Q tt s') →
  wp (sched_kick t p) Q s.
Proof.
  intros Hc HQ. unfold sched_kick. wp_steps. unfold outranks in HQ.
  destruct (current_task s) as [c|] eqn:Ec.
  2: { wp_step. apply HQ. rewrite orb_false_r. exists (slice_armed s), (timer_deadline s), 0%nat. by destruct s. }
  destruct (Hc c Ec) as [cx Hcx]. rewrite Hcx in HQ. wp_step. apply wp_task. exists cx. split; [done|]. wp_step.
  assert (Hd : ∀ b, cur_ok (set_do_resched b s)) by done.
  apply wp_when; intros Hlt; rewrite Hlt in HQ; unfold SchedSetReschedFlag; wp_steps.
  - rewrite orb_true_r in HQ. apply wp_when; intros _; [by apply wp_SchedArmTimer|apply HQ, timer_only_refl].
  - rewrite orb_false_r in HQ. assert (Hs : set_do_resched (do_resched s) s = s) by (by destruct s). rewrite Hs in HQ.
    apply wp_when; intros _; [by apply wp_SchedArmTimer|apply HQ, timer_only_refl].
Qed.

Lemma wp_SchedEnqueue s t front x Q :
  tasks s !! t = Some x → (∀ o, t_owner x = Some o → is_Some (spaces s !! o)) → cur_ok s →
  (if schedulable s t x then
     ∀ s', timer_only (set_do_resched (do_resched s || outranks s (t_priority x)) (enqueued s t x front)) s' → Q tt s'
   else Q tt s) →
  wp (SchedEnqueue t front) Q s.
Proof.
  intros Hx Ho Hc HQ. unfold SchedEnqueue. wp_step. apply wp_task. exists x. split; [done|]. wp_step.
  assert (Hfz : ∀ Q', Q' (match t_owner x with
        | Some o => match spaces s !! o with Some sp => s_frozen sp | None => false end
        | None => false end) s → wp (match t_owner x with
    | None => ret false
    | Some o => let! sp := space o in ret (s_frozen sp)
    end) Q' s).
  { intros Q' HQ'. destruct (t_owner x) as [o|]; [|by wp_step]. destruct (Ho o eq_refl) as [sp Hsp].
    wp_step. apply wp_space. exists sp. split; [done|]. wp_step. by rewrite Hsp in HQ'. }
  apply Hfz. clear Hfz. unfold schedulable in HQ.
  destruct (match t_owner x with Some o => _ | None => false end); simpl in HQ; [by wp_step|].
  destruct (t_suspended x); simpl in HQ; [by wp_step|]. wp_steps.
  destruct (linked (l_node s) t) eqn:Hl; simpl in HQ; [by wp_step|]. wp_step.
  apply wp_upd_task. exists x. split; [done|]. wp_step. apply wp_link_op.
  change (if SCHED_PRIORITY_LEVELS <=? t_priority x then SCHED_PRIO_DEFAULT else t_priority x) with (level_of (t_priority x)).
  exists (l_node (enqueued s t x front)). split.
  { unfold lk_add_head, lk_add_tail. destruct front; unfold lk_link; simpl; rewrite Hl; done. }
  wp_steps. change (set_ready_mask _ _) with (enqueued s t x front).
  assert (Hlk : ∀ c cx, tasks s !! c = Some cx → ∃ cx', tasks (enqueued s t x front) !! c = Some cx' ∧ t_priority cx' = t_priority cx).
  { intros c cx Hcx. simpl. destruct (decide (c = t)) as [->|Hn].
    - rewrite lookup_insert_eq. eexists. split; [done|]. simpl. congruence.
    - rewrite lookup_insert_ne by done. by exists cx. }
  apply wp_sched_kick.
  - intros c Ec. destruct (Hc c Ec) as [cx Hcx]. destruct (Hlk c cx Hcx) as (cx' & -> & _). by eexists.
  - intros s' Hs'. apply HQ. unfold outranks in *. change (current_task (enqueued _ _ _ _)) with (current_task s) in Hs'.
    destruct (current_task s) as [c|] eqn:Ec; [|done]. destruct (Hc c Ec) as [cx Hcx].
    destruct (Hlk c cx Hcx) as (cx' & Hcx' & Hp). by rewrite Hcx', Hp in Hs'; rewrite Hcx.
Qed.

Lemma rq_inv_timer s s' : timer_only s s' → rq_inv s → rq_inv s'.
Proof. by intros (b & d & n & ->). Qed.
Lemma timer_only_queue s s' l : timer_only s s' → run_queue s' l = run_queue s l.
Proof. by intros (b & d & n & ->). Qed.

Lemma highest_levels s :
  match highest s [7; 6; 5; 4; 3; 2; 1; 0] with
  | None => ∀ l, 0 ≤ l < 8 → run_queue s l = []
  | Some (l, t) => ∃ rest, run_queue s l = t :: rest ∧ ∀ l', l < l' < 8 → run_queue s l' = []
  end.
Proof.
  cbn [highest].
  repeat match goal with |- context [match run_queue s ?l with _ => _ end] => destruct (run_queue s l) eqn:? end.
  all: try (eexists; split; [done|]); intros l' Hl'.
  all: assert (l' = 0 ∨ l' = 1 ∨ l' = 2 ∨ l' = 3 ∨ l' = 4 ∨ l' = 5 ∨ l' = 6 ∨ l' = 7) by lia;
    naive_solver lia.
Qed.

(** [SchedPickNext] returns the idle task only when every run queue is empty;
    otherwise it takes the first task of the highest non-empty priority level and
    leaves every other queue as it was.  The ready mask stays exact. *)
Theorem SchedPickNext_highest s :
  rq_inv s →
  wp SchedPickNext (λ r s', rq_inv s' ∧
    match r with
    | None => ∀ l, run_queue s' l = []
    | Some t => ∃ level rest, 0 ≤ level < SCHED_PRIORITY_LEVELS ∧ run_queue s level = t :: rest ∧
        (∀ l, level < l → run_queue s l = []) ∧
        ∀ l, run_queue s' l = if decide (l = level) then rest else run_queue s l
    end) s.
Proof.
  intros Hinv. pose proof Hinv as (Hok & _ & _ & Hq). unfold SchedPickNext.
  assert (Hout : ∀ l, ¬ 0 ≤ l < 8 → run_queue s l = []).
  { intros l Hl. destruct (run_queue s l) as [|t r] eqn:Er; [done|].
    destruct (Hq t l) as [Hlv _]; [rewrite Er; set_solver|done]. }
  apply wp_pick_next; [done|repeat (apply Forall_cons; split; [lia|]); apply Forall_nil_2|].
  pose proof (highest_levels s) as Hh. destruct (highest s _) as [[level t]|].
  - destruct Hh as (rest & Hr & Htop).
    assert (Ht : t ∈ run_queue s level) by (rewrite Hr; set_solver).
    split; [by apply dequeued_inv|]. exists level, rest. destruct (Hq _ _ Ht) as [Hlv _]. split_and!; [lia..|done| |].
    + intros l Hl. destruct (decide (l < 8)); [apply Htop; lia|apply Hout; lia].
    + intros l. rewrite dequeued_queue. case_decide; [|done]. rewrite Hr. apply filter_head.
      rewrite <- Hr. apply Hok.
  - split; [done|]. intros l. destruct (decide (0 ≤ l < 8)); [by apply Hh|by apply Hout].
Qed.

(** [SchedAdd] and [SchedAddFront] queue a task that is not frozen, suspended or
    already linked at the tail (front) of the queue of its priority, request a
    reschedule exactly when it outranks the running task (or one was pending), and
    otherwise change no queue; the ready mask stays exact. *)
Theorem SchedEnqueue_fifo s t front x :
  rq_inv s → cur_ok s → tasks s !! t = Some x → 0 ≤ t_priority x →
  (∀ o, t_owner x = Some o → is_Some (spaces s !! o)) →
  wp (SchedEnqueue t front) (λ _ s', rq_inv s' ∧
    if schedulable s t x
    then do_resched s' = do_resched s || outranks s (t_priority x) ∧
         ∀ l, run_queue s' l = if decide (l = level_of (t_priority x))
                               then (if front then t :: run_queue s l else run_queue s l ++ [t])
                               else run_queue s l
    else s' = s) s.
Proof.
  intros Hinv Hc Hx Hp Ho. apply (wp_SchedEnqueue s t front x); [done..|].
  destruct (schedulable s t x) eqn:Es; [|done]. intros s' Hs'.
  assert (Hl : linked (l_node s) t = false) by (unfold schedulable in Es; by b2p).
  split; [|split].
  - eapply rq_inv_timer; [exact Hs'|]. by apply (enqueued_inv s t x front).
  - by destruct Hs' as (b & d & n & ->).
  - intros l. rewrite (timer_only_queue _ _ _ Hs'). apply (enqueued_queue s t x front l).
Qed.

Lemma wp_SchedRemoveRunQueue s t level Q :
  rq_inv s → t ∈ run_queue s level → Q tt (dequeued s t level) → wp (SchedRemoveRunQueue t) Q s.
Proof.
  intros Hinv Ht HQ. pose proof Hinv as (Hok & _ & _ & Hq). destruct (Hq _ _ Ht) as (Hlv & x & Hx & Hqp).
  unfold SchedRemoveRunQueue. pose proof (run_queue_in s t level Hok Ht) as Hin. wp_steps.
  assert (Hl : linked (l_node s) t = true) by (apply linked_spec; by eexists). rewrite Hl. simpl. wp_step.
  apply wp_task. exists x. split; [done|]. wp_step. apply wp_link_op. unfold lk_remove. rewrite Hin.
  eexists. split; [done|]. wp_steps. rewrite Hqp. unfold dequeued in HQ. cbv zeta in HQ. fold (run_queue s level).
  apply wp_when; intros Hc; rewrite Hc in HQ; [by wp_step|done].
Qed.
End runq.

(** * Wait queues *)

Section waitq.
Context `{Timer}.
Implicit Types (s : kst) (t : Z) (xs ys : list Z).

Definition prio s t : Z := match tasks s !! t with Some x => t_priority x | None => 0 end.
(** Priorities do not increase along the queue. *)
Fixpoint descending s xs : Prop :=
  match xs with
  | x :: (y :: _) as xs' => prio s y ≤ prio s x ∧ descending s xs'
  | _ => True
  end.
Definition live s xs : Prop := ∀ t, t ∈ xs → is_Some (tasks s !! t).

Lemma descending_cons s x xs : descending s (x :: xs) ↔ (∀ y, y ∈ xs → prio s y ≤ prio s x) ∧ descending s xs.
Proof.
  revert x. induction xs as [|y xs IH]; intros x; [simpl; set_solver|].
  change (descending s (x :: y :: xs)) with (prio s y ≤ prio s x ∧ descending s (y :: xs)).
  split.
  - intros [Hxy Hd]. split; [|done]. intros z [->|Hz]%elem_of_cons; [done|].
    apply IH in Hd as [Hd _]. specialize (Hd z Hz). lia.
  - intros [Hall Hd]. split; [apply Hall; set_solver|done].
Qed.
Lemma descending_app s xs ys :
  descending s (xs ++ ys) ↔
  descending s xs ∧ descending s ys ∧ ∀ x y, x ∈ xs → y ∈ ys → prio s y ≤ prio s x.
Proof.
  induction xs as [|x xs IH]; [simpl; set_solver|]. rewrite <- app_comm_cons, !descending_cons, IH. set_solver.
Qed.

Lemma descending_ext s s' xs : (∀ y, prio s' y = prio s y) → descending s xs → descending s' xs.
Proof.
  intros Hpr. induction xs as [|y xs IH]; [done|]. rewrite !descending_cons. intros [Hy Hys]. split; [|by apply IH].
  intros z Hz. rewrite !Hpr. by apply Hy.
Qed.

Lemma wp_prio_of t s Q : is_Some (tasks s !! t) → Q (prio s t) s → wp (prio_of t) Q s.
Proof.
  intros [x Hx] HQ. unfold prio_of. wp_step. apply wp_task. exists x. split; [done|]. wp_step.
  unfold prio in HQ. by rewrite Hx in HQ.
Qed.

(** The walk stops at the first task, from the tail, of at least the new priority. *)
Lemma wp_wq_insert s t p rxs acc Q :
  live s rxs →
  (∀ a b, rev rxs = a ++ b → (∀ x, x ∈ b → prio s x < p) → (∀ x, last a = Some x → p ≤ prio s x) →
     Q (a ++ t :: b ++ acc) s) →
  wp (wq_insert prio_of t p rxs acc) Q s.
Proof.
  revert acc Q. induction rxs as [|x rxs IH]; intros acc Q Hl HQ; simpl.
  { wp_step. apply (HQ [] []); [done|set_solver|done]. }
  wp_step. apply wp_prio_of; [apply Hl; set_solver|]. apply wp_if; intros Hc; b2p.
  - apply IH; [intros y Hy; apply Hl; set_solver|]. intros a b Hab Hb Ha.
    replace (a ++ t :: b ++ x :: acc) with (a ++ t :: (b ++ [x]) ++ acc) by (by rewrite <- app_assoc).
    apply HQ; [simpl; by rewrite Hab, app_assoc| |done]. intros y. rewrite elem_of_app, list_elem_of_singleton.
    intros [?| ->]; [by apply Hb|done].
  - wp_step. apply (HQ (rev rxs ++ [x]) []); [by rewrite app_nil_r|set_solver|].
    intros y. rewrite last_snoc. by intros [= <-].
Qed.

Lemma wq_split_sorted s t a b :
  descending s (a ++ b) → (∀ x, x ∈ b → prio s x < prio s t) → (∀ x, last a = Some x → prio s t ≤ prio s x) →
  (∀ x, x ∈ a → prio s t ≤ prio s x) ∧ descending s (a ++ t :: b).
Proof.
  intros Hd Hb Ha. apply descending_app in Hd as (Hda & Hdb & Hab).
  assert (Hall : ∀ x, x ∈ a → prio s t ≤ prio s x).
  { intros x Hx. destruct a as [|y a _] using rev_ind; [set_solver|]. specialize (Ha y). rewrite last_snoc in Ha.
    specialize (Ha eq_refl). apply elem_of_app in Hx as [Hx| ->%list_elem_of_singleton]; [|done].
    apply descending_app in Hda as (_ & _ & Hda). specialize (Hda x y Hx ltac:(set_solver)). lia. }
  split; [done|]. apply descending_app. split_and!; [done| |].
  - apply descending_cons. split; [|done]. intros y Hy. specialize (Hb y Hy). lia.
  - intros x y Hx [->|Hy]%elem_of_cons; [by apply Hall|by apply Hab].
Qed.

(** [SchedWaitQueueAdd] keeps a wait queue ordered by priority, first come first
    served among equals: the task is put behind every waiter of at least its priority
    and before every waiter of lower priority. *)
Theorem SchedWaitQueueAdd_order s q t :
  links_ok (l_wait s) → is_Some (tasks s !! t) → live s (lq (l_wait s) q) →
  descending s (lq (l_wait s) q) → linked (l_wait s) t = false →
  wp (SchedWaitQueueAdd q t) (λ _ s', links_ok (l_wait s') ∧ lin (l_wait s') t = Some q ∧
    descending s' (lq (l_wait s') q) ∧ (∀ q', q' ≠ q → lq (l_wait s') q' = lq (l_wait s) q') ∧
    ∃ a b, lq (l_wait s) q = a ++ b ∧ lq (l_wait s') q = a ++ t :: b ∧
      (∀ x, x ∈ a → prio s t ≤ prio s x) ∧ (∀ x, x ∈ b → prio s x < prio s t)) s.
Proof.
  intros Hok [x Hx] Hlive Hdesc Hl. unfold SchedWaitQueueAdd. wp_step. apply wp_prio_of; [by eexists|]. wp_steps.
  apply wp_wq_insert; [intros y Hy; apply Hlive; apply list_elem_of_In, in_rev; by apply list_elem_of_In|].
  intros a b Hab Hb Ha. rewrite rev_involutive in Hab. rewrite app_nil_r. wp_step.
  apply wp_upd_task. exists x. split; [done|]. apply wp_link_op. rewrite Hab in Hdesc.
  destruct (wq_split_sorted s t a b Hdesc Hb Ha) as [Ha' Hd'].
  eexists. split; [unfold lk_link; simpl; by rewrite Hl|].
  assert (Hpr : ∀ y, prio (set_tasks (<[t:=set_t_wait_queue (Some q) x]> (tasks s)) s) y = prio s y).
  { intros y. unfold prio. simpl. destruct (decide (y = t)) as [->|]; [by rewrite lookup_insert_eq, Hx|by rewrite lookup_insert_ne]. }
  simpl. rewrite !fset_eq. split_and!; [|done|by apply (descending_ext s)| |].
  - eapply (links_ok_link (l_wait s) t q (a ++ t :: b)); [done| |unfold lk_link; by rewrite Hl].
    rewrite Hab. symmetry. apply Permutation_middle.
  - intros q' Hq'. by rewrite fset_ne.
  - exists a, b. by split_and!.
Qed.
End waitq.

(** Two tasks of priorities 3 and 5, nothing queued. *)
Module SchedDemo.
#[local] Instance demo_timer : Timer := { counter n := 1000 * Z.of_nat n; ArchTimerFreq := 62500000 }.

Definition low : TaskObject := set_t_priority 3 task0.
Definition high : TaskObject := set_t_priority 5 task0.
Definition demo : kst := set_tasks (<[16 := low]> (<[32 := high]> ∅)) kst0.

Lemma sched_demo_inv : rq_inv demo.
Proof.
  split; [apply links_ok_empty|]. split; [done|]. split.
  - intros l Hl. change (ready_mask demo) with 0. rewrite Z.testbit_0_l. done.
  - intros t l Ht. by apply elem_of_nil in Ht.
Qed.
Lemma sched_demo_cur : cur_ok demo.
Proof. done. Qed.
Lemma one_ready_inv : rq_inv (enqueued demo 16 low false).
Proof. by apply enqueued_inv; [apply sched_demo_inv|..]. Qed.

Lemma SchedPickNext_highest_witness :
  run_queue (enqueued demo 16 low false) 3 = [16] ∧
  wp SchedPickNext (λ r s', rq_inv s') (enqueued demo 16 low false).
Proof.
  split; [reflexivity|]. eapply wp_mono; [apply (SchedPickNext_highest _ one_ready_inv)|]. by intros r s' [? _].
Defined.
Lemma SchedEnqueue_fifo_witness :
  schedulable demo 32 high = true ∧
  wp (SchedEnqueue 32 true) (λ _ s', run_queue s' 5 = [32]) demo.
Proof.
  split; [reflexivity|]. eapply wp_mono; [apply (SchedEnqueue_fifo demo 32 true high sched_demo_inv sched_demo_cur)|].
  - reflexivity.
  - vm_compute. congruence.
  - intros o Ho. vm_compute in Ho. congruence.
  - intros r s' [_ Hs']. change (schedulable demo 32 high) with true in Hs'. cbv iota in Hs'. destruct Hs' as [_ Hq]. apply (Hq 5).
Defined.
Lemma SchedWaitQueueAdd_order_witness :
  wp (SchedWaitQueueAdd (Joiners 16) 32) (λ _ s', lin (l_wait s') 32 = Some (Joiners 16)) demo.
Proof.
  eapply wp_mono; [apply (SchedWaitQueueAdd_order demo (Joiners 16) 32)|].
  - apply links_ok_empty.
  - by eexists.
  - intros t Ht. by apply elem_of_nil in Ht.
  - done.
  - reflexivity.
  - by intros r s' (_ & ? & _).
Defined.
End SchedDemo.
