(* ===== verification/Task.v ===== *)
(** kernel/task/task.c: references, waking waiters, withdrawing calls and priority
    inheritance.

    A chain of calls is followed to a depth of at most PRIORITY_PROPAGATION_DEPTH; the
    recursion of [RecomputePriorityAt] is on the links left, [depth] being the links
    already travelled. *)
From S2P Require Import Prelude Bitmap Handle KState Sched.

#[local] Open Scope Z_scope.

Section task.
Context `{Timer}.

(** [f] on every element of a queue as it was when the walk began. *)
Fixpoint walk (xs : list Z) (f : Z → KM unit) : KM unit :=
  match xs with
  | [] => ret tt
  | t :: xs' => f t ;; walk xs' f
  end.

(** Emptying a wait queue from the front; [n] bounds the number of waiters. *)
Fixpoint drain_wait (n : nat) (q : waitq) (f : Z → KM unit) : KM unit :=
  let! xs := gets (λ s, lq (l_wait s) q) in
  match xs with
  | [] => ret tt
  | t :: _ =>
      match n with
      | O => diverge
      | S n' => wait_op (lk_remove t) ;; f t ;; drain_wait n' q f
      end
  end.
Definition drain_waitq (q : waitq) (f : Z → KM unit) : KM unit :=
  let! xs := gets (λ s, lq (l_wait s) q) in drain_wait (length xs) q f.

Definition SetExitResult (t value outcome : Z) : KM unit :=
  set_reg t 0 ZUZU_OK ;; set_reg t 1 value ;; set_reg t 3 outcome.

Definition WakeWaiters (q : waitq) (value outcome : Z) : KM unit :=
  drain_waitq q (λ w, SetExitResult w value outcome ;; SchedUnblock w ;; SchedAdd w).
Definition WakeWaitList (q : waitq) (status : Z) : KM unit := WakeWaiters q status TASK_EXITED.

Definition TaskRef (t : Z) : KM unit := upd_task t (λ x, set_t_ref_count (w32 (t_ref_count x + 1)) x).

Definition TaskUnlinkWaits (t : Z) : KM unit :=
  let! on := gets (λ s, linked (l_node s) t) in
  when on (SchedRemoveRunQueue t) ;;
  SchedRemoveSleepQueue t ;;
  let! on := gets (λ s, linked (l_wait s) t) in
  when on (wait_op (lk_remove t)).

Definition TaskAbortWait (t err : Z) : KM unit :=
  set_reg t 0 err ;;
  upd_task t (set_t_pending_reply_cap None) ;;
  SchedUnblock t ;;
  SchedAdd t.

Definition TaskIsDead (x : TaskObject) : bool :=
  bool_decide (t_state x = TASK_STATE_ZOMBIE) || bool_decide (t_state x = TASK_STATE_FAULTED).

Definition PRIORITY_PROPAGATION_DEPTH : nat := 8.

(** The priority of the caller [t] serves, if it is still waiting, and of the first
    caller queued on its port. *)
Definition caller_prio (x : TaskObject) (eff : Z) : KM Z :=
  match t_reply_cap x with
  | None => ret eff
  | Some owner =>
      let! ox := task owner in
      let rc := t_reply_cap_storage ox in
      match rc_caller_task rc with
      | None => ret eff
      | Some caller =>
          let! cx := task caller in
          ret (if (t_tid cx =? rc_caller_tid rc) && negb (bool_decide (t_state cx = TASK_STATE_ZOMBIE)) &&
                  bool_decide (t_ipc_state cx = IPC_WAITING) && (eff <? t_priority cx)
               then t_priority cx else eff)
      end
  end.
Definition queue_prio (x : TaskObject) (eff : Z) : KM Z :=
  match t_serving_port x with
  | None => ret eff
  | Some p =>
      let! xs := gets (λ s, lq (l_node s) (SenderQ p)) in
      match xs with
      | [] => ret eff
      | head :: _ => let! hx := task head in ret (if eff <? t_priority hx then t_priority hx else eff)
      end
  end.

Fixpoint RecomputePriorityAt (links_left : nat) (t : Z) : KM unit :=
  let! x := task t in
  let! eff := caller_prio x (t_base_prio x) in
  let! eff := queue_prio x eff in
  if eff =? t_priority x then ret tt else
  SchedSetEffective t eff ;;
  match links_left with
  | O => ret tt
  | S n =>
      let! x := task t in
      match t_reply_holder x with
      | Some h => RecomputePriorityAt n h
      | None => ret tt
      end ;;
      let! x := task t in
      let! on := gets (λ s, linked (l_node s) t) in
      match t_blocked_port x with
      | Some p =>
          if bool_decide (t_state x = TASK_STATE_BLOCKED) && on then
            let! servers := gets (λ s, lq (l_serve s) p) in walk servers (RecomputePriorityAt n)
          else ret tt
      | None => ret tt
      end
  end.
Definition TaskRecomputePriority (t : Z) : KM unit := RecomputePriorityAt PRIORITY_PROPAGATION_DEPTH t.

Definition PortBoostServersAt (links_left : nat) (p : Z) : KM unit :=
  let! servers := gets (λ s, lq (l_serve s) p) in walk servers (RecomputePriorityAt links_left).
Definition PortBoostServers (p : Z) : KM unit :=
  let! servers := gets (λ s, lq (l_serve s) p) in walk servers TaskRecomputePriority.

Definition TaskDetachServing (t : Z) : KM unit :=
  let! x := task t in
  match t_serving_port x with
  | None => ret tt
  | Some _ => serve_op (lk_remove t) ;; upd_task t (set_t_serving_port None)
  end.

Definition TaskClearReplyCap (t : Z) : KM unit :=
  upd_task t (set_t_reply_cap None) ;;
  TaskDetachServing t ;;
  TaskRecomputePriority t.

(** Forgetting a parked call: [held_port->held[held_slot].caller = NULL]. *)
Definition clear_held (p slot : Z) : KM unit :=
  let! px := port p in
  match p_held px with
  | None => panic
  | Some hs => upd_port p (set_p_held (Some (alter (set_h_caller None) (Z.to_nat slot) hs)))
  end.

Definition TaskCancelCall (t : Z) : KM unit :=
  let! x := task t in
  let! on := gets (λ s, linked (l_node s) t) in
  match t_held_port x with
  | Some p => clear_held p (t_held_slot x) ;; upd_task t (set_t_held_port None)
  | None => when on (node_op (lk_remove t))
  end ;;
  (if bool_decide (is_Some (t_pending_reply_cap x)) then
     match t_reply_holder x with
     | Some h => TaskClearReplyCap h ;; upd_task t (set_t_reply_holder None)
     | None => match t_blocked_port x with Some p => PortBoostServers p | None => ret tt end
     end
   else ret tt) ;;
  upd_task t (set_t_pending_reply_cap None).
End task.
