(* ===== verification/Event.v ===== *)
(** kernel/ipc/event.c, kernel/ipc/observer.c and kernel/irq/irq_relay.c.

    An observer set belongs to a task, port, event or space ([obset]).  Signalling an
    event notifies the events it is bound into, and dropping the last reference kills
    it, which notifies them too.  The two functions that recurse through observers are
    passed as [ev_rec] to the others and tied together in [ev_ops], whose argument
    bounds the nesting of events.  Bind() allows two layers only, so [EVENT_NESTING]
    levels are enough. *)
From S2P Require Import Prelude Bitmap Handle KState Sched Task.

#[local] Open Scope Z_scope.

Inductive obset := ObTask (t : Z) | ObPort (p : Z) | ObEvent (e : Z) | ObSpace (s : Z).

Definition no_observer : Observer := mkObserver None 0 false.
#[global] Instance Observer_inhabited : Inhabited Observer := populate no_observer.
Definition no_irq : IrqOwner := mkIrq None false None 0.
#[global] Instance IrqOwner_inhabited : Inhabited IrqOwner := populate no_irq.

Section event.
Context `{Timer}.

Definition get_obs (o : obset) : KM (list Observer) :=
  match o with
  | ObTask t => let! x := task t in ret (t_observers x)
  | ObPort p => let! x := port p in ret (p_observers x)
  | ObEvent e => let! x := event e in ret (e_observers x)
  | ObSpace sp => let! x := space sp in ret (s_observers x)
  end.
Definition put_obs (o : obset) (l : list Observer) : KM unit :=
  match o with
  | ObTask t => upd_task t (set_t_observers l)
  | ObPort p => upd_port p (set_p_observers l)
  | ObEvent e => upd_event e (set_e_observers l)
  | ObSpace sp => upd_space sp (set_s_observers l)
  end.
Definition get_slot (o : obset) (i : Z) : KM Observer := let! l := get_obs o in ret (aget l i).
Definition put_slot (o : obset) (i : Z) (ob : Observer) : KM unit :=
  let! l := get_obs o in put_obs o (aset l i ob).

Definition EventBindBit (e b : Z) : KM unit :=
  if 31 <=? b then ret tt else
  let! x := event e in
  when (aget (e_bound_refs x) b <? 65535)
    (upd_event e (λ x, set_e_bound_refs (aset (e_bound_refs x) b (aget (e_bound_refs x) b + 1)) x)) ;;
  upd_event e (λ x, set_e_bound_mask (Z.lor (e_bound_mask x) (bit b)) x).

Definition EventUnbindBit (e b : Z) : KM unit :=
  if 31 <=? b then ret tt else
  let! x := event e in
  if aget (e_bound_refs x) b =? 0 then ret tt else
  upd_event e (λ x, set_e_bound_refs (aset (e_bound_refs x) b (aget (e_bound_refs x) b - 1)) x) ;;
  let! x := event e in
  when (aget (e_bound_refs x) b =? 0)
    (upd_event e (λ x, set_e_bound_mask (Z.land (e_bound_mask x) (w32 (Z.lnot (bit b)))) x)).

(** The pending bits of [word] that satisfy a wait for [mask]. *)
Definition EventTake (word mask : Z) (all : bool) : Z :=
  let hit := Z.land word mask in
  if all then (if hit =? mask then mask else 0) else hit.

(** [EventSignal] and [EventUnref] at one nesting level less. *)
Record ev_rec := mkEvRec { r_signal : Z → Z → bool → KM unit; r_unref : Z → KM unit }.

Definition ObserverInit : list Observer := replicate (Z.to_nat MAX_OBSERVERS) no_observer.

Definition ObserverRelease (r : ev_rec) (o : obset) (i : Z) : KM unit :=
  let! ob := get_slot o i in
  match o_ev ob with
  | None => panic
  | Some e =>
      EventUnbindBit e (o_bit ob) ;;
      let! x := event e in
      when (o_from_event ob && truthy (e_child_count x))
        (upd_event e (λ x, set_e_child_count (e_child_count x - 1) x)) ;;
      r_unref r e ;;
      put_slot o i no_observer
  end.

Definition ObserverNotify (r : ev_rec) (o : obset) : KM unit :=
  for_each (Z.to_nat MAX_OBSERVERS) 0 (λ i,
    let! ob := get_slot o i in
    match o_ev ob with
    | None => ret tt
    | Some e =>
        let! x := event e in
        if negb (e_alive x) then ObserverRelease r o i
        else r_signal r e (bit (o_bit ob)) false
    end).

Definition ObserverClear (r : ev_rec) (o : obset) : KM unit :=
  for_each (Z.to_nat MAX_OBSERVERS) 0 (λ i,
    let! ob := get_slot o i in
    match o_ev ob with None => ret tt | Some _ => ObserverRelease r o i end).

Definition EventNotifyParents (r : ev_rec) (e : Z) : KM unit :=
  let! x := event e in when (truthy (e_word x)) (ObserverNotify r (ObEvent e)).

(** The walk of [EventSignal] over the waiters; returns the bits delivered. *)
Fixpoint signal_waiters (e : Z) (bcast : bool) (ws : list Z) (delivered : Z) : KM Z :=
  match ws with
  | [] => ret delivered
  | w :: ws' =>
      let! wx := task w in
      let! x := event e in
      let got := EventTake (e_word x) (t_wait_mask wx) (t_wait_all wx) in
      if truthy got then
        wait_op (lk_remove w) ;;
        set_reg w 0 ZUZU_OK ;;
        set_reg w 1 got ;;
        SchedUnblock w ;;
        SchedAdd w ;;
        if negb bcast then ret (Z.lor delivered got)
        else signal_waiters e bcast ws' (Z.lor delivered got)
      else signal_waiters e bcast ws' delivered
  end.

Definition EventSignal_ (r : ev_rec) (e bits : Z) (bcast : bool) : KM unit :=
  let! x := event e in
  assert (e_alive x && negb (truthy (Z.land bits EVENT_WAIT_ALL))) ;;
  upd_event e (λ x, set_e_word (Z.lor (e_word x) bits) x) ;;
  let! ws := gets (λ s, lq (l_wait s) (EventWaiters e)) in
  let! delivered := signal_waiters e bcast ws 0 in
  upd_event e (λ x, set_e_word (Z.land (e_word x) (w32 (Z.lnot delivered))) x) ;;
  EventNotifyParents r e.

Definition EventKill_ (r : ev_rec) (e : Z) : KM unit :=
  let! x := event e in
  if negb (e_alive x) then ret tt else
  upd_event e (set_e_alive false) ;;
  drain_waitq (EventWaiters e) (λ w, TaskAbortWait w ERR_DEAD) ;;
  ObserverNotify r (ObEvent e) ;;
  ObserverClear r (ObEvent e).

Definition EventUnref_ (r : ev_rec) (e : Z) : KM unit :=
  let! x := event e in
  when (0 <? e_ref_count x) (upd_event e (λ x, set_e_ref_count (e_ref_count x - 1) x)) ;;
  let! x := event e in
  if 0 <? e_ref_count x then ret tt else
  EventKill_ r e ;;
  modify (λ s, set_events (delete e (events s)) s).

Fixpoint ev_ops (n : nat) : ev_rec :=
  match n with
  | O => mkEvRec (λ _ _ _, diverge) (λ _, diverge)
  | S n' => let r := ev_ops n' in mkEvRec (EventSignal_ r) (EventUnref_ r)
  end.
Definition EVENT_NESTING : nat := 4.
Definition evr : ev_rec := ev_ops EVENT_NESTING.

Definition EventSignal (e bits : Z) (bcast : bool) : KM unit := EventSignal_ evr e bits bcast.
Definition EventUnref (e : Z) : KM unit := EventUnref_ evr e.
Definition EventKill (e : Z) : KM unit := EventKill_ evr e.

Definition EventDestroy (e : Z) : KM unit :=
  let! x := event e in
  if negb (e_alive x) then ret tt else EventKill e ;; EventUnref e.

(** [EventCreate] in the space of ID [spid]; NULL is 0. *)
Definition EventCreate (spid : Z) : KM Z :=
  let! e := kmem_alloc in
  if e =? 0 then ret 0 else
  modify (λ s, set_events (<[e := mkEvent 0 spid 1 true 0 (replicate 31 0) ObserverInit 0]> (events s)) s) ;;
  modify (λ s, set_l_wait (lk_init (EventWaiters e) (l_wait s)) s) ;;
  ret e.

(** ** Observers *)

(** The first loop of [ObserverAdd]: an existing binding of [e] is moved to [bit]. *)
Fixpoint observer_rebind (o : obset) (e b : Z) (n : nat) (i : Z) : KM bool :=
  match n with
  | O => ret false
  | S n' =>
      let! ob := get_slot o i in
      if bool_decide (o_ev ob = Some e) then
        when (negb (o_bit ob =? b))
          (EventUnbindBit e (o_bit ob) ;; EventBindBit e b ;;
           put_slot o i (mkObserver (o_ev ob) (w8 b) (o_from_event ob))) ;;
        ret true
      else observer_rebind o e b n' (i + 1)
  end.
(** Its last loop: the first empty slot is taken. *)
Fixpoint observer_take (o : obset) (e b : Z) (is_event : bool) (n : nat) (i : Z) : KM Z :=
  match n with
  | O => ret ERR_NOMEM
  | S n' =>
      let! ob := get_slot o i in
      match o_ev ob with
      | Some _ => observer_take o e b is_event n' (i + 1)
      | None =>
          put_slot o i (mkObserver (Some e) (w8 b) is_event) ;;
          upd_event e (λ x, set_e_ref_count (w32 (e_ref_count x + 1)) x) ;;
          when is_event (upd_event e (λ x, set_e_child_count (w8 (e_child_count x + 1)) x)) ;;
          EventBindBit e b ;;
          ret ZUZU_OK
      end
  end.

Definition ObserverAdd (o : obset) (e b : Z) (is_event : bool) : KM Z :=
  let! done_ := observer_rebind o e b (Z.to_nat MAX_OBSERVERS) 0 in
  if (done_ : bool) then ret ZUZU_OK else
  for_each (Z.to_nat MAX_OBSERVERS) 0 (λ i,
    let! ob := get_slot o i in
    match o_ev ob with
    | None => ret tt
    | Some e' => let! x := event e' in when (negb (e_alive x)) (ObserverRelease evr o i)
    end) ;;
  observer_take o e b is_event (Z.to_nat MAX_OBSERVERS) 0.

Fixpoint observer_empty (l : list Observer) : KM bool :=
  match l with
  | [] => ret true
  | ob :: l' =>
      match o_ev ob with
      | None => observer_empty l'
      | Some e => let! x := event e in if e_alive x then ret false else observer_empty l'
      end
  end.
Definition ObserverEmpty (o : obset) : KM bool := let! l := get_obs o in observer_empty l.

(** ** The interrupt relay *)

Definition irq_owner (irq : Z) : KM IrqOwner := gets (λ s, aget (irq_owners s) irq).
Definition upd_irq (irq : Z) (f : IrqOwner → IrqOwner) : KM unit :=
  modify (λ s, set_irq_owners (aset (irq_owners s) irq (f (aget (irq_owners s) irq))) s).
Definition ArchIrqMaskLine (irq : Z) : KM unit := modify (λ s, set_irq_unmasked (aset (irq_unmasked s) irq false) s).
Definition ArchIrqUnmaskLine (irq : Z) : KM unit := modify (λ s, set_irq_unmasked (aset (irq_unmasked s) irq true) s).

Definition RelayIrqHandler (irq : Z) : KM unit :=
  ArchIrqMaskLine irq ;;
  upd_irq irq (set_iq_pending true) ;;
  let! o := irq_owner irq in
  match iq_bound_ev o with
  | None => ret tt
  | Some e =>
      let! x := event e in
      if e_alive x then
        EventSignal e (bit (iq_bit o)) false ;;
        upd_irq irq (set_iq_pending false)
      else
        upd_irq irq (set_iq_bound_ev None) ;;
        EventUnbindBit e (iq_bit o) ;;
        EventUnref e
  end.

Definition IrqBindToEvent (owner irq e b : Z) : KM Z :=
  let! o := irq_owner irq in
  if bool_decide (is_Some (iq_owner o)) && negb (bool_decide (iq_owner o = Some owner)) then ret ERR_BUSY else
  let! x := event e in
  if negb (e_alive x) then ret ERR_DEAD else
  when (bool_decide (iq_owner o = None)) (upd_irq irq (λ _, mkIrq (Some owner) false None b)) ;;
  let! o := irq_owner irq in
  match iq_bound_ev o with
  | Some old => EventUnbindBit old (iq_bit o) ;; EventUnref old
  | None => ret tt
  end ;;
  upd_irq irq (set_iq_bit b) ;;
  upd_irq irq (set_iq_bound_ev (Some e)) ;;
  upd_event e (λ x, set_e_ref_count (w32 (e_ref_count x + 1)) x) ;;
  EventBindBit e b ;;
  let! o := irq_owner irq in
  when (iq_pending o) (EventSignal e (bit (iq_bit o)) false ;; upd_irq irq (set_iq_pending false)) ;;
  ArchIrqUnmaskLine irq ;;
  ret ZUZU_OK.

Definition IrqRelease (max_irqs owner irq : Z) : KM unit :=
  let! o := irq_owner irq in
  if (max_irqs <=? irq) || negb (bool_decide (iq_owner o = Some owner)) then ret tt else
  match iq_bound_ev o with
  | Some e => EventUnbindBit e (iq_bit o) ;; EventUnref e
  | None => ret tt
  end ;;
  upd_irq irq (λ _, no_irq) ;;
  ArchIrqMaskLine irq.

Definition IrqReleaseAll (max_irqs owner : Z) : KM unit :=
  for_each (Z.to_nat max_irqs) 0 (IrqRelease max_irqs owner).

Definition IrqRelayRearm (max_irqs owner irq : Z) : KM Z :=
  if max_irqs <=? irq then ret ERR_BADARG else
  let! o := irq_owner irq in
  if negb (bool_decide (iq_owner o = Some owner)) then ret ERR_NOPERM else
  ArchIrqUnmaskLine irq ;; ret ZUZU_OK.

(** ** Binding events *)

(** The EVENT_EVENT case of [SvcBind] (svc_bind.c) once the handles are resolved: the
    two-layer rule is enforced here. *)
Definition bind_event (child ev b : Z) : KM Z :=
  if negb (b <? 31) then ret ERR_BADARG else
  let! cx := event child in
  if negb (e_alive cx) then ret ERR_DEAD else
  if child =? ev then ret ERR_BADARG else
  if negb (e_child_count cx =? 0) then ret ERR_BADARG else
  let! empty := ObserverEmpty (ObEvent ev) in
  if negb empty then ret ERR_BADARG else
  let! rc := ObserverAdd (ObEvent child) ev b true in
  let! cx := event child in
  when ((rc =? ZUZU_OK) && truthy (e_word cx)) (EventSignal ev (bit b) false) ;;
  ret rc.
End event.
