(* ===== verification/Msg.v ===== *)
(** kernel/ipc/port.c and kernel/ipc/msg.c: ports, message transfer, calls, replies and
    held calls, up to the point where the caller blocks or a receiver is switched to.

    [Schedule] and [SchedBlockOn] are in Wheel.v; the functions here that end in one of
    them are split there. *)
From S2P Require Import Prelude Bitmap Handle KState Sched Task Event.

#[local] Open Scope Z_scope.

Definition TICKET_PACK (index slot gen : Z) : Z :=
  Z.lor (Z.lor (w32 (Z.shiftl gen 16)) (w32 (Z.shiftl slot 10))) (Z.land index HANDLE_INDEX_MASK).
Definition TICKET_INDEX (t : Z) : Z := Z.land t HANDLE_INDEX_MASK.
Definition TICKET_SLOT (t : Z) : Z := Z.land (Z.shiftr t 10) 63.
Definition TICKET_GEN (t : Z) : Z := Z.land (Z.shiftr t 16) 32767.

Definition no_held : HeldCall := mkHeld None 0 0.
#[global] Instance HeldCall_inhabited : Inhabited HeldCall := populate no_held.

Section msg.
Context `{Timer}.

(** * Ports *)

Definition PortCreate (spid : Z) : KM Z :=
  let! p := kmem_alloc in
  if p =? 0 then ret 0 else
  modify (λ s, set_l_node (lk_init (SenderQ p) (l_node s)) s) ;;
  modify (λ s, set_l_wait (lk_init (PortReceivers p) (l_wait s)) s) ;;
  modify (λ s, set_l_serve (lk_init p (l_serve s)) s) ;;
  modify (λ s, set_ports (<[p := mkPort spid 1 true ObserverInit None]> (ports s)) s) ;;
  ret p.

(** Emptying the sender queue and the server list from the front. *)
Fixpoint drain_senders (n : nat) (p : Z) (f : Z → KM unit) : KM unit :=
  let! xs := gets (λ s, lq (l_node s) (SenderQ p)) in
  match xs with
  | [] => ret tt
  | t :: _ =>
      match n with
      | O => diverge
      | S n' => node_op (lk_remove t) ;; f t ;; drain_senders n' p f
      end
  end.
Fixpoint drain_servers (n : nat) (p : Z) (f : Z → KM unit) : KM unit :=
  let! xs := gets (λ s, lq (l_serve s) p) in
  match xs with
  | [] => ret tt
  | t :: _ =>
      match n with
      | O => diverge
      | S n' => serve_op (lk_remove t) ;; f t ;; drain_servers n' p f
      end
  end.

Definition abort_held (p : Z) (i : Z) : KM unit :=
  let! px := port p in
  match p_held px with
  | None => panic
  | Some hs =>
      match h_caller (aget hs i) with
      | None => ret tt
      | Some c =>
          clear_held p i ;;
          upd_task c (set_t_held_port None) ;;
          TaskAbortWait c ERR_DEAD
      end
  end.

Definition PortKill (p : Z) : KM unit :=
  let! px := port p in
  if negb (p_alive px) then ret tt else
  upd_port p (set_p_alive false) ;;
  let! xs := gets (λ s, lq (l_node s) (SenderQ p)) in
  drain_senders (length xs) p (λ t, TaskAbortWait t ERR_DEAD) ;;
  drain_waitq (PortReceivers p) (λ t, TaskAbortWait t ERR_DEAD) ;;
  let! xs := gets (λ s, lq (l_serve s) p) in
  drain_servers (length xs) p (λ t, upd_task t (set_t_serving_port None) ;; TaskRecomputePriority t) ;;
  let! px := port p in
  (if bool_decide (is_Some (p_held px)) then for_each (Z.to_nat PORT_HELD_SLOTS) 0 (abort_held p) else ret tt) ;;
  ObserverNotify evr (ObPort p).

Definition PortUnref (p : Z) : KM unit :=
  let! px := port p in
  when (0 <? p_ref_count px) (upd_port p (λ px, set_p_ref_count (p_ref_count px - 1) px)) ;;
  let! px := port p in
  if 0 <? p_ref_count px then ret tt else
  PortKill p ;;
  ObserverClear evr (ObPort p) ;;
  modify (λ s, set_ports (delete p (ports s)) s).

Definition PortHasPending (p : Z) : KM bool :=
  gets (λ s, negb (bool_decide (lq (l_node s) (SenderQ p) = []))).

(** * Messages *)

Fixpoint memcpy_phys (n : nat) (dst src : Z) (m : Z → Z) : Z → Z :=
  match n with
  | O => m
  | S n' => memcpy_phys n' (dst + 1) (src + 1) (fset m dst (m src))
  end.

Definition MsgBufCopy (src dst len : Z) : KM unit :=
  let! sx := task src in
  let! dx := task dst in
  if negb (truthy len) || negb (truthy (t_msg_buf_phys_addr sx)) || negb (truthy (t_msg_buf_phys_addr dx)) then ret tt else
  if MSG_BUF_SIZE <? len then ret tt else
  modify (λ s, set_phys (memcpy_phys (Z.to_nat len) (t_msg_buf_phys_addr dx) (t_msg_buf_phys_addr sx) (phys s)) s).

(** [ValidateCallPort]: the entry, or NULL with the error in the caller's frame. *)
Definition ValidateCallPort (sp handle cur : Z) : KM (option HandleTableEntry) :=
  let! spx := space sp in
  match HandleTableLookup (s_handle_table spx) handle with
  | None => set_reg cur 0 ERR_BADHANDLE ;; ret None
  | Some e =>
      if negb (truthy (Z.land (perms e) PERM_SEND)) then set_reg cur 0 ERR_NOPERM ;; ret None else
      if negb (bool_decide (type_ e = HANDLE_PORT)) then set_reg cur 0 ERR_BADTYPE ;; ret None else
      if obj e =? 0 then set_reg cur 0 ERR_BADHANDLE ;; ret None else
      let! px := port (obj e) in
      if negb (p_alive px) then set_reg cur 0 ERR_DEAD ;; ret None else ret (Some e)
  end.

Definition ValidateGrantHandle (from h : Z) : KM Z :=
  if h =? -1 then ret ZUZU_OK else
  let! spx := space from in
  match HandleTableLookup (s_handle_table spx) h with
  | None => ret ERR_BADHANDLE
  | Some e => if negb (truthy (Z.land (perms e) PERM_TXFR)) then ret ERR_NOPERM else ret ZUZU_OK
  end.

(** Taking a reference on the object of a handle: the switch of [HandleCopyInto]. *)
Definition ObjRef (ty : HandleType) (o : Z) : KM unit :=
  match ty with
  | HANDLE_PORT => upd_port o (λ x, set_p_ref_count (w32 (p_ref_count x + 1)) x)
  | HANDLE_EVENT => upd_event o (λ x, set_e_ref_count (w32 (e_ref_count x + 1)) x)
  | HANDLE_MEM => upd_mem o (λ x, set_m_ref_count (w32 (m_ref_count x + 1)) x)
  | HANDLE_TASK => TaskRef o
  | HANDLE_SPACE => upd_space o (λ x, set_s_ref_count (w32 (s_ref_count x + 1)) x)
  | HANDLE_FREE => ret tt
  end.

Definition AllocateGrantSlot (from to h : Z) : KM (Z * Z) :=
  if h =? -1 then ret (ZUZU_OK, -1) else
  let! fx := space from in
  match HandleTableLookup (s_handle_table fx) h with
  | None => ret (ERR_BADHANDLE, -1)
  | Some e =>
      if negb (truthy (Z.land (perms e) PERM_TXFR)) then ret (ERR_NOPERM, -1) else
      let! tx := space to in
      let! r := HandleCopyInto (λ _, kmem_alloc) ObjRef (s_handle_table tx) e (perms e) (marker e) in
      let '(err, out, t') := r in
      upd_space to (set_s_handle_table t') ;;
      ret (err, if err =? ZUZU_OK then out else -1)
  end.

Definition GrantHandleAcross (from to h : Z) : KM (Z * Z) :=
  let! err := ValidateGrantHandle from h in
  if negb (err =? ZUZU_OK) then ret (err, -1) else AllocateGrantSlot from to h.

Definition CallArmTimeout (caller timeout : Z) : KM unit :=
  if timeout =? TIMEOUT_INFINITE then upd_task caller (set_t_wake_deadline 0) else
  let! d := ArchDeadlineFromMs timeout in
  upd_task caller (set_t_wake_deadline d) ;;
  SchedInsertSleepQueue caller.

(** [CallBlockAsSender] up to the final [Schedule()]. *)
Definition call_enqueue (caller p rc xlen grant timeout : Z) : KM unit :=
  upd_task caller (λ x, set_t_pending_grant_handle grant (set_t_msg_xfer_len xlen
    (set_t_pending_reply_cap (Some rc) (set_t_blocked_port (Some p) (set_t_ipc_state IPC_WAITING x))))) ;;
  SchedWaitQueueAddTask (SenderQ p) caller ;;
  upd_task caller (set_t_state TASK_STATE_BLOCKED) ;;
  CallArmTimeout caller timeout ;;
  PortBoostServers p ;;
  let! pend := PortHasPending p in
  when pend (ObserverNotify evr (ObPort p)).

Definition DeliverCallToReceiver (caller rx rc xlen granted : Z) : KM unit :=
  let! cx := task caller in
  set_reg rx 0 0 ;;
  set_reg rx 1 (t_port_marker cx) ;;
  set_reg rx 2 xlen ;;
  set_reg rx 3 granted ;;
  when (truthy xlen) (MsgBufCopy caller rx xlen) ;;
  upd_task rx (set_t_serving_port (t_blocked_port cx)) ;;
  match t_blocked_port cx with
  | None => panic
  | Some p => serve_op (lk_add_tail rx p)
  end ;;
  upd_task rx (set_t_reply_cap (Some rc)) ;;
  upd_task caller (set_t_reply_holder (Some rx)) ;;
  TaskRecomputePriority rx.

(** The fields a finished call resets, shared by the two reply functions. *)
Definition call_done (x : TaskObject) : TaskObject :=
  set_t_state TASK_STATE_READY (set_t_reply_holder None (set_t_pending_reply_cap None
    (set_t_blocked_port None (set_t_ipc_state IPC_NONE (set_t_wake_deadline 0 x))))).

Definition ReplyDeliverToCaller (cur target xlen granted : Z) : KM unit :=
  set_reg target 0 ZUZU_OK ;;
  set_reg target 1 xlen ;;
  set_reg target 3 granted ;;
  when (truthy xlen) (MsgBufCopy cur target xlen) ;;
  SchedRemoveSleepQueue target ;;
  upd_task target call_done ;;
  SchedAdd target.

Definition ReplyFailCaller (target err : Z) : KM unit :=
  set_reg target 0 err ;;
  set_reg target 1 0 ;;
  set_reg target 3 (-1) ;;
  SchedRemoveSleepQueue target ;;
  upd_task target call_done ;;
  SchedAdd target.

(** * Held calls *)

(** The first free slot of the held table, or PORT_HELD_SLOTS. *)
Fixpoint free_slot (hs : list HeldCall) (n : nat) (slot : Z) : Z :=
  match n with
  | O => slot
  | S n' => match h_caller (aget hs slot) with Some _ => free_slot hs n' (slot + 1) | None => slot end
  end.

(** Returns the error code and the ticket. *)
Definition PortHoldCurrent (server : Z) : KM (Z * Z) :=
  let! sx := task server in
  match t_reply_cap sx, t_serving_port sx with
  | Some rco, Some p =>
      let! ro := task rco in
      let rc := t_reply_cap_storage ro in
      let! caller_ok := match rc_caller_task rc with
        | None => ret None
        | Some c =>
            let! cx := task c in
            ret (if (t_tid cx =? rc_caller_tid rc) && bool_decide (t_ipc_state cx = IPC_WAITING) then Some c else None)
        end in
      match caller_ok with
      | None => TaskClearReplyCap server ;; ret (ERR_DEAD, 0)
      | Some caller =>
          let! px := port p in
          let! hs := match p_held px with
            | Some hs => ret (Some hs)
            | None =>
                let! a := kmem_alloc in
                if a =? 0 then ret None else
                let hs := replicate (Z.to_nat PORT_HELD_SLOTS) no_held in
                upd_port p (set_p_held (Some hs)) ;; ret (Some hs)
            end in
          match hs with
          | None => ret (ERR_NOMEM, 0)
          | Some hs =>
              let slot := free_slot hs (Z.to_nat PORT_HELD_SLOTS) 0 in
              if slot =? PORT_HELD_SLOTS then ret (ERR_NOMEM, 0) else
              let gen := Z.land (h_gen (aget hs slot) + 1) 32767 in
              let gen := if truthy gen then gen else 1 in
              let! cx := task caller in
              upd_port p (set_p_held (Some (aset hs slot (mkHeld (Some caller) (t_tid cx) gen)))) ;;
              upd_task caller (λ x, set_t_held_slot (w8 slot) (set_t_held_port (Some p) (set_t_reply_holder None x))) ;;
              let! sx := task server in
              let out := TICKET_PACK (HANDLE_INDEX (t_serving_handle sx)) slot gen in
              TaskClearReplyCap server ;;
              ret (ZUZU_OK, out)
          end
      end
  | _, _ => ret (ERR_BADARG, 0)
  end.

(** The caller, or the error code. *)
Definition PortTakeHeld (server ticket : Z) : KM (Z + Z) :=
  let! sx := task server in
  match t_owner sx with
  | None => panic
  | Some o =>
      let! spx := space o in
      match HandleTableGet (s_handle_table spx) (TICKET_INDEX ticket) with
      | None => ret (inr ERR_BADHANDLE)
      | Some e =>
          if negb (bool_decide (type_ e = HANDLE_PORT)) || (obj e =? 0) then ret (inr ERR_BADHANDLE) else
          if negb (truthy (Z.land (perms e) PERM_WAIT)) then ret (inr ERR_NOPERM) else
          let p := obj e in
          let! px := port p in
          match p_held px with
          | None => ret (inr ERR_NOENT)
          | Some hs =>
              let h := aget hs (TICKET_SLOT ticket) in
              match h_caller h with
              | None => ret (inr ERR_NOENT)
              | Some caller =>
                  if negb (h_gen h =? TICKET_GEN ticket) then ret (inr ERR_NOENT) else
                  let! cx := task caller in
                  if negb (t_tid cx =? h_caller_tid h) || negb (bool_decide (t_ipc_state cx = IPC_WAITING))
                  then ret (inr ERR_NOENT) else
                  clear_held p (TICKET_SLOT ticket) ;;
                  upd_task caller (set_t_held_port None) ;;
                  ret (inl caller)
              end
          end
      end
  end.
End msg.
