(* ===== verification/MemObj.v ===== *)
(** kernel/mm/mem_object.c: memory objects, their reference counts and DMA mappings.

    [MemObjUnref] recurses from a device to the shared memory it maps for DMA, which is
    one level; the frames it gives back are recorded in [pmm_frees] and the cache
    maintenance in [cache_ops] (true: clean and invalidate, false: invalidate).  Giving
    the array of page addresses and the mapping nodes back to the heap changes nothing
    the model keeps.  [MemObjUnmapAndDrop] needs the address space and is in [UserMap]. *)
From S2P Require Import Prelude Bitmap Handle KState Sched.

#[local] Open Scope Z_scope.

Definition MEM_CONTIG : Z := 1.
Definition MEM_UNCACHED : Z := 2.
Definition DMA_TO_DEVICE : Z := 1.
Definition DMA_FROM_DEVICE : Z := 2.
Definition DMA_BIDIRECTIONAL : Z := 3.
Definition DMA_SYNC_FOR_DEVICE : Z := 0.
Definition DMA_SYNC_FOR_CPU : Z := 1.
Definition DMA_ALIGN : Z := 64.
Definition DMA_MAX_MAPPINGS : Z := 256.
Definition UINTPTR_MAX : Z := 2 ^ 32 - 1.

Definition MemObjCreateDevice (phys_base size irq : Z) : KM Z :=
  let! m := kmem_alloc in
  if m =? 0 then ret 0 else
  modify (λ s, set_mems (<[m := mkMem MEMKIND_DEVICE 1 false phys_base size irq UINTPTR_MAX 0 [] 1 0 [] 0 0 (-1)]> (mems s)) s) ;;
  ret m.

Definition MemObjCreateShm (page_addrs : list Z) (page_count flags : Z) : KM Z :=
  let! m := kmem_alloc in
  if m =? 0 then ret 0 else
  modify (λ s, set_mems (<[m := mkMem MEMKIND_SHARED 1 false 0 0 0 0 0 [] 0 0 page_addrs page_count flags (-1)]> (mems s)) s) ;;
  ret m.

Definition MemObjRef (m : Z) : KM unit :=
  if m =? 0 then ret tt else upd_mem m (λ x, set_m_ref_count (w32 (m_ref_count x + 1)) x).

Definition PmmFreeFrame_k (pa : Z) : KM unit := modify (λ s, set_pmm_frees (pa :: pmm_frees s) s).

Fixpoint for_list {A} (xs : list A) (f : A → KM unit) : KM unit :=
  match xs with [] => ret tt | x :: xs' => f x ;; for_list xs' f end.

Fixpoint MemObjUnref_ (depth : nat) (m : Z) : KM unit :=
  match depth with
  | O => diverge
  | S d =>
      if m =? 0 then ret tt else
      let! x := mem m in
      when (0 <? m_ref_count x) (upd_mem m (λ x, set_m_ref_count (m_ref_count x - 1) x)) ;;
      let! x := mem m in
      when (m_ref_count x =? 0)
        (when (bool_decide (m_kind x = MEMKIND_SHARED))
           (for_each (Z.to_nat (m_page_count x)) 0 (λ i,
              when (negb (aget (m_page_addrs x) i =? 0)) (PmmFreeFrame_k (aget (m_page_addrs x) i)))) ;;
         when (bool_decide (m_kind x = MEMKIND_DEVICE))
           (for_list (m_dma_maps x) (λ d', MemObjUnref_ d (dm_mem d'))) ;;
         modify (λ s, set_mems (delete m (mems s)) s))
  end.
Definition MemObjUnref (m : Z) : KM unit := MemObjUnref_ 2 m.

Definition cache_op (clean : bool) (pa len : Z) : KM unit :=
  modify (λ s, set_cache_ops ((clean, pa, len) :: cache_ops s) s).
Definition is_uncached (x : MemObject) : bool := truthy (Z.land (m_flags x) MEM_UNCACHED).

(** The checks of [MemObjDmaMap]: an error code, or the bus address. *)
Definition dma_check (dx mx : MemObject) (offset len dir : Z) : Z + Z :=
  if negb (bool_decide (m_kind dx = MEMKIND_DEVICE)) then inl ERR_BADTYPE else
  if negb (bool_decide (m_kind mx = MEMKIND_SHARED) && truthy (Z.land (m_flags mx) MEM_CONTIG)) then inl ERR_BADTYPE else
  if negb ((dir =? DMA_FROM_DEVICE) || (dir =? DMA_TO_DEVICE) || (dir =? DMA_BIDIRECTIONAL)) then inl ERR_BADARG else
  if negb (0 <? len) then inl ERR_BADARG else
  if negb (negb (truthy (Z.land offset (PAGE_SIZE - 1))) && negb (truthy (Z.land len (PAGE_SIZE - 1)))) then inl ERR_BADARG else
  let size := w32 (m_page_count mx * PAGE_SIZE) in
  if negb ((offset <? size) && (len <=? size - offset)) then inl ERR_BADARG else
  let phys := w32 (aget (m_page_addrs mx) 0 + offset) in
  let bus := w32 (phys + m_bus_offset dx) in
  if negb ((len - 1 <=? m_dma_limit dx) && (bus <=? m_dma_limit dx - (len - 1))) then inl ERR_BADARG else
  if negb (m_dma_map_count dx <? DMA_MAX_MAPPINGS) then inl ERR_NOMEM else inr bus.

(** Recording an admitted mapping; returns its id. *)
Definition dma_record (dev m offset len dir bus : Z) : KM Z :=
  let! dx := mem dev in
  let id := m_dma_next_id dx in
  let next := w32 (m_dma_next_id dx + 1) in
  upd_mem dev (set_m_dma_next_id (if next =? 0 then 1 else next)) ;;
  MemObjRef m ;;
  upd_mem dev (λ x, set_m_dma_map_count (w32 (m_dma_map_count x + 1))
    (set_m_dma_maps (mkDma id m offset len dir bus :: m_dma_maps x) x)) ;;
  ret id.

(** Returns the error code, the bus address and the mapping's id. *)
Definition MemObjDmaMap (dev m offset len dir : Z) : KM (Z * Z * Z) :=
  let! dx := mem dev in
  let! mx := mem m in
  match dma_check dx mx offset len dir with
  | inl err => ret (err, 0, 0)
  | inr bus =>
      when (negb (is_uncached mx)) (cache_op true (w32 (aget (m_page_addrs mx) 0 + offset)) len) ;;
      let! a := kmem_alloc in
      if a =? 0 then ret (ERR_NOMEM, 0, 0) else
      let! id := dma_record dev m offset len dir bus in
      ret (ZUZU_OK, bus, id)
  end.

(** The first mapping of [id] and the list without it. *)
Fixpoint dma_take (id : Z) (l : list DmaMapping) : option (DmaMapping * list DmaMapping) :=
  match l with
  | [] => None
  | d :: l' =>
      if dm_id d =? id then Some (d, l')
      else match dma_take id l' with Some (d', r) => Some (d', d :: r) | None => None end
  end.

Definition MemObjDmaUnmap (dev id : Z) : KM Z :=
  let! dx := mem dev in
  if negb (bool_decide (m_kind dx = MEMKIND_DEVICE)) then ret ERR_BADTYPE else
  match dma_take id (m_dma_maps dx) with
  | None => ret ERR_NOENT
  | Some (d, rest) =>
      let! mx := mem (dm_mem d) in
      when (truthy (Z.land (dm_dir d) DMA_FROM_DEVICE) && negb (is_uncached mx))
        (cache_op false (w32 (aget (m_page_addrs mx) 0 + dm_offset d)) (dm_len d)) ;;
      upd_mem dev (λ x, set_m_dma_map_count (w32 (m_dma_map_count x - 1)) (set_m_dma_maps rest x)) ;;
      MemObjUnref (dm_mem d) ;;
      ret ZUZU_OK
  end.

(** Whether a mapping covers the bus range. *)
Definition dma_covers (bus len : Z) (d : DmaMapping) : bool :=
  negb ((dm_len d <? len) || (bus <? dm_bus_addr d) || (dm_len d - len <? bus - dm_bus_addr d)).

Definition MemObjDmaSync (dev bus len op : Z) : KM Z :=
  let! dx := mem dev in
  if negb (bool_decide (m_kind dx = MEMKIND_DEVICE)) then ret ERR_BADTYPE else
  if negb (op <=? DMA_SYNC_FOR_CPU) then ret ERR_BADARG else
  if negb ((0 <? len) && negb (truthy (Z.land bus (DMA_ALIGN - 1))) && negb (truthy (Z.land len (DMA_ALIGN - 1)))) then ret ERR_BADARG else
  match List.find (dma_covers bus len) (m_dma_maps dx) with
  | None => ret ERR_NOENT
  | Some d =>
      let! mx := mem (dm_mem d) in
      if is_uncached mx then ret ZUZU_OK else
      let phys := w32 (aget (m_page_addrs mx) 0 + dm_offset d + (bus - dm_bus_addr d)) in
      (if op =? DMA_SYNC_FOR_DEVICE then cache_op true phys len
       else when (truthy (Z.land (dm_dir d) DMA_FROM_DEVICE)) (cache_op false phys len)) ;;
      ret ZUZU_OK
  end.

Definition MemObjDmaNth (x : MemObject) (index : Z) : option DmaMapping :=
  if negb (bool_decide (m_kind x = MEMKIND_DEVICE)) then None else m_dma_maps x !! Z.to_nat index.
Definition MemObjDmaFind (x : MemObject) (id : Z) : option DmaMapping :=
  if negb (bool_decide (m_kind x = MEMKIND_DEVICE)) then None
  else List.find (λ d, dm_id d =? id) (m_dma_maps x).

(** * DMA mappings *)

Implicit Types (s : kst) (dev m : Z).

Lemma wp_mem a s Q : (∃ x, mems s !! a = Some x ∧ Q x s) → wp (mem a) Q s.
Proof. intros (x & Hx & HQ). unfold mem, deref. wp_steps. by rewrite Hx. Qed.
Lemma wp_upd_mem a f s Q :
  (∃ x, mems s !! a = Some x ∧ Q tt (set_mems (<[a := f x]> (mems s)) s)) → wp (upd_mem a f) Q s.
Proof. intros (x & Hx & HQ). unfold upd_mem. wp_step. apply wp_mem. exists x. split; [done|]. by wp_step. Qed.

(** What a successful mapping of [m] for the device [dev] has to satisfy. *)
Definition dma_admissible (dx mx : MemObject) (offset len dir bus : Z) : Prop :=
  m_kind dx = MEMKIND_DEVICE ∧ m_kind mx = MEMKIND_SHARED ∧ 0 < len ∧
  offset mod PAGE_SIZE = 0 ∧ len mod PAGE_SIZE = 0 ∧
  offset + len ≤ m_page_count mx * PAGE_SIZE ∧
  bus = w32 (w32 (aget (m_page_addrs mx) 0 + offset) + m_bus_offset dx) ∧
  bus + (len - 1) ≤ m_dma_limit dx.

Lemma page_aligned z : truthy (Z.land z (PAGE_SIZE - 1)) = false → z mod PAGE_SIZE = 0.
Proof.
  change (PAGE_SIZE - 1) with (Z.ones 12). rewrite Z.land_ones by lia. unfold truthy.
  by intros ?%negb_false_iff%Z.eqb_eq.
Qed.

(** The state after [MemObjDmaMap] recorded the mapping [d] of the device [dev]. *)
Definition dma_mapped (dev : Z) (dx : MemObject) (d : DmaMapping) (mx : MemObject) (ms : gmap Z MemObject) : gmap Z MemObject :=
  let next := w32 (m_dma_next_id dx + 1) in
  let dx1 := set_m_dma_next_id (if next =? 0 then 1 else next) dx in
  <[dev := set_m_dma_map_count (w32 (m_dma_map_count dx1 + 1)) (set_m_dma_maps (d :: m_dma_maps dx1) dx1)]>
    (<[dm_mem d := set_m_ref_count (w32 (m_ref_count mx + 1)) mx]> (<[dev := dx1]> ms)).

Lemma dma_check_ok dx mx offset len dir bus :
  0 ≤ offset → 0 ≤ m_page_count mx < 2 ^ 20 →
  dma_check dx mx offset len dir = inr bus → dma_admissible dx mx offset len dir bus.
Proof.
  intros Ho Hpc. unfold dma_check. rewrite (w32_small (_ * _)) by (unfold PAGE_SIZE; lia).
  repeat (let E := fresh "E" in case_if E; [done|]). intros [= <-].
  repeat match goal with H : bool_decide _ = true |- _ => apply bool_decide_eq_true in H end.
  split_and!; try done; try lia; by apply page_aligned.
Qed.

Lemma wp_dma_record s dev m dx mx offset len dir bus :
  mems s !! dev = Some dx → mems s !! m = Some mx → dev ≠ m → m ≠ 0 →
  wp (dma_record dev m offset len dir bus) (λ id s', id = m_dma_next_id dx ∧
    mems s' = dma_mapped dev dx (mkDma id m offset len dir bus) mx (mems s)) s.
Proof.
  intros Hd Hm Hne Hm0. unfold dma_record, MemObjRef. rewrite (proj2 (Z.eqb_neq m 0)) by done. wp_step. apply wp_mem. exists dx. split; [done|]. wp_step.
  apply wp_upd_mem. exists dx. split; [done|]. wp_step. apply wp_upd_mem. exists mx. simpl.
  split; [by rewrite lookup_insert_ne|]. wp_step. apply wp_upd_mem. simpl. eexists.
  split; [rewrite lookup_insert_ne by done; by rewrite lookup_insert_eq|]. by wp_step.
Qed.

Lemma wp_kmem_alloc s Q : (∀ a km, Q a (set_kmem km s)) → wp kmem_alloc Q s.
Proof.
  intros HQ. unfold kmem_alloc. wp_steps. destruct (kmem s) as [|a m] eqn:E; wp_steps; [|apply HQ].
  specialize (HQ 0 (kmem s)). by destruct s.
Qed.

(** [MemObjDmaMap] succeeds only for a page-aligned range inside the contiguous
    memory whose bus addresses the device can reach; it then takes a reference on the
    memory and records the mapping under a fresh id, so that [MemObjDmaUnmap] of that
    id removes it again, with the device's other mappings and the memory's reference
    count as before.  A refused mapping changes no object. *)
Theorem MemObjDmaMap_unmap s dev m dx mx offset len dir :
  mems s !! dev = Some dx → mems s !! m = Some mx → dev ≠ m → m ≠ 0 →
  0 ≤ offset → 0 ≤ m_page_count mx < 2 ^ 20 → 0 < m_ref_count mx < 2 ^ 32 - 1 →
  0 ≤ m_dma_map_count dx < 2 ^ 32 - 1 →
  wp (MemObjDmaMap dev m offset len dir) (λ r s1,
    let '(err, bus, id) := r in
    if decide (err = ZUZU_OK) then
      dma_admissible dx mx offset len dir bus ∧
      wp (MemObjDmaUnmap dev id) (λ err' s2, err' = ZUZU_OK ∧
        mems s2 !! m = Some mx ∧
        ∃ dx', mems s2 !! dev = Some dx' ∧ m_dma_maps dx' = m_dma_maps dx ∧ m_dma_map_count dx' = m_dma_map_count dx) s1
    else mems s1 = mems s) s.
Proof.
  intros Hd Hm Hne Hm0 Ho Hpc Hrc Hcnt. unfold MemObjDmaMap. wp_step. apply wp_mem. exists dx. split; [done|].
  wp_step. apply wp_mem. exists mx. split; [done|].
  destruct (dma_check dx mx offset len dir) as [err|bus] eqn:Ec.
  { wp_step. rewrite decide_False; [done|]. intros ->. unfold dma_check in Ec. by repeat case_match. }
  pose proof (dma_check_ok _ _ _ _ _ _ Ho Hpc Ec) as Hadm. wp_step.
  eapply (wp_mono _ (λ _ s1, mems s1 = mems s)); [unfold cache_op; apply wp_when; intros _; [by wp_step|done]|].
  intros [] s1 Hs1. wp_step. apply wp_kmem_alloc. intros a km. apply wp_if; intros _; [by wp_step|]. wp_step.
  eapply wp_mono; [apply (wp_dma_record _ dev m dx mx); simpl; rewrite ?Hs1; done|].
  intros id s2 [-> Hs2]. wp_step. rewrite decide_True by done. split; [done|].
  change (mems (set_kmem km s1)) with (mems s1) in Hs2. rewrite Hs1 in Hs2. unfold dma_mapped in Hs2. simpl in Hs2.
  unfold MemObjDmaUnmap. wp_step. apply wp_mem. rewrite Hs2. eexists. split; [by rewrite lookup_insert_eq|]. simpl.
  destruct Hadm as (Hk & _). rewrite bool_decide_true by done. simpl. rewrite Z.eqb_refl. wp_step. simpl.
  apply wp_mem. eexists. split; [rewrite Hs2, lookup_insert_ne by done; by rewrite lookup_insert_eq|]. wp_step.
  eapply (wp_mono _ (λ _ s3, mems s3 = mems s2)); [unfold cache_op; apply wp_when; intros _; [by wp_step|done]|].
  intros [] s3 Hs3. wp_step. apply wp_upd_mem. rewrite Hs3, Hs2. eexists. split; [by rewrite lookup_insert_eq|].
  unfold MemObjUnref. wp_step. cbn [MemObjUnref_ dm_mem]. rewrite (proj2 (Z.eqb_neq m 0)) by done. wp_step. apply wp_mem. simpl.
  eexists. split; [rewrite !lookup_insert_ne by done; by rewrite lookup_insert_eq|]. simpl.
  rewrite (w32_small (m_ref_count mx + 1)) by lia. wp_step.
  apply wp_when; [intros _|intros ?%Z.ltb_ge; lia]. apply wp_upd_mem. simpl.
  eexists. split; [rewrite !lookup_insert_ne by done; by rewrite lookup_insert_eq|].
  wp_step. apply wp_mem. simpl. eexists. split; [by rewrite lookup_insert_eq|]. simpl.
  apply wp_when; [intros ?%Z.eqb_eq; lia|]. intros _. wp_step. split; [done|]. simpl. split.
  - rewrite lookup_insert_eq. f_equal. simpl. rewrite Z.add_simpl_r. by destruct mx.
  - eexists. split; [rewrite lookup_insert_ne by done; by rewrite lookup_insert_eq|]. simpl.
    rewrite (w32_small (_ + 1)) by lia. rewrite w32_small by lia. split; [done|lia].
Qed.

(** A device and a contiguous object of two pages. *)
Module DmaDemo.
Definition uart : MemObject := mkMem MEMKIND_DEVICE 1 false 0x9000000 0x1000 33 UINTPTR_MAX 0 [] 1 0 [] 0 0 (-1).
Definition buffer : MemObject :=
  mkMem MEMKIND_SHARED 1 false 0 0 0 0 0 [] 0 0 [0x40200000; 0x40201000] 2 MEM_CONTIG (-1).
Definition dma_demo : kst := set_kmem [64] (set_mems (<[16 := uart]> (<[32 := buffer]> ∅)) kst0).

Lemma MemObjDmaMap_unmap_witness :
  dma_check uart buffer 0x1000 0x1000 DMA_TO_DEVICE = inr 0x40201000 ∧
  wp (MemObjDmaMap 16 32 0x1000 0x1000 DMA_TO_DEVICE) (λ r s1,
    let '(err, bus, id) := r in
    err = ZUZU_OK → wp (MemObjDmaUnmap 16 id) (λ err' s2, mems s2 !! 32 = Some buffer) s1) dma_demo.
Proof.
  split; [reflexivity|].
  eapply wp_mono; [apply (MemObjDmaMap_unmap dma_demo 16 32 uart buffer 0x1000 0x1000 DMA_TO_DEVICE)|];
    [reflexivity|reflexivity|lia|lia|lia|simpl; lia|simpl; lia|simpl; lia|].
  intros [[err bus] id] s1 Hs1 ->. rewrite decide_True in Hs1 by done. destruct Hs1 as [_ Hu].
  eapply wp_mono; [exact Hu|]. by intros r s2 (_ & ? & _).
Defined.
End DmaDemo.
