(* ===== verification/KInv.v ===== *)
(** The invariant of the object system that makes the scheduler, priority inheritance
    and the withdrawal of calls free of panics: every pointer the code follows leads to
    a live object and every list node is where the task's fields say it is.

    [kinv] is that invariant; [calm] says that a step left the sleep wheel, the set of
    live objects and every task's timeout alone.  One lemma per operation of Sched.v and
    Task.v shows that it returns, keeps [kinv] and is [calm]. *)
From S2P Require Import Prelude Bitmap Handle KState Sched Task.

#[local] Open Scope Z_scope.

(** Where a linked task's fields place its [node]. *)
Definition node_at (s : kst) (x : TaskObject) (q : nodeq) : Prop :=
  match q with
  | RunQ l => 0 ≤ l < SCHED_PRIORITY_LEVELS ∧ t_queued_prio x = l ∧ t_state x = TASK_STATE_READY
  | SenderQ p => is_Some (ports s !! p) ∧ t_blocked_port x = Some p ∧ t_state x = TASK_STATE_BLOCKED ∧
                 t_ipc_state x = IPC_WAITING ∧ t_held_port x = None
  end.

(** The live objects and list memberships a task's fields refer to. *)
Definition task_ok (s : kst) (t : Z) (x : TaskObject) : Prop :=
  0 ≤ t_priority x < SCHED_PRIORITY_LEVELS ∧
  0 ≤ t_base_prio x < SCHED_PRIORITY_LEVELS ∧
  (∀ o, t_owner x = Some o → is_Some (spaces s !! o)) ∧
  (∀ c, t_reply_cap x = Some c → is_Some (tasks s !! c)) ∧
  (∀ c, rc_caller_task (t_reply_cap_storage x) = Some c → is_Some (tasks s !! c)) ∧
  (∀ h, t_reply_holder x = Some h → is_Some (tasks s !! h)) ∧
  (∀ p, t_serving_port x = Some p → lin (l_serve s) t = Some p) ∧
  (∀ p, t_held_port x = Some p → ∃ px hs, ports s !! p = Some px ∧ p_held px = Some hs).

Record kinv (s : kst) : Prop := {
  ki_node : links_ok (l_node s);
  ki_wait : links_ok (l_wait s);
  ki_serve : links_ok (l_serve s);
  ki_mask : 0 ≤ ready_mask s < 2 ^ 32;
  ki_bits level : 0 ≤ level < 32 → Z.testbit (ready_mask s) level = true ↔ run_queue s level ≠ [];
  ki_cur : cur_ok s;
  ki_node_at t q : lin (l_node s) t = Some q → ∃ x, tasks s !! t = Some x ∧ node_at s x q;
  ki_wait_at t q : lin (l_wait s) t = Some q → ∃ x, tasks s !! t = Some x ∧ t_wait_queue x = Some q;
  ki_serve_at t p : lin (l_serve s) t = Some p → ∃ x, tasks s !! t = Some x ∧ t_serving_port x = Some p;
  ki_task t x : tasks s !! t = Some x → task_ok s t x
}.

(** The step left the wheel, the live objects and all timeouts alone. *)
Record calm (s s' : kst) : Prop := {
  c_timeout : l_timeout s' = l_timeout s;
  c_occ : wheel_occ s' = wheel_occ s;
  c_min : wheel_min s' = wheel_min s;
  c_now : wheel_now_slot s' = wheel_now_slot s;
  c_shift : slot_shift s' = slot_shift s;
  c_cur : current_task s' = current_task s;
  c_tick : in_tick s' = in_tick s;
  c_clk : (clk s ≤ clk s')%nat;
  c_events : events s' = events s;
  c_spaces : spaces s' = spaces s;
  c_ports : dom (ports s') = dom (ports s);
  c_tasks t : match tasks s !! t, tasks s' !! t with
              | Some x, Some x' => t_wake_deadline x' = t_wake_deadline x ∧ t_sleep_slot x' = t_sleep_slot x ∧
                                   t_state x' = t_state x ∧ t_regs x' = t_regs x
              | None, None => True
              | _, _ => False
              end
}.

Section kinv.
Context `{Timer}.
Implicit Types (s : kst) (t : Z).

Lemma kinv_rq s : kinv s → rq_inv s.
Proof.
  intros Hk. split_and!; [apply Hk|apply Hk|apply Hk|apply Hk|].
  intros t l Ht. pose proof (run_queue_in s t l (ki_node s Hk) Ht) as Hin.
  destruct (ki_node_at s Hk _ _ Hin) as (x & Hx & Hl & Hq & _). split; [done|]. by exists x.
Qed.

Lemma calm_refl s : calm s s.
Proof. split; try done. intros t. by destruct (tasks s !! t). Qed.
Lemma calm_trans s1 s2 s3 : calm s1 s2 → calm s2 s3 → calm s1 s3.
Proof.
  intros H1 H2. destruct H1, H2. split; try congruence; [lia|].
  intros t. specialize (c_tasks0 t). specialize (c_tasks1 t).
  destruct (tasks s1 !! t), (tasks s2 !! t), (tasks s3 !! t); try done. destruct_and!. split_and!; congruence.
Qed.
Lemma calm_live s s' t : calm s s' → is_Some (tasks s !! t) ↔ is_Some (tasks s' !! t).
Proof.
  intros Hc. pose proof (c_tasks _ _ Hc t) as Ht.
  destruct (tasks s !! t), (tasks s' !! t); try done; by rewrite !is_Some_alt.
Qed.
Lemma calm_port s s' p : calm s s' → is_Some (ports s !! p) ↔ is_Some (ports s' !! p).
Proof. intros Hc. rewrite <- !elem_of_dom, (c_ports _ _ Hc). done. Qed.

Lemma kinv_timer s s' : timer_only s s' → kinv s → kinv s'.
Proof. intros (b & d & n & ->) Hk. destruct Hk. split; done. Qed.
Lemma calm_timer s s' : timer_only s s' → calm s s'.
Proof. intros (b & d & n & ->). split; try done; simpl; [lia|]. intros t. by destruct (tasks s !! t). Qed.

Lemma calm_resched s b : calm s (set_do_resched b s).
Proof. split; try done. intros t. simpl. by destruct (tasks s !! t). Qed.

(** * Updating one task *)

Lemma live_insert s t x x' c : tasks s !! t = Some x → is_Some (<[t := x']> (tasks s) !! c) ↔ is_Some (tasks s !! c).
Proof.
  intros Hx. destruct (decide (c = t)) as [->|Hne]; [by rewrite lookup_insert_eq, Hx, !is_Some_alt|by rewrite lookup_insert_ne].
Qed.

Lemma task_ok_insert s t x x' u y :
  tasks s !! t = Some x → task_ok s u y → task_ok (set_tasks (<[t := x']> (tasks s)) s) u y.
Proof.
  intros Hx (?&?&?&Hc&Hr&Hh&?&?). unfold task_ok. simpl. split_and!; try done; try lia.
  - intros c Hc'. rewrite (live_insert s t x) by done. by apply Hc.
  - intros c Hc'. rewrite (live_insert s t x) by done. by apply Hr.
  - intros c Hc'. rewrite (live_insert s t x) by done. by apply Hh.
Qed.

Lemma kinv_upd s t x x' :
  kinv s → tasks s !! t = Some x → task_ok s t x' →
  (∀ q, lin (l_node s) t = Some q → node_at s x' q) →
  (∀ q, lin (l_wait s) t = Some q → t_wait_queue x' = Some q) →
  (∀ p, lin (l_serve s) t = Some p → t_serving_port x' = Some p) →
  kinv (set_tasks (<[t := x']> (tasks s)) s).
Proof.
  intros Hk Hx Hok Hn Hw Hs. destruct Hk. split; simpl; try done.
  - intros c Hc. simpl in *. rewrite (live_insert s t x) by done. by apply ki_cur0.
  - intros u q Hu. destruct (decide (u = t)) as [->|Hne].
    + exists x'. rewrite lookup_insert_eq. split; [done|]. by apply Hn.
    + rewrite lookup_insert_ne by done. by apply ki_node_at0.
  - intros u q Hu. destruct (decide (u = t)) as [->|Hne].
    + exists x'. rewrite lookup_insert_eq. split; [done|]. by apply Hw.
    + rewrite lookup_insert_ne by done. by apply ki_wait_at0.
  - intros u q Hu. destruct (decide (u = t)) as [->|Hne].
    + exists x'. rewrite lookup_insert_eq. split; [done|]. by apply Hs.
    + rewrite lookup_insert_ne by done. by apply ki_serve_at0.
  - intros u y. destruct (decide (u = t)) as [->|Hne].
    + rewrite lookup_insert_eq. intros [= <-]. by apply (task_ok_insert s t x).
    + rewrite lookup_insert_ne by done. intros Hy. apply (task_ok_insert s t x); [done|by apply ki_task0].
Qed.

(** The fields [kinv] looks at are unchanged. *)
Definition same_refs (x x' : TaskObject) : Prop :=
  t_priority x' = t_priority x ∧ t_base_prio x' = t_base_prio x ∧ t_owner x' = t_owner x ∧
  t_reply_cap x' = t_reply_cap x ∧ t_reply_cap_storage x' = t_reply_cap_storage x ∧
  t_reply_holder x' = t_reply_holder x ∧ t_serving_port x' = t_serving_port x ∧
  t_held_port x' = t_held_port x ∧ t_queued_prio x' = t_queued_prio x ∧ t_state x' = t_state x ∧
  t_blocked_port x' = t_blocked_port x ∧ t_ipc_state x' = t_ipc_state x ∧ t_wait_queue x' = t_wait_queue x.

Lemma kinv_upd_plain s t x x' :
  kinv s → tasks s !! t = Some x → same_refs x x' → kinv (set_tasks (<[t := x']> (tasks s)) s).
Proof.
  intros Hk Hx (E1&E2&E3&E4&E5&E6&E7&E8&E9&E10&E11&E12&E13). apply (kinv_upd s t x); [done..| | | |].
  - pose proof (ki_task s Hk t x Hx) as Hok. unfold task_ok in *. by rewrite E1, E2, E3, E4, E5, E6, E7, E8.
  - intros q Hq. destruct (ki_node_at s Hk t q Hq) as (y & Hy & Hn). assert (y = x) as -> by congruence.
    unfold node_at in *. by rewrite E8, E9, E10, E11, E12.
  - intros q Hq. destruct (ki_wait_at s Hk t q Hq) as (y & Hy & Hn). congruence.
  - intros q Hq. destruct (ki_serve_at s Hk t q Hq) as (y & Hy & Hn). congruence.
Qed.

Lemma calm_upd s t x x' :
  tasks s !! t = Some x → t_wake_deadline x' = t_wake_deadline x → t_sleep_slot x' = t_sleep_slot x →
  t_state x' = t_state x → t_regs x' = t_regs x → calm s (set_tasks (<[t := x']> (tasks s)) s).
Proof.
  intros Hx Hw Hs Hst Hrg. split; try done. intros u. simpl. destruct (decide (u = t)) as [->|].
  - by rewrite lookup_insert_eq, Hx.
  - rewrite lookup_insert_ne by done. by destruct (tasks s !! u).
Qed.

(** * Run queues *)

Lemma kinv_enqueued s t x front b :
  kinv s → tasks s !! t = Some x → t_state x = TASK_STATE_READY → linked (l_node s) t = false →
  kinv (set_do_resched b (enqueued s t x front)).
Proof.
  intros Hk Hx Hst Hl. pose proof (ki_task s Hk t x Hx) as Hok. pose proof Hok as (Hp & _).
  destruct (enqueued_inv s t x front (kinv_rq s Hk) Hx ltac:(lia) Hl) as (Hn & Hm & Hb & Hq).
  apply linked_false in Hl. pose proof (level_of_range (t_priority x) ltac:(lia)) as Hlv.
  set (x' := set_t_queued_prio (w8 (level_of (t_priority x))) x).
  split; try done; try apply Hk.
  - intros c Hc. simpl in *. rewrite (live_insert s t x) by done. by apply (ki_cur s Hk).
  - intros u q. simpl. destruct (decide (u = t)) as [->|Hne].
    + rewrite fset_eq. intros [= <-]. exists x'. rewrite lookup_insert_eq. split; [done|].
      split_and!; [lia..| |done]. simpl. rewrite w8_small; [done|]. unfold SCHED_PRIORITY_LEVELS in *. lia.
    + rewrite fset_ne, lookup_insert_ne by done. apply (ki_node_at s Hk).
  - intros u q Hu. simpl in *. destruct (ki_wait_at s Hk u q Hu) as (y & Hy & Hwq).
    destruct (decide (u = t)) as [->|Hne]; [|by exists y; rewrite lookup_insert_ne].
    exists x'. rewrite lookup_insert_eq. split; [done|]. simpl. congruence.
  - intros u q Hu. simpl in *. destruct (ki_serve_at s Hk u q Hu) as (y & Hy & Hwq).
    destruct (decide (u = t)) as [->|Hne]; [|by exists y; rewrite lookup_insert_ne].
    exists x'. rewrite lookup_insert_eq. split; [done|]. simpl. congruence.
  - intros u y Hy. simpl in Hy. apply (task_ok_insert s t x x' u y Hx).
    destruct (decide (u = t)) as [->|Hne].
    + rewrite lookup_insert_eq in Hy. injection Hy as <-. done.
    + rewrite lookup_insert_ne in Hy by done. by apply (ki_task s Hk).
Qed.

Lemma calm_enqueued s t x front b : tasks s !! t = Some x → calm s (set_do_resched b (enqueued s t x front)).
Proof.
  intros Hx. split; try done. intros u. simpl. destruct (decide (u = t)) as [->|].
  - by rewrite lookup_insert_eq, Hx.
  - rewrite lookup_insert_ne by done. by destruct (tasks s !! u).
Qed.

(** What every step below guarantees. *)
Definition good s s' : Prop := kinv s' ∧ calm s s'.

Lemma good_refl s : kinv s → good s s.
Proof. intros. split; [done|apply calm_refl]. Qed.
Lemma good_trans s1 s2 s3 : good s1 s2 → good s2 s3 → good s1 s3.
Proof. intros [? H1] [? H2]. split; [done|by eapply calm_trans]. Qed.
Lemma good_timer s s' : kinv s → timer_only s s' → good s s'.
Proof. intros. split; [by eapply kinv_timer|by apply calm_timer]. Qed.

(** Queueing work on [t]: only its queue membership, priority and queue fields change. *)
Definition requeued t s s' : Prop :=
  good s s' ∧ l_serve s' = l_serve s ∧ ports s' = ports s ∧
  (∀ u, u ≠ t → tasks s' !! u = tasks s !! u ∧ lin (l_node s') u = lin (l_node s) u) ∧
  (∀ x, tasks s !! t = Some x →
     ∃ a b c, tasks s' !! t = Some (set_t_wait_queue a (set_t_priority b (set_t_queued_prio c x)))).

Lemma requeued_refl t s : kinv s → requeued t s s.
Proof.
  intros. split_and!; [by apply good_refl|done..|]. intros x Hx. exists (t_wait_queue x), (t_priority x), (t_queued_prio x).
  rewrite Hx. by destruct x.
Qed.
Lemma requeued_trans t s1 s2 s3 : requeued t s1 s2 → requeued t s2 s3 → requeued t s1 s3.
Proof.
  intros (G1 & S1 & P1 & O1 & T1) (G2 & S2 & P2 & O2 & T2).
  split_and!; [by eapply good_trans|congruence..| |].
  - intros u Hu. destruct (O1 u Hu), (O2 u Hu). split; congruence.
  - intros x Hx. destruct (T1 x Hx) as (a & b & c & H1). destruct (T2 _ H1) as (a' & b' & c' & H2).
    exists a', b', c'. by rewrite H2.
Qed.
Lemma requeued_same t s s' :
  good s s' → l_serve s' = l_serve s → ports s' = ports s → tasks s' = tasks s →
  (∀ u, u ≠ t → lin (l_node s') u = lin (l_node s) u) → requeued t s s'.
Proof.
  intros G S P T N. split_and!; [done..|by intros; rewrite T, N|]. intros x Hx.
  exists (t_wait_queue x), (t_priority x), (t_queued_prio x). rewrite T, Hx. by destruct x.
Qed.

Lemma requeued_SchedEnqueue s t x front :
  kinv s → tasks s !! t = Some x → t_state x = TASK_STATE_READY →
  wp (SchedEnqueue t front) (λ _ s', requeued t s s' ∧ l_wait s' = l_wait s ∧
    ∃ c, tasks s' !! t = Some (set_t_queued_prio c x)) s.
Proof.
  intros Hk Hx Hst. pose proof (ki_task s Hk t x Hx) as (_ & _ & Ho & _).
  apply (wp_SchedEnqueue s t front x); [done..|apply Hk|].
  destruct (schedulable s t x) eqn:Es.
  2: { split_and!; [by apply requeued_refl|done|]. exists (t_queued_prio x). rewrite Hx. by destruct x. }
  assert (Hl : linked (l_node s) t = false) by (unfold schedulable in Es; by b2p).
  intros s' Hs'. pose proof (kinv_enqueued s t x front (do_resched s || outranks s (t_priority x)) Hk Hx Hst Hl) as Hk1.
  split; [|destruct Hs' as (b & d & n & ->); split; [done|]; simpl; rewrite lookup_insert_eq; by eexists]. split_and!.
  - eapply good_trans; [split; [exact Hk1|by apply calm_enqueued]|by apply good_timer].
  - by destruct Hs' as (b & d & n & ->).
  - by destruct Hs' as (b & d & n & ->).
  - intros u Hu. destruct Hs' as (b & d & n & ->). simpl. by rewrite lookup_insert_ne, fset_ne.
  - intros y Hy. assert (y = x) as -> by congruence. destruct Hs' as (b & d & n & ->). simpl. rewrite lookup_insert_eq.
    eexists (t_wait_queue x), (t_priority x), _. f_equal; by destruct x.
Qed.

(** ** Leaving a queue *)

Lemma kinv_dequeued s t l : kinv s → t ∈ run_queue s l → kinv (dequeued s t l).
Proof.
  intros Hk Ht. destruct (dequeued_inv s t l (kinv_rq s Hk) Ht) as (Hn & Hm & Hb & _).
  assert (Heq : tasks (dequeued s t l) = tasks s ∧ ports (dequeued s t l) = ports s ∧ spaces (dequeued s t l) = spaces s ∧
    l_wait (dequeued s t l) = l_wait s ∧ l_serve (dequeued s t l) = l_serve s ∧
    current_task (dequeued s t l) = current_task s ∧ lin (l_node (dequeued s t l)) = fset (lin (l_node s)) t None).
  { unfold dequeued. cbv zeta. by case_bool_decide. }
  destruct Heq as (E1 & E2 & E3 & E4 & E5 & E6 & E7). destruct Hk.
  split; try done; unfold cur_ok, task_ok, node_at in *; rewrite ?E1, ?E2, ?E3, ?E4, ?E5, ?E6, ?E7; try done.
  intros u q. destruct (decide (u = t)) as [->|]; [by rewrite fset_eq|]. rewrite fset_ne by done. apply ki_node_at0.
Qed.
Lemma calm_dequeued s t l : calm s (dequeued s t l).
Proof.
  unfold dequeued. cbv zeta. case_bool_decide; split; try done; intros u; simpl; by destruct (tasks s !! u).
Qed.

Lemma wp_remove_sender s t p Q :
  kinv s → lin (l_node s) t = Some (SenderQ p) →
  (∀ s', requeued t s s' → tasks s' = tasks s → l_wait s' = l_wait s → lin (l_node s') t = None → Q tt s') →
  wp (node_op (lk_remove t)) Q s.
Proof.
  intros Hk Hin HQ. apply wp_link_op. unfold lk_remove. rewrite Hin. eexists. split; [done|].
  apply HQ; [|done|done|by simpl; rewrite fset_eq]. apply requeued_same; try (by intros; simpl; rewrite ?fset_ne).
  split; [|split; try done; intros u; simpl; by destruct (tasks s !! u)].
  split; try apply Hk.
  - eapply (links_ok_remove (l_node s) t); [apply Hk|]. unfold lk_remove. by rewrite Hin.
  - intros u q. simpl. destruct (decide (u = t)) as [->|]; [by rewrite fset_eq|].
    rewrite fset_ne by done. apply (ki_node_at s Hk).
Qed.

Lemma requeued_unwait s t L :
  kinv s → lk_remove t (l_wait s) = Some L → requeued t s (set_l_wait L s) ∧ lin L t = None.
Proof.
  intros Hk Hr. pose proof (links_ok_remove (l_wait s) t L (ki_wait s Hk) Hr) as Hok. unfold lk_remove in Hr.
  destruct (lin (l_wait s) t) as [q|] eqn:Hin; [|done]. injection Hr as <-. split; [|by simpl; rewrite fset_eq].
  apply requeued_same; try done. split; [|split; try done; intros u; simpl; by destruct (tasks s !! u)].
  split; try apply Hk; [done|]. intros u q'. simpl. destruct (decide (u = t)) as [->|]; [by rewrite fset_eq|].
  rewrite fset_ne by done. apply (ki_wait_at s Hk).
Qed.
Lemma wp_remove_wait s t q Q :
  kinv s → lin (l_wait s) t = Some q →
  (∀ s', requeued t s s' → tasks s' = tasks s → l_node s' = l_node s → lin (l_wait s') t = None → Q tt s') →
  wp (wait_op (lk_remove t)) Q s.
Proof.
  intros Hk Hin HQ. apply wp_link_op. destruct (lk_remove t (l_wait s)) as [L|] eqn:Er; [|unfold lk_remove in Er; by rewrite Hin in Er].
  exists L. split; [done|]. destruct (requeued_unwait s t L Hk Er). by apply HQ.
Qed.

(** ** Joining a queue in priority order *)

Lemma queue_live {A} `{EqDecision A} (L : links A) q t : links_ok L → t ∈ lq L q → lin L t = Some q.
Proof. intros [Hin _] Ht. by apply Hin. Qed.

Lemma requeued_WaitQueueAdd s q t x :
  kinv s → tasks s !! t = Some x → lin (l_wait s) t = None →
  wp (SchedWaitQueueAdd q t) (λ _ s', requeued t s s' ∧ l_node s' = l_node s ∧
    tasks s' !! t = Some (set_t_wait_queue (Some q) x)) s.
Proof.
  intros Hk Hx Hl. unfold SchedWaitQueueAdd. wp_step. apply wp_prio_of; [by eexists|]. wp_steps.
  apply wp_wq_insert.
  { intros y Hy. apply list_elem_of_In, in_rev, list_elem_of_In in Hy.
    apply (queue_live _ _ _ (ki_wait s Hk)), (ki_wait_at s Hk) in Hy as (z & Hz & _). by eexists. }
  intros a b Hab _ _. rewrite rev_involutive in Hab. rewrite app_nil_r. wp_step.
  apply wp_upd_task. exists x. split; [done|]. apply wp_link_op. unfold lk_link. simpl.
  rewrite (proj2 (linked_false _ _) Hl). eexists. split; [done|].
  set (x' := set_t_wait_queue (Some q) x).
  assert (Hk1 : kinv (set_tasks (<[t:=x']> (tasks s)) s)).
  { apply (kinv_upd s t x); [done..| | | |].
    - exact (ki_task s Hk t x Hx).
    - intros q' Hq'. destruct (ki_node_at s Hk t q' Hq') as (y & Hy & Hn). assert (y = x) as -> by congruence. done.
    - intros q' Hq'. congruence.
    - intros q' Hq'. destruct (ki_serve_at s Hk t q' Hq') as (y & Hy & Hn). assert (y = x) as -> by congruence. done. }
  split; [|split; [done|by simpl; rewrite lookup_insert_eq]].
  split; [|split_and!; [done..|intros; simpl; by rewrite lookup_insert_ne|]].
  - split.
    + split; try apply Hk1.
      * eapply (links_ok_link (l_wait s) t q (a ++ t :: b)); [apply Hk| |unfold lk_link; by rewrite (proj2 (linked_false _ _) Hl)].
        rewrite Hab. symmetry. apply Permutation_middle.
      * intros u q'. simpl. destruct (decide (u = t)) as [->|].
        -- rewrite fset_eq. intros [= <-]. exists x'. by rewrite lookup_insert_eq.
        -- rewrite fset_ne by done. apply (ki_wait_at _ Hk1).
    + eapply calm_trans; [apply (calm_upd s t x x'); done|]. split; try done. intros u. simpl. by destruct (_ !! u).
  - intros y Hy. assert (y = x) as -> by congruence. simpl. rewrite lookup_insert_eq.
    eexists (Some q), (t_priority x), (t_queued_prio x). done.
Qed.

Lemma wp_SchedWaitQueueAddTask s p t x :
  kinv s → tasks s !! t = Some x → lin (l_node s) t = None → node_at s x (SenderQ p) →
  wp (SchedWaitQueueAddTask (SenderQ p) t) (λ _ s', requeued t s s' ∧ l_wait s' = l_wait s ∧
    lin (l_node s') t = Some (SenderQ p) ∧ tasks s' = tasks s) s.
Proof.
  intros Hk Hx Hl Hat. unfold SchedWaitQueueAddTask. wp_step. apply wp_prio_of; [by eexists|]. wp_steps.
  apply wp_wq_insert.
  { intros y Hy. apply list_elem_of_In, in_rev, list_elem_of_In in Hy.
    apply (queue_live _ _ _ (ki_node s Hk)), (ki_node_at s Hk) in Hy as (z & Hz & _). by eexists. }
  intros a b Hab _ _. rewrite rev_involutive in Hab. rewrite app_nil_r. 
  apply wp_link_op. unfold lk_link. simpl.
  rewrite (proj2 (linked_false _ _) Hl). eexists. split; [done|].
  split; [|split; [done|by simpl; rewrite fset_eq]]. apply requeued_same; try (by intros; simpl; rewrite ?fset_ne).
  split; [|split; try done; intros u; simpl; by destruct (tasks s !! u)].
  split; try apply Hk.
  - eapply (links_ok_link (l_node s) t (SenderQ p) (a ++ t :: b)); [apply Hk| |unfold lk_link; by rewrite (proj2 (linked_false _ _) Hl)].
    rewrite Hab. symmetry. apply Permutation_middle.
  - intros u q. simpl. destruct (decide (u = t)) as [->|].
    + rewrite fset_eq. intros [= <-]. by exists x.
    + rewrite fset_ne by done. apply (ki_node_at s Hk).
Qed.

(** ** Changing a priority *)

Lemma wp_remove_run s t x Q :
  kinv s → tasks s !! t = Some x → t_state x = TASK_STATE_READY → linked (l_node s) t = true →
  (∀ s', requeued t s s' → tasks s' = tasks s → l_wait s' = l_wait s → lin (l_node s') t = None → Q tt s') →
  wp (SchedRemoveRunQueue t) Q s.
Proof.
  intros Hk Hx Hst Hl HQ. apply linked_spec in Hl as [q Hq].
  destruct (ki_node_at s Hk t q Hq) as (y & Hy & Hat). assert (y = x) as -> by congruence.
  destruct q as [l|p]; [|destruct Hat as (_ & _ & Hat & _); congruence].
  assert (Hin : t ∈ run_queue s l) by (apply (ki_node s Hk); done).
  apply (wp_SchedRemoveRunQueue s t l); [by apply kinv_rq|done|].
  assert (Hg : good s (dequeued s t l)) by (split; [by apply kinv_dequeued|apply calm_dequeued]).
  apply HQ; [apply requeued_same; [done|..]|..]; unfold dequeued; cbv zeta; case_bool_decide; try done;
    intros; simpl; by rewrite ?fset_eq, ?fset_ne.
Qed.

Lemma requeued_priority s t x prio :
  kinv s → tasks s !! t = Some x → 0 ≤ prio < SCHED_PRIORITY_LEVELS →
  requeued t s (set_tasks (<[t := set_t_priority prio x]> (tasks s)) s).
Proof.
  intros Hk Hx Hp. split_and!; try done.
  - split; [|by apply (calm_upd s t x)]. apply (kinv_upd s t x); [done..| | | |].
    + pose proof (ki_task s Hk t x Hx) as Hok. unfold task_ok in *. destruct_and!. simpl. split_and!; done || lia.
    + intros q Hq. destruct (ki_node_at s Hk t q Hq) as (y & Hy & Hn). assert (y = x) as -> by congruence. done.
    + intros q Hq. destruct (ki_wait_at s Hk t q Hq) as (y & Hy & Hn). simpl. congruence.
    + intros q Hq. destruct (ki_serve_at s Hk t q Hq) as (y & Hy & Hn). simpl. congruence.
  - intros u Hu. simpl. by rewrite lookup_insert_ne.
  - intros y Hy. assert (y = x) as -> by congruence. simpl. rewrite lookup_insert_eq.
    exists (t_wait_queue x), prio, (t_queued_prio x). by destruct x.
Qed.

(** [t] follows [x] up to the fields a requeueing may change. *)
Lemma requeued_at t s s' x :
  requeued t s s' → tasks s !! t = Some x →
  ∃ y, tasks s' !! t = Some y ∧ t_state y = t_state x ∧ t_blocked_port y = t_blocked_port x ∧
       t_ipc_state y = t_ipc_state x ∧ t_held_port y = t_held_port x.
Proof. intros (_ & _ & _ & _ & Hr) Hx. destruct (Hr x Hx) as (a & b & c & Hy). eexists. split; [exact Hy|done]. Qed.
Lemma requeued_kinv t s s' : requeued t s s' → kinv s'.
Proof. intros Hr. apply Hr. Qed.

(** The three removals of [SchedSetEffective] as one step. *)
Definition detached (on_node on_wait : bool) t s s' : Prop :=
  requeued t s s' ∧ tasks s' = tasks s ∧
  (if on_node then lin (l_node s') t = None else l_node s' = l_node s) ∧
  (if on_wait then lin (l_wait s') t = None else l_wait s' = l_wait s).

Lemma detached_refl t s : kinv s → detached false false t s s.
Proof. intros. split; [by apply requeued_refl|done]. Qed.

Lemma wp_detach s t x (k : KM unit) Q :
  let on_run := bool_decide (t_state x = TASK_STATE_READY) && linked (l_node s) t in
  let on_senders := bool_decide (t_state x = TASK_STATE_BLOCKED) && linked (l_node s) t &&
                    bool_decide (is_Some (t_blocked_port x)) in
  kinv s → tasks s !! t = Some x →
  (∀ s', detached (on_run || on_senders) (linked (l_wait s) t) t s s' → wp k Q s') →
  wp (when on_run (SchedRemoveRunQueue t) ;; when (linked (l_wait s) t) (wait_op (lk_remove t)) ;;
      when on_senders (node_op (lk_remove t)) ;; k) Q s.
Proof.
  intros on_run on_senders Hk Hx HQ.
  assert (Hrun : wp (when on_run (SchedRemoveRunQueue t)) (λ _, detached on_run false t s) s).
  { apply wp_when; intros Eb; rewrite ?Eb; [|by apply detached_refl]. apply andb_prop in Eb as [Hst%bool_decide_eq_true Hl].
    apply (wp_remove_run s t x); try done. }
  wp_step. eapply wp_mono; [exact Hrun|]. intros [] s1 (Hr1 & Ht1 & Hn1 & Hw1).
  assert (Hwait : wp (when (linked (l_wait s) t) (wait_op (lk_remove t))) (λ _, detached on_run (linked (l_wait s) t) t s) s1).
  { apply wp_when; intros Eb; rewrite ?Eb; [|by split_and!]. apply linked_spec in Eb as [q Hq].
    apply (wp_remove_wait s1 t q); [apply Hr1|by rewrite Hw1|]. intros s' Hr Ht Hn Hl.
    split_and!; [by eapply requeued_trans|congruence| |done]. by destruct on_run; rewrite Hn. }
  wp_step. eapply wp_mono; [exact Hwait|]. intros [] s2 (Hr2 & Ht2 & Hn2 & Hw2). wp_step.
  apply wp_when; intros Eb; rewrite Eb in HQ; [|rewrite orb_false_r in HQ; by apply HQ]. apply andb_prop in Eb as [[Hst%bool_decide_eq_true Hl]%andb_prop _].
  assert (on_run = false) as Er.
  { subst on_run. rewrite bool_decide_eq_false_2; [done|congruence]. }
  rewrite Er in *. apply linked_spec in Hl as [q Hq].
  destruct (ki_node_at s Hk t q Hq) as (y & Hy & Hat). assert (y = x) as -> by congruence.
  destruct q as [l|p]; [destruct Hat as (_ & _ & Hat); congruence|].
  apply (wp_remove_sender s2 t p); [apply Hr2|by rewrite Hn2|]. intros s' Hr Ht Hl Hn.
  apply HQ. split_and!; [by eapply requeued_trans|congruence|done|].
  by destruct (linked (l_wait s) t); rewrite Hl.
Qed.

(** The way back: [SchedAdd], then the wait queue, then the sender queue. *)
Lemma wp_back_run s s1 t x prio (on_run : bool) :
  requeued t s s1 → tasks s1 !! t = Some x → 0 ≤ prio < SCHED_PRIORITY_LEVELS →
  (on_run = true → t_state x = TASK_STATE_READY) →
  wp (upd_task t (set_t_priority prio) ;; when on_run (SchedAdd t)) (λ _ s3, requeued t s s3 ∧ l_wait s3 = l_wait s1 ∧
    (∃ c, tasks s3 !! t = Some (set_t_queued_prio c (set_t_priority prio x))) ∧
    (on_run = false → l_node s3 = l_node s1)) s1.
Proof.
  intros Hr1 Hx Hp Hb. wp_step. apply wp_upd_task. exists x. split; [congruence|].
  pose proof (requeued_priority s1 t x prio (requeued_kinv _ _ _ Hr1) Hx Hp) as Hr2.
  set (s2 := set_tasks _ s1) in *. assert (Hx2 : tasks s2 !! t = Some (set_t_priority prio x)).
  { simpl. by rewrite lookup_insert_eq. }
  apply wp_when; intros Eb.
  - eapply wp_mono; [apply (requeued_SchedEnqueue s2 t _ false (requeued_kinv _ _ _ Hr2) Hx2); by apply Hb|].
    intros [] s3 (Hr3 & Hw3 & Hx3). split_and!; [|done..|congruence]. by do 2 (eapply requeued_trans; [done|]).
  - split_and!; [by eapply requeued_trans|done| |done]. exists (t_queued_prio x). rewrite Hx2. by destruct x.
Qed.

Lemma wp_back_wait s s3 t x y :
  kinv s → tasks s !! t = Some x → requeued t s s3 → tasks s3 !! t = Some y → t_wait_queue y = t_wait_queue x →
  (if linked (l_wait s) t then lin (l_wait s3) t = None else True) →
  wp (if linked (l_wait s) t then
        let! x := task t in
        match t_wait_queue x with Some q => SchedWaitQueueAdd q t | None => panic end
      else ret tt) (λ _ s4, requeued t s s4 ∧ l_node s4 = l_node s3 ∧
    ∃ z, tasks s4 !! t = Some z ∧ t_priority z = t_priority y) s3.
Proof.
  intros Hk Hx Hr Hy Hq Hl. destruct (linked (l_wait s) t) eqn:Ew; [|wp_step; by split_and!; eauto].
  wp_step. apply wp_task. eexists. split; [done|].
  apply linked_spec in Ew as [q Hlq]. destruct (ki_wait_at s Hk t q Hlq) as (z & Hz & Hzq).
  assert (z = x) as -> by congruence. rewrite Hq, Hzq. eapply wp_mono.
  - by eapply (requeued_WaitQueueAdd s3 q t); [eapply requeued_kinv|..].
  - intros [] s4 (Hr4 & Hn4 & Hx4). split_and!; [by eapply requeued_trans|done|]. by eexists.
Qed.

Lemma wp_back_senders s s4 t x (on : bool) :
  kinv s → tasks s !! t = Some x → requeued t s s4 →
  (on = true → t_state x = TASK_STATE_BLOCKED ∧ linked (l_node s) t = true ∧ lin (l_node s4) t = None) →
  wp (if on then
        let! x := task t in
        match t_blocked_port x with Some p => port p ;; SchedWaitQueueAddTask (SenderQ p) t | None => panic end
      else ret tt) (λ _ s5, requeued t s s5 ∧ (on = false → l_node s5 = l_node s4) ∧
    tasks s5 = tasks s4) s4.
Proof.
  intros Hk Hx Hr Hb. destruct on; [|by wp_step]. destruct (Hb eq_refl) as (Hst & Hl & Hn).
  destruct (requeued_at t s s4 x Hr Hx) as (y & Hy & Est & Ebp & Eip & Ehp).
  wp_step. apply wp_task. eexists. split; [done|]. apply linked_spec in Hl as [q Hq].
  destruct (ki_node_at s Hk t q Hq) as (z & Hz & Hat). assert (z = x) as -> by congruence.
  destruct q as [l|p]; [destruct Hat as (_ & _ & Hat); congruence|]. destruct Hat as (Hpl & Hbp & _ & Hip & Hhp).
  rewrite Ebp, Hbp. pose proof Hr as (_ & _ & Hps & _). pose proof Hpl as [px Hpx].
  wp_step. apply wp_port. exists px. split; [congruence|]. eapply wp_mono.
  - apply (wp_SchedWaitQueueAddTask s4 p t y); [by eapply requeued_kinv|done..|].
    unfold node_at. rewrite Hps. split_and!; congruence || done.
  - intros [] s5 (Hr5 & _ & _ & Ht5). split_and!; [by eapply requeued_trans|done|done].
Qed.

Lemma wp_SchedSetEffective s t x prio :
  kinv s → tasks s !! t = Some x → 0 ≤ prio < SCHED_PRIORITY_LEVELS →
  wp (SchedSetEffective t prio) (λ _ s', requeued t s s' ∧ (lin (l_node s) t = None → lin (l_node s') t = None) ∧
    ∃ y, tasks s' !! t = Some y ∧ t_priority y = prio) s.
Proof.
  intros Hk Hx Hp. unfold SchedSetEffective. wp_step. apply wp_task. exists x. split; [done|]. wp_step. wp_step.
  apply (wp_detach s t x); [done..|]. intros s1 (Hr1 & Ht1 & Hn1 & Hw1).
  set (on_run := bool_decide (t_state x = TASK_STATE_READY) && linked (l_node s) t) in *.
  eapply wp_seq2; [apply (wp_back_run s s1 t x); [done|congruence|done|]|].
  { intros Eb. by apply andb_prop in Eb as [Hst%bool_decide_eq_true _]. }
  intros [] s3 (Hr3 & Hw3 & [c Hx3] & Hn3). wp_step.
  eapply wp_mono; [by eapply (wp_back_wait s s3 t x); [..|destruct (linked (l_wait s) t); [rewrite Hw3|]]|].
  intros [] s4 (Hr4 & Hn4 & z & Hz & Hzp). wp_step. eapply wp_mono; [apply (wp_back_senders s s4 t x); [done..|]|].
  { intros Eb. rewrite Eb, orb_true_r in Hn1. apply andb_prop in Eb as [[Hst%bool_decide_eq_true Hl]%andb_prop _].
    split_and!; [done..|]. rewrite Hn4, Hn3; [done|]. subst on_run. rewrite bool_decide_eq_false_2; [done|congruence]. }
  intros [] s5 (Hr5 & Hn5 & Ht5). rewrite <- Ht5 in Hz. assert (Hnone : lin (l_node s) t = None → lin (l_node s5) t = None).
  { intros Hl. pose proof (proj2 (linked_false _ _) Hl) as Hf. subst on_run. rewrite Hf, !andb_false_r in *.
    simpl in *. by rewrite Hn5, Hn4, Hn3, Hn1. }
  wp_steps. apply wp_if; intros _; [|wp_step; by split_and!; eauto]. wp_step. apply wp_SchedAnyCpuTakers.
  destruct (requeued_at t s s5 x Hr5 Hx) as (y & Hy & _). exists y. split; [done|]. intros b.
  apply wp_when; intros _; [|by split_and!; eauto]. unfold SchedSetReschedFlag. wp_step. split; [|by split; eauto]. eapply requeued_trans; [exact Hr5|]. apply requeued_same; try done.
  pose proof (requeued_kinv _ _ _ Hr5) as Hk5. split; [destruct Hk5; by split|]. apply calm_resched.
Qed.

(** * Priority inheritance *)

(** The priority a task's fields ask for: its own, its caller's, its port's first caller's. *)
Definition caller_demand s (x : TaskObject) (eff : Z) : Z :=
  match t_reply_cap x ≫= λ o, tasks s !! o with
  | Some ox =>
      let rc := t_reply_cap_storage ox in
      match rc_caller_task rc ≫= λ c, tasks s !! c with
      | Some cx =>
          if (t_tid cx =? rc_caller_tid rc) && negb (bool_decide (t_state cx = TASK_STATE_ZOMBIE)) &&
             bool_decide (t_ipc_state cx = IPC_WAITING) && (eff <? t_priority cx) then t_priority cx else eff
      | None => eff
      end
  | None => eff
  end.
Definition queue_demand s (x : TaskObject) (eff : Z) : Z :=
  match t_serving_port x ≫= λ p, head (lq (l_node s) (SenderQ p)) ≫= λ h, tasks s !! h with
  | Some hx => if eff <? t_priority hx then t_priority hx else eff
  | None => eff
  end.
Definition demand s (x : TaskObject) : Z := queue_demand s x (caller_demand s x (t_base_prio x)).

Lemma caller_demand_range s x eff :
  kinv s → 0 ≤ eff < SCHED_PRIORITY_LEVELS → eff ≤ caller_demand s x eff < SCHED_PRIORITY_LEVELS.
Proof.
  intros Hk He. unfold caller_demand. destruct (t_reply_cap x) as [o|]; simpl; [|lia].
  destruct (tasks s !! o) as [ox|]; [|lia]. destruct (rc_caller_task _) as [c|]; simpl; [|lia].
  destruct (tasks s !! c) as [cx|] eqn:Hc; [|lia]. pose proof (ki_task s Hk c _ Hc) as (? & _).
  case_if Eb; b2p; lia.
Qed.
Lemma queue_demand_range s x eff :
  kinv s → 0 ≤ eff < SCHED_PRIORITY_LEVELS → eff ≤ queue_demand s x eff < SCHED_PRIORITY_LEVELS.
Proof.
  intros Hk He. unfold queue_demand. destruct (t_serving_port x) as [p|]; simpl; [|lia].
  destruct (head _) as [h|]; simpl; [|lia]. destruct (tasks s !! h) as [hx|] eqn:Hh; [|lia].
  pose proof (ki_task s Hk h _ Hh) as (? & _). case_if Eb; b2p; lia.
Qed.
Lemma demand_range s t x : kinv s → tasks s !! t = Some x → t_base_prio x ≤ demand s x < SCHED_PRIORITY_LEVELS.
Proof.
  intros Hk Hx. pose proof (ki_task s Hk t x Hx) as (_ & Hb & _).
  pose proof (caller_demand_range s x _ Hk Hb). unfold demand.
  pose proof (queue_demand_range s x (caller_demand s x (t_base_prio x)) Hk ltac:(lia)). lia.
Qed.

Lemma wp_demand s t x (k : Z → KM unit) Q :
  kinv s → tasks s !! t = Some x → wp (k (demand s x)) Q s →
  wp (let! eff := caller_prio x (t_base_prio x) in let! eff := queue_prio x eff in k eff) Q s.
Proof.
  intros Hk Hx HQ. pose proof (ki_task s Hk t x Hx) as (_ & _ & _ & Hrc & _). wp_step.
  assert (Hc : wp (caller_prio x (t_base_prio x)) (λ e s', s' = s ∧ e = caller_demand s x (t_base_prio x)) s).
  { unfold caller_prio, caller_demand. destruct (t_reply_cap x) as [o|]; [|by wp_step].
    destruct (Hrc o eq_refl) as [ox Hox]. pose proof (ki_task s Hk o ox Hox) as (_ & _ & _ & _ & Hcl & _).
    wp_step. apply wp_task. exists ox. split; [done|]. simpl. rewrite Hox.
    destruct (rc_caller_task _) as [c|]; [|by wp_step]. destruct (Hcl c eq_refl) as [cx Hcx].
    wp_step. apply wp_task. exists cx. split; [done|]. wp_step. simpl. by rewrite Hcx. }
  eapply wp_mono; [exact Hc|]. intros e s' [-> ->]. clear Hc. wp_step.
  eapply (wp_mono _ (λ e s', s' = s ∧ e = demand s x)); [|by intros e s' [-> ->]].
  unfold queue_prio, demand, queue_demand. destruct (t_serving_port x) as [p|]; [|by wp_step]. wp_steps. simpl.
  destruct (lq (l_node s) (SenderQ p)) as [|h hs] eqn:Eq; [by wp_step|]. simpl.
  assert (Hh : lin (l_node s) h = Some (SenderQ p)).
  { apply (queue_live _ _ _ (ki_node s Hk)). rewrite Eq. by left. }
  destruct (ki_node_at s Hk h _ Hh) as (hx & Hhx & _). rewrite Hhx.
  wp_step. apply wp_task. exists hx. split; [done|]. by wp_step.
Qed.

(** The effect of any number of requeueings. *)
Definition boosted s s' : Prop :=
  good s s' ∧ l_serve s' = l_serve s ∧ ports s' = ports s ∧
  (∀ u x, tasks s !! u = Some x →
     ∃ a b c, tasks s' !! u = Some (set_t_wait_queue a (set_t_priority b (set_t_queued_prio c x)))) ∧
  (∀ u, lin (l_node s) u = None → lin (l_node s') u = None).

Lemma boosted_refl s : kinv s → boosted s s.
Proof. intros Hk. split_and!; [by apply good_refl|done..| |done]. intros u. apply (requeued_refl u s Hk). Qed.
Lemma boosted_trans s1 s2 s3 : boosted s1 s2 → boosted s2 s3 → boosted s1 s3.
Proof.
  intros (G1 & S1 & P1 & T1 & N1) (G2 & S2 & P2 & T2 & N2).
  split_and!; [by eapply good_trans|congruence..| |by intros; apply N2, N1].
  intros u x Hx. destruct (T1 u x Hx) as (a & b & c & H1). destruct (T2 u _ H1) as (a' & b' & c' & H2).
  exists a', b', c'. by rewrite H2.
Qed.
Lemma requeued_boosted t s s' :
  kinv s → requeued t s s' → (lin (l_node s) t = None → lin (l_node s') t = None) → boosted s s'.
Proof.
  intros Hk (G & S & P & O & T) N. split_and!; [done..| |].
  2: { intros u Hu. destruct (decide (u = t)) as [->|Hne]; [by apply N|]. by rewrite (proj2 (O u Hne)). }
  intros u x Hx.
  destruct (decide (u = t)) as [->|Hne]; [by apply T|]. rewrite (proj1 (O u Hne)). by apply (requeued_refl u s Hk).
Qed.
Lemma boosted_live s s' t : boosted s s' → is_Some (tasks s !! t) → is_Some (tasks s' !! t).
Proof. intros [[_ Hc] _]. by apply (calm_live s s' t Hc). Qed.
Lemma boosted_kinv s s' : boosted s s' → kinv s'.
Proof. intros Hb. apply Hb. Qed.

(** A walk over live tasks. *)
Lemma wp_boost_walk (f : Z → KM unit) s0 :
  (∀ s t, boosted s0 s → is_Some (tasks s0 !! t) → wp (f t) (λ _ s', boosted s0 s') s) →
  ∀ xs s, boosted s0 s → Forall (λ t, is_Some (tasks s0 !! t)) xs → wp (walk xs f) (λ _ s', boosted s0 s') s.
Proof.
  intros Hf xs. induction xs as [|t xs IH]; intros s Hb Hall; simpl; [by wp_step|].
  inversion Hall; subst. wp_step. eapply wp_mono; [by apply Hf|]. intros [] s' Hs'. by apply IH.
Qed.
Lemma servers_live s p : kinv s → Forall (λ t, is_Some (tasks s !! t)) (lq (l_serve s) p).
Proof.
  intros Hk. apply Forall_forall. intros t Ht. apply (queue_live _ _ _ (ki_serve s Hk)) in Ht.
  destruct (ki_serve_at s Hk t p Ht) as (x & Hx & _). by eexists.
Qed.

Lemma wp_RecomputePriorityAt n : ∀ s t,
  kinv s → is_Some (tasks s !! t) → wp (RecomputePriorityAt n t) (λ _ s', boosted s s') s.
Proof.
  induction n as [|n IH]; intros s t Hk [x Hx]; simpl.
  all: wp_step; apply wp_task; exists x; split; [done|].
  all: apply (wp_demand s t x); [done..|]; apply wp_if; intros _; [wp_step; by apply boosted_refl|].
  all: pose proof (demand_range s t x Hk Hx); pose proof (ki_task s Hk t x Hx) as (_ & ? & _).
  all: wp_step; eapply wp_mono; [apply (wp_SchedSetEffective s t x (demand s x) Hk Hx); lia|].
  all: intros [] s1 (Hr1 & Hn1 & _); pose proof (requeued_boosted t s s1 Hk Hr1 Hn1) as Hb1.
  { by wp_step. }
  assert (Hlive : is_Some (tasks s1 !! t)) by (eapply boosted_live; [done|by eexists]). destruct Hlive as [x1 Hx1].
  wp_step. apply wp_task. exists x1. split; [done|]. pose proof (ki_task s1 (boosted_kinv _ _ Hb1) t x1 Hx1) as (_&_&_&_&_&Hh&_).
  wp_step. eapply (wp_mono _ (λ _ s', boosted s s')).
  { destruct (t_reply_holder x1) as [h|]; [|by wp_step].
    eapply wp_mono; [apply IH; [by eapply boosted_kinv|by apply Hh]|]. intros [] s2. by apply boosted_trans. }
  intros [] s2 Hb2. assert (Hlive : is_Some (tasks s2 !! t)) by (eapply boosted_live; [done|by eexists]).
  destruct Hlive as [x2 Hx2]. wp_step. apply wp_task. exists x2. split; [done|]. wp_steps.
  destruct (t_blocked_port x2) as [p|]; [|by wp_step]. apply wp_if; intros _; [|by wp_step]. wp_steps.
  eapply wp_mono; [apply (wp_boost_walk _ s2)|].
  - intros s' u Hb Hu. eapply wp_mono; [apply IH; [by eapply boosted_kinv|by eapply boosted_live]|].
    intros [] s3. by apply boosted_trans.
  - apply boosted_refl. by eapply boosted_kinv.
  - apply servers_live. by eapply boosted_kinv.
  - intros [] s3. by apply boosted_trans.
Qed.

Lemma wp_PortBoostServers s p : kinv s → wp (PortBoostServers p) (λ _ s', boosted s s') s.
Proof.
  intros Hk. unfold PortBoostServers. wp_steps. apply (wp_boost_walk _ s); [|by apply boosted_refl|by apply servers_live].
  intros s' t Hb Ht. eapply wp_mono; [apply wp_RecomputePriorityAt; [by eapply boosted_kinv|by eapply boosted_live]|].
  intros [] s3. by apply boosted_trans.
Qed.

(** * Withdrawing a call *)

Lemma boosted_at s s' u x :
  boosted s s' → tasks s !! u = Some x →
  ∃ y, tasks s' !! u = Some y ∧ t_state y = t_state x ∧ t_reply_cap y = t_reply_cap x ∧
       t_serving_port y = t_serving_port x ∧ t_held_port y = t_held_port x ∧
       t_reply_holder y = t_reply_holder x ∧ t_pending_reply_cap y = t_pending_reply_cap x.
Proof. intros (_ & _ & _ & Hr & _) Hx. destruct (Hr u x Hx) as (a & b & c & Hy). eexists. split; [exact Hy|done]. Qed.

(** A task update that only drops references. *)
Definition fewer (o o' : option Z) : Prop := o' = o ∨ o' = None.
Definition drops (x x' : TaskObject) : Prop :=
  t_priority x' = t_priority x ∧ t_base_prio x' = t_base_prio x ∧ t_owner x' = t_owner x ∧
  fewer (t_reply_cap x) (t_reply_cap x') ∧ t_reply_cap_storage x' = t_reply_cap_storage x ∧
  fewer (t_reply_holder x) (t_reply_holder x') ∧ t_serving_port x' = t_serving_port x ∧
  fewer (t_held_port x) (t_held_port x') ∧ t_queued_prio x' = t_queued_prio x ∧ t_state x' = t_state x ∧
  t_blocked_port x' = t_blocked_port x ∧ t_ipc_state x' = t_ipc_state x ∧ t_wait_queue x' = t_wait_queue x ∧
  t_wake_deadline x' = t_wake_deadline x ∧ t_sleep_slot x' = t_sleep_slot x ∧ t_regs x' = t_regs x.

Lemma good_drops s t x x' :
  kinv s → tasks s !! t = Some x → drops x x' → good s (set_tasks (<[t := x']> (tasks s)) s).
Proof.
  intros Hk Hx (E1&E2&E3&E4&E5&E6&E7&E8&E9&E10&E11&E12&E13&E14&E15&E16).
  split; [|by apply (calm_upd s t x)]. apply (kinv_upd s t x); [done..| | | |].
  - pose proof (ki_task s Hk t x Hx) as Hok. unfold task_ok in *. rewrite E1, E2, E3, E5, E7. destruct_and!.
    split_and!; try done; try lia.
    + intros c Hc. destruct E4 as [E|E]; rewrite E in Hc; [by eauto|done].
    + intros c Hc. destruct E6 as [E|E]; rewrite E in Hc; [by eauto|done].
    + intros c Hc. destruct E8 as [E|E]; rewrite E in Hc; [by eauto|done].
  - intros q Hq. destruct (ki_node_at s Hk t q Hq) as (y & Hy & Hn). assert (y = x) as -> by congruence.
    unfold node_at in *. rewrite E9, E10, E11, E12. destruct q; [done|]. destruct_and!. split_and!; try done.
    destruct E8; congruence.
  - intros q Hq. destruct (ki_wait_at s Hk t q Hq) as (y & Hy & Hn). congruence.
  - intros q Hq. destruct (ki_serve_at s Hk t q Hq) as (y & Hy & Hn). congruence.
Qed.
Lemma wp_upd_drops s t x f Q :
  kinv s → tasks s !! t = Some x → drops x (f x) →
  (∀ s', s' = set_tasks (<[t := f x]> (tasks s)) s → good s s' → Q tt s') → wp (upd_task t f) Q s.
Proof. intros. apply wp_upd_task. exists x. split; [done|]. match goal with HQ : _ |- _ => apply HQ end; [done|]. by eapply good_drops. Qed.

Lemma wp_TaskDetachServing s t x :
  kinv s → tasks s !! t = Some x →
  wp (TaskDetachServing t) (λ _ s', good s s' ∧ tasks s' = <[t := set_t_serving_port None x]> (tasks s) ∧ ports s' = ports s ∧
    l_node s' = l_node s) s.
Proof.
  intros Hk Hx. unfold TaskDetachServing. wp_step. apply wp_task. exists x. split; [done|].
  pose proof (ki_task s Hk t x Hx) as Hok. pose proof Hok as (_&_&_&_&_&_&Hsp&_).
  destruct (t_serving_port x) as [p|] eqn:Ep.
  2: { wp_step. split; [by apply good_refl|]. split_and!; [|done..]. rewrite insert_id; [done|].
       rewrite Hx. f_equal. destruct x; simpl in *; by subst. }
  pose proof (Hsp p eq_refl) as Hl. wp_step. apply wp_link_op. unfold lk_remove. rewrite Hl. eexists. split; [done|].
  apply wp_upd_task. exists x. split; [done|]. split; [|done]. split.
  2: { eapply calm_trans; [|eapply (calm_upd _ t x); done]. split; try done. intros u. simpl. by destruct (tasks s !! u). }
  assert (Hk1 := Hk). destruct Hk1. split; simpl; try done.
  - eapply (links_ok_remove (l_serve s) t); [done|]. unfold lk_remove. by rewrite Hl.
  - intros c Hc. simpl in *. rewrite (live_insert s t x) by done. by apply ki_cur0.
  - intros u q Hu. destruct (ki_node_at0 u q Hu) as (y & Hy & Hn). destruct (decide (u = t)) as [->|Hne].
    + exists (set_t_serving_port None x). rewrite lookup_insert_eq. assert (y = x) as -> by congruence. done.
    + exists y. by rewrite lookup_insert_ne.
  - intros u q Hu. destruct (ki_wait_at0 u q Hu) as (y & Hy & Hn). destruct (decide (u = t)) as [->|Hne].
    + exists (set_t_serving_port None x). rewrite lookup_insert_eq. assert (y = x) as -> by congruence. done.
    + exists y. by rewrite lookup_insert_ne.
  - intros u q. destruct (decide (u = t)) as [->|Hne]; [by rewrite fset_eq|]. rewrite fset_ne, lookup_insert_ne by done.
    apply ki_serve_at0.
  - intros u y Hy. assert (Hy' : task_ok s u y ∧ (u = t → t_serving_port y = None)).
    { destruct (decide (u = t)) as [->|Hne].
      - rewrite lookup_insert_eq in Hy. injection Hy as <-. split; [|done]. unfold task_ok in *. simpl.
        destruct_and!. by split_and!.
      - rewrite lookup_insert_ne in Hy by done. by split; [apply ki_task0|]. }
    destruct Hy' as [Hy' Hsn]. pose proof (task_ok_insert s t x (set_t_serving_port None x) u y Hx Hy') as (?&?&?&?&?&?&Hs&?).
    unfold task_ok. simpl. split_and!; try done; try lia. intros p' Hp'. rewrite fset_ne; [by apply Hs|].
    intros ->. rewrite Hsn in Hp'; done.
Qed.

Lemma wp_TaskClearReplyCap s t x :
  kinv s → tasks s !! t = Some x →
  wp (TaskClearReplyCap t) (λ _ s', good s s' ∧
    (∃ s1, tasks s1 = <[t := set_t_serving_port None (set_t_reply_cap None x)]> (tasks s) ∧ l_node s1 = l_node s ∧ ports s1 = ports s ∧ boosted s1 s')) s.
Proof.
  intros Hk Hx. unfold TaskClearReplyCap. wp_step. eapply wp_upd_drops; [done..| |].
  { unfold drops, fewer. simpl. tauto. }
  intros s1 E1 G1. wp_step. eapply wp_mono; [apply (wp_TaskDetachServing s1 t (set_t_reply_cap None x)); [apply G1|]|].
  { subst s1. simpl. by rewrite lookup_insert_eq. }
  intros [] s2 (G2 & E2 & P2 & N2). eapply wp_mono; [apply wp_RecomputePriorityAt; [apply G2|]|].
  { rewrite E2, lookup_insert_eq. by eexists. }
  intros [] s3 B3. split; [do 2 (eapply good_trans; [done|]); apply B3|].
  exists s2. split_and!; [|by rewrite N2; subst s1|by rewrite P2; subst s1|done]. rewrite E2. subst s1. simpl. by rewrite insert_insert_eq.
Qed.

Lemma good_set_held s p px hs' :
  kinv s → ports s !! p = Some px →
  good s (set_ports (<[p := set_p_held (Some hs') px]> (ports s)) s).
Proof.
  intros Hk Hp.
  assert (Hlive : ∀ q, is_Some (ports s !! q) → is_Some (<[p := set_p_held (Some hs') px]> (ports s) !! q)).
  { intros q Hq. destruct (decide (q = p)) as [->|]; [rewrite lookup_insert_eq; by eexists|by rewrite lookup_insert_ne]. }
  split.
  - destruct Hk. split; simpl; try done.
    + intros t q Hq. destruct (ki_node_at0 t q Hq) as (x & Hx & Hat). exists x. split; [done|].
      destruct q; [done|]. destruct Hat as (H1 & Hr). split; [by apply Hlive|done].
    + intros t x Hx. destruct (ki_task0 t x Hx) as (?&?&?&?&?&?&?&Hhp). unfold task_ok. simpl.
      split_and!; try done; try lia. intros q Hq. destruct (Hhp q Hq) as (qx & hq & Hqx & Hq2).
      destruct (decide (q = p)) as [->|]; [rewrite lookup_insert_eq; by eexists _, _|].
      rewrite lookup_insert_ne by done. by eexists _, _.
  - split; try done; simpl.
    + rewrite dom_insert_L. assert (p ∈ dom (ports s)) by (apply elem_of_dom; by eexists). set_solver.
    + intros t. by destruct (tasks s !! t).
Qed.

(** The first half of [TaskCancelCall]: the call leaves the place it was parked in. *)
Lemma wp_unpark s t x (k : KM unit) Q :
  kinv s → tasks s !! t = Some x → t_state x = TASK_STATE_BLOCKED →
  (∀ s', good s s' → tasks s' = <[t := set_t_held_port None x]> (tasks s) → lin (l_node s') t = None →
     (∀ p, t_held_port x = Some p → ∃ px hs, ports s' !! p = Some px ∧ p_held px = Some hs ∧
        ∀ e, hs !! Z.to_nat (t_held_slot x) = Some e → h_caller e = None) → wp k Q s') →
  wp (match t_held_port x with
      | Some p => clear_held p (t_held_slot x) ;; upd_task t (set_t_held_port None)
      | None => when (linked (l_node s) t) (node_op (lk_remove t))
      end ;; k) Q s.
Proof.
  intros Hk Hx Hst HQ. pose proof (ki_task s Hk t x Hx) as (_&_&_&_&_&_&_&Hhp). wp_step.
  assert (Hnode : ∀ q, lin (l_node s) t = Some q → node_at s x q ∧ ∃ p, q = SenderQ p).
  { intros q Hq. destruct (ki_node_at s Hk t q Hq) as (y & Hy & Hat). assert (y = x) as -> by congruence.
    split; [done|]. destruct q as [l|p]; [destruct Hat as (_ & _ & Hr); congruence|by eexists]. }
  destruct (t_held_port x) as [p|] eqn:Eh.
  - destruct (Hhp p eq_refl) as (px & hs & Hpx & Hhs). unfold clear_held. wp_step. wp_step. apply wp_port. exists px. split; [done|].
    rewrite Hhs. apply wp_upd_port. exists px. split; [done|].
    pose proof (good_set_held s p px (alter (set_h_caller None) (Z.to_nat (t_held_slot x)) hs) Hk Hpx) as G1.
    set (s1 := set_ports _ s) in *. eapply (wp_upd_drops s1 t x); [apply G1|done| |].
    { unfold drops, fewer. simpl. tauto. }
    intros s2 -> G2. apply HQ; [by eapply good_trans|done| |].
    { destruct (lin (l_node s) t) as [q|] eqn:Eq; [|done]. destruct (Hnode q eq_refl) as [Hat [p' ->]].
      destruct Hat as (_ & _ & _ & _ & Hnh). congruence. }
    intros p' [= <-]. eexists _, _. simpl. rewrite lookup_insert_eq. split; [done|]. split; [done|].
    intros e He. rewrite list_lookup_alter_eq in He. destruct (hs !! Z.to_nat (t_held_slot x)); [|done]. by injection He as <-.
  - assert (Heq : <[t := set_t_held_port None x]> (tasks s) = tasks s).
    { apply insert_id. rewrite Hx. f_equal. destruct x; simpl in *; by subst. }
    rewrite Heq in HQ. apply wp_when; intros El.
    + apply linked_spec in El as [q Hl]. destruct (Hnode q Hl) as [_ [p ->]].
      apply (wp_remove_sender s t p); [done..|]. intros s' Hr Ht Hw Hn. apply HQ; [apply Hr|done..].
    + apply HQ; [by apply good_refl|done|by apply linked_false|done].
Qed.

(** What [TaskCancelCall] has achieved for the caller [t] once nothing is left of its call. *)
Definition withdrawn (t : Z) (x : TaskObject) s s' : Prop :=
  lin (l_node s') t = None ∧
  (∃ y, tasks s' !! t = Some y ∧ t_state y = t_state x ∧ t_pending_reply_cap y = None ∧ t_held_port y = None ∧
        (is_Some (t_pending_reply_cap x) → t_reply_holder y = None)) ∧
  (∀ h, is_Some (t_pending_reply_cap x) → t_reply_holder x = Some h →
        ∃ hy, tasks s' !! h = Some hy ∧ t_reply_cap hy = None ∧ t_serving_port hy = None) ∧
  (∀ p, t_held_port x = Some p → ∃ px hs, ports s' !! p = Some px ∧ p_held px = Some hs ∧
        ∀ e, hs !! Z.to_nat (t_held_slot x) = Some e → h_caller e = None).

(** The second half: the reply capability of the server that holds the call is taken back,
    or the servers of the port it was queued on are reweighed. *)
Lemma wp_unserve s s1 t x :
  good s s1 → tasks s !! t = Some x → tasks s1 = <[t := set_t_held_port None x]> (tasks s) → lin (l_node s1) t = None →
  wp (match t_reply_holder x with
      | Some h => TaskClearReplyCap h ;; upd_task t (set_t_reply_holder None)
      | None => match t_blocked_port x with Some p => PortBoostServers p | None => ret tt end
      end) (λ _ s', good s s' ∧ lin (l_node s') t = None ∧ ports s' = ports s1 ∧
    (∃ y, tasks s' !! t = Some y ∧ t_state y = t_state x ∧ t_held_port y = None ∧ t_reply_holder y = None) ∧
    (∀ h, t_reply_holder x = Some h → ∃ hy, tasks s' !! h = Some hy ∧ t_reply_cap hy = None ∧ t_serving_port hy = None)) s1.
Proof.
  intros G1 Hx Et Hl. pose proof G1 as [Hk1 _]. assert (Hx1 : tasks s1 !! t = Some (set_t_held_port None x)) by (by rewrite Et, lookup_insert_eq).
  pose proof (ki_task s1 Hk1 t _ Hx1) as (_&_&_&_&_&Hh&_). simpl in Hh. destruct (t_reply_holder x) as [h|] eqn:Eh.
  - destruct (Hh h eq_refl) as [hx Hhx]. wp_step. eapply wp_mono; [apply (wp_TaskClearReplyCap s1 h hx Hk1 Hhx)|].
    intros [] s3 (G3 & s2 & Et2 & N2 & P2 & B3).
    assert (Hh2 : tasks s2 !! h = Some (set_t_serving_port None (set_t_reply_cap None hx))) by (by rewrite Et2, lookup_insert_eq).
    destruct (boosted_at s2 s3 h _ B3 Hh2) as (hy & Hhy & _ & Hrc & Hsp & _).
    assert (Hy : ∃ y, tasks s3 !! t = Some y ∧ t_state y = t_state x ∧ t_held_port y = None).
    { destruct (decide (h = t)) as [->|Hne].
      - destruct (boosted_at s2 s3 t _ B3 Hh2) as (y & Hy & Hs & _ & _ & Hhp & _). exists y.
        assert (hx = set_t_held_port None x) as -> by congruence. done.
      - assert (Ht2 : tasks s2 !! t = Some (set_t_held_port None x)) by (by rewrite Et2, lookup_insert_ne).
        destruct (boosted_at s2 s3 t _ B3 Ht2) as (y & Hy & Hs & _ & _ & Hhp & _). by exists y. }
    destruct Hy as (y & Hy & Hs & Hhp). eapply (wp_upd_drops s3 t y); [apply G3|done| |].
    { unfold drops, fewer. simpl. tauto. }
    intros s4 -> G4. pose proof B3 as (_ & _ & Pb & _ & Nb).
    split_and!; [by do 2 (eapply good_trans; [done|])|simpl; apply Nb; by rewrite N2|simpl; congruence| |].
    + exists (set_t_reply_holder None y). simpl. rewrite lookup_insert_eq. done.
    + intros h' [= <-]. simpl. destruct (decide (h = t)) as [->|Hne].
      * rewrite lookup_insert_eq. eexists. split; [done|]. assert (y = hy) as -> by congruence. done.
      * rewrite lookup_insert_ne by done. exists hy. by rewrite Hrc, Hsp.
  - eapply (wp_mono _ (λ _ s', boosted s1 s')).
    { destruct (t_blocked_port x); [by apply wp_PortBoostServers|]. wp_step. by apply boosted_refl. }
    intros [] s2 B. pose proof B as (G2 & _ & P2 & _ & N2). destruct (boosted_at s1 s2 t _ B Hx1) as (y & Hy & Hs & _ & _ & Hhp & Hrh & _).
    split_and!; [by eapply good_trans|by apply N2|done| |done]. exists y. split_and!; try done. by rewrite Hrh.
Qed.

Lemma wp_TaskCancelCall s t x :
  kinv s → tasks s !! t = Some x → t_state x = TASK_STATE_BLOCKED →
  wp (TaskCancelCall t) (λ _ s', good s s' ∧ withdrawn t x s s') s.
Proof.
  intros Hk Hx Hst. unfold TaskCancelCall. wp_step. apply wp_task. exists x. split; [done|]. wp_step. wp_step.
  apply (wp_unpark s t x); [done..|]. intros s1 G1 Et Hl Hps. wp_step.
  destruct (t_pending_reply_cap x) as [rc|] eqn:Ep; simpl.
  - eapply wp_mono; [by apply (wp_unserve s s1 t x)|]. intros [] s2 (G2 & N2 & P2 & (y & Hy & Hs & Hhp & Hrh) & Hsrv).
    eapply (wp_upd_drops s2 t y); [apply G2|done| |]. { unfold drops, fewer. simpl. tauto. }
    intros s3 -> G3. split; [by eapply good_trans|].
    unfold withdrawn. simpl. rewrite lookup_insert_eq, P2. split_and!; [done| |intros h _ Hh|done].
    + by eexists.
    + destruct (Hsrv h Hh) as (hy & Hhy & Hrc & Hsp). destruct (decide (h = t)) as [->|Hne].
      * rewrite lookup_insert_eq. eexists. split; [done|]. by assert (y = hy) as -> by congruence.
      * rewrite lookup_insert_ne by done. by exists hy.
  - wp_step. assert (Hx1 : tasks s1 !! t = Some (set_t_held_port None x)) by (by rewrite Et, lookup_insert_eq).
    eapply (wp_upd_drops s1 t); [apply G1|done| |]. { unfold drops, fewer. simpl. tauto. }
    intros s3 -> G3. split; [by eapply good_trans|].
    unfold withdrawn. simpl. rewrite lookup_insert_eq, Ep. split_and!; [done| |by intros h []|done].
    eexists. split_and!; try done.
Qed.

(** C20: Withdrawing a blocked caller's call ([TaskCancelCall]) never dereferences a dead object and keeps
    the invariant: afterwards the caller is on no sender queue, no parked record and no reply
    capability leads back to it, its server no longer serves it, and no timeout has changed. *)
Theorem TaskCancelCall_withdraws s t x :
  kinv s → tasks s !! t = Some x → t_state x = TASK_STATE_BLOCKED →
  wp (TaskCancelCall t) (λ _ s', kinv s' ∧ calm s s' ∧ withdrawn t x s s') s.
Proof. intros. eapply wp_mono; [by apply wp_TaskCancelCall|]. by intros [] s' [[? ?] ?]. Qed.

(** * Chains of calls *)

(** [t] waits for a reply from [h]. *)
Definition waits_for s t h : Prop :=
  ∃ x hx o ox, tasks s !! t = Some x ∧ tasks s !! h = Some hx ∧ tasks s !! o = Some ox ∧
    t_reply_holder x = Some h ∧ t_reply_cap hx = Some o ∧ rc_caller_task (t_reply_cap_storage ox) = Some t ∧
    rc_caller_tid (t_reply_cap_storage ox) = t_tid x ∧ t_state x ≠ TASK_STATE_ZOMBIE ∧
    t_ipc_state x = IPC_WAITING ∧ lin (l_node s) t = None.

(** [t] and the servers its call leads to, the last of which waits for no one. *)
Fixpoint chain s t (hs : list Z) : Prop :=
  match hs with
  | [] => ∃ x, tasks s !! t = Some x ∧ t_reply_holder x = None ∧
                (t_state x ≠ TASK_STATE_BLOCKED ∨ lin (l_node s) t = None)
  | h :: hs' => waits_for s t h ∧ chain s h hs'
  end.

(** No server of the chain runs below the task that waits for it. *)
Fixpoint inherited s t (hs : list Z) : Prop :=
  match hs with
  | [] => True
  | h :: hs' => prio s t ≤ prio s h ∧ inherited s h hs'
  end.

Lemma waits_for_boosted s s' t h : boosted s s' → waits_for s t h → waits_for s' t h.
Proof.
  intros (_ & _ & _ & Hb & Hn) (x & hx & o & ox & Hx & Hhx & Hox & ?).
  destruct (Hb t x Hx) as (? & ? & ? & Hx'). destruct (Hb h hx Hhx) as (? & ? & ? & Hhx').
  destruct (Hb o ox Hox) as (? & ? & ? & Hox'). destruct_and!.
  eexists _, _, o, _. split_and!; [exact Hx'|exact Hhx'|exact Hox'|done..|by apply Hn].
Qed.
Lemma chain_boosted s s' hs : ∀ t, boosted s s' → chain s t hs → chain s' t hs.
Proof.
  induction hs as [|h hs IH]; intros t Hb; simpl.
  - intros (x & Hx & Hr & Hd). pose proof Hb as (_ & _ & _ & Ht & Hn). destruct (Ht t x Hx) as (? & ? & ? & Hx').
    eexists. split_and!; [exact Hx'|done|]. destruct Hd; [by left|right; by apply Hn].
  - intros [Hw Hc]. split; [by eapply waits_for_boosted|by apply IH].
Qed.
Lemma chain_live s t hs : chain s t hs → is_Some (tasks s !! t).
Proof. destruct hs; [intros (x & Hx & _)|intros [(x & hx & o & ox & Hx & _) _]]; by eexists. Qed.

Lemma inherited_frame s s' hs : ∀ t,
  (∀ u, u ∈ t :: hs → prio s' u = prio s u) → inherited s t hs → inherited s' t hs.
Proof.
  induction hs as [|h hs IH]; intros t Hp; simpl; [done|]. intros [Hle Hi]. split.
  - rewrite (Hp t), (Hp h) by set_solver. done.
  - apply IH; [|done]. intros u Hu. apply Hp. by right.
Qed.

(** A server asks for at least the priority of the caller it serves. *)
Lemma demand_caller s t h hx : waits_for s t h → kinv s → tasks s !! h = Some hx → prio s t ≤ demand s hx.
Proof.
  intros (x & hx' & o & ox & Hx & Hhx & Hox & _ & Hrc & Hcl & Htid & Hst & Hip & _) Hk Hh.
  assert (hx' = hx) as -> by congruence. pose proof (ki_task s Hk h hx Hh) as (_ & Hb & _).
  pose proof (caller_demand_range s hx _ Hk Hb) as Hr.
  assert (Hc : prio s t ≤ caller_demand s hx (t_base_prio hx)).
  { unfold caller_demand, prio. rewrite Hrc. simpl. rewrite Hox, Hcl. simpl. rewrite Hx. rewrite Htid, Z.eqb_refl.
    rewrite bool_decide_eq_false_2, bool_decide_eq_true_2 by done. simpl. case_if Ec; b2p; lia. }
  pose proof (queue_demand_range s hx (caller_demand s hx (t_base_prio hx)) Hk ltac:(lia)). unfold demand. lia.
Qed.

(** One link: either nothing changes or the task takes the priority it asks for. *)
Lemma wp_Recompute_link s t x n (Q : unit → kst → Prop) :
  kinv s → tasks s !! t = Some x →
  (t_priority x = demand s x → Q tt s) →
  (∀ s1, boosted s s1 → (∀ u, u ≠ t → tasks s1 !! u = tasks s !! u) → prio s1 t = demand s x →
     wp (match n with
         | O => ret tt
         | S n =>
             let! x := task t in
             match t_reply_holder x with Some h => RecomputePriorityAt n h | None => ret tt end ;;
             let! x := task t in
             let! on := gets (λ s, linked (l_node s) t) in
             match t_blocked_port x with
             | Some p =>
                 if bool_decide (t_state x = TASK_STATE_BLOCKED) && on then
                   let! servers := gets (λ s, lq (l_serve s) p) in walk servers (RecomputePriorityAt n)
                 else ret tt
             | None => ret tt
             end
         end) Q s1) →
  wp (RecomputePriorityAt n t) Q s.
Proof.
  intros Hk Hx Hsame Hstep. pose proof (demand_range s t x Hk Hx). pose proof (ki_task s Hk t x Hx) as (_ & ? & _).
  assert (Hset : wp (SchedSetEffective t (demand s x)) (λ _ s1, boosted s s1 ∧
    (∀ u, u ≠ t → tasks s1 !! u = tasks s !! u) ∧ prio s1 t = demand s x) s).
  { eapply wp_mono; [apply (wp_SchedSetEffective s t x (demand s x) Hk Hx); lia|].
    intros [] s1 (Hr & Hn & y & Hy & Hp). split_and!; [by eapply requeued_boosted| |unfold prio; by rewrite Hy].
    intros u Hu. by apply Hr. }
  destruct n as [|n]; simpl.
  all: wp_step; apply wp_task; exists x; split; [done|].
  all: apply (wp_demand s t x); [done..|]; apply wp_if; intros Eb; b2p; [wp_step; by apply Hsame|].
  all: wp_step; eapply wp_mono; [exact Hset|]; intros [] s1 (Hb & Ho & Hp); exact (Hstep s1 Hb Ho Hp).
Qed.

Lemma wp_Recompute_chain hs : ∀ n s t x,
  kinv s → tasks s !! t = Some x → chain s t hs → NoDup (t :: hs) → inherited s t hs → (length hs ≤ n)%nat →
  wp (RecomputePriorityAt n t) (λ _ s', boosted s s' ∧ (∀ u, u ∉ t :: hs → tasks s' !! u = tasks s !! u) ∧
    prio s' t = demand s x ∧ inherited s' t hs) s.
Proof.
  induction hs as [|h hs IH]; intros n s t x Hk Hx Hc Hnd Hi Hn.
  all: apply (wp_Recompute_link s t x); [done..| |].
  all: try (intros Hp; split_and!; [by apply boosted_refl|done|by unfold prio; rewrite Hx|done]).
  all: intros s1 Hb Ho Hp; pose proof (chain_boosted s s1 _ t Hb Hc) as Hc1.
  - assert (Hfin : boosted s s1 ∧ (∀ u, u ∉ [t] → tasks s1 !! u = tasks s !! u) ∧ prio s1 t = demand s x ∧ True).
    { split_and!; [done| |done..]. intros u Hu. apply Ho. set_solver. }
    destruct n as [|n]; [by wp_step|]. destruct Hc1 as (x1 & Hx1 & Hr1 & Hd1).
    wp_step. apply wp_task. exists x1. split; [done|]. rewrite Hr1. wp_steps. apply wp_task. exists x1. split; [done|].
    wp_steps. destruct (t_blocked_port x1); [|by wp_step]. apply wp_if; [|by intros; wp_step].
    intros [Hs%bool_decide_eq_true Hl]%andb_prop. destruct Hd1 as [?|Hd1]; [done|].
    apply linked_false in Hd1. congruence.
  - destruct n as [|n]; [simpl in Hn; lia|]. destruct Hc1 as [Hw1 Hc1]. pose proof Hw1 as (x1 & hx & _ & _ & Hx1 & Hhx & _ & Hr1 & _).
    apply NoDup_cons in Hnd as [Hnt Hnd]. wp_step. apply wp_task. exists x1. split; [done|]. rewrite Hr1. wp_step.
    assert (Hi1 : inherited s1 h hs).
    { apply (inherited_frame s); [|apply Hi]. intros u Hu. unfold prio. rewrite Ho; [done|]. by intros ->. }
    eapply wp_mono; [apply (IH n s1 h hx); [by eapply boosted_kinv|done..|simpl in Hn; lia]|].
    intros [] s2 (Hb2 & Ho2 & Hp2 & Hi2). pose proof (waits_for_boosted _ _ _ _ Hb2 Hw1) as (x2 & _ & _ & _ & Hx2 & _ & _ & _ & _ & _ & _ & _ & _ & Hl2).
    assert (Ht2 : prio s2 t = prio s1 t) by (unfold prio; by rewrite Ho2).
    wp_step. apply wp_task. exists x2. split; [done|]. wp_steps.
    assert (Hl : linked (l_node s2) t = false) by (by apply linked_false). rewrite Hl, andb_false_r.
    assert (Hfin : boosted s s2 ∧ (∀ u, u ∉ t :: h :: hs → tasks s2 !! u = tasks s !! u) ∧ prio s2 t = demand s x ∧ inherited s2 t (h :: hs)).
    { split; [by eapply boosted_trans|]. split; [|split; [congruence|split; [|done]]].
      - intros u Hu. rewrite Ho2, Ho; [done|set_solver..].
      - pose proof (demand_caller s1 t h hx Hw1 (boosted_kinv _ _ Hb) Hhx). lia. }
    destruct (t_blocked_port x2); by wp_step.
Qed.

(** C17: Priority inheritance along a chain of calls: when a task's effective priority is recomputed
    ([TaskRecomputePriority]) and its call leads through at most 8 further servers, the task
    afterwards runs at exactly the priority asked for, no server of the chain runs below the task
    that waits for it, no other task is touched and no dead object is dereferenced. *)
Theorem TaskRecomputePriority_chain s t x hs :
  kinv s → tasks s !! t = Some x → chain s t hs → NoDup (t :: hs) → inherited s t hs →
  (length hs ≤ PRIORITY_PROPAGATION_DEPTH)%nat →
  wp (TaskRecomputePriority t) (λ _ s', kinv s' ∧ calm s s' ∧
    (∀ u, u ∉ t :: hs → tasks s' !! u = tasks s !! u) ∧ prio s' t = demand s x ∧ inherited s' t hs) s.
Proof.
  intros Hk Hx Hc Hnd Hi Hn. eapply wp_mono; [by apply (wp_Recompute_chain hs _ s t x)|].
  intros [] s' (((? & ?) & _) & ? & ? & ?). done.
Qed.
End kinv.

(** A caller of priority 6 served by a task that itself waits for a third one. *)
Module CallChain.
#[local] Instance chain_timer : Timer := { counter n := 1000 * Z.of_nat n; ArchTimerFreq := 62500000 }.

Definition caller : TaskObject :=
  set_t_tid 1 (set_t_priority 6 (set_t_base_prio 6 (set_t_state TASK_STATE_BLOCKED (set_t_ipc_state IPC_WAITING
    (set_t_reply_holder (Some 32) (set_t_pending_reply_cap (Some 16) (set_t_reply_cap_storage (mkReply (Some 16) 1) task0))))))).
Definition middle : TaskObject :=
  set_t_tid 2 (set_t_priority 6 (set_t_base_prio 2 (set_t_state TASK_STATE_BLOCKED (set_t_ipc_state IPC_WAITING
    (set_t_reply_cap (Some 16) (set_t_reply_holder (Some 48)
      (set_t_reply_cap_storage (mkReply (Some 32) 2) task0))))))).
Definition last_server : TaskObject := set_t_tid 3 (set_t_priority 6 (set_t_base_prio 1 (set_t_reply_cap (Some 32) task0))).
Definition calls : kst := set_tasks (<[16 := caller]> (<[32 := middle]> (<[48 := last_server]> ∅))) kst0.

Lemma calls_cases t x : tasks calls !! t = Some x → (t = 16 ∧ x = caller) ∨ (t = 32 ∧ x = middle) ∨ (t = 48 ∧ x = last_server).
Proof.
  unfold calls. simpl. rewrite !lookup_insert_Some. intros [[<- <-]|[_ [[<- <-]|[_ [[<- <-]|[_ Hx]]]]]]; auto.
  by rewrite lookup_empty in Hx.
Qed.
Lemma calls_inv : kinv calls.
Proof.
  split; try (apply links_ok_empty || done).
  - intros l Hl. change (ready_mask calls) with 0. by rewrite Z.testbit_0_l.
  - intros t x Hx.
    destruct (calls_cases t x Hx) as [[-> ->]|[[-> ->]|[-> ->]]]; unfold task_ok;
      (split_and!; [done..| | | | | |]; intros c Hc; simplify_eq/=; try done; by eexists).
Qed.
Lemma calls_chain : chain calls 16 [32; 48].
Proof.
  split; [|split].
  - exists caller, middle, 16, caller. split_and!; done.
  - exists middle, last_server, 32, middle. split_and!; done.
  - exists last_server. split_and!; [done..|]. by left.
Qed.

Lemma TaskRecomputePriority_chain_witness :
  demand calls caller = 6 ∧ wp (TaskRecomputePriority 16) (λ _ s', inherited s' 16 [32; 48]) calls.
Proof.
  split; [reflexivity|].
  eapply wp_mono; [apply (TaskRecomputePriority_chain calls 16 caller [32; 48] calls_inv)|].
  - reflexivity.
  - exact calls_chain.
  - apply NoDup_cons. split; [set_solver|]. apply NoDup_cons. split; [set_solver|apply NoDup_singleton].
  - vm_compute. repeat split; congruence.
  - vm_compute. lia.
  - by intros r s' (_ & _ & _ & _ & Hi).
Defined.
Lemma TaskCancelCall_withdraws_witness :
  wp (TaskCancelCall 16) (λ _ s', kinv s' ∧ lin (l_node s') 16 = None) calls.
Proof.
  eapply wp_mono; [apply (TaskCancelCall_withdraws calls 16 caller calls_inv)|].
  - reflexivity.
  - reflexivity.
  - by intros r s' (? & _ & ? & _).
Defined.
End CallChain.
