(* ===== verification/Wheel.v ===== *)
(** kernel/sched/sched.c: waking sleepers, the timer interrupt, blocking and rescheduling.

    The wheel has SLEEP_QUEUE_SIZE slots of [2 ^ slot_shift] counter ticks each.
    [wheel_inv] says where a sleeper may be: in a slot time has not passed and no later
    than the slot of its deadline.  The theorems show that [SchedWakeSleepers] finds
    every expired sleeper within SLEEP_QUEUE_SIZE slots, wakes nobody early, and that the
    timer is armed in time for whoever sleeps on. *)
From S2P Require Import Prelude Bitmap Handle KState Sched Task KInv.

#[local] Open Scope Z_scope.

Section wheel.
Context `{Timer}.

Definition SchedWakeTimedOut (t : Z) : KM unit :=
  upd_task t (set_t_sleep_slot (-1)) ;;
  let! x := task t in
  when (bool_decide (t_ipc_state x = IPC_WAITING))
    (TaskCancelCall t ;; set_reg t 1 0 ;; set_reg t 3 (-1)) ;;
  set_reg t 0 ERR_TIMEOUT ;;
  SchedUnblock t ;;
  SchedAdd t.

(** Emptying the bucket of a slot that time has passed; [n] bounds the tasks popped. *)
Fixpoint wake_slot (n : nat) (slot : Z) : KM unit :=
  let! xs := gets (λ s, bucket s slot) in
  match xs with
  | [] => ret tt
  | t :: _ =>
      match n with
      | O => diverge
      | S n' =>
          timeout_op (lk_remove t) ;;
          upd_task t (set_t_sleep_slot (-1)) ;;
          let! x := task t in
          let! s := get in
          (if wheel_now_slot s <? Z.shiftr (t_wake_deadline x) (slot_shift s)
           then SchedInsertSleepQueue t else SchedWakeTimedOut t) ;;
          wake_slot n' slot
      end
  end.

(** The loop over the slots up to [now_slot]. *)
Fixpoint wake_slots (n : nat) (now_slot : Z) : KM unit :=
  let! w := gets wheel_now_slot in
  if negb (w <? now_slot) then ret tt else
  match n with
  | O => diverge
  | S n' =>
      let slot := w mod SLEEP_QUEUE_SIZE in
      let! xs := gets (λ s, bucket s slot) in
      wake_slot (length xs) slot ;;
      modify (λ s, set_wheel_occ (BitmapClr (wheel_occ s) slot) s) ;;
      modify (λ s, set_wheel_now_slot (w64 (wheel_now_slot s + 1)) s) ;;
      wake_slots n' now_slot
  end.

(** The tasks of the current slot that are due. *)
Fixpoint wake_due (now : Z) (xs : list Z) : KM unit :=
  match xs with
  | [] => ret tt
  | t :: xs' =>
      let! x := task t in
      when (t_wake_deadline x <=? now) (timeout_op (lk_remove t) ;; SchedWakeTimedOut t) ;;
      wake_due now xs'
  end.

Definition SchedWakeSleepers : KM unit :=
  let! now := ArchTimerNow in
  let! s := get in
  let now_slot := Z.shiftr now (slot_shift s) in
  when (SLEEP_QUEUE_SIZE <? w64 (now_slot - wheel_now_slot s))
    (modify (set_wheel_now_slot (w64 (now_slot - SLEEP_QUEUE_SIZE)))) ;;
  wake_slots (Z.to_nat SLEEP_QUEUE_SIZE) now_slot ;;
  let! now := ArchTimerNow in
  let! s := get in
  let cur := wheel_now_slot s mod SLEEP_QUEUE_SIZE in
  wake_due now (bucket s cur) ;;
  let! s := get in
  if bool_decide (bucket s cur = []) then modify (λ s, set_wheel_occ (BitmapClr (wheel_occ s) cur) s)
  else let! m := WheelBucketMin cur in modify (λ s, set_wheel_min (aset (wheel_min s) cur m) s).

Definition SchedTimerExpired : KM unit :=
  modify (set_in_tick true) ;;
  SchedWakeSleepers ;;
  modify (set_in_tick false) ;;
  let! cur := gets current_task in
  match cur with
  | None => ret tt
  | Some c =>
      let! takers := SchedAnyCpuTakers c in
      if takers then
        let! now := ArchTimerNow in
        let! x := task c in
        when (t_slice_deadline x <=? now) SchedSetReschedFlag
      else ret tt
  end ;;
  SchedArmTimer.

(** ** Rescheduling

    [TaskDestroy] frees the stack, the handles and the task itself. *)
Section schedule.
Context (TaskDestroy : Z → KM unit).

Fixpoint consume_destroy (n : nat) : KM unit :=
  let! xs := gets (λ s, lq (l_destroy s) DestroyQ) in
  match xs with
  | [] => ret tt
  | t :: _ =>
      match n with
      | O => diverge
      | S n' =>
          destroy_op (lk_remove t) ;;
          let! cur := gets current_task in
          (if bool_decide (cur = Some t) then destroy_op (lk_add_tail t DeferredQ) else TaskDestroy t) ;;
          consume_destroy n'
      end
  end.
Fixpoint requeue_deferred (n : nat) : KM unit :=
  let! xs := gets (λ s, lq (l_destroy s) DeferredQ) in
  match xs with
  | [] => ret tt
  | t :: _ =>
      match n with
      | O => diverge
      | S n' => destroy_op (lk_remove t) ;; destroy_op (lk_add_tail t DestroyQ) ;; requeue_deferred n'
      end
  end.
Definition SchedConsumeDestroyQueue : KM unit :=
  let! xs := gets (λ s, lq (l_destroy s) DestroyQ) in
  consume_destroy (length xs) ;;
  let! ys := gets (λ s, lq (l_destroy s) DeferredQ) in
  requeue_deferred (length ys).

Definition SchedDoHousekeeping : KM unit := SchedConsumeDestroyQueue ;; SchedWakeSleepers.

Definition Schedule : KM unit :=
  let! cur := gets current_task in
  match cur with
  | None => ret tt
  | Some c =>
      let! x := task c in
      if bool_decide (t_state x = TASK_STATE_RUNNING) then
        upd_task c (set_t_state TASK_STATE_READY) ;;
        let! now := ArchTimerNow in
        let! mask := gets ready_mask in
        let preempted := (now <? t_slice_deadline x) && negb (Z.shiftr mask (t_priority x + 1) =? 0) in
        if preempted then
          upd_task c (set_t_slice_remaining (w64 (t_slice_deadline x - now))) ;; SchedAddFront c
        else SchedAdd c
      else ret tt
  end ;;
  SchedDoHousekeeping ;;
  let! next := SchedPickNext in
  SchedSwitchNext next.

(** [current_task] dereferenced. *)
Definition current : KM Z :=
  let! cur := gets current_task in match cur with Some c => ret c | None => panic end.

Definition SchedBlockOn (q : waitq) (timeout : Z) : KM unit :=
  let! c := current in
  if timeout =? TIMEOUT_POLL then set_reg c 0 ERR_TIMEOUT else
  SchedWaitQueueAdd q c ;;
  upd_task c (set_t_state TASK_STATE_BLOCKED) ;;
  (if negb (timeout =? TIMEOUT_INFINITE) then
     let! d := ArchDeadlineFromMs timeout in
     upd_task c (set_t_wake_deadline d) ;;
     SchedInsertSleepQueue c
   else upd_task c (set_t_wake_deadline 0)) ;;
  Schedule.
End schedule.
End wheel.

(** The hardware counter: 64 bits that only count up, far from their end. *)
Class TimerOk `{Timer} : Prop := {
  counter_mono (n m : nat) : (n ≤ m)%nat → counter n ≤ counter m;
  counter_range (n : nat) : 0 ≤ counter n < 2 ^ 63;
  freq_range : 0 ≤ ArchTimerFreq < 2 ^ 32
}.

Section wheel_ok.
Context `{TimerOk}.
Implicit Types (s : kst) (t : Z) (x : TaskObject).

Definition deadline_slot s x : Z := Z.shiftr (t_wake_deadline x) (slot_shift s).

(** The wheel, except that the slot [c] may have a stale mark and minimum, and that
    sleepers in slots up to [lim] may be overdue. *)
Record wheel_at (c : option Z) (lim : Z) s : Prop := {
  wi_links : links_ok (l_timeout s);
  wi_shift : 0 ≤ slot_shift s ≤ 32;
  wi_now : 0 ≤ wheel_now_slot s ≤ Z.shiftr (counter (clk s)) (slot_shift s);
  wi_occ_wf : bm_wf (wheel_occ s) SLEEP_QUEUE_SIZE;
  wi_occ slot : 0 ≤ slot < SLEEP_QUEUE_SIZE → c ≠ Some slot →
    bm_test (wheel_occ s) slot = true ↔ bucket s slot ≠ [];
  wi_min_len : length (wheel_min s) = Z.to_nat SLEEP_QUEUE_SIZE;
  wi_min slot t x : c ≠ Some slot → lin (l_timeout s) t = Some slot → tasks s !! t = Some x →
    aget (wheel_min s) slot ≤ t_wake_deadline x;
  wi_at t slot : lin (l_timeout s) t = Some slot →
    ∃ x, tasks s !! t = Some x ∧ t_sleep_slot x = slot ∧ t_state x = TASK_STATE_BLOCKED ∧
      0 ≤ t_wake_deadline x < 2 ^ 64 ∧
      ∃ a, wheel_now_slot s ≤ a < wheel_now_slot s + SLEEP_QUEUE_SIZE ∧ slot = a mod SLEEP_QUEUE_SIZE ∧
           (a ≤ deadline_slot s x ∨ a ≤ lim);
  wi_slot t x : tasks s !! t = Some x → 0 ≤ t_sleep_slot x → lin (l_timeout s) t = Some (t_sleep_slot x)
}.

(** Between operations: no stale slot, and only the slot time is in may be overdue. *)
Definition wheel_inv s : Prop := wheel_at None (wheel_now_slot s) s.

Lemma now_mono s n : (clk s ≤ n)%nat → wheel_now_slot s ≤ Z.shiftr (counter (clk s)) (slot_shift s) → 0 ≤ slot_shift s →
  wheel_now_slot s ≤ Z.shiftr (counter n) (slot_shift s).
Proof.
  intros Hn Hw Hs. pose proof (counter_mono _ _ Hn). rewrite !Z.shiftr_div_pow2 in * by done.
  pose proof (Z.div_le_mono (counter (clk s)) (counter n) (2 ^ slot_shift s)). lia.
Qed.

Lemma wheel_calm c lim s s' : calm s s' → wheel_at c lim s → wheel_at c lim s'.
Proof.
  intros Hc Hw. pose proof (c_tasks _ _ Hc) as Ht. destruct Hc, Hw.
  assert (Htask : ∀ t x, tasks s !! t = Some x → ∃ x', tasks s' !! t = Some x' ∧ t_wake_deadline x' = t_wake_deadline x ∧
    t_sleep_slot x' = t_sleep_slot x ∧ t_state x' = t_state x).
  { intros t x Hx. specialize (Ht t). rewrite Hx in Ht. destruct (tasks s' !! t); [|done]. destruct_and!. eauto. }
  assert (Htask' : ∀ t x', tasks s' !! t = Some x' → ∃ x, tasks s !! t = Some x ∧ t_wake_deadline x' = t_wake_deadline x ∧
    t_sleep_slot x' = t_sleep_slot x).
  { intros t x Hx. specialize (Ht t). rewrite Hx in Ht. destruct (tasks s !! t); [|done]. destruct_and!. eauto. }
  split; unfold bucket, deadline_slot in *; rewrite ?c_timeout, ?c_occ, ?c_min, ?c_now, ?c_shift; try done.
  - split; [lia|]. apply now_mono; lia.
  - intros slot t x' Hne Hl Hx'. destruct (Htask' t x' Hx') as (x & Hx & -> & _). eauto.
  - intros t slot Hl. destruct (wi_at0 t slot Hl) as (x & Hx & H1 & H2 & H3 & H4).
    destruct (Htask t x Hx) as (x' & Hx' & Ed & Es & Est). exists x'. rewrite Ed, Es, Est. done.
  - intros t x' Hx' Hs. destruct (Htask' t x' Hx') as (x & Hx & _ & Es). rewrite Es in *. eauto.
Qed.

(** * Waking one task *)

(** [s'] is what a step leaves once task [t] has become [y]. *)
Lemma calm_set s s1 t x y x1 x1' y' :
  tasks s !! t = Some x → calm (set_tasks (<[t := y]> (tasks s)) s) s1 → tasks s1 !! t = Some x1 →
  t_wake_deadline x1' = t_wake_deadline y' → t_sleep_slot x1' = t_sleep_slot y' →
  t_state x1' = t_state y' → t_regs x1' = t_regs y' →
  calm (set_tasks (<[t := y']> (tasks s)) s) (set_tasks (<[t := x1']> (tasks s1)) s1).
Proof.
  intros Hx Hc Hx1 E1 E2 E3 E4. pose proof (c_tasks _ _ Hc) as Ht. destruct Hc. split; try done.
  intros u. specialize (Ht u). simpl in *. destruct (decide (u = t)) as [->|]; [by rewrite !lookup_insert_eq|].
  by rewrite !lookup_insert_ne in * by done.
Qed.
Lemma calm_set0 s t x x' y' :
  tasks s !! t = Some x → t_wake_deadline x' = t_wake_deadline y' → t_sleep_slot x' = t_sleep_slot y' →
  t_state x' = t_state y' → t_regs x' = t_regs y' →
  calm (set_tasks (<[t := y']> (tasks s)) s) (set_tasks (<[t := x']> (tasks s)) s).
Proof.
  intros Hx. apply (calm_set s s t x x x); [done| |done]. rewrite insert_id by done.
  replace (set_tasks (tasks s) s) with s by (by destruct s). apply calm_refl.
Qed.

Definition unblocked x : TaskObject :=
  set_t_state TASK_STATE_READY (set_t_blocked_port None (set_t_ipc_state IPC_NONE (set_t_wake_deadline 0 x))).

Lemma wp_SchedUnblock_awake s t x :
  kinv s → tasks s !! t = Some x → lin (l_node s) t = None → t_sleep_slot x < 0 →
  wp (SchedUnblock t) (λ _ s', kinv s' ∧ tasks s' !! t = Some (unblocked x) ∧
    calm (set_tasks (<[t := unblocked x]> (tasks s)) s) s') s.
Proof.
  intros Hk Hx Hn Hs. unfold SchedUnblock. wp_steps. 
  eapply (wp_mono _ (λ _ s1, requeued t s s1 ∧ tasks s1 = tasks s ∧ l_node s1 = l_node s ∧ lin (l_wait s1) t = None)).
  { apply wp_when; intros Hl.
    - apply linked_spec in Hl as [q Hq]. eapply wp_remove_wait; [done..|]. by intros s1 Hr Ht Hn1 Hw.
    - split_and!; [by apply requeued_refl|done..|by apply linked_false]. }
  intros [] s1 (Hr & Ht & Hn1 & Hw). pose proof (requeued_kinv _ _ _ Hr) as Hk1. wp_step. unfold SchedRemoveSleepQueue.
  wp_step. apply wp_task. exists x. split; [congruence|]. rewrite (proj2 (Z.ltb_lt _ _) Hs). wp_step.
  apply wp_upd_task. exists x. split; [congruence|]. fold (unblocked x). split_and!.
  - apply (kinv_upd s1 t x); [done|congruence|..].
    + pose proof (ki_task s1 Hk1 t x ltac:(congruence)) as Hok. exact Hok.
    + intros q Hq. rewrite Hn1 in Hq. congruence.
    + intros q Hq. congruence.
    + intros q Hq. destruct (ki_serve_at s1 Hk1 t q Hq) as (y & Hy & Hsp). simpl. congruence.
  - simpl. by rewrite lookup_insert_eq.
  - apply (calm_set s s1 t x x x); [done| |congruence|done..]. rewrite insert_id by done.
    replace (set_tasks (tasks s) s) with s by (by destruct s). apply Hr.
Qed.

Definition timeout_regs x : list Z :=
  aset (if bool_decide (t_ipc_state x = IPC_WAITING) then aset (aset (t_regs x) 1 (w32 0)) 3 (w32 (-1)) else t_regs x)
    0 (w32 ERR_TIMEOUT).
Definition timed_out x : TaskObject :=
  set_t_regs (timeout_regs x) (set_t_sleep_slot (-1) (unblocked x)).

Lemma kinv_set_reg s t x i v Q :
  kinv s → tasks s !! t = Some x →
  (∀ s', s' = set_tasks (<[t := set_t_regs (aset (t_regs x) i (w32 v)) x]> (tasks s)) s → kinv s' → Q tt s') →
  wp (set_reg t i v) Q s.
Proof.
  intros Hk Hx HQ. unfold set_reg. apply wp_upd_task. exists x. split; [done|]. apply HQ; [done|].
  by apply (kinv_upd_plain s t x).
Qed.

(** The withdrawal of the call, if there is one, and the registers it sets. *)
Lemma wp_timeout_call s t x :
  kinv s → tasks s !! t = Some x → t_state x = TASK_STATE_BLOCKED → t_sleep_slot x = -1 →
  wp (when (bool_decide (t_ipc_state x = IPC_WAITING)) (TaskCancelCall t ;; set_reg t 1 0 ;; set_reg t 3 (-1)) ;;
      set_reg t 0 ERR_TIMEOUT)
    (λ _ s', kinv s' ∧ lin (l_node s') t = None ∧
      calm (set_tasks (<[t := set_t_regs (timeout_regs x) x]> (tasks s)) s) s') s.
Proof.
  intros Hk Hx Hst Hsl. wp_step. unfold timeout_regs.
  assert (Hself : calm (set_tasks (<[t := x]> (tasks s)) s) s).
  { rewrite insert_id by done. replace (set_tasks (tasks s) s) with s by (by destruct s). apply calm_refl. }
  destruct (bool_decide (t_ipc_state x = IPC_WAITING)) eqn:Ei; simpl.
  - wp_step. eapply wp_mono; [by apply wp_TaskCancelCall|]. intros [] s1 ([Hk1 Hc1] & Hn1 & (y & Hy & Hys & _) & _ & _).
    pose proof (c_tasks _ _ Hc1 t) as Ht1. rewrite Hx, Hy in Ht1. destruct Ht1 as (Ed & Es & _ & Er).
    pose proof (calm_trans _ _ _ Hself Hc1) as Hc1'.
    wp_step. eapply kinv_set_reg; [done..|]. intros s2 -> Hk2. eapply kinv_set_reg; [done|simpl; by rewrite lookup_insert_eq|].
    intros s3 -> Hk3. eapply kinv_set_reg; [done|simpl; by rewrite lookup_insert_eq|]. intros s4 -> Hk4.
    split_and!; [done..|]. simpl. rewrite !insert_insert_eq. 
    apply (calm_set s s1 t x x y); [done..|]. simpl. by rewrite Er.
  - assert (Hn : lin (l_node s) t = None).
    { destruct (lin (l_node s) t) as [q|] eqn:Eq; [|done]. destruct (ki_node_at s Hk t q Eq) as (y & Hy & Hat).
      assert (y = x) as -> by congruence. apply bool_decide_eq_false in Ei.
      destruct q; [destruct Hat as (_ & _ & ?)|destruct Hat as (_ & _ & _ & ? & _)]; congruence. }
    eapply kinv_set_reg; [done..|]. intros s1 -> Hk1. split_and!; [done..|]. by apply (calm_set0 s t x).
Qed.

Lemma wp_SchedWakeTimedOut s t x :
  kinv s → tasks s !! t = Some x → t_state x = TASK_STATE_BLOCKED →
  wp (SchedWakeTimedOut t) (λ _ s', kinv s' ∧ calm (set_tasks (<[t := timed_out x]> (tasks s)) s) s') s.
Proof.
  intros Hk Hx Hst. unfold SchedWakeTimedOut. wp_step. apply wp_upd_task. exists x. split; [done|].
  set (x1 := set_t_sleep_slot (-1) x). set (s1 := set_tasks (<[t := x1]> (tasks s)) s).
  assert (Hk1 : kinv s1) by (by apply (kinv_upd_plain s t x)).
  assert (Hx1 : tasks s1 !! t = Some x1) by (simpl; by rewrite lookup_insert_eq).
  wp_step. apply wp_task. exists x1. split; [done|]. 
  eapply wp_seq2; [by apply (wp_timeout_call s1 t x1)|].
  intros [] s2 (Hk2 & Hn2 & Hc2). pose proof (c_tasks _ _ Hc2 t) as Ht2. simpl in Ht2. rewrite lookup_insert_eq in Ht2.
  destruct (tasks s2 !! t) as [x2|] eqn:Hx2; [|done]. destruct Ht2 as (Ed & Es & Est & Er). wp_step.
  eapply wp_mono; [apply (wp_SchedUnblock_awake s2 t x2); try done; rewrite Es; done|].
  intros [] s3 (Hk3 & Hx3 & Hc3). eapply wp_mono; [exact (requeued_SchedEnqueue s3 t (unblocked x2) false Hk3 Hx3 eq_refl)|].
  intros [] s4 (Hr4 & _). split; [by eapply requeued_kinv|]. eapply calm_trans; [|apply Hr4].
  eapply calm_trans; [|exact Hc3]. apply (calm_set s s2 t x (set_t_regs (timeout_regs x1) x1) x2); try done.
  by simpl in Hc2; rewrite insert_insert_eq in Hc2.
Qed.

(** * Going to sleep *)

Definition abs_slot s x : Z :=
  let a := Z.max (deadline_slot s x) (wheel_now_slot s) in
  if SLEEP_QUEUE_SIZE <=? a - wheel_now_slot s then wheel_now_slot s + SLEEP_QUEUE_SIZE - 1 else a.

Lemma abs_slot_range s x :
  wheel_now_slot s ≤ abs_slot s x < wheel_now_slot s + SLEEP_QUEUE_SIZE ∧
  (abs_slot s x ≤ deadline_slot s x ∨ abs_slot s x ≤ wheel_now_slot s).
Proof. unfold abs_slot, SLEEP_QUEUE_SIZE. case_if E; b2p; lia. Qed.
Lemma abs_slot_later s x : wheel_now_slot s < deadline_slot s x → abs_slot s x ≠ wheel_now_slot s.
Proof. unfold abs_slot, SLEEP_QUEUE_SIZE. case_if E; b2p; lia. Qed.

Lemma now_bound c lim s : wheel_at c lim s → 0 ≤ wheel_now_slot s < 2 ^ 63.
Proof.
  intros Hw. pose proof (wi_now _ _ _ Hw) as Hn. pose proof (wi_shift _ _ _ Hw) as Hs. pose proof (counter_range (clk s)).
  split; [lia|]. rewrite Z.shiftr_div_pow2 in Hn by lia.
  assert (counter (clk s) / 2 ^ slot_shift s ≤ counter (clk s)) by (apply Z.div_le_upper_bound; nia). lia.
Qed.
Lemma deadline_slot_range c lim s x :
  wheel_at c lim s → 0 ≤ t_wake_deadline x < 2 ^ 64 → 0 ≤ deadline_slot s x < 2 ^ 64.
Proof.
  intros Hw Hd. pose proof (wi_shift _ _ _ Hw) as Hs. unfold deadline_slot. rewrite Z.shiftr_div_pow2 by lia.
  split; [apply Z.div_pos; lia|]. assert (t_wake_deadline x / 2 ^ slot_shift s ≤ t_wake_deadline x) by (apply Z.div_le_upper_bound; nia). lia.
Qed.

Definition inserted s t x : kst :=
  let slot := abs_slot s x mod SLEEP_QUEUE_SIZE in
  let m := if bool_decide (bucket s slot = []) || (t_wake_deadline x <? aget (wheel_min s) slot)
           then aset (wheel_min s) slot (t_wake_deadline x) else wheel_min s in
  set_tasks (<[t := set_t_sleep_slot slot x]> (tasks s))
    (set_wheel_occ (BitmapSet (wheel_occ s) slot)
      (set_l_timeout (mkLinks (fset (lq (l_timeout s)) slot (bucket s slot ++ [t])) (fset (lin (l_timeout s)) t (Some slot)))
        (set_wheel_min m s))).

Lemma wp_SchedInsertSleepQueue c lim s t x Q :
  wheel_at c lim s → cur_ok s → tasks s !! t = Some x → lin (l_timeout s) t = None → 0 ≤ t_wake_deadline x < 2 ^ 64 →
  (∀ s', timer_only (inserted s t x) s' → Q tt s') → wp (SchedInsertSleepQueue t) Q s.
Proof.
  intros Hw Hc Hx Hl Hd HQ. unfold SchedInsertSleepQueue. wp_step. apply wp_task. exists x. split; [done|]. wp_steps.
  pose proof (now_bound _ _ _ Hw). pose proof (deadline_slot_range _ _ _ _ Hw Hd) as Hds. fold (deadline_slot s x).
  assert (Ha : (let a := if deadline_slot s x <? wheel_now_slot s then wheel_now_slot s else deadline_slot s x in
     if SLEEP_QUEUE_SIZE <=? w64 (a - wheel_now_slot s) then w64 (wheel_now_slot s + SLEEP_QUEUE_SIZE - 1) else a) = abs_slot s x).
  { cbv zeta. unfold abs_slot, w64, SLEEP_QUEUE_SIZE.
    destruct (Z.ltb_spec (deadline_slot s x) (wheel_now_slot s)).
    - rewrite Z.max_r by lia. rewrite Z.sub_diag. done.
    - rewrite Z.max_l, (Z.mod_small (_ - _)) by lia. rewrite Z.mod_small by lia. done. }
  cbv zeta in Ha. rewrite Ha. clear Ha. set (slot := abs_slot s x mod SLEEP_QUEUE_SIZE) in *.
  set (grow := bool_decide (bucket s slot = []) || (t_wake_deadline x <? aget (wheel_min s) slot)).
  set (m := if grow then aset (wheel_min s) slot (t_wake_deadline x) else wheel_min s).
  eapply (wp_mono _ (λ _ s1, s1 = set_wheel_min m s)).
  { apply wp_when; intros Eg; subst m; rewrite Eg; [by wp_step|]. by destruct s. }
  intros [] s1 ->. wp_step. apply wp_link_op. unfold lk_add_tail, lk_link. simpl.
  rewrite (proj2 (linked_false _ _) Hl). eexists. split; [done|]. wp_steps. apply wp_upd_task. exists x. split; [done|].
  apply wp_SchedArmTimer; [|exact HQ]. intros u Hu. simpl in *. rewrite (live_insert s t x) by done. by apply Hc.
Qed.

Lemma slot_range a : 0 ≤ a mod SLEEP_QUEUE_SIZE < SLEEP_QUEUE_SIZE.
Proof. apply Z.mod_pos_bound. done. Qed.
Lemma occ_len s c lim slot : wheel_at c lim s → 0 ≤ slot < SLEEP_QUEUE_SIZE → 0 ≤ slot < 32 * Z.of_nat (length (wheel_occ s)).
Proof. intros Hw Hs. destruct (wi_occ_wf _ _ _ Hw) as (_ & Hn & _). lia. Qed.

Lemma wheel_inserted c lim s t x :
  wheel_at c lim s → tasks s !! t = Some x → lin (l_timeout s) t = None → t_state x = TASK_STATE_BLOCKED →
  0 ≤ t_wake_deadline x < 2 ^ 64 → wheel_now_slot s ≤ lim → wheel_at c lim (inserted s t x).
Proof.
  intros Hw Hx Hl Hst Hd Hlim. pose proof (slot_range (abs_slot s x)) as Hsl.
  destruct (abs_slot_range s x) as [Har Had]. unfold inserted. cbv zeta.
  set (slot := abs_slot s x mod SLEEP_QUEUE_SIZE) in *. pose proof (occ_len _ _ _ _ Hw Hsl) as Hol.
  destruct Hw. split; simpl; try done.
  - eapply (links_ok_link (l_timeout s) t slot (bucket s slot ++ [t])); [done| |unfold lk_link; by rewrite (proj2 (linked_false _ _) Hl)].
    by rewrite Permutation_app_comm.
  - apply bm_wf_Set; [done|lia].
  - intros slot' Hs' Hne. unfold bucket. simpl. rewrite bm_test_Set by lia. destruct (decide (slot' = slot)) as [->|Hn].
    + rewrite bool_decide_eq_true_2 by done. rewrite fset_eq. simpl. split; [|done]. intros _. by destruct (lq (l_timeout s) slot).
    + rewrite bool_decide_eq_false_2 by done. rewrite fset_ne by done. by apply wi_occ0.
  - case_match; rewrite ?length_aset; done.
  - intros slot' u y Hne. unfold fset at 1. simpl. destruct (decide (u = t)) as [->|Hu].
    + intros [= <-]. rewrite lookup_insert_eq. intros [= <-]. simpl.
      destruct (bool_decide (bucket s slot = []) || (t_wake_deadline x <? aget (wheel_min s) slot)) eqn:Eg.
      * rewrite aget_aset_eq by (rewrite wi_min_len0; unfold SLEEP_QUEUE_SIZE in *; lia). lia.
      * apply orb_false_elim in Eg as [_ Eg]. apply Z.ltb_ge in Eg. done.
    + rewrite lookup_insert_ne by done. intros Hlu Hy. pose proof (wi_min0 slot' u y Hne Hlu Hy) as Hm.
      destruct (wi_at0 u slot' Hlu) as (_ & _ & _ & _ & _ & a & _ & Hsa & _). pose proof (slot_range a) as Hs'.
      destruct (bool_decide (bucket s slot = []) || (t_wake_deadline x <? aget (wheel_min s) slot)) eqn:Eg; [|done].
      destruct (decide (slot' = slot)) as [->|Hn]; [|rewrite aget_aset_ne by lia; done].
      rewrite aget_aset_eq by (rewrite wi_min_len0; unfold SLEEP_QUEUE_SIZE in *; lia).
      apply orb_prop in Eg as [Eg%bool_decide_eq_true|Eg%Z.ltb_lt]; [|lia].
      assert (Hin : u ∈ bucket s slot) by (apply wi_links0; congruence). rewrite Eg in Hin. by apply elem_of_nil in Hin.
  - intros u slot'. unfold fset. destruct (decide (u = t)) as [->|Hu].
    + intros [= <-]. exists (set_t_sleep_slot slot x). rewrite lookup_insert_eq. split; [done|]. split; [done|]. split; [done|].
      split; [exact Hd|]. exists (abs_slot s x). split; [lia|]. split; [done|]. unfold deadline_slot in *. simpl. lia.
    + rewrite lookup_insert_ne by done. intros Hlu. apply wi_at0, Hlu.
  - intros u y. unfold fset. destruct (decide (u = t)) as [->|Hu].
    + rewrite lookup_insert_eq. by intros [= <-].
    + rewrite lookup_insert_ne by done. apply wi_slot0.
Qed.

Lemma kinv_inserted s t x : kinv s → tasks s !! t = Some x → kinv (inserted s t x).
Proof.
  intros Hk Hx. pose proof (kinv_upd_plain s t x (set_t_sleep_slot (abs_slot s x mod SLEEP_QUEUE_SIZE) x) Hk Hx) as Hk1.
  destruct Hk1; [done|]. unfold inserted. cbv zeta. split; done.
Qed.

(** * Leaving the wheel *)

(** [t] is taken out of [slot] and becomes [y]. *)
Definition left_wheel s t (y : TaskObject) slot : kst :=
  set_tasks (<[t := y]> (tasks s))
    (set_l_timeout (mkLinks (fset (lq (l_timeout s)) slot (filter (λ u, u ≠ t) (bucket s slot))) (fset (lin (l_timeout s)) t None)) s).

Lemma wheel_left lim s t x y slot :
  wheel_at (Some slot) lim s → tasks s !! t = Some x → lin (l_timeout s) t = Some slot → t_sleep_slot y < 0 →
  wheel_at (Some slot) lim (left_wheel s t y slot).
Proof.
  intros Hw Hx Hl Hy. destruct Hw. split; simpl; try done.
  - eapply (links_ok_remove (l_timeout s) t); [done|]. unfold lk_remove. by rewrite Hl.
  - intros slot' Hs' Hne. unfold bucket. simpl. rewrite fset_ne by congruence. by apply wi_occ0.
  - intros slot' u z Hne. unfold fset. destruct (decide (u = t)) as [->|Hu]; [done|].
    rewrite lookup_insert_ne by done. by apply wi_min0.
  - intros u slot'. unfold fset. destruct (decide (u = t)) as [->|Hu]; [done|]. rewrite lookup_insert_ne by done. apply wi_at0.
  - intros u z. unfold fset. destruct (decide (u = t)) as [->|Hu].
    + rewrite lookup_insert_eq. intros [= <-]. lia.
    + rewrite lookup_insert_ne by done. apply wi_slot0.
Qed.

Lemma kinv_timeout s L : kinv s → kinv (set_l_timeout L s).
Proof. intros []. by split. Qed.

(** What may become of a task between [s] and [s'], [n] being the latest time read. *)
Definition fate (n : Z) s s' t x x' : Prop :=
  (t_wake_deadline x' = t_wake_deadline x ∧ t_state x' = t_state x ∧ t_regs x' = t_regs x ∧
   linked (l_timeout s') t = linked (l_timeout s) t) ∨
  (linked (l_timeout s) t = true ∧ linked (l_timeout s') t = false ∧ t_wake_deadline x ≤ n ∧
   t_state x' = TASK_STATE_READY ∧ t_wake_deadline x' = 0 ∧ ∃ r, t_regs x' = aset r 0 (w32 ERR_TIMEOUT)).

Record aged (n : Z) s s' : Prop := {
  ag_shift : slot_shift s' = slot_shift s;
  ag_clk : (clk s ≤ clk s')%nat;
  ag_cur : current_task s' = current_task s;
  ag_dom t : tasks s !! t = None → tasks s' !! t = None;
  ag_tasks t x : tasks s !! t = Some x → ∃ x', tasks s' !! t = Some x' ∧ fate n s s' t x x'
}.

Lemma aged_trans n m s1 s2 s3 : aged n s1 s2 → aged m s2 s3 → n ≤ m → aged m s1 s3.
Proof.
  intros H1 H2 Hnm. split; [by rewrite (ag_shift _ _ _ H2), (ag_shift _ _ _ H1)| | | |].
  - pose proof (ag_clk _ _ _ H1). pose proof (ag_clk _ _ _ H2). lia.
  - by rewrite (ag_cur _ _ _ H2), (ag_cur _ _ _ H1).
  - intros t Ht. by apply (ag_dom _ _ _ H2), (ag_dom _ _ _ H1).
  - intros t x Hx. destruct (ag_tasks _ _ _ H1 t x Hx) as (x' & Hx' & F1).
    destruct (ag_tasks _ _ _ H2 t x' Hx') as (x'' & Hx'' & F2). exists x''. split; [done|]. unfold fate in *.
    destruct F1 as [(E1 & E2 & E3 & E4)|(E1 & E2 & E3 & E4 & E5 & r & E6)],
             F2 as [(G1 & G2 & G3 & G4)|(G1 & G2 & G3 & G4 & G5 & r' & G6)].
    + left. split_and!; congruence.
    + right. split_and!; try congruence; by eexists.
    + right. split_and!; try congruence; [lia|]. exists r. congruence.
    + congruence.
Qed.
Lemma aged_calm n s s' : calm s s' → aged n s s'.
Proof.
  intros Hc. pose proof (c_tasks _ _ Hc) as Ht. destruct Hc. split; try done.
  - intros t Hx. specialize (Ht t). rewrite Hx in Ht. by destruct (tasks s' !! t).
  - intros t x Hx. specialize (Ht t). rewrite Hx in Ht. destruct (tasks s' !! t) as [x'|]; [|done].
    exists x'. destruct_and!. split; [done|]. left. by rewrite c_timeout.
Qed.
Lemma aged_refl n s : aged n s s.
Proof. apply aged_calm, calm_refl. Qed.

Lemma aged_woken n s s' t x slot :
  tasks s !! t = Some x → lin (l_timeout s) t = Some slot → t_wake_deadline x ≤ n →
  calm (left_wheel s t (timed_out x) slot) s' → aged n s s'.
Proof.
  intros Hx Hl Hd Hc. apply (aged_trans n n s (left_wheel s t (timed_out x) slot)); [|by apply aged_calm|done].
  split; try done; simpl.
  - intros u Hu. rewrite lookup_insert_ne by congruence. done.
  - intros u y Hy. destruct (decide (u = t)) as [->|Hu].
    + assert (y = x) as -> by congruence. rewrite lookup_insert_eq. eexists. split; [done|]. right.
      split_and!; [apply linked_spec; by eexists|apply linked_false; simpl; by rewrite fset_eq|done..|]. by eexists.
    + rewrite lookup_insert_ne by done. eexists. split; [done|]. left. split_and!; [done..|].
      unfold linked. simpl. by rewrite fset_ne.
Qed.
Lemma aged_moved n s t x slot :
  tasks s !! t = Some x → lin (l_timeout s) t = Some slot →
  let s1 := left_wheel s t (set_t_sleep_slot (-1) x) slot in aged n s (inserted s1 t (set_t_sleep_slot (-1) x)).
Proof.
  intros Hx Hl s1. split; try done; simpl.
  - intros u Hu. rewrite !lookup_insert_ne by congruence. done.
  - intros u y Hy. destruct (decide (u = t)) as [->|Hu].
    + assert (y = x) as -> by congruence. rewrite lookup_insert_eq. eexists. split; [done|]. left.
      split_and!; [done..|]. unfold linked. simpl. by rewrite fset_eq, Hl.
    + rewrite !lookup_insert_ne by done. eexists. split; [done|]. left. split_and!; [done..|].
      unfold linked. simpl. by rewrite !fset_ne.
Qed.

(** * The slots time has passed *)

Lemma deadline_slot_le s x w : 0 ≤ slot_shift s → deadline_slot s x ≤ w ↔ t_wake_deadline x < (w + 1) * 2 ^ slot_shift s.
Proof.
  intros Hs. unfold deadline_slot. rewrite Z.shiftr_div_pow2 by done.
  assert (0 < 2 ^ slot_shift s) by (by apply Z.pow_pos_nonneg).
  pose proof (Z.mul_div_le (t_wake_deadline x) (2 ^ slot_shift s)). pose proof (Z.mul_succ_div_gt (t_wake_deadline x) (2 ^ slot_shift s)).
  split; intros; nia.
Qed.
Lemma other_slot w a : w < a < w + SLEEP_QUEUE_SIZE → a mod SLEEP_QUEUE_SIZE ≠ w mod SLEEP_QUEUE_SIZE.
Proof.
  unfold SLEEP_QUEUE_SIZE. intros Ha Heq.
  pose proof (Z.div_mod a 512). pose proof (Z.div_mod w 512). lia.
Qed.
Lemma bucket_head s t rest slot :
  links_ok (l_timeout s) → bucket s slot = t :: rest →
  lin (l_timeout s) t = Some slot ∧ filter (λ u, u ≠ t) (bucket s slot) = rest.
Proof.
  intros [Hin Hnd] Hb. assert (Ht : t ∈ bucket s slot) by (rewrite Hb; by left). split; [by apply Hin|].
  specialize (Hnd slot). fold (bucket s slot) in Hnd. rewrite Hb in *. apply NoDup_cons in Hnd as [Hni _].
  rewrite filter_cons_False by (intros []; done). apply filter_all. intros u Hu ->. done.
Qed.

(** The state in which a popped sleeper is judged. *)
Lemma popped lim s t x slot :
  kinv s → wheel_at (Some slot) lim s → tasks s !! t = Some x → lin (l_timeout s) t = Some slot →
  let s1 := left_wheel s t (set_t_sleep_slot (-1) x) slot in
  kinv s1 ∧ wheel_at (Some slot) lim s1 ∧ tasks s1 !! t = Some (set_t_sleep_slot (-1) x) ∧ lin (l_timeout s1) t = None.
Proof.
  intros Hk Hw Hx Hl s1. split_and!.
  - unfold s1, left_wheel. apply (kinv_upd_plain (set_l_timeout _ s) t x); [by apply kinv_timeout|done..].
  - by eapply wheel_left.
  - simpl. by rewrite lookup_insert_eq.
  - simpl. by rewrite fset_eq.
Qed.

Lemma wp_wake_slot slot lim n : ∀ k s,
  kinv s → wheel_at (Some slot) lim s → slot = wheel_now_slot s mod SLEEP_QUEUE_SIZE → wheel_now_slot s ≤ lim →
  (wheel_now_slot s + 1) * 2 ^ slot_shift s ≤ n → (length (bucket s slot) ≤ k)%nat →
  wp (wake_slot k slot) (λ _ s', kinv s' ∧ wheel_at (Some slot) lim s' ∧ wheel_now_slot s' = wheel_now_slot s ∧
    bucket s' slot = [] ∧ aged n s s') s.
Proof.
  induction k as [|k IH]; intros s Hk Hw Hslot Hlim Hn Hlen; simpl; wp_step; wp_step; destruct (bucket s slot) as [|t rest] eqn:Eb;
    try (wp_step; split_and!; [done..|apply aged_refl]); simpl in Hlen; [lia|].
  destruct (bucket_head s t rest slot (wi_links _ _ _ Hw) Eb) as [Hl Hrest].
  destruct (wi_at _ _ _ Hw t slot Hl) as (x & Hx & _ & Hst & Hd & _).
  destruct (popped lim s t x slot Hk Hw Hx Hl) as (Hk1 & Hw1 & Hx1 & Hl1). set (s1 := left_wheel s t _ slot) in *.
  assert (Hb1 : bucket s1 slot = rest) by (unfold bucket; simpl; by rewrite fset_eq).
  wp_step. apply wp_link_op. unfold lk_remove. rewrite Hl. eexists. split; [done|]. wp_step. apply wp_upd_task.
  exists x. split; [done|]. fold (bucket s slot). change (set_tasks _ _) with s1. wp_step. apply wp_task. eexists. split; [exact Hx1|].
  wp_steps. change (wheel_now_slot s1) with (wheel_now_slot s). simpl (t_wake_deadline _). fold (deadline_slot s1 x).
  change (deadline_slot s1 x) with (deadline_slot s x).
  eapply (wp_mono _ (λ _ s2, kinv s2 ∧ wheel_at (Some slot) lim s2 ∧ wheel_now_slot s2 = wheel_now_slot s ∧
    slot_shift s2 = slot_shift s ∧ bucket s2 slot = rest ∧ aged n s s2)).
  - destruct (Z.ltb_spec (wheel_now_slot s) (deadline_slot s x)) as [Hlt|Hge].
    + apply (wp_SchedInsertSleepQueue (Some slot) lim s1 t (set_t_sleep_slot (-1) x)); try done; [by apply (ki_cur s1)|].
      intros s2 Hs2. pose proof (wheel_inserted _ lim s1 t _ Hw1 Hx1 Hl1 Hst Hd Hlim) as Hw2.
      pose proof (kinv_inserted s1 t _ Hk1 Hx1) as Hk2. split_and!.
      * by eapply kinv_timer.
      * eapply wheel_calm; [by apply calm_timer|done].
      * by destruct Hs2 as (b & d & m & ->).
      * by destruct Hs2 as (b & d & m & ->).
      * destruct Hs2 as (b & d & m & ->). unfold bucket. simpl. rewrite fset_ne; [exact Hb1|]. subst slot. apply not_eq_sym.
        pose proof (abs_slot_range s1 (set_t_sleep_slot (-1) x)) as [Ha _].
        pose proof (abs_slot_later s1 (set_t_sleep_slot (-1) x) Hlt). apply other_slot. change (wheel_now_slot s1) with (wheel_now_slot s) in *. lia.
      * eapply aged_trans; [by apply (aged_moved n s t x slot)|by apply aged_calm, calm_timer|done].
    + eapply wp_mono; [by apply (wp_SchedWakeTimedOut s1 t _ Hk1 Hx1)|]. intros [] s2 [Hk2 Hc2].
      assert (Hc2' : calm (left_wheel s t (timed_out x) slot) s2).
      { unfold s1, left_wheel in Hc2. simpl in Hc2. rewrite insert_insert_eq in Hc2. exact Hc2. }
      assert (Hw2 : wheel_at (Some slot) lim s2) by (eapply wheel_calm; [exact Hc2'|by eapply wheel_left]).
      split_and!; [done..| | | |].
      * by rewrite (c_now _ _ Hc2').
      * by rewrite (c_shift _ _ Hc2').
      * unfold bucket. rewrite (c_timeout _ _ Hc2'). simpl. by rewrite fset_eq.
      * eapply aged_woken; [done..| |done]. pose proof (wi_shift _ _ _ Hw).
        apply deadline_slot_le in Hge; lia.
  - intros [] s2 (Hk2 & Hw2 & En & Es & Eb2 & Ha2).
    eapply wp_mono; [apply (IH s2); rewrite ?En, ?Es, ?Eb2; try done; lia|].
    intros [] s3 (? & ? & E3 & ? & Ha3). split_and!; try done; [congruence|]. by eapply aged_trans.
Qed.

Lemma wheel_exempt c lim s : wheel_at None lim s → wheel_at c lim s.
Proof. intros []. split; try done; intros; eauto. Qed.
Lemma wheel_lim c lim lim' s : lim ≤ lim' → wheel_at c lim s → wheel_at c lim' s.
Proof.
  intros Hl []. split; try done. intros t slot Hs. destruct (wi_at0 t slot Hs) as (x & ? & ? & ? & ? & a & ? & ? & ?).
  exists x. split_and!; try done; try lia. exists a. split_and!; try done; try lia.
Qed.

Lemma wheel_advance slot lim s :
  wheel_at (Some slot) lim s → slot = wheel_now_slot s mod SLEEP_QUEUE_SIZE → bucket s slot = [] →
  wheel_now_slot s + 1 ≤ Z.shiftr (counter (clk s)) (slot_shift s) →
  wheel_at None lim (set_wheel_now_slot (wheel_now_slot s + 1) (set_wheel_occ (BitmapClr (wheel_occ s) slot) s)).
Proof.
  intros Hw Hslot Hb Hnow. pose proof (slot_range (wheel_now_slot s)) as Hsl. rewrite <- Hslot in Hsl.
  pose proof (occ_len _ _ _ _ Hw Hsl) as Hol. destruct Hw.
  assert (Hnone : ∀ t, lin (l_timeout s) t ≠ Some slot).
  { intros t Ht. apply wi_links0 in Ht. fold (bucket s slot) in Ht. rewrite Hb in Ht. by apply elem_of_nil in Ht. }
  split; simpl; try done.
  - lia.
  - apply bm_wf_Clr; [done|lia].
  - intros slot' Hs' _. rewrite bm_test_Clr by lia. change (bucket _ slot') with (bucket s slot').
    destruct (decide (slot = slot')) as [<-|Hne].
    + rewrite bool_decide_eq_true_2 by done. rewrite Hb. done.
    + rewrite bool_decide_eq_false_2 by done. apply wi_occ0; [lia|congruence].
  - intros slot' t x _ Hl Hx. apply (wi_min0 slot' t x); [|done..]. intros [= ->]. by apply Hnone in Hl.
  - intros t slot' Hl. destruct (wi_at0 t slot' Hl) as (x & Hx & Hss & Hst & Hd & a & Ha & Hsa & Hlate).
    exists x. split_and!; try done; try lia. exists a. split_and!; try done; try lia.
    assert (a ≠ wheel_now_slot s) by (intros ->; apply (Hnone t); congruence). lia.
Qed.

Lemma wp_wake_slots now_slot lim n : ∀ k s,
  kinv s → wheel_at None lim s → wheel_now_slot s ≤ now_slot ≤ lim + 1 → now_slot * 2 ^ slot_shift s ≤ n →
  now_slot ≤ Z.shiftr (counter (clk s)) (slot_shift s) → now_slot - wheel_now_slot s ≤ Z.of_nat k →
  wp (wake_slots k now_slot) (λ _ s', kinv s' ∧ wheel_at None lim s' ∧ wheel_now_slot s' = now_slot ∧ aged n s s') s.
Proof.
  induction k as [|k IH]; intros s Hk Hw Hr Hn Hc Hfuel; simpl; wp_step; wp_step; apply wp_if; intros Eb; b2p;
    try (wp_step; split_and!; [done..|lia|apply aged_refl]); [lia|].
  wp_step. wp_step. set (slot := wheel_now_slot s mod SLEEP_QUEUE_SIZE). wp_step.
  assert (0 < 2 ^ slot_shift s) by (apply Z.pow_pos_nonneg; [done|apply Hw]).
  eapply wp_mono; [apply (wp_wake_slot slot lim n); [done|by apply wheel_exempt|done|lia|nia|lia]|].
  intros [] s1 (Hk1 & Hw1 & En & Hb1 & Ha1). wp_steps. simpl.
  pose proof (now_bound _ _ _ Hw1). pose proof (ag_shift _ _ _ Ha1) as Es. pose proof (ag_clk _ _ _ Ha1) as Ec.
  assert (Hc1 : now_slot ≤ Z.shiftr (counter (clk s1)) (slot_shift s1)).
  { rewrite Es. pose proof (counter_mono _ _ Ec) as Hm. rewrite !Z.shiftr_div_pow2 in * by apply Hw.
    pose proof (Z.div_le_mono (counter (clk s)) (counter (clk s1)) (2 ^ slot_shift s)). lia. }
  replace (w64 (wheel_now_slot s1 + 1)) with (wheel_now_slot s1 + 1) by (unfold w64; rewrite Z.mod_small; lia).
  set (s2 := set_wheel_now_slot _ _).
  assert (Hw2 : wheel_at None lim s2) by (apply wheel_advance; [done|by rewrite En|done|lia]).
  assert (Hk2 : kinv s2) by (destruct Hk1; by split).
  assert (Ha2 : aged n s1 s2).
  { split; try done. intros t x Hx. exists x. split; [done|]. by left. }
  eapply wp_mono; [apply (IH s2); simpl; rewrite ?En, ?Es; try done; try lia|].
  { by rewrite <- Es. }
  intros [] s3 (Hk3 & Hw3 & En3 & Ha3). split_and!; try done. do 2 (eapply aged_trans; [done| |done]). done.
Qed.

(** * The slot time is in *)

Lemma aged_deadline n s s' t x :
  aged n s s' → tasks s !! t = Some x → linked (l_timeout s') t = linked (l_timeout s) t →
  ∃ x', tasks s' !! t = Some x' ∧ t_wake_deadline x' = t_wake_deadline x.
Proof.
  intros Ha Hx Hl. destruct (ag_tasks _ _ _ Ha t x Hx) as (x' & Hx' & [(E & _)|(E1 & E2 & _)]); [by exists x'|congruence].
Qed.

Definition all_later n s (xs : list Z) : Prop := ∀ t, t ∈ xs → ∃ x, tasks s !! t = Some x ∧ n < t_wake_deadline x.

Lemma all_later_aged n m s s' xs :
  aged m s s' → (∀ t, t ∈ xs → linked (l_timeout s') t = linked (l_timeout s) t) → all_later n s xs → all_later n s' xs.
Proof.
  intros Ha Hl Hx t Ht. destruct (Hx t Ht) as (x & Hxt & Hd).
  destruct (aged_deadline m s s' t x Ha Hxt (Hl t Ht)) as (x' & Hx' & E). exists x'. by rewrite E.
Qed.

Lemma wp_wake_due slot lim n : ∀ xs kept s,
  kinv s → wheel_at (Some slot) lim s → bucket s slot = kept ++ xs → all_later n s kept →
  wp (wake_due n xs) (λ _ s', kinv s' ∧ wheel_at (Some slot) lim s' ∧ wheel_now_slot s' = wheel_now_slot s ∧
    wheel_occ s' = wheel_occ s ∧ (bucket s slot = [] → bucket s' slot = []) ∧
    all_later n s' (bucket s' slot) ∧ aged n s s') s.
Proof.
  induction xs as [|t xs IH]; intros kept s Hk Hw Hb Hkept; simpl.
  { wp_step. split_and!; [done..| |apply aged_refl]. by rewrite Hb, app_nil_r. }
  assert (Ht : t ∈ bucket s slot) by (rewrite Hb; set_solver). apply (wi_links _ _ _ Hw) in Ht as Hl.
  destruct (wi_at _ _ _ Hw t slot Hl) as (x & Hx & _ & Hst & Hd & _).
  wp_step. apply wp_task. exists x. split; [done|]. wp_step. apply wp_when; intros Eb; b2p.
  2: { apply (IH (kept ++ [t])); [done..|by rewrite <- app_assoc|]. intros u Hu. apply elem_of_app in Hu as [Hu|Hu]; [by apply Hkept|].
       apply list_elem_of_singleton in Hu as ->. exists x. split; [done|lia]. }
  wp_step. apply wp_link_op. unfold lk_remove. rewrite Hl. eexists. split; [done|]. fold (bucket s slot).
  eapply wp_mono; [apply (wp_SchedWakeTimedOut _ t x); [by apply kinv_timeout|done..]|]. intros [] s2 [Hk2 Hc2].
  simpl in Hc2. change (set_tasks _ _) with (left_wheel s t (timed_out x) slot) in Hc2.
  assert (Hw2 : wheel_at (Some slot) lim s2) by (eapply wheel_calm; [exact Hc2|by eapply wheel_left]).
  assert (Ha2 : aged n s s2) by (by eapply aged_woken).
  assert (Hni : t ∉ kept ∧ t ∉ xs).
  { pose proof (proj2 (wi_links _ _ _ Hw) slot) as Hnd. fold (bucket s slot) in Hnd. rewrite Hb in Hnd.
    apply NoDup_app in Hnd as (_ & Hd1 & Hnd). apply NoDup_cons in Hnd as [? _]. split; [|done].
    intros Hk'. apply (Hd1 t Hk'). by left. }
  assert (Hb2 : bucket s2 slot = kept ++ xs).
  { unfold bucket. rewrite (c_timeout _ _ Hc2). simpl. rewrite fset_eq, Hb, filter_app, filter_cons_False by (intros []; done).
    rewrite !filter_all; [done| |]; intros u Hu ->; tauto. }
  eapply wp_mono; [apply (IH kept s2 Hk2 Hw2 Hb2)|].
  - eapply all_later_aged; [exact Ha2| |done]. intros u Hu. rewrite (c_timeout _ _ Hc2). unfold linked. simpl.
    rewrite fset_ne; [done|]. intros ->. tauto.
  - intros [] s3 (? & ? & E3 & Eo & _ & ? & Ha3).
    split_and!; try done; [by rewrite E3, (c_now _ _ Hc2)|by rewrite Eo, (c_occ _ _ Hc2)|rewrite Hb; by destruct kept|]. by eapply aged_trans.
Qed.

Lemma wp_bucket_min xs : ∀ s acc Q,
  (∀ t, t ∈ xs → is_Some (tasks s !! t)) →
  (∀ m, m ≤ acc → (∀ t x, t ∈ xs → tasks s !! t = Some x → m ≤ t_wake_deadline x) → Q m s) →
  wp (bucket_min xs acc) Q s.
Proof.
  induction xs as [|t xs IH]; intros s acc Q Hl HQ; simpl.
  { wp_step. apply HQ; [lia|]. intros t x Ht. by apply elem_of_nil in Ht. }
  destruct (Hl t ltac:(by left)) as [x Hx]. wp_step. apply wp_task. exists x. split; [done|].
  apply IH; [intros u Hu; apply Hl; by right|]. intros m Hm Hall. apply HQ.
  - destruct (Z.ltb_spec (t_wake_deadline x) acc); lia.
  - intros u y Hu Hy. apply elem_of_cons in Hu as [->|Hu]; [|by eapply Hall].
    assert (y = x) as -> by congruence. destruct (Z.ltb_spec (t_wake_deadline x) acc); lia.
Qed.

(** The mark and the minimum of the current slot are put right. *)
Definition refreshed s s' : Prop := ∃ o m, s' = set_wheel_occ o (set_wheel_min m s).

Lemma refreshed_aged n s s' : refreshed s s' → aged n s s'.
Proof. intros (o & m & ->). split; try done. intros t x Hx. exists x. split; [done|]. by left. Qed.

Lemma wp_refresh slot lim s :
  kinv s → wheel_at (Some slot) lim s → 0 ≤ slot < SLEEP_QUEUE_SIZE →
  (bucket s slot ≠ [] → bm_test (wheel_occ s) slot = true) →
  wp (if bool_decide (bucket s slot = []) then modify (λ s, set_wheel_occ (BitmapClr (wheel_occ s) slot) s)
      else let! m := WheelBucketMin slot in modify (λ s, set_wheel_min (aset (wheel_min s) slot m) s))
    (λ _ s', kinv s' ∧ wheel_at None lim s' ∧ refreshed s s') s.
Proof.
  intros Hk Hw Hs Hocc. pose proof (occ_len _ _ _ _ Hw Hs) as Hol. case_bool_decide as Eb.
  - wp_step. split_and!; [destruct Hk; by split| |exists (BitmapClr (wheel_occ s) slot), (wheel_min s); by destruct s].
    destruct Hw. split; simpl; try done.
    + apply bm_wf_Clr; [done|lia].
    + intros slot' Hs' _. rewrite bm_test_Clr by lia. change (bucket _ slot') with (bucket s slot').
      destruct (decide (slot = slot')) as [<-|Hne]; [rewrite bool_decide_eq_true_2 by done; by rewrite Eb|].
      rewrite bool_decide_eq_false_2 by done. apply wi_occ0; [lia|congruence].
    + intros slot' t x _ Hl Hx. apply (wi_min0 slot' t x); [|done..]. intros [= ->].
      apply wi_links0 in Hl. fold (bucket s slot') in Hl. rewrite Eb in Hl. by apply elem_of_nil in Hl.
  - wp_step. unfold WheelBucketMin. wp_step. wp_step. apply wp_bucket_min.
    { intros t Ht. apply (wi_links _ _ _ Hw) in Ht. destruct (wi_at _ _ _ Hw t slot Ht) as (x & Hx & _). by eexists. }
    intros m _ Hall. wp_step. split_and!; [destruct Hk; by split| |exists (wheel_occ s), (aset (wheel_min s) slot m); by destruct s].
    destruct Hw. split; simpl; try done.
    + intros slot' Hs' _. change (bucket _ slot') with (bucket s slot'). destruct (decide (slot = slot')) as [<-|Hne]; [by split; auto|].
      apply wi_occ0; [lia|congruence].
    + by rewrite length_aset.
    + intros slot' t x _ Hl Hx. destruct (wi_at0 t slot' Hl) as (_ & _ & _ & _ & _ & a & _ & Hsa & _). pose proof (slot_range a).
      destruct (decide (slot = slot')) as [<-|Hne].
      * rewrite aget_aset_eq by (rewrite wi_min_len0; unfold SLEEP_QUEUE_SIZE in *; lia). apply (Hall t); [|done]. by apply wi_links0.
      * rewrite aget_aset_ne by lia. apply (wi_min0 slot' t x); [congruence|done..].
Qed.

Lemma wheel_jump s now_slot :
  wheel_inv s → SLEEP_QUEUE_SIZE < now_slot - wheel_now_slot s → now_slot ≤ Z.shiftr (counter (clk s)) (slot_shift s) →
  wheel_at None (now_slot - 1) (set_wheel_now_slot (now_slot - SLEEP_QUEUE_SIZE) s).
Proof.
  intros Hw Hj Hc. destruct Hw. split; simpl; try done; [unfold SLEEP_QUEUE_SIZE in *; lia|].
  intros t slot Hl. destruct (wi_at0 t slot Hl) as (x & Hx & Hss & Hst & Hd & a & Ha & Hsa & _).
  exists x. split; [done|]. split; [done|]. split; [done|]. split; [lia|].
  exists (now_slot - SLEEP_QUEUE_SIZE + (slot - (now_slot - SLEEP_QUEUE_SIZE)) mod SLEEP_QUEUE_SIZE).
  pose proof (slot_range (slot - (now_slot - SLEEP_QUEUE_SIZE))). split; [lia|]. split; [|right; lia].
  rewrite Zplus_mod_idemp_r. replace (now_slot - SLEEP_QUEUE_SIZE + (slot - (now_slot - SLEEP_QUEUE_SIZE))) with slot by lia.
  rewrite Hsa at 2. rewrite Zmod_mod. done.
Qed.

Lemma wp_ArchTimerNow (Q : Z → kst → Prop) s : Q (counter (clk s)) (set_clk (S (clk s)) s) → wp ArchTimerNow Q s.
Proof. intros HQ. unfold ArchTimerNow. by wp_steps. Qed.
Lemma wheel_tick c lim s : wheel_at c lim s → wheel_at c lim (set_clk (S (clk s)) s).
Proof. apply wheel_calm. split; try done; simpl; [lia|]. intros t. by destruct (tasks s !! t). Qed.

(** What [SchedWakeSleepers] achieves: [n] is the time of its first look at the clock. *)
Definition awake_by (n : Z) s : Prop :=
  ∀ t x, linked (l_timeout s) t = true → tasks s !! t = Some x → n < t_wake_deadline x.

Lemma awake_slots n lim s :
  wheel_at None lim s → lim ≤ wheel_now_slot s → wheel_now_slot s = Z.shiftr n (slot_shift s) →
  all_later n s (bucket s (wheel_now_slot s mod SLEEP_QUEUE_SIZE)) → awake_by n s.
Proof.
  intros Hw Hlim Hn Hl t x Ht Hx. apply linked_spec in Ht as [slot Ht].
  destruct (wi_at _ _ _ Hw t slot Ht) as (x' & Hx' & _ & _ & _ & a & Ha & Hsa & Hlate).
  assert (x' = x) as -> by congruence. destruct (decide (a = wheel_now_slot s)) as [->|Hne].
  - apply (wi_links _ _ _ Hw) in Ht. rewrite Hsa in Ht. destruct (Hl t Ht) as (y & Hy & Hd). congruence.
  - pose proof (wi_shift _ _ _ Hw) as Hs. destruct (Z.lt_ge_cases n (t_wake_deadline x)) as [|Hge]; [done|].
    assert (deadline_slot s x ≤ wheel_now_slot s); [|lia].
    unfold deadline_slot. rewrite Hn, !Z.shiftr_div_pow2 by lia. apply Z.div_le_mono; [apply Z.pow_pos_nonneg; lia|done].
Qed.

(** The first half: the jump, and the slots up to the one time is in. *)
Lemma wp_catch_up s n :
  kinv s → wheel_inv s → n = counter (clk s) →
  let now_slot := Z.shiftr n (slot_shift s) in
  let s0 := set_clk (S (clk s)) s in
  wp (when (SLEEP_QUEUE_SIZE <? w64 (now_slot - wheel_now_slot s))
        (modify (set_wheel_now_slot (w64 (now_slot - SLEEP_QUEUE_SIZE)))) ;;
      wake_slots (Z.to_nat SLEEP_QUEUE_SIZE) now_slot)
    (λ _ s', kinv s' ∧ wheel_at None now_slot s' ∧ wheel_now_slot s' = now_slot ∧ aged n s s') s0.
Proof.
  intros Hk Hw -> now_slot s0. pose proof (now_bound _ _ _ Hw) as Hnb. pose proof (wi_now _ _ _ Hw) as Hn.
  pose proof (wi_shift _ _ _ Hw) as Hs. fold now_slot in Hn. pose proof (counter_range (clk s)) as Hcr.
  assert (Hns : 0 ≤ now_slot < 2 ^ 63 ∧ now_slot * 2 ^ slot_shift s ≤ counter (clk s)).
  { unfold now_slot. rewrite Z.shiftr_div_pow2 by lia. assert (0 < 2 ^ slot_shift s) by (apply Z.pow_pos_nonneg; lia).
    pose proof (Z.mul_div_le (counter (clk s)) (2 ^ slot_shift s)).
    assert (0 ≤ counter (clk s) / 2 ^ slot_shift s) by (apply Z.div_pos; lia).
    assert (counter (clk s) / 2 ^ slot_shift s ≤ counter (clk s)) by (apply Z.div_le_upper_bound; nia). lia. }
  assert (Hc0 : now_slot ≤ Z.shiftr (counter (S (clk s))) (slot_shift s)).
  { unfold now_slot. rewrite !Z.shiftr_div_pow2 by lia. apply Z.div_le_mono; [apply Z.pow_pos_nonneg; lia|]. apply counter_mono. lia. }
  unfold w64 at 1. rewrite (Z.mod_small (now_slot - wheel_now_slot s)) by lia.
  wp_step. eapply (wp_mono _ (λ _ s1, kinv s1 ∧ (∃ w, s1 = set_wheel_now_slot w s0) ∧
    ∃ lim, wheel_at None lim s1 ∧ wheel_now_slot s1 ≤ now_slot ≤ lim + 1 ∧ lim ≤ now_slot ∧ now_slot - wheel_now_slot s1 ≤ SLEEP_QUEUE_SIZE)).
  { apply wp_when; intros Eb; b2p.
    - wp_step. unfold w64. rewrite Z.mod_small by (unfold SLEEP_QUEUE_SIZE in *; lia). split_and!; [destruct Hk; by split|by eexists|].
      exists (now_slot - 1). split_and!; simpl; try lia; [|unfold SLEEP_QUEUE_SIZE; lia]. apply wheel_jump; try done. by apply wheel_tick.
    - split_and!; [destruct Hk; by split|exists (wheel_now_slot s); by destruct s|]. exists (Z.max (wheel_now_slot s) (now_slot - 1)).
      split_and!; simpl; try lia. eapply wheel_lim; [|by apply wheel_tick]. lia. }
  intros [] s1 (Hk1 & (w & ->) & lim & Hw1 & Hr1 & Hl1 & Hf1).
  eapply wp_mono; [apply (wp_wake_slots now_slot lim (counter (clk s))); try done; simpl; lia|].
  intros [] s2 (Hk2 & Hw2 & En2 & Ha2). split_and!; [done|by eapply wheel_lim|done|].
  eapply aged_trans; [|exact Ha2|done]. split; try done; simpl; [lia|]. intros t x Hx. exists x. split; [done|]. by left.
Qed.

Lemma wp_SchedWakeSleepers s :
  kinv s → wheel_inv s →
  wp SchedWakeSleepers (λ _ s', kinv s' ∧ wheel_inv s' ∧ awake_by (counter (clk s)) s' ∧ aged (counter (clk s')) s s') s.
Proof.
  intros Hk Hw. unfold SchedWakeSleepers. wp_step. apply wp_ArchTimerNow. wp_step. wp_step.
  set (n := counter (clk s)). eapply wp_seq2; [by apply (wp_catch_up s n)|]. cbv zeta.
  change (slot_shift (set_clk _ s)) with (slot_shift s). set (now_slot := Z.shiftr n (slot_shift s)).
  intros [] s2 (Hk2 & Hw2 & En2 & Ha2). wp_step. apply wp_ArchTimerNow. wp_step. wp_step. wp_step. simpl.
  set (m := counter (clk s2)). set (s3 := set_clk _ s2). assert (Hnm : n ≤ m) by (apply counter_mono; apply (ag_clk _ _ _ Ha2)).
  set (cur := wheel_now_slot s2 mod SLEEP_QUEUE_SIZE). pose proof (wheel_tick _ _ _ Hw2) as Hw3. fold s3 in Hw3.
  assert (Hk3 : kinv s3) by (destruct Hk2; by split).
  eapply wp_mono; [apply (wp_wake_due cur now_slot m _ []); [done|by apply wheel_exempt|done|]|].
  { intros t Ht. by apply elem_of_nil in Ht. }
  intros [] s4 (Hk4 & Hw4 & En4 & Eo4 & Hb4 & Hl4 & Ha4). wp_step. wp_step.
  eapply wp_mono; [apply (wp_refresh cur now_slot s4 Hk4 Hw4 (slot_range _))|].
  { intros Hne. rewrite Eo4. apply (wi_occ _ _ _ Hw3); [apply slot_range|done|]. intros Hb3. by apply Hne, Hb4. }
  intros [] s5 (Hk5 & Hw5 & Hr5). assert (En5 : wheel_now_slot s5 = now_slot).
  { destruct Hr5 as (o & mm & ->). simpl. by rewrite En4. }
  assert (Hage : aged (counter (clk s5)) s s5).
  { pose proof (ag_clk _ _ _ Ha4) as Hc4. assert (Hm5 : m ≤ counter (clk s5)).
    { destruct Hr5 as (o & mm & ->). apply counter_mono. simpl in *. lia. }
    eapply aged_trans; [exact Ha2| |lia]. eapply (aged_trans m); [|by apply refreshed_aged|done].
    eapply aged_trans; [|exact Ha4|done]. apply aged_calm. split; try done; simpl; [lia|]. intros t. by destruct (tasks s2 !! t). }
  split_and!; [done|unfold wheel_inv; by rewrite En5| |done].
  apply (awake_slots n now_slot); [done|lia|rewrite En5; by rewrite (ag_shift _ _ _ Hage)|].
  rewrite En5. subst cur. rewrite En2 in Hl4. intros t Ht. destruct Hr5 as (o & mm & ->).
  destruct (Hl4 t Ht) as (x & Hx & Hd). exists x. split; [done|lia].
Qed.

(** * Arming the timer *)

Lemma wheel_scan_test occ slot : 0 ≤ slot →
  truthy (Z.land (aget occ (Z.shiftr slot 5)) (bit (Z.land slot 31))) = bm_test occ slot.
Proof.
  intros Hs. unfold bm_test. change 31 with (Z.ones 5). rewrite Z.land_ones, Z.shiftr_div_pow2 by lia.
  change (2 ^ 5) with 32. apply land_bit_truthy. apply Z.mod_pos_bound. lia.
Qed.

Lemma wheel_scan_spec occ start : ∀ n i, 0 ≤ start < SLEEP_QUEUE_SIZE → 0 ≤ i → i + Z.of_nat n = SLEEP_QUEUE_SIZE →
  let r := wheel_scan occ start n i in
  i ≤ r ≤ SLEEP_QUEUE_SIZE ∧ ∀ j, i ≤ j < SLEEP_QUEUE_SIZE → bm_test occ ((start + j) mod SLEEP_QUEUE_SIZE) = true → r ≤ j.
Proof.
  induction n as [|n IH]; intros i Hs Hi Hn; cbv zeta; simpl wheel_scan; [split; [lia|intros; lia]|].
  set (slot := if SLEEP_QUEUE_SIZE <=? start + i then start + i - SLEEP_QUEUE_SIZE else start + i).
  assert (Hslot : slot = (start + i) mod SLEEP_QUEUE_SIZE ∧ 0 ≤ slot).
  { subst slot. unfold SLEEP_QUEUE_SIZE in *. case_if E; b2p; [|rewrite Z.mod_small; lia].
    rewrite <- (Z.mod_add (start + i) (-1)), Z.mod_small by lia. lia. }
  destruct Hslot as [Hslot Hpos]. rewrite wheel_scan_test by done. case_if E; b2p; [split; [lia|intros; lia]|].
  destruct (IH (i + 1)) as [Hr Hfirst]; [lia..|]. split; [lia|]. intros j Hj Ht.
  destruct (decide (j = i)) as [->|]; [congruence|]. apply Hfirst; [lia|done].
Qed.

#[local] Arguments wheel_scan : simpl never.

(** The wheel's part of the deadline [SchedArmTimer] computes. *)
Definition scan_now s : Z :=
  wheel_scan (wheel_occ s) (wheel_now_slot s mod SLEEP_QUEUE_SIZE) (Z.to_nat SLEEP_QUEUE_SIZE) 0.
Definition next_deadline s : Z := wheel_deadline s (scan_now s).

Lemma slot_end_small s k :
  wheel_inv s → 0 ≤ k < SLEEP_QUEUE_SIZE →
  w64 (Z.shiftl (w64 (wheel_now_slot s + k + 1)) (slot_shift s)) = (wheel_now_slot s + k + 1) * 2 ^ slot_shift s ∧
  (wheel_now_slot s + k + 1) * 2 ^ slot_shift s < UINT64_MAX.
Proof.
  intros Hw Hk. pose proof (now_bound _ _ _ Hw). pose proof (wi_now _ _ _ Hw) as Hn. pose proof (wi_shift _ _ _ Hw) as Hs.
  pose proof (counter_range (clk s)). rewrite Z.shiftr_div_pow2 in Hn by lia.
  assert (0 < 2 ^ slot_shift s ≤ 2 ^ 32) by (split; [apply Z.pow_pos_nonneg; lia|apply Z.pow_le_mono_r; lia]).
  pose proof (Z.mul_div_le (counter (clk s)) (2 ^ slot_shift s)). unfold SLEEP_QUEUE_SIZE, UINT64_MAX in *.
  assert ((wheel_now_slot s + k + 1) * 2 ^ slot_shift s ≤ 2 ^ 63 + 512 * 2 ^ 32) by nia.
  unfold w64. rewrite (Z.mod_small (_ + 1)) by lia. rewrite Z.shiftl_mul_pow2 by lia. rewrite Z.mod_small; [lia|]. nia.
Qed.

Lemma wheel_deadline_ok s t x :
  wheel_inv s → linked (l_timeout s) t = true → tasks s !! t = Some x →
  next_deadline s ≤ t_wake_deadline x ∧ next_deadline s < UINT64_MAX.
Proof.
  intros Hw Hl Hx. apply linked_spec in Hl as [slot Hl]. pose proof (now_bound _ _ _ Hw) as Hnb.
  destruct (wi_at _ _ _ Hw t slot Hl) as (x' & Hx' & _ & _ & _ & a & Ha & Hsa & Hlate). assert (x' = x) as -> by congruence.
  assert (Hocc : bm_test (wheel_occ s) slot = true).
  { apply (wi_occ _ _ _ Hw); [subst slot; apply slot_range|done|]. apply (wi_links _ _ _ Hw) in Hl.
    unfold bucket. intros Hb. rewrite Hb in Hl. by apply elem_of_nil in Hl. }
  unfold next_deadline, wheel_deadline, scan_now.
  destruct (wheel_scan_spec (wheel_occ s) (wheel_now_slot s mod SLEEP_QUEUE_SIZE) (Z.to_nat SLEEP_QUEUE_SIZE) 0) as [Hr Hfirst];
    [apply slot_range|lia|done|]. set (k := wheel_scan _ _ _ _) in *.
  assert (Hk : k ≤ a - wheel_now_slot s).
  { apply Hfirst; [lia|]. rewrite Zplus_mod_idemp_l. replace (wheel_now_slot s + (a - wheel_now_slot s)) with a by lia. by rewrite <- Hsa. }
  rewrite (proj2 (Z.ltb_lt k SLEEP_QUEUE_SIZE)) by lia. destruct (slot_end_small s k Hw ltac:(lia)) as [-> Hsm].
  replace (w64 (wheel_now_slot s + k)) with (wheel_now_slot s + k) by (unfold w64, SLEEP_QUEUE_SIZE in *; rewrite Z.mod_small; lia).
  split; [|case_if E; b2p; lia].
  destruct (decide (k = a - wheel_now_slot s)) as [Ek|Hlt].
  - replace (wheel_now_slot s + k) with a by lia. rewrite <- Hsa. pose proof (wi_min _ _ _ Hw slot t x ltac:(done) Hl Hx).
    case_if E; b2p; lia.
  - assert (Hd : (wheel_now_slot s + k + 1) * 2 ^ slot_shift s ≤ t_wake_deadline x); [|case_if E; b2p; lia].
    destruct (Z.lt_ge_cases (t_wake_deadline x) ((wheel_now_slot s + k + 1) * 2 ^ slot_shift s)) as [Hc|]; [|lia].
    apply (deadline_slot_le s x (wheel_now_slot s + k)) in Hc; [lia|apply Hw].
Qed.

Lemma wheel_deadline_arm b n s k : wheel_deadline (set_slice_armed b (set_clk n s)) k = wheel_deadline s k.
Proof. done. Qed.
Lemma next_deadline_eq s : next_deadline s = wheel_deadline s (scan_now s).
Proof. done. Qed.
Lemma scan_now_arm b n s :
  let s' := set_slice_armed b (set_clk n s) in
  wheel_scan (wheel_occ s') (wheel_now_slot s' mod SLEEP_QUEUE_SIZE) (Z.to_nat SLEEP_QUEUE_SIZE) 0 = scan_now s.
Proof. done. Qed.

Lemma wp_SchedArmTimer_in_time s :
  cur_ok s → wheel_inv s →
  wp SchedArmTimer (λ _ s', timer_only s s' ∧
    ∀ t x, linked (l_timeout s) t = true → tasks s !! t = Some x →
      ∃ d, timer_deadline s' = Some d ∧ d ≤ Z.max (t_wake_deadline x) (counter (clk s) + MIN_TIMER_SLACK)) s.
Proof.
  intros Hc Hw. unfold SchedArmTimer. wp_step. apply wp_ArchTimerNow. wp_step. wp_step. simpl (current_task _).
  set (now := counter (clk s)).
  assert (Hnow : w64 (now + MIN_TIMER_SLACK) = now + MIN_TIMER_SLACK).
  { pose proof (counter_range (clk s)). pose proof freq_range. unfold w64, MIN_TIMER_SLACK. apply Z.mod_small.
    pose proof (Z.div_pos ArchTimerFreq 500000). assert (ArchTimerFreq / 500000 ≤ ArchTimerFreq) by (apply Z.div_le_upper_bound; lia).
    unfold now. lia. }
  assert (Hcore : ∀ b d, d ≤ next_deadline s →
    let s2 := set_slice_armed b (set_clk (S (clk s)) s) in
    wp (if d =? UINT64_MAX then ArchTimerDisable else
        ArchTimerSetDeadline (if d <=? w64 (now + MIN_TIMER_SLACK) then w64 (now + MIN_TIMER_SLACK) else d))
      (λ _ s', timer_only s s' ∧ ∀ t x, linked (l_timeout s) t = true → tasks s !! t = Some x →
         ∃ d, timer_deadline s' = Some d ∧ d ≤ Z.max (t_wake_deadline x) (now + MIN_TIMER_SLACK)) s2).
  { intros b d Hd s2. apply wp_if; intros Eb; b2p.
    - unfold ArchTimerDisable. wp_step. split; [by exists b, None, 1%nat|]. intros t x Ht Hx.
      destruct (wheel_deadline_ok s t x Hw Ht Hx). lia.
    - unfold ArchTimerSetDeadline. wp_step. split; [by eexists b, _, 1%nat|]. intros t x Ht Hx.
      eexists. split; [done|]. destruct (wheel_deadline_ok s t x Hw Ht Hx). rewrite Hnow. case_if E; b2p; lia. }
  wp_step. destruct (current_task s) as [c|] eqn:Ec.
  - destruct (Hc c Ec) as [cx Hcx]. apply wp_SchedAnyCpuTakers. exists cx. split; [done|]. intros b.
    do 3 wp_step. unfold WheelScanFromNow. wp_steps. rewrite scan_now_arm, wheel_deadline_arm, <- next_deadline_eq. destruct b.
    + wp_step. apply wp_task. exists cx. split; [done|]. wp_step. apply (Hcore true). case_if E; b2p; lia.
    + wp_step. by apply (Hcore false).
  - do 4 wp_step. unfold WheelScanFromNow. wp_steps. rewrite scan_now_arm, wheel_deadline_arm, <- next_deadline_eq. by apply (Hcore false).
Qed.

(** * Leaving the wheel early *)

Lemma wheel_min_fix slot lim s o m :
  wheel_at (Some slot) lim s → bm_wf o SLEEP_QUEUE_SIZE → length m = Z.to_nat SLEEP_QUEUE_SIZE →
  (∀ u, 0 ≤ u < SLEEP_QUEUE_SIZE → bm_test o u = if decide (u = slot) then bool_decide (bucket s slot ≠ []) else bm_test (wheel_occ s) u) →
  (∀ u, 0 ≤ u < SLEEP_QUEUE_SIZE → u ≠ slot → aget m u = aget (wheel_min s) u) →
  (∀ t x, lin (l_timeout s) t = Some slot → tasks s !! t = Some x → aget m slot ≤ t_wake_deadline x) →
  wheel_at None lim (set_wheel_occ o (set_wheel_min m s)).
Proof.
  intros Hw Ho Hm Hocc Hmin Hslot. destruct Hw. split; simpl; try done.
  - intros u Hu _. rewrite Hocc by done. change (bucket _ u) with (bucket s u).
    destruct (decide (u = slot)) as [->|Hne]; [apply bool_decide_eq_true|]. apply wi_occ0; [done|congruence].
  - intros u t x _ Hl Hx. destruct (wi_at0 t u Hl) as (_ & _ & _ & _ & _ & a & _ & Hsa & _). pose proof (slot_range a).
    destruct (decide (u = slot)) as [->|Hne]; [by eapply Hslot|]. rewrite Hmin by (done || lia). apply (wi_min0 u t x); [congruence|done..].
Qed.

Lemma wp_SchedRemoveSleepQueue s t x :
  wheel_inv s → tasks s !! t = Some x → 0 ≤ t_sleep_slot x →
  wp (SchedRemoveSleepQueue t) (λ _ s', wheel_inv s' ∧
    ∃ o m, s' = set_wheel_occ o (set_wheel_min m (left_wheel s t (set_t_sleep_slot (-1) x) (t_sleep_slot x)))) s.
Proof.
  intros Hw Hx Hs. pose proof (wi_slot _ _ _ Hw t x Hx Hs) as Hl. set (slot := t_sleep_slot x) in *.
  destruct (wi_at _ _ _ Hw t slot Hl) as (_ & _ & _ & _ & _ & a & _ & Hsa & _). pose proof (slot_range a) as Hsr. rewrite <- Hsa in Hsr.
  pose proof (wheel_left _ s t x (set_t_sleep_slot (-1) x) slot (wheel_exempt (Some slot) _ _ Hw) Hx Hl ltac:(done)) as Hw1.
  set (s1 := left_wheel s t _ slot) in *. pose proof (occ_len _ _ _ _ Hw Hsr) as Hol.
  unfold SchedRemoveSleepQueue. wp_step. apply wp_task. exists x. split; [done|]. fold slot. rewrite (proj2 (Z.ltb_ge slot 0)) by lia.
  wp_steps. apply wp_when; [intros _|intros Hf%linked_false; congruence]. apply wp_link_op. unfold lk_remove. rewrite Hl.
  eexists. split; [done|]. fold (bucket s slot). do 2 wp_step. set (s0 := set_l_timeout _ s). change (bucket s0 slot) with (bucket s1 slot).
  assert (Hfin : ∀ o m, wheel_at None (wheel_now_slot s) (set_wheel_occ o (set_wheel_min m s1)) →
    wp (upd_task t (set_t_sleep_slot (-1))) (λ _ s', wheel_inv s' ∧ ∃ o m, s' = set_wheel_occ o (set_wheel_min m s1))
      (set_wheel_occ o (set_wheel_min m s0))).
  { intros o m Hw2. apply wp_upd_task. exists x. split; [done|]. split; [exact Hw2|]. by exists o, m. }
  assert (Hrest : ∀ u, 0 ≤ u < SLEEP_QUEUE_SIZE → u ≠ slot → aget (wheel_min s) u = aget (wheel_min s1) u) by done.
  wp_step. case_bool_decide as Eb.
  - wp_step. apply (Hfin (BitmapClr (wheel_occ s) slot) (wheel_min s)). eapply wheel_min_fix; [exact Hw1|apply bm_wf_Clr; [apply Hw|lia]|apply Hw| |done|].
    + intros u Hu. rewrite bm_test_Clr by lia. destruct (decide (u = slot)) as [->|Hne].
      * rewrite (bool_decide_eq_true_2 (slot = slot)) by done. rewrite bool_decide_eq_false_2; [done|]. intros Hn. by apply Hn.
      * by rewrite bool_decide_eq_false_2 by congruence.
    + intros u y Hu. apply (wi_links _ _ _ Hw1) in Hu. fold (bucket s1 slot) in Hu. rewrite Eb in Hu. by apply elem_of_nil in Hu.
  - assert (Hocc : ∀ u, 0 ≤ u < SLEEP_QUEUE_SIZE → bm_test (wheel_occ s) u =
      if decide (u = slot) then bool_decide (bucket s1 slot ≠ []) else bm_test (wheel_occ s1) u).
    { intros u Hu. destruct (decide (u = slot)) as [->|]; [|done]. rewrite bool_decide_eq_true_2 by done.
      apply (wi_occ _ _ _ Hw); [lia|done|]. intros Hb. apply Eb. unfold bucket at 1. simpl. rewrite fset_eq. by rewrite Hb. }
    apply wp_when; intros Ed.
    + wp_step. unfold WheelBucketMin. wp_step. wp_step. change (bucket s0 slot) with (bucket s1 slot). apply wp_bucket_min.
      { intros u Hu. apply (wi_links _ _ _ Hw1) in Hu. destruct (wi_at _ _ _ Hw1 u slot Hu) as (y & Hy & _).
        simpl in Hy. destruct (decide (u = t)) as [->|]; [by eexists|]. rewrite lookup_insert_ne in Hy by done. by eexists. }
      intros m _ Hall. wp_step. apply (Hfin (wheel_occ s)). eapply wheel_min_fix; [exact Hw1|apply Hw|rewrite length_aset; apply Hw|done| |].
      * intros u Hu Hne. by rewrite aget_aset_ne by lia.
      * intros u y Hu Hy. change (wheel_min s0) with (wheel_min s). rewrite aget_aset_eq by (rewrite (wi_min_len _ _ _ Hw); unfold SLEEP_QUEUE_SIZE in *; lia).
        simpl in Hy, Hu. unfold fset in Hu. destruct (decide (u = t)) as [->|Hne]; [done|]. rewrite lookup_insert_ne in Hy by done.
        apply (Hall u y); [|done]. apply (wi_links _ _ _ Hw1). simpl. by rewrite fset_ne.
    + apply (Hfin (wheel_occ s) (wheel_min s)). eapply wheel_min_fix; [exact Hw1|apply Hw|apply Hw|done|done|].
      intros u y Hu Hy. simpl in Hy, Hu. unfold fset in Hu. destruct (decide (u = t)) as [->|Hne]; [done|]. rewrite lookup_insert_ne in Hy by done.
      by apply (wi_min _ _ _ Hw slot u y).
Qed.

(** * Main theorems *)


Lemma kinv_in_tick b s : kinv s → kinv (set_in_tick b s).
Proof. intros []. by split. Qed.
Lemma wheel_in_tick b s : wheel_inv s → wheel_inv (set_in_tick b s).
Proof. intros []. by split. Qed.


(** Going to sleep and leaving the wheel early ([SchedInsertSleepQueue], then [SchedRemoveSleepQueue])
    gives back the wheel: every other task sleeps in the slot it slept in, the task sleeps no more,
    and marks and minima are consistent throughout. *)
Theorem SchedInsertSleepQueue_remove s t x :
  wheel_inv s → cur_ok s → tasks s !! t = Some x → t_state x = TASK_STATE_BLOCKED → t_sleep_slot x = -1 →
  lin (l_timeout s) t = None → 0 ≤ t_wake_deadline x < 2 ^ 64 →
  wp (SchedInsertSleepQueue t) (λ _ s1, wheel_inv s1 ∧ linked (l_timeout s1) t = true ∧
    wp (SchedRemoveSleepQueue t) (λ _ s2, wheel_inv s2 ∧ tasks s2 = tasks s ∧
      ∀ u, lin (l_timeout s2) u = lin (l_timeout s) u) s1) s.
Proof.
  intros Hw Hc Hx Hst Hsl Hl Hd. eapply wp_SchedInsertSleepQueue; [done..|]. intros s1 Hs1.
  pose proof (wheel_inserted None _ s t x Hw Hx Hl Hst Hd ltac:(done)) as Hwi.
  assert (Hw1 : wheel_inv s1).
  { pose proof (wheel_calm _ _ _ _ (calm_timer _ _ Hs1) Hwi) as Hw1. by destruct Hs1 as (b & d & n & ->). }
  destruct Hs1 as (b & d & n & ->). split; [done|]. split; [unfold linked; simpl; by rewrite fset_eq|].
  eapply wp_mono; [eapply wp_SchedRemoveSleepQueue; [done|simpl; by rewrite lookup_insert_eq|apply slot_range]|].
  intros [] s2 (Hw2 & o & m & ->). split_and!; [done| |].
  - simpl. rewrite insert_insert_eq. apply insert_id. rewrite Hx, <- Hsl. by destruct x.
  - intros u. simpl. unfold fset. destruct (decide (u = t)) as [->|]; done.
Qed.
End wheel_ok.

(** One task asleep until 5000, on a wheel of 1024-tick slots; the counter is at 10000. *)
Module OneSleeper.
#[local] Instance steady_timer : Timer := { counter n := Z.min (1000 * Z.of_nat n) (2 ^ 62); ArchTimerFreq := 62500000 }.
#[local] Instance steady_ok : TimerOk.
Proof. split; simpl; intros; lia. Qed.

Definition sleeper : TaskObject :=
  set_t_wake_deadline 5000 (set_t_state TASK_STATE_BLOCKED (set_t_sleep_slot (-1) task0)).
Definition quiet : kst := set_clk 10 (set_slot_shift 10 (set_tasks (<[16 := sleeper]> ∅) kst0)).

Lemma quiet_task t x : tasks quiet !! t = Some x → t = 16 ∧ x = sleeper.
Proof.
  unfold quiet. simpl. rewrite lookup_insert_Some. intros [[<- <-]|[_ Hx]]; [done|]. by rewrite lookup_empty in Hx.
Qed.
Lemma quiet_kinv : kinv quiet.
Proof.
  split; try (apply links_ok_empty || done).
  - intros l Hl. change (ready_mask quiet) with 0. by rewrite Z.testbit_0_l.
  - intros t x Hx. destruct (quiet_task t x Hx) as [-> ->]. unfold task_ok. split_and!; done.
Qed.
Lemma quiet_wheel : wheel_inv quiet.
Proof.
  split; try (apply links_ok_empty || done).
  - split; [|done]. change (Forall (λ w, 0 ≤ w < 2 ^ 32) (replicate 16 0)). by apply Forall_replicate.
  - intros slot Hs _. change (bucket quiet slot) with (@nil Z). unfold bm_test. change (wheel_occ quiet) with (replicate 16 0).
    unfold aget. rewrite lookup_total_replicate_2; [by rewrite Z.testbit_0_l|].
    unfold SLEEP_QUEUE_SIZE in *. pose proof (Z.div_lt_upper_bound slot 32 16). pose proof (Z.div_pos slot 32). lia.
  - intros t x Hx Hs. by destruct (quiet_task t x Hx) as [-> ->].
Qed.
Definition asleep : kst := inserted quiet 16 sleeper.
Lemma asleep_kinv : kinv asleep.
Proof. apply kinv_inserted; [apply quiet_kinv|done]. Qed.
Lemma asleep_wheel : wheel_inv asleep.
Proof. by apply (wheel_inserted None 0 quiet 16 sleeper quiet_wheel). Qed.

Lemma SchedInsertSleepQueue_remove_witness :
  wp (SchedInsertSleepQueue 16) (λ _ s1, wheel_inv s1 ∧ linked (l_timeout s1) 16 = true) quiet.
Proof.
  eapply wp_mono; [apply (SchedInsertSleepQueue_remove quiet 16 sleeper quiet_wheel)|].
  - intros c Hc. by vm_compute in Hc.
  - reflexivity.
  - reflexivity.
  - reflexivity.
  - reflexivity.
  - simpl. lia.
  - by intros r s' (? & ? & _).
Defined.
End OneSleeper.
