(* ===== verification/Ipc.v ===== *)
(** Theorems about events, ports and messages: what a signal delivers to which waiter,
    and which caller a ticket stands for.

    The definitions are those of Event.v and Msg.v; the object invariant is [kinv] and
    the wheel's is [wheel_inv]. *)
From S2P Require Import Prelude Bitmap Handle KState Sched Task Event Msg KInv Wheel.

#[local] Open Scope Z_scope.

Section ipc.
Context `{TimerOk}.
Implicit Types (s : kst) (t : Z) (x : TaskObject).

(** * Waking a waiter *)

(** Every queue of [s'] is that of [s] without [t], and only [t] changed, to [y]. *)
Record awoken t (y : TaskObject) s s' : Prop := {
  aw_kinv : kinv s';
  aw_wheel : wheel_inv s';
  aw_task : tasks s' !! t = Some y;
  aw_others u : u ≠ t → tasks s' !! u = tasks s !! u;
  aw_queue q : lq (l_wait s') q = filter (λ u, u ≠ t) (lq (l_wait s) q);
  aw_node u : u ≠ t → lin (l_node s') u = lin (l_node s) u;
  aw_events : events s' = events s;
  aw_ports : ports s' = ports s;
  aw_spaces : spaces s' = spaces s;
  aw_cur : current_task s' = current_task s
}.

Lemma queue_without {Q} `{EqDecision Q} (L L' : links Q) t :
  links_ok L → lk_remove t L = Some L' → ∀ q, lq L' q = filter (λ u, u ≠ t) (lq L q).
Proof.
  intros [Hin _]. unfold lk_remove. destruct (lin L t) as [q0|] eqn:El; [|done]. intros [= <-] q. simpl.
  destruct (decide (q = q0)) as [->|Hne]; [by rewrite fset_eq|]. rewrite fset_ne by done. symmetry. apply filter_all.
  intros u Hu ->. apply Hin in Hu. congruence.
Qed.
Lemma queue_absent {Q} (L : links Q) t : links_ok L → lin L t = None → ∀ q, filter (λ u, u ≠ t) (lq L q) = lq L q.
Proof. intros [Hin _] Hl q. apply filter_all. intros u Hu ->. apply Hin in Hu. congruence. Qed.

Definition released x : TaskObject := unblocked (set_t_sleep_slot (-1) x).

(** A task that is awake may change. *)
Lemma wheel_upd_awake c lim s t x y :
  wheel_at c lim s → tasks s !! t = Some x → t_sleep_slot x < 0 → t_sleep_slot y < 0 →
  wheel_at c lim (set_tasks (<[t := y]> (tasks s)) s).
Proof.
  intros Hw Hx Hs Hy. assert (Hl : lin (l_timeout s) t = None).
  { destruct (lin (l_timeout s) t) as [slot|] eqn:El; [|done].
    destruct (wi_at _ _ _ Hw t slot El) as (x' & Hx' & Hss & _ & _ & a & _ & Hsa & _). pose proof (slot_range a).
    assert (x' = x) as -> by congruence. lia. }
  split; simpl; try apply Hw.
  - intros slot u z Hne Hu Hz. rewrite lookup_insert_ne in Hz by congruence. by eapply (wi_min _ _ _ Hw).
  - intros u slot Hu. rewrite lookup_insert_ne by congruence. by apply (wi_at _ _ _ Hw).
  - intros u z. destruct (decide (u = t)) as [->|Hne].
    + rewrite lookup_insert_eq. intros [= <-]. lia.
    + rewrite lookup_insert_ne by done. apply (wi_slot _ _ _ Hw).
Qed.

(** Leaving the wheel, asleep or not. *)
Lemma wp_leave_wheel s t x :
  kinv s → wheel_inv s → tasks s !! t = Some x → -1 ≤ t_sleep_slot x →
  wp (SchedRemoveSleepQueue t) (λ _ s', kinv s' ∧ wheel_inv s' ∧ tasks s' = <[t := set_t_sleep_slot (-1) x]> (tasks s) ∧
    l_wait s' = l_wait s ∧ l_node s' = l_node s ∧ l_serve s' = l_serve s ∧ events s' = events s ∧ ports s' = ports s ∧ spaces s' = spaces s ∧
    current_task s' = current_task s) s.
Proof.
  intros Hk Hw Hx Hs. destruct (decide (t_sleep_slot x = -1)) as [E|Hne].
  - unfold SchedRemoveSleepQueue. wp_step. apply wp_task. exists x. split; [done|]. rewrite E. simpl. wp_step.
    split_and!; try done. symmetry. apply insert_id. rewrite Hx, <- E. by destruct x.
  - eapply wp_mono; [apply (wp_SchedRemoveSleepQueue s t x Hw Hx); lia|]. intros [] s' (Hw' & o & m & ->).
    split_and!; try done. pose proof (kinv_upd_plain s t x (set_t_sleep_slot (-1) x) Hk Hx) as Hk1.
    destruct Hk1; [done|]. by split.
Qed.

Lemma wp_SchedUnblock s t x :
  kinv s → wheel_inv s → tasks s !! t = Some x → -1 ≤ t_sleep_slot x → lin (l_node s) t = None →
  wp (SchedUnblock t) (λ _ s', awoken t (released x) s s') s.
Proof.
  intros Hk Hw Hx Hs Hn. unfold SchedUnblock. wp_step. wp_step. wp_step.
  eapply (wp_mono _ (λ _ s1, kinv s1 ∧ wheel_inv s1 ∧ lin (l_wait s1) t = None ∧ (∀ q, lq (l_wait s1) q = filter (λ u, u ≠ t) (lq (l_wait s) q)) ∧
    ∃ L, s1 = set_l_wait L s)).
  { apply wp_when; intros Hl.
    - apply linked_spec in Hl as [q Hq]. apply wp_link_op. destruct (lk_remove t (l_wait s)) as [L|] eqn:Er; [|unfold lk_remove in Er; by rewrite Hq in Er].
      exists L. split; [done|]. destruct (requeued_unwait s t L Hk Er) as [Hr Hnone]. split_and!; [by eapply requeued_kinv| |done| |by eexists].
      + destruct Hw. by split.
      + eapply queue_without; [apply Hk|done].
    - apply linked_false in Hl. split_and!; [done..| |exists (l_wait s); by destruct s].
      intros q. symmetry. apply queue_absent; [apply Hk|done]. }
  intros [] s1 (Hk1 & Hw1 & Hl1 & Hq1 & L & E1). wp_step.
  eapply wp_mono; [apply (wp_leave_wheel s1 t x Hk1 Hw1); [by subst s1|done]|].
  intros [] s2 (Hk2 & Hw2 & Et2 & El2 & En2 & Es2 & Ee2 & Ep2 & Esp2 & Ec2). apply wp_upd_task.
  set (x2 := set_t_sleep_slot (-1) x). assert (Hx2 : tasks s2 !! t = Some x2) by (by rewrite Et2, lookup_insert_eq).
  exists x2. split; [done|]. fold (unblocked x2). fold (released x). split; simpl; try (subst s1; simpl in *; congruence).
  - apply (kinv_upd s2 t x2); [done..|exact (ki_task s2 Hk2 t x2 Hx2)| | |].
    + intros q Hq. rewrite En2 in Hq. subst s1. simpl in Hq. congruence.
    + intros q Hq. rewrite El2 in Hq. congruence.
    + intros q Hq. destruct (ki_serve_at s2 Hk2 t q Hq) as (y & Hy & Hsp). simpl. assert (y = x2) as -> by congruence. done.
  - by apply (wheel_upd_awake _ _ s2 t x2).
  - by rewrite lookup_insert_eq.
  - intros u Hu. rewrite lookup_insert_ne, Et2, lookup_insert_ne by done. by subst s1.
Qed.

(** A change the wheel does not look at. *)
Lemma wheel_upd_same s t x y :
  wheel_inv s → tasks s !! t = Some x → t_sleep_slot y = t_sleep_slot x → t_wake_deadline y = t_wake_deadline x →
  t_state y = t_state x → wheel_inv (set_tasks (<[t := y]> (tasks s)) s).
Proof.
  intros Hw Hx E1 E2 E3. split; simpl; try apply Hw.
  - intros slot u z Hne Hu Hz. destruct (decide (u = t)) as [->|Hn].
    + rewrite lookup_insert_eq in Hz. injection Hz as <-. rewrite E2. by eapply (wi_min _ _ _ Hw).
    + rewrite lookup_insert_ne in Hz by done. by eapply (wi_min _ _ _ Hw).
  - intros u slot Hu. destruct (wi_at _ _ _ Hw u slot Hu) as (z & Hz & Hrest). destruct (decide (u = t)) as [->|Hn].
    + assert (z = x) as -> by congruence. exists y. rewrite lookup_insert_eq. unfold deadline_slot in *. by rewrite E1, E2, E3.
    + exists z. by rewrite lookup_insert_ne.
  - intros u z. destruct (decide (u = t)) as [->|Hne].
    + rewrite lookup_insert_eq. intros [= <-]. rewrite E1. by apply (wi_slot _ _ _ Hw).
    + rewrite lookup_insert_ne by done. apply (wi_slot _ _ _ Hw).
Qed.

Lemma awoken_upd t y y' s s1 :
  awoken t y s s1 → same_refs y y' → t_sleep_slot y' = t_sleep_slot y → t_wake_deadline y' = t_wake_deadline y →
  awoken t y' s (set_tasks (<[t := y']> (tasks s1)) s1).
Proof.
  intros Ha Hs E1 E2. pose proof (aw_task _ _ _ _ Ha) as Hy. split; simpl; try apply Ha.
  - apply (kinv_upd_plain s1 t y); [apply Ha|done..].
  - apply (wheel_upd_same s1 t y); [apply Ha|done..|apply Hs].
  - by rewrite lookup_insert_eq.
  - intros u Hu. rewrite lookup_insert_ne by done. by apply Ha.
Qed.
Lemma awoken_trans t y z s s1 s2 : awoken t y s s1 → awoken t z s1 s2 → awoken t z s s2.
Proof.
  intros H1 H2. split; try apply H2.
  - intros u Hu. rewrite (aw_others _ _ _ _ H2), (aw_others _ _ _ _ H1) by done. done.
  - intros q. rewrite (aw_queue _ _ _ _ H2), (aw_queue _ _ _ _ H1). apply filter_all.
    intros u Hu. by apply list_elem_of_filter in Hu as [? _].
  - intros u Hu. by rewrite (aw_node _ _ _ _ H2), (aw_node _ _ _ _ H1).
  - by rewrite (aw_events _ _ _ _ H2), (aw_events _ _ _ _ H1).
  - by rewrite (aw_ports _ _ _ _ H2), (aw_ports _ _ _ _ H1).
  - by rewrite (aw_spaces _ _ _ _ H2), (aw_spaces _ _ _ _ H1).
  - by rewrite (aw_cur _ _ _ _ H2), (aw_cur _ _ _ _ H1).
Qed.

Lemma wp_unblock_add s t x :
  kinv s → wheel_inv s → tasks s !! t = Some x → -1 ≤ t_sleep_slot x → lin (l_node s) t = None →
  wp (SchedUnblock t ;; SchedAdd t) (λ _ s', ∃ c, awoken t (set_t_queued_prio c (released x)) s s') s.
Proof.
  intros Hk Hw Hx Hs Hn. wp_step. eapply wp_mono; [by apply wp_SchedUnblock|]. intros [] s1 Ha1.
  eapply wp_mono; [exact (requeued_SchedEnqueue s1 t (released x) false (aw_kinv _ _ _ _ Ha1) (aw_task _ _ _ _ Ha1) eq_refl)|].
  intros [] s2 (((Hk2 & Hc2) & _ & Hp2 & Ho2 & _) & El2 & c & Hx2). exists c.
  split; try done.
  - eapply wheel_lim; [|eapply wheel_calm; [exact Hc2|apply (aw_wheel _ _ _ _ Ha1)]]. by rewrite (c_now _ _ Hc2).
  - intros u Hu. rewrite (proj1 (Ho2 u Hu)). by apply Ha1.
  - intros q. rewrite El2. apply Ha1.
  - intros u Hu. rewrite (proj2 (Ho2 u Hu)). by apply Ha1.
  - rewrite (c_events _ _ Hc2). apply Ha1.
  - rewrite Hp2. apply Ha1.
  - rewrite (c_spaces _ _ Hc2). apply Ha1.
  - rewrite (c_cur _ _ Hc2). apply Ha1.
Qed.

(** * Signals *)

(** What a waiter would take from [word]. *)
Definition takes s (word w : Z) : Z :=
  match tasks s !! w with Some x => EventTake word (t_wait_mask x) (t_wait_all x) | None => 0 end.
(** The waiters a signal reaches, in queue order. *)
Definition reached s (word : Z) (bcast : bool) (ws : list Z) : list Z :=
  let sat := filter (λ w, truthy (takes s word w) = true) ws in if bcast then sat else take 1 sat.
#[local] Arguments reached : simpl never.
#[local] Arguments takes : simpl never.

(** A task blocked in [EventWait] on [e]. *)
Definition waiter_ok s (e w : Z) : Prop :=
  lin (l_wait s) w = Some (EventWaiters e) ∧
  ∃ x, tasks s !! w = Some x ∧ t_state x = TASK_STATE_BLOCKED ∧ t_ipc_state x ≠ IPC_WAITING ∧ -1 ≤ t_sleep_slot x.

(** The tasks [sv] were woken with what they take from [word]; nothing else changed. *)
Record delivered (word : Z) (sv : list Z) s s' : Prop := {
  dl_kinv : kinv s';
  dl_wheel : wheel_inv s';
  dl_events : events s' = events s;
  dl_others u : u ∉ sv → tasks s' !! u = tasks s !! u;
  dl_queue q : lq (l_wait s') q = filter (λ u, u ∉ sv) (lq (l_wait s) q);
  dl_woken w x : w ∈ sv → tasks s !! w = Some x →
    ∃ x', tasks s' !! w = Some x' ∧ t_state x' = TASK_STATE_READY ∧
          t_regs x' = aset (aset (t_regs x) 0 (w32 ZUZU_OK)) 1 (w32 (takes s word w))
}.

Lemma delivered_nil word s : kinv s → wheel_inv s → delivered word [] s s.
Proof.
  intros. split; try done; [|by intros w x Hw; apply elem_of_nil in Hw].
  intros q. symmetry. apply filter_all. intros u _. apply not_elem_of_nil.
Qed.

Lemma blocked_unlinked s t x :
  kinv s → tasks s !! t = Some x → t_state x = TASK_STATE_BLOCKED → t_ipc_state x ≠ IPC_WAITING → lin (l_node s) t = None.
Proof.
  intros Hk Hx Hst Hip. destruct (lin (l_node s) t) as [q|] eqn:Eq; [|done]. destruct (ki_node_at s Hk t q Eq) as (y & Hy & Hat).
  assert (y = x) as -> by congruence. destruct q; [destruct Hat as (_ & _ & ?)|destruct Hat as (_ & _ & _ & ? & _)]; congruence.
Qed.

(** One waiter is woken with [got]. *)
Lemma wp_wake_waiter {A} s e w x got (k : KM A) Q :
  kinv s → wheel_inv s → waiter_ok s e w → tasks s !! w = Some x →
  (∀ s' y, awoken w y s s' → t_state y = TASK_STATE_READY →
     t_regs y = aset (aset (t_regs x) 0 (w32 ZUZU_OK)) 1 (w32 got) → wp k Q s') →
  wp (wait_op (lk_remove w) ;; set_reg w 0 ZUZU_OK ;; set_reg w 1 got ;; SchedUnblock w ;; SchedAdd w ;; k) Q s.
Proof.
  intros Hk Hw [Hl (x' & Hx' & Hst & Hip & Hss)] Hx HQ. assert (x' = x) as -> by congruence.
  pose proof (blocked_unlinked s w x Hk Hx Hst Hip) as Hn. wp_step. apply wp_link_op.
  destruct (lk_remove w (l_wait s)) as [L|] eqn:Er; [|unfold lk_remove in Er; by rewrite Hl in Er].
  exists L. split; [done|]. destruct (requeued_unwait s w L Hk Er) as [Hr Hnone].
  assert (Ha1 : awoken w x s (set_l_wait L s)).
  { split; try done; [by eapply requeued_kinv|destruct Hw; by split|]. intros q. by apply (queue_without (l_wait s) L w); [apply Hk|]. }
  unfold set_reg. wp_step. apply wp_upd_task. exists x. split; [done|].
  pose proof (awoken_upd w x (set_t_regs (aset (t_regs x) 0 (w32 ZUZU_OK)) x) s _ Ha1 ltac:(done) eq_refl eq_refl) as Ha2.
  set (s2 := set_tasks _ _) in *. wp_step. apply wp_upd_task. eexists. split; [apply Ha2|]. simpl.
  pose proof (awoken_upd w _ (set_t_regs (aset (aset (t_regs x) 0 (w32 ZUZU_OK)) 1 (w32 got)) x) s _ Ha2 ltac:(done) eq_refl eq_refl) as Ha3.
  eapply wp_seq2; [apply (wp_unblock_add _ w (set_t_regs (aset (aset (t_regs x) 0 (w32 ZUZU_OK)) 1 (w32 got)) x))|]; try apply Ha3; try done.
  intros [] s4 [c Ha4]. eapply HQ; [eapply awoken_trans; [exact Ha3|exact Ha4]|done..].
Qed.

Lemma awoken_waiters s s' e w y (ws : list Z) :
  kinv s → awoken w y s s' → w ∉ ws → (∀ u, u ∈ ws → waiter_ok s e u) → ∀ u, u ∈ ws → waiter_ok s' e u.
Proof.
  intros Hk Ha Hni Hok u Hu. destruct (Hok u Hu) as [Hl (x & Hx & Hrest)]. assert (Hne : u ≠ w) by (by intros ->). split.
  - apply (ki_wait s' (aw_kinv _ _ _ _ Ha)). rewrite (aw_queue _ _ _ _ Ha). apply list_elem_of_filter. split; [done|].
    by apply (ki_wait s Hk).
  - exists x. by rewrite (aw_others _ _ _ _ Ha).
Qed.
Lemma awoken_takes s s' w y word u : awoken w y s s' → u ≠ w → takes s' word u = takes s word u.
Proof. intros Ha Hu. unfold takes. by rewrite (aw_others _ _ _ _ Ha). Qed.

Lemma delivered_cons word w y (sv : list Z) s s1 s2 x :
  awoken w y s s1 → t_state y = TASK_STATE_READY → tasks s !! w = Some x →
  t_regs y = aset (aset (t_regs x) 0 (w32 ZUZU_OK)) 1 (w32 (takes s word w)) →
  w ∉ sv → delivered word sv s1 s2 → delivered word (w :: sv) s s2.
Proof.
  intros Ha Hst Hx Hrg Hni Hd. split; try apply Hd.
  - by rewrite (dl_events _ _ _ _ Hd), (aw_events _ _ _ _ Ha).
  - intros u Hu. rewrite (dl_others _ _ _ _ Hd), (aw_others _ _ _ _ Ha) by set_solver. done.
  - intros q. rewrite (dl_queue _ _ _ _ Hd), (aw_queue _ _ _ _ Ha), list_filter_filter. apply list_filter_iff'. set_solver.
  - intros u z Hu Hz. destruct (decide (u = w)) as [->|Hne].
    + assert (z = x) as -> by congruence. exists y. rewrite (dl_others _ _ _ _ Hd) by done. by split; [apply Ha|].
    + apply elem_of_cons in Hu as [->|Hu]; [done|]. rewrite <- (awoken_takes s s1 w y word u) by done.
      apply (dl_woken _ _ _ _ Hd); [done|]. by rewrite (aw_others _ _ _ _ Ha).
Qed.

Lemma reached_cons_sat s word w ws :
  truthy (takes s word w) = true → reached s word true (w :: ws) = w :: reached s word true ws.
Proof. intros Ht. unfold reached. by rewrite filter_cons_True. Qed.
Lemma reached_cons_not s word b w ws :
  truthy (takes s word w) = false → reached s word b (w :: ws) = reached s word b ws.
Proof. intros Ht. unfold reached. by rewrite filter_cons_False by congruence. Qed.
Lemma reached_ext s s' word b (ws : list Z) : (∀ u, u ∈ ws → takes s' word u = takes s word u) → reached s' word b ws = reached s word b ws.
Proof.
  intros Heq. unfold reached. rewrite (list_filter_iff' (λ w, truthy (takes s' word w) = true) (λ w, truthy (takes s word w) = true)); [done|].
  intros u Hu. by rewrite Heq.
Qed.
Lemma reached_in s word b ws u : u ∈ reached s word b ws → u ∈ ws.
Proof.
  unfold reached. destruct b; intros Hu; [by apply list_elem_of_filter in Hu as [_ Hu]|].
  assert (Hf : u ∈ filter (λ w, truthy (takes s word w) = true) ws)
    by (rewrite <- (take_drop 1 (filter (λ w, truthy (takes s word w) = true) ws)); apply elem_of_app; by left).
  by apply list_elem_of_filter in Hf as [_ Hf].
Qed.

Lemma wp_signal_waiters e bcast ex : ∀ (ws : list Z) s d,
  kinv s → wheel_inv s → events s !! e = Some ex → NoDup ws → (∀ w, w ∈ ws → waiter_ok s e w) →
  let sv := reached s (e_word ex) bcast ws in
  wp (signal_waiters e bcast ws d) (λ d' s', d' = fold_left (λ a w, Z.lor a (takes s (e_word ex) w)) sv d ∧
    delivered (e_word ex) sv s s') s.
Proof.
  set (word := e_word ex). induction ws as [|w ws IH]; intros s d Hk Hw He Hnd Hok; cbv zeta; simpl.
  { wp_step. unfold reached. simpl. destruct bcast; (split; [done|by apply delivered_nil]). }
  apply NoDup_cons in Hnd as [Hni Hnd]. pose proof (Hok w ltac:(by left)) as Hokw. pose proof Hokw as [_ (x & Hx & _)].
  wp_step. apply wp_task. exists x. split; [done|]. wp_step. apply wp_event. exists ex. split; [done|]. fold word.
  assert (Ht : takes s word w = EventTake word (t_wait_mask x) (t_wait_all x)) by (unfold takes; by rewrite Hx). rewrite <- Ht.
  apply wp_if; intros Eb.
  2: { rewrite reached_cons_not by done. apply IH; [done..|]. intros u Hu. apply Hok. by right. }
  eapply wp_wake_waiter; [done..|]. intros s1 y Ha Hst Hrg. destruct bcast; simpl.
  - assert (Heq : reached s1 word true ws = reached s word true ws).
    { apply reached_ext. intros u Hu. eapply awoken_takes; [done|]. by intros ->. }
    eapply wp_mono; [apply (IH s1); [apply Ha|apply Ha|by rewrite (aw_events _ _ _ _ Ha)|done|]|].
    { intros u Hu. eapply awoken_waiters; [exact Hk|exact Ha|exact Hni| |done]. intros v Hv. apply Hok. by right. }
    intros d' s2. cbv zeta. rewrite Heq. intros [-> Hd]. rewrite reached_cons_sat by done. simpl. split.
    + assert (Hsub : ∀ u, u ∈ reached s word true ws → takes s1 word u = takes s word u).
      { intros u Hu%reached_in. eapply awoken_takes; [done|]. by intros ->. }
      clear -Hsub. revert Hsub. generalize (Z.lor d (takes s word w)). induction (reached s word true ws) as [|v vs IH]; intros a Hsub; [done|].
      simpl. rewrite (Hsub v) by (by left). apply IH. intros u Hu. apply Hsub. by right.
    + eapply delivered_cons; [done..| |done]. intros Hin%reached_in. done.
  - wp_step. unfold reached. rewrite filter_cons_True by done. simpl. split; [done|].
    eapply (delivered_cons word w y [] s s1 s1 x); [done..|set_solver|]. apply delivered_nil; apply Ha.
Qed.

Lemma wp_ObserverNotify_none r e ex s (Q : unit → kst → Prop) :
  events s !! e = Some ex → (∀ i, 0 ≤ i < MAX_OBSERVERS → o_ev (aget (e_observers ex) i) = None) → Q tt s →
  wp (ObserverNotify r (ObEvent e)) Q s.
Proof.
  intros He Hno HQ. unfold ObserverNotify. apply (wp_for_each (λ _ s', s' = s)); [done| |].
  - intros i s' Hi ->. unfold get_slot, get_obs. wp_steps. apply wp_event. exists ex. split; [done|]. wp_steps.
    rewrite Hno by (unfold MAX_OBSERVERS in *; lia). by wp_step.
  - by intros s' ->.
Qed.

Lemma delivered_events word sv s s' ev :
  delivered word sv s s' → delivered word sv (set_events ev s) (set_events ev s').
Proof. intros []. split; try done; [by destruct dl_kinv0|by destruct dl_wheel0]. Qed.

(** The bits a signal hands out. *)
Definition handed_out s (word : Z) (sv : list Z) : Z := fold_left (λ a w, Z.lor a (takes s word w)) sv 0.


(** * Tickets *)

Lemma ticket_sum index slot gen :
  0 ≤ slot < 64 → 0 ≤ gen < 2 ^ 15 →
  TICKET_PACK index slot gen = gen * 2 ^ 16 + slot * 2 ^ 10 + index mod 2 ^ 10.
Proof.
  intros Hs Hg. unfold TICKET_PACK. change HANDLE_INDEX_MASK with (Z.ones 10). rewrite Z.land_ones, !Z.shiftl_mul_pow2 by lia.
  rewrite !w32_small by lia. pose proof (Z.mod_pos_bound index (2 ^ 10) ltac:(lia)).
  replace (gen * 2 ^ 16) with (gen * 2 ^ 6 * 2 ^ 10) by lia. rewrite <- Z.lor_assoc, (lor_pack 10 slot) by lia.
  replace (gen * 2 ^ 6 * 2 ^ 10) with (gen * 2 ^ 16) by lia. rewrite (lor_pack 16) by lia. lia.
Qed.
Lemma TICKET_INDEX_PACK index slot gen :
  0 ≤ slot < 64 → 0 ≤ gen < 2 ^ 15 → TICKET_INDEX (TICKET_PACK index slot gen) = index mod 2 ^ 10.
Proof.
  intros. unfold TICKET_INDEX. rewrite ticket_sum, handle_mask by done.
  replace (gen * 2 ^ 16 + slot * 2 ^ 10 + index mod 2 ^ 10) with (index mod 2 ^ 10 + (gen * 2 ^ 6 + slot) * 2 ^ 10) by lia.
  by rewrite Z.mod_add, Zmod_mod by lia.
Qed.
Lemma TICKET_SLOT_PACK index slot gen :
  0 ≤ slot < 64 → 0 ≤ gen < 2 ^ 15 → TICKET_SLOT (TICKET_PACK index slot gen) = slot.
Proof.
  intros. unfold TICKET_SLOT. rewrite ticket_sum by done. change 63 with (Z.ones 6). rewrite Z.land_ones, Z.shiftr_div_pow2 by lia.
  pose proof (Z.mod_pos_bound index (2 ^ 10) ltac:(lia)).
  replace (gen * 2 ^ 16 + slot * 2 ^ 10 + index mod 2 ^ 10) with ((gen * 2 ^ 6 + slot) * 2 ^ 10 + index mod 2 ^ 10) by lia.
  rewrite Z.div_add_l, Z.div_small, Z.add_0_r by lia. rewrite Z.add_comm, Z.mod_add, Z.mod_small by lia. done.
Qed.
Lemma TICKET_GEN_PACK index slot gen :
  0 ≤ slot < 64 → 0 ≤ gen < 2 ^ 15 → TICKET_GEN (TICKET_PACK index slot gen) = gen.
Proof.
  intros. unfold TICKET_GEN. rewrite ticket_sum by done. change 32767 with (Z.ones 15). rewrite Z.land_ones, Z.shiftr_div_pow2 by lia.
  pose proof (Z.mod_pos_bound index (2 ^ 10) ltac:(lia)).
  replace (gen * 2 ^ 16 + slot * 2 ^ 10 + index mod 2 ^ 10) with (gen * 2 ^ 16 + (slot * 2 ^ 10 + index mod 2 ^ 10)) by lia.
  rewrite Z.div_add_l, Z.div_small, Z.add_0_r by lia. by apply Z.mod_small.
Qed.

Lemma free_slot_spec hs : ∀ n slot,
  0 ≤ slot → slot + Z.of_nat n = PORT_HELD_SLOTS →
  slot ≤ free_slot hs n slot ≤ PORT_HELD_SLOTS ∧
  (free_slot hs n slot < PORT_HELD_SLOTS → h_caller (aget hs (free_slot hs n slot)) = None).
Proof.
  induction n as [|n IH]; intros slot Hs Hn; simpl; [lia|].
  destruct (h_caller (aget hs slot)) eqn:Eh; [destruct (IH (slot + 1)); [lia..|]; split; [lia|done]|].
  split; [lia|done].
Qed.
#[local] Arguments free_slot : simpl never.

(** [server] is answering [c], which called through port [p]. *)
Definition serves s server p c : Prop :=
  ∃ sx rco ro cx px, tasks s !! server = Some sx ∧ t_reply_cap sx = Some rco ∧ t_serving_port sx = Some p ∧
    tasks s !! rco = Some ro ∧ rc_caller_task (t_reply_cap_storage ro) = Some c ∧ tasks s !! c = Some cx ∧
    t_tid cx = rc_caller_tid (t_reply_cap_storage ro) ∧ t_ipc_state cx = IPC_WAITING ∧ lin (l_node s) c = None ∧
    ports s !! p = Some px ∧ ∀ hs, p_held px = Some hs → length hs = Z.to_nat PORT_HELD_SLOTS.
(** Its space still holds the handle the call came in on, with the right to wait. *)
Definition holds_port s server p : Prop :=
  ∃ sx o spx e, tasks s !! server = Some sx ∧ t_owner sx = Some o ∧ spaces s !! o = Some spx ∧
    HandleTableGet (s_handle_table spx) (HANDLE_INDEX (t_serving_handle sx)) = Some e ∧ type_ e = HANDLE_PORT ∧
    obj e = p ∧ p ≠ 0 ∧ truthy (Z.land (perms e) PERM_WAIT) = true.

(** The caller [c] is parked in [slot] of [p] under generation [gen]. *)
Definition parked s p c slot gen : Prop :=
  ∃ px hs cx, ports s !! p = Some px ∧ p_held px = Some hs ∧ 0 ≤ slot < Z.of_nat (length hs) ∧
    aget hs slot = mkHeld (Some c) (t_tid cx) gen ∧ tasks s !! c = Some cx ∧ t_ipc_state cx = IPC_WAITING.

(** Taking a parked call with its ticket, once. *)
Lemma wp_PortTakeHeld s server p c index slot gen :
  kinv s → parked s p c slot gen → 0 ≤ slot < 64 → 0 ≤ gen < 2 ^ 15 →
  (∃ sx o spx e, tasks s !! server = Some sx ∧ t_owner sx = Some o ∧ spaces s !! o = Some spx ∧
    HandleTableGet (s_handle_table spx) (index mod 2 ^ 10) = Some e ∧ type_ e = HANDLE_PORT ∧
    obj e = p ∧ p ≠ 0 ∧ truthy (Z.land (perms e) PERM_WAIT) = true) →
  let ticket := TICKET_PACK index slot gen in
  wp (PortTakeHeld server ticket) (λ r s', r = inl c ∧ kinv s' ∧
    (∃ cx', tasks s' !! c = Some cx' ∧ t_held_port cx' = None) ∧
    wp (PortTakeHeld server ticket) (λ r' s'', r' = inr ERR_NOENT ∧ s'' = s') s') s.
Proof.
  intros Hk (px & hs & cx & Hpx & Hhs & Hsl & Hent & Hcx & Hip) Hs Hg (sx & o & spx & e & Hsx & Ho & Hspx & Hget & Hty & Hob & Hp0 & Hpm) ticket.
  pose proof (TICKET_INDEX_PACK index slot gen Hs Hg) as Ei. pose proof (TICKET_SLOT_PACK index slot gen Hs Hg) as Es.
  pose proof (TICKET_GEN_PACK index slot gen Hs Hg) as Eg. fold ticket in Ei, Es, Eg.
  unfold PortTakeHeld at 1. wp_step. apply wp_task. exists sx. split; [done|]. rewrite Ho. wp_step. apply wp_space. exists spx. split; [done|].
  rewrite Ei, Hget, bool_decide_eq_true_2 by done. rewrite Hob, (proj2 (Z.eqb_neq p 0)) by done. simpl. rewrite Hpm. simpl.
  wp_step. apply wp_port. exists px. split; [done|]. rewrite Hhs, Es, Hent. simpl. rewrite Eg, Z.eqb_refl. simpl.
  wp_step. apply wp_task. exists cx. split; [done|]. rewrite Z.eqb_refl, bool_decide_eq_true_2 by done. simpl.
  wp_step. unfold clear_held. wp_step. apply wp_port. exists px. split; [done|]. rewrite Hhs. apply wp_upd_port. exists px. split; [done|].
  pose proof (good_set_held s p px (alter (set_h_caller None) (Z.to_nat slot) hs) Hk Hpx) as [Hk1 _].
  set (px1 := set_p_held _ px). set (s1 := set_ports _ s) in *. wp_step. apply wp_upd_task. exists cx. split; [done|].
  set (s2 := set_tasks _ s1). wp_step. split; [done|]. split; [|split].
  - apply (good_drops s1 c cx); [done..|]. unfold drops, fewer. simpl. tauto.
  - exists (set_t_held_port None cx). simpl. by rewrite lookup_insert_eq.
  - assert (Hsx2 : ∃ sx2, tasks s2 !! server = Some sx2 ∧ t_owner sx2 = Some o).
    { simpl. destruct (decide (server = c)) as [->|]; [rewrite lookup_insert_eq; assert (sx = cx) as <- by congruence; by eexists|].
      rewrite lookup_insert_ne by done. by exists sx. }
    destruct Hsx2 as (sx2 & Hsx2 & Ho2). assert (Hp2 : ports s2 !! p = Some px1) by (simpl; by rewrite lookup_insert_eq).
    assert (Hal : h_caller (aget (alter (set_h_caller None) (Z.to_nat slot) hs) slot) = None).
    { unfold aget. rewrite list_lookup_total_alt, list_lookup_alter_eq.
      destruct (lookup_lt_is_Some_2 hs (Z.to_nat slot) ltac:(lia)) as [h ->]. done. }
    unfold PortTakeHeld. wp_step. apply wp_task. exists sx2. split; [done|]. rewrite Ho2. wp_step. apply wp_space. exists spx. split; [done|].
    rewrite Ei, Hget, bool_decide_eq_true_2 by done. rewrite Hob, (proj2 (Z.eqb_neq p 0)) by done. simpl. rewrite Hpm. simpl.
    wp_step. apply wp_port. exists px1. split; [done|]. simpl. rewrite Es, Hal. by wp_step.
Qed.

(** Recording the call in the table and in the caller. *)
Definition record_call s p px hs c cx slot gen : kst :=
  set_tasks (<[c := set_t_held_slot (w8 slot) (set_t_held_port (Some p) (set_t_reply_holder None cx))]> (tasks s))
    (set_ports (<[p := set_p_held (Some (aset hs slot (mkHeld (Some c) (t_tid cx) gen))) px]> (ports s)) s).

Lemma kinv_record s p px hs c cx slot gen :
  kinv s → ports s !! p = Some px → tasks s !! c = Some cx → lin (l_node s) c = None →
  kinv (record_call s p px hs c cx slot gen).
Proof.
  intros Hk Hpx Hcx Hn. pose proof (good_set_held s p px (aset hs slot (mkHeld (Some c) (t_tid cx) gen)) Hk Hpx) as [Hk1 _].
  unfold record_call. set (s1 := set_ports _ s) in *. apply (kinv_upd s1 c cx); [done..| | | |].
  - pose proof (ki_task s1 Hk1 c cx Hcx) as (?&?&?&?&?&?&?&?). unfold task_ok. simpl. split_and!; try done; try lia.
    intros q [= <-]. rewrite lookup_insert_eq. by eexists _, _.
  - intros q Hq. simpl in Hq. congruence.
  - intros q Hq. destruct (ki_wait_at s1 Hk1 c q Hq) as (y & Hy & Hwq).
    change (tasks s1) with (tasks s) in Hy. simpl. congruence.
  - intros q Hq. destruct (ki_serve_at s1 Hk1 c q Hq) as (y & Hy & Hwq).
    change (tasks s1) with (tasks s) in Hy. simpl. congruence.
Qed.

(** The caller stays parked while the server gives up its reply capability. *)
Lemma parked_boosted s1 s2 s3 server x p c slot gen :
  parked s1 p c slot gen → tasks s1 !! server = Some x →
  tasks s2 = <[server := set_t_serving_port None (set_t_reply_cap None x)]> (tasks s1) → ports s2 = ports s1 →
  boosted s2 s3 → parked s3 p c slot gen.
Proof.
  intros (px & hs & cx & Hpx & Hhs & Hsl & Hent & Hcx & Hip) Hx Et Ep Hb. pose proof Hb as (_ & _ & Ep3 & Ht3 & _).
  assert (Hc2 : ∃ cx2, tasks s2 !! c = Some cx2 ∧ t_tid cx2 = t_tid cx ∧ t_ipc_state cx2 = t_ipc_state cx).
  { rewrite Et. destruct (decide (c = server)) as [->|]; [rewrite lookup_insert_eq; assert (x = cx) as -> by congruence; by eexists|].
    rewrite lookup_insert_ne by done. by eexists. }
  destruct Hc2 as (cx2 & Hc2 & Etid & Eip). destruct (Ht3 c cx2 Hc2) as (a & b & d & Hc3).
  exists px, hs. eexists. split_and!; [congruence|done|lia|lia| |exact Hc3|simpl; congruence]. simpl. by rewrite Etid.
Qed.

(** Parking a call and taking it back: when a server hands its current call over to a ticket
    ([PortHoldCurrent]) the invariant is kept, and either there was no room and nothing changed, or
    the ticket returned names exactly this caller - [PortTakeHeld] by the same server gives it
    back, and a second use of the ticket is refused with ERR_NOENT. *)
Theorem PortHoldCurrent_take s server p c :
  kinv s → serves s server p c → holds_port s server p →
  wp (PortHoldCurrent server) (λ r s1, kinv s1 ∧
    ((r = (ERR_NOMEM, 0) ∧ tasks s1 = tasks s ∧ ports s1 = ports s) ∨
     (∃ ticket, r = (ZUZU_OK, ticket) ∧
        wp (PortTakeHeld server ticket) (λ r s2, r = inl c ∧ kinv s2 ∧
          (∃ cx', tasks s2 !! c = Some cx' ∧ t_held_port cx' = None) ∧
          wp (PortTakeHeld server ticket) (λ r' s3, r' = inr ERR_NOENT ∧ s3 = s2) s2) s1))) s.
Proof.
  intros Hk (sx & rco & ro & cx & px & Hsx & Hrc & Hsp & Hro & Hcl & Hcx & Htid & Hip & Hn & Hpx & Hlen)
    (sx' & o & spx & e & Hsx' & Ho & Hspx & Hget & Hty & Hob & Hp0 & Hpm). assert (sx' = sx) as -> by congruence.
  unfold PortHoldCurrent. wp_step. apply wp_task. exists sx. split; [done|]. rewrite Hrc, Hsp.
  wp_step. apply wp_task. exists ro. split; [done|]. rewrite Hcl. wp_step. wp_step. apply wp_task. exists cx. split; [done|].
  rewrite Htid, Z.eqb_refl, bool_decide_eq_true_2 by done. simpl. wp_step. wp_step. apply wp_port. exists px. split; [done|]. wp_step.
  eapply (wp_mono _ (λ r s1, kinv s1 ∧ tasks s1 = tasks s ∧ spaces s1 = spaces s ∧ l_node s1 = l_node s ∧
    match r with
    | None => ports s1 = ports s
    | Some hs => length hs = Z.to_nat PORT_HELD_SLOTS ∧ (ports s1 = ports s ∨ free_slot hs (Z.to_nat PORT_HELD_SLOTS) 0 = 0) ∧ is_Some (ports s1 !! p)
    end)).
  { destruct (p_held px) as [hs|] eqn:Eh; [wp_step; split_and!; try done; [by apply Hlen|by left]|].
    unfold kmem_alloc. wp_steps. destruct (kmem s) as [|a m]; simpl; [by wp_step|]. wp_steps.
    assert (Hkm : kinv (set_kmem m s)) by (destruct Hk; by split).
    apply wp_if; intros Ea; [by wp_step|]. wp_step. apply wp_upd_port. exists px. split; [done|]. wp_step.
    split; [by apply (good_set_held (set_kmem m s) p px)|]. split_and!; try done; [by right|]. simpl. rewrite lookup_insert_eq. by eexists. }
  intros [hs|] s1 (Hk1 & Et1 & Esp1 & En1 & Hm); [|wp_step; split; [done|left; by split]].
  destruct Hm as (Hlh & Hfull & [px1 Hpx1]). set (slot := free_slot hs (Z.to_nat PORT_HELD_SLOTS) 0) in *.
  destruct (free_slot_spec hs (Z.to_nat PORT_HELD_SLOTS) 0) as [Hslr _]; [done..|]. fold slot in Hslr. clearbody slot. apply wp_if; intros Es; b2p.
  { wp_step. split; [done|left]. split_and!; [done..|]. destruct Hfull as [?|E0]; [done|]. unfold PORT_HELD_SLOTS in *. lia. }
  set (gen := if truthy (Z.land (h_gen (aget hs slot) + 1) 32767) then Z.land (h_gen (aget hs slot) + 1) 32767 else 1).
  assert (Hgen : 0 ≤ gen < 2 ^ 15).
  { subst gen. change 32767 with (Z.ones 15). rewrite Z.land_ones by lia. case_if Eg; [apply Z.mod_pos_bound|]; lia. }
  wp_step. apply wp_task. exists cx. split; [congruence|]. wp_step. apply wp_upd_port. exists px1. split; [done|].
  wp_step. apply wp_upd_task. exists cx. split; [simpl; congruence|]. change (set_tasks _ _) with (record_call s1 p px1 hs c cx slot gen).
  set (s2 := record_call s1 p px1 hs c cx slot gen).
  assert (Hk2 : kinv s2) by (apply kinv_record; congruence).
  assert (Hpk : parked s2 p c slot gen).
  { eexists _, _, (set_t_held_slot (w8 slot) (set_t_held_port (Some p) (set_t_reply_holder None cx))). simpl. rewrite !lookup_insert_eq. split; [done|]. split; [done|]. rewrite length_aset, Hlh. unfold PORT_HELD_SLOTS in *. split; [lia|].
    rewrite aget_aset_eq by lia. split; [done|]. by split. }
  assert (Hsx2 : ∃ sx2, tasks s2 !! server = Some sx2 ∧ t_owner sx2 = Some o ∧ t_serving_handle sx2 = t_serving_handle sx).
  { simpl. rewrite Et1. destruct (decide (server = c)) as [->|]; [rewrite lookup_insert_eq; assert (sx = cx) as <- by congruence; by eexists|].
    rewrite lookup_insert_ne by done. by exists sx. }
  destruct Hsx2 as (sx2 & Hsx2 & Ho2 & Ehd). wp_step. apply wp_task. exists sx2. split; [done|]. rewrite Ehd.
  wp_step. eapply wp_mono; [apply (wp_TaskClearReplyCap s2 server sx2 Hk2 Hsx2)|].
  intros [] s4 ([Hk4 Hc4] & s3 & Et3 & _ & Ep3 & Hb). wp_step. split; [exact Hk4|right]. eexists. split; [reflexivity|].
  apply (wp_PortTakeHeld s4 server p c (HANDLE_INDEX (t_serving_handle sx)) slot gen Hk4
    (parked_boosted s2 s3 s4 server sx2 p c slot gen Hpk Hsx2 Et3 Ep3 Hb)); [unfold PORT_HELD_SLOTS in *; lia|exact Hgen|].
  assert (Hs3 : tasks s3 !! server = Some (set_t_serving_port None (set_t_reply_cap None sx2))) by (by rewrite Et3, lookup_insert_eq).
  pose proof Hb as (_ & _ & _ & Ht4 & _). destruct (Ht4 _ _ Hs3) as (a & b & d & Hs4).
  eexists _, o, spx, e. split_and!; [exact Hs4|done|rewrite (c_spaces _ _ Hc4); simpl; congruence| |done..].
  pose proof (HANDLE_INDEX_range (t_serving_handle sx)) as Hr. change HANDLE_MAX_SLOTS with (2 ^ 10) in Hr.
  rewrite Z.mod_small by lia. done.
Qed.
End ipc.

(** A waiter on an event, and a server in the middle of a call on port 500. *)
Module IpcDemo.
#[local] Existing Instance OneSleeper.steady_timer.
#[local] Existing Instance OneSleeper.steady_ok.

Definition one_link {Q} `{EqDecision Q} (t : Z) (q : Q) : links Q :=
  mkLinks (fset (λ _, []) q [t]) (fset (λ _, None) t (Some q)).
Lemma one_link_ok {Q} `{EqDecision Q} (t : Z) (q : Q) : links_ok (one_link t q).
Proof.
  apply (links_ok_add_tail (mkLinks (λ _, []) (λ _, None)) t q); [apply links_ok_empty|done].
Qed.
Lemma one_link_in {Q} `{EqDecision Q} (t u : Z) (q q' : Q) : lin (one_link t q) u = Some q' → u = t ∧ q' = q.
Proof. unfold one_link, fset. simpl. case_decide; [|done]. by intros [= <-]. Qed.

(** An empty wheel. *)
Lemma no_sleepers s :
  l_timeout s = mkLinks (λ _, []) (λ _, None) → slot_shift s = 0 → wheel_now_slot s = 0 → wheel_occ s = replicate 16 0 →
  wheel_min s = replicate 512 0 → (∀ t x, tasks s !! t = Some x → t_sleep_slot x = -1) → wheel_inv s.
Proof.
  intros E1 E2 E3 E4 E5 Ht. split; unfold bucket; rewrite ?E1, ?E2, ?E3, ?E4, ?E5; try (apply links_ok_empty || done).
  - split; [lia|]. rewrite Z.shiftr_0_r. apply counter_range.
  - split; [|done]. by apply Forall_replicate.
  - intros slot Hs _. unfold bm_test, aget. rewrite lookup_total_replicate_2; [by rewrite Z.testbit_0_l|].
    unfold SLEEP_QUEUE_SIZE in *. pose proof (Z.div_lt_upper_bound slot 32 16). pose proof (Z.div_pos slot 32). lia.
  - intros t x Hx Hs. rewrite (Ht t x Hx) in Hs. lia.
Qed.

Definition waiter : TaskObject :=
  set_t_wait_mask 3 (set_t_wait_queue (Some (EventWaiters 64)) (set_t_state TASK_STATE_BLOCKED (set_t_sleep_slot (-1) task0))).
Definition pin : EventObject := mkEvent 4 1 1 true 0 (replicate 31 0) ObserverInit 0.
Definition waiting : kst :=
  set_slot_shift 0 (set_l_wait (one_link 16 (EventWaiters 64)) (set_events (<[64 := pin]> ∅) (set_tasks (<[16 := waiter]> ∅) kst0))).

Lemma waiting_task t x : tasks waiting !! t = Some x → t = 16 ∧ x = waiter.
Proof. unfold waiting. simpl. rewrite lookup_insert_Some. intros [[<- <-]|[_ Hx]]; [done|]. by rewrite lookup_empty in Hx. Qed.
Lemma waiting_kinv : kinv waiting.
Proof.
  split; try (apply links_ok_empty || apply one_link_ok || done).
  - intros l Hl. change (ready_mask waiting) with 0. by rewrite Z.testbit_0_l.
  - intros t q Hl. apply one_link_in in Hl as [-> ->]. by exists waiter.
  - intros t x Hx. destruct (waiting_task t x Hx) as [-> ->]. unfold task_ok. split_and!; done.
Qed.
Lemma waiting_wheel : wheel_inv waiting.
Proof. apply no_sleepers; try done. intros t x Hx. by destruct (waiting_task t x Hx) as [_ ->]. Qed.


Definition caller : TaskObject :=
  set_t_tid 1 (set_t_state TASK_STATE_BLOCKED (set_t_ipc_state IPC_WAITING (set_t_reply_holder (Some 32)
    (set_t_pending_reply_cap (Some 16) (set_t_reply_cap_storage (mkReply (Some 16) 1) task0))))).
Definition server : TaskObject :=
  set_t_tid 2 (set_t_owner (Some 96) (set_t_reply_cap (Some 16) (set_t_serving_port (Some 500) task0))).
Definition answering : kst :=
  set_kmem [700] (set_l_serve (one_link 32 500) (set_ports (<[500 := mkPort 1 1 true ObserverInit None]> ∅)
    (set_spaces (<[96 := mkSpace 1 0 None HandleDemo.table (Some 32) 7 false 1 0 [] 0 [] false ObserverInit 1]> ∅)
      (set_tasks (<[16 := caller]> (<[32 := server]> ∅)) kst0)))).

Lemma answering_task t x : tasks answering !! t = Some x → (t = 16 ∧ x = caller) ∨ (t = 32 ∧ x = server).
Proof.
  unfold answering. simpl. rewrite !lookup_insert_Some. intros [[<- <-]|[_ [[<- <-]|[_ Hx]]]]; auto. by rewrite lookup_empty in Hx.
Qed.
Lemma answering_kinv : kinv answering.
Proof.
  split; try (apply links_ok_empty || apply one_link_ok || done).
  - intros l Hl. change (ready_mask answering) with 0. by rewrite Z.testbit_0_l.
  - intros t q Hl. apply one_link_in in Hl as [-> ->]. by exists server.
  - intros t x Hx. destruct (answering_task t x Hx) as [[-> ->]|[-> ->]]; unfold task_ok;
      (split_and!; [done..| | | | | |]; intros c Hc; simplify_eq/=; try done; by eexists).
Qed.

Lemma PortHoldCurrent_take_witness :
  wp (PortHoldCurrent 32) (λ r s1, kinv s1 ∧ ∀ ticket, r = (ZUZU_OK, ticket) →
    wp (PortTakeHeld 32 ticket) (λ r' _, r' = inl 16) s1) answering.
Proof.
  eapply wp_mono; [apply (PortHoldCurrent_take answering 32 500 16 answering_kinv)|].
  - exists server, 16, caller, caller, (mkPort 1 1 true ObserverInit None). split_and!; reflexivity || done.
  - eexists server, 96, _, _. split_and!; try reflexivity. lia.
  - intros r s1 [Hk [(-> & _)|(ticket & -> & Hw)]]; (split; [done|]); intros tk Htk; [done|].
    injection Htk as <-. eapply wp_mono; [exact Hw|]. by intros r' s2 (? & _).
Defined.
End IpcDemo.

(** 256 fresh events (1 to 256) bound one after the other into event 300, and an event 301. *)
Module ChildCount.
#[local] Existing Instance OneSleeper.steady_timer.
Definition fresh : EventObject := mkEvent 0 1 1 true 0 (replicate 31 0) ObserverInit 0.
Definition events_of (ids : list Z) : gmap Z EventObject := foldr (λ i m, <[i := fresh]> m) ∅ ids.
Definition children : list Z := Z.of_nat <$> seq 1 256.
Definition unbound : kst := set_events (events_of (300 :: 301 :: children)) kst0.
(** Binding the children into 300; whether every binding succeeded. *)
Fixpoint bind_all (cs : list Z) : KM bool :=
  match cs with
  | [] => ret true
  | c :: cs' => let! rc := bind_event c 300 0 in if rc =? ZUZU_OK then bind_all cs' else ret false
  end.

(** An event into which 256 others were bound counts no children, because
    [child_count] has eight bits, so it can itself be bound into a third event: the rule
    of two layers that the handler enforces with that count does not hold. *)
Theorem bind_event_third_layer :
  wp (let! ok := bind_all children in let! rc := bind_event 300 301 0 in ret (ok, rc))
    (λ r s', r = (true, ZUZU_OK) ∧
       e_observers <$> events s' !! 1 = Some (<[0%nat := mkObserver (Some 300) 0 true]> ObserverInit) ∧
       e_observers <$> events s' !! 300 = Some (<[0%nat := mkObserver (Some 301) 0 true]> ObserverInit)) unbound.
Proof. vm_compute. done. Qed.
End ChildCount.
