(* ===== verification/Sync.v ===== *)
(** User-level synchronisation: zones, semaphores and condition variables of include/sync.

    Any number of threads share one zone and one condition variable with its semaphore.  An
    atomic access or a system call is one step of one thread; a schedule is a list of such
    steps.  A thread's program counter says which access comes next, and the functions a
    condition variable calls return to the point named by a continuation.  Signal() and
    WaitOn() are the kernel's, on an event all of whose waiters wait for every bit:
    [EventTake] is that of the kernel's event model.

    Whether a thread is in the zone ([t_in]) and how many posts and waits of the semaphore have
    taken effect is recorded beside the code's own variables, for the theorems. *)
From S2P Require Import Prelude Event.
From stdpp Require Import functions.

#[local] Open Scope Z_scope.

(** * Events *)

(** The pending bits and the blocked threads of an event. *)
Record ev := Ev { ev_word : Z; ev_queue : list Z }.
Definition every_bit : Z := 0x7FFFFFFF.

(** [Signal(event, 1, false)]: the waiter at [pick] takes the bits, or they stay pending. *)
Definition Signal (e : ev) (pick : nat) : option (ev * option Z) :=
  let word := Z.lor (ev_word e) 1 in
  match ev_queue e with
  | [] => Some (Ev word [], None)
  | q => w ← q !! pick; Some (Ev (Z.land word (Z.lnot (EventTake word every_bit false))) (delete pick q), Some w)
  end.
(** [WaitOn(event, TIMEOUT_INFINITE)]: whether it returns at once. *)
Definition WaitOn (e : ev) (t : Z) : ev * bool :=
  let got := EventTake (ev_word e) every_bit false in
  if truthy got then (Ev (Z.land (ev_word e) (Z.lnot got)) (ev_queue e), true) else (Ev (ev_word e) (ev_queue e ++ [t]), false).

(** * Threads *)

(** Where a function returns to: the client, or the function of cv.c that called it. *)
Inductive cont := KClient | KWaitExit (ticket : Z) | KWaitSem (ticket : Z) | KWaitEnter | KSignal | KBroadcast (n : Z).

(** The next access of a thread. *)
Inductive pc :=
  | Idle
  | ZE_cas (k : cont) | ZE_xchg (k : cont) | ZE_wait (k : cont) | ZE_blocked (k : cont) | ZE_owner (k : cont)
  | ZX_owner (k : cont) | ZX_xchg (k : cont) | ZX_signal (k : cont)
  | ZT_cas
  | SP_add (k : cont) | SP_signal (k : cont)
  | SW_load (k : cont) | SW_try (k : cont) (expected : Z) | SW_blocked (k : cont)
  | CW_seq | CW_add (ticket : Z) | CW_check (ticket : Z) | CW_sub
  | CS_add | CS_load
  | CB_add | CB_load | CB_loop (n : Z).

(** What the caller does after the return. *)
Definition ret_to (k : cont) : pc :=
  match k with
  | KWaitExit ticket | KWaitSem ticket => CW_check ticket
  | KBroadcast n => CB_loop n
  | KClient | KWaitEnter | KSignal => Idle
  end.

Record thread := Thread { t_pc : pc; t_in : bool }.
Record sync := Sync {
  z_locked : Z; z_owner : Z; z_event : ev;
  s_count : Z; s_event : ev;
  c_seq : Z; c_waiters : Z;
  threads : Z → thread;
  posted : nat; taken : nat }.

(** ZoneInit and CondVarInit (SemInit with the count given). *)
Definition sync_init (initial_count : Z) : sync :=
  Sync 0 0 (Ev 0 []) initial_count (Ev 0 []) 0 0 (λ _, Thread Idle false) 0 0.

Definition pc_of (s : sync) (t : Z) : pc := t_pc (threads s t).
Definition inside (s : sync) (t : Z) : bool := t_in (threads s t).

Definition with_threads f s := Sync (z_locked s) (z_owner s) (z_event s) (s_count s) (s_event s) (c_seq s) (c_waiters s) f (posted s) (taken s).
Definition with_locked v s := Sync v (z_owner s) (z_event s) (s_count s) (s_event s) (c_seq s) (c_waiters s) (threads s) (posted s) (taken s).
Definition with_owner v s := Sync (z_locked s) v (z_event s) (s_count s) (s_event s) (c_seq s) (c_waiters s) (threads s) (posted s) (taken s).
Definition with_zone_event e s := Sync (z_locked s) (z_owner s) e (s_count s) (s_event s) (c_seq s) (c_waiters s) (threads s) (posted s) (taken s).
Definition with_count v p n s := Sync (z_locked s) (z_owner s) (z_event s) v (s_event s) (c_seq s) (c_waiters s) (threads s) p n.
Definition with_sem_event e s := Sync (z_locked s) (z_owner s) (z_event s) (s_count s) e (c_seq s) (c_waiters s) (threads s) (posted s) (taken s).
Definition with_seq v s := Sync (z_locked s) (z_owner s) (z_event s) (s_count s) (s_event s) v (c_waiters s) (threads s) (posted s) (taken s).
Definition with_waiters v s := Sync (z_locked s) (z_owner s) (z_event s) (s_count s) (s_event s) (c_seq s) v (threads s) (posted s) (taken s).

Definition goto (t : Z) (p : pc) (s : sync) : sync := with_threads (<[t := Thread p (inside s t)]> (threads s)) s.
Definition set_inside (t : Z) (b : bool) (s : sync) : sync := with_threads (<[t := Thread (pc_of s t) b]> (threads s)) s.

(** * include/sync/zone.c *)

Definition ZoneEnter_cas (t : Z) (k : cont) (s : sync) : sync :=
  if z_locked s =? 0 then goto t (ZE_owner k) (set_inside t true (with_locked 1 s))
  else goto t (if negb (z_locked s =? 2) then ZE_xchg k else ZE_wait k) s.
(** Both exchanges: that which announces a waiter and that after a wait. *)
Definition ZoneEnter_xchg (t : Z) (k : cont) (s : sync) : sync :=
  let c := z_locked s in
  let s := with_locked 2 s in
  if negb (c =? 0) then goto t (ZE_wait k) s else goto t (ZE_owner k) (set_inside t true s).
Definition ZoneEnter_wait (t : Z) (k : cont) (s : sync) : sync :=
  let '(e, returns) := WaitOn (z_event s) t in
  goto t (if returns then ZE_xchg k else ZE_blocked k) (with_zone_event e s).
Definition ZoneEnter_owner (t : Z) (k : cont) (s : sync) : sync := goto t (ret_to k) (with_owner t s).

Definition ZoneExit_owner (t : Z) (k : cont) (s : sync) : sync := goto t (ZX_xchg k) (with_owner 0 s).
Definition ZoneExit_xchg (t : Z) (k : cont) (s : sync) : sync :=
  let c := z_locked s in
  goto t (if c =? 2 then ZX_signal k else ret_to k) (set_inside t false (with_locked 0 s)).
(** A thread that a signal takes out of the queue goes on after its WaitOn(). *)
Definition ZoneExit_signal (t : Z) (k : cont) (pick : nat) (s : sync) : option sync :=
  '(e, woken) ← Signal (z_event s) pick;
  let s := with_zone_event e s in
  let s := match woken with
           | Some w => match pc_of s w with ZE_blocked k => goto w (ZE_xchg k) s | _ => s end
           | None => s
           end in
  Some (goto t (ret_to k) s).

(** Without success the result is ERR_BUSY. *)
Definition ZoneTryEnter_cas (t : Z) (s : sync) : sync :=
  if z_locked s =? 0 then goto t (ZE_owner KClient) (set_inside t true (with_locked 1 s)) else goto t Idle s.

(** * include/sync/sem.c *)

Definition SemPost_add (t : Z) (k : cont) (s : sync) : sync :=
  goto t (SP_signal k) (with_count (s32 (s_count s + 1)) (S (posted s)) (taken s) s).
Definition SemPost_signal (t : Z) (k : cont) (pick : nat) (s : sync) : option sync :=
  '(e, woken) ← Signal (s_event s) pick;
  let s := with_sem_event e s in
  let s := match woken with
           | Some w => match pc_of s w with SW_blocked k => goto w (SW_load k) s | _ => s end
           | None => s
           end in
  Some (goto t (ret_to k) s).

Definition SemWait_load (t : Z) (k : cont) (s : sync) : sync := goto t (SW_try k (s_count s)) s.
(** The inner loop, whose compare-and-exchange may fail without a reason, and the wait after it. *)
Definition SemWait_try (t : Z) (k : cont) (expected : Z) (spurious : bool) (s : sync) : sync :=
  if 0 <? expected then
    if negb spurious && (s_count s =? expected)
    then goto t (ret_to k) (with_count (expected - 1) (posted s) (S (taken s)) s)
    else goto t (SW_try k (s_count s)) s
  else
    let '(e, returns) := WaitOn (s_event s) t in
    goto t (if returns then SW_load k else SW_blocked k) (with_sem_event e s).

(** * include/sync/cv.c *)

Definition CondVarWait_seq (t : Z) (s : sync) : sync := goto t (CW_add (c_seq s)) s.
Definition CondVarWait_add (t ticket : Z) (s : sync) : sync :=
  goto t (ZX_owner (KWaitExit ticket)) (with_waiters (s32 (c_waiters s + 1)) s).
Definition CondVarWait_check (t ticket : Z) (s : sync) : sync :=
  goto t (if c_seq s =? ticket then SW_load (KWaitSem ticket) else CW_sub) s.
Definition CondVarWait_sub (t : Z) (s : sync) : sync :=
  goto t (ZE_cas KWaitEnter) (with_waiters (s32 (c_waiters s - 1)) s).

Definition CondVarSignal_add (t : Z) (s : sync) : sync := goto t CS_load (with_seq (w32 (c_seq s + 1)) s).
Definition CondVarSignal_load (t : Z) (s : sync) : sync :=
  goto t (if 0 <? c_waiters s then SP_add KSignal else Idle) s.

Definition CondVarBroadcast_add (t : Z) (s : sync) : sync := goto t CB_load (with_seq (w32 (c_seq s + 1)) s).
Definition CondVarBroadcast_load (t : Z) (s : sync) : sync := goto t (CB_loop (c_waiters s)) s.
(** [n] posts to go. *)
Definition CondVarBroadcast_loop (t n : Z) (s : sync) : sync :=
  goto t (if 0 <? n then SP_add (KBroadcast (n - 1)) else Idle) s.

(** * Schedules *)

(** One step of a thread; [None] if it is blocked or has nothing to do. *)
Definition run (t : Z) (pick : nat) (spurious : bool) (s : sync) : option sync :=
  match pc_of s t with
  | Idle | ZE_blocked _ | SW_blocked _ => None
  | ZE_cas k => Some (ZoneEnter_cas t k s)
  | ZE_xchg k => Some (ZoneEnter_xchg t k s)
  | ZE_wait k => Some (ZoneEnter_wait t k s)
  | ZE_owner k => Some (ZoneEnter_owner t k s)
  | ZX_owner k => Some (ZoneExit_owner t k s)
  | ZX_xchg k => Some (ZoneExit_xchg t k s)
  | ZX_signal k => ZoneExit_signal t k pick s
  | ZT_cas => Some (ZoneTryEnter_cas t s)
  | SP_add k => Some (SemPost_add t k s)
  | SP_signal k => SemPost_signal t k pick s
  | SW_load k => Some (SemWait_load t k s)
  | SW_try k expected => Some (SemWait_try t k expected spurious s)
  | CW_seq => Some (CondVarWait_seq t s)
  | CW_add ticket => Some (CondVarWait_add t ticket s)
  | CW_check ticket => Some (CondVarWait_check t ticket s)
  | CW_sub => Some (CondVarWait_sub t s)
  | CS_add => Some (CondVarSignal_add t s)
  | CS_load => Some (CondVarSignal_load t s)
  | CB_add => Some (CondVarBroadcast_add t s)
  | CB_load => Some (CondVarBroadcast_load t s)
  | CB_loop n => Some (CondVarBroadcast_loop t n s)
  end.

(** A call by a thread that has nothing to do.  The zone is entered only from outside it, and left
    and waited in only from inside, as the headers ask. *)
Inductive call := ZoneEnter | ZoneExit | ZoneTryEnter | SemPost | SemWait | CondVarWait | CondVarSignal | CondVarBroadcast.
Definition entry (c : call) : pc :=
  match c with
  | ZoneEnter => ZE_cas KClient | ZoneExit => ZX_owner KClient | ZoneTryEnter => ZT_cas
  | SemPost => SP_add KClient | SemWait => SW_load KClient
  | CondVarWait => CW_seq | CondVarSignal => CS_add | CondVarBroadcast => CB_add
  end.
Definition allowed (c : call) (is_inside : bool) : bool :=
  match c with ZoneEnter | ZoneTryEnter => negb is_inside | ZoneExit | CondVarWait => is_inside | _ => true end.

Inductive action := Call (t : Z) (c : call) | Run (t : Z) (pick : nat) (spurious : bool).
Definition act (a : action) (s : sync) : option sync :=
  match a with
  | Call t c =>
      match pc_of s t with
      | Idle => if allowed c (inside s t) then Some (goto t (entry c) s) else None
      | _ => None
      end
  | Run t pick spurious => run t pick spurious s
  end.
Fixpoint schedule (l : list action) (s : sync) : option sync :=
  match l with [] => Some s | a :: l' => s ← act a s; schedule l' s end.

(** * The zone's invariant *)

Definition enter_k (k : cont) : bool := match k with KClient | KWaitEnter => true | _ => false end.
Definition exit_k (k : cont) : bool := match k with KClient | KWaitExit _ => true | _ => false end.
Definition post_k (k : cont) : bool := match k with KClient | KSignal | KBroadcast _ => true | _ => false end.
Definition wait_k (b : bool) (k : cont) : bool := match k with KClient => true | KWaitSem _ => negb b | _ => false end.

(** Where a thread may be, in and outside the zone. *)
Definition pc_ok (p : pc) (b : bool) : bool :=
  match p with
  | ZE_cas k | ZE_xchg k | ZE_wait k | ZE_blocked k => negb b && enter_k k
  | ZE_owner k => b && enter_k k
  | ZX_owner k | ZX_xchg k => b && exit_k k
  | ZX_signal k => negb b && exit_k k
  | ZT_cas | CW_check _ | CW_sub => negb b
  | CW_seq | CW_add _ => b
  | SP_add k | SP_signal k => post_k k
  | SW_load k | SW_try k _ | SW_blocked k => wait_k b k
  | Idle | CS_add | CS_load | CB_add | CB_load | CB_loop _ => true
  end.
Definition blocked (p : pc) : bool := match p with ZE_blocked _ => true | _ => false end.
Definition waiting (p : pc) : bool := match p with ZE_wait _ | ZE_blocked _ => true | _ => false end.
(** A thread that will set [locked] to 2 or signal in its next step. *)
Definition waker (p : pc) : bool := match p with ZE_xchg _ | ZX_signal _ => true | _ => false end.
(** In the zone with [owner] set. *)
Definition settled (p : pc) : bool := match p with ZE_owner _ | ZX_xchg _ => false | _ => true end.

Record zinv (s : sync) : Prop := {
  zi_locked : 0 ≤ z_locked s ≤ 2;
  zi_one : ∀ t u, inside s t = true → inside s u = true → t = u;
  zi_free : (z_locked s = 0 → ∀ t, inside s t = false) ∧ (z_locked s ≠ 0 → ∃ t, inside s t = true);
  zi_pc : ∀ t, pc_ok (pc_of s t) (inside s t) = true;
  zi_owner : ∀ t, inside s t = true → settled (pc_of s t) = true → z_owner s = t;
  zi_queue : ∀ t, t ∈ ev_queue (z_event s) ↔ blocked (pc_of s t) = true;
  zi_nodup : NoDup (ev_queue (z_event s));
  zi_word : ev_word (z_event s) = 0 ∨ ev_word (z_event s) = 1 ∧ ev_queue (z_event s) = [];
  zi_wake : (∃ t, waiting (pc_of s t) = true) → z_locked s = 2 ∨ ev_word (z_event s) = 1 ∨ ∃ u, waker (pc_of s u) = true }.

Lemma pc_goto s t p u : pc_of (goto t p s) u = if decide (u = t) then p else pc_of s u.
Proof. unfold pc_of, goto. cbn [threads with_threads]. unfold insert, fn_insert. destruct (decide (t = u)), (decide (u = t)); congruence || done. Qed.
Lemma inside_goto s t p u : inside (goto t p s) u = inside s u.
Proof. unfold inside, goto. cbn [threads with_threads]. unfold insert, fn_insert. destruct (decide (t = u)) as [->|]; done. Qed.
Lemma pc_set_inside s t b u : pc_of (set_inside t b s) u = pc_of s u.
Proof. unfold pc_of, set_inside. cbn [threads with_threads]. unfold insert, fn_insert. destruct (decide (t = u)) as [->|]; done. Qed.
Lemma inside_set s t b u : inside (set_inside t b s) u = if decide (u = t) then b else inside s u.
Proof. unfold inside, set_inside. cbn [threads with_threads]. unfold insert, fn_insert. destruct (decide (t = u)), (decide (u = t)); congruence || done. Qed.

(** The zone's part of the state. *)
Lemma zone_goto s t p : z_locked (goto t p s) = z_locked s ∧ z_owner (goto t p s) = z_owner s ∧ z_event (goto t p s) = z_event s.
Proof. done. Qed.

(** A thread that moves on, with the zone's variables as they are. *)
Lemma zinv_goto s t p : zinv s →
  pc_ok p (inside s t) = true → blocked (pc_of s t) = false → blocked p = false →
  (inside s t = true → settled p = true → settled (pc_of s t) = true) →
  z_locked s = 2 ∨ (waker (pc_of s t) = true → waker p = true) ∧ (waiting p = true → waiting (pc_of s t) = true) → zinv (goto t p s).
Proof.
  intros [H1 H2 H3 H4 H5 H6 H7 H8 H9] Hok Hb Hb' Hs Hw. split; try done.
  - intros u v. rewrite !inside_goto. apply H2.
  - setoid_rewrite inside_goto. done.
  - intros u. rewrite pc_goto, inside_goto. destruct (decide (u = t)) as [->|]; done.
  - intros u. rewrite pc_goto, inside_goto. destruct (decide (u = t)) as [->|]; [|apply H5]. intros Hi Hp. apply (H5 t Hi). auto.
  - intros u. rewrite pc_goto. destruct (decide (u = t)) as [->|]; [|apply H6]. rewrite (H6 t), Hb, Hb'. done.
  - intros [u Hu]. rewrite pc_goto in Hu. destruct Hw as [|[Hw Hwt]]; [by left|].
    assert (∃ u, waiting (pc_of s u) = true) as Hu' by (destruct (decide (u = t)) as [->|]; [exists t; auto|by exists u]).
    destruct (H9 Hu') as [|[|[v Hv]]]; [by left|by right; left|]. right. right. exists v. rewrite pc_goto. destruct (decide (v = t)) as [->|]; auto.
Qed.

(** A change of what the zone does not use. *)
Lemma zinv_other s s' : z_locked s' = z_locked s → z_owner s' = z_owner s → z_event s' = z_event s → threads s' = threads s → zinv s → zinv s'.
Proof.
  intros E1 E2 E3 E4 [H1 H2 H3 H4 H5 H6 H7 H8 H9]. unfold pc_of, inside in *. split; unfold pc_of, inside; rewrite ?E1, ?E2, ?E3, ?E4; done.
Qed.

(** Taking the zone. *)
Lemma zinv_acquire s t k v : zinv s → z_locked s = 0 → v = 1 ∨ v = 2 → enter_k k = true → blocked (pc_of s t) = false →
  (waker (pc_of s t) = true → v = 2) → zinv (goto t (ZE_owner k) (set_inside t true (with_locked v s))).
Proof.
  intros [H1 H2 H3 H4 H5 H6 H7 H8 H9] Hl Hv Hk Hb Hw. pose proof (proj1 H3 Hl) as Hout.
  set (s1 := with_locked v s). set (s2 := set_inside t true s1).
  assert (∀ u, inside s2 u = if decide (u = t) then true else false) as Hi by (intros u; unfold s2; rewrite inside_set; destruct (decide (u = t)); [done|apply Hout]).
  assert (∀ u, pc_of s2 u = pc_of s u) as Hp by (intros u; unfold s2; by rewrite pc_set_inside).
  split; try done.
  - change (0 ≤ v ≤ 2). lia.
  - intros u w. rewrite !inside_goto, !Hi. destruct (decide (u = t)), (decide (w = t)); congruence.
  - change ((v = 0 → ∀ u, inside (goto t (ZE_owner k) s2) u = false) ∧ (v ≠ 0 → ∃ u, inside (goto t (ZE_owner k) s2) u = true)).
    split; [lia|]. intros _. exists t. by rewrite inside_goto, Hi, decide_True.
  - intros u. rewrite pc_goto, inside_goto, Hi, Hp. destruct (decide (u = t)); [done|]. specialize (H4 u). by rewrite Hout in H4.
  - intros u. rewrite pc_goto, inside_goto, Hi. destruct (decide (u = t)); done.
  - intros u. rewrite pc_goto, Hp. destruct (decide (u = t)) as [->|]; [|apply H6]. change (z_event _) with (z_event s). rewrite (H6 t), Hb. done.
  - intros [u Hu]. rewrite pc_goto, Hp in Hu. destruct (decide (u = t)) as [->|]; [done|].
    change (v = 2 ∨ ev_word (z_event s) = 1 ∨ ∃ u, waker (pc_of (goto t (ZE_owner k) s2) u) = true).
    destruct (H9 ltac:(by exists u)) as [|[|[w Hw']]]; [lia|by right; left|]. destruct (decide (w = t)) as [->|Hne]; [left; auto|].
    right. right. exists w. by rewrite pc_goto, decide_False, Hp.
Qed.

(** Announcing a waiter while the zone is taken. *)
Lemma zinv_announce s : zinv s → z_locked s ≠ 0 → zinv (with_locked 2 s).
Proof.
  intros [H1 H2 H3 H4 H5 H6 H7 H8 H9] Hl. split; try done.
  - split; [done|]. intros _. by apply H3.
  - by left.
Qed.

(** The owner field. *)
Lemma zinv_owner s t v : zinv s → inside s t = true → (settled (pc_of s t) = true → v = t) → zinv (with_owner v s).
Proof.
  intros [H1 H2 H3 H4 H5 H6 H7 H8 H9] Hi Hv. split; try done. intros u Hu Hs. change (v = u).
  assert (u = t) as -> by (by apply H2). auto.
Qed.
Lemma zinv_enter_owner s t k : zinv s → pc_of s t = ZE_owner k → zinv (ZoneEnter_owner t k s).
Proof.
  intros Hz Hpc. pose proof (zi_pc s Hz t) as Hok. rewrite Hpc in Hok. apply andb_true_iff in Hok as [Hi Hk].
  destruct Hz as [H1 H2 H3 H4 H5 H6 H7 H8 H9]. unfold ZoneEnter_owner. set (s1 := with_owner t s). assert (ret_to k = Idle) as -> by (by destruct k).
  split; try done.
  - intros u v. rewrite !inside_goto. apply H2.
  - setoid_rewrite inside_goto. done.
  - intros u. rewrite pc_goto, inside_goto. destruct (decide (u = t)); [done|apply H4].
  - intros u. rewrite inside_goto. intros Hu _. by apply H2.
  - intros u. rewrite pc_goto. destruct (decide (u = t)) as [->|]; [|apply H6]. change (z_event _) with (z_event s). rewrite (H6 t), Hpc. done.
  - intros [u Hu]. rewrite pc_goto in Hu. destruct (decide (u = t)); [done|]. destruct (H9 ltac:(by exists u)) as [|[|[w Hw]]]; [by left|by right; left|].
    right. right. exists w. rewrite pc_goto. destruct (decide (w = t)) as [->|]; [|done]. by rewrite Hpc in Hw.
Qed.

Lemma zinv_exit_owner s t k : zinv s → pc_of s t = ZX_owner k → zinv (ZoneExit_owner t k s).
Proof.
  intros Hz Hpc. pose proof (zi_pc s Hz t) as Hok. rewrite Hpc in Hok. pose proof Hok as [Hi Hk]%andb_true_iff.
  destruct Hz as [H1 H2 H3 H4 H5 H6 H7 H8 H9]. unfold ZoneExit_owner. split; try done.
  - intros u v. rewrite !inside_goto. apply H2.
  - setoid_rewrite inside_goto. done.
  - intros u. rewrite pc_goto, inside_goto. destruct (decide (u = t)) as [->|]; [done|apply H4].
  - intros u. rewrite inside_goto, pc_goto. intros Hu. assert (u = t) as -> by (by apply H2). by rewrite decide_True.
  - intros u. rewrite pc_goto. destruct (decide (u = t)) as [->|]; [|apply H6]. change (z_event _) with (z_event s). rewrite (H6 t), Hpc. done.
  - intros [u Hu]. rewrite pc_goto in Hu. destruct (decide (u = t)); [done|]. destruct (H9 ltac:(by exists u)) as [|[|[w Hw]]]; [by left|by right; left|].
    right. right. exists w. rewrite pc_goto. destruct (decide (w = t)) as [->|]; [|done]. by rewrite Hpc in Hw.
Qed.

(** Leaving the zone. *)
Lemma zinv_exit_xchg s t k : zinv s → pc_of s t = ZX_xchg k → zinv (ZoneExit_xchg t k s).
Proof.
  intros Hz Hpc. pose proof (zi_pc s Hz t) as Hok. rewrite Hpc in Hok. pose proof Hok as [Hi Hk]%andb_true_iff.
  destruct Hz as [H1 H2 H3 H4 H5 H6 H7 H8 H9]. unfold ZoneExit_xchg. set (p := if z_locked s =? 2 then ZX_signal k else ret_to k). set (s2 := set_inside t false _).
  assert (∀ u, inside s2 u = false) as Hout.
  { intros u. unfold s2. rewrite inside_set. destruct (decide (u = t)); [done|]. change (inside s u = false). destruct (inside s u) eqn:E; [|done]. by rewrite (H2 u t) in n. }
  assert (∀ u, pc_of s2 u = pc_of s u) as Hp by (intros u; unfold s2; by rewrite pc_set_inside).
  assert (pc_ok p false = true) as Hpk by (unfold p; destruct (z_locked s =? 2), k; done).
  assert (blocked p = false ∧ waiting p = false) as [Hb Hw] by (unfold p; destruct (z_locked s =? 2), k; done).
  split; try done.
  - intros u w. by rewrite !inside_goto, !Hout.
  - split; [|done]. intros _ u. by rewrite inside_goto.
  - intros u. rewrite pc_goto, inside_goto, Hout, Hp. destruct (decide (u = t)); [done|]. specialize (H4 u). destruct (inside s u) eqn:E; [by rewrite (H2 u t) in n|done].
  - intros u. by rewrite inside_goto, Hout.
  - intros u. rewrite pc_goto, Hp. destruct (decide (u = t)) as [->|]; [|apply H6]. change (z_event _) with (z_event s). rewrite (H6 t), Hpc, Hb. done.
  - intros [u Hu]. rewrite pc_goto, Hp in Hu. destruct (decide (u = t)); [by rewrite Hw in Hu|]. right. change (z_event _) with (z_event s).
    destruct (H9 ltac:(by exists u)) as [E2|[|[w Hw']]]; [|by left|]; right.
    + exists t. rewrite pc_goto, decide_True by done. unfold p. by rewrite E2.
    + exists w. rewrite pc_goto, Hp. destruct (decide (w = t)) as [->|]; [|done]. by rewrite Hpc in Hw'.
Qed.

Lemma take_bit : EventTake 1 every_bit false = 1.
Proof. done. Qed.
Lemma take_none : EventTake 0 every_bit false = 0.
Proof. done. Qed.

(** WaitOn() takes the pending signal or blocks. *)
Lemma zinv_wait s t k : zinv s → pc_of s t = ZE_wait k → zinv (ZoneEnter_wait t k s).
Proof.
  intros Hz Hpc. pose proof (zi_pc s Hz t) as Hok. rewrite Hpc in Hok. destruct Hz as [H1 H2 H3 H4 H5 H6 H7 H8 H9]. unfold ZoneEnter_wait, WaitOn.
  assert (t ∉ ev_queue (z_event s)) as Ht by (rewrite (H6 t), Hpc; done).
  destruct H8 as [Ew|[Ew Eq]]; rewrite Ew; [rewrite take_none|rewrite take_bit]; cbv beta iota delta [truthy Z.eqb negb]; split; try done.
  all: try (intros u v; rewrite !inside_goto; apply H2).
  all: try (intros u; rewrite pc_goto, inside_goto; destruct (decide (u = t)) as [->|]; [done|apply H4]).
  all: try (intros u; rewrite pc_goto, inside_goto; intros Hu; destruct (decide (u = t)) as [->|]; [|by apply H5]; change (inside s t = true) in Hu; by rewrite Hu in Hok).
  - setoid_rewrite inside_goto. done.
  - intros u. rewrite pc_goto. change (u ∈ ev_queue (z_event s) ++ [t] ↔ blocked (if decide (u = t) then ZE_blocked k else pc_of s u) = true).
    rewrite elem_of_app, list_elem_of_singleton, (H6 u).
    destruct (decide (u = t)) as [->|]; [simpl; tauto|]. tauto.
  - change (NoDup (ev_queue (z_event s) ++ [t])). rewrite list.NoDup_app. split_and!; [done| |apply NoDup_singleton]. intros u Hu ->%list_elem_of_singleton. done.
  - by left.
  - intros _. destruct (H9 ltac:(exists t; by rewrite Hpc)) as [|[|[w Hw]]]; [by left|lia|]. right. right. exists w. rewrite pc_goto.
    destruct (decide (w = t)) as [->|]; [|done]. by rewrite Hpc in Hw.
  - setoid_rewrite inside_goto. done.
  - intros u. rewrite pc_goto. change (u ∈ ev_queue (z_event s) ↔ blocked (if decide (u = t) then ZE_xchg k else pc_of s u) = true). rewrite (H6 u). destruct (decide (u = t)) as [->|]; [by rewrite Hpc|done].
  - by left.
  - intros _. right. right. exists t. by rewrite pc_goto, decide_True.
Qed.

(** What a signal does to an event with a waiter, and to one without. *)
Lemma Signal_cases e pick e' w : ev_word e = 0 ∨ ev_word e = 1 ∧ ev_queue e = [] → Signal e pick = Some (e', w) →
  match w with
  | None => ev_queue e = [] ∧ e' = Ev 1 []
  | Some u => ev_queue e !! pick = Some u ∧ e' = Ev 0 (delete pick (ev_queue e))
  end.
Proof.
  unfold Signal. intros Hw. destruct (ev_queue e) as [|x q] eqn:Eq.
  - intros [= <- <-]. split; [done|]. by destruct Hw as [->|[-> _]].
  - destruct Hw as [->|[_ ?]]; [|done]. destruct ((x :: q) !! pick) as [u|] eqn:El; [|done]. cbv beta iota delta [mbind option_bind]. by intros [= <- <-].
Qed.
Lemma Signal_enabled e : ∃ e' w, Signal e 0 = Some (e', w).
Proof. unfold Signal. destruct (ev_queue e); simpl; eauto. Qed.

Lemma blocked_inv p : blocked p = true → ∃ k, p = ZE_blocked k.
Proof. destruct p; try done. by eexists. Qed.
Lemma elem_of_delete_nodup (q : list Z) i u x : NoDup q → q !! i = Some u → x ∈ delete i q ↔ x ∈ q ∧ x ≠ u.
Proof.
  intros Hnd Hi. pose proof (delete_Permutation q i u Hi) as Hp. rewrite Hp in Hnd. apply list.NoDup_cons in Hnd as [Hni _].
  assert (x ∈ q ↔ x ∈ u :: delete i q) as -> by (by rewrite <- Hp). rewrite elem_of_cons. split; [|naive_solver].
  intros Hx. split; [by right|]. by intros ->.
Qed.

Lemma nodup_delete (q : list Z) i u : NoDup q → q !! i = Some u → NoDup (delete i q).
Proof. intros Hnd Hi. pose proof (delete_Permutation q i u Hi) as Hp. rewrite Hp in Hnd. by apply list.NoDup_cons in Hnd as [_ ?]. Qed.

Lemma zinv_signal s t k pick s' : zinv s → pc_of s t = ZX_signal k → ZoneExit_signal t k pick s = Some s' → zinv s'.
Proof.
  intros Hz Hpc. pose proof (zi_pc s Hz t) as Hok. rewrite Hpc in Hok. pose proof Hok as [Hi Hk]%andb_true_iff. apply negb_true_iff in Hi.
  assert (pc_ok (ret_to k) false = true ∧ blocked (ret_to k) = false ∧ waiting (ret_to k) = false) as (Hrk & Hrb & Hrw) by (by destruct k).
  unfold ZoneExit_signal. destruct (Signal (z_event s) pick) as [[e w]|] eqn:Es; [|done]. cbv beta iota delta [mbind option_bind].
  apply Signal_cases in Es; [|apply Hz]. destruct Hz as [H1 H2 H3 H4 H5 H6 H7 H8 H9]. destruct w as [w|].
  - destruct Es as [Hw ->]. assert (Hbw := proj1 (H6 w) (list_elem_of_lookup_2 _ _ _ Hw)). set (s1 := with_zone_event _ s). change (pc_of s1 w) with (pc_of s w).
    apply blocked_inv in Hbw as [kw Ew]. rewrite Ew. intros [= <-]. set (s2 := goto w (ZE_xchg kw) s1).
    assert (w ≠ t) as Hwt by (by intros ->; rewrite Hpc in Ew).
    assert (∀ u, pc_of (goto t (ret_to k) s2) u = if decide (u = t) then ret_to k else if decide (u = w) then ZE_xchg kw else pc_of s u) as Hp
      by (intros u; unfold s2; by rewrite !pc_goto).
    assert (∀ u, inside (goto t (ret_to k) s2) u = inside s u) as Hin by (intros u; unfold s2; by rewrite !inside_goto).
    split; try done.
    + intros u v. rewrite !Hin. apply H2.
    + setoid_rewrite Hin. done.
    + intros u. rewrite Hp, Hin. destruct (decide (u = t)) as [->|]; [by rewrite Hi|]. destruct (decide (u = w)) as [->|]; [|apply H4]. specialize (H4 w). by rewrite Ew in H4.
    + intros u. rewrite Hp, Hin. intros Hu. destruct (decide (u = t)) as [->|]; [by rewrite Hi in Hu|]. destruct (decide (u = w)) as [->|]; [|by apply H5].
      specialize (H4 w). by rewrite Ew, Hu in H4.
    + intros u. rewrite Hp. change (u ∈ delete pick (ev_queue (z_event s)) ↔ blocked (if decide (u = t) then ret_to k else if decide (u = w) then ZE_xchg kw else pc_of s u) = true).
      rewrite (elem_of_delete_nodup _ _ w) by done. rewrite (H6 u). destruct (decide (u = t)) as [->|]; [rewrite Hpc, Hrb; simpl; naive_solver|].
      destruct (decide (u = w)) as [->|]; [simpl; naive_solver|]. naive_solver.
    + change (NoDup (delete pick (ev_queue (z_event s)))). by eapply nodup_delete.
    + by left.
    + intros _. right. right. exists w. rewrite Hp, decide_False, decide_True by done. done.
  - destruct Es as [Eq ->]. intros [= <-]. set (s1 := with_zone_event _ s). split; try done.
    + intros u v. rewrite !inside_goto. apply H2.
    + setoid_rewrite inside_goto. done.
    + intros u. rewrite pc_goto, inside_goto. destruct (decide (u = t)) as [->|]; [|apply H4]. change (inside s1 t) with (inside s t). by rewrite Hi.
    + intros u. rewrite pc_goto, inside_goto. change (inside s1 u) with (inside s u). intros Hu. destruct (decide (u = t)) as [->|]; [by rewrite Hi in Hu|]. by apply H5.
    + intros u. rewrite pc_goto. change (u ∈ [] ↔ blocked (if decide (u = t) then ret_to k else pc_of s u) = true). rewrite <- Eq, (H6 u).
      destruct (decide (u = t)) as [->|]; [by rewrite Hpc, Hrb|done].
    + by constructor.
    + by right.
    + intros _. by right; left.
Qed.

(** A step of a thread outside the zone's functions. *)
Lemma zinv_move s s' t p : zinv s → z_locked s' = z_locked s → z_owner s' = z_owner s → z_event s' = z_event s → threads s' = threads s →
  pc_ok p (inside s t) = true → waiting (pc_of s t) = false → waker (pc_of s t) = false → waiting p = false → settled (pc_of s t) = true →
  zinv (goto t p s').
Proof.
  intros Hz E1 E2 E3 E4 Hok Hb Hw Hwp Hs. assert (pc_of s' t = pc_of s t ∧ inside s' t = inside s t) as [Ep Ei] by (unfold pc_of, inside; by rewrite E4).
  apply zinv_goto; rewrite ?Ep, ?Ei; try done.
  - by eapply zinv_other.
  - by destruct (pc_of s t).
  - by destruct p.
  - right. by rewrite Hw, Hwp.
Qed.

Lemma sem_signal_zinv s t k pick s' : zinv s → pc_of s t = SP_signal k → SemPost_signal t k pick s = Some s' → zinv s'.
Proof.
  intros Hz Hpc. pose proof (zi_pc s Hz t) as Hok. rewrite Hpc in Hok. unfold SemPost_signal.
  destruct (Signal (s_event s) pick) as [[e w]|]; [|done]. cbv beta iota delta [mbind option_bind]. intros [= <-].
  set (s1 := with_sem_event e s). assert (zinv s1) as Hz1 by (by apply (zinv_other s)).
  assert (∀ b, pc_ok (ret_to k) b = true) as Hrk by (by destruct k). assert (waiting (ret_to k) = false) as Hrw by (by destruct k).
  destruct w as [w|]; [|apply (zinv_move s1); rewrite ?Hpc; try done; change (pc_of s1 t) with (pc_of s t); by rewrite Hpc].
  change (pc_of s1 w) with (pc_of s w). destruct (pc_of s w) as [| | | | | | | | | | | | | |kw| | | | | | | | |] eqn:Ew;
    try (apply (zinv_move s1); try done; change (pc_of s1 t) with (pc_of s t); by rewrite Hpc).
  assert (t ≠ w) as Htw by (intros ->; congruence). pose proof (zi_pc s Hz w) as Hokw. rewrite Ew in Hokw.
  assert (zinv (goto w (SW_load kw) s1)) as Hz2 by (apply (zinv_move s1); try done; change (pc_of s1 w) with (pc_of s w); by rewrite Ew).
  apply (zinv_move (goto w (SW_load kw) s1)); try done; rewrite pc_goto, decide_False by done; change (pc_of s1 t) with (pc_of s t); by rewrite Hpc.
Qed.

Lemma zinv_run t pick spurious s s' : zinv s → run t pick spurious s = Some s' → zinv s'.
Proof.
  intros Hz. unfold run. pose proof (zi_pc s Hz t) as Hok.
  destruct (pc_of s t) eqn:Hpc; try done; try (intros [= <-]).
  - unfold ZoneEnter_cas. apply andb_true_iff in Hok as [Hi Hk]. destruct (Z.eqb_spec (z_locked s) 0) as [E|E].
    + apply zinv_acquire; auto; by rewrite Hpc.
    + apply negb_true_iff in Hi. apply zinv_goto; rewrite ?Hpc, ?Hi; try done; destruct (Z.eqb_spec (z_locked s) 2); simpl; auto.
  - unfold ZoneEnter_xchg. apply andb_true_iff in Hok as [Hi Hk]. destruct (Z.eqb_spec (z_locked s) 0) as [E|E]; simpl.
    + apply zinv_acquire; auto; by rewrite Hpc.
    + apply negb_true_iff in Hi. apply zinv_goto; [by apply zinv_announce|..]; change (pc_of (with_locked 2 s) t) with (pc_of s t);
        change (inside (with_locked 2 s) t) with (inside s t); rewrite ?Hpc, ?Hi; try done. by left.
  - by apply zinv_wait.
  - by apply zinv_enter_owner.
  - by apply zinv_exit_owner.
  - by apply zinv_exit_xchg.
  - by apply zinv_signal.
  - unfold ZoneTryEnter_cas. destruct (Z.eqb_spec (z_locked s) 0) as [E|E]; [apply zinv_acquire; auto; by rewrite Hpc|].
    apply (zinv_move s); rewrite ?Hpc; done.
  - apply (zinv_move s); rewrite ?Hpc; done.
  - by apply sem_signal_zinv.
  - apply (zinv_move s); rewrite ?Hpc; done.
  - assert (pc_ok (ret_to k) (inside s t) = true ∧ waiting (ret_to k) = false) as [Hrk Hrw] by (by destruct k).
    unfold SemWait_try. case_if E; [case_if E'|destruct (WaitOn _ t) as [e [|]]]; apply (zinv_move s); rewrite ?Hpc; done.
  - apply (zinv_move s); rewrite ?Hpc; done.
  - apply (zinv_move s); rewrite ?Hpc; try done. simpl in Hok |- *. by rewrite Hok.
  - unfold CondVarWait_check. case_if E; apply (zinv_move s); rewrite ?Hpc; done.
  - apply (zinv_move s); rewrite ?Hpc; try done. simpl in Hok |- *. by rewrite Hok.
  - apply (zinv_move s); rewrite ?Hpc; done.
  - unfold CondVarSignal_load. case_if E; apply (zinv_move s); rewrite ?Hpc; done.
  - apply (zinv_move s); rewrite ?Hpc; done.
  - apply (zinv_move s); rewrite ?Hpc; done.
  - unfold CondVarBroadcast_loop. case_if E; apply (zinv_move s); rewrite ?Hpc; done.
Qed.

Lemma zinv_act a s s' : zinv s → act a s = Some s' → zinv s'.
Proof.
  intros Hz. destruct a as [t c|t pick sp]; [|by apply zinv_run]. unfold act. destruct (pc_of s t) eqn:Hpc; try done.
  destruct (allowed c (inside s t)) eqn:Ha; [|done]. intros [= <-]. apply (zinv_move s); rewrite ?Hpc; try done; destruct c; simpl in *; try done; by rewrite Ha.
Qed.
Lemma zinv_schedule l : ∀ s s', zinv s → schedule l s = Some s' → zinv s'.
Proof.
  induction l as [|a l IH]; intros s s' Hz; simpl; [by intros [= <-]|]. destruct (act a s) as [s1|] eqn:E; [|done]. simpl. apply IH. by eapply zinv_act.
Qed.
Lemma zinv_init n : zinv (sync_init n).
Proof.
  split; try done; [intros t; change (t ∈ [] ↔ false = true); split; [by intros ?%not_elem_of_nil|done]|by constructor|by left|by intros [t Ht]].
Qed.

(** * Properties of zones *)

(** C10: under every schedule of any number of threads, at most one thread is in the zone, [locked] is 0 exactly
    when none is, a thread that has returned from ZoneEnter, ZoneTryEnter or CondVarWait in the zone is
    its [owner], and a thread waiting for the zone or a condition is not in it. *)
Theorem zone_exclusive n l s :
  schedule l (sync_init n) = Some s →
  (∀ t u, inside s t = true → inside s u = true → t = u) ∧
  (z_locked s = 0 → ∀ t, inside s t = false) ∧ (z_locked s ≠ 0 → ∃ t, inside s t = true) ∧
  (∀ t, inside s t = true → pc_of s t = Idle → z_owner s = t) ∧
  (∀ t k, pc_of s t = ZE_blocked k ∨ (∃ c, k = KWaitSem c) ∧ pc_of s t = SW_blocked k → inside s t = false).
Proof.
  intros Hl. pose proof (zinv_schedule l _ s (zinv_init n) Hl) as Hz. split_and!.
  - apply Hz.
  - apply Hz.
  - apply Hz.
  - intros t Hi Hpc. apply (zi_owner s Hz t Hi). by rewrite Hpc.
  - intros t k Hk. pose proof (zi_pc s Hz t) as Hok. destruct Hk as [E|[[c ->] E]]; rewrite E in Hok; destruct (inside s t); done.
Qed.

(** C11: no wake-up of the zone is lost: while a thread is blocked in ZoneEnter another one is in the zone with a
    waiter announced, or is about to announce one or to signal; the other one is never blocked itself and
    can take its next step if it is not a client's turn. *)
Theorem zone_wakes n l s t k :
  schedule l (sync_init n) = Some s → pc_of s t = ZE_blocked k →
  ∃ u, u ≠ t ∧ (inside s u = true ∧ z_locked s = 2 ∨ waker (pc_of s u) = true ∧ ∃ s', run u 0 false s = Some s').
Proof.
  intros Hl Hpc. pose proof (zinv_schedule l _ s (zinv_init n) Hl) as Hz. pose proof (zi_pc s Hz t) as Hok. rewrite Hpc in Hok. apply andb_true_iff in Hok as [Hi _].
  destruct (zi_wake s Hz ltac:(exists t; by rewrite Hpc)) as [E2|[E1|[u Hu]]].
  - destruct (proj2 (zi_free s Hz) ltac:(lia)) as [u Hu]. exists u. split; [intros ->; by rewrite Hu in Hi|]. by left.
  - exfalso. destruct (zi_word s Hz) as [|[_ Eq]]; [lia|]. assert (t ∈ ev_queue (z_event s)) as Ht by (apply Hz; by rewrite Hpc). rewrite Eq in Ht. by apply not_elem_of_nil in Ht.
  - exists u. split; [intros ->; by rewrite Hpc in Hu|]. right. split; [done|]. unfold run. destruct (pc_of s u); try done; [by eexists|].
    unfold ZoneExit_signal. destruct (Signal_enabled (z_event s)) as (e & w & ->). by eexists.
Qed.


(** * Properties of semaphores *)

Definition sem_balance (n : Z) (s : sync) : Prop :=
  n + Z.of_nat (posted s) < 2 ^ 31 → 0 ≤ s_count s ∧ s_count s = n + Z.of_nat (posted s) - Z.of_nat (taken s).

(** A step leaves the semaphore's count alone, posts or takes a unit. *)
Lemma balance_act n a s s' : 0 ≤ n → sem_balance n s → act a s = Some s' →
  (s_count s' = s_count s ∧ posted s' = posted s ∧ taken s' = taken s) ∨
  (s_count s' = s32 (s_count s + 1) ∧ posted s' = S (posted s) ∧ taken s' = taken s) ∨
  (0 < s_count s ∧ s_count s' = s_count s - 1 ∧ posted s' = posted s ∧ taken s' = S (taken s)).
Proof.
  intros Hn Hb. destruct a as [t c|t pick sp]; unfold act.
  - destruct (pc_of s t); try done. destruct (allowed _ _); [|done]. intros [= <-]. by left.
  - unfold run. destruct (pc_of s t); try done; try (intros [= <-]; left; done).
    + intros [= <-]. left. unfold ZoneEnter_cas. by case_if E.
    + intros [= <-]. left. unfold ZoneEnter_xchg. by case_if E.
    + intros [= <-]. left. unfold ZoneEnter_wait. by destruct (WaitOn _ _) as [e [|]].
    + unfold ZoneExit_signal. destruct (Signal _ _) as [[e w]|]; [|done]. cbv beta iota delta [mbind option_bind]. intros [= <-]. left.
      destruct w as [w|]; [|done]. by destruct (pc_of _ w).
    + intros [= <-]. left. unfold ZoneTryEnter_cas. by case_if E.
    + intros [= <-]. by right; left.
    + unfold SemPost_signal. destruct (Signal _ _) as [[e w]|]; [|done]. cbv beta iota delta [mbind option_bind]. intros [= <-]. left.
      destruct w as [w|]; [|done]. by destruct (pc_of _ w).
    + intros [= <-]. unfold SemWait_try. destruct (Z.ltb_spec 0 expected).
      * destruct (negb sp && (s_count s =? expected)) eqn:E; [|by left]. apply andb_true_iff in E as [_ E]. b2p. right. right. simpl. split_and!; (done || lia).
      * left. by destruct (WaitOn _ _) as [e [|]].
Qed.
Lemma balance_schedule n l : 0 ≤ n → ∀ s s', sem_balance n s → schedule l s = Some s' → sem_balance n s' ∧ (posted s ≤ posted s')%nat.
Proof.
  intros Hn. induction l as [|a l IH]; intros s s' Hb; simpl; [by intros [= <-]|]. destruct (act a s) as [s1|] eqn:E; [|done]. simpl. intros Hl.
  assert (sem_balance n s1 ∧ (posted s ≤ posted s1)%nat) as [Hb1 Hle].
  { unfold sem_balance in *. destruct (balance_act n a s s1 Hn Hb E) as [(-> & -> & ->)|[(-> & -> & ->)|(Hp & -> & -> & ->)]]; (split; [|lia]); intros Hlt; [auto| |].
    - destruct (Hb ltac:(lia)) as [H0 H1]. rewrite s32_range; lia.
    - destruct (Hb ltac:(lia)) as [H0 H1]. lia. }
  destruct (IH s1 s' Hb1 Hl) as [? ?]. split; [done|lia].
Qed.

(** The count of a semaphore is never negative, and under every schedule (with fewer than 2^31 posts) it is the initial count
    and the posts less the waits that have returned: no wait returns without a unit of its own. *)
Theorem semaphore_counts n l s :
  0 ≤ n → n + Z.of_nat (posted s) < 2 ^ 31 → schedule l (sync_init n) = Some s →
  0 ≤ s_count s ∧ s_count s = n + Z.of_nat (posted s) - Z.of_nat (taken s).
Proof.
  intros Hn Hp Hl. destruct (balance_schedule n l Hn (sync_init n) s) as [Hb _]; [|done|by apply Hb].
  intros _. simpl. lia.
Qed.

(** Threads that do nothing. *)
Definition actor (a : action) : Z := match a with Call t _ | Run t _ _ => t end.
Lemma idle_goto s t p u : u ≠ t → pc_of s u = Idle → pc_of (goto t p s) u = Idle.
Proof. intros Hu Hi. by rewrite pc_goto, decide_False. Qed.
Lemma idle_act a s s' u : act a s = Some s' → actor a ≠ u → pc_of s u = Idle → pc_of s' u = Idle.
Proof.
  destruct a as [t c|t pick sp]; simpl; intros Ha Hu Hi; apply not_eq_sym in Hu.
  - destruct (pc_of s t); try done. destruct (allowed _ _); [|done]. injection Ha as <-. by apply idle_goto.
  - unfold run in Ha. destruct (pc_of s t); try done; try (injection Ha as <-; by apply idle_goto).
    + injection Ha as <-. unfold ZoneEnter_cas. case_if E; apply idle_goto; try done. by rewrite pc_set_inside.
    + injection Ha as <-. unfold ZoneEnter_xchg. case_if E; apply idle_goto; try done. by rewrite pc_set_inside.
    + injection Ha as <-. unfold ZoneEnter_wait. destruct (WaitOn _ _). by apply idle_goto.
    + injection Ha as <-. apply idle_goto; [done|]. by rewrite pc_set_inside.
    + unfold ZoneExit_signal in Ha. destruct (Signal _ _) as [[e w]|]; [|done]. injection Ha as <-. apply idle_goto; [done|].
      destruct w as [w|]; [|done]. destruct (pc_of _ w) eqn:Ew; try done. apply idle_goto; [|done]. intros ->. change (pc_of s w = ZE_blocked k0) in Ew. congruence.
    + injection Ha as <-. unfold ZoneTryEnter_cas. case_if E; apply idle_goto; try done. by rewrite pc_set_inside.
    + unfold SemPost_signal in Ha. destruct (Signal _ _) as [[e w]|]; [|done]. injection Ha as <-. apply idle_goto; [done|].
      destruct w as [w|]; [|done]. destruct (pc_of _ w) eqn:Ew; try done. apply idle_goto; [|done]. intros ->. change (pc_of s w = SW_blocked k0) in Ew. congruence.
    + injection Ha as <-. unfold SemWait_try. case_if E; [case_if E'|destruct (WaitOn _ _)]; by apply idle_goto.
Qed.
Lemma idle_schedule l u : ∀ s s', schedule l s = Some s' → u ∉ actor <$> l → pc_of s u = Idle → pc_of s' u = Idle.
Proof.
  induction l as [|a l IH]; intros s s' Hl Hu Hi; simpl in *; [by injection Hl as <-|]. destruct (act a s) as [s1|] eqn:E; [|done].
  apply not_elem_of_cons in Hu as [Hu Hu']. eapply (IH s1); [done|done|]. eapply idle_act; [done|naive_solver|done].
Qed.

(** The end of a schedule, as far as it can be computed, and the threads that take no part in it. *)
Lemma schedule_ends l n (check : sync → bool) :
  match schedule l (sync_init n) with Some s => check s | None => false end && forallb (λ a, (actor a =? 1) || (actor a =? 2) || (actor a =? 3)) l = true →
  ∃ s, schedule l (sync_init n) = Some s ∧ check s = true ∧ ∀ t, t ≠ 1 → t ≠ 2 → t ≠ 3 → pc_of s t = Idle.
Proof.
  intros [Hc Ha]%andb_true_iff. destruct (schedule l (sync_init n)) as [s|] eqn:E; [|done]. exists s. split_and!; [done..|]. intros t H1 H2 H3.
  eapply idle_schedule; [done| |done]. intros (a & -> & Hin)%list_elem_of_fmap. rewrite forallb_forall in Ha.
  apply list_elem_of_In in Hin. specialize (Ha a Hin). by rewrite !(proj2 (Z.eqb_neq _ _)) in Ha by done.
Qed.
Definition run1 (t : Z) : action := Run t 0 false.
Definition is_idle (s : sync) (t : Z) : bool := match pc_of s t with Idle => true | _ => false end.
Lemma is_idle_true s t : is_idle s t = true → pc_of s t = Idle.
Proof. unfold is_idle. by destruct (pc_of s t). Qed.

(** Two threads see a count of 0, two posts signal the one event, the first thread takes the signal. *)
Definition two_waiters : list action :=
  [Call 1 SemWait; run1 1; Call 2 SemWait; run1 2; Call 3 SemPost; run1 3; run1 3; Call 3 SemPost; run1 3; run1 3;
   run1 1; run1 1; run1 1; run1 2].
Definition second_blocked (s : sync) : bool :=
  (s_count s =? 1) && match pc_of s 2 with SW_blocked KClient => true | _ => false end && (ev_word (s_event s) =? 0) && is_idle s 1 && is_idle s 3.

(** C35: a semaphore can lose a wake-up: a schedule of two waits and two posts ends with every post and one wait done,
    a unit left in the semaphore, and the other wait blocked with nobody to signal it. *)
Theorem semaphore_loses_wakeup :
  ∃ s, schedule two_waiters (sync_init 0) = Some s ∧ s_count s = 1 ∧ pc_of s 2 = SW_blocked KClient ∧ ev_word (s_event s) = 0 ∧
    ∀ t, t ≠ 2 → pc_of s t = Idle.
Proof.
  destruct (schedule_ends two_waiters 0 second_blocked) as (s & E & Hc & Hf); [by vm_compute|]. exists s. unfold second_blocked in Hc.
  rewrite !andb_true_iff in Hc. destruct Hc as ((((H1 & H2) & H3) & H4%is_idle_true) & H5%is_idle_true). b2p. split_and!; [done|done|by destruct (pc_of s 2) as [| | | | | | | | | | | | | |[]| | | | | | | | |]|done|].
  intros t Ht. destruct (decide (t = 1)) as [->|]; [done|]. destruct (decide (t = 3)) as [->|]; [done|]. by apply Hf.
Qed.

(** Two threads wait for the condition, have seen a count of 0 and are about to block; a third
    one broadcasts; the first takes the signal, returns and leaves the zone. *)
Definition runs (n : nat) (t : Z) : list action := replicate n (run1 t).
Definition broadcast : list action :=
  [Call 1 ZoneEnter] ++ runs 2 1 ++ [Call 1 CondVarWait] ++ runs 6 1 ++ [Call 2 ZoneEnter] ++ runs 2 2 ++ [Call 2 CondVarWait] ++ runs 6 2 ++
  [Call 3 CondVarBroadcast] ++ runs 9 3 ++ runs 7 1 ++ [Call 1 ZoneExit] ++ runs 2 1 ++ runs 1 2.
Definition waiter_left (s : sync) : bool :=
  (c_seq s =? 1) && (s_count s =? 1) && (z_locked s =? 0) && (ev_word (s_event s) =? 0) &&
  match pc_of s 2 with SW_blocked (KWaitSem 0) => true | _ => false end && is_idle s 1 && is_idle s 3.

(** The same loss makes a broadcast miss a waiter: CondVarBroadcast has returned, the generation has
    moved on from the waiter's ticket, the zone is free, and the waiter is blocked for good. *)
Lemma broadcast_misses_waiter :
  ∃ s, schedule broadcast (sync_init 0) = Some s ∧ waiter_left s = true ∧ ∀ t, t ≠ 2 → pc_of s t = Idle.
Proof.
  destruct (schedule_ends broadcast 0 waiter_left) as (s & E & Hc & Hf); [by vm_compute|]. exists s. split_and!; [done..|]. unfold waiter_left in Hc.
  rewrite !andb_true_iff in Hc. destruct Hc as ((_ & H4%is_idle_true) & H5%is_idle_true).
  intros t Ht. destruct (decide (t = 1)) as [->|]; [done|]. destruct (decide (t = 3)) as [->|]; [done|]. by apply Hf.
Qed.

(** * Examples *)

Module SyncDemo.
(** Thread 1 is in the zone, thread 2 is blocked. *)
Definition contended : list action := [Call 1 ZoneEnter] ++ runs 2 1 ++ [Call 2 ZoneEnter] ++ runs 3 2.
Definition second_in_queue (s : sync) : bool :=
  match pc_of s 2 with ZE_blocked KClient => true | _ => false end && inside s 1 && (z_locked s =? 2).

Lemma zone_exclusive_witness :
  ∃ s, schedule contended (sync_init 0) = Some s ∧ second_in_queue s = true ∧ inside s 2 = false ∧ z_owner s = 1.
Proof.
  destruct (schedule_ends contended 0 (λ s, second_in_queue s && is_idle s 1)) as (s & E & [Hc Hi%is_idle_true]%andb_true_iff & _); [by vm_compute|].
  exists s. split_and!; [done..| |]; destruct (zone_exclusive 0 contended s E) as (_ & _ & _ & Ho & Hb); unfold second_in_queue in Hc; rewrite !andb_true_iff in Hc; destruct Hc as ((H1 & H2) & _).
  - apply (Hb 2 KClient). left. by destruct (pc_of s 2) as [| | | |[]| | | | | | | | | | | | | | | | | | |].
  - by apply Ho.
Defined.
Lemma zone_wakes_witness :
  ∃ s, schedule contended (sync_init 0) = Some s ∧ ∃ u, u ≠ 2 ∧ (inside s u = true ∧ z_locked s = 2 ∨ waker (pc_of s u) = true ∧ ∃ s', run u 0 false s = Some s').
Proof.
  destruct (schedule_ends contended 0 second_in_queue) as (s & E & Hc & _); [by vm_compute|]. exists s. split; [done|].
  apply (zone_wakes 0 contended s 2 KClient E). unfold second_in_queue in Hc. rewrite !andb_true_iff in Hc. destruct Hc as ((H1 & _) & _).
  by destruct (pc_of s 2) as [| | | |[]| | | | | | | | | | | | | | | | | | |].
Defined.
Lemma semaphore_counts_witness :
  ∃ s, schedule (take 10 two_waiters) (sync_init 0) = Some s ∧ s_count s = 0 + Z.of_nat (posted s) - Z.of_nat (taken s) ∧ posted s = 2%nat.
Proof.
  destruct (schedule_ends (take 10 two_waiters) 0 (λ s, Nat.eqb (posted s) 2)) as (s & E & Hc & _); [by vm_compute|]. apply Nat.eqb_eq in Hc.
  exists s. split_and!; [done| |done]. apply (semaphore_counts 0 (take 10 two_waiters) s); [lia|rewrite Hc; lia|done].
Defined.
End SyncDemo.
