(* ===== verification/Region.v ===== *)
(** kernel/mm/vmm/vmm_region.c: the regions of an address space, and klib/bsearch.c.

    The regions are a growable array ([region_vec], include/vector.h) sorted by start
    address.  A pointer into the array is its index, and a space is given by its array
    (the callers pass non-NULL spaces).  Allocation of a larger array, page table
    operations and the reference counts of backing objects are parameters.

    [vec_ok] says the regions are sorted, disjoint and inside the address space; the
    theorems show that lookup finds exactly the region of an address, that an insertion
    succeeds exactly when nothing overlaps, and that the search for a free range is
    first fit. *)
From stdpp Require Import sorting.
From S2P Require Import Prelude.

#[local] Open Scope Z_scope.

Definition PROT_READ : Z := 1.
Definition PROT_WRITE : Z := 2.
Definition PROT_EXEC : Z := 4.

Inductive VirtMemType := VM_MEM_NORMAL | VM_MEM_DEVICE | VM_MEM_NORMAL_NC.
#[global] Instance VirtMemType_eq_dec : EqDecision VirtMemType.
Proof. solve_decision. Defined.
Inductive VirtMemBacking := VM_BACKING_NONE | VM_BACKING_ANON | VM_BACKING_SHARED.
#[global] Instance VirtMemBacking_eq_dec : EqDecision VirtMemBacking.
Proof. solve_decision. Defined.

(** [backing] is the address of the memory object, 0 for NULL. *)
Record VirtMemRegion := mkRegion {
  vaddr_start : Z;
  size : Z;
  prot : Z;
  max_prot : Z;
  memtype : VirtMemType;
  owner : VirtMemBacking;
  flags : Z;
  backing : Z;
  backing_page_offset : Z
}.
Definition set_max_prot (v : Z) (r : VirtMemRegion) : VirtMemRegion :=
  mkRegion (vaddr_start r) (size r) (prot r) v (memtype r) (owner r) (flags r) (backing r) (backing_page_offset r).
Definition zero_region : VirtMemRegion := mkRegion 0 0 0 0 VM_MEM_NORMAL VM_BACKING_NONE 0 0 0.
#[global] Instance VirtMemRegion_inhabited : Inhabited VirtMemRegion := populate zero_region.

(** [sizeof(VirtMemRegion)] on the 32-bit target: nine words. *)
Definition region_bytes : Z := 36.

(** [vm_region_vec_t]: the address and the [cap] slots of the array. *)
Record region_vec := mkVec { data_at : Z; data : list VirtMemRegion; len : Z; cap : Z }.

(** * Binary search *)

(** [lo] and [hi] are [size_t]; each round makes [hi - lo] smaller, so [nmemb] rounds are enough. *)
Fixpoint bsearch_loop {A} `{Inhabited A} (compar : A → Z) (base : list A) (n : nat) (lo hi : Z) : option (option Z) :=
  if negb (lo <? hi) then Some None else
  match n with
  | O => None
  | S n' =>
      let mid := w32 (lo + hi) / 2 in
      let c := compar (aget base mid) in
      if c =? 0 then Some (Some mid)
      else if c <? 0 then bsearch_loop compar base n' lo mid
      else bsearch_loop compar base n' (mid + 1) hi
  end.
(** The index of the element found; [None] of the outer option is running out of rounds. *)
Definition bsearch {A} `{Inhabited A} (compar : A → Z) (base : list A) (nmemb : Z) : option (option Z) :=
  bsearch_loop compar base (Z.to_nat nmemb) 0 nmemb.

Definition RegionContainsVa (va : Z) (r : VirtMemRegion) : Z :=
  if va <? vaddr_start r then -1
  else if size r <=? w32 (va - vaddr_start r) then 1
  else 0.
Definition RegionCmpStart (va : Z) (r : VirtMemRegion) : Z :=
  if va <? vaddr_start r then -1
  else if vaddr_start r <? va then 1
  else 0.

Definition VmmFindRegion (v : region_vec) (va : Z) : option (option Z) :=
  if len v =? 0 then Some None else bsearch (RegionContainsVa va) (data v) (len v).

(** [memmove] within an array, in elements. *)
Definition memmove {A} (l : list A) (dst src n : Z) : list A :=
  take (Z.to_nat dst) l ++ take (Z.to_nat n) (drop (Z.to_nat src) l) ++ drop (Z.to_nat (dst + n)) l.

(** The search for the insertion point of [VmmAddRegion]. *)
Fixpoint upper_bound (rs : list VirtMemRegion) (new_start : Z) (n : nat) (lo hi : Z) : option Z :=
  if negb (lo <? hi) then Some lo else
  match n with
  | O => None
  | S n' =>
      let mid := lo + (hi - lo) / 2 in
      if vaddr_start (aget rs mid) <=? new_start then upper_bound rs new_start n' (mid + 1) hi
      else upper_bound rs new_start n' lo mid
  end.

(** [vm_region_vec_get]: the slot, bounds-checked against the capacity. *)
Definition vm_region_vec_get (v : region_vec) (i : Z) : option VirtMemRegion :=
  if cap v <=? i then None else Some (aget (data v) i).

Section region.
Context {S : Type}.
Context (KZAlloc : Z → M S Z) (KFree : Z → M S unit).
Context (MemObjRef MemObjUnref : Z → M S unit).
Context (VmmUnmapRange : Z → Z → bool → M S unit).

Definition VEC_INITIAL_CAP : Z := 16.

(** [vm_region_vec_init]: [None] when out of memory. *)
Definition vm_region_vec_init : M S (option region_vec) :=
  let! a := KZAlloc (VEC_INITIAL_CAP * region_bytes) in
  if a =? 0 then ret None else
  ret (Some (mkVec a (replicate (Z.to_nat VEC_INITIAL_CAP) zero_region) 0 VEC_INITIAL_CAP)).
Definition vm_region_vec_destroy (v : region_vec) : M S region_vec :=
  KFree (data_at v) ;; ret (mkVec 0 [] 0 0).

(** [vm_region_vec_grow]: whether it succeeded, and the array. *)
Definition vm_region_vec_grow (v : region_vec) : M S (bool * region_vec) :=
  let new_cap := w32 (cap v * 2) in
  let! a := KZAlloc (w32 (new_cap * region_bytes)) in
  if a =? 0 then ret (false, v) else
  KFree (data_at v) ;;
  ret (true, mkVec a (data v ++ replicate (Z.to_nat (new_cap - cap v)) zero_region) (len v) new_cap).

Definition VmmAddRegion (v : region_vec) (region : VirtMemRegion) : M S (bool * region_vec) :=
  if size region =? 0 then ret (false, v) else
  let new_start := vaddr_start region in
  let new_end := w32 (new_start + size region) in
  match upper_bound (data v) new_start (Z.to_nat (len v)) 0 (len v) with
  | None => diverge
  | Some ins =>
      let left := aget (data v) (ins - 1) in
      if (0 <? ins) && (new_start <? w32 (vaddr_start left + size left)) then ret (false, v) else
      if (ins <? len v) && (vaddr_start (aget (data v) ins) <? new_end) then ret (false, v) else
      let! g := if cap v <=? len v then vm_region_vec_grow v else ret (true, v) in
      let '(ok, v) := g in
      if negb (ok : bool) then ret (false, v) else
      let d := memmove (data v) (ins + 1) ins (len v - ins) in
      let r := if max_prot region =? 0
               then set_max_prot (Z.land (prot region) (Z.lor (Z.lor PROT_READ PROT_WRITE) PROT_EXEC)) region
               else region in
      let d := aset d ins r in
      MemObjRef (backing region) ;;
      ret (true, mkVec (data_at v) d (w32 (len v + 1)) (cap v))
  end.

Definition VmmRemoveRegion (v : region_vec) (vaddr size_ : Z) : M S (bool * region_vec) :=
  if size_ =? 0 then ret (false, v) else
  match bsearch (RegionCmpStart vaddr) (data v) (len v) with
  | None => diverge
  | Some None => ret (false, v)
  | Some (Some idx) =>
      let r := aget (data v) idx in
      if negb (size r =? size_) then ret (false, v) else
      VmmUnmapRange vaddr size_ true ;;
      let d := memmove (data v) idx (idx + 1) (len v - idx - 1) in
      MemObjUnref (backing r) ;;
      ret (true, mkVec (data_at v) d (len v - 1) (cap v))
  end.
End region.

(** The loop of [VmmFindFreeVa] over the remaining regions, [cand] being the candidate. *)
Fixpoint find_free (hi size_ : Z) (rs : list VirtMemRegion) (cand : Z) : Z :=
  match rs with
  | [] => if size_ <=? hi - cand then cand else 0
  | r :: rs' =>
      let r_start := vaddr_start r in
      let r_end := align_up (w32 (r_start + size r)) PAGE_SIZE in
      if r_end <=? cand then find_free hi size_ rs' cand else
      if hi <=? r_start then (if size_ <=? hi - cand then cand else 0) else
      if (cand <? r_start) && (size_ <=? r_start - cand) then cand else
      if hi <=? r_end then 0 else
      find_free hi size_ rs' r_end
  end.
Definition VmmFindFreeVa (v : region_vec) (lo hi size_ : Z) : Z :=
  if (size_ =? 0) || (hi <=? lo) || (hi - lo <? size_) then 0 else
  find_free hi size_ (take (Z.to_nat (len v)) (data v)) lo.

Definition VmmRegionProt (v : region_vec) (va : Z) : option (option Z) :=
  match VmmFindRegion v va with
  | Some (Some i) => Some (Some (prot (aget (data v) i)))
  | Some None => Some None
  | None => None
  end.
Definition VmmRegionLimitProt (v : region_vec) (va allowed : Z) : option (bool * region_vec) :=
  match VmmFindRegion v va with
  | Some (Some i) =>
      let r := aget (data v) i in
      Some (true, mkVec (data_at v) (aset (data v) i (set_max_prot (Z.land (max_prot r) allowed) r)) (len v) (cap v))
  | Some None => Some (false, v)
  | None => None
  end.

(** * Binary search finds what is there *)

Section bsearch_facts.
Context {A : Type} `{Inhabited A} (compar : A → Z) (base : list A) (nmemb : Z).

(** The array is ordered for the comparator: it says "below" from some index on and
    "above" up to some index. *)
Definition ordered_for : Prop :=
  ∀ i j, 0 ≤ i < j → j < nmemb →
    (compar (aget base i) < 0 → compar (aget base j) < 0) ∧
    (0 < compar (aget base j) → 0 < compar (aget base i)).

Lemma bsearch_loop_spec n lo hi :
  ordered_for → 0 ≤ lo ≤ hi → hi ≤ nmemb → nmemb < 2 ^ 31 → hi - lo ≤ Z.of_nat n →
  (∀ i, 0 ≤ i < lo → 0 < compar (aget base i)) →
  (∀ i, hi ≤ i < nmemb → compar (aget base i) < 0) →
  ∃ r, bsearch_loop compar base n lo hi = Some r ∧
    match r with
    | Some i => 0 ≤ i < nmemb ∧ compar (aget base i) = 0
    | None => ∀ i, 0 ≤ i < nmemb → compar (aget base i) ≠ 0
    end.
Proof.
  intros Ho. revert lo hi. induction n as [|n IH]; intros lo hi Hlo Hhi Hn Hf Hb Ha; simpl;
    case_if E; b2p.
  1, 3: exists None; split; [done|]; intros i Hi Hc; destruct (decide (i < lo));
    [specialize (Hb i)|specialize (Ha i)]; lia.
  { lia. }
  rewrite w32_small by lia. set (mid := (lo + hi) / 2). assert (lo ≤ mid < hi) as Hm by (unfold mid; Z.div_mod_to_equations; lia).
  case_if E0; b2p; [exists (Some mid); split; [done|]; split; [lia|done]|].
  case_if E1; b2p; apply IH; try lia.
  - intros i Hi. by apply Hb.
  - intros i Hi. destruct (decide (i = mid)) as [->|]; [done|]. apply (Ho mid i); lia.
  - intros i Hi. destruct (decide (i = mid)) as [->|]; [lia|]. apply (Ho i mid); lia.
  - intros i Hi. by apply Ha.
Qed.

Lemma bsearch_spec :
  ordered_for → 0 ≤ nmemb < 2 ^ 31 →
  ∃ r, bsearch compar base nmemb = Some r ∧
    match r with
    | Some i => 0 ≤ i < nmemb ∧ compar (aget base i) = 0
    | None => ∀ i, 0 ≤ i < nmemb → compar (aget base i) ≠ 0
    end.
Proof. intros Ho Hn. apply bsearch_loop_spec; try done; intros; lia. Qed.
End bsearch_facts.

(** * The invariant of a region array *)

Definition r_end (r : VirtMemRegion) : Z := vaddr_start r + size r.
Definition region_ok (r : VirtMemRegion) : Prop := 0 ≤ vaddr_start r ∧ 0 < size r ∧ r_end r < 2 ^ 32.
Definition contains (r : VirtMemRegion) (va : Z) : Prop := vaddr_start r ≤ va < r_end r.
Definition apart (a b : VirtMemRegion) : Prop := r_end a ≤ vaddr_start b ∨ r_end b ≤ vaddr_start a.
Definition regions (v : region_vec) : list VirtMemRegion := take (Z.to_nat (len v)) (data v).

(** Sorted by address, disjoint, and within the array. *)
Record vec_ok (v : region_vec) : Prop := {
  vo_len : 0 ≤ len v ≤ cap v;
  vo_cap : 0 < cap v < 2 ^ 24;
  vo_data : length (data v) = Z.to_nat (cap v);
  vo_regions : Forall region_ok (regions v);
  vo_sorted : StronglySorted (λ a b, r_end a ≤ vaddr_start b) (regions v)
}.

#[local] Notation below := (λ a b, r_end a ≤ vaddr_start b).

Lemma StronglySorted_lookup {A} (R : relation A) l i j x y :
  StronglySorted R l → (i < j)%nat → l !! i = Some x → l !! j = Some y → R x y.
Proof.
  intros Hs. revert i j. induction Hs as [|a l Hs IH Ha]; intros [|i] [|j] Hij Hx Hy; simplify_eq/=; try lia.
  - by eapply Forall_lookup_1.
  - eapply (IH i j); [lia|done..].
Qed.

Lemma StronglySorted_insert {A} (R : relation A) l i x x' :
  StronglySorted R l → l !! i = Some x → (∀ y, R x y → R x' y) → (∀ y, R y x → R y x') → StronglySorted R (<[i := x']> l).
Proof.
  intros Hs. revert i. induction Hs as [|y l Hs IH Hy]; intros i Hi H1 H2; [done|]. destruct i as [|i]; simpl in *.
  - injection Hi as ->. constructor; [done|]. eapply Forall_impl; [exact Hy|done].
  - constructor; [by apply IH|]. apply Forall_insert; [done|]. apply H2. by eapply Forall_lookup_1.
Qed.

Section vec_facts.
Context (v : region_vec) (Hv : vec_ok v).

Lemma regions_lookup i : 0 ≤ i < len v → regions v !! Z.to_nat i = Some (aget (data v) i).
Proof.
  intros Hi. pose proof (vo_len _ Hv). pose proof (vo_data _ Hv). unfold regions.
  rewrite lookup_take_lt by lia. apply lookup_aget. lia.
Qed.
Lemma regions_index r : r ∈ regions v → ∃ i, 0 ≤ i < len v ∧ r = aget (data v) i.
Proof.
  intros [i Hi]%list_elem_of_lookup. pose proof (lookup_lt_Some _ _ _ Hi) as Hl. unfold regions in Hl.
  rewrite length_take in Hl. exists (Z.of_nat i). split; [lia|].
  pose proof (regions_lookup (Z.of_nat i) ltac:(lia)) as H. rewrite Nat2Z.id in H. congruence.
Qed.
(** Replacing a region by one with its range. *)
Lemma vec_ok_replace i r' :
  0 ≤ i < len v → vaddr_start r' = vaddr_start (aget (data v) i) → size r' = size (aget (data v) i) →
  let v' := mkVec (data_at v) (aset (data v) i r') (len v) (cap v) in
  vec_ok v' ∧ regions v' = <[Z.to_nat i := r']> (regions v).
Proof.
  intros Hi Hs Hz v'. pose proof Hv as [Hl Hc Hd Hr Hso]. pose proof (regions_lookup i Hi) as Hlk.
  assert (regions v' = <[Z.to_nat i := r']> (regions v)) as E by (unfold regions, v', aset; simpl; by rewrite take_insert_lt by lia).
  split; [|done]. split; try done; [simpl; by rewrite length_aset|rewrite E..].
  - apply Forall_insert; [done|]. pose proof (Forall_lookup_1 _ _ _ _ Hr Hlk) as Hok. unfold region_ok, r_end in *. by rewrite Hs, Hz.
  - eapply StronglySorted_insert; [done..| |]; intros y; unfold r_end; by rewrite Hs, ?Hz.
Qed.
Lemma region_at i : 0 ≤ i < len v → region_ok (aget (data v) i).
Proof. intros Hi. eapply Forall_lookup_1; [apply (vo_regions _ Hv)|by apply regions_lookup]. Qed.
Lemma below_at i j : 0 ≤ i < j → j < len v → r_end (aget (data v) i) ≤ vaddr_start (aget (data v) j).
Proof.
  intros Hi Hj.
  apply (StronglySorted_lookup below (regions v) (Z.to_nat i) (Z.to_nat j));
    [apply (vo_sorted _ Hv)|lia|apply regions_lookup; lia..].
Qed.
Lemma length_regions : length (regions v) = Z.to_nat (len v).
Proof. pose proof (vo_len _ Hv). pose proof (vo_data _ Hv). unfold regions. rewrite length_take. lia. Qed.

(** What the comparators say about a region of the array. *)
Lemma RegionContainsVa_spec va r :
  region_ok r → 0 ≤ va < 2 ^ 32 →
  (RegionContainsVa va r < 0 ↔ va < vaddr_start r) ∧ (RegionContainsVa va r = 0 ↔ contains r va) ∧
  (0 < RegionContainsVa va r ↔ r_end r ≤ va).
Proof.
  intros (H1 & H2 & H3) Hva. unfold RegionContainsVa, contains, r_end in *.
  case_if E; b2p; [lia|]. rewrite w32_small by lia. case_if E1; b2p; lia.
Qed.
Lemma RegionCmpStart_spec va r :
  (RegionCmpStart va r < 0 ↔ va < vaddr_start r) ∧ (RegionCmpStart va r = 0 ↔ vaddr_start r = va) ∧
  (0 < RegionCmpStart va r ↔ vaddr_start r < va).
Proof. unfold RegionCmpStart. case_if E; b2p; [lia|]. case_if E1; b2p; lia. Qed.

Lemma ordered_ContainsVa va : 0 ≤ va < 2 ^ 32 → ordered_for (RegionContainsVa va) (data v) (len v).
Proof.
  intros Hva i j Hi Hj. pose proof (region_at i ltac:(lia)) as Hri. pose proof (region_at j ltac:(lia)) as Hrj.
  pose proof (below_at i j Hi Hj). pose proof (RegionContainsVa_spec va _ Hri Hva).
  pose proof (RegionContainsVa_spec va _ Hrj Hva). destruct Hri as (? & ? & ?), Hrj as (? & ? & ?).
  unfold r_end in *. split; lia.
Qed.
Lemma ordered_CmpStart va : ordered_for (RegionCmpStart va) (data v) (len v).
Proof.
  intros i j Hi Hj. destruct (region_at i ltac:(lia)) as (? & ? & ?), (region_at j ltac:(lia)) as (? & ? & ?).
  pose proof (below_at i j Hi Hj). pose proof (RegionCmpStart_spec va (aget (data v) i)).
  pose proof (RegionCmpStart_spec va (aget (data v) j)). unfold r_end in *. split; lia.
Qed.

(** At most one region contains an address. *)
Lemma contains_unique va i j :
  0 ≤ i < len v → 0 ≤ j < len v → contains (aget (data v) i) va → contains (aget (data v) j) va → i = j.
Proof.
  unfold contains. intros Hi Hj Hci Hcj. destruct (Z.lt_trichotomy i j) as [Hij|[?|Hij]]; [|done|].
  - pose proof (below_at i j ltac:(lia) ltac:(lia)). lia.
  - pose proof (below_at j i ltac:(lia) ltac:(lia)). lia.
Qed.

Lemma wp_find va :
  0 ≤ va < 2 ^ 32 →
  ∃ r, VmmFindRegion v va = Some r ∧
    match r with
    | Some i => 0 ≤ i < len v ∧ contains (aget (data v) i) va
    | None => ∀ r, r ∈ regions v → ¬ contains r va
    end.
Proof.
  intros Hva. pose proof (vo_len _ Hv). pose proof (vo_cap _ Hv). unfold VmmFindRegion. case_if E; b2p.
  { exists None. split; [done|]. unfold regions. rewrite E. intros r Hr. simpl in Hr. by apply elem_of_nil in Hr. }
  destruct (bsearch_spec (RegionContainsVa va) (data v) (len v)) as (r & Hr & Hs);
    [by apply ordered_ContainsVa|lia|].
  exists r. split; [done|]. destruct r as [i|].
  - destruct Hs as [Hi Hs]. split; [done|]. by apply RegionContainsVa_spec in Hs; [|by apply region_at|].
  - intros r (i & Hi & ->)%regions_index Hc. apply (Hs i Hi). by apply RegionContainsVa_spec; [apply region_at|..].
Qed.

Lemma upper_bound_spec new n lo hi :
  0 ≤ lo ≤ hi → hi ≤ len v → hi - lo ≤ Z.of_nat n →
  (∀ i, 0 ≤ i < lo → vaddr_start (aget (data v) i) ≤ new) →
  (∀ i, hi ≤ i < len v → new < vaddr_start (aget (data v) i)) →
  ∃ ins, upper_bound (data v) new n lo hi = Some ins ∧ 0 ≤ ins ≤ len v ∧
    (∀ i, 0 ≤ i < ins → vaddr_start (aget (data v) i) ≤ new) ∧
    (∀ i, ins ≤ i < len v → new < vaddr_start (aget (data v) i)).
Proof.
  assert (∀ i j, 0 ≤ i < j → j < len v → vaddr_start (aget (data v) i) ≤ vaddr_start (aget (data v) j)) as Hmono.
  { intros i j Hi Hj. pose proof (below_at i j Hi Hj). destruct (region_at i ltac:(lia)) as (? & ? & ?).
    unfold r_end in *. lia. }
  revert lo hi. induction n as [|n IH]; intros lo hi Hlo Hhi Hn Hb Ha; simpl; case_if E; b2p.
  1, 3: exists lo; split_and!; [done|lia|lia|done|]; intros i Hi; apply Ha; lia.
  { lia. }
  set (mid := lo + (hi - lo) / 2). assert (lo ≤ mid < hi) as Hm by (unfold mid; Z.div_mod_to_equations; lia).
  case_if E0; b2p; apply IH; try lia; try done.
  - intros i Hi. destruct (decide (i = mid)) as [->|]; [done|]. pose proof (Hmono i mid). lia.
  - intros i Hi. destruct (decide (i = mid)) as [->|]; [done|]. pose proof (Hmono mid i). lia.
Qed.
End vec_facts.

(** * Insertion and removal *)

(** The region as it is stored. *)
Definition stored (r : VirtMemRegion) : VirtMemRegion :=
  if max_prot r =? 0 then set_max_prot (Z.land (prot r) (Z.lor (Z.lor PROT_READ PROT_WRITE) PROT_EXEC)) r else r.
(** [v'] is [v] with [r] inserted, and with [r] removed. *)
Definition added (v : region_vec) (r : VirtMemRegion) (v' : region_vec) : Prop :=
  ∃ l1 l2, regions v = l1 ++ l2 ∧ regions v' = l1 ++ stored r :: l2.
Definition removed (v : region_vec) (r : VirtMemRegion) (v' : region_vec) : Prop :=
  ∃ l1 l2, regions v = l1 ++ r :: l2 ∧ regions v' = l1 ++ l2.

Lemma stored_range r : vaddr_start (stored r) = vaddr_start r ∧ size (stored r) = size r.
Proof. unfold stored. by case_if E. Qed.
Lemma stored_end r : r_end (stored r) = r_end r.
Proof. unfold r_end. by destruct (stored_range r) as [-> ->]. Qed.
Lemma stored_ok r : region_ok r → region_ok (stored r).
Proof. unfold region_ok. by rewrite stored_end; destruct (stored_range r) as [-> ->]. Qed.

Lemma insert_shift {A} (d : list A) (i n : nat) x :
  (i ≤ n < length d)%nat →
  take (S n) (<[i := x]> (take (S i) d ++ take (n - i) (drop i d) ++ drop (S n) d)) =
  take i d ++ x :: take (n - i) (drop i d).
Proof.
  intros Hi. rewrite insert_app_l by (rewrite length_take; lia).
  rewrite insert_take_drop by (rewrite length_take; lia).
  rewrite take_take, Nat.min_l, (drop_ge (take (S i) d)) by (rewrite ?length_take; lia).
  rewrite app_assoc, <- (app_assoc (take i d)). simpl. rewrite take_app_length'; [done|].
  rewrite length_app. simpl. rewrite !length_take, length_drop. lia.
Qed.
Lemma delete_shift {A} (d : list A) (i n : nat) :
  (i < n ≤ length d)%nat →
  take (n - 1) (take i d ++ take (n - i - 1) (drop (S i) d) ++ drop (n - 1) d) =
  take i d ++ take (n - i - 1) (drop (S i) d).
Proof.
  intros Hi. rewrite app_assoc, take_app_length'; [done|].
  rewrite length_app, !length_take, length_drop. lia.
Qed.
Lemma take_split {A} (d : list A) (i n : nat) : (i ≤ n)%nat → take n d = take i d ++ take (n - i) (drop i d).
Proof. intros. rewrite <- (take_drop i (take n d)) at 1. by rewrite take_take, Nat.min_l, skipn_firstn_comm. Qed.

Lemma length_memmove {A} (l : list A) dst src n :
  0 ≤ dst → 0 ≤ src → 0 ≤ n → (Z.to_nat (dst + n) ≤ length l)%nat → (Z.to_nat (src + n) ≤ length l)%nat →
  length (memmove l dst src n) = length l.
Proof. intros. unfold memmove. rewrite !length_app, !length_take, !length_drop. lia. Qed.

(** The array after an insertion at [ins] into a free slot. *)
Definition vec_insert (v : region_vec) (ins : Z) (r : VirtMemRegion) : region_vec :=
  mkVec (data_at v) (aset (memmove (data v) (ins + 1) ins (len v - ins)) ins r) (w32 (len v + 1)) (cap v).
Definition vec_delete (v : region_vec) (idx : Z) : region_vec :=
  mkVec (data_at v) (memmove (data v) idx (idx + 1) (len v - idx - 1)) (len v - 1) (cap v).

Lemma regions_insert v ins r :
  vec_ok v → 0 ≤ ins ≤ len v → len v < cap v →
  regions v = take (Z.to_nat ins) (regions v) ++ drop (Z.to_nat ins) (regions v) ∧
  regions (vec_insert v ins r) = take (Z.to_nat ins) (regions v) ++ r :: drop (Z.to_nat ins) (regions v).
Proof.
  intros Hv Hi Hl. pose proof (vo_cap _ Hv). pose proof (vo_data _ Hv). split; [by rewrite take_drop|].
  unfold regions, vec_insert, memmove, aset. simpl. rewrite w32_small by lia.
  replace (Z.to_nat (len v + 1)) with (S (Z.to_nat (len v))) by lia.
  replace (Z.to_nat (ins + 1)) with (S (Z.to_nat ins)) by lia.
  replace (Z.to_nat (ins + 1 + (len v - ins))) with (S (Z.to_nat (len v))) by lia.
  replace (Z.to_nat (len v - ins)) with (Z.to_nat (len v) - Z.to_nat ins)%nat by lia.
  rewrite insert_shift by lia. by rewrite take_take, Nat.min_l, skipn_firstn_comm by lia.
Qed.

Lemma vec_insert_ok v ins r :
  vec_ok v → 0 ≤ ins ≤ len v → len v < cap v → region_ok r →
  (∀ i, 0 ≤ i < ins → r_end (aget (data v) i) ≤ vaddr_start r) →
  (∀ i, ins ≤ i < len v → r_end r ≤ vaddr_start (aget (data v) i)) →
  vec_ok (vec_insert v ins r).
Proof.
  intros Hv Hi Hl Hr Hb Ha. pose proof (vo_len _ Hv). pose proof (vo_cap _ Hv). pose proof (vo_data _ Hv) as Hd.
  destruct (regions_insert v ins r Hv Hi Hl) as [Hs He].
  split.
  - simpl. rewrite w32_small; lia.
  - done.
  - simpl. rewrite length_aset, length_memmove; lia.
  - rewrite He. apply Forall_app. pose proof (vo_regions _ Hv) as Hf. rewrite Hs in Hf. apply Forall_app in Hf as [??].
    split; [done|]. by constructor.
  - rewrite He. pose proof (vo_sorted _ Hv) as Hst. rewrite Hs in Hst. apply StronglySorted_app in Hst as (Hx & H1 & H2).
    assert (∀ x, x ∈ take (Z.to_nat ins) (regions v) → r_end x ≤ vaddr_start r) as Hlo.
    { intros x [k Hk]%list_elem_of_lookup. apply lookup_take_Some in Hk as [Hk Hki].
      rewrite <- (Nat2Z.id k), (regions_lookup v Hv) in Hk by lia. injection Hk as <-. apply Hb. lia. }
    assert (∀ x, x ∈ drop (Z.to_nat ins) (regions v) → r_end r ≤ vaddr_start x) as Hhi.
    { intros x [k Hk]%list_elem_of_lookup. rewrite lookup_drop in Hk.
      pose proof (lookup_lt_Some _ _ _ Hk) as Hlt. rewrite (length_regions v Hv) in Hlt.
      rewrite <- (Nat2Z.id (_ + _)), (regions_lookup v Hv) in Hk by lia. injection Hk as <-. apply Ha. lia. }
    apply StronglySorted_app. split_and!; [|done|].
    + intros x y Hx1 [->|Hy]%elem_of_cons; [by apply Hlo|by apply Hx].
    + apply StronglySorted_cons. split; [|done]. apply Forall_forall. exact Hhi.
Qed.

Lemma regions_delete v idx :
  vec_ok v → 0 ≤ idx < len v →
  regions v = take (Z.to_nat idx) (regions v) ++ aget (data v) idx :: drop (S (Z.to_nat idx)) (regions v) ∧
  regions (vec_delete v idx) = take (Z.to_nat idx) (regions v) ++ drop (S (Z.to_nat idx)) (regions v).
Proof.
  intros Hv Hi. pose proof (vo_len _ Hv). pose proof (vo_data _ Hv). split.
  { symmetry. apply take_drop_middle. by apply regions_lookup. }
  unfold regions, vec_delete, memmove. simpl.
  replace (Z.to_nat (idx + 1)) with (S (Z.to_nat idx)) by lia.
  replace (Z.to_nat (len v - idx - 1)) with (Z.to_nat (len v) - Z.to_nat idx - 1)%nat by lia.
  replace (Z.to_nat (idx + (len v - idx - 1))) with (Z.to_nat (len v) - 1)%nat by lia.
  replace (Z.to_nat (len v - 1)) with (Z.to_nat (len v) - 1)%nat by lia.
  rewrite delete_shift by lia. rewrite take_take, Nat.min_l, skipn_firstn_comm by lia.
  do 2 f_equal. lia.
Qed.

Lemma removed_ok v r v' :
  vec_ok v → removed v r v' → 0 ≤ len v' ≤ cap v' → cap v' = cap v → length (data v') = Z.to_nat (cap v') →
  vec_ok v'.
Proof.
  intros Hv (l1 & l2 & Hr & Hr') Hl Hc Hd. pose proof (vo_cap _ Hv).
  pose proof (vo_regions _ Hv) as Hf. rewrite Hr in Hf. apply Forall_app in Hf as [Hf1 Hf2].
  pose proof (vo_sorted _ Hv) as Hs. rewrite Hr in Hs. apply StronglySorted_app in Hs as (Hx & H1 & H2).
  apply StronglySorted_cons in H2 as [H2 H3].
  split; [done|lia|done|..]; rewrite Hr'.
  - apply Forall_app. split; [done|]. by inversion Hf2.
  - apply StronglySorted_app. split_and!; [|done..]. intros x y Hx1 Hy. apply Hx; [done|]. by right.
Qed.

(** The array [vm_region_vec_grow] makes. *)
Definition vec_grown (v : region_vec) (a : Z) : region_vec :=
  mkVec a (data v ++ replicate (Z.to_nat (w32 (cap v * 2) - cap v)) zero_region) (len v) (w32 (cap v * 2)).
Lemma vec_grown_ok v a :
  vec_ok v → cap v < 2 ^ 23 →
  vec_ok (vec_grown v a) ∧ regions (vec_grown v a) = regions v ∧ cap v < cap (vec_grown v a) ∧
  (∀ i, 0 ≤ i < cap v → aget (data (vec_grown v a)) i = aget (data v) i).
Proof.
  intros Hv Hc. destruct Hv as [Hl Hcap Hd Hr Hs]. unfold vec_grown. rewrite w32_small by lia.
  assert (regions (mkVec a (data v ++ replicate (Z.to_nat (cap v * 2 - cap v)) zero_region) (len v) (cap v * 2)) = regions v) as He.
  { unfold regions. simpl. apply take_app_le. lia. }
  split_and!; [split; rewrite ?He; simpl; try done; try lia|done|simpl; lia|].
  - rewrite length_app, length_replicate. lia.
  - intros i Hi. unfold aget. simpl. by rewrite lookup_total_app_l by lia.
Qed.

Section ops.
Context {St : Type}.
Context (KZAlloc : Z → M St Z) (KFree : Z → M St unit).
Context (MemObjRef MemObjUnref : Z → M St unit).
Context (VmmUnmapRange : Z → Z → bool → M St unit).

(** The test against the neighbours of the insertion point is a test against all regions. *)
Lemma overlap_iff v region ins :
  vec_ok v → region_ok region → 0 ≤ ins ≤ len v →
  (∀ i, 0 ≤ i < ins → vaddr_start (aget (data v) i) ≤ vaddr_start region) →
  (∀ i, ins ≤ i < len v → vaddr_start region < vaddr_start (aget (data v) i)) →
  ((0 <? ins) && (vaddr_start region <? w32 (vaddr_start (aget (data v) (ins - 1)) + size (aget (data v) (ins - 1))))
   || (ins <? len v) && (vaddr_start (aget (data v) ins) <? w32 (vaddr_start region + size region))) = false ↔
  (∀ i, 0 ≤ i < ins → r_end (aget (data v) i) ≤ vaddr_start region) ∧
  (∀ i, ins ≤ i < len v → r_end region ≤ vaddr_start (aget (data v) i)).
Proof.
  intros Hv (Hs0 & Hs1 & Hs2) Hi Hb Ha. unfold r_end in Hs2. rewrite (w32_small (vaddr_start region + _)) by lia.
  split.
  - intros [H1 H2]%orb_false_iff. split; intros i Hii; unfold r_end.
    + destruct (region_at v Hv (ins - 1) ltac:(lia)) as (? & ? & He). unfold r_end in He.
      rewrite w32_small in H1 by lia. assert (vaddr_start (aget (data v) (ins - 1)) + size (aget (data v) (ins - 1)) ≤ vaddr_start region).
      { apply andb_false_iff in H1 as [?|?]; b2p; lia. }
      destruct (decide (i = ins - 1)) as [->|]; [done|]. pose proof (below_at v Hv i (ins - 1) ltac:(lia) ltac:(lia)).
      unfold r_end in *. lia.
    + assert (vaddr_start region + size region ≤ vaddr_start (aget (data v) ins)).
      { apply andb_false_iff in H2 as [?|?]; b2p; lia. }
      destruct (decide (i = ins)) as [->|]; [done|]. pose proof (below_at v Hv ins i ltac:(lia) ltac:(lia)).
      destruct (region_at v Hv ins ltac:(lia)) as (? & ? & ?). unfold r_end in *. lia.
  - intros [H1 H2]. apply orb_false_iff. split; apply andb_false_iff.
    + destruct (decide (0 < ins)); [right|left; lia]. destruct (region_at v Hv (ins - 1) ltac:(lia)) as (? & ? & He).
      specialize (H1 (ins - 1) ltac:(lia)). unfold r_end in *. rewrite w32_small by lia. lia.
    + destruct (decide (ins < len v)); [right|left; lia]. specialize (H2 ins ltac:(lia)). unfold r_end in *. lia.
Qed.

Lemma clear_iff v region ins :
  vec_ok v → region_ok region → 0 ≤ ins ≤ len v →
  (∀ i, 0 ≤ i < ins → vaddr_start (aget (data v) i) ≤ vaddr_start region) →
  (∀ i, ins ≤ i < len v → vaddr_start region < vaddr_start (aget (data v) i)) →
  Forall (apart region) (regions v) ↔
  (∀ i, 0 ≤ i < ins → r_end (aget (data v) i) ≤ vaddr_start region) ∧
  (∀ i, ins ≤ i < len v → r_end region ≤ vaddr_start (aget (data v) i)).
Proof.
  intros Hv (Hs0 & Hs1 & Hs2) Hi Hb Ha. rewrite Forall_forall. split.
  - intros Hc. split; intros i Hii;
      (assert (aget (data v) i ∈ regions v) as Hin
         by (eapply list_elem_of_lookup_2, (regions_lookup v Hv); lia));
      destruct (Hc _ Hin) as [H|H]; try done;
      destruct (region_at v Hv i ltac:(lia)) as (? & ? & ?); unfold r_end in *;
      [specialize (Hb i)|specialize (Ha i)]; lia.
  - intros [H1 H2] r (i & Hii & ->)%(regions_index v Hv). unfold apart. destruct (decide (i < ins)).
    + right. apply H1. lia.
    + left. apply H2. lia.
Qed.

Lemma wp_VmmAddRegion v region Q s :
  vec_ok v → (cap v ≤ len v → cap v < 2 ^ 23) → 0 ≤ vaddr_start region → 0 ≤ size region → r_end region < 2 ^ 32 →
  (size region = 0 ∨ ¬ Forall (apart region) (regions v) → Q (false, v) s) →
  (0 < size region → Forall (apart region) (regions v) →
   let done_ s' := wp (MemObjRef (backing region)) (λ _ s'', ∀ v', vec_ok v' → added v region v' → Q (true, v') s'') s' in
   if cap v <=? len v then
     wp (KZAlloc (w32 (w32 (cap v * 2) * region_bytes))) (λ a s',
       if a =? 0 then Q (false, v) s' else wp (KFree (data_at v)) (λ _, done_) s') s
   else done_ s) →
  wp (VmmAddRegion KZAlloc KFree MemObjRef v region) Q s.
Proof.
  intros Hv Hc Hs0 Hs1 Hs2 Hno Hyes. unfold VmmAddRegion. case_if E; b2p; [apply Hno; by left|].
  assert (region_ok region) as Hr by (split_and!; lia).
  destruct (upper_bound_spec v Hv (vaddr_start region) (Z.to_nat (len v)) 0 (len v)) as (ins & -> & Hi & Hb & Ha);
    [pose proof (vo_len _ Hv); lia|lia|lia|lia|lia|].
  pose proof (overlap_iff v region ins Hv Hr Hi Hb Ha) as Ho.
  pose proof (clear_iff v region ins Hv Hr Hi Hb Ha) as Hcl.
  rewrite orb_false_iff in Ho.
  apply wp_if; intros E1.
  { apply Hno. right. intros [H1 _]%Hcl%Ho. congruence. }
  apply wp_if; intros E2.
  { apply Hno. right. intros [_ H2]%Hcl%Ho. congruence. }
  destruct (proj1 Ho (conj E1 E2)) as [Hlo Hhi].
  specialize (Hyes ltac:(lia) (proj2 Hcl (conj Hlo Hhi))). simpl in Hyes. fold (stored region).
  assert (∀ w s', vec_ok w → regions w = regions v → len w = len v → len w < cap w →
    (∀ i, 0 ≤ i < len v → aget (data w) i = aget (data v) i) →
    wp (MemObjRef (backing region)) (λ _ s'', ∀ v', vec_ok v' → added v region v' → Q (true, v') s'') s' →
    wp (MemObjRef (backing region) ;; ret (true, vec_insert w ins (stored region))) Q s') as Hfin.
  { intros w s' Hw Hrw Hlw Hcw Hdw HQ. wp_step. eapply wp_mono; [exact HQ|]. intros [] s'' Hq. wp_step. apply Hq.
    - destruct (stored_range region) as [He _].
      apply vec_insert_ok; rewrite ?Hlw, ?stored_end, ?He; try done; [lia|by apply stored_ok|..];
        intros i Hii; rewrite Hdw by lia; auto.
    - destruct (regions_insert w ins (stored region) Hw ltac:(lia) Hcw) as [H1 H2]. rewrite Hrw in H1, H2.
      eexists _, _. by split. }
  wp_step. destruct (cap v <=? len v) eqn:Ec; b2p.
  - unfold vm_region_vec_grow. wp_step. eapply wp_mono; [exact Hyes|]. intros a s' HQ. simpl in HQ.
    destruct (a =? 0); [by wp_steps|]. wp_step. eapply wp_mono; [exact HQ|]. intros [] s'' HQ'. wp_step. simpl.
    destruct (vec_grown_ok v a Hv (Hc Ec)) as (Hg & Hgr & Hgc & Hgd). pose proof (vo_len _ Hv).
    apply (Hfin (vec_grown v a)); try done; [change (len v < cap (vec_grown v a)); lia|]. intros. apply Hgd. lia.
  - wp_step. simpl. apply (Hfin v); try done.
Qed.

Lemma start_unique v i j :
  vec_ok v → 0 ≤ i < len v → 0 ≤ j < len v →
  vaddr_start (aget (data v) i) = vaddr_start (aget (data v) j) → i = j.
Proof.
  intros Hv Hi Hj He. apply (contains_unique v Hv (vaddr_start (aget (data v) i))); try done; unfold contains.
  - destruct (region_at v Hv i Hi) as (? & ? & ?). unfold r_end. lia.
  - destruct (region_at v Hv j Hj) as (? & ? & ?). unfold r_end. lia.
Qed.

Lemma wp_VmmRemoveRegion v vaddr size_ Q s :
  vec_ok v →
  (size_ = 0 ∨ (∀ r, r ∈ regions v → ¬ (vaddr_start r = vaddr ∧ size r = size_)) → Q (false, v) s) →
  (∀ r, r ∈ regions v → vaddr_start r = vaddr → size r = size_ → size_ ≠ 0 →
     wp (VmmUnmapRange vaddr size_ true) (λ _ s', wp (MemObjUnref (backing r)) (λ _ s'',
       ∀ v', vec_ok v' → removed v r v' → Q (true, v') s'') s') s) →
  wp (VmmRemoveRegion MemObjUnref VmmUnmapRange v vaddr size_) Q s.
Proof.
  intros Hv Hno Hyes. pose proof (vo_len _ Hv). pose proof (vo_cap _ Hv). pose proof (vo_data _ Hv).
  unfold VmmRemoveRegion. case_if E; b2p; [apply Hno; by left|].
  destruct (bsearch_spec (RegionCmpStart vaddr) (data v) (len v)) as (r & -> & Hs);
    [by apply ordered_CmpStart|lia|]. destruct r as [idx|].
  2: { apply Hno. right. intros r (i & Hi & ->)%(regions_index v Hv) [Hst _]. apply (Hs i Hi). by apply RegionCmpStart_spec. }
  destruct Hs as [Hi Hst]. apply RegionCmpStart_spec in Hst.
  case_if E1; b2p.
  { apply Hno. right. intros r (i & Hii & ->)%(regions_index v Hv) [Hst' Hsz].
    rewrite (start_unique v i idx) in Hsz by (done || congruence). done. }
  destruct (regions_delete v idx Hv Hi) as [Hr1 Hr2]. wp_step.
  eapply wp_mono; [apply (Hyes (aget (data v) idx)); try done; eapply list_elem_of_lookup_2, (regions_lookup v Hv); lia|].
  intros [] s' HQ. wp_step. eapply wp_mono; [exact HQ|]. intros [] s'' HQ'. wp_step.
  assert (removed v (aget (data v) idx) (vec_delete v idx)) as Hrem by (eexists _, _; done).
  apply (HQ' (vec_delete v idx)); [|done]. apply (removed_ok v _ _ Hv Hrem); simpl; [lia|done|].
  rewrite length_memmove; lia.
Qed.
End ops.

(** [VmmFindRegion] finds the region that contains an address, which is unique, and
    returns NULL exactly when there is none. *)
Theorem VmmFindRegion_unique v va :
  vec_ok v → 0 ≤ va < 2 ^ 32 →
  ∃ r, VmmFindRegion v va = Some r ∧
    match r with
    | Some i => 0 ≤ i < len v ∧ contains (aget (data v) i) va ∧
        ∀ j, 0 ≤ j < len v → contains (aget (data v) j) va → j = i
    | None => ∀ r, r ∈ regions v → ¬ contains r va
    end.
Proof.
  intros Hv Hva. destruct (wp_find v Hv va Hva) as (r & Hr & Hs). exists r. split; [done|].
  destruct r as [i|]; [|done]. destruct Hs as [Hi Hc]. split_and!; [lia|lia|done|].
  intros j Hj Hcj. by apply (contains_unique v Hv va).
Qed.

(** * The search for a free range *)

Lemma align_up_least e :
  0 ≤ e ≤ 2 ^ 32 - PAGE_SIZE →
  e ≤ align_up e PAGE_SIZE ∧ align_up e PAGE_SIZE mod PAGE_SIZE = 0 ∧
  ∀ y, e ≤ y → y mod PAGE_SIZE = 0 → align_up e PAGE_SIZE ≤ y.
Proof.
  intros He. unfold PAGE_SIZE in *. 
  pose proof (align_up_spec e 12 ltac:(lia) ltac:(lia) ltac:(lia)) as Ha. change (2 ^ 12) with 4096 in Ha. rewrite Ha.
  split_and!; [Z.div_mod_to_equations; lia|Z.div_mod_to_equations; lia|].
  intros y Hy Hm. Z.div_mod_to_equations. lia.
Qed.

(** [n] bytes at [y] are in the window, page-aligned and outside every region. *)
Definition free_range (rs : list VirtMemRegion) (lo hi n y : Z) : Prop :=
  lo ≤ y ∧ y + n ≤ hi ∧ y mod PAGE_SIZE = 0 ∧ Forall (λ r, y + n ≤ vaddr_start r ∨ r_end r ≤ y) rs.
Definition least_free (rs : list VirtMemRegion) (lo hi n x : Z) : Prop :=
  (x = 0 → ∀ y, ¬ free_range rs lo hi n y) ∧
  (x ≠ 0 → free_range rs lo hi n x ∧ ∀ y, free_range rs lo hi n y → x ≤ y).

Lemma least_free_here rs lo hi n : 0 < lo → free_range rs lo hi n lo → least_free rs lo hi n lo.
Proof. intros Hlo Hf. split; [lia|]. intros _. split; [done|]. by intros y (? & _). Qed.
(** Moving the candidate past [r], when no range before [c] avoids [r]. *)
Lemma least_free_skip r rs lo c hi n x :
  lo ≤ c → r_end r ≤ c →
  (∀ y, free_range (r :: rs) lo hi n y → c ≤ y) →
  least_free rs c hi n x → least_free (r :: rs) lo hi n x.
Proof.
  intros Hlo Hr Hc [H0 H1]. split.
  - intros Hx y Hy. apply (H0 Hx y). pose proof (Hc y Hy). destruct Hy as (? & ? & ? & Hf).
    apply Forall_cons in Hf as [_ Hf]. by split_and!.
  - intros Hx. destruct (H1 Hx) as [(? & ? & ? & Hf) Hl]. split.
    + split_and!; [lia|done|done|]. constructor; [right; lia|done].
    + intros y Hy. apply Hl. pose proof (Hc y Hy). destruct Hy as (? & ? & ? & Hfy).
      apply Forall_cons in Hfy as [_ Hfy]. by split_and!.
Qed.

Lemma find_free_spec hi n rs cand :
  0 < n → 0 < cand < hi → cand mod PAGE_SIZE = 0 →
  Forall region_ok rs → Forall (λ r, r_end r ≤ 2 ^ 32 - PAGE_SIZE) rs →
  StronglySorted below rs →
  least_free rs cand hi n (find_free hi n rs cand).
Proof.
  intros Hn. revert cand. induction rs as [|r rs IH]; intros cand Hc Hm Hok Htop Hs; simpl.
  { case_if E; b2p; [apply least_free_here; [lia|]; split_and!; [lia|lia|done|constructor]|].
    split; [|done]. intros _ y (? & ? & _). lia. }
  apply Forall_cons in Hok as [(Hr0 & Hr1 & Hr2) Hok], Htop as [Hrt Htop]. apply StronglySorted_cons in Hs as [Hrs Hs].
  unfold r_end in Hr2, Hrt. rewrite w32_small by lia.
  destruct (align_up_least (vaddr_start r + size r) ltac:(lia)) as (Ha1 & Ha2 & Ha3).
  set (e := align_up _ _) in *. clearbody e.
  assert (∀ y, y + n ≤ vaddr_start r → Forall (λ r, y + n ≤ vaddr_start r ∨ r_end r ≤ y) (r :: rs)) as Hbefore.
  { intros y Hy. constructor; [by left|]. eapply Forall_impl; [exact Hrs|]. unfold r_end. intros r' ?. simpl in *. lia. }
  case_if E.
  { apply (least_free_skip r rs cand cand); [lia|unfold r_end; lia|by intros y (? & _)|by apply IH]. }
  case_if E1.
  { case_if E2; [apply least_free_here; [lia|]; split_and!; [lia|lia|done|apply Hbefore; lia]|].
    split; [|done]. intros _ y (? & ? & _). lia. }
  destruct ((cand <? _) && _) eqn:E2.
  { apply andb_true_iff in E2 as [? ?]. b2p. apply least_free_here; [lia|]. split_and!; [lia|lia|done|apply Hbefore; lia]. }
  assert (∀ y, free_range (r :: rs) cand hi n y → e ≤ y) as Hpast.
  { intros y (? & ? & ? & Hf). apply Forall_cons in Hf as [[Hy|Hy] _]; [|by apply Ha3].
    apply andb_false_iff in E2 as [?|?]; b2p; lia. }
  case_if E3; [|apply (least_free_skip r rs cand e); [lia|done|done|apply IH; [lia|done..]]].
  split; [|done]. intros _ y Hy. pose proof (Hpast y Hy). destruct Hy as (? & ? & _). lia.
Qed.

Lemma find_free_va v lo hi n :
  vec_ok v → Forall (λ r, r_end r ≤ 2 ^ 32 - PAGE_SIZE) (regions v) →
  0 < lo → lo mod PAGE_SIZE = 0 → 0 < n →
  least_free (regions v) lo hi n (VmmFindFreeVa v lo hi n).
Proof.
  intros Hv Ht Hlo Hm Hn. unfold VmmFindFreeVa. destruct (_ || _ || _) eqn:E.
  { split; [|done]. intros _ y (? & ? & _). rewrite !orb_true_iff in E. destruct E as [[?|?]|?]; b2p; lia. }
  rewrite !orb_false_iff in E. destruct E as [[? ?] ?]. b2p.
  apply find_free_spec; try done; [by apply vo_regions|by apply vo_sorted].
Qed.

(** [VmmFindFreeVa] is first fit: it returns the lowest page-aligned address in the
    window at which a range of the given size meets no region, and 0 exactly when there is
    no such address. *)
Theorem VmmFindFreeVa_first_fit v lo hi n :
  vec_ok v → Forall (λ r, r_end r ≤ 2 ^ 32 - PAGE_SIZE) (regions v) →
  0 < lo → lo mod PAGE_SIZE = 0 → 0 < n →
  least_free (regions v) lo hi n (VmmFindFreeVa v lo hi n).
Proof. apply find_free_va. Qed.

(** * Adding and removing a region *)

Lemma added_member v r v' : added v r v' → stored r ∈ regions v'.
Proof. intros (l1 & l2 & _ & ->). apply elem_of_app. right. by left. Qed.

(** Removing the region that was added leaves the regions there were. *)
Lemma added_removed v r v' x v'' :
  vec_ok v' → added v r v' → removed v' x v'' → vaddr_start x = vaddr_start r → regions v'' = regions v.
Proof.
  intros Hv' (l1 & l2 & Hr & Hr') (k1 & k2 & Hk & Hk') Hx.
  assert (∀ l (y : VirtMemRegion) l', regions v' = l ++ y :: l' →
    0 ≤ Z.of_nat (length l) < len v' ∧ aget (data v') (Z.of_nat (length l)) = y) as Hat.
  { intros l y l' He. pose proof (length_regions v' Hv') as Hl. rewrite He, length_app in Hl. simpl in Hl.
    assert (0 ≤ Z.of_nat (length l) < len v') as Hb by lia. split; [done|].
    pose proof (regions_lookup v' Hv' _ Hb) as Hlk. rewrite He, Nat2Z.id, list_lookup_middle in Hlk by done.
    by injection Hlk. }
  destruct (Hat _ _ _ Hr') as [Hi Hai], (Hat _ _ _ Hk) as [Hj Haj].
  assert (length l1 = length k1) as Hlen.
  { apply Nat2Z.inj, (start_unique v'); try done. rewrite Hai, Haj, Hx. apply stored_range. }
  rewrite Hr' in Hk. apply app_inj_1 in Hk as [-> [= _ ->]]; [|done]. congruence.
Qed.

Section add_remove.
Context {St : Type}.
Context (KZAlloc : Z → M St Z) (KFree : Z → M St unit).
Context (MemObjRef MemObjUnref : Z → M St unit).
Context (VmmUnmapRange : Z → Z → bool → M St unit).
(** The operations on the rest of the kernel return and keep its invariant. *)
Context (I : St → Prop).
Context (alloc_ok : ∀ n s, I s → wp (KZAlloc n) (λ _, I) s).
Context (free_ok : ∀ a s, I s → wp (KFree a) (λ _, I) s).
Context (ref_ok : ∀ b s, I s → wp (MemObjRef b) (λ _, I) s).
Context (unref_ok : ∀ b s, I s → wp (MemObjUnref b) (λ _, I) s).
Context (unmap_ok : ∀ va n f s, I s → wp (VmmUnmapRange va n f) (λ _, I) s).

(** [VmmAddRegion] inserts a region exactly when it is not empty and overlaps no
    region of the space, and then keeps the regions sorted and disjoint; it only fails
    otherwise if the array is full and memory for a larger one cannot be had, and a failure
    leaves the regions as they were. *)
Theorem VmmAddRegion_iff_clear v region s :
  vec_ok v → cap v < 2 ^ 23 → I s →
  0 ≤ vaddr_start region → 0 ≤ size region → r_end region < 2 ^ 32 →
  wp (VmmAddRegion KZAlloc KFree MemObjRef v region) (λ '(ok, v') s', I s' ∧ vec_ok v' ∧
    if (ok : bool) then 0 < size region ∧ Forall (apart region) (regions v) ∧ added v region v'
    else v' = v ∧ (size region = 0 ∨ ¬ Forall (apart region) (regions v) ∨
                   len v = cap v ∧ ∃ n s0, KZAlloc n s = Ok (0, s0))) s.
Proof.
  intros Hv Hc HI Hs0 Hs1 Hs2. apply wp_VmmAddRegion; try done.
  { intros Hno. split_and!; [done..|]. tauto. }
  intros Hsz Hclear. simpl.
  assert (∀ s', I s' → wp (MemObjRef (backing region)) (λ _ s'', ∀ v', vec_ok v' → added v region v' →
    I s'' ∧ vec_ok v' ∧ 0 < size region ∧ Forall (apart region) (regions v) ∧ added v region v') s') as Hdone.
  { intros s' HI'. eapply wp_mono; [by apply ref_ok|]. intros [] s'' HI'' v' Hv' Hadd. by split_and!. }
  case_if E; [|by apply Hdone].
  destruct (wp_Ok _ _ _ (alloc_ok (w32 (w32 (cap v * 2) * region_bytes)) s HI)) as (a & s' & Ha & HI').
  apply (wp_of _ _ _ a s' Ha). case_if E1.
  - split_and!; [done..|]. right. right. subst a. pose proof (vo_len _ Hv). split; [lia|eauto].
  - eapply wp_mono; [by apply free_ok|]. intros [] s'' HI''. by apply Hdone.
Qed.

(** Removing a region that was just added succeeds and leaves the regions there
    were before. *)
Theorem VmmAddRegion_remove v region s :
  vec_ok v → cap v < 2 ^ 23 → I s →
  0 ≤ vaddr_start region → 0 ≤ size region → r_end region < 2 ^ 32 →
  wp (VmmAddRegion KZAlloc KFree MemObjRef v region) (λ '(ok, v') s', ok = true →
    wp (VmmRemoveRegion MemObjUnref VmmUnmapRange v' (vaddr_start region) (size region)) (λ '(ok', v'') _,
      ok' = true ∧ vec_ok v'' ∧ regions v'' = regions v) s') s.
Proof.
  intros Hv Hc HI Hs0 Hs1 Hs2.
  assert (∀ s' v', I s' → vec_ok v' → 0 < size region → added v region v' →
    wp (VmmRemoveRegion MemObjUnref VmmUnmapRange v' (vaddr_start region) (size region)) (λ '(ok', v'') _,
      ok' = true ∧ vec_ok v'' ∧ regions v'' = regions v) s') as Hrem.
  { intros s' v' HI' Hv' Hsz Hadd. destruct (stored_range region) as [Hst Hsi]. apply wp_VmmRemoveRegion; [done|..].
    - intros [?|Hno]; [lia|]. exfalso. by apply (Hno (stored region)); [by apply (added_member v)|].
    - intros r Hr Hrs Hrz Hnz. eapply wp_mono; [by apply unmap_ok|]. intros [] s1 HI1.
      eapply wp_mono; [by apply unref_ok|]. intros [] s2 HI2 v'' Hv'' Hrm. split_and!; [done..|].
      by apply (added_removed v region v' r). }
  apply wp_VmmAddRegion; try done. intros Hsz Hclear. simpl.
  assert (∀ s', I s' → wp (MemObjRef (backing region)) (λ _ s'', ∀ v', vec_ok v' → added v region v' → true = true →
    wp (VmmRemoveRegion MemObjUnref VmmUnmapRange v' (vaddr_start region) (size region)) (λ '(ok', v'') _,
      ok' = true ∧ vec_ok v'' ∧ regions v'' = regions v) s'') s') as Hdone.
  { intros s' HI'. eapply wp_mono; [by apply ref_ok|]. intros [] s'' HI'' v' Hv' Hadd _. by apply Hrem. }
  case_if E; [|by apply Hdone].
  eapply wp_mono; [by apply alloc_ok|]. intros a s' HI'. case_if E1; [done|].
  eapply wp_mono; [by apply free_ok|]. intros [] s'' HI''. by apply Hdone.
Qed.
End add_remove.

(** A full array of two regions, and a region for the gap between them. *)
Module RegionDemo.
Definition anon (va n : Z) : VirtMemRegion := mkRegion va n 11 7 VM_MEM_NORMAL VM_BACKING_ANON 0 0 0.
Definition two : region_vec := mkVec 64 [anon 0x20000000 0x2000; anon 0x20005000 0x1000] 2 2.
Definition heap_alloc (n : Z) : M unit Z := ret 128.
Definition no_op (a : Z) : M unit unit := ret tt.
Definition unmap (va n : Z) (f : bool) : M unit unit := ret tt.

Lemma two_ok : vec_ok two.
Proof.
  split; [simpl; lia|simpl; lia|done|..]; unfold regions; simpl.
  - repeat constructor; unfold r_end; simpl; lia.
  - repeat constructor; unfold r_end; simpl; lia.
Qed.

Lemma VmmFindRegion_unique_witness :
  VmmFindRegion two 0x20005abc = Some (Some 1) ∧ VmmFindRegion two 0x20003000 = Some None ∧
  ∀ j, 0 ≤ j < 2 → contains (aget (data two) j) 0x20005abc → j = 1.
Proof.
  split; [reflexivity|]. split; [reflexivity|].
  destruct (VmmFindRegion_unique two 0x20005abc two_ok ltac:(lia)) as (r & Hr & Hs).
  injection Hr as <-. apply Hs.
Defined.

Lemma VmmFindFreeVa_first_fit_witness :
  VmmFindFreeVa two 0x20000000 0x7F000000 0x3000 = 0x20002000 ∧
  ∀ y, free_range (regions two) 0x20000000 0x7F000000 0x3000 y → 0x20002000 ≤ y.
Proof.
  split; [reflexivity|].
  destruct (VmmFindFreeVa_first_fit two 0x20000000 0x7F000000 0x3000 two_ok) as [_ H];
    [repeat constructor; unfold r_end, PAGE_SIZE; simpl; lia|lia|reflexivity|lia|].
  destruct H as [_ H]; [vm_compute; discriminate|]. exact H.
Defined.

Lemma VmmAddRegion_iff_clear_witness :
  wp (VmmAddRegion heap_alloc no_op no_op two (anon 0x20002000 0x3000)) (λ '(ok, v') _,
    ok = true → regions v' = [anon 0x20000000 0x2000; anon 0x20002000 0x3000; anon 0x20005000 0x1000] ∧ vec_ok v') tt.
Proof.
  pose proof (VmmAddRegion_iff_clear heap_alloc no_op no_op (λ _, True)
    (λ _ _ _, I) (λ _ _ _, I) (λ _ _ _, I) two (anon 0x20002000 0x3000) tt two_ok
    ltac:(simpl; lia) I ltac:(simpl; lia) ltac:(simpl; lia) ltac:(unfold r_end; simpl; lia)) as H.
  destruct H as (_ & Hok & _). split; [reflexivity|exact Hok].
Defined.

Lemma VmmAddRegion_remove_witness :
  wp (VmmAddRegion heap_alloc no_op no_op two (anon 0x20002000 0x3000)) (λ '(ok, v') s', ok = true →
    wp (VmmRemoveRegion no_op unmap v' 0x20002000 0x3000) (λ '(ok', v'') _,
      ok' = true ∧ vec_ok v'' ∧ regions v'' = regions two) s') tt.
Proof.
  exact (VmmAddRegion_remove heap_alloc no_op no_op no_op unmap (λ _, True)
    (λ _ _ _, I) (λ _ _ _, I) (λ _ _ _, I) (λ _ _ _, I) (λ _ _ _ _ _, I) two (anon 0x20002000 0x3000) tt two_ok
    ltac:(simpl; lia) I ltac:(simpl; lia) ltac:(simpl; lia) ltac:(unfold r_end; simpl; lia)).
Defined.
End RegionDemo.
