(* ===== verification/Asid.v ===== *)
(** arch/arm/mmu/asid.c and the switch of address spaces in arch/arm/mmu/mmu.c: address
    space identifiers (ASIDs) with generations.

    The TLB is part of the state as the list of tags of its entries: the ASID an entry was
    filled under and the space whose tables it came from.  The hardware uses an entry for
    the running space exactly when its ASID is the one loaded, so isolation says that all
    entries under the loaded ASID came from the running space.  [step] is what the kernel
    and the hardware do to this state: creating, destroying and switching spaces, filling
    and evicting entries.  Kernel mappings are global and have no tag. *)
From S2P Require Import Prelude.

#[local] Open Scope Z_scope.

Definition ASID_COUNT : Z := 256.
Definition ASID_BITMAP_BYTES : Z := 32.

Record AsidToken := mkToken { asid : Z; generation : Z }.

Record ast := mkAst {
  asid_bitmap : list Z;
  dirty_bitmap : list Z;
  asid_generation : Z;
  next_asid : Z;
  active_asid : Z;
  tlb : list (Z * Z)
}.
Definition set_asid_bitmap (v : list Z) (s : ast) : ast :=
  mkAst v (dirty_bitmap s) (asid_generation s) (next_asid s) (active_asid s) (tlb s).
Definition set_dirty_bitmap (v : list Z) (s : ast) : ast :=
  mkAst (asid_bitmap s) v (asid_generation s) (next_asid s) (active_asid s) (tlb s).
Definition set_asid_generation (v : Z) (s : ast) : ast :=
  mkAst (asid_bitmap s) (dirty_bitmap s) v (next_asid s) (active_asid s) (tlb s).
Definition set_next_asid (v : Z) (s : ast) : ast :=
  mkAst (asid_bitmap s) (dirty_bitmap s) (asid_generation s) v (active_asid s) (tlb s).
Definition set_active_asid (v : Z) (s : ast) : ast :=
  mkAst (asid_bitmap s) (dirty_bitmap s) (asid_generation s) (next_asid s) v (tlb s).
Definition set_tlb (v : list (Z * Z)) (s : ast) : ast :=
  mkAst (asid_bitmap s) (dirty_bitmap s) (asid_generation s) (next_asid s) (active_asid s) v.

Definition AsidBitTest (bitmap : list Z) (i : Z) : bool := bb_get bitmap i.
Definition AsidBitSet (bitmap : list Z) (i : Z) : list Z := bb_set bitmap i.
Definition AsidBitClear (bitmap : list Z) (i : Z) : list Z := bb_clr bitmap i.

(** * Operations *)

Definition ArchMmuFlushTlb : M ast unit := modify (set_tlb []).
Definition ArchMmuFlushTlbAsid (a : Z) : M ast unit :=
  if a =? 0 then ArchMmuFlushTlb
  else modify (λ s, set_tlb (filter (λ e, e.1 ≠ a) (tlb s)) s).

Definition AsidSetActive (a : Z) : M ast unit :=
  modify (set_active_asid a) ;;
  modify (λ s, set_dirty_bitmap (AsidBitSet (dirty_bitmap s) a) s).

(** The loop of [AsidClaimInRange] with [n] ASIDs from [i] left to try. *)
Fixpoint claim (n : nat) (i : Z) : M ast Z :=
  match n with
  | O => ret 0
  | S n' =>
      let! b := gets asid_bitmap in
      if negb (AsidBitTest b i) then
        modify (λ s, set_asid_bitmap (AsidBitSet (asid_bitmap s) i) s) ;;
        modify (set_next_asid (w8 (i + 1))) ;;
        let! d := gets dirty_bitmap in
        when (AsidBitTest d i) (ArchMmuFlushTlbAsid (w8 i)) ;;
        ret i
      else claim n' (i + 1)
  end.
Definition AsidClaimInRange (lo hi : Z) : M ast Z := claim (Z.to_nat (hi - lo)) lo.

(** The rest of [AsidAlloc] when no ASID is free: the next generation. *)
Definition rollover : M ast AsidToken :=
  ArchMmuFlushTlb ;;
  modify (set_asid_bitmap (replicate (Z.to_nat ASID_BITMAP_BYTES) 0)) ;;
  modify (set_dirty_bitmap (replicate (Z.to_nat ASID_BITMAP_BYTES) 0)) ;;
  modify (λ s, set_asid_bitmap (AsidBitSet (asid_bitmap s) 0) s) ;;
  let! a := gets active_asid in
  when (negb (a =? 0)) (modify (λ s, set_asid_bitmap (AsidBitSet (asid_bitmap s) a) s)) ;;
  modify (λ s, set_asid_generation (w32 (asid_generation s + 1)) s) ;;
  modify (set_next_asid 1) ;;
  let! i := AsidClaimInRange 1 ASID_COUNT in
  let! g := gets asid_generation in
  ret (mkToken (w8 i) g).

Definition AsidAlloc : M ast AsidToken :=
  let! n := gets next_asid in
  let! i := AsidClaimInRange n ASID_COUNT in
  let! i := if i =? 0 then (let! n := gets next_asid in AsidClaimInRange 1 n) else ret i in
  if negb (i =? 0) then let! g := gets asid_generation in ret (mkToken (w8 i) g)
  else rollover.

Definition AsidFree (token : AsidToken) : M ast unit :=
  if asid token =? 0 then ret tt else
  let! g := gets asid_generation in
  if negb (generation token =? g) then ret tt else
  modify (λ s, set_asid_bitmap (AsidBitClear (asid_bitmap s) (asid token)) s).

(** [ArchMmuSwitch] of a space with tables at [root] and token [t]; returns the token the
    space has afterwards. *)
Definition ArchMmuSwitch (root : Z) (t : AsidToken) : M ast AsidToken :=
  if root =? 0 then ret t else
  let! g := gets asid_generation in
  let! t := if negb (generation t =? g) then AsidFree t ;; AsidAlloc else ret t in
  AsidSetActive (asid t) ;;
  ret t.

(** The ASID part of [AddressSpaceDestroy]. *)
Definition release_asid (t : AsidToken) : M ast unit :=
  when (negb (asid t =? 0)) (ArchMmuFlushTlbAsid (asid t)) ;;
  when (negb (asid t =? 0)) (AsidFree t).

(** * The system of spaces *)

Record sys := mkSys { hw : ast; tokens : gmap Z AsidToken; cur : option Z }.

Definition boot_ast : ast :=
  mkAst (replicate (Z.to_nat ASID_BITMAP_BYTES) 0) (replicate (Z.to_nat ASID_BITMAP_BYTES) 0) 1 1 0 [].

(** The tables of a space; any address but 0. *)
Definition root_of (sp : Z) : Z := 0x4000 * (Z.abs sp + 1).

Inductive step : sys → sys → Prop :=
| step_create h h' ts c sp t :
    ts !! sp = None → AsidAlloc h = Ok (t, h') →
    step (mkSys h ts c) (mkSys h' (<[sp := t]> ts) c)
| step_destroy h h' ts c sp t :
    ts !! sp = Some t → c ≠ Some sp → release_asid t h = Ok (tt, h') →
    step (mkSys h ts c) (mkSys h' (delete sp ts) c)
| step_switch h h' ts c sp t t' :
    ts !! sp = Some t → c ≠ Some sp → ArchMmuSwitch (root_of sp) t h = Ok (t', h') →
    step (mkSys h ts c) (mkSys h' (<[sp := t']> ts) (Some sp))
| step_fill h ts sp :
    step (mkSys h ts (Some sp)) (mkSys (set_tlb ((active_asid h, sp) :: tlb h) h) ts (Some sp))
| step_evict h ts c l :
    l ⊆ tlb h → step (mkSys h ts c) (mkSys (set_tlb l h) ts c).

(** The kernel's space 0 exists from the start, without an ASID. *)
Definition boot_sys : sys := mkSys boot_ast {[ 0 := mkToken 0 0 ]} None.

Inductive reach : nat → sys → Prop :=
| reach_boot : reach 0 boot_sys
| reach_step n s s' : reach n s → step s s' → reach (S n) s'.

(** * Allocation *)

Definition bits_ok (s : ast) : Prop :=
  length (asid_bitmap s) = 32%nat ∧ length (dirty_bitmap s) = 32%nat ∧
  0 ≤ next_asid s < 256 ∧ 0 ≤ active_asid s < 256.

Definition used (s : ast) (a : Z) : bool := AsidBitTest (asid_bitmap s) a.
Definition dirty (s : ast) (a : Z) : bool := AsidBitTest (dirty_bitmap s) a.

(** The state after [claim] took ASID [a]. *)
Definition claimed (a : Z) (s : ast) : ast :=
  mkAst (AsidBitSet (asid_bitmap s) a) (dirty_bitmap s) (asid_generation s) (w8 (a + 1)) (active_asid s)
    (if dirty s a then (if a =? 0 then [] else filter (λ e, e.1 ≠ a) (tlb s)) else tlb s).

Lemma wp_claim n i s Q :
  0 ≤ i → i + Z.of_nat n ≤ 256 →
  (∀ a, i ≤ a < i + Z.of_nat n → used s a = false → (∀ b, i ≤ b < a → used s b = true) → Q a (claimed a s)) →
  ((∀ b, i ≤ b < i + Z.of_nat n → used s b = true) → Q 0 s) →
  wp (claim n i) Q s.
Proof.
  intros Hi Hn. revert i Hi Hn Q. induction n as [|n IH]; intros i Hi Hn Q Hfound Hnone; simpl.
  { wp_step. apply Hnone. lia. }
  wp_step. wp_step. fold (used s i). destruct (used s i) eqn:E; simpl.
  - apply IH; [lia|lia|..].
    + intros a Ha Hf Hb. apply Hfound; [lia|done|]. intros b Hbb.
      destruct (decide (b = i)) as [->|]; [done|]. apply Hb. lia.
    + intros Hall. apply Hnone. intros b Hb. destruct (decide (b = i)) as [->|]; [done|]. apply Hall. lia.
  - do 6 wp_step. simpl. fold (dirty s i).
    assert (w8 i = i) as -> by (unfold w8; rewrite Z.mod_small; lia).
    specialize (Hfound i ltac:(lia) E ltac:(lia)). unfold claimed in Hfound.
    wp_step. apply wp_when; intros Ed; rewrite Ed in Hfound; [|by wp_step].
    unfold ArchMmuFlushTlbAsid, ArchMmuFlushTlb. destruct (i =? 0); by repeat wp_step.
Qed.

Lemma used_set s a b v :
  length (asid_bitmap s) = 32%nat → 0 ≤ a < 256 → 0 ≤ b → v = AsidBitSet (asid_bitmap s) a →
  AsidBitTest v b = bool_decide (a = b) || used s b.
Proof. intros Hl Ha Hb ->. apply bb_get_set; lia. Qed.
Lemma zero_bits b : 0 ≤ b < 256 → AsidBitTest (replicate (Z.to_nat ASID_BITMAP_BYTES) 0) b = false.
Proof.
  intros Hb. unfold AsidBitTest. rewrite bb_get_testbit. unfold aget.
  rewrite lookup_total_replicate_2; [apply Z.testbit_0_l|].
  unfold ASID_BITMAP_BYTES. Z.div_mod_to_equations. lia.
Qed.

(** What [AsidAlloc] does: it takes a free ASID of the current generation, or starts the
    next generation with only ASID 0 and the loaded one in use. *)
Definition same_generation (s s' : ast) (a : Z) : Prop :=
  1 ≤ a < 256 ∧ used s a = false ∧ s' = claimed a s.
Definition next_generation (s s' : ast) (a : Z) : Prop :=
  1 ≤ a < 256 ∧ a ≠ active_asid s ∧
  asid_generation s' = w32 (asid_generation s + 1) ∧ active_asid s' = active_asid s ∧ tlb s' = [] ∧
  bits_ok s' ∧ (∀ b, 0 ≤ b < 256 → dirty s' b = false) ∧
  (∀ b, 0 ≤ b < 256 → used s' b = bool_decide (b = 0 ∨ b = active_asid s ∨ b = a)).

Lemma w8_range z : 0 ≤ w8 z < 256.
Proof. unfold w8. apply Z.mod_pos_bound. lia. Qed.

Lemma claimed_ok a s : bits_ok s → bits_ok (claimed a s).
Proof.
  intros (H1 & H2 & H3 & H4). split_and!; simpl; try done; try apply w8_range; try lia.
  unfold AsidBitSet. by rewrite length_bb_set.
Qed.

Lemma wp_rollover s0 s Q :
  0 ≤ active_asid s < 256 → active_asid s0 = active_asid s → asid_generation s0 = asid_generation s →
  (∀ a s', next_generation s s' a → Q (mkToken a (asid_generation s')) s') →
  wp rollover Q s0.
Proof.
  intros Ha Hact Hgen HQ. unfold rollover, ArchMmuFlushTlb.
  set (zeros := replicate _ _). assert (length zeros = 32%nat) as Hz by done.
  assert (∀ b, 0 ≤ b < 256 → AsidBitTest zeros b = false) as Hzb by apply zero_bits. clearbody zeros.
  do 10 wp_step. simpl. rewrite Hact.
  set (bm := if active_asid s =? 0 then AsidBitSet zeros 0 else AsidBitSet (AsidBitSet zeros 0) (active_asid s)).
  assert (length bm = 32%nat) as Hbl.
  { unfold bm, AsidBitSet. case_if E; by rewrite ?length_bb_set. }
  assert (∀ b, 0 ≤ b < 256 → AsidBitTest bm b = bool_decide (b = 0 ∨ b = active_asid s)) as Hbm.
  { intros b Hb. unfold bm, AsidBitTest, AsidBitSet. case_if E; rewrite !bb_get_set by (rewrite ?length_bb_set; lia);
      rewrite (Hzb b Hb : bb_get zeros b = false), orb_false_r; repeat case_bool_decide; try done; lia. }
  wp_step. eapply (wp_mono _ (λ _ s1, s1 = mkAst bm zeros (asid_generation s) (next_asid s0) (active_asid s) [])).
  { unfold bm. rewrite <- Hact, <- Hgen. apply wp_when; intros E; [wp_step|]; by destruct (active_asid s0 =? 0). }
  intros [] ? ->. do 4 wp_step. simpl. wp_step.
  apply wp_claim; [lia|done|..].
  - intros a Ha1 Hu Hlow. assert (1 ≤ a < 256) by (unfold ASID_COUNT in Ha1; lia). clear Ha1. unfold used in Hu. simpl in Hu. rewrite Hbm in Hu by lia. apply bool_decide_eq_false in Hu.
    do 2 wp_step. rewrite w8_small by lia. wp_step.
    apply HQ. split_and!; simpl; try lia; try done.
    + unfold dirty. simpl. by rewrite Hzb by lia.
    + split_and!; simpl; try done; try lia; [by unfold AsidBitSet; rewrite length_bb_set|apply w8_range..].
    + intros b Hb. unfold used. simpl. unfold AsidBitTest, AsidBitSet. rewrite bb_get_set by lia.
      rewrite (Hbm b Hb : bb_get bm b = _). repeat case_bool_decide; try done; lia.
  - intros Hall. exfalso. assert (∃ b, 1 ≤ b < 3 ∧ b ≠ active_asid s) as (b & Hb & Hne).
    { destruct (decide (active_asid s = 1)); [exists 2|exists 1]; lia. }
    specialize (Hall b ltac:(unfold ASID_COUNT; lia)). unfold used in Hall. simpl in Hall. rewrite Hbm in Hall by lia.
    apply bool_decide_eq_true in Hall. lia.
Qed.

Lemma wp_AsidAlloc s Q :
  bits_ok s →
  (∀ a s', same_generation s s' a ∨ next_generation s s' a → Q (mkToken a (asid_generation s')) s') →
  wp AsidAlloc Q s.
Proof.
  intros (Hl1 & Hl2 & Hn & Ha) HQ. unfold AsidAlloc.
  assert (∀ s0, active_asid s0 = active_asid s → asid_generation s0 = asid_generation s → wp rollover Q s0) as Hroll.
  { intros. apply (wp_rollover _ s); auto. }
  assert (∀ a, 1 ≤ a < 256 → used s a = false → wp (if negb (a =? 0) then
    let! g := gets asid_generation in ret (mkToken (w8 a) g) else rollover) Q (claimed a s)) as Hsame.
  { intros a Ha1 Hu. destruct (Z.eqb_spec a 0); [lia|]. simpl. do 3 wp_step. rewrite w8_small by lia. apply HQ. by left. }
  do 2 wp_step. wp_step. unfold AsidClaimInRange, ASID_COUNT. apply wp_claim; [lia|lia|..].
  - intros a Ha1 Hu _. wp_step. destruct (Z.eqb_spec a 0) as [->|].
    + do 2 wp_step. simpl. by apply Hroll.
    + wp_step. apply Hsame; [lia|done].
  - intros _. wp_step. simpl. do 2 wp_step. apply wp_claim; [lia|lia|..].
    + intros a Ha1 Hu _. apply Hsame; [lia|done].
    + intros _. simpl. by apply Hroll.
Qed.

(** * The invariant of the system *)

Section invariant.
Context (k : Z).

Definition current (s : sys) (sp a : Z) : Prop := tokens s !! sp = Some (mkToken a (asid_generation (hw s))).
Definition unheld (s : sys) (a : Z) : Prop := ∀ sp, ¬ current s sp a.

(** After [k] steps: tokens of the current generation are distinct and in use; a TLB entry
    belongs to the space that holds its ASID, or nobody holds the ASID and it is marked
    dirty or cannot be given away in this generation. *)
Record sys_ok (s : sys) : Prop := {
  so_bits : bits_ok (hw s);
  so_gen : 1 ≤ asid_generation (hw s) ≤ 1 + k;
  so_token sp t : tokens s !! sp = Some t → 0 ≤ asid t < 256 ∧ generation t ≤ asid_generation (hw s);
  so_used sp a : current s sp a → 1 ≤ a ∧ used (hw s) a = true;
  so_distinct sp sp' a : current s sp a → current s sp' a → sp = sp';
  so_tlb a o : (a, o) ∈ tlb (hw s) → 1 ≤ a < 256 ∧
    (current s o a ∧ dirty (hw s) a = true ∨
     unheld s a ∧ (dirty (hw s) a = true ∨ used (hw s) a = true));
  so_cur : match cur s with
    | None => active_asid (hw s) = 0 ∧ tlb (hw s) = []
    | Some sp => is_Some (tokens s !! sp) ∧ 1 ≤ active_asid (hw s) ∧
        (current s sp (active_asid (hw s)) ∧ dirty (hw s) (active_asid (hw s)) = true ∨
         unheld s (active_asid (hw s)) ∧ used (hw s) (active_asid (hw s)) = true ∧
           ∀ o, (active_asid (hw s), o) ∈ tlb (hw s) → o = sp)
    end
}.
End invariant.

Lemma used_claimed a b h : bits_ok h → 0 ≤ a < 256 → 0 ≤ b → used (claimed a h) b = bool_decide (a = b) || used h b.
Proof. intros (Hl & _) Ha Hb. unfold used at 1. simpl. by apply used_set. Qed.
Lemma tlb_claimed a e h : e ∈ tlb (claimed a h) → e ∈ tlb h ∧ (dirty h a = true → a ≠ 0 → e.1 ≠ a).
Proof.
  simpl. destruct (dirty h a); [|by intros ?]. destruct (Z.eqb_spec a 0); [by intros ?%elem_of_nil|].
  intros [??]%list_elem_of_filter. done.
Qed.

(** Giving a fresh ASID to a space that has none of the current generation. *)
Lemma alloc_same_ok k h h' ts c sp a :
  sys_ok k (mkSys h ts c) → c ≠ Some sp → (∀ b, ¬ current (mkSys h ts c) sp b) →
  same_generation h h' a →
  sys_ok k (mkSys h' (<[sp := mkToken a (asid_generation h')]> ts) c).
Proof.
  intros [Hb Hg Ht Hu Hd Htlb Hc] Hcs Hsp (Ha & Hua & ->). simpl in *.
  assert (∀ o b, current (mkSys (claimed a h) (<[sp := mkToken a (asid_generation h)]> ts) c) o b →
    o = sp ∧ b = a ∨ o ≠ sp ∧ b ≠ a ∧ current (mkSys h ts c) o b) as Hcur.
  { intros o b H. unfold current in H. simpl in H. apply lookup_insert_Some in H as [[<- [= <-]]|[Hne H]]; [by left|].
    right. split_and!; [done| |done]. intros ->. destruct (Hu o a H). congruence. }
  assert (∀ o b, o ≠ sp → current (mkSys h ts c) o b →
    current (mkSys (claimed a h) (<[sp := mkToken a (asid_generation h)]> ts) c) o b) as Hcur'.
  { intros o b Hne H. unfold current. simpl. by rewrite lookup_insert_ne. }
  assert (∀ b, 0 ≤ b → used h b = true → used (claimed a h) b = true) as Hused.
  { intros b Hb0 Hub. rewrite used_claimed, Hub, orb_true_r; [done..|lia|lia]. }
  assert (∀ b, b ≠ a → unheld (mkSys h ts c) b →
    unheld (mkSys (claimed a h) (<[sp := mkToken a (asid_generation h)]> ts) c) b) as Hunh.
  { intros b Hba Hun o [[_ ->]|(_ & _ & H)]%Hcur; [done|]. by apply (Hun o). }
  split; simpl.
  - by apply claimed_ok.
  - done.
  - intros o t [[<- <-]|[_ H]]%lookup_insert_Some; [simpl; lia|by eapply Ht].
  - intros o b [[-> ->]|(_ & _ & H)]%Hcur.
    + split; [lia|]. rewrite used_claimed by (done || lia). by rewrite bool_decide_true.
    + destruct (Hu o b H) as [? Hub]. split; [done|]. apply Hused; [lia|done].
  - intros o o' b [[-> ->]|(_ & Hba & H)]%Hcur [[-> Hb']|(_ & Hba' & H')]%Hcur; try done. by apply (Hd o o' b).
  - intros b o [Hin Hfl]%tlb_claimed. destruct (Htlb b o Hin) as [Hb1 [[H1 H2]|[H1 H2]]]; (split; [done|]).
    + left. split; [|done]. apply Hcur'; [|done]. intros ->. by apply (Hsp b).
    + right. assert (b ≠ a) as Hba.
      { intros ->. destruct H2 as [H2|H2]; [|congruence]. by apply (Hfl H2); [lia|]. }
      split; [by apply Hunh|]. destruct H2 as [H2|H2]; [by left|right]. apply Hused; [lia|done].
  - destruct c as [c0|]; [|by destruct Hc as [-> Hnil]; rewrite Hnil; destruct (dirty h a), (a =? 0)].
    destruct Hc as (Hs & Hact & Hc). assert (c0 ≠ sp) as Hne by congruence.
    split_and!; [by rewrite lookup_insert_ne|done|]. destruct Hc as [[H1 H2]|(H1 & H2 & H3)].
    + left. split; [|done]. by apply Hcur'.
    + right. assert (active_asid h ≠ a) by congruence. split_and!; [by apply Hunh|apply Hused; [lia|done]|].
      intros o [Hin _]%tlb_claimed. by apply H3.
Qed.

Lemma alloc_next_ok k h h' ts c sp a :
  sys_ok k (mkSys h ts c) → c ≠ Some sp → k < 2 ^ 31 → next_generation h h' a →
  sys_ok (k + 1) (mkSys h' (<[sp := mkToken a (asid_generation h')]> ts) c).
Proof.
  intros [Hb Hg Ht Hu Hd Htlb Hc] Hcs Hk (Ha & Hne & Hgen & Hact & Hnil & Hbits & Hdirty & Hused). simpl in *.
  rewrite w32_small in Hgen by lia.
  assert (∀ o b, current (mkSys h' (<[sp := mkToken a (asid_generation h')]> ts) c) o b → o = sp ∧ b = a) as Hcur.
  { intros o b H. unfold current in H. simpl in H. apply lookup_insert_Some in H as [[<- [= <-]]|[_ H]]; [done|].
    apply Ht in H as [_ H]. simpl in H. lia. }
  split; simpl.
  - done.
  - lia.
  - intros o t [[<- <-]|[_ H]]%lookup_insert_Some; [simpl; lia|]. apply Ht in H. lia.
  - intros o b [-> ->]%Hcur. split; [lia|]. rewrite Hused by lia. apply bool_decide_eq_true. auto.
  - intros o o' b [-> ->]%Hcur [-> _]%Hcur. done.
  - intros b o. rewrite Hnil. by intros ?%elem_of_nil.
  - rewrite Hact, Hnil. destruct c as [c0|]; [|by destruct Hc]. destruct Hc as (Hs & Hact1 & _).
    split_and!; [by rewrite lookup_insert_ne by congruence|done|]. right. destruct Hb as (_ & _ & _ & Hb). split_and!.
    + intros o [_ ?]%Hcur. congruence.
    + rewrite Hused by lia. apply bool_decide_eq_true. auto.
    + by intros o ?%elem_of_nil.
Qed.

Lemma sys_ok_later k s : sys_ok k s → sys_ok (k + 1) s.
Proof. intros [Hb Hg Ht Hu Hd Htlb Hc]. split; try done. lia. Qed.

Lemma alloc_ok k h ts c sp :
  sys_ok k (mkSys h ts c) → c ≠ Some sp → (∀ b, ¬ current (mkSys h ts c) sp b) → k < 2 ^ 31 →
  wp AsidAlloc (λ t h', sys_ok (k + 1) (mkSys h' (<[sp := t]> ts) c) ∧ generation t = asid_generation h') h.
Proof.
  intros Hs Hc Hsp Hk. apply wp_AsidAlloc; [apply (so_bits _ _ Hs)|].
  intros a h' [H|H]; (split; [|done]).
  - apply sys_ok_later. by eapply alloc_same_ok.
  - by eapply alloc_next_ok.
Qed.

(** Loading the ASID a space holds. *)
Lemma activate_ok k h ts c sp a :
  sys_ok k (mkSys h ts c) → current (mkSys h ts c) sp a →
  sys_ok k (mkSys (set_dirty_bitmap (AsidBitSet (dirty_bitmap h) a) (set_active_asid a h)) ts (Some sp)).
Proof.
  intros [Hb Hg Ht Hu Hd Htlb Hc] Hcur. simpl in *. destruct Hb as (Hl1 & Hl2 & Hn & Ha).
  destruct (Hu sp a Hcur) as [Ha1 _]. destruct (Ht sp _ Hcur) as [Ha2 _]. simpl in Ha2.
  assert (∀ b, 0 ≤ b → dirty (set_dirty_bitmap (AsidBitSet (dirty_bitmap h) a) (set_active_asid a h)) b =
    bool_decide (a = b) || dirty h b) as Hdirty.
  { intros b Hb0. unfold dirty. simpl. apply bb_get_set; lia. }
  split; simpl; try done.
  - split_and!; simpl; try done; try lia. unfold AsidBitSet. by rewrite length_bb_set.
  - intros b o Hin. destruct (Htlb b o Hin) as [Hb1 H]. split; [done|]. rewrite Hdirty by lia.
    destruct H as [[H1 H2]|[H1 [H2|H2]]]; [left|right|right]; (split; [done|]); rewrite ?H2, ?orb_true_r; auto.
  - split_and!; [by eexists|done|]. left. split; [done|]. rewrite Hdirty by lia. by rewrite bool_decide_true.
Qed.

Lemma switch_ok k h ts c sp t :
  sys_ok k (mkSys h ts c) → ts !! sp = Some t → c ≠ Some sp → k < 2 ^ 31 →
  wp (ArchMmuSwitch (root_of sp) t) (λ t' h', sys_ok (k + 1) (mkSys h' (<[sp := t']> ts) (Some sp))) h.
Proof.
  intros Hs Hsp Hc Hk. unfold ArchMmuSwitch. rewrite (proj2 (Z.eqb_neq _ _)) by (unfold root_of; lia).
  do 3 wp_step. eapply (wp_mono _ (λ t' h', sys_ok (k + 1) (mkSys h' (<[sp := t']> ts) c) ∧ generation t' = asid_generation h')).
  - destruct (Z.eqb_spec (generation t) (asid_generation h)) as [E|E]; simpl.
    + wp_step. split; [|done]. rewrite insert_id by done. by apply sys_ok_later.
    + wp_step. eapply (wp_mono _ (λ _ h', h' = h)).
      { unfold AsidFree. case_if E0; [by wp_step|]. do 2 wp_step. rewrite (proj2 (Z.eqb_neq _ _) E). simpl. by wp_step. }
      intros [] ? ->. apply (alloc_ok k); try done. intros b Hb. unfold current in Hb. simpl in Hb.
      rewrite Hsp in Hb. injection Hb as ->. done.
  - intros t' h' [Hs' Hg]. unfold AsidSetActive. do 4 wp_step. wp_step. apply (activate_ok (k + 1) h' _ c); [done|].
    unfold current. simpl. rewrite lookup_insert_eq, <- Hg. by destruct t'.
Qed.

(** A space gives up its token, no TLB entry being left under an ASID it held. *)
Lemma drop_token_ok k h h' ts c sp :
  sys_ok k (mkSys h ts c) → c ≠ Some sp →
  bits_ok h' → asid_generation h' = asid_generation h → active_asid h' = active_asid h →
  (∀ b, dirty h' b = dirty h b) →
  (∀ b, 0 ≤ b < 256 → used h b = true → ¬ current (mkSys h ts c) sp b → used h' b = true) →
  (∀ b o, (b, o) ∈ tlb h' → (b, o) ∈ tlb h ∧ ¬ current (mkSys h ts c) sp b) →
  sys_ok k (mkSys h' (delete sp ts) c).
Proof.
  intros [Hb Hg Ht Hu Hd Htlb Hcur] Hc Hb' Hg' Ha' Hd' Hu' Htlb'. simpl in *.
  assert (∀ o b, current (mkSys h' (delete sp ts) c) o b ↔ o ≠ sp ∧ current (mkSys h ts c) o b) as Hdel.
  { intros o b. unfold current. simpl. rewrite Hg', lookup_delete_Some. naive_solver. }
  assert (∀ b, unheld (mkSys h ts c) b → unheld (mkSys h' (delete sp ts) c) b) as Hunh.
  { intros b Hun o [_ H]%Hdel. by apply (Hun o). }
  split; simpl; rewrite ?Hg', ?Ha'; try done.
  - intros o t' [_ H]%lookup_delete_Some. by eapply Ht.
  - intros o b [Ho H]%Hdel. destruct (Hu o b H) as [? Hub]. destruct (Ht _ _ H). split; [done|].
    apply Hu'; [done|done|]. intros H'. apply Ho. by apply (Hd o sp b).
  - intros o o' b [_ H]%Hdel [_ H']%Hdel. by apply (Hd o o' b).
  - intros b o [Hin Hnc]%Htlb'. destruct (Htlb b o Hin) as [Hb1 [[H1 H2]|[H1 H2]]]; (split; [done|]); rewrite Hd'.
    + left. split; [|done]. apply Hdel. split; [|done]. by intros ->.
    + right. split; [by apply Hunh|]. destruct H2 as [H2|H2]; [by left|right; apply Hu'; [lia|done|apply H1]].
  - destruct c as [c0|]; [|destruct Hcur as [? Hnil]; split; [done|]].
    2: { destruct (tlb h') as [|[b o] l] eqn:El; [done|]. destruct (Htlb' b o) as [Hin _]; [by left|].
         rewrite Hnil in Hin. by apply elem_of_nil in Hin. }
    destruct Hcur as (Hs0 & Hact & Hcur). assert (c0 ≠ sp) as Hne by congruence. rewrite Hd'.
    split_and!; [by rewrite lookup_delete_ne|done|].
    destruct Hcur as [[H1 H2]|(H1 & H2 & H3)]; [left; split; [by apply Hdel|done]|right].
    split_and!; [by apply Hunh| |].
    + apply Hu'; [destruct Hb as (_ & _ & _ & Hb); lia|done|apply H1].
    + intros o [Hin _]%Htlb'. by apply H3.
Qed.

Lemma release_ok k h ts c sp t :
  sys_ok k (mkSys h ts c) → ts !! sp = Some t → c ≠ Some sp →
  wp (release_asid t) (λ _ h', sys_ok k (mkSys h' (delete sp ts) c)) h.
Proof.
  intros Hs Hsp Hc. pose proof (so_bits _ _ Hs) as (Hl1 & Hl2 & Hn & Ha). simpl in *.
  destruct (so_token _ _ Hs sp t Hsp) as [Hta _].
  assert (∀ b, current (mkSys h ts c) sp b → b = asid t ∧ generation t = asid_generation h ∧ 1 ≤ b) as Hcur.
  { intros b H. pose proof (so_used _ _ Hs sp b H) as [? _]. unfold current in H. simpl in H. rewrite Hsp in H. by injection H as ->. }
  unfold release_asid. destruct (Z.eqb_spec (asid t) 0) as [E|E]; simpl.
  { wp_step. wp_step. wp_step. apply (drop_token_ok k h h ts c sp); try done.
    intros b o Hin. split; [done|]. intros (-> & _ & ?)%Hcur. lia. }
  unfold ArchMmuFlushTlbAsid. rewrite (proj2 (Z.eqb_neq _ _) E). do 2 wp_step.
  unfold AsidFree. rewrite (proj2 (Z.eqb_neq _ _) E). do 2 wp_step. simpl.
  assert (∀ b o, (b, o) ∈ filter (λ e, e.1 ≠ asid t) (tlb h) → (b, o) ∈ tlb h ∧ ¬ current (mkSys h ts c) sp b) as Hfl.
  { intros b o [? ?]%list_elem_of_filter. split; [done|]. by intros (-> & _)%Hcur. }
  case_if Eg; wp_step; eapply (drop_token_ok k h _ ts c sp); try done.
  - split_and!; simpl; try done; try lia. unfold AsidBitClear. by rewrite length_bb_clr.
  - intros b Hb Hub Hnc. unfold used. simpl. unfold AsidBitTest, AsidBitClear. rewrite bb_get_clr by lia.
    rewrite (Hub : bb_get _ b = true), andb_true_r, bool_decide_false; [done|]. intros <-. apply Hnc.
    unfold current. simpl. rewrite Hsp, <- Eg. by destruct t.
Qed.

Lemma fill_ok k h ts sp :
  sys_ok k (mkSys h ts (Some sp)) → sys_ok k (mkSys (set_tlb ((active_asid h, sp) :: tlb h) h) ts (Some sp)).
Proof.
  intros [Hb Hg Ht Hu Hd Htlb (Hs & Ha & Hcur)]. simpl in *. split; simpl; try done.
  - intros a o [[= -> ->]|Hin]%elem_of_cons; [|by apply Htlb]. destruct Hb as (_ & _ & _ & Hb). split; [lia|].
    destruct Hcur as [?|(? & ? & _)]; [by left|right; auto].
  - split_and!; [done..|]. destruct Hcur as [?|(? & ? & H3)]; [by left|right]. split_and!; [done..|].
    intros o [[= ->]|Hin]%elem_of_cons; [done|by apply H3].
Qed.
Lemma evict_ok k h ts c l : l ⊆ tlb h → sys_ok k (mkSys h ts c) → sys_ok k (mkSys (set_tlb l h) ts c).
Proof.
  intros Hl [Hb Hg Ht Hu Hd Htlb Hcur]. simpl in *. split; simpl; try done; [intros a o Hin; by apply Htlb, Hl|].
  destruct c as [c0|].
  - destruct Hcur as (? & ? & [?|(? & ? & H3)]); (split_and!; [done..|]); [by left|right]. split_and!; [done..|]. auto.
  - destruct Hcur as [? Hnil]. split; [done|]. rewrite Hnil in Hl. by apply list_nil_subseteq in Hl.
Qed.

Lemma boot_ok : sys_ok 0 boot_sys.
Proof.
  split; simpl; try done.
  - intros sp t Hl. apply lookup_singleton_Some in Hl as [_ <-]. done.
  - intros sp a Hl. unfold current in Hl. simpl in Hl. apply lookup_singleton_Some in Hl as [_ [=]].
  - intros sp sp' a Hl. unfold current in Hl. simpl in Hl. apply lookup_singleton_Some in Hl as [_ [=]].
  - by intros a o ?%elem_of_nil.
Qed.

Lemma reach_ok n s : reach n s → Z.of_nat n ≤ 2 ^ 31 → sys_ok (Z.of_nat n) s.
Proof.
  induction 1 as [|n s s' Hr IH Hst]; intros Hn; [apply boot_ok|]. specialize (IH ltac:(lia)).
  replace (Z.of_nat (S n)) with (Z.of_nat n + 1) by lia.
  assert (∀ A (m : M ast A) Q h a h', m h = Ok (a, h') → wp m Q h → Q a h') as Hrun.
  { intros A m Q h a h' He Hw. unfold wp in Hw. by rewrite He in Hw. }
  destruct Hst as [h h' ts c sp t Hsp He|h h' ts c sp t Hsp Hc He|h h' ts c sp t t' Hsp Hc He|h ts sp|h ts c l Hl].
  - apply (Hrun _ _ (λ t h', sys_ok (Z.of_nat n + 1) (mkSys h' (<[sp := t]> ts) c)) _ _ _ He). eapply wp_mono; [apply (alloc_ok (Z.of_nat n) h ts c sp IH)|by intros ?? [??]].
    + intros ->. destruct (so_cur _ _ IH) as ([? H] & _). simpl in H. congruence.
    + intros b Hb. unfold current in Hb. simpl in Hb. congruence.
    + lia.
  - apply sys_ok_later. apply (Hrun _ _ (λ _ h', sys_ok (Z.of_nat n) (mkSys h' (delete sp ts) c)) _ _ _ He). by eapply release_ok.
  - apply (Hrun _ _ (λ t' h', sys_ok (Z.of_nat n + 1) (mkSys h' (<[sp := t']> ts) (Some sp))) _ _ _ He).
    eapply switch_ok; try done. lia.
  - by apply sys_ok_later, fill_ok.
  - by apply sys_ok_later, evict_ok.
Qed.


(** [AsidAlloc] always returns an ASID other than 0 that no space holds and under
    which the TLB has no entry. *)
Theorem AsidAlloc_fresh n s :
  reach n s → Z.of_nat n < 2 ^ 31 →
  wp AsidAlloc (λ t h', 1 ≤ asid t < 256 ∧ generation t = asid_generation h' ∧
    (∀ sp, tokens s !! sp ≠ Some t) ∧ (∀ o, (asid t, o) ∉ tlb h')) (hw s).
Proof.
  intros Hr Hn. pose proof (reach_ok n s Hr ltac:(lia)) as Hs.
  apply wp_AsidAlloc; [apply (so_bits _ _ Hs)|]. intros a h' [(Ha & Hu & ->)|(Ha & _ & Hg & _ & Hnil & _)]; simpl.
  - split_and!; [lia|lia|done|..].
    + intros sp H. apply (so_used _ _ Hs) in H as [_ H]. congruence.
    + intros o [Hin Hfl]%tlb_claimed. destruct (so_tlb _ _ Hs _ _ Hin) as [_ [[H _]|[_ H]]].
      * apply (so_used _ _ Hs) in H as [_ H]. congruence.
      * destruct H as [H|H]; [|congruence]. simpl in Hfl. by apply Hfl; [|lia|].
  - split_and!; [lia|lia|done|..].
    + intros sp H. destruct (so_token _ _ Hs _ _ H) as [_ Ht]. simpl in Ht. pose proof (so_gen _ _ Hs).
      rewrite Hg, w32_small in Ht by lia. lia.
    + intros o. rewrite Hnil. by intros ?%elem_of_nil.
Qed.

Module AsidDemo.
(** The state of a computation that ends. *)
Definition after {A} (m : M ast A) (s : ast) : ast := match m s with Ok (_, s') => s' | _ => s end.

(** Space 1 is created and runs, and its first access fills the TLB. *)
Definition h1 : ast := after AsidAlloc boot_ast.
Definition h2 : ast := after (ArchMmuSwitch (root_of 1) (mkToken 1 1)) h1.
Definition running : sys :=
  mkSys (set_tlb [(1, 1)] h2) (<[1 := mkToken 1 1]> (<[1 := mkToken 1 1]> {[ 0 := mkToken 0 0 ]})) (Some 1).
Lemma running_reached : reach 3 running.
Proof.
  eapply (reach_step 2); [eapply (reach_step 1); [eapply (reach_step 0); [exact reach_boot|]|]|].
  - by eapply (step_create boot_ast h1 _ None 1 (mkToken 1 1)).
  - by eapply (step_switch h1 h2 _ None 1 (mkToken 1 1) (mkToken 1 1)).
  - exact (step_fill h2 _ 1).
Qed.


Lemma AsidAlloc_fresh_witness :
  wp AsidAlloc (λ t h', asid t = 2 ∧ (∀ o, (asid t, o) ∉ tlb h')) (hw running).
Proof.
  destruct (wp_Ok _ _ _ (AsidAlloc_fresh 3 running running_reached ltac:(lia))) as (t & h' & He & _ & _ & _ & Ht).
  apply (wp_of _ _ _ t h' He). split; [|exact Ht].
  vm_compute in He. injection He as <- _. reflexivity.
Defined.

Fixpoint alloc_times (n : nat) : M ast unit :=
  match n with O => ret tt | S n' => AsidAlloc ;; alloc_times n' end.

(** When the search wraps for the first time, [AsidAlloc] starts a new generation
    although an ASID is free: [next_asid] is then 0, whose bit is clear until the first
    new generation, so ASID 0 is claimed and taken for a failed search. *)
Theorem AsidAlloc_early_rollover :
  wp (alloc_times 255 ;; AsidFree (mkToken 5 1) ;; gets (λ s, used s 5)) (λ u s,
    u = false ∧ next_asid s = 0 ∧ asid_generation s = 1 ∧
    wp AsidAlloc (λ t _, t = mkToken 1 2) s) boot_ast.
Proof. vm_compute. done. Qed.
End AsidDemo.
