(* ===== verification/Mmu.v ===== *)
(** arch/arm/mmu/mmu.c and arch/arm/mmu/l2_pool.c: ARMv7 translation tables.

    Physical memory holds 32-bit words by address; the tables of every space live in it
    and are read and written the way the code does.  The frames the physical memory
    manager has free are a list from which it hands them out, and whether the slab
    allocator succeeds is a list of answers.  TLB maintenance is recorded in the order it
    is done; the barrier instructions have no effect on this state.

    [walk] is the translation the hardware makes from the tables.  The theorems show that
    the operations change it at the pages they are asked to and nowhere else, in this
    space and in every other. *)
From S2P Require Import Prelude Region Asid.

#[local] Open Scope Z_scope.

(** * Constants (arch/arm/include/arch_impl/armv7_mmu.h) *)
Definition MMU_BIT (n : Z) : Z := Z.shiftl 1 n.
Definition DESC_TYPE_MASK : Z := 0x3.
Definition DESC_FAULT : Z := 0x0.
Definition DESC_L2 : Z := 0x1.
Definition DESC_SECTION : Z := 0x2.
Definition DESC_SUPERSECTION : Z := 0x3.
Definition L2_SMALL_TAG : Z := MMU_BIT 1.
Definition L1_SECTION_TAG : Z := DESC_SECTION.
Definition L1_L2PTR_TAG : Z := DESC_L2.
Definition L1_SECTION_BASE_MASK : Z := 0xFFF00000.
Definition L1_L2PTR_BASE_MASK : Z := 0xFFFFFC00.
Definition L2_SMALL_BASE_MASK : Z := 0xFFFFF000.
Definition MMU_SECTION_SHIFT : Z := 20.
Definition MMU_PAGE_SHIFT : Z := 12.
Definition L1_IDX_MASK : Z := 0xFFF.
Definition L2_IDX_MASK : Z := 0xFF.
Definition L1_IDX (va : Z) : Z := Z.land (Z.shiftr va MMU_SECTION_SHIFT) L1_IDX_MASK.
Definition L2_IDX (va : Z) : Z := Z.land (Z.shiftr va MMU_PAGE_SHIFT) L2_IDX_MASK.
Definition L2_ENTRIES : Z := 256.
Definition L1_ENTRIES_USER : Z := 2048.
Definition L1_ENTRIES_KERNEL : Z := 4096.
Definition L1_DESC_BYTES : Z := 4.
Definition AP_MASK : Z := 0x3.
Definition AP_KERNEL_RW : Z := 0x1.
Definition AP_USER_RO : Z := 0x2.
Definition AP_USER_RW : Z := 0x3.
Definition L1_SECT_B_BIT : Z := 2.
Definition L1_SECT_C_BIT : Z := 3.
Definition L1_SECT_XN_BIT : Z := 4.
Definition L1_SECT_AP_SHIFT : Z := 10.
Definition L1_SECT_TEX_SHIFT : Z := 12.
Definition L1_SECT_AP2_BIT : Z := 15.
Definition L1_SECT_S_BIT : Z := 16.
Definition L1_SECT_NG_BIT : Z := 17.
Definition L2_PAGE_XN_BIT : Z := 0.
Definition L2_PAGE_B_BIT : Z := 2.
Definition L2_PAGE_C_BIT : Z := 3.
Definition L2_PAGE_AP_SHIFT : Z := 4.
Definition L2_PAGE_TEX_SHIFT : Z := 6.
Definition L2_PAGE_AP2_BIT : Z := 9.
Definition L2_PAGE_S_BIT : Z := 10.
Definition L2_PAGE_NG_BIT : Z := 11.
Definition TEX_MASK : Z := 0x7.
Definition CB_MASK : Z := 0x3.
Definition TEX_NORMAL_WBWA : Z := 0x1.
Definition TEX_NORMAL_NC : Z := 0x1.
Definition L1_SECT_ATTR_NORMAL : Z :=
  Z.lor (Z.lor (Z.shiftl TEX_NORMAL_WBWA L1_SECT_TEX_SHIFT) (MMU_BIT L1_SECT_C_BIT)) (MMU_BIT L1_SECT_B_BIT).
Definition L1_SECT_ATTR_DEVICE : Z := MMU_BIT L1_SECT_B_BIT.
Definition L1_SECT_ATTR_NORMAL_NC : Z := Z.shiftl TEX_NORMAL_NC L1_SECT_TEX_SHIFT.
Definition L2_PAGE_ATTR_NORMAL : Z :=
  Z.lor (Z.lor (Z.shiftl TEX_NORMAL_WBWA L2_PAGE_TEX_SHIFT) (MMU_BIT L2_PAGE_C_BIT)) (MMU_BIT L2_PAGE_B_BIT).
Definition L2_PAGE_ATTR_DEVICE : Z := MMU_BIT L2_PAGE_B_BIT.
Definition L2_PAGE_ATTR_NORMAL_NC : Z := Z.shiftl TEX_NORMAL_NC L2_PAGE_TEX_SHIFT.
Definition L2_PAGE_ATTR_MASK : Z :=
  Z.lor (Z.lor (Z.shiftl TEX_MASK L2_PAGE_TEX_SHIFT) (MMU_BIT L2_PAGE_C_BIT)) (MMU_BIT L2_PAGE_B_BIT).
Definition SECTION_SIZE : Z := 0x100000.
Definition USER_VA_TOP : Z := 0x80000000.
Definition VM_PROT_USER : Z := 8.
Definition UNMAP_TLBI_PAGE_THRESHOLD : Z := 16.
Definition L2_TABLE_SIZE : Z := 1024.
Definition L2_PER_PAGE : Z := PAGE_SIZE / L2_TABLE_SIZE.
Definition L2_SLOTS_FULL : Z := Z.shiftl 1 L2_PER_PAGE - 1.
Definition PAGE_OFFSET_MASK : Z := PAGE_SIZE - 1.

(** * State *)

Inductive AddressSpaceType := ADDRESS_SPACE_KERNEL | ADDRESS_SPACE_USER.
#[global] Instance AddressSpaceType_eq_dec : EqDecision AddressSpaceType.
Proof. solve_decision. Defined.

Record AddressSpace := mkAs {
  pt_root_physaddr : Z;
  as_regions : region_vec;
  as_type : AddressSpaceType;
  asid_token : AsidToken
}.

Record L2PtPoolEntry := mkPool { page_pa : Z; used_mask : Z }.
#[global] Instance L2PtPoolEntry_eq_dec : EqDecision L2PtPoolEntry.
Proof. solve_decision. Defined.

Inductive tlb_op := TlbAll | TlbAsid (a : Z) | TlbVa (va : Z) | TlbVaAsid (va a : Z).

Record mst := mkMst {
  words : Z → Z;
  pool : list L2PtPoolEntry;
  frames : list Z;
  slab : list bool;
  tlb_ops : list tlb_op
}.
Definition set_words (v : Z → Z) (s : mst) : mst := mkMst v (pool s) (frames s) (slab s) (tlb_ops s).
Definition set_pool (v : list L2PtPoolEntry) (s : mst) : mst := mkMst (words s) v (frames s) (slab s) (tlb_ops s).
Definition set_frames (v : list Z) (s : mst) : mst := mkMst (words s) (pool s) v (slab s) (tlb_ops s).
Definition set_slab (v : list bool) (s : mst) : mst := mkMst (words s) (pool s) (frames s) v (tlb_ops s).
Definition set_tlb_ops (v : list tlb_op) (s : mst) : mst := mkMst (words s) (pool s) (frames s) (slab s) v.

Abbreviation MM := (M mst).

(** Reading and writing word [i] of the table at [t]. *)
Definition rd (t i : Z) : MM Z := gets (λ s, words s (t + 4 * i)).
Definition upd (f : Z → Z) (a v : Z) : Z → Z := λ x, if x =? a then v else f x.
Definition wr (t i v : Z) : MM unit := modify (λ s, set_words (upd (words s) (t + 4 * i) v) s).
(** [memset] of a range to zero. *)
Definition zero_range (a n : Z) (f : Z → Z) : Z → Z := λ x, if (a <=? x) && (x <? a + n) then 0 else f x.
Definition bzero (a n : Z) : MM unit := modify (λ s, set_words (zero_range a n (words s)) s).

Definition PmmAllocFrame_m : MM Z :=
  let! l := gets frames in
  match l with [] => ret 0 | f :: l' => modify (set_frames l') ;; ret f end.
Definition PmmFreeFrame_m (pa : Z) : MM unit := modify (λ s, set_frames (pa :: frames s) s).
Definition slab_alloc : MM bool :=
  let! l := gets slab in
  match l with [] => ret false | b :: l' => modify (set_slab l') ;; ret b end.
Definition flush_tlb (op : tlb_op) : MM unit := modify (λ s, set_tlb_ops (op :: tlb_ops s) s).
Definition flush_asid (a : Z) : MM unit := flush_tlb (if a =? 0 then TlbAll else TlbAsid a).

(** * The pool of L2 tables *)

(** The lowest free slot of a page. *)
Fixpoint pool_slot (n : nat) (slot mask : Z) : option Z :=
  match n with
  | O => None
  | S n' => if truthy (Z.land mask (Z.shiftl 1 slot)) then pool_slot n' (slot + 1) mask else Some slot
  end.
(** The first page with a free slot: the table taken and the pool with it marked. *)
Fixpoint pool_take (l : list L2PtPoolEntry) : option (Z * list L2PtPoolEntry) :=
  match l with
  | [] => None
  | e :: l' =>
      let skip := match pool_take l' with Some (pa, r) => Some (pa, e :: r) | None => None end in
      if used_mask e =? L2_SLOTS_FULL then skip else
      match pool_slot (Z.to_nat L2_PER_PAGE) 0 (used_mask e) with
      | Some slot => Some (w32 (page_pa e + slot * L2_TABLE_SIZE),
                           mkPool (page_pa e) (w8 (Z.lor (used_mask e) (Z.shiftl 1 slot))) :: l')
      | None => skip
      end
  end.
Definition L2PtPoolAlloc : MM Z :=
  let! l := gets pool in
  match pool_take l with
  | Some (pa, l') => modify (set_pool l') ;; bzero pa L2_TABLE_SIZE ;; ret pa
  | None =>
      let! page := PmmAllocFrame_m in
      if page =? 0 then ret 0 else
      let! ok := slab_alloc in
      if negb ok then PmmFreeFrame_m page ;; ret 0 else
      bzero page PAGE_SIZE ;;
      modify (λ s, set_pool (mkPool page 1 :: pool s) s) ;;
      ret page
  end.

(** Clearing [slot] of the page at [pa]: the pool, and whether the page is now empty;
    [None] if the page is not in the pool. *)
Fixpoint pool_put (l : list L2PtPoolEntry) (pa slot : Z) : option (bool * list L2PtPoolEntry) :=
  match l with
  | [] => None
  | e :: l' =>
      if negb (page_pa e =? pa) then
        match pool_put l' pa slot with Some (b, r) => Some (b, e :: r) | None => None end
      else
        let mask := w8 (Z.land (used_mask e) (Z.lnot (Z.shiftl 1 slot))) in
        if mask =? 0 then Some (true, l') else Some (false, mkPool (page_pa e) mask :: l')
  end.
Definition L2PtPoolFree (l2_pa : Z) : MM unit :=
  if l2_pa =? 0 then ret tt else
  let page := Z.land l2_pa (Z.lnot PAGE_OFFSET_MASK) in
  let slot := Z.land l2_pa PAGE_OFFSET_MASK / L2_TABLE_SIZE in
  let! l := gets pool in
  match pool_put l page slot with
  | None => ret tt
  | Some (empty, l') =>
      when empty (PmmFreeFrame_m page) ;;
      modify (set_pool l')
  end.

(** * Descriptors *)

Definition l1_entry_count (type : AddressSpaceType) : Z :=
  if decide (type = ADDRESS_SPACE_USER) then L1_ENTRIES_USER else L1_ENTRIES_KERNEL.
Definition l1_table_bytes (type : AddressSpaceType) : Z := l1_entry_count type * L1_DESC_BYTES.
Definition l1_table_pages (type : AddressSpaceType) : Z := l1_table_bytes type / PAGE_SIZE.

Definition ap_bits (prot : Z) : Z :=
  if truthy (Z.land prot VM_PROT_USER)
  then if truthy (Z.land prot PROT_WRITE) then AP_USER_RW else AP_USER_RO
  else AP_KERNEL_RW.

Definition l1_section_desc (pa prot : Z) (memtype : VirtMemType) : Z :=
  let e := Z.lor (Z.land pa L1_SECTION_BASE_MASK) L1_SECTION_TAG in
  let e := Z.lor e (Z.shiftl (ap_bits prot) L1_SECT_AP_SHIFT) in
  let e := if negb (truthy (Z.land prot PROT_EXEC)) then Z.lor e (MMU_BIT L1_SECT_XN_BIT) else e in
  let e := if truthy (Z.land prot VM_PROT_USER) then Z.lor e (MMU_BIT L1_SECT_NG_BIT) else e in
  match memtype with
  | VM_MEM_DEVICE => Z.lor e L1_SECT_ATTR_DEVICE
  | VM_MEM_NORMAL_NC => Z.lor e (Z.lor L1_SECT_ATTR_NORMAL_NC (MMU_BIT L1_SECT_S_BIT))
  | VM_MEM_NORMAL => Z.lor e (Z.lor L1_SECT_ATTR_NORMAL (MMU_BIT L1_SECT_S_BIT))
  end.

Definition l2_page_desc (pa prot : Z) (memtype : VirtMemType) : Z :=
  let e := Z.lor (Z.land pa L2_SMALL_BASE_MASK) L2_SMALL_TAG in
  let e := Z.lor e (Z.shiftl (ap_bits prot) L2_PAGE_AP_SHIFT) in
  let e := if negb (truthy (Z.land prot PROT_EXEC)) then Z.lor e (MMU_BIT L2_PAGE_XN_BIT) else e in
  let e := if truthy (Z.land prot VM_PROT_USER) then Z.lor e (MMU_BIT L2_PAGE_NG_BIT) else e in
  match memtype with
  | VM_MEM_DEVICE => Z.lor e L2_PAGE_ATTR_DEVICE
  | VM_MEM_NORMAL_NC => Z.lor e (Z.lor L2_PAGE_ATTR_NORMAL_NC (MMU_BIT L2_PAGE_S_BIT))
  | VM_MEM_NORMAL => Z.lor e (Z.lor L2_PAGE_ATTR_NORMAL (MMU_BIT L2_PAGE_S_BIT))
  end.

Definition l1_section_set_prot (e prot : Z) : Z :=
  let e := Z.land e (Z.lnot (Z.lor (Z.lor (Z.shiftl AP_MASK L1_SECT_AP_SHIFT) (MMU_BIT L1_SECT_AP2_BIT)) (MMU_BIT L1_SECT_XN_BIT))) in
  let e := Z.lor e (Z.shiftl (ap_bits prot) L1_SECT_AP_SHIFT) in
  if negb (truthy (Z.land prot PROT_EXEC)) then Z.lor e (MMU_BIT L1_SECT_XN_BIT) else e.

Definition l2_page_set_prot (e prot : Z) : Z :=
  let e := Z.land e (Z.lnot (Z.lor (Z.lor (Z.shiftl AP_MASK L2_PAGE_AP_SHIFT) (MMU_BIT L2_PAGE_AP2_BIT)) (MMU_BIT L2_PAGE_XN_BIT))) in
  let e := Z.lor e (Z.shiftl (ap_bits prot) L2_PAGE_AP_SHIFT) in
  if negb (truthy (Z.land prot PROT_EXEC)) then Z.lor e (MMU_BIT L2_PAGE_XN_BIT) else e.

Definition ArchMmuMakeL1Pte (l2_pa : Z) : Z :=
  if l2_pa =? 0 then 0 else Z.lor (Z.land l2_pa L1_L2PTR_BASE_MASK) L1_L2PTR_TAG.

(** The attributes of a section in the layout of a small page, as [ArchMmuBreakSection]
    moves them. *)
Definition section_attrs (section : Z) : Z :=
  let xn := Z.land (Z.shiftr section L1_SECT_XN_BIT) 1 in
  let cb := Z.land (Z.shiftr section L1_SECT_B_BIT) CB_MASK in
  let ap := Z.land (Z.shiftr section L1_SECT_AP_SHIFT) AP_MASK in
  let tex := Z.land (Z.shiftr section L1_SECT_TEX_SHIFT) TEX_MASK in
  let ap2 := Z.land (Z.shiftr section L1_SECT_AP2_BIT) 1 in
  let ng := Z.land (Z.shiftr section L1_SECT_NG_BIT) 1 in
  let s := Z.land (Z.shiftr section L1_SECT_S_BIT) 1 in
  Z.lor (Z.lor (Z.lor (Z.lor (Z.lor (Z.lor
    (Z.shiftl xn L2_PAGE_XN_BIT) (Z.shiftl cb L2_PAGE_B_BIT)) (Z.shiftl ap L2_PAGE_AP_SHIFT))
    (Z.shiftl tex L2_PAGE_TEX_SHIFT)) (Z.shiftl s L2_PAGE_S_BIT)) (Z.shiftl ap2 L2_PAGE_AP2_BIT))
    (Z.shiftl ng L2_PAGE_NG_BIT).

(** * Translation and single pages *)

Definition ArchMmuTranslate (ttbr_pa va : Z) : MM Z :=
  if ttbr_pa =? 0 then ret 0 else
  let! l1_entry := rd ttbr_pa (L1_IDX va) in
  let type := Z.land l1_entry DESC_TYPE_MASK in
  if type =? DESC_FAULT then ret 0 else
  if (type =? DESC_SECTION) || (type =? DESC_SUPERSECTION) then
    ret (Z.lor (Z.land l1_entry L1_SECTION_BASE_MASK) (Z.land va (SECTION_SIZE - 1)))
  else if type =? DESC_L2 then
    let! l2_entry := rd (Z.land l1_entry L1_L2PTR_BASE_MASK) (L2_IDX va) in
    if negb (truthy (Z.land l2_entry L2_SMALL_TAG)) then ret 0 else
    ret (Z.lor (Z.land l2_entry L2_SMALL_BASE_MASK) (Z.land va (PAGE_SIZE - 1)))
  else ret 0.

Definition ArchMmuBreakSection (l1 l1_idx asid : Z) : MM bool :=
  let! section := rd l1 l1_idx in
  let section_pa := Z.land section L1_SECTION_BASE_MASK in
  let! l2_pa := L2PtPoolAlloc in
  if l2_pa =? 0 then ret false else
  for_each (Z.to_nat L2_ENTRIES) 0 (λ i,
    wr l2_pa i (Z.lor (Z.lor (Z.land (w32 (section_pa + i * PAGE_SIZE)) L2_SMALL_BASE_MASK) L2_SMALL_TAG)
                      (section_attrs section))) ;;
  wr l1 l1_idx (ArchMmuMakeL1Pte l2_pa) ;;
  flush_asid asid ;;
  ret true.

Definition ArchMmuMapPage (sp : AddressSpace) (va pa : Z) (memtype : VirtMemType) (prot : Z) : MM bool :=
  if bool_decide (as_type sp = ADDRESS_SPACE_USER) && (USER_VA_TOP <=? va) then ret false else
  let l1 := pt_root_physaddr sp in
  if l1_entry_count (as_type sp) <=? L1_IDX va then ret false else
  let! l1_entry := rd l1 (L1_IDX va) in
  let type := Z.land l1_entry DESC_TYPE_MASK in
  let! l2 :=
    if type =? DESC_FAULT then
      let! l2_pa := L2PtPoolAlloc in
      if l2_pa =? 0 then ret None else
      wr l1 (L1_IDX va) (ArchMmuMakeL1Pte l2_pa) ;; ret (Some l2_pa)
    else if type =? DESC_L2 then ret (Some (Z.land l1_entry L1_L2PTR_BASE_MASK))
    else
      let! ok := ArchMmuBreakSection l1 (L1_IDX va) (asid (asid_token sp)) in
      if negb ok then ret None else
      let! e := rd l1 (L1_IDX va) in
      ret (Some (Z.land e L1_L2PTR_BASE_MASK)) in
  match l2 with
  | None => ret false
  | Some l2 => wr l2 (L2_IDX va) (l2_page_desc pa prot memtype) ;; ret true
  end.

Definition ArchMmuUnmapPage (sp : AddressSpace) (va : Z) : MM bool :=
  let! l1_entry := rd (pt_root_physaddr sp) (L1_IDX va) in
  if negb (Z.land l1_entry DESC_TYPE_MASK =? DESC_L2) then ret false else
  let l2 := Z.land l1_entry L1_L2PTR_BASE_MASK in
  let! e := rd l2 (L2_IDX va) in
  if e =? 0 then ret false else
  wr l2 (L2_IDX va) 0 ;; ret true.

(** * Ranges *)

(** The section loop of [ArchMmuMap], [n] sections left. *)
Fixpoint map_sections (sp : AddressSpace) (va pa prot : Z) (memtype : VirtMemType) (n : nat) (offset : Z) : MM bool :=
  match n with
  | O => ret true
  | S n' =>
      let idx := L1_IDX (w32 (va + offset)) in
      if l1_entry_count (as_type sp) <=? idx then ret false else
      wr (pt_root_physaddr sp) idx (l1_section_desc (w32 (pa + offset)) prot memtype) ;;
      map_sections sp va pa prot memtype n' (offset + SECTION_SIZE)
  end.
(** Its page loop, with the roll-back. *)
Fixpoint map_pages (sp : AddressSpace) (va pa prot : Z) (memtype : VirtMemType) (n : nat) (offset : Z) : MM bool :=
  match n with
  | O => ret true
  | S n' =>
      let! ok := ArchMmuMapPage sp (w32 (va + offset)) (w32 (pa + offset)) memtype prot in
      if negb ok then
        for_each (Z.to_nat (offset / PAGE_SIZE)) 0 (λ i, ArchMmuUnmapPage sp (w32 (va + i * PAGE_SIZE)) ;; ret tt) ;;
        ret false
      else map_pages sp va pa prot memtype n' (offset + PAGE_SIZE)
  end.
Definition ArchMmuMap (sp : AddressSpace) (va pa size prot : Z) (memtype : VirtMemType) : MM bool :=
  if size =? 0 then ret false else
  if bool_decide (as_type sp = ADDRESS_SPACE_USER) && ((USER_VA_TOP <=? va) || (USER_VA_TOP - va <? size)) then ret false else
  if (va mod SECTION_SIZE =? 0) && (pa mod SECTION_SIZE =? 0) && (size mod SECTION_SIZE =? 0) then
    map_sections sp va pa prot memtype (Z.to_nat (size / SECTION_SIZE)) 0
  else if (va mod PAGE_SIZE =? 0) && (pa mod PAGE_SIZE =? 0) && (size mod PAGE_SIZE =? 0) then
    map_pages sp va pa prot memtype (Z.to_nat (size / PAGE_SIZE)) 0
  else ret false.

(** The section loop of [ArchMmuUnmap]: whether anything was unmapped and whether a flush
    is left to do. *)
Fixpoint unmap_sections (sp : AddressSpace) (va : Z) (flush : bool) (n : nat) (offset : Z) (any trailing : bool) : MM (bool * bool) :=
  match n with
  | O => ret (any, trailing)
  | S n' =>
      let idx := L1_IDX (w32 (va + offset)) in
      let! entry := rd (pt_root_physaddr sp) idx in
      if entry =? 0 then unmap_sections sp va flush n' (offset + SECTION_SIZE) any trailing else
      wr (pt_root_physaddr sp) idx 0 ;;
      if Z.land entry DESC_TYPE_MASK =? DESC_L2 then
        when flush (flush_asid (asid (asid_token sp))) ;;
        L2PtPoolFree (Z.land entry L1_L2PTR_BASE_MASK) ;;
        unmap_sections sp va flush n' (offset + SECTION_SIZE) true trailing
      else unmap_sections sp va flush n' (offset + SECTION_SIZE) true true
  end.
(** Its page loop: how many pages were unmapped. *)
Fixpoint unmap_pages (sp : AddressSpace) (va size : Z) (flush : bool) (n : nat) (offset count : Z) : MM Z :=
  match n with
  | O => ret count
  | S n' =>
      let! ok := ArchMmuUnmapPage sp (w32 (va + offset)) in
      when (ok && flush && (size <=? UNMAP_TLBI_PAGE_THRESHOLD * PAGE_SIZE))
        (flush_tlb (TlbVaAsid (w32 (va + offset)) (asid (asid_token sp)))) ;;
      unmap_pages sp va size flush n' (offset + PAGE_SIZE) (if (ok : bool) then count + 1 else count)
  end.
Definition ArchMmuUnmap (sp : AddressSpace) (va size : Z) (flush : bool) : MM bool :=
  if size =? 0 then ret false else
  if (va mod SECTION_SIZE =? 0) && (size mod SECTION_SIZE =? 0) then
    let! r := unmap_sections sp va flush (Z.to_nat (size / SECTION_SIZE)) 0 false false in
    let '(any, trailing) := r in
    when (any && flush && trailing) (flush_asid (asid (asid_token sp))) ;;
    ret any
  else if (va mod PAGE_SIZE =? 0) && (size mod PAGE_SIZE =? 0) then
    let! count := unmap_pages sp va size flush (Z.to_nat (size / PAGE_SIZE)) 0 0 in
    let any := 0 <? count in
    when (any && flush && ((UNMAP_TLBI_PAGE_THRESHOLD * PAGE_SIZE <? size) || (count =? 0)))
      (flush_asid (asid (asid_token sp))) ;;
    ret any
  else ret false.

(** The loop of [ArchMmuProtect] from [offset]; [n] rounds are enough when every round
    advances by at least a page. *)
Fixpoint protect_pages (sp : AddressSpace) (va size prot : Z) (n : nat) (offset : Z) (changed : bool) : MM bool :=
  if negb (offset <? size) then ret changed else
  match n with
  | O => diverge
  | S n' =>
      let l1 := pt_root_physaddr sp in
      let curr_va := w32 (va + offset) in
      let! l1_entry := rd l1 (L1_IDX curr_va) in
      let type := Z.land l1_entry DESC_TYPE_MASK in
      if type =? DESC_SECTION then
        wr l1 (L1_IDX curr_va) (l1_section_set_prot l1_entry prot) ;;
        protect_pages sp va size prot n' (w32 (offset + (SECTION_SIZE - PAGE_SIZE) + PAGE_SIZE)) true
      else if type =? DESC_L2 then
        let l2 := Z.land l1_entry L1_L2PTR_BASE_MASK in
        let! e := rd l2 (L2_IDX curr_va) in
        if negb (truthy (Z.land e L2_SMALL_TAG)) then protect_pages sp va size prot n' (w32 (offset + PAGE_SIZE)) changed else
        wr l2 (L2_IDX curr_va) (l2_page_set_prot e prot) ;;
        protect_pages sp va size prot n' (w32 (offset + PAGE_SIZE)) true
      else protect_pages sp va size prot n' (w32 (offset + PAGE_SIZE)) changed
  end.
Definition ArchMmuProtect (sp : AddressSpace) (va size prot : Z) : MM bool :=
  if size =? 0 then ret false else
  let! changed := protect_pages sp va size prot (Z.to_nat ((size + PAGE_SIZE - 1) / PAGE_SIZE)) 0 false in
  when changed (flush_asid (asid (asid_token sp))) ;;
  ret changed.

(** * Whole tables *)

(** [root] is what [PmmAllocFramesContigAligned] returned, 0 when it failed. *)
Definition ArchMmuCreateTables (root : Z) (type : AddressSpaceType) : MM Z :=
  if root =? 0 then ret 0 else
  assert (Z.land root (l1_table_bytes type - 1) =? 0) ;;
  bzero root (l1_table_bytes type) ;;
  ret root.

Definition ArchMmuFreeTables (ttbr_pa : Z) (type : AddressSpaceType) : MM unit :=
  if ttbr_pa =? 0 then ret tt else
  for_each (Z.to_nat (l1_entry_count type)) 0 (λ i,
    let! e := rd ttbr_pa i in
    when (Z.land e DESC_TYPE_MASK =? DESC_L2) (L2PtPoolFree (Z.land e L1_L2PTR_BASE_MASK))) ;;
  for_each (Z.to_nat (l1_table_pages type)) 0 (λ i, PmmFreeFrame_m (w32 (ttbr_pa + i * PAGE_SIZE))).

(** The loop of [mmu_region_owner_for_va] over the region array. *)
Fixpoint owner_scan (rs : list VirtMemRegion) (va : Z) : VirtMemBacking :=
  match rs with
  | [] => VM_BACKING_ANON
  | r :: rs' =>
      let start := vaddr_start r in
      let end_ := w32 (start + size r) in
      if end_ <? start then owner_scan rs' va
      else if (start <=? va) && (va <? end_) then owner r
      else owner_scan rs' va
  end.
Definition mmu_region_owner_for_va (sp : AddressSpace) (va : Z) : VirtMemBacking :=
  owner_scan (take (Z.to_nat (len (as_regions sp))) (data (as_regions sp))) va.

Definition USER_SYSPAGE_VA : Z := 0x1000.

Definition ArchMmuFreeUserPages (sp : AddressSpace) : MM unit :=
  for_each (Z.to_nat (l1_entry_count ADDRESS_SPACE_USER)) 0 (λ i,
    let! l1_entry := rd (pt_root_physaddr sp) i in
    when (Z.land l1_entry DESC_TYPE_MASK =? DESC_L2)
      (for_each (Z.to_nat L2_ENTRIES) 0 (λ j,
        let! e := rd (Z.land l1_entry L1_L2PTR_BASE_MASK) j in
        let va := Z.lor (Z.shiftl i MMU_SECTION_SHIFT) (Z.shiftl j MMU_PAGE_SHIFT) in
        if negb (truthy (Z.land e L2_SMALL_TAG)) then ret tt else
        if va =? USER_SYSPAGE_VA then ret tt else
        match mmu_region_owner_for_va sp va with
        | VM_BACKING_ANON =>
            if Z.land e L2_PAGE_ATTR_MASK =? L2_PAGE_ATTR_DEVICE then ret tt
            else PmmFreeFrame_m (Z.land e L2_SMALL_BASE_MASK)
        | _ => ret tt
        end))).

(** * The translation the hardware makes *)

(** A small page: its base, and the bits that say how it may be accessed (execute-never,
    access permissions, not-global) and cached. *)
Record pte := mkPte {
  pte_pa : Z;
  pte_xn : bool;
  pte_b : bool;
  pte_c : bool;
  pte_ap0 : bool;
  pte_ap1 : bool;
  pte_tex0 : bool;
  pte_tex1 : bool;
  pte_tex2 : bool;
  pte_ap2 : bool;
  pte_s : bool;
  pte_ng : bool
}.
Definition page_pte (e : Z) : pte :=
  let b := Z.testbit e in
  mkPte (Z.land e L2_SMALL_BASE_MASK) (b 0) (b 2) (b 3) (b 4) (b 5) (b 6) (b 7) (b 8) (b 9) (b 10) (b 11).
(** Page [j] of a section. *)
Definition section_pte (e j : Z) : pte :=
  let b := Z.testbit e in
  mkPte (Z.land e L1_SECTION_BASE_MASK + PAGE_SIZE * j) (b 4) (b 2) (b 3) (b 10) (b 11) (b 12) (b 13) (b 14) (b 15) (b 16) (b 17).

Definition desc_type (e : Z) : Z := Z.land e DESC_TYPE_MASK.
Definition l2_base (e : Z) : Z := Z.land e L1_L2PTR_BASE_MASK.

(** The translation of page [j] of megabyte [i] from the tables at [root]. *)
Definition walk (m : Z → Z) (root i j : Z) : option pte :=
  let e := m (root + 4 * i) in
  if desc_type e =? DESC_SECTION then Some (section_pte e j)
  else if desc_type e =? DESC_L2 then
    let e2 := m (l2_base e + 4 * j) in
    if Z.testbit e2 1 then Some (page_pte e2) else None
  else None.

(** What a protection and a memory type mean. *)
Definition pte_of (pa prot : Z) (mt : VirtMemType) : pte :=
  let user := Z.testbit prot 3 in
  mkPte pa (negb (Z.testbit prot 2))
    (match mt with VM_MEM_NORMAL_NC => false | _ => true end) (match mt with VM_MEM_NORMAL => true | _ => false end)
    (negb user || Z.testbit prot 1) user
    (match mt with VM_MEM_DEVICE => false | _ => true end) false false false
    (match mt with VM_MEM_DEVICE => false | _ => true end) user.
Definition with_prot (prot : Z) (p : pte) : pte :=
  mkPte (pte_pa p) (negb (Z.testbit prot 2)) (pte_b p) (pte_c p)
    (negb (Z.testbit prot 3) || Z.testbit prot 1) (Z.testbit prot 3)
    (pte_tex0 p) (pte_tex1 p) (pte_tex2 p) false (pte_s p) (pte_ng p).

(** ** Descriptors say what they were built from *)

(** Bit [n] of a descriptor, for a constant [n]. *)
Ltac tbit :=
  repeat first [rewrite Z.lor_spec | rewrite Z.land_spec | rewrite Z.shiftl_spec by lia | rewrite Z.shiftr_spec by lia | rewrite Z.lnot_spec by lia];
  cbn -[Z.testbit]; rewrite ?Z.testbit_0_l.

Lemma land_const_testbit z k : 0 ≤ k → truthy (Z.land z (2 ^ k)) = Z.testbit z k.
Proof. intros Hk. rewrite <- (Z.mul_1_l (2 ^ k)), <- Z.shiftl_mul_pow2 by done. by apply land_bit_truthy. Qed.
Lemma prot_write prot : truthy (Z.land prot PROT_WRITE) = Z.testbit prot 1.
Proof. apply (land_const_testbit prot 1). lia. Qed.
Lemma prot_exec prot : truthy (Z.land prot PROT_EXEC) = Z.testbit prot 2.
Proof. apply (land_const_testbit prot 2). lia. Qed.
Lemma prot_user prot : truthy (Z.land prot VM_PROT_USER) = Z.testbit prot 3.
Proof. apply (land_const_testbit prot 3). lia. Qed.

(** The base of a descriptor whose other fields are below the base. *)
Lemma land_lor_low pa low mask : Z.land low mask = 0 → Z.land (Z.lor (Z.land pa mask) low) mask = Z.land pa mask.
Proof. intros Hl. by rewrite Z.land_lor_distr_l, Hl, Z.lor_0_r, <- Z.land_assoc, Z.land_diag. Qed.

Lemma l2_page_desc_low pa prot mt :
  ∃ low, l2_page_desc pa prot mt = Z.lor (Z.land pa L2_SMALL_BASE_MASK) low ∧ 0 ≤ low < 2 ^ 12 ∧
    Z.testbit low 1 = true ∧ page_pte low = pte_of 0 prot mt.
Proof.
  unfold l2_page_desc, ap_bits. rewrite prot_write, prot_exec, prot_user. unfold pte_of.
  destruct (Z.testbit prot 3), (Z.testbit prot 1), (Z.testbit prot 2), mt; cbn [negb orb];
    rewrite <- ?Z.lor_assoc; eexists; (split; [reflexivity|]); vm_compute; done.
Qed.
Lemma l1_section_desc_low pa prot mt :
  ∃ low, l1_section_desc pa prot mt = Z.lor (Z.land pa L1_SECTION_BASE_MASK) low ∧ 0 ≤ low < 2 ^ 20 ∧
    desc_type low = DESC_SECTION ∧ section_pte low 0 = pte_of 0 prot mt.
Proof.
  unfold l1_section_desc, ap_bits. rewrite prot_write, prot_exec, prot_user. unfold pte_of.
  destruct (Z.testbit prot 3), (Z.testbit prot 1), (Z.testbit prot 2), mt; cbn [negb orb];
    rewrite <- ?Z.lor_assoc; eexists; (split; [reflexivity|]); vm_compute; done.
Qed.

Lemma lor_base_bit pa mask low n : Z.testbit mask n = false → Z.testbit (Z.lor (Z.land pa mask) low) n = Z.testbit low n.
Proof. intros Hm. by rewrite Z.lor_spec, Z.land_spec, Hm, andb_false_r. Qed.
Lemma low_base low k : 0 ≤ k → 0 ≤ low < 2 ^ k → ∀ hi, Z.land low (hi * 2 ^ k) = 0.
Proof.
  intros Hk Hl hi. apply Z.bits_inj'. intros n Hn. rewrite Z.land_spec, Z.bits_0.
  destruct (decide (n < k)); [by rewrite Z.mul_pow2_bits_low, andb_false_r by lia|].
  by rewrite (testbit_high k low n) by lia.
Qed.
Lemma page_pte_lor pa low :
  0 ≤ low < 2 ^ 12 → page_pte (Z.lor (Z.land pa L2_SMALL_BASE_MASK) low) =
  let p := page_pte low in
  mkPte (Z.land pa L2_SMALL_BASE_MASK) (pte_xn p) (pte_b p) (pte_c p) (pte_ap0 p) (pte_ap1 p) (pte_tex0 p) (pte_tex1 p)
    (pte_tex2 p) (pte_ap2 p) (pte_s p) (pte_ng p).
Proof.
  intros Hl. unfold page_pte. cbn [pte_xn pte_b pte_c pte_ap0 pte_ap1 pte_tex0 pte_tex1 pte_tex2 pte_ap2 pte_s pte_ng].
  rewrite !lor_base_bit by done.
  rewrite land_lor_low; [done|]. apply (low_base low 12 ltac:(lia) Hl 0xFFFFF).
Qed.
Lemma section_pte_lor pa low j :
  0 ≤ low < 2 ^ 20 → section_pte (Z.lor (Z.land pa L1_SECTION_BASE_MASK) low) j =
  let p := section_pte low 0 in
  mkPte (Z.land pa L1_SECTION_BASE_MASK + PAGE_SIZE * j) (pte_xn p) (pte_b p) (pte_c p) (pte_ap0 p) (pte_ap1 p) (pte_tex0 p)
    (pte_tex1 p) (pte_tex2 p) (pte_ap2 p) (pte_s p) (pte_ng p).
Proof.
  intros Hl. unfold section_pte. cbn [pte_xn pte_b pte_c pte_ap0 pte_ap1 pte_tex0 pte_tex1 pte_tex2 pte_ap2 pte_s pte_ng].
  rewrite !lor_base_bit by done.
  rewrite land_lor_low; [done|]. apply (low_base low 20 ltac:(lia) Hl 0xFFF).
Qed.

(** A page descriptor translates to the page it was built for, with the access its
    protection asks for: user access only with the user bit, writable for the user only
    with [PROT_WRITE], executable only with [PROT_EXEC], and cached as its memory type says. *)
Theorem l2_page_desc_means pa prot mt :
  Z.testbit (l2_page_desc pa prot mt) 1 = true ∧
  page_pte (l2_page_desc pa prot mt) = pte_of (Z.land pa L2_SMALL_BASE_MASK) prot mt.
Proof.
  destruct (l2_page_desc_low pa prot mt) as (low & -> & Hr & Ht & Hp). split; [by rewrite lor_base_bit|].
  rewrite page_pte_lor by done. by rewrite Hp.
Qed.

Lemma l2_page_desc_range pa prot mt : 0 ≤ pa < 2 ^ 32 → 0 ≤ l2_page_desc pa prot mt < 2 ^ 32.
Proof.
  intros Hpa. destruct (l2_page_desc_low pa prot mt) as (low & -> & Hr & _).
  apply lor_range; [lia|by apply land_range|lia].
Qed.
Lemma l1_section_desc_range pa prot mt : 0 ≤ pa < 2 ^ 32 → 0 ≤ l1_section_desc pa prot mt < 2 ^ 32.
Proof.
  intros Hpa. destruct (l1_section_desc_low pa prot mt) as (low & -> & Hr & _).
  apply lor_range; [lia|by apply land_range|lia].
Qed.
Lemma desc_type_lor pa mask low : Z.land mask DESC_TYPE_MASK = 0 → desc_type (Z.lor (Z.land pa mask) low) = desc_type low.
Proof. intros Hm. unfold desc_type. by rewrite Z.land_lor_distr_l, <- Z.land_assoc, Hm, Z.land_0_r. Qed.
Lemma l1_section_desc_means pa prot mt j :
  desc_type (l1_section_desc pa prot mt) = DESC_SECTION ∧
  section_pte (l1_section_desc pa prot mt) j = pte_of (Z.land pa L1_SECTION_BASE_MASK + PAGE_SIZE * j) prot mt.
Proof.
  destruct (l1_section_desc_low pa prot mt) as (low & -> & Hr & Ht & Hp). split; [by rewrite desc_type_lor|].
  rewrite section_pte_lor by done. by rewrite Hp.
Qed.

(** Descriptors that point to a table. *)
Lemma land_base x k w : 0 ≤ k ≤ w → 0 ≤ x < 2 ^ w → x mod 2 ^ k = 0 → Z.land x (2 ^ w - 2 ^ k) = x.
Proof.
  intros Hk Hx Hm. apply Z.bits_inj'. intros n Hn. rewrite Z.land_spec.
  destruct (decide (n < k)) as [Hnk|Hnk].
  { rewrite <- (Z.mod_pow2_bits_low x k n), Hm, Z.bits_0 by lia. done. }
  destruct (decide (n < w)) as [Hnw|Hnw]; [|by rewrite (testbit_high w x n) by lia].
  replace (2 ^ w - 2 ^ k) with (Z.ones (w - k) * 2 ^ k).
  - rewrite Z.mul_pow2_bits by lia. rewrite Z.ones_spec_low by lia. apply andb_true_r.
  - rewrite Z.ones_equiv. replace (2 ^ w) with (2 ^ (w - k) * 2 ^ k); [lia|]. rewrite <- Z.pow_add_r by lia. f_equal. lia.
Qed.
Lemma MakeL1Pte_means t :
  0 < t < 2 ^ 32 → t mod L2_TABLE_SIZE = 0 →
  desc_type (ArchMmuMakeL1Pte t) = DESC_L2 ∧ l2_base (ArchMmuMakeL1Pte t) = t ∧ 0 ≤ ArchMmuMakeL1Pte t < 2 ^ 32.
Proof.
  intros Ht Hm. unfold ArchMmuMakeL1Pte. rewrite (proj2 (Z.eqb_neq t 0)) by lia.
  assert (Z.land t L1_L2PTR_BASE_MASK = t) as Hb by exact (land_base t 10 32 ltac:(lia) ltac:(lia) Hm).
  split; [by rewrite desc_type_lor|]. split; [unfold l2_base; by rewrite land_lor_low|].
  apply lor_range; [lia|apply land_range; lia|done].
Qed.

(** Breaking a section keeps what each of its pages translates to. *)
Lemma section_attrs_range e : 0 ≤ section_attrs e < 2 ^ 12.
Proof.
  assert (∀ x w k, 0 ≤ w → 0 ≤ k → w + k ≤ 12 → 0 ≤ Z.shiftl (Z.land x (Z.ones w)) k < 2 ^ 12) as H.
  { intros x w k Hw Hk Hwk. rewrite Z.land_ones, Z.shiftl_mul_pow2 by lia.
    pose proof (Z.mod_pos_bound x (2 ^ w) ltac:(lia)). assert (2 ^ w * 2 ^ k ≤ 2 ^ 12).
    { rewrite <- Z.pow_add_r by lia. apply Z.pow_le_mono_r; lia. }
    nia. }
  unfold section_attrs. repeat apply lor_range; try lia.
  - exact (H _ 1 0 ltac:(lia) ltac:(lia) ltac:(lia)).
  - exact (H _ 2 2 ltac:(lia) ltac:(lia) ltac:(lia)).
  - exact (H _ 2 4 ltac:(lia) ltac:(lia) ltac:(lia)).
  - exact (H _ 3 6 ltac:(lia) ltac:(lia) ltac:(lia)).
  - exact (H _ 1 10 ltac:(lia) ltac:(lia) ltac:(lia)).
  - exact (H _ 1 9 ltac:(lia) ltac:(lia) ltac:(lia)).
  - exact (H _ 1 11 ltac:(lia) ltac:(lia) ltac:(lia)).
Qed.
(** Bit [n] of the field of [w] bits at [p], moved to [k]. *)
Lemma field_bit e p w k n :
  0 ≤ p → 0 ≤ w → 0 ≤ k → 0 ≤ n →
  Z.testbit (Z.shiftl (Z.land (Z.shiftr e p) (Z.ones w)) k) n =
  if (k <=? n) && (n <? k + w) then Z.testbit e (n - k + p) else false.
Proof.
  intros Hp Hw Hk Hn. rewrite Z.shiftl_spec by lia. destruct (decide (n < k)).
  { rewrite Z.testbit_neg_r by lia. destruct (Z.leb_spec k n); [lia|done]. }
  rewrite Z.land_spec, Z.shiftr_spec, Z.testbit_ones_nonneg by lia.
  destruct (Z.leb_spec k n); [|lia]. destruct (Z.ltb_spec n (k + w)), (Z.ltb_spec (n - k) w); try lia; simpl.
  - apply andb_true_r.
  - apply andb_false_r.
Qed.
Lemma section_attrs_bit e n :
  0 ≤ n < 12 →
  Z.testbit (section_attrs e) n =
    if n =? 0 then Z.testbit e 4 else if n =? 1 then false else
    if n <? 4 then Z.testbit e n else if n <? 10 then Z.testbit e (n + 6) else
    if n =? 10 then Z.testbit e 16 else if n =? 11 then Z.testbit e 17 else false.
Proof.
  intros Hn. unfold section_attrs, CB_MASK, AP_MASK, TEX_MASK.
  change 7 with (Z.ones 3). change 3 with (Z.ones 2). change 1 with (Z.ones 1) at 1 2 3 4.
  rewrite !Z.lor_spec, !field_bit by (done || lia).
  assert (n = 0 ∨ n = 1 ∨ n = 2 ∨ n = 3 ∨ n = 4 ∨ n = 5 ∨ n = 6 ∨ n = 7 ∨ n = 8 ∨ n = 9 ∨ n = 10 ∨ n = 11) as Hc by lia.
  repeat destruct Hc as [->|Hc]; try subst n; cbn -[Z.testbit]; by rewrite ?orb_false_r.
Qed.

(** The descriptor [ArchMmuBreakSection] writes for page [i]. *)
Definition broken (section i : Z) : Z :=
  Z.lor (Z.lor (Z.land (w32 (Z.land section L1_SECTION_BASE_MASK + i * PAGE_SIZE)) L2_SMALL_BASE_MASK) L2_SMALL_TAG)
        (section_attrs section).
Lemma broken_means section i :
  0 ≤ section < 2 ^ 32 → 0 ≤ i < 256 →
  Z.testbit (broken section i) 1 = true ∧ page_pte (broken section i) = section_pte section i ∧
  0 ≤ broken section i < 2 ^ 32.
Proof.
  intros Hs Hi. unfold broken. rewrite <- Z.lor_assoc. set (low := Z.lor L2_SMALL_TAG (section_attrs section)).
  pose proof (section_attrs_range section) as Ha.
  assert (0 ≤ low < 2 ^ 12) as Hl by (by apply lor_range).
  assert (∃ q, Z.land section L1_SECTION_BASE_MASK = q * 2 ^ 20 ∧ 0 ≤ q < 2 ^ 12) as (q & Hq & Hqr).
  { exists (section / 2 ^ 20). split; [|split; [apply Z.div_pos; lia|apply Z.div_lt_upper_bound; lia]].
    change L1_SECTION_BASE_MASK with (Z.ldiff (2 ^ 32 - 1) (Z.ones 20)). rewrite Z.ldiff_land, Z.land_assoc.
    change (2 ^ 32 - 1) with (Z.ones 32). rewrite Z.land_ones, Z.mod_small by lia.
    rewrite <- Z.ldiff_land, Z.ldiff_ones_r, Z.shiftr_div_pow2, Z.shiftl_mul_pow2 by lia. done. }
  assert (0 ≤ q * 2 ^ 20 + i * PAGE_SIZE < 2 ^ 32) as Hp by (unfold PAGE_SIZE; lia).
  rewrite Hq, w32_small by done.
  assert (Z.land (q * 2 ^ 20 + i * PAGE_SIZE) L2_SMALL_BASE_MASK = q * 2 ^ 20 + i * PAGE_SIZE) as Hb.
  { apply (land_base _ 12 32); [lia|done|]. unfold PAGE_SIZE. replace (q * 2 ^ 20 + i * 4096) with ((q * 2 ^ 8 + i) * 2 ^ 12) by lia.
    apply Z.mod_mul. lia. }
  split; [|split].
  - rewrite lor_base_bit by done. unfold low. by rewrite Z.lor_spec.
  - rewrite page_pte_lor by done. unfold section_pte. rewrite Hb, Hq.
    cbn [page_pte pte_xn pte_b pte_c pte_ap0 pte_ap1 pte_tex0 pte_tex1 pte_tex2 pte_ap2 pte_s pte_ng].
    unfold low. rewrite !Z.lor_spec, !section_attrs_bit by lia. cbn -[Z.testbit Z.mul Z.pow]. f_equal; try done. lia.
  - apply lor_range; [lia|apply land_range; lia|lia].
Qed.

(** Changing the protection of a descriptor changes nothing else. *)
Lemma set_prot_bit e keep low n :
  Z.testbit (Z.lor (Z.land e keep) low) n = (Z.testbit e n && Z.testbit keep n) || Z.testbit low n.
Proof. by rewrite Z.lor_spec, Z.land_spec. Qed.
Lemma set_prot_base e keep low mask : Z.land keep mask = mask → Z.land low mask = 0 → Z.land (Z.lor (Z.land e keep) low) mask = Z.land e mask.
Proof. intros Hk Hl. by rewrite Z.land_lor_distr_l, <- Z.land_assoc, Hk, Hl, Z.lor_0_r. Qed.
Lemma l2_page_set_prot_means e prot :
  0 ≤ e < 2 ^ 32 →
  page_pte (l2_page_set_prot e prot) = with_prot prot (page_pte e) ∧
  Z.testbit (l2_page_set_prot e prot) 1 = Z.testbit e 1 ∧ 0 ≤ l2_page_set_prot e prot < 2 ^ 32.
Proof.
  intros He. unfold l2_page_set_prot, ap_bits. rewrite prot_write, prot_exec, prot_user. unfold with_prot.
  destruct (Z.testbit prot 3), (Z.testbit prot 1), (Z.testbit prot 2); cbn [negb orb]; rewrite <- ?Z.lor_assoc;
    (split; [|split; [rewrite set_prot_bit; cbn -[Z.testbit]; by rewrite andb_true_r, orb_false_r|
              apply lor_range; [lia|by apply land_range|done]]]);
    unfold page_pte; rewrite set_prot_base, !set_prot_bit by done;
    cbn -[Z.testbit]; by rewrite ?andb_true_r, ?andb_false_r, ?orb_false_r, ?orb_true_r.
Qed.
Lemma l1_section_set_prot_means e prot j :
  0 ≤ e < 2 ^ 32 →
  section_pte (l1_section_set_prot e prot) j = with_prot prot (section_pte e j) ∧
  desc_type (l1_section_set_prot e prot) = desc_type e ∧ 0 ≤ l1_section_set_prot e prot < 2 ^ 32.
Proof.
  intros He. unfold l1_section_set_prot, ap_bits. rewrite prot_write, prot_exec, prot_user. unfold with_prot.
  destruct (Z.testbit prot 3), (Z.testbit prot 1), (Z.testbit prot 2); cbn [negb orb]; rewrite <- ?Z.lor_assoc;
    (split; [|split; [unfold desc_type; by rewrite set_prot_base|
              apply lor_range; [lia|by apply land_range|done]]]);
    unfold section_pte; rewrite set_prot_base, !set_prot_bit by done;
    cbn -[Z.testbit Z.mul]; by rewrite ?andb_true_r, ?andb_false_r, ?orb_false_r, ?orb_true_r.
Qed.
