(* ===== verification/MmuInv.v ===== *)
(** The invariant of the translation tables of all spaces, and what the operations of
    [Mmu] do to the translations.

    [mmu_ok] says that the pages of the root tables, of the pool of L2 tables and of the
    free list are all different, and that every L1 entry that points to an L2 table points
    to an allocated one that no other entry of any space points to. *)
From stdpp Require Import sorting.
From S2P Require Import Prelude Region Asid Mmu.

#[local] Open Scope Z_scope.

(** A space's root table: its address and the number of its entries. *)
Definition root_pages (r : Z * Z) : list Z := (λ k, r.1 + PAGE_SIZE * k) <$> seqZ 0 (r.2 / 1024).
Definition all_pages (roots : list (Z * Z)) (s : mst) : list Z :=
  mjoin (root_pages <$> roots) ++ (page_pa <$> pool s) ++ frames s.

(** [t] is an L2 table the pool has handed out. *)
Definition allocated (pl : list L2PtPoolEntry) (t : Z) : Prop :=
  ∃ e k, e ∈ pl ∧ 0 ≤ k < 4 ∧ Z.testbit (used_mask e) k = true ∧ t = page_pa e + L2_TABLE_SIZE * k.
Definition entry (s : mst) (r : Z * Z) (i : Z) : Z := words s (r.1 + 4 * i).
Definition valid (roots : list (Z * Z)) (r : Z * Z) (i : Z) : Prop := r ∈ roots ∧ 0 ≤ i < r.2.

Definition page_of (a : Z) : Z := a - a mod PAGE_SIZE.

(** The pages the tables may use, and the contents of the rest of the memory: the
    operations neither take other pages nor write anywhere else. *)
Class universe := mkUniverse { u_pages : list Z; u_words : Z → Z }.

Record mmu_ok {U : universe} (roots : list (Z * Z)) (s : mst) : Prop := {
  mo_nodup : NoDup (all_pages roots s);
  mo_align p : p ∈ all_pages roots s → p mod PAGE_SIZE = 0 ∧ 0 < p < 2 ^ 32;
  mo_roots r : r ∈ roots → r.2 = 2048 ∨ r.2 = 4096;
  mo_masks e : e ∈ pool s → 0 < used_mask e < 16;
  mo_words a : 0 ≤ words s a < 2 ^ 32;
  mo_type r i : valid roots r i → desc_type (entry s r i) ≠ DESC_SUPERSECTION;
  mo_table r i : valid roots r i → desc_type (entry s r i) = DESC_L2 → allocated (pool s) (l2_base (entry s r i));
  mo_own r i r' i' :
    valid roots r i → valid roots r' i' → desc_type (entry s r i) = DESC_L2 → desc_type (entry s r' i') = DESC_L2 →
    l2_base (entry s r i) = l2_base (entry s r' i') → r = r' ∧ i = i';
  mo_pages : all_pages roots s ≡ₚ u_pages;
  mo_outside a : page_of a ∉ u_pages → words s a = u_words a
}.

(** ** Where words live *)

Lemma page_of_at p o : p mod PAGE_SIZE = 0 → 0 ≤ o < PAGE_SIZE → page_of (p + o) = p.
Proof. intros Hp Ho. unfold page_of, PAGE_SIZE in *. Z.div_mod_to_equations. lia. Qed.

Lemma NoDup_join_inj {A B} (f : A → list B) l x a b :
  NoDup (mjoin (f <$> l)) → a ∈ l → b ∈ l → x ∈ f a → x ∈ f b → a = b.
Proof.
  induction l as [|c l IH]; simpl; [by intros _ ?%elem_of_nil|].
  intros (Hc & Hd & Hl)%NoDup_app Ha Hb Hxa Hxb.
  assert (∀ d, d ∈ l → x ∈ f d → x ∉ f c) as Hx.
  { intros d Hdl Hxd Hxc. apply (Hd x Hxc). apply list_elem_of_join. exists (f d). split; [done|]. by apply list_elem_of_fmap_2. }
  apply elem_of_cons in Ha as [->|Ha], Hb as [->|Hb]; [done|by destruct (Hx b)|by destruct (Hx a)|by apply IH].
Qed.

Section facts.
Context {U : universe} (roots : list (Z * Z)) (s : mst) (Hok : mmu_ok roots s).

Lemma root_page r i : valid roots r i → page_of (r.1 + 4 * i) = r.1 + PAGE_SIZE * (i / 1024) ∧ r.1 + PAGE_SIZE * (i / 1024) ∈ root_pages r.
Proof.
  intros [Hr Hi]. assert (r.1 + PAGE_SIZE * (i / 1024) ∈ root_pages r) as Hin.
  { apply list_elem_of_fmap. exists (i / 1024). split; [done|]. apply elem_of_seqZ. destruct (mo_roots _ _ Hok r Hr) as [E|E]; rewrite E in *;
      Z.div_mod_to_equations; lia. }
  split; [|done]. replace (r.1 + 4 * i) with (r.1 + PAGE_SIZE * (i / 1024) + 4 * (i mod 1024))
    by (unfold PAGE_SIZE; Z.div_mod_to_equations; lia).
  apply page_of_at; [|unfold PAGE_SIZE; Z.div_mod_to_equations; lia].
  apply (mo_align _ _ Hok). apply elem_of_app. left. apply list_elem_of_join. exists (root_pages r). split; [done|]. by apply list_elem_of_fmap_2.
Qed.
Lemma root_page_in r i : valid roots r i → page_of (r.1 + 4 * i) ∈ mjoin (root_pages <$> roots).
Proof.
  intros Hv. destruct (root_page r i Hv) as [-> Hin]. apply list_elem_of_join. exists (root_pages r). split; [done|].
  apply list_elem_of_fmap_2, Hv.
Qed.

Lemma pool_page e : e ∈ pool s → page_pa e mod PAGE_SIZE = 0 ∧ 0 < page_pa e < 2 ^ 32 ∧ page_pa e ∈ page_pa <$> pool s.
Proof.
  intros He. assert (page_pa e ∈ page_pa <$> pool s) as Hin by (by apply list_elem_of_fmap_2).
  destruct (mo_align _ _ Hok (page_pa e)) as [??]; [|done]. apply elem_of_app. right. apply elem_of_app. by left.
Qed.
Lemma table_page t j : allocated (pool s) t → 0 ≤ j < 256 → page_of (t + 4 * j) ∈ page_pa <$> pool s.
Proof.
  intros (e & k & He & Hk & _ & ->) Hj. destruct (pool_page e He) as (Ha & _ & Hin). unfold L2_TABLE_SIZE.
  replace (page_pa e + 1024 * k + 4 * j) with (page_pa e + (1024 * k + 4 * j)) by lia.
  rewrite page_of_at; [done..|unfold PAGE_SIZE; lia].
Qed.

(** Words of root tables and of L2 tables are different words. *)
Lemma sep_l1 r i r' i' : valid roots r i → valid roots r' i' → r.1 + 4 * i = r'.1 + 4 * i' → r = r' ∧ i = i'.
Proof.
  intros Hv Hv' He. destruct (root_page r i Hv) as [Hp Hin], (root_page r' i' Hv') as [Hp' Hin'].
  rewrite He, Hp' in Hp. rewrite <- Hp in Hin. pose proof (mo_nodup _ _ Hok) as Hnd. apply NoDup_app in Hnd as (Hnd & _).
  assert (r = r') as -> by (by eapply (NoDup_join_inj root_pages roots); [| apply Hv | apply Hv' | |]).
  split; [done|lia].
Qed.
Lemma sep_l1_l2 r i t j : valid roots r i → allocated (pool s) t → 0 ≤ j < 256 → r.1 + 4 * i ≠ t + 4 * j.
Proof.
  intros Hv Ht Hj He. pose proof (mo_nodup _ _ Hok) as Hnd. apply NoDup_app in Hnd as (_ & Hd & _).
  apply (Hd _ (root_page_in r i Hv)). rewrite He. apply elem_of_app. left. by apply table_page.
Qed.
Lemma pool_inj e e' : e ∈ pool s → e' ∈ pool s → page_pa e = page_pa e' → e = e'.
Proof.
  intros He He' Hp. pose proof (mo_nodup _ _ Hok) as Hnd. apply NoDup_app in Hnd as (_ & _ & Hnd). apply NoDup_app in Hnd as (Hnd & _).
  apply list_elem_of_lookup in He as [i Hi], He' as [i' Hi'].
  assert (i = i') as ->; [|congruence]. eapply (NoDup_lookup _ _ _ _ Hnd); rewrite list_lookup_fmap; [by rewrite Hi|].
  rewrite Hi'. simpl. congruence.
Qed.
Lemma sep_l2 t j t' j' : allocated (pool s) t → allocated (pool s) t' → 0 ≤ j < 256 → 0 ≤ j' < 256 →
  t + 4 * j = t' + 4 * j' → t = t' ∧ j = j'.
Proof.
  intros (e & k & He & Hk & _ & ->) (e' & k' & He' & Hk' & _ & ->) Hj Hj' Heq. unfold L2_TABLE_SIZE in *.
  destruct (pool_page e He) as (Ha & _), (pool_page e' He') as (Ha' & _). unfold PAGE_SIZE in *.
  assert (page_pa e = page_pa e') by (Z.div_mod_to_equations; lia). lia.
Qed.
Lemma allocated_range t : allocated (pool s) t → 0 < t < 2 ^ 32 ∧ t mod L2_TABLE_SIZE = 0.
Proof.
  intros (e & k & He & Hk & _ & ->). destruct (pool_page e He) as (Ha & Hr & _). unfold L2_TABLE_SIZE, PAGE_SIZE in *.
  Z.div_mod_to_equations. lia.
Qed.
End facts.

(** * The pool of L2 tables *)

Lemma pool_slot_spec n k0 mask k :
  0 ≤ k0 → pool_slot n k0 mask = Some k → k0 ≤ k < k0 + Z.of_nat n ∧ Z.testbit mask k = false.
Proof.
  revert k0. induction n as [|n IH]; intros k0 Hk0; simpl; [done|].
  change (Z.shiftl 1 k0) with (bit k0). rewrite land_bit_truthy by done.
  destruct (Z.testbit mask k0) eqn:E.
  - intros H. apply IH in H as [? ?]; [|lia]. split; [lia|done].
  - intros [= <-]. split; [lia|done].
Qed.

#[local] Arguments pool_slot : simpl never.


Lemma pool_take_spec l pa l' :
  (∀ e, e ∈ l → 0 < used_mask e < 16 ∧ page_pa e mod PAGE_SIZE = 0 ∧ 0 < page_pa e < 2 ^ 32) →
  pool_take l = Some (pa, l') →
  ∃ l1 e l2 k, l = l1 ++ e :: l2 ∧ 0 ≤ k < 4 ∧ Z.testbit (used_mask e) k = false ∧
    pa = page_pa e + L2_TABLE_SIZE * k ∧ l' = l1 ++ mkPool (page_pa e) (Z.lor (used_mask e) (bit k)) :: l2.
Proof.
  revert l'. induction l as [|e l IH]; intros l' Hl; simpl; [done|].
  assert (∀ l', match pool_take l with Some (pa0, r) => Some (pa0, e :: r) | None => None end = Some (pa, l') →
    ∃ l1 e0 l2 k, e :: l = l1 ++ e0 :: l2 ∧ 0 ≤ k < 4 ∧ Z.testbit (used_mask e0) k = false ∧
      pa = page_pa e0 + L2_TABLE_SIZE * k ∧ l' = l1 ++ mkPool (page_pa e0) (Z.lor (used_mask e0) (bit k)) :: l2) as Hskip.
  { intros l'' H. destruct (pool_take l) as [[pa0 r]|]; [|done]. injection H as -> <-.
    destruct (IH r) as (l1 & e0 & l2 & k & -> & Hk & Hb & Hp & ->); [intros; apply Hl; by right|done|].
    exists (e :: l1), e0, l2, k. do 3 (split; [done|]). by split. }
  case_if E; [apply Hskip|]. destruct (pool_slot _ _ _) as [k|] eqn:Es; [|apply Hskip]. intros [= <- <-].
  apply pool_slot_spec in Es as [Hk Hb]; [|lia]. destruct (Hl e) as (Hm & Ha & Hr); [by left|].
  change (Z.of_nat (Z.to_nat L2_PER_PAGE)) with 4 in Hk. unfold L2_TABLE_SIZE, PAGE_SIZE in *.
  exists [], e, l, k. do 3 (split; [done|]). split.
  - rewrite w32_small; [lia|]. Z.div_mod_to_equations. lia.
  - simpl. do 2 f_equal. change (Z.shiftl 1 k) with (bit k). apply w8_small.
    apply (lor_range 8); [lia|lia|]. apply bit_range. lia.
Qed.

(** A table fresh from the pool: zeroed, not in use before, and nothing else changed. *)
Record fresh_table {U : universe} (roots : list (Z * Z)) (s : mst) (t : Z) (s' : mst) : Prop := {
  ft_ok : mmu_ok roots s';
  ft_alloc : allocated (pool s') t;
  ft_new : ¬ allocated (pool s) t;
  ft_keep t' : allocated (pool s) t' → allocated (pool s') t';
  ft_zero j : 0 ≤ j < 256 → words s' (t + 4 * j) = 0;
  ft_frame a : page_of a ∉ (page_pa <$> pool s) ++ frames s → words s' a = words s a;
  ft_l2 t' j : allocated (pool s) t' → 0 ≤ j < 256 → words s' (t' + 4 * j) = words s (t' + 4 * j)
}.

Lemma page_of_range p a : p mod PAGE_SIZE = 0 → p ≤ a < p + PAGE_SIZE → page_of a = p.
Proof. intros Hp Ha. replace a with (p + (a - p)) by lia. apply page_of_at; [done|lia]. Qed.

Lemma zero_range_in a n f x : a ≤ x < a + n → zero_range a n f x = 0.
Proof. intros H. unfold zero_range. destruct (Z.leb_spec a x), (Z.ltb_spec x (a + n)); simpl; lia. Qed.
Lemma zero_range_out a n f x : ¬ (a ≤ x < a + n) → zero_range a n f x = f x.
Proof. intros H. unfold zero_range. destruct (Z.leb_spec a x), (Z.ltb_spec x (a + n)); simpl; lia. Qed.

(** Zeroing memory that no table uses keeps the invariant. *)
Lemma mmu_ok_zero {U : universe} roots s s' a n :
  mmu_ok roots s → all_pages roots s' ≡ₚ all_pages roots s →
  (∀ e, e ∈ pool s' → 0 < used_mask e < 16) →
  (∀ t, allocated (pool s) t → allocated (pool s') t) →
  words s' = zero_range a n (words s) →
  (∀ r i, valid roots r i → ¬ (a ≤ r.1 + 4 * i < a + n)) →
  (∀ x, a ≤ x < a + n → page_of x ∈ all_pages roots s) →
  mmu_ok roots s'.
Proof.
  intros [Hnd Hal Hro Hma Hwo Hty Hta Hown Hpg Hout] Hp Hm Hk Hw Hr Hin.
  assert (∀ r i, valid roots r i → entry s' r i = entry s r i) as He.
  { intros r i Hv. unfold entry. rewrite Hw. unfold zero_range. destruct (_ && _) eqn:E; [|done].
    apply andb_true_iff in E as [??]. exfalso. apply (Hr r i Hv). lia. }
  split.
  - by rewrite Hp.
  - intros p. rewrite Hp. apply Hal.
  - done.
  - done.
  - intros x. rewrite Hw. unfold zero_range. case_if E; [lia|apply Hwo].
  - intros r i Hv. rewrite He by done. by apply Hty.
  - intros r i Hv. rewrite He by done. intros. by apply Hk, Hta.
  - intros r i r' i' Hv Hv'. rewrite !He by done. by apply Hown.
  - by rewrite Hp.
  - intros x Hx. rewrite Hw, zero_range_out; [by apply Hout|]. intros H. apply Hx. rewrite <- Hpg. by apply Hin.
Qed.

(** Marking a free slot of a page of the pool. *)
Lemma allocated_take l1 e l2 k t :
  0 ≤ k < 4 → 0 < used_mask e < 16 →
  allocated (l1 ++ mkPool (page_pa e) (Z.lor (used_mask e) (bit k)) :: l2) t ↔
  allocated (l1 ++ e :: l2) t ∨ t = page_pa e + L2_TABLE_SIZE * k.
Proof.
  intros Hk Hm. assert (∀ j, Z.testbit (Z.lor (used_mask e) (bit k)) j = true ↔ Z.testbit (used_mask e) j = true ∨ j = k) as Hbit.
  { intros j. rewrite Z.lor_spec, bit_spec, orb_true_iff, bool_decide_eq_true by lia. naive_solver. }
  split.
  - intros (e0 & j & He & Hj & Hb & ->). apply elem_of_app in He as [He|[->|He]%elem_of_cons].
    + left. exists e0, j. split; [apply elem_of_app; by left|done].
    + simpl in *. apply Hbit in Hb as [Hb| ->]; [left|by right]. exists e, j. split; [apply elem_of_app; right; by left|done].
    + left. exists e0, j. split; [apply elem_of_app; right; by right|done].
  - intros [(e0 & j & He & Hj & Hb & ->)| ->].
    + apply elem_of_app in He as [He|[->|He]%elem_of_cons].
      * exists e0, j. split; [apply elem_of_app; by left|done].
      * eexists _, j. split; [apply elem_of_app; right; by left|]. simpl. do 2 (split; [try done|]); [|done]. apply Hbit. by left.
      * exists e0, j. split; [apply elem_of_app; right; by right|done].
    + eexists _, k. split; [apply elem_of_app; right; by left|]. simpl. do 2 (split; [try done|]); [|done]. apply Hbit. by right.
Qed.


Section pool_alloc.
Context {U : universe} (roots : list (Z * Z)) (s : mst) (Hok : mmu_ok roots s).

Lemma take_fresh t l' :
  pool_take (pool s) = Some (t, l') → t ≠ 0 ∧ fresh_table roots s t (set_words (zero_range t L2_TABLE_SIZE (words s)) (set_pool l' s)).
Proof.
  intros Ht. apply pool_take_spec in Ht as (l1 & e & l2 & k & Hp & Hk & Hb & -> & ->).
  2: { intros e He. destruct (pool_page roots s Hok e He) as (? & ? & _). split; [by apply (mo_masks _ _ Hok)|done]. }
  assert (e ∈ pool s) as He by (rewrite Hp; apply elem_of_app; right; by left).
  destruct (pool_page roots s Hok e He) as (Ha & Hr & Hin). pose proof (mo_masks _ _ Hok e He) as Hm.
  set (t := page_pa e + L2_TABLE_SIZE * k). set (s' := set_words _ _).
  assert (∀ x, t ≤ x < t + L2_TABLE_SIZE → page_of x = page_pa e) as Hpg.
  { intros x Hx. apply page_of_range; [done|]. unfold t, L2_TABLE_SIZE, PAGE_SIZE in *. lia. }
  assert (∀ t', allocated (pool s') t' ↔ allocated (pool s) t' ∨ t' = t) as Hall.
  { intros t'. rewrite Hp. by apply allocated_take. }
  assert (¬ allocated (pool s) t) as Hnew.
  { intros (e' & k' & He' & Hk' & Hb' & Heq). destruct (pool_page roots s Hok e' He') as (Ha' & _).
    assert (page_pa e = page_pa e') by (unfold t, L2_TABLE_SIZE, PAGE_SIZE in *; Z.div_mod_to_equations; lia).
    rewrite <- (pool_inj roots s Hok e e' He He') in Hb' by done.
    assert (k = k') by (unfold t, L2_TABLE_SIZE in *; lia). congruence. }
  split; [unfold t, L2_TABLE_SIZE; lia|]. split.
  - apply (mmu_ok_zero roots s s' t L2_TABLE_SIZE Hok).
    + unfold all_pages. simpl. rewrite Hp, !fmap_app, !fmap_cons. done.
    + intros e' [He'|[->|He']%elem_of_cons]%elem_of_app; simpl.
      * apply (mo_masks _ _ Hok). rewrite Hp. apply elem_of_app. by left.
      * split; [|apply (lor_range 4); [lia|lia|apply bit_range; lia]].
        pose proof (lor_range 4 (used_mask e) (bit k) ltac:(lia) ltac:(lia) (bit_range 4 k Hk)).
        destruct (decide (Z.lor (used_mask e) (bit k) = 0)) as [E|]; [|lia]. apply Z.lor_eq_0_iff in E. lia.
      * apply (mo_masks _ _ Hok). rewrite Hp. apply elem_of_app. right. by right.
    + intros t' Ht'. apply Hall. by left.
    + done.
    + intros r i Hv Hx. pose proof (mo_nodup _ _ Hok) as Hnd. apply NoDup_app in Hnd as (_ & Hd & _).
      apply (Hd _ (root_page_in roots s Hok r i Hv)). rewrite Hpg by done. apply elem_of_app. by left.
    + intros x Hx. rewrite Hpg by done. apply elem_of_app. right. apply elem_of_app. by left.
  - apply Hall. by right.
  - done.
  - intros t' Ht'. apply Hall. by left.
  - intros j Hj. apply zero_range_in. unfold L2_TABLE_SIZE. lia.
  - intros a Hna. apply zero_range_out. intros Hx. apply Hna. rewrite Hpg by done. apply elem_of_app. by left.
  - intros t' j Ht' Hj. apply zero_range_out. intros Hx. apply Hnew.
    assert (t = t') as ->; [|done]. destruct Ht' as (e' & k' & He' & Hk' & _ & ->).
    destruct (pool_page roots s Hok e' He') as (Ha' & _). unfold t, L2_TABLE_SIZE, PAGE_SIZE in *. Z.div_mod_to_equations. lia.
Qed.

Lemma page_fresh p fs sl :
  frames s = p :: fs →
  p ≠ 0 ∧ fresh_table roots s p (set_pool (mkPool p 1 :: pool s) (set_words (zero_range p PAGE_SIZE (words s)) (set_slab sl (set_frames fs s)))).
Proof.
  intros Hf. set (s' := set_pool _ _).
  assert (all_pages roots s' ≡ₚ all_pages roots s) as Hperm.
  { unfold all_pages. simpl. rewrite Hf. apply Permutation_app_head. by rewrite Permutation_middle. }
  assert (p ∈ all_pages roots s) as Hin.
  { unfold all_pages. rewrite Hf, !elem_of_app. right. right. by left. }
  destruct (mo_align _ _ Hok p Hin) as [Ha Hr].
  pose proof (mo_nodup _ _ Hok) as Hnd. unfold all_pages in Hnd. rewrite Hf in Hnd. apply NoDup_app in Hnd as (_ & Hd1 & Hnd).
  apply NoDup_app in Hnd as (_ & Hd2 & Hnd).
  assert (∀ a, page_of a ≠ p → ¬ (p ≤ a < p + PAGE_SIZE)) as Hout.
  { intros a Hp Hx. apply Hp. by apply page_of_range. }
  assert (∀ t j, allocated (pool s) t → 0 ≤ j < 256 → page_of (t + 4 * j) ≠ p) as Htab.
  { intros t j Ht Hj Heq. apply (Hd2 _ (table_page roots s Hok t j Ht Hj)). rewrite Heq. by left. }
  split; [lia|]. split.
  - apply (mmu_ok_zero roots s s' p PAGE_SIZE Hok Hperm).
    + intros e [->|He]%elem_of_cons; [simpl; lia|by apply (mo_masks _ _ Hok)].
    + intros t (e & k & He & H). exists e, k. split; [by right|done].
    + done.
    + intros r i Hv. apply Hout. intros Heq. apply (Hd1 _ (root_page_in roots s Hok r i Hv)). rewrite Heq.
      apply elem_of_app. right. by left.
    + intros x Hx. by rewrite (page_of_range p).
  - exists (mkPool p 1), 0. split; [by left|]. split; [lia|]. split; [done|]. unfold L2_TABLE_SIZE. simpl. lia.
  - intros Hal. apply (Htab p 0 Hal); [lia|]. rewrite Z.mul_0_r, Z.add_0_r. apply page_of_range; [done|unfold PAGE_SIZE; lia].
  - intros t (e & k & He & H). exists e, k. split; [by right|done].
  - intros j Hj. apply zero_range_in. unfold PAGE_SIZE. lia.
  - intros a Hna. apply zero_range_out, Hout. intros Heq. apply Hna. rewrite Heq, Hf, elem_of_app. right. by left.
  - intros t j Ht Hj. apply zero_range_out, Hout. by apply Htab.
Qed.

Lemma wp_L2PtPoolAlloc Q :
  (∀ sl, Q 0 (set_slab sl s)) → (∀ t s', t ≠ 0 → fresh_table roots s t s' → Q t s') → wp L2PtPoolAlloc Q s.
Proof.
  intros Hnone Hsome. unfold L2PtPoolAlloc, PmmAllocFrame_m, slab_alloc, PmmFreeFrame_m, bzero. wp_step. wp_step.
  destruct (pool_take (pool s)) as [[t l']|] eqn:Et.
  { apply take_fresh in Et as [Ht0 Hft]. do 4 wp_step. wp_step. by apply Hsome. }
  wp_step. wp_step. wp_step. destruct (frames s) as [|p fs] eqn:Ef.
  { wp_step. simpl. wp_step. specialize (Hnone (slab s)). by destruct s. }
  do 3 wp_step. destruct (Z.eqb_spec p 0) as [->|Hp].
  { exfalso. destruct (mo_align _ _ Hok 0) as [_ ?]; [|lia]. unfold all_pages. rewrite Ef, !elem_of_app. right. right. by left. }
  wp_step. wp_step. wp_step. simpl. destruct (slab s) as [|[] sl] eqn:Esl.
  - wp_step. simpl. do 2 wp_step. wp_step. specialize (Hnone []). simpl. rewrite <- Ef.
    replace (set_frames _ _) with (set_slab [] s); [done|]. destruct s. simpl in *. by subst.
  - do 3 wp_step. simpl. do 4 wp_step. wp_step. destruct (page_fresh p fs sl Ef) as [_ Hft]. by apply Hsome.
  - do 3 wp_step. simpl. do 2 wp_step. wp_step. specialize (Hnone sl). simpl. rewrite <- Ef.
    replace (set_frames _ _) with (set_slab sl s); [done|]. destruct s. simpl in *. by subst.
Qed.
End pool_alloc.

(** * Translations *)

Lemma upd_eq f a v : upd f a v a = v.
Proof. unfold upd. by rewrite Z.eqb_refl. Qed.
Lemma upd_ne f a v x : x ≠ a → upd f a v x = f x.
Proof. intros H. unfold upd. by rewrite (proj2 (Z.eqb_neq x a) H). Qed.

(** The translation of page [j] of megabyte [i] of a space. *)
Definition tr (s : mst) (r : Z * Z) (i j : Z) : option pte := walk (words s) r.1 i j.
(** [s'] translates as [s] does, but for what [f] says of some pages. *)
Definition tr_upd (roots : list (Z * Z)) (s s' : mst) (f : Z * Z → Z → Z → option pte → option pte) : Prop :=
  ∀ r i j, valid roots r i → 0 ≤ j < 256 → tr s' r i j = f r i j (tr s r i j).
Definition tr_same (roots : list (Z * Z)) (s s' : mst) : Prop := tr_upd roots s s' (λ _ _ _ p, p).
(** Replacing one translation. *)
Definition set_tr (r0 : Z * Z) (i0 j0 : Z) (p0 : option pte) (r : Z * Z) (i j : Z) (p : option pte) : option pte :=
  if decide (r = r0 ∧ i = i0 ∧ j = j0) then p0 else p.

(** Translations only read the L1 entry and the L2 entry it leads to. *)
Lemma tr_ext s s' r i j :
  entry s' r i = entry s r i →
  (desc_type (entry s r i) = DESC_L2 → words s' (l2_base (entry s r i) + 4 * j) = words s (l2_base (entry s r i) + 4 * j)) →
  tr s' r i j = tr s r i j.
Proof.
  intros He Hw. unfold tr, walk. unfold entry in *. rewrite He.
  case_if E; [done|]. case_if E1; [|done]. by rewrite Hw.
Qed.

Section writes.
Context {U : universe} (roots : list (Z * Z)) (s : mst) (Hok : mmu_ok roots s).

Lemma fresh_entry t s' r i : fresh_table roots s t s' → valid roots r i → entry s' r i = entry s r i.
Proof.
  intros Hft Hv. apply (ft_frame _ _ _ _ Hft). intros Hin. pose proof (mo_nodup _ _ Hok) as Hnd.
  apply NoDup_app in Hnd as (_ & Hd & _). apply (Hd _ (root_page_in roots s Hok r i Hv) Hin).
Qed.
Lemma fresh_tr t s' : fresh_table roots s t s' → tr_same roots s s'.
Proof.
  intros Hft r i j Hv Hj. apply tr_ext; [by apply (fresh_entry t)|]. intros Ht.
  apply (ft_l2 _ _ _ _ Hft); [by apply (mo_table _ _ Hok)|done].
Qed.
Lemma fresh_unowned t s' r i :
  fresh_table roots s t s' → valid roots r i → desc_type (entry s' r i) = DESC_L2 → l2_base (entry s' r i) ≠ t.
Proof.
  intros Hft Hv Ht Hb. rewrite (fresh_entry t s' r i Hft Hv) in Ht, Hb. apply (ft_new _ _ _ _ Hft).
  rewrite <- Hb. by apply (mo_table _ _ Hok).
Qed.

(** Writing an entry of an L2 table. *)
Lemma write_l2 r i j v :
  valid roots r i → desc_type (entry s r i) = DESC_L2 → 0 ≤ j < 256 → 0 ≤ v < 2 ^ 32 →
  let s' := set_words (upd (words s) (l2_base (entry s r i) + 4 * j) v) s in
  mmu_ok roots s' ∧ (∀ r' i', valid roots r' i' → entry s' r' i' = entry s r' i') ∧
  tr_upd roots s s' (set_tr r i j (if Z.testbit v 1 then Some (page_pte v) else None)).
Proof.
  intros Hv Ht Hj Hr s'. pose proof (mo_table _ _ Hok r i Hv Ht) as Hal.
  assert (∀ r' i', valid roots r' i' → entry s' r' i' = entry s r' i') as He.
  { intros r' i' Hv'. unfold entry, s'. simpl. apply upd_ne. by apply (sep_l1_l2 roots s Hok). }
  split_and!; [|done|].
  - pose proof (table_page roots s Hok _ j Hal Hj) as Hpage.
    destruct Hok as [Hnd Hali Hro Hma Hwo Hty Hta Hown Hpg Hout]. split; try done.
    + intros a. unfold s'. simpl. unfold upd. case_if E; [done|apply Hwo].
    + intros r' i' Hv'. rewrite He by done. by apply Hty.
    + intros r' i' Hv'. rewrite He by done. by apply Hta.
    + intros r1 i1 r2 i2 Hv1 Hv2. rewrite !He by done. by apply Hown.
    + intros a Ha. unfold s'. simpl. rewrite upd_ne; [by apply Hout|]. intros ->. apply Ha. rewrite <- Hpg.
      apply elem_of_app. right. apply elem_of_app. by left.
  - intros r' i' j' Hv' Hj'. unfold set_tr. case_decide as Hc.
    + destruct Hc as (-> & -> & ->). unfold tr, walk. fold (entry s' r i). rewrite He by done. rewrite Ht. simpl.
      by rewrite upd_eq.
    + apply tr_ext; [by apply He|]. intros Ht'. unfold s'. simpl. apply upd_ne. intros Heq. apply Hc.
      destruct (sep_l2 roots s Hok _ _ _ _ (mo_table _ _ Hok r' i' Hv' Ht') Hal Hj' Hj Heq) as [Hb ->].
      by destruct (mo_own _ _ Hok r' i' r i Hv' Hv Ht' Ht Hb) as [-> ->].
Qed.

(** Writing an entry of a root table. *)
Lemma write_l1 r i v :
  valid roots r i → 0 ≤ v < 2 ^ 32 → desc_type v ≠ DESC_SUPERSECTION →
  (desc_type v = DESC_L2 → allocated (pool s) (l2_base v) ∧
     ∀ r' i', valid roots r' i' → (r', i') ≠ (r, i) → desc_type (entry s r' i') = DESC_L2 → l2_base (entry s r' i') ≠ l2_base v) →
  let s' := set_words (upd (words s) (r.1 + 4 * i) v) s in
  mmu_ok roots s' ∧ entry s' r i = v ∧
  (∀ r' i' j, valid roots r' i' → (r', i') ≠ (r, i) → 0 ≤ j < 256 → tr s' r' i' j = tr s r' i' j) ∧
  (∀ a, a ≠ r.1 + 4 * i → words s' a = words s a).
Proof.
  intros Hv Hr Hst Hl2 s'.
  assert (entry s' r i = v) as Hself by (unfold entry, s'; simpl; apply upd_eq).
  assert (∀ r' i', valid roots r' i' → (r', i') ≠ (r, i) → entry s' r' i' = entry s r' i') as He.
  { intros r' i' Hv' Hne. unfold entry, s'. simpl. apply upd_ne. intros Heq. apply Hne.
    by destruct (sep_l1 roots s Hok r' i' r i Hv' Hv Heq) as [-> ->]. }
  split_and!.
  - pose proof (root_page_in roots s Hok r i Hv) as Hpage. destruct Hok as [Hnd Hali Hro Hma Hwo Hty Hta Hown Hpg Hout].
    assert (∀ r' i', valid roots r' i' → (r', i') = (r, i) ∧ entry s' r' i' = v ∨ (r', i') ≠ (r, i) ∧ entry s' r' i' = entry s r' i') as Hcase.
    { intros r' i' Hv'. destruct (decide ((r', i') = (r, i))) as [Heq|]; [left|right; auto]. split; [done|]. by injection Heq as -> ->. }
    split; try done.
    + intros a. unfold s'. simpl. unfold upd. case_if E; [done|apply Hwo].
    + intros r' i' Hv'. destruct (Hcase r' i' Hv') as [[_ ->]|[_ ->]]; [done|by apply Hty].
    + intros r' i' Hv'. destruct (Hcase r' i' Hv') as [[_ ->]|[_ ->]]; [by intros ?; apply Hl2|by apply Hta].
    + intros r1 i1 r2 i2 Hv1 Hv2. destruct (Hcase r1 i1 Hv1) as [[E1 ->]|[N1 ->]], (Hcase r2 i2 Hv2) as [[E2 ->]|[N2 ->]].
      * intros _ _ _. rewrite <- E2 in E1. by injection E1.
      * intros Ht1 Ht2 Hb. by destruct (proj2 (Hl2 Ht1) r2 i2 Hv2 N2 Ht2).
      * intros Ht1 Ht2 Hb. by destruct (proj2 (Hl2 Ht2) r1 i1 Hv1 N1 Ht1).
      * by apply Hown.
    + intros a Ha. unfold s'. simpl. rewrite upd_ne; [by apply Hout|]. intros ->. apply Ha. rewrite <- Hpg. apply elem_of_app. by left.
  - done.
  - intros r' i' j Hv' Hne Hj. apply tr_ext; [by apply He|]. intros Ht'. unfold s'. simpl. apply upd_ne.
    apply not_eq_sym. apply (sep_l1_l2 roots s Hok); [done| |done]. by apply (mo_table _ _ Hok).
  - intros a Ha. by apply upd_ne.
Qed.
End writes.

Lemma tr_same_upd roots s s1 s2 f : tr_same roots s s1 → tr_upd roots s1 s2 f → tr_upd roots s s2 f.
Proof. intros H1 H2 r i j Hv Hj. rewrite (H2 r i j) by done. by rewrite (H1 r i j). Qed.
Lemma tr_same_refl roots s : tr_same roots s s.
Proof. done. Qed.
Lemma mmu_ok_slab {U : universe} roots l s : mmu_ok roots s → mmu_ok roots (set_slab l s).
Proof. intros []. by split. Qed.
Lemma mmu_ok_tlb_ops {U : universe} roots l s : mmu_ok roots s → mmu_ok roots (set_tlb_ops l s).
Proof. intros []. by split. Qed.
Lemma mmu_ok_words {U : universe} roots s m :
  mmu_ok roots s → (∀ a, 0 ≤ m a < 2 ^ 32) → (∀ r i, valid roots r i → m (r.1 + 4 * i) = entry s r i) →
  (∀ a, page_of a ∉ all_pages roots s → m a = words s a) →
  mmu_ok roots (set_words m s).
Proof.
  intros [Hnd Hali Hro Hma Hwo Hty Hta Hown Hpg Hout] Hm He Hrest.
  assert (∀ r i, valid roots r i → entry (set_words m s) r i = entry s r i) as He' by apply He.
  split; try done.
  - intros r i Hv. rewrite He' by done. by apply Hty.
  - intros r i Hv. rewrite He' by done. by apply Hta.
  - intros r i r' i' Hv Hv'. rewrite !He' by done. by apply Hown.
  - intros a Ha. simpl. rewrite Hrest by (by rewrite Hpg). by apply Hout.
Qed.

(** Filling a table. *)
Lemma wp_fill t n (f : Z → Z) s Q :
  (∀ m, (∀ j, 0 ≤ j < Z.of_nat n → m (t + 4 * j) = f j) →
        (∀ a, (∀ j, 0 ≤ j < Z.of_nat n → a ≠ t + 4 * j) → m a = words s a) → Q tt (set_words m s)) →
  wp (for_each n 0 (λ i, wr t i (f i))) Q s.
Proof.
  intros HQ.
  apply (wp_for_each (λ k s', ∃ m, s' = set_words m s ∧ (∀ j, 0 ≤ j < k → m (t + 4 * j) = f j) ∧
    (∀ a, (∀ j, 0 ≤ j < k → a ≠ t + 4 * j) → m a = words s a))).
  - exists (words s). split_and!; [by destruct s|lia|done].
  - intros k s' Hk (m & -> & H1 & H2). unfold wr. wp_step. simpl. eexists. split; [done|]. split.
    + intros j Hj. destruct (decide (j = k)) as [->|]; [by rewrite upd_eq|]. rewrite upd_ne by lia. apply H1. lia.
    + intros a Ha. rewrite upd_ne by (apply Ha; lia). apply H2. intros j Hj. apply Ha. lia.
  - intros s' (m & -> & H1 & H2). by apply HQ.
Qed.

(** Entries that point to L2 tables keep doing so, and no section appears. *)
Definition l2_mono (roots : list (Z * Z)) (s s' : mst) : Prop :=
  ∀ r i, valid roots r i →
    (desc_type (entry s r i) = DESC_L2 → desc_type (entry s' r i) = DESC_L2) ∧
    (desc_type (entry s' r i) = DESC_SECTION → desc_type (entry s r i) = DESC_SECTION).
Lemma l2_mono_refl roots s : l2_mono roots s s.
Proof. by intros ??. Qed.
Lemma l2_mono_trans roots s s1 s2 : l2_mono roots s s1 → l2_mono roots s1 s2 → l2_mono roots s s2.
Proof. intros H1 H2 r i Hv. destruct (H1 r i Hv), (H2 r i Hv). auto. Qed.
Lemma l2_mono_same roots s s' : (∀ r i, valid roots r i → entry s' r i = entry s r i) → l2_mono roots s s'.
Proof. intros He r i Hv. by rewrite He. Qed.

Section pages.
Context {U : universe} (roots : list (Z * Z)).
Implicit Types (s : mst) (r : Z * Z).

(** Pointing an entry that translates nothing new to a fresh table. *)
Lemma link_table s s' t r i :
  mmu_ok roots s' → valid roots r i → allocated (pool s') t →
  (∀ r' i', valid roots r' i' → desc_type (entry s' r' i') = DESC_L2 → l2_base (entry s' r' i') ≠ t) →
  tr_same roots s s' →
  (∀ j, 0 ≤ j < 256 → tr s r i j = if Z.testbit (words s' (t + 4 * j)) 1 then Some (page_pte (words s' (t + 4 * j))) else None) →
  let s2 := set_words (upd (words s') (r.1 + 4 * i) (ArchMmuMakeL1Pte t)) s' in
  mmu_ok roots s2 ∧ tr_same roots s s2 ∧ entry s2 r i = ArchMmuMakeL1Pte t ∧ l2_mono roots s' s2.
Proof.
  intros Hok Hv Hal Hun Hsame Htr s2. destruct (allocated_range roots s' Hok t Hal) as [Hr Hm].
  destruct (MakeL1Pte_means t Hr Hm) as (Hty & Hb & Hrange).
  destruct (write_l1 roots s' Hok r i (ArchMmuMakeL1Pte t) Hv Hrange) as (Hok2 & He & Hother & Hw).
  { rewrite Hty. done. }
  { intros _. rewrite Hb. split; [done|]. intros r' i' Hv' _. by apply Hun. }
  fold s2 in Hok2, He, Hother, Hw. split_and!; [done| |done|].
  2: { intros r' i' Hv'. destruct (decide ((r', i') = (r, i))) as [Heq|Hne]; [injection Heq as -> ->; by rewrite He, Hty|].
    unfold entry. rewrite Hw; [done|]. intros Heq. apply Hne. by destruct (sep_l1 roots s' Hok r' i' r i Hv' Hv Heq) as [-> ->]. }
  intros r' i' j Hv' Hj. destruct (decide ((r', i') = (r, i))) as [Heq|Hne].
  - injection Heq as -> ->. rewrite Htr by done. unfold tr, walk. fold (entry s2 r i). rewrite He, Hty, Hb. cbv zeta.
    rewrite Hw; [done|]. apply not_eq_sym. by apply (sep_l1_l2 roots s' Hok).
  - rewrite Hother by done. by apply Hsame.
Qed.

Lemma wp_BreakSection s r i a Q :
  mmu_ok roots s → valid roots r i → desc_type (entry s r i) = DESC_SECTION →
  (∀ s', mmu_ok roots s' → tr_same roots s s' → l2_mono roots s s' → Q false s') →
  (∀ s', mmu_ok roots s' → tr_same roots s s' → l2_mono roots s s' → desc_type (entry s' r i) = DESC_L2 → Q true s') →
  wp (ArchMmuBreakSection r.1 i a) Q s.
Proof.
  intros Hok Hv Hty Hno Hyes. unfold ArchMmuBreakSection, rd. do 2 wp_step. fold (entry s r i).
  wp_step. apply (wp_L2PtPoolAlloc roots s Hok).
  { intros sl. simpl. wp_step. apply Hno; [by apply mmu_ok_slab|done|by intros ??]. }
  intros t s1 Ht0 Hft. rewrite (proj2 (Z.eqb_neq t 0) Ht0). pose proof (ft_ok _ _ _ _ Hft) as Hok1.
  pose proof (mo_words _ _ Hok (r.1 + 4 * i)) as Hrange. fold (entry s r i) in Hrange.
  wp_step. apply (wp_fill t (Z.to_nat L2_ENTRIES) (broken (entry s r i))). intros m Hm1 Hm2.
  change (Z.of_nat (Z.to_nat L2_ENTRIES)) with 256 in *.
  assert (∀ r' i', valid roots r' i' → m (r'.1 + 4 * i') = entry s1 r' i') as Hme.
  { intros r' i' Hv'. apply Hm2. intros j Hj. by apply (sep_l1_l2 roots s1 Hok1); [|apply (ft_alloc _ _ _ _ Hft)|]. }
  assert (mmu_ok roots (set_words m s1)) as Hok2.
  { apply mmu_ok_words; [done| |done|].
    2: { intros x Hx. apply Hm2. intros j Hj ->. apply Hx. apply elem_of_app. right. apply elem_of_app. left.
         by apply (table_page roots s1 Hok1); [apply (ft_alloc _ _ _ _ Hft)|]. }
    intros x.
    destruct (decide ((x - t) mod 4 = 0 ∧ 0 ≤ (x - t) / 4 < 256)) as [[Hj0 Hj]|Hn].
    - replace x with (t + 4 * ((x - t) / 4)) by (Z.div_mod_to_equations; lia). rewrite Hm1 by done.
      by apply (broken_means _ _ Hrange).
    - rewrite Hm2; [apply (mo_words _ _ Hok1)|]. intros j Hj ->. apply Hn. Z.div_mod_to_equations. lia. }
  assert (tr_same roots s (set_words m s1)) as Hsame.
  { apply (tr_same_upd _ _ s1); [by apply (fresh_tr roots s Hok t)|]. intros r' i' j Hv' Hj.
    apply tr_ext; [by apply Hme|]. intros Ht'. apply Hm2. intros j' Hj' Heq.
    apply (sep_l2 roots s1 Hok1) in Heq as [Heq _]; [|by apply (mo_table _ _ Hok1)|apply (ft_alloc _ _ _ _ Hft)|done|done].
    by apply (fresh_unowned roots s Hok t s1 r' i' Hft). }
  unfold wr, flush_asid, flush_tlb. do 4 wp_step. wp_step.
  destruct (link_table s (set_words m s1) t r i Hok2 Hv (ft_alloc _ _ _ _ Hft)) as (Hok3 & Hsame3 & He3 & Hmono); [|done| |].
  - intros r' i' Hv' Ht'. unfold entry in *. simpl in *. rewrite Hme in Ht' |- * by done.
    by apply (fresh_unowned roots s Hok t s1 r' i' Hft).
  - intros j Hj. change (words (set_words m s1)) with m. rewrite Hm1 by done. destruct (broken_means _ j Hrange Hj) as (-> & -> & _).
    unfold tr, walk. fold (entry s r i). by rewrite Hty.
  - apply Hyes; [by apply mmu_ok_tlb_ops|done| |].
    { apply (l2_mono_trans _ s s1); [|apply (l2_mono_trans _ s1 (set_words m s1)); [|exact Hmono]].
      - apply l2_mono_same. intros r' i' Hv'. by rewrite (fresh_entry roots s Hok t).
      - apply l2_mono_same. intros r' i' Hv'. by apply Hme. }
    change (desc_type (entry (set_words (upd (words (set_words m s1)) (r.1 + 4 * i) (ArchMmuMakeL1Pte t)) (set_words m s1)) r i) = DESC_L2).
    rewrite He3. destruct (allocated_range roots s1 Hok1 t (ft_alloc _ _ _ _ Hft)) as [Hr Hmod]. by apply MakeL1Pte_means.
Qed.

Definition sp_root (sp : AddressSpace) : Z * Z := (pt_root_physaddr sp, l1_entry_count (as_type sp)).

Lemma L1_IDX_range va : 0 ≤ L1_IDX va < 4096.
Proof. unfold L1_IDX. change L1_IDX_MASK with (Z.ones 12). rewrite Z.land_ones by lia. apply Z.mod_pos_bound. lia. Qed.
Lemma L2_IDX_range va : 0 ≤ L2_IDX va < 256.
Proof. unfold L2_IDX. change L2_IDX_MASK with (Z.ones 8). rewrite Z.land_ones by lia. apply Z.mod_pos_bound. lia. Qed.
Lemma type_cases e : 0 ≤ e → desc_type e = DESC_FAULT ∨ desc_type e = DESC_L2 ∨ desc_type e = DESC_SECTION ∨ desc_type e = DESC_SUPERSECTION.
Proof.
  intros He. unfold desc_type. change DESC_TYPE_MASK with (Z.ones 2). rewrite Z.land_ones by lia.
  pose proof (Z.mod_pos_bound e (2 ^ 2) ltac:(lia)). unfold DESC_FAULT, DESC_L2, DESC_SECTION, DESC_SUPERSECTION. lia.
Qed.

(** The page a descriptor is asked for. *)
Definition mapped (pa prot : Z) (mt : VirtMemType) : pte := pte_of (Z.land pa L2_SMALL_BASE_MASK) prot mt.

Lemma page_desc_means pa prot mt :
  Z.testbit (l2_page_desc pa prot mt) 1 = true ∧ page_pte (l2_page_desc pa prot mt) = mapped pa prot mt.
Proof.
  destruct (l2_page_desc_low pa prot mt) as (low & -> & Hr & Ht & Hp). split; [by rewrite lor_base_bit|].
  rewrite page_pte_lor by done. by rewrite Hp.
Qed.

Lemma wp_MapPage s sp va pa mt prot Q :
  mmu_ok roots s → sp_root sp ∈ roots → 0 ≤ pa < 2 ^ 32 →
  (∀ s', mmu_ok roots s' → l2_mono roots s s' → tr_same roots s s' → Q false s') →
  (∀ s', mmu_ok roots s' → l2_mono roots s s' → L1_IDX va < l1_entry_count (as_type sp) →
     desc_type (entry s' (sp_root sp) (L1_IDX va)) = DESC_L2 →
     tr_upd roots s s' (set_tr (sp_root sp) (L1_IDX va) (L2_IDX va) (Some (mapped pa prot mt))) → Q true s') →
  wp (ArchMmuMapPage sp va pa mt prot) Q s.
Proof.
  intros Hok Hin Hpa Hno Hyes. unfold ArchMmuMapPage. assert (l2_mono roots s s) as Hrefl by (by intros ??).
  apply wp_if; intros _; [by apply Hno|]. case_if Ei; [by apply Hno|]. set (r := sp_root sp). set (i := L1_IDX va) in *.
  assert (valid roots r i) as Hv by (split; [done|pose proof (L1_IDX_range va); simpl; lia]).
  unfold rd at 1. do 2 wp_step. change (words s (pt_root_physaddr sp + 4 * i)) with (entry s r i).
  wp_step. eapply (wp_mono _ (λ l2 s', mmu_ok roots s' ∧ l2_mono roots s s' ∧ tr_same roots s s' ∧
    ∀ t, l2 = Some t → desc_type (entry s' r i) = DESC_L2 ∧ l2_base (entry s' r i) = t)).
  - fold (desc_type (entry s r i)). apply wp_if; intros E0; [b2p|apply wp_if; intros E1; b2p].
    + wp_step. apply (wp_L2PtPoolAlloc roots s Hok).
      { intros sl. simpl. wp_step. split_and!; [by apply mmu_ok_slab|by intros ??|done..]. }
      intros t s1 Ht0 Hft. rewrite (proj2 (Z.eqb_neq t 0) Ht0). unfold wr. do 2 wp_step. wp_step.
      pose proof (ft_ok _ _ _ _ Hft) as Hok1.
      destruct (link_table s s1 t r i Hok1 Hv (ft_alloc _ _ _ _ Hft)) as (Hok2 & Hs2 & He2 & Hmono).
      * intros r' i' Hv' Ht'. by apply (fresh_unowned roots s Hok t s1 r' i' Hft).
      * by apply (fresh_tr roots s Hok t).
      * intros j Hj. rewrite (ft_zero _ _ _ _ Hft j Hj). unfold tr, walk. fold (entry s r i). by rewrite E0.
      * split_and!; [done| |done|].
        { apply (l2_mono_trans _ s s1); [|exact Hmono]. apply l2_mono_same. intros r' i' Hv'. by rewrite (fresh_entry roots s Hok t). }
        intros t' [= <-].
        destruct (allocated_range roots s1 Hok1 t (ft_alloc _ _ _ _ Hft)) as [Hr Hm].
        destruct (MakeL1Pte_means t Hr Hm) as (Ha & Hb & _).
        exact (conj (eq_trans (f_equal desc_type He2) Ha) (eq_trans (f_equal l2_base He2) Hb)).
    + wp_step. split_and!; [done|by intros ??|done|]. intros t [= <-]. done.
    + wp_step. eapply (wp_BreakSection s r i); [done|done| | |].
      * destruct (type_cases (entry s r i)) as [?|[?|[?|?]]]; [apply (mo_words _ _ Hok)|by destruct E0|by destruct E1|done|].
        by destruct (mo_type _ _ Hok r i Hv).
      * intros s' ? ? ?. simpl. by wp_step.
      * intros s' ? ? ? ?. simpl. unfold rd. do 3 wp_step. split_and!; [done..|]. by intros t [= <-].
  - intros [t|] s1 (Hok1 & Hm1 & Hs1 & Ht); [|wp_step; by apply Hno]. destruct (Ht t eq_refl) as [Hty <-].
    unfold wr. do 2 wp_step. wp_step. destruct (page_desc_means pa prot mt) as [Hb Hp].
    destruct (write_l2 roots s1 Hok1 r i (L2_IDX va) (l2_page_desc pa prot mt) Hv Hty (L2_IDX_range va) (l2_page_desc_range pa prot mt Hpa)) as (Hok2 & He2 & Htr).
    rewrite Hb, Hp in Htr. apply Hyes; [done| |done|exact (eq_trans (f_equal desc_type (He2 r i Hv)) Hty)|].
    { apply (l2_mono_trans _ s s1); [done|]. by apply l2_mono_same. }
    by apply (tr_same_upd _ _ s1).
Qed.

(** Clearing one translation. *)
Lemma wp_UnmapPage s sp va Q :
  mmu_ok roots s → valid roots (sp_root sp) (L1_IDX va) →
  (∀ ok s', mmu_ok roots s' →
     (desc_type (entry s (sp_root sp) (L1_IDX va)) ≠ DESC_SECTION →
        tr_upd roots s s' (set_tr (sp_root sp) (L1_IDX va) (L2_IDX va) None) ∧
        (ok = false → tr s (sp_root sp) (L1_IDX va) (L2_IDX va) = None)) →
     (desc_type (entry s (sp_root sp) (L1_IDX va)) = DESC_SECTION → ok = false ∧ s' = s) →
     (∀ r' i', valid roots r' i' → entry s' r' i' = entry s r' i') → tlb_ops s' = tlb_ops s → Q ok s') →
  wp (ArchMmuUnmapPage sp va) Q s.
Proof.
  intros Hok Hv HQ. set (r := sp_root sp) in *. set (i := L1_IDX va) in *. unfold ArchMmuUnmapPage, rd. do 2 wp_step.
  change (words s (pt_root_physaddr sp + 4 * L1_IDX va)) with (entry s r i). fold (desc_type (entry s r i)).
  assert (tr s r i (L2_IDX va) = None → tr_upd roots s s (set_tr r i (L2_IDX va) None)) as Hid.
  { intros Hn r' i' j' _ _. unfold set_tr. case_decide as Hc; [|done]. by destruct Hc as (-> & -> & ->). }
  case_if E; simpl.
  { wp_step. apply HQ; [done| |done|done|done]. intros Hns.
    assert (tr s r i (L2_IDX va) = None) as Hn; [|auto].
    unfold tr, walk. fold (entry s r i). rewrite (proj2 (Z.eqb_neq _ _) E), (proj2 (Z.eqb_neq _ _) Hns). done. }
  wp_step. wp_step. case_if E0.
  { wp_step. apply HQ; [done| |by rewrite E|done|done]. intros _.
    assert (tr s r i (L2_IDX va) = None) as Hn; [|auto].
    unfold tr, walk. fold (entry s r i). rewrite E. cbv zeta. by rewrite (E0 : words s (l2_base (entry s r i) + _) = 0). }
  unfold wr. do 2 wp_step. wp_step.
  destruct (write_l2 roots s Hok r i (L2_IDX va) 0 Hv E (L2_IDX_range va) ltac:(lia)) as (Hok2 & He & Htr).
  apply HQ; [done|by intros _; split|by rewrite E|done|done].
Qed.
End pages.
