(* ===== verification/MmuRange.v ===== *)
(** What the range operations of [Mmu] do to the translations of all spaces: mapping
    (with its roll-back), unmapping (with the TLB maintenance), changing protections, and
    the software table walk.

    The unmapping and protection theorems ask that a section the range meets lies inside
    it; the callers' regions satisfy this (see [UserMap]). *)
From stdpp Require Import sorting.
From S2P Require Import Prelude Region Asid Mmu MmuInv.

#[local] Open Scope Z_scope.
#[local] Arguments pool_slot : simpl never.

(** * Giving a table back *)

Lemma pool_put_spec l pa slot b l' :
  pool_put l pa slot = Some (b, l') →
  ∃ l1 e l2, l = l1 ++ e :: l2 ∧ page_pa e = pa ∧
    let m := w8 (Z.land (used_mask e) (Z.lnot (bit slot))) in
    (b = true ∧ m = 0 ∧ l' = l1 ++ l2) ∨ (b = false ∧ m ≠ 0 ∧ l' = l1 ++ mkPool pa m :: l2).
Proof.
  revert l'. induction l as [|e l IH]; intros l'; simpl; [done|]. case_if E; simpl.
  - destruct (pool_put l pa slot) as [[b0 r]|] eqn:Ep; [|done]. intros [= -> <-].
    destruct (IH r eq_refl) as (l1 & e0 & l2 & -> & He & H). exists (e :: l1), e0, l2. do 2 (split; [done|]).
    destruct H as [(-> & Hm & ->)|(-> & Hm & ->)]; [by left|by right].
  - change (Z.shiftl 1 slot) with (bit slot). case_if Em; intros [= <- <-]; exists [], e, l;
      do 2 (split; [done|]); [by left|right]. by rewrite <- E.
Qed.
Lemma mask_clear m k : 0 ≤ m < 16 → 0 ≤ k → 0 ≤ w8 (Z.land m (Z.lnot (bit k))) < 16 ∧
  ∀ n, 0 ≤ n < 4 → n ≠ k → Z.testbit (w8 (Z.land m (Z.lnot (bit k)))) n = Z.testbit m n.
Proof.
  intros Hm Hk. assert (0 ≤ Z.land m (Z.lnot (bit k)) < 2 ^ 4) as Hr.
  { apply land_range. lia. }
  rewrite w8_small by lia. split; [lia|]. intros n Hn Hne. rewrite Z.land_spec, Z.lnot_spec by lia.
  rewrite bit_spec, bool_decide_eq_false_2 by lia. apply andb_true_r.
Qed.
Lemma pool_put_some l pa slot e : e ∈ l → page_pa e = pa → is_Some (pool_put l pa slot).
Proof.
  intros He Hp. induction He as [e l|e e' l He IH]; simpl.
  - rewrite (proj2 (Z.eqb_eq _ _) Hp). simpl. case_match; by eexists.
  - case_match; [|case_match; by eexists]. destruct (IH Hp) as [[b r] ->]. by eexists.
Qed.

Lemma table_split p k :
  p mod PAGE_SIZE = 0 → 0 ≤ k < 4 →
  Z.land (p + L2_TABLE_SIZE * k) (Z.lnot PAGE_OFFSET_MASK) = p ∧
  Z.land (p + L2_TABLE_SIZE * k) PAGE_OFFSET_MASK / L2_TABLE_SIZE = k.
Proof.
  intros Hp Hk. change PAGE_OFFSET_MASK with (Z.ones 12). rewrite <- Z.ldiff_land, Z.ldiff_ones_r, Z.land_ones by lia.
  rewrite Z.shiftl_mul_pow2, Z.shiftr_div_pow2 by lia. unfold L2_TABLE_SIZE, PAGE_SIZE in *. change (2 ^ 12) with 4096.
  Z.div_mod_to_equations. lia.
Qed.

(** The pool and the free list after the table went back. *)
Lemma mmu_ok_put {U : universe} roots s t e k b l' :
  mmu_ok roots s → e ∈ pool s → 0 ≤ k < 4 → t = page_pa e + L2_TABLE_SIZE * k →
  (∀ r i, valid roots r i → desc_type (entry s r i) = DESC_L2 → l2_base (entry s r i) ≠ t) →
  pool_put (pool s) (page_pa e) k = Some (b, l') →
  mmu_ok roots (set_pool l' (if b then set_frames (page_pa e :: frames s) s else s)).
Proof.
  intros Hok He Hk Ht Hun Hp. set (s' := set_pool _ _).
  apply pool_put_spec in Hp as (l1 & e' & l2 & Hl & Hpe & Hcase).
  assert (e' = e) as -> by (apply (pool_inj roots s Hok); [rewrite Hl; set_solver|done|done]).
  destruct (mask_clear (used_mask e) k) as [Hmr Hmb]; [pose proof (mo_masks _ _ Hok e He); lia|lia|]. cbv zeta in Hcase.
  set (m := w8 _) in *.
  assert (words s' = words s) as Hw by (unfold s'; by destruct b, s).
  assert (pool s' = l') as Hpl by (unfold s'; by destruct b, s).
  assert (all_pages roots s' ≡ₚ all_pages roots s) as Hperm.
  { unfold all_pages. rewrite Hpl, Hl. apply Permutation_app_head. destruct Hcase as [(-> & _ & ->)|(-> & _ & ->)]; unfold s'; cbn [frames set_pool set_frames].
    - rewrite !fmap_app, fmap_cons, <- !app_assoc. apply Permutation_app_head. simpl. by rewrite Permutation_middle.
    - by rewrite !fmap_app, !fmap_cons. }
  assert (∀ t', t' ≠ t → allocated (pool s) t' → allocated l' t') as Hal.
  { intros t' Hne (e1 & k1 & He1 & Hk1 & Hb1 & Ht1). destruct (decide (e1 = e)) as [->|Hd].
    - assert (k1 ≠ k) as Hkn by congruence. rewrite <- (Hmb k1 Hk1 Hkn) in Hb1.
      destruct Hcase as [(_ & Hm0 & _)|(_ & _ & ->)]; [by rewrite Hm0, Z.bits_0 in Hb1|].
      exists (mkPool (page_pa e) m), k1. split; [set_solver|done].
    - exists e1, k1. split; [|done]. rewrite Hl in He1. destruct Hcase as [(_ & _ & ->)|(_ & _ & ->)]; set_solver. }
  assert (∀ r i, entry s' r i = entry s r i) as Hent by (intros; unfold entry; by rewrite Hw).
  split.
  - rewrite Hperm. apply Hok.
  - intros p. rewrite Hperm. apply Hok.
  - apply Hok.
  - intros e1. rewrite Hpl. intros He1. destruct (decide (e1 ∈ pool s)) as [Hin|Hnin]; [by apply Hok|].
    rewrite Hl in Hnin. destruct Hcase as [(_ & _ & ->)|(_ & Hm0 & ->)]; [set_solver|].
    assert (e1 = mkPool (page_pa e) m) as -> by set_solver. simpl. lia.
  - intros a. rewrite Hw. apply Hok.
  - intros r i. rewrite Hent. apply Hok.
  - intros r i Hv Hd. rewrite Hpl. rewrite Hent in *. apply Hal; [by apply Hun|by apply Hok].
  - intros r i r' i'. rewrite !Hent. apply Hok.
  - rewrite Hperm. apply Hok.
  - intros a. rewrite Hw. apply Hok.
Qed.

(** ** [L2PtPoolFree] of a table that no entry points to any more *)
Lemma wp_L2PtPoolFree {U : universe} roots s t Q :
  mmu_ok roots s → allocated (pool s) t →
  (∀ r i, valid roots r i → desc_type (entry s r i) = DESC_L2 → l2_base (entry s r i) ≠ t) →
  (∀ s', mmu_ok roots s' → words s' = words s → tlb_ops s' = tlb_ops s → Q tt s') →
  wp (L2PtPoolFree t) Q s.
Proof.
  intros Hok Hal Hun HQ. pose proof Hal as (e & k & He & Hk & Hb & Ht). destruct (pool_page roots s Hok e He) as (Ha & Hr & _).
  destruct (table_split (page_pa e) k Ha Hk) as [Hpg Hsl]. unfold L2PtPoolFree.
  assert (t ≠ 0) as Hnz by (unfold L2_TABLE_SIZE in *; lia). rewrite (proj2 (Z.eqb_neq _ _) Hnz). cbv zeta.
  rewrite Ht, Hpg, Hsl. wp_step. wp_step. destruct (pool_put_some (pool s) (page_pa e) k e He eq_refl) as [[b l'] Ep].
  rewrite Ep. destruct (mmu_ok_put roots s t e k b l') as [Hok1 Hok2]; [done..|].
  destruct b; simpl; unfold PmmFreeFrame_m; [do 3 wp_step|wp_step; wp_step; wp_step]; by apply HQ; [|destruct s..].
Qed.

(** * Ranges *)

(** The address of page [j] of megabyte [i]. *)
Definition page_va (i j : Z) : Z := SECTION_SIZE * i + PAGE_SIZE * j.
(** Replacing the translations of the [n] bytes at [va] by what [g] says of their address. *)
Definition set_range (r0 : Z * Z) (va n : Z) (g : Z → option pte → option pte) (r : Z * Z) (i j : Z) (p : option pte) : option pte :=
  if decide (r = r0 ∧ va ≤ page_va i j < va + n) then g (page_va i j) p else p.

Lemma idx_of va : 0 ≤ va < 2 ^ 32 → L1_IDX va = va / SECTION_SIZE ∧ L2_IDX va = va / PAGE_SIZE mod 256.
Proof.
  intros Hv. unfold L1_IDX, L2_IDX. change L1_IDX_MASK with (Z.ones 12). change L2_IDX_MASK with (Z.ones 8).
  rewrite !Z.land_ones, !Z.shiftr_div_pow2 by (unfold MMU_SECTION_SHIFT, MMU_PAGE_SHIFT; lia).
  change (2 ^ MMU_SECTION_SHIFT) with SECTION_SIZE. change (2 ^ MMU_PAGE_SHIFT) with PAGE_SIZE. split; [|done].
  apply Z.mod_small. unfold SECTION_SIZE. Z.div_mod_to_equations. lia.
Qed.
Lemma idx_iff va i j :
  0 ≤ va < 2 ^ 32 → va mod PAGE_SIZE = 0 → 0 ≤ i → 0 ≤ j < 256 → i = L1_IDX va ∧ j = L2_IDX va ↔ page_va i j = va.
Proof.
  intros Hv Hm Hi Hj. destruct (idx_of va Hv) as [-> ->]. unfold page_va, SECTION_SIZE, PAGE_SIZE in *.
  Z.div_mod_to_equations. lia.
Qed.
Lemma page_va_idx va : 0 ≤ va < 2 ^ 32 → va mod PAGE_SIZE = 0 → page_va (L1_IDX va) (L2_IDX va) = va.
Proof. intros Hv Hm. apply idx_iff; try done; [apply L1_IDX_range|apply L2_IDX_range]. Qed.

Lemma rounds size m : 0 ≤ size → 0 < m → size mod m = 0 → size = m * Z.of_nat (Z.to_nat (size / m)).
Proof. intros Hs Hm H0. rewrite Z2Nat.id by (by apply Z.div_pos). pose proof (Z.div_mod size m). lia. Qed.

(** One more page of a range. *)
Lemma set_range_step roots s s1 s2 r0 va k (g : Z → option pte → option pte) :
  0 ≤ va → 0 ≤ k → va + k < 2 ^ 32 → va mod PAGE_SIZE = 0 → k mod PAGE_SIZE = 0 →
  tr_upd roots s s1 (set_range r0 va k g) →
  tr_upd roots s1 s2 (λ r i j p, if decide (r = r0 ∧ i = L1_IDX (va + k) ∧ j = L2_IDX (va + k)) then g (va + k) p else p) →
  tr_upd roots s s2 (set_range r0 va (k + PAGE_SIZE) g).
Proof.
  intros Hva Hk Hr Hm Hm' H1 H2 r i j Hv Hj. rewrite H2, H1 by done. unfold set_range.
  assert (0 ≤ i) as Hi by (destruct Hv; lia).
  pose proof (idx_iff (va + k) i j ltac:(lia) ltac:(unfold PAGE_SIZE in *; Z.div_mod_to_equations; lia) Hi Hj) as Hiff.
  assert (page_va i j mod PAGE_SIZE = 0) as Hpm by (unfold page_va, SECTION_SIZE, PAGE_SIZE; Z.div_mod_to_equations; lia).
  case_decide as Hc.
  - destruct Hc as (-> & Hc). apply Hiff in Hc. rewrite decide_False by (rewrite Hc; lia).
    rewrite decide_True by (split; [done|unfold PAGE_SIZE; lia]). by rewrite Hc.
  - apply decide_ext. split; intros [-> Hin]; (split; [done|]); [unfold PAGE_SIZE; lia|].
    assert (page_va i j ≠ va + k) by (intros Heq; apply Hc; split; [done|by apply Hiff]).
    unfold PAGE_SIZE in *. Z.div_mod_to_equations. lia.
Qed.
Lemma set_range_snoc roots s s1 s2 r0 va k (g : Z → option pte → option pte) q :
  0 ≤ va → 0 ≤ k → va + k < 2 ^ 32 → va mod PAGE_SIZE = 0 → k mod PAGE_SIZE = 0 →
  (∀ p, g (va + k) p = q) →
  tr_upd roots s s1 (set_range r0 va k g) →
  tr_upd roots s1 s2 (set_tr r0 (L1_IDX (va + k)) (L2_IDX (va + k)) q) →
  tr_upd roots s s2 (set_range r0 va (k + PAGE_SIZE) g).
Proof.
  intros Hva Hk Hr Hm Hm' Hq H1 H2. apply (set_range_step roots s s1); try done.
  intros r i j Hv Hj. rewrite H2 by done. unfold set_tr. case_decide; by rewrite ?Hq.
Qed.

(** One more megabyte of a range. *)
Lemma set_range_section roots s s1 s2 r0 va k (g : Z → option pte → option pte) :
  0 ≤ va → 0 ≤ k → va + k < 2 ^ 32 → (va + k) mod SECTION_SIZE = 0 →
  tr_upd roots s s1 (set_range r0 va k g) →
  tr_upd roots s1 s2 (λ r i j p, if decide ((r, i) = (r0, L1_IDX (va + k))) then g (page_va i j) p else p) →
  tr_upd roots s s2 (set_range r0 va (k + SECTION_SIZE) g).
Proof.
  intros Hva Hk Hr Hm H1 H2 r i j Hv Hj. rewrite H2, H1 by done. unfold set_range.
  rewrite (proj1 (idx_of (va + k) ltac:(lia))). assert (0 ≤ i) as Hi by (destruct Hv; lia).
  unfold page_va, SECTION_SIZE, PAGE_SIZE in *. case_decide as Hc.
  - injection Hc as -> ->. rewrite decide_False by (intros [_ Hin]; Z.div_mod_to_equations; lia).
    rewrite decide_True; [done|]. split; [done|]. Z.div_mod_to_equations. lia.
  - apply decide_ext. split; intros [-> Hin]; (split; [done|]); [lia|].
    assert (i ≠ (va + k) / 1048576) by congruence. Z.div_mod_to_equations. lia.
Qed.

Section ranges.
Context {U : universe} (roots : list (Z * Z)) (sp : AddressSpace) (Hsp : sp_root sp ∈ roots).
Implicit Types (s : mst).

(** Every page of the range is translated by an L2 table. *)
Definition in_tables s (va n : Z) : Prop :=
  ∀ a, va ≤ a < va + n → a mod PAGE_SIZE = 0 →
    valid roots (sp_root sp) (L1_IDX a) ∧ desc_type (entry s (sp_root sp) (L1_IDX a)) = DESC_L2.

Lemma wp_rollback s0 s va k g (n : nat) Q :
  mmu_ok roots s → 0 ≤ va → va + k ≤ 2 ^ 32 → va mod PAGE_SIZE = 0 → k = PAGE_SIZE * Z.of_nat n →
  in_tables s va k → tr_upd roots s0 s (set_range (sp_root sp) va k g) →
  (∀ s', mmu_ok roots s' → l2_mono roots s s' → tr_upd roots s0 s' (set_range (sp_root sp) va k (λ _ _, None)) → Q tt s') →
  wp (for_each n 0 (λ i, ArchMmuUnmapPage sp (w32 (va + i * PAGE_SIZE)) ;; ret tt)) Q s.
Proof.
  intros Hok Hva Hr Hm -> Htab Htr HQ.
  apply (wp_for_each (λ m s', mmu_ok roots s' ∧ in_tables s' va (PAGE_SIZE * Z.of_nat n) ∧ l2_mono roots s s' ∧
    tr_upd roots s s' (set_range (sp_root sp) va (m * PAGE_SIZE) (λ _ _, None)))).
  - split_and!; [done|done|apply l2_mono_refl|]. intros r i j _ _. unfold set_range. rewrite decide_False; [done|lia].
  - intros m s' Hmn (Hok' & Htab' & Hmono & Htr'). rewrite w32_small by (unfold PAGE_SIZE in *; lia).
    destruct (Htab' (va + m * PAGE_SIZE)) as [Hv Hty];
      [unfold PAGE_SIZE in *; lia|unfold PAGE_SIZE in *; Z.div_mod_to_equations; lia|].
    wp_step. apply (wp_UnmapPage roots s' sp); [done|done|]. intros ok s'' Hok'' Hu _ He _. wp_step.
    destruct Hu as [Hu _]; [rewrite Hty; done|]. split_and!; [done| |by apply (l2_mono_trans _ s s'); [|apply l2_mono_same]|].
    + intros a Ha Ham. destruct (Htab' a Ha Ham) as [Hva' Hta']. split; [done|]. by rewrite He.
    + replace ((m + 1) * PAGE_SIZE) with (m * PAGE_SIZE + PAGE_SIZE) by lia.
      eapply (set_range_snoc roots s s' s''); try done; unfold PAGE_SIZE in *; try lia. apply Z.mod_mul. lia.
  - intros s' (Hok' & _ & Hmono & Htr'). apply HQ; [done|done|]. intros r i j Hv Hj. rewrite Htr', Htr by done. unfold set_range.
    replace ((0 + Z.of_nat n) * PAGE_SIZE) with (PAGE_SIZE * Z.of_nat n) by lia. case_decide; done.
Qed.

Lemma wp_map_pages s0 s va pa prot mt n k Q :
  mmu_ok roots s → 0 ≤ va → 0 ≤ pa → 0 ≤ k → va + k + PAGE_SIZE * Z.of_nat n ≤ 2 ^ 32 → pa + k + PAGE_SIZE * Z.of_nat n ≤ 2 ^ 32 →
  va mod PAGE_SIZE = 0 → pa mod PAGE_SIZE = 0 → k mod PAGE_SIZE = 0 →
  in_tables s va k → l2_mono roots s0 s →
  let g := λ a (_ : option pte), Some (pte_of (pa + (a - va)) prot mt) in
  tr_upd roots s0 s (set_range (sp_root sp) va k g) →
  (∀ s', mmu_ok roots s' → l2_mono roots s0 s' → in_tables s' va (k + PAGE_SIZE * Z.of_nat n) →
     tr_upd roots s0 s' (set_range (sp_root sp) va (k + PAGE_SIZE * Z.of_nat n) g) → Q true s') →
  (∀ s' k', mmu_ok roots s' → l2_mono roots s0 s' → k ≤ k' < k + PAGE_SIZE * Z.of_nat n →
     tr_upd roots s0 s' (set_range (sp_root sp) va k' (λ _ _, None)) → Q false s') →
  wp (map_pages sp va pa prot mt n k) Q s.
Proof.
  intros Hok Hva Hpa Hk Hr Hr' Hvm Hpm Hkm Htab Hm0 g Htr Hyes Hno. revert s k Hok Hk Hr Hr' Hkm Htab Hm0 Htr Hyes Hno.
  induction n as [|n IH]; intros s k Hok Hk Hr Hr' Hkm Htab Hm0 Htr Hyes Hno; simpl.
  { wp_step. rewrite Z.mul_0_r, Z.add_0_r in Hyes. by apply Hyes. }
  rewrite !w32_small by (unfold PAGE_SIZE in *; lia). wp_step.
  assert (0 ≤ va + k < 2 ^ 32) as Hrange by (unfold PAGE_SIZE in *; lia).
  apply (wp_MapPage roots s sp); [done|done|unfold PAGE_SIZE in *; lia|..].
  - intros s' Hok' Hmono Hsame. simpl. wp_step. apply (wp_rollback s0 s' va k g); try done; [lia| |..].
    + unfold PAGE_SIZE in *. Z.div_mod_to_equations. lia.
    + intros a Ha Ham. destruct (Htab a Ha Ham). split; [done|by apply Hmono].
    + intros r i j Hv Hj. rewrite (Hsame r i j Hv Hj). by apply Htr.
    + intros s'' Hok'' Hmono'' Htr''. wp_step. apply (Hno s'' k); [done| |unfold PAGE_SIZE in *; lia|done].
      by apply (l2_mono_trans _ s0 s); [|apply (l2_mono_trans _ s s')].
  - intros s' Hok' Hmono Hidx Hty Htr'. simpl. apply IH; try (done || lia).
    + unfold PAGE_SIZE. lia.
    + unfold PAGE_SIZE in *. Z.div_mod_to_equations. lia.
    + intros a Ha Ham. destruct (decide (a < va + k)) as [Hlt|Hge].
      { destruct (Htab a) as [? ?]; [lia|done|]. split; [done|by apply Hmono]. }
      assert (a = va + k) as -> by (unfold PAGE_SIZE in *; Z.div_mod_to_equations; lia).
      split; [|done]. split; [done|]. pose proof (L1_IDX_range (va + k)). simpl. lia.
    + by apply (l2_mono_trans _ s0 s).
    + eapply (set_range_snoc roots s0 s s'); try done; try lia.
      intros p. unfold g, mapped. do 2 f_equal. rewrite (land_base _ 12 32); [lia|lia|unfold PAGE_SIZE in *; lia|].
      unfold PAGE_SIZE in *. Z.div_mod_to_equations. lia.
    + intros s'' Hok'' Hmono'' Htab'' Htr''. apply Hyes; [done|done|..]; by replace (k + PAGE_SIZE * Z.of_nat (S n)) with (k + PAGE_SIZE + PAGE_SIZE * Z.of_nat n) by lia.
    + intros s'' k' Hok'' Hmono'' Hk' Htr''. apply (Hno s'' k'); [done|done|unfold PAGE_SIZE in *; lia|done].
Qed.

Lemma valid_idx va : 0 ≤ va < 2 ^ 32 → (as_type sp = ADDRESS_SPACE_USER → va < USER_VA_TOP) → valid roots (sp_root sp) (L1_IDX va).
Proof.
  intros Hv Hu. split; [done|]. rewrite (proj1 (idx_of va Hv)). unfold sp_root, l1_entry_count. cbn [fst snd].
  unfold USER_VA_TOP, SECTION_SIZE, L1_ENTRIES_USER, L1_ENTRIES_KERNEL in *. case_decide as Ht; [specialize (Hu Ht)|]; Z.div_mod_to_equations; lia.
Qed.

(** Writing the L1 entry of a megabyte. *)
Lemma write_section s va v (g : Z → option pte → option pte) :
  mmu_ok roots s → valid roots (sp_root sp) (L1_IDX va) → 0 ≤ v < 2 ^ 32 →
  (desc_type v = DESC_FAULT ∨ desc_type v = DESC_SECTION) →
  (∀ j, 0 ≤ j < 256 → (if desc_type v =? DESC_SECTION then Some (section_pte v j) else None) =
     g (page_va (L1_IDX va) j) (tr s (sp_root sp) (L1_IDX va) j)) →
  let s' := set_words (upd (words s) (pt_root_physaddr sp + 4 * L1_IDX va) v) s in
  mmu_ok roots s' ∧ (∀ r i, valid roots r i → (r, i) ≠ (sp_root sp, L1_IDX va) → entry s' r i = entry s r i) ∧
  tr_upd roots s s' (λ r i j p, if decide ((r, i) = (sp_root sp, L1_IDX va)) then g (page_va i j) p else p).
Proof.
  intros Hok Hv Hr Hty Hg s'.
  destruct (write_l1 roots s Hok (sp_root sp) (L1_IDX va) v) as (Hok' & He & Hoth & Hw); [done|done|..].
  { destruct Hty as [-> | ->]; done. }
  { destruct Hty as [-> | ->]; done. }
  split; [done|]. split.
  - intros r i Hv' Hne. apply Hw. intros Heq. apply Hne. by destruct (sep_l1 _ _ Hok _ _ _ _ Hv' Hv Heq) as [-> ->].
  - intros r i j Hv' Hj. case_decide as Hc; [|by apply Hoth]. injection Hc as -> ->.
    rewrite <- Hg by done. unfold tr, walk. change (words s' ((sp_root sp).1 + _)) with (entry s' (sp_root sp) (L1_IDX va)).
    rewrite (He : entry s' (sp_root sp) (L1_IDX va) = v). by destruct Hty as [-> | ->].
Qed.

(** A section of [s] was one of [s0], or is inside the range. *)
Definition sections_in (s0 s : mst) (va n : Z) : Prop :=
  ∀ r i, valid roots r i → desc_type (entry s r i) = DESC_SECTION →
    desc_type (entry s0 r i) = DESC_SECTION ∨ (r = sp_root sp ∧ va ≤ SECTION_SIZE * i < va + n).

Lemma wp_map_sections s0 s va pa prot mt n k Q :
  mmu_ok roots s → 0 ≤ va → 0 ≤ pa → 0 ≤ k → va + k + SECTION_SIZE * Z.of_nat n ≤ 2 ^ 32 → pa + k + SECTION_SIZE * Z.of_nat n ≤ 2 ^ 32 →
  (as_type sp = ADDRESS_SPACE_USER → va + k + SECTION_SIZE * Z.of_nat n ≤ USER_VA_TOP) →
  va mod SECTION_SIZE = 0 → pa mod SECTION_SIZE = 0 → k mod SECTION_SIZE = 0 →
  let g := λ a (_ : option pte), Some (pte_of (pa + (a - va)) prot mt) in
  tr_upd roots s0 s (set_range (sp_root sp) va k g) → sections_in s0 s va k →
  (∀ s', mmu_ok roots s' → sections_in s0 s' va (k + SECTION_SIZE * Z.of_nat n) → tr_upd roots s0 s' (set_range (sp_root sp) va (k + SECTION_SIZE * Z.of_nat n) g) → Q true s') →
  wp (map_sections sp va pa prot mt n k) Q s.
Proof.
  intros Hok Hva Hpa Hk Hr Hr' Hu Hvm Hpm Hkm g Htr Hsec HQ. revert s k Hok Hk Hr Hr' Hu Hkm Htr Hsec HQ.
  induction n as [|n IH]; intros s k Hok Hk Hr Hr' Hu Hkm Htr Hsec HQ; cbn [map_sections]; cbv zeta.
  { wp_step. rewrite Z.mul_0_r, Z.add_0_r in HQ. by apply HQ. }
  rewrite !w32_small by (unfold SECTION_SIZE in *; lia).
  assert (valid roots (sp_root sp) (L1_IDX (va + k))) as Hv.
  { apply valid_idx; [unfold SECTION_SIZE in *; lia|]. intros Ht. specialize (Hu Ht). unfold SECTION_SIZE in *. lia. }
  case_if E; [destruct Hv as [_ Hv]; simpl in Hv; lia|]. unfold wr. do 2 wp_step.
  destruct (write_section s (va + k) (l1_section_desc (pa + k) prot mt) g) as (Hok' & He' & Htr'); [done|done|..].
  { apply l1_section_desc_range. unfold SECTION_SIZE in *. lia. }
  { right. apply (l1_section_desc_means _ _ _ 0). }
  { intros j Hj. destruct (l1_section_desc_means (pa + k) prot mt j) as [-> ->]. simpl. unfold g. do 2 f_equal.
    rewrite (land_base _ 20 32); [|lia|unfold SECTION_SIZE in *; lia|unfold SECTION_SIZE in *; Z.div_mod_to_equations; lia].
    rewrite (proj1 (idx_of (va + k) ltac:(unfold SECTION_SIZE in *; lia))). unfold page_va, SECTION_SIZE, PAGE_SIZE in *.
    Z.div_mod_to_equations. lia. }
  apply IH; try (done || (unfold SECTION_SIZE in *; lia)).
  - intros Ht. specialize (Hu Ht). unfold SECTION_SIZE in *. lia.
  - unfold SECTION_SIZE in *. Z.div_mod_to_equations. lia.
  - eapply (set_range_section roots s0 s); try done; unfold SECTION_SIZE in *; Z.div_mod_to_equations; lia.
  - intros r i Hv' Hd. destruct (decide ((r, i) = (sp_root sp, L1_IDX (va + k)))) as [Hc|Hc].
    + injection Hc as -> ->. right. split; [done|]. rewrite (proj1 (idx_of (va + k) ltac:(unfold SECTION_SIZE in *; lia))).
      unfold SECTION_SIZE in *. Z.div_mod_to_equations. lia.
    + destruct (Hsec r i Hv') as [?|[-> ?]]; [by rewrite <- He'|by left|right]. split; [done|]. unfold SECTION_SIZE in *. lia.
  - intros s'' Hok'' Hsec'' Htr''. apply HQ; [done|..]; by replace (k + SECTION_SIZE * Z.of_nat (S n)) with (k + SECTION_SIZE + SECTION_SIZE * Z.of_nat n) by lia.
Qed.

(** ** Mapping a range

    Success maps exactly the pages of the range; failure leaves at most a prefix of it
    unmapped and everything else as it was. *)
Definition map_post s va pa size prot mt (ok : bool) s' : Prop :=
  mmu_ok roots s' ∧ if ok then
    tr_upd roots s s' (set_range (sp_root sp) va size (λ a _, Some (pte_of (pa + (a - va)) prot mt))) ∧
    (l2_mono roots s s' ∧ in_tables s' va size ∨ va mod SECTION_SIZE = 0 ∧ size mod SECTION_SIZE = 0 ∧ sections_in s s' va size)
  else l2_mono roots s s' ∧ ∃ k, 0 ≤ k ≤ size ∧ tr_upd roots s s' (set_range (sp_root sp) va k (λ _ _, None)).

Lemma wp_ArchMmuMap s va pa size prot mt :
  mmu_ok roots s → 0 ≤ va → 0 ≤ pa → 0 ≤ size → va + size ≤ 2 ^ 32 → pa + size ≤ 2 ^ 32 →
  wp (ArchMmuMap sp va pa size prot mt) (map_post s va pa size prot mt) s.
Proof.
  intros Hok Hva Hpa Hsz Hr Hr'.
  assert (∀ g, tr_upd roots s s (set_range (sp_root sp) va 0 g)) as H0.
  { intros g r i j _ _. unfold set_range. rewrite decide_False; [done|lia]. }
  assert (wp (ret false) (map_post s va pa size prot mt) s) as Hfail.
  { wp_step. split; [done|]. split; [apply l2_mono_refl|]. exists 0. split; [lia|apply H0]. }
  unfold ArchMmuMap. case_if E; [done|]. apply wp_if; intros E1; [done|]. apply wp_if; intros E2.
  { apply andb_true_iff in E2 as [[E2 E3]%andb_true_iff E4]. b2p.
    pose proof (rounds size SECTION_SIZE Hsz eq_refl E4) as Hn.
    apply (wp_map_sections s); try (done || lia).
    - intros Ht. rewrite bool_decide_true in E1 by done. simpl in E1. apply orb_false_iff in E1 as [? ?]. b2p. lia.
    - by left.
    - rewrite Z.add_0_l, <- Hn. intros s' Hok' Hsec Htr. split; [done|]. split; [done|]. by right. }
  apply wp_if; intros E3; [|done]. apply andb_true_iff in E3 as [[E3 E4]%andb_true_iff E5]. b2p.
  pose proof (rounds size PAGE_SIZE Hsz eq_refl E5) as Hn.
  apply (wp_map_pages s); try (done || lia).
  - intros a Ha. lia.
  - rewrite Z.add_0_l, <- Hn. intros s' Hok' Hm Htab Htr. split; [done|]. split; [done|]. by left.
  - intros s' k' Hok' Hm Hk' Htr'. split; [done|]. split; [done|]. exists k'. split; [lia|done].
Qed.

(** ** Unmapping *)

Definition tr_at s (a : Z) : option pte := tr s (sp_root sp) (L1_IDX a) (L2_IDX a).
(** The TLB operation drops what the space has cached of the page at [a]. *)
Definition covers (a : Z) (op : tlb_op) : Prop :=
  match op with TlbAll => True | TlbAsid x => x = asid (asid_token sp) | TlbVa v => v = a
  | TlbVaAsid v x => v = a ∧ x = asid (asid_token sp) end.
Definition pages_in (va n a : Z) : Prop := va ≤ a < va + n ∧ a mod PAGE_SIZE = 0.

Lemma covers_flush_asid a : covers a (if asid (asid_token sp) =? 0 then TlbAll else TlbAsid (asid (asid_token sp))).
Proof. by case_if E. Qed.

Lemma tr_at_outside s s' va k g a :
  tr_upd roots s s' (set_range (sp_root sp) va k g) → valid roots (sp_root sp) (L1_IDX a) → 0 ≤ a < 2 ^ 32 → a mod PAGE_SIZE = 0 →
  ¬ va ≤ a < va + k → tr_at s' a = tr_at s a.
Proof.
  intros Htr Hv Ha Hm Hn. unfold tr_at. rewrite (Htr _ _ _ Hv (L2_IDX_range a)). unfold set_range.
  rewrite decide_False; [done|]. rewrite page_va_idx by done. tauto.
Qed.

(** What the two loops have done once the [k] bytes at [va] are unmapped: [done_] of the
    pages that were mapped. *)
Record unmapped s0 s (va k : Z) (P : Z → list tlb_op → Prop) : Prop := {
  um_ok : mmu_ok roots s;
  um_tr : tr_upd roots s0 s (set_range (sp_root sp) va k (λ _ _, None));
  um_sec r i : valid roots r i → desc_type (entry s r i) = DESC_SECTION → desc_type (entry s0 r i) = DESC_SECTION;
  um_ops : ∃ ops, tlb_ops s = ops ++ tlb_ops s0 ∧ ∀ a, pages_in va k a → is_Some (tr_at s0 a) → P a ops
}.

Lemma wp_unmap_pages s0 s va size flush n k count Q :
  0 ≤ va → 0 ≤ k → va + k + PAGE_SIZE * Z.of_nat n ≤ 2 ^ 32 → va mod PAGE_SIZE = 0 → k mod PAGE_SIZE = 0 → 0 ≤ count →
  (∀ a, pages_in (va + k) (PAGE_SIZE * Z.of_nat n) a →
     valid roots (sp_root sp) (L1_IDX a) ∧ desc_type (entry s (sp_root sp) (L1_IDX a)) ≠ DESC_SECTION) →
  let P c a ops := 0 < c ∧ (flush = true → size <= UNMAP_TLBI_PAGE_THRESHOLD * PAGE_SIZE → Exists (covers a) ops) in
  unmapped s0 s va k (P count) →
  (∀ c s', 0 ≤ c → unmapped s0 s' va (k + PAGE_SIZE * Z.of_nat n) (P c) → Q c s') →
  wp (unmap_pages sp va size flush n k count) Q s.
Proof.
  intros Hva Hk Hr Hvm Hkm Hc Hval P Hum HQ. revert s k count Hk Hr Hkm Hc Hval Hum HQ.
  induction n as [|n IH]; intros s k count Hk Hr Hkm Hc Hval Hum HQ; cbn [unmap_pages].
  { wp_step. apply HQ; [done|]. by rewrite Z.mul_0_r, Z.add_0_r. }
  rewrite !w32_small by (unfold PAGE_SIZE in *; lia). destruct Hum as [Hok Htr Hsec (ops & Hops & HP)].
  assert ((va + k) mod PAGE_SIZE = 0) as Hm by (unfold PAGE_SIZE in *; Z.div_mod_to_equations; lia).
  destruct (Hval (va + k)) as [Hv Hns]; [split; [unfold PAGE_SIZE; lia|done]|].
  wp_step. apply (wp_UnmapPage roots s sp); [done|done|]. intros ok s' Hok' Hu _ He Ht. destruct (Hu Hns) as [Htr' Hno].
  assert (∀ new, (ok = true → flush = true → size <= UNMAP_TLBI_PAGE_THRESHOLD * PAGE_SIZE → Exists (covers (va + k)) new) →
    unmapped s0 (set_tlb_ops (new ++ tlb_ops s') s') va (k + PAGE_SIZE) (P (if ok then count + 1 else count))) as Hnext.
  { intros new Hnew. split; [by apply mmu_ok_tlb_ops| | |].
    - eapply (set_range_snoc roots s0 s); try done. unfold PAGE_SIZE in *. lia.
    - intros r i Hv' Hd. apply Hsec; [done|]. by rewrite <- (He r i Hv').
    - exists (new ++ ops). split; [simpl; by rewrite Ht, Hops, app_assoc|]. intros a [Ha Ham] Hsome.
      destruct (decide (a < va + k)) as [Hlt|Hge].
      { destruct (HP a) as [HP1 HP2]; [split; [lia|done]|done|]. split; [destruct ok; lia|]. intros. apply Exists_app. right. auto. }
      assert (a = va + k) as -> by (unfold PAGE_SIZE in *; Z.div_mod_to_equations; lia).
      rewrite <- (tr_at_outside s0 s va k (λ _ _, None)) in Hsome; [|done|done|unfold PAGE_SIZE in *; lia|done|lia].
      destruct ok; [|unfold tr_at in Hsome; rewrite (Hno eq_refl) in Hsome; by apply is_Some_None in Hsome].
      split; [lia|]. intros. apply Exists_app. left. auto. }
  assert (∀ new, (ok = true → flush = true → size <= UNMAP_TLBI_PAGE_THRESHOLD * PAGE_SIZE → Exists (covers (va + k)) new) →
    wp (unmap_pages sp va size flush n (k + PAGE_SIZE) (if ok then count + 1 else count)) Q (set_tlb_ops (new ++ tlb_ops s') s')) as Hgo.
  { intros new Hnew. apply IH; try (unfold PAGE_SIZE in *; lia).
    - unfold PAGE_SIZE in *. Z.div_mod_to_equations. lia.
    - destruct ok; lia.
    - intros a [Ha Ham]. destruct (Hval a) as [Hva' Hns']; [split; [unfold PAGE_SIZE in *; lia|done]|]. split; [done|].
      change (desc_type (entry s' (sp_root sp) (L1_IDX a)) ≠ DESC_SECTION). by rewrite He.
    - by apply Hnext.
    - intros c s'' Hc' Hum. apply HQ; [done|]. by replace (k + PAGE_SIZE * Z.of_nat (S n)) with (k + PAGE_SIZE + PAGE_SIZE * Z.of_nat n) by lia. }
  wp_step. apply wp_when; intros Ef; [unfold flush_tlb; wp_step|].
  - apply (Hgo [_]). intros _ _ _. by apply Exists_cons_hd.
  - replace s' with (set_tlb_ops ([] ++ tlb_ops s') s') by (by destruct s'). apply Hgo. intros -> -> Hsz. simpl in Ef. b2p. lia.
Qed.

(** Clearing the entry of a megabyte leaves the table it pointed to unused. *)
Lemma clear_section s va :
  mmu_ok roots s → valid roots (sp_root sp) (L1_IDX va) →
  let s' := set_words (upd (words s) (pt_root_physaddr sp + 4 * L1_IDX va) 0) s in
  mmu_ok roots s' ∧
  tr_upd roots s s' (λ r i j p, if decide ((r, i) = (sp_root sp, L1_IDX va)) then None else p) ∧
  (desc_type (entry s (sp_root sp) (L1_IDX va)) = DESC_L2 → ∀ r i, valid roots r i → desc_type (entry s' r i) = DESC_L2 →
     l2_base (entry s' r i) ≠ l2_base (entry s (sp_root sp) (L1_IDX va))) ∧
  (∀ r i, valid roots r i → desc_type (entry s' r i) = DESC_SECTION → desc_type (entry s r i) = DESC_SECTION).
Proof.
  intros Hok Hv s'. destruct (write_section s va 0 (λ _ _, None)) as (Hok' & He & Htr); [done|done|lia|by left|done|].
  assert (entry s' (sp_root sp) (L1_IDX va) = 0) as H0 by (unfold entry, s'; simpl; unfold upd; by rewrite Z.eqb_refl).
  split; [done|]. split; [done|]. split.
  - intros Hl2 r i Hv' Hd Hb. destruct (decide ((r, i) = (sp_root sp, L1_IDX va))) as [Hc|Hc].
    + injection Hc as -> ->. by rewrite H0 in Hd.
    + rewrite (He r i Hv' Hc : entry s' r i = _) in Hd, Hb. by destruct (mo_own _ _ Hok r i _ _ Hv' Hv Hd Hl2 Hb) as [-> ->].
  - intros r i Hv' Hd. destruct (decide ((r, i) = (sp_root sp, L1_IDX va))) as [Hc|Hc].
    + injection Hc as -> ->. by rewrite H0 in Hd.
    + by rewrite (He r i Hv' Hc : entry s' r i = _) in Hd.
Qed.

Lemma wp_unmap_sections s0 s va flush n k any trailing Q :
  0 ≤ va → 0 ≤ k → va + k + SECTION_SIZE * Z.of_nat n ≤ 2 ^ 32 → va mod SECTION_SIZE = 0 → k mod SECTION_SIZE = 0 →
  (∀ a, pages_in (va + k) (SECTION_SIZE * Z.of_nat n) a → valid roots (sp_root sp) (L1_IDX a)) →
  let P (any trailing : bool) a ops := any = true ∧ (flush = true → trailing = true ∨ Exists (covers a) ops) in
  unmapped s0 s va k (P any trailing) →
  (∀ any' trailing' s', unmapped s0 s' va (k + SECTION_SIZE * Z.of_nat n) (P any' trailing') → Q (any', trailing') s') →
  wp (unmap_sections sp va flush n k any trailing) Q s.
Proof.
  intros Hva Hk Hr Hvm Hkm Hval P Hum HQ. revert s k any trailing Hk Hr Hkm Hval Hum HQ.
  induction n as [|n IH]; intros s k any trailing Hk Hr Hkm Hval Hum HQ; cbn [unmap_sections]; cbv zeta.
  { wp_step. apply HQ. by rewrite Z.mul_0_r, Z.add_0_r. }
  rewrite !w32_small by (unfold SECTION_SIZE in *; lia). destruct Hum as [Hok Htr Hsec (ops & Hops & HP)].
  assert (valid roots (sp_root sp) (L1_IDX (va + k))) as Hv.
  { apply Hval. split; [unfold SECTION_SIZE; lia|]. unfold SECTION_SIZE, PAGE_SIZE in *. Z.div_mod_to_equations. lia. }
  (* the state after this megabyte, whatever was done to it *)
  assert (∀ s' new (any' trailing' : bool),
    mmu_ok roots s' → tlb_ops s' = new ++ tlb_ops s →
    tr_upd roots s s' (λ r i j p, if decide ((r, i) = (sp_root sp, L1_IDX (va + k))) then None else p) →
    (∀ r i, valid roots r i → desc_type (entry s' r i) = DESC_SECTION → desc_type (entry s r i) = DESC_SECTION) →
    (any = true → any' = true) → (trailing = true → trailing' = true) →
    (entry s (sp_root sp) (L1_IDX (va + k)) ≠ 0 → any' = true ∧ (flush = true → trailing' = true ∨ ∀ a, Exists (covers a) new)) →
    wp (unmap_sections sp va flush n (k + SECTION_SIZE) any' trailing') Q s') as Hgo.
  { intros s' new any' trailing' Hok' Ht Htr' Hsec' Hany Htrail Hnew. apply IH; try (unfold SECTION_SIZE in *; lia).
    - unfold SECTION_SIZE in *. Z.div_mod_to_equations. lia.
    - intros a [Ha Ham]. apply Hval. split; [unfold SECTION_SIZE in *; lia|done].
    - split; [done| |by intros; apply Hsec; [|apply Hsec']|].
      + eapply (set_range_section roots s0 s); try done; unfold SECTION_SIZE in *; Z.div_mod_to_equations; lia.
      + exists (new ++ ops). split; [by rewrite Ht, Hops, app_assoc|]. intros a [Ha Ham] Hsome.
        destruct (decide (a < va + k)) as [Hlt|Hge].
        { destruct (HP a) as [HP1 HP2]; [split; [lia|done]|done|]. split; [auto|]. intros Hf.
          destruct (HP2 Hf); [auto|]. right. apply Exists_app. by right. }
        assert (L1_IDX a = L1_IDX (va + k)) as Hidx.
        { rewrite !(λ x H, proj1 (idx_of x H)) by (unfold SECTION_SIZE in *; lia). unfold SECTION_SIZE in *. Z.div_mod_to_equations. lia. }
        rewrite <- (tr_at_outside s0 s va k (λ _ _, None)) in Hsome;
          [|done|by rewrite Hidx|unfold SECTION_SIZE in *; lia|done|lia].
        destruct Hnew as [Hn1 Hn2].
        { intros E0. unfold tr_at, tr, walk in Hsome. rewrite Hidx in Hsome.
          rewrite (E0 : words s ((sp_root sp).1 + 4 * L1_IDX (va + k)) = 0) in Hsome. by apply is_Some_None in Hsome. }
        split; [done|]. intros Hf. destruct (Hn2 Hf) as [?|Hc]; [by left|]. right. apply Exists_app. left. apply Hc.
    - intros any'' trailing'' s'' Hum. apply HQ.
      by replace (k + SECTION_SIZE * Z.of_nat (S n)) with (k + SECTION_SIZE + SECTION_SIZE * Z.of_nat n) by lia. }
  unfold rd. wp_step. wp_step. change (words s (pt_root_physaddr sp + 4 * L1_IDX (va + k))) with (entry s (sp_root sp) (L1_IDX (va + k))).
  set (e := entry s (sp_root sp) (L1_IDX (va + k))) in *. case_if E0.
  { apply (Hgo s []); try done. intros r i j Hv' Hj. case_decide as Hc; [|done]. injection Hc as -> ->.
    unfold tr, walk. by rewrite (E0 : words s ((sp_root sp).1 + 4 * L1_IDX (va + k)) = 0). }
  destruct (clear_section s (va + k) Hok Hv) as (Hok' & Htr' & Hun & Hsec'). unfold wr. do 2 wp_step.
  fold (desc_type e). case_if Ed; [|by apply (Hgo _ []); auto].
  wp_step. unfold flush_asid, flush_tlb. apply wp_when; intros Hf; [wp_step|]; wp_step; (apply (wp_L2PtPoolFree roots);
    [first [done|by apply mmu_ok_tlb_ops]|by apply (mo_table _ _ Hok _ _ Hv)|by apply Hun|]);
    intros s' Hok'' Hw Ht.
  - assert (∀ r i, entry s' r i = entry (set_words (upd (words s) (pt_root_physaddr sp + 4 * L1_IDX (va + k)) 0) s) r i) as Hent
      by (intros; unfold entry; by rewrite Hw).
    apply (Hgo s' [if asid (asid_token sp) =? 0 then TlbAll else TlbAsid (asid (asid_token sp))]); try done.
    + intros r i j Hv' Hj. unfold tr. rewrite Hw. by apply Htr'.
    + intros r i. rewrite Hent. apply Hsec'.
    + intros _. split; [done|]. right. intros a. apply Exists_cons_hd, covers_flush_asid.
  - apply (Hgo s' []); try done.
    + intros r i j Hv' Hj. unfold tr. rewrite Hw. by apply Htr'.
    + intros r i. unfold entry. rewrite Hw. apply Hsec'.
    + intros _. split; [done|congruence].
Qed.

Lemma wp_ArchMmuUnmap s va size flush :
  mmu_ok roots s → 0 ≤ va → 0 < size → va + size ≤ 2 ^ 32 → (as_type sp = ADDRESS_SPACE_USER → va + size ≤ USER_VA_TOP) →
  va mod PAGE_SIZE = 0 → size mod PAGE_SIZE = 0 →
  va mod SECTION_SIZE = 0 ∧ size mod SECTION_SIZE = 0 ∨
    (∀ a, pages_in va size a → desc_type (entry s (sp_root sp) (L1_IDX a)) ≠ DESC_SECTION) →
  wp (ArchMmuUnmap sp va size flush) (λ any s',
    unmapped s s' va size (λ a ops, any = true ∧ (flush = true → Exists (covers a) ops))) s.
Proof.
  intros Hok Hva Hsz Hr Hu Hvm Hsm Hmode.
  assert (∀ a, pages_in va size a → valid roots (sp_root sp) (L1_IDX a)) as Hval.
  { intros a [Ha _]. apply valid_idx; [lia|]. intros Ht. specialize (Hu Ht). lia. }
  assert (∀ P, unmapped s s va 0 P) as H0.
  { intros P. split; [done| |done|exists []; split; [done|]; intros a [Ha _]; lia].
    intros r i j _ _. unfold set_range. rewrite decide_False; [done|lia]. }
  unfold ArchMmuUnmap. case_if E; [lia|]. apply wp_if; intros E1.
  - apply andb_true_iff in E1 as [E1 E2]. b2p. pose proof (rounds size SECTION_SIZE ltac:(lia) eq_refl E2) as Hn. wp_step.
    apply (wp_unmap_sections s); try (done || lia); [by rewrite Z.add_0_r, <- Hn|].
    rewrite Z.add_0_l, <- Hn. intros any trailing s' [Hok' Htr' Hsec' (ops & Hops & HP)]. wp_step.
    unfold flush_asid, flush_tlb. apply wp_when; intros Ef; [wp_step|]; wp_step.
    + split; [by apply mmu_ok_tlb_ops|done|done|]. eexists (_ :: ops). split; [simpl; by rewrite Hops|]. intros a Ha Hs.
      split; [exact (proj1 (HP a Ha Hs))|]. intros _. apply Exists_cons_hd, covers_flush_asid.
    + split; [done|done|done|]. exists ops. split; [done|]. intros a Ha Hs. destruct (HP a Ha Hs) as [-> HP2]. split; [done|].
      intros ->. by destruct (HP2 eq_refl) as [->|?].
  - destruct Hmode as [[Hm1 Hm2]|Hns]; [by rewrite Hm1, Hm2 in E1|].
    rewrite Hvm, Hsm. simpl. pose proof (rounds size PAGE_SIZE ltac:(lia) eq_refl Hsm) as Hn. wp_step.
    apply (wp_unmap_pages s); try (done || lia); [|].
    { rewrite Z.add_0_r, <- Hn. auto. }
    rewrite Z.add_0_l, <- Hn. intros c s' Hc [Hok' Htr' Hsec' (ops & Hops & HP)]. wp_step.
    unfold flush_asid, flush_tlb. apply wp_when; intros Ef; [wp_step|]; wp_step.
    + split; [by apply mmu_ok_tlb_ops|done|done|]. eexists (_ :: ops). split; [simpl; by rewrite Hops|]. intros a Ha Hs.
      split; [apply Z.ltb_lt; exact (proj1 (HP a Ha Hs))|]. intros _. apply Exists_cons_hd, covers_flush_asid.
    + split; [done|done|done|]. exists ops. split; [done|]. intros a Ha Hs. destruct (HP a Ha Hs) as [HP1 HP2]. apply Z.ltb_lt in HP1.
      split; [done|]. intros ->. rewrite HP1 in Ef. simpl in Ef. apply orb_false_iff in Ef as [Ef _]. b2p. auto.
Qed.

(** ** Changing protections *)

Lemma small_tag e : truthy (Z.land e L2_SMALL_TAG) = Z.testbit e 1.
Proof. apply (land_const_testbit e 1). lia. Qed.

Definition on_page (a : Z) (h : option pte → option pte) (r : Z * Z) (i j : Z) (p : option pte) : option pte :=
  if decide (r = sp_root sp ∧ i = L1_IDX a ∧ j = L2_IDX a) then h p else p.

Lemma on_page_same s a h : h (tr_at s a) = tr_at s a → tr_upd roots s s (on_page a h).
Proof. intros Hh r i j _ _. unfold on_page. case_decide as Hc; [|done]. by destruct Hc as (-> & -> & ->). Qed.

(** The entries of the root tables keep their types. *)
Definition types_same (s0 s : mst) : Prop := ∀ r i, valid roots r i → desc_type (entry s r i) = desc_type (entry s0 r i).

Lemma wp_protect_pages s0 s va size prot n k changed Q :
  0 ≤ va → 0 ≤ k ≤ size → va + size ≤ 2 ^ 32 → va mod PAGE_SIZE = 0 → k mod PAGE_SIZE = 0 → size mod PAGE_SIZE = 0 →
  size - k ≤ PAGE_SIZE * Z.of_nat n → size < 2 ^ 32 →
  let g := λ (_ : Z) p, with_prot prot <$> p in
  let done_ s' c k' := mmu_ok roots s' ∧ types_same s0 s' ∧ tr_upd roots s0 s' (set_range (sp_root sp) va k' g) ∧ tlb_ops s' = tlb_ops s0 ∧
    (∀ a, pages_in va k' a → is_Some (tr_at s0 a) → c = true) in
  (∀ a, pages_in (va + k) (size - k) a → valid roots (sp_root sp) (L1_IDX a) ∧
     (desc_type (entry s0 (sp_root sp) (L1_IDX a)) = DESC_SECTION →
        va + k ≤ SECTION_SIZE * L1_IDX a ∧ SECTION_SIZE * L1_IDX a + SECTION_SIZE ≤ va + size)) →
  done_ s changed k → (∀ c s', done_ s' c size → Q c s') →
  wp (protect_pages sp va size prot n k changed) Q s.
Proof.
  intros Hva Hk Hr Hvm Hkm Hsm Hn Hsz g done_ Hval Hd HQ. revert s k changed Hk Hkm Hn Hval Hd.
  induction n as [|n IH]; intros s k changed Hk Hkm Hn Hval Hd; cbn [protect_pages]; (case_if E; cbn [negb];
    [wp_step; apply HQ; by assert (k = size) as <- by lia|]); [lia|].
  destruct Hd as (Hok & Hts & Htr & Hops & HP).
  assert (k + PAGE_SIZE ≤ size) as Hk' by (unfold PAGE_SIZE in *; Z.div_mod_to_equations; lia).
  assert ((va + k) mod PAGE_SIZE = 0) as Hm by (unfold PAGE_SIZE in *; Z.div_mod_to_equations; lia).
  assert (0 < PAGE_SIZE) as HP0 by done.
  destruct (Hval (va + k)) as [Hv Hin]; [split; [lia|done]|]. rewrite <- (Hts _ _ Hv) in Hin.
  pose proof (proj1 (idx_of (va + k) ltac:(lia))) as Hidx.
  set (e := entry s (sp_root sp) (L1_IDX (va + k))) in *.
  (* the next round, [d] bytes further *)
  assert (∀ s' c d, d = (if desc_type e =? DESC_SECTION then SECTION_SIZE else PAGE_SIZE) →
    mmu_ok roots s' → tlb_ops s' = tlb_ops s → types_same s s' →
    tr_upd roots s0 s' (set_range (sp_root sp) va (k + d) g) →
    (changed = true → c = true) → (∀ a, pages_in (va + k) d a → is_Some (tr_at s a) → c = true) →
    wp (protect_pages sp va size prot n (w32 (k + d)) c) Q s') as Hgo.
  { intros s' c d Hd Hok' Ht Hts' Htr' Hc Hc'.
    assert (PAGE_SIZE ≤ d ∧ k + d ≤ size ∧ d mod PAGE_SIZE = 0) as (Hd1 & Hd2 & Hd3).
    { subst d. case_if Ed; [|done]. specialize (Hin Ed). unfold SECTION_SIZE, PAGE_SIZE in *. split; [lia|]. split; [|done].
      Z.div_mod_to_equations. lia. }
    rewrite w32_small by lia. apply IH; [lia| |lia| |].
    - unfold PAGE_SIZE in *. Z.div_mod_to_equations. lia.
    - intros a [Ha Ham]. destruct (Hval a) as [Hva' Hin']; [split; [lia|done]|]. split; [done|]. intros Hs. specialize (Hin' Hs).
      split; [|lia]. pose proof (proj1 (idx_of a ltac:(lia))) as Hia. destruct (decide (L1_IDX a = L1_IDX (va + k))) as [Heq|Hne].
      + exfalso. subst d. rewrite Heq, <- (Hts _ _ Hv) in Hs. fold e in Hs. rewrite Hs in *. simpl in *.
        specialize (Hin eq_refl). unfold SECTION_SIZE in *. Z.div_mod_to_equations. lia.
      + subst d. rewrite Hia, Hidx in *. case_if Ed.
        * specialize (Hin Ed). unfold SECTION_SIZE in *. Z.div_mod_to_equations. lia.
        * unfold SECTION_SIZE, PAGE_SIZE in *. Z.div_mod_to_equations. lia.
    - split; [done|]. split; [intros r i Hv'; by rewrite Hts', Hts|]. split; [done|]. split; [congruence|].
      intros a [Ha Ham] Hs. destruct (decide (a < va + k)) as [Hlt|Hge]; [apply Hc, (HP a); [split; [lia|done]|done]|].
      apply (Hc' a); [split; [lia|done]|].
      rewrite (tr_at_outside s0 s va k g); [done|done| |lia|done|lia]. apply Hval. split; [lia|done]. }
  rewrite (w32_small (va + k)) by lia.
  unfold rd, wr. wp_step. wp_step. change (words s (pt_root_physaddr sp + 4 * L1_IDX (va + k))) with e.
  fold (desc_type e). case_if Es.
  { do 2 wp_step. replace (k + (SECTION_SIZE - PAGE_SIZE) + PAGE_SIZE) with (k + SECTION_SIZE) by lia. specialize (Hin Es).
    assert ((va + k) mod SECTION_SIZE = 0) as Hms by (unfold SECTION_SIZE in *; Z.div_mod_to_equations; lia).
    pose proof (mo_words _ _ Hok ((sp_root sp).1 + 4 * L1_IDX (va + k))) as Her. fold (entry s (sp_root sp) (L1_IDX (va + k))) in Her. fold e in Her.
    destruct (write_section s (va + k) (l1_section_set_prot e prot) g) as (Hok' & He' & Htr'); [done|done|..].
    { by apply (l1_section_set_prot_means e prot 0). }
    { right. rewrite <- Es. by apply (l1_section_set_prot_means e prot 0). }
    { intros j Hj. destruct (l1_section_set_prot_means e prot j Her) as (Hp & Ht & _). rewrite Ht, Es. simpl. rewrite Hp.
      unfold g, tr, walk. fold (entry s (sp_root sp) (L1_IDX (va + k))). fold e. by rewrite Es. }
    apply (Hgo _ _ SECTION_SIZE); try done.
    - intros r i Hv'. destruct (decide ((r, i) = (sp_root sp, L1_IDX (va + k)))) as [Hc|Hc]; [|by rewrite <- (He' r i Hv' Hc)].
      injection Hc as -> ->. fold e. unfold entry. simpl. rewrite upd_eq. by apply (l1_section_set_prot_means e prot 0).
    - apply (set_range_section roots s0 s); try done; lia. }
  assert (tr_at s (va + k) = if desc_type e =? DESC_L2 then
     if Z.testbit (words s (l2_base e + 4 * L2_IDX (va + k))) 1 then Some (page_pte (words s (l2_base e + 4 * L2_IDX (va + k)))) else None
     else None) as Hat.
  { unfold tr_at, tr, walk. fold (entry s (sp_root sp) (L1_IDX (va + k))). fold e. by rewrite (proj2 (Z.eqb_neq _ _) Es). }
  assert (∀ s' c, mmu_ok roots s' → tlb_ops s' = tlb_ops s → types_same s s' →
    tr_upd roots s s' (on_page (va + k) (g (va + k))) → (changed = true → c = true) → (is_Some (tr_at s (va + k)) → c = true) →
    wp (protect_pages sp va size prot n (w32 (k + PAGE_SIZE)) c) Q s') as Hpage.
  { intros s' c Hok' Ht Hts' Htr' Hc Hc'. apply Hgo; try done.
    - apply (set_range_step roots s0 s); try done; lia.
    - intros a [Ha Ham]. assert (a = va + k) as -> by (unfold PAGE_SIZE in *; Z.div_mod_to_equations; lia). done. }
  case_if Ed.
  - wp_step. wp_step. fold (l2_base e). rewrite small_tag. set (w := words s _) in *.
    destruct (Z.testbit w 1) eqn:Eb; simpl.
    + do 2 wp_step. destruct (l2_page_set_prot_means w prot (mo_words _ _ Hok _)) as (Hpte & Hb & Hwr).
      destruct (write_l2 roots s Hok (sp_root sp) (L1_IDX (va + k)) (L2_IDX (va + k)) (l2_page_set_prot w prot) Hv Ed (L2_IDX_range _) Hwr)
        as (Hok2 & He2 & Htr2).
      apply Hpage; try done; [intros r i Hv'; exact (f_equal desc_type (He2 r i Hv'))|].
      intros r i j Hv' Hj. refine (eq_trans (Htr2 r i j Hv' Hj) _). unfold set_tr, on_page. case_decide as Hc; [|done].
      destruct Hc as (-> & -> & ->). rewrite Hb, Eb, Hpte. unfold g. fold (tr_at s (va + k)). by rewrite Hat.
    + apply Hpage; try done; [|by rewrite Hat; intros ?%is_Some_None]. apply on_page_same. by rewrite Hat.
  - apply Hpage; try done; [|by rewrite Hat; intros ?%is_Some_None]. apply on_page_same. by rewrite Hat.
Qed.

Lemma wp_ArchMmuProtect s va size prot :
  mmu_ok roots s → 0 ≤ va → 0 < size < 2 ^ 32 → va + size ≤ 2 ^ 32 → (as_type sp = ADDRESS_SPACE_USER → va + size ≤ USER_VA_TOP) →
  va mod PAGE_SIZE = 0 → size mod PAGE_SIZE = 0 →
  (∀ a, pages_in va size a → desc_type (entry s (sp_root sp) (L1_IDX a)) = DESC_SECTION →
     va ≤ SECTION_SIZE * L1_IDX a ∧ SECTION_SIZE * L1_IDX a + SECTION_SIZE ≤ va + size) →
  wp (ArchMmuProtect sp va size prot) (λ changed s', mmu_ok roots s' ∧ types_same s s' ∧
    tr_upd roots s s' (set_range (sp_root sp) va size (λ _ p, with_prot prot <$> p)) ∧
    ∀ a, pages_in va size a → is_Some (tr_at s a) →
      changed = true ∧ ∃ op, tlb_ops s' = op :: tlb_ops s ∧ covers a op) s.
Proof.
  intros Hok Hva Hsz Hr Hu Hvm Hsm Hns. unfold ArchMmuProtect. case_if E; [lia|]. wp_step.
  assert ((size + PAGE_SIZE - 1) / PAGE_SIZE = size / PAGE_SIZE) as -> by (unfold PAGE_SIZE in *; Z.div_mod_to_equations; lia).
  pose proof (rounds size PAGE_SIZE ltac:(lia) eq_refl Hsm) as Hn.
  apply (wp_protect_pages s); try (done || lia).
  - rewrite Z.add_0_r, Z.sub_0_r. intros a Ha. split; [|by apply Hns]. destruct Ha. apply valid_idx; [lia|]. intros Ht. specialize (Hu Ht). lia.
  - split; [done|]. split; [done|]. split; [|split; [done|]; intros a [Ha _]; lia]. intros r i j _ _. unfold set_range. rewrite decide_False; [done|lia].
  - intros c s' (Hok' & Hts & Htr' & Ht & HP). wp_step. unfold flush_asid, flush_tlb. apply wp_when; intros Ec; [wp_step|]; wp_step.
    + split; [by apply mmu_ok_tlb_ops|]. do 2 (split; [done|]). intros a Ha Hs. split; [done|]. eexists. split; [simpl; by rewrite Ht|apply covers_flush_asid].
    + do 3 (split; [done|]). intros a Ha Hs. by rewrite (HP a Ha Hs) in Ec.
Qed.

(** [ArchMmuTranslate] is the table walk. *)
Lemma root_nonzero s : mmu_ok roots s → pt_root_physaddr sp ≠ 0.
Proof.
  intros Hok. assert (valid roots (sp_root sp) 0) as Hv by (split; [done|destruct (mo_roots _ _ Hok _ Hsp) as [-> | ->]; lia]).
  pose proof (root_page_in roots s Hok _ _ Hv) as Hin. rewrite (proj1 (root_page roots s Hok _ _ Hv)) in Hin.
  destruct (mo_align _ _ Hok _ (proj2 (elem_of_app _ _ _) (or_introl Hin))) as [_ Hp]. simpl in Hp. rewrite Z.mul_0_r in Hp. lia.
Qed.
Lemma base_lor e m k va : 0 ≤ k → Z.lor (Z.land e (m * 2 ^ k)) (Z.land va (Z.ones k)) = Z.land e (m * 2 ^ k) + va mod 2 ^ k.
Proof.
  intros Hk. rewrite Z.land_ones by lia. set (x := Z.land e (m * 2 ^ k)).
  assert (x mod 2 ^ k = 0) as Hx.
  { rewrite <- Z.land_ones by lia. unfold x. rewrite <- Z.land_assoc, Z.land_ones, Z.mod_mul by lia. apply Z.land_0_r. }
  replace x with (x / 2 ^ k * 2 ^ k) by (pose proof (Z.div_mod x (2 ^ k)); lia). apply lor_pack; [done|]. apply Z.mod_pos_bound. lia.
Qed.

(** Evaluates the comparisons of two descriptor types. *)
Ltac desc_eqb :=
  repeat match goal with
  | |- context [?a =? ?b] => let r := eval vm_compute in (a =? b) in
      lazymatch r with true => change (a =? b) with true | false => change (a =? b) with false end
  end; cbn [orb].

Lemma wp_Translate s va Q :
  mmu_ok roots s → valid roots (sp_root sp) (L1_IDX va) → 0 ≤ va < 2 ^ 32 →
  Q (match tr_at s va with Some p => pte_pa p + va mod PAGE_SIZE | None => 0 end) s →
  wp (ArchMmuTranslate (pt_root_physaddr sp) va) Q s.
Proof.
  intros Hok Hv Hva HQ. unfold ArchMmuTranslate, rd. rewrite (proj2 (Z.eqb_neq _ _) (root_nonzero s Hok)). wp_step. wp_step.
  change (words s (pt_root_physaddr sp + 4 * L1_IDX va)) with (entry s (sp_root sp) (L1_IDX va)).
  unfold tr_at, tr, walk in HQ. fold (entry s (sp_root sp) (L1_IDX va)) in HQ.
  set (e := entry s (sp_root sp) (L1_IDX va)) in *. fold (desc_type e).
  destruct (type_cases e) as [E|[E|[E|E]]]; [apply (mo_words _ _ Hok)|rewrite E in *; revert HQ; desc_eqb; intros HQ..].
  - by wp_step.
  - wp_step. wp_step. rewrite small_tag. fold (l2_base e). set (w := words s _) in *. destruct (Z.testbit w 1); simpl; wp_step; [|done].
    by rewrite (base_lor w (2 ^ 20 - 1) 12).
  - wp_step. rewrite (base_lor e (2 ^ 12 - 1) 20) by lia.
    replace (va mod 2 ^ 20) with (PAGE_SIZE * L2_IDX va + va mod PAGE_SIZE); [by rewrite Z.add_assoc|].
    rewrite (proj2 (idx_of va Hva)). unfold PAGE_SIZE. Z.div_mod_to_equations. lia.
  - by destruct (mo_type _ _ Hok _ _ Hv).
Qed.
End ranges.

(** C15: [ArchMmuMap] either maps exactly the pages of the range, each to its frame with
    the requested attributes, or fails with no page mapped: then at most a prefix of the
    range is unmapped.  Either way no other translation of any space changes, the tables
    stay disjoint, and nothing outside the table pages is written. *)
Theorem ArchMmuMap_range {U : universe} roots sp s va pa size prot mt :
  mmu_ok roots s → sp_root sp ∈ roots → 0 ≤ va → 0 ≤ pa → 0 ≤ size → va + size ≤ 2 ^ 32 → pa + size ≤ 2 ^ 32 →
  wp (ArchMmuMap sp va pa size prot mt) (λ ok s', mmu_ok roots s' ∧
    if ok then
      tr_upd roots s s' (set_range (sp_root sp) va size (λ a _, Some (pte_of (pa + (a - va)) prot mt)))
    else ∃ k, 0 ≤ k ≤ size ∧ tr_upd roots s s' (set_range (sp_root sp) va k (λ _ _, None))) s.
Proof.
  intros Hok Hsp Hva Hpa Hsz Hr Hr'. eapply wp_mono; [by apply (wp_ArchMmuMap roots sp Hsp)|].
  intros [] s' [Hok' H]; (split; [done|]); apply H.
Qed.


(** [ArchMmuProtect] returns for every page-aligned range below 4 GiB, and changes
    exactly the permission bits of the pages mapped in it, provided the sections it meets
    lie inside the range; if there was such a page it says so and flushes the space. *)
Theorem ArchMmuProtect_range {U : universe} roots sp s va size prot :
  mmu_ok roots s → sp_root sp ∈ roots →
  0 ≤ va → 0 < size < 2 ^ 32 → va + size ≤ 2 ^ 32 → (as_type sp = ADDRESS_SPACE_USER → va + size ≤ USER_VA_TOP) →
  va mod PAGE_SIZE = 0 → size mod PAGE_SIZE = 0 →
  (∀ a, pages_in va size a → desc_type (entry s (sp_root sp) (L1_IDX a)) = DESC_SECTION →
     va ≤ SECTION_SIZE * L1_IDX a ∧ SECTION_SIZE * L1_IDX a + SECTION_SIZE ≤ va + size) →
  wp (ArchMmuProtect sp va size prot) (λ changed s', mmu_ok roots s' ∧
    tr_upd roots s s' (set_range (sp_root sp) va size (λ _ p, with_prot prot <$> p)) ∧
    ∀ a, pages_in va size a → is_Some (tr_at sp s a) →
      changed = true ∧ ∃ op, tlb_ops s' = op :: tlb_ops s ∧ covers sp a op) s.
Proof.
  intros Hok Hsp Hva Hsz Hr Hu Hvm Hsm Hns. eapply wp_mono; [by apply (wp_ArchMmuProtect roots sp Hsp)|].
  intros c s' (Hok' & Hts & H). done.
Qed.

(** A user space with an empty root table of two pages at 0x4000, and three free frames. *)
Module MmuDemo.
Definition space : AddressSpace := mkAs 0x4000 (mkVec 0 [] 0 0) ADDRESS_SPACE_USER (mkToken 3 1).
Definition roots : list (Z * Z) := [sp_root space].
Definition empty : mst := mkMst (λ _, 0) [] [0x8000; 0x9000; 0xA000] [true; true; true] [].
#[local] Instance here : universe := mkUniverse [0x4000; 0x5000; 0x8000; 0x9000; 0xA000] (λ _, 0).
Definition RW_USER : Z := 1 + 2 + 8.
Definition RO_USER : Z := 1 + 8.

Lemma empty_ok : mmu_ok roots empty.
Proof.
  split; try done.
  - by vm_compute; repeat constructor; set_solver.
  - apply Forall_forall. change (all_pages roots empty) with [0x4000; 0x5000; 0x8000; 0x9000; 0xA000].
    repeat (apply Forall_cons; split; [done|]). by apply Forall_nil.
  - intros r [->|?%elem_of_nil]%elem_of_cons; [by left|done].
  - intros e He. by apply elem_of_nil in He.
Qed.

Lemma ArchMmuMap_range_witness :
  wp (ArchMmuMap space 0x10000 0x20000 0x2000 RW_USER VM_MEM_NORMAL) (λ ok s', mmu_ok roots s' ∧
    if ok then
      tr_upd roots empty s' (set_range (sp_root space) 0x10000 0x2000 (λ a _, Some (pte_of (0x20000 + (a - 0x10000)) RW_USER VM_MEM_NORMAL)))
    else ∃ k, 0 ≤ k ≤ 0x2000 ∧ tr_upd roots empty s' (set_range (sp_root space) 0x10000 k (λ _ _, None))) empty ∧
  wp (ArchMmuMap space 0x10000 0x20000 0x2000 RW_USER VM_MEM_NORMAL) (λ ok s',
    ok = true ∧ tr_at space s' 0x11000 = Some (pte_of 0x21000 RW_USER VM_MEM_NORMAL)) empty.
Proof.
  split; [|by vm_compute].
  by apply (ArchMmuMap_range roots space empty 0x10000 0x20000 0x2000 RW_USER VM_MEM_NORMAL empty_ok); [left|..].
Defined.


Lemma ArchMmuProtect_range_witness :
  wp (ArchMmuProtect space 0x10000 0x2000 RO_USER) (λ changed s', mmu_ok roots s' ∧
    tr_upd roots empty s' (set_range (sp_root space) 0x10000 0x2000 (λ _ p, with_prot RO_USER <$> p)) ∧
    ∀ a, pages_in 0x10000 0x2000 a → is_Some (tr_at space empty a) →
      changed = true ∧ ∃ op, tlb_ops s' = op :: tlb_ops empty ∧ covers space a op) empty.
Proof.
  apply (ArchMmuProtect_range roots space empty 0x10000 0x2000 RO_USER empty_ok); try done. by left.
Defined.

(** When the range starts inside a section, [ArchMmuProtect] goes on a megabyte
    further instead of at the end of the section: here the section is made read-only,
    below the range too, and the page at 0x200000, in the range, stays writable. *)
Theorem ArchMmuProtect_skips :
  wp (ArchMmuMap space 0x100000 0x40000000 SECTION_SIZE RW_USER VM_MEM_NORMAL ;;
      ArchMmuMap space 0x200000 0x50000000 PAGE_SIZE RW_USER VM_MEM_NORMAL ;;
      ArchMmuProtect space 0x180000 0x100000 RO_USER) (λ changed s,
    changed = true ∧
    tr_at space s 0x100000 = Some (pte_of 0x40000000 RO_USER VM_MEM_NORMAL) ∧
    tr_at space s 0x200000 = Some (pte_of 0x50000000 RW_USER VM_MEM_NORMAL)) empty.
Proof. by vm_compute. Qed.
End MmuDemo.
