(* ===== verification/MemRef.v ===== *)
(** The references to memory objects, and what dropping one does.

    References come from outside (regions of address spaces, handles) and from the DMA
    mappings of devices.  [mems_ok us] says that each object has at least as many counted
    references as there are in [us] and in the DMA mappings of live devices, so that an
    object with a reference is live, and that the pages of the shared objects belong to
    them alone.  [wp_MemObjUnref]: dropping one reference keeps this for the others, and
    gives back exactly pages of objects that nothing refers to any more. *)
From S2P Require Import Prelude Bitmap Handle KState Sched MemObj.

#[local] Open Scope Z_scope.

(** Who a frame belongs to: a page of an anonymous region, or a memory object. *)
Inductive frame_owner := OAnon (root i j : Z) | OMem (m i : Z).

Definition count (m : Z) (l : list Z) : nat := length (filter (λ x, x = m) l).
Definition dma_refs (ms : gmap Z MemObject) : list Z := dm_mem <$> mjoin (m_dma_maps <$> (map_to_list ms).*2).

Definition mem_ok (own : gmap Z frame_owner) (m : Z) (x : MemObject) : Prop :=
  m_kind x = MEMKIND_SHARED →
  length (m_page_addrs x) = Z.to_nat (m_page_count x) ∧ 0 ≤ m_page_count x < 2 ^ 19 ∧
  ∀ i, 0 ≤ i < m_page_count x → aget (m_page_addrs x) i ≠ 0 → own !! aget (m_page_addrs x) i = Some (OMem m i).

Record mems_ok (own : gmap Z frame_owner) (us : list Z) (ms : gmap Z MemObject) : Prop := {
  ms_live m : m ≠ 0 → m ∈ us ++ dma_refs ms →
    ∃ x, ms !! m = Some x ∧ Z.of_nat (count m (us ++ dma_refs ms)) ≤ m_ref_count x;
  ms_page m x : ms !! m = Some x → mem_ok own m x;
  ms_dma m x : ms !! m = Some x → m_dma_maps x ≠ [] → m_kind x = MEMKIND_DEVICE;
  ms_dma_mem m : m ∈ dma_refs ms → m ≠ 0 ∧ ∃ y, ms !! m = Some y ∧ m_kind y = MEMKIND_SHARED
}.

(** ** Counting *)

Lemma count_app m l l' : count m (l ++ l') = (count m l + count m l')%nat.
Proof. unfold count. by rewrite filter_app, length_app. Qed.
Lemma count_cons m x l : count m (x :: l) = ((if decide (x = m) then 1 else 0) + count m l)%nat.
Proof. unfold count. rewrite filter_cons. by case_decide. Qed.
Lemma count_in m l : m ∈ l ↔ (0 < count m l)%nat.
Proof.
  unfold count. split.
  - intros Hin. destruct (filter (λ x, x = m) l) eqn:E; simpl; [|lia].
    assert (m ∈ filter (λ x, x = m) l) as Hf by (by apply list_elem_of_filter). rewrite E in Hf. by apply elem_of_nil in Hf.
  - destruct (filter (λ x, x = m) l) as [|y l'] eqn:E; simpl; [lia|]. intros _.
    assert (y ∈ filter (λ x, x = m) l) as Hf by (rewrite E; by left). by apply list_elem_of_filter in Hf as [-> ?].
Qed.
#[global] Instance count_proper m : Proper ((≡ₚ) ==> eq) (count m).
Proof. intros l l' H. unfold count. by rewrite H. Qed.

Lemma dma_refs_insert ms m x : ms !! m = None → dma_refs (<[m := x]> ms) ≡ₚ (dm_mem <$> m_dma_maps x) ++ dma_refs ms.
Proof. intros H. unfold dma_refs. rewrite (map_to_list_insert ms m x H). simpl. by rewrite fmap_app. Qed.
Lemma dma_refs_delete ms m x : ms !! m = Some x → dma_refs ms ≡ₚ (dm_mem <$> m_dma_maps x) ++ dma_refs (delete m ms).
Proof. intros H. rewrite <- (insert_delete_id ms m x H) at 1. apply dma_refs_insert, lookup_delete_eq. Qed.
Lemma dma_refs_update ms m x x' : ms !! m = Some x → m_dma_maps x' = m_dma_maps x → dma_refs (<[m := x']> ms) ≡ₚ dma_refs ms.
Proof.
  intros H Hd. rewrite (dma_refs_delete ms m x H), <- Hd. rewrite <- (insert_delete_eq ms). by apply dma_refs_insert, lookup_delete_eq.
Qed.
Lemma dma_refs_in ms m x d : ms !! m = Some x → d ∈ m_dma_maps x → dm_mem d ∈ dma_refs ms.
Proof. intros H Hd. rewrite (dma_refs_delete ms m x H). apply elem_of_app. left. by apply list_elem_of_fmap_2. Qed.

Lemma mems_ok_perm own us us' ms : us ≡ₚ us' → mems_ok own us ms → mems_ok own us' ms.
Proof.
  intros Hp [H1 H2 H3 H4]. split; try done. intros m Hm Hin. rewrite <- Hp in Hin.
  destruct (H1 m Hm Hin) as (x & Hx & Hc). exists x. split; [done|]. by rewrite <- Hp.
Qed.

(** ** Dropping a reference *)

Definition pages_of (x : MemObject) : list Z := filter (λ pa, pa ≠ 0) ((λ i, aget (m_page_addrs x) i) <$> seqZ 0 (m_page_count x)).
Definition decref (x : MemObject) : MemObject := set_m_ref_count (m_ref_count x - 1) x.

Lemma wp_free_pages x n i k Q :
  (∀ fs, fs ≡ₚ filter (λ pa, pa ≠ 0) ((λ i, aget (m_page_addrs x) i) <$> seqZ i (Z.of_nat n)) → Q tt (set_pmm_frees (fs ++ pmm_frees k) k)) →
  wp (for_each n i (λ i, when (negb (aget (m_page_addrs x) i =? 0)) (PmmFreeFrame_k (aget (m_page_addrs x) i)))) Q k.
Proof.
  revert i k. induction n as [|n IH]; intros i k HQ; simpl.
  { wp_step. specialize (HQ [] (reflexivity _)). by destruct k. }
  wp_step. replace (Z.of_nat (S n)) with (Z.succ (Z.of_nat n)) in HQ by lia. rewrite seqZ_cons in HQ by lia.
  rewrite Z.pred_succ in HQ. rewrite fmap_cons, filter_cons in HQ. unfold PmmFreeFrame_k.
  apply wp_when; intros E; b2p; [wp_step|]; (apply IH; intros fs Hfs).
  - rewrite decide_True in HQ by done. specialize (HQ (fs ++ [aget (m_page_addrs x) i])). simpl in *.
    rewrite <- app_assoc in HQ. simpl in HQ. unfold set_pmm_frees in *. simpl. apply HQ.
    rewrite Hfs. by rewrite Permutation_app_comm.
  - rewrite decide_False in HQ by (intros Hn; by apply Hn). by apply HQ.
Qed.

Lemma wp_unref_shared d m x k Q :
  m ≠ 0 → mems k !! m = Some x → m_kind x = MEMKIND_SHARED → 0 < m_ref_count x → 0 ≤ m_page_count x →
  (m_ref_count x ≠ 1 → Q tt (set_mems (<[m := decref x]> (mems k)) k)) →
  (m_ref_count x = 1 → ∀ fs, fs ≡ₚ pages_of x → Q tt (set_mems (delete m (mems k)) (set_pmm_frees (fs ++ pmm_frees k) k))) →
  wp (MemObjUnref_ (S d) m) Q k.
Proof.
  intros Hm Hx Hk Hr Hc Hmany Hlast. cbn [MemObjUnref_]. rewrite (proj2 (Z.eqb_neq m 0) Hm). wp_step. apply wp_mem. exists x.
  split; [done|]. wp_step. apply wp_when; [intros _|intros ?%Z.ltb_ge; lia]. apply wp_upd_mem. exists x. split; [done|].
  wp_step. apply wp_mem. simpl. eexists. split; [by rewrite lookup_insert_eq|]. simpl. rewrite Hk.
  apply wp_when; intros E; b2p; [|apply Hmany; lia]. rewrite bool_decide_true by done.
  wp_step. apply wp_when; [intros _|done]. apply wp_free_pages. intros fs Hfs. rewrite Z2Nat.id in Hfs by done.
  rewrite bool_decide_false by done. wp_step. apply wp_when; [done|intros _]. wp_step. simpl. rewrite delete_insert_eq.
  specialize (Hlast ltac:(lia) fs Hfs). by destruct k.
Qed.

(** [fs] are frames of memory objects that [own'] no longer has. *)
Definition without (fs : list Z) (own : gmap Z frame_owner) : gmap Z frame_owner := filter (λ p, p.1 ∉ fs) own.
Record freed (own : gmap Z frame_owner) (fs : list Z) (own' : gmap Z frame_owner) : Prop := {
  fr_own : own' = without fs own;
  fr_nodup : NoDup fs;
  fr_mem pa : pa ∈ fs → ∃ m i, own !! pa = Some (OMem m i)
}.
Lemma without_Some fs own pa o : without fs own !! pa = Some o ↔ own !! pa = Some o ∧ pa ∉ fs.
Proof. unfold without. by rewrite map_lookup_filter_Some. Qed.
Lemma freed_nil own : freed own [] own.
Proof.
  split; [|constructor|by intros pa ?%elem_of_nil]. apply map_eq. intros pa. apply option_eq. intros o.
  rewrite without_Some. split; [|by intros [? _]]. intros H. split; [done|]. by intros ?%elem_of_nil.
Qed.
Lemma freed_app own fs own1 fs' own' : freed own fs own1 → freed own1 fs' own' → freed own (fs' ++ fs) own'.
Proof.
  intros [-> Hn Hm] [-> Hn' Hm']. split.
  - apply map_eq. intros pa. apply option_eq. intros o. rewrite !without_Some, elem_of_app. tauto.
  - apply NoDup_app. split_and!; [done| |done]. intros pa Hpa Hin. destruct (Hm' pa Hpa) as (m & i & Ho).
    by apply without_Some in Ho as [_ ?].
  - intros pa [Hin|Hin]%elem_of_app; [|auto]. destruct (Hm' pa Hin) as (m & i & [Ho _]%without_Some). eauto.
Qed.

(** The objects of [ms'] are among those of [ms], with the same kinds. *)
Definition fewer (ms ms' : gmap Z MemObject) : Prop :=
  ∀ m y', ms' !! m = Some y' → ∃ y, ms !! m = Some y ∧ m_kind y' = m_kind y.
Lemma fewer_trans ms ms1 ms2 : fewer ms ms1 → fewer ms1 ms2 → fewer ms ms2.
Proof. intros H1 H2 m y2 H. destruct (H2 m y2 H) as (y1 & Hy1 & ->). by apply H1. Qed.
Lemma fewer_delete ms m : fewer ms (delete m ms).
Proof. intros m' y' [_ H]%lookup_delete_Some. eauto. Qed.
Lemma fewer_decref ms m x : ms !! m = Some x → fewer ms (<[m := decref x]> ms).
Proof. intros Hx m' y' [[-> <-]|[_ H]]%lookup_insert_Some; eauto. Qed.

Section unref.
Context (own : gmap Z frame_owner) (us : list Z) (ms : gmap Z MemObject) (m : Z) (x : MemObject).
Context (Hok : mems_ok own (m :: us) ms) (Hm : m ≠ 0) (Hx : ms !! m = Some x).

Lemma unref_pos : Z.of_nat (count m (us ++ dma_refs ms)) < m_ref_count x.
Proof.
  destruct (ms_live _ _ _ Hok m Hm) as (x' & Hx' & Hc); [by left|]. rewrite Hx in Hx'. injection Hx' as <-.
  simpl in Hc. rewrite count_cons, decide_True in Hc by done. lia.
Qed.

Lemma decref_ok : m_ref_count x ≠ 1 → mems_ok own us (<[m := decref x]> ms).
Proof.
  intros Hr. pose proof unref_pos as Hp. pose proof (dma_refs_update ms m x (decref x) Hx eq_refl) as Hd.
  assert (∀ m', count m' (us ++ dma_refs (<[m := decref x]> ms)) = count m' (us ++ dma_refs ms)) as Hc by (intros; by rewrite Hd).
  split.
  - intros m' Hm' Hin%count_in. rewrite Hc in Hin |- *. destruct (decide (m' = m)) as [->|Hne].
    + exists (decref x). rewrite lookup_insert_eq. split; [done|]. simpl. lia.
    + destruct (ms_live _ _ _ Hok m' Hm') as (y & Hy & Hcy); [simpl; right; by apply count_in|].
      exists y. rewrite lookup_insert_ne by done. split; [done|]. simpl in Hcy. rewrite count_cons, decide_False in Hcy by done. lia.
  - intros m' y [[<- <-]|[_ Hy]]%lookup_insert_Some; [|by apply (ms_page _ _ _ Hok)]. exact (ms_page _ _ _ Hok m x Hx).
  - intros m' y [[<- <-]|[_ Hy]]%lookup_insert_Some; [|by apply (ms_dma _ _ _ Hok m')]. exact (ms_dma _ _ _ Hok m x Hx).
  - intros m' Hin. rewrite Hd in Hin. destruct (ms_dma_mem _ _ _ Hok m' Hin) as (Hm' & y & Hy & Hk). split; [done|].
    destruct (decide (m' = m)) as [->|Hne]; [|exists y; by rewrite lookup_insert_ne].
    exists (decref x). rewrite lookup_insert_eq. rewrite Hx in Hy. by injection Hy as <-.
Qed.

(** The last reference: the object goes, and its DMA mappings turn into references from
    outside. *)
Lemma delete_ok :
  m_ref_count x = 1 →
  mems_ok (if decide (m_kind x = MEMKIND_SHARED) then without (pages_of x) own else own)
    ((dm_mem <$> m_dma_maps x) ++ us) (delete m ms).
Proof.
  intros Hr. pose proof unref_pos as Hp. rewrite count_app in Hp. pose proof (dma_refs_delete ms m x Hx) as Hd.
  assert (∀ m', count m' (((dm_mem <$> m_dma_maps x) ++ us) ++ dma_refs (delete m ms)) = count m' (us ++ dma_refs ms)) as Hc.
  { intros m'. rewrite Hd, !count_app. lia. }
  split.
  - intros m' Hm' Hin%count_in. rewrite Hc in Hin |- *. assert (m' ≠ m) as Hne by (intros ->; rewrite count_app in Hin; lia).
    destruct (ms_live _ _ _ Hok m' Hm') as (y & Hy & Hcy); [simpl; right; by apply count_in|].
    exists y. rewrite lookup_delete_ne by done. split; [done|]. simpl in Hcy. rewrite count_cons, decide_False in Hcy by done. lia.
  - intros m' y [Hne Hy]%lookup_delete_Some Hk. destruct (ms_page _ _ _ Hok m' y Hy Hk) as (Hl & Hn & Hpg). split_and!; [done|lia..|].
    intros i Hi Hnz. specialize (Hpg i Hi Hnz). case_decide as Hs; [|done]. apply without_Some. split; [done|].
    intros [Hz (i' & Heq & Hi')%list_elem_of_fmap]%list_elem_of_filter.
    apply elem_of_seqZ in Hi'. destruct (ms_page _ _ _ Hok m x Hx Hs) as (_ & _ & Hpx). rewrite Heq in Hpg, Hz.
    rewrite Hpx in Hpg by (done || lia). congruence.
  - intros m' y [_ Hy]%lookup_delete_Some. by apply (ms_dma _ _ _ Hok m').
  - intros m' Hin. assert (m' ∈ dma_refs ms) as Hin' by (rewrite Hd; set_solver).
    destruct (ms_dma_mem _ _ _ Hok m' Hin') as (Hm' & y & Hy & Hk). split; [done|]. exists y. split; [|done].
    apply lookup_delete_Some. split; [|done]. intros <-. apply count_in in Hin'. lia.
Qed.

Lemma pages_freed : m_kind x = MEMKIND_SHARED → ∀ fs, fs ≡ₚ pages_of x → freed own fs (without (pages_of x) own).
Proof.
  intros Hk fs Hfs. destruct (ms_page _ _ _ Hok m x Hx Hk) as (Hl & Hn & Hpg). split.
  - apply map_eq. intros pa. apply option_eq. intros o. rewrite !without_Some. by rewrite Hfs.
  - rewrite Hfs. unfold pages_of. generalize (NoDup_seqZ 0 (m_page_count x)).
    assert (∀ i, i ∈ seqZ 0 (m_page_count x) → 0 ≤ i < m_page_count x) as Hr by (intros i ?%elem_of_seqZ; lia). revert Hr.
    generalize (seqZ 0 (m_page_count x)). induction l as [|i l IH]; intros Hr Hnd; [constructor|]. apply NoDup_cons in Hnd as [Hni Hnd].
    rewrite fmap_cons, filter_cons. assert (NoDup (filter (λ pa, pa ≠ 0) ((λ i, aget (m_page_addrs x) i) <$> l))) as Hrec by (apply IH; set_solver).
    case_decide as Hz; [|done]. constructor; [|done].
    intros [_ (i' & Heq & Hi')%list_elem_of_fmap]%list_elem_of_filter. apply Hni.
    pose proof (Hpg i ltac:(apply Hr; by left) Hz) as H1. rewrite Heq in H1, Hz. rewrite (Hpg i') in H1; [|apply Hr; by right|done].
    by injection H1 as ->.
  - intros pa Hin. rewrite Hfs in Hin. apply list_elem_of_filter in Hin as [Hz (i & -> & Hi%elem_of_seqZ)%list_elem_of_fmap].
    exists m, i. apply Hpg; [lia|done].
Qed.
End unref.

(** The state after frames and objects went. *)
Definition mems_to (ms : gmap Z MemObject) (fs : list Z) (k : kst) : kst := set_mems ms (set_pmm_frees (fs ++ pmm_frees k) k).

(** Dropping a reference to a shared object, with other objects around. *)
Lemma wp_unref_shared_in own us ms m x k d Q (fr : gmap Z MemObject) :
  mems_ok own (m :: us) ms → m ≠ 0 → ms !! m = Some x → m_kind x = MEMKIND_SHARED →
  fr ##ₘ ms → mems k = fr ∪ ms →
  (∀ ms' fs own', mems_ok own' us ms' → freed own fs own' → fewer ms ms' → Q tt (mems_to (fr ∪ ms') fs k)) →
  wp (MemObjUnref_ (S d) m) Q k.
Proof.
  intros Hok Hm Hx Hk Hdis Hmems HQ. destruct (ms_page _ _ _ Hok m x Hx Hk) as (_ & Hn & _).
  pose proof (unref_pos own us ms m x Hok Hm Hx) as Hp.
  assert (fr !! m = None) as Hfr by (eapply map_disjoint_Some_l; [by symmetry|done]).
  apply (wp_unref_shared d m x); [done| |done|lia|lia|..].
  - rewrite Hmems. by apply lookup_union_Some_r.
  - intros Hr. specialize (HQ (<[m := decref x]> ms) [] own (decref_ok own us ms m x Hok Hm Hx Hr) (freed_nil own) (fewer_decref ms m x Hx)).
    rewrite Hmems, insert_union_r by done. unfold mems_to in HQ. by destruct k.
  - intros Hr fs Hfs. pose proof (delete_ok own us ms m x Hok Hm Hx Hr) as Hok'. rewrite decide_True in Hok' by done.
    assert (m_dma_maps x = []) as Hdm.
    { destruct (m_dma_maps x) eqn:Ed; [done|]. rewrite (ms_dma _ _ _ Hok m x Hx) in Hk; [done|by rewrite Ed]. }
    rewrite Hdm in Hok'. simpl in Hok'.
    specialize (HQ (delete m ms) fs _ Hok' (pages_freed own us ms m x Hok Hm Hx Hk fs Hfs) (fewer_delete ms m)).
    rewrite Hmems, delete_union, (delete_id fr) by done. unfold mems_to in HQ. by destruct k.
Qed.

(** The DMA mappings of the device at [dev]. *)
Lemma wp_unref_maps dev xd maps : ∀ own us ms k Q,
  mems_ok own ((dm_mem <$> maps) ++ us) ms → ms !! dev = None → mems k = <[dev := xd]> ms →
  (∀ d, d ∈ maps → dm_mem d ≠ 0 ∧ ∀ y, ms !! dm_mem d = Some y → m_kind y = MEMKIND_SHARED) →
  (∀ ms' fs own', mems_ok own' us ms' → freed own fs own' → fewer ms ms' → Q tt (mems_to (<[dev := xd]> ms') fs k)) →
  wp (for_list maps (λ d', MemObjUnref_ 1 (dm_mem d'))) Q k.
Proof.
  induction maps as [|d maps IH]; intros own us ms k Q Hok Hdev Hmems Hk HQ; simpl.
  { wp_step. specialize (HQ ms [] own Hok (freed_nil own)). unfold mems_to in HQ. rewrite <- Hmems in HQ.
    replace k with (set_mems (mems k) (set_pmm_frees ([] ++ pmm_frees k) k)) by (by destruct k). apply HQ. intros m y Hy. eauto. }
  wp_step. destruct (Hk d) as [Hd0 Hdk]; [by left|].
  destruct (ms_live _ _ _ Hok (dm_mem d) Hd0) as (x & Hx & _); [simpl; by left|].
  apply (wp_unref_shared_in own ((dm_mem <$> maps) ++ us) ms (dm_mem d) x k 0 _ {[dev := xd]}); [done|done|done|auto|..].
  { by apply map_disjoint_singleton_l. }
  { by rewrite Hmems, insert_union_singleton_l. }
  intros ms1 fs1 own1 Hok1 Hfr1 Hfew. rewrite <- insert_union_singleton_l.
  assert (ms1 !! dev = None) as Hdev1.
  { destruct (ms1 !! dev) as [y|] eqn:E; [|done]. destruct (Hfew dev y E) as (? & ? & _). congruence. }
  apply (IH own1 us ms1); [done|done|by destruct k| |].
  - intros d' Hd'. destruct (Hk d') as [Hd0' Hdk']; [by right|]. split; [done|]. intros y Hy.
    destruct (Hfew _ y Hy) as (y0 & Hy0 & ->). by apply Hdk'.
  - intros ms' fs own' Hok' Hfr' Hfew'.
    specialize (HQ ms' (fs ++ fs1) own' Hok' (freed_app _ _ _ _ _ Hfr1 Hfr') (fewer_trans _ _ _ Hfew Hfew')).
    unfold mems_to in *. simpl. rewrite <- app_assoc in HQ. by destruct k.
Qed.

Lemma wp_unref_other own us m x k d Q :
  d = 1%nat →
  mems_ok own (m :: us) (mems k) → m ≠ 0 → mems k !! m = Some x → m_kind x ≠ MEMKIND_SHARED →
  (∀ ms' fs own', mems_ok own' us ms' → freed own fs own' → fewer (mems k) ms' → Q tt (mems_to ms' fs k)) →
  wp (MemObjUnref_ (S d) m) Q k.
Proof.
  intros Hd Hok Hm Hx Hk HQ. pose proof (unref_pos own us _ m x Hok Hm Hx) as Hp.
  cbn [MemObjUnref_]. rewrite (proj2 (Z.eqb_neq m 0) Hm). wp_step. apply wp_mem. exists x.
  split; [done|]. wp_step. apply wp_when; [intros _|intros ?%Z.ltb_ge; lia]. apply wp_upd_mem. exists x. split; [done|].
  wp_step. apply wp_mem. simpl. eexists. split; [by rewrite lookup_insert_eq|]. simpl. fold (decref x). rewrite (bool_decide_false _ Hk).
  apply wp_when; intros E; b2p.
  2: { specialize (HQ _ [] own (decref_ok own us _ m x Hok Hm Hx ltac:(lia)) (freed_nil own) (fewer_decref _ m x Hx)).
       unfold mems_to in HQ. by destruct k. }
  pose proof (delete_ok own us _ m x Hok Hm Hx ltac:(lia)) as Hok'. rewrite decide_False in Hok' by done.
  wp_step. apply wp_when; [done|intros _]. wp_step.
  assert (∀ ms' fs own', mems_ok own' us ms' → freed own fs own' → fewer (delete m (mems k)) ms' →
    wp (modify (λ s, set_mems (delete m (mems s)) s)) Q (mems_to (<[m := decref x]> ms') fs (set_mems (<[m := decref x]> (mems k)) k))) as Hend.
  { intros ms' fs own' H1 H2 H3. wp_step. unfold mems_to. simpl. rewrite delete_insert_id.
    - specialize (HQ ms' fs own' H1 H2 (fewer_trans _ _ _ (fewer_delete _ m) H3)). unfold mems_to in HQ. by destruct k.
    - destruct (ms' !! m) as [y|] eqn:Ey; [|done]. destruct (H3 m y Ey) as (y0 & Hy0 & _). by rewrite lookup_delete_eq in Hy0. }
  assert (mems (set_mems (<[m := decref x]> (mems k)) k) = <[m := decref x]> (delete m (mems k))) as Hmems by (by simpl; rewrite insert_delete_eq).
  apply wp_when; intros Ek.
  - subst d. apply (wp_unref_maps m (decref x) _ own us (delete m (mems k))); [done|apply lookup_delete_eq|done| |done].
    intros e He. destruct (ms_dma_mem _ _ _ Hok (dm_mem e) (dma_refs_in _ m x e Hx He)) as (He0 & y & Hy & Hky). split; [done|].
    intros y' [_ Hy']%lookup_delete_Some. congruence.
  - assert (m_dma_maps x = []) as Hdm.
    { destruct (m_dma_maps x) eqn:Ed; [done|]. apply bool_decide_eq_false in Ek. destruct Ek. apply (ms_dma _ _ _ Hok m x Hx). by rewrite Ed. }
    rewrite Hdm in Hok'. specialize (Hend (delete m (mems k)) [] own Hok' (freed_nil own)). unfold mems_to in Hend. rewrite <- Hmems in Hend.
    replace (set_mems (<[m := decref x]> (mems k)) k)
      with (mems_to (mems (set_mems (<[m := decref x]> (mems k)) k)) [] (set_mems (<[m := decref x]> (mems k)) k)) by (by destruct k).
    apply Hend. by intros ?; eauto.
Qed.

(** ** [MemObjUnref] drops one of the references *)
Lemma wp_MemObjUnref own us m k Q :
  mems_ok own (m :: us) (mems k) →
  (∀ ms' fs own', mems_ok own' us ms' → freed own fs own' → fewer (mems k) ms' → Q tt (mems_to ms' fs k)) →
  wp (MemObjUnref m) Q k.
Proof.
  intros Hok HQ. unfold MemObjUnref. destruct (decide (m = 0)) as [->|Hm].
  { cbn [MemObjUnref_]. simpl. wp_step. specialize (HQ (mems k) [] own).
    replace k with (mems_to (mems k) [] k) by (by destruct k). apply HQ; [|apply freed_nil|by intros ?; eauto].
    destruct Hok as [H1 H2 H3 H4]. split; try done. intros m Hm Hin.
    destruct (H1 m Hm) as (x & Hx & Hc); [simpl; by right|]. exists x. split; [done|]. simpl in Hc. rewrite count_cons, decide_False in Hc by done. lia. }
  destruct (ms_live _ _ _ Hok m Hm) as (x & Hx & _); [by left|].
  destruct (decide (m_kind x = MEMKIND_SHARED)) as [Hk|Hk].
  { apply (wp_unref_shared_in own us (mems k) m x k 1 _ ∅); [done..|apply map_disjoint_empty_l|by rewrite (left_id_L ∅ (∪))|].
    intros ms' fs own' H1 H2 H3. rewrite (left_id_L ∅ (∪)). by apply (HQ ms' fs own'). }
  by apply (wp_unref_other own us m x k 1).
Qed.

(** ** Taking a reference, and filling a page *)

(** The objects of [ms] live on in [ms'], with the same kinds. *)
Definition kept (ms ms' : gmap Z MemObject) : Prop :=
  ∀ m y, ms !! m = Some y → ∃ y', ms' !! m = Some y' ∧ m_kind y' = m_kind y.

Lemma wp_MemObjRef own us m k Q :
  mems_ok own us (mems k) → (m ≠ 0 → ∃ x, mems k !! m = Some x ∧ 0 ≤ m_ref_count x < 2 ^ 32 - 1) →
  (∀ ms', mems_ok own (m :: us) ms' → kept (mems k) ms' → Q tt (set_mems ms' k)) →
  wp (MemObjRef m) Q k.
Proof.
  intros Hok Hx HQ. unfold MemObjRef. case_if E; b2p.
  { wp_step. replace k with (set_mems (mems k) k) by (by destruct k). subst m. apply HQ; [|by intros ???; eauto].
    destruct Hok as [H1 H2 H3 H4]. split; try done. intros m Hm Hin. destruct (H1 m Hm) as (x & Hx' & Hc); [set_solver|].
    exists x. split; [done|]. simpl. by rewrite count_cons, decide_False by done. }
  destruct (Hx E) as (x & Hm & Hr). set (x' := set_m_ref_count (w32 (m_ref_count x + 1)) x).
  apply wp_upd_mem. exists x. split; [done|]. pose proof (dma_refs_update (mems k) m x x' Hm eq_refl) as Hd. apply (HQ (<[m := x']> (mems k))).
  - destruct Hok as [H1 H2 H3 H4].
    assert (∀ m', count m' ((m :: us) ++ dma_refs (<[m := x']> (mems k))) =
      ((if decide (m = m') then 1 else 0) + count m' (us ++ dma_refs (mems k)))%nat) as Hc.
    { intros m'. simpl. rewrite count_cons. by rewrite Hd. }
    split.
    + intros m' Hm' Hin%count_in. rewrite Hc in Hin |- *. destruct (decide (m = m')) as [<-|Hne].
      * exists x'. rewrite lookup_insert_eq. split; [done|]. simpl. rewrite w32_small by lia.
        destruct (decide (count m (us ++ dma_refs (mems k)) = 0%nat)) as [->|Hn]; [lia|].
        destruct (H1 m E) as (y & Hy & Hcy); [apply count_in; lia|]. rewrite Hm in Hy. injection Hy as <-. lia.
      * destruct (H1 m' Hm') as (y & Hy & Hcy); [apply count_in; lia|]. exists y. by rewrite lookup_insert_ne.
    + intros m' y [[<- <-]|[_ Hy]]%lookup_insert_Some; [exact (H2 m x Hm)|by apply H2].
    + intros m' y [[<- <-]|[_ Hy]]%lookup_insert_Some; [exact (H3 m x Hm)|by apply (H3 m')].
    + intros m' Hin. rewrite Hd in Hin. destruct (H4 m' Hin) as (Hm' & y & Hy & Hk). split; [done|].
      destruct (decide (m' = m)) as [->|Hne]; [|exists y; by rewrite lookup_insert_ne].
      exists x'. rewrite lookup_insert_eq. rewrite Hm in Hy. by injection Hy as <-.
  - intros m' y Hy. destruct (decide (m' = m)) as [->|Hne]; [|exists y; by rewrite lookup_insert_ne].
    exists x'. rewrite lookup_insert_eq. rewrite Hm in Hy. by injection Hy as <-.
Qed.

Lemma mems_ok_own own own' us ms : (∀ pa o, own !! pa = Some o → own' !! pa = Some o) → mems_ok own us ms → mems_ok own' us ms.
Proof.
  intros Ho [H1 H2 H3 H4]. split; try done. intros m x Hx Hk. destruct (H2 m x Hx Hk) as (Hl & Hn & Hp).
  split; [done|]. split; [done|]. intros i Hi Hz. by apply Ho, Hp.
Qed.
(** The flags of an object change. *)
Lemma mems_ok_flags own us ms m x x' :
  mems_ok own us ms → ms !! m = Some x → m_kind x' = m_kind x → m_ref_count x' = m_ref_count x → m_dma_maps x' = m_dma_maps x →
  m_page_addrs x' = m_page_addrs x → m_page_count x' = m_page_count x → mems_ok own us (<[m := x']> ms) ∧ kept ms (<[m := x']> ms).
Proof.
  intros [H1 H2 H3 H4] Hm Hk Hr Hd Ha Hc. pose proof (dma_refs_update ms m x x' Hm Hd) as Hp.
  assert (∀ m' y, ms !! m' = Some y → ∃ y', <[m := x']> ms !! m' = Some y' ∧ m_kind y' = m_kind y ∧ m_ref_count y' = m_ref_count y) as Hkept.
  { intros m' y Hy. destruct (decide (m' = m)) as [->|Hne]; [exists x'; rewrite lookup_insert_eq; rewrite Hm in Hy; by injection Hy as <-|].
    exists y. by rewrite lookup_insert_ne. }
  split; [split|].
  - intros m' Hz Hin. rewrite Hp in Hin. destruct (H1 m' Hz Hin) as (y & Hy & Hn). destruct (Hkept m' y Hy) as (y' & Hy' & _ & Hr').
    exists y'. split; [done|]. by rewrite Hp, Hr'.
  - intros m' y [[<- <-]|[_ Hy]]%lookup_insert_Some; [|by apply H2]. pose proof (H2 m x Hm) as H. unfold mem_ok in *. by rewrite Hk, Ha, Hc.
  - intros m' y [[<- <-]|[_ Hy]]%lookup_insert_Some; [rewrite Hd, Hk; by apply (H3 m)|by apply (H3 m')].
  - intros m' Hin. rewrite Hp in Hin. destruct (H4 m' Hin) as (Hz & y & Hy & Hky). split; [done|].
    destruct (Hkept m' y Hy) as (y' & Hy' & Hk' & _). exists y'. by rewrite Hk'.
  - intros m' y Hy. destruct (Hkept m' y Hy) as (y' & Hy' & Hk' & _). eauto.
Qed.
(** The page [i] of a shared object becomes [pa]; 0 takes it away. *)
Lemma mems_ok_page own us ms m x i pa :
  mems_ok own us ms → ms !! m = Some x → m_kind x = MEMKIND_SHARED → 0 ≤ i < m_page_count x →
  (pa ≠ 0 → own !! pa = Some (OMem m i)) →
  mems_ok own us (<[m := set_m_page_addrs (aset (m_page_addrs x) i pa) x]> ms).
Proof.
  intros Hok Hx Hk Hi Hpa. set (x' := set_m_page_addrs _ x). pose proof (dma_refs_update ms m x x' Hx eq_refl) as Hd.
  destruct Hok as [H1 H2 H3 H4].
  assert (∀ m' y, ms !! m' = Some y → ∃ y', <[m := x']> ms !! m' = Some y' ∧ m_kind y' = m_kind y ∧ m_ref_count y' = m_ref_count y) as Hsame.
  { intros m' y Hy. destruct (decide (m' = m)) as [->|Hne]; [|exists y; by rewrite lookup_insert_ne].
    exists x'. rewrite lookup_insert_eq. rewrite Hx in Hy. by injection Hy as <-. }
  split.
  - intros m' Hm' Hin. rewrite Hd in Hin. destruct (H1 m' Hm' Hin) as (y & Hy & Hc). destruct (Hsame m' y Hy) as (y' & Hy' & _ & Hr).
    exists y'. split; [done|]. rewrite Hd. lia.
  - intros m' y [[<- <-]|[_ Hy]]%lookup_insert_Some; [|by apply H2]. intros _. destruct (H2 m x Hx Hk) as (Hl & Hn & Hp).
    split; [simpl; by rewrite length_aset|]. split; [done|]. intros j Hj. cbn [m_page_addrs x' set_m_page_addrs m_page_count] in *.
    destruct (decide (j = i)) as [->|Hne]; [rewrite aget_aset_eq by lia; auto|]. rewrite aget_aset_ne by lia. by apply Hp.
  - intros m' y [[<- <-]|[_ Hy]]%lookup_insert_Some; [exact (H3 m x Hx)|by apply (H3 m')].
  - intros m' Hin. rewrite Hd in Hin. destruct (H4 m' Hin) as (Hm' & y & Hy & Hky). split; [done|].
    destruct (Hsame m' y Hy) as (y' & Hy' & Hk' & _). exists y'. split; [done|congruence].
Qed.
