(* ===== verification/UserMap.v ===== *)
(** kernel/mm/vmm/vmm_map.c, vmm_user.c and the rest of vmm_region.c: mappings of user
    spaces, page faults, and the life of address spaces; [MemObjUnmapAndDrop] of
    kernel/mm/mem_object.c; the mapping verbs of kernel/svc/svc_managememory.c.

    The state [vst] puts the kernel objects, the translation tables, the ASIDs and the
    address spaces side by side.  Frames that [MemObjUnref] gives back join the free list
    of the tables' state, which is the one [PmmAllocFrame] takes from.  Address spaces
    are non-NULL where the code checks for NULL only to be safe. *)
From S2P Require Import Prelude Bitmap Handle KState Sched MemObj Region Asid Mmu.

#[local] Open Scope Z_scope.

Definition USER_MMAP_BASE : Z := 0x20000000.
Definition USER_DEVICE_BASE : Z := 0x7F000000.
Definition USER_DEVICE_LIMIT : Z := 0x7F7FE000.
Definition VM_FLAG_NONE : Z := 0.
Definition VM_FLAG_PINNED : Z := 1.
Definition VM_FLAG_GUARD : Z := 4.
Definition HANDLE_ANON : Z := -1.
Definition MAP_ANON_MAX : Z := 32 * 1024 * 1024.
Definition PROT_RWX : Z := Z.lor (Z.lor PROT_EXEC PROT_WRITE) PROT_READ.

Record vst := mkV {
  v_k : kst;
  v_m : mst;
  v_a : ast;
  v_as : gmap Z AddressSpace;
  v_cur : option Z
}.
Definition set_v_k (x : kst) (v : vst) : vst := mkV x (v_m v) (v_a v) (v_as v) (v_cur v).
Definition set_v_m (x : mst) (v : vst) : vst := mkV (v_k v) x (v_a v) (v_as v) (v_cur v).
Definition set_v_a (x : ast) (v : vst) : vst := mkV (v_k v) (v_m v) x (v_as v) (v_cur v).
Definition set_v_as (x : gmap Z AddressSpace) (v : vst) : vst := mkV (v_k v) (v_m v) (v_a v) x (v_cur v).

Abbreviation VM := (M vst).

(** Operations of the parts. *)
Definition on_k {A} (m : KM A) : VM A := λ v,
  match m (v_k v) with
  | Ok (a, k) => Ok (a, set_v_m (set_frames (pmm_frees k ++ frames (v_m v)) (v_m v)) (set_v_k (set_pmm_frees [] k) v))
  | Panic => Panic
  | Diverge => Diverge
  end.
Definition on_m {A} (m : MM A) : VM A := λ v,
  match m (v_m v) with Ok (a, s) => Ok (a, set_v_m s v) | Panic => Panic | Diverge => Diverge end.
Definition on_a {A} (m : M ast A) : VM A := λ v,
  match m (v_a v) with Ok (a, s) => Ok (a, set_v_a s v) | Panic => Panic | Diverge => Diverge end.

Definition get_as (a : Z) : VM AddressSpace :=
  let! m := gets v_as in match m !! a with Some sp => ret sp | None => panic end.
Definition put_as (a : Z) (sp : AddressSpace) : VM unit := modify (λ v, set_v_as (<[a := sp]> (v_as v)) v).
Definition set_as_regions (r : region_vec) (sp : AddressSpace) : AddressSpace :=
  mkAs (pt_root_physaddr sp) r (as_type sp) (asid_token sp).
(** [space->as] *)
Definition as_of (space_ : Z) : VM Z :=
  let! x := on_k (space space_) in match s_as x with Some a => ret a | None => panic end.

(** * Ranges (vmm_map.c) *)

Definition is_user (sp : AddressSpace) : bool := bool_decide (as_type sp = ADDRESS_SPACE_USER).
Definition writable (prot : Z) : bool := truthy (Z.land prot PROT_WRITE).
Definition executable (prot : Z) : bool := truthy (Z.land prot PROT_EXEC).

Definition VmmMapRange (sp : AddressSpace) (va pa size prot : Z) (memtype : VirtMemType) : MM bool :=
  if size =? 0 then ret false else
  if negb (va mod 0x1000 =? 0) then ret false else
  if negb (pa mod 0x1000 =? 0) then ret false else
  if UINTPTR_MAX - size <? va then ret false else
  if is_user sp && writable prot && executable prot then ret false else
  if is_user sp && ((USER_VA_TOP <=? va) || (USER_VA_TOP <? w32 (va + size))) then ret false else
  ArchMmuMap sp va pa size prot memtype.

Definition VmmUnmapRange (sp : AddressSpace) (va size : Z) (flush : bool) : MM bool :=
  if size =? 0 then ret false else
  if negb (va mod PAGE_SIZE =? 0) then ret false else
  if negb (size mod PAGE_SIZE =? 0) then ret false else
  ArchMmuUnmap sp va size flush.

(** [r->prot = new_prot] of the region at index [i]. *)
Definition set_prot (v : Z) (r : VirtMemRegion) : VirtMemRegion :=
  mkRegion (vaddr_start r) (size r) v (max_prot r) (memtype r) (owner r) (flags r) (backing r) (backing_page_offset r).
Definition region_set_prot (v : region_vec) (i prot : Z) : region_vec :=
  mkVec (data_at v) (aset (data v) i (set_prot prot (aget (data v) i))) (len v) (cap v).

Definition VmmProtectPage (sp : AddressSpace) (va size_ new_prot : Z) : MM (bool * AddressSpace) :=
  if size_ =? 0 then ret (false, sp) else
  match VmmFindRegion (as_regions sp) va with
  | None => diverge
  | Some None => ret (false, sp)
  | Some (Some i) =>
      let r := aget (data (as_regions sp)) i in
      if w32 (vaddr_start r + size r) <? w32 (va + size_) then ret (false, sp) else
      if bool_decide (memtype r = VM_MEM_DEVICE) && executable new_prot then ret (false, sp) else
      if bool_decide (memtype r = VM_MEM_NORMAL_NC) && executable new_prot then ret (false, sp) else
      if truthy (Z.land (flags r) VM_FLAG_PINNED) then ret (false, sp) else
      ArchMmuProtect sp va size_ new_prot ;;
      ret (true, set_as_regions (region_set_prot (as_regions sp) i new_prot) sp)
  end.

(** * Regions of a space *)

Definition VmmAddRegion_ (a : Z) (region : VirtMemRegion) : VM bool :=
  let! sp := get_as a in
  let! g := VmmAddRegion (λ _, on_k kmem_alloc) (λ _, ret tt) (λ m, on_k (MemObjRef m)) (as_regions sp) region in
  let '(ok, v) := g in
  put_as a (set_as_regions v sp) ;;
  ret ok.
Definition VmmRemoveRegion_ (a vaddr size_ : Z) : VM bool :=
  let! sp := get_as a in
  let! g := VmmRemoveRegion (λ m, on_k (MemObjUnref m)) (λ va n fl, on_m (VmmUnmapRange sp va n fl) ;; ret tt) (as_regions sp) vaddr size_ in
  let '(ok, v) := g in
  put_as a (set_as_regions v sp) ;;
  ret ok.

(** * Page faults *)

Definition is_shared (r : VirtMemRegion) : bool := bool_decide (owner r = VM_BACKING_SHARED) && negb (backing r =? 0).
Definition page_index (r : VirtMemRegion) (page_va : Z) : Z :=
  w32 ((page_va - vaddr_start r) / PAGE_SIZE + backing_page_offset r).
Definition set_page (i pa : Z) (x : MemObject) : MemObject := set_m_page_addrs (aset (m_page_addrs x) i pa) x.

(** A zeroed frame; 0 when there is none. *)
Definition zeroed_frame : VM Z :=
  let! pa := on_m PmmAllocFrame_m in
  if pa =? 0 then ret 0 else on_m (bzero pa PAGE_SIZE) ;; ret pa.

(** The frame for the page, and whether it was allocated for it. *)
Definition fault_frame (r : VirtMemRegion) (page_va : Z) : VM (option (Z * bool)) :=
  if is_shared r then
    if page_va <? vaddr_start r then ret None else
    let! x := on_k (mem (backing r)) in
    let i := page_index r page_va in
    if m_page_count x <=? i then ret None else
    let new_pa := aget (m_page_addrs x) i in
    if negb (new_pa =? 0) then ret (Some (new_pa, false)) else
    let! pa := zeroed_frame in
    if pa =? 0 then ret None else
    on_k (upd_mem (backing r) (set_page i pa)) ;;
    ret (Some (pa, true))
  else if bool_decide (owner r = VM_BACKING_ANON) then
    let! pa := zeroed_frame in
    if pa =? 0 then ret None else ret (Some (pa, true))
  else ret None.

(** Taking the frame back when it could not be mapped. *)
Definition fault_undo (r : VirtMemRegion) (page_va new_pa : Z) : VM unit :=
  when (is_shared r)
    (let! x := on_k (mem (backing r)) in
     let i := page_index r page_va in
     when ((i <? m_page_count x) && (aget (m_page_addrs x) i =? new_pa)) (on_k (upd_mem (backing r) (set_page i 0)))) ;;
  on_m (PmmFreeFrame_m new_pa).

Definition VmmPageFaultHandle (sp : AddressSpace) (r : VirtMemRegion) (page_va : Z) : VM bool :=
  let! pa := on_m (ArchMmuTranslate (pt_root_physaddr sp) page_va) in
  if negb (pa =? 0) then ret true else
  if bool_decide (memtype r = VM_MEM_DEVICE) then ret false else
  let! f := fault_frame r page_va in
  match f with
  | None => ret false
  | Some (new_pa, allocated_new) =>
      let! ok := on_m (VmmMapRange sp page_va new_pa PAGE_SIZE (prot r) (memtype r)) in
      if negb ok then when allocated_new (fault_undo r page_va new_pa) ;; ret false
      else ret true
  end.

(** The loop of [VmmCheckUserFault]; every round advances by a page, so as many rounds
    as there are pages are enough. *)
Fixpoint check_pages (sp : AddressSpace) (write : bool) (end_va : Z) (n : nat) (page_va : Z) : VM bool :=
  if negb (page_va <? end_va) then ret true else
  match n with
  | O => diverge
  | S n' =>
      let! pa := on_m (ArchMmuTranslate (pt_root_physaddr sp) page_va) in
      if negb (pa =? 0) then check_pages sp write end_va n' (w32 (page_va + PAGE_SIZE)) else
      match VmmFindRegion (as_regions sp) page_va with
      | None => diverge
      | Some None => ret false
      | Some (Some i) =>
          let r := aget (data (as_regions sp)) i in
          if truthy (Z.land (flags r) VM_FLAG_GUARD) then ret false else
          if negb (truthy (Z.land (prot r) PROT_READ)) then ret false else
          if write && negb (writable (prot r)) then ret false else
          let! ok := VmmPageFaultHandle sp r page_va in
          if negb ok then ret false else check_pages sp write end_va n' (w32 (page_va + PAGE_SIZE))
      end
  end.
Definition VmmCheckUserFault (sp : AddressSpace) (va len_ : Z) (write : bool) : VM bool :=
  if len_ =? 0 then ret true else
  if UINTPTR_MAX - len_ <? va then ret false else
  let end_ := va + len_ in
  if is_user sp && ((USER_VA_TOP <=? va) || (USER_VA_TOP <? end_)) then ret false else
  let page_va := align_down va PAGE_SIZE in
  let end_va := align_up end_ PAGE_SIZE in
  check_pages sp write end_va (Z.to_nat ((end_va - page_va) / PAGE_SIZE)) page_va.

(** * Mappings of user spaces (vmm_user.c) *)

(** Returns the error code and the address. *)
Definition VmmMapAnon (space_ hint size_ prot_ : Z) : VM (Z * Z) :=
  if size_ =? 0 then ret (ERR_BADARG, 0) else
  if MAP_ANON_MAX <? size_ then ret (ERR_OVERFLOW, 0) else
  if negb (size_ mod PAGE_SIZE =? 0) then ret (ERR_BADARG, 0) else
  let! a := as_of space_ in
  let! sp := get_as a in
  let va : Z + Z :=
    if negb (hint =? 0) then
      if negb (hint mod PAGE_SIZE =? 0) then inl ERR_BADARG else
      if (USER_VA_TOP <=? hint) || (USER_VA_TOP - hint <? size_) then inl ERR_BADARG else inr hint
    else
      let va := VmmFindFreeVa (as_regions sp) USER_MMAP_BASE USER_DEVICE_BASE size_ in
      if va =? 0 then inl ERR_NOMEM else inr va in
  match va with
  | inl err => ret (err, 0)
  | inr va =>
      let! ok := VmmAddRegion_ a (mkRegion va size_ (Z.lor prot_ VM_PROT_USER) (Z.lor (Z.lor PROT_READ PROT_WRITE) PROT_EXEC)
                                   VM_MEM_NORMAL VM_BACKING_ANON VM_FLAG_NONE 0 0) in
      if negb ok then ret (ERR_NOMEM, 0) else ret (ZUZU_OK, va)
  end.

Definition HandleProtLimit (perms_ : Z) : Z :=
  Z.lor (Z.lor PROT_READ (if truthy (Z.land perms_ PERM_WRITE) then PROT_WRITE else 0))
        (if truthy (Z.land perms_ PERM_EXEC) then PROT_EXEC else 0).

(** [entry->mapped_va = va] of the entry at slot [i] of the space's table. *)
Definition set_entry_va (space_ i va : Z) : VM unit :=
  on_k (upd_space space_ (λ x,
    match HandleTableGet (s_handle_table x) i with
    | Some e => set_s_handle_table (put_entry (s_handle_table x) i (set_mapped_va va e)) x
    | None => x
    end)).

(** The address for a mapping of [size_] bytes in the window [lo, hi). *)
Definition window_va (v : region_vec) (hint size_ lo hi : Z) : Z + Z :=
  if hint =? 0 then
    let va := VmmFindFreeVa v lo hi size_ in if va =? 0 then inl ERR_NOMEM else inr va
  else
    if negb (hint mod PAGE_SIZE =? 0) then inl ERR_BADARG else
    if negb ((lo <=? hint) && (hint <? hi) && (size_ <=? hi - hint)) then inl ERR_BADARG else inr hint.

Definition map_shared (a m : Z) (x : MemObject) (prot_ limit hint : Z) : VM (Z + Z) :=
  let size_ := w32 (m_page_count x * PAGE_SIZE) in
  let uncached := truthy (Z.land (m_flags x) MEM_UNCACHED) in
  if uncached && executable prot_ then ret (inl ERR_NOPERM) else
  let! sp := get_as a in
  match window_va (as_regions sp) hint size_ USER_MMAP_BASE USER_DEVICE_BASE with
  | inl err => ret (inl err)
  | inr va =>
      let! ok := VmmAddRegion_ a (mkRegion va size_ (Z.lor prot_ VM_PROT_USER) limit
                                   (if uncached then VM_MEM_NORMAL_NC else VM_MEM_NORMAL) VM_BACKING_SHARED VM_FLAG_NONE m 0) in
      if negb ok then ret (inl ERR_NOMEM) else ret (inr va)
  end.

Definition map_device (a m : Z) (x : MemObject) (prot_ limit hint : Z) : VM (Z + Z) :=
  let size_aligned := align_up (m_size x) PAGE_SIZE in
  let! sp := get_as a in
  match window_va (as_regions sp) hint size_aligned USER_DEVICE_BASE USER_DEVICE_LIMIT with
  | inl err => ret (inl err)
  | inr va =>
      let! ok := on_m (VmmMapRange sp va (m_phys_base x) size_aligned (Z.lor prot_ VM_PROT_USER) VM_MEM_DEVICE) in
      if negb ok then ret (inl ERR_NOMEM) else
      let! ok := VmmAddRegion_ a (mkRegion va size_aligned (Z.lor prot_ VM_PROT_USER) limit VM_MEM_DEVICE VM_BACKING_NONE VM_FLAG_NONE m 0) in
      if negb ok then on_m (VmmUnmapRange sp va size_aligned true) ;; ret (inl ERR_NOMEM) else
      on_m (flush_tlb (TlbVa va)) ;;
      ret (inr va)
  end.

(** [VmmMapMemObj] of the entry at slot [i] of the space's table. *)
Definition VmmMapMemObj (space_ i prot_ hint : Z) : VM (Z * Z) :=
  let! s := on_k (space space_) in
  match HandleTableGet (s_handle_table s) i with
  | None => panic
  | Some entry =>
      let m := obj entry in
      let limit := HandleProtLimit (perms entry) in
      if truthy (Z.land prot_ (Z.lnot limit)) then ret (ERR_NOPERM, 0) else
      if negb (mapped_va entry =? 0) then ret (ERR_BUSY, 0) else
      if m =? 0 then ret (ERR_BADHANDLE, 0) else
      let! a := as_of space_ in
      let! x := on_k (mem m) in
      let! r := match m_kind x with
                | MEMKIND_SHARED => map_shared a m x prot_ limit hint
                | MEMKIND_DEVICE => map_device a m x prot_ limit hint
                | MEMKIND_NONE => ret (inl ERR_BADTYPE)
                end in
      match r with
      | inl err => ret (err, 0)
      | inr va => set_entry_va space_ i va ;; ret (ZUZU_OK, va)
      end
  end.

(** The frames of an anonymous region, from [anon_va] on. *)
Fixpoint free_anon (root end_ : Z) (n : nat) (anon_va : Z) : MM unit :=
  if negb (anon_va <? end_) then ret tt else
  match n with
  | O => diverge
  | S n' =>
      let! anon_pa := ArchMmuTranslate root anon_va in
      when (negb (anon_pa =? 0)) (PmmFreeFrame_m anon_pa) ;;
      free_anon root end_ n' (w32 (anon_va + PAGE_SIZE))
  end.
(** The first slot from [i] on that maps a memory object at [va]. *)
Fixpoint find_mapped (t : HandleTable) (va : Z) (n : nat) (i : Z) : option Z :=
  match n with
  | O => None
  | S n' =>
      match HandleTableGet t i with
      | Some e => if bool_decide (type_ e = HANDLE_MEM) && (mapped_va e =? va) then Some i else find_mapped t va n' (i + 1)
      | None => find_mapped t va n' (i + 1)
      end
  end.

Definition VmmUnmapUserRegion (space_ va : Z) : VM Z :=
  let! a := as_of space_ in
  let! sp := get_as a in
  match VmmFindRegion (as_regions sp) va with
  | None => diverge
  | Some None => ret ERR_NOENT
  | Some (Some i) =>
      let found := aget (data (as_regions sp)) i in
      if negb (vaddr_start found =? va) then ret ERR_BADARG else
      if truthy (Z.land (flags found) VM_FLAG_PINNED) then ret ERR_NOPERM else
      match owner found with
      | VM_BACKING_ANON =>
          on_m (free_anon (pt_root_physaddr sp) (w32 (va + size found)) (Z.to_nat ((size found + PAGE_SIZE - 1) / PAGE_SIZE)) va)
      | _ =>
          let! s := on_k (space space_) in
          match find_mapped (s_handle_table s) va (Z.to_nat HANDLE_MAX_SLOTS) 0 with
          | Some i => set_entry_va space_ i 0
          | None => ret tt
          end
      end ;;
      let! ok := VmmRemoveRegion_ a (vaddr_start found) (size found) in
      if ok : bool then ret ZUZU_OK else panic
  end.

Definition VmmProtectUserRange (space_ va size_ new_prot : Z) : VM Z :=
  if size_ =? 0 then ret ERR_BADARG else
  if negb (size_ mod PAGE_SIZE =? 0) then ret ERR_BADARG else
  if negb (va mod PAGE_SIZE =? 0) then ret ERR_BADARG else
  if negb ((va <? USER_VA_TOP) && (size_ <=? USER_VA_TOP - va)) then ret ERR_BADARG else
  if truthy (Z.land new_prot (Z.lnot PROT_RWX)) then ret ERR_BADARG else
  if writable new_prot && executable new_prot then ret ERR_BADARG else
  let! a := as_of space_ in
  let! sp := get_as a in
  match VmmFindRegion (as_regions sp) va with
  | None => diverge
  | Some None => ret ERR_BADARG
  | Some (Some i) =>
      let r := aget (data (as_regions sp)) i in
      if truthy (Z.land new_prot (Z.lnot (max_prot r))) then ret ERR_NOPERM else
      if negb ((va =? vaddr_start r) && (size_ =? size r)) then ret ERR_BADARG else
      let! res := on_m (VmmProtectPage sp va size_ (Z.lor new_prot VM_PROT_USER)) in
      let '(ok, sp') := res in
      put_as a sp' ;;
      if ok : bool then ret ZUZU_OK else ret ERR_BADARG
  end.

Definition VmmMapUserPage (sp : AddressSpace) (pa va prot_ : Z) : MM bool :=
  if negb (is_user sp) then ret false else
  if negb (pa mod PAGE_SIZE =? 0) then ret false else
  if negb (va mod PAGE_SIZE =? 0) then ret false else
  VmmMapRange sp va pa PAGE_SIZE (Z.lor prot_ VM_PROT_USER) VM_MEM_NORMAL.

Record InjectObjArgs := mkInject { ia_mem : Z; ia_dest_vaddr : Z; ia_offset : Z; ia_len : Z; ia_prot : Z }.

(** Whether the [n] pages from [first] of an object are all present. *)
Definition pages_present (x : MemObject) (first n : Z) : bool :=
  forallb (λ i, negb (aget (m_page_addrs x) (first + i) =? 0)) (seqZ 0 n).
(** The loop of [InjectObjIntoSpace] that maps the pages present, from page [i]. *)
Fixpoint inject_pages (sp : AddressSpace) (x : MemObject) (args : InjectObjArgs) (first : Z) (n : nat) (i : Z) : MM bool :=
  match n with
  | O => ret true
  | S n' =>
      let pa := aget (m_page_addrs x) (first + i) in
      if pa =? 0 then inject_pages sp x args first n' (i + 1) else
      let! ok := VmmMapUserPage sp pa (w32 (ia_dest_vaddr args + i * PAGE_SIZE)) (ia_prot args) in
      if negb ok then ret false else inject_pages sp x args first n' (i + 1)
  end.

(** The checks on the memory object of the entry; returns the first page. *)
Definition inject_check (x : MemObject) (args : InjectObjArgs) : Z + Z :=
  if negb (bool_decide (m_kind x = MEMKIND_SHARED)) then inl ERR_BADTYPE else
  if truthy (Z.land (m_flags x) MEM_UNCACHED) then inl ERR_BADARG else
  let obj_bytes := w32 (m_page_count x * PAGE_SIZE) in
  if negb ((ia_offset args <? obj_bytes) && (ia_len args <=? obj_bytes - ia_offset args)) then inl ERR_BADARG else
  let first := ia_offset args / PAGE_SIZE in
  if executable (ia_prot args) && negb (pages_present x first (ia_len args / PAGE_SIZE)) then inl ERR_BADARG else
  inr first.

(** The cache maintenance for executable objects changes nothing the model keeps but
    [exec_synced]. *)
Definition InjectObjIntoSpace (kitten parent : Z) (args : InjectObjArgs) : VM Z :=
  if negb (negb (ia_len args =? 0) && (ia_len args mod PAGE_SIZE =? 0)) then ret ERR_BADARG else
  if negb ((ia_dest_vaddr args mod PAGE_SIZE =? 0) && (ia_offset args mod PAGE_SIZE =? 0)) then ret ERR_BADARG else
  if truthy (Z.land (ia_prot args) (Z.lnot PROT_RWX)) then ret ERR_BADARG else
  if writable (ia_prot args) && executable (ia_prot args) then ret ERR_BADARG else
  if negb ((ia_dest_vaddr args <? USER_VA_TOP) && (ia_len args <=? USER_VA_TOP - ia_dest_vaddr args)) then ret ERR_BADARG else
  let! L := on_k (gets l_space) in
  if negb (bool_decide (lq L kitten = [])) then ret ERR_BUSY else
  let! a := as_of kitten in
  let region own back first :=
    mkRegion (ia_dest_vaddr args) (ia_len args) (Z.lor (ia_prot args) VM_PROT_USER) (ia_prot args) VM_MEM_NORMAL own VM_FLAG_NONE back first in
  if ia_mem args =? HANDLE_ANON then
    let! ok := VmmAddRegion_ a (region VM_BACKING_ANON 0 0) in
    if ok : bool then ret ZUZU_OK else ret ERR_NOMEM
  else
    let! p := on_k (space parent) in
    match HandleTableLookup (s_handle_table p) (ia_mem args) with
    | None => ret ERR_BADHANDLE
    | Some entry =>
        if negb (bool_decide (type_ entry = HANDLE_MEM)) then ret ERR_BADTYPE else
        if negb (truthy (Z.land (perms entry) PERM_MAP)) then ret ERR_NOPERM else
        if truthy (Z.land (ia_prot args) (Z.lnot (HandleProtLimit (perms entry)))) then ret ERR_NOPERM else
        if obj entry =? 0 then ret ERR_BADTYPE else
        let! x := on_k (mem (obj entry)) in
        match inject_check x args with
        | inl err => ret err
        | inr first =>
            let! ok := VmmAddRegion_ a (region VM_BACKING_SHARED (obj entry) first) in
            if negb ok then ret ERR_NOMEM else
            let! sp := get_as a in
            let! ok := on_m (inject_pages sp x args first (Z.to_nat (ia_len args / PAGE_SIZE)) 0) in
            if negb ok then VmmRemoveRegion_ a (ia_dest_vaddr args) (ia_len args) ;; ret ERR_NOMEM else
            when (executable (ia_prot args) && negb (m_exec_synced x)) (on_k (upd_mem (obj entry) (set_m_exec_synced true))) ;;
            ret ZUZU_OK
        end
    end.

(** kernel/mm/mem_object.c *)
Definition MemObjUnmapAndDrop (a mapped_va_ m : Z) : VM unit :=
  when (negb (mapped_va_ =? 0))
    (let! x := on_k (mem m) in
     VmmRemoveRegion_ a mapped_va_
       (if bool_decide (m_kind x = MEMKIND_DEVICE) then m_size x else w32 (m_page_count x * PAGE_SIZE)) ;; ret tt) ;;
  on_k (MemObjUnref m).

(** * The life of an address space *)

(** [PmmAllocFramesContigAligned] has given [root] for the tables, 0 if it failed; returns
    the address of the space, 0 for NULL. *)
Definition AddressSpaceCreate (root : Z) (type : AddressSpaceType) : VM Z :=
  let! a := on_k kmem_alloc in
  if a =? 0 then ret 0 else
  let! root := on_m (ArchMmuCreateTables root type) in
  if root =? 0 then ret 0 else
  let! token := (if bool_decide (type = ADDRESS_SPACE_USER) then on_a AsidAlloc else ret (mkToken 0 0)) in
  if bool_decide (type = ADDRESS_SPACE_USER) && (asid token =? 0) then on_m (ArchMmuFreeTables root type) ;; ret 0 else
  let! v := vm_region_vec_init (λ _, on_k kmem_alloc) in
  match v with
  | None =>
      when (negb (asid token =? 0)) (on_a (ArchMmuFlushTlbAsid (asid token)) ;; on_m (flush_asid (asid token)) ;; on_a (AsidFree token)) ;;
      on_m (ArchMmuFreeTables root type) ;;
      ret 0
  | Some regions => put_as a (mkAs root regions type token) ;; ret a
  end.

(** The loop of [AddressSpaceDestroy] over the regions. *)
Fixpoint destroy_regions (sp : AddressSpace) (rs : list VirtMemRegion) : VM unit :=
  match rs with
  | [] => ret tt
  | r :: rs' =>
      on_m (VmmUnmapRange sp (vaddr_start r) (size r) false) ;;
      on_k (MemObjUnref (backing r)) ;;
      destroy_regions sp rs'
  end.
Definition AddressSpaceDestroy (a : Z) : VM unit :=
  if a =? 0 then ret tt else
  let! sp := get_as a in
  let! cur := gets v_cur in
  if bool_decide (cur = Some a) then panic else
  let t := asid_token sp in
  when (negb (asid t =? 0)) (on_a (ArchMmuFlushTlbAsid (asid t)) ;; on_m (flush_asid (asid t))) ;;
  destroy_regions sp (take (Z.to_nat (len (as_regions sp))) (data (as_regions sp))) ;;
  when (negb (asid t =? 0)) (on_a (AsidFree t)) ;;
  on_m (ArchMmuFreeTables (pt_root_physaddr sp) (as_type sp)) ;;
  modify (λ v, set_v_as (delete a (v_as v)) v).

(** * User memory and the ManageMemory call (kernel/svc) *)

Definition IsUserPtrNormal (addr len_ : Z) : bool :=
  if w32 (addr + len_) <? addr then false
  else if USER_VA_TOP <=? addr then false
  else if USER_VA_TOP <? w32 (addr + len_) then false
  else true.

Section svc.
(** The words that a space's memory holds at an address. *)
Context (user_words : mst → AddressSpace → Z → Z → list Z).

(** [CopyFromUser] of [n] words for the current task, whose space is at [space_]; [None]
    for false. *)
Definition CopyFromUser (space_ uaddr n : Z) : VM (option (list Z)) :=
  if n =? 0 then ret (Some []) else
  let! s := on_k (space space_) in
  match s_as s with
  | None => ret None
  | Some a =>
      if uaddr =? 0 then ret None else
      if negb (IsUserPtrNormal uaddr (4 * n)) then ret None else
      let! sp := get_as a in
      let! ok := VmmCheckUserFault sp uaddr (4 * n) false in
      if negb ok then ret None else
      let! m := gets v_m in
      ret (Some (user_words m sp uaddr n))
  end.

(** [HandleTableLookup] of a memory object that may be mapped. *)
Definition lookup_mapped (space_ h : Z) : VM (Z + HandleTableEntry) :=
  let! s := on_k (space space_) in
  match HandleTableLookup (s_handle_table s) h with
  | None => ret (inl ERR_BADHANDLE)
  | Some e =>
      if negb (bool_decide (type_ e = HANDLE_MEM)) then ret (inl ERR_BADTYPE) else
      if negb (truthy (Z.land (perms e) PERM_MAP)) then ret (inl ERR_NOPERM) else ret (inr e)
  end.

(** The verbs; each returns what goes into registers 0, 1, ... of the frame. *)
Definition mngmem_map (space_ r1 r2 r3 : Z) : VM (list Z) :=
  let prot_ := Z.land (w32 r3) 0x7 in
  let hint := Z.land (w32 r3) (Z.lnot 0xFFF) in
  if writable prot_ && executable prot_ then ret [ERR_BADARG] else
  if s32 r1 =? HANDLE_ANON then
    let! r := VmmMapAnon space_ hint (w32 r2) prot_ in
    ret [if r.1 =? 0 then r.2 else r.1]
  else
    let! e := lookup_mapped space_ r1 in
    match e with
    | inl err => ret [err]
    | inr _ =>
        let! r := VmmMapMemObj space_ (HANDLE_INDEX r1) prot_ hint in
        ret [if r.1 =? 0 then r.2 else r.1]
    end.
Definition mngmem_inject (space_ r1 r2 : Z) : VM (list Z) :=
  let! s := on_k (space space_) in
  match HandleTableLookup (s_handle_table s) r1 with
  | None => ret [ERR_BADHANDLE]
  | Some e =>
      if negb (bool_decide (type_ e = HANDLE_SPACE)) then ret [ERR_BADTYPE] else
      if obj e =? 0 then ret [ERR_BADHANDLE] else
      if negb (truthy (Z.land (perms e) PERM_CNTL)) then ret [ERR_NOPERM] else
      let! k := on_k (space (obj e)) in
      if s_torn_down k then ret [ERR_DEAD] else
      let! w := CopyFromUser space_ (w32 r2) 5 in
      match w with
      | None => ret [ERR_BADPTR]
      | Some w =>
          let! rc := InjectObjIntoSpace (obj e) space_ (mkInject (s32 (aget w 0)) (aget w 1) (aget w 2) (aget w 3) (aget w 4)) in
          ret [rc]
      end
  end.
Definition mngmem_dmamap (space_ r1 : Z) : VM (list Z) :=
  let! w := CopyFromUser space_ (w32 r1) 5 in
  match w with
  | None => ret [ERR_BADPTR]
  | Some w =>
      let! dev := lookup_mapped space_ (aget w 0) in
      match dev with
      | inl err => ret [err]
      | inr dev =>
          let! m := lookup_mapped space_ (aget w 1) in
          match m with
          | inl err => ret [err]
          | inr m =>
              let! r := on_k (MemObjDmaMap (obj dev) (obj m) (aget w 2) (aget w 3) (aget w 4)) in
              let '(rc, bus, id) := r in
              ret [rc; if rc =? ZUZU_OK then bus else 0; if rc =? ZUZU_OK then id else 0]
          end
      end
  end.
Definition mngmem_dmaadopt (space_ r1 id : Z) : VM (list Z) :=
  let! s := on_k (space space_) in
  match HandleTableLookup (s_handle_table s) r1 with
  | None => ret [ERR_BADHANDLE]
  | Some dev =>
      if negb (bool_decide (type_ dev = HANDLE_MEM)) then ret [ERR_BADTYPE] else
      if obj dev =? 0 then ret [ERR_BADTYPE] else
      let! x := on_k (mem (obj dev)) in
      if negb (bool_decide (m_kind x = MEMKIND_DEVICE)) then ret [ERR_BADTYPE] else
      if negb (truthy (Z.land (perms dev) PERM_MAP)) then ret [ERR_NOPERM] else
      match MemObjDmaFind x id with
      | None => ret [ERR_NOENT]
      | Some d =>
          let! f := on_k (HandleTableFindFree (λ _, kmem_alloc) (s_handle_table s)) in
          let '(slot, t) := f in
          on_k (upd_space space_ (set_s_handle_table t)) ;;
          if slot =? -1 then ret [ERR_NOMEM] else
          let t := HandleEntryClaim t slot in
          on_k (MemObjRef (dm_mem d)) ;;
          on_k (upd_mem (dm_mem d) (set_m_owner_spid (s_spid s))) ;;
          match HandleTableGet t slot with
          | None => panic
          | Some fresh =>
              on_k (upd_space space_ (set_s_handle_table (put_entry t slot
                (set_mapped_va 0 (set_perms (Z.lor PERM_MAP PERM_WRITE) (set_obj (dm_mem d) (set_type_ HANDLE_MEM fresh))))))) ;;
              ret [ZUZU_OK; HANDLE_PACK slot (Handle.generation fresh)]
          end
      end
  end.
(** A call of [f] on the device of a handle. *)
Definition mngmem_dev (space_ r1 : Z) (f : Z → KM Z) : VM (list Z) :=
  let! dev := lookup_mapped space_ r1 in
  match dev with
  | inl err => ret [err]
  | inr dev => let! rc := on_k (f (obj dev)) in ret [rc]
  end.

Definition SvcManageMemory : VM unit :=
  let! ct := on_k (gets current_task) in
  let! t := on_k (deref tasks ct) in
  let r i := aget (t_regs t) i in
  match t_owner t, ct with
  | Some space_, Some ct =>
      let verb := r 0 in
      let! out :=
        if verb =? 0 then mngmem_map space_ (r 1) (r 2) (r 3)
        else if verb =? 1 then (let! rc := VmmUnmapUserRegion space_ (w32 (r 1)) in ret [rc])
        else if verb =? 2 then (let! rc := VmmProtectUserRange space_ (w32 (r 1)) (w32 (r 2)) (w32 (r 3)) in ret [rc])
        else if verb =? 3 then mngmem_inject space_ (r 1) (r 2)
        else if verb =? 4 then mngmem_dmamap space_ (r 1)
        else if verb =? 5 then mngmem_dev space_ (r 1) (λ dev, MemObjDmaUnmap dev (w32 (r 2)))
        else if verb =? 6 then mngmem_dev space_ (r 1) (λ dev, MemObjDmaSync dev (Z.land (w32 (r 2)) (Z.lnot 1)) (w32 (r 3)) (Z.land (w32 (r 2)) 1))
        else if verb =? 7 then mngmem_dmaadopt space_ (r 1) (w32 (r 2))
        else ret [ERR_BADARG] in
      on_k (for_each (length out) 0 (λ i, set_reg ct i (aget out i)))
  | _, _ => panic
  end.
End svc.
