(* ===== verification/UserInv.v ===== *)
(** The invariant of user memory and the operations of [UserMap] that keep it.

    [vm_ok] says that every page a user space translates lies in one of the space's
    regions, with exactly that region's protection and memory type, and never writable
    and executable at once; and that the frames of anonymous pages and of memory objects
    have one owner each, and are neither free nor part of a table. *)
From stdpp Require Import sorting.
From S2P Require Import Prelude Bitmap Handle KState Sched MemObj MemRef Region Asid Mmu MmuInv MmuRange UserMap.

#[local] Open Scope Z_scope.

(** * Operations of the parts *)

Definition drain (k : kst) (v : vst) : vst :=
  set_v_m (set_frames (pmm_frees k ++ frames (v_m v)) (v_m v)) (set_v_k (set_pmm_frees [] k) v).

Lemma wp_on_m {A} (m : MM A) Q v : wp m (λ a s, Q a (set_v_m s v)) (v_m v) → wp (on_m m) Q v.
Proof. unfold wp, on_m. by destruct (m (v_m v)) as [[a s]| |]. Qed.
Lemma wp_on_k {A} (m : KM A) Q v : wp m (λ a k, Q a (drain k v)) (v_k v) → wp (on_k m) Q v.
Proof. unfold wp, on_k. by destruct (m (v_k v)) as [[a k]| |]. Qed.
Lemma wp_on_a {A} (m : M ast A) Q v : wp m (λ a s, Q a (set_v_a s v)) (v_a v) → wp (on_a m) Q v.
Proof. unfold wp, on_a. by destruct (m (v_a v)) as [[a s]| |]. Qed.

Lemma drain_same v : pmm_frees (v_k v) = [] → drain (v_k v) v = v.
Proof. destruct v as [k m a s c]. simpl. intros H. unfold drain. simpl. rewrite H. destruct k, m. simpl in *. by subst. Qed.

(** * Tables *)

Definition self (roots : list (Z * Z)) (s : mst) : universe := mkUniverse (all_pages roots s) (words s).
Definition tables_ok (roots : list (Z * Z)) (s : mst) : Prop := mmu_ok (U := self roots s) roots s.

Lemma tables_ok_from {U : universe} roots s : mmu_ok roots s → tables_ok roots s.
Proof. intros []. by split. Qed.
Lemma tables_step roots s s' :
  mmu_ok (U := self roots s) roots s' →
  tables_ok roots s' ∧ all_pages roots s' ≡ₚ all_pages roots s ∧
  (∀ a, page_of a ∉ all_pages roots s → words s' a = words s a).
Proof.
  intros H. split; [by eapply tables_ok_from|]. split; [apply (mo_pages _ _ H)|]. intros a Ha. by apply (mo_outside _ _ H).
Qed.

Definition frame_ok (roots : list (Z * Z)) (s : mst) (pa : Z) : Prop :=
  pa ∉ all_pages roots s ∧ pa mod PAGE_SIZE = 0 ∧ 0 < pa < 2 ^ 32.

(** A change of the free list and of words outside the tables. *)
Lemma tables_ok_frames roots s fs m :
  tables_ok roots s → NoDup (all_pages roots (set_frames fs s)) →
  (∀ p, p ∈ fs → p mod PAGE_SIZE = 0 ∧ 0 < p < 2 ^ 32) →
  (∀ a, 0 ≤ m a < 2 ^ 32) →
  (∀ a, page_of a ∈ mjoin (root_pages <$> roots) ++ (page_pa <$> pool s) → m a = words s a) →
  let s' := set_words m (set_frames fs s) in
  tables_ok roots s' ∧ (∀ r i, valid roots r i → entry s' r i = entry s r i) ∧ tr_same roots s s'.
Proof.
  intros Hok Hnd Hfs Hm Hw s'.
  assert (∀ r i, valid roots r i → entry s' r i = entry s r i) as He.
  { intros r i Hv. unfold entry, s'. simpl. apply Hw. apply elem_of_app. left. by apply (root_page_in _ s Hok). }
  split_and!; [|done|].
  - pose proof Hok as [_ Hali Hro Hma Hwo Hty Hta Hown _ _]. split; try done.
    + intros p. unfold all_pages. simpl. rewrite !elem_of_app. intros [Hp|[Hp|Hp]]; [..|by apply Hfs];
        apply Hali; unfold all_pages; rewrite !elem_of_app; tauto.
    + intros r i Hv. rewrite He by done. by apply Hty.
    + intros r i Hv. rewrite He by done. by apply Hta.
    + intros r i r' i' Hv Hv'. rewrite !He by done. by apply Hown.
  - intros r i j Hv Hj. apply tr_ext; [by apply He|]. intros Ht. apply Hw. apply elem_of_app. right.
    apply (table_page _ s Hok); [by apply (mo_table _ _ Hok)|done].
Qed.

Lemma tables_ok_free roots s pa :
  tables_ok roots s → frame_ok roots s pa →
  tables_ok roots (set_frames (pa :: frames s) s) ∧ all_pages roots (set_frames (pa :: frames s) s) ≡ₚ pa :: all_pages roots s.
Proof.
  intros Hok (Hn & Ha & Hr).
  assert (all_pages roots (set_frames (pa :: frames s) s) ≡ₚ pa :: all_pages roots s) as Hp.
  { unfold all_pages. simpl. rewrite !app_assoc. symmetry. apply Permutation_middle. }
  split; [|done]. destruct (tables_ok_frames roots s (pa :: frames s) (words s)) as [H _]; [done|..|].
  - rewrite Hp. constructor; [done|apply Hok].
  - intros p [->|Hin]%elem_of_cons; [done|]. apply (mo_align _ _ Hok). unfold all_pages. rewrite !elem_of_app. tauto.
  - apply Hok.
  - done.
  - by destruct s.
Qed.

(** Taking and zeroing a frame. *)
Lemma tables_ok_take roots s pa fs :
  tables_ok roots s → frames s = pa :: fs →
  let s' := set_words (zero_range pa PAGE_SIZE (words s)) (set_frames fs s) in
  tables_ok roots s' ∧ (∀ r i, valid roots r i → entry s' r i = entry s r i) ∧ tr_same roots s s' ∧
  frame_ok roots s' pa ∧ all_pages roots s ≡ₚ pa :: all_pages roots s'.
Proof.
  intros Hok Hf s'.
  assert (all_pages roots s ≡ₚ pa :: all_pages roots s') as Hp.
  { unfold all_pages. simpl. rewrite Hf, !app_assoc. symmetry. apply Permutation_middle. }
  pose proof (mo_nodup _ _ Hok) as Hnd. rewrite Hp in Hnd. apply NoDup_cons in Hnd as [Hni Hnd].
  assert (pa ∈ all_pages roots s) as Hin by (rewrite Hp; by left).
  destruct (mo_align _ _ Hok pa Hin) as [Ha Hr].
  destruct (tables_ok_frames roots s fs (zero_range pa PAGE_SIZE (words s))) as (H1 & H2 & H3); [done|done|..].
  - intros p Hpf. apply (mo_align _ _ Hok). rewrite Hp. right. unfold all_pages. rewrite !elem_of_app. tauto.
  - intros a. unfold zero_range. case_if E; [lia|apply (mo_words _ _ Hok)].
  - intros a Hpg. apply zero_range_out. intros Hx. rewrite (page_of_range pa a Ha Hx) in Hpg. apply Hni.
    unfold all_pages. rewrite app_assoc. apply elem_of_app. by left.
  - done.
Qed.

(** * The invariant *)

Definition roots (v : vst) : list (Z * Z) := (map_to_list (sp_root <$> v_as v)).*2.

Lemma roots_in v a sp : v_as v !! a = Some sp → sp_root sp ∈ roots v.
Proof.
  intros Ha. apply list_elem_of_fmap. exists (a, sp_root sp). split; [done|]. apply elem_of_map_to_list.
  by rewrite lookup_fmap, Ha.
Qed.
Lemma roots_inv v r : r ∈ roots v → ∃ a sp, v_as v !! a = Some sp ∧ r = sp_root sp.
Proof.
  intros ([a r'] & -> & Hin)%list_elem_of_fmap. apply elem_of_map_to_list in Hin. rewrite lookup_fmap in Hin.
  destruct (v_as v !! a) as [sp|] eqn:E; [|done]. injection Hin as <-. by exists a, sp.
Qed.
Lemma NoDup_join_index {A B} (f : A → list B) l i j x y b :
  NoDup (mjoin (f <$> l)) → l !! i = Some x → l !! j = Some y → b ∈ f x → b ∈ f y → i = j.
Proof.
  intros Hnd Hi Hj Hx Hy. revert i j Hnd Hi Hj. induction l as [|c l IH]; [done|].
  intros i j (Hc & Hd & Hl)%NoDup_app Hi Hj.
  assert (∀ k z, l !! k = Some z → b ∈ f z → b ∉ f c) as Hn.
  { intros k z Hk Hz Hbc. apply (Hd b Hbc). apply list_elem_of_join. exists (f z). split; [done|].
    apply list_elem_of_fmap_2. by eapply list_elem_of_lookup_2. }
  destruct i as [|i], j as [|j]; [done|..|f_equal; by apply IH]; simpl in *; [injection Hi as ->|injection Hj as ->].
  - by destruct (Hn j y Hj Hy).
  - by destruct (Hn i x Hi Hx).
Qed.
(** Different spaces have different root tables. *)
Lemma roots_distinct v a a' sp sp' :
  tables_ok (roots v) (v_m v) → v_as v !! a = Some sp → v_as v !! a' = Some sp' →
  pt_root_physaddr sp = pt_root_physaddr sp' → a = a'.
Proof.
  intros Hok Ha Ha' Hr. pose proof (mo_nodup _ _ Hok) as Hnd. apply NoDup_app in Hnd as [Hnd _].
  assert (∀ b q, v_as v !! b = Some q → ∃ k, map_to_list (sp_root <$> v_as v) !! k = Some (b, sp_root q)) as Hk.
  { intros b q Hb. apply list_elem_of_lookup, elem_of_map_to_list. by rewrite lookup_fmap, Hb. }
  assert (∀ b q, v_as v !! b = Some q → pt_root_physaddr q ∈ root_pages (sp_root q)) as Hp.
  { intros b q Hb. apply list_elem_of_fmap. exists 0. split; [simpl; lia|]. apply elem_of_seqZ.
    destruct (mo_roots _ _ Hok _ (roots_in v b q Hb)) as [-> | ->]; by vm_compute. }
  destruct (Hk a sp Ha) as [i Hi], (Hk a' sp' Ha') as [j Hj].
  assert (i = j) as ->; [|congruence].
  eapply (NoDup_join_index root_pages (roots v)); [done|unfold roots; rewrite list_lookup_fmap, Hi; done|..].
  - unfold roots. rewrite list_lookup_fmap, Hj. done.
  - simpl. eapply Hp, Ha.
  - simpl. rewrite Hr. eapply Hp, Ha'.
Qed.
Lemma roots_same v v' : sp_root <$> v_as v' = sp_root <$> v_as v → roots v' = roots v.
Proof. unfold roots. by intros ->. Qed.

(** The regions of all spaces, and the memory objects they refer to. *)
Definition all_regions (m : gmap Z AddressSpace) : list VirtMemRegion := mjoin ((λ sp, regions (as_regions sp)) <$> (map_to_list m).*2).
Definition region_refs (m : gmap Z AddressSpace) : list Z := backing <$> all_regions m.

Definition wx_ok (prot : Z) : Prop := writable prot && executable prot = false.
(** Regions of user spaces. *)
Definition user_region (r : VirtMemRegion) : Prop :=
  vaddr_start r mod PAGE_SIZE = 0 ∧ size r mod PAGE_SIZE = 0 ∧ r_end r ≤ USER_VA_TOP ∧ Z.testbit (prot r) 3 = true.
(** The page [j] of megabyte [i] of the region [r]. *)
Definition page_ok (own : gmap Z frame_owner) (sp : AddressSpace) (r : VirtMemRegion) (i j : Z) (p : pte) : Prop :=
  p = pte_of (pte_pa p) (prot r) (memtype r) ∧ wx_ok (prot r) ∧
  (owner r = VM_BACKING_ANON → own !! pte_pa p = Some (OAnon (pt_root_physaddr sp) i j)).
Definition sec_region (r : VirtMemRegion) : Prop := vaddr_start r mod SECTION_SIZE = 0 ∧ size r mod SECTION_SIZE = 0.
Definition user_space (v : vst) (a : Z) (sp : AddressSpace) : Prop := v_as v !! a = Some sp ∧ as_type sp = ADDRESS_SPACE_USER.

(** [ext] are regions of the space at [a] about to be added. *)
Definition in_region (ext : Z → list VirtMemRegion) (a : Z) (sp : AddressSpace) (va : Z) (P : VirtMemRegion → Prop) : Prop :=
  ∃ r, (r ∈ regions (as_regions sp) ∨ r ∈ ext a) ∧ contains r va ∧ P r.

Record vm_ok_ext (ext : Z → list VirtMemRegion) (own : gmap Z frame_owner) (v : vst) : Prop := {
  vm_tables : tables_ok (roots v) (v_m v);
  vm_frees : pmm_frees (v_k v) = [];
  vm_vec a sp : v_as v !! a = Some sp → vec_ok (as_regions sp);
  vm_user a sp r : user_space v a sp → r ∈ regions (as_regions sp) → user_region r;
  vm_page a sp i j p : user_space v a sp → 0 ≤ i < 2048 → 0 ≤ j < 256 → tr (v_m v) (sp_root sp) i j = Some p →
    in_region ext a sp (page_va i j) (λ r, page_ok own sp r i j p);
  vm_sec a sp i : user_space v a sp → 0 ≤ i < 2048 → desc_type (entry (v_m v) (sp_root sp) i) = DESC_SECTION →
    in_region ext a sp (page_va i 0) sec_region;
  vm_own pa o : own !! pa = Some o → frame_ok (roots v) (v_m v) pa;
  vm_mems : mems_ok own (region_refs (v_as v)) (mems (v_k v));
  vm_shared a sp r : v_as v !! a = Some sp → r ∈ regions (as_regions sp) → owner r = VM_BACKING_SHARED → backing r ≠ 0 →
    ∃ x, mems (v_k v) !! backing r = Some x ∧ m_kind x = MEMKIND_SHARED
}.
Abbreviation vm_ok := (vm_ok_ext (λ _, [])).

Lemma user_valid v a sp i : user_space v a sp → 0 ≤ i < 2048 → valid (roots v) (sp_root sp) i.
Proof. intros [Ha Ht] Hi. split; [by eapply roots_in|]. unfold sp_root, l1_entry_count. simpl. rewrite Ht. done. Qed.
Lemma user_root v a sp : user_space v a sp → sp_root sp = (pt_root_physaddr sp, 2048).
Proof. intros [_ Ht]. unfold sp_root, l1_entry_count. by rewrite Ht. Qed.
Lemma page_va_range i j : 0 ≤ i < 2048 → 0 ≤ j < 256 → 0 ≤ page_va i j < USER_VA_TOP ∧ page_va i j mod PAGE_SIZE = 0.
Proof. intros Hi Hj. unfold page_va, SECTION_SIZE, PAGE_SIZE, USER_VA_TOP. Z.div_mod_to_equations. lia. Qed.
Lemma user_idx va : 0 ≤ va < USER_VA_TOP → 0 ≤ L1_IDX va < 2048.
Proof.
  intros Hv. rewrite (proj1 (idx_of va ltac:(unfold USER_VA_TOP in *; lia))). unfold USER_VA_TOP, SECTION_SIZE in *.
  Z.div_mod_to_equations. lia.
Qed.

(** Changes of the tables alone. *)
Section tables.
Context (ext : Z → list VirtMemRegion) (own : gmap Z frame_owner) (v : vst).

Lemma vm_ok_set_m own' s' :
  vm_ok_ext ext own v → tables_ok (roots v) s' →
  (∀ a sp i j p, user_space v a sp → 0 ≤ i < 2048 → 0 ≤ j < 256 → tr s' (sp_root sp) i j = Some p →
     in_region ext a sp (page_va i j) (λ r, page_ok own' sp r i j p)) →
  (∀ a sp i, user_space v a sp → 0 ≤ i < 2048 → desc_type (entry s' (sp_root sp) i) = DESC_SECTION →
     in_region ext a sp (page_va i 0) sec_region) →
  (∀ pa o, own' !! pa = Some o → frame_ok (roots v) s' pa) →
  mems_ok own' (region_refs (v_as v)) (mems (v_k v)) →
  vm_ok_ext ext own' (set_v_m s' v).
Proof. intros [] Ht Hp Hs Ho Hm. by split. Qed.

Lemma frame_ok_perm rs s s' pa : all_pages rs s' ≡ₚ all_pages rs s → frame_ok rs s pa → frame_ok rs s' pa.
Proof. intros Hp (Hn & H). split; [by rewrite Hp|done]. Qed.

(** What an operation on the tables of [v] that keeps the invariant leaves. *)
Record next (s' : mst) : Prop := {
  nx_ok : vm_ok_ext ext own (set_v_m s' v);
  nx_frame pa : frame_ok (roots v) (v_m v) pa → frame_ok (roots v) s' pa;
  nx_words x : page_of x ∉ all_pages (roots v) (v_m v) → words s' x = words (v_m v) x
}.

Lemma next_refl : vm_ok_ext ext own v → next (v_m v).
Proof. intros Hok. split; [|done|done]. by destruct v. Qed.

Context (Hok : vm_ok_ext ext own v) (a : Z) (sp : AddressSpace) (Husr : user_space v a sp).

(** An operation that maps the [n] bytes at [va] of the space as [g] says, or unmaps a
    part of them. *)
Lemma vm_ok_range s' va n g :
  mmu_ok (U := self (roots v) (v_m v)) (roots v) s' →
  tr_upd (roots v) (v_m v) s' (set_range (sp_root sp) va n g) →
  (∀ i j p, 0 ≤ i < 2048 → 0 ≤ j < 256 → va ≤ page_va i j < va + n →
     g (page_va i j) (tr (v_m v) (sp_root sp) i j) = Some p → in_region ext a sp (page_va i j) (λ r, page_ok own sp r i j p)) →
  (∀ r i, valid (roots v) r i → desc_type (entry s' r i) = DESC_SECTION →
     desc_type (entry (v_m v) r i) = DESC_SECTION ∨ (r = sp_root sp ∧ in_region ext a sp (page_va i 0) sec_region)) →
  next s'.
Proof.
  intros Hm Htr Hg Hsec. destruct (tables_step _ _ _ Hm) as (Ht & Hperm & Hw). split; [|by intros; eapply frame_ok_perm|done].
  apply vm_ok_set_m; [done|done|..].
  - intros a' sp' i j p Hu' Hi Hj Hp. rewrite (Htr _ _ _ (user_valid _ _ _ _ Hu' Hi) Hj) in Hp. unfold set_range in Hp.
    case_decide as Hc; [|by eapply (vm_page _ _ _ Hok)]. destruct Hc as [Hr Hin].
    assert (a' = a) as -> by (eapply roots_distinct; [apply Hok|apply Hu'|apply Husr|by injection Hr]).
    destruct Hu' as [Hu' Ht'], Husr as [Hu _]. rewrite Hu in Hu'. injection Hu' as <-. by apply Hg.
  - intros a' sp' i Hu' Hi Hd. destruct (Hsec _ _ (user_valid _ _ _ _ Hu' Hi) Hd) as [Hd'|[Hr Hin]]; [by eapply (vm_sec _ _ _ Hok)|].
    assert (a' = a) as -> by (eapply roots_distinct; [apply Hok|apply Hu'|apply Husr|by injection Hr]).
    destruct Hu' as [Hu' Ht'], Husr as [Hu _]. rewrite Hu in Hu'. by injection Hu' as <-.
  - intros pa o Ho. eapply frame_ok_perm; [done|]. by eapply (vm_own _ _ _ Hok).
  - apply Hok.
Qed.

(** A section that meets a region is inside it. *)
Definition sections_inside s (r : VirtMemRegion) : Prop :=
  sec_region r ∨ ∀ x, pages_in (vaddr_start r) (size r) x → desc_type (entry s (sp_root sp) (L1_IDX x)) ≠ DESC_SECTION.

Lemma wp_VmmUnmapRange r flush Q :
  user_region r → 0 ≤ vaddr_start r → 0 < size r → sections_inside (v_m v) r →
  (∀ any s', next s' → (∀ i j, 0 ≤ i < 2048 → 0 ≤ j < 256 → contains r (page_va i j) → tr s' (sp_root sp) i j = None) → Q any s') →
  wp (VmmUnmapRange sp (vaddr_start r) (size r) flush) Q (v_m v).
Proof.
  intros (Hra & Hrs & Hre & _) Hlo Hsz Hin HQ. unfold r_end in *. unfold VmmUnmapRange. case_if E0; [lia|].
  rewrite (proj2 (Z.eqb_eq _ _) Hra), (proj2 (Z.eqb_eq _ _) Hrs). cbn [negb].
  eapply wp_mono; [apply (wp_ArchMmuUnmap (U := self (roots v) (v_m v)) (roots v) sp)|]; try (unfold USER_VA_TOP in *; lia); try done.
  { eapply roots_in, Husr. }
  { apply Hok. }
  intros any s' [Hm Htr Hs _]. apply HQ.
  - eapply vm_ok_range; [done|done|done|]. intros r' i Hv Hd. left. by apply Hs.
  - intros i j Hi Hj Hc. rewrite (Htr _ _ _ (user_valid _ _ _ _ Husr Hi) Hj). unfold set_range. by rewrite decide_True.
Qed.
End tables.

(** [own'] has the frames of the pages mapped, should they be anonymous. *)
Lemma wp_VmmMapRange ext0 ext own own' v a sp r va pa n Q :
  vm_ok_ext ext0 own v → vm_ok_ext ext own' v → user_space v a sp →
  r ∈ regions (as_regions sp) ∨ r ∈ ext a → user_region r →
  vaddr_start r ≤ va → va + n ≤ r_end r → 0 ≤ va → 0 < n → n mod PAGE_SIZE = 0 → 0 ≤ pa → pa + n ≤ 2 ^ 32 →
  (va mod SECTION_SIZE = 0 → n mod SECTION_SIZE = 0 → sec_region r) →
  (owner r = VM_BACKING_ANON → ∀ i j, 0 ≤ i < 2048 → 0 ≤ j < 256 → va ≤ page_va i j < va + n → own' !! (pa + (page_va i j - va)) = Some (OAnon (pt_root_physaddr sp) i j)) →
  (∀ s' k, next ext0 own v s' → 0 ≤ k ≤ n → tr_upd (roots v) (v_m v) s' (set_range (sp_root sp) va k (λ _ _, None)) → Q false s') →
  (∀ s', next ext own' v s' → wx_ok (prot r) →
     (va mod SECTION_SIZE = 0 ∧ n mod SECTION_SIZE = 0 ∨ in_tables (roots v) sp s' va n) →
     tr_upd (roots v) (v_m v) s' (set_range (sp_root sp) va n (λ x _, Some (pte_of (pa + (x - va)) (prot r) (memtype r)))) → Q true s') →
  wp (VmmMapRange sp va pa n (prot r) (memtype r)) Q (v_m v).
Proof.
  intros Hok Hok' Husr Hr (Hra & Hrs & Hre & Hrp) Hlo Hhi Hva Hn Hnm Hpa Hpr Hsec Hanon Hno Hyes. unfold VmmMapRange, is_user.
  rewrite (bool_decide_true _ (proj2 Husr)). cbn [andb].
  assert (Q false (v_m v)) as Hearly.
  { apply (Hno _ 0); [by apply next_refl|lia|]. intros r' i j _ _. unfold set_range. rewrite decide_False; [done|lia]. }
  apply wp_if; intros E0; [b2p; lia|]. do 3 (apply wp_if; intros ?; [by wp_step|]).
  apply wp_if; intros Ewx; [by wp_step|]. apply wp_if; intros ?; [by wp_step|].
  assert (∀ x, va ≤ x < va + n → contains r x) as Hcont by (unfold contains; lia).
  eapply wp_mono; [apply (wp_ArchMmuMap (U := self (roots v) (v_m v)) (roots v) sp)|]; try (unfold USER_VA_TOP in *; lia).
  { eapply roots_in, Husr. }
  { apply Hok. }
  intros [] s' [Hm Hpost]; [destruct Hpost as [Htr Hsecs]|destruct Hpost as [Hsecs (k & Hk & Htr)]].
  - apply Hyes; [|done|destruct Hsecs as [[_ ?]|(? & ? & _)]; [by right|by left]|done]. eapply (vm_ok_range ext own'); [done|done|done|done|..].
    + intros i j p Hi Hj Hin [= <-]. exists r. split; [done|]. split; [by apply Hcont|]. split_and!; [done|done|].
      intros Ho. by apply Hanon.
    + intros r' i Hv Hd. destruct Hsecs as [[Hmono _]|(Hm1 & Hm2 & Hs)]; [left; by apply Hmono|].
      destruct (Hs r' i Hv Hd) as [?|[-> Hin]]; [by left|right]. split; [done|]. exists r. split; [done|]. split; [|auto].
      apply Hcont. unfold page_va. lia.
  - apply (Hno _ k); [|done|done]. eapply (vm_ok_range ext0 own v Hok a sp Husr s' va k); [done|done|done|].
    intros r' i Hv Hd. left. by apply Hsecs.
Qed.

Lemma contains_eq v r r' x : vec_ok v → r ∈ regions v → r' ∈ regions v → contains r x → contains r' x → r = r'.
Proof.
  intros Hv (i & Hi & ->)%(regions_index v Hv) (j & Hj & ->)%(regions_index v Hv) Hx Hx'.
  by rewrite (contains_unique v Hv x i j).
Qed.

(** * Page faults *)

Lemma vm_ok_own_insert ext own v pa o :
  vm_ok_ext ext own v → frame_ok (roots v) (v_m v) pa → own !! pa = None → vm_ok_ext ext (<[pa := o]> own) v.
Proof.
  intros [Ht Hf Hv Hu Hp Hs Ho Hm Hsh] Hpa Hn.
  assert (∀ q o', own !! q = Some o' → <[pa := o]> own !! q = Some o') as Hext.
  { intros q o' Hq. rewrite lookup_insert_ne; [done|]. intros ->. congruence. }
  split; try done.
  - intros a sp i j p Hus Hi Hj Htr. destruct (Hp a sp i j p Hus Hi Hj Htr) as (r & Hr & Hc & Hpte & Hwx & Han).
    exists r. split_and!; auto. split_and!; auto.
  - intros q o' [[-> _]|[_ Hq]]%lookup_insert_Some; [done|by eapply Ho].
  - by eapply mems_ok_own.
Qed.

Lemma wp_zeroed_frame ext own v Q :
  vm_ok_ext ext own v → Q 0 v →
  (∀ pa s', vm_ok_ext ext own (set_v_m s' v) → frame_ok (roots v) s' pa → own !! pa = None →
     tr_same (roots v) (v_m v) s' → (∀ x, pa ≤ x < pa + PAGE_SIZE → words s' x = 0) → Q pa (set_v_m s' v)) →
  wp zeroed_frame Q v.
Proof.
  intros Hok Hno Hyes. unfold zeroed_frame, PmmAllocFrame_m, bzero. wp_step. apply wp_on_m. wp_step. wp_step.
  destruct (frames (v_m v)) as [|pa fs] eqn:Ef.
  { wp_step. cbn [Z.eqb]. wp_step. by destruct v. }
  destruct (tables_ok_take (roots v) (v_m v) pa fs) as (Ht & He & Hs & Hpa & Hp); [apply Hok|done|].
  assert (own !! pa = None) as Hn.
  { destruct (own !! pa) as [o|] eqn:Eo; [|done]. destruct (vm_own _ _ _ Hok pa o Eo) as [Hni _]. destruct Hni. rewrite Hp. by left. }
  do 3 wp_step. rewrite (proj2 (Z.eqb_neq pa 0)) by (destruct Hpa; lia). wp_step. apply wp_on_m. wp_step. wp_step.
  apply (Hyes pa (set_words (zero_range pa PAGE_SIZE (words (v_m v))) (set_frames fs (v_m v)))); try done.
  - apply (vm_ok_set_m ext own); [done|done|..].
    + intros a sp i j p Hus Hi Hj Htr. rewrite (Hs _ _ _ (user_valid _ _ _ _ Hus Hi) Hj) in Htr. by apply (vm_page _ _ _ Hok).
    + intros a sp i Hus Hi Hd. rewrite (He _ _ (user_valid _ _ _ _ Hus Hi)) in Hd. by apply (vm_sec _ _ _ Hok).
    + intros q o Ho. destruct (vm_own _ _ _ Hok q o Ho) as (Hni & Hrest). split; [|done]. intros Hin. apply Hni. rewrite Hp. by right.
    + apply Hok.
  - intros x Hx. by apply zero_range_in.
Qed.

(** Changes of the memory objects alone. *)
Definition with_mems (ms : gmap Z MemObject) (v : vst) : vst := set_v_k (set_mems ms (v_k v)) v.
Lemma drain_mems ms v : pmm_frees (v_k v) = [] → drain (set_mems ms (v_k v)) v = with_mems ms v.
Proof.
  intros H. destruct v as [k m a s c]. unfold drain, with_mems. simpl in *. rewrite H. destruct k, m. simpl in *. by subst.
Qed.
Lemma vm_ok_mems ext own v ms :
  vm_ok_ext ext own v → mems_ok own (region_refs (v_as v)) ms → kept (mems (v_k v)) ms → vm_ok_ext ext own (with_mems ms v).
Proof.
  intros [Ht Hf Hv Hu Hp Hs Ho Hm Hsh] Hms Hk. split; try done.
  intros a sp r Ha Hr Hown Hb. destruct (Hsh a sp r Ha Hr Hown Hb) as (x & Hx & Hkx).
  destruct (Hk _ _ Hx) as (y & Hy & Hky). exists y. split; [done|congruence].
Qed.

(** Giving a frame back. *)
Lemma vm_ok_give ext own v pa :
  vm_ok_ext ext own v → frame_ok (roots v) (v_m v) pa → own !! pa = None →
  vm_ok_ext ext own (set_v_m (set_frames (pa :: frames (v_m v)) (v_m v)) v).
Proof.
  intros Hok Hpa Hn. destruct (tables_ok_free (roots v) (v_m v) pa) as [Ht Hp]; [apply Hok|done|].
  apply (vm_ok_set_m ext own); try done; try apply Hok.
  intros q o Hq. destruct (vm_own _ _ _ Hok q o Hq) as (Hni & Hq'). split; [|done]. rewrite Hp. intros [->|Hin]%elem_of_cons; [congruence|done].
Qed.
Lemma vm_ok_own_delete ext own v pa m i :
  vm_ok_ext ext own v → own !! pa = Some (OMem m i) →
  (∀ x, mems (v_k v) !! m = Some x → aget (m_page_addrs x) i ≠ pa) → vm_ok_ext ext (delete pa own) v.
Proof.
  intros [Ht Hf Hv Hu Hp Hs Ho Hm Hsh] Hpa Hnot. split; try done.
  - intros a sp i' j' p Hus Hi Hj Htr. destruct (Hp a sp i' j' p Hus Hi Hj Htr) as (r & Hr & Hc & Hpte & Hwx & Han).
    exists r. split_and!; auto. split_and!; auto. intros Hown. specialize (Han Hown). rewrite lookup_delete_ne; [done|]. intros ->. congruence.
  - intros q o [_ Hq]%lookup_delete_Some. by eapply Ho.
  - destruct Hm as [H1 H2 H3 H4]. split; try done. intros m' x Hx Hk. destruct (H2 m' x Hx Hk) as (Hl & Hn & Hpg).
    split; [done|]. split; [done|]. intros i' Hi' Hz. specialize (Hpg i' Hi' Hz). rewrite lookup_delete_ne; [done|].
    intros Heq. rewrite <- Heq, Hpa in Hpg. injection Hpg as <- <-. by apply (Hnot x Hx).
Qed.

Section fault.
Context (own : gmap Z frame_owner) (v : vst) (a : Z) (sp : AddressSpace) (r : VirtMemRegion) (page : Z).
Context (Hok : vm_ok own v) (Husr : user_space v a sp) (Hr : r ∈ regions (as_regions sp)).
Context (Hc : contains r page) (Hpm : page mod PAGE_SIZE = 0).

(** The page the fault is for. *)
Definition fault_owner : frame_owner :=
  if is_shared r then OMem (backing r) (page_index r page) else OAnon (pt_root_physaddr sp) (L1_IDX page) (L2_IDX page).

(** A frame for the page: not yet recorded, or already the object's. *)
Record framed (own' : gmap Z frame_owner) (pa : Z) (fresh : bool) (v' : vst) : Prop := {
  fm_ok : vm_ok own' v';
  fm_frame : frame_ok (roots v') (v_m v') pa;
  fm_tr : tr_same (roots v) (v_m v) (v_m v');
  fm_as : v_as v' = v_as v;
  fm_new : if is_shared r then own' !! pa = Some (OMem (backing r) (page_index r page)) else own' !! pa = None ∧ fresh = true;
  fm_mem : is_shared r = true → fresh = true → ∃ x, mems (v_k v') !! backing r = Some x ∧ m_kind x = MEMKIND_SHARED ∧
    0 ≤ page_index r page < m_page_count x ∧ aget (m_page_addrs x) (page_index r page) = pa
}.

Lemma is_shared_spec : is_shared r = true → owner r = VM_BACKING_SHARED ∧ backing r ≠ 0.
Proof. unfold is_shared. intros [H1%bool_decide_eq_true H2]%andb_true_iff. by b2p. Qed.

Lemma wp_fault_frame Q :
  Q None v → (∀ pa fresh own' v', framed own' pa fresh v' → Q (Some (pa, fresh)) v') → wp (fault_frame r page) Q v.
Proof.
  intros Hno Hyes. unfold fault_frame. apply wp_if; intros Es.
  - destruct (is_shared_spec Es) as [Ho Hb]. apply wp_if; intros E0; [by wp_step|].
    destruct (vm_shared _ _ _ Hok a sp r (proj1 Husr) Hr Ho Hb) as (x & Hx & Hk).
    wp_step. apply wp_on_k, wp_mem. exists x. split; [done|]. rewrite (drain_same v) by apply Hok.
    cbv zeta. case_if Ei; [by wp_step|]. set (i := page_index r page) in *.
    assert (0 ≤ i) as Hi0 by apply w32_range. destruct (ms_page _ _ _ (vm_mems _ _ _ Hok) _ x Hx Hk) as (Hl & Hn & Hpg).
    case_if Ez; b2p; simpl.
    + wp_step. pose proof (Hpg i ltac:(lia) Ez) as Hown. apply (Hyes _ _ own v). split; try done.
      * by eapply (vm_own _ _ _ Hok).
      * by rewrite Es.
    + wp_step. apply (wp_zeroed_frame (λ _, []) own v); [done|cbn [Z.eqb]; by wp_step|]. intros pa s' Hok' Hpa Hn' Htr _.
      pose proof Hpa as (_ & _ & Hpr). rewrite (proj2 (Z.eqb_neq pa 0)) by lia.
      wp_step. apply wp_on_k, wp_upd_mem. exists x. split; [done|]. rewrite drain_mems by apply Hok'. wp_step.
      pose proof (vm_ok_own_insert _ own (set_v_m s' v) pa (OMem (backing r) i) Hok' Hpa Hn') as Hok1.
      apply (Hyes pa true (<[pa := OMem (backing r) i]> own)). split; try done.
      * apply vm_ok_mems; [done| |].
        { apply (mems_ok_page _ _ _ (backing r) x); [apply Hok1|done|done|lia|]. intros _. by rewrite lookup_insert_eq. }
        intros m y Hy. destruct (decide (m = backing r)) as [->|Hne]; [|exists y; by rewrite lookup_insert_ne].
        eexists. rewrite lookup_insert_eq. split; [done|]. simpl in Hy. rewrite Hx in Hy. by injection Hy as <-.
      * rewrite Es. by rewrite lookup_insert_eq.
      * intros _ _. eexists. simpl. rewrite lookup_insert_eq. split; [done|]. split; [done|]. fold i. split; [simpl; lia|].
        simpl. rewrite aget_aset_eq by lia. done.
  - apply wp_if; intros Ea; [|by wp_step]. wp_step. apply (wp_zeroed_frame (λ _, []) own v); [done|cbn [Z.eqb]; by wp_step|].
    intros pa s' Hok' Hpa Hn' Htr _. pose proof Hpa as (_ & _ & Hpr). rewrite (proj2 (Z.eqb_neq pa 0)) by lia. wp_step.
    apply (Hyes pa true own). split; try done; rewrite Es; done.
Qed.

Definition fault_post (ok : bool) (v' : vst) : Prop :=
  (∃ own', vm_ok own' v') ∧ v_as v' = v_as v ∧
  (∀ r' i j, valid (roots v) r' i → 0 ≤ j < 256 → ¬ (r' = sp_root sp ∧ page_va i j = page) → tr (v_m v') r' i j = tr (v_m v) r' i j) ∧
  (ok = true → is_Some (tr_at sp (v_m v') page)).

(** The frame goes back when it could not be mapped. *)
Lemma wp_fault_undo own1 pa v1 s' Q :
  framed own1 pa true v1 → next (λ _, []) own1 v1 s' →
  (∀ own' k s'', vm_ok own' (set_v_m s'' (set_v_k k v1)) → words s'' = words s' → Q tt (set_v_m s'' (set_v_k k v1))) →
  wp (fault_undo r page pa) Q (set_v_m s' v1).
Proof.
  intros [Hok1 Hfr Htr Has Hnew Hmem] [Hok2 Hfr2 _] HQ. unfold fault_undo. wp_step.
  assert (∀ own' ms, vm_ok own' (with_mems ms (set_v_m s' v1)) → own' !! pa = None →
    wp (on_m (PmmFreeFrame_m pa)) Q (with_mems ms (set_v_m s' v1))) as Hgive.
  { intros own' ms Hok' Hn. apply wp_on_m. unfold PmmFreeFrame_m. wp_step.
    exact (HQ own' (set_mems ms (v_k v1)) _ (vm_ok_give _ own' _ pa Hok' (Hfr2 pa Hfr) Hn) eq_refl). }
  destruct (is_shared r) eqn:Es.
  - destruct (Hmem eq_refl eq_refl) as (x & Hx & Hk & Hi & Hpg). apply wp_when; [intros _|done]. wp_step.
    apply wp_on_k, wp_mem. exists x. split; [done|]. rewrite (drain_same (set_v_m s' v1)) by apply Hok2. cbv zeta.
    rewrite Hpg, Z.eqb_refl, (proj2 (Z.ltb_lt _ _)) by lia. apply wp_when; [intros _|done]. apply wp_on_k, wp_upd_mem.
    exists x. split; [done|]. rewrite drain_mems by apply Hok2. destruct (vm_own _ _ _ Hok1 _ _ Hnew) as (_ & _ & Hpr).
    set (i := page_index r page) in *. destruct (ms_page _ _ _ (vm_mems _ _ _ Hok1) _ x Hx Hk) as (Hl & _ & _).
    eapply (Hgive (delete pa own1)); [|by rewrite lookup_delete_eq].
    eapply (vm_ok_own_delete _ own1); [|done|].
    + apply vm_ok_mems; [done| |].
      { apply (mems_ok_page _ _ _ (backing r) x); [apply Hok2|done|done|done|done]. }
      intros m y Hy. destruct (decide (m = backing r)) as [->|Hne]; [|exists y; by rewrite lookup_insert_ne].
      eexists. rewrite lookup_insert_eq. split; [done|]. simpl in Hy. rewrite Hx in Hy. by injection Hy as <-.
    + simpl. rewrite lookup_insert_eq. intros y [= <-]. simpl. rewrite aget_aset_eq by lia. lia.
  - apply wp_when; [done|intros _]. destruct Hnew as [Hn _].
    replace (set_v_m s' v1) with (with_mems (mems (v_k v1)) (set_v_m s' v1)) by (destruct v1 as [[] ? ? ? ?]; done).
    eapply (Hgive own1); [|done]. by destruct v1 as [[] ? ? ? ?].
Qed.

Lemma page_inside : page + PAGE_SIZE ≤ r_end r ∧ 0 ≤ page < USER_VA_TOP.
Proof.
  destruct (vm_user _ _ _ Hok a sp r Husr Hr) as (Hra & Hrs & Hre & _).
  pose proof (proj1 (Forall_forall _ _) (vo_regions _ (vm_vec _ _ _ Hok a sp (proj1 Husr))) r Hr) as (Hr0 & _ & _).
  unfold contains, r_end, PAGE_SIZE in *. Z.div_mod_to_equations. lia.
Qed.

Lemma wp_VmmPageFaultHandle Q : (∀ ok v', fault_post ok v' → Q ok v') → wp (VmmPageFaultHandle sp r page) Q v.
Proof.
  intros HQ. destruct page_inside as [Hin Hpr]. unfold USER_VA_TOP in Hpr.
  assert (valid (roots v) (sp_root sp) (L1_IDX page)) as Hval by (eapply user_valid; [done|apply user_idx; unfold USER_VA_TOP; lia]).
  assert (page_va (L1_IDX page) (L2_IDX page) = page) as Hpv by (apply page_va_idx; [lia|done]).
  unfold VmmPageFaultHandle. wp_step. apply wp_on_m. apply (wp_Translate (U := self (roots v) (v_m v)) (roots v) sp);
    [eapply roots_in, Husr|apply Hok|done|lia|].
  replace (set_v_m (v_m v) v) with v by (by destruct v).
  assert (fault_post false v) as Hfalse by (split; [by exists own|]; done).
  case_if Et; b2p; cbn [negb].
  { wp_step. apply HQ. split; [by exists own|]. do 2 (split; [done|]). intros _. destruct (tr_at sp (v_m v) page); [by eexists|done]. }
  apply wp_if; intros Ed; [wp_step; by apply HQ|]. wp_step. apply wp_fault_frame; [wp_step; by apply HQ|].
  intros pa fresh own1 v1 Hfm. pose proof Hfm as [Hok1 Hfr Htr Has Hnew Hmem]. pose proof Hfr as (_ & Hpm1 & Hpr1).
  assert (roots v1 = roots v) as Hroots by (apply roots_same; by rewrite Has).
  set (own2 := if is_shared r then own1 else <[pa := OAnon (pt_root_physaddr sp) (L1_IDX page) (L2_IDX page)]> own1).
  assert (vm_ok own2 v1) as Hok2.
  { unfold own2. destruct (is_shared r); [done|]. apply vm_ok_own_insert; [done|done|apply Hnew]. }
  assert (∀ s' k g, k ≤ PAGE_SIZE → tr_upd (roots v1) (v_m v1) s' (set_range (sp_root sp) page k g) →
    ∀ r' i j, valid (roots v) r' i → 0 ≤ j < 256 → ¬ (r' = sp_root sp ∧ page_va i j = page) → tr s' r' i j = tr (v_m v) r' i j) as Hother.
  { intros s' k g Hk Hu r' i j Hv Hj Hne. rewrite Hroots in Hu. rewrite (Hu r' i j Hv Hj). unfold set_range.
    rewrite decide_False; [by apply Htr|]. intros [-> Hx]. apply Hne. split; [done|].
    assert (page_va i j mod PAGE_SIZE = 0) by (unfold page_va, SECTION_SIZE, PAGE_SIZE; Z.div_mod_to_equations; lia).
    unfold PAGE_SIZE in *. Z.div_mod_to_equations. lia. }
  wp_step. apply wp_on_m.
  apply (wp_VmmMapRange (λ _, []) (λ _, []) own1 own2 v1 a sp r page pa PAGE_SIZE); try done; try lia.
  - split; [rewrite Has; apply Husr|apply Husr].
  - by left.
  - by apply (vm_user _ _ _ Hok a sp r).
  - apply Hc.
  - unfold PAGE_SIZE in *. Z.div_mod_to_equations. lia.
  - intros Ho i j Hi Hj Hx. assert (is_shared r = false) as Es by (unfold is_shared; by rewrite Ho).
    destruct (page_va_range i j Hi Hj) as [_ Hm]. assert (page_va i j = page) as He by (unfold PAGE_SIZE in *; Z.div_mod_to_equations; lia).
    apply (idx_iff page i j) in He as [-> ->]; [|lia|done|lia|done]. unfold own2. rewrite Es, Hpv, Z.sub_diag, Z.add_0_r. by rewrite lookup_insert_eq.
  - intros s' k Hnx Hk Hu. cbn [negb]. wp_step. apply wp_when; intros Ef.
    + subst fresh. apply (wp_fault_undo own1 pa v1); [done|done|]. intros own' k' s'' Hok' Hw. wp_step. apply HQ.
      split; [by exists own'|]. split; [done|]. split; [|done]. intros r' i j Hv Hj Hne. unfold tr. simpl. rewrite Hw. by apply (Hother s' k _ (proj2 Hk) Hu).
    + wp_step. apply HQ. split; [exists own1; apply Hnx|]. split; [done|]. split; [|done]. by apply (Hother s' k _ (proj2 Hk) Hu).
  - intros s' Hnx Hwx _ Hu. cbn [negb]. wp_step. apply HQ. split; [exists own2; apply Hnx|]. split; [done|].
    split; [by apply (Hother s' PAGE_SIZE _ ltac:(lia) Hu)|]. intros _. rewrite Hroots in Hu.
    unfold tr_at. simpl. rewrite (Hu _ _ _ Hval (L2_IDX_range page)). unfold set_range.
    rewrite decide_True; [by eexists|]. split; [done|]. rewrite Hpv. unfold PAGE_SIZE. lia.
Qed.
End fault.

Section check.
Context (a : Z) (sp : AddressSpace) (write : bool) (start end_va : Z).
Context (Hstart : 0 ≤ start ∧ start mod PAGE_SIZE = 0) (Hend : end_va ≤ USER_VA_TOP ∧ end_va mod PAGE_SIZE = 0).

Definition check_post (v : vst) (ok : bool) (v' : vst) : Prop :=
  (∃ own', vm_ok own' v') ∧ v_as v' = v_as v ∧
  (ok = true → ∀ x, start ≤ x < end_va → x mod PAGE_SIZE = 0 → is_Some (tr_at sp (v_m v') x)).

Lemma wp_check_pages n : ∀ own v page Q,
  vm_ok own v → user_space v a sp → start ≤ page → page mod PAGE_SIZE = 0 → end_va - page ≤ PAGE_SIZE * Z.of_nat n →
  (∀ x, start ≤ x < page → x mod PAGE_SIZE = 0 → is_Some (tr_at sp (v_m v) x)) →
  (∀ ok v', check_post v ok v' → Q ok v') →
  wp (check_pages sp write end_va n page) Q v.
Proof.
  induction n as [|n IH]; intros own v page Q Hok Hus Hp Hpm Hn Hdone HQ; cbn [check_pages]; (case_if E; b2p; cbn [negb];
    [wp_step; apply HQ; split; [by exists own|]; split; [done|]; intros _ x Hx Hm; apply Hdone; [lia|done]|]); [lia|].
  unfold USER_VA_TOP in *. assert (0 ≤ page < 2 ^ 31) as Hpr by lia.
  assert (w32 (page + PAGE_SIZE) = page + PAGE_SIZE) as Hw by (apply w32_small; unfold PAGE_SIZE; lia).
  assert (∀ own' v', vm_ok own' v' → v_as v' = v_as v →
    (∀ x, start ≤ x < page → x mod PAGE_SIZE = 0 → is_Some (tr_at sp (v_m v') x)) → is_Some (tr_at sp (v_m v') page) →
    wp (check_pages sp write end_va n (w32 (page + PAGE_SIZE))) Q v') as Hgo.
  { intros own' v' Hok' Has Hd Hpg. rewrite Hw. apply (IH own' v'); [done|split; [rewrite Has; apply Hus|apply Hus]|unfold PAGE_SIZE; lia|..].
    - unfold PAGE_SIZE in *. Z.div_mod_to_equations. lia.
    - unfold PAGE_SIZE in *. lia.
    - intros x Hx Hm. destruct (decide (x < page)); [apply Hd; [lia|done]|].
      assert (x = page) as -> by (unfold PAGE_SIZE in *; Z.div_mod_to_equations; lia). done.
    - intros ok v'' (H1 & H2 & H3). apply HQ. split; [done|]. split; [congruence|done]. }
  assert (valid (roots v) (sp_root sp) (L1_IDX page)) as Hval by (eapply user_valid; [done|apply user_idx; unfold USER_VA_TOP; lia]).
  wp_step. apply wp_on_m. apply (wp_Translate (U := self (roots v) (v_m v)) (roots v) sp);
    [eapply roots_in, Hus|apply Hok|done|lia|].
  replace (set_v_m (v_m v) v) with v by (by destruct v). case_if Et; b2p; cbn [negb].
  { apply (Hgo own v); [done|done|done|]. destruct (tr_at sp (v_m v) page); [by eexists|done]. }
  assert (Q false v) as Hfalse by (apply HQ; split; [by exists own|]; done).
  pose proof (vm_vec _ _ _ Hok a sp (proj1 Hus)) as Hvec.
  destruct (wp_find _ Hvec page ltac:(lia)) as (fr & -> & Hfr). destruct fr as [i|]; [|by wp_step]. destruct Hfr as [Hi Hc].
  cbv zeta. set (r := aget (data (as_regions sp)) i) in *.
  assert (r ∈ regions (as_regions sp)) as Hr by (eapply list_elem_of_lookup_2, (regions_lookup _ Hvec); lia).
  apply wp_if; intros _; [by wp_step|]. apply wp_if; intros _; [by wp_step|]. apply wp_if; intros _; [by wp_step|].
  wp_step. apply (wp_VmmPageFaultHandle own v a sp r page Hok Hus Hr Hc Hpm). intros ok v' ((own' & Hok') & Has & Hoth & Hyes).
  destruct ok; cbn [negb]; [|wp_step; apply HQ; split; [by exists own'|]; done].
  apply (Hgo own' v'); [done|done| |auto]. intros x Hx Hm. unfold tr_at.
  assert (0 ≤ x < 2 ^ 32) as Hxr by lia. rewrite Hoth; [by apply Hdone| |apply L2_IDX_range|].
  - eapply user_valid; [done|apply user_idx; unfold USER_VA_TOP; lia].
  - rewrite (page_va_idx x Hxr Hm). lia.
Qed.
End check.

Lemma wp_VmmCheckUserFault own v a sp va len_ write :
  vm_ok own v → user_space v a sp → 0 ≤ va < 2 ^ 32 → 0 ≤ len_ < 2 ^ 32 →
  wp (VmmCheckUserFault sp va len_ write) (λ ok v',
    (∃ own', vm_ok own' v') ∧ v_as v' = v_as v ∧
    (ok = true → len_ ≠ 0 → va + len_ ≤ USER_VA_TOP ∧
       ∀ x, va ≤ x < va + len_ → is_Some (tr_at sp (v_m v') (x - x mod PAGE_SIZE)))) v.
Proof.
  intros Hok Hus Hva Hlen. unfold VmmCheckUserFault, is_user. rewrite (bool_decide_true _ (proj2 Hus)). cbn [andb].
  assert (∀ P : Prop, (∃ own', vm_ok own' v) ∧ v_as v = v_as v ∧ (false = true → P)) as Hfalse by (split; [by exists own|]; done).
  case_if E0; b2p; [wp_step; split; [by exists own|]; done|].
  case_if E1; b2p; [by wp_step|]. unfold UINTPTR_MAX in E1. cbv zeta. apply wp_if; intros E2; [by wp_step|].
  apply orb_false_iff in E2 as [E2 E3]. b2p. unfold USER_VA_TOP in E2, E3.
  pose proof (align_down_spec va 12 ltac:(lia)) as Hd. pose proof (align_up_spec (va + len_) 12 ltac:(lia) ltac:(lia) ltac:(lia)) as Hu.
  change (2 ^ 12) with PAGE_SIZE in Hd, Hu. set (lo := align_down va PAGE_SIZE) in *. set (hi := align_up (va + len_) PAGE_SIZE) in *.
  assert (0 ≤ lo ≤ va ∧ va < lo + PAGE_SIZE ∧ lo mod PAGE_SIZE = 0) as (Hl1 & Hl2 & Hl3).
  { unfold PAGE_SIZE in *. Z.div_mod_to_equations. lia. }
  assert (va + len_ ≤ hi ≤ 2 ^ 31 ∧ hi mod PAGE_SIZE = 0 ∧ lo ≤ hi) as (Hh1 & Hh2 & Hh3).
  { unfold PAGE_SIZE in *. Z.div_mod_to_equations. lia. }
  assert (hi - lo ≤ PAGE_SIZE * Z.of_nat (Z.to_nat ((hi - lo) / PAGE_SIZE))) as Hn.
  { unfold PAGE_SIZE in *. Z.div_mod_to_equations. lia. }
  apply (wp_check_pages a sp write lo hi ltac:(lia) ltac:(split; [unfold USER_VA_TOP; lia|done])) with (own := own); try (done || lia).
  intros ok v' (H1 & H2 & H3). split; [done|]. split; [done|]. intros -> _. split; [unfold USER_VA_TOP; lia|].
  intros x Hx. apply H3; [done|..]; unfold PAGE_SIZE in *; Z.div_mod_to_equations; lia.
Qed.

(** * Adding and removing regions *)

Lemma all_regions_delete m a sp : m !! a = Some sp → all_regions m ≡ₚ regions (as_regions sp) ++ all_regions (delete a m).
Proof.
  intros H. rewrite <- (insert_delete_id m a sp H) at 1. unfold all_regions.
  rewrite (map_to_list_insert (delete a m) a sp (lookup_delete_eq m a)). done.
Qed.
Lemma all_regions_insert m a sp : all_regions (<[a := sp]> m) ≡ₚ regions (as_regions sp) ++ all_regions (delete a m).
Proof. rewrite (all_regions_delete (<[a := sp]> m) a sp) by apply lookup_insert_eq. by rewrite delete_insert_eq. Qed.

(** Disjoint regions of whole pages below [top]. *)
Lemma regions_bound top rs lo :
  Forall region_ok rs → Forall (λ r, size r mod PAGE_SIZE = 0 ∧ lo ≤ vaddr_start r ∧ r_end r ≤ top) rs →
  StronglySorted (λ a b, r_end a ≤ vaddr_start b) rs → lo ≤ top → lo + PAGE_SIZE * Z.of_nat (length rs) ≤ top.
Proof.
  revert lo. induction rs as [|r rs IH]; intros lo Hok Hf Hs Hlo; simpl; [lia|].
  apply Forall_cons in Hok as [(_ & Hsz & _) Hok], Hf as [(Hm & Hl & Hr) Hf]. apply StronglySorted_cons in Hs as [Hb Hs].
  assert (lo + PAGE_SIZE ≤ r_end r) by (unfold r_end, PAGE_SIZE in *; Z.div_mod_to_equations; lia).
  specialize (IH (r_end r) Hok). assert (r_end r + PAGE_SIZE * Z.of_nat (length rs) ≤ top); [|lia]. apply IH; [|done|done].
  rewrite Forall_forall in Hf, Hb |- *. intros x Hx. destruct (Hf x Hx) as (? & _ & ?). split_and!; auto.
Qed.
Lemma user_len ext own v a sp : vm_ok_ext ext own v → user_space v a sp → len (as_regions sp) ≤ 2 ^ 19.
Proof.
  intros Hok Hu. pose proof (vm_vec _ _ _ Hok a sp (proj1 Hu)) as Hv. pose proof (vo_len _ Hv).
  assert (0 + PAGE_SIZE * Z.of_nat (length (regions (as_regions sp))) ≤ USER_VA_TOP) as Hb.
  { apply regions_bound; [apply Hv| |apply Hv|done]. apply Forall_forall. intros r Hr.
    destruct (vm_user _ _ _ Hok a sp r Hu Hr) as (_ & ? & ? & _).
    pose proof (proj1 (Forall_forall _ _) (vo_regions _ Hv) r Hr) as (? & _). done. }
  rewrite (length_regions _ Hv) in Hb. unfold PAGE_SIZE, USER_VA_TOP in Hb. lia.
Qed.

Lemma vm_ok_k ext own v k :
  mems k = mems (v_k v) → pmm_frees k = [] → vm_ok_ext ext own v → vm_ok_ext ext own (set_v_k k v).
Proof. intros Hm Hf [Ht Hf0 Hv Hu Hp Hs Ho Hms Hsh]. split; try done; simpl; rewrite Hm; done. Qed.

(** The region [r] of the space at [a], about to be added. *)
Definition pend (a : Z) (r : VirtMemRegion) (b : Z) : list VirtMemRegion := if decide (b = a) then [r] else [].
Lemma vm_ok_pend own v a r : vm_ok own v → vm_ok_ext (pend a r) own v.
Proof.
  intros [Ht Hf Hv Hu Hp Hs Ho Hms Hsh]. split; try done.
  - intros b sp i j p H1 H2 H3 H4. destruct (Hp b sp i j p H1 H2 H3 H4) as (r' & [?|?%elem_of_nil] & ?); [|done]. exists r'. auto.
  - intros b sp i H1 H2 H3. destruct (Hs b sp i H1 H2 H3) as (r' & [?|?%elem_of_nil] & ?); [|done]. exists r'. auto.
Qed.

Lemma added_iff v r v' x : added v r v' → x ∈ regions v' ↔ x ∈ regions v ∨ x = stored r.
Proof. intros (l1 & l2 & -> & ->). rewrite !elem_of_app, elem_of_cons. tauto. Qed.
Lemma stored_attrs r : prot (stored r) = prot r ∧ memtype (stored r) = memtype r ∧ owner (stored r) = owner r ∧ backing (stored r) = backing r.
Proof. unfold stored. by case_match. Qed.
Lemma stored_contains r x : contains (stored r) x ↔ contains r x.
Proof. unfold contains, r_end. by destruct (stored_range r) as [-> ->]. Qed.

(** The state with the region array of the space at [a] replaced. *)
Definition with_regions (a : Z) (sp : AddressSpace) (vec : region_vec) (v : vst) : vst := set_v_as (<[a := set_as_regions vec sp]> (v_as v)) v.

Lemma with_regions_roots a sp vec v : v_as v !! a = Some sp → roots (with_regions a sp vec v) = roots v.
Proof.
  intros Ha. apply roots_same. simpl. rewrite fmap_insert. apply insert_id. by rewrite lookup_fmap, Ha.
Qed.
Lemma with_regions_lookup a sp vec v b q :
  v_as (with_regions a sp vec v) !! b = Some q → b = a ∧ q = set_as_regions vec sp ∨ b ≠ a ∧ v_as v !! b = Some q.
Proof. simpl. intros [[<- <-]|[? ?]]%lookup_insert_Some; auto. Qed.
Lemma with_regions_id a sp v : v_as v !! a = Some sp → with_regions a sp (as_regions sp) v = v.
Proof.
  intros Ha. unfold with_regions. replace (set_as_regions (as_regions sp) sp) with sp by (by destruct sp).
  rewrite insert_id by done. by destruct v.
Qed.

Lemma with_regions_user a sp vec v b q :
  v_as v !! a = Some sp → user_space (with_regions a sp vec v) b q →
  (b = a ∧ q = set_as_regions vec sp ∧ user_space v a sp) ∨ (b ≠ a ∧ user_space v b q).
Proof. intros Ha [[[-> ->]|[Hne Hb]]%with_regions_lookup Ht]; [left|right]; by repeat split. Qed.

Section added.
Context (own : gmap Z frame_owner) (v : vst) (a : Z) (sp : AddressSpace) (r : VirtMemRegion) (vec : region_vec) (ms : gmap Z MemObject).
Context (Hok : vm_ok_ext (pend a r) own v) (Hus : user_space v a sp) (Hvec : vec_ok vec) (Hadd : added (as_regions sp) r vec).
Context (Hur : user_region r) (Hms : mems_ok own (backing r :: region_refs (v_as v)) ms) (Hkept : kept (mems (v_k v)) ms).
Context (Hsh : owner r = VM_BACKING_SHARED → backing r ≠ 0 → ∃ x, mems (v_k v) !! backing r = Some x ∧ m_kind x = MEMKIND_SHARED).

Lemma in_region_added b q va P :
  (∀ r', P r' → P (stored r')) →
  in_region (pend a r) b q va P →
  b = a ∧ q = sp → in_region (λ _, []) b (set_as_regions vec sp) va P.
Proof.
  intros HP (r' & Hr' & Hc & Hr) [-> ->]. unfold pend in Hr'. rewrite decide_True in Hr' by done.
  destruct Hr' as [Hr'| ->%list_elem_of_singleton].
  - exists r'. split; [left; simpl; apply (added_iff _ _ _ _ Hadd); by left|done].
  - exists (stored r). split; [left; simpl; apply (added_iff _ _ _ _ Hadd); by right|]. split; [by apply stored_contains|auto].
Qed.

Lemma vm_ok_added : vm_ok own (with_regions a sp vec (with_mems ms v)).
Proof.
  pose proof Hok as [Ht Hf Hv Hu Hp Hs Ho Hms0 Hsh0]. set (v' := with_regions a sp vec (with_mems ms v)).
  assert (roots v' = roots v) as Hroots by exact (with_regions_roots a sp vec (with_mems ms v) (proj1 Hus)).
  destruct (stored_attrs r) as (E1 & E2 & E3 & E4). destruct (stored_range r) as [E5 E6].
  split; try done.
  - by rewrite Hroots.
  - intros b q [[-> ->]|[_ Hb]]%with_regions_lookup; [done|by eapply Hv].
  - intros b q r' [(-> & -> & _)|[_ Hb]]%with_regions_user Hr'; [| |apply Hus]; [|by eapply Hu].
    simpl in Hr'. apply (added_iff _ _ _ _ Hadd) in Hr' as [Hr'| ->]; [by eapply Hu|].
    unfold user_region, r_end. by rewrite E1, E5, E6.
  - intros b q i j p [(-> & -> & _)|[Hne Hb]]%with_regions_user Hi Hj Htr; [| |apply Hus].
    + apply (in_region_added a sp); [|exact (Hp a sp i j p Hus Hi Hj Htr)|done]. intros r' (H1 & H2 & H3).
      destruct (stored_attrs r') as (F1 & F2 & F3 & _). unfold page_ok. by rewrite F1, F2, F3.
    + destruct (Hp b q i j p Hb Hi Hj Htr) as (r' & Hr' & Hrest). exists r'. split; [|done]. unfold pend in Hr'. by rewrite decide_False in Hr'.
  - intros b q i [(-> & -> & _)|[Hne Hb]]%with_regions_user Hi Hd; [| |apply Hus].
    + apply (in_region_added a sp); [|exact (Hs a sp i Hus Hi Hd)|done]. intros r' [H1 H2]. unfold sec_region. by destruct (stored_range r') as [-> ->].
    + destruct (Hs b q i Hb Hi Hd) as (r' & Hr' & Hrest). exists r'. split; [|done]. unfold pend in Hr'. by rewrite decide_False in Hr'.
  - intros pa o Hpa. rewrite Hroots. by eapply Ho.
  - simpl. eapply mems_ok_perm; [|exact Hms]. unfold region_refs. destruct Hadd as (l1 & l2 & El & El').
    rewrite (all_regions_insert (v_as v) a), (all_regions_delete (v_as v) a sp) by apply Hus. simpl. rewrite El, El'.
    rewrite !fmap_app, fmap_cons, E4. rewrite <- !app_assoc. simpl. apply Permutation_middle.
  - intros b q r' [[-> ->]|[_ Hb]]%with_regions_lookup Hr' Hown Hback.
    + simpl in Hr'. apply (added_iff _ _ _ _ Hadd) in Hr' as [Hr'| ->].
      * destruct (Hsh0 a sp r' (proj1 Hus) Hr' Hown Hback) as (x & Hx & Hk). destruct (Hkept _ _ Hx) as (y & Hy & Hky). exists y. split; [done|congruence].
      * rewrite E3 in Hown. rewrite E4 in *. destruct (Hsh Hown Hback) as (x & Hx & Hk). destruct (Hkept _ _ Hx) as (y & Hy & Hky).
        exists y. split; [done|congruence].
    + destruct (Hsh0 b q r' Hb Hr' Hown Hback) as (x & Hx & Hk). destruct (Hkept _ _ Hx) as (y & Hy & Hky). exists y. split; [done|congruence].
Qed.
End added.

Lemma removed_iff v r v' x : vec_ok v → removed v r v' → x ∈ regions v' ↔ x ∈ regions v ∧ x ≠ r.
Proof.
  intros Hv (l1 & l2 & El & El'). pose proof (vo_sorted _ Hv) as Hs. pose proof (vo_regions _ Hv) as Hf. rewrite El in *. rewrite El'.
  rewrite !elem_of_app, elem_of_cons. apply StronglySorted_app in Hs as (H12 & H1 & H2). apply StronglySorted_cons in H2 as [H2 _].
  rewrite Forall_forall in Hf, H2.
  assert (r ∉ l1 ∧ r ∉ l2) as [Hn1 Hn2]; [|split; [|tauto]; intros [Hx|Hx]; (split; [tauto|]); by intros ->].
  destruct (Hf r) as (_ & Hsz & _); [set_solver|]. split; intros Hin.
  - pose proof (H12 r r Hin ltac:(set_solver)) as H. unfold r_end in H. simpl in H. lia.
  - pose proof (H2 r Hin) as H. unfold r_end in H. simpl in H. lia.
Qed.

Lemma fresh_frame_in rs s fs pa : pa ∉ all_pages rs s → pa ∈ all_pages rs (set_frames (fs ++ frames s) s) ↔ pa ∈ fs.
Proof. unfold all_pages. simpl. rewrite !elem_of_app. tauto. Qed.

(** Giving back the frames of objects that are gone. *)
Lemma vm_ok_give_list ext own v fs :
  vm_ok_ext ext own v → NoDup fs → (∀ pa, pa ∈ fs → frame_ok (roots v) (v_m v) pa ∧ own !! pa = None) →
  vm_ok_ext ext own (set_v_m (set_frames (fs ++ frames (v_m v)) (v_m v)) v).
Proof.
  intros Hok. induction fs as [|pa fs IH]; intros Hnd Hfs; simpl.
  { by destruct v as [? [] ? ? ?]. }
  apply NoDup_cons in Hnd as [Hni Hnd]. assert (∀ q, q ∈ fs → frame_ok (roots v) (v_m v) q ∧ own !! q = None) as Hfs' by (intros q Hq; apply Hfs; by right).
  destruct (Hfs pa) as [(Hn & Hr) Hown]; [by left|].
  exact (vm_ok_give ext own (set_v_m (set_frames (fs ++ frames (v_m v)) (v_m v)) v) pa (IH Hnd Hfs')
    (conj (λ Hin, Hni (proj1 (fresh_frame_in (roots v) (v_m v) fs pa Hn) Hin)) Hr) Hown).
Qed.

Section removed.
Context (own own' : gmap Z frame_owner) (v : vst) (a : Z) (sp : AddressSpace) (r : VirtMemRegion) (vec : region_vec).
Context (ms : gmap Z MemObject) (fs : list Z).
Context (Hok : vm_ok own v) (Hus : user_space v a sp) (Hvec : vec_ok vec) (Hrem : removed (as_regions sp) r vec).
Context (Hnone : ∀ i j, 0 ≤ i < 2048 → 0 ≤ j < 256 → contains r (page_va i j) → tr (v_m v) (sp_root sp) i j = None).
Context (Hms : ∀ us, region_refs (v_as v) ≡ₚ backing r :: us → mems_ok own' us ms).
Context (Hfreed : freed own fs own') (Hfew : fewer (mems (v_k v)) ms).

Lemma section_translates s r0 i : desc_type (entry s r0 i) = DESC_SECTION → is_Some (tr s r0 i 0).
Proof. intros Hd. unfold tr, walk. fold (entry s r0 i). rewrite Hd. by eexists. Qed.

Lemma vm_ok_removed : vm_ok own' (drain (mems_to ms fs (v_k v)) (with_regions a sp vec v)).
Proof.
  pose proof Hok as [Ht Hf Hv Hu Hp Hs Ho Hms0 Hsh0]. destruct Hfreed as [Hown Hnd Hfm].
  set (v1 := with_regions a sp vec (with_mems ms v)).
  assert (roots v1 = roots v) as Hroots by exact (with_regions_roots a sp vec (with_mems ms v) (proj1 Hus)).
  pose proof (λ x, removed_iff (as_regions sp) r vec x (Hv a sp (proj1 Hus)) Hrem) as Hiff.
  assert (r ∈ regions (as_regions sp)) as Hrin by (destruct Hrem as (l1 & l2 & -> & _); set_solver).
  assert (region_refs (v_as v) ≡ₚ backing r :: region_refs (v_as v1)) as Hrefs.
  { unfold region_refs. destruct Hrem as (l1 & l2 & El & El'). rewrite (all_regions_delete (v_as v) a sp) by apply Hus.
    simpl. rewrite (all_regions_insert (v_as v) a). simpl. rewrite El, El', !fmap_app, fmap_cons, <- !app_assoc. simpl. symmetry. apply Permutation_middle. }
  assert (vm_ok own' v1) as Hok1.
  { split; try done.
    - by rewrite Hroots.
    - intros b q [[-> ->]|[_ Hb]]%with_regions_lookup; [done|by eapply Hv].
    - intros b q r' [(-> & -> & _)|[_ Hb]]%with_regions_user Hr'; [| |apply Hus]; [|by eapply Hu].
      apply Hiff in Hr' as [Hr' _]. by eapply Hu.
    - assert (∀ q r' i j p, page_ok own q r' i j p → page_ok own' q r' i j p) as Hpok.
      { intros q r' i j p (H1 & H2 & H3). split_and!; [done|done|]. intros Han. rewrite Hown. apply without_Some. split; [auto|].
        intros Hin. destruct (Hfm _ Hin) as (m & k & Hm). rewrite (H3 Han) in Hm. done. }
      intros b q i j p [(-> & -> & _)|[Hne Hb]]%with_regions_user Hi Hj Htr; [| |apply Hus].
      + destruct (Hp a sp i j p Hus Hi Hj Htr) as (r' & [Hr'|?%elem_of_nil] & Hc & Hpo); [|done]. exists r'. split; [left; apply Hiff|auto].
        split; [done|]. intros ->. change (tr (v_m v) (sp_root sp) i j = Some p) in Htr. by rewrite Hnone in Htr.
      + destruct (Hp b q i j p Hb Hi Hj Htr) as (r' & Hr' & Hc & Hpo). exists r'. auto.
    - intros b q i [(-> & -> & _)|[Hne Hb]]%with_regions_user Hi Hd; [| |apply Hus].
      + change (desc_type (entry (v_m v) (sp_root sp) i) = DESC_SECTION) in Hd.
        destruct (Hs a sp i Hus Hi Hd) as (r' & [Hr'|?%elem_of_nil] & Hc & Hpo); [|done]. exists r'. split; [left; apply Hiff|done].
        split; [done|]. intros ->. apply section_translates in Hd. rewrite Hnone in Hd by (done || lia). by apply is_Some_None in Hd.
      + destruct (Hs b q i Hb Hi Hd) as (r' & Hr' & Hc & Hpo). exists r'. auto.
    - intros pa o. rewrite Hown, without_Some, Hroots. intros [Hpa _]. by eapply Ho.
    - by apply Hms.
    - intros b q r' Hb Hr' Hsd Hback.
      assert (∃ x, mems (v_k v) !! backing r' = Some x ∧ m_kind x = MEMKIND_SHARED) as (x & Hx & Hk).
      { apply with_regions_lookup in Hb as [[-> ->]|[_ Hb]]; [|by eapply Hsh0]. apply Hiff in Hr' as [Hr' _]. eapply Hsh0; [apply Hus|done..]. }
      destruct (ms_live _ _ _ (Hms _ Hrefs) (backing r') Hback) as (y & Hy & _).
      { apply elem_of_app. left. apply list_elem_of_fmap. exists r'. split; [done|].
        rewrite (all_regions_delete (v_as v1) b q Hb). apply elem_of_app. by left. }
      exists y. split; [done|]. destruct (Hfew _ _ Hy) as (x' & Hx' & ->). congruence. }
  pose proof (vm_ok_give_list _ own' v1 fs Hok1 Hnd) as Hgive.
  assert (drain (mems_to ms fs (v_k v)) (with_regions a sp vec v) = set_v_m (set_frames (fs ++ frames (v_m v1)) (v_m v1)) v1) as ->.
  { unfold drain, mems_to, v1, with_regions, with_mems. simpl. rewrite Hf, app_nil_r. destruct (v_k v). simpl in *. by subst. }
  apply Hgive. intros pa Hpa. destruct (Hfm pa Hpa) as (m & i & Hm). rewrite Hroots. split; [by eapply Ho|].
  destruct (own' !! pa) as [o|] eqn:E; [|done]. rewrite Hown in E. by apply without_Some in E as [_ ?].
Qed.
End removed.

(** The space's objects other than memory are as before. *)
Definition same_spaces (k k' : kst) : Prop := spaces k' = spaces k ∧ l_space k' = l_space k.

Lemma wp_on_kmem v Q :
  pmm_frees (v_k v) = [] →
  (∀ x k', mems k' = mems (v_k v) → pmm_frees k' = [] → same_spaces (v_k v) k' → Q x (set_v_k k' v)) →
  wp (on_k kmem_alloc) Q v.
Proof.
  intros Hf HQ. apply wp_on_k, wp_kmem_alloc. intros x km. specialize (HQ x (set_kmem km (v_k v)) eq_refl Hf).
  replace (drain (set_kmem km (v_k v)) v) with (set_v_k (set_kmem km (v_k v)) v); [by apply HQ|].
  unfold drain. simpl. rewrite Hf. destruct v as [[] [] ? ? ?]. simpl in *. by subst.
Qed.
Lemma wp_get_as v a sp Q : v_as v !! a = Some sp → Q sp v → wp (get_as a) Q v.
Proof. intros Ha HQ. unfold get_as. wp_step. wp_step. rewrite Ha. by wp_step. Qed.

Lemma wp_AddRegion own v a sp r Q :
  vm_ok_ext (pend a r) own v → user_space v a sp → user_region r → 0 ≤ vaddr_start r → 0 ≤ size r →
  (backing r ≠ 0 → ∃ x, mems (v_k v) !! backing r = Some x ∧ 0 ≤ m_ref_count x < 2 ^ 32 - 1 ∧
     (owner r = VM_BACKING_SHARED → m_kind x = MEMKIND_SHARED)) →
  (∀ k', mems k' = mems (v_k v) → pmm_frees k' = [] → same_spaces (v_k v) k' → Q false (set_v_k k' v)) →
  (∀ v' vec, vm_ok own v' → v_m v' = v_m v → v_as v' = <[a := set_as_regions vec sp]> (v_as v) → added (as_regions sp) r vec →
     same_spaces (v_k v) (v_k v') → kept (mems (v_k v)) (mems (v_k v')) → Q true v') →
  wp (VmmAddRegion_ a r) Q v.
Proof.
  intros Hok Hus Hur Hst Hsz Hback Hno Hyes. pose proof (vm_vec _ _ _ Hok a sp (proj1 Hus)) as Hvec. pose proof (vm_frees _ _ _ Hok) as Hf.
  assert (∀ k', mems k' = mems (v_k v) → pmm_frees k' = [] → same_spaces (v_k v) k' →
    wp (let '(ok, v0) := (false, as_regions sp) in put_as a (set_as_regions v0 sp) ;; ret ok) Q (set_v_k k' v)) as Hfail.
  { intros k' H1 H2 H3. unfold put_as. wp_step. wp_step. wp_step.
    fold (with_regions a sp (as_regions sp) (set_v_k k' v)). rewrite with_regions_id by apply Hus. by apply Hno. }
  unfold VmmAddRegion_. wp_step. apply (wp_get_as v a sp); [apply Hus|]. wp_step.
  apply wp_VmmAddRegion; [done| |done|lia|destruct Hur as (_ & _ & ? & _); unfold USER_VA_TOP in *; lia|..].
  { pose proof (user_len _ _ _ _ _ Hok Hus). lia. }
  { intros _. specialize (Hfail (v_k v) eq_refl Hf (conj eq_refl eq_refl)). by destruct v. }
  intros Hsz' _ done_.
  assert (∀ k', mems k' = mems (v_k v) → pmm_frees k' = [] → same_spaces (v_k v) k' → done_ (set_v_k k' v)) as Hdone.
  { intros k' H1 H2 [H3 H4]. unfold done_. apply wp_on_k. apply (wp_MemObjRef own (region_refs (v_as v))).
    - simpl. rewrite H1. apply Hok.
    - intros Hb. destruct (Hback Hb) as (x & Hx & Hr & _). exists x. simpl. by rewrite H1.
    - intros ms' Hms Hkept vec Hvec' Hadd. unfold put_as. wp_step. wp_step. wp_step. rewrite drain_mems by done.
      simpl in Hkept. rewrite H1 in Hkept.
      apply (Hyes (with_regions a sp vec (with_mems ms' (set_v_k k' v))) vec); try done.
      apply (vm_ok_added own (set_v_k k' v) a sp r vec ms'); try done.
      + by apply vm_ok_k.
      + simpl. by rewrite H1.
      + intros Hs Hb. destruct (Hback Hb) as (x & Hx & _ & Hk). exists x. simpl. rewrite H1. auto. }
  case_if Ec; [|specialize (Hdone (v_k v) eq_refl Hf (conj eq_refl eq_refl)); by destruct v].
  apply wp_on_kmem; [done|]. intros x k' H1 H2 H3. case_if Ex; [by apply Hfail|]. wp_step. by apply Hdone.
Qed.

(** A region whose pages are about to go: [r'] has its range, and stands for it where the
    frames are already given back. *)
Section remove.
Context (own : gmap Z frame_owner) (v : vst) (a : Z) (sp : AddressSpace) (r r' : VirtMemRegion).
Context (Hok : vm_ok_ext (pend a r') own v) (Hus : user_space v a sp) (Hr : r ∈ regions (as_regions sp)).
Context (Hst : vaddr_start r' = vaddr_start r) (Hsi : size r' = size r).

Lemma region_range : user_region r ∧ region_ok r.
Proof.
  split; [by apply (vm_user _ _ _ Hok a sp)|].
  exact (proj1 (Forall_forall _ _) (vo_regions _ (vm_vec _ _ _ Hok a sp (proj1 Hus))) r Hr).
Qed.

Lemma region_sections : sections_inside sp (v_m v) r.
Proof.
  unfold sections_inside. destruct (decide (sec_region r)) as [|Hns]; [by left|right]. intros x [Hx Hm] Hd.
  destruct region_range as [(_ & _ & Hre & _) (Hr0 & _ & _)]. pose proof (vm_vec _ _ _ Hok a sp (proj1 Hus)) as Hvec. unfold r_end in *.
  destruct (vm_sec _ _ _ Hok a sp (L1_IDX x) Hus) as (q & Hq & Hc & Hsr); [apply user_idx; lia|done|]. apply Hns.
  unfold pend in Hq. rewrite decide_True in Hq by done. destruct Hq as [Hq| ->%list_elem_of_singleton].
  2: { unfold sec_region in *. by rewrite <- Hst, <- Hsi. }
  replace r with q; [done|]. apply (contains_eq (as_regions sp) q r x); [done..| |done].
  pose proof (proj1 (idx_of x ltac:(unfold USER_VA_TOP in *; lia))) as Hi. destruct Hsr as [Hs1 Hs2].
  unfold contains, page_va, r_end, SECTION_SIZE, PAGE_SIZE in *. Z.div_mod_to_equations. lia.
Qed.

(** Once nothing is mapped there, [r'] is not needed any more. *)
Lemma vm_ok_unpend :
  (∀ i j, 0 ≤ i < 2048 → 0 ≤ j < 256 → contains r (page_va i j) → tr (v_m v) (sp_root sp) i j = None) → vm_ok own v.
Proof.
  intros Hnone. pose proof Hok as [Ht Hf Hv Hu Hp Hs Ho Hms Hsh].
  assert (∀ x, contains r' x ↔ contains r x) as Hcc by (unfold contains, r_end; rewrite Hst, Hsi; done).
  assert (∀ b q i j, user_space v b q → 0 ≤ i < 2048 → 0 ≤ j < 256 → ∀ P, in_region (pend a r') b q (page_va i j) P →
    is_Some (tr (v_m v) (sp_root q) i j) → in_region (λ _, []) b q (page_va i j) P) as Hin.
  { intros b q i j Hb Hi Hj P (r0 & [Hr0|Hr0] & Hc & HP) Hsome; [exists r0; auto|]. unfold pend in Hr0. case_decide as Hd; [|by apply elem_of_nil in Hr0].
    apply list_elem_of_singleton in Hr0 as ->. subst b. destruct Hb as [Hb _], Hus as [Hb' _]. rewrite Hb' in Hb. injection Hb as <-.
    rewrite Hnone in Hsome by (done || by apply Hcc). by apply is_Some_None in Hsome. }
  split; try done.
  - intros b q i j p Hb Hi Hj Htr. eapply Hin; [done..|by apply Hp|by rewrite Htr].
  - intros b q i Hb Hi Hd. eapply Hin; [done|done|lia|by apply Hs|by apply section_translates].
Qed.
End remove.

Lemma region_refs_in m a sp r : m !! a = Some sp → r ∈ regions (as_regions sp) → ∃ us, region_refs m ≡ₚ backing r :: us.
Proof.
  intros Hm (l1 & l2 & El)%list_elem_of_split. unfold region_refs. eexists. rewrite (all_regions_delete m a sp) by done.
  rewrite El, !fmap_app, fmap_cons, <- app_assoc. simpl. symmetry. apply Permutation_middle.
Qed.

Lemma wp_RemoveRegion own v a sp r r' Q :
  vm_ok_ext (pend a r') own v → user_space v a sp → r ∈ regions (as_regions sp) → vaddr_start r' = vaddr_start r → size r' = size r →
  (∀ own' v' vec, vm_ok own' v' → v_as v' = <[a := set_as_regions vec sp]> (v_as v) → removed (as_regions sp) r vec →
     same_spaces (v_k v) (v_k v') → Q true v') →
  wp (VmmRemoveRegion_ a (vaddr_start r) (size r)) Q v.
Proof.
  intros Hok Hus Hr Hst Hsi HQ. destruct (region_range own v a sp r r' Hok Hus Hr) as [Hur (Hr0 & Hr1 & Hr2)].
  pose proof (vm_vec _ _ _ Hok a sp (proj1 Hus)) as Hvec. unfold VmmRemoveRegion_. wp_step. apply (wp_get_as v a sp); [apply Hus|].
  wp_step. apply wp_VmmRemoveRegion; [done|..].
  { intros [?|Hno]; [lia|]. by destruct (Hno r Hr). }
  intros q Hq Hqs Hqz _. assert (q = r) as ->.
  { apply (contains_eq (as_regions sp) q r (vaddr_start r)); [done..| |]; unfold contains, r_end; lia. }
  wp_step. apply wp_on_m. apply (wp_VmmUnmapRange (pend a r') own v Hok a sp Hus r); [done|done|done| |].
  { by apply (region_sections own v a sp r r'). }
  intros any s' Hnx Hnone. wp_step. set (v1 := set_v_m s' v) in *.
  assert (vm_ok own v1) as Hok1 by (apply (vm_ok_unpend own v1 a sp r r'); [apply Hnx|done..]).
  destruct (region_refs_in (v_as v1) a sp r) as [us Hrefs]; [apply Hus|done|].
  apply wp_on_k. eapply (wp_MemObjUnref own); [eapply mems_ok_perm; [exact Hrefs|apply Hok1]|].
  intros ms fs own' Hms Hfr Hfew vec Hvec' Hrem. unfold put_as. wp_step. wp_step. wp_step.
  eapply (HQ own' (drain (mems_to ms fs (v_k v1)) (with_regions a sp vec v1)) vec); [|done|done|done].
  apply (vm_ok_removed own own' v1 a sp r vec ms fs); try done.
  intros us' Hus'. eapply mems_ok_perm; [|exact Hms]. rewrite Hrefs in Hus'. by apply Permutation_cons_inv in Hus'.
Qed.
