(* ===== verification/UserOps.v ===== *)
(** The calls that change user memory keep the invariant of [UserInv]: mapping anonymous
    memory and memory objects, unmapping, protecting, injecting into a space that has no
    task yet, and page faults; and what follows for every sequence of them. *)
From stdpp Require Import sorting.
From S2P Require Import Prelude Bitmap Handle KState Sched MemObj MemRef Region Asid Mmu MmuInv MmuRange UserMap UserInv.

#[local] Open Scope Z_scope.

(** * Mapping anonymous memory and memory objects *)

Lemma user_prot prot_ : Z.testbit (Z.lor prot_ VM_PROT_USER) 3 = true.
Proof. by rewrite Z.lor_spec, orb_true_r. Qed.

(** The space object [i] has the user address space at [a]. *)
Definition live_space (v : vst) (i a : Z) (sp : AddressSpace) : Prop :=
  (∃ s, spaces (v_k v) !! i = Some s ∧ s_as s = Some a) ∧ user_space v a sp.

Lemma wp_on_space v i s Q : pmm_frees (v_k v) = [] → spaces (v_k v) !! i = Some s → Q s v → wp (on_k (space i)) Q v.
Proof.
  intros Hf Hs HQ. apply wp_on_k. unfold space, deref. wp_step. wp_step. rewrite Hs. wp_step. by rewrite drain_same.
Qed.
Lemma wp_as_of v i a sp Q : pmm_frees (v_k v) = [] → live_space v i a sp → Q a v → wp (as_of i) Q v.
Proof.
  intros Hf [(s & Hs & Ha) _] HQ. unfold as_of. wp_step. apply (wp_on_space v i s); [done..|]. rewrite Ha. by wp_step.
Qed.

Lemma free_va_window own v a sp lo hi n va :
  vm_ok own v → user_space v a sp → 0 < lo → lo mod PAGE_SIZE = 0 → 0 ≤ n →
  VmmFindFreeVa (as_regions sp) lo hi n = va → va ≠ 0 → va mod PAGE_SIZE = 0 ∧ lo ≤ va ∧ va + n ≤ hi ∧ 0 < n.
Proof.
  intros Hok Hus Hlo Hm Hn <- Hz. assert (0 < n) as Hn'.
  { destruct (decide (n = 0)) as [->|]; [|lia]. by destruct Hz. }
  destruct (find_free_va (as_regions sp) lo hi n) as [_ H]; [by eapply (vm_vec _ _ _ Hok), Hus| |done..|].
  { apply Forall_forall. intros r Hr. destruct (vm_user _ _ _ Hok a sp r Hus Hr) as (_ & _ & He & _).
    unfold USER_VA_TOP, PAGE_SIZE in *. lia. }
  destruct (H Hz) as ((H1 & H2 & H3 & _) & _). split_and!; done.
Qed.

Lemma wp_VmmMapAnon own v i a sp hint n prot_ Q :
  vm_ok own v → live_space v i a sp → 0 ≤ hint < 2 ^ 32 → 0 ≤ n < 2 ^ 32 →
  (∀ r v', vm_ok own v' → Q r v') → wp (VmmMapAnon i hint n prot_) Q v.
Proof.
  intros Hok Hl Hh Hn HQ. pose proof Hl as [_ Hus]. unfold VmmMapAnon. case_if E0; [wp_step; by apply HQ|].
  case_if E1; [wp_step; by apply HQ|]. case_if E2; [wp_step; by apply HQ|]. b2p.
  wp_step. apply (wp_as_of v i a sp); [apply Hok|done|]. wp_step. apply (wp_get_as v a sp); [apply Hus|].
  match goal with |- wp (match ?x with inl _ => _ | inr _ => _ end) _ _ => destruct x as [err|va] eqn:Ev end; [wp_step; by apply HQ|].
  assert (va mod PAGE_SIZE = 0 ∧ 0 ≤ va ∧ va + n ≤ USER_VA_TOP) as (Hva & Hv0 & Hv1).
  { unfold USER_VA_TOP in *. destruct (hint =? 0) eqn:Eh; cbn [negb] in Ev; b2p.
    - revert Ev. case_if Ez; intros [= Ev].
      destruct (free_va_window own v a sp USER_MMAP_BASE USER_DEVICE_BASE n va) as (? & ? & ? & ?); try done; try lia.
      unfold USER_MMAP_BASE, USER_DEVICE_BASE in *. split_and!; [done|lia..].
    - revert Ev. case_if Em; [done|]. case_if Eo; intros [= <-].
      split_and!; [done|lia..]. }
  wp_step. apply (wp_AddRegion own v a sp); simpl; try done; try lia.
  - by apply vm_ok_pend.
  - split_and!; try done. apply user_prot.
  - intros k' H1 H2 _. cbn [negb]. wp_step. apply HQ. by apply vm_ok_k.
  - intros v' vec Hok' _ _ _ _ _. cbn [negb]. wp_step. by apply HQ.
Qed.

Lemma window_va_ok own v a sp hint n lo hi va :
  vm_ok own v → user_space v a sp → 0 < lo → lo mod PAGE_SIZE = 0 → 0 ≤ n →
  window_va (as_regions sp) hint n lo hi = inr va → va mod PAGE_SIZE = 0 ∧ lo ≤ va ∧ va + n ≤ hi.
Proof.
  intros Hok Hus Hlo Hm Hn. unfold window_va. case_if Eh.
  - case_if Ez; intros [= Ev]. destruct (free_va_window own v a sp lo hi n va) as (? & ? & ? & ?); try done; lia.
  - case_if Em; [done|]. case_if Eo; intros [= <-]. split_and!; [done|lia..].
Qed.

Lemma set_v_m_id v : set_v_m (v_m v) v = v.
Proof. by destruct v. Qed.
Lemma vm_ok_tlb ext own v ops : vm_ok_ext ext own v → vm_ok_ext ext own (set_v_m (set_tlb_ops ops (v_m v)) v).
Proof. intros [Ht Hf Hv Hu Hp Hs Ho Hms Hsh]. split; try done. destruct Ht. by split. Qed.

(** What [VmmMapMemObj] needs of the object: a reference more fits its count, and a device
    lies in the physical address space. *)
Definition mappable (x : MemObject) : Prop :=
  0 ≤ m_ref_count x < 2 ^ 32 - 1 ∧
  (m_kind x = MEMKIND_DEVICE → 0 ≤ m_phys_base x ∧ 0 ≤ m_size x ∧ m_phys_base x + m_size x ≤ 2 ^ 32 - PAGE_SIZE).

Section map_obj.
Context (own : gmap Z frame_owner) (v : vst) (a : Z) (sp : AddressSpace) (m : Z) (x : MemObject).
Context (Hok : vm_ok own v) (Hus : user_space v a sp) (Hx : mems (v_k v) !! m = Some x) (Hmap : mappable x).

(** The space object keeps its address space, and its handle table. *)
Definition obj_post (Q : Z + Z → vst → Prop) : Prop := ∀ r v', vm_ok own v' → same_spaces (v_k v) (v_k v') → Q r v'.

Lemma wp_map_shared prot_ limit hint Q : m_kind x = MEMKIND_SHARED → obj_post Q → wp (map_shared a m x prot_ limit hint) Q v.
Proof.
  intros Hk HQ. unfold map_shared. case_if Eu; [wp_step; by apply HQ|]. wp_step. apply (wp_get_as v a sp); [apply Hus|].
  set (n := w32 (m_page_count x * PAGE_SIZE)). assert (n mod PAGE_SIZE = 0 ∧ 0 ≤ n) as [Hnm Hn].
  { destruct (ms_page _ _ _ (vm_mems _ _ _ Hok) m x Hx Hk) as (_ & Hc & _). unfold n. rewrite w32_small by (unfold PAGE_SIZE; lia).
    split; [apply Z.mod_mul; done|unfold PAGE_SIZE; lia]. }
  destruct (window_va _ _ _ _ _) as [err|va] eqn:Ew; [wp_step; by apply HQ|].
  destruct (window_va_ok own v a sp hint n USER_MMAP_BASE USER_DEVICE_BASE va) as (Hva & Hlo & Hhi); try done.
  unfold USER_MMAP_BASE, USER_DEVICE_BASE in *.
  wp_step. apply (wp_AddRegion own v a sp); simpl; try done; try lia.
  - by apply vm_ok_pend.
  - split_and!; try done; [unfold r_end, USER_VA_TOP; simpl; lia|apply user_prot].
  - intros _. exists x. split; [done|]. split; [apply Hmap|done].
  - intros k' H1 H2 H3. cbn [negb]. wp_step. apply HQ; [by apply vm_ok_k|done].
  - intros v' vec Hok' _ _ _ H3 _. cbn [negb]. wp_step. by apply HQ.
Qed.

Lemma wp_map_device prot_ limit hint Q : m_kind x = MEMKIND_DEVICE → obj_post Q → wp (map_device a m x prot_ limit hint) Q v.
Proof.
  intros Hk HQ. unfold map_device. wp_step. apply (wp_get_as v a sp); [apply Hus|].
  set (n := align_up (m_size x) PAGE_SIZE). destruct Hmap as [Hrc Hdev]. destruct (Hdev Hk) as (Hd1 & Hd2 & Hd3).
  destruct (align_up_least (m_size x)) as (Hn1 & Hnm & Hn2); [lia|]. fold n in Hn1, Hnm, Hn2.
  assert (m_phys_base x + n ≤ 2 ^ 32) as Hpn.
  { specialize (Hn2 (PAGE_SIZE * ((m_size x + PAGE_SIZE - 1) / PAGE_SIZE))). unfold PAGE_SIZE in *. Z.div_mod_to_equations. lia. }
  destruct (window_va _ _ _ _ _) as [err|va] eqn:Ew; [wp_step; by apply HQ|].
  destruct (window_va_ok own v a sp hint n USER_DEVICE_BASE USER_DEVICE_LIMIT va) as (Hva & Hlo & Hhi); try done; try lia.
  unfold USER_DEVICE_BASE, USER_DEVICE_LIMIT in *.
  set (r := mkRegion va n (Z.lor prot_ VM_PROT_USER) limit VM_MEM_DEVICE VM_BACKING_NONE VM_FLAG_NONE m 0).
  assert (user_region r) as Hur by (split_and!; try done; [unfold r_end, USER_VA_TOP; simpl; lia|apply user_prot]).
  destruct (decide (n = 0)) as [Hn0|Hn0].
  { rewrite Hn0. unfold VmmMapRange. wp_step. apply wp_on_m. cbn [Z.eqb]. wp_step. cbn [negb]. wp_step. rewrite set_v_m_id. by apply HQ. }
  wp_step. apply wp_on_m.
  apply (wp_VmmMapRange (λ _, []) (pend a r) own own v a sp r va (m_phys_base x) n); try done; try lia.
  { by apply vm_ok_pend. }
  { right. unfold pend. rewrite decide_True by done. by left. }
  { intros s' k Hnx _ _. cbn [negb]. wp_step. apply HQ; [apply Hnx|done]. }
  intros s' Hnx _ Hsecs _. cbn [negb]. wp_step. set (v1 := set_v_m s' v).
  apply (wp_AddRegion own v1 a sp r); try done; try (simpl; lia); [apply Hnx|..].
  - intros _. by exists x.
  - intros k' H1 H2 H3. cbn [negb]. wp_step. set (v2 := set_v_k k' v1). apply wp_on_m.
    assert (vm_ok_ext (pend a r) own v2) as Hok2 by (apply vm_ok_k; [done|done|apply Hnx]).
    apply (wp_VmmUnmapRange (pend a r) own v2 Hok2 a sp Hus r); try done; try (simpl; lia).
    { destruct Hsecs as [[? ?]|Hin]; [by left|right]. intros y [Hy Hym] Hd. destruct (Hin y Hy Hym) as [_ Hd']. discriminate (eq_trans (eq_sym Hd') Hd). }
    intros _ s'' Hnx' Hnone. wp_step. apply HQ; [|done].
    apply (vm_ok_unpend own (set_v_m s'' v2) a sp r r); try done. apply Hnx'.
  - intros v' vec Hok' _ _ _ H3 _. cbn [negb]. unfold flush_tlb. wp_step. apply wp_on_m. wp_step. wp_step. apply HQ; [by apply vm_ok_tlb|done].
Qed.
End map_obj.

Lemma same_spaces_live v v' i a sp : same_spaces (v_k v) (v_k v') → v_as v' !! a = Some sp → as_type sp = ADDRESS_SPACE_USER →
  ∀ sp0, live_space v i a sp0 → live_space v' i a sp.
Proof. intros [Hs _] H1 H2 sp0 [H _]. split; [by rewrite Hs|done]. Qed.

Lemma wp_on_mem v m x Q : pmm_frees (v_k v) = [] → mems (v_k v) !! m = Some x → Q x v → wp (on_k (mem m)) Q v.
Proof.
  intros Hf Hs HQ. apply wp_on_k. unfold mem, deref. wp_step. wp_step. rewrite Hs. wp_step. by rewrite drain_same.
Qed.

Lemma wp_set_entry_va own v i s slot va Q :
  vm_ok own v → spaces (v_k v) !! i = Some s → (∀ k', vm_ok own (set_v_k k' v) → Q tt (set_v_k k' v)) → wp (set_entry_va i slot va) Q v.
Proof.
  intros Hok Hs HQ. unfold set_entry_va. apply wp_on_k. unfold upd_space, space, deref. wp_step. wp_step. wp_step. rewrite Hs. wp_step.
  wp_step. set (k' := set_spaces _ _). replace (drain k' v) with (set_v_k k' v).
  - apply HQ. apply vm_ok_k; [done|apply Hok|done].
  - pose proof (vm_frees _ _ _ Hok) as Hf. unfold k', drain. simpl. rewrite Hf. destruct v as [[] [] ? ? ?]. simpl in *. by subst.
Qed.

Lemma wp_VmmMapMemObj own v i s a sp slot e prot_ hint Q :
  vm_ok own v → spaces (v_k v) !! i = Some s → s_as s = Some a → user_space v a sp →
  HandleTableGet (s_handle_table s) slot = Some e →
  (obj e ≠ 0 → ∃ x, mems (v_k v) !! obj e = Some x ∧ mappable x) →
  (∀ r v', vm_ok own v' → Q r v') → wp (VmmMapMemObj i slot prot_ hint) Q v.
Proof.
  intros Hok Hs Ha Hus He Hobj HQ. pose proof (vm_frees _ _ _ Hok) as Hf. unfold VmmMapMemObj. wp_step. apply (wp_on_space v i s); [done..|].
  rewrite He. do 3 (apply wp_if; intros ?; [wp_step; by apply HQ|]). b2p. destruct Hobj as (x & Hx & Hm); [done|].
  wp_step. apply (wp_as_of v i a sp); [done|split; [by exists s|done]|]. wp_step. apply (wp_on_mem v (obj e) x); [done..|].
  assert (obj_post own v (λ r v', wp match r with inl err => ret (err, 0) | inr va => set_entry_va i slot va ;; ret (ZUZU_OK, va) end Q v')) as Hpost.
  { intros [err|va] v' Hok' [Hsp _]; [wp_step; by apply HQ|]. wp_step. apply (wp_set_entry_va own v' i s); [done|by rewrite Hsp|].
    intros k' Hok''. wp_step. by apply HQ. }
  wp_step. destruct (m_kind x) eqn:Ek; [wp_step; wp_step; by apply HQ|by apply (wp_map_device own v a sp)|by apply (wp_map_shared own v a sp)].
Qed.

(** * Unmapping *)

(** A region of anonymous memory whose frames are being given back. *)
Definition released (r : VirtMemRegion) : VirtMemRegion :=
  mkRegion (vaddr_start r) (size r) (prot r) (max_prot r) (memtype r) VM_BACKING_NONE (flags r) (backing r) (backing_page_offset r).

Section release.
Context (a : Z) (sp : AddressSpace) (r : VirtMemRegion) (Hur : user_region r) (Hr0 : 0 ≤ vaddr_start r).

Lemma vm_ok_release own v i j p :
  vm_ok_ext (pend a (released r)) own v → user_space v a sp → 0 ≤ i < 2048 → 0 ≤ j < 256 → contains r (page_va i j) →
  tr (v_m v) (sp_root sp) i j = Some p → page_ok own sp r i j p → owner r = VM_BACKING_ANON →
  vm_ok_ext (pend a (released r)) (delete (pte_pa p) own) v.
Proof.
  intros [Ht Hf Hv Hu Hp Hs Ho Hm Hsh] Hus Hi Hj Hc Htr (Hpte & Hwx & Han) Hown. specialize (Han Hown). split; try done.
  - intros b q i' j' p' Hb Hi' Hj' Htr'. destruct (Hp b q i' j' p' Hb Hi' Hj' Htr') as (r' & Hr' & Hc' & Hpte' & Hwx' & Han').
    destruct (decide (b = a ∧ i' = i ∧ j' = j)) as [(-> & -> & ->)|Hne].
    + assert (q = sp) as -> by (destruct Hb, Hus; congruence). exists (released r). split; [right; unfold pend; rewrite decide_True by done; by left|].
      split; [done|]. rewrite Htr in Htr'. injection Htr' as <-. split_and!; done.
    + exists r'. split_and!; auto. split_and!; auto. intros Hown'. specialize (Han' Hown').
      rewrite lookup_delete_ne; [done|]. intros Heq. rewrite <- Heq, Han in Han'. injection Han' as Hroot -> ->. apply Hne.
      split; [|done]. eapply roots_distinct; [done|apply Hb|apply Hus|done].
  - intros q o [_ Hq]%lookup_delete_Some. by eapply Ho.
  - destruct Hm as [H1 H2 H3 H4]. split; try done. intros m' x Hx Hk. destruct (H2 m' x Hx Hk) as (Hl & Hn & Hpg).
    split; [done|]. split; [done|]. intros i' Hi' Hz. specialize (Hpg i' Hi' Hz). rewrite lookup_delete_ne; [done|congruence].
Qed.

Lemma wp_free_anon n : ∀ own v x Q,
  vm_ok_ext (pend a (released r)) own v → user_space v a sp → owner r = VM_BACKING_ANON →
  vaddr_start r ≤ x → x mod PAGE_SIZE = 0 → r_end r - x ≤ PAGE_SIZE * Z.of_nat n →
  (∀ i j p, 0 ≤ i < 2048 → 0 ≤ j < 256 → x ≤ page_va i j < r_end r → tr (v_m v) (sp_root sp) i j = Some p → page_ok own sp r i j p) →
  (∀ own' s', vm_ok_ext (pend a (released r)) own' (set_v_m s' v) → Q tt s') →
  wp (free_anon (pt_root_physaddr sp) (r_end r) n x) Q (v_m v).
Proof.
  induction n as [|n IH]; intros own v x Q Hok Hus Hown Hx Hxm Hn Hpg HQ; cbn [free_anon]; (case_if E; b2p; cbn [negb];
    [wp_step; apply (HQ own); by rewrite set_v_m_id|]); [lia|].
  destruct Hur as (_ & _ & Hre & _). unfold USER_VA_TOP in Hre.
  assert (0 ≤ L1_IDX x < 2048) as Hi by (apply user_idx; unfold USER_VA_TOP; lia).
  pose proof (L2_IDX_range x) as Hj. pose proof (page_va_idx x ltac:(lia) Hxm) as Hpv.
  assert (w32 (x + PAGE_SIZE) = x + PAGE_SIZE) as -> by (apply w32_small; unfold PAGE_SIZE; lia).
  assert ((x + PAGE_SIZE) mod PAGE_SIZE = 0) as Hxm' by (unfold PAGE_SIZE in *; Z.div_mod_to_equations; lia).
  wp_step. apply (wp_Translate (U := self (roots v) (v_m v)) (roots v) sp);
    [eapply roots_in, Hus|apply Hok|by eapply user_valid|lia|].
  destruct (tr_at sp (v_m v) x) as [p|] eqn:Etr.
  2: { cbn [Z.eqb negb]. wp_step. apply wp_when; [done|]. intros _. apply (IH own); try done; [unfold PAGE_SIZE; lia|lia|].
       intros i j p Hi' Hj' Hr. apply Hpg; [done..|unfold PAGE_SIZE in *; lia]. }
  rewrite Hxm, Z.add_0_r. assert (page_ok own sp r (L1_IDX x) (L2_IDX x) p) as Hpo by (apply Hpg; [done..|lia|done]).
  pose proof Hpo as (_ & _ & Han). specialize (Han Hown). pose proof (vm_own _ _ _ Hok _ _ Han) as Hfr.
  rewrite (proj2 (Z.eqb_neq (pte_pa p) 0)) by (destruct Hfr; lia). cbn [negb]. unfold PmmFreeFrame_m. wp_step. apply wp_when; [intros _|done]. wp_step.
  apply (IH (delete (pte_pa p) own) (set_v_m (set_frames (pte_pa p :: frames (v_m v)) (v_m v)) v)); try done; [|unfold PAGE_SIZE; lia|lia|].
  - apply vm_ok_give; [|done|apply lookup_delete_eq].
    apply (vm_ok_release own v (L1_IDX x) (L2_IDX x) p); try done. rewrite Hpv. unfold contains. lia.
  - intros i j q Hi' Hj' Hr Hq. destruct (Hpg i j q Hi' Hj' ltac:(unfold PAGE_SIZE in *; lia) Hq) as (H1 & H2 & H3).
    split_and!; [done|done|]. intros _. rewrite lookup_delete_ne; [by apply H3|]. intros Heq. specialize (H3 Hown).
    rewrite <- Heq, Han in H3. injection H3 as <- <-. rewrite Hpv in Hr. unfold PAGE_SIZE in *. lia.
Qed.
End release.

Lemma page_in_region own v a sp r i j p :
  vm_ok own v → user_space v a sp → r ∈ regions (as_regions sp) → 0 ≤ i < 2048 → 0 ≤ j < 256 → contains r (page_va i j) →
  tr (v_m v) (sp_root sp) i j = Some p → page_ok own sp r i j p.
Proof.
  intros Hok Hus Hr Hi Hj Hc Htr. destruct (vm_page _ _ _ Hok a sp i j p Hus Hi Hj Htr) as (q & [Hq|?%elem_of_nil] & Hcq & Hp); [|done].
  by rewrite <- (contains_eq (as_regions sp) q r (page_va i j) (vm_vec _ _ _ Hok a sp (proj1 Hus)) Hq Hr Hcq Hc).
Qed.

Lemma wp_VmmUnmapUserRegion own v i a sp va Q :
  vm_ok own v → live_space v i a sp → 0 ≤ va < 2 ^ 32 →
  (∀ rc v', (∃ own', vm_ok own' v') → Q rc v') → wp (VmmUnmapUserRegion i va) Q v.
Proof.
  intros Hok Hl Hva HQ. pose proof Hl as [(s & Hs & Ha) Hus]. pose proof (vm_vec _ _ _ Hok a sp (proj1 Hus)) as Hvec.
  pose proof (vm_frees _ _ _ Hok) as Hf. unfold VmmUnmapUserRegion. wp_step. apply (wp_as_of v i a sp); [done..|].
  wp_step. apply (wp_get_as v a sp); [apply Hus|]. destruct (wp_find _ Hvec va Hva) as (o & -> & Ho).
  destruct o as [k|]; [|wp_step; apply HQ; by exists own]. destruct Ho as [Hk Hc].
  set (r := aget (data (as_regions sp)) k) in *. assert (r ∈ regions (as_regions sp)) as Hr by (eapply list_elem_of_lookup_2, (regions_lookup _ Hvec); done).
  case_if E1; b2p; [wp_step; apply HQ; by exists own|]. case_if E2; [wp_step; apply HQ; by exists own|].
  destruct (region_range own v a sp r r (vm_ok_pend own v a r Hok) Hus Hr) as [Hur (Hr0 & Hr1 & Hr2)].
  assert (∀ r' own' v', vm_ok_ext (pend a r') own' v' → user_space v' a sp → vaddr_start r' = vaddr_start r → size r' = size r →
    wp (let! ok := VmmRemoveRegion_ a (vaddr_start r) (size r) in if ok : bool then ret ZUZU_OK else panic) Q v') as Hrem.
  { intros r' own' v' Hok' Hus' Hst Hsi. wp_step. apply (wp_RemoveRegion own' v' a sp r r'); try done.
    intros own'' v'' vec Hok'' _ _ _. wp_step. apply HQ. by exists own''. }
  assert (wp (let! s := on_k (space i) in match find_mapped (s_handle_table s) va (Z.to_nat HANDLE_MAX_SLOTS) 0 with
            | Some i0 => set_entry_va i i0 0 | None => ret tt end)
     (λ _ v', wp (let! ok := VmmRemoveRegion_ a (vaddr_start r) (size r) in if ok : bool then ret ZUZU_OK else panic) Q v') v) as Hother.
  { wp_step. apply (wp_on_space v i s); [done..|]. destruct (find_mapped _ _ _ _) as [slot|].
    - apply (wp_set_entry_va own v i s); [done..|]. intros k' Hok'. apply (Hrem r own); try done. by apply vm_ok_pend.
    - wp_step. apply (Hrem r own); try done. by apply vm_ok_pend. }
  wp_step. destruct (owner r) eqn:Eo; try exact Hother.
  apply wp_on_m. subst va. unfold r_end in Hr2. rewrite w32_small by lia.
  apply (wp_free_anon a sp r Hur Hr0 _ own v); try done.
  - by apply vm_ok_pend.
  - apply Hur.
  - unfold r_end, PAGE_SIZE. Z.div_mod_to_equations. lia.
  - intros i' j p Hi Hj Hin Htr. by eapply page_in_region.
  - intros own' s' Hok'. by apply (Hrem (released r) own').
Qed.

(** * Protection *)

Lemma with_prot_pte_of pa p q mt : Z.testbit p 3 = true → Z.testbit q 3 = true → with_prot q (pte_of pa p mt) = pte_of pa q mt.
Proof. intros Hp Hq. unfold with_prot, pte_of. cbn -[Z.testbit]. by rewrite Hp, Hq. Qed.
Lemma wx_user p : wx_ok p → wx_ok (Z.lor p VM_PROT_USER).
Proof.
  unfold wx_ok, writable, executable. rewrite !prot_write, !prot_exec, !Z.lor_spec. by rewrite !orb_false_r.
Qed.

Section protect.
Context (own : gmap Z frame_owner) (v : vst) (a : Z) (sp : AddressSpace) (k np : Z).
Context (Hok : vm_ok own v) (Hus : user_space v a sp) (Hk : 0 ≤ k < len (as_regions sp)).
Context (Hnp : Z.testbit np 3 = true) (Hwx : wx_ok np).
#[local] Notation r := (aget (data (as_regions sp)) k).
#[local] Notation vec := (region_set_prot (as_regions sp) k np).

Lemma protect_vec : vec_ok vec ∧ regions vec = <[Z.to_nat k := set_prot np r]> (regions (as_regions sp)).
Proof. apply vec_ok_replace; [by eapply (vm_vec _ _ _ Hok), Hus|done..]. Qed.
Lemma protect_lookup : regions (as_regions sp) !! Z.to_nat k = Some r.
Proof. apply regions_lookup; [by eapply (vm_vec _ _ _ Hok), Hus|done]. Qed.

Lemma protect_in x : x ∈ regions vec → x = set_prot np r ∨ x ∈ regions (as_regions sp).
Proof.
  rewrite (proj2 protect_vec). intros [j Hj]%list_elem_of_lookup. apply list_lookup_insert_Some in Hj as [(<- & <- & _)|[_ Hj]]; [by left|].
  right. by eapply list_elem_of_lookup_2.
Qed.
Lemma protect_new : set_prot np r ∈ regions vec.
Proof.
  rewrite (proj2 protect_vec). apply list_elem_of_lookup. exists (Z.to_nat k). apply list_lookup_insert_eq.
  by eapply lookup_lt_Some, protect_lookup.
Qed.
Lemma protect_old x : x ∈ regions (as_regions sp) → x = r ∨ x ∈ regions vec.
Proof.
  intros [j Hj]%list_elem_of_lookup. destruct (decide (j = Z.to_nat k)) as [->|Hne].
  - left. rewrite protect_lookup in Hj. by injection Hj.
  - right. rewrite (proj2 protect_vec). apply list_elem_of_lookup. exists j. by rewrite list_lookup_insert_ne.
Qed.

Lemma vm_ok_protected s' :
  mmu_ok (U := self (roots v) (v_m v)) (roots v) s' → types_same (roots v) (v_m v) s' →
  tr_upd (roots v) (v_m v) s' (set_range (sp_root sp) (vaddr_start r) (size r) (λ _ p, with_prot np <$> p)) →
  vm_ok own (with_regions a sp vec (set_v_m s' v)).
Proof.
  intros Hm Hty Htr. pose proof Hok as [Ht Hf Hv Hu Hp Hs Ho Hms Hsh]. destruct (tables_step _ _ _ Hm) as (Ht' & Hperm & Hw).
  set (v' := with_regions a sp vec (set_v_m s' v)).
  assert (roots v' = roots v) as Hroots by exact (with_regions_roots a sp vec (set_v_m s' v) (proj1 Hus)).
  assert (r ∈ regions (as_regions sp)) as Hr by (eapply list_elem_of_lookup_2, protect_lookup).
  split; try done.
  - by rewrite Hroots.
  - intros b q [[-> ->]|[_ Hb]]%with_regions_lookup; [apply protect_vec|by eapply Hv].
  - intros b q x [(-> & -> & _)|[_ Hb]]%with_regions_user Hx; [| |apply Hus]; [|by eapply Hu].
    destruct (protect_in x Hx) as [->|Hx']; [|by eapply Hu]. destruct (Hu a sp r Hus Hr) as (? & ? & ? & _). by split_and!.
  - intros b q i j p [(-> & -> & _)|[Hne Hb]]%with_regions_user Hi Hj Hp'; [| |apply Hus];
      [pose proof (eq_trans (eq_sym (Htr (sp_root sp) _ _ (user_valid _ _ _ _ Hus Hi) Hj)) Hp') as Hq
      |pose proof (eq_trans (eq_sym (Htr _ _ _ (user_valid _ _ _ _ Hb Hi) Hj)) Hp') as Hq];
      unfold set_range in Hq; clear Hp'; rename Hq into Hp'.
    + case_decide as Hc.
      * destruct (tr (v_m v) (sp_root sp) i j) as [p0|] eqn:E0; [|done]. injection Hp' as <-.
        destruct (page_in_region own v a sp r i j p0 Hok Hus Hr Hi Hj (proj2 Hc) E0) as (H1 & _ & H3).
        exists (set_prot np r). split; [left; apply protect_new|]. split; [apply Hc|]. split_and!; [|done|exact H3].
        rewrite H1 at 1. apply with_prot_pte_of; [|done]. by destruct (Hu a sp r Hus Hr) as (_ & _ & _ & ?).
      * destruct (Hp a sp i j p Hus Hi Hj Hp') as (x & [Hx|?%elem_of_nil] & Hcx & Hpx); [|done]. exists x. split; [|done]. left.
        destruct (protect_old x Hx) as [->|Hx']; [|done]. by destruct Hc.
    + rewrite decide_False in Hp'; [by apply (Hp b q)|]. intros [Hroot _]. apply Hne.
      eapply roots_distinct; [exact Ht|apply Hb|apply Hus|by injection Hroot].
  - intros b q i [(-> & -> & _)|[Hne Hb]]%with_regions_user Hi Hd; [| |apply Hus].
    + destruct (Hs a sp i Hus Hi) as (x & [Hx|?%elem_of_nil] & Hcx & Hsx); [rewrite <- (Hty (sp_root sp) i (user_valid _ _ _ _ Hus Hi)); exact Hd| |done].
      destruct (protect_old x Hx) as [->|Hx']; [exists (set_prot np r)|exists x]; (split; [left; done || apply protect_new|done]).
    + apply (Hs b q i Hb Hi). rewrite <- (Hty (sp_root q) i (user_valid _ _ _ _ Hb Hi)). exact Hd.
  - intros pa o Hpa. rewrite Hroots. eapply frame_ok_perm; [done|]. by eapply Ho.
  - simpl. eapply mems_ok_perm; [|exact Hms]. unfold region_refs.
    rewrite (all_regions_insert (v_as v) a), (all_regions_delete (v_as v) a sp) by apply Hus. simpl. rewrite (proj2 protect_vec), !fmap_app.
    rewrite list_fmap_insert, list_insert_id; [done|]. by rewrite list_lookup_fmap, protect_lookup.
  - intros b q x [[-> ->]|[_ Hb]]%with_regions_lookup Hx Hown Hback; [|by apply (Hsh b q x)].
    destruct (protect_in x Hx) as [->|Hx']; [by apply (Hsh a sp r (proj1 Hus) Hr)|by apply (Hsh a sp x (proj1 Hus) Hx')].
Qed.

Lemma wp_VmmProtectPage Q :
  Q (false, sp) (v_m v) →
  (∀ s', vm_ok own (with_regions a sp vec (set_v_m s' v)) → Q (true, set_as_regions vec sp) s') →
  wp (VmmProtectPage sp (vaddr_start r) (size r) np) Q (v_m v).
Proof.
  intros Hno Hyes. pose proof (vm_vec _ _ _ Hok a sp (proj1 Hus)) as Hvec.
  assert (r ∈ regions (as_regions sp)) as Hr by (eapply list_elem_of_lookup_2, protect_lookup).
  destruct (region_range own v a sp r r (vm_ok_pend own v a r Hok) Hus Hr) as [(Ha & Hz & He & _) (Hr0 & Hr1 & Hr2)]. unfold r_end in *.
  unfold VmmProtectPage. case_if E0; [lia|].
  destruct (wp_find _ Hvec (vaddr_start r)) as (o & -> & Hs); [lia|]. destruct o as [j|].
  2: { destruct (Hs r Hr). unfold contains, r_end. lia. }
  destruct Hs as [Hj Hc]. assert (j = k) as ->.
  { apply (contains_unique _ Hvec (vaddr_start r)); try done. unfold contains, r_end. lia. }
  do 4 (apply wp_if; intros ?; [by wp_step|]). wp_step.
  eapply wp_mono; [apply (wp_ArchMmuProtect (U := self (roots v) (v_m v)) (roots v) sp); try done; try lia|].
  - eapply roots_in, Hus.
  - apply Hok.
  - intros x Hx Hd. destruct (region_sections own v a sp r r (vm_ok_pend own v a r Hok) Hus Hr eq_refl eq_refl) as [[Hs1 Hs2]|Hn]; [|by destruct (Hn x Hx)].
    destruct Hx as [Hx _]. rewrite (proj1 (idx_of x ltac:(lia))). unfold SECTION_SIZE in *. Z.div_mod_to_equations. lia.
  - intros c s' (Hm & Hty & Htr & _). wp_step. by apply Hyes, vm_ok_protected.
Qed.
End protect.

Lemma wp_VmmProtectUserRange own v i a sp va n np Q :
  vm_ok own v → live_space v i a sp → 0 ≤ va < 2 ^ 32 → 0 ≤ n < 2 ^ 32 →
  (∀ rc v', vm_ok own v' → Q rc v') → wp (VmmProtectUserRange i va n np) Q v.
Proof.
  intros Hok Hl Hva Hn HQ. pose proof Hl as [_ Hus]. pose proof (vm_vec _ _ _ Hok a sp (proj1 Hus)) as Hvec.
  unfold VmmProtectUserRange. do 4 (apply wp_if; intros ?; [wp_step; by apply HQ|]).
  apply wp_if; intros ?; [wp_step; by apply HQ|]. apply wp_if; intros Ewx; [wp_step; by apply HQ|].
  wp_step. apply (wp_as_of v i a sp); [apply Hok|done|]. wp_step. apply (wp_get_as v a sp); [apply Hus|].
  destruct (wp_find _ Hvec va Hva) as (o & Ho & Hs). rewrite Ho. destruct o as [k|]; [|wp_step; by apply HQ]. destruct Hs as [Hk Hc].
  set (r := aget (data (as_regions sp)) k) in *. assert (r ∈ regions (as_regions sp)) as Hr by (eapply list_elem_of_lookup_2, (regions_lookup _ Hvec); done).
  apply wp_if; intros ?; [wp_step; by apply HQ|]. case_if Er; [wp_step; by apply HQ|]. subst va n.
  wp_step. apply wp_on_m. apply (wp_VmmProtectPage own v a sp k _ Hok Hus Hk); [apply user_prot|by apply wx_user|..]; unfold put_as.
  - do 2 wp_step. wp_step. rewrite set_v_m_id. replace (set_v_as _ _) with v; [by apply HQ|]. rewrite insert_id by apply Hus. by destruct v.
  - intros s' Hok'. do 2 wp_step. wp_step. by apply HQ.
Qed.

(** * Injecting into a space without tasks *)

Section inject.
Context (own : gmap Z frame_owner) (a : Z) (sp : AddressSpace) (r : VirtMemRegion) (m : Z) (x : MemObject) (args : InjectObjArgs) (first : Z).
Context (Hr : r ∈ regions (as_regions sp)) (Hur : user_region r) (Hstart : vaddr_start r = ia_dest_vaddr args) (Hsize : size r = ia_len args).
Context (Hr0 : 0 ≤ vaddr_start r) (Hprot : prot r = Z.lor (ia_prot args) VM_PROT_USER) (Hmt : memtype r = VM_MEM_NORMAL) (Hsh : owner r = VM_BACKING_SHARED).
Context (Hx : mem_ok own m x) (Hk : m_kind x = MEMKIND_SHARED) (Hfirst : 0 ≤ first) (Hfit : first + ia_len args / PAGE_SIZE ≤ m_page_count x).

Lemma wp_inject_pages n : ∀ v i Q,
  vm_ok own v → user_space v a sp → 0 ≤ i → i + Z.of_nat n = ia_len args / PAGE_SIZE →
  (∀ ok s', vm_ok own (set_v_m s' v) → Q ok s') →
  wp (inject_pages sp x args first n i) Q (v_m v).
Proof.
  induction n as [|n IH]; intros v i Q Hok Hus Hi Hn HQ; cbn [inject_pages].
  { wp_step. apply HQ. by rewrite set_v_m_id. }
  destruct Hur as (Ha & Hz & He & Hp3). unfold r_end, USER_VA_TOP in He.
  assert (i * PAGE_SIZE + PAGE_SIZE ≤ ia_len args) as Hil by (unfold PAGE_SIZE in *; Z.div_mod_to_equations; lia).
  case_if E; [apply IH; try done; lia|]. destruct (Hx Hk) as (_ & _ & Hpg). pose proof (Hpg (first + i) ltac:(lia) E) as Hown.
  destruct (vm_own _ _ _ Hok _ _ Hown) as (_ & Hpm & Hpr). set (pa := aget (m_page_addrs x) (first + i)) in *.
  unfold VmmMapUserPage, is_user. rewrite (bool_decide_true _ (proj2 Hus)), Hpm. cbn [negb Z.eqb].
  rewrite w32_small by (unfold PAGE_SIZE in *; lia).
  assert ((ia_dest_vaddr args + i * PAGE_SIZE) mod PAGE_SIZE = 0) as Hvm by (rewrite <- Hstart, Z.mod_add; done).
  rewrite Hvm. cbn [negb Z.eqb]. wp_step. rewrite <- Hprot, <- Hmt.
  apply (wp_VmmMapRange (λ _, []) (λ _, []) own own v a sp r); try done; try (unfold PAGE_SIZE in *; lia).
  - by left.
  - unfold r_end, PAGE_SIZE in *. lia.
  - unfold PAGE_SIZE in *. Z.div_mod_to_equations. lia.
  - by rewrite Hsh.
  - intros s' _ Hnx _ _. cbn [negb]. wp_step. apply HQ, Hnx.
  - intros s' Hnx _ _ _. cbn [negb]. apply (IH (set_v_m s' v)); try done; [apply Hnx|lia..].
Qed.
End inject.

Definition args_ok (args : InjectObjArgs) : Prop :=
  0 ≤ ia_dest_vaddr args < 2 ^ 32 ∧ 0 ≤ ia_offset args < 2 ^ 32 ∧ 0 ≤ ia_len args < 2 ^ 32.

Lemma inject_check_fits own m x args first :
  mem_ok own m x → args_ok args → inject_check x args = inr first → ia_offset args mod PAGE_SIZE = 0 → ia_len args mod PAGE_SIZE = 0 →
  m_kind x = MEMKIND_SHARED ∧ 0 ≤ first ∧ first + ia_len args / PAGE_SIZE ≤ m_page_count x.
Proof.
  intros Hx (_ & Ho & Hl) Hc Hom Hlm. revert Hc. unfold inject_check. case_if E1; [done|]. case_if E2; [done|].
  case_if E3; [done|]. destruct (_ && _) eqn:E4; intros [= <-]. apply bool_decide_eq_true in E1. destruct (Hx E1) as (_ & Hpc & _).
  rewrite w32_small in * by (unfold PAGE_SIZE; lia). split; [done|]. unfold PAGE_SIZE in *. Z.div_mod_to_equations. lia.
Qed.

Lemma wp_set_synced own v m x Q :
  vm_ok own v → mems (v_k v) !! m = Some x → (∀ v', vm_ok own v' → Q tt v') → wp (on_k (upd_mem m (set_m_exec_synced true))) Q v.
Proof.
  intros Hok Hx HQ. apply wp_on_k, wp_upd_mem. exists x. split; [done|].
  destruct (mems_ok_flags own (region_refs (v_as v)) (mems (v_k v)) m x (set_m_exec_synced true x)) as [Hms Hk]; try done; [apply Hok|].
  rewrite drain_mems by apply Hok. by apply HQ, vm_ok_mems.
Qed.

(** The region of an injected object, with the pages it has. *)
Lemma wp_inject_obj own v a sp m x args first r Q :
  vm_ok own v → user_space v a sp → args_ok args → m ≠ 0 → mems (v_k v) !! m = Some x → mappable x → inject_check x args = inr first →
  ia_offset args mod PAGE_SIZE = 0 → ia_len args mod PAGE_SIZE = 0 →
  r = mkRegion (ia_dest_vaddr args) (ia_len args) (Z.lor (ia_prot args) VM_PROT_USER) (ia_prot args) VM_MEM_NORMAL VM_BACKING_SHARED VM_FLAG_NONE m first →
  user_region r → (∀ rc v', (∃ own', vm_ok own' v') → Q rc v') →
  wp (let! ok := VmmAddRegion_ a r in
      if negb ok then ret ERR_NOMEM else
      let! sp := get_as a in
      let! ok := on_m (inject_pages sp x args first (Z.to_nat (ia_len args / PAGE_SIZE)) 0) in
      if negb ok then VmmRemoveRegion_ a (ia_dest_vaddr args) (ia_len args) ;; ret ERR_NOMEM else
      when (executable (ia_prot args) && negb (m_exec_synced x)) (on_k (upd_mem m (set_m_exec_synced true))) ;;
      ret ZUZU_OK) Q v.
Proof.
  intros Hok Hus Hargs Hm0 Hx Hmap Hc Hom Hlm -> Hur HQ. set (r := mkRegion _ _ _ _ _ _ _ _ _).
  assert (mem_ok own m x) as Hmok by (by apply (ms_page _ _ _ (vm_mems _ _ _ Hok))).
  destruct (inject_check_fits own m x args first) as (Hk & Hf0 & Hfit); try done. destruct Hargs as (Ha1 & _ & Ha3).
  wp_step. apply (wp_AddRegion own v a sp r); try done; try (simpl; lia); [by apply vm_ok_pend|..].
  { intros _. exists x. split; [done|]. split; [apply Hmap|done]. }
  { intros k' ? ? _. cbn [negb]. wp_step. apply HQ. exists own. by apply vm_ok_k. }
  intros v' vec Hok' _ Has Hadd _ Hkept. cbn [negb]. set (sp' := set_as_regions vec sp) in *.
  assert (user_space v' a sp') as Hus' by (split; [by rewrite Has, lookup_insert_eq|apply Hus]).
  pose proof (added_member _ _ _ Hadd) as Hin. destruct (stored_attrs r) as (F1 & F2 & F3 & _). destruct (stored_range r) as [F5 F6].
  wp_step. apply (wp_get_as v' a sp'); [apply Hus'|]. wp_step. apply wp_on_m.
  apply (wp_inject_pages own a sp' (stored r) m x args first) with (v := v'); try done; try (rewrite F5; simpl; lia).
  { by eapply (vm_user _ _ _ Hok'). }
  { rewrite Z2Nat.id; [lia|]. apply Z.div_pos; [lia|done]. }
  intros [] s' Hok''; cbn [negb]; wp_step.
  - destruct (Hkept m x Hx) as (x' & Hx' & _). apply wp_when; intros _; [|wp_step; apply HQ; by exists own].
    apply (wp_set_synced own (set_v_m s' v') m x'); [done..|]. intros v'' Hv''. wp_step. apply HQ. by exists own.
  - change (ia_dest_vaddr args) with (vaddr_start r). change (ia_len args) with (size r). rewrite <- F5, <- F6.
    apply (wp_RemoveRegion own (set_v_m s' v') a sp' (stored r) (stored r)); try done; [by apply vm_ok_pend|].
    intros own' v'' vec' Hv'' _ _ _. wp_step. apply HQ. by exists own'.
Qed.

Lemma wp_InjectObjIntoSpace own v i a sp parent ps args Q :
  vm_ok own v → live_space v i a sp → spaces (v_k v) !! parent = Some ps → args_ok args →
  (∀ e, HandleTableLookup (s_handle_table ps) (ia_mem args) = Some e → type_ e = HANDLE_MEM → obj e ≠ 0 →
     ∃ x, mems (v_k v) !! obj e = Some x ∧ mappable x) →
  (∀ rc v', (∃ own', vm_ok own' v') → Q rc v') → wp (InjectObjIntoSpace i parent args) Q v.
Proof.
  intros Hok Hl Hps Hargs Hobj HQ. pose proof Hl as [_ Hus]. pose proof (vm_frees _ _ _ Hok) as Hf.
  assert (∀ rc v', vm_ok own v' → Q rc v') as HQ' by (intros rc v' H; apply HQ; by exists own).
  unfold InjectObjIntoSpace. case_if E1; [wp_step; by apply HQ'|]. case_if E2; [wp_step; by apply HQ'|].
  do 2 (apply wp_if; intros ?; [wp_step; by apply HQ'|]). case_if E3; [wp_step; by apply HQ'|].
  wp_step. apply wp_on_k. wp_step. rewrite drain_same by done. apply wp_if; intros ?; [wp_step; by apply HQ'|].
  wp_step. apply (wp_as_of v i a sp); [done..|].
  assert (∀ ow back first', user_region (mkRegion (ia_dest_vaddr args) (ia_len args) (Z.lor (ia_prot args) VM_PROT_USER) (ia_prot args)
    VM_MEM_NORMAL ow VM_FLAG_NONE back first')) as Hur.
  { intros ow back first'. split_and!; simpl; [done|done|unfold r_end; simpl; lia|apply user_prot]. }
  apply wp_if; intros Eh.
  { wp_step. destruct Hargs as (? & ? & ?). apply (wp_AddRegion own v a sp); simpl; try done; try lia; [by apply vm_ok_pend|..].
    - intros k' ? ? _. wp_step. apply HQ'. by apply vm_ok_k.
    - intros v' vec Hok' _ _ _ _ _. wp_step. by apply HQ'. }
  wp_step. apply (wp_on_space v parent ps); [done..|]. destruct (HandleTableLookup _ _) as [e|] eqn:Ee; [|wp_step; by apply HQ'].
  apply wp_if; intros Et; [wp_step; by apply HQ'|]. do 2 (apply wp_if; intros ?; [wp_step; by apply HQ'|]).
  apply wp_if; intros Eo; [wp_step; by apply HQ'|]. b2p. apply bool_decide_eq_true in Et. destruct (Hobj e eq_refl Et Eo) as (x & Hx & Hm).
  wp_step. apply (wp_on_mem v (obj e) x); [done..|]. destruct (inject_check x args) as [err|first] eqn:Ec; [wp_step; by apply HQ'|].
  apply (wp_inject_obj own v a sp (obj e) x args first (mkRegion _ _ _ _ _ _ _ _ _)); try done.
Qed.

(** * Every sequence of calls *)

(** What a task can ask for. *)
Inductive vm_op :=
  | MapAnon (space_ hint size_ prot_ : Z)
  | MapMemObj (space_ slot prot_ hint : Z)
  | Unmap (space_ va : Z)
  | Protect (space_ va size_ new_prot : Z)
  | Inject (kitten parent : Z) (args : InjectObjArgs)
  | Touch (space_ va len_ : Z) (write : bool).

Definition vm_run (op : vm_op) : VM Z :=
  match op with
  | MapAnon s hint n p => let! r := VmmMapAnon s hint n p in ret r.1
  | MapMemObj s slot p hint => let! r := VmmMapMemObj s slot p hint in ret r.1
  | Unmap s va => VmmUnmapUserRegion s va
  | Protect s va n p => VmmProtectUserRange s va n p
  | Inject k p args => InjectObjIntoSpace k p args
  | Touch s va n w =>
      let! a := as_of s in
      let! sp := get_as a in
      let! ok := VmmCheckUserFault sp va n w in
      ret (if ok : bool then ZUZU_OK else ERR_BADPTR)
  end.

Definition u32 (x : Z) : Prop := 0 ≤ x < 2 ^ 32.
(** The object of a handle is there, and can be referred to once more. *)
Definition obj_ok (v : vst) (e : HandleTableEntry) : Prop := obj e ≠ 0 → ∃ x, mems (v_k v) !! obj e = Some x ∧ mappable x.

(** What holds when the operation is called: the space is live, the arguments are
    registers, and handles lead to objects. *)
Definition op_ok (v : vst) (op : vm_op) : Prop :=
  match op with
  | MapAnon s hint n _ => (∃ a sp, live_space v s a sp) ∧ u32 hint ∧ u32 n
  | MapMemObj s slot _ _ => (∃ a sp, live_space v s a sp) ∧
      ∀ x, spaces (v_k v) !! s = Some x → ∃ e, HandleTableGet (s_handle_table x) slot = Some e ∧ obj_ok v e
  | Unmap s va => (∃ a sp, live_space v s a sp) ∧ u32 va
  | Protect s va n _ => (∃ a sp, live_space v s a sp) ∧ u32 va ∧ u32 n
  | Inject k p args => (∃ a sp, live_space v k a sp) ∧ args_ok args ∧
      ∃ x, spaces (v_k v) !! p = Some x ∧ ∀ e, HandleTableLookup (s_handle_table x) (ia_mem args) = Some e → type_ e = HANDLE_MEM → obj_ok v e
  | Touch s va n _ => (∃ a sp, live_space v s a sp) ∧ u32 va ∧ u32 n
  end.

Inductive vm_runs : vst → vst → Prop :=
  | runs_refl v : vm_runs v v
  | runs_step v v1 v2 op rc : vm_runs v v1 → op_ok v1 op → vm_run op v1 = Ok (rc, v2) → vm_runs v v2.

Lemma wp_vm_run own v op : vm_ok own v → op_ok v op → wp (vm_run op) (λ _ v', ∃ own', vm_ok own' v') v.
Proof.
  intros Hok. destruct op as [s hint n p|s slot p hint|s va|s va n p|k p args|s va n w]; simpl; intros [(a & sp & Hl) Ho].
  - destruct Ho. wp_step. apply (wp_VmmMapAnon own v s a sp); try done. intros r v' Hv'. wp_step. by exists own.
  - pose proof Hl as [(x & Hx & Ha) Hus]. destruct (Ho x Hx) as (e & He & Hobj).
    wp_step. apply (wp_VmmMapMemObj own v s x a sp slot e); try done. intros r v' Hv'. wp_step. by exists own.
  - by apply (wp_VmmUnmapUserRegion own v s a sp).
  - destruct Ho. apply (wp_VmmProtectUserRange own v s a sp); try done. by exists own.
  - destruct Ho as (Hargs & x & Hx & He). by apply (wp_InjectObjIntoSpace own v k a sp p x).
  - destruct Ho. wp_step. apply (wp_as_of v s a sp); [apply Hok|done|]. wp_step. apply (wp_get_as v a sp); [apply Hl|].
    wp_step. eapply wp_mono; [apply (wp_VmmCheckUserFault own v a sp); try done; apply Hl|].
    intros ok v' (Hv' & _). by wp_step.
Qed.
Lemma wp_Ok_inv {S A} (m : M S A) Q s x s' : wp m Q s → m s = Ok (x, s') → Q x s'.
Proof. unfold wp. intros H E. by rewrite E in H. Qed.
Lemma vm_runs_ok own v v' : vm_ok own v → vm_runs v v' → ∃ own', vm_ok own' v'.
Proof.
  intros Hok. induction 1 as [v|v v1 v2 op rc _ IH Ho Hrun]; [by exists own|]. destruct (IH Hok) as [own1 Hok1].
  exact (wp_Ok_inv _ _ _ _ _ (wp_vm_run own1 v1 op Hok1 Ho) Hrun).
Qed.

(** A page of a user space that lies in a region. *)
Definition maps (v : vst) (a : Z) (sp : AddressSpace) (r : VirtMemRegion) (i j : Z) (p : pte) : Prop :=
  user_space v a sp ∧ 0 ≤ i < 2048 ∧ 0 ≤ j < 256 ∧ tr (v_m v) (sp_root sp) i j = Some p ∧
  r ∈ regions (as_regions sp) ∧ contains r (page_va i j).

Lemma maps_page own v a sp r i j p : vm_ok own v → maps v a sp r i j p → page_ok own sp r i j p.
Proof. intros Hok (Hus & Hi & Hj & Htr & Hr & Hc). by eapply page_in_region. Qed.





(** * A task maps two pages and writes to the first *)

Module UserDemo.
Definition sp0 : AddressSpace := mkAs 0x4000 (mkVec 16 (replicate 4 inhabitant) 0 4) ADDRESS_SPACE_USER (mkToken 3 1).
Definition space0 : SpaceObject := mkSpace 1 0 (Some 100) (mkTable [] []) None 0 false 0 0 [] 0 [] false [] 1.
Definition v0 : vst :=
  mkV (set_spaces {[1 := space0]} kst0) (mkMst (λ _, 0) [] [0x8000; 0x9000; 0xA000] [true; true; true] []) (mkAst [] [] 0 0 0 []) {[100 := sp0]} None.
Definition after (op : vm_op) (v : vst) : vst := match vm_run op v with Ok (_, v') => v' | _ => v end.
Definition returns (op : vm_op) (v : vst) : bool := match vm_run op v with Ok _ => true | _ => false end.
Definition v1 : vst := after (MapAnon 1 0x20000000 0x2000 3) v0.
Definition v2 : vst := after (Touch 1 0x20000010 16 true) v1.

Lemma v0_ok : vm_ok ∅ v0.
Proof.
  assert (∀ a sp, v_as v0 !! a = Some sp → a = 100 ∧ sp = sp0) as Has by (intros a sp Ha; simpl in Ha; by apply lookup_singleton_Some in Ha as [<- <-]).
  split; try done.
  - change (roots v0) with [(0x4000, 2048)]. split; try done.
    + by vm_compute; repeat constructor; set_solver.
    + apply Forall_forall. change (all_pages _ _) with [0x4000; 0x5000; 0x8000; 0x9000; 0xA000].
      repeat (apply Forall_cons; split; [done|]). by apply Forall_nil.
    + intros r [->|?%elem_of_nil]%elem_of_cons; [by left|done].
    + intros e He. by apply elem_of_nil in He.
  - intros a sp [-> ->]%Has. split; simpl; try done; try lia; constructor.
  - intros a sp r [[-> ->]%Has _] Hr. by apply elem_of_nil in Hr.
  - split.
    + intros m _ Hin. change (_ ++ _) with (@nil Z) in Hin. by apply elem_of_nil in Hin.
    + intros m x Hx. simpl in Hx. by rewrite lookup_empty in Hx.
    + intros m x Hx. simpl in Hx. by rewrite lookup_empty in Hx.
    + intros m Hin. change (dma_refs _) with (@nil Z) in Hin. by apply elem_of_nil in Hin.
  - intros a sp r [-> ->]%Has Hr. by apply elem_of_nil in Hr.
Qed.
Lemma returns_run op v : returns op v = true → ∃ rc, vm_run op v = Ok (rc, after op v).
Proof. unfold returns, after. destruct (vm_run op v) as [[rc v']| |]; [by exists rc|done..]. Qed.

Lemma runs_v2 : vm_runs v0 v2.
Proof.
  destruct (returns_run (MapAnon 1 0x20000000 0x2000 3) v0) as [rc1 H1]; [by vm_compute|].
  destruct (returns_run (Touch 1 0x20000010 16 true) v1) as [rc2 H2]; [by vm_compute|].
  eapply runs_step; [eapply runs_step; [apply runs_refl| |exact H1]| |exact H2].
  - split; [|unfold u32; lia]. exists 100, sp0. split; [exists space0|]; by split.
  - split; [|unfold u32; lia]. exists 100. eexists. split; [eexists; split; [by vm_compute|reflexivity]|]. split; [by vm_compute|reflexivity].
Qed.

Definition sp2 : AddressSpace := default sp0 (v_as v2 !! 100).
Definition region2 : VirtMemRegion := aget (data (as_regions sp2)) 0.
Definition page2 : pte := pte_of 0x8000 11 VM_MEM_NORMAL.

Lemma sp2_user : user_space v2 100 sp2.
Proof. split; by vm_compute. Qed.
Lemma maps2 : maps v2 100 sp2 region2 0x200 0 page2.
Proof.
  split; [exact sp2_user|]. split; [lia|]. split; [lia|]. split; [by vm_compute|]. split; [|by vm_compute].
  apply list_elem_of_lookup. exists 0%nat. by vm_compute.
Qed.




End UserDemo.

(** * Devices *)

Module DeviceDemo.
(** Two devices of half a kilobyte, as virtio-mmio has them, in slots 0 and 1. *)
Definition device (pa : Z) : MemObject := mkMem MEMKIND_DEVICE 1 false pa 0x200 33 UINTPTR_MAX 0 [] 1 0 [] 0 0 (-1).
Definition entry_of (m : Z) : HandleTableEntry := mkEntry HANDLE_MEM 0xFF 0 m 0 0.
Definition table : HandleTable :=
  mkTable [Some (1, [entry_of 16; entry_of 32] ++ replicate 62 inhabitant)] [].
Definition space1 : SpaceObject := set_s_handle_table table UserDemo.space0.
Definition v0 : vst :=
  set_v_k (set_mems (<[16 := device 0xA000000]> (<[32 := device 0xA003000]> ∅)) (set_spaces {[1 := space1]} kst0)) UserDemo.v0.
Definition at_ (v : vst) (va : Z) : option pte := sp ← v_as v !! 100; tr_at sp (v_m v) va.
Definition starts (v : vst) : list Z := match v_as v !! 100 with Some sp => vaddr_start <$> regions (as_regions sp) | None => [] end.
Definition VA : Z := 0x7F000000.
Definition RW : Z := Z.lor PROT_READ PROT_WRITE.

(** Mapping a second device at an address where one is mapped fails, as it should, but
    takes the mapping of the first one away: the region stays, without its pages. *)
Theorem VmmMapMemObj_clobbers :
  wp (let! r1 := VmmMapMemObj 1 0 RW VA in
      let! before := gets (λ v, at_ v VA) in
      let! r2 := VmmMapMemObj 1 1 RW VA in
      ret (r1, before, r2)) (λ '(r1, before, r2) v,
    r1 = (ZUZU_OK, VA) ∧ is_Some before ∧ r2 = (ERR_NOMEM, 0) ∧ starts v = [VA] ∧ at_ v VA = None) v0.
Proof. vm_compute. split_and!; try done. by eexists. Qed.

(** Dropping the handle of a device whose size is not a multiple of the page size
    leaves the device mapped. *)
Theorem MemObjUnmapAndDrop_keeps :
  wp (let! r := VmmMapMemObj 1 0 RW VA in
      MemObjUnmapAndDrop 100 VA 16 ;;
      ret r) (λ r v, r = (ZUZU_OK, VA) ∧ starts v = [VA] ∧ at_ v VA = Some (pte_of 0xA000000 (Z.lor RW VM_PROT_USER) VM_MEM_DEVICE)) v0.
Proof. by vm_compute. Qed.
End DeviceDemo.

(** * Writes to a read-only page *)

Module ReadOnlyDemo.
(** A handle to a shared page without [PERM_WRITE], in slot 0. *)
Definition page : MemObject := mkMem MEMKIND_SHARED 1 false 0 0 0 0 0 [] 0 0 [0xB000] 1 0 (-1).
Definition space1 : SpaceObject :=
  set_s_handle_table (mkTable [Some (1, mkEntry HANDLE_MEM PERM_MAP 0 16 0 0 :: replicate 63 inhabitant)] []) UserDemo.space0.
Definition v0 : vst := set_v_k (set_mems {[16 := page]} (set_spaces {[1 := space1]} kst0)) UserDemo.v0.
Definition writable_at (va : Z) : VM bool := let! sp := get_as 100 in VmmCheckUserFault sp va 4 true.

End ReadOnlyDemo.
